(* ===== verification/_CoqProject ===== *)
-Q . S2P
Prelude.v
Base64.v
Hexstring.v
BlockHash.v
Md5.v
Sha1.v
Dlist.v
MemHelper.v
Xstream.v
Strobj.v
Sloop.v
Xmldb.v
XmldbFile.v
Ephp.v
EphpParse.v
EphpRun.v
Patch.v
PatchRun.v
PatchShow.v
PatchTemplate.v
PatchRender.v
PatchMessage.v
XmldbServer.v
XmldbRequests.v
Lrgbin.v
Rgdb.v
RgdbSession.v
Libxmldbc.v
Effects.v
Sendtrap.v
Postman.v
Sealpac.v
Cvimg.v
DhcpOptions.v
DhcpPacket.v
DhcpLeases.v
DhcpServer.v
DhcpClient.v
DhcpSafety.v
DhcpReplies.v
DhcpRequests.v
DhcpExchange.v
DhcpClientLease.v
DhcpNetwork.v
DhcpConfig.v
DhcpConfigSafety.v
DhcpLoop.v
DhcpStart.v
DhcpConfigText.v
DhcpScript.v
DhcpRoutes.v
DhcpBound.v
Dumpleases.v
Arpping.v
