(* ===== verification/Prelude.v ===== *)
(** * Verification of the WAR100 router firmware's own C code.

    ** The program

    The repository holds the sources of a router: a kernel, a tool chain and programs of others, and the vendor's own C code.  The
    development is about the latter, in seven parts.

    - The common library ([comlib]): base 64, hexadecimal strings, MD5 and SHA-1, a pooled allocator, character streams with
      push-back, growing strings, and the event loop of the daemons.
    - The configuration database ([tools/alpha/xmldb]): a tree of named nodes with numbers, addressed by paths, kept in an XML file,
      and served to other programs over a local socket.
    - The templates of the database ([patch.c], [ephp.c]): text with tags, and a small language of programs, from which the web
      pages and the files of the other programs are made out of the tree.
    - The clients of the database: the command line client ([tools/alpha/rgdb]), the library of the other programs
      ([comlib/libxmldbc.c]), and what is built on it: traps ([sendtrap.c]) and the posting of settings ([postman.c]).
    - The DHCP server and client ([progs.gpl/udhcpcd]) with their packets, options, leases, configuration and script.
    - The maker of language packs ([tools/sealpac]), which collects the texts of the web pages.
    - The maker of images ([tools/realtek/cvimg.c]), which puts headers and checksums for the boot loader on what is built.

    They meet as follows.  The server of the database runs in the event loop, allocates with the pool, reads files through
    streams, and hands requests for templates to the two engines, which read the tree.  The clients send requests to the server.
    The DHCP server is configured by a file that the router makes with such templates; the client and the server talk over
    the network, and the client runs a script with what the server told it.  Packs have the MD5 digests of the library.

    ** The files

    Each file has one module of its name.  Definitions keep the names of the source.

    - [Prelude] (this file): bytes, machine words, C strings, checked access to arrays, tactics and shared lemmas.
    - [Base64], [Hexstring], [Md5], [Sha1]: [comlib/base64.c], [hexstring.c], [md5.c], [sha1.c]; [BlockHash] has what the two digests
      share, a message that is fed in pieces and hashed by blocks.
    - [Dlist]: [include/dlist.h], the links of the nodes as maps, and lists of addresses as their specification.
    - [MemHelper]: [comlib/mem_helper.c]; the state is a free and a used list of blocks and the counters for each size.
    - [Xstream], [Strobj]: [comlib/xstream.c] and [strobj.c].
    - [Sloop]: [comlib/sloop.c]; the state is the pools and lists of timers, readers, signals and messages; a turn is a
      function of what the system answers.
    - [Xmldb], [XmldbFile]: [xmldb/xmldb.c]; the tree, paths, and the XML file.  The specification is a finite map from lists of
      keys to values.
    - [Ephp], [EphpParse], [EphpRun]: [xmldb/ephp.c]; the parser with its heap, its printer, and the execution of programs.
    - [Patch], [PatchRun], [PatchShow], [PatchTemplate], [PatchRender], [PatchMessage]: [xmldb/patch.c]; the engine, and templates as
      data with their meaning.
    - [XmldbServer], [XmldbRequests]: [xmldb/main.c]; the connections as state machines, and whole requests.
    - [Lrgbin], [Rgdb], [RgdbSession]: [rgdb/lrgbin.c] and [rgdb.c]; the client, and sessions of the client with the server.
    - [Libxmldbc], [Sendtrap], [Postman]: [comlib/libxmldbc.c], [sendtrap.c] and [postman.c]; [Effects] has the monad of routines whose result
      is what they do in the world: commands, requests and files.
    - [Sealpac]: [sealpac/sealpac.c]; the state is the sorted list of texts, a pack the list of its bytes.
    - [Cvimg]: [realtek/cvimg.c]; the image is a block of bytes with checked stores.
    - [DhcpOptions], [DhcpPacket], [DhcpLeases], [DhcpServer], [DhcpClient], [DhcpConfig]: [udhcpcd/options.c], [packet.c], [leases.c],
      [serverpacket.c] with [dhcpd.c] and the leases of [files.c], [clientpacket.c] with [dhcpc.c], and the configuration of [files.c].
    - [DhcpLoop]: the loop of [dhcpd.c]; [DhcpScript], [DhcpRoutes], [DhcpBound]: [script.c], the environment of the script, its runs for the
      routes, and the script of a client that is bound.
    - [Arpping], [Dumpleases]: [arpping.c], the question whether an address is in use, and [dumpleases.c], the printer of the file of leases.
    - [DhcpSafety], [DhcpReplies], [DhcpRequests], [DhcpExchange], [DhcpClientLease], [DhcpNetwork], [DhcpConfigSafety], [DhcpStart],
      [DhcpConfigText]: the theorems about them.

    ** How C is modelled

    A byte is a [Z] from 0 to 255, a C string the list of its bytes without the terminator, a word a [Z] with its wrap-around
    written out ([u8], [u16], [u32]); the byte order of the machine is a class ([DhcpOptions.Endian]) over which everything is
    proved.  State is passed explicitly or through a small monad ([Ephp.M], [Strobj.M]); what the system answers (time, network,
    files, memory) is an input, so that theorems hold for all answers.  Undefined behaviour, a read or write out of bounds or of
    something that is not initialised, is [None] or [UB]: a theorem that says [Some] says that there is none.

    ** The theorems

    - The database is a map: setting, deleting and finding nodes refine the operations of a finite map on every path
      ([xmldb_set_value_refines], [xmldb_del_node_refines], [xmldb_find_node_spec]); any sequence of operations keeps its
      invariant and neither leaks nor frees twice, while there is memory, or with memory failing at any time if nothing is deleted ([xmldb_ops_safe]); a tree that is written to a file is read back ([xmldb_file_roundtrip]).
    - The server: while there is memory and a slot for each client, well-formed requests in any interleaving meet no undefined behaviour, the
      database stays sound and nothing is leaked ([server_safe]); a client reads what it wrote ([server_read_your_writes]), gets a template with what it shows ([server_patch_request]), and finds a
      saved database again ([server_save_restore]).
    - Templates: both parsers end on every text ([parse_ephp_ends], [patch_ends]); printing and parsing programs is the identity
      ([ephp_print_parse]); a template shows what its meaning as data says ([ephp_template_plays], [patch_renders]).
    - The clients of the database: what is set is got, through the whole of client and server, within the sizes of their buffers ([rgdb_set_get], [xmldbc_set_get]); a command
      line with tame runtime nodes ends with an exit code ([rgdb_ends]) and nothing is leaked ([rgdb_frees]).  A setting that is
      posted becomes the configuration only if its service accepts it ([postman_checks]); a trap goes to every host, if its
      command fits the buffer ([specific_trap_sent]).
    - DHCP, the server: its loop serves any number of well-formed messages through signals, timeouts and errors, and its leases stand
      ([loop_serves], and without the loop [server_runs] and [leases_stand]); it honours its offers unless another client claims the address by a renewal ([offer_honoured]); it can be started with any file whose values fit the places that they are copied to unchecked ([configured_server_serves]), and files mean
      what they say ([config_read_back]).
    - DHCP, the client: bound, renewing or rebinding, it does not hold an address beyond its lease ([client_never_overstays]), and gives it up when no server
      answers ([lease_runs_out]).  Together: a client that looks for a server is bound to an address that the server has in its
      table for just the time that the client counts on ([client_gets_address]), and its script is told so ([bound_script_runs]).
      The environment of the script has the options of the packet within its buffers, if they have whole values
      ([script_environment]), and is overrun if they have not ([short_option_overflows]); every route is told once
      ([classless_routes_told]).  Who has an address is found by ARP ([Arpping.holder_found]), and the file of leases is shown as the
      server wrote it ([Dumpleases.leases_listed]).
    - Language packs: a pack holds every text once, and is read back ([sealpac_accumulates]).
    - Images: the words of an image add up to 0, but for odd files whose last byte is negative as a [char] ([firmware_image], [kernel_image]);
      the check of the size is exact ([size_chk_exact]).
    - The library: the digests are those of RFC 1321 and FIPS 180-1 for every way of feeding a message ([md5_stream_correct],
      [sha1_stream_correct]), base 64 and escaped text are read back ([base64_roundtrip], [sobj_markup_roundtrip]), blocks of the
      allocator are exclusive and accounted for ([mh_exclusive], [mh_accounting]), streams deliver their bytes ([xs_delivers]),
      strings refine texts while there is memory ([sobj_refines_text]), no slot of the event loop is lost if handlers spare their own socket, and the earliest timer runs when it
      is due ([sloop_conserves], [sloop_timer_order]).

    What the code does not do as it means to is stated as an example or a lemma beside the component.

    ** Fuel

    Recursion that is not structural has fuel, and a theorem shows that the fuel is enough: the search for an option has 512 for 500
    bytes ([get_option_ends]); the end of the options one more than the area has bytes; the fold of a checksum 4, as the sum of
    576 bytes has 25 bits; the search for an address one more than the range has addresses; lines and words of a file, and
    records of leases, one more than there are bytes, as each takes one at least; the parsers of templates a number that
    depends on the length of the text ([parse_ephp_ends], [patch_ends]).  The loop over the routes of an option has as many turns as a
    packet has bytes of options ([classless_routes_told]); the walk of [sealpac] through directories has the depth of the tree,
    which [sealpac_accumulates] takes as a hypothesis; 256 characters of a message are looked at for the words of a trap, as in the code.

    ** Not modelled

    - [comlib]: [susock.c], [unixsock.c], [dirutil.c], [dtrace.c] are calls of the system; [getifaddrs.c] is the C library's.
    - [udhcpcd]: the command lines of the server and the client, sockets, the pid files; the builds with DHCP+, 6RD, several instances
      or a held LAN address.
    - [sealpac]: [ephp.c], a later version of the parser of the database: the texts that it finds in a page are an input.
    - [sloop.c]: the handler of signals itself, which runs between any two instructions.
    - Memory: [malloc] fails in the library and in the database, where the code looks at it, and for the tables of the DHCP server; elsewhere it succeeds.
    - The kernel, the tool chain and the programs of others ([busybox], [dnsmasq], [iptables], [pppd], [nsbbox] and the like), the
      tool [mkimage] of the boot loader, the check of the flash in other builds of [cvimg.c], and what is not C (templates, boards). *)
From Stdlib Require Import ZArith Lia Bool String Ascii.
From stdpp Require Import base tactics list option numbers.

#[global] Open Scope Z_scope.
#[global] Set Default Proof Using "Type".

(** ** Machine integers and bytes *)

(** An [unsigned char]: a [Z] between 0 and 255. *)
Definition is_byte (b : Z) : Prop := 0 <= b < 256.

(** A character of a NUL-terminated string, other than the terminator. *)
Definition is_char (b : Z) : Prop := 0 < b < 256.

(** A region of memory is the list of its bytes; a C string is the list of the
    bytes before its terminator. *)
Abbreviation bytes := (Forall is_byte).
Abbreviation cstring := (Forall is_char).

Definition u8 (x : Z) : Z := x mod 2 ^ 8.
Definition u16 (x : Z) : Z := x mod 2 ^ 16.
Definition u32 (x : Z) : Z := x mod 2 ^ 32.

(** The value of a byte read through a (signed) [char] lvalue. *)
Definition schar (b : Z) : Z := if b <? 128 then b else b - 256.

(** [~x] on a 32-bit unsigned word. *)
Definition not32 (x : Z) : Z := 2 ^ 32 - 1 - x.

Definition INT_MAX : Z := 2 ^ 31 - 1.

(** A signed [int] result: [None] is the undefined behaviour of an overflow. *)
Definition int_of (x : Z) : option Z :=
  if (- 2 ^ 31 <=? x) && (x <=? INT_MAX) then Some x else None.

(** ** C strings *)

(** The bytes of a literal. *)
Fixpoint cs (s : string) : list Z :=
  match s with
  | EmptyString => []
  | String c s' => Z.of_N (N_of_ascii c) :: cs s'
  end.

(** [*p] for a pointer into a C string: the terminator reads as 0. *)
Definition deref (s : list Z) : Z := hd 0 s.

Fixpoint eqb_list (a b : list Z) : bool :=
  match a, b with
  | [], [] => true
  | x :: a', y :: b' => (x =? y) && eqb_list a' b'
  | _, _ => false
  end.

(** [strncmp(s, lit, strlen(lit)) == 0]. *)
Fixpoint has_prefix (lit s : list Z) : bool :=
  match lit, s with
  | [], _ => true
  | x :: lit', y :: s' => (x =? y) && has_prefix lit' s'
  | _ :: _, [] => false
  end.

(** [strcmp] and its variants, as the sign of the result. *)
Definition tolower (c : Z) : Z := if (65 <=? c) && (c <=? 90) then c + 32 else c.

Fixpoint compare_strings (f : Z -> Z) (a b : list Z) : Z :=
  match a, b with
  | [], [] => 0
  | [], _ :: _ => -1
  | _ :: _, [] => 1
  | x :: a', y :: b' => if f x =? f y then compare_strings f a' b' else Z.sgn (f x - f y)
  end.

Definition strcmp : list Z -> list Z -> Z := compare_strings (fun c => c).
Definition strcasecmp : list Z -> list Z -> Z := compare_strings tolower.

Definition isdigit (c : Z) : bool := (48 <=? c) && (c <=? 57).

(** The string from the first character that does not satisfy [p]. *)
Fixpoint eat (p : Z -> bool) (s : list Z) : list Z :=
  match s with c :: tl => if p c then eat p tl else s | [] => [] end.

Lemma length_eat p s : (length (eat p s) <= length s)%nat.
Proof. induction s as [|c s IH]; cbn [eat]; [done|]. destruct (p c); cbn [length]; lia. Qed.

(** ** Memory access: [None] is the undefined behaviour of an access out of bounds *)

(** [l[i]] *)
Definition rd {A} (l : list A) (i : Z) : option A :=
  if 0 <=? i then l !! Z.to_nat i else None.

(** [l[i] = x] *)
Definition wr {A} (l : list A) (i : Z) (x : A) : option (list A) :=
  if (0 <=? i) && (i <? Z.of_nat (length l)) then Some (<[Z.to_nat i := x]> l) else None.

(** Sequential output through a pointer that only moves forward: [out] is what has
    been written so far into a region of [cap] bytes. *)
Definition put (cap : Z) (out bs : list Z) : option (list Z) :=
  if Z.of_nat (length out) + Z.of_nat (length bs) <=? cap then Some (out ++ bs) else None.

Abbreviation zlen l := (Z.of_nat (length l)).

(** ** Automation *)

Create HintDb war discriminated.

(** Turn boolean tests into propositions. *)
Ltac bprop :=
  repeat match goal with
  | H : (_ && _) = true |- _ => apply andb_true_iff in H; destruct H
  | H : (_ || _) = true |- _ => apply orb_true_iff in H
  | H : (_ && _) = false |- _ => apply andb_false_iff in H
  | H : (_ || _) = false |- _ => apply orb_false_iff in H; destruct H
  | H : negb _ = true |- _ => apply negb_true_iff in H
  | H : negb _ = false |- _ => apply negb_false_iff in H
  | H : (_ =? _) = true |- _ => apply Z.eqb_eq in H
  | H : (_ =? _) = false |- _ => apply Z.eqb_neq in H
  | H : (_ <? _) = true |- _ => apply Z.ltb_lt in H
  | H : (_ <? _) = false |- _ => apply Z.ltb_ge in H
  | H : (_ <=? _) = true |- _ => apply Z.leb_le in H
  | H : (_ <=? _) = false |- _ => apply Z.leb_gt in H
  end.

(** Case analysis on every test of the goal. *)
Ltac bcase :=
  repeat match goal with
  | |- context [if ?b then _ else _] => destruct b eqn:?
  end; bprop.

Ltac inv_opt :=
  repeat match goal with
  | H : mbind _ ?o = Some _ |- _ => apply bind_Some in H as (? & ? & ?)
  | H : Some _ = Some _ |- _ => injection H as ?; subst
  | H : (_, _) = (_, _) |- _ => injection H as ?; subst
  | H : None = Some _ |- _ => discriminate H
  | H : Some _ = None |- _ => discriminate H
  end.

(** ** Bit-level reasoning *)

Lemma testbit_high n x i : 0 <= x < 2 ^ n -> n <= i -> Z.testbit x i = false.
Proof.
  intros Hx Hi. rewrite <- (Z.mod_small x (2 ^ n)) by assumption.
  destruct (Z.le_gt_cases 0 n); [by apply Z.mod_pow2_bits_high |].
  rewrite Z.pow_neg_r in Hx by lia. lia.
Qed.

Lemma byte_testbit_high b i : is_byte b -> 8 <= i -> Z.testbit b i = false.
Proof. intros Hb Hi. apply (testbit_high 8); [exact Hb | lia]. Qed.

Lemma mod_pow2_testbit x n i :
  0 <= n -> Z.testbit (x mod 2 ^ n) i = if i <? n then Z.testbit x i else false.
Proof.
  intros Hn. destruct (i <? n) eqn:E; bprop.
  - destruct (Z.le_gt_cases 0 i).
    + by apply Z.mod_pow2_bits_low.
    + by rewrite !Z.testbit_neg_r.
  - apply Z.mod_pow2_bits_high. lia.
Qed.

Lemma bit_range b n :
  0 <= n -> (forall i, n <= i -> Z.testbit b i = false) -> 0 <= b -> b < 2 ^ n.
Proof.
  intros Hn Hb Hp. destruct (Z.eq_dec b 0) as [->|Hz]; [lia|].
  destruct (Z.lt_ge_cases b (2 ^ n)) as [?|Hge]; [assumption|].
  assert (n <= Z.log2 b) by (apply Z.log2_le_pow2; lia).
  specialize (Hb (Z.log2 b) ltac:(lia)). rewrite Z.bit_log2 in Hb by lia. discriminate.
Qed.

Create Rewrite HintDb bits.
#[export] Hint Rewrite Z.lor_spec Z.land_spec Z.lxor_spec Z.ldiff_spec Z.testbit_0_l : bits.
#[export] Hint Rewrite mod_pow2_testbit Z.shiftl_spec Z.shiftr_spec Z.lnot_spec
  using lia : bits.

(** Split an index known to be below [n] into its concrete values. *)
Ltac split_index i n :=
  let rec go k := lazymatch k with
  | O => idtac
  | S ?k' =>
      let z := eval vm_compute in (Z.of_nat n - Z.of_nat k) in
      destruct (Z.eq_dec i z) as [->|?]; [| go k']
  end in go n.

Ltac zconst :=
  repeat match goal with
  | |- context [Z.testbit (Zpos ?p) (Zpos ?q)] =>
      let v := eval vm_compute in (Z.testbit (Zpos p) (Zpos q)) in
      change (Z.testbit (Zpos p) (Zpos q)) with v
  | |- context [Z.testbit (Zpos ?p) Z0] =>
      let v := eval vm_compute in (Z.testbit (Zpos p) Z0) in
      change (Z.testbit (Zpos p) Z0) with v
  | |- context [Z.testbit ?x (?a + ?b)] =>
      is_const_Z a; is_const_Z b;
      let v := eval vm_compute in (a + b) in change (a + b) with v
  | |- context [Z.testbit ?x (?a - ?b)] =>
      is_const_Z a; is_const_Z b;
      let v := eval vm_compute in (a - b) in change (a - b) with v
  | |- context [?a <? ?b] =>
      is_const_Z a; is_const_Z b;
      let v := eval vm_compute in (a <? b) in change (a <? b) with v
  | |- context [Z.testbit ?x (Zneg ?p)] => rewrite (Z.testbit_neg_r x (Zneg p)) by lia
  end
with is_const_Z a :=
  lazymatch a with Z0 => idtac | Zpos ?p => is_const_pos p | Zneg ?p => is_const_pos p end
with is_const_pos p :=
  lazymatch p with xH => idtac | xO ?q => is_const_pos q | xI ?q => is_const_pos q end.

(** Prove an equality of bytes, or of wider words, by comparing the bits below
    [n] one by one; the bits above are false on both sides. *)
Ltac bitwise n :=
  let i := fresh "i" in let Hi := fresh "Hi" in
  apply Z.bits_inj'; intros i Hi;
  destruct (Z.lt_ge_cases i (Z.of_nat n));
  [ split_index i n; try lia;
    repeat progress (autorewrite with bits; zconst);
    rewrite ?byte_testbit_high by (assumption || lia);
    rewrite ?andb_false_r, ?andb_true_r, ?orb_false_r, ?orb_false_l; try reflexivity
  | autorewrite with bits;
    repeat match goal with |- context [?a <? ?b] => destruct (Z.ltb_spec a b); try lia end;
    rewrite ?byte_testbit_high by (assumption || lia); try reflexivity ].

Lemma u8_byte x : is_byte (u8 x).
Proof. apply Z.mod_pos_bound. lia. Qed.

Lemma u8_small x : is_byte x -> u8 x = x.
Proof. intros. by apply Z.mod_small. Qed.

Lemma shiftr_range b k n : 0 <= n -> 0 <= k -> 0 <= b < 2 ^ (n + k) -> 0 <= Z.shiftr b k < 2 ^ n.
Proof.
  intros Hn Hk [H0 H1]. rewrite Z.shiftr_div_pow2 by lia. split.
  - apply Z.div_pos; lia.
  - apply Z.div_lt_upper_bound; [lia|]. by rewrite <- Z.pow_add_r, Z.add_comm by lia.
Qed.

Lemma lor_range n x y : 0 <= n -> 0 <= x < 2 ^ n -> 0 <= y < 2 ^ n -> 0 <= Z.lor x y < 2 ^ n.
Proof.
  intros Hn Hx Hy. assert (0 <= Z.lor x y) by (apply Z.lor_nonneg; lia). split; [done|].
  apply bit_range; [lia| |done]. intros i Hi.
  rewrite Z.lor_spec, !(testbit_high n); done.
Qed.

Lemma land_range n x y : 0 <= n -> 0 <= x -> 0 <= y < 2 ^ n -> 0 <= Z.land x y < 2 ^ n.
Proof.
  intros Hn Hx Hy. assert (0 <= Z.land x y) by (apply Z.land_nonneg; lia). split; [done|].
  apply bit_range; [lia| |done]. intros i Hi.
  rewrite Z.land_spec, (testbit_high n y), andb_false_r; done.
Qed.

Lemma shiftl_range n k x : 0 <= n -> 0 <= k -> 0 <= x < 2 ^ n -> 0 <= Z.shiftl x k < 2 ^ (n + k).
Proof.
  intros Hn Hk [H0 H1]. rewrite Z.shiftl_mul_pow2, Z.pow_add_r by lia. split; nia.
Qed.

(** ** Finite checks *)

(** A boolean property of every integer below [n], by evaluation. *)
Lemma check_range (P : Z -> bool) (n : Z) :
  forallb P (seqZ 0 n) = true -> forall i, 0 <= i < n -> P i = true.
Proof.
  intros H i Hi. rewrite forallb_forall in H. apply H.
  apply list_elem_of_In, elem_of_seqZ. lia.
Qed.

(** ** Lemmas on memory accesses *)

Lemma rd_Some {A} (l : list A) i x :
  rd l i = Some x <-> 0 <= i /\ l !! Z.to_nat i = Some x.
Proof. unfold rd. destruct (Z.leb_spec 0 i); split; [done|tauto|done|lia]. Qed.

Lemma rd_0 {A} (x : A) l : rd (x :: l) 0 = Some x.
Proof. done. Qed.

Lemma rd_1 {A} (x y : A) l : rd (x :: y :: l) 1 = Some y.
Proof. done. Qed.

Lemma rd_2 {A} (x y z : A) l : rd (x :: y :: z :: l) 2 = Some z.
Proof. done. Qed.

Lemma rd_3 {A} (x y z t : A) l : rd (x :: y :: z :: t :: l) 3 = Some t.
Proof. done. Qed.

Lemma put_ok cap out bs : zlen out + zlen bs <= cap -> put cap out bs = Some (out ++ bs).
Proof. intros H. unfold put. by rewrite (proj2 (Z.leb_le _ _) H). Qed.

Lemma int_of_ok x : - 2 ^ 31 <= x <= INT_MAX -> int_of x = Some x.
Proof. intros [H1 H2]. unfold int_of. rewrite (proj2 (Z.leb_le _ _) H1). by rewrite (proj2 (Z.leb_le _ _) H2). Qed.

Lemma u32_small x : 0 <= x < 2 ^ 32 -> u32 x = x.
Proof. intros. by apply Z.mod_small. Qed.

(** Induction by steps of three, for loops over blocks of three bytes. *)
Lemma nat_ind3 (P : nat -> Prop) :
  P 0%nat -> P 1%nat -> P 2%nat -> (forall n, P n -> P (S (S (S n)))) -> forall n, P n.
Proof.
  intros H0 H1 H2 HS. assert (forall n, P n /\ P (S n) /\ P (S (S n))) as H.
  { induction n as [|n (?&?&?)]; auto. }
  intros n. apply H.
Qed.

(** [sprintf] behind [out], which is in a buffer of [cap] bytes: the text and the end of the string. *)
Definition sprint (cap : Z) (out text : list Z) : option (list Z) :=
  _ ← put cap out (text ++ [0]); Some (out ++ text).

Lemma sprint_ok cap out t : zlen out + zlen t + 1 <= cap -> sprint cap out t = Some (out ++ t).
Proof. intros Hc. unfold sprint, put. rewrite length_app. cbn [length]. by rewrite (proj2 (Z.leb_le _ _)) by lia. Qed.

Lemma sprint_over cap out t : cap < zlen out + zlen t + 1 -> sprint cap out t = None.
Proof. intros Hc. unfold sprint, put. rewrite length_app. cbn [length]. by rewrite (proj2 (Z.leb_gt _ _)) by lia. Qed.

(** Going on with the result of a call. *)
Lemma bind_to {A B} (o : option A) x (f : A -> option B) r : o = Some x -> f x = r -> mbind f o = r.
Proof. by intros ->. Qed.

(** [memcpy(&dst[off], src, n)] *)
Definition memcpy_at (dst : list Z) (off n : nat) (src : list Z) : option (list Z) :=
  if Nat.leb (off + n) (length dst) && Nat.leb n (length src)
  then Some (take off dst ++ take n src ++ drop (off + n) dst) else None.

Lemma memcpy_at_ok dst off n src :
  (off + n <= length dst)%nat -> (n <= length src)%nat ->
  memcpy_at dst off n src = Some (take off dst ++ take n src ++ drop (off + n) dst).
Proof.
  intros H1 H2. unfold memcpy_at. apply Nat.leb_le in H1, H2. by rewrite H1, H2.
Qed.

Lemma length_memcpy_at dst off n src dst' :
  memcpy_at dst off n src = Some dst' -> length dst' = length dst.
Proof.
  unfold memcpy_at. destruct (Nat.leb_spec (off + n) (length dst)); [|done].
  destruct (Nat.leb_spec n (length src)); [|done]. intros [= <-].
  rewrite !length_app, !length_take, length_drop. lia.
Qed.

(** Reading and writing at the point where a list is split. *)
Lemma rd_app {A} (l1 : list A) x l2 i : i = zlen l1 -> rd (l1 ++ x :: l2) i = Some x.
Proof.
  intros ->. apply rd_Some. split; [lia|]. rewrite Nat2Z.id, lookup_app_r by lia. by rewrite Nat.sub_diag.
Qed.

Lemma wr_app {A} (l1 : list A) x l2 i y : i = zlen l1 -> wr (l1 ++ x :: l2) i y = Some (l1 ++ y :: l2).
Proof.
  intros ->. unfold wr. rewrite (proj2 (Z.leb_le _ _)), (proj2 (Z.ltb_lt _ _)).
  - cbn [andb]. rewrite Nat2Z.id. by rewrite insert_app_r_alt, Nat.sub_diag by lia.
  - rewrite length_app. cbn [length]. lia.
  - lia.
Qed.

(** Taking one element out of a list without duplicates. *)
Lemma filter_ne_id {A} `{EqDecision A} (a : A) (l : list A) : a ∉ l -> filter (fun b => b <> a) l = l.
Proof.
  induction l as [|x l IH]; intros H; [done|]. rewrite not_elem_of_cons in H. destruct H as [H1 H2].
  rewrite filter_cons, decide_True by congruence. f_equal. by apply IH.
Qed.

Lemma filter_ne_perm {A} `{EqDecision A} (a : A) (l : list A) :
  NoDup l -> a ∈ l -> a :: filter (fun b => b <> a) l ≡ₚ l.
Proof.
  induction l as [|x l IH]; intros Hnd Hin; [by apply not_elem_of_nil in Hin|].
  apply list.NoDup_cons in Hnd as [Hx Hnd]. rewrite filter_cons. destruct (decide (x <> a)) as [Hne|He].
  - apply elem_of_cons in Hin as [?|Hin]; [done|]. rewrite Permutation_swap. constructor. by apply IH.
  - apply dec_stable in He as ->. by rewrite filter_ne_id.
Qed.

(** ** Words in bytes, the most significant first *)

Definition be_word (bs : list Z) : Z := foldl (fun x b => x * 256 + b) 0 bs.

Fixpoint be_bytes (n : nat) (x : Z) : list Z :=
  match n with O => [] | S n => be_bytes n (x / 256) ++ [x mod 256] end.

Lemma be_word_snoc a b : be_word (a ++ [b]) = be_word a * 256 + b.
Proof. unfold be_word. by rewrite foldl_app. Qed.

Lemma length_be_bytes n : forall x, length (be_bytes n x) = n.
Proof. induction n as [|n IH]; intros x; [done|]. cbn [be_bytes]. rewrite length_app, IH. cbn. lia. Qed.

Lemma be_bytes_bytes n : forall x, bytes (be_bytes n x).
Proof.
  induction n as [|n IH]; intros x; [by constructor|]. cbn [be_bytes]. apply Forall_app. split; [apply IH|].
  constructor; [|constructor]. apply Z.mod_pos_bound. lia.
Qed.

Lemma be_word_bytes n : forall x, 0 <= x < 256 ^ Z.of_nat n -> be_word (be_bytes n x) = x.
Proof.
  induction n as [|n IH]; intros x Hx; [cbn in *; lia|]. cbn [be_bytes]. rewrite be_word_snoc, IH.
  - pose proof (Z.div_mod x 256). lia.
  - rewrite Nat2Z.inj_succ, Z.pow_succ_r in Hx by lia. split; [apply Z.div_pos; lia|apply Z.div_lt_upper_bound; lia].
Qed.

Lemma be_bytes_word bs : bytes bs -> be_bytes (length bs) (be_word bs) = bs.
Proof.
  induction bs as [|b bs IH] using rev_ind; intros H; [done|]. apply Forall_app in H as [H Hb]. apply Forall_cons_iff in Hb as [Hb _].
  rewrite length_app, Nat.add_comm. cbn [length Nat.add be_bytes]. rewrite be_word_snoc. unfold is_byte in Hb.
  rewrite Z.div_add_l, Z.div_small, Z.add_0_r by lia. rewrite IH by done. by rewrite Z.add_comm, Z.mod_add, Z.mod_small by lia.
Qed.

Lemma be_word_bound bs : bytes bs -> 0 <= be_word bs < 256 ^ zlen bs.
Proof.
  induction bs as [|b bs IH] using rev_ind; intros H; [cbn; lia|]. apply Forall_app in H as [H Hb]. apply Forall_cons_iff in Hb as [Hb _].
  rewrite be_word_snoc, length_app, Nat2Z.inj_add, Z.pow_add_r by lia. cbn [length]. change (256 ^ Z.of_nat 1) with 256.
  specialize (IH H). unfold is_byte in Hb. nia.
Qed.
