(* ===== verification/Base64.v ===== *)
(** * comlib/base64.c: the encoder and the decoder of the common library. *)
From Stdlib Require Import ZArith Lia Bool String.
From stdpp Require Import base tactics list option numbers.
From S2P Require Import Prelude.

Module Base64.

Definition cb64 : list Z := Eval vm_compute in
  cs "ABCDEFGHIJKLMNOPQRSTUVWXYZabcdefghijklmnopqrstuvwxyz0123456789+/".

Definition cd64 : list Z := Eval vm_compute in
  cs "|$$$}rstuvwxyz{$$$$$$$>?@ABCDEFGHIJKLMNOPQRSTUVW$$$$$$XYZ[\]^_`abcdefghijklmnopq".

(** The four characters stored at [out] for the block at [inp].  The second
    character always reads [in[1]], whatever [len] is, and the third reads
    [in[2]] when [len] is 2. *)
Definition encodeblock (inp : list Z) (len : Z) : option (list Z) :=
  i0 ← rd inp 0;
  i1 ← rd inp 1;
  o0 ← rd cb64 (Z.shiftr i0 2);
  o1 ← rd cb64 (Z.lor (Z.shiftl (Z.land i0 3) 4) (Z.shiftr (Z.land i1 240) 4));
  o2 ← (if 1 <? len
        then i2 ← rd inp 2;
             rd cb64 (Z.lor (Z.shiftl (Z.land i1 15) 2) (Z.shiftr (Z.land i2 192) 6))
        else Some 61);
  o3 ← (if 2 <? len then i2 ← rd inp 2; rd cb64 (Z.land i2 63) else Some 61);
  Some [o0; o1; o2; o3].

(** The loop over whole blocks and the one or two bytes that are left; [n] is
    [(input+inputlen)-in] and [inp] the memory from [in] on. *)
Fixpoint encode_blocks (cap : Z) (n : nat) (inp out : list Z) : option (list Z) :=
  match n with
  | S (S (S n')) =>
      blk ← encodeblock inp 3;
      out' ← put cap out blk;
      encode_blocks cap n' (drop 3 inp) out'
  | 1%nat => blk ← encodeblock inp 1; put cap out blk
  | 2%nat => blk ← encodeblock inp 2; put cap out blk
  | O => Some out
  end.

(** [malloc sz] tells whether the request is granted.  The result is [*output] and
    the returned length; the allocation is made before the guard on the input. *)
Definition base64encode (malloc : Z -> bool) (input : option (list Z)) (inputlen : Z)
    : option (option (list Z) * Z) :=
  m ← int_of (inputlen * 4);
  sz ← int_of (m ÷ 3 + 5);
  let cap := u32 sz in
  match input with
  | None => Some (None, 0)
  | Some mem =>
      if inputlen =? 0 then Some (None, 0)
      else if malloc cap then
        out ← encode_blocks cap (Z.to_nat inputlen) mem [];
        out' ← put cap out [0];
        Some (Some out', zlen out)
      else None
  end.

Definition decodeblock (inb : list Z) : option (list Z) :=
  i0 ← rd inb 0;
  i1 ← rd inb 1;
  i2 ← rd inb 2;
  i3 ← rd inb 3;
  Some [u8 (Z.lor (Z.shiftl i0 2) (Z.shiftr i1 4));
        u8 (Z.lor (Z.shiftl i1 4) (Z.shiftr i2 2));
        u8 (Z.lor (Z.land (Z.shiftl i2 6) 192) i3)].

(** The value of one input character: 0 for noise, the 6-bit code plus one
    otherwise. *)
Definition decode_char (b : Z) : option Z :=
  v ← (if (b <? 43) || (122 <? b) then Some 0 else rd cd64 (b - 43));
  Some (if v =? 0 then 0 else if v =? 36 then 0 else u8 (v - 61)).

(** The inner loop: skip noise until a character counts or the input is used up.
    [p] is the memory from [inptr] to [input+inputlen], the last byte included. *)
Fixpoint next_code (p : list Z) : option (Z * list Z) :=
  match p with
  | [] => Some (0, [])
  | b :: p' =>
      v ← decode_char b;
      if v =? 0 then next_code p' else Some (v, p')
  end.

(** The [for] loop that fills [in[i..3]]: [n] is [4 - i]. *)
Fixpoint fill (n i : nat) (inb : list Z) (len : Z) (p : list Z)
    : option (list Z * Z * list Z) :=
  match n, p with
  | O, _ | _, [] => Some (inb, len, p)
  | S n', _ :: _ =>
      vp ← next_code p;
      let '(v, p') := vp in
      match p' with
      | [] => fill n' (S i) (<[i := 0]> inb) len p'
      | _ :: _ =>
          fill n' (S i) (if v =? 0 then inb else <[i := u8 (v - 1)]> inb) (len + 1) p'
      end
  end.

(** The outer loop.  Each turn stores three bytes at [out] and advances by
    [len-1]. *)
Fixpoint decode_loop (fuel : nat) (cap : Z) (p inb out : list Z) : option (list Z) :=
  match p, fuel with
  | [], _ => Some out
  | _ :: _, O => None
  | _ :: _, S fuel' =>
      r ← fill 4 0 inb 0 p;
      let '(inb', len, p') := r in
      if len =? 0 then decode_loop fuel' cap p' inb' out
      else
        blk ← decodeblock inb';
        _ ← put cap out blk;
        decode_loop fuel' cap p' inb' (out ++ take (Z.to_nat (len - 1)) blk)
  end.

(** [inb] is the indeterminate initial content of the local array [in[4]]. *)
Definition base64decode (malloc : Z -> bool) (inb : list Z) (input : option (list Z))
    (inputlen : Z) : option (option (list Z) * Z) :=
  match input with
  | None => Some (None, 0)
  | Some mem =>
      if inputlen =? 0 then Some (None, 0)
      else
        m ← int_of (inputlen * 3);
        sz ← int_of (m ÷ 4 + 4);
        let cap := u32 sz in
        if malloc cap then
          p ← (if inputlen <? 0 then Some []
               else if zlen mem <? inputlen + 1 then None
               else Some (take (Z.to_nat (inputlen + 1)) mem));
          out ← decode_loop (S (length p)) cap p inb [];
          out' ← put cap out [0];
          Some (Some out', zlen out)
        else None
  end.

(** ** Reference description of the encoded text *)

Definition E (i : Z) : Z := default 0 (rd cb64 i).

Definition ix0 (a : Z) : Z := Z.shiftr a 2.
Definition ix1 (a b : Z) : Z := Z.lor (Z.shiftl (Z.land a 3) 4) (Z.shiftr (Z.land b 240) 4).
Definition ix2 (b c : Z) : Z := Z.lor (Z.shiftl (Z.land b 15) 2) (Z.shiftr (Z.land c 192) 6).
Definition ix3 (c : Z) : Z := Z.land c 63.

Fixpoint b64_text (n : nat) (inp : list Z) : list Z :=
  match n, inp with
  | S (S (S n')), a :: b :: c :: tl =>
      [E (ix0 a); E (ix1 a b); E (ix2 b c); E (ix3 c)] ++ b64_text n' tl
  | 2%nat, a :: b :: c :: _ => [E (ix0 a); E (ix1 a b); E (ix2 b c); 61]
  | 1%nat, a :: b :: _ => [E (ix0 a); E (ix1 a b); 61; 61]
  | _, _ => []
  end.

Lemma ix0_range a : is_byte a -> 0 <= ix0 a < 64.
Proof. intros. apply (shiftr_range _ 2 6); [lia|lia|assumption]. Qed.

Lemma ix1_range a b : is_byte a -> is_byte b -> 0 <= ix1 a b < 64.
Proof.
  intros Ha Hb. apply (lor_range 6); [lia| |].
  - apply (shiftl_range 2 4); [lia|lia|]. apply (land_range 2); [lia|apply Ha|lia].
  - apply (shiftr_range _ 4 6); [lia|lia|].
    destruct (land_range 8 b 240) as [? ?]; [lia|apply Hb|lia|]. split; [lia|].
    eapply Z.lt_trans; [eassumption|reflexivity].
Qed.

Lemma ix2_range b c : is_byte b -> is_byte c -> 0 <= ix2 b c < 64.
Proof.
  intros Hb Hc. apply (lor_range 6); [lia| |].
  - apply (shiftl_range 4 2); [lia|lia|]. apply (land_range 4); [lia|apply Hb|lia].
  - apply (shiftr_range _ 6 6); [lia|lia|].
    destruct (land_range 8 c 192) as [? ?]; [lia|apply Hc|lia|]. split; [lia|].
    eapply Z.lt_trans; [eassumption|reflexivity].
Qed.

Lemma ix3_range c : is_byte c -> 0 <= ix3 c < 64.
Proof. intros Hc. apply (land_range 6); [lia|apply Hc|lia]. Qed.

#[local] Hint Resolve ix0_range ix1_range ix2_range ix3_range : war.

Lemma rd_cb64 i : 0 <= i < 64 -> rd cb64 i = Some (E i).
Proof.
  intros Hi. unfold E, rd. destruct (Z.leb_spec 0 i); [|lia].
  destruct (lookup_lt_is_Some_2 cb64 (Z.to_nat i)) as [x ->]; [|done].
  change (length cb64) with 64%nat. lia.
Qed.

(** Decoding a character of the alphabet gives back its index. *)
Lemma decode_char_E i : 0 <= i < 64 -> decode_char (E i) = Some (i + 1).
Proof.
  intros Hi.
  assert (match decode_char (E i) with Some v => v =? i + 1 | None => false end = true) as H.
  { revert i Hi. apply check_range. by vm_compute. }
  destruct (decode_char (E i)); [|done]. bprop. by subst.
Qed.

(** Every byte decodes: the table lookup stays in bounds. *)
Lemma decode_char_total b : is_byte b -> exists v, decode_char b = Some v /\ is_byte v.
Proof.
  intros Hb.
  assert (match decode_char b with Some v => (0 <=? v) && (v <? 256) | None => false end = true) as H.
  { revert b Hb. apply check_range. by vm_compute. }
  destruct (decode_char b) as [v|]; [|done]. bprop. by exists v.
Qed.

Lemma encodeblock_3 a b c tl :
  is_byte a -> is_byte b -> is_byte c ->
  encodeblock (a :: b :: c :: tl) 3 = Some [E (ix0 a); E (ix1 a b); E (ix2 b c); E (ix3 c)].
Proof.
  intros. unfold encodeblock; rewrite ?rd_0, ?rd_1, ?rd_2; cbn -[rd]. fold (ix0 a) (ix1 a b) (ix2 b c) (ix3 c).
  by rewrite !rd_cb64 by auto with war.
Qed.

Lemma encodeblock_2 a b c tl :
  is_byte a -> is_byte b -> is_byte c ->
  encodeblock (a :: b :: c :: tl) 2 = Some [E (ix0 a); E (ix1 a b); E (ix2 b c); 61].
Proof.
  intros. unfold encodeblock; rewrite ?rd_0, ?rd_1, ?rd_2; cbn -[rd]. fold (ix0 a) (ix1 a b) (ix2 b c).
  by rewrite !rd_cb64 by auto with war.
Qed.

Lemma encodeblock_1 a b tl :
  is_byte a -> is_byte b ->
  encodeblock (a :: b :: tl) 1 = Some [E (ix0 a); E (ix1 a b); 61; 61].
Proof.
  intros. unfold encodeblock; rewrite ?rd_0, ?rd_1, ?rd_2; cbn -[rd]. fold (ix0 a) (ix1 a b).
  by rewrite !rd_cb64 by auto with war.
Qed.

(** The block identities that make decoding the inverse of encoding. *)
Lemma block_byte0 a b : is_byte a -> is_byte b ->
  u8 (Z.lor (Z.shiftl (ix0 a) 2) (Z.shiftr (ix1 a b) 4)) = a.
Proof. intros. unfold u8, ix0, ix1. bitwise 8%nat. Qed.

Lemma block_byte1 a b c : is_byte a -> is_byte b -> is_byte c ->
  u8 (Z.lor (Z.shiftl (ix1 a b) 4) (Z.shiftr (ix2 b c) 2)) = b.
Proof. intros. unfold u8, ix1, ix2. bitwise 8%nat. Qed.

Lemma block_byte2 b c : is_byte b -> is_byte c ->
  u8 (Z.lor (Z.land (Z.shiftl (ix2 b c) 6) 192) (ix3 c)) = c.
Proof. intros. unfold u8, ix2, ix3. bitwise 8%nat. Qed.

(** ** The encoder writes the reference text *)

Lemma encode_blocks_text cap n : forall inp out,
  bytes inp -> (n < length inp)%nat ->
  zlen out + zlen (b64_text n inp) <= cap ->
  encode_blocks cap n inp out = Some (out ++ b64_text n inp).
Proof.
  induction n as [| | |n IH] using nat_ind3; intros inp out Hb Hn Hcap; cbn [encode_blocks].
  - by rewrite app_nil_r.
  - destruct inp as [|a [|b tl]]; cbn in Hn; try lia. rewrite !Forall_cons_iff in Hb.
    rewrite encodeblock_1 by tauto. cbn [mbind option_bind]. by apply put_ok.
  - destruct inp as [|a [|b [|c tl]]]; cbn in Hn; try lia. rewrite !Forall_cons_iff in Hb.
    rewrite encodeblock_2 by tauto. cbn [mbind option_bind]. by apply put_ok.
  - destruct inp as [|a [|b [|c tl]]]; cbn in Hn; try lia. rewrite !Forall_cons_iff in Hb.
    rewrite encodeblock_3 by tauto. cbn [mbind option_bind drop b64_text] in *.
    rewrite length_app in Hcap. rewrite put_ok by (cbn; cbn in Hcap; lia). cbn [mbind option_bind].
    rewrite drop_0, IH; [by rewrite <- app_assoc|tauto|lia|rewrite length_app; cbn; cbn in Hcap; lia].
Qed.

Lemma length_b64_text n : forall inp,
  (n < length inp)%nat -> zlen (b64_text n inp) = 4 * ((Z.of_nat n + 2) / 3).
Proof.
  induction n as [| | |n IH] using nat_ind3; intros inp Hn.
  - done.
  - by destruct inp as [|a [|b tl]]; cbn in Hn; try lia.
  - by destruct inp as [|a [|b [|c tl]]]; cbn in Hn; try lia.
  - destruct inp as [|a [|b [|c tl]]]; cbn in Hn; try lia.
    cbn [b64_text]. rewrite length_app, Nat2Z.inj_add, IH by lia.
    replace (Z.of_nat (S (S (S n))) + 2) with (Z.of_nat n + 2 + 1 * 3) by lia.
    rewrite Z.div_add by lia. cbn [length]. lia.
Qed.

(** The allocation of [base64encode] holds the text and its terminator. *)
Lemma encode_capacity n :
  0 < n <= 2 ^ 29 - 8 ->
  int_of (n * 4) = Some (n * 4) /\ int_of (n * 4 ÷ 3 + 5) = Some (n * 4 ÷ 3 + 5) /\
  u32 (n * 4 ÷ 3 + 5) = n * 4 / 3 + 5 /\ 4 * ((n + 2) / 3) + 1 <= n * 4 / 3 + 5.
Proof.
  intros Hn. rewrite Z.quot_div_nonneg by lia. change (2 ^ 29 - 8) with 536870904 in Hn.
  assert (0 <= n * 4 / 3 <= n * 4) by (split; [apply Z.div_pos; lia|apply Z.div_le_upper_bound; lia]).
  rewrite !int_of_ok by (unfold INT_MAX; lia). rewrite u32_small by lia.
  repeat split. pose proof (Z.div_mod (n + 2) 3). pose proof (Z.mod_pos_bound (n + 2) 3).
  pose proof (Z.div_mod (n * 4) 3). pose proof (Z.mod_pos_bound (n * 4) 3). lia.
Qed.

Lemma base64encode_eq malloc mem n :
  bytes mem -> 0 < n <= 2 ^ 29 - 8 -> n < zlen mem -> malloc (n * 4 / 3 + 5) = true ->
  base64encode malloc (Some mem) n =
    Some (Some (b64_text (Z.to_nat n) mem ++ [0]), 4 * ((n + 2) / 3)).
Proof.
  intros Hb Hn Hl Hm. destruct (encode_capacity n Hn) as (E1 & E2 & E3 & E4).
  unfold base64encode. rewrite E1. cbn [mbind option_bind]. rewrite E2. cbn [mbind option_bind].
  rewrite E3, Hm. destruct (Z.eqb_spec n 0); [lia|].
  assert (Hlen : zlen (b64_text (Z.to_nat n) mem) = 4 * ((n + 2) / 3))
    by (rewrite length_b64_text by lia; by rewrite Z2Nat.id by lia).
  rewrite encode_blocks_text by (cbn; rewrite ?Hlen; (done || lia)). cbn [mbind option_bind].
  rewrite put_ok by (cbn; rewrite Hlen; lia). cbn. by rewrite Hlen.
Qed.

(** ** The decoder undoes it *)

Lemma next_code_E i p : 0 <= i < 64 -> next_code (E i :: p) = Some (i + 1, p).
Proof.
  intros Hi. cbn [next_code]. rewrite decode_char_E by done. cbn [mbind option_bind].
  by destruct (Z.eqb_spec (i + 1) 0); [lia|].
Qed.

(** One turn of the [for] loop on a character of the alphabet that is not the
    last byte of the input. *)
Lemma fill_E n k inb len i c p :
  0 <= i < 64 ->
  fill (S n) k inb len (E i :: c :: p) = fill n (S k) (<[k := i]> inb) (len + 1) (c :: p).
Proof.
  intros Hi. cbn [fill]. rewrite next_code_E by done. cbn [mbind option_bind].
  destruct (Z.eqb_spec (i + 1) 0); [lia|]. rewrite u8_small by (unfold is_byte; lia).
  by replace (i + 1 - 1) with i by lia.
Qed.

Lemma decode_loop_step fuel cap c p inb out inb' len p' x y z :
  fill 4 0 inb 0 (c :: p) = Some (inb', len, p') -> len <> 0 ->
  decodeblock inb' = Some [x; y; z] -> zlen out + 3 <= cap ->
  decode_loop (S fuel) cap (c :: p) inb out =
    decode_loop fuel cap p' inb' (out ++ take (Z.to_nat (len - 1)) [x; y; z]).
Proof.
  intros Hf Hl Hd Hc. cbn [decode_loop]. rewrite Hf. cbn [mbind option_bind].
  destruct (Z.eqb_spec len 0); [done|]. rewrite Hd. cbn [mbind option_bind].
  by rewrite put_ok.
Qed.

Lemma decodeblock_123 a b c x : is_byte a -> is_byte b -> is_byte c ->
  decodeblock [ix0 a; ix1 a b; ix2 b c; x] =
    Some [a; b; u8 (Z.lor (Z.land (Z.shiftl (ix2 b c) 6) 192) x)].
Proof.
  intros. unfold decodeblock. rewrite rd_0, rd_1, rd_2, rd_3. cbn [mbind option_bind].
  by rewrite block_byte0, block_byte1.
Qed.

Lemma decodeblock_1 a b x y : is_byte a -> is_byte b -> exists y' z',
  decodeblock [ix0 a; ix1 a b; x; y] = Some [a; y'; z'].
Proof.
  intros. unfold decodeblock. rewrite rd_0, rd_1, rd_2, rd_3. cbn [mbind option_bind].
  rewrite block_byte0 by done. eauto.
Qed.

Lemma decode_loop_text cap n : forall inp inb out fuel,
  bytes inp -> (n < length inp)%nat -> length inb = 4%nat ->
  (length (b64_text n inp) < fuel)%nat -> zlen out + Z.of_nat n + 3 <= cap ->
  decode_loop fuel cap (b64_text n inp ++ [0]) inb out = Some (out ++ take n inp).
Proof.
  induction n as [| | |n IH] using nat_ind3; intros inp inb out fuel Hb Hn Hi Hf Hcap;
    destruct inb as [|x0 [|x1 [|x2 [|x3 [|]]]]]; try discriminate Hi;
    (destruct fuel as [|fuel]; [lia|]).
  - cbn. rewrite app_nil_r. by destruct fuel.
  - destruct inp as [|a [|b tl]]; cbn in Hn; try lia. rewrite !Forall_cons_iff in Hb.
    destruct Hb as (Ha & Hb & _). destruct (decodeblock_1 a b 0 x3 Ha Hb) as (y' & z' & Hd).
    cbn [b64_text app]. erewrite decode_loop_step; [| |..|exact Hd|lia].
    2: { rewrite !fill_E by auto with war. reflexivity. } 2: done.
    by destruct fuel.
  - destruct inp as [|a [|b [|c tl]]]; cbn in Hn; try lia. rewrite !Forall_cons_iff in Hb.
    destruct Hb as (Ha & Hb & Hc & _). cbn [b64_text app].
    erewrite decode_loop_step; [| |..|by apply (decodeblock_123 a b c)|lia].
    2: { rewrite !fill_E by auto with war. reflexivity. } 2: done.
    by destruct fuel.
  - destruct inp as [|a [|b [|c tl]]]; cbn in Hn; try lia. rewrite !Forall_cons_iff in Hb.
    destruct Hb as (Ha & Hb & Hc & Htl). cbn [b64_text] in *.
    rewrite <- app_assoc. cbn [app].
    assert (exists d p, b64_text n tl ++ [0] = d :: p) as (d & p & Hp)
      by (destruct (b64_text n tl); cbn; eauto).
    erewrite decode_loop_step; [| |..|by apply (decodeblock_123 a b c)|lia].
    2: { rewrite Hp, !fill_E by auto with war. reflexivity. } 2: done.
    rewrite <- Hp, block_byte2 by done. change (take _ [a; b; c]) with [a; b; c].
    rewrite IH; [by rewrite <- app_assoc|done|lia|done|rewrite length_app in Hf; cbn [length] in Hf; lia|rewrite length_app; cbn [length]; lia].
Qed.

Lemma decode_capacity m :
  0 < m <= 2 ^ 29 - 8 ->
  int_of (m * 3) = Some (m * 3) /\ int_of (m * 3 ÷ 4 + 4) = Some (m * 3 ÷ 4 + 4) /\
  u32 (m * 3 ÷ 4 + 4) = m * 3 / 4 + 4.
Proof.
  intros Hm. rewrite Z.quot_div_nonneg by lia. change (2 ^ 29 - 8) with 536870904 in Hm.
  assert (0 <= m * 3 / 4 <= m * 3) by (split; [apply Z.div_pos; lia|apply Z.div_le_upper_bound; lia]).
  rewrite !int_of_ok by (unfold INT_MAX; lia). by rewrite u32_small by lia.
Qed.

(** ** The decoder is memory safe on any input *)

Lemma next_code_total p : bytes p -> exists v p',
  next_code p = Some (v, p') /\ is_byte v /\ bytes p' /\ (length p' <= pred (length p))%nat
  /\ (v = 0 -> p' = []).
Proof.
  induction p as [|b p IH]; intros Hp.
  - exists 0, []. repeat split; auto; unfold is_byte; lia.
  - inversion Hp as [|?? Hb Hp']; subst. destruct (decode_char_total b Hb) as (v & Hv & Hvb).
    cbn [next_code]. rewrite Hv. cbn [mbind option_bind]. destruct (Z.eqb_spec v 0).
    + destruct (IH Hp') as (w & p' & -> & ? & ? & ? & ?); exists w, p'.
      repeat split; auto; try apply H; cbn; lia.
    + exists v, p. repeat split; auto; try apply Hvb; cbn; lia.
Qed.

Lemma fill_total n : forall i inb len p,
  bytes p -> bytes inb -> exists inb' len' p',
  fill n i inb len p = Some (inb', len', p') /\ bytes inb' /\ bytes p' /\
  length inb' = length inb /\ len <= len' <= len + Z.of_nat n /\
  zlen p' + (len' - len) <= zlen p /\ (p <> [] -> n <> 0%nat -> zlen p' < zlen p).
Proof.
  induction n as [|n IH]; intros i inb len p Hp Hi.
  - exists inb, len, p. cbn. repeat split; auto; intros; (done || lia).
  - destruct p as [|b p]; [exists inb, len, []; cbn; repeat split; auto; intros; (done || lia)|].
    destruct (next_code_total (b :: p) Hp) as (v & p1 & Hv & Hvb & Hp1 & Hl & Hz).
    assert (zlen p1 < zlen (b :: p)) by (cbn in *; lia).
    cbn [fill]. rewrite Hv. cbn [mbind option_bind]. destruct p1 as [|c p1].
    + destruct (IH (S i) (<[i:=0]> inb) len [] Hp1) as (inb' & len' & p' & -> & ? & ? & ? & ? & ? & ?);
        [apply Forall_insert; [done|unfold is_byte; lia]|].
      exists inb', len', p'. rewrite length_insert in *. repeat split; auto; cbn in *; intros; lia.
    + destruct (IH (S i) (if v =? 0 then inb else <[i:=u8 (v - 1)]> inb) (len + 1) (c :: p1) Hp1)
        as (inb' & len' & p' & -> & ? & ? & Hlen & ? & ? & ?);
        [destruct (v =? 0); [done|apply Forall_insert; [done|apply u8_byte]]|].
      exists inb', len', p'. repeat split; auto; intros; try lia.
      rewrite Hlen. destruct (v =? 0); [done|apply length_insert].
Qed.

Lemma decodeblock_total inb : length inb = 4%nat -> exists x y z, decodeblock inb = Some [x; y; z].
Proof.
  intros Hl. destruct inb as [|? [|? [|? [|? [|]]]]]; try discriminate Hl.
  unfold decodeblock. rewrite rd_0, rd_1, rd_2, rd_3. cbn. eauto.
Qed.

(** The loop invariant: every byte produced is paid for by four thirds of a
    character consumed. *)
Lemma decode_loop_safe N : forall fuel p inb out,
  bytes p -> bytes inb -> length inb = 4%nat -> (length p < fuel)%nat ->
  4 * zlen out + 3 * zlen p <= 3 * N ->
  exists out', decode_loop fuel ((N - 1) * 3 / 4 + 4) p inb out = Some out' /\ 4 * zlen out' <= 3 * N.
Proof.
  induction fuel as [|fuel IH]; intros p inb out Hp Hi Hl Hf HN; [lia|].
  destruct p as [|b p]; [exists out; split; [done|cbn in HN; lia]|].
  destruct (fill_total 4 0 inb 0 (b :: p) Hp Hi)
    as (inb' & len' & p' & Hfill & Hi' & Hp' & Hl' & Hlen & Hcons & Hdec).
  specialize (Hdec ltac:(done) ltac:(done)).
  assert (zlen (b :: p) > 0) by (cbn; lia).
  destruct (Z.eq_dec len' 0) as [->|Hn0].
  - cbn [decode_loop]. rewrite Hfill. cbn [mbind option_bind]. cbn [Z.eqb].
    apply IH; auto; lia.
  - destruct (decodeblock_total inb' ltac:(lia)) as (x & y & z & Hd).
    pose proof (Z.div_mod ((N - 1) * 3) 4). pose proof (Z.mod_pos_bound ((N - 1) * 3) 4).
    erewrite decode_loop_step; [| exact Hfill | lia | exact Hd | lia].
    apply IH; auto; try lia. rewrite length_app, length_take. cbn [length]. lia.
Qed.

(** ** Properties *)

(** Decoding what the encoder wrote gives back exactly the bytes that were encoded, for every
    message, whatever follows the message in memory and whatever the decoder's uninitialised
    block contains. *)
Theorem base64_roundtrip malloc malloc' inb mem n enc len :
  bytes mem -> 0 < n <= 2 ^ 28 -> n < zlen mem -> length inb = 4%nat ->
  malloc (n * 4 / 3 + 5) = true -> (forall k, malloc' k = true) ->
  base64encode malloc (Some mem) n = Some (Some enc, len) ->
  base64decode malloc' inb (Some enc) len = Some (Some (take (Z.to_nat n) mem ++ [0]), n).
Proof.
  intros Hb Hn Hl Hi Hm Hm' He. change (2 ^ 28) with 268435456 in Hn.
  rewrite base64encode_eq in He by (done || lia). injection He as <- <-.
  set (m := 4 * ((n + 2) / 3)).
  assert (Hmr : n * 4 <= 3 * m /\ 0 < m <= 2 ^ 29 - 8)
    by (subst m; change (2 ^ 29 - 8) with 536870904;
        pose proof (Z.div_mod (n + 2) 3); pose proof (Z.mod_pos_bound (n + 2) 3); lia).
  assert (Hlen : zlen (b64_text (Z.to_nat n) mem) = m)
    by (rewrite length_b64_text by lia; subst m; by rewrite Z2Nat.id by lia).
  destruct (decode_capacity m) as (E1 & E2 & E3); [lia|].
  pose proof (Z.div_mod (m * 3) 4). pose proof (Z.mod_pos_bound (m * 3) 4).
  unfold base64decode. rewrite E1. cbn [mbind option_bind]. rewrite E2. cbn [mbind option_bind].
  destruct (Z.eqb_spec m 0); [lia|]. rewrite Hm'. destruct (Z.ltb_spec m 0); [lia|].
  rewrite length_app; cbn [length]. destruct (Z.ltb_spec (Z.of_nat (length (b64_text (Z.to_nat n) mem) + 1)) (m + 1)); [lia|].
  cbn [mbind option_bind]. rewrite take_ge by (rewrite length_app; cbn [length]; lia).
  rewrite E3, decode_loop_text by (rewrite ?length_app; cbn [length]; (done || lia)).
  cbn [mbind option_bind app]. rewrite put_ok by (rewrite length_take; cbn [length]; lia).
  cbn [mbind option_bind]. rewrite length_take. repeat f_equal. lia.
Qed.

Lemma base64_roundtrip_witness :
  base64decode (fun _ => true) [1; 2; 3; 4] (Some (cs "TWFudWF=" ++ [0])) 8
    = Some (Some (cs "Manua" ++ [0]), 5).
Proof.
  apply (base64_roundtrip (fun _ => true) (fun _ => true) [1; 2; 3; 4] (cs "Manual") 5);
    [repeat constructor; unfold is_byte; cbn; lia|lia|cbn; lia|done|done|done|].
  by vm_compute.
Defined.

(** On a message followed by at least one readable byte the encoder returns normally: it stays
    inside its allocation and returns the padded length and a NUL-terminated text of it. *)
Theorem base64encode_safe malloc mem n :
  bytes mem -> 0 < n <= 2 ^ 29 - 8 -> n < zlen mem -> malloc (n * 4 / 3 + 5) = true ->
  exists enc, base64encode malloc (Some mem) n = Some (Some (enc ++ [0]), 4 * ((n + 2) / 3)) /\
              zlen enc = 4 * ((n + 2) / 3).
Proof.
  intros. eexists. split; [by apply base64encode_eq|].
  rewrite length_b64_text by lia. by rewrite Z2Nat.id by lia.
Qed.

Lemma base64encode_safe_witness : exists enc,
  base64encode (fun _ => true) (Some (cs "Manual")) 5 = Some (Some (enc ++ [0]), 8) /\ zlen enc = 8.
Proof.
  apply (base64encode_safe (fun _ => true) (cs "Manual") 5);
    [repeat constructor; unfold is_byte; cbn; lia|lia|cbn; lia|done].
Defined.

(** The decoder never leaves its buffers: for any input bytes (base64 or not) that are
    followed by one readable byte it returns, and the output with its terminator fits the
    allocation. *)
Theorem base64decode_safe malloc inb mem n :
  bytes mem -> bytes inb -> length inb = 4%nat -> 0 < n <= 2 ^ 29 - 8 -> n < zlen mem ->
  (forall k, malloc k = true) ->
  exists out, base64decode malloc inb (Some mem) n = Some (Some (out ++ [0]), zlen out) /\
              4 * zlen out <= 3 * (n + 1).
Proof.
  intros Hb Hi Hl Hn Hm Hk. destruct (decode_capacity n Hn) as (E1 & E2 & E3).
  change (2 ^ 29 - 8) with 536870904 in Hn.
  unfold base64decode. rewrite E1. cbn [mbind option_bind]. rewrite E2. cbn [mbind option_bind].
  destruct (Z.eqb_spec n 0); [lia|]. rewrite Hk, E3. destruct (Z.ltb_spec n 0); [lia|].
  destruct (Z.ltb_spec (zlen mem) (n + 1)); [lia|]. cbn [mbind option_bind].
  set (p := take (Z.to_nat (n + 1)) mem).
  assert (zlen p = n + 1) by (subst p; rewrite length_take; lia).
  destruct (decode_loop_safe (n + 1) (S (length p)) p inb []) as (out & Ho & Hout);
    [by apply Forall_take|done|done|lia|cbn; lia|].
  replace (n + 1 - 1) with n in Ho by lia. rewrite Ho. cbn [mbind option_bind].
  pose proof (Z.div_mod (n * 3) 4). pose proof (Z.mod_pos_bound (n * 3) 4).
  exists out. rewrite put_ok by (cbn [length]; lia). split; [done|lia].
Qed.

Lemma base64decode_safe_witness : exists out,
  base64decode (fun _ => true) [9; 9; 9; 9] (Some (cs "T?W!u~")) 5
    = Some (Some (out ++ [0]), zlen out) /\ 4 * zlen out <= 3 * (5 + 1).
Proof.
  apply (base64decode_safe (fun _ => true) [9; 9; 9; 9] (cs "T?W!u~") 5);
    [repeat constructor; unfold is_byte; cbn; lia|repeat constructor; unfold is_byte; lia|done|lia|cbn; lia|done].
Defined.

(** The text for one and the same message depends on the byte after it: the encoder
    reads [in[1]] (or [in[2]]) past the end of a message whose length is not a
    multiple of three. *)
Theorem base64encode_overread a b b' :
  is_byte a -> is_byte b -> is_byte b' -> Z.shiftr b 4 <> Z.shiftr b' 4 ->
  base64encode (fun _ => true) (Some [a]) 1 = None /\
  base64encode (fun _ => true) (Some [a; b]) 1 <> base64encode (fun _ => true) (Some [a; b']) 1.
Proof.
  intros Ha Hb Hb' Hne. split; [done|].
  rewrite !base64encode_eq by
    (first [done | rewrite !Forall_cons_iff; auto | cbn; lia]).
  intros [= H]. apply Hne.
  assert (ix1 a b = ix1 a b') as Hix.
  { apply (f_equal decode_char) in H. rewrite !decode_char_E in H by auto with war.
    injection H as H. lia. }
  apply Z.bits_inj'. intros i Hi. destruct (Z.lt_ge_cases i 4).
  - apply (f_equal (fun x => Z.testbit x i)) in Hix. revert Hix. unfold ix1.
    split_index i 4%nat; try lia; repeat progress (autorewrite with bits; zconst);
      rewrite ?andb_false_r, ?andb_true_r, ?orb_false_r, ?orb_false_l; done.
  - autorewrite with bits. by rewrite !byte_testbit_high by (done || lia).
Qed.

End Base64.
