(* ===== verification/Hexstring.v ===== *)
(** * comlib/hexstring.c: hexadecimal strings. *)
From Stdlib Require Import ZArith Lia Bool String.
From stdpp Require Import base tactics list option numbers.
From S2P Require Import Prelude.

Module Hexstring.

Definition hex_char (c : Z) : Z :=
  if (48 <=? c) && (c <=? 57) then c - 48
  else if (97 <=? c) && (c <=? 102) then c - 97 + 10
  else if (65 <=? c) && (c <=? 70) then c - 65 + 10
  else -1.

(** The loop of [read_hexstring]: the bytes stored at [buf[i..]] when [n] bytes of the
    buffer are left.  A byte takes one or two digits; the character that ends a byte
    early, and one separator after a full byte, are skipped. *)
Fixpoint read_bytes (s : list Z) (n : Z) : list Z :=
  if n <=? 0 then [] else
  match s with
  | [] => []
  | c1 :: s1 =>
      if hex_char c1 <? 0 then 0 :: read_bytes s1 (n - 1)
      else
        let b := u8 (hex_char c1) in
        match s1 with
        | [] => [b]
        | c2 :: s2 =>
            if hex_char c2 <? 0 then b :: read_bytes s2 (n - 1)
            else
              let b' := u8 (b * 16 + hex_char c2) in
              match s2 with
              | [] => [b']
              | c3 :: s3 =>
                  b' :: (if hex_char c3 <? 0 then read_bytes s3 (n - 1)
                         else read_bytes s2 (n - 1))
              end
        end
  end.

(** The buffer after the call and the number of bytes stored. *)
Definition read_hexstring (buf : list Z) (size : Z) (string : list Z)
    : option (list Z * Z) :=
  let out := read_bytes string size in
  buf' ← memcpy_at buf 0 (length out) out;
  Some (buf', zlen out).

(** One digit of [%x] ([base] is 97) or [%X] ([base] is 65). *)
Definition hex_digit (base d : Z) : Z := if d <? 10 then 48 + d else base + (d - 10).

(** [%02x] of an [unsigned char]. *)
Definition fmt_02x (base b : Z) : list Z := [hex_digit base (b / 16); hex_digit base (b mod 16)].

Definition print_macaddr (macaddr : list Z) : option (list Z) :=
  m0 ← rd macaddr 0; m1 ← rd macaddr 1; m2 ← rd macaddr 2;
  m3 ← rd macaddr 3; m4 ← rd macaddr 4; m5 ← rd macaddr 5;
  Some (fmt_02x 97 m0 ++ [58] ++ fmt_02x 97 m1 ++ [58] ++ fmt_02x 97 m2 ++ [58] ++
        fmt_02x 97 m3 ++ [58] ++ fmt_02x 97 m4 ++ [58] ++ fmt_02x 97 m5).

(** What [print_uuid] writes on the standard output, and the string it returns: the
    static buffer, which nothing ever writes. *)
Definition print_uuid (uuid : list Z) : option (list Z * list Z) :=
  u ← (if zlen uuid <? 16 then None else Some (take 16 uuid));
  let x i := fmt_02x 65 (nth i u 0) in
  Some (x 0%nat ++ x 1%nat ++ x 2%nat ++ x 3%nat ++ [45] ++ x 4%nat ++ x 5%nat ++ [45] ++
        x 6%nat ++ x 7%nat ++ [45] ++ x 8%nat ++ x 9%nat ++ [45] ++ x 10%nat ++ x 11%nat ++
        x 12%nat ++ x 13%nat ++ x 14%nat ++ x 15%nat ++ [10], []).

(** [fprintf(out, s)] with no further argument: [%%] prints a percent sign, any other
    conversion reads an argument that was not passed. *)
Fixpoint fprintf_plain (s : list Z) : option (list Z) :=
  match s with
  | [] => Some []
  | c :: s' =>
      if c =? 37 then
        match s' with
        | d :: s'' => if d =? 37 then r ← fprintf_plain s''; Some (37 :: r) else None
        | [] => None
        end
      else r ← fprintf_plain s'; Some (c :: r)
  end.

(** The text [dump_hex] writes; [start] and [end] may be null. *)
Definition dump_hex (start end_ : option (list Z)) (delimiter : Z) (bin : list Z) (size : Z)
    : option (list Z) :=
  pre ← (match start with Some s => fprintf_plain s | None => Some [] end);
  body ← (if 0 <? size then
            if zlen bin <? size then None
            else
              match take (Z.to_nat size) bin with
              | [] => None
              | b0 :: bs =>
                  if negb (delimiter =? 0)
                  then Some (fmt_02x 97 b0 ++ flat_map (fun b => delimiter :: fmt_02x 97 b) bs)
                  else Some (flat_map (fmt_02x 97) bs)
              end
          else Some []);
  post ← (match end_ with Some s => fprintf_plain s | None => Some [] end);
  Some (pre ++ body ++ post).

(** ** Lemmas *)

Lemma hex_digit_value d : 0 <= d < 16 -> hex_char (hex_digit 97 d) = d.
Proof.
  intros Hd. apply Z.eqb_eq. revert d Hd. apply check_range. by vm_compute.
Qed.

(** Two digits read back as the byte they print. *)
Lemma digits_value b : is_byte b ->
  0 <= hex_char (hex_digit 97 (b / 16)) /\ 0 <= hex_char (hex_digit 97 (b mod 16)) /\
  u8 (u8 (hex_char (hex_digit 97 (b / 16))) * 16 + hex_char (hex_digit 97 (b mod 16))) = b.
Proof.
  intros Hb. unfold is_byte in Hb.
  pose proof (Z.mod_pos_bound b 16). assert (0 <= b / 16 < 16).
  { split; [apply Z.div_pos; lia|apply Z.div_lt_upper_bound; lia]. }
  rewrite !hex_digit_value by lia. rewrite (u8_small (b / 16)) by (unfold is_byte; lia).
  pose proof (Z.div_mod b 16). rewrite u8_small by (unfold is_byte; lia). lia.
Qed.

Lemma read_bytes_02x b s n : is_byte b -> 0 < n ->
  read_bytes (fmt_02x 97 b ++ s) n =
    match s with
    | [] => [b]
    | c :: s' => b :: (if hex_char c <? 0 then read_bytes s' (n - 1) else read_bytes s (n - 1))
    end.
Proof.
  intros Hb Hn. destruct (digits_value b Hb) as (H1 & H2 & H3).
  unfold fmt_02x; cbn [app]. cbn [read_bytes]. destruct (Z.leb_spec n 0); [lia|].
  rewrite (proj2 (Z.ltb_ge _ _) H1), (proj2 (Z.ltb_ge _ _) H2), H3. done.
Qed.

Lemma read_bytes_text d bs : forall b n,
  is_byte b -> bytes bs -> hex_char d < 0 -> zlen (b :: bs) <= n ->
  read_bytes (fmt_02x 97 b ++ flat_map (fun b => d :: fmt_02x 97 b) bs) n = b :: bs.
Proof.
  induction bs as [|b' bs IH]; intros b n Hb Hbs Hd Hn; cbn [length] in Hn;
    rewrite read_bytes_02x by (done || lia); [done|].
  inversion Hbs; subst. cbn [flat_map app].
  rewrite (proj2 (Z.ltb_lt _ _) Hd). f_equal. rewrite IH; [done|done|done|done|cbn [length]; lia].
Qed.

Lemma length_read_bytes s : forall n, 0 <= n -> zlen (read_bytes s n) <= n.
Proof.
  assert (forall k s n, (length s <= k)%nat -> 0 <= n -> zlen (read_bytes s n) <= n) as H;
    [|intros n; by apply (H (length s))].
  clear s. induction k as [|k IH]; intros [|c1 s1] n Hk Hn; cbn [length] in Hk;
    cbn [read_bytes]; destruct (Z.leb_spec n 0); cbn [length]; try lia.
  destruct (hex_char c1 <? 0); cbn [length]; [specialize (IH s1 (n - 1)); lia|].
  destruct s1 as [|c2 s2]; cbn [length] in *; [lia|].
  destruct (hex_char c2 <? 0); cbn [length]; [specialize (IH s2 (n - 1)); lia|].
  destruct s2 as [|c3 s3]; cbn [length] in *; [lia|].
  destruct (hex_char c3 <? 0);
    [specialize (IH s3 (n - 1))|specialize (IH (c3 :: s3) (n - 1))]; cbn [length] in *; lia.
Qed.

(** ** Properties *)

(** Reading back the delimited dump of any non-empty byte block restores the block, for every
    delimiter that is not itself a hexadecimal digit. *)
Theorem read_dump_roundtrip d bin buf text :
  bytes bin -> bin <> [] -> d <> 0 -> hex_char d < 0 -> (length bin <= length buf)%nat ->
  dump_hex None None d bin (zlen bin) = Some text ->
  read_hexstring buf (zlen bin) text = Some (bin ++ drop (length bin) buf, zlen bin).
Proof.
  intros Hb Hne Hd0 Hd Hlen. unfold dump_hex. destruct bin as [|b bs]; [done|].
  assert (Hpos : 0 < zlen (b :: bs)) by (cbn [length]; lia).
  rewrite (proj2 (Z.ltb_lt _ _) Hpos), Z.ltb_irrefl, Nat2Z.id, firstn_all.
  rewrite (proj2 (Z.eqb_neq d 0) Hd0). cbn [negb mbind option_bind app].
  intros Ht. apply (inj Some) in Ht. subst text. rewrite app_nil_r. inversion Hb; subst.
  unfold read_hexstring. rewrite read_bytes_text by (done || lia).
  by rewrite memcpy_at_ok, firstn_all by lia.
Qed.

Lemma read_dump_roundtrip_witness :
  read_hexstring [9; 9; 9; 9] 3 (cs "00-ff-a5") = Some ([0; 255; 165; 9], 3).
Proof.
  apply (read_dump_roundtrip 45 [0; 255; 165] [9; 9; 9; 9]);
    [repeat constructor; unfold is_byte; lia|done|done|done|cbn; lia|done].
Defined.

(** A MAC address printed by [print_macaddr] is read back by [read_hexstring]. *)
Theorem macaddr_roundtrip mac buf text :
  bytes mac -> length mac = 6%nat -> length buf = 6%nat ->
  print_macaddr mac = Some text -> read_hexstring buf 6 text = Some (mac, 6).
Proof.
  intros Hm Hl Hb Ht. destruct mac as [|m0 [|m1 [|m2 [|m3 [|m4 [|m5 [|]]]]]]]; try discriminate Hl.
  assert (text = fmt_02x 97 m0 ++ flat_map (fun b => 58 :: fmt_02x 97 b) [m1; m2; m3; m4; m5]) as ->
    by (apply (inj Some); rewrite <- Ht; reflexivity).
  inversion Hm as [|?? H0 Hm1]; subst. unfold read_hexstring.
  rewrite read_bytes_text by (done || cbn; lia).
  rewrite memcpy_at_ok by (rewrite ?Hb; cbn; lia). rewrite firstn_all.
  by rewrite drop_ge, app_nil_r by (rewrite Hb; cbn; lia).
Qed.

Lemma macaddr_roundtrip_witness :
  read_hexstring [0; 0; 0; 0; 0; 0] 6 (cs "00:80:c8:12:34:56") = Some ([0; 128; 200; 18; 52; 86], 6).
Proof.
  apply (macaddr_roundtrip [0; 128; 200; 18; 52; 86]);
    [repeat constructor; unfold is_byte; lia|done|done|by vm_compute].
Defined.

(** [read_hexstring] never stores more than [size] bytes, so a buffer of [size] bytes is never
    overrun, and it leaves the rest of the buffer as it was. *)
Theorem read_hexstring_bounds buf size s :
  0 <= size <= zlen buf ->
  exists out, read_hexstring buf size s = Some (out ++ drop (length out) buf, zlen out) /\
              zlen out <= size.
Proof.
  intros Hs. exists (read_bytes s size). pose proof (length_read_bytes s size ltac:(lia)) as Hl.
  unfold read_hexstring. by rewrite memcpy_at_ok, firstn_all by lia.
Qed.

Lemma read_hexstring_bounds_witness : exists out,
  read_hexstring [7; 7; 7] 2 (cs "0,1,2,3") = Some (out ++ drop (length out) [7; 7; 7], zlen out) /\
  zlen out <= 2.
Proof. apply (read_hexstring_bounds [7; 7; 7] 2 (cs "0,1,2,3")). cbn; lia. Defined.

(** Without a delimiter the first byte of the block is not printed. *)
Theorem dump_hex_nodelim_drops_first b bs :
  dump_hex None None 0 (b :: bs) (zlen (b :: bs)) = Some (flat_map (fmt_02x 97) bs).
Proof.
  unfold dump_hex. assert (Hpos : 0 < zlen (b :: bs)) by (cbn [length]; lia).
  rewrite (proj2 (Z.ltb_lt _ _) Hpos), Z.ltb_irrefl, Nat2Z.id, firstn_all. cbn. by rewrite app_nil_r.
Qed.

(** The string [print_uuid] returns is empty whatever the UUID is. *)
Theorem print_uuid_returns_empty uuid out s : print_uuid uuid = Some (out, s) -> s = [].
Proof. unfold print_uuid. destruct (zlen uuid <? 16); cbn; congruence. Qed.

End Hexstring.
