(* ===== verification/BlockHash.v ===== *)
(** * Hashing a message by 64-byte blocks.

    What MD5 and SHA-1 share: a compression function folded over the full blocks of a
    message, the bytes of the last incomplete block kept aside, and the padding of the
    message to a whole number of blocks.  The two hash components are proved to
    implement this description. *)
From Stdlib Require Import ZArith Lia Bool.
From stdpp Require Import base tactics list option numbers.
From S2P Require Import Prelude.

(** The first [n] blocks of [m]. *)
Fixpoint chunks (n : nat) (m : list Z) : list (list Z) :=
  match n with
  | O => []
  | S n' => take 64 m :: chunks n' (drop 64 m)
  end.

Definition nblocks (m : list Z) : nat := (length m / 64)%nat.

(** The bytes after the last full block. *)
Definition rest (m : list Z) : list Z := drop (64 * nblocks m) m.

Section Absorb.
Context {S : Type} (compress : S -> list Z -> S).

Definition absorb (s : S) (m : list Z) : S := foldl compress s (chunks (nblocks m) m).

Lemma absorb_short s m : (length m < 64)%nat -> absorb s m = s /\ rest m = m.
Proof.
  intros H. unfold absorb, rest, nblocks. rewrite Nat.div_small by done. by rewrite drop_0.
Qed.

Lemma chunks_app n k a b :
  length a = (64 * n)%nat -> chunks (n + k) (a ++ b) = chunks n a ++ chunks k b.
Proof.
  revert a. induction n as [|n IH]; intros a Ha; [by destruct a|]. cbn [Nat.add chunks app].
  rewrite take_app_le, drop_app_le by lia. f_equal. apply IH. rewrite length_drop. lia.
Qed.

(** A full block in front is compressed first. *)
Lemma absorb_block s b m :
  length b = 64%nat -> absorb s (b ++ m) = absorb (compress s b) m /\ rest (b ++ m) = rest m.
Proof.
  intros Hb. unfold absorb, rest, nblocks. rewrite length_app, Hb.
  replace (64 + length m)%nat with (length m + 1 * 64)%nat by lia.
  rewrite Nat.div_add by lia. rewrite Nat.add_1_r. cbn [chunks foldl].
  rewrite take_app_length', drop_app_length' by done. split; [done|].
  rewrite drop_app_ge by lia. f_equal. lia.
Qed.

Lemma absorb_one s b : length b = 64%nat -> absorb s b = compress s b.
Proof.
  intros Hb. rewrite <- (app_nil_r b) at 1. by rewrite (proj1 (absorb_block s b [] Hb)).
Qed.

Lemma length_rest m : (length (rest m) < 64)%nat.
Proof.
  unfold rest, nblocks. rewrite length_drop.
  pose proof (Nat.mod_upper_bound (length m) 64). pose proof (Nat.div_mod_eq (length m) 64). lia.
Qed.

Lemma length_rest_mod m : length (rest m) = (length m mod 64)%nat.
Proof.
  unfold rest, nblocks. rewrite length_drop. pose proof (Nat.div_mod_eq (length m) 64). lia.
Qed.

(** Absorbing in two parts: the second part continues from the bytes kept aside. *)
Lemma absorb_app s m x :
  absorb s (m ++ x) = absorb (absorb s m) (rest m ++ x) /\ rest (m ++ x) = rest (rest m ++ x).
Proof.
  remember (nblocks m) as n eqn:Hn. revert s m Hn.
  induction n as [|n IH]; intros s m Hn.
  - assert (length m < 64)%nat as Hlt.
    { unfold nblocks in Hn. pose proof (Nat.div_mod_eq (length m) 64).
      pose proof (Nat.mod_upper_bound (length m) 64). lia. }
    destruct (absorb_short s m Hlt) as [-> ->]. done.
  - assert (64 <= length m)%nat as Hge.
    { unfold nblocks in Hn. destruct (Nat.lt_ge_cases (length m) 64); [|done].
      rewrite Nat.div_small in Hn by done. lia. }
    rewrite <- (take_drop 64 m). set (b := take 64 m). set (t := drop 64 m).
    assert (length b = 64%nat) as Hb by (unfold b; rewrite length_take; lia).
    rewrite <- app_assoc. destruct (absorb_block s b (t ++ x) Hb) as [-> ->].
    destruct (absorb_block s b t Hb) as [-> ->]. apply IH.
    unfold t, nblocks in *. rewrite length_drop.
    replace (length m) with ((length m - 64) + 1 * 64)%nat in Hn at 1 by lia.
    rewrite Nat.div_add in Hn by lia. lia.
Qed.

Lemma absorb_full_chunks s m k :
  length m = (64 * k)%nat -> absorb s m = foldl compress s (chunks k m) /\ rest m = [].
Proof.
  intros Hm. unfold absorb, rest, nblocks. rewrite Hm.
  replace (64 * k)%nat with (k * 64)%nat by lia. rewrite Nat.div_mul by lia.
  split; [done|]. apply drop_ge. lia.
Qed.

End Absorb.

(** The number of zero bytes between the 0x80 marker and the 8-byte length. *)
Definition pad_zeros (len : nat) : nat := ((119 - len mod 64) mod 64)%nat.

(** The padded message; [lenbytes] encodes the length of the message. *)
Definition padded (m lenbytes : list Z) : list Z :=
  m ++ 128 :: replicate (pad_zeros (length m)) 0 ++ lenbytes.

(** The bytes of a word, most significant first and least significant first. *)
Definition be32 (w : Z) : list Z :=
  [u8 (Z.shiftr w 24); u8 (Z.shiftr w 16); u8 (Z.shiftr w 8); u8 w].
Definition le32 (w : Z) : list Z :=
  [u8 w; u8 (Z.shiftr w 8); u8 (Z.shiftr w 16); u8 (Z.shiftr w 24)].

(** Padding leaves a whole number of blocks. *)
Lemma length_padded m lb :
  length lb = 8%nat -> (length (padded m lb) mod 64 = 0)%nat.
Proof.
  intros Hl. unfold padded, pad_zeros.
  rewrite length_app. cbn [length]. rewrite length_app, length_replicate, Hl.
  pose proof (Nat.mod_upper_bound (length m) 64 ltac:(lia)) as Hb.
  pose proof (Nat.div_mod_eq (length m) 64) as Hd.
  set (r := (length m mod 64)%nat) in *. set (q := (length m / 64)%nat) in *.
  destruct (Nat.le_gt_cases r 55).
  - replace (119 - r)%nat with ((55 - r) + 1 * 64)%nat by lia.
    rewrite Nat.Div0.mod_add, (Nat.mod_small (55 - r)) by lia.
    replace (length m + S (55 - r + 8))%nat with ((q + 1) * 64)%nat by lia.
    apply Nat.Div0.mod_mul.
  - rewrite (Nat.mod_small (119 - r)) by lia.
    replace (length m + S (119 - r + 8))%nat with ((q + 2) * 64)%nat by lia.
    apply Nat.Div0.mod_mul.
Qed.

Lemma length_be32 w : length (be32 w) = 4%nat.
Proof. done. Qed.
Lemma length_le32 w : length (le32 w) = 4%nat.
Proof. done. Qed.
