(* ===== verification/Md5.v ===== *)
(** * comlib/md5.c: the MD5 message digest.

    The streaming context of the code, with its 64-byte buffer and its two bit
    counters, is related to a description of RFC 1321 over whole messages. *)
From Stdlib Require Import ZArith Lia Bool String.
From stdpp Require Import base tactics list option numbers.
From S2P Require Import Prelude BlockHash.

Module Md5.

Definition S11 : Z := 7.
Definition S12 : Z := 12.
Definition S13 : Z := 17.
Definition S14 : Z := 22.
Definition S21 : Z := 5.
Definition S22 : Z := 9.
Definition S23 : Z := 14.
Definition S24 : Z := 20.
Definition S31 : Z := 4.
Definition S32 : Z := 11.
Definition S33 : Z := 16.
Definition S34 : Z := 23.
Definition S41 : Z := 6.
Definition S42 : Z := 10.
Definition S43 : Z := 15.
Definition S44 : Z := 21.

Definition PADDING : list Z := 128 :: replicate 63 0.

Definition F (x y z : Z) : Z := Z.lor (Z.land x y) (Z.land (not32 x) z).
Definition G (x y z : Z) : Z := Z.lor (Z.land x z) (Z.land y (not32 z)).
Definition H (x y z : Z) : Z := Z.lxor (Z.lxor x y) z.
Definition I (x y z : Z) : Z := Z.lxor y (Z.lor x (not32 z)).

Definition ROTATE_LEFT (x n : Z) : Z := Z.lor (u32 (Z.shiftl x n)) (Z.shiftr x (32 - n)).

Definition FF (a b c d x s ac : Z) : Z :=
  let a := u32 (a + (F b c d + x + ac)) in let a := ROTATE_LEFT a s in u32 (a + b).
Definition GG (a b c d x s ac : Z) : Z :=
  let a := u32 (a + (G b c d + x + ac)) in let a := ROTATE_LEFT a s in u32 (a + b).
Definition HH (a b c d x s ac : Z) : Z :=
  let a := u32 (a + (H b c d + x + ac)) in let a := ROTATE_LEFT a s in u32 (a + b).
Definition II (a b c d x s ac : Z) : Z :=
  let a := u32 (a + (I b c d + x + ac)) in let a := ROTATE_LEFT a s in u32 (a + b).

(** [UINT4 state[4]]. *)
Definition words4 : Type := Z * Z * Z * Z.

Record MD5_CTX := mkctx {
  state : words4;
  count0 : Z;
  count1 : Z;
  buffer : list Z
}.

(** [Encode(output, input, 4 * length input)]. *)
Fixpoint Encode (input : list Z) : list Z :=
  match input with
  | [] => []
  | w :: tl =>
      [u8 (Z.land w 255); u8 (Z.land (Z.shiftr w 8) 255);
       u8 (Z.land (Z.shiftr w 16) 255); u8 (Z.land (Z.shiftr w 24) 255)] ++ Encode tl
  end.

(** [Decode(output, input, 4 * n)]. *)
Fixpoint Decode (n : nat) (input : list Z) : option (list Z) :=
  match n with
  | O => Some []
  | S n' =>
      match input with
      | b0 :: b1 :: b2 :: b3 :: tl =>
          ws ← Decode n' tl;
          Some (Z.lor (Z.lor (Z.lor b0 (u32 (Z.shiftl b1 8))) (u32 (Z.shiftl b2 16)))
                      (u32 (Z.shiftl b3 24)) :: ws)
      | _ => None
      end
  end.

(** The 64 steps, four at a time, as the code unrolls them; [x k] is [x[k]]. *)
Definition steps_1_4 (x : nat -> Z) (st : words4) : words4 :=
  let '(a, b, c, d) := st in
  let a := FF a b c d (x 0%nat) S11 0xd76aa478 in
  let d := FF d a b c (x 1%nat) S12 0xe8c7b756 in
  let c := FF c d a b (x 2%nat) S13 0x242070db in
  let b := FF b c d a (x 3%nat) S14 0xc1bdceee in
  (a, b, c, d).

Definition steps_5_8 (x : nat -> Z) (st : words4) : words4 :=
  let '(a, b, c, d) := st in
  let a := FF a b c d (x 4%nat) S11 0xf57c0faf in
  let d := FF d a b c (x 5%nat) S12 0x4787c62a in
  let c := FF c d a b (x 6%nat) S13 0xa8304613 in
  let b := FF b c d a (x 7%nat) S14 0xfd469501 in
  (a, b, c, d).

Definition steps_9_12 (x : nat -> Z) (st : words4) : words4 :=
  let '(a, b, c, d) := st in
  let a := FF a b c d (x 8%nat) S11 0x698098d8 in
  let d := FF d a b c (x 9%nat) S12 0x8b44f7af in
  let c := FF c d a b (x 10%nat) S13 0xffff5bb1 in
  let b := FF b c d a (x 11%nat) S14 0x895cd7be in
  (a, b, c, d).

Definition steps_13_16 (x : nat -> Z) (st : words4) : words4 :=
  let '(a, b, c, d) := st in
  let a := FF a b c d (x 12%nat) S11 0x6b901122 in
  let d := FF d a b c (x 13%nat) S12 0xfd987193 in
  let c := FF c d a b (x 14%nat) S13 0xa679438e in
  let b := FF b c d a (x 15%nat) S14 0x49b40821 in
  (a, b, c, d).

Definition steps_17_20 (x : nat -> Z) (st : words4) : words4 :=
  let '(a, b, c, d) := st in
  let a := GG a b c d (x 1%nat) S21 0xf61e2562 in
  let d := GG d a b c (x 6%nat) S22 0xc040b340 in
  let c := GG c d a b (x 11%nat) S23 0x265e5a51 in
  let b := GG b c d a (x 0%nat) S24 0xe9b6c7aa in
  (a, b, c, d).

Definition steps_21_24 (x : nat -> Z) (st : words4) : words4 :=
  let '(a, b, c, d) := st in
  let a := GG a b c d (x 5%nat) S21 0xd62f105d in
  let d := GG d a b c (x 10%nat) S22 0x2441453 in
  let c := GG c d a b (x 15%nat) S23 0xd8a1e681 in
  let b := GG b c d a (x 4%nat) S24 0xe7d3fbc8 in
  (a, b, c, d).

Definition steps_25_28 (x : nat -> Z) (st : words4) : words4 :=
  let '(a, b, c, d) := st in
  let a := GG a b c d (x 9%nat) S21 0x21e1cde6 in
  let d := GG d a b c (x 14%nat) S22 0xc33707d6 in
  let c := GG c d a b (x 3%nat) S23 0xf4d50d87 in
  let b := GG b c d a (x 8%nat) S24 0x455a14ed in
  (a, b, c, d).

Definition steps_29_32 (x : nat -> Z) (st : words4) : words4 :=
  let '(a, b, c, d) := st in
  let a := GG a b c d (x 13%nat) S21 0xa9e3e905 in
  let d := GG d a b c (x 2%nat) S22 0xfcefa3f8 in
  let c := GG c d a b (x 7%nat) S23 0x676f02d9 in
  let b := GG b c d a (x 12%nat) S24 0x8d2a4c8a in
  (a, b, c, d).

Definition steps_33_36 (x : nat -> Z) (st : words4) : words4 :=
  let '(a, b, c, d) := st in
  let a := HH a b c d (x 5%nat) S31 0xfffa3942 in
  let d := HH d a b c (x 8%nat) S32 0x8771f681 in
  let c := HH c d a b (x 11%nat) S33 0x6d9d6122 in
  let b := HH b c d a (x 14%nat) S34 0xfde5380c in
  (a, b, c, d).

Definition steps_37_40 (x : nat -> Z) (st : words4) : words4 :=
  let '(a, b, c, d) := st in
  let a := HH a b c d (x 1%nat) S31 0xa4beea44 in
  let d := HH d a b c (x 4%nat) S32 0x4bdecfa9 in
  let c := HH c d a b (x 7%nat) S33 0xf6bb4b60 in
  let b := HH b c d a (x 10%nat) S34 0xbebfbc70 in
  (a, b, c, d).

Definition steps_41_44 (x : nat -> Z) (st : words4) : words4 :=
  let '(a, b, c, d) := st in
  let a := HH a b c d (x 13%nat) S31 0x289b7ec6 in
  let d := HH d a b c (x 0%nat) S32 0xeaa127fa in
  let c := HH c d a b (x 3%nat) S33 0xd4ef3085 in
  let b := HH b c d a (x 6%nat) S34 0x4881d05 in
  (a, b, c, d).

Definition steps_45_48 (x : nat -> Z) (st : words4) : words4 :=
  let '(a, b, c, d) := st in
  let a := HH a b c d (x 9%nat) S31 0xd9d4d039 in
  let d := HH d a b c (x 12%nat) S32 0xe6db99e5 in
  let c := HH c d a b (x 15%nat) S33 0x1fa27cf8 in
  let b := HH b c d a (x 2%nat) S34 0xc4ac5665 in
  (a, b, c, d).

Definition steps_49_52 (x : nat -> Z) (st : words4) : words4 :=
  let '(a, b, c, d) := st in
  let a := II a b c d (x 0%nat) S41 0xf4292244 in
  let d := II d a b c (x 7%nat) S42 0x432aff97 in
  let c := II c d a b (x 14%nat) S43 0xab9423a7 in
  let b := II b c d a (x 5%nat) S44 0xfc93a039 in
  (a, b, c, d).

Definition steps_53_56 (x : nat -> Z) (st : words4) : words4 :=
  let '(a, b, c, d) := st in
  let a := II a b c d (x 12%nat) S41 0x655b59c3 in
  let d := II d a b c (x 3%nat) S42 0x8f0ccc92 in
  let c := II c d a b (x 10%nat) S43 0xffeff47d in
  let b := II b c d a (x 1%nat) S44 0x85845dd1 in
  (a, b, c, d).

Definition steps_57_60 (x : nat -> Z) (st : words4) : words4 :=
  let '(a, b, c, d) := st in
  let a := II a b c d (x 8%nat) S41 0x6fa87e4f in
  let d := II d a b c (x 15%nat) S42 0xfe2ce6e0 in
  let c := II c d a b (x 6%nat) S43 0xa3014314 in
  let b := II b c d a (x 13%nat) S44 0x4e0811a1 in
  (a, b, c, d).

Definition steps_61_64 (x : nat -> Z) (st : words4) : words4 :=
  let '(a, b, c, d) := st in
  let a := II a b c d (x 4%nat) S41 0xf7537e82 in
  let d := II d a b c (x 11%nat) S42 0xbd3af235 in
  let c := II c d a b (x 2%nat) S43 0x2ad7d2bb in
  let b := II b c d a (x 9%nat) S44 0xeb86d391 in
  (a, b, c, d).

Definition rounds (x : nat -> Z) (st : words4) : words4 :=
  let st := steps_1_4 x st in
  let st := steps_5_8 x st in
  let st := steps_9_12 x st in
  let st := steps_13_16 x st in
  let st := steps_17_20 x st in
  let st := steps_21_24 x st in
  let st := steps_25_28 x st in
  let st := steps_29_32 x st in
  let st := steps_33_36 x st in
  let st := steps_37_40 x st in
  let st := steps_41_44 x st in
  let st := steps_45_48 x st in
  let st := steps_49_52 x st in
  let st := steps_53_56 x st in
  let st := steps_57_60 x st in
  let st := steps_61_64 x st in
  st.

Definition MD5Transform (st : words4) (block : list Z) : option words4 :=
  x ← Decode 16 block;
  let '(a, b, c, d) := rounds (fun k => nth k x 0) st in
  let '(s0, s1, s2, s3) := st in
  Some (u32 (s0 + a), u32 (s1 + b), u32 (s2 + c), u32 (s3 + d)).

(** [MD5Init] leaves the buffer as it is. *)
Definition MD5Init (context : MD5_CTX) : MD5_CTX :=
  mkctx (0x67452301, 0xefcdab89, 0x98badcfe, 0x10325476) 0 0 (buffer context).

(** [for (i = partLen; i + 63 < inputLen; i += 64) MD5Transform(state, &input[i])]; the
    addition wraps.  [fuel] bounds the turns. *)
Fixpoint transform_loop (fuel : nat) (st : words4) (input : list Z) (i inputLen : Z)
    : option (words4 * Z) :=
  if u32 (i + 63) <? inputLen then
    match fuel with
    | O => None
    | S fuel' =>
        st' ← MD5Transform st (drop (Z.to_nat i) input);
        transform_loop fuel' st' input (u32 (i + 64)) inputLen
    end
  else Some (st, i).

Definition MD5Update (context : MD5_CTX) (input : list Z) (inputLen : Z) : option MD5_CTX :=
  let index := Z.land (Z.shiftr (count0 context) 3) 63 in
  let bits := u32 (Z.shiftl inputLen 3) in
  let c0 := u32 (count0 context + bits) in
  let c1 := if c0 <? bits then u32 (count1 context + 1) else count1 context in
  let c1 := u32 (c1 + Z.shiftr inputLen 29) in
  let partLen := 64 - index in
  if partLen <=? inputLen then
    buf ← memcpy_at (buffer context) (Z.to_nat index) (Z.to_nat partLen) input;
    st ← MD5Transform (state context) buf;
    r ← transform_loop (Z.to_nat (inputLen / 64)) st input partLen inputLen;
    let '(st', i) := r in
    buf' ← memcpy_at buf 0 (Z.to_nat (inputLen - i)) (drop (Z.to_nat i) input);
    Some (mkctx st' c0 c1 buf')
  else
    buf' ← memcpy_at (buffer context) (Z.to_nat index) (Z.to_nat inputLen) input;
    Some (mkctx (state context) c0 c1 buf').

Definition list4 (w : words4) : list Z := let '(a, b, c, d) := w in [a; b; c; d].

(** The digest and the zeroised context. *)
Definition MD5Final (context : MD5_CTX) : option (list Z * MD5_CTX) :=
  let bits := Encode [count0 context; count1 context] in
  let index := Z.land (Z.shiftr (count0 context) 3) 63 in
  let padLen := if index <? 56 then 56 - index else 120 - index in
  context ← MD5Update context PADDING padLen;
  context ← MD5Update context bits 8;
  Some (Encode (list4 (state context)), mkctx (0, 0, 0, 0) 0 0 (replicate 64 0)).

(** ** RFC 1321 *)

(** The table of [floor (2^32 * abs (sin i))], [i] from 1 to 64. *)
Definition T : list Z :=
  [3614090360; 3905402710; 606105819; 3250441966; 4118548399; 1200080426;
   2821735955; 4249261313; 1770035416; 2336552879; 4294925233; 2304563134;
   1804603682; 4254626195; 2792965006; 1236535329; 4129170786; 3225465664;
   643717713; 3921069994; 3593408605; 38016083; 3634488961; 3889429448;
   568446438; 3275163606; 4107603335; 1163531501; 2850285829; 4243563512;
   1735328473; 2368359562; 4294588738; 2272392833; 1839030562; 4259657740;
   2763975236; 1272893353; 4139469664; 3200236656; 681279174; 3936430074;
   3572445317; 76029189; 3654602809; 3873151461; 530742520; 3299628645;
   4096336452; 1126891415; 2878612391; 4237533241; 1700485571; 2399980690;
   4293915773; 2240044497; 1873313359; 4264355552; 2734768916; 1309151649;
   4149444226; 3174756917; 718787259; 3951481745].

(** The shift amounts, the message word and the function of each of the 64 steps. *)
Definition rfc_shift (i : nat) : Z :=
  nth (4 * (i / 16) + i mod 4)%nat
    [7; 12; 17; 22; 5; 9; 14; 20; 4; 11; 16; 23; 6; 10; 15; 21] 0.
Definition rfc_word (i : nat) : nat :=
  match (i / 16)%nat with
  | 0%nat => (i mod 16)%nat
  | 1%nat => ((5 * i + 1) mod 16)%nat
  | 2%nat => ((3 * i + 5) mod 16)%nat
  | _ => ((7 * i) mod 16)%nat
  end.
Definition rfc_fun (i : nat) : Z -> Z -> Z -> Z :=
  match (i / 16)%nat with 0%nat => F | 1%nat => G | 2%nat => H | _ => I end.

Definition rfc_step (x : nat -> Z) (st : words4) (i : nat) : words4 :=
  let '(a, b, c, d) := st in
  (d, u32 (ROTATE_LEFT (u32 (a + (rfc_fun i b c d + x (rfc_word i) + nth i T 0))) (rfc_shift i) + b),
   b, c).

Definition rfc_compress (st : words4) (block : list Z) : words4 :=
  let x := default [] (Decode 16 block) in
  let '(a, b, c, d) := foldl (rfc_step (fun k => nth k x 0)) st (seq 0 64) in
  let '(s0, s1, s2, s3) := st in
  (u32 (s0 + a), u32 (s1 + b), u32 (s2 + c), u32 (s3 + d)).

Definition rfc_init : words4 := (0x67452301, 0xefcdab89, 0x98badcfe, 0x10325476).

(** The bit length of the message modulo 2^64, low word first. *)
Definition rfc_length (m : list Z) : list Z :=
  let bits := 8 * zlen m in le32 (u32 bits) ++ le32 (u32 (Z.shiftr bits 32)).

Definition md5 (m : list Z) : list Z :=
  let '(a, b, c, d) := absorb rfc_compress rfc_init (padded m (rfc_length m)) in
  le32 a ++ le32 b ++ le32 c ++ le32 d.

(** ** The unrolled transformation is the one of the RFC *)

(** Evaluate the tables of the RFC at the concrete step numbers, then compare. *)
Ltac md5_tables :=
  repeat match goal with
  | |- context [rfc_word ?i] =>
      let v := eval vm_compute in (rfc_word i) in change (rfc_word i) with v
  | |- context [rfc_shift ?i] =>
      let v := eval vm_compute in (rfc_shift i) in change (rfc_shift i) with v
  | |- context [nth ?i T 0] =>
      let v := eval vm_compute in (nth i T 0) in change (nth i T 0) with v
  | |- context [rfc_fun ?i] =>
      let v := eval cbv [rfc_fun Nat.div Nat.divmod fst snd] in (rfc_fun i) in
      change (rfc_fun i) with v
  end.
Ltac md5_steps f st :=
  destruct st as [[[a b] c] d];
  cbv [f foldl seq rfc_step FF GG HH II S11 S12 S13 S14 S21 S22 S23 S24
       S31 S32 S33 S34 S41 S42 S43 S44];
  md5_tables; reflexivity.

Lemma steps_1_4_rfc x st : steps_1_4 x st = foldl (rfc_step x) st (seq 0 4).
Proof. md5_steps steps_1_4 st. Qed.
Lemma steps_5_8_rfc x st : steps_5_8 x st = foldl (rfc_step x) st (seq 4 4).
Proof. md5_steps steps_5_8 st. Qed.
Lemma steps_9_12_rfc x st : steps_9_12 x st = foldl (rfc_step x) st (seq 8 4).
Proof. md5_steps steps_9_12 st. Qed.
Lemma steps_13_16_rfc x st : steps_13_16 x st = foldl (rfc_step x) st (seq 12 4).
Proof. md5_steps steps_13_16 st. Qed.
Lemma steps_17_20_rfc x st : steps_17_20 x st = foldl (rfc_step x) st (seq 16 4).
Proof. md5_steps steps_17_20 st. Qed.
Lemma steps_21_24_rfc x st : steps_21_24 x st = foldl (rfc_step x) st (seq 20 4).
Proof. md5_steps steps_21_24 st. Qed.
Lemma steps_25_28_rfc x st : steps_25_28 x st = foldl (rfc_step x) st (seq 24 4).
Proof. md5_steps steps_25_28 st. Qed.
Lemma steps_29_32_rfc x st : steps_29_32 x st = foldl (rfc_step x) st (seq 28 4).
Proof. md5_steps steps_29_32 st. Qed.
Lemma steps_33_36_rfc x st : steps_33_36 x st = foldl (rfc_step x) st (seq 32 4).
Proof. md5_steps steps_33_36 st. Qed.
Lemma steps_37_40_rfc x st : steps_37_40 x st = foldl (rfc_step x) st (seq 36 4).
Proof. md5_steps steps_37_40 st. Qed.
Lemma steps_41_44_rfc x st : steps_41_44 x st = foldl (rfc_step x) st (seq 40 4).
Proof. md5_steps steps_41_44 st. Qed.
Lemma steps_45_48_rfc x st : steps_45_48 x st = foldl (rfc_step x) st (seq 44 4).
Proof. md5_steps steps_45_48 st. Qed.
Lemma steps_49_52_rfc x st : steps_49_52 x st = foldl (rfc_step x) st (seq 48 4).
Proof. md5_steps steps_49_52 st. Qed.
Lemma steps_53_56_rfc x st : steps_53_56 x st = foldl (rfc_step x) st (seq 52 4).
Proof. md5_steps steps_53_56 st. Qed.
Lemma steps_57_60_rfc x st : steps_57_60 x st = foldl (rfc_step x) st (seq 56 4).
Proof. md5_steps steps_57_60 st. Qed.
Lemma steps_61_64_rfc x st : steps_61_64 x st = foldl (rfc_step x) st (seq 60 4).
Proof. md5_steps steps_61_64 st. Qed.

Lemma rounds_rfc x st : rounds x st = foldl (rfc_step x) st (seq 0 64).
Proof.
  unfold rounds.
  rewrite steps_1_4_rfc, steps_5_8_rfc, steps_9_12_rfc, steps_13_16_rfc, steps_17_20_rfc, steps_21_24_rfc, steps_25_28_rfc, steps_29_32_rfc, steps_33_36_rfc, steps_37_40_rfc, steps_41_44_rfc, steps_45_48_rfc, steps_49_52_rfc, steps_53_56_rfc, steps_57_60_rfc, steps_61_64_rfc, <- !foldl_app. reflexivity.
Qed.

Lemma Decode_total n : forall b, (4 * n <= length b)%nat -> exists ws, Decode n b = Some ws.
Proof.
  induction n as [|n IH]; intros b Hb; [by eexists|].
  destruct b as [|b0 [|b1 [|b2 [|b3 b]]]]; cbn [length] in Hb; try lia.
  destruct (IH b ltac:(lia)) as [ws Hws]. cbn [Decode]. rewrite Hws. by eexists.
Qed.

Lemma Decode_take n : forall b k,
  (4 * n <= k)%nat -> (4 * n <= length b)%nat -> Decode n (take k b) = Decode n b.
Proof.
  induction n as [|n IH]; intros b k Hk Hb; [done|].
  destruct b as [|b0 [|b1 [|b2 [|b3 b]]]]; cbn [length] in Hb; try lia.
  destruct k as [|[|[|[|k]]]]; try lia. cbn [take Decode]. by rewrite IH by lia.
Qed.

(** On a full block the code's transformation succeeds and is the RFC's. *)
Lemma MD5Transform_rfc st b :
  (64 <= length b)%nat -> MD5Transform st b = Some (rfc_compress st (take 64 b)).
Proof.
  intros Hb. unfold MD5Transform, rfc_compress.
  rewrite Decode_take by lia. destruct (Decode_total 16 b ltac:(lia)) as [ws ->].
  cbn [mbind option_bind default]. rewrite rounds_rfc.
  by destruct (foldl _ st _) as [[[a b'] c] d], st as [[[s0 s1] s2] s3].
Qed.

(** ** The streaming context *)

Lemma transform_loop_spec inputLen : forall fuel st input i,
  0 <= i <= inputLen -> inputLen <= 2 ^ 32 - 64 -> inputLen <= zlen input ->
  (Z.to_nat ((inputLen - i) / 64) <= fuel)%nat ->
  let m := take (Z.to_nat (inputLen - i)) (drop (Z.to_nat i) input) in
  transform_loop fuel st input i inputLen =
    Some (absorb rfc_compress st m, inputLen - zlen (rest m)).
Proof.
  change (2 ^ 32 - 64) with 4294967232.
  induction fuel as [|fuel IH]; intros st input i Hi Hmax Hlen Hf m.
  - assert ((inputLen - i) / 64 = 0) as Hz
      by (pose proof (Z.div_pos (inputLen - i) 64); lia).
    pose proof (Z.div_mod (inputLen - i) 64). pose proof (Z.mod_pos_bound (inputLen - i) 64).
    cbn [transform_loop]. rewrite u32_small by lia. destruct (Z.ltb_spec (i + 63) inputLen); [lia|].
    assert (length m = Z.to_nat (inputLen - i)) as Hm
      by (unfold m; rewrite length_take, length_drop; lia).
    destruct (absorb_short rfc_compress st m ltac:(lia)) as [-> ->]. rewrite Hm. repeat f_equal. lia.
  - assert (length m = Z.to_nat (inputLen - i)) as Hm
      by (unfold m; rewrite length_take, length_drop; lia).
    cbn [transform_loop]. rewrite u32_small by lia. destruct (Z.ltb_spec (i + 63) inputLen).
    + rewrite MD5Transform_rfc by (rewrite length_drop; lia). cbn [mbind option_bind].
      rewrite (u32_small (i + 64)) by lia.
      assert ((inputLen - i) / 64 = (inputLen - (i + 64)) / 64 + 1)
        by (rewrite <- Z.div_add by lia; f_equal; lia).
      rewrite IH by lia. cbn zeta.
      assert (m = take 64 (drop (Z.to_nat i) input) ++
                  take (Z.to_nat (inputLen - (i + 64))) (drop (Z.to_nat (i + 64)) input)) as ->.
      { unfold m. rewrite Z2Nat.inj_add, <- drop_drop by lia. change (Z.to_nat 64) with 64%nat.
        replace (Z.to_nat (inputLen - i)) with (64 + Z.to_nat (inputLen - (i + 64)))%nat by lia.
        by rewrite take_take_drop. }
      destruct (absorb_block rfc_compress st (take 64 (drop (Z.to_nat i) input))
        (take (Z.to_nat (inputLen - (i + 64))) (drop (Z.to_nat (i + 64)) input))) as [-> ->]; [|done].
      rewrite length_take, length_drop. lia.
    + destruct (absorb_short rfc_compress st m ltac:(lia)) as [-> ->]. rewrite Hm. repeat f_equal. lia.
Qed.

(** The context stands for the message [m] hashed so far. *)
Record ctx_rep (context : MD5_CTX) (m : list Z) : Prop := {
  rep_state : state context = absorb rfc_compress rfc_init m;
  rep_count0 : count0 context = u32 (8 * zlen m);
  rep_count1 : count1 context = u32 (8 * zlen m / 2 ^ 32);
  rep_length : length (buffer context) = 64%nat;
  rep_buffer : take (length m mod 64) (buffer context) = rest m
}.

Lemma ctx_index context m :
  ctx_rep context m ->
  Z.land (Z.shiftr (count0 context) 3) 63 = Z.of_nat (length m mod 64).
Proof.
  intros R. rewrite (rep_count0 _ _ R). unfold u32.
  change 63 with (Z.ones 6). rewrite Z.land_ones, Z.shiftr_div_pow2 by lia.
  rewrite Nat2Z.inj_mod. change (2 ^ 32) with (2 ^ 3 * 2 ^ 29).
  change (8 * zlen m) with (2 ^ 3 * zlen m). rewrite Zmult_mod_distr_l.
  rewrite (Z.mul_comm (2 ^ 3)), Z.div_mul by lia.
  change (2 ^ 29) with (2 ^ 6 * 2 ^ 23). change (Z.of_nat 64) with (2 ^ 6).
  rewrite Z.rem_mul_r by lia. rewrite (Z.mul_comm (2 ^ 6)), Z.mod_add by lia. apply Z.mod_mod. lia.
Qed.

(** The two 32-bit counters hold the bit count modulo 2^64. *)
Lemma counter_add l n :
  0 <= l -> 0 <= n < 2 ^ 32 ->
  let c0 := u32 (8 * l) in let c1 := u32 (8 * l / 2 ^ 32) in
  let b := u32 (Z.shiftl n 3) in let c0' := u32 (c0 + b) in
  c0' = u32 (8 * (l + n)) /\
  u32 ((if c0' <? b then u32 (c1 + 1) else c1) + Z.shiftr n 29) = u32 (8 * (l + n) / 2 ^ 32).
Proof.
  intros Hl Hn. unfold u32. rewrite Z.shiftl_mul_pow2, Z.shiftr_div_pow2 by lia. cbn zeta.
  change (2 ^ 3) with 8. replace (n * 8) with (8 * n) by lia.
  split; [rewrite <- Zplus_mod; f_equal; lia|].
  set (w := 2 ^ 32) in *. assert (w = 8 * 2 ^ 29) as Hw by reflexivity.
  assert (8 * n / w = n / 2 ^ 29) as <- by (rewrite Hw; apply Z.div_mul_cancel_l; lia).
  assert (w = 4294967296) as Hw2 by reflexivity. clearbody w. clear Hw.
  set (a := 8 * l). set (b := 8 * n). replace (8 * (l + n)) with (a + b) by lia.
  pose proof (Z.div_mod a w ltac:(lia)) as Ha. pose proof (Z.mod_pos_bound a w ltac:(lia)).
  pose proof (Z.div_mod b w ltac:(lia)) as Hb. pose proof (Z.mod_pos_bound b w ltac:(lia)).
  set (ah := a / w) in *. set (al := a mod w) in *. set (bh := b / w) in *. set (bl := b mod w) in *.
  destruct (Z.lt_ge_cases (al + bl) w) as [Hlt|Hge].
  - rewrite (Z.mod_small (al + bl)) by lia. destruct (Z.ltb_spec (al + bl) bl); [lia|].
    assert ((a + b) / w = ah + bh) as -> by (symmetry; apply (Z.div_unique _ _ _ (al + bl)); lia).
    by rewrite Zplus_mod_idemp_l.
  - assert ((al + bl) mod w = al + bl - w) as ->
      by (symmetry; apply (Z.mod_unique _ _ 1); lia).
    destruct (Z.ltb_spec (al + bl - w) bl); [|lia].
    assert ((a + b) / w = ah + 1 + bh) as ->
      by (symmetry; apply (Z.div_unique _ _ _ (al + bl - w)); lia).
    rewrite Zplus_mod_idemp_l. rewrite <- Zplus_mod_idemp_l.
    rewrite (Zplus_mod_idemp_l ah 1). by rewrite Zplus_mod_idemp_l.
Qed.

Lemma MD5Init_rep context : length (buffer context) = 64%nat -> ctx_rep (MD5Init context) [].
Proof. intros H. by constructor. Qed.

(** One call of [MD5Update] appends to the message. *)
Lemma MD5Update_rep context m input n :
  ctx_rep context m -> 0 <= n <= 2 ^ 32 - 64 -> n <= zlen input ->
  exists context', MD5Update context input n = Some context' /\
                   ctx_rep context' (m ++ take (Z.to_nat n) input).
Proof.
  intros R Hn Hlen. change (2 ^ 32 - 64) with 4294967232 in Hn.
  unfold MD5Update. rewrite (ctx_index _ _ R). set (r := (length m mod 64)%nat).
  assert (r < 64)%nat as Hr by (apply Nat.mod_upper_bound; lia).
  pose proof (length_rest_mod m) as Hrl. fold r in Hrl.
  destruct (counter_add (zlen m) n ltac:(lia) ltac:(lia)) as [HC0 HC1].
  rewrite <- (rep_count0 _ _ R) in HC0, HC1. rewrite <- (rep_count1 _ _ R) in HC1.
  cbn zeta in HC0, HC1.
  set (x := take (Z.to_nat n) input).
  assert (zlen m + n = zlen (m ++ x)) as Hmx
    by (rewrite length_app; unfold x; rewrite length_take; lia).
  rewrite Hmx in HC0, HC1.
  destruct (absorb_app rfc_compress rfc_init m x) as [HA HR].
  pose proof (rep_length _ _ R) as HL. pose proof (rep_buffer _ _ R) as HB. fold r in HB.
  destruct (Z.leb_spec (64 - Z.of_nat r) n) as [Hge|Hlt].
  - set (q := (64 - r)%nat). replace (Z.to_nat (64 - Z.of_nat r)) with q by lia. rewrite Nat2Z.id.
    rewrite memcpy_at_ok by lia. cbn [mbind option_bind].
    rewrite (drop_ge (buffer context)), app_nil_r, HB by lia.
    assert (length (rest m ++ take q input) = 64%nat) as H64
      by (rewrite length_app, length_take; lia).
    rewrite MD5Transform_rfc by lia. cbn [mbind option_bind].
    rewrite (take_ge (rest m ++ take q input)) by lia.
    rewrite transform_loop_spec by (try lia; apply Z2Nat.inj_le; try apply Z.div_pos; try lia;
      apply Z.div_le_mono; lia).
    replace (Z.to_nat (n - (64 - Z.of_nat r))) with (Z.to_nat n - q)%nat by lia.
    replace (Z.to_nat (64 - Z.of_nat r)) with q by lia.
    set (y := take (Z.to_nat n - q) (drop q input)).
    assert (rest m ++ x = (rest m ++ take q input) ++ y) as Hx.
    { rewrite <- app_assoc. f_equal. unfold x, y.
      replace (Z.to_nat n) with (q + (Z.to_nat n - q))%nat at 1 by lia. by rewrite take_take_drop. }
    rewrite Hx in HA, HR.
    destruct (absorb_block rfc_compress (absorb rfc_compress rfc_init m) _ y H64) as [HA' HR'].
    rewrite HA' in HA. rewrite HR' in HR. cbn [mbind option_bind].
    pose proof (length_rest y) as Hry. set (k := length (rest y)) in *.
    replace (Z.to_nat (n - (n - Z.of_nat k))) with k by lia.
    assert (length y = (Z.to_nat n - q)%nat) as Hyl by (unfold y; rewrite length_take, length_drop; lia).
    assert (k <= length y)%nat as Hky by (unfold k, rest; rewrite length_drop; lia).
    rewrite memcpy_at_ok by (rewrite ?length_drop; lia). cbn [mbind option_bind take app].
    eexists. split; [reflexivity|].
    assert (take k (drop (Z.to_nat (n - Z.of_nat k)) input) = rest y) as Hk.
    { unfold rest. replace (64 * nblocks y)%nat with (length y - k)%nat
        by (unfold k, rest; rewrite length_drop; pose proof (Nat.div_mod_eq (length y) 64); unfold nblocks; lia).
      unfold y at 2. rewrite skipn_firstn_comm, drop_drop by lia.
      f_equal; [lia|f_equal; lia]. }
    constructor; cbn [state count0 count1 buffer].
    + rewrite HA, (rep_state _ _ R). reflexivity.
    + exact HC0.
    + exact HC1.
    + rewrite firstn_O, Hk; cbn [app]. rewrite length_app, length_drop. fold k. lia.
    + rewrite <- length_rest_mod, HR, Hk, firstn_O; cbn [app]. by rewrite take_app_length.
  - rewrite Nat2Z.id. rewrite memcpy_at_ok by lia. cbn [mbind option_bind].
    eexists. split; [reflexivity|]. rewrite HB. fold x.
    assert (length x = Z.to_nat n) as Hxl by (unfold x; rewrite length_take; lia).
    destruct (absorb_short rfc_compress (absorb rfc_compress rfc_init m) (rest m ++ x)) as [HS1 HS2];
      [rewrite length_app; lia|].
    constructor; cbn [state count0 count1 buffer].
    + rewrite HA, HS1. apply (rep_state _ _ R).
    + exact HC0.
    + exact HC1.
    + rewrite app_assoc, length_app, length_app, length_drop. lia.
    + rewrite <- length_rest_mod, HR, HS2, app_assoc, take_app_length. reflexivity.
Qed.

Lemma u8_land x : u8 (Z.land x 255) = u8 x.
Proof. unfold u8. change 255 with (Z.ones 8). rewrite Z.land_ones by lia. by rewrite Zmod_mod. Qed.

Lemma Encode_le32 ws : Encode ws = flat_map le32 ws.
Proof. induction ws as [|w ws IH]; [done|]. cbn [Encode flat_map]. by rewrite !u8_land, IH. Qed.

(** The padding the code appends is the one of the RFC. *)
Lemma padding_rfc r :
  (r < 64)%nat ->
  let padLen := if Z.of_nat r <? 56 then 56 - Z.of_nat r else 120 - Z.of_nat r in
  0 < padLen <= 64 /\
  take (Z.to_nat padLen) PADDING = 128 :: replicate ((119 - r) mod 64) 0.
Proof.
  intros Hr padLen. assert (Z.to_nat padLen = S ((119 - r) mod 64) /\ 0 < padLen <= 64) as [Hp Hb].
  { unfold padLen. destruct (Z.ltb_spec (Z.of_nat r) 56).
    - replace (119 - r)%nat with ((55 - r) + 1 * 64)%nat by lia.
      rewrite Nat.Div0.mod_add, Nat.mod_small by lia. lia.
    - rewrite Nat.mod_small by lia. lia. }
  split; [done|]. rewrite Hp. unfold PADDING. cbn [take]. f_equal.
  pose proof (Nat.mod_upper_bound (119 - r) 64). rewrite take_replicate. f_equal. lia.
Qed.

(** Finishing a context that stands for [m] gives the RFC digest of [m]. *)
Lemma MD5Final_rep context m :
  ctx_rep context m -> MD5Final context = Some (md5 m, mkctx (0, 0, 0, 0) 0 0 (replicate 64 0)).
Proof.
  intros R. unfold MD5Final. rewrite (ctx_index _ _ R). set (r := (length m mod 64)%nat).
  destruct (padding_rfc r) as [Hp HP]; [apply Nat.mod_upper_bound; lia|]. cbn zeta in Hp, HP.
  set (padLen := if Z.of_nat r <? 56 then 56 - Z.of_nat r else 120 - Z.of_nat r) in *.
  destruct (MD5Update_rep context m PADDING padLen R) as (c1 & -> & R1);
    [change (2 ^ 32 - 64) with 4294967232; lia|change (zlen PADDING) with 64; lia|].
  cbn [mbind option_bind].
  destruct (MD5Update_rep c1 _ (Encode [count0 context; count1 context]) 8 R1) as (c2 & -> & R2);
    [done|done|].
  cbn [mbind option_bind]. f_equal. f_equal. rewrite Encode_le32, (rep_state _ _ R2). unfold md5.
  assert ((m ++ take (Z.to_nat padLen) PADDING) ++
          take (Z.to_nat 8) (Encode [count0 context; count1 context]) =
          padded m (rfc_length m)) as ->.
  { rewrite HP, Encode_le32. unfold padded, rfc_length, pad_zeros. fold r.
    rewrite (rep_count0 _ _ R), (rep_count1 _ _ R), Z.shiftr_div_pow2 by lia.
    rewrite <- app_assoc. reflexivity. }
  destruct (absorb _ _ _) as [[[a b] c] d]. reflexivity.
Qed.

(** Feeding the chunks of a message one after the other. *)
Definition md5_feed (context : option MD5_CTX) (chunk : list Z) : option MD5_CTX :=
  context ← context; MD5Update context chunk (zlen chunk).

Lemma md5_feed_all cs : forall context m,
  ctx_rep context m -> Forall (fun c => zlen c <= 2 ^ 32 - 64) cs ->
  exists context', foldl md5_feed (Some context) cs = Some context' /\
                   ctx_rep context' (m ++ concat cs).
Proof.
  induction cs as [|c cs IH]; intros context m R Hc.
  - exists context. cbn. by rewrite app_nil_r.
  - apply Forall_cons_iff in Hc as [Hc Hcs].
    destruct (MD5Update_rep context m c (zlen c) R) as (c1 & E1 & R1); [lia|lia|].
    cbn [foldl md5_feed mbind option_bind]. rewrite E1. rewrite Nat2Z.id, firstn_all in R1.
    destruct (IH c1 _ R1) as (c2 & E2 & R2); [done|]. exists c2. split; [done|].
    cbn [concat]. by rewrite app_assoc.
Qed.

(** ** Properties *)

(** C39. However a message is cut into calls of [MD5Update], the context initialised by [MD5Init] and
    finished by [MD5Final] yields the RFC 1321 digest of the whole message (its bit length counted
    modulo 2^64, across the carry of the two counters), and the context is zeroised. *)
Theorem md5_stream_correct context cs :
  length (buffer context) = 64%nat -> Forall (fun c => zlen c <= 2 ^ 32 - 64) cs ->
  exists context', foldl md5_feed (Some (MD5Init context)) cs = Some context' /\
    MD5Final context' = Some (md5 (concat cs), mkctx (0, 0, 0, 0) 0 0 (replicate 64 0)).
Proof.
  intros Hb Hc. destruct (md5_feed_all cs _ [] (MD5Init_rep context Hb) Hc) as (c' & H1 & R).
  exists c'. split; [done|]. by apply MD5Final_rep.
Qed.

Lemma md5_stream_correct_witness : exists context',
  foldl md5_feed (Some (MD5Init (mkctx (0, 0, 0, 0) 7 7 (replicate 64 1)))) [cs "a"; cs "bc"] = Some context' /\
  MD5Final context' = Some (md5 (cs "abc"), mkctx (0, 0, 0, 0) 0 0 (replicate 64 0)).
Proof.
  apply (md5_stream_correct (mkctx (0, 0, 0, 0) 7 7 (replicate 64 1)) [cs "a"; cs "bc"]); [done|].
  repeat constructor; vm_compute; discriminate.
Defined.

(** The 64 unrolled steps of [MD5Transform] compute, on every state and every block, the
    table-driven compression of RFC 1321 (functions, word order, shifts and the sine table). *)
Theorem MD5Transform_is_rfc st block :
  length block = 64%nat -> MD5Transform st block = Some (rfc_compress st block).
Proof. intros H. rewrite MD5Transform_rfc by lia. by rewrite take_ge by lia. Qed.

Lemma MD5Transform_is_rfc_witness :
  MD5Transform rfc_init (replicate 64 0) = Some (rfc_compress rfc_init (replicate 64 0)).
Proof. by apply MD5Transform_is_rfc. Defined.

(** The test suite of RFC 1321, appendix A.5. *)
Example md5_empty : md5 [] =
  [0xd4; 0x1d; 0x8c; 0xd9; 0x8f; 0x00; 0xb2; 0x04; 0xe9; 0x80; 0x09; 0x98; 0xec; 0xf8; 0x42; 0x7e].
Proof. by vm_compute. Qed.
Example md5_abc : md5 (cs "abc") =
  [0x90; 0x01; 0x50; 0x98; 0x3c; 0xd2; 0x4f; 0xb0; 0xd6; 0x96; 0x3f; 0x7d; 0x28; 0xe1; 0x7f; 0x72].
Proof. by vm_compute. Qed.
Example md5_digits :
  md5 (cs "12345678901234567890123456789012345678901234567890123456789012345678901234567890") =
  [0x57; 0xed; 0xf4; 0xa2; 0x2b; 0xe3; 0xc9; 0x55; 0xac; 0x49; 0xda; 0x2e; 0x21; 0x07; 0xb6; 0x7a].
Proof. by vm_compute. Qed.

End Md5.
