(* ===== verification/Sha1.v ===== *)
(** * comlib/sha1.c: the SHA-1 message digest.

    The context of the code, fed byte by byte, is related to a description of FIPS
    180-1 over whole messages. *)
From Stdlib Require Import ZArith Lia Bool String.
From stdpp Require Import base tactics list option numbers.
From S2P Require Import Prelude BlockHash.

Module Sha1.

Definition MASK32 : Z := 0xFFFFFFFF.

Definition SHA1CircularShift (bits word : Z) : Z :=
  Z.lor (Z.land (u32 (Z.shiftl word bits)) MASK32) (Z.shiftr word (32 - bits)).

(** [unsigned Message_Digest[5]]. *)
Definition words5 : Type := Z * Z * Z * Z * Z.

Record SHA1Context := mkctx {
  Message_Digest : words5;
  Length_Low : Z;
  Length_High : Z;
  Message_Block : list Z;
  Message_Block_Index : Z;
  Computed : Z;
  Corrupted : Z
}.

(** [SHA1Reset] leaves the block as it is. *)
Definition SHA1Reset (context : SHA1Context) : SHA1Context :=
  mkctx (0x67452301, 0xEFCDAB89, 0x98BADCFE, 0x10325476, 0xC3D2E1F0) 0 0
        (Message_Block context) 0 0 0.

Definition K : list Z := [0x5A827999; 0x6ED9EBA1; 0x8F1BBCDC; 0xCA62C1D6].

(** The first 16 words of [W]. *)
Fixpoint load_words (n : nat) (block : list Z) : list Z :=
  match n, block with
  | S n', b0 :: b1 :: b2 :: b3 :: tl =>
      Z.lor (Z.lor (Z.lor (u32 (Z.shiftl b0 24)) (u32 (Z.shiftl b1 16))) (u32 (Z.shiftl b2 8))) b3
      :: load_words n' tl
  | _, _ => []
  end.

(** [n] more words of [W]. *)
Fixpoint extend_words (n : nat) (W : list Z) : list Z :=
  match n with
  | O => W
  | S n' =>
      let t := length W in
      extend_words n'
        (W ++ [SHA1CircularShift 1
                 (Z.lxor (Z.lxor (Z.lxor (nth (t - 3) W 0) (nth (t - 8) W 0)) (nth (t - 14) W 0))
                         (nth (t - 16) W 0))])
  end.

(** One turn of the four loops over [t]; they differ by the function and the constant. *)
Definition loop_turn (W : list Z) (f : Z -> Z -> Z -> Z) (k : Z) (s : words5) (t : nat) : words5 :=
  let '(A, B, C, D, E) := s in
  let temp := u32 (SHA1CircularShift 5 A + f B C D + E + nth t W 0 + k) in
  let temp := Z.land temp MASK32 in
  (temp, A, SHA1CircularShift 30 B, C, D).

Definition SHA1ProcessMessageBlock (context : SHA1Context) : SHA1Context :=
  let W := extend_words 64 (load_words 16 (Message_Block context)) in
  let s := Message_Digest context in
  let s := foldl (loop_turn W (fun B C D => Z.lor (Z.land B C) (Z.land (not32 B) D)) (nth 0 K 0)) s (seq 0 20) in
  let s := foldl (loop_turn W (fun B C D => Z.lxor (Z.lxor B C) D) (nth 1 K 0)) s (seq 20 20) in
  let s := foldl (loop_turn W (fun B C D => Z.lor (Z.lor (Z.land B C) (Z.land B D)) (Z.land C D)) (nth 2 K 0)) s (seq 40 20) in
  let s := foldl (loop_turn W (fun B C D => Z.lxor (Z.lxor B C) D) (nth 3 K 0)) s (seq 60 20) in
  let '(A, B, C, D, E) := s in
  let '(d0, d1, d2, d3, d4) := Message_Digest context in
  mkctx (Z.land (u32 (d0 + A)) MASK32, Z.land (u32 (d1 + B)) MASK32, Z.land (u32 (d2 + C)) MASK32,
         Z.land (u32 (d3 + D)) MASK32, Z.land (u32 (d4 + E)) MASK32)
        (Length_Low context) (Length_High context) (Message_Block context) 0
        (Computed context) (Corrupted context).

(** [while (Message_Block_Index < limit) Message_Block[Message_Block_Index++] = 0]. *)
Fixpoint zero_fill (fuel : nat) (limit : Z) (blk : list Z) (idx : Z) : option (list Z * Z) :=
  if idx <? limit then
    match fuel with
    | O => None
    | S fuel' => blk' ← wr blk idx 0; zero_fill fuel' limit blk' (idx + 1)
    end
  else Some (blk, idx).

Definition set_block (context : SHA1Context) (blk : list Z) (idx : Z) : SHA1Context :=
  mkctx (Message_Digest context) (Length_Low context) (Length_High context) blk idx
        (Computed context) (Corrupted context).

(** The eight stores of the message length at the end of the block. *)
Definition store_length (blk : list Z) (high low : Z) : option (list Z) :=
  blk ← wr blk 56 (Z.land (Z.shiftr high 24) 255);
  blk ← wr blk 57 (Z.land (Z.shiftr high 16) 255);
  blk ← wr blk 58 (Z.land (Z.shiftr high 8) 255);
  blk ← wr blk 59 (Z.land high 255);
  blk ← wr blk 60 (Z.land (Z.shiftr low 24) 255);
  blk ← wr blk 61 (Z.land (Z.shiftr low 16) 255);
  blk ← wr blk 62 (Z.land (Z.shiftr low 8) 255);
  wr blk 63 (Z.land low 255).

Definition SHA1PadMessage (context : SHA1Context) : option SHA1Context :=
  let idx := Message_Block_Index context in
  context ←
    (if 55 <? idx then
       blk ← wr (Message_Block context) idx 128;
       r ← zero_fill 64 64 blk (idx + 1);
       let context := SHA1ProcessMessageBlock (set_block context (fst r) (snd r)) in
       r ← zero_fill 64 56 (Message_Block context) (Message_Block_Index context);
       Some (set_block context (fst r) (snd r))
     else
       blk ← wr (Message_Block context) idx 128;
       r ← zero_fill 64 56 blk (idx + 1);
       Some (set_block context (fst r) (snd r)));
  blk ← store_length (Message_Block context) (Length_High context) (Length_Low context);
  Some (SHA1ProcessMessageBlock (set_block context blk (Message_Block_Index context))).

(** The context after the call and the returned flag. *)
Definition SHA1Result (context : SHA1Context) : option (SHA1Context * Z) :=
  if negb (Corrupted context =? 0) then Some (context, 0)
  else if Computed context =? 0 then
    context ← SHA1PadMessage context;
    Some (mkctx (Message_Digest context) (Length_Low context) (Length_High context)
                (Message_Block context) (Message_Block_Index context) 1 (Corrupted context), 1)
  else Some (context, 1).

(** The body of the loop of [SHA1Input] on one byte. *)
Definition input_byte (context : SHA1Context) (b : Z) : option SHA1Context :=
  blk ← wr (Message_Block context) (Message_Block_Index context) (Z.land b 255);
  let low := Z.land (u32 (Length_Low context + 8)) MASK32 in
  let high := if low =? 0 then Z.land (u32 (Length_High context + 1)) MASK32 else Length_High context in
  let corrupted := if (low =? 0) && (high =? 0) then 1 else Corrupted context in
  let context := mkctx (Message_Digest context) low high blk (Message_Block_Index context + 1)
                       (Computed context) corrupted in
  Some (if Message_Block_Index context =? 64 then SHA1ProcessMessageBlock context else context).

Fixpoint input_loop (context : SHA1Context) (message_array : list Z) : option SHA1Context :=
  match message_array with
  | [] => Some context
  | b :: tl =>
      if negb (Corrupted context =? 0) then Some context
      else context ← input_byte context b; input_loop context tl
  end.

(** [SHA1Input(context, message_array, length)]. *)
Definition SHA1Input (context : SHA1Context) (message_array : list Z) : option SHA1Context :=
  match message_array with
  | [] => Some context
  | _ :: _ =>
      if negb (Computed context =? 0) || negb (Corrupted context =? 0) then
        Some (mkctx (Message_Digest context) (Length_Low context) (Length_High context)
                    (Message_Block context) (Message_Block_Index context) (Computed context) 1)
      else input_loop context message_array
  end.

(** ** FIPS 180-1 *)

Definition rotl (n x : Z) : Z := Z.lor (u32 (Z.shiftl x n)) (Z.shiftr x (32 - n)).

Definition fips_f (t : nat) (B C D : Z) : Z :=
  if (t <? 20)%nat then Z.lor (Z.land B C) (Z.land (not32 B) D)
  else if (t <? 40)%nat then Z.lxor (Z.lxor B C) D
  else if (t <? 60)%nat then Z.lor (Z.lor (Z.land B C) (Z.land B D)) (Z.land C D)
  else Z.lxor (Z.lxor B C) D.

Definition fips_K (t : nat) : Z := nth (t / 20) [1518500249; 1859775393; 2400959708; 3395469782] 0.

Fixpoint fips_schedule (n : nat) (W : list Z) : list Z :=
  match n with
  | O => W
  | S n' =>
      let t := length W in
      fips_schedule n' (W ++ [rotl 1 (Z.lxor (Z.lxor (Z.lxor (nth (t - 3) W 0) (nth (t - 8) W 0))
                                                    (nth (t - 14) W 0)) (nth (t - 16) W 0))])
  end.

Definition fips_step (W : list Z) (s : words5) (t : nat) : words5 :=
  let '(A, B, C, D, E) := s in
  (u32 (rotl 5 A + fips_f t B C D + E + nth t W 0 + fips_K t), A, rotl 30 B, C, D).

Definition fips_compress (H : words5) (block : list Z) : words5 :=
  let W := fips_schedule 64 (load_words 16 block) in
  let '(A, B, C, D, E) := foldl (fips_step W) H (seq 0 80) in
  let '(h0, h1, h2, h3, h4) := H in
  (u32 (h0 + A), u32 (h1 + B), u32 (h2 + C), u32 (h3 + D), u32 (h4 + E)).

Definition fips_init : words5 := (0x67452301, 0xEFCDAB89, 0x98BADCFE, 0x10325476, 0xC3D2E1F0).

(** The bit length of the message as a 64-bit word, most significant byte first. *)
Definition fips_length (m : list Z) : list Z :=
  let bits := 8 * zlen m in be32 (Z.shiftr bits 32) ++ be32 (u32 bits).

Definition sha1 (m : list Z) : words5 := absorb fips_compress fips_init (padded m (fips_length m)).

Example sha1_abc :
  sha1 (cs "abc") = (0xA9993E36, 0x4706816A, 0xBA3E2571, 0x7850C26C, 0x9CD0D89D).
Proof. by vm_compute. Qed.

Example sha1_two_blocks :
  sha1 (cs "abcdbcdecdefdefgefghfghighijhijkijkljklmklmnlmnomnopnopq") =
  (0x84983E44, 0x1C3BD26E, 0xBAAE4AA1, 0xF95129E5, 0xE54670F1).
Proof. by vm_compute. Qed.

(** ** The block transformation is the one of the standard *)

Lemma mask32_u32 x : Z.land (u32 x) MASK32 = u32 x.
Proof.
  unfold MASK32. change 0xFFFFFFFF with (Z.ones 32). rewrite Z.land_ones by lia.
  unfold u32. by rewrite Zmod_mod.
Qed.

Lemma shift_rotl n x : SHA1CircularShift n x = rotl n x.
Proof. unfold SHA1CircularShift, rotl. by rewrite mask32_u32. Qed.

Lemma extend_schedule n : forall W, extend_words n W = fips_schedule n W.
Proof. induction n as [|n IH]; intros W; [done|]. cbn. by rewrite shift_rotl, IH. Qed.

Lemma foldl_ext_in {A B} (f g : A -> B -> A) (l : list B) : forall s,
  (forall s t, In t l -> f s t = g s t) -> foldl f s l = foldl g s l.
Proof.
  induction l as [|t l IH]; intros s H; [done|]. cbn [foldl].
  rewrite H by (by left). apply IH. intros. apply H. by right.
Qed.

Lemma loop_fips W f k lo : forall s,
  (forall t, (lo <= t < lo + 20)%nat -> fips_f t = f /\ fips_K t = k) ->
  foldl (loop_turn W f k) s (seq lo 20) = foldl (fips_step W) s (seq lo 20).
Proof.
  intros s H. apply foldl_ext_in. intros [[[[A B] C] D] E] t Ht.
  apply in_seq in Ht. destruct (H t Ht) as [<- <-]. unfold loop_turn, fips_step.
  by rewrite mask32_u32, !shift_rotl.
Qed.

Ltac fips_range :=
  intros t Ht; unfold fips_f, fips_K; split;
  [ repeat match goal with |- context [(?a <? ?b)%nat] => destruct (Nat.ltb_spec a b); try lia end;
    reflexivity
  | match goal with |- nth (?t / 20) _ _ = nth ?q _ _ =>
      replace (t / 20)%nat with q; [reflexivity|apply Nat.div_unique with (t - 20 * q)%nat; lia]
    end ].

Lemma process_fips context :
  Message_Digest (SHA1ProcessMessageBlock context) =
    fips_compress (Message_Digest context) (Message_Block context).
Proof.
  unfold SHA1ProcessMessageBlock, fips_compress. cbn zeta. rewrite extend_schedule.
  set (W := fips_schedule _ _).
  rewrite (loop_fips W _ _ 0) by fips_range. rewrite (loop_fips W _ _ 20) by fips_range.
  rewrite (loop_fips W _ _ 40) by fips_range. rewrite (loop_fips W _ _ 60) by fips_range.
  rewrite <- !foldl_app. change (((seq 0 20 ++ seq 20 20) ++ seq 40 20) ++ seq 60 20) with (seq 0 80).
  destruct (foldl _ _ _) as [[[[A B] C] D] E], (Message_Digest context) as [[[[d0 d1] d2] d3] d4].
  cbn [Message_Digest]. by rewrite !mask32_u32.
Qed.

Lemma process_rest context :
  let context' := SHA1ProcessMessageBlock context in
  Length_Low context' = Length_Low context /\ Length_High context' = Length_High context /\
  Message_Block context' = Message_Block context /\ Message_Block_Index context' = 0 /\
  Computed context' = Computed context /\ Corrupted context' = Corrupted context.
Proof.
  unfold SHA1ProcessMessageBlock. cbn zeta. destruct (foldl _ _ _) as [[[[? ?] ?] ?] ?].
  by destruct (Message_Digest context) as [[[[? ?] ?] ?] ?].
Qed.

(** ** Feeding the context *)

(** The context after the message [m] has been fed, in whatever pieces. *)
Record ctx_rep (context : SHA1Context) (m : list Z) : Prop := {
  rep_digest : Message_Digest context = absorb fips_compress fips_init m;
  rep_low : Length_Low context = u32 (8 * zlen m);
  rep_high : Length_High context = (8 * zlen m) / 2 ^ 32;
  rep_size : length (Message_Block context) = 64%nat;
  rep_index : Message_Block_Index context = zlen (rest m);
  rep_block : take (length (rest m)) (Message_Block context) = rest m;
  rep_open : Computed context = 0 /\ Corrupted context = 0
}.

Lemma reset_rep context : length (Message_Block context) = 64%nat -> ctx_rep (SHA1Reset context) [].
Proof. by intros H. Qed.

Lemma wr_nat {A} (l : list A) (i : nat) x :
  (i < length l)%nat -> wr l (Z.of_nat i) x = Some (<[i := x]> l).
Proof.
  intros H. unfold wr. rewrite (proj2 (Z.leb_le _ _)), (proj2 (Z.ltb_lt _ _)) by lia.
  by rewrite Nat2Z.id.
Qed.

Lemma take_insert_end {A} (l : list A) (i : nat) x :
  (i < length l)%nat -> take (S i) (<[i := x]> l) = take i l ++ [x].
Proof.
  intros H. rewrite (take_S_r _ _ x) by (by apply list_lookup_insert_eq).
  by rewrite take_insert_ge by lia.
Qed.

Lemma land_255 x : Z.land x 255 = u8 x.
Proof. change 255 with (Z.ones 8). by rewrite Z.land_ones by lia. Qed.

(** The length counters after one more byte. *)
Lemma length_step n :
  0 <= n -> 8 * (n + 1) < 2 ^ 64 ->
  let low := Z.land (u32 (u32 (8 * n) + 8)) MASK32 in
  let high := if low =? 0 then Z.land (u32 ((8 * n) / 2 ^ 32 + 1)) MASK32 else (8 * n) / 2 ^ 32 in
  low = u32 (8 * (n + 1)) /\ high = (8 * (n + 1)) / 2 ^ 32 /\ (low =? 0) && (high =? 0) = false.
Proof.
  intros Hn Hlt low high.
  assert (low = u32 (8 * (n + 1))) as Hlow.
  { unfold low. rewrite mask32_u32. unfold u32. rewrite Zplus_mod_idemp_l. f_equal. lia. }
  assert (high = (8 * (n + 1)) / 2 ^ 32) as Hhigh.
  { unfold high. rewrite Hlow, mask32_u32. unfold u32.
    destruct (Z.eqb_spec ((8 * (n + 1)) mod 2 ^ 32) 0);
      [rewrite Z.mod_small|]; Z.to_euclidean_division_equations; lia. }
  split; [done|]. split; [done|]. rewrite Hlow, Hhigh. unfold u32.
  destruct (Z.eqb_spec ((8 * (n + 1)) mod 2 ^ 32) 0) as [E|]; [|done]. cbn [andb].
  apply Z.eqb_neq. Z.to_euclidean_division_equations; lia.
Qed.

Lemma input_byte_rep context m b :
  ctx_rep context m -> is_byte b -> 8 * (zlen m + 1) < 2 ^ 64 ->
  exists context', input_byte context b = Some context' /\ ctx_rep context' (m ++ [b]).
Proof.
  intros [Hd Hl Hh Hs Hi Hb [Hc He]] Hbyte Hlen.
  pose proof (length_rest m) as Hr.
  destruct (length_step (zlen m) ltac:(lia) Hlen) as (Ht1 & Ht2 & Ht3).
  unfold input_byte. rewrite Hi, wr_nat by lia. cbn [mbind option_bind].
  rewrite land_255, u8_small, Hl, Hh by done. rewrite Ht3, Ht2, Ht1. cbn [Message_Block_Index].
  eexists. split; [reflexivity|].
  destruct (absorb_app fips_compress fips_init m [b]) as [Ha1 Ha2].
  assert (length (m ++ [b]) = S (length m)) as Hlm by (rewrite length_app; cbn [length]; lia).
  assert (take (S (length (rest m))) (<[length (rest m) := b]> (Message_Block context)) = rest m ++ [b]) as Hblk.
  { rewrite take_insert_end by lia. by rewrite Hb. }
  destruct (Z.eqb_spec (zlen (rest m) + 1) 64) as [E|E].
  - destruct (process_rest (mkctx (Message_Digest context) (u32 (8 * (zlen m + 1)))
      (8 * (zlen m + 1) / 2 ^ 32) (<[length (rest m):=b]> (Message_Block context))
      (zlen (rest m) + 1) (Computed context) (Corrupted context))) as (P1&P2&P3&P4&P5&P6).
    cbn [Length_Low Length_High Message_Block Message_Block_Index Computed Corrupted] in P1, P2, P3, P4, P5, P6.
    rewrite take_ge in Hblk by (rewrite length_insert, Hs; lia).
    destruct (absorb_block fips_compress (absorb fips_compress fips_init m) (rest m ++ [b]) [])
      as [Hx1 Hx2]; [rewrite length_app; cbn [length]; lia|]. rewrite app_nil_r in Hx1, Hx2.
    assert (rest (m ++ [b]) = []) as Hnil by (by rewrite Ha2, Hx2).
    split; rewrite ?P1, ?P2, ?P3, ?P4, ?P5, ?P6, ?Hnil, ?Hlm; try done; try (f_equal; lia).
    + rewrite process_fips. cbn [Message_Digest Message_Block]. by rewrite Hblk, Ha1, Hx1, Hd.
    + by rewrite length_insert.
  - destruct (absorb_short fips_compress (absorb fips_compress fips_init m) (rest m ++ [b]))
      as [Hx1 Hx2]; [rewrite length_app; cbn [length]; lia|]. 
    assert (rest (m ++ [b]) = rest m ++ [b]) as Hnil by (by rewrite Ha2, Hx2).
    assert (length (rest m ++ [b]) = S (length (rest m))) as Hlr by (rewrite length_app; cbn [length]; lia).
    split; cbn [Message_Digest Length_Low Length_High Message_Block Message_Block_Index Computed Corrupted]; rewrite ?Hnil, ?Hlm, ?Hlr; try done; try (f_equal; lia); try lia.
    + by rewrite Ha1, Hx1, Hd.
    + by rewrite length_insert.
Qed.

Lemma input_loop_rep x : forall context m,
  ctx_rep context m -> bytes x -> 8 * zlen (m ++ x) < 2 ^ 64 ->
  exists context', input_loop context x = Some context' /\ ctx_rep context' (m ++ x).
Proof.
  induction x as [|b x IH]; intros context m Hrep Hx Hlen.
  { exists context. by rewrite app_nil_r. }
  rewrite Forall_cons_iff in Hx. destruct Hx as [Hb Hx].
  rewrite length_app in Hlen. cbn [length] in Hlen. cbn [input_loop].
  rewrite (proj2 (rep_open _ _ Hrep)). cbn [Z.eqb negb].
  destruct (input_byte_rep context m b Hrep Hb) as (c' & -> & Hc'); [lia|].
  cbn [mbind option_bind]. destruct (IH c' (m ++ [b]) Hc' Hx) as (c'' & -> & Hc'').
  { rewrite !length_app. cbn [length]. lia. }
  exists c''. by rewrite <- app_assoc in Hc''.
Qed.

Lemma SHA1Input_rep context m x :
  ctx_rep context m -> bytes x -> 8 * zlen (m ++ x) < 2 ^ 64 ->
  exists context', SHA1Input context x = Some context' /\ ctx_rep context' (m ++ x).
Proof.
  intros Hrep Hx Hlen. destruct x as [|b x]; [exists context; by rewrite app_nil_r|].
  unfold SHA1Input. destruct (rep_open _ _ Hrep) as [-> ->]. by apply input_loop_rep.
Qed.

(** ** Padding *)

Lemma zero_fill_ok limit fuel : forall blk i,
  length blk = 64%nat -> (i <= limit <= 64)%nat -> (limit - i <= fuel)%nat ->
  exists blk', zero_fill fuel (Z.of_nat limit) blk (Z.of_nat i) = Some (blk', Z.of_nat limit) /\
    length blk' = 64%nat /\ take limit blk' = take i blk ++ replicate (limit - i) 0.
Proof.
  induction fuel as [|fuel IH]; intros blk i Hl Hi Hf; cbn [zero_fill].
  - replace limit with i by lia. rewrite Z.ltb_irrefl. exists blk.
    by rewrite Nat.sub_diag, app_nil_r.
  - destruct (Z.ltb_spec (Z.of_nat i) (Z.of_nat limit)) as [Hlt|Hge].
    + rewrite wr_nat by lia. cbn [mbind option_bind].
      replace (Z.of_nat i + 1) with (Z.of_nat (S i)) by lia.
      destruct (IH (<[i := 0]> blk) (S i)) as (blk' & -> & Hl' & Ht); [by rewrite length_insert|lia..|].
      exists blk'. split; [done|]. split; [done|].
      rewrite Ht, take_insert_end, <- app_assoc by lia.
      by replace (limit - i)%nat with (S (limit - S i)) by lia.
    + replace limit with i by lia. exists blk. by rewrite Nat.sub_diag, app_nil_r.
Qed.

Lemma store_length_ok blk high low :
  length blk = 64%nat ->
  store_length blk high low = Some (take 56 blk ++ be32 high ++ be32 low).
Proof.
  intros H. do 64 (destruct blk as [|? blk]; [discriminate H|]).
  destruct blk; [|discriminate H]. unfold store_length, be32. by rewrite !land_255.
Qed.

(** The marker and the zeros up to [limit] after the bytes of the last block. *)
Lemma mark_and_fill blk (i limit : nat) :
  length blk = 64%nat -> (i < limit <= 64)%nat ->
  exists blk1 blk2, wr blk (Z.of_nat i) 128 = Some blk1 /\
    zero_fill 64 (Z.of_nat limit) blk1 (Z.of_nat i + 1) = Some (blk2, Z.of_nat limit) /\
    length blk2 = 64%nat /\
    take limit blk2 = take i blk ++ 128 :: replicate (limit - S i) 0.
Proof.
  intros Hl Hi. exists (<[i := 128]> blk). rewrite wr_nat by lia.
  replace (Z.of_nat i + 1) with (Z.of_nat (S i)) by lia.
  destruct (zero_fill_ok limit 64 (<[i := 128]> blk) (S i)) as (blk2 & E & Hl2 & Ht);
    [by rewrite length_insert|lia..|].
  exists blk2. split; [done|]. split; [done|]. split; [done|].
  by rewrite Ht, take_insert_end, <- app_assoc by lia.
Qed.

Lemma pad_zeros_eq n : let i := (n mod 64)%nat in
  pad_zeros n = if (i <=? 55)%nat then (55 - i)%nat else (119 - i)%nat.
Proof.
  cbn zeta. unfold pad_zeros. pose proof (Nat.mod_upper_bound n 64).
  destruct (Nat.leb_spec (n mod 64) 55).
  - replace (119 - n mod 64)%nat with ((55 - n mod 64) + 1 * 64)%nat by lia.
    rewrite Nat.Div0.mod_add. apply Nat.mod_small. lia.
  - apply Nat.mod_small. lia.
Qed.

Lemma length_bytes context m :
  ctx_rep context m -> 8 * zlen m < 2 ^ 64 ->
  be32 (Length_High context) ++ be32 (Length_Low context) = fips_length m.
Proof.
  intros Hrep Hm. rewrite (rep_low _ _ Hrep), (rep_high _ _ Hrep). unfold fips_length.
  by rewrite Z.shiftr_div_pow2 by lia.
Qed.

(** The end of [SHA1PadMessage]: the length is stored and the block processed. *)
Lemma finish_block context :
  length (Message_Block context) = 64%nat ->
  exists context',
    (blk ← store_length (Message_Block context) (Length_High context) (Length_Low context);
     Some (SHA1ProcessMessageBlock (set_block context blk (Message_Block_Index context)))) = Some context' /\
    Message_Digest context' = fips_compress (Message_Digest context)
      (take 56 (Message_Block context) ++ be32 (Length_High context) ++ be32 (Length_Low context)) /\
    Corrupted context' = Corrupted context.
Proof.
  intros Hs. rewrite store_length_ok by done. cbn [mbind option_bind].
  eexists. split; [reflexivity|]. rewrite process_fips. split; [done|].
  match goal with |- context [SHA1ProcessMessageBlock ?c] => destruct (process_rest c) as (_&_&_&_&_&->) end.
  done.
Qed.

Lemma pad_message_rep context m :
  ctx_rep context m -> 8 * zlen m < 2 ^ 64 ->
  exists context', SHA1PadMessage context = Some context' /\
    Message_Digest context' = sha1 m /\ Corrupted context' = 0.
Proof.
  intros Hrep Hm. pose proof (length_rest m) as Hr. pose proof (length_bytes _ _ Hrep Hm) as Hlen.
  pose proof (length_rest_mod m) as Hmod. pose proof (pad_zeros_eq (length m)) as Hz. cbn zeta in Hz.
  rewrite <- Hmod in Hz. destruct Hrep as [Hd _ _ Hs Hi Hb [_ He]].
  unfold sha1, padded. rewrite (proj1 (absorb_app _ _ m _)), <- Hd, Hz, <- Hlen. clear Hz Hmod Hlen.
  unfold SHA1PadMessage. rewrite Hi. set (i := length (rest m)) in *.
  destruct (Z.ltb_spec 55 (Z.of_nat i)) as [H55|H55];
    destruct (Nat.leb_spec i 55) as [Hle|Hle]; try lia.
  - destruct (mark_and_fill (Message_Block context) i 64 Hs) as (b1 & b2 & -> & E & Hl2 & Ht); [lia|].
    cbn [mbind option_bind]. change 64 with (Z.of_nat 64). rewrite E. cbn [mbind option_bind fst snd].
    rewrite take_ge, Hb in Ht by lia.
    destruct (process_rest (set_block context b2 (Z.of_nat 64))) as (P1 & P2 & P3 & P4 & _ & P6).
    rewrite P3, P4. cbn [set_block Length_Low Length_High Message_Block Corrupted] in P1, P2, P3, P6.
    destruct (zero_fill_ok 56 64 b2 0) as (b3 & E3 & Hl3 & Ht3); [done|lia..|].
    cbn [set_block Message_Block]. change 56 with (Z.of_nat 56). change 0 with (Z.of_nat 0) at 1. rewrite E3.
    cbn [mbind option_bind fst snd].
    edestruct finish_block as (c' & Ec & Dc & Cc); [|rewrite Ec; exists c'; split; [done|]; rewrite Dc, Cc].
    { done. }
    cbn [set_block Message_Block Message_Digest Length_High Length_Low Corrupted].
    rewrite P1, P2, P6, process_fips. split; [|done]. cbn [set_block Message_Block Message_Digest].
    rewrite Ht3, Ht. cbn [take app].
    assert (length (rest m ++ 128 :: replicate (64 - S i) 0) = 64%nat) as HB1.
    { rewrite length_app. cbn [length]. rewrite length_replicate. fold i. lia. }
    replace (119 - i)%nat with ((64 - S i) + 56)%nat by lia.
    rewrite replicate_add, <- (app_assoc (replicate _ _)), app_comm_cons, (app_assoc (rest m)).
    rewrite (proj1 (absorb_block _ _ _ _ HB1)).
    by rewrite absorb_one.
  - destruct (mark_and_fill (Message_Block context) i 56 Hs) as (b1 & b2 & -> & E & Hl2 & Ht); [lia|].
    cbn [mbind option_bind]. change 56 with (Z.of_nat 56). rewrite E. cbn [mbind option_bind fst snd].
    edestruct finish_block as (c' & Ec & Dc & Cc); [|rewrite Ec; exists c'; split; [done|]; rewrite Dc, Cc].
    { done. }
    cbn [set_block Message_Block Message_Digest Length_High Length_Low Corrupted]. split; [|done].
    rewrite Ht, Hb, <- app_assoc, <- app_comm_cons. replace (56 - S i)%nat with (55 - i)%nat by lia.
    rewrite absorb_one; [done|].
    rewrite length_app. cbn [length]. rewrite length_app, length_replicate. fold i. cbn [be32 length app]. lia.
Qed.

(** ** Whole messages *)

Fixpoint feed_all (context : SHA1Context) (parts : list (list Z)) : option SHA1Context :=
  match parts with
  | [] => Some context
  | x :: tl => context ← SHA1Input context x; feed_all context tl
  end.

Lemma feed_all_rep parts : forall context m,
  ctx_rep context m -> Forall bytes parts -> 8 * zlen (m ++ concat parts) < 2 ^ 64 ->
  exists context', feed_all context parts = Some context' /\ ctx_rep context' (m ++ concat parts).
Proof.
  induction parts as [|x tl IH]; intros context m Hrep Hp Hlen.
  { exists context. cbn [concat]. by rewrite app_nil_r. }
  rewrite Forall_cons_iff in Hp. destruct Hp as [Hx Hp].
  cbn [concat] in Hlen |- *. rewrite app_assoc in Hlen |- *. cbn [feed_all].
  destruct (SHA1Input_rep context m x Hrep Hx) as (c' & -> & Hc'); [rewrite length_app in Hlen; lia|].
  cbn [mbind option_bind]. by apply IH.
Qed.

(** C40. However a message is cut into calls of [SHA1Input], after [SHA1Reset] the call of [SHA1Result]
    returns 1 and leaves the FIPS 180-1 digest of the whole message in the context, for every message
    whose bit length fits 64 bits; a second call returns 1 and leaves the context as it is. *)
Theorem sha1_stream_correct context parts :
  length (Message_Block context) = 64%nat -> Forall bytes parts -> 8 * zlen (concat parts) < 2 ^ 64 ->
  exists c c', feed_all (SHA1Reset context) parts = Some c /\ SHA1Result c = Some (c', 1) /\
    Message_Digest c' = sha1 (concat parts) /\ SHA1Result c' = Some (c', 1).
Proof.
  intros Hs Hp Hlen.
  destruct (feed_all_rep parts _ [] (reset_rep context Hs) Hp Hlen) as (c & E & Hrep).
  exists c. destruct (rep_open _ _ Hrep) as [Hc He].
  destruct (pad_message_rep c (concat parts) Hrep Hlen) as (c' & E' & Hd & He').
  eexists. split; [done|]. unfold SHA1Result at 1. rewrite Hc, He, E'. split; [reflexivity|].
  split; [done|]. unfold SHA1Result. cbn [Corrupted Computed]. by rewrite He'.
Qed.

Lemma sha1_stream_correct_witness :
  exists c c', feed_all (SHA1Reset (mkctx (0, 0, 0, 0, 0) 1 1 (replicate 64 9) 3 1 1)) [cs "ab"; []; cs "c"] = Some c /\
    SHA1Result c = Some (c', 1) /\ Message_Digest c' = sha1 (cs "abc") /\ SHA1Result c' = Some (c', 1).
Proof.
  apply (sha1_stream_correct (mkctx (0, 0, 0, 0, 0) 1 1 (replicate 64 9) 3 1 1) [cs "ab"; []; cs "c"]);
    [done| |done].
  repeat constructor; vm_compute; discriminate.
Defined.

(** A context that is already computed, or corrupted, refuses more input: any further non-empty
    input marks it corrupted, and from then on every input is ignored and [SHA1Result] fails. *)
Theorem sha1_closed_context context x y :
  Computed context <> 0 \/ Corrupted context <> 0 -> x <> [] ->
  exists c, SHA1Input context x = Some c /\ Corrupted c = 1 /\ Message_Digest c = Message_Digest context /\
    SHA1Input c y = Some c /\ SHA1Result c = Some (c, 0).
Proof.
  intros Hc Hx. destruct x as [|b x]; [done|]. cbn [SHA1Input].
  replace (negb (Computed context =? 0) || negb (Corrupted context =? 0)) with true.
  2: { symmetry. apply orb_true_iff. rewrite !negb_true_iff, !Z.eqb_neq. done. }
  eexists. split; [reflexivity|]. split; [done|]. split; [done|]. split; [|done].
  destruct y; [done|]. cbn [SHA1Input Computed Corrupted]. by rewrite orb_true_r.
Qed.

Lemma sha1_closed_context_witness :
  exists c, SHA1Input (mkctx (1, 2, 3, 4, 5) 0 0 (replicate 64 0) 0 1 0) [7] = Some c /\ Corrupted c = 1 /\
    Message_Digest c = (1, 2, 3, 4, 5) /\ SHA1Input c [8; 9] = Some c /\ SHA1Result c = Some (c, 0).
Proof.
  apply (sha1_closed_context (mkctx (1, 2, 3, 4, 5) 0 0 (replicate 64 0) 0 1 0) [7] [8; 9]);
    [by left|done].
Defined.

End Sha1.
