(* ===== verification/Dlist.v ===== *)
(** * include/dlist.h: the intrusive doubly linked list.

    The [next] and [prev] fields of every list node of the program, as two maps from
    the address of the node.  The operations are the assignments of the header, in its
    order; writing through a pointer that is not a node is [None].  They are proved to
    implement lists of addresses: a family of disjoint circular lists, named by their heads. *)
From Stdlib Require Import ZArith Lia Bool.
From stdpp Require Import base tactics list option numbers gmap sets.
From S2P Require Import Prelude.

Module Dlist.

Definition NULL : Z := 0.

(** The fields of the nodes in memory. *)
Record links := mklinks { nxt : gmap Z Z; prv : gmap Z Z }.

(** [e->next = v] and [e->prev = v]. *)
Definition set_next (l : links) (e v : Z) : option links :=
  match nxt l !! e with
  | Some _ => Some (mklinks (<[e := v]> (nxt l)) (prv l))
  | None => None
  end.
Definition set_prev (l : links) (e v : Z) : option links :=
  match prv l !! e with
  | Some _ => Some (mklinks (nxt l) (<[e := v]> (prv l)))
  | None => None
  end.

Definition INIT_DLIST_HEAD (l : links) (e : Z) : option links :=
  l ← set_prev l e e; set_next l e e.

Definition __dlist_add (l : links) (entry prev next : Z) : option links :=
  l ← set_prev l next entry;
  l ← set_next l entry next;
  l ← set_prev l entry prev;
  set_next l prev entry.

Definition __dlist_del (l : links) (prev next : Z) : option links :=
  l ← set_prev l next prev;
  set_next l prev next.

Definition dlist_empty (l : links) (head : Z) : option bool :=
  n ← nxt l !! head; Some (n =? head).

Definition dlist_add (l : links) (entry head : Z) : option links :=
  n ← nxt l !! head; __dlist_add l entry head n.

Definition dlist_add_tail (l : links) (entry head : Z) : option links :=
  p ← prv l !! head; __dlist_add l entry p head.

Definition dlist_del (l : links) (entry : Z) : option links :=
  p ← prv l !! entry; n ← nxt l !! entry;
  l ← __dlist_del l p n;
  l ← set_prev l entry NULL; set_next l entry NULL.

Definition dlist_del_init (l : links) (entry : Z) : option links :=
  p ← prv l !! entry; n ← nxt l !! entry;
  l ← __dlist_del l p n;
  l ← set_prev l entry entry; set_next l entry entry.

Definition dlist_get_next (l : links) (entry head : Z) : option Z :=
  e ← nxt l !! (if negb (entry =? NULL) then entry else head);
  Some (if e =? head then NULL else e).

Definition dlist_get_prev (l : links) (entry head : Z) : option Z :=
  e ← prv l !! (if negb (entry =? NULL) then entry else head);
  Some (if e =? head then NULL else e).

(** ** The lists a memory holds *)

(** Following [next] from [a] goes through [xs] to [z], and [prev] goes back. *)
Fixpoint chain (l : links) (a : Z) (xs : list Z) (z : Z) : Prop :=
  match xs with
  | [] => nxt l !! a = Some z /\ prv l !! z = Some a
  | x :: tl => nxt l !! a = Some x /\ prv l !! x = Some a /\ chain l x tl z
  end.

(** The head [h] holds the entries [xs]. *)
Definition dl_rep (l : links) (h : Z) (xs : list Z) : Prop :=
  NoDup (h :: xs) /\ ~ In NULL (h :: xs) /\ chain l h xs h.

(** A node that can be linked. *)
Definition node (l : links) (e : Z) : Prop :=
  e <> NULL /\ is_Some (nxt l !! e) /\ is_Some (prv l !! e).

Lemma chain_app l a xs y ys z :
  chain l a (xs ++ y :: ys) z <-> chain l a xs y /\ chain l y ys z.
Proof.
  revert a. induction xs as [|x xs IH]; intros a; cbn [app chain]; [tauto|].
  rewrite IH. tauto.
Qed.

(** A chain depends on the [next] fields of its nodes but the last and on the [prev]
    fields of its nodes but the first. *)
Lemma chain_frame l l' a xs z :
  (forall b, In b (a :: xs) -> nxt l' !! b = nxt l !! b) ->
  (forall b, In b (xs ++ [z]) -> prv l' !! b = prv l !! b) ->
  chain l a xs z -> chain l' a xs z.
Proof.
  revert a. induction xs as [|x xs IH]; intros a Hn Hp; cbn [chain].
  - rewrite Hn, Hp by (by left). done.
  - rewrite Hn, Hp by (by left). intros (H1 & H2 & H3). split; [done|]. split; [done|].
    apply IH; [| |done]; intros b Hb; [apply Hn | apply Hp]; by right.
Qed.

Lemma chain_nodes l a xs z :
  chain l a xs z ->
  (forall b, In b (a :: xs) -> is_Some (nxt l !! b)) /\ (forall b, In b (xs ++ [z]) -> is_Some (prv l !! b)).
Proof.
  revert a. induction xs as [|x xs IH]; intros a; cbn [chain].
  - intros [H1 H2]. split; intros b [<-|[]]; [rewrite H1 | rewrite H2]; done.
  - intros (H1 & H2 & H3). destruct (IH x H3) as [Hn Hp]. split.
    + intros b [<-|Hb]; [by rewrite H1 | by apply Hn].
    + intros b [<-|Hb]; [by rewrite H2 | by apply Hp].
Qed.

Lemma rep_node l h xs b : dl_rep l h xs -> In b (h :: xs) -> node l b.
Proof.
  intros (_ & H0 & Hc) Hb. destruct (chain_nodes _ _ _ _ Hc) as [Hn Hp].
  split; [by intros ->|]. split; [by apply Hn|]. apply Hp, in_or_app.
  destruct Hb as [<-|Hb]; [right; by left | by left].
Qed.

(** ** What the operations write *)

Definition linked (l : links) (e p n : Z) : links :=
  mklinks (<[p := e]> (<[e := n]> (nxt l))) (<[e := p]> (<[n := e]> (prv l))).

Definition unlinked (l : links) (e p n v : Z) : links :=
  mklinks (<[e := v]> (<[p := n]> (nxt l))) (<[e := v]> (<[n := p]> (prv l))).

Lemma set_next_some l e v : is_Some (nxt l !! e) -> set_next l e v = Some (mklinks (<[e := v]> (nxt l)) (prv l)).
Proof. unfold set_next. by intros [? ->]. Qed.
Lemma set_prev_some l e v : is_Some (prv l !! e) -> set_prev l e v = Some (mklinks (nxt l) (<[e := v]> (prv l))).
Proof. unfold set_prev. by intros [? ->]. Qed.

Lemma insert_some (m : gmap Z Z) a b v : is_Some (m !! b) -> is_Some (<[a := v]> m !! b).
Proof. rewrite lookup_insert_is_Some'. by right. Qed.

(** Store through the fields of nodes known to exist. *)
Ltac stores :=
  repeat (first [rewrite set_next_some by (cbn [nxt]; auto using insert_some)
                |rewrite set_prev_some by (cbn [prv]; auto using insert_some)];
          cbn [mbind option_bind nxt prv]).

Lemma dlist_add_links l e p n :
  node l e -> node l p -> node l n -> __dlist_add l e p n = Some (linked l e p n).
Proof. intros (_ & ? & ?) (_ & ? & ?) (_ & ? & ?). unfold __dlist_add. by stores. Qed.

Lemma dlist_del_links l e p n v :
  node l e -> node l p -> node l n ->
  (l ← __dlist_del l p n; l ← set_prev l e v; set_next l e v) = Some (unlinked l e p n v).
Proof. intros (_ & ? & ?) (_ & ? & ?) (_ & ? & ?). unfold __dlist_del. by stores. Qed.

Ltac lookup :=
  cbn [linked unlinked nxt prv]; repeat (rewrite lookup_insert_eq || rewrite lookup_insert_ne by congruence).

Lemma linked_chain l p zs z e n :
  chain l p zs z -> n = hd z zs -> NoDup (p :: zs) -> ~ In z zs -> ~ In e (p :: zs ++ [z]) ->
  chain (linked l e p n) p (e :: zs) z.
Proof.
  intros Hc -> Hnd Hz He. rewrite NoDup_cons in Hnd. destruct Hnd as [Hp Hnd].
  rewrite list_elem_of_In in Hp. cbn [In] in He. rewrite in_app_iff in He. cbn [In] in He.
  assert (e <> p) by (intros ->; intuition congruence). assert (e <> z) by (intros ->; intuition congruence).
  cbn [chain]. split; [by lookup|]. split; [by lookup|].
  destruct zs as [|n zs]; cbn [hd chain In] in *.
  - split; by lookup.
  - rewrite NoDup_cons in Hnd. destruct Hnd as [Hn Hnd]. rewrite list_elem_of_In in Hn.
    assert (e <> n) by (intros ->; intuition congruence). split; [by lookup|]. split; [by lookup|].
    eapply chain_frame; [| |exact (proj2 (proj2 Hc))].
    + intros b Hb. cbn [In] in Hb. assert (b <> p /\ b <> e) as [? ?] by (split; intros ->; intuition congruence). by lookup.
    + intros b Hb. rewrite in_app_iff in Hb. cbn [In] in Hb.
      assert (b <> n /\ b <> e) as [? ?] by (split; intros ->; intuition congruence). by lookup.
Qed.

Lemma unlinked_chain l p zs z e n v :
  chain l p (e :: zs) z -> n = hd z zs -> NoDup (p :: e :: zs) -> ~ In z (e :: zs) ->
  chain (unlinked l e p n v) p zs z.
Proof.
  intros (Hc1 & Hc2 & Hc) -> Hnd Hz. rewrite !NoDup_cons, !list_elem_of_In in Hnd.
  destruct Hnd as (Hp & He & Hnd). cbn [In] in *.
  assert (e <> p) by (intros ->; intuition congruence). assert (e <> z) by (intros ->; intuition congruence).
  destruct zs as [|n zs]; cbn [hd chain In] in *.
  - split; by lookup.
  - rewrite NoDup_cons in Hnd. destruct Hnd as [Hn Hnd]. rewrite list_elem_of_In in Hn.
    assert (e <> n) by (intros ->; intuition congruence). split; [by lookup|]. split; [by lookup|].
    eapply chain_frame; [| |exact (proj2 (proj2 Hc))].
    + intros b Hb. cbn [In] in Hb. assert (b <> p /\ b <> e) as [? ?] by (split; intros ->; intuition congruence). by lookup.
    + intros b Hb. rewrite in_app_iff in Hb. cbn [In] in Hb.
      assert (b <> n /\ b <> e) as [? ?] by (split; intros ->; intuition congruence). by lookup.
Qed.

(** The entries before and after a position of the cycle of [h]. *)
Definition before (h : Z) (ys : list Z) : Z := List.last ys h.
Definition after (h : Z) (zs : list Z) : Z := hd h zs.

Lemma before_snoc h ys p : before h (ys ++ [p]) = p.
Proof. apply List.last_last. Qed.

Lemma after_in h zs : In (after h zs) (zs ++ [h]).
Proof. destruct zs; by left. Qed.

Lemma NoDup_mid (a e : Z) ys zs :
  NoDup (a :: ys ++ e :: zs) <-> NoDup (a :: ys ++ zs) /\ ~ In e (a :: ys ++ zs).
Proof.
  rewrite <- list_elem_of_In.
  assert (a :: ys ++ e :: zs ≡ₚ e :: a :: ys ++ zs) as Hp.
  { rewrite Permutation_swap. constructor. symmetry. apply Permutation_middle. }
  rewrite Hp, NoDup_cons. tauto.
Qed.

Lemma NoDup_cycle (h p : Z) ys zs :
  NoDup (h :: ys ++ p :: zs) ->
  NoDup (p :: zs) /\ ~ In h zs /\ ~ In h ys /\ h <> p /\ ~ In p ys /\
  (forall b, In b ys -> ~ In b zs).
Proof.
  rewrite NoDup_cons, NoDup_app. intros (Hh & _ & Hd & Hz). setoid_rewrite list_elem_of_In in Hd.
  rewrite list_elem_of_In, in_app_iff in Hh. cbn [In] in *.
  split; [done|]. split; [tauto|]. split; [tauto|]. split; [intros ->; tauto|].
  split; [intros Hp; apply (Hd p Hp); by left|]. intros b Hb Hb'. apply (Hd b Hb). by right.
Qed.

(** The part of the cycle before [p] does not see the fields written around [p]. *)
Lemma prefix_frame l l' h p ys zs e :
  NoDup (h :: ys ++ p :: zs) -> ~ In e (h :: ys ++ [p]) ->
  (forall b, b <> p -> b <> e -> nxt l' !! b = nxt l !! b) ->
  (forall b, b <> after h zs -> b <> e -> prv l' !! b = prv l !! b) ->
  chain l h ys p -> chain l' h ys p.
Proof.
  intros Hnd He Hn Hp. destruct (NoDup_cycle _ _ _ _ Hnd) as (N1 & N2 & N3 & N4 & N5 & N6).
  cbn [In] in He. rewrite in_app_iff in He. cbn [In] in He.
  apply chain_frame; intros b Hb.
  - apply Hn; intros ->; destruct Hb as [Hb|Hb]; try congruence; tauto.
  - rewrite in_app_iff in Hb. cbn [In] in Hb. apply Hp; [|intros ->; tauto].
    intros Heq. pose proof (after_in h zs) as Ha. rewrite <- Heq, in_app_iff in Ha. cbn [In] in Ha.
    rewrite NoDup_cons, list_elem_of_In in N1. destruct N1 as [N1 _]. specialize (N6 b).
    destruct Hb as [Hb|[<-|[]]], Ha as [Ha|[<-|[]]]; tauto.
Qed.

(** Linking [e] between two neighbours of the cycle. *)
Lemma rep_insert l h ys zs e :
  dl_rep l h (ys ++ zs) -> e <> NULL -> ~ In e (h :: ys ++ zs) ->
  dl_rep (linked l e (before h ys) (after h zs)) h (ys ++ e :: zs).
Proof.
  intros (Hnd & H0 & Hc) He0 He. split; [by apply NoDup_mid|]. split.
  { cbn [In] in *. rewrite in_app_iff in *. cbn [In]. intuition congruence. }
  destruct ys as [|p ys _] using rev_ind.
  - pose proof Hnd as Hnd'. rewrite NoDup_cons, list_elem_of_In in Hnd'. destruct Hnd' as [Hh _].
    cbn [app] in *. apply linked_chain; try done.
    rewrite app_comm_cons, in_app_iff. cbn [In] in *. intuition congruence.
  - rewrite before_snoc. rewrite <- app_assoc in *. cbn [app] in *. apply chain_app in Hc as [Hc1 Hc2].
    destruct (NoDup_cycle _ _ _ _ Hnd) as (N1 & N2 & _).
    assert (~ In e (h :: ys ++ [p]) /\ ~ In e (p :: zs ++ [h])) as [He1 He2].
    { cbn [In] in *. rewrite !in_app_iff in *. cbn [In] in *. tauto. }
    apply chain_app. split; [|by apply linked_chain].
    apply (prefix_frame l _ h p ys zs e); [done|done| | |done]; intros b ? ?; by lookup.
Qed.

(** Unlinking an entry of the cycle. *)
Lemma rep_remove l h ys zs e v :
  dl_rep l h (ys ++ e :: zs) -> dl_rep (unlinked l e (before h ys) (after h zs) v) h (ys ++ zs).
Proof.
  intros (Hnd & H0 & Hc). pose proof Hnd as Hnd'. apply NoDup_mid in Hnd' as [Hnd1 He].
  split; [done|]. split.
  { cbn [In] in *. rewrite in_app_iff in *. cbn [In] in *. tauto. }
  destruct ys as [|p ys _] using rev_ind.
  - cbn [app] in *. apply unlinked_chain; try done.
    rewrite NoDup_cons, list_elem_of_In in Hnd. tauto.
  - rewrite before_snoc. rewrite <- app_assoc in *. cbn [app] in *. apply chain_app in Hc as [Hc1 Hc2].
    destruct (NoDup_cycle _ _ _ _ Hnd) as (N1 & N2 & _).
    assert (~ In e (h :: ys ++ [p]) /\ ~ In h (e :: zs)) as [He1 He2].
    { cbn [In] in *. rewrite !in_app_iff in *. cbn [In] in *. intuition congruence. }
    apply chain_app. split; [|by apply unlinked_chain].
    apply (prefix_frame l _ h p ys zs e); [|done| | |done]; [|intros b ? ?; by lookup..].
    done.
Qed.

Lemma before_in h ys : In (before h ys) (h :: ys).
Proof. destruct ys as [|p ys _] using rev_ind; [by left|]. rewrite before_snoc. right. rewrite in_app_iff. by right; left. Qed.

Lemma chain_ends l a xs z :
  chain l a xs z -> nxt l !! a = Some (after z xs) /\ prv l !! z = Some (before a xs).
Proof.
  intros H. split.
  - destruct xs; cbn [chain] in H; apply H.
  - destruct xs as [|p xs _] using rev_ind; [apply H|]. rewrite before_snoc.
    apply chain_app in H as [_ H]. apply H.
Qed.

(** The fields of an entry name its neighbours. *)
Lemma rep_neighbours l h ys e zs :
  dl_rep l h (ys ++ e :: zs) -> prv l !! e = Some (before h ys) /\ nxt l !! e = Some (after h zs).
Proof.
  intros (_ & _ & Hc). apply chain_app in Hc as [H1 H2].
  split; [apply (chain_ends _ _ _ _ H1) | apply (chain_ends _ _ _ _ H2)].
Qed.

Lemma neighbour_nodes l h ys zs :
  dl_rep l h (ys ++ zs) -> node l (before h ys) /\ node l (after h zs).
Proof.
  intros H. split; apply (rep_node l h (ys ++ zs)); try done; cbn [In]; rewrite in_app_iff.
  - pose proof (before_in h ys) as Hb. cbn [In] in Hb. tauto.
  - pose proof (after_in h zs) as Ha. rewrite in_app_iff in Ha. cbn [In] in Ha. tauto.
Qed.

(** Outside of the list and of the entry, nothing is written. *)
Definition same_outside (l l' : links) (ns : list Z) : Prop :=
  (forall b, node l b -> node l' b) /\
  forall b, ~ In b ns -> nxt l' !! b = nxt l !! b /\ prv l' !! b = prv l !! b.

Lemma same_outside_rep l l' ns h xs :
  same_outside l l' ns -> (forall b, In b (h :: xs) -> ~ In b ns) -> dl_rep l h xs -> dl_rep l' h xs.
Proof.
  intros [_ Hs] Hd (Hnd & H0 & Hc). split; [done|]. split; [done|].
  eapply chain_frame; [| |exact Hc]; intros b Hb; apply Hs, Hd; [done|].
  rewrite in_app_iff in Hb. cbn [In] in *. tauto.
Qed.

Lemma insert_outside l h ys zs e :
  same_outside l (linked l e (before h ys) (after h zs)) (e :: h :: ys ++ zs).
Proof.
  pose proof (before_in h ys) as H1. pose proof (after_in h zs) as H2.
  rewrite in_app_iff in H2. cbn [In] in H1, H2.
  assert (forall b, ~ In b (e :: h :: ys ++ zs) -> b <> e /\ b <> before h ys /\ b <> after h zs) as Hb.
  { intros b. cbn [In]. rewrite in_app_iff. intros Hb. repeat split; intros ->; intuition. }
  split.
  - intros b (? & ? & ?). split; [done|]. cbn [linked nxt prv]. auto using insert_some.
  - intros b Hn. destruct (Hb b Hn) as (? & ? & ?). split; by lookup.
Qed.

Lemma remove_outside l h ys zs e v :
  same_outside l (unlinked l e (before h ys) (after h zs) v) (e :: h :: ys ++ zs).
Proof.
  pose proof (before_in h ys) as H1. pose proof (after_in h zs) as H2.
  rewrite in_app_iff in H2. cbn [In] in H1, H2.
  assert (forall b, ~ In b (e :: h :: ys ++ zs) -> b <> e /\ b <> before h ys /\ b <> after h zs) as Hb.
  { intros b. cbn [In]. rewrite in_app_iff. intros Hb. repeat split; intros ->; intuition. }
  split.
  - intros b (? & ? & ?). split; [done|]. cbn [unlinked nxt prv]. auto using insert_some.
  - intros b Hn. destruct (Hb b Hn) as (? & ? & ?). split; by lookup.
Qed.

(** ** The operations on one list *)

Lemma dlist_add_rep l h xs e :
  dl_rep l h xs -> node l e -> ~ In e (h :: xs) ->
  exists l', dlist_add l e h = Some l' /\ dl_rep l' h (e :: xs) /\ same_outside l l' (e :: h :: xs).
Proof.
  intros Hr Hn He. exists (linked l e (before h []) (after h xs)).
  destruct (neighbour_nodes l h [] xs Hr). unfold dlist_add.
  rewrite (proj1 (chain_ends _ _ _ _ (proj2 (proj2 Hr)))). cbn [mbind option_bind].
  rewrite dlist_add_links by done. split; [done|].
  split; [apply (rep_insert l h [] xs e); [done|apply Hn|done] | apply (insert_outside l h [] xs e)].
Qed.

Lemma dlist_add_tail_rep l h xs e :
  dl_rep l h xs -> node l e -> ~ In e (h :: xs) ->
  exists l', dlist_add_tail l e h = Some l' /\ dl_rep l' h (xs ++ [e]) /\ same_outside l l' (e :: h :: xs).
Proof.
  intros Hr Hn He. exists (linked l e (before h xs) (after h [])).
  assert (dl_rep l h (xs ++ [])) as Hr' by (by rewrite app_nil_r).
  destruct (neighbour_nodes l h xs [] Hr'). unfold dlist_add_tail.
  rewrite (proj2 (chain_ends _ _ _ _ (proj2 (proj2 Hr)))). cbn [mbind option_bind].
  rewrite dlist_add_links by done. split; [done|].
  split; [apply rep_insert; [done|apply Hn|by rewrite app_nil_r]|].
  pose proof (insert_outside l h xs [] e) as Ho. by rewrite app_nil_r in Ho.
Qed.

(** [dlist_del] and [dlist_del_init] differ by what they leave in the entry. *)
Lemma dlist_unlink_rep l h ys zs e :
  dl_rep l h (ys ++ e :: zs) ->
  (exists l', dlist_del l e = Some l' /\ dl_rep l' h (ys ++ zs) /\ same_outside l l' (e :: h :: ys ++ zs) /\
     nxt l' !! e = Some NULL /\ prv l' !! e = Some NULL) /\
  (exists l', dlist_del_init l e = Some l' /\ dl_rep l' h (ys ++ zs) /\ same_outside l l' (e :: h :: ys ++ zs) /\
     dl_rep l' e []).
Proof.
  intros Hr. destruct (rep_neighbours _ _ _ _ _ Hr) as [Hp Hn].
  assert (node l e /\ node l (before h ys) /\ node l (after h zs)) as (Ne & Np & Nn).
  { split; [apply (rep_node _ _ _ e Hr); right; rewrite in_app_iff; right; by left|].
    split; [apply (neighbour_nodes l h ys (e :: zs) Hr)|].
    apply (neighbour_nodes l h (ys ++ [e]) zs). by rewrite <- app_assoc. }
  split.
  - exists (unlinked l e (before h ys) (after h zs) NULL). unfold dlist_del. rewrite Hp, Hn. cbn [mbind option_bind].
    rewrite dlist_del_links by done. split; [done|]. split; [by apply rep_remove|].
    split; [apply remove_outside|]. split; by lookup.
  - exists (unlinked l e (before h ys) (after h zs) e). unfold dlist_del_init. rewrite Hp, Hn. cbn [mbind option_bind].
    rewrite dlist_del_links by done. split; [done|]. split; [by apply rep_remove|].
    split; [apply remove_outside|]. split; [repeat constructor; apply not_elem_of_nil|].
    split; [intros [?|[]]; by apply (proj1 Ne)|]. split; by lookup.
Qed.

(** ** Refinement *)

(** The abstract state: the entries of every list, by its head. *)
Abbreviation lists := (gmap Z (list Z)).

(** An address that is neither a head nor an entry. *)
Definition free_node (A : lists) (e : Z) : Prop := forall h xs, A !! h = Some xs -> ~ In e (h :: xs).

Inductive op := OpInit (h : Z) | OpAdd (e h : Z) | OpAddTail (e h : Z) | OpDel (e : Z) | OpDelInit (e : Z).

Definition op_step (l : links) (o : op) : option links :=
  match o with
  | OpInit h => INIT_DLIST_HEAD l h
  | OpAdd e h => dlist_add l e h
  | OpAddTail e h => dlist_add_tail l e h
  | OpDel e => dlist_del l e
  | OpDelInit e => dlist_del_init l e
  end.

(** The list operation each call stands for, among nodes [N].  [OpDelInit] leaves the
    entry a list of its own. *)
Inductive abs_step (N : Z -> Prop) (A : lists) : op -> lists -> Prop :=
| abs_init h : N h -> free_node A h -> abs_step N A (OpInit h) (<[h := []]> A)
| abs_add e h xs : N e -> free_node A e -> A !! h = Some xs -> abs_step N A (OpAdd e h) (<[h := e :: xs]> A)
| abs_add_tail e h xs : N e -> free_node A e -> A !! h = Some xs -> abs_step N A (OpAddTail e h) (<[h := xs ++ [e]]> A)
| abs_del e h ys zs : A !! h = Some (ys ++ e :: zs) -> abs_step N A (OpDel e) (<[h := ys ++ zs]> A)
| abs_del_init e h ys zs : A !! h = Some (ys ++ e :: zs) ->
    abs_step N A (OpDelInit e) (<[e := []]> (<[h := ys ++ zs]> A)).

Inductive abs_steps (N : Z -> Prop) : lists -> list op -> lists -> Prop :=
| abs_nil A : abs_steps N A [] A
| abs_cons A o A1 os A2 : abs_step N A o A1 -> abs_steps N A1 os A2 -> abs_steps N A (o :: os) A2.

Fixpoint op_steps (l : links) (os : list op) : option links :=
  match os with
  | [] => Some l
  | o :: tl => l ← op_step l o; op_steps l tl
  end.

(** The memory holds all the lists, and they share no node. *)
Record rep (N : Z -> Prop) (l : links) (A : lists) : Prop := {
  rep_nodes : forall e, N e -> node l e;
  rep_lists : forall h xs, A !! h = Some xs -> dl_rep l h xs;
  rep_disjoint : forall h xs h' xs' b, A !! h = Some xs -> A !! h' = Some xs' ->
    In b (h :: xs) -> In b (h' :: xs') -> h = h'
}.

Lemma rep_update N l l' A h xs xs' e :
  rep N l A -> A !! h = Some xs -> dl_rep l' h xs' -> same_outside l l' (e :: h :: xs) ->
  free_node A e \/ In e xs -> (forall b, In b xs' -> In b (e :: xs)) -> rep N l' (<[h := xs']> A).
Proof.
  intros [HN HL HD] Hh Hr Ho He Hin.
  assert (forall g ys b, A !! g = Some ys -> g <> h -> In b (g :: ys) -> ~ In b (e :: h :: xs)) as Hout.
  { intros g ys b Hg Hne Hb [<-|Hb']; [|by apply Hne, (HD g ys h xs b)].
    destruct He as [He|He]; [by apply (He g ys Hg)|]. apply Hne, (HD g ys h xs e); try done. by right. }
  split.
  - intros b Hb. by apply Ho, HN.
  - intros g ys. rewrite lookup_insert_Some. intros [[<- <-]|[Hne Hg]]; [done|].
    eapply same_outside_rep; [exact Ho| |by apply HL]. intros b Hb. by apply (Hout g ys b).
  - intros g1 y1 g2 y2 b. rewrite !lookup_insert_Some.
    intros [[<- <-]|[Hne1 H1]] [[<- <-]|[Hne2 H2]] Hb1 Hb2; try done.
    + exfalso. apply (Hout g2 y2 b H2); [done..|]. destruct Hb1 as [<-|Hb1]; [right; by left|].
      destruct (Hin b Hb1) as [<-|?]; [by left|right; by right].
    + exfalso. apply (Hout g1 y1 b H1); [done..|]. destruct Hb2 as [<-|Hb2]; [right; by left|].
      destruct (Hin b Hb2) as [<-|?]; [by left|right; by right].
    + by apply (HD g1 y1 g2 y2 b).
Qed.

Lemma rep_new N l A e : rep N l A -> free_node A e -> dl_rep l e [] -> rep N l (<[e := []]> A).
Proof.
  intros [HN HL HD] He Hr. split; [done| |].
  - intros g ys. rewrite lookup_insert_Some. intros [[<- <-]|[Hne Hg]]; [done|by apply HL].
  - intros g1 y1 g2 y2 b. rewrite !lookup_insert_Some.
    intros [[<- <-]|[Hne1 H1]] [[<- <-]|[Hne2 H2]] Hb1 Hb2; try done.
    + destruct Hb1 as [<-|[]]. by destruct (He g2 y2 H2).
    + destruct Hb2 as [<-|[]]. by destruct (He g1 y1 H1).
    + by apply (HD g1 y1 g2 y2 b).
Qed.

Lemma INIT_rep N l A h :
  rep N l A -> N h -> free_node A h ->
  exists l', INIT_DLIST_HEAD l h = Some l' /\ rep N l' (<[h := []]> A).
Proof.
  intros Hr HN Hf. destruct (rep_nodes _ _ _ Hr h HN) as (H0 & Hn & Hp).
  unfold INIT_DLIST_HEAD. stores. eexists. split; [done|]. apply rep_new; [|done|].
  - assert (same_outside l (mklinks (<[h := h]> (nxt l)) (<[h := h]> (prv l))) [h]) as Ho.
    { split.
      - intros b (? & ? & ?). split; [done|]. cbn [nxt prv]. auto using insert_some.
      - intros b Hb. cbn [In] in Hb. assert (b <> h) by (intros ->; tauto). split; by lookup. }
    destruct Hr as [HNs HL HD]. split; [|intros g ys Hg|done].
    + intros b Hb. by apply Ho, HNs.
    + eapply same_outside_rep; [exact Ho| |by apply HL]. intros b Hb [<-|[]]. by apply (Hf g ys Hg).
  - split; [repeat constructor; apply not_elem_of_nil|]. split; [intros [?|[]]; by apply H0|]. split; by lookup.
Qed.

Lemma unlink_free N l A h ys zs e :
  rep N l A -> A !! h = Some (ys ++ e :: zs) -> free_node (<[h := ys ++ zs]> A) e.
Proof.
  intros Hr Hh g xs. rewrite lookup_insert_Some. destruct (rep_lists _ _ _ Hr _ _ Hh) as (Hnd & _ & _).
  apply NoDup_mid in Hnd as [_ He].
  intros [[<- <-]|[Hne Hg]]; [done|]. intros Hin. apply Hne.
  apply (rep_disjoint _ _ _ Hr h (ys ++ e :: zs) g xs e Hh Hg); [|done].
  right. rewrite in_app_iff. right. by left.
Qed.

Lemma op_step_refines N l A o A' :
  rep N l A -> abs_step N A o A' -> exists l', op_step l o = Some l' /\ rep N l' A'.
Proof.
  intros Hr Hs. destruct Hs as [h HN Hf|e h xs HN Hf Hh|e h xs HN Hf Hh|e h ys zs Hh|e h ys zs Hh]; cbn [op_step].
  - by apply INIT_rep.
  - destruct (dlist_add_rep l h xs e) as (l' & E & H1 & H2);
      [by apply (rep_lists _ _ _ Hr)|by apply (rep_nodes _ _ _ Hr)|by apply Hf|].
    exists l'. split; [done|]. apply (rep_update N l l' A h xs (e :: xs) e); try done. by left.
  - destruct (dlist_add_tail_rep l h xs e) as (l' & E & H1 & H2);
      [by apply (rep_lists _ _ _ Hr)|by apply (rep_nodes _ _ _ Hr)|by apply Hf|].
    exists l'. split; [done|]. apply (rep_update N l l' A h xs (xs ++ [e]) e); try done; [by left|].
    intros b. rewrite in_app_iff. cbn [In]. tauto.
  - destruct (dlist_unlink_rep l h ys zs e (rep_lists _ _ _ Hr _ _ Hh)) as [(l' & E & H1 & H2 & _) _].
    exists l'. split; [done|]. apply (rep_update N l l' A h (ys ++ e :: zs) (ys ++ zs) e); try done.
    + destruct H2 as [H2 H3]. split; [done|]. intros b Hb. apply H3. cbn [In] in *. rewrite in_app_iff in *. cbn [In] in *. tauto.
    + right. rewrite in_app_iff. right. by left.
    + intros b. cbn [In]. rewrite !in_app_iff. cbn [In]. tauto.
  - destruct (dlist_unlink_rep l h ys zs e (rep_lists _ _ _ Hr _ _ Hh)) as [_ (l' & E & H1 & H2 & H3)].
    exists l'. split; [done|]. apply rep_new; [|by eapply unlink_free|done].
    apply (rep_update N l l' A h (ys ++ e :: zs) (ys ++ zs) e); try done.
    + destruct H2 as [H2 H4]. split; [done|]. intros b Hb. apply H4. cbn [In] in *. rewrite in_app_iff in *. cbn [In] in *. tauto.
    + right. rewrite in_app_iff. right. by left.
    + intros b. cbn [In]. rewrite !in_app_iff. cbn [In]. tauto.
Qed.

(** Walking the list with [dlist_get_next] from the head. *)
Fixpoint walk (fuel : nat) (l : links) (entry head : Z) : option (list Z) :=
  match fuel with
  | O => None
  | S fuel' =>
      e ← dlist_get_next l entry head;
      if e =? NULL then Some [] else xs ← walk fuel' l e head; Some (e :: xs)
  end.

Lemma walk_S fuel l entry head :
  walk (S fuel) l entry head =
  (e ← dlist_get_next l entry head;
   if e =? NULL then Some [] else xs ← walk fuel l e head; Some (e :: xs)).
Proof. done. Qed.

Lemma walk_chain l h xs : forall a,
  chain l a xs h -> ~ In NULL (a :: xs) -> ~ In h xs -> walk (S (length xs)) l a h = Some xs.
Proof.
  induction xs as [|x xs IH]; intros a Hc H0 Hh; rewrite walk_S; cbn [In length] in *;
    assert ((a =? NULL) = false) as Ha by (apply Z.eqb_neq; tauto).
  - unfold dlist_get_next. rewrite Ha. cbn [negb]. destruct Hc as [-> _]. cbn. by rewrite Z.eqb_refl.
  - destruct Hc as (Hn & _ & Hc). unfold dlist_get_next. rewrite Ha. cbn [negb]. rewrite Hn. cbn [mbind option_bind].
    replace (x =? h) with false by (symmetry; apply Z.eqb_neq; intros ->; tauto).
    replace (x =? NULL) with false by (symmetry; apply Z.eqb_neq; intros ->; tauto).
    rewrite IH; [done|done| |]; cbn [In]; tauto.
Qed.

(** Every sequence of list operations that is legal on the abstract lists (an entry is linked only
    when it is in no list, and unlinked only when it is in one) runs on the pointers without touching
    a node that does not exist, and leaves the memory holding exactly the resulting lists; walking any
    of them with [dlist_get_next] enumerates it in order and ends. *)
Theorem dlist_refines N l A os A' :
  rep N l A -> abs_steps N A os A' ->
  exists l', op_steps l os = Some l' /\ rep N l' A' /\
    forall h xs, A' !! h = Some xs ->
      walk (S (length xs)) l' NULL h = Some xs /\ dlist_empty l' h = Some (match xs with [] => true | _ => false end).
Proof.
  intros Hr Hs. revert l Hr. induction Hs as [A|A o A1 os A2 H1 _ IH]; intros l Hr.
  - exists l. split; [done|]. split; [done|]. intros h xs Hh.
    destruct (rep_lists _ _ _ Hr h xs Hh) as (Hnd & H0 & Hc). split.
    + rewrite NoDup_cons, list_elem_of_In in Hnd. rewrite <- (walk_chain l h xs h Hc H0 (proj1 Hnd)).
      rewrite !walk_S. unfold dlist_get_next. cbn [In] in H0.
      by replace (h =? NULL) with false by (symmetry; apply Z.eqb_neq; tauto).
    + unfold dlist_empty. rewrite (proj1 (chain_ends _ _ _ _ Hc)). cbn [mbind option_bind].
      rewrite NoDup_cons, list_elem_of_In in Hnd. destruct xs as [|x xs]; cbn [after hd]; [by rewrite Z.eqb_refl|].
      f_equal. apply Z.eqb_neq. intros ->. apply (proj1 Hnd). by left.
  - destruct (op_step_refines N l A o A1 Hr H1) as (l1 & E1 & Hr1). cbn [op_steps]. rewrite E1. by apply IH.
Qed.

(** Four nodes with arbitrary contents. *)
Definition four_nodes : links :=
  let m := list_to_map [(1, 7); (2, 7); (3, 7); (4, 7)] in mklinks m m.

Lemma dlist_refines_witness :
  exists l', op_steps four_nodes [OpInit 1; OpInit 2; OpAddTail 3 1; OpAdd 4 1; OpDelInit 3] = Some l' /\
    rep (fun e => 1 <= e <= 4) l' (<[3 := []]> (<[1 := [4] ++ []]> (<[1 := [4; 3]]> (<[1 := [3]]> (<[2 := []]> (<[1 := []]> ∅)))))) /\
    forall h xs, (<[3 := []]> (<[1 := [4] ++ []]> (<[1 := [4; 3]]> (<[1 := [3]]> (<[2 := []]> (<[1 := []]> (∅ : lists))))))) !! h = Some xs ->
      walk (S (length xs)) l' NULL h = Some xs /\ dlist_empty l' h = Some (match xs with [] => true | _ => false end).
Proof.
  apply (dlist_refines (fun e => 1 <= e <= 4) four_nodes ∅).
  - split; [|done|done]. intros e He. assert (e = 1 \/ e = 2 \/ e = 3 \/ e = 4) as Hc by lia.
    destruct Hc as [->|[->|[->| ->]]]; repeat split; try done; by eexists.
  - repeat match goal with
    | |- abs_steps _ _ [] _ => constructor
    | |- abs_steps _ _ (OpDelInit 3 :: _) _ => econstructor; [apply (abs_del_init _ _ 3 1 [4] []); reflexivity|]
    | |- abs_steps _ _ (_ :: _) _ => econstructor; [econstructor|]
    | |- 1 <= _ <= 4 => lia
    | |- _ !! _ = Some _ => reflexivity
    | |- free_node _ _ => intros h xs Hh; repeat (apply lookup_insert_Some in Hh as [[<- <-]|[_ Hh]]); [..|done]; cbn; lia
    end.
Defined.

End Dlist.
