(* ===== verification/MemHelper.v ===== *)
(** * comlib/mem_helper.c: the pooled allocator behind xmalloc, xrealloc and xfree.

    Blocks of [2^s] bytes are carved out of super blocks got from the C library, kept in a
    free and a used list per size class, and never given back before [mh_free_all].  The lists
    are the address lists that [Dlist] refines; the six parallel arrays
    [mpool_free_list], [mpool_used_list], [mpool_used], [mpool_free], [mpool_max_used] and
    [mpool_count] are one array of records.  Counters wrap at 32 bits, as [size_t] does on the
    target. *)
From Stdlib Require Import ZArith Lia Bool String.
From stdpp Require Import base tactics list option numbers gmap.
From S2P Require Import Prelude.

Module MemHelper.

Definition MAX_TRACKING_FILES : nat := 512.
Definition SIGN_MASK : Z := 0xffff0000.
Definition SIZE_MASK : Z := 0x0000ffff.
Definition MEMBLK_SIGN : Z := 0x55aa0000.
Definition SUPER_BLOCK_SIGN : Z := 0x5a5a0000.
Definition MEM_POOLS_COUNT : nat := 22.

(** [sizeof(memblk_hdr_t)]: two pointers, an [unsigned int] and two [int]s. *)
Definition HDR : Z := 20.
Definition MEMHDR (p : Z) : Z := p - HDR.
Definition MEMPTR (h : Z) : Z := h + HDR.

(** The fields of a block header besides the link. *)
Record memblk_hdr := mkhdr { flags : Z; file : Z; line : Z }.

Definition MEMBLK_CHECK (h : memblk_hdr) : bool := Z.land (flags h) SIGN_MASK =? MEMBLK_SIGN.
Definition MEMBLK_SIZE (h : memblk_hdr) : Z := Z.land (flags h) SIZE_MASK.

Definition mpool_increase : list Z :=
  [0; 0; 8; 8; 8; 8; 8; 8; 8; 8; 8; 8; 4; 2; 1; 1; 1; 1; 1; 1; 1; 1; 0; 0; 0; 0; 0; 0; 0; 0; 0; 0].

Record pool := mkpool {
  mpool_free_list : list Z;
  mpool_used_list : list Z;
  mpool_used : Z;
  mpool_free : Z;
  mpool_max_used : Z;
  mpool_count : Z
}.

(** The state: the pools, the headers and the payloads of the blocks in memory (by the address of
    the header), the table of file names, the live regions of the C library's allocator
    (address and size), and the number of calls it has received. *)
Record mh := mkmh {
  pools : list pool;
  hdrs : gmap Z memblk_hdr;
  data : gmap Z (list Z);
  _mh_files : list (option (list Z));
  regions : list (Z * Z);
  calls : nat
}.

Definition empty_pool : pool := mkpool [] [] 0 0 0 0.

Definition get_pool (st : mh) (s : nat) : pool := nth s (pools st) empty_pool.
Definition set_pool (st : mh) (s : nat) (p : pool) : mh :=
  mkmh (<[s := p]> (pools st)) (hdrs st) (data st) (_mh_files st) (regions st) (calls st).

(** [mh_init_all] forgets every block; what the C library has handed out stays live. *)
Definition mh_init_all (st : mh) : mh :=
  mkmh (replicate MEM_POOLS_COUNT empty_pool) (hdrs st) (data st)
       (replicate MAX_TRACKING_FILES None) (regions st) (calls st).

(** [free(blk)] of a super block: the region dies, with the headers inside it. *)
Definition inside (r : Z * Z) (a : Z) : bool := (fst r <=? a) && (a <? fst r + snd r).

Definition libc_free (st : mh) (blk : Z) : option mh :=
  match find (fun r => fst r =? blk) (regions st) with
  | None => None
  | Some r =>
      Some (mkmh (pools st)
                 (filter (fun x => inside r (fst x) = false) (hdrs st))
                 (filter (fun x => inside r (fst x) = false) (data st))
                 (_mh_files st)
                 (filter (fun q => fst q <> blk) (regions st)) (calls st))
  end.

(** The loop over [mpool_free_list[0]]. *)
Fixpoint free_supers (st : mh) (supers : list Z) : option mh :=
  match supers with
  | [] => Some st
  | blk :: tl =>
      let p := get_pool st 0 in
      st ← libc_free (set_pool st 0 (mkpool tl (mpool_used_list p) (mpool_used p) (mpool_free p)
                                            (mpool_max_used p) (mpool_count p))) blk;
      free_supers st tl
  end.

Definition mh_free_all (st : mh) : option mh :=
  st ← free_supers st (mpool_free_list (get_pool st 0));
  Some (mh_init_all st).

Definition count_list (l : list Z) : Z := u32 (zlen l).

(** ** Reports *)

(** The size totals printed by [mh_dump]: total, free, used. *)
Definition dump_turn (st : mh) (acc : Z * Z * Z) (i : nat) : Z * Z * Z :=
  let '(total_size, free_size, used_size) := acc in
  let block_size := Z.shiftl 1 (Z.of_nat i) in
  let p := get_pool st i in
  (u32 (total_size + u32 (block_size * u32 (mpool_free p + mpool_used p))),
   u32 (free_size + u32 (block_size * mpool_free p)),
   u32 (used_size + u32 (block_size * mpool_used p))).

Definition mh_dump (st : mh) : Z * Z * Z :=
  foldl (dump_turn st) (0, 0, 0) (seq 1 (MEM_POOLS_COUNT - 1)).

(** The lines printed by [mh_dump_used]: class, entry, file name ([None]: a NULL pointer) and line. *)
Definition used_line (st : mh) (i : nat) (entry : Z) : option (nat * Z * option (list Z) * Z) :=
  hdr ← hdrs st !! entry;
  f ← rd (_mh_files st) (file hdr);
  Some (i, entry, f, line hdr).

Definition mh_dump_used (st : mh) : option (list (nat * Z * option (list Z) * Z)) :=
  ls ← mapM (fun i => mapM (used_line st i) (mpool_used_list (get_pool st i))) (seq 0 MEM_POOLS_COUNT);
  Some (concat ls).

(** The complaints of [mh_diagnostic]. *)
Inductive complaint :=
| BadFree (i : nat) (counter entries : Z)
| BadUsed (i : nat) (counter entries : Z)
| BadTotal (i : nat) (free used total : Z).

Definition diagnose_pool (i : nat) (p : pool) : list complaint :=
  let c1 := count_list (mpool_free_list p) in
  let c2 := count_list (mpool_used_list p) in
  let c3 := u32 (mpool_count p * nth i mpool_increase 0) in
  (if negb (mpool_free p =? c1) then [BadFree i (mpool_free p) c1] else []) ++
  (if negb (mpool_used p =? c2) then [BadUsed i (mpool_used p) c2] else []) ++
  (if negb (c3 =? u32 (mpool_free p + mpool_used p)) then [BadTotal i (mpool_free p) (mpool_used p) c3] else []).

Definition mh_diagnostic (st : mh) : list complaint :=
  concat (map (fun i => diagnose_pool i (get_pool st i)) (seq 1 (MEM_POOLS_COUNT - 1))).

(** ** Allocation *)

Section Alloc.

(** The C library: what the [n]-th call of [malloc] answers when the live regions are [live];
    what the fields and the bytes of fresh memory hold; whether the [n]-th call of [strdup] succeeds. *)
Context (sys_malloc : nat -> list (Z * Z) -> Z -> option Z) (fresh_byte : nat -> Z -> Z) (sys_strdup : nat -> bool).

Definition increase (s : nat) : Z := nth s mpool_increase 0.
Definition block_size (s : nat) : Z := HDR + Z.shiftl 1 (Z.of_nat s).
Definition required_size (s : nat) : Z := HDR + block_size s * increase s.

(** One turn of the loop that carves the super block.  The [file] and [line] fields and the
    payload keep what the fresh memory held. *)
Definition carve (s : nat) (st : mh) (ptr : Z) : mh :=
  let p := get_pool st s in
  set_pool
    (mkmh (pools st)
          (<[ptr := mkhdr (Z.lor MEMBLK_SIGN (Z.land (Z.of_nat s) SIZE_MASK))
                         (fresh_byte (calls st) (ptr + 12)) (fresh_byte (calls st) (ptr + 16))]> (hdrs st))
          (<[ptr := map (fresh_byte (calls st)) (seqZ (MEMPTR ptr) (Z.shiftl 1 (Z.of_nat s)))]> (data st))
          (_mh_files st) (regions st) (calls st))
    s (mkpool (mpool_free_list p ++ [ptr]) (mpool_used_list p) (mpool_used p) (u32 (mpool_free p + 1))
              (mpool_max_used p) (mpool_count p)).

Fixpoint carve_loop (n : nat) (s : nat) (st : mh) (ptr : Z) : mh :=
  match n with
  | O => st
  | S n' => carve_loop n' s (carve s st ptr) (ptr + block_size s)
  end.

Definition alloc_memblk (st : mh) (s : nat) : mh :=
  if 0 <? increase s then
    let ans := sys_malloc (calls st) (regions st) (required_size s) in
    let st := mkmh (pools st) (hdrs st) (data st) (_mh_files st) (regions st) (S (calls st)) in
    match ans with
    | Some ptr =>
        let p0 := get_pool st 0 in
        let st := set_pool
          (mkmh (pools st) (<[ptr := mkhdr SUPER_BLOCK_SIGN (fresh_byte (calls st) (ptr + 12)) (fresh_byte (calls st) (ptr + 16))]> (hdrs st)) (data st) (_mh_files st)
                (regions st ++ [(ptr, required_size s)]) (calls st))
          0 (mkpool (mpool_free_list p0 ++ [ptr]) (mpool_used_list p0) (mpool_used p0) (mpool_free p0)
                    (mpool_max_used p0) (mpool_count p0)) in
        let p := get_pool st s in
        let st := set_pool st s (mkpool (mpool_free_list p) (mpool_used_list p) (mpool_used p) (mpool_free p)
                                        (mpool_max_used p) (u32 (mpool_count p + 1))) in
        carve_loop (Z.to_nat (increase s)) s st (ptr + HDR)
    | None => st
    end
  else st.

(** The address of the header, or [None] for NULL. *)
Definition memalloc (st : mh) (s : nat) : mh * option Z :=
  let st := match mpool_free_list (get_pool st s) with [] => alloc_memblk st s | _ :: _ => st end in
  let p := get_pool st s in
  match mpool_free_list p with
  | entry :: tl =>
      let used := u32 (mpool_used p + 1) in
      (set_pool st s (mkpool tl (entry :: mpool_used_list p) used (u32 (mpool_free p - 1))
                             (if mpool_max_used p <? used then used else mpool_max_used p) (mpool_count p)),
       Some entry)
  | [] => (st, None)
  end.

Definition _is_entry_in_used (st : mh) (hdr : Z) (s : nat) : bool :=
  existsb (Z.eqb hdr) (mpool_used_list (get_pool st s)).

(** [None]: the header is not in memory, or names a class that does not exist. *)
Definition memfree (st : mh) (hdr : Z) : option mh :=
  h ← hdrs st !! hdr;
  let s := Z.to_nat (MEMBLK_SIZE h) in
  if (s <? MEM_POOLS_COUNT)%nat then
    if _is_entry_in_used st hdr s then
      let p := get_pool st s in
      Some (set_pool st s (mkpool (hdr :: mpool_free_list p) (filter (fun a => a <> hdr) (mpool_used_list p))
                                  (u32 (mpool_used p - 1)) (u32 (mpool_free p + 1))
                                  (mpool_max_used p) (mpool_count p)))
    else Some st
  else None.

(** The index the search for a file name stops at. *)
Fixpoint find_file (files : list (option (list Z))) (f : list Z) : nat :=
  match files with
  | Some g :: tl => if eqb_list g f then 0 else S (find_file tl f)
  | _ => 0
  end.

Definition memblk_tracking (st : mh) (hdr : Z) (f : list Z) (l : Z) : mh :=
  let i := find_file (_mh_files st) f in
  let '(files, n) :=
    if (i <? MAX_TRACKING_FILES)%nat then
      match nth i (_mh_files st) None with
      | None => (<[i := if sys_strdup (calls st) then Some f else None]> (_mh_files st), S (calls st))
      | Some _ => (_mh_files st, calls st)
      end
    else (_mh_files st, calls st) in
  let h := default (mkhdr 0 0 0) (hdrs st !! hdr) in
  mkmh (pools st) (<[hdr := mkhdr (flags h) (Z.of_nat i) l]> (hdrs st)) (data st) files (regions st) n.

(** The loop of [mh_malloc] from class [i], for [n] more classes; it returns a pointer or 0. *)
Fixpoint malloc_loop (n : nat) (i : nat) (st : mh) (size : Z) (f : list Z) (l : Z) : mh * Z :=
  match n with
  | O => (st, 0)
  | S n' =>
      if 0 <? size then
        if size <=? Z.shiftl 1 (Z.of_nat i) then
          let '(st, hdr) := memalloc st i in
          match hdr with
          | Some h => (memblk_tracking st h f l, MEMPTR h)
          | None => malloc_loop n' (S i) st size f l
          end
        else malloc_loop n' (S i) st size f l
      else (st, 0)
  end.

Definition mh_malloc (st : mh) (size : Z) (f : list Z) (l : Z) : mh * Z :=
  malloc_loop (MEM_POOLS_COUNT - 3) 3 st size f l.

(** Writing [bs] at the start of the block of [ptr]. *)
Definition store (st : mh) (ptr : Z) (bs : list Z) : option mh :=
  d ← data st !! MEMHDR ptr;
  d' ← memcpy_at d 0 (length bs) bs;
  Some (mkmh (pools st) (hdrs st) (<[MEMHDR ptr := d']> (data st)) (_mh_files st) (regions st) (calls st)).

Definition mh_strdup (st : mh) (string : list Z) (f : list Z) (l : Z) : option (mh * Z) :=
  let s := u32 (zlen string) in
  let '(st, ptr) := mh_malloc st (u32 (s + 1)) f l in
  if negb (ptr =? 0) then st ← store st ptr (string ++ [0]); Some (st, ptr) else Some (st, ptr).

Definition mh_calloc (st : mh) (nmemb size : Z) (f : list Z) (l : Z) : option (mh * Z) :=
  let '(st, ptr) := mh_malloc st (u32 (nmemb * size)) f l in
  if negb (ptr =? 0) then
    st ← store st ptr (replicate (Z.to_nat (u32 (nmemb * size))) 0); Some (st, ptr)
  else Some (st, ptr).

Definition mh_free (st : mh) (ptr : Z) : option mh :=
  if ptr =? 0 then Some st
  else
    h ← hdrs st !! MEMHDR ptr;
    if MEMBLK_CHECK h then memfree st (MEMHDR ptr) else Some st.

Definition mh_realloc (st : mh) (ptr size : Z) (f : list Z) (l : Z) : option (mh * Z) :=
  if negb (ptr =? 0) then
    h ← hdrs st !! MEMHDR ptr;
    if negb (MEMBLK_CHECK h) then Some (st, 0)
    else
      let my_size := Z.shiftl 1 (MEMBLK_SIZE h) in
      if my_size <? size then
        let '(st, new_ptr) := mh_malloc st size f l in
        st ← (if negb (new_ptr =? 0) then
                d ← data st !! MEMHDR ptr; store st new_ptr (take (Z.to_nat my_size) d)
              else Some st);
        st ← mh_free st ptr;
        Some (st, new_ptr)
      else Some (st, ptr)
  else if negb (size =? 0) then Some (mh_malloc st size f l)
  else Some (st, 0).

(** ** The invariant *)

(** What the C library promises of [malloc]: a region of the address space that overlaps no live one. *)
Definition malloc_fresh : Prop := forall n live size p,
  sys_malloc n live size = Some p ->
  0 < p /\ p + size <= 2 ^ 32 /\
  forall q sz, In (q, sz) live -> p + size <= q \/ q + sz <= p.

(** The header [a] is the [k]-th block of class [s] of the super block [p]. *)
Definition block_in (s : nat) (p a : Z) : Prop :=
  exists k, 0 <= k < increase s /\ a = p + HDR + k * block_size s.

Definition block_flags (s : nat) : Z := Z.lor MEMBLK_SIGN (Z.land (Z.of_nat s) SIZE_MASK).

Record block_at (st : mh) (s : nat) (a : Z) : Prop := {
  blk_hdr : exists h, hdrs st !! a = Some h /\ flags h = block_flags s;
  blk_data : exists d, data st !! a = Some d /\ zlen d = Z.shiftl 1 (Z.of_nat s);
  blk_region : exists p, In (p, required_size s) (regions st) /\ block_in s p a
}.

Definition blocks (st : mh) (s : nat) : list Z :=
  mpool_free_list (get_pool st s) ++ mpool_used_list (get_pool st s).

(** The counters of a pool agree with its lists; [k] blocks of the last super block are still to be
    carved. *)
Record pool_ok (s : nat) (k : Z) (p : pool) : Prop := {
  ok_free : mpool_free p = u32 (zlen (mpool_free_list p));
  ok_used : mpool_used p = u32 (zlen (mpool_used_list p));
  ok_total : u32 (mpool_count p * increase s) = u32 (zlen (mpool_free_list p) + zlen (mpool_used_list p) + k)
}.

Definition region_ok (r : Z * Z) : Prop :=
  0 < fst r /\ fst r + snd r <= 2 ^ 32 /\
  exists s, (2 <= s < MEM_POOLS_COUNT)%nat /\ 0 < increase s /\ snd r = required_size s.

Definition apart (r r' : Z * Z) : Prop := fst r + snd r <= fst r' \/ fst r' + snd r' <= fst r.

Record inv_pending (s0 : nat) (k : Z) (st : mh) : Prop := {
  inv_len : length (pools st) = MEM_POOLS_COUNT;
  inv_files : length (_mh_files st) = MAX_TRACKING_FILES;
  inv_pool : forall s, (1 <= s < MEM_POOLS_COUNT)%nat ->
    pool_ok s (if decide (s = s0) then k else 0) (get_pool st s);
  inv_blk : forall s a, (1 <= s < MEM_POOLS_COUNT)%nat -> In a (blocks st s) -> block_at st s a;
  inv_nodup : forall s, (1 <= s < MEM_POOLS_COUNT)%nat -> NoDup (blocks st s);
  inv_hdr : forall a h, hdrs st !! a = Some h ->
    (exists r, In r (regions st) /\ inside r a = true) /\
    (In a (map fst (regions st)) /\ flags h = SUPER_BLOCK_SIGN \/
     exists s, (2 <= s < MEM_POOLS_COUNT)%nat /\ flags h = block_flags s /\ In a (blocks st s));
  inv_data : forall a, hdrs st !! a = None -> data st !! a = None;
  inv_regions : Forall region_ok (regions st) /\ ForallOrdPairs apart (regions st);
  inv_super : mpool_free_list (get_pool st 0) = map fst (regions st) /\ mpool_used_list (get_pool st 0) = []
}.

(** The invariant of the module between two calls. *)
Definition mh_inv (st : mh) : Prop := inv_pending 0 0 st.

Lemma get_set_pool st s p s' :
  (s < length (pools st))%nat -> get_pool (set_pool st s p) s' = if decide (s' = s) then p else get_pool st s'.
Proof.
  intros Hs. unfold get_pool, set_pool. cbn [pools]. rewrite !nth_lookup.
  destruct (decide (s' = s)) as [->|Hne]; [by rewrite list_lookup_insert_eq|].
  by rewrite list_lookup_insert_ne.
Qed.

Lemma class_cases s : (s < MEM_POOLS_COUNT)%nat -> In s (seq 0 22).
Proof. rewrite in_seq. unfold MEM_POOLS_COUNT. lia. Qed.

(** A decidable fact about every size class, by evaluation. *)
Lemma class_check (P : nat -> bool) :
  forallb P (seq 0 22) = true -> forall s, (s < MEM_POOLS_COUNT)%nat -> P s = true.
Proof. rewrite forallb_forall. intros H s Hs. by apply H, class_cases. Qed.

Lemma block_flags_check s h :
  (s < MEM_POOLS_COUNT)%nat -> flags h = block_flags s ->
  MEMBLK_CHECK h = true /\ MEMBLK_SIZE h = Z.of_nat s.
Proof.
  intros Hs Hf. unfold MEMBLK_CHECK, MEMBLK_SIZE. rewrite Hf.
  apply (class_check (fun s => (Z.land (block_flags s) SIGN_MASK =? MEMBLK_SIGN) &&
     (Z.land (block_flags s) SIZE_MASK =? Z.of_nat s))) in Hs; [|by vm_compute].
  apply andb_true_iff in Hs as [H1 H2]. by apply Z.eqb_eq in H2.
Qed.

Lemma block_flags_inj s s' :
  (s < MEM_POOLS_COUNT)%nat -> (s' < MEM_POOLS_COUNT)%nat -> block_flags s = block_flags s' -> s = s'.
Proof.
  intros H H' E. destruct (block_flags_check s (mkhdr (block_flags s) 0 0) H eq_refl) as [_ E1].
  destruct (block_flags_check s' (mkhdr (block_flags s) 0 0) H' E) as [_ E2]. lia.
Qed.

Lemma required_size_inj s s' :
  (s < MEM_POOLS_COUNT)%nat -> (s' < MEM_POOLS_COUNT)%nat -> 0 < increase s -> 0 < increase s' ->
  required_size s = required_size s' -> s = s'.
Proof.
  intros H H' Hi Hi' E.
  apply (class_check (fun s => forallb (fun s' => (increase s <=? 0) || (increase s' <=? 0) ||
     negb (required_size s =? required_size s') || (s =? s')%nat) (seq 0 22))) in H; [|by vm_compute].
  rewrite forallb_forall in H. specialize (H s' (class_cases s' H')). bprop.
  rewrite !orb_true_iff in H. rewrite negb_true_iff, !Z.leb_le, Z.eqb_neq, Nat.eqb_eq in H. lia.
Qed.

Lemma increase_small s : (s < MEM_POOLS_COUNT)%nat -> 0 <= increase s <= 8.
Proof.
  intros Hs. apply (class_check (fun s => (0 <=? increase s) && (increase s <=? 8))) in Hs; [|by vm_compute].
  bprop. lia.
Qed.

Lemma block_size_pos s : HDR < block_size s.
Proof. unfold block_size. rewrite Z.shiftl_mul_pow2 by lia. pose proof (Z.pow_pos_nonneg 2 (Z.of_nat s)). lia. Qed.

(** A block lies inside its super block, after the header of the super block. *)
Lemma block_in_range s p a :
  block_in s p a -> p + HDR <= a /\ a + block_size s <= p + required_size s.
Proof.
  intros (k & Hk & ->). pose proof (block_size_pos s). unfold required_size, HDR in *. nia.
Qed.

Lemma block_inside s p a : block_in s p a -> inside (p, required_size s) a = true.
Proof.
  intros H. apply block_in_range in H. pose proof (block_size_pos s). unfold inside, HDR in *. cbn [fst snd].
  apply andb_true_iff. rewrite Z.leb_le, Z.ltb_lt. lia.
Qed.

(** Two live regions that share an address are the same. *)
Lemma regions_same st r r' a :
  ForallOrdPairs apart (regions st) -> In r (regions st) -> In r' (regions st) ->
  inside r a = true -> inside r' a = true -> r = r'.
Proof.
  intros Ho Hr Hr' H H'. unfold inside in *. bprop.
  destruct (ForallOrdPairs_In Ho r r' Hr Hr') as [E|[E|E]]; [done|unfold apart in E; lia..].
Qed.

(** ** Carving a super block *)

Lemma blocks_set_pool st s p s' :
  (s < length (pools st))%nat ->
  blocks (set_pool st s p) s' =
    if decide (s' = s) then mpool_free_list p ++ mpool_used_list p else blocks st s'.
Proof. intros Hs. unfold blocks. rewrite get_set_pool by done. by destruct (decide (s' = s)). Qed.

Lemma u32_add_l a b : u32 (u32 a + b) = u32 (a + b).
Proof. unfold u32. by rewrite Zplus_mod_idemp_l. Qed.
Lemma u32_sub_l a b : u32 (u32 a - b) = u32 (a - b).
Proof. unfold u32. by rewrite Zminus_mod_idemp_l. Qed.
Lemma u32_mul_l a b : u32 (u32 a * b) = u32 (a * b).
Proof. unfold u32. by rewrite Zmult_mod_idemp_l. Qed.

Lemma shiftl_1_pos s : 0 < Z.shiftl 1 (Z.of_nat s).
Proof. rewrite Z.shiftl_mul_pow2 by lia. pose proof (Z.pow_pos_nonneg 2 (Z.of_nat s)). lia. Qed.

(** The memory keeps the blocks it has: headers keep their flags, payloads their bytes. *)
Definition keeps (st st' : mh) : Prop :=
  (forall a h, hdrs st !! a = Some h -> exists h', hdrs st' !! a = Some h' /\ flags h' = flags h) /\
  (forall a d, data st !! a = Some d -> data st' !! a = Some d) /\
  (forall r, In r (regions st) -> In r (regions st')).

Lemma block_at_keeps st st' s a : keeps st st' -> block_at st s a -> block_at st' s a.
Proof.
  intros (Hh & Hd & Hr) [(h & Hh1 & Hh2) (d & Hd1 & Hd2) (p & Hp1 & Hp2)]. split.
  - destruct (Hh a h Hh1) as (h' & H1 & H2). exists h'. split; [done|congruence].
  - exists d. auto.
  - exists p. auto.
Qed.

Lemma keeps_refl st : keeps st st.
Proof. repeat split; eauto. Qed.
Lemma keeps_trans st1 st2 st3 : keeps st1 st2 -> keeps st2 st3 -> keeps st1 st3.
Proof.
  intros (H1 & H2 & H3) (G1 & G2 & G3). repeat split; auto.
  intros a h Ha. destruct (H1 a h Ha) as (h' & Ha' & E). destruct (G1 a h' Ha') as (h'' & Ha'' & E').
  exists h''. split; [done|congruence].
Qed.

Lemma carve_keeps s st ptr : hdrs st !! ptr = None -> data st !! ptr = None -> keeps st (carve s st ptr).
Proof.
  intros Hh Hd. split; [|split; [|done]]; cbn [carve set_pool hdrs data].
  - intros a h Ha. exists h. split; [|done]. rewrite lookup_insert_ne; [done|congruence].
  - intros a d Ha. rewrite lookup_insert_ne; [done|congruence].
Qed.

Lemma carve_block s st p ptr :
  In (p, required_size s) (regions st) -> block_in s p ptr -> block_at (carve s st ptr) s ptr.
Proof.
  intros Hp Hb. split; cbn [carve set_pool hdrs data regions]; rewrite ?lookup_insert_eq.
  - by eexists.
  - eexists. split; [done|]. rewrite length_map, length_seqZ. pose proof (shiftl_1_pos s). lia.
  - by exists p.
Qed.

Lemma carve_inv s k st p ptr :
  (2 <= s < MEM_POOLS_COUNT)%nat -> inv_pending s (k + 1) st ->
  In (p, required_size s) (regions st) -> block_in s p ptr ->
  hdrs st !! ptr = None ->
  inv_pending s k (carve s st ptr).
Proof.
  clear sys_malloc sys_strdup. intros Hs [Il If Ip Ib In' Ih Id Ir Is] Hp Hb Hnone.
  pose proof (Id ptr Hnone) as Hdnone.
  assert (s < length (pools st))%nat as Hlen by (rewrite Il; lia).
  pose proof (carve_keeps s st ptr Hnone Hdnone) as Hk.
  assert (forall s' a, In a (blocks (carve s st ptr) s') <-> (s' = s /\ a = ptr) \/ In a (blocks st s')) as Hin.
  { intros s' a. unfold carve. rewrite blocks_set_pool by done. unfold blocks.
    destruct (decide (s' = s)) as [->|]; cbn [mpool_free_list mpool_used_list]; rewrite ?in_app_iff;
      cbn [In]; [|tauto]. intuition congruence. }
  split.
  - cbn [carve set_pool pools]. by rewrite length_insert.
  - done.
  - intros s' Hs'. specialize (Ip s' Hs'). unfold carve. rewrite get_set_pool by done.
    destruct (decide (s' = s)) as [->|]; [|done]. destruct Ip as [E1 E2 E3].
    split; cbn [mpool_free mpool_used mpool_count mpool_free_list mpool_used_list];
      rewrite ?length_app; cbn [length]; [rewrite E1, u32_add_l; f_equal; lia|done|rewrite E3; f_equal; lia].
  - intros s' a Hs' Ha. apply Hin in Ha as [[-> ->]|Ha]; [by eapply carve_block|].
    by eapply block_at_keeps, Ib.
  - intros s' Hs'. unfold carve. rewrite blocks_set_pool by done. destruct (decide (s' = s)) as [->|]; [|by apply In'].
    cbn [mpool_free_list mpool_used_list]. rewrite <- app_assoc. cbn [app].
    rewrite <- Permutation_middle. apply NoDup_cons. split; [|by apply In'].
    rewrite list_elem_of_In. intros Ha. destruct (Ib s ptr Hs' Ha) as [(h & Hh & _) _ _]. congruence.
  - intros a h. cbn [carve set_pool hdrs regions]. rewrite lookup_insert_Some. intros [[<- <-]|[Hne Ha]].
    + split; [exists (p, required_size s); split; [done|by apply block_inside]|].
      right. exists s. split; [done|]. split; [done|]. apply Hin. by left.
    + destruct (Ih a h Ha) as [Hr Hc]. split; [done|]. destruct Hc as [Hc|(s' & H1 & H2 & H3)]; [by left|].
      right. exists s'. split; [done|]. split; [done|]. apply Hin. by right.
  - intros a. cbn [carve set_pool hdrs data]. rewrite !lookup_insert_None. intros [Ha ?]. split; [by apply Id|done].
  - done.
  - unfold carve. rewrite get_set_pool by done. destruct (decide (0%nat = s)); [lia|done].
Qed.

(** What [memalloc] may change besides the free lists. *)
Record carved (st st' : mh) : Prop := {
  carved_keeps : keeps st st';
  carved_used : forall s, mpool_used_list (get_pool st' s) = mpool_used_list (get_pool st s);
  carved_files : _mh_files st' = _mh_files st
}.

Lemma carve_carved s st ptr :
  (s < length (pools st))%nat -> hdrs st !! ptr = None -> data st !! ptr = None -> carved st (carve s st ptr).
Proof.
  intros Hs Hh Hd. split; [by apply carve_keeps| |done]. intros s'. unfold carve.
  rewrite get_set_pool by done. destruct (decide (s' = s)) as [->|]; done.
Qed.

Lemma carved_trans st1 st2 st3 : carved st1 st2 -> carved st2 st3 -> carved st1 st3.
Proof.
  intros [K1 U1 F1] [K2 U2 F2]. split; [by eapply keeps_trans| |congruence].
  intros s. by rewrite U2.
Qed.

Lemma carve_loop_inv n : forall s st p,
  (2 <= s < MEM_POOLS_COUNT)%nat -> inv_pending s (Z.of_nat n) st ->
  In (p, required_size s) (regions st) -> Z.of_nat n <= increase s ->
  (forall j, increase s - Z.of_nat n <= j < increase s -> hdrs st !! (p + HDR + j * block_size s) = None) ->
  let st' := carve_loop n s st (p + HDR + (increase s - Z.of_nat n) * block_size s) in
  inv_pending s 0 st' /\ carved st st' /\
  (mpool_free_list (get_pool st s) <> [] \/ n <> O -> mpool_free_list (get_pool st' s) <> []).
Proof.
  clear sys_malloc sys_strdup.
  induction n as [|n IH]; intros s st p Hs Hinv Hp Hn Hfree; cbn [carve_loop].
  { split; [done|]. split; [by split; [apply keeps_refl|..]|tauto]. }
  set (ptr := p + HDR + (increase s - Z.of_nat (S n)) * block_size s).
  assert (hdrs st !! ptr = None) as Hnone by (apply Hfree; lia).
  assert (data st !! ptr = None) as Hdnone by (by eapply inv_data).
  assert (s < length (pools st))%nat as Hlen by (rewrite (inv_len _ _ _ Hinv); lia).
  assert (ptr + block_size s = p + HDR + (increase s - Z.of_nat n) * block_size s) as Hnext
    by (unfold ptr; lia). rewrite Hnext.
  assert (inv_pending s (Z.of_nat n) (carve s st ptr)) as Hinv'.
  { apply (carve_inv s (Z.of_nat n) st p ptr); try done.
    - by replace (Z.of_nat n + 1) with (Z.of_nat (S n)) by lia.
    - exists (increase s - Z.of_nat (S n)). split; [lia|done]. }
  destruct (IH s (carve s st ptr) p) as (H1 & H2 & H3); try done; [lia| |].
  - intros j Hj. cbn [carve set_pool hdrs]. rewrite lookup_insert_ne; [apply Hfree; lia|].
    unfold ptr. pose proof (block_size_pos s). unfold HDR in *. nia.
  - split; [done|]. split; [eapply carved_trans; [by apply carve_carved|done]|].
    intros _. apply H3. left. unfold carve. rewrite get_set_pool by done. rewrite decide_True by done.
    cbn [mpool_free_list]. destruct (mpool_free_list (get_pool st s)); done.
Qed.

(** The state between the arrival of a super block and its carving. *)
Definition with_super (st : mh) (s : nat) (ptr : Z) : mh :=
  let p0 := get_pool st 0 in
  let st := set_pool
    (mkmh (pools st)
          (<[ptr := mkhdr SUPER_BLOCK_SIGN (fresh_byte (calls st) (ptr + 12)) (fresh_byte (calls st) (ptr + 16))]> (hdrs st))
          (data st) (_mh_files st) (regions st ++ [(ptr, required_size s)]) (calls st))
    0 (mkpool (mpool_free_list p0 ++ [ptr]) (mpool_used_list p0) (mpool_used p0) (mpool_free p0)
              (mpool_max_used p0) (mpool_count p0)) in
  let p := get_pool st s in
  set_pool st s (mkpool (mpool_free_list p) (mpool_used_list p) (mpool_used p) (mpool_free p)
                        (mpool_max_used p) (u32 (mpool_count p + 1))).

Lemma get_with_super st s ptr s' :
  (2 <= s < length (pools st))%nat ->
  get_pool (with_super st s ptr) s' =
    let p := get_pool st s' in
    if decide (s' = 0%nat) then
      mkpool (mpool_free_list p ++ [ptr]) (mpool_used_list p) (mpool_used p) (mpool_free p) (mpool_max_used p) (mpool_count p)
    else if decide (s' = s) then
      mkpool (mpool_free_list p) (mpool_used_list p) (mpool_used p) (mpool_free p) (mpool_max_used p) (u32 (mpool_count p + 1))
    else p.
Proof.
  intros Hs. unfold with_super. rewrite !get_set_pool by (cbn [set_pool pools]; rewrite ?length_insert; lia).
  destruct (decide (s' = 0%nat)) as [->|].
  - destruct (decide (0%nat = s)); [lia|]. done.
  - destruct (decide (s' = s)) as [->|]; [|done]. by destruct (decide (s = 0%nat)).
Qed.

Lemma outside_none st s0 k a r :
  inv_pending s0 k st -> inside r a = true -> (forall r', In r' (regions st) -> apart r r') -> hdrs st !! a = None.
Proof.
  intros Hinv Ha Hap. destruct (hdrs st !! a) as [h|] eqn:E; [|done].
  destruct (inv_hdr _ _ _ Hinv a h E) as [(r' & Hr' & Hi) _]. specialize (Hap r' Hr').
  unfold inside, apart in *. bprop. lia.
Qed.

Lemma ForallOrdPairs_snoc {A} (R : A -> A -> Prop) l x :
  ForallOrdPairs R l -> Forall (fun y => R y x) l -> ForallOrdPairs R (l ++ [x]).
Proof.
  induction 1 as [|y l Hy Hl IH]; intros Hx; cbn [app]; [by constructor; constructor|].
  rewrite Forall_cons_iff in Hx. destruct Hx as [Hx1 Hx2]. constructor; [|by apply IH].
  apply Forall_app. split; [done|]. by constructor.
Qed.

Lemma with_super_carved st s ptr :
  (2 <= s < length (pools st))%nat -> hdrs st !! ptr = None -> carved st (with_super st s ptr).
Proof.
  intros Hs Hn. split; [split; [|split; [done|]]|intros s'|done].
  - intros a h Ha. exists h. split; [|done]. cbn [with_super set_pool hdrs].
    rewrite lookup_insert_ne; [done|congruence].
  - intros r Hr. cbn [with_super set_pool regions]. rewrite in_app_iff. by left.
  - rewrite get_with_super by done. cbn zeta.
    destruct (decide (s' = 0%nat)); [done|]. by destruct (decide (s' = s)).
Qed.

Lemma with_super_blocks st s ptr s' :
  (2 <= s < length (pools st))%nat -> s' <> 0%nat -> blocks (with_super st s ptr) s' = blocks st s'.
Proof.
  intros Hs H0. unfold blocks. rewrite get_with_super by done. cbn zeta.
  destruct (decide (s' = 0%nat)); [done|]. by destruct (decide (s' = s)).
Qed.

Lemma with_super_inv st s ptr :
  (2 <= s < MEM_POOLS_COUNT)%nat -> mh_inv st -> 0 < increase s ->
  0 < ptr -> ptr + required_size s <= 2 ^ 32 ->
  (forall r', In r' (regions st) -> apart (ptr, required_size s) r') ->
  inv_pending s (increase s) (with_super st s ptr).
Proof.
  clear sys_malloc sys_strdup. intros Hs Hinv Hi Hp1 Hp2 Hap.
  assert (2 <= s < length (pools st))%nat as Hlen by (rewrite (inv_len _ _ _ Hinv); lia).
  assert (inside (ptr, required_size s) ptr = true) as Hins.
  { unfold inside, required_size, HDR. cbn [fst snd]. pose proof (block_size_pos s). unfold HDR in *.
    apply andb_true_iff. rewrite Z.leb_le, Z.ltb_lt. nia. }
  pose proof (outside_none st 0 0 ptr _ Hinv Hins Hap) as Hnone.
  destruct (with_super_carved st s ptr Hlen Hnone) as [Hk _ _].
  destruct Hinv as [Il If Ip Ib In' Ih Id [Ir1 Ir2] Is].
  split.
  - cbn [with_super set_pool pools]. by rewrite !length_insert.
  - done.
  - intros s' Hs'. specialize (Ip s' Hs'). rewrite get_with_super by done. cbn zeta.
    destruct (decide (s' = 0%nat)) as [->|Hne0]; [lia|]. destruct (decide (s' = s)) as [->|]; [|done].
    destruct Ip as [E1 E2 E3]. split; cbn [mpool_free mpool_used mpool_count mpool_free_list mpool_used_list]; [done..|].
    rewrite u32_mul_l, Z.mul_add_distr_r, Z.mul_1_l, <- u32_add_l, E3, u32_add_l. f_equal. lia.
  - intros s' a Hs' Ha. rewrite with_super_blocks in Ha by (done || lia). by eapply block_at_keeps, Ib.
  - intros s' Hs'. rewrite with_super_blocks by (done || lia). by apply In'.
  - intros a h. change (hdrs (with_super st s ptr)) with (<[ptr := mkhdr SUPER_BLOCK_SIGN (fresh_byte (calls st) (ptr + 12)) (fresh_byte (calls st) (ptr + 16))]> (hdrs st)).
    change (regions (with_super st s ptr)) with (regions st ++ [(ptr, required_size s)]).
    rewrite lookup_insert_Some, map_app. intros [[<- <-]|[Hne Ha]].
    + split; [exists (ptr, required_size s); split; [rewrite in_app_iff; right; by left|done]|].
      left. split; [rewrite in_app_iff; right; by left|done].
    + destruct (Ih a h Ha) as [(r & Hr & Hra) Hc]. split; [exists r; split; [rewrite in_app_iff; by left|done]|].
      destruct Hc as [[Hc1 Hc2]|(s' & H1 & H2 & H3)]; [left; split; [rewrite in_app_iff; by left|done]|].
      right. exists s'. rewrite with_super_blocks by (done || lia). done.
  - intros a. change (hdrs (with_super st s ptr)) with (<[ptr := mkhdr SUPER_BLOCK_SIGN (fresh_byte (calls st) (ptr + 12)) (fresh_byte (calls st) (ptr + 16))]> (hdrs st)).
    rewrite lookup_insert_None. intros [Ha _]. by apply Id.
  - change (regions (with_super st s ptr)) with (regions st ++ [(ptr, required_size s)]). split.
    + apply Forall_app. split; [done|]. constructor; [|done]. split; [done|]. split; [done|]. by exists s.
    + apply ForallOrdPairs_snoc; [done|]. apply List.Forall_forall. intros r Hr.
      destruct (Hap r Hr); [by right|by left].
  - rewrite get_with_super by done. cbn zeta. rewrite decide_True by done. cbn [mpool_free_list].
    change (regions (with_super st s ptr)) with (regions st ++ [(ptr, required_size s)]).
    destruct Is as [Is1 Is2]. by rewrite map_app, Is1.
Qed.

Lemma inv_pending_0 s st : inv_pending s 0 st -> mh_inv st.
Proof.
  clear. intros [Il If Ip Ib In' Ih Id Ir Is]. split; try done. intros s' Hs'. specialize (Ip s' Hs').
  destruct (decide (s' = s)), (decide (s' = 0%nat)); done.
Qed.

(** A state that differs by the number of library calls only. *)
Lemma calls_inv st n : mh_inv st -> mh_inv (mkmh (pools st) (hdrs st) (data st) (_mh_files st) (regions st) n).
Proof. clear. intros [Il If Ip Ib In' Ih Id Ir Is]. split; try done. intros s a Hs Ha. destruct (Ib s a Hs Ha). by split. Qed.

Lemma alloc_memblk_inv st s :
  malloc_fresh -> (2 <= s < MEM_POOLS_COUNT)%nat -> mh_inv st ->
  mh_inv (alloc_memblk st s) /\ carved st (alloc_memblk st s).
Proof.
  clear sys_strdup. intros Hm Hs Hinv. unfold alloc_memblk.
  assert (carved st (mkmh (pools st) (hdrs st) (data st) (_mh_files st) (regions st) (S (calls st)))) as Hc0
    by (split; [exact (keeps_refl st)|done..]).
  destruct (Z.ltb_spec 0 (increase s)) as [Hi|]; [|split; [done|by split; [apply keeps_refl|..]]].
  destruct (sys_malloc (calls st) (regions st) (required_size s)) as [ptr|] eqn:E;
    [|split; [by apply calls_inv|done]].
  destruct (Hm _ _ _ _ E) as (H1 & H2 & H3).
  set (st1 := mkmh (pools st) (hdrs st) (data st) (_mh_files st) (regions st) (S (calls st))).
  assert (mh_inv st1) as Hinv1 by (by apply calls_inv).
  assert (forall r', In r' (regions st1) -> apart (ptr, required_size s) r') as Hap.
  { intros [q sz] Hr. apply (H3 q sz Hr). }
  assert (2 <= s < length (pools st1))%nat as Hlen by (rewrite (inv_len _ _ _ Hinv1); lia).
  assert (forall a, inside (ptr, required_size s) a = true -> hdrs st1 !! a = None) as Hnone.
  { intros a Ha. by apply (outside_none st1 0 0 a _ Hinv1 Ha). }
  pose proof (with_super_inv st1 s ptr Hs Hinv1 Hi H1 H2 Hap) as Hsup.
  pose proof (increase_small s ltac:(lia)) as Hsmall. pose proof (block_size_pos s) as Hbs.
  destruct (carve_loop_inv (Z.to_nat (increase s)) s (with_super st1 s ptr) ptr) as (G1 & G2 & _); try done.
  - by rewrite Z2Nat.id by lia.
  - change (regions (with_super st1 s ptr)) with (regions st1 ++ [(ptr, required_size s)]).
    rewrite in_app_iff. right. by left.
  - lia.
  - intros j Hj. rewrite Z2Nat.id in Hj by lia.
    change (hdrs (with_super st1 s ptr)) with (<[ptr := mkhdr SUPER_BLOCK_SIGN (fresh_byte (calls st1) (ptr + 12)) (fresh_byte (calls st1) (ptr + 16))]> (hdrs st1)).
    assert (block_in s ptr (ptr + HDR + j * block_size s)) as Hb by (exists j; split; [lia|done]).
    rewrite lookup_insert_ne; [by apply Hnone, block_inside|]. unfold HDR in *. nia.
  - rewrite Z2Nat.id, Z.sub_diag, Z.add_0_r in G1, G2 by lia.
    split; [by apply (inv_pending_0 s)|]. eapply carved_trans; [exact Hc0|]. eapply carved_trans; [|exact G2].
    apply with_super_carved; [done|]. apply Hnone. unfold inside, required_size, HDR in *. cbn [fst snd].
    apply andb_true_iff. rewrite Z.leb_le, Z.ltb_lt. nia.
Qed.

(** ** Moving blocks between the lists of a pool *)

Lemma repool_inv st s p' :
  (1 <= s < MEM_POOLS_COUNT)%nat -> mh_inv st -> pool_ok s 0 p' ->
  mpool_free_list p' ++ mpool_used_list p' ≡ₚ blocks st s -> mh_inv (set_pool st s p').
Proof.
  clear. intros Hs [Il If Ip Ib In' Ih Id Ir Is] Hok Hperm.
  assert (s < length (pools st))%nat as Hlen by (rewrite Il; lia).
  assert (forall s', blocks (set_pool st s p') s' ≡ₚ blocks st s') as Hb.
  { intros s'. rewrite blocks_set_pool by done. destruct (decide (s' = s)) as [->|]; done. }
  assert (forall s' a, In a (blocks (set_pool st s p') s') <-> In a (blocks st s')) as Hin.
  { intros s' a. rewrite <- !list_elem_of_In. by rewrite Hb. }
  split; try done.
  - cbn [set_pool pools]. by rewrite length_insert.
  - intros s' Hs'. rewrite get_set_pool by done. destruct (decide (s' = s)) as [->|]; [|by apply Ip].
    by destruct (decide (s = 0%nat)).
  - intros s' a Hs' Ha. apply Hin in Ha. destruct (Ib s' a Hs' Ha). by split.
  - intros s' Hs'. rewrite Hb. by apply In'.
  - intros a h Ha. destruct (Ih a h Ha) as [Hr Hc]. split; [done|].
    destruct Hc as [Hc|(s' & H1 & H2 & H3)]; [by left|right; exists s'; by rewrite Hin].
  - rewrite get_set_pool by done. destruct (decide (0%nat = s)); [lia|done].
Qed.

(** What a successful or failed allocation does to the used lists. *)
Definition took (st st' : mh) (s : nat) (a : Z) : Prop :=
  ~ In a (mpool_used_list (get_pool st s)) /\
  forall s', mpool_used_list (get_pool st' s') =
    if decide (s' = s) then a :: mpool_used_list (get_pool st s) else mpool_used_list (get_pool st s').
Definition same_used (st st' : mh) : Prop :=
  forall s, mpool_used_list (get_pool st' s) = mpool_used_list (get_pool st s).

Lemma memalloc_inv st s :
  malloc_fresh -> (2 <= s < MEM_POOLS_COUNT)%nat -> mh_inv st ->
  let '(st', r) := memalloc st s in
  mh_inv st' /\ keeps st st' /\
  match r with Some a => took st st' s a | None => same_used st st' end.
Proof.
  clear sys_strdup. intros Hm Hs Hinv. unfold memalloc.
  set (st1 := match mpool_free_list (get_pool st s) with [] => alloc_memblk st s | _ :: _ => st end).
  assert (mh_inv st1 /\ carved st st1) as [Hinv1 [Hk1 Hu1 _]].
  { unfold st1. destruct (mpool_free_list (get_pool st s)); [by apply alloc_memblk_inv|].
    split; [done|]. by split; [apply keeps_refl|..]. }
  destruct (mpool_free_list (get_pool st1 s)) as [|entry tl] eqn:Efl; [done|].
  assert (s < length (pools st1))%nat as Hlen by (rewrite (inv_len _ _ _ Hinv1); lia).
  assert (blocks st1 s = entry :: tl ++ mpool_used_list (get_pool st1 s)) as Hb by (unfold blocks; by rewrite Efl).
  split; [|split].
  - apply repool_inv; [lia|done| |].
    + pose proof (inv_pool _ _ _ Hinv1 s ltac:(lia)) as Hp. destruct (decide (s = 0%nat)); [lia|].
      destruct Hp as [E1 E2 E3]. rewrite Efl in E1, E3. cbn [length] in E1, E3.
      split; cbn [mpool_free mpool_used mpool_count mpool_free_list mpool_used_list length].
      * rewrite E1, u32_sub_l. f_equal. lia.
      * rewrite E2, u32_add_l. f_equal. lia.
      * rewrite E3. f_equal. lia.
    + cbn [mpool_free_list mpool_used_list]. rewrite Hb. symmetry. apply Permutation_middle.
  - done.
  - split.
    + rewrite <- Hu1. intros Hin. pose proof (inv_nodup _ _ _ Hinv1 s ltac:(lia)) as Hnd. rewrite Hb in Hnd.
      apply NoDup_cons in Hnd as [Hnd _]. apply Hnd. apply list_elem_of_In. rewrite in_app_iff. by right.
    + intros s'. rewrite get_set_pool by done. destruct (decide (s' = s)) as [->|]; [|by rewrite Hu1].
      cbn [mpool_used_list]. by rewrite Hu1.
Qed.

Lemma tracking_inv st a s f l :
  (1 <= s < MEM_POOLS_COUNT)%nat -> mh_inv st -> In a (blocks st s) ->
  mh_inv (memblk_tracking st a f l) /\ keeps st (memblk_tracking st a f l) /\
  same_used st (memblk_tracking st a f l).
Proof.
  clear sys_malloc fresh_byte. intros Hs Hinv Ha. destruct (blk_hdr _ _ _ (inv_blk _ _ _ Hinv s a Hs Ha)) as (h & Hh & Hf).
  unfold memblk_tracking.
  set (r := if (find_file (_mh_files st) f <? MAX_TRACKING_FILES)%nat then _ else _).
  assert (length (fst r) = MAX_TRACKING_FILES) as Hlen.
  { pose proof (inv_files _ _ _ Hinv). unfold r. destruct (Nat.ltb _ _); [|done].
    destruct (nth _ _ _); [done|]. cbn [fst]. by rewrite length_insert. }
  destruct r as [files n]. cbn [fst] in Hlen. rewrite Hh. cbn [default].
  set (st' := mkmh _ _ _ _ _ _).
  assert (keeps st st') as Hk.
  { split; [|done]. intros b g Hb. cbn [st' hdrs].
    destruct (decide (b = a)) as [->|Hne].
    - exists (mkhdr (flags h) (Z.of_nat (find_file (_mh_files st) f)) l).
      split; [by rewrite lookup_insert_eq|]. cbn [flags]. congruence.
    - exists g. by rewrite lookup_insert_ne. }
  split; [|done]. destruct Hinv as [Il If Ip Ib In' Ih Id Ir Is]. split; try done.
  - intros s' b Hs' Hb. by eapply block_at_keeps, Ib.
  - intros b g. cbn [st' hdrs regions]. rewrite lookup_insert_Some. intros [[<- <-]|[Hne Hb]].
    + apply (Ih a h Hh).
    + apply (Ih b g Hb).
  - intros b. cbn [st' hdrs data]. rewrite lookup_insert_None. intros [Hb _]. by apply Id.
Qed.

(** ** mh_malloc *)

(** The answer of an allocator call: NULL and nothing taken, or a block of class [s] that was in
    no client's hands. *)
Definition answer (st st' : mh) (size ptr : Z) : Prop :=
  (ptr = 0 /\ same_used st st') \/
  (exists s, (3 <= s < MEM_POOLS_COUNT)%nat /\ 0 < size <= Z.shiftl 1 (Z.of_nat s) /\ took st st' s (MEMHDR ptr) /\ ptr <> 0).

Lemma took_after st st1 st' s a :
  (forall s', mpool_used_list (get_pool st1 s') = mpool_used_list (get_pool st s')) -> took st1 st' s a -> took st st' s a.
Proof. intros H [H1 H2]. split; [by rewrite <- H|]. intros s'. by rewrite H2, !H. Qed.

Lemma block_addr_pos st s a : mh_inv st -> (1 <= s < MEM_POOLS_COUNT)%nat -> In a (blocks st s) -> 0 < a.
Proof.
  clear. intros Hinv Hs Ha. destruct (blk_region _ _ _ (inv_blk _ _ _ Hinv s a Hs Ha)) as (p & Hp & Hb).
  destruct (inv_regions _ _ _ Hinv) as [Hr _]. rewrite List.Forall_forall in Hr. destruct (Hr _ Hp) as (H & _).
  apply block_in_range in Hb. cbn [fst] in H. unfold HDR in *. lia.
Qed.

Lemma malloc_loop_inv n : forall i st size f l,
  malloc_fresh -> (3 <= i)%nat -> (i + n <= MEM_POOLS_COUNT)%nat -> mh_inv st ->
  let '(st', ptr) := malloc_loop n i st size f l in
  mh_inv st' /\ keeps st st' /\ answer st st' size ptr.
Proof.
  induction n as [|n IH]; intros i st size f l Hm Hi Hn Hinv; cbn [malloc_loop].
  { split; [done|]. split; [apply keeps_refl|]. by left. }
  destruct (Z.ltb_spec 0 size) as [Hsz|]; [|split; [done|]; split; [apply keeps_refl|]; by left].
  destruct (Z.leb_spec size (Z.shiftl 1 (Z.of_nat i))) as [Hle|]; [|apply IH; try done; lia].
  pose proof (memalloc_inv st i Hm ltac:(lia) Hinv) as Ha.
  destruct (memalloc st i) as [st1 [a|]]; destruct Ha as (Hinv1 & Hk1 & Hr).
  - assert (In a (blocks st1 i)) as Hin.
    { unfold blocks. rewrite in_app_iff. right. rewrite (proj2 Hr i), decide_True by done. by left. }
    destruct (tracking_inv st1 a i f l ltac:(lia) Hinv1 Hin) as (Hinv2 & Hk2 & Hu2).
    split; [done|]. split; [by eapply keeps_trans|]. right. exists i.
    pose proof (block_addr_pos st1 i a Hinv1 ltac:(lia) Hin). unfold MEMHDR, MEMPTR, HDR in *.
    replace (a + 20 - 20) with a by lia.
    split; [lia|]. split; [lia|]. split; [|lia]. destruct Hr as [Hr1 Hr2]. split; [done|]. intros s'. by rewrite Hu2.
  - specialize (IH (S i) st1 size f l Hm ltac:(lia) ltac:(lia) Hinv1).
    destruct (malloc_loop n (S i) st1 size f l) as [st' ptr]. destruct IH as (H1 & H2 & H3).
    split; [done|]. split; [by eapply keeps_trans|].
    destruct H3 as [[-> H3]|(s & G1 & G2 & G3 & G4)]; [left; split; [done|]; intros s; by rewrite H3|].
    right. exists s. split; [done|]. split; [done|]. split; [|done]. by eapply took_after.
Qed.

Lemma mh_malloc_inv st size f l :
  malloc_fresh -> mh_inv st ->
  let '(st', ptr) := mh_malloc st size f l in
  mh_inv st' /\ keeps st st' /\ answer st st' size ptr.
Proof. intros Hm Hinv. apply malloc_loop_inv; try done; unfold MEM_POOLS_COUNT; lia. Qed.

(** ** Client stores, and mh_free *)

Lemma store_inv st ptr bs st' :
  mh_inv st -> store st ptr bs = Some st' ->
  mh_inv st' /\ same_used st st' /\ (forall a h, hdrs st !! a = Some h -> hdrs st' !! a = Some h) /\
  (forall a, a <> MEMHDR ptr -> data st' !! a = data st !! a) /\
  (exists d, data st !! MEMHDR ptr = Some d /\ data st' !! MEMHDR ptr = Some (bs ++ drop (length bs) d)).
Proof.
  clear. intros Hinv. unfold store. intros E. apply bind_Some in E as (d & Ed & E).
  apply bind_Some in E as (d' & Ed' & [= <-]).
  pose proof (length_memcpy_at _ _ _ _ _ Ed') as Hl.
  unfold memcpy_at in Ed'. destruct (_ && _); [|done]. injection Ed' as <-.
  cbn [take app Nat.add] in *. rewrite take_ge in * by lia.
  split; [|split; [done|split; [done|split]]].
  - destruct Hinv as [Il If Ip Ib In' Ih Id Ir Is]. split; try done.
    + intros s a Hs Ha. destruct (Ib s a Hs Ha) as [H1 (g & G1 & G2) H3]. split; try done. cbn [data].
      destruct (decide (a = MEMHDR ptr)) as [->|Hne]; [|exists g; by rewrite lookup_insert_ne].
      eexists. rewrite lookup_insert_eq. split; [done|]. rewrite Hl. congruence.
    + intros a Ha. cbn [data]. specialize (Id a Ha). rewrite lookup_insert_None. split; [done|]. congruence.
  - intros a Ha. cbn [data]. by rewrite lookup_insert_ne.
  - exists d. split; [done|]. cbn [data]. by rewrite lookup_insert_eq.
Qed.

(** [mh_free] of a block that is in use: it goes back to the front of the free list of its class. *)
Lemma in_used_eqb st a s : _is_entry_in_used st a s = true <-> In a (mpool_used_list (get_pool st s)).
Proof.
  unfold _is_entry_in_used. rewrite existsb_exists. split.
  - intros (x & Hx & E). apply Z.eqb_eq in E. by subst.
  - intros H. exists a. by rewrite Z.eqb_refl.
Qed.

Lemma filter_notin (a : Z) l : ~ In a l -> filter (fun b => b <> a) l = l.
Proof. rewrite <- list_elem_of_In. apply filter_ne_id. Qed.

Lemma filter_remove (a : Z) l : NoDup l -> In a l -> a :: filter (fun b => b <> a) l ≡ₚ l.
Proof. rewrite <- list_elem_of_In. apply filter_ne_perm. Qed.

(** The whole effect of [mh_free] on a pointer whose header is in memory. *)
Definition released (st st' : mh) (a : Z) : Prop :=
  forall s, mpool_used_list (get_pool st' s) = filter (fun b => b <> a) (mpool_used_list (get_pool st s)).

Lemma used_blocks st s a :
  mh_inv st -> In a (mpool_used_list (get_pool st s)) -> (1 <= s < MEM_POOLS_COUNT)%nat /\ In a (blocks st s).
Proof.
  intros Hinv Hu. split; [|unfold blocks; rewrite in_app_iff; by right].
  destruct (Nat.lt_ge_cases s MEM_POOLS_COUNT) as [Hlt|Hge].
  - destruct s; [|lia]. by rewrite (proj2 (inv_super _ _ _ Hinv)) in Hu.
  - unfold get_pool in Hu. rewrite nth_overflow in Hu; [done|]. by rewrite (inv_len _ _ _ Hinv).
Qed.

(** A block belongs to one class. *)
Lemma used_class st s s' a :
  mh_inv st -> (1 <= s < MEM_POOLS_COUNT)%nat -> In a (blocks st s) ->
  In a (mpool_used_list (get_pool st s')) -> s' = s.
Proof.
  clear. intros Hinv Hs Ha Hu. destruct (used_blocks _ _ _ Hinv Hu) as [Hs' Ha'].
  destruct (blk_hdr _ _ _ (inv_blk _ _ _ Hinv s a Hs Ha)) as (h & Hh & Hf).
  destruct (blk_hdr _ _ _ (inv_blk _ _ _ Hinv s' a Hs' Ha')) as (h' & Hh' & Hf').
  apply block_flags_inj; [lia..|]. congruence.
Qed.

Definition give_back (st : mh) (s : nat) (a : Z) : mh :=
  let p := get_pool st s in
  set_pool st s (mkpool (a :: mpool_free_list p) (filter (fun b => b <> a) (mpool_used_list p))
                        (u32 (mpool_used p - 1)) (u32 (mpool_free p + 1)) (mpool_max_used p) (mpool_count p)).

Lemma give_back_inv st s a :
  mh_inv st -> In a (mpool_used_list (get_pool st s)) ->
  mh_inv (give_back st s a) /\ released st (give_back st s a) a /\
  mpool_free_list (get_pool (give_back st s a) s) = a :: mpool_free_list (get_pool st s).
Proof.
  clear. intros Hinv Hu. destruct (used_blocks _ _ _ Hinv Hu) as [Hs Hb].
  assert (s < length (pools st))%nat as Hlen by (rewrite (inv_len _ _ _ Hinv); lia).
  assert (NoDup (mpool_used_list (get_pool st s))) as Hnd.
  { pose proof (inv_nodup _ _ _ Hinv s Hs) as Hnd. unfold blocks in Hnd. by apply NoDup_app in Hnd as (_ & _ & ?). }
  pose proof (filter_remove a _ Hnd Hu) as Hrem. split; [|split].
  - apply repool_inv; [lia|done| |].
    + pose proof (inv_pool _ _ _ Hinv s ltac:(lia)) as Hp. destruct (decide (s = 0%nat)); [lia|].
      destruct Hp as [E1 E2 E3]. pose proof (Permutation_length Hrem) as Hl. cbn [length] in Hl.
      split; cbn [mpool_free mpool_used mpool_count mpool_free_list mpool_used_list length].
      * rewrite E1, u32_add_l. f_equal. lia.
      * rewrite E2, u32_sub_l. f_equal. lia.
      * rewrite E3. f_equal. lia.
    + cbn [mpool_free_list mpool_used_list app]. rewrite Permutation_middle. unfold blocks.
      by apply Permutation_app_head.
  - intros s'. unfold give_back. rewrite get_set_pool by lia. destruct (decide (s' = s)) as [->|Hne]; [done|].
    rewrite filter_notin; [done|]. intros Hu'. by apply Hne, (used_class st s s' a).
  - unfold give_back. rewrite get_set_pool by lia. by rewrite decide_True.
Qed.

Lemma mh_free_eq st ptr h :
  mh_inv st -> ptr <> 0 -> hdrs st !! MEMHDR ptr = Some h ->
  (exists s, In (MEMHDR ptr) (mpool_used_list (get_pool st s)) /\ mh_free st ptr = Some (give_back st s (MEMHDR ptr))) \/
  ((forall s, ~ In (MEMHDR ptr) (mpool_used_list (get_pool st s))) /\ mh_free st ptr = Some st).
Proof.
  clear. intros Hinv Hptr Hh. set (a := MEMHDR ptr) in *. unfold mh_free.
  rewrite (proj2 (Z.eqb_neq ptr 0) Hptr). fold a. rewrite Hh. cbn [mbind option_bind].
  destruct (inv_hdr _ _ _ Hinv a h Hh) as [_ [[_ Hf]|(s & Hs & Hf & Hin)]].
  - right. unfold MEMBLK_CHECK. rewrite Hf. cbn. split; [|done]. intros s Hu.
    destruct (used_blocks _ _ _ Hinv Hu) as [Hs Hb].
    destruct (blk_hdr _ _ _ (inv_blk _ _ _ Hinv s a Hs Hb)) as (h' & Hh' & Hf').
    destruct (block_flags_check s h' ltac:(lia) Hf') as [Hc _].
    rewrite Hh in Hh'. injection Hh' as <-. unfold MEMBLK_CHECK in Hc. rewrite Hf in Hc. by vm_compute in Hc.
  - destruct (block_flags_check s h ltac:(lia) Hf) as [-> Hsz]. unfold memfree. rewrite Hh. cbn [mbind option_bind].
    rewrite Hsz, Nat2Z.id. rewrite (proj2 (Nat.ltb_lt s MEM_POOLS_COUNT)) by lia.
    destruct (_is_entry_in_used st a s) eqn:Eu; [left|right].
    + apply in_used_eqb in Eu. by exists s.
    + split; [|done]. intros s' Hu. pose proof (used_class st s s' a Hinv ltac:(lia) Hin Hu) as ->.
      apply in_used_eqb in Hu. congruence.
Qed.

Lemma mh_free_inv st ptr h :
  mh_inv st -> ptr <> 0 -> hdrs st !! MEMHDR ptr = Some h ->
  exists st', mh_free st ptr = Some st' /\ mh_inv st' /\ hdrs st' = hdrs st /\ data st' = data st /\
    regions st' = regions st /\ released st st' (MEMHDR ptr).
Proof.
  clear. intros Hinv Hptr Hh. destruct (mh_free_eq st ptr h Hinv Hptr Hh) as [(s & Hu & ->)|[Hno ->]].
  - destruct (give_back_inv st s (MEMHDR ptr) Hinv Hu) as (H1 & H2 & _). eexists. by split_and!.
  - exists st. split_and!; try done. intros s. by rewrite filter_notin.
Qed.

(** ** Copies into fresh blocks *)

Lemma took_block st st' s a :
  mh_inv st' -> took st st' s a -> In a (mpool_used_list (get_pool st' s)).
Proof. intros _ [_ H]. rewrite H, decide_True by done. by left. Qed.

(** Bytes that fit the block a successful call returned can be written to it. *)
Lemma store_fits st s ptr bs :
  mh_inv st -> (1 <= s < MEM_POOLS_COUNT)%nat -> In (MEMHDR ptr) (blocks st s) -> zlen bs <= Z.shiftl 1 (Z.of_nat s) ->
  exists st', store st ptr bs = Some st'.
Proof.
  clear. intros Hinv Hs Hb Hlen. destruct (blk_data _ _ _ (inv_blk _ _ _ Hinv s _ Hs Hb)) as (d & Hd & Hl).
  unfold store. rewrite Hd. cbn [mbind option_bind]. rewrite memcpy_at_ok by lia. by eexists.
Qed.

(** The block was in nobody's hands before the call. *)
Lemma took_fresh st st' s a s' b :
  mh_inv st -> mh_inv st' -> keeps st st' -> (1 <= s < MEM_POOLS_COUNT)%nat -> took st st' s a ->
  In b (mpool_used_list (get_pool st s')) -> a <> b.
Proof.
  clear. intros Hinv Hinv' Hk Hs Ht Hb ->. pose proof (took_block _ _ _ _ Hinv' Ht) as Ha.
  destruct Ht as [Hn Ht]. destruct (used_blocks _ _ _ Hinv' Ha) as [_ Ha'].
  destruct (decide (s' = s)) as [->|Hne]; [done|]. apply Hne.
  apply (used_class st' s s' b Hinv' Hs Ha'). rewrite Ht. by rewrite decide_False.
Qed.

(** A successful [mh_malloc] followed by a copy of bytes that fit. *)
Lemma malloc_store st size f l st1 ptr bs :
  malloc_fresh -> mh_inv st -> mh_malloc st size f l = (st1, ptr) -> ptr <> 0 -> zlen bs <= size ->
  exists s st2 d, (3 <= s < MEM_POOLS_COUNT)%nat /\ size <= Z.shiftl 1 (Z.of_nat s) /\
    store st1 ptr bs = Some st2 /\ mh_inv st1 /\ mh_inv st2 /\ took st st2 s (MEMHDR ptr) /\ keeps st st1 /\
    data st2 !! MEMHDR ptr = Some (bs ++ d) /\ zlen (bs ++ d) = Z.shiftl 1 (Z.of_nat s) /\
    (forall s' b d, In b (mpool_used_list (get_pool st s')) -> data st !! b = Some d -> data st2 !! b = Some d) /\
    (forall a h, hdrs st !! a = Some h -> is_Some (hdrs st2 !! a)).
Proof.
  intros Hm Hinv E Hptr Hbs. pose proof (mh_malloc_inv st size f l Hm Hinv) as H. rewrite E in H.
  destruct H as (Hinv1 & Hk & [[? _]|(s & Hs & Hsz & Ht & _)]); [done|].
  pose proof (took_block _ _ _ _ Hinv1 Ht) as Hu. destruct (used_blocks _ _ _ Hinv1 Hu) as [Hs1 Hb].
  destruct (store_fits st1 s ptr bs Hinv1 Hs1 Hb ltac:(lia)) as [st2 E2].
  destruct (store_inv st1 ptr bs st2 Hinv1 E2) as (Hinv2 & Hsame & Hh & Hd & (d & Hd1 & Hd2)).
  exists s, st2, (drop (length bs) d). split; [done|]. split; [lia|]. split; [done|]. split; [done|]. split; [done|].
  split; [destruct Ht as [Ht1 Ht2]; split; [done|]; intros s'; by rewrite Hsame|]. split; [done|]. split; [done|].
  split.
  { assert (In (MEMHDR ptr) (blocks st2 s)) as Hb2 by (unfold blocks; rewrite in_app_iff; right; by rewrite Hsame).
    destruct (blk_data _ _ _ (inv_blk _ _ _ Hinv2 s (MEMHDR ptr) Hs1 Hb2)) as (d' & Hd' & Hl).
    rewrite Hd2 in Hd'. by injection Hd' as <-. }
  split.
  - intros s' b d' Hb' Hd'. rewrite Hd; [by apply Hk|].
    intros ->. by apply (took_fresh st st1 s (MEMHDR ptr) s' (MEMHDR ptr)).
  - intros a h Ha. destruct (proj1 Hk a h Ha) as (h' & Ha' & _). rewrite (Hh a h' Ha'). by eexists.
Qed.

(** ** mh_free_all *)

Lemma apart_addr r rs :
  region_ok r -> Forall region_ok rs -> Forall (apart r) rs -> Forall (fun q => fst q <> fst r) rs.
Proof.
  intros Hr Hrs Hap. rewrite List.Forall_forall in *. intros q Hq Heq.
  specialize (Hrs q Hq). specialize (Hap q Hq). destruct Hr as (_ & _ & s & Hs & Hi & Hsz).
  destruct Hrs as (_ & _ & s' & Hs' & Hi' & Hsz').
  pose proof (block_size_pos s). pose proof (block_size_pos s'). unfold apart, required_size, HDR in *. nia.
Qed.

Lemma filter_all {A} (P : A -> Prop) `{!forall x, Decision (P x)} l : Forall P l -> filter P l = l.
Proof. induction 1 as [|x l Hx Hl IH]; [done|]. rewrite filter_cons, decide_True by done. by f_equal. Qed.

Lemma free_supers_ok rs : forall st,
  regions st = rs -> Forall region_ok rs -> ForallOrdPairs apart rs ->
  (forall a h, hdrs st !! a = Some h -> exists r, In r rs /\ inside r a = true) ->
  (forall a, hdrs st !! a = None -> data st !! a = None) ->
  exists st', free_supers st (map fst rs) = Some st' /\ regions st' = [] /\ hdrs st' = ∅ /\ data st' = ∅.
Proof.
  clear. induction rs as [|r rs IH]; intros st Hr Hok Hap Hh Hd.
  - exists st. split_and!; try done; apply map_empty; intros a.
    + destruct (hdrs st !! a) as [h|] eqn:E; [|done]. by destruct (Hh a h E) as (? & [] & _).
    + apply Hd. destruct (hdrs st !! a) as [h|] eqn:E; [|done]. by destruct (Hh a h E) as (? & [] & _).
  - rewrite Forall_cons_iff in Hok. destruct Hok as [Hok1 Hok].
    assert (Forall (apart r) rs /\ ForallOrdPairs apart rs) as [Hap1 Hap2] by (by inversion Hap).
    pose proof (apart_addr r rs Hok1 Hok Hap1) as Haddr.
    cbn [map free_supers]. unfold libc_free. cbn [set_pool regions]. rewrite Hr. cbn [find]. rewrite Z.eqb_refl.
    cbn [mbind option_bind]. rewrite filter_cons, decide_False by (intros H; by apply H).
    rewrite (filter_all _ rs) by done. apply IH; cbn [regions hdrs data set_pool]; try done.
    + intros a h Ha. apply map_lookup_filter_Some in Ha as [Ha Hni]. cbn [fst] in Hni.
      destruct (Hh a h Ha) as (r' & [<-|Hr'] & Hi); [congruence|]. by exists r'.
    + intros a Ha. apply map_lookup_filter_None in Ha. apply map_lookup_filter_None.
      destruct Ha as [Ha|Ha]; [left; by apply Hd|].
      destruct (hdrs st !! a) as [h|] eqn:E; [|left; by apply Hd].
      right. intros d _ Hni. by apply (Ha h).
Qed.

(** The state of a program that has just called [mh_init_all], after [n] earlier calls of the
    C library. *)
Definition boot (n : nat) : mh := mh_init_all (mkmh [] ∅ ∅ [] [] n).

Lemma fresh_pools_inv st :
  hdrs st = ∅ -> data st = ∅ -> regions st = [] -> mh_inv (mh_init_all st).
Proof.
  clear. intros Hh Hd Hr.
  assert (forall s, get_pool (mh_init_all st) s = empty_pool) as Hp.
  { intros s. unfold get_pool, mh_init_all. cbn [pools].
    do 23 (destruct s as [|s]; [done|]). by rewrite nth_overflow by (cbn; lia). }
  split; cbn [mh_init_all pools hdrs data _mh_files regions]; rewrite ?Hh, ?Hd, ?Hr; try done.
  - intros s Hs. rewrite Hp. by destruct (decide (s = 0%nat)).
  - intros s a Hs. unfold blocks. by rewrite Hp.
  - intros s Hs. unfold blocks. rewrite Hp. constructor.
  - split; constructor.
Qed.

Lemma mh_free_all_inv st :
  mh_inv st -> exists st', mh_free_all st = Some st' /\ mh_inv st' /\ regions st' = [] /\ hdrs st' = ∅ /\ data st' = ∅.
Proof.
  clear. intros Hinv. unfold mh_free_all. rewrite (proj1 (inv_super _ _ _ Hinv)).
  destruct (inv_regions _ _ _ Hinv) as [Hr1 Hr2].
  destruct (free_supers_ok (regions st) st) as (st1 & -> & H1 & H2 & H3); try done.
  - intros a h Ha. apply (inv_hdr _ _ _ Hinv a h Ha).
  - apply (inv_data _ _ _ Hinv).
  - cbn [mbind option_bind]. eexists. split; [done|]. split; [by apply fresh_pools_inv|]. done.
Qed.

(** ** The calls a program makes *)

Inductive mh_step (st : mh) : mh -> Prop :=
| step_malloc size f l : mh_step st (fst (mh_malloc st size f l))
| step_strdup string f l st' ptr : mh_strdup st string f l = Some (st', ptr) -> mh_step st st'
| step_calloc nmemb size f l st' ptr : mh_calloc st nmemb size f l = Some (st', ptr) -> mh_step st st'
| step_realloc ptr size f l st' ptr' : mh_realloc st ptr size f l = Some (st', ptr') -> mh_step st st'
| step_free ptr st' : mh_free st ptr = Some st' -> mh_step st st'
| step_write ptr bs st' : store st ptr bs = Some st' -> mh_step st st'
| step_free_all st' : mh_free_all st = Some st' -> mh_step st st'.

Definition reachable (st : mh) : Prop := exists n, rtc mh_step (boot n) st.

Lemma free_step_inv st ptr st' : mh_inv st -> mh_free st ptr = Some st' -> mh_inv st'.
Proof.
  clear. intros Hinv E. pose proof E as E'. unfold mh_free in E'. destruct (Z.eqb_spec ptr 0); [congruence|].
  apply bind_Some in E' as (h & Hh & _).
  destruct (mh_free_inv st ptr h Hinv ltac:(done) Hh) as (st2 & E2 & ? & _). congruence.
Qed.

Lemma malloc_step_inv st size f l st1 ptr :
  malloc_fresh -> mh_inv st -> mh_malloc st size f l = (st1, ptr) -> mh_inv st1.
Proof. intros Hm Hinv E. pose proof (mh_malloc_inv st size f l Hm Hinv) as H. rewrite E in H. apply H. Qed.

Lemma copy_step_inv st ptr bs st' ptr' :
  mh_inv st ->
  (if negb (ptr =? 0) then st ← store st ptr bs; Some (st, ptr) else Some (st, ptr)) = Some (st', ptr') -> mh_inv st'.
Proof.
  clear. intros Hinv. destruct (negb (ptr =? 0)); intros E; inv_opt; [by eapply store_inv|done].
Qed.

Lemma realloc_step_inv st ptr size f l st' ptr' :
  malloc_fresh -> mh_inv st -> mh_realloc st ptr size f l = Some (st', ptr') -> mh_inv st'.
Proof.
  intros Hm Hinv. unfold mh_realloc. destruct (mh_malloc st size f l) as [st2 p] eqn:Em.
  pose proof (malloc_step_inv _ _ _ _ _ _ Hm Hinv Em) as Hinv2. clear Em.
  destruct (negb (ptr =? 0)).
  - intros E. apply bind_Some in E as (h & Hh & E). destruct (negb (MEMBLK_CHECK h)); [by inv_opt|].
    destruct (_ <? size); [|by inv_opt]. apply bind_Some in E as (st3 & E3 & E).
    apply bind_Some in E as (st4 & E4 & [= <- <-]). apply (free_step_inv st3 ptr); [|done].
    destruct (negb (p =? 0)); [|congruence]. apply bind_Some in E3 as (d & _ & E3). by eapply store_inv.
  - destruct (negb (size =? 0)); intros E; by inv_opt.
Qed.

Lemma strdup_step_inv st string f l st1 ptr :
  malloc_fresh -> mh_inv st -> mh_strdup st string f l = Some (st1, ptr) -> mh_inv st1.
Proof.
  intros Hm Hinv. unfold mh_strdup. destruct (mh_malloc st _ f l) as [st2 p] eqn:Em. intros E.
  eapply copy_step_inv; [by eapply malloc_step_inv|exact E].
Qed.

Lemma calloc_step_inv st nmemb size f l st1 ptr :
  malloc_fresh -> mh_inv st -> mh_calloc st nmemb size f l = Some (st1, ptr) -> mh_inv st1.
Proof.
  intros Hm Hinv. unfold mh_calloc. destruct (mh_malloc st _ f l) as [st2 p] eqn:Em. intros E.
  eapply copy_step_inv; [by eapply malloc_step_inv|exact E].
Qed.

Lemma free_all_step_inv st st' : mh_inv st -> mh_free_all st = Some st' -> mh_inv st'.
Proof. clear. intros Hinv E. destruct (mh_free_all_inv st Hinv) as (st2 & E2 & H & _). rewrite E in E2. by injection E2 as ->. Qed.

Lemma step_inv st st' : malloc_fresh -> mh_inv st -> mh_step st st' -> mh_inv st'.
Proof.
  intros Hm Hinv Hs. destruct Hs.
  - destruct (mh_malloc st size f l) as [st1 p] eqn:Em. by eapply malloc_step_inv.
  - by eapply strdup_step_inv.
  - by eapply calloc_step_inv.
  - by eapply realloc_step_inv.
  - by eapply free_step_inv.
  - by eapply store_inv.
  - by eapply free_all_step_inv.
Qed.

Lemma reachable_inv st : malloc_fresh -> reachable st -> mh_inv st.
Proof.
  intros Hm [n Hr]. assert (mh_inv (boot n)) as H0 by (by apply fresh_pools_inv).
  induction Hr as [|x y z Hxy _ IH]; [done|]. apply IH. by eapply step_inv.
Qed.

(** ** Properties *)

Lemma dump_turn_sum st i t f u :
  t = u32 (f + u) ->
  let '(t', f', u') := dump_turn st (t, f, u) i in t' = u32 (f' + u').
Proof.
  clear. intros ->. cbn [dump_turn]. unfold u32.
  rewrite Zmult_mod_idemp_r, !(Zplus_mod_idemp_r (_ * _)), <- !Zplus_mod, Zplus_mod_idemp_l. f_equal. lia.
Qed.

Lemma diagnose_ok i p : pool_ok i 0 p -> diagnose_pool i p = [].
Proof.
  intros [E1 E2 E3]. unfold diagnose_pool, count_list, increase in *. rewrite E1, E2, E3, !Z.eqb_refl.
  unfold u32. rewrite <- Zplus_mod, Z.add_0_r, Z.eqb_refl. done.
Qed.

Lemma dump_fold_sum st l : forall t f u,
  t = u32 (f + u) ->
  let '(t', f', u') := foldl (dump_turn st) (t, f, u) l in t' = u32 (f' + u').
Proof.
  clear. induction l as [|i l IH]; intros t f u H; [done|]. cbn [foldl].
  pose proof (dump_turn_sum st i t f u H) as Ht. destruct (dump_turn st (t, f, u) i) as [[t' f'] u']. by apply IH.
Qed.

Lemma mh_dump_sum st : let '(total, free, used) := mh_dump st in total = u32 (free + used).
Proof. by apply dump_fold_sum. Qed.

(** C35. The books of the allocator always balance: whatever calls a program makes (allocations that
    succeed or fail, double frees, reallocations, client writes inside blocks, [mh_free_all]),
    [mh_diagnostic] has nothing to report, and the totals of [mh_dump] add up. *)
Theorem mh_accounting st :
  malloc_fresh -> reachable st ->
  mh_diagnostic st = [] /\ (let '(total, free, used) := mh_dump st in total = u32 (free + used)).
Proof.
  intros Hm Hr. split; [|apply mh_dump_sum]. pose proof (reachable_inv st Hm Hr) as Hinv. unfold mh_diagnostic.
  apply concat_nil_Forall, List.Forall_forall. intros x Hx. apply in_map_iff in Hx as (i & <- & Hi).
  apply in_seq in Hi. apply diagnose_ok. pose proof (inv_pool _ _ _ Hinv i) as Hp.
  destruct (decide (i = 0%nat)); [lia|]. apply Hp. unfold MEM_POOLS_COUNT in *. lia.
Qed.

(** C36. The blocks in the hands of clients never overlap, headers included, and lie in the address
    space: for every two distinct blocks in use, of whatever classes, one ends before the other begins. *)
Theorem mh_exclusive st s s' a b :
  malloc_fresh -> reachable st ->
  In a (mpool_used_list (get_pool st s)) -> In b (mpool_used_list (get_pool st s')) -> a <> b ->
  0 < a /\ a + block_size s <= 2 ^ 32 /\ (a + block_size s <= b \/ b + block_size s' <= a).
Proof.
  intros Hm Hr Ha Hb Hne. pose proof (reachable_inv st Hm Hr) as Hinv.
  destruct (used_blocks _ _ _ Hinv Ha) as [Hs Ha']. destruct (used_blocks _ _ _ Hinv Hb) as [Hs' Hb'].
  destruct (blk_region _ _ _ (inv_blk _ _ _ Hinv s a Hs Ha')) as (p & Hp & Hpa).
  destruct (blk_region _ _ _ (inv_blk _ _ _ Hinv s' b Hs' Hb')) as (q & Hq & Hqb).
  destruct (inv_regions _ _ _ Hinv) as [Hok Hap]. rewrite List.Forall_forall in Hok.
  destruct (Hok _ Hp) as (P1 & P2 & _). cbn [fst snd] in P1, P2.
  pose proof (block_in_range _ _ _ Hpa) as Rp. pose proof (block_in_range _ _ _ Hqb) as Rq.
  pose proof (block_size_pos s). unfold HDR in *. split; [lia|]. split; [lia|].
  destruct (ForallOrdPairs_In Hap _ _ Hp Hq) as [E|[E|E]]; [|unfold apart in E; cbn [fst snd] in E; lia..].
  injection E as -> E. destruct Hpa as (k & Hk & ->), Hqb as (k' & Hk' & ->).
  assert (s = s') as -> by (apply required_size_inj; lia || done).
  destruct (Z.lt_trichotomy k k') as [?|[->|?]]; [left; nia|done|right; nia].
Qed.

(** [mh_malloc] returns NULL and hands nothing out, or a block that holds the
    requested size and was in no client's hands; in both cases every block in use
    keeps its contents.  A zero-size request, and one beyond 2 MB, is always refused. *)
Theorem mh_malloc_contract st size f l :
  malloc_fresh -> reachable st ->
  let '(st', ptr) := mh_malloc st size f l in
  answer st st' size ptr /\
  (forall s b d, In b (mpool_used_list (get_pool st s)) -> data st !! b = Some d -> data st' !! b = Some d) /\
  (size <= 0 \/ 2 ^ 21 < size -> ptr = 0).
Proof.
  intros Hm Hr. pose proof (mh_malloc_inv st size f l Hm (reachable_inv st Hm Hr)) as H.
  destruct (mh_malloc st size f l) as [st' ptr]. destruct H as (Hinv & Hk & Ha).
  split; [done|]. split; [intros s b d _ Hd; by apply Hk|].
  intros Hsz. destruct Ha as [[-> _]|(s & Hs & Hz & _)]; [done|]. exfalso.
  pose proof (class_check (fun s => Z.shiftl 1 (Z.of_nat s) <=? 2 ^ 21) ltac:(by vm_compute) s ltac:(lia)) as Hle.
  cbn beta in Hle. bprop. lia.
Qed.

Lemma released_out st st' a s : released st st' a -> ~ In a (mpool_used_list (get_pool st' s)).
Proof. clear. intros H. rewrite H, <- list_elem_of_In, list_elem_of_filter. tauto. Qed.

Lemma released_in st st' a b s :
  released st st' a -> a <> b -> In b (mpool_used_list (get_pool st s)) -> In b (mpool_used_list (get_pool st' s)).
Proof. clear. intros H Hne. rewrite H, <- !list_elem_of_In, list_elem_of_filter. auto. Qed.

(** The growing branch of [mh_realloc]. *)
Lemma realloc_grow st s ptr size f l d h :
  malloc_fresh -> mh_inv st -> ptr <> 0 -> In (MEMHDR ptr) (mpool_used_list (get_pool st s)) ->
  hdrs st !! MEMHDR ptr = Some h -> data st !! MEMHDR ptr = Some d -> zlen d < size ->
  exists st' ptr',
    (let '(st, new_ptr) := mh_malloc st size f l in
     st ← (if negb (new_ptr =? 0) then d ← data st !! MEMHDR ptr; store st new_ptr (take (length d) d) else Some st);
     st ← mh_free st ptr; Some (st, new_ptr)) = Some (st', ptr') /\
    (forall s', ~ In (MEMHDR ptr) (mpool_used_list (get_pool st' s'))) /\
    (ptr' <> 0 -> exists s' tl, size <= zlen (d ++ tl) /\ data st' !! MEMHDR ptr' = Some (d ++ tl) /\
                     In (MEMHDR ptr') (mpool_used_list (get_pool st' s'))).
Proof.
  intros Hm Hinv Hptr Hu Hh Hd Hlt. destruct (mh_malloc st size f l) as [st1 p] eqn:Em.
  destruct (Z.eqb_spec p 0) as [->|Hp]; cbn [negb].
  - pose proof (mh_malloc_inv st size f l Hm Hinv) as H. rewrite Em in H. destruct H as (Hinv1 & Hk & _).
    destruct (proj1 Hk _ _ Hh) as (h1 & Hh1 & _).
    destruct (mh_free_inv st1 ptr h1 Hinv1 Hptr Hh1) as (st' & E & _ & _ & _ & _ & Hrel).
    exists st', 0. cbn [mbind option_bind]. rewrite E. split_and!; try done.
    intros s'. by eapply released_out.
  - destruct (malloc_store st size f l st1 p d Hm Hinv Em Hp ltac:(lia)) as
      (s' & st2 & tl & Hs' & Hsz & Est & Hinv1 & Hinv2 & Ht & Hk & Hd2 & Hl2 & Hold & Hhd).
    assert (data st1 !! MEMHDR ptr = Some d) as Hd1 by (by apply Hk).
    rewrite Hd1. cbn [mbind option_bind]. rewrite take_ge, Est by done. cbn [mbind option_bind].
    destruct (Hhd _ _ Hh) as [h2 Hh2].
    destruct (mh_free_inv st2 ptr h2 Hinv2 Hptr Hh2) as (st' & E & _ & _ & Hdd & _ & Hrel).
    exists st', p. rewrite E. split; [done|]. split; [intros s0; by eapply released_out|].
    intros _. exists s', tl. rewrite Hdd. split; [lia|]. split; [done|].
    pose proof (took_block _ _ _ _ Hinv2 Ht) as Hin. eapply released_in; [done| |done].
    intros Heq. apply (proj1 Ht). pose proof (used_class st2 s' s (MEMHDR p) Hinv2 ltac:(lia)) as Hcl.
    destruct (used_blocks _ _ _ Hinv2 Hin) as [_ Hb2]. specialize (Hcl Hb2).
    destruct (decide (s = s')) as [<-|Hne]; [by rewrite <- Heq|]. exfalso. apply Hne, Hcl.
    rewrite (proj2 Ht), decide_False by done. by rewrite <- Heq.
Qed.

Lemma realloc_spec st s ptr size f l d :
  malloc_fresh -> mh_inv st -> ptr <> 0 ->
  In (MEMHDR ptr) (mpool_used_list (get_pool st s)) -> data st !! MEMHDR ptr = Some d ->
  exists st' ptr', mh_realloc st ptr size f l = Some (st', ptr') /\
    (size <= zlen d -> st' = st /\ ptr' = ptr) /\
    (zlen d < size -> forall s', ~ In (MEMHDR ptr) (mpool_used_list (get_pool st' s'))) /\
    (zlen d < size -> ptr' <> 0 ->
       exists s' tl, size <= zlen (d ++ tl) /\ data st' !! MEMHDR ptr' = Some (d ++ tl) /\
                     In (MEMHDR ptr') (mpool_used_list (get_pool st' s'))).
Proof.
  intros Hm Hinv Hptr Hu Hd.
  destruct (used_blocks _ _ _ Hinv Hu) as [Hs Hb]. pose proof (inv_blk _ _ _ Hinv s _ Hs Hb) as Hat.
  destruct (blk_hdr _ _ _ Hat) as (h & Hh & Hf). destruct (block_flags_check s h ltac:(lia) Hf) as [Hc Hsz].
  destruct (blk_data _ _ _ Hat) as (d' & Hd' & Hld). rewrite Hd in Hd'. injection Hd' as <-.
  unfold mh_realloc. rewrite (proj2 (Z.eqb_neq ptr 0) Hptr), Hh. cbn [negb mbind option_bind]. rewrite Hc, Hsz. cbn [negb].
  rewrite <- Hld. destruct (Z.ltb_spec (zlen d) size) as [Hlt|Hge].
  2: { exists st, ptr. split_and!; done || lia. }
  destruct (realloc_grow st s ptr size f l d h Hm Hinv Hptr Hu Hh Hd Hlt) as (st' & ptr' & E & H1 & H2).
  exists st', ptr'. split; [|split_and!; [lia|done|done]].
  rewrite <- E. destruct (mh_malloc st size f l) as [st1 p] eqn:Em. 
  assert (data st1 !! MEMHDR ptr = Some d) as Hd1.
  { pose proof (mh_malloc_inv st size f l Hm Hinv) as H. rewrite Em in H. by apply H. }
  rewrite Hd1. cbn [mbind option_bind]. by rewrite Nat2Z.id.
Qed.

(** [mh_realloc] of a block in use: a size that fits the class returns the same pointer and changes
    nothing; a larger one copies the whole old block to the front of a bigger block and frees the old
    one; when no bigger block can be had, NULL is returned and the old block has been freed all the same. *)
Theorem mh_realloc_contract st s ptr size f l d :
  malloc_fresh -> reachable st -> ptr <> 0 ->
  In (MEMHDR ptr) (mpool_used_list (get_pool st s)) -> data st !! MEMHDR ptr = Some d ->
  exists st' ptr', mh_realloc st ptr size f l = Some (st', ptr') /\
    (size <= zlen d -> st' = st /\ ptr' = ptr) /\
    (zlen d < size -> forall s', ~ In (MEMHDR ptr) (mpool_used_list (get_pool st' s'))) /\
    (zlen d < size -> ptr' <> 0 ->
       exists s' tl, size <= zlen (d ++ tl) /\ data st' !! MEMHDR ptr' = Some (d ++ tl) /\
                     In (MEMHDR ptr') (mpool_used_list (get_pool st' s'))).
Proof.
  intros Hm Hr. apply realloc_spec; [done|]. by apply reachable_inv.
Qed.

(** Freeing twice is harmless, and a freed block is the next one handed out: after [mh_free] of a
    block in use, a second [mh_free] of the same pointer changes nothing, and a request that needs the
    class of the block gets this very block back. *)
Theorem mh_free_reuse st s ptr size f l :
  malloc_fresh -> reachable st -> ptr <> 0 -> In (MEMHDR ptr) (mpool_used_list (get_pool st s)) ->
  (3 <= s)%nat -> 0 < size <= Z.shiftl 1 (Z.of_nat s) ->
  (forall i, (3 <= i < s)%nat -> Z.shiftl 1 (Z.of_nat i) < size) ->
  exists st', mh_free st ptr = Some st' /\ mh_free st' ptr = Some st' /\ snd (mh_malloc st' size f l) = ptr.
Proof.
  intros Hm Hr Hptr Hu Hs3 Hsz Hsmall. pose proof (reachable_inv st Hm Hr) as Hinv.
  destruct (used_blocks _ _ _ Hinv Hu) as [Hs Hb].
  destruct (blk_hdr _ _ _ (inv_blk _ _ _ Hinv s _ Hs Hb)) as (h & Hh & _).
  destruct (mh_free_eq st ptr h Hinv Hptr Hh) as [(s' & Hu' & E)|[Hno _]]; [|by destruct (Hno s)].
  pose proof (used_class st s s' _ Hinv Hs Hb Hu') as ->.
  destruct (give_back_inv st s _ Hinv Hu) as (Hinv' & Hrel & Hfl).
  exists (give_back st s (MEMHDR ptr)). split; [done|]. split.
  - destruct (mh_free_eq (give_back st s (MEMHDR ptr)) ptr h Hinv' Hptr Hh) as [(s2 & Hu2 & _)|[_ E2]]; [|done].
    by destruct (released_out _ _ _ s2 Hrel).
  - set (st' := give_back st s (MEMHDR ptr)) in *. unfold mh_malloc.
    assert (forall n i, (3 <= i <= s)%nat -> (s < i + n)%nat -> snd (malloc_loop n i st' size f l) = ptr) as Hloop.
    { induction n as [|n IH]; intros i Hi Hn; [lia|]. cbn [malloc_loop].
      rewrite (proj2 (Z.ltb_lt 0 size)) by lia. destruct (decide (i = s)) as [->|Hne].
      - rewrite (proj2 (Z.leb_le size _)) by lia. unfold memalloc. rewrite Hfl, Hfl. cbn [snd].
        unfold MEMPTR, MEMHDR, HDR. lia.
      - rewrite (proj2 (Z.leb_gt size _)) by (apply Hsmall; lia). apply IH; lia. }
    apply Hloop; unfold MEM_POOLS_COUNT in *; lia.
Qed.

(** [mh_free_all] gives every super block back to the C library, exactly once, and leaves the module as
    [mh_init_all] does: no live region, no block, balanced books. *)
Theorem mh_free_all_releases st :
  malloc_fresh -> reachable st ->
  exists st', mh_free_all st = Some st' /\ regions st' = [] /\ hdrs st' = ∅ /\ data st' = ∅ /\
    (forall s, blocks st' s = []) /\ mh_inv st'.
Proof.
  intros Hm Hr. pose proof (reachable_inv st Hm Hr) as Hinv.
  destruct (mh_free_all_inv st Hinv) as (st' & E & Hinv' & H1 & H2 & H3).
  exists st'. split_and!; try done. intros s. unfold mh_free_all in E. apply bind_Some in E as (st1 & _ & [= <-]).
  unfold blocks, get_pool, mh_init_all. cbn [pools].
  do 23 (destruct s as [|s]; [done|]). by rewrite nth_overflow by (cbn; lia).
Qed.

End Alloc.

(** ** Witnesses: an allocator that hands out the space after the live regions *)

Definition bump_top (live : list (Z * Z)) : Z := foldr (fun r m => Z.max m (fst r + snd r)) 4096 live.
Definition bump (n : nat) (live : list (Z * Z)) (size : Z) : option Z :=
  if (0 <=? size) && (bump_top live + size <=? 2 ^ 32) then Some (bump_top live) else None.

Lemma bump_top_ge live : 4096 <= bump_top live /\ forall r, In r live -> fst r + snd r <= bump_top live.
Proof.
  induction live as [|x live [IH1 IH2]]; [by split|]. cbn [bump_top foldr In]. fold (bump_top live).
  split; [lia|]. intros r [<-|Hr]; [lia|]. specialize (IH2 r Hr). lia.
Qed.

Lemma bump_fresh : malloc_fresh bump.
Proof.
  intros n live size p. unfold bump. destruct (_ && _) eqn:E; [|done]. intros [= <-]. bprop.
  destruct (bump_top_ge live) as [H1 H2]. split; [lia|]. split; [lia|].
  intros q sz Hq. specialize (H2 _ Hq). cbn [fst snd] in H2. by right.
Qed.

Definition zero_memory (n : nat) (a : Z) : Z := 0.
Definition always (n : nat) : bool := true.

(** A program that has allocated 10 and 100 bytes. *)
Definition one_block : mh := fst (mh_malloc bump zero_memory always (boot 0) 10 (cs "a.c") 1).
Definition two_blocks : mh := fst (mh_malloc bump zero_memory always one_block 100 (cs "b.c") 2).

Lemma two_blocks_reachable : reachable bump zero_memory always two_blocks.
Proof.
  exists 0%nat. apply (rtc_l _ _ one_block).
  - exact (step_malloc bump zero_memory always (boot 0) 10 (cs "a.c") 1).
  - apply rtc_once. exact (step_malloc bump zero_memory always one_block 100 (cs "b.c") 2).
Qed.

Lemma mh_accounting_witness :
  mh_diagnostic two_blocks = [] /\ (let '(total, free, used) := mh_dump two_blocks in total = u32 (free + used)).
Proof. exact (mh_accounting bump zero_memory always two_blocks bump_fresh two_blocks_reachable). Defined.

Lemma mh_exclusive_witness :
  0 < 4116 /\ 4116 + block_size 4 <= 2 ^ 32 /\ (4116 + block_size 4 <= 4424 \/ 4424 + block_size 7 <= 4116).
Proof.
  apply (mh_exclusive bump zero_memory always two_blocks 4 7 4116 4424 bump_fresh two_blocks_reachable);
    [by vm_compute; left|by vm_compute; left|done].
Defined.

Lemma mh_malloc_contract_witness :
  let '(st', ptr) := mh_malloc bump zero_memory always two_blocks 300 (cs "c.c") 3 in
  answer two_blocks st' 300 ptr /\
  (forall s b d, In b (mpool_used_list (get_pool two_blocks s)) -> data two_blocks !! b = Some d -> data st' !! b = Some d) /\
  (300 <= 0 \/ 2 ^ 21 < 300 -> ptr = 0).
Proof. exact (mh_malloc_contract bump zero_memory always two_blocks 300 (cs "c.c") 3 bump_fresh two_blocks_reachable). Defined.

Lemma mh_realloc_contract_witness :
  exists st' ptr', mh_realloc bump zero_memory always two_blocks 4136 50 (cs "c.c") 3 = Some (st', ptr') /\
    (50 <= zlen (replicate 16 0) -> st' = two_blocks /\ ptr' = 4136) /\
    (zlen (replicate 16 0) < 50 -> forall s', ~ In (MEMHDR 4136) (mpool_used_list (get_pool st' s'))) /\
    (zlen (replicate 16 0) < 50 -> ptr' <> 0 ->
       exists s' tl, 50 <= zlen (replicate 16 0 ++ tl) /\ data st' !! MEMHDR ptr' = Some (replicate 16 0 ++ tl) /\
                     In (MEMHDR ptr') (mpool_used_list (get_pool st' s'))).
Proof.
  apply (mh_realloc_contract bump zero_memory always two_blocks 4 4136 50 (cs "c.c") 3 (replicate 16 0) bump_fresh two_blocks_reachable);
    [done|by vm_compute; left|by vm_compute].
Defined.

Lemma mh_free_reuse_witness :
  exists st', mh_free two_blocks 4136 = Some st' /\ mh_free st' 4136 = Some st' /\
    snd (mh_malloc bump zero_memory always st' 9 (cs "c.c") 3) = 4136.
Proof.
  apply (mh_free_reuse bump zero_memory always two_blocks 4 4136 9 (cs "c.c") 3 bump_fresh two_blocks_reachable);
    [done|by vm_compute; left|lia|by vm_compute|].
  intros i Hi. replace i with 3%nat by lia. by vm_compute.
Defined.

Lemma mh_free_all_releases_witness :
  exists st', mh_free_all two_blocks = Some st' /\ regions st' = [] /\ hdrs st' = ∅ /\ data st' = ∅ /\
    (forall s, blocks st' s = []) /\ mh_inv st'.
Proof. exact (mh_free_all_releases bump zero_memory always two_blocks bump_fresh two_blocks_reachable). Defined.

(** ** Behaviours worth knowing *)

(** The product of [mh_calloc] wraps: a request for 16 elements of 2^28 + 1 bytes is served with 16 bytes. *)
Example mh_calloc_wraps :
  match mh_calloc bump zero_memory always (boot 0) 16 268435457 (cs "a.c") 1 with
  | Some (st', ptr) => ptr <> 0 /\ mpool_used_list (get_pool st' 4) = [MEMHDR ptr]
  | None => False
  end.
Proof. vm_compute. split; [done|reflexivity]. Qed.

(** The header records index 512 once the table of file names is full, and [mh_dump_used] then
    reads past the end of the table. *)
Definition full_files : mh :=
  mkmh (replicate MEM_POOLS_COUNT empty_pool) ∅ ∅ (map (fun i => Some [Z.of_nat i]) (seq 1 MAX_TRACKING_FILES)) [] 0.

Example mh_dump_used_overrun :
  mh_dump_used (fst (mh_malloc bump zero_memory always full_files 10 (cs "z.c") 1)) = None.
Proof. by vm_compute. Qed.

End MemHelper.
