(* ===== verification/Xstream.v ===== *)
(** * comlib/xstream.c: character streams over files, descriptors and buffers, with push-back.

    An open stream is related to the list of characters it still has to deliver. *)
From Stdlib Require Import ZArith Lia Bool String.
From stdpp Require Import base tactics list option numbers.
From S2P Require Import Prelude.

Module Xstream.

Definition MAX_XS_UNDO : nat := 512.
Definition EOF : Z := -1.

(** The union [fd], by [type].  A [FILE] of the C library is the list of the bytes it has left. *)
Inductive source :=
| XSTYPE_UNKNOWN
| XSTYPE_FILE (file : list Z)
| XSTYPE_BUFFER (start : list Z) (curr size : Z)
| XSTYPE_FDOPEN (file : list Z) (bytesleft : Z).

Record xstream := mkxs { fd : source; undo : list Z; udsize : Z }.

(** [fgetc]: the next byte, or EOF. *)
Definition fgetc (file : list Z) : list Z * Z :=
  match file with [] => ([], EOF) | b :: tl => (tl, b) end.

(** [memset(xs, 0, sizeof(struct xstream))] and the fields of each kind.  [alloc] tells whether
    [xmalloc] succeeds, [file] is [None] when the C library cannot open the file. *)
Definition zero_undo : list Z := replicate MAX_XS_UNDO 0.

Definition xs_fopen (alloc : bool) (file : option (list Z)) : option xstream :=
  match file with
  | Some f => if alloc then Some (mkxs (XSTYPE_FILE f) zero_undo 0) else None
  | None => None
  end.

Definition xs_fdopen (alloc : bool) (file : option (list Z)) (max : Z) : option xstream :=
  if alloc then
    match file with
    | Some f => Some (mkxs (XSTYPE_FDOPEN f max) zero_undo 0)
    | None => None
    end
  else None.

(** [buff] is the memory at the pointer, [None] for NULL. *)
Definition xs_bopen (alloc : bool) (buff : option (list Z)) (size : Z) : option xstream :=
  match buff with
  | Some b =>
      if negb (size =? 0) then if alloc then Some (mkxs (XSTYPE_BUFFER b 0 size) zero_undo 0) else None
      else None
  | None => None
  end.

(** [xs_close]: the [FILE] that is closed, if any, and the result; the stream is freed. *)
Definition xs_close (xs : option xstream) : option (list Z) * Z :=
  match xs with
  | None => (None, -1)
  | Some xs =>
      match fd xs with
      | XSTYPE_FILE file | XSTYPE_FDOPEN file _ => (Some file, 0)
      | XSTYPE_BUFFER _ _ _ | XSTYPE_UNKNOWN => (None, 0)
      end
  end.

(** The new state and the character; the outer [None] is a read outside of the buffer. *)
Definition xs_getc (xs : xstream) : option (xstream * Z) :=
  if 0 <? udsize xs then
    let udsize := udsize xs - 1 in
    c ← rd (undo xs) udsize;
    Some (mkxs (fd xs) (undo xs) udsize, c)
  else
    match fd xs with
    | XSTYPE_FILE file =>
        let '(file, c) := fgetc file in Some (mkxs (XSTYPE_FILE file) (undo xs) (udsize xs), c)
    | XSTYPE_FDOPEN file bytesleft =>
        if 0 <? bytesleft then
          let '(file, c) := fgetc file in
          Some (mkxs (XSTYPE_FDOPEN file (if c =? EOF then 0 else bytesleft - 1)) (undo xs) (udsize xs), c)
        else Some (xs, EOF)
    | XSTYPE_BUFFER start curr size =>
        if curr <? size then
          c ← rd start curr; Some (mkxs (XSTYPE_BUFFER start (curr + 1) size) (undo xs) (udsize xs), c)
        else Some (xs, EOF)
    | XSTYPE_UNKNOWN => Some (xs, EOF)
    end.

Definition xs_ungetc (c : Z) (xs : xstream) : option (xstream * Z) :=
  if c =? EOF then Some (xs, EOF)
  else if udsize xs <? Z.of_nat MAX_XS_UNDO then
    undo' ← wr (undo xs) (udsize xs) (u8 c);
    Some (mkxs (fd xs) undo' (udsize xs + 1), c)
  else Some (xs, EOF).

(** The loop of [xs_ungets] over the characters from the last to the first; [c] is a signed [char]. *)
Fixpoint ungets_loop (rs : list Z) (xs : xstream) : option (xstream * Z) :=
  match rs with
  | [] => Some (xs, 0)
  | b :: tl =>
      r ← xs_ungetc (schar b) xs;
      let '(xs, c) := r in
      if c =? EOF then Some (xs, EOF) else ungets_loop tl xs
  end.

Definition xs_ungets (s : option (list Z)) (xs : xstream) : option (xstream * Z) :=
  match s with None => Some (xs, 0) | Some s => ungets_loop (rev s) xs end.

(** ** What a stream still has to deliver *)

Definition left_in (s : source) : list Z :=
  match s with
  | XSTYPE_UNKNOWN => []
  | XSTYPE_FILE file => file
  | XSTYPE_BUFFER start curr size => take (Z.to_nat (size - curr)) (drop (Z.to_nat curr) start)
  | XSTYPE_FDOPEN file bytesleft => take (Z.to_nat bytesleft) file
  end.

Definition pushed (xs : xstream) : list Z := rev (take (Z.to_nat (udsize xs)) (undo xs)).

Definition pending (xs : xstream) : list Z := pushed xs ++ left_in (fd xs).

Definition source_ok (s : source) : Prop :=
  match s with
  | XSTYPE_BUFFER start curr size => 0 <= curr <= size /\ size <= zlen start
  | _ => True
  end.

Record stream_ok (xs : xstream) : Prop := {
  ok_source : source_ok (fd xs);
  ok_undo : length (undo xs) = MAX_XS_UNDO;
  ok_size : 0 <= udsize xs <= Z.of_nat MAX_XS_UNDO;
  ok_bytes : bytes (pending xs)
}.

Lemma getc_pushed xs :
  length (undo xs) = MAX_XS_UNDO -> 0 < udsize xs <= Z.of_nat MAX_XS_UNDO ->
  exists c, rd (undo xs) (udsize xs - 1) = Some c /\
    pushed xs = c :: pushed (mkxs (fd xs) (undo xs) (udsize xs - 1)).
Proof.
  intros Hl Hs. unfold rd, pushed. cbn [udsize undo]. rewrite (proj2 (Z.leb_le _ _)) by lia.
  replace (Z.to_nat (udsize xs)) with (S (Z.to_nat (udsize xs - 1))) by lia.
  set (i := Z.to_nat (udsize xs - 1)).
  destruct (lookup_lt_is_Some_2 (undo xs) i) as [c Hc]; [unfold i; lia|].
  exists c. split; [done|]. by rewrite (take_S_r _ _ c), rev_app_distr by done.
Qed.

(** [xs_getc] delivers the pending characters in order, and EOF, again and again, after the last. *)
Lemma xs_getc_spec xs :
  stream_ok xs ->
  exists xs', stream_ok xs' /\
    match pending xs with
    | c :: tl => xs_getc xs = Some (xs', c) /\ pending xs' = tl
    | [] => xs_getc xs = Some (xs', EOF) /\ pending xs' = []
    end.
Proof.
  intros [Hsrc Hl Hs Hb]. unfold xs_getc. destruct (Z.ltb_spec 0 (udsize xs)) as [Hlt|Hge].
  - destruct (getc_pushed xs Hl ltac:(lia)) as (c & Hc & Hp). rewrite Hc. cbn [mbind option_bind].
    exists (mkxs (fd xs) (undo xs) (udsize xs - 1)). unfold pending in *. rewrite Hp in *. cbn [app] in *.
    split; [|done]. split; cbn [fd undo udsize]; try done; [lia|].
    rewrite Forall_cons_iff in Hb. apply Hb.
  - assert (udsize xs = 0) as H0 by lia.
    assert (forall s, pending (mkxs s (undo xs) (udsize xs)) = left_in s) as Hpend.
    { intros s. unfold pending, pushed. cbn [udsize undo fd]. by rewrite H0. }
    assert (pending xs = left_in (fd xs)) as Hp by (rewrite <- Hpend; by destruct xs).
    rewrite Hp in *. destruct (fd xs) as [|file|start curr size|file n] eqn:Efd; cbn [left_in] in *.
    + exists xs. split; [by split; rewrite ?Efd, ?Hp|]. done.
    + destruct file as [|b tl]; cbn [fgetc]; eexists; (split; [|split; [done|apply Hpend]]);
        split; cbn [fd undo udsize]; try done; rewrite Hpend; cbn [left_in]; [done|].
      rewrite Forall_cons_iff in Hb. apply Hb.
    + cbn in Hsrc. destruct (Z.ltb_spec curr size) as [Hcs|Hcs].
      * assert (Z.to_nat curr < length start)%nat as Hlt by lia.
        destruct (lookup_lt_is_Some_2 start (Z.to_nat curr) Hlt) as [c Hc].
        assert (take (Z.to_nat (size - curr)) (drop (Z.to_nat curr) start)
          = c :: take (Z.to_nat (size - (curr + 1))) (drop (Z.to_nat (curr + 1)) start)) as Heq.
        { rewrite (drop_S _ c) by done. replace (Z.to_nat (size - curr)) with (S (Z.to_nat (size - (curr + 1)))) by lia.
          cbn [take]. do 3 f_equal. lia. }
        rewrite Heq in *. unfold rd. rewrite (proj2 (Z.leb_le 0 curr)), Hc by lia. cbn [mbind option_bind].
        eexists. split; [|split; [done|apply Hpend]].
        split; cbn [fd undo udsize]; try done; [cbn; lia|]. rewrite Hpend. cbn [left_in].
        rewrite Forall_cons_iff in Hb. apply Hb.
      * replace (Z.to_nat (size - curr)) with 0%nat in * by lia. cbn [take] in *.
        exists xs. split; [by split; rewrite ?Efd, ?Hp|]. split; [done|]. by rewrite Hp.
    + destruct (Z.ltb_spec 0 n) as [Hn|Hn].
      * replace (Z.to_nat n) with (S (Z.to_nat (n - 1))) in * by lia.
        destruct file as [|b tl]; cbn [fgetc take] in *.
        -- eexists. split; [|split; [done|apply Hpend]]. split; cbn [fd undo udsize]; try done. rewrite Hpend. done.
        -- rewrite Forall_cons_iff in Hb. destruct Hb as [Hb1 Hb2].
           assert ((b =? EOF) = false) as -> by (apply Z.eqb_neq; unfold EOF, is_byte in *; lia).
           eexists. split; [|split; [done|apply Hpend]]. split; cbn [fd undo udsize]; try done. by rewrite Hpend.
      * replace (Z.to_nat n) with 0%nat in * by lia. cbn [take] in *.
        exists xs. split; [by split; rewrite ?Efd, ?Hp|]. split; [done|]. by rewrite Hp.
Qed.

(** [xs_ungetc] puts a character in front, if there is room for it. *)
Lemma xs_ungetc_spec c xs :
  stream_ok xs -> c <> EOF -> udsize xs < Z.of_nat MAX_XS_UNDO ->
  exists xs', xs_ungetc c xs = Some (xs', c) /\ stream_ok xs' /\ pending xs' = u8 c :: pending xs /\
    udsize xs' = udsize xs + 1.
Proof.
  intros [Hsrc Hl Hs Hb] Hc Hroom. unfold xs_ungetc.
  rewrite (proj2 (Z.eqb_neq c EOF) Hc), (proj2 (Z.ltb_lt _ _) Hroom).
  unfold wr. rewrite (proj2 (Z.leb_le _ _)), (proj2 (Z.ltb_lt _ _)) by lia. cbn [andb mbind option_bind].
  eexists. split; [done|].
  assert (pending (mkxs (fd xs) (<[Z.to_nat (udsize xs) := u8 c]> (undo xs)) (udsize xs + 1)) = u8 c :: pending xs) as Hp.
  { unfold pending, pushed. cbn [fd undo udsize].
    replace (Z.to_nat (udsize xs + 1)) with (S (Z.to_nat (udsize xs))) by lia.
    rewrite (take_S_r _ _ (u8 c)) by (apply list_lookup_insert_eq; lia).
    rewrite rev_app_distr. cbn [rev app]. by rewrite take_insert_ge by lia. }
  split; [|done]. split; cbn [fd undo udsize]; try done; [by rewrite length_insert|lia|].
  rewrite Hp. constructor; [apply u8_byte|done].
Qed.

Lemma schar_u8 b : is_byte b -> u8 (schar b) = b.
Proof.
  unfold is_byte, schar, u8. intros H. destruct (Z.ltb_spec b 128); [by rewrite Z.mod_small by lia|].
  rewrite <- (Z.mod_add _ 1) by lia. rewrite Z.mod_small; lia.
Qed.

Lemma schar_EOF b : is_byte b -> b <> 255 -> schar b <> EOF.
Proof. unfold is_byte, schar, EOF. destruct (Z.ltb_spec b 128); lia. Qed.

Lemma ungets_loop_spec rs : forall xs,
  stream_ok xs -> Forall (fun b => is_char b /\ b <> 255) rs -> udsize xs + zlen rs <= Z.of_nat MAX_XS_UNDO ->
  exists xs', ungets_loop rs xs = Some (xs', 0) /\ stream_ok xs' /\ pending xs' = rev rs ++ pending xs.
Proof.
  induction rs as [|b rs IH]; intros xs Hok Hrs Hroom; [by exists xs|].
  rewrite Forall_cons_iff in Hrs. destruct Hrs as [[Hb Hff] Hrs]. cbn [length] in Hroom.
  assert (is_byte b) as Hby by (unfold is_char, is_byte in *; lia).
  destruct (xs_ungetc_spec (schar b) xs Hok) as (xs1 & E & Hok1 & Hp1 & Hu1); [by apply schar_EOF|lia|].
  cbn [ungets_loop]. rewrite E. cbn [mbind option_bind].
  rewrite (proj2 (Z.eqb_neq _ EOF)) by (by apply schar_EOF).
  destruct (IH xs1 Hok1 Hrs) as (xs' & -> & Hok' & Hp'); [lia|].
  exists xs'. split; [done|]. split; [done|]. rewrite Hp', Hp1, schar_u8 by done. cbn [rev]. by rewrite <- app_assoc.
Qed.

(** Reading [n] characters one after the other. *)
Fixpoint getcs (n : nat) (xs : xstream) : option (xstream * list Z) :=
  match n with
  | O => Some (xs, [])
  | S n' => r ← xs_getc xs; q ← getcs n' (fst r); Some (fst q, snd r :: snd q)
  end.

Lemma getcs_spec n : forall xs,
  stream_ok xs ->
  exists xs', getcs n xs = Some (xs', take n (pending xs ++ replicate n EOF)) /\ stream_ok xs' /\
    pending xs' = drop n (pending xs).
Proof.
  induction n as [|n IH]; intros xs Hok; [by exists xs|]. cbn [getcs].
  destruct (xs_getc_spec xs Hok) as (xs1 & Hok1 & H1). destruct (pending xs) as [|c tl] eqn:Ep; destruct H1 as [-> Hp1];
    cbn [mbind option_bind fst snd]; destruct (IH xs1 Hok1) as (xs' & -> & Hok' & Hp'); exists xs';
    cbn [mbind option_bind fst snd]; rewrite Hp', Hp1; (split; [|split; [done|by rewrite ?drop_nil]]).
  - cbn [app replicate take]. done.
  - cbn [app take]. do 3 f_equal. rewrite (replicate_S_end n), app_assoc. rewrite (take_app_le _ [EOF]); [done|].
    rewrite length_app, length_replicate. lia.
Qed.

(** ** Properties *)

Lemma opened_ok alloc f xs :
  bytes f -> xs_fopen alloc (Some f) = Some xs -> stream_ok xs /\ pending xs = f.
Proof. intros Hf. unfold xs_fopen. destruct alloc; [|done]. intros [= <-]. by split. Qed.

(** C38. A stream opened on a file delivers the bytes of the file in order and then EOF for ever; on a
    descriptor with a limit, its first [max] bytes; on a buffer, its first [size] bytes, without
    reading outside of it. *)
Theorem xs_delivers content n max size :
  bytes content -> 0 <= max -> 0 < size <= zlen content ->
  (exists xs xs', xs_fopen true (Some content) = Some xs /\
     getcs n xs = Some (xs', take n (content ++ replicate n EOF))) /\
  (exists xs xs', xs_fdopen true (Some content) max = Some xs /\
     getcs n xs = Some (xs', take n (take (Z.to_nat max) content ++ replicate n EOF))) /\
  (exists xs xs', xs_bopen true (Some content) size = Some xs /\
     getcs n xs = Some (xs', take n (take (Z.to_nat size) content ++ replicate n EOF))).
Proof.
  intros Hb Hmax Hsize. split_and!.
  - destruct (getcs_spec n (mkxs (XSTYPE_FILE content) zero_undo 0)) as (xs' & E & _); [by split|]. eauto.
  - destruct (getcs_spec n (mkxs (XSTYPE_FDOPEN content max) zero_undo 0)) as (xs' & E & _).
    { split; try done. by apply Forall_take. }
    exists (mkxs (XSTYPE_FDOPEN content max) zero_undo 0), xs'. split; [done|]. exact E.
  - assert (pending (mkxs (XSTYPE_BUFFER content 0 size) zero_undo 0) = take (Z.to_nat size) content) as Hp.
    { unfold pending, pushed. cbn [fd udsize undo left_in]. by rewrite Z.sub_0_r, drop_0. }
    destruct (getcs_spec n (mkxs (XSTYPE_BUFFER content 0 size) zero_undo 0)) as (xs' & E & _).
    { split; try done; [cbn; lia|]. rewrite Hp. by apply Forall_take. }
    rewrite Hp in E. exists (mkxs (XSTYPE_BUFFER content 0 size) zero_undo 0), xs'. split; [|exact E].
    unfold xs_bopen. by rewrite (proj2 (Z.eqb_neq size 0)) by lia.
Qed.

Lemma xs_delivers_witness :
  (exists xs xs', xs_fopen true (Some (cs "ab")) = Some xs /\
     getcs 3 xs = Some (xs', take 3 (cs "ab" ++ replicate 3 EOF))) /\
  (exists xs xs', xs_fdopen true (Some (cs "ab")) 1 = Some xs /\
     getcs 3 xs = Some (xs', take 3 (take (Z.to_nat 1) (cs "ab") ++ replicate 3 EOF))) /\
  (exists xs xs', xs_bopen true (Some (cs "ab")) 2 = Some xs /\
     getcs 3 xs = Some (xs', take 3 (take (Z.to_nat 2) (cs "ab") ++ replicate 3 EOF))).
Proof. apply (xs_delivers (cs "ab") 3 1 2); [repeat constructor; vm_compute; discriminate|lia|cbn; lia]. Defined.

(** Characters pushed back are read again, in order, before the rest: after [xs_ungets] of a string
    that fits the undo buffer, reading its length delivers the string and leaves the stream with the
    characters it had, whatever kind it is. *)
Theorem xs_ungets_roundtrip s xs :
  stream_ok xs -> Forall (fun b => is_char b /\ b <> 255) s -> udsize xs + zlen s <= Z.of_nat MAX_XS_UNDO ->
  exists xs' xs'', xs_ungets (Some s) xs = Some (xs', 0) /\ getcs (length s) xs' = Some (xs'', s) /\
    pending xs'' = pending xs.
Proof.
  intros Hok Hs Hroom. unfold xs_ungets.
  destruct (ungets_loop_spec (rev s) xs Hok) as (xs' & E & Hok' & Hp'); [by apply Forall_rev|by rewrite length_rev|].
  rewrite rev_involutive in Hp'. destruct (getcs_spec (length s) xs' Hok') as (xs'' & E' & _ & Hp'').
  exists xs', xs''. split; [done|]. rewrite E', Hp'', Hp'. rewrite <- app_assoc.
  by rewrite take_app_length, drop_app_length.
Qed.

Lemma xs_ungets_roundtrip_witness :
  exists xs' xs'', xs_ungets (Some (cs "hi")) (mkxs (XSTYPE_FILE (cs "!")) zero_undo 0) = Some (xs', 0) /\
    getcs 2 xs' = Some (xs'', cs "hi") /\ pending xs'' = cs "!".
Proof.
  apply (xs_ungets_roundtrip (cs "hi") (mkxs (XSTYPE_FILE (cs "!")) zero_undo 0)).
  - split; try done. repeat constructor; vm_compute; discriminate.
  - repeat constructor; vm_compute; discriminate.
  - by vm_compute.
Defined.

(** A full undo buffer refuses the character and keeps the stream as it is. *)
Lemma xs_ungetc_full c xs :
  udsize xs = Z.of_nat MAX_XS_UNDO -> xs_ungetc c xs = Some (xs, EOF).
Proof. intros H. unfold xs_ungetc. rewrite H, Z.ltb_irrefl. by destruct (c =? EOF). Qed.

(** A character 0xFF in the string reads as EOF through the signed [char], and stops [xs_ungets]
    after the characters behind it. *)
Example xs_ungets_ff :
  match xs_ungets (Some [97; 255; 98]) (mkxs XSTYPE_UNKNOWN zero_undo 0) with
  | Some (xs', r) => r = EOF /\ pending xs' = [98]
  | None => False
  end.
Proof. by vm_compute. Qed.

End Xstream.
