(* ===== verification/Strobj.v ===== *)
(** * comlib/strobj.c and include/strobj.h: growing string objects.

    An object owns a buffer got from the allocator of [MemHelper], or none yet.  Operations
    run in a monad that counts the calls of the allocator, whose answers are a parameter, and
    whose failure is undefined behaviour (a store through NULL or outside of the buffer).  The
    objects themselves are values, so the tests of the code for a NULL object have no
    counterpart. *)
From Stdlib Require Import ZArith Lia Bool String.
From stdpp Require Import base tactics list option numbers.
From S2P Require Import Prelude MemHelper Xstream.

Import Xstream.

Module Strobj.

(** ** The allocator seen from here *)

(** [grow n b size]: what the [n]-th call of xmalloc ([b] empty) or xrealloc ([b] the old block)
    of [size] bytes returns, [None] for NULL. *)
Class Grower := {
  grow : nat -> list Z -> Z -> option (list Z);
  grow_ok : forall n b size b', zlen b <= size -> grow n b size = Some b' ->
    zlen b' = size /\ take (length b) b' = b
}.

(** ** The monad *)

Definition M (A : Type) : Type := nat -> option (A * nat).

#[global] Instance M_ret : MRet M := fun A x n => Some (x, n).
#[global] Instance M_bind : MBind M := fun A B k m n =>
  match m n with Some (x, n') => k x n' | None => None end.

Definition lift {A} (o : option A) : M A := fun n => match o with Some x => Some (x, n) | None => None end.

Lemma bind_run {A B} (m : M A) (k : A -> M B) n x n' :
  m n = Some (x, n') -> (x ← m; k x) n = k x n'.
Proof. intros E. unfold mbind, M_bind. by rewrite E. Qed.

Lemma lift_run {A} (o : option A) n x : o = Some x -> lift o n = Some (x, n).
Proof. by intros ->. Qed.

Definition STROBJ_STEP_SIZE : Z := 32.
Definition SO_FLAG_QUOT_STRING : Z := 1.

Record strobj := mkso { flags : Z; total : Z; size : Z; buff : option (list Z) }.

(** A C string in memory: the bytes before the first NUL; [None] when there is none in the block. *)
Fixpoint c_string (b : list Z) : option (list Z) :=
  match b with
  | [] => None
  | x :: tl => if x =? 0 then Some [] else s ← c_string tl; Some (x :: s)
  end.

(** ** Characters and strings of strobj.h *)

Definition sobj_iswhite (c : Z) : bool := (c =? 32) || (c =? 9) || (c =? 10) || (c =? 13).
Definition sobj_isindent (c : Z) : bool := (c =? 9) || (c =? 10) || (c =? 13).

Definition sobj_eatwhite (s : list Z) : list Z := eat sobj_iswhite s.
Definition sobj_eatindent (s : list Z) : list Z := eat sobj_isindent s.

(** The trailing characters are overwritten with NULs from the end of the string. *)
Definition sobj_reatwhite (s : list Z) : list Z := rev (eat sobj_iswhite (rev s)).
Definition sobj_reatindent (s : list Z) : list Z := rev (eat sobj_isindent (rev s)).

(** [strncmp] and its variants, as the sign of the result. *)
Definition strncmp (a b : list Z) (n : Z) : Z := strcmp (take (Z.to_nat n) a) (take (Z.to_nat n) b).
Definition strncasecmp (a b : list Z) (n : Z) : Z := strcasecmp (take (Z.to_nat n) a) (take (Z.to_nat n) b).

Definition isxdigit (c : Z) : bool := isdigit c || ((65 <=? c) && (c <=? 70)) || ((97 <=? c) && (c <=? 102)).
Definition isalnum (c : Z) : bool := isdigit c || ((65 <=? c) && (c <=? 90)) || ((97 <=? c) && (c <=? 122)).

(** [find_pattern]: the character itself when it occurs in [str], else 0. *)
Fixpoint find_pattern (c : Z) (str : list Z) : Z :=
  match str with
  | [] => 0
  | x :: tl => if x =? c then schar x else find_pattern c tl
  end.

Section Objects.
Context `{Grower}.

Definition xrealloc (b : list Z) (size : Z) : M (option (list Z)) := fun n => Some (grow n b size, S n).
Definition xmalloc (size : Z) : M (option (list Z)) := xrealloc [] size.

(** ** Construction *)

Definition empty_sobj : strobj := mkso 0 0 0 None.

(** [xmalloc(sizeof(struct strobj))]: the object, or [None] for NULL. *)
Definition sobj_new : M (option strobj) :=
  r ← xmalloc 24;
  mret (match r with Some _ => Some empty_sobj | None => None end).

Definition sobj_inc_space (o : strobj) : M (strobj * Z) :=
  match buff o with
  | Some b =>
      let total := u32 (total o + STROBJ_STEP_SIZE) in
      b' ← xrealloc b (u32 (total + 1));
      mret (mkso (flags o) total (size o) b', match b' with Some _ => 0 | None => -1 end)
  | None =>
      let total := STROBJ_STEP_SIZE in
      b' ← xmalloc (u32 (total + 1));
      mret (mkso (flags o) total (size o) b', match b' with Some _ => 0 | None => -1 end)
  end.

(** [sobj->buff[i] = c] *)
Definition set_char (o : strobj) (i c : Z) : option strobj :=
  b ← buff o; b' ← wr b i (u8 c); Some (mkso (flags o) (total o) (size o) (Some b')).

Definition set_size (o : strobj) (n : Z) : strobj := mkso (flags o) (total o) n (buff o).

Definition sobj_add_char (o : strobj) (c : Z) : M (strobj * Z) :=
  r ← (if u32 (total o - size o) <? 1 then sobj_inc_space o else mret (o, 0));
  let '(o, err) := r in
  if err <? 0 then mret (o, -1)
  else
    o ← lift (set_char o (size o) c);
    let o := set_size o (u32 (size o + 1)) in
    o ← lift (set_char o (size o) 0);
    mret (o, 0).

(** The loop that makes room for [i] characters. *)
Fixpoint inc_loop (fuel : nat) (o : strobj) (i : Z) : M (strobj * Z) :=
  if u32 (total o - size o) <? i then
    match fuel with
    | O => lift None
    | S fuel' =>
        r ← sobj_inc_space o;
        let '(o, err) := r in
        if err <? 0 then mret (o, -1) else inc_loop fuel' o i
    end
  else mret (o, 0).

Definition sobj_add_string (o : strobj) (string : option (list Z)) : M (strobj * Z) :=
  match string with
  | None => mret (o, 0)
  | Some s =>
      let i := u32 (zlen s) in
      if i =? 0 then mret (o, 0)
      else
        r ← inc_loop (length s) o i;
        let '(o, err) := r in
        if err <? 0 then mret (o, -1)
        else
          b ← lift (buff o);
          b' ← lift (memcpy_at b (Z.to_nat (size o)) (S (length s)) (s ++ [0]));
          mret (mkso (flags o) (total o) (u32 (size o + i)) (Some b'), 0)
  end.

(** The buffer is given back to the allocator. *)
Definition sobj_free (o : strobj) : strobj := mkso 0 0 0 None.

(** [text]: what the format expands to; [vsnprintf] keeps 1023 characters of it.  [None]: the
    format is NULL. *)
Definition sobj_add_format (o : strobj) (text : option (list Z)) : M (strobj * Z) :=
  match text with
  | None => mret (o, 0)
  | Some t => r ← sobj_add_string o (Some (take 1023 t)); mret (fst r, 0)
  end.

Definition sobj_format (o : strobj) (text : option (list Z)) : M (strobj * Z) :=
  sobj_add_format (sobj_free o) text.

(** ** Access *)

Definition sobj_get_string (o : strobj) : option (list Z) :=
  match buff o with Some b => c_string b | None => Some [] end.

(** The duplicate, or [None] for NULL. *)
Definition sobj_strdup (o : strobj) : M (option (list Z)) :=
  s ← lift (sobj_get_string o);
  r ← xmalloc (u32 (zlen s + 1));
  mret (match r with Some _ => Some s | None => None end).

Definition sobj_get_flags (o : strobj) : Z := flags o.
Definition sobj_get_length (o : strobj) : Z := size o.
Definition sobj_empty (o : strobj) : Z := if sobj_get_length o =? 0 then 1 else 0.

Definition sobj_get_char (o : strobj) (i : Z) : option Z :=
  match buff o with
  | None => Some 0
  | Some b => if size o <? i then Some 0 else c ← rd b i; Some (schar c)
  end.

(** The index of the first or last occurrence, or -1; looking for NUL finds the terminator. *)
Fixpoint index_of (c : Z) (s : list Z) (i : Z) : Z :=
  match s with
  | [] => if c =? 0 then i else -1
  | x :: tl => if x =? c then i else index_of c tl (i + 1)
  end.

Fixpoint last_index_of (c : Z) (s : list Z) (i found : Z) : Z :=
  match s with
  | [] => if c =? 0 then i else found
  | x :: tl => last_index_of c tl (i + 1) (if x =? c then i else found)
  end.

Fixpoint index_of_str (str s : list Z) (i : Z) : Z :=
  if has_prefix str s then i
  else match s with [] => -1 | _ :: tl => index_of_str str tl (i + 1) end.

Definition in_buff (o : strobj) (f : list Z -> Z) : option Z :=
  match buff o with None => Some (-1) | Some b => s ← c_string b; Some (f s) end.

Definition sobj_strchr (o : strobj) (c : Z) : option Z := in_buff o (fun s => index_of (u8 c) s 0).
Definition sobj_strrchr (o : strobj) (c : Z) : option Z := in_buff o (fun s => last_index_of (u8 c) s 0 (-1)).
Definition sobj_strstr (o : strobj) (str : list Z) : option Z := in_buff o (fun s => index_of_str str s 0).

Definition sobj_strcmp (o : strobj) (s : list Z) : option Z := p ← sobj_get_string o; Some (strcmp p s).
Definition sobj_strncmp (o : strobj) (s : list Z) (n : Z) : option Z := p ← sobj_get_string o; Some (strncmp p s n).
Definition sobj_strcasecmp (o : strobj) (s : list Z) : option Z := p ← sobj_get_string o; Some (strcasecmp p s).
Definition sobj_strncasecmp (o : strobj) (s : list Z) (n : Z) : option Z :=
  p ← sobj_get_string o; Some (strncasecmp p s n).

(** ** Changes *)

Definition sobj_strcpy (o : strobj) (string : option (list Z)) : M (strobj * Z) :=
  sobj_add_string (mkso 0 (total o) 0 (buff o)) string.

(** The target, then the source. *)
Definition sobj_move (to from : strobj) : strobj * strobj := (from, empty_sobj).

(** The object, and the new one ([None] for NULL). *)
Definition sobj_split (o : strobj) (at_ : Z) : M (strobj * option strobj) :=
  n ← sobj_new;
  match n with
  | None => mret (o, None)
  | Some newobj =>
      if size o <=? at_ then mret (o, Some newobj)
      else
        b ← lift (buff o);
        s ← lift (c_string (drop (Z.to_nat at_) b));
        r ← sobj_add_string newobj (Some s);
        let '(newobj, err) := r in
        if err <? 0 then mret (o, None)
        else
          o ← lift (set_char o at_ 0);
          s ← lift (sobj_get_string o);
          mret (set_size o (u32 (zlen s)), Some newobj)
  end.

(** The loop that moves the characters down. *)
Fixpoint shift_loop (n : nat) (b : list Z) (at_ : Z) : option (list Z) :=
  match n with
  | O => Some b
  | S n' => c ← rd b (at_ + 1); b ← wr b at_ c; shift_loop n' b (at_ + 1)
  end.

Definition sobj_remove_char (o : strobj) (at_ : Z) : option (strobj * Z) :=
  match buff o with
  | None => Some (o, -1)
  | Some b =>
      if size o <=? at_ then Some (o, -1)
      else
        b' ← shift_loop (Z.to_nat (size o - at_)) b at_;
        Some (mkso (flags o) (total o) (size o - 1) (Some b'), 0)
  end.

Definition sobj_remove_tail (o : strobj) : option (strobj * Z) :=
  match buff o with
  | None => Some (o, -1)
  | Some b =>
      if 0 <? size o then
        o ← set_char (set_size o (size o - 1)) (size o - 1) 0; Some (o, 0)
      else Some (o, 0)
  end.

(** Appending characters one by one, with the results of [sobj_add_char] ignored. *)
Fixpoint add_chars (o : strobj) (cs : list Z) : M strobj :=
  match cs with
  | [] => mret o
  | c :: tl => r ← sobj_add_char o c; add_chars (fst r) tl
  end.

(** The loop of [sobj_eat_all_white]. *)
Fixpoint white_loop (fuel : nat) (newobj : strobj) (ptr : list Z) : M strobj :=
  match fuel, ptr with
  | _, [] => mret newobj
  | O, _ => lift None
  | S fuel', c :: tl =>
      if sobj_iswhite c then
        r ← sobj_add_char newobj 32; white_loop fuel' (fst r) (sobj_eatwhite ptr)
      else
        r ← sobj_add_char newobj (schar c); white_loop fuel' (fst r) tl
  end.

(** The object takes over the buffer of [newobj]; its flags are cleared by [sobj_free]. *)
Definition take_over (newobj : strobj) : strobj := mkso 0 (total newobj) (size newobj) (buff newobj).

(** The object, and the returned string ([None] for NULL). *)
Definition sobj_eat_all_white (o : strobj) : M (strobj * option (list Z)) :=
  match buff o with
  | None => mret (o, None)
  | Some b =>
      n ← sobj_new;
      match n with
      | None => mret (o, None)
      | Some newobj =>
          s ← lift (c_string b);
          newobj ← white_loop (S (length s)) newobj (sobj_eatwhite (sobj_reatwhite s));
          mret (take_over newobj, buff newobj)
      end
  end.

Definition sobj_eat_indent (o : strobj) : M (strobj * option (list Z)) :=
  match buff o with
  | None => mret (o, None)
  | Some b =>
      n ← sobj_new;
      match n with
      | None => mret (o, None)
      | Some newobj =>
          s ← lift (c_string b);
          r ← sobj_add_string newobj (Some (sobj_eatindent (sobj_reatindent s)));
          let newobj := fst r in
          mret (take_over newobj, buff newobj)
      end
  end.

(** ** Reading tokens from a stream *)

(** [fuel] is one more than the number of characters the stream has left, here and below. *)
Definition stream_fuel (fd : xstream) : nat := S (length (pending fd)).

Fixpoint eatwhite_loop (fuel : nat) (fd : xstream) : option (xstream * Z) :=
  match fuel with
  | O => None
  | S fuel' =>
      r ← xs_getc fd;
      let '(fd, c) := r in
      if c =? EOF then Some (fd, c)
      else if sobj_iswhite c then eatwhite_loop fuel' fd
      else r ← xs_ungetc c fd; Some (fst r, c)
  end.

Definition sobj_xstream_eatwhite (fd : xstream) : option (xstream * Z) := eatwhite_loop (stream_fuel fd) fd.

(** How the loop of [sobj_xstream_read_esc] ends: [err], [q] and the last [c]. *)
Record token_end := mkend { te_err : bool; te_q : Z; te_c : Z }.

Definition set_quot (o : strobj) : strobj :=
  mkso (Z.lor (flags o) SO_FLAG_QUOT_STRING) (total o) (size o) (buff o).
Definition clear_quot (o : strobj) : strobj :=
  mkso (Z.ldiff (flags o) SO_FLAG_QUOT_STRING) (total o) (size o) (buff o).

Definition unescaped (c : Z) : Z :=
  if c =? 110 then 10 else if c =? 114 then 13 else if c =? 116 then 9 else c.

Definition is_quote (c : Z) : bool := (c =? 34) || (c =? 39).

Fixpoint read_loop (fuel : nat) (fd : xstream) (so : strobj) (end_ : option (list Z)) (esc : Z)
    (escape : bool) (q : Z) : M (xstream * strobj * token_end) :=
  match fuel with
  | O => lift None
  | S fuel' =>
      r ← lift (xs_getc fd);
      let '(fd, c) := r in
      if c =? EOF then mret (fd, so, mkend false q c)
      else if c =? 0 then mret (fd, so, mkend true q c)
      else if (q <? 0) && is_quote c then read_loop fuel' fd so end_ esc escape c
      else
        let q := if q <? 0 then 0 else q in
        if negb (q =? 0) then
          if escape then
            r ← sobj_add_char so (unescaped c);
            let '(so, err) := r in
            if err <? 0 then mret (fd, so, mkend true q (unescaped c))
            else read_loop fuel' fd so end_ esc false q
          else if negb (esc =? 0) && (c =? schar esc) then read_loop fuel' fd so end_ esc true q
          else if c =? q then mret (fd, set_quot so, mkend false q c)
          else
            r ← sobj_add_char so c;
            let '(so, err) := r in
            if err <? 0 then mret (fd, so, mkend true q c) else read_loop fuel' fd so end_ esc false q
        else
          if is_quote c then
            r ← lift (xs_ungetc c fd);
            mret (fst r, clear_quot so, mkend false q c)
          else if sobj_iswhite c ||
                  match end_ with Some e => negb (find_pattern c e =? 0) | None => false end then
            mret (fd, clear_quot so, mkend false q c)
          else
            r ← sobj_add_char so c;
            let '(so, err) := r in
            if err <? 0 then mret (fd, so, mkend true q c) else read_loop fuel' fd so end_ esc false q
  end.

(** The stream, the object, [*quot] and the result. *)
Definition sobj_xstream_read_esc (fd : xstream) (so : strobj) (end_ : option (list Z)) (esc : Z)
  : M (xstream * strobj * Z * Z) :=
  r ← read_loop (stream_fuel fd) fd so end_ esc false (-1);
  let '(fd, so, e) := r in
  mret (fd, so, te_q e, if te_err e then 0 else te_c e).

Definition sobj_xstream_read (fd : xstream) (so : strobj) (end_ : option (list Z)) : M (xstream * strobj * Z * Z) :=
  sobj_xstream_read_esc fd so end_ 92.

(** The token loop: the stream, the list, [err] and [c]. *)
Fixpoint tokens_loop (fuel : nat) (fd : xstream) (sol : list strobj) (delimit : list Z) (end_ : Z)
    (delimiter : option (list Z)) : M (xstream * list strobj * bool * Z) :=
  match fuel with
  | O => lift None
  | S fuel' =>
      t ← sobj_new;
      match t with
      | None => mret (fd, sol, true, 0)
      | Some token =>
          r ← lift (sobj_xstream_eatwhite fd);
          r ← sobj_xstream_read (fst r) token (Some delimit);
          let '(fd, token, quot, c) := r in
          if c =? 0 then mret (fd, sol, true, 0)
          else
            let sol := if sobj_get_length token =? 0 then sol else sol ++ [token] in
            if c =? schar end_ then mret (fd, sol, false, c)
            else if match delimiter with Some d => negb (find_pattern (u8 c) d =? 0) | None => false end then
              t ← sobj_new;
              match t with
              | None => mret (fd, sol, true, c)
              | Some token =>
                  r ← sobj_add_char token c;
                  let '(token, err) := r in
                  if err <? 0 then mret (fd, sol, true, c)
                  else if c =? EOF then mret (fd, sol ++ [token], false, c)
                  else tokens_loop fuel' fd (sol ++ [token]) delimit end_ delimiter
              end
            else if c =? EOF then mret (fd, sol, false, c)
            else tokens_loop fuel' fd sol delimit end_ delimiter
      end
  end.

(** The stream, the list and the result; on an error the whole list is freed. *)
Definition sobj_xstream_read_tokens (fd : xstream) (list_ : list strobj) (end_ : Z) (delimiter : option (list Z))
  : M (xstream * list strobj * Z) :=
  d ← sobj_new;
  match d with
  | None => mret (fd, [], 0)
  | Some delimit =>
      r ← sobj_add_string delimit delimiter;
      let '(delimit, err) := r in
      if err <? 0 then mret (fd, [], 0)
      else
        r ← (if negb (end_ =? 0) then sobj_add_char delimit end_ else mret (delimit, 0));
        let '(delimit, err) := r in
        if err <? 0 then mret (fd, [], 0)
        else
          e ← lift (sobj_get_string delimit);
          r ← tokens_loop (stream_fuel fd) fd list_ e end_ delimiter;
          let '(fd, sol, err, c) := r in
          if (err : bool) then mret (fd, [], 0) else mret (fd, sol, c)
  end.

(** ** Escaping *)

Fixpoint escape_character (escape : Z) (sc from : list Z) (to : strobj) : M strobj :=
  match from with
  | [] => mret to
  | c :: tl =>
      to ← (if negb (find_pattern c sc =? 0) then r ← sobj_add_char to escape; mret (fst r) else mret to);
      r ← sobj_add_char to (schar c);
      escape_character escape sc tl (fst r)
  end.

Definition sobj_escape_javascript (from : list Z) (to : strobj) : M strobj :=
  escape_character 92 [92; 34; 39] from to.

Definition sobj_escape_shellscript (from : list Z) (to : strobj) : M strobj :=
  escape_character 92 [92; 36; 34; 96] from to.

Definition amp : list Z := Eval cbv in cs "&amp;".
Definition lt_ : list Z := Eval cbv in cs "&lt;".
Definition gt_ : list Z := Eval cbv in cs "&gt;".
Definition nbsp : list Z := Eval cbv in cs "&nbsp;".
Definition quot_ : list Z := Eval cbv in cs "&quot;".
Definition apos : list Z := Eval cbv in cs "&apos;".

Fixpoint sobj_escape_html_sc (from : list Z) (to : strobj) : M strobj :=
  match from with
  | [] => mret to
  | c :: tl =>
      r ← (if c =? 38 then sobj_add_string to (Some amp)
           else if c =? 60 then sobj_add_string to (Some lt_)
           else if c =? 62 then sobj_add_string to (Some gt_)
           else if c =? 34 then sobj_add_string to (Some quot_)
           else sobj_add_char to (schar c));
      sobj_escape_html_sc tl (fst r)
  end.

Fixpoint sobj_escape_xml_sc (from : list Z) (to : strobj) : M strobj :=
  match from with
  | [] => mret to
  | c :: tl =>
      r ← (if c =? 38 then sobj_add_string to (Some amp)
           else if c =? 60 then sobj_add_string to (Some lt_)
           else if c =? 62 then sobj_add_string to (Some gt_)
           else if c =? 34 then sobj_add_string to (Some quot_)
           else if c =? 39 then sobj_add_string to (Some apos)
           else sobj_add_char to (schar c));
      sobj_escape_xml_sc tl (fst r)
  end.

(** [from += k]; the fuel of the loops is the length of the string. *)
Fixpoint unescape_html_loop (fuel : nat) (from : list Z) (to : strobj) : M strobj :=
  match fuel, from with
  | _, [] => mret to
  | O, _ => lift None
  | S fuel', c :: tl =>
      let next k d := r ← sobj_add_char to d; unescape_html_loop fuel' (drop k from) (fst r) in
      if negb (c =? 38) then next 1%nat (schar c)
      else if has_prefix amp from then next 5%nat 38
      else if has_prefix lt_ from then next 4%nat 60
      else if has_prefix gt_ from then next 4%nat 62
      else if has_prefix nbsp from then next 6%nat 32
      else if has_prefix quot_ from then next 6%nat 34
      else if has_prefix apos from then next 6%nat 39
      else next 1%nat (schar c)
  end.

Definition sobj_unescape_html_sc (from : list Z) (to : strobj) : M strobj :=
  unescape_html_loop (length from) from to.

Fixpoint unescape_xml_loop (fuel : nat) (from : list Z) (to : strobj) : M strobj :=
  match fuel, from with
  | _, [] => mret to
  | O, _ => lift None
  | S fuel', c :: tl =>
      let next k d := r ← sobj_add_char to d; unescape_xml_loop fuel' (drop k from) (fst r) in
      if negb (c =? 38) then next 1%nat (schar c)
      else if has_prefix amp from then next 5%nat 38
      else if has_prefix lt_ from then next 4%nat 60
      else if has_prefix gt_ from then next 4%nat 62
      else if has_prefix quot_ from then next 6%nat 34
      else if has_prefix apos from then next 6%nat 39
      else next 1%nat (schar c)
  end.

Definition sobj_unescape_xml_sc (from : list Z) (to : strobj) : M strobj :=
  unescape_xml_loop (length from) from to.

Definition ctoi (c : Z) : Z :=
  if (48 <=? c) && (c <=? 57) then c - 48
  else if (97 <=? c) && (c <=? 102) then c - 97 + 10
  else if (65 <=? c) && (c <=? 70) then c - 65 + 10
  else 0.

(** The loop of [sobj_unescape_uri] over the characters of the buffer from [i] on. *)
Fixpoint uri_loop (fuel : nat) (b : list Z) (i size : Z) (nobj : strobj) : M strobj :=
  if i <? size then
    match fuel with
    | O => lift None
    | S fuel' =>
        c ← lift (rd b i);
        if (c =? 37) && (i + 2 <? size) then
          c1 ← lift (rd b (i + 1));
          c2 ← lift (rd b (i + 2));
          if isxdigit c1 && isxdigit c2 then
            r ← sobj_add_char nobj (ctoi c1 * 16 + ctoi c2); uri_loop fuel' b (i + 3) size (fst r)
          else r ← sobj_add_char nobj (schar c); uri_loop fuel' b (i + 1) size (fst r)
        else r ← sobj_add_char nobj (schar c); uri_loop fuel' b (i + 1) size (fst r)
    end
  else mret nobj.

(** The object, and whether it is returned. *)
Definition sobj_unescape_uri (o : strobj) : M (strobj * bool) :=
  n ← sobj_new;
  match n with
  | None => mret (o, false)
  | Some nobj =>
      nobj ← (if 0 <? size o then b ← lift (buff o); uri_loop (Z.to_nat (size o)) b 0 (size o) nobj else mret nobj);
      mret (take_over nobj, true)
  end.

Definition hex : list Z := Eval cbv in cs "0123456789ABCDEF".

(** Characters that are not encoded: letters, digits and - _ . ! ~ * ' ( and closing parenthesis. *)
Definition url_plain (c : Z) : bool :=
  isalnum c || (c =? 45) || (c =? 95) || (c =? 46) || (c =? 33) || (c =? 126) || (c =? 42) ||
  (c =? 39) || (c =? 40) || (c =? 41).

(** The characters are signed: [*from >> 4] is negative from 0x80 on, and [hex] is read out of range. *)
Fixpoint sobj_urlencode_sc (from : list Z) (to : strobj) : M strobj :=
  match from with
  | [] => mret to
  | c :: tl =>
      if url_plain c then r ← sobj_add_char to (schar c); sobj_urlencode_sc tl (fst r)
      else
        r ← sobj_add_char to 37;
        h1 ← lift (rd hex (Z.shiftr (schar c) 4));
        r ← sobj_add_char (fst r) h1;
        h2 ← lift (rd hex (Z.land (schar c) 15));
        r ← sobj_add_char (fst r) h2;
        sobj_urlencode_sc tl (fst r)
  end.

Fixpoint urldecode_loop (fuel : nat) (from : list Z) (to : strobj) : M strobj :=
  match fuel, from with
  | _, [] => mret to
  | O, _ => lift None
  | S fuel', c :: tl =>
      let next k d := r ← sobj_add_char to d; urldecode_loop fuel' (drop k from) (fst r) in
      if (c =? 37) && isxdigit (deref tl) && isxdigit (deref (drop 1 tl)) then
        next 3%nat (ctoi (deref tl) * 16 + ctoi (deref (drop 1 tl)))
      else if c =? 43 then next 1%nat 32
      else next 1%nat (schar c)
  end.

Definition sobj_urldecode (from : list Z) (to : strobj) : M strobj := urldecode_loop (length from) from to.

End Objects.

(** ** Lists of string objects *)

(** A list and its cursor; entries are the addresses of the objects, in the order of the links. *)
Record solist := mksol { sol_entries : list Z; sol_curr : option Z }.

Definition solist_new (alloc : bool) : option solist := if alloc then Some (mksol [] None) else None.

(** The objects to delete, and the list left. *)
Definition solist_free (l : solist) : list Z * solist := (sol_entries l, mksol [] None).

Definition solist_add (l : solist) (so : Z) : solist := mksol (sol_entries l ++ [so]) (sol_curr l).

Definition solist_remove (l : solist) (so : Z) : solist :=
  mksol (filter (fun e => e <> so) (sol_entries l))
        (match sol_curr l with Some c => if c =? so then None else Some c | None => None end).

Definition solist_get_reset (l : solist) : solist := mksol (sol_entries l) None.

(** The entry after [e], [None] at the end; a cursor on an entry that is not in the list is undefined. *)
Fixpoint next_of (es : list Z) (e : Z) : option (option Z) :=
  match es with
  | [] => None
  | x :: tl => if x =? e then Some (head tl) else next_of tl e
  end.

Definition solist_get_next (l : solist) : option (solist * option Z) :=
  so ← match sol_curr l with Some e => next_of (sol_entries l) e | None => Some (head (sol_entries l)) end;
  Some (mksol (sol_entries l) so, so).

Definition solist_get_prev (l : solist) : option (solist * option Z) :=
  so ← match sol_curr l with
       | Some e => next_of (rev (sol_entries l)) e
       | None => Some (head (rev (sol_entries l)))
       end;
  Some (mksol (sol_entries l) so, so).

Definition solist_get_count (l : solist) : Z := zlen (sol_entries l).

(** ** The text an object holds *)

(** Every request of at most [L] bytes is served. *)
Definition plenty `{Grower} (L : Z) : Prop := forall n b size, size <= L -> is_Some (grow n b size).

(** The buffer has room for [total] characters and a terminator, and starts with the text. *)
Definition sobj_room (L : Z) (o : strobj) (t : list Z) : Prop :=
  match buff o with
  | None => total o = 0 /\ size o = 0 /\ t = []
  | Some b => zlen b = total o + 1 /\ total o < L /\ size o = zlen t /\ zlen t <= total o /\
              take (length t) b = t
  end.

(** The object [o] holds the text [t]: it also has its terminator. *)
Definition sobj_rep (L : Z) (o : strobj) (t : list Z) : Prop :=
  sobj_room L o t /\ bytes t /\
  match buff o with Some b => b !! length t = Some 0 | None => True end.

Section Text.
Context `{Grower} (L : Z) (HL : 64 <= L <= 2 ^ 31) (Hmem : plenty L).
#[local] Set Default Proof Using "All".

Lemma room_size o t : sobj_room L o t -> size o = zlen t /\ 0 <= zlen t <= total o /\ total o < L.
Proof. unfold sobj_room. destruct (buff o); intros Hr; [lia|]. destruct Hr as (-> & -> & ->). cbn. lia. Qed.

Lemma rep_size o t : sobj_rep L o t -> size o = zlen t /\ 0 <= zlen t <= total o /\ total o < L.
Proof. intros [Hr _]. by apply room_size. Qed.

Lemma empty_rep : sobj_rep L empty_sobj [].
Proof. split; [done|]. split; [constructor|done]. Qed.

(** The effect of a step on the text; the flags are kept. *)
Definition runs (m : M strobj) (fl : Z) (t : list Z) : Prop :=
  forall n, exists o n', m n = Some (o, n') /\ sobj_rep L o t /\ flags o = fl.

Lemma runs_ret o t : sobj_rep L o t -> runs (mret o) (flags o) t.
Proof. intros Hr n. by exists o, n. Qed.

Lemma grow_total n b sz : sz <= L -> exists b', grow n b sz = Some b'.
Proof. intros Hs. destruct (Hmem n b sz Hs) as [b' E]. eauto. Qed.

(** [sobj_inc_space] adds room and keeps the text. *)
Lemma inc_space_room o t n :
  sobj_room L o t -> total o + 33 <= L ->
  exists o' n', sobj_inc_space o n = Some ((o', 0), n') /\ sobj_room L o' t /\ flags o' = flags o /\
    total o' = total o + 32 /\ is_Some (buff o').
Proof.
  intros Hr Hroom. pose proof (room_size o t Hr) as (Hs & Hst & HtL).
  unfold sobj_room in Hr. unfold sobj_inc_space, xmalloc, xrealloc.
  destruct (buff o) as [b|] eqn:Eb.
  - destruct Hr as (Hlb & _ & Hsz & Hle & Htk). unfold STROBJ_STEP_SIZE.
    rewrite (u32_small (total o + 32)), (u32_small (total o + 32 + 1)) by lia.
    destruct (grow_total n b (total o + 32 + 1)) as (b' & E); [lia|].
    erewrite bind_run by reflexivity. rewrite E.
    destruct (grow_ok n b (total o + 32 + 1) b' ltac:(lia) E) as [Hl' Hp].
    exists (mkso (flags o) (total o + 32) (size o) (Some b')), (S n). split_and!; try done.
    unfold sobj_room. cbn [buff total size]. split_and!; try lia.
    replace (length t) with (Nat.min (length t) (length b)) by lia. by rewrite <- take_take, Hp.
  - destruct Hr as (Ht & Hsz & ->). change (u32 (STROBJ_STEP_SIZE + 1)) with 33.
    destruct (grow_total n [] 33) as (b' & E); [lia|].
    destruct (grow_ok n [] 33 b' ltac:(cbn; lia) E) as [Hl' Hp].
    erewrite bind_run by reflexivity. rewrite E.
    exists (mkso (flags o) 32 (size o) (Some b')), (S n). split_and!; try done; [|cbn [total]; lia].
    unfold sobj_room. cbn [buff total size length]. split_and!; try (cbn; lia). done.
Qed.

(** Storing [s] and a terminator behind the text. *)
Lemma append_rep o t b s :
  sobj_room L o t -> bytes t -> buff o = Some b -> zlen t + zlen s <= total o -> bytes s ->
  sobj_rep L (mkso (flags o) (total o) (zlen t + zlen s)
                (Some (take (length t) b ++ (s ++ [0]) ++ drop (length t + S (length s)) b))) (t ++ s).
Proof.
  intros Hr Hbt Eb Hroom Hs. unfold sobj_room in Hr. rewrite Eb in Hr. destruct Hr as (Hlb & HtL & Hsz & Hle & Htk).
  rewrite Htk. unfold sobj_rep, sobj_room. cbn [buff total size].
  rewrite !length_app, length_drop. cbn [length]. split_and!; try lia.
  - rewrite <- app_assoc, app_assoc. rewrite <- length_app. apply take_app_length.
  - by apply Forall_app.
  - rewrite <- app_assoc, app_assoc. rewrite <- length_app. rewrite lookup_app_r by lia. by rewrite Nat.sub_diag.
Qed.

Lemma wr_split {A} (l : list A) i x :
  0 <= i < zlen l -> wr l i x = Some (take (Z.to_nat i) l ++ x :: drop (S (Z.to_nat i)) l).
Proof using Type.
  intros Hi. unfold wr. rewrite (proj2 (Z.leb_le 0 i)), (proj2 (Z.ltb_lt _ _)) by lia. cbn [andb].
  by rewrite insert_take_drop by lia.
Qed.

(** The two stores at the end of [sobj_add_char]. *)
Lemma store_char_rep o t b c :
  sobj_room L o t -> bytes t -> buff o = Some b -> zlen t < total o ->
  exists o1 o', set_char o (size o) c = Some o1 /\ size o1 = size o /\
    set_char (set_size o1 (u32 (size o1 + 1))) (u32 (size o1 + 1)) 0 = Some o' /\
    sobj_rep L o' (t ++ [u8 c]) /\ flags o' = flags o.
Proof.
  intros Hr Hbt Eb Hlt. pose proof (room_size o t Hr) as (Hs & Hst & HtL).
  pose proof (append_rep o t b [u8 c] Hr Hbt Eb) as Happ. cbn [length] in Happ.
  unfold sobj_room in Hr. rewrite Eb in Hr. destruct Hr as (Hlb & _ & _ & _ & Htk).
  unfold set_char at 1. rewrite Eb, Hs. cbn [mbind option_bind]. rewrite wr_split by lia. rewrite Nat2Z.id.
  cbn [mbind option_bind]. eexists _, _. split; [done|]. split; [done|].
  unfold set_char, set_size. cbn [buff size flags total]. rewrite u32_small by lia.
  rewrite Htk. cbn [mbind option_bind].
  rewrite wr_split by (rewrite length_app; cbn [length]; rewrite length_drop; lia).
  replace (Z.to_nat (zlen t + 1)) with (length t + 1)%nat by lia.
  cbn [mbind option_bind]. split; [done|]. split; [|done].
  change (u8 0) with 0. rewrite take_app_add. rewrite <- Nat.add_succ_r, drop_app_add.
  destruct (drop (S (length t)) b) as [|x tl] eqn:Ed.
  { assert (length (drop (S (length t)) b) = 0)%nat as Hx by (by rewrite Ed). rewrite length_drop in Hx. lia. }
  cbn [take drop app]. rewrite Htk in Happ.
  assert (drop (length t + 2) b = tl) as Hd.
  { replace (length t + 2)%nat with (S (length t) + 1)%nat by lia. by rewrite <- drop_drop, Ed. }
  rewrite Hd in Happ. cbn [app] in Happ. rewrite <- app_assoc. apply Happ; [lia|]. constructor; [apply u8_byte|done].
Qed.

Lemma add_char_rep o t c n :
  sobj_rep L o t -> zlen t + 64 <= L ->
  exists o' n', sobj_add_char o c n = Some ((o', 0), n') /\ sobj_rep L o' (t ++ [u8 c]) /\ flags o' = flags o.
Proof.
  intros Hr Hroom. pose proof (rep_size o t Hr) as (Hs & Hst & HtL). destruct Hr as (Hr & Hb & _).
  unfold sobj_add_char.
  assert (exists o1 n1 b, (if u32 (total o - size o) <? 1 then sobj_inc_space o else mret (o, 0)) n = Some ((o1, 0), n1) /\
     sobj_room L o1 t /\ flags o1 = flags o /\ buff o1 = Some b /\ zlen t < total o1) as (o1 & n1 & b & E & Hr1 & Hf1 & Hb1 & Hlt).
  { rewrite Hs, u32_small by lia. destruct (Z.ltb_spec (total o - zlen t) 1) as [Hl|Hg].
    - destruct (inc_space_room o t n Hr) as (o1 & n1 & E & H1 & H2 & H3 & [b H4]); [lia|].
      exists o1, n1, b. split_and!; try done. lia.
    - unfold sobj_room in Hr. destruct (buff o) as [b|] eqn:Eb; [|lia].
      exists o, n, b. split_and!; try done; [|lia]. unfold sobj_room. by rewrite Eb. }
  rewrite (bind_run _ _ _ _ _ E). cbn [Z.ltb Z.compare].
  destruct (store_char_rep o1 t b c Hr1 Hb Hb1 Hlt) as (oa & o2 & Ea & Hsa & E2 & Hr2 & Hf2).
  rewrite (bind_run _ _ _ _ _ (lift_run _ _ _ Ea)). cbn [size set_size].
  rewrite (bind_run _ _ _ _ _ (lift_run _ _ _ E2)).
  exists o2, n1. split_and!; try done. congruence.
Qed.

(** The loop that makes room ends within its fuel. *)
Lemma inc_loop_room fuel : forall o t i n,
  sobj_room L o t -> 0 <= i -> zlen t + i + 64 <= L -> zlen t + i - total o <= 32 * Z.of_nat fuel ->
  exists o' n', inc_loop fuel o i n = Some ((o', 0), n') /\ sobj_room L o' t /\ flags o' = flags o /\
    zlen t + i <= total o' /\ (0 < i -> is_Some (buff o')).
Proof.
  induction fuel as [|fuel IH]; intros o t i n Hr Hi Hroom Hfuel; cbn [inc_loop];
    pose proof (room_size o t Hr) as (Hs & Hst & HtL); rewrite Hs, u32_small by lia;
    destruct (Z.ltb_spec (total o - zlen t) i) as [Hlt|Hge]; try lia.
  - exists o, n. split_and!; try done; [lia|]. intros H0. unfold sobj_room in Hr. destruct (buff o); [done|lia].
  - destruct (inc_space_room o t n Hr) as (o1 & n1 & E & Hr1 & Hf1 & Ht1 & _); [lia|].
    rewrite (bind_run _ _ _ _ _ E). cbn [Z.ltb Z.compare].
    destruct (IH o1 t i n1 Hr1 Hi Hroom ltac:(lia)) as (o2 & n2 & E2 & Hr2 & Hf2 & Ht2 & Hb2).
    exists o2, n2. split_and!; try done. congruence.
  - exists o, n. split_and!; try done; [lia|]. intros H0. unfold sobj_room in Hr. destruct (buff o); [done|lia].
Qed.

Lemma add_string_room o t s n :
  sobj_room L o t -> bytes t -> bytes s -> s <> [] -> zlen t + zlen s + 64 <= L ->
  exists o' n', sobj_add_string o (Some s) n = Some ((o', 0), n') /\ sobj_rep L o' (t ++ s) /\ flags o' = flags o.
Proof.
  intros Hr Hb Hbs Hne Hroom. pose proof (room_size o t Hr) as (Hs & Hst & HtL). cbn [sobj_add_string].
  assert (zlen s <> 0) as H0 by (destruct s; cbn [length]; [done|lia]).
  rewrite u32_small, (proj2 (Z.eqb_neq _ _) H0) by lia.
  destruct (inc_loop_room (length s) o t (zlen s) n Hr) as (o1 & n1 & E & Hr1 & Hf1 & Ht1 & Hb1); [lia..|].
  rewrite (bind_run _ _ _ _ _ E). cbn [Z.ltb Z.compare]. destruct (Hb1 ltac:(lia)) as [b Eb].
  rewrite (bind_run _ _ _ _ _ (lift_run _ _ _ Eb)).
  pose proof (room_size o1 t Hr1) as (Hs1 & Hst1 & HtL1). rewrite Hs1, Nat2Z.id.
  pose proof (append_rep o1 t b s Hr1 Hb Eb Ht1 Hbs) as Happ.
  assert (zlen b = total o1 + 1) as Hlb by (unfold sobj_room in Hr1; rewrite Eb in Hr1; apply Hr1).
  assert (memcpy_at b (length t) (S (length s)) (s ++ [0])
    = Some (take (length t) b ++ (s ++ [0]) ++ drop (length t + S (length s)) b)) as Em.
  { rewrite memcpy_at_ok by (rewrite ?length_app; cbn [length]; lia).
    rewrite (take_ge (s ++ [0])) by (rewrite length_app; cbn [length]; lia). done. }
  rewrite (bind_run _ _ _ _ _ (lift_run _ _ _ Em)). rewrite u32_small by lia.
  eexists _, n1. split; [done|]. split; [exact Happ|done].
Qed.

Lemma add_string_rep o t s n :
  sobj_rep L o t -> bytes s -> zlen t + zlen s + 64 <= L ->
  exists o' n', sobj_add_string o (Some s) n = Some ((o', 0), n') /\ sobj_rep L o' (t ++ s) /\ flags o' = flags o.
Proof.
  intros Hr Hbs Hroom. destruct s as [|c s]; [exists o, n; by rewrite app_nil_r|].
  by apply add_string_room; [apply Hr|apply Hr|..].
Qed.

(** The C string in the buffer is the text up to its first NUL, so all of it when it has none. *)
Lemma c_string_app t x : cstring t -> c_string (t ++ 0 :: x) = Some t.
Proof using Type.
  intros Ht. induction Ht as [|c t Hc _ IH]; [done|]. cbn [app c_string].
  rewrite (proj2 (Z.eqb_neq c 0)) by (unfold is_char in Hc; lia). by rewrite IH.
Qed.

Lemma cstring_bytes t : cstring t -> bytes t.
Proof using Type. apply Forall_impl. unfold is_char, is_byte. lia. Qed.

Lemma rep_buffer o t b : sobj_rep L o t -> buff o = Some b -> exists x, b = t ++ 0 :: x.
Proof.
  intros (Hr & _ & H0) Eb. unfold sobj_room in Hr. rewrite Eb in Hr, H0. destruct Hr as (Hl & _ & _ & Hle & Htk).
  exists (drop (S (length t)) b). rewrite <- (take_drop (length t) b) at 1. rewrite Htk. f_equal.
  by apply drop_S.
Qed.

Lemma get_string_rep o t : sobj_rep L o t -> cstring t -> sobj_get_string o = Some t.
Proof.
  intros Hr Ht. unfold sobj_get_string. destruct (buff o) as [b|] eqn:Eb.
  - destruct (rep_buffer o t b Hr Eb) as [x ->]. by apply c_string_app.
  - destruct Hr as (Hr & _). unfold sobj_room in Hr. rewrite Eb in Hr. by destruct Hr as (_ & _ & ->).
Qed.

(** An object whose buffer starts with a text and its terminator. *)
Lemma make_rep fl tot t x :
  zlen (t ++ 0 :: x) = tot + 1 -> tot < L -> bytes t -> sobj_rep L (mkso fl tot (zlen t) (Some (t ++ 0 :: x))) t.
Proof.
  intros Hl HtL Hb. rewrite length_app in Hl. cbn [length] in Hl.
  unfold sobj_rep, sobj_room. cbn [buff total size]. rewrite length_app. cbn [length].
  split_and!; try lia; [apply take_app_length|done|by rewrite lookup_app_r, Nat.sub_diag].
Qed.

(** ** Removing and splitting *)

Lemma shift_loop_rep t2 : forall t1 c x,
  shift_loop (S (length t2)) (t1 ++ c :: t2 ++ 0 :: x) (zlen t1) = Some (t1 ++ t2 ++ 0 :: 0 :: x).
Proof.
  induction t2 as [|d t2 IH]; intros t1 c x; cbn [shift_loop length app].
  - rewrite (cons_middle c t1), app_assoc, rd_app by (rewrite length_app; cbn; lia).
    rewrite <- app_assoc. cbn [app mbind option_bind]. by rewrite wr_app.
  - rewrite (cons_middle c t1), app_assoc, rd_app by (rewrite length_app; cbn; lia).
    rewrite <- app_assoc. cbn [app mbind option_bind]. rewrite wr_app by done. cbn [mbind option_bind].
    specialize (IH (t1 ++ [d]) d x). cbn [shift_loop] in IH. rewrite length_app in IH. cbn [length] in IH.
    replace (Z.of_nat (length t1 + 1)) with (zlen t1 + 1) in IH by lia. rewrite <- !app_assoc in IH. exact IH.
Qed.

Lemma remove_char_rep o t1 c t2 :
  sobj_rep L o (t1 ++ c :: t2) ->
  exists o', sobj_remove_char o (zlen t1) = Some (o', 0) /\ sobj_rep L o' (t1 ++ t2) /\ flags o' = flags o.
Proof.
  intros Hr. pose proof (rep_size _ _ Hr) as (Hs & Hst & HtL). rewrite length_app in Hs. cbn [length] in Hs.
  unfold sobj_remove_char. destruct (buff o) as [b|] eqn:Eb.
  2: { destruct Hr as (Hr & _). unfold sobj_room in Hr. rewrite Eb in Hr. destruct Hr as (_ & _ & Hn). by destruct t1. }
  destruct (rep_buffer _ _ b Hr Eb) as [x ->]. destruct Hr as (Hr & Hb & _).
  unfold sobj_room in Hr. rewrite Eb in Hr. destruct Hr as (Hl & _).
  rewrite (proj2 (Z.leb_gt _ _)) by lia.
  replace (Z.to_nat (size o - zlen t1)) with (S (length t2)) by lia.
  rewrite <- app_assoc. cbn [app]. rewrite shift_loop_rep. cbn [mbind option_bind].
  eexists. split; [done|]. split; [|done]. rewrite app_assoc.
  replace (size o - 1) with (zlen (t1 ++ t2)) by (rewrite length_app; lia).
  rewrite Forall_app, Forall_cons_iff in Hb. destruct Hb as (Hb1 & _ & Hb2).
  apply make_rep; [|done|by apply Forall_app]. rewrite !length_app in *. cbn [length] in *. lia.
Qed.

Lemma remove_tail_rep o t c :
  sobj_rep L o (t ++ [c]) ->
  exists o', sobj_remove_tail o = Some (o', 0) /\ sobj_rep L o' t /\ flags o' = flags o.
Proof.
  intros Hr. pose proof (rep_size _ _ Hr) as (Hs & Hst & HtL). rewrite length_app in Hs. cbn [length] in Hs.
  unfold sobj_remove_tail. destruct (buff o) as [b|] eqn:Eb.
  2: { destruct Hr as (Hr & _). unfold sobj_room in Hr. rewrite Eb in Hr. destruct Hr as (_ & _ & Hn). by destruct t. }
  destruct (rep_buffer _ _ b Hr Eb) as [x ->]. destruct Hr as (Hr & Hb & _).
  unfold sobj_room in Hr. rewrite Eb in Hr. destruct Hr as (Hl & _).
  rewrite (proj2 (Z.ltb_lt _ _)) by lia. unfold set_char, set_size. cbn [buff]. rewrite Eb. cbn [mbind option_bind].
  replace (size o - 1) with (zlen t) by lia. rewrite <- app_assoc. cbn [app]. rewrite wr_app by done.
  cbn [mbind option_bind]. eexists. split; [done|]. split; [|done]. cbn [flags total size].
  rewrite Forall_app in Hb. apply make_rep; [|done|apply Hb]. rewrite !length_app in *. cbn [length] in *. lia.
Qed.

Lemma strcpy_rep o t s n :
  sobj_rep L o t -> bytes s -> s <> [] -> zlen s + 64 <= L ->
  exists o' n', sobj_strcpy o (Some s) n = Some ((o', 0), n') /\ sobj_rep L o' s /\ flags o' = 0.
Proof.
  intros Hr Hs Hne Hroom. pose proof (rep_size _ _ Hr) as (Hsz & Hst & HtL).
  apply (add_string_room (mkso 0 (total o) 0 (buff o)) []); try done.
  destruct Hr as (Hr & _). unfold sobj_room in *. cbn [buff total size length]. destruct (buff o); [|tauto].
  split_and!; try lia. done.
Qed.

Lemma new_run n : exists n', sobj_new n = Some (Some empty_sobj, n').
Proof.
  unfold sobj_new, xmalloc, xrealloc. erewrite bind_run by reflexivity.
  destruct (grow_total n [] 24) as [b ->]; [lia|]. by exists (S n).
Qed.

Lemma split_rep o t1 t2 n :
  sobj_rep L o (t1 ++ t2) -> t2 <> [] -> cstring (t1 ++ t2) -> zlen t2 + 64 <= L ->
  exists o' new n', sobj_split o (zlen t1) n = Some ((o', Some new), n') /\
    sobj_rep L o' t1 /\ sobj_rep L new t2 /\ flags o' = flags o.
Proof.
  intros Hr Hne Hc Hroom. pose proof (rep_size _ _ Hr) as (Hs & Hst & HtL). rewrite length_app in Hs, Hst.
  destruct t2 as [|c t2]; [done|]. cbn [length] in Hs, Hst.
  unfold sobj_split. destruct (new_run n) as (n1 & E1). rewrite (bind_run _ _ _ _ _ E1).
  rewrite (proj2 (Z.leb_gt _ _)) by lia. destruct (buff o) as [b|] eqn:Eb.
  2: { destruct Hr as (Hr & _). unfold sobj_room in Hr. rewrite Eb in Hr. destruct Hr as (_ & _ & Hn). by destruct t1. }
  destruct (rep_buffer _ _ b Hr Eb) as [x ->]. destruct Hr as (Hr & Hb & _).
  unfold sobj_room in Hr. rewrite Eb in Hr. destruct Hr as (Hl & _).
  rewrite Forall_app in Hc, Hb. destruct Hc as [Hc1 Hc2], Hb as [Hb1 Hb2].
  erewrite bind_run by reflexivity. rewrite Nat2Z.id, <- app_assoc, drop_app_length.
  rewrite (bind_run _ _ _ _ _ (lift_run _ _ _ (c_string_app (c :: t2) x Hc2))).
  destruct (add_string_rep empty_sobj [] (c :: t2) n1 empty_rep Hb2) as (new & n2 & E2 & Hrn & _); [cbn [length] in *; lia|].
  rewrite (bind_run _ _ _ _ _ E2). cbn [Z.ltb Z.compare app].
  assert (set_char o (zlen t1) 0 = Some (mkso (flags o) (total o) (size o) (Some (t1 ++ 0 :: t2 ++ 0 :: x)))) as E3.
  { unfold set_char. rewrite Eb. cbn [mbind option_bind]. rewrite <- app_assoc. cbn [app]. by rewrite wr_app. }
  rewrite (bind_run _ _ _ _ _ (lift_run _ _ _ E3)).
  assert (sobj_get_string (mkso (flags o) (total o) (size o) (Some (t1 ++ 0 :: t2 ++ 0 :: x))) = Some t1) as E4.
  { unfold sobj_get_string. cbn [buff]. by apply c_string_app. }
  rewrite (bind_run _ _ _ _ _ (lift_run _ _ _ E4)). rewrite u32_small by lia.
  eexists _, new, n2. split; [done|]. split; [|done]. unfold set_size. cbn [flags total buff].
  apply make_rep; [|done|done]. rewrite !length_app in *. cbn [length] in *. rewrite length_app. cbn [length]. lia.
Qed.

(** ** Any sequence of operations *)

Inductive sop :=
| AddChar (c : Z) | AddString (s : list Z) | AddFormat (text : list Z) | Format (text : list Z)
| Strcpy (s : list Z) | RemoveChar (at_ : Z) | RemoveTail | SplitAt (at_ : Z) | Free.

(** The call on the object; the result code is dropped, the object split off too. *)
Definition sop_run (o : strobj) (op : sop) : M strobj :=
  match op with
  | AddChar c => r ← sobj_add_char o c; mret (fst r)
  | AddString s => r ← sobj_add_string o (Some s); mret (fst r)
  | AddFormat t => r ← sobj_add_format o (Some t); mret (fst r)
  | Format t => r ← sobj_format o (Some t); mret (fst r)
  | Strcpy s => r ← sobj_strcpy o (Some s); mret (fst r)
  | RemoveChar i => r ← lift (sobj_remove_char o i); mret (fst r)
  | RemoveTail => r ← lift (sobj_remove_tail o); mret (fst r)
  | SplitAt i => r ← sobj_split o i; mret (fst r)
  | Free => mret (sobj_free o)
  end.

(** What each call means for the text. *)
Definition sop_text (t : list Z) (op : sop) : list Z :=
  match op with
  | AddChar c => t ++ [c]
  | AddString s => t ++ s
  | AddFormat s => t ++ take 1023 s
  | Format s => take 1023 s
  | Strcpy s => s
  | RemoveChar i => take (Z.to_nat i) t ++ drop (S (Z.to_nat i)) t
  | RemoveTail => take (length t - 1) t
  | SplitAt i => take (Z.to_nat i) t
  | Free => []
  end.

(** Arguments are C characters and strings; [Strcpy] is given a string that is not empty. *)
Definition sop_ok (op : sop) : Prop :=
  match op with
  | AddChar c => is_char c
  | AddString s | AddFormat s | Format s => cstring s
  | Strcpy s => cstring s /\ s <> []
  | RemoveChar i | SplitAt i => 0 <= i
  | RemoveTail | Free => True
  end.

(** Room for the text before and after the call. *)
Definition sop_fits (t : list Z) (op : sop) : Prop :=
  zlen t + 64 <= L /\ zlen (sop_text t op) + 64 <= L.

Lemma take_cstring n t : cstring t -> cstring (take n t).
Proof using Type. apply Forall_take. Qed.

Lemma sop_step o t op n :
  sobj_rep L o t -> cstring t -> sop_ok op -> sop_fits t op ->
  exists o' n', sop_run o op n = Some (o', n') /\ sobj_rep L o' (sop_text t op) /\ cstring (sop_text t op).
Proof.
  intros Hr Ht Hok [Hf1 Hf2]. destruct op as [c|s|s|s|s|i| |i|]; cbn [sop_run sop_text sop_ok] in *.
  - destruct (add_char_rep o t c n Hr Hf1) as (o' & n' & E & Hr' & _). rewrite (bind_run _ _ _ _ _ E).
    unfold is_char in Hok. rewrite u8_small in Hr' by (unfold is_byte; lia). exists o', n'. split_and!; try done.
    apply Forall_app. split; [done|]. constructor; [done|constructor].
  - rewrite length_app in Hf2. destruct (add_string_rep o t s n Hr (cstring_bytes _ Hok)) as (o' & n' & E & Hr' & _); [lia|].
    rewrite (bind_run _ _ _ _ _ E). exists o', n'. split_and!; try done. by apply Forall_app.
  - pose proof (take_cstring 1023 s Hok) as Hs. rewrite length_app in Hf2.
    destruct (add_string_rep o t (take 1023 s) n Hr (cstring_bytes _ Hs)) as (o' & n' & E & Hr' & _); [lia|].
    unfold sobj_add_format. rewrite (bind_run _ _ n (o', 0) n'); [|by rewrite (bind_run _ _ _ _ _ E)].
    exists o', n'. split_and!; try done. by apply Forall_app.
  - pose proof (take_cstring 1023 s Hok) as Hs.
    destruct (add_string_rep empty_sobj [] (take 1023 s) n empty_rep (cstring_bytes _ Hs)) as (o' & n' & E & Hr' & _); [cbn [length]; lia|].
    unfold sobj_format, sobj_add_format. rewrite (bind_run _ _ n (o', 0) n'); [|by rewrite (bind_run _ _ _ _ _ E)].
    by exists o', n'.
  - destruct Hok as [Hs Hne]. destruct (strcpy_rep o t s n Hr (cstring_bytes _ Hs) Hne) as (o' & n' & E & Hr' & _); [lia|].
    rewrite (bind_run _ _ _ _ _ E). by exists o', n'.
  - destruct (Z.lt_ge_cases i (zlen t)) as [Hlt|Hge].
    + destruct (lookup_lt_is_Some_2 t (Z.to_nat i)) as [c Hc]; [lia|].
      assert (t = take (Z.to_nat i) t ++ c :: drop (S (Z.to_nat i)) t) as Ht' by (symmetry; by apply take_drop_middle).
      rewrite Ht' in Hr. destruct (remove_char_rep _ _ _ _ Hr) as (o' & E & Hr' & _).
      rewrite length_take in E. replace (Z.of_nat (Z.to_nat i `min` length t)) with i in E by lia.
      rewrite (bind_run _ _ _ _ _ (lift_run _ _ _ E)). exists o', n. split_and!; try done.
      apply Forall_app. split; [by apply Forall_take|by apply Forall_drop].
    + assert (sobj_remove_char o i = Some (o, -1)) as E.
      { unfold sobj_remove_char. destruct (buff o); [|done]. destruct (rep_size _ _ Hr) as (-> & _).
        by rewrite (proj2 (Z.leb_le _ _)) by lia. }
      rewrite (bind_run _ _ _ _ _ (lift_run _ _ _ E)). exists o, n.
      rewrite take_ge, drop_ge, app_nil_r by lia. done.
  - destruct t as [|c t _] using rev_ind.
    + assert (exists r, sobj_remove_tail o = Some (o, r)) as [r E].
      { unfold sobj_remove_tail. destruct (buff o); [|by eexists]. destruct (rep_size _ _ Hr) as (-> & _). by eexists. }
      rewrite (bind_run _ _ _ _ _ (lift_run _ _ _ E)). by exists o, n.
    + destruct (remove_tail_rep o t c Hr) as (o' & E & Hr' & _). rewrite (bind_run _ _ _ _ _ (lift_run _ _ _ E)).
      exists o', n. rewrite length_app. cbn [length]. rewrite Nat.add_sub, take_app_length.
      rewrite Forall_app in Ht. split_and!; try done. apply Ht.
  - destruct (Z.lt_ge_cases i (zlen t)) as [Hlt|Hge].
    + rewrite <- (take_drop (Z.to_nat i) t) in Hr, Ht.
      destruct (split_rep o (take (Z.to_nat i) t) (drop (Z.to_nat i) t) n Hr) as (o' & new & n' & E & Hr' & _ & _); try done.
      { intros Hn. apply (f_equal length) in Hn. rewrite length_drop in Hn. cbn in Hn. lia. }
      { rewrite length_drop. lia. }
      rewrite length_take in E. replace (Z.of_nat (Z.to_nat i `min` length t)) with i in E by lia.
      rewrite (bind_run _ _ _ _ _ E). rewrite Forall_app in Ht. exists o', n'. split_and!; try done. apply Ht.
    + destruct (new_run n) as (n1 & E1).
      assert (sobj_split o i n = Some ((o, Some empty_sobj), n1)) as E.
      { unfold sobj_split. rewrite (bind_run _ _ _ _ _ E1). destruct (rep_size _ _ Hr) as (-> & _).
        by rewrite (proj2 (Z.leb_le _ _)) by lia. }
      rewrite (bind_run _ _ _ _ _ E). exists o, n1. by rewrite take_ge by lia.
  - exists empty_sobj, n. split; [done|]. split; [apply empty_rep|done].
Qed.

Fixpoint sops_run (o : strobj) (ops : list sop) : M strobj :=
  match ops with [] => mret o | op :: tl => o ← sop_run o op; sops_run o tl end.

Fixpoint sops_fit (t : list Z) (ops : list sop) : Prop :=
  match ops with [] => True | op :: tl => sop_ok op /\ sop_fits t op /\ sops_fit (sop_text t op) tl end.

Lemma sops_refine ops : forall o t n,
  sobj_rep L o t -> cstring t -> sops_fit t ops ->
  exists o' n', sops_run o ops n = Some (o', n') /\ sobj_rep L o' (foldl sop_text t ops) /\ cstring (foldl sop_text t ops).
Proof.
  induction ops as [|op ops IH]; intros o t n Hr Ht Hf; [by exists o, n|]. destruct Hf as (Hok & Hfit & Hf).
  destruct (sop_step o t op n Hr Ht Hok Hfit) as (o1 & n1 & E & Hr1 & Ht1). cbn [sops_run foldl].
  rewrite (bind_run _ _ _ _ _ E). by apply IH.
Qed.

(** C37. A string object is the text its operations describe, while there is memory: whatever sequence of appends, formatted
    appends, copies of strings that are not empty, removals, splits and frees is applied to a new object, if the texts stay within the
    limit, no access leaves the
    buffer, and the object ends up holding exactly the text that the same operations give on plain
    lists of characters, terminated, with its length. *)
Theorem sobj_refines_text ops n :
  sops_fit [] ops ->
  exists o n', sops_run empty_sobj ops n = Some (o, n') /\
    sobj_get_string o = Some (foldl sop_text [] ops) /\ sobj_get_length o = zlen (foldl sop_text [] ops).
Proof.
  intros Hf. destruct (sops_refine ops empty_sobj [] n empty_rep (Forall_nil_2 _) Hf) as (o & n' & E & Hr & Hc).
  exists o, n'. split; [done|]. split; [by apply get_string_rep|]. by apply rep_size.
Qed.

(** ** Escaping *)

Lemma u8_schar c : is_char c -> u8 (schar c) = c.
Proof using Type. intros Hc. apply schar_u8. unfold is_char, is_byte in *. lia. Qed.

(** One appended character or string, in the continuation style of the loops. *)
Lemma runs_add_char o t c d (k : strobj * Z -> M strobj) fl t' :
  sobj_rep L o t -> zlen t + 64 <= L -> u8 c = d ->
  (forall o', sobj_rep L o' (t ++ [d]) -> flags o' = flags o -> runs (k (o', 0)) fl t') ->
  runs (r ← sobj_add_char o c; k r) fl t'.
Proof.
  intros Hr Hf <- Hk n. destruct (add_char_rep o t c n Hr Hf) as (o' & n' & E & Hr' & Hfl).
  rewrite (bind_run _ _ _ _ _ E). by apply (Hk o').
Qed.

Lemma runs_add_schar o t c (k : strobj * Z -> M strobj) fl t' :
  sobj_rep L o t -> zlen t + 64 <= L -> is_char c ->
  (forall o', sobj_rep L o' (t ++ [c]) -> flags o' = flags o -> runs (k (o', 0)) fl t') ->
  runs (r ← sobj_add_char o (schar c); k r) fl t'.
Proof. intros Hr Hf Hc. apply (runs_add_char o t); try done. by apply u8_schar. Qed.

Lemma runs_add_string o t s (k : strobj * Z -> M strobj) fl t' :
  sobj_rep L o t -> zlen t + zlen s + 64 <= L -> bytes s ->
  (forall o', sobj_rep L o' (t ++ s) -> flags o' = flags o -> runs (k (o', 0)) fl t') ->
  runs (r ← sobj_add_string o (Some s); k r) fl t'.
Proof.
  intros Hr Hf Hs Hk n. destruct (add_string_rep o t s n Hr Hs Hf) as (o' & n' & E & Hr' & Hfl).
  rewrite (bind_run _ _ _ _ _ E). by apply (Hk o').
Qed.

(** Apply the lemma that fits the first call of the goal. *)
Ltac step_add :=
  lazymatch goal with
  | |- runs (mbind _ (sobj_add_string _ _)) _ _ => eapply runs_add_string
  | |- runs (mbind _ (sobj_add_char _ (schar _))) _ _ => eapply runs_add_schar
  | |- runs (mbind _ (sobj_add_char _ ?d)) _ _ => eapply (runs_add_char _ _ d d)
  end.

(** What the escaping loops write for one character. *)
Definition html_char (c : Z) : list Z :=
  if c =? 38 then amp else if c =? 60 then lt_ else if c =? 62 then gt_ else if c =? 34 then quot_ else [c].
Definition xml_char (c : Z) : list Z :=
  if c =? 38 then amp else if c =? 60 then lt_ else if c =? 62 then gt_ else if c =? 34 then quot_
  else if c =? 39 then apos else [c].
Definition hex_of (d : Z) : Z := nth (Z.to_nat d) hex 0.
Definition url_char (c : Z) : list Z :=
  if url_plain c then [c] else [37; hex_of (c / 16); hex_of (c mod 16)].
Definition escape_char (sc : list Z) (c : Z) : list Z :=
  if negb (find_pattern c sc =? 0) then [92; c] else [c].

Definition escaped (f : Z -> list Z) (s : list Z) : list Z := concat (map f s).

Lemma escaped_cons f c s : escaped f (c :: s) = f c ++ escaped f s.
Proof using Type. done. Qed.

(** Case analysis on the characters an escaping function singles out. *)
Ltac char_cases :=
  repeat match goal with
  | |- context [?c =? ?k] => is_var c; destruct (Z.eqb_spec c k); [subst c|]
  end.

Lemma amp_bytes : bytes amp /\ bytes lt_ /\ bytes gt_ /\ bytes quot_ /\ bytes apos.
Proof using Type. split_and!; repeat constructor; vm_compute; discriminate. Qed.

Lemma html_char_len c : (1 <= length (html_char c) <= 6)%nat.
Proof using Type. unfold html_char. char_cases; cbn; lia. Qed.
Lemma xml_char_len c : (1 <= length (xml_char c) <= 6)%nat.
Proof using Type. unfold xml_char. char_cases; cbn; lia. Qed.
Lemma url_char_len c : (1 <= length (url_char c) <= 3)%nat.
Proof using Type. unfold url_char. destruct (url_plain c); cbn; lia. Qed.
Lemma escape_char_len sc c : (1 <= length (escape_char sc c) <= 2)%nat.
Proof using Type. unfold escape_char. destruct (negb _); cbn; lia. Qed.

Lemma escape_html_runs from : forall o t,
  cstring from -> sobj_rep L o t -> zlen t + zlen (escaped html_char from) + 64 <= L ->
  runs (sobj_escape_html_sc from o) (flags o) (t ++ escaped html_char from).
Proof.
  destruct amp_bytes as (? & ? & ? & ? & ?).
  induction from as [|c from IH]; intros o t Hc Hr Hf.
  { cbn [escaped concat map]. rewrite app_nil_r. by apply runs_ret. }
  rewrite Forall_cons_iff in Hc. destruct Hc as [Hc Hcs]. rewrite escaped_cons in *. rewrite length_app in Hf.
  pose proof (html_char_len c) as Hlen. rewrite app_assoc. cbn [sobj_escape_html_sc].
  remember (escaped html_char from) as rest eqn:Erest in *. unfold html_char in Hf, Hlen |- *.
  char_cases; cbn [Z.eqb Pos.eqb] in *;
    step_add; try done; try (cbn in *; lia);
    intros o' Hr' Hfl; rewrite <- Hfl; cbn [fst]; apply IH; try done;
    rewrite ?length_app; cbn in *; lia.
Qed.

Lemma escape_xml_runs from : forall o t,
  cstring from -> sobj_rep L o t -> zlen t + zlen (escaped xml_char from) + 64 <= L ->
  runs (sobj_escape_xml_sc from o) (flags o) (t ++ escaped xml_char from).
Proof.
  destruct amp_bytes as (? & ? & ? & ? & ?).
  induction from as [|c from IH]; intros o t Hc Hr Hf.
  { cbn [escaped concat map]. rewrite app_nil_r. by apply runs_ret. }
  rewrite Forall_cons_iff in Hc. destruct Hc as [Hc Hcs]. rewrite escaped_cons in *. rewrite length_app in Hf.
  pose proof (xml_char_len c) as Hlen. rewrite app_assoc. cbn [sobj_escape_xml_sc].
  remember (escaped xml_char from) as rest eqn:Erest in *. unfold xml_char in Hf, Hlen |- *.
  char_cases; cbn [Z.eqb Pos.eqb] in *;
    step_add; try done; try (cbn in *; lia);
    intros o' Hr' Hfl; rewrite <- Hfl; cbn [fst]; apply IH; try done;
    rewrite ?length_app; cbn in *; lia.
Qed.

(** Unescaping what was escaped gives the text back. *)
Lemma unescape_html_runs from : forall fuel o t,
  cstring from -> sobj_rep L o t -> (length (escaped html_char from) <= fuel)%nat -> zlen t + zlen from + 64 <= L ->
  runs (unescape_html_loop fuel (escaped html_char from) o) (flags o) (t ++ from).
Proof.
  induction from as [|c from IH]; intros fuel o t Hc Hr Hfuel Hf.
  { cbn [escaped concat map]. rewrite app_nil_r. destruct fuel; by apply runs_ret. }
  rewrite Forall_cons_iff in Hc. destruct Hc as [Hc Hcs]. rewrite escaped_cons, length_app in *.
  pose proof (html_char_len c) as Hlen. cbn [length] in Hf. rewrite (cons_middle c t), app_assoc.
  destruct fuel as [|fuel]; [lia|].
  remember (escaped html_char from) as rest eqn:Erest in *. unfold html_char in Hfuel, Hlen |- *.
  char_cases; cbn [Z.eqb Pos.eqb] in *; cbn [amp lt_ gt_ quot_ app unescape_html_loop].
  all: try (cbn -[escaped mbind sobj_add_char unescape_html_loop u8 schar]).
  all: try rewrite (proj2 (Z.eqb_neq c 38)) by done; cbn [negb].
  all: step_add; try done; try lia.
  all: intros o' Hr' Hfl; rewrite <- Hfl; cbn [drop app fst]; apply IH; try done; rewrite ?length_app; cbn [length] in *; try lia.
  all: cbn in Hfuel; lia.
Qed.

Lemma unescape_xml_runs from : forall fuel o t,
  cstring from -> sobj_rep L o t -> (length (escaped xml_char from) <= fuel)%nat -> zlen t + zlen from + 64 <= L ->
  runs (unescape_xml_loop fuel (escaped xml_char from) o) (flags o) (t ++ from).
Proof.
  induction from as [|c from IH]; intros fuel o t Hc Hr Hfuel Hf.
  { cbn [escaped concat map]. rewrite app_nil_r. destruct fuel; by apply runs_ret. }
  rewrite Forall_cons_iff in Hc. destruct Hc as [Hc Hcs]. rewrite escaped_cons, length_app in *.
  pose proof (xml_char_len c) as Hlen. cbn [length] in Hf. rewrite (cons_middle c t), app_assoc.
  destruct fuel as [|fuel]; [lia|].
  remember (escaped xml_char from) as rest eqn:Erest in *. unfold xml_char in Hfuel, Hlen |- *.
  char_cases; cbn [Z.eqb Pos.eqb] in *; cbn [amp lt_ gt_ quot_ apos app unescape_xml_loop].
  all: try (cbn -[escaped mbind sobj_add_char unescape_xml_loop u8 schar]).
  all: try rewrite (proj2 (Z.eqb_neq c 38)) by done; cbn [negb].
  all: step_add; try done; try lia.
  all: intros o' Hr' Hfl; rewrite <- Hfl; cbn [drop app fst]; apply IH; try done; rewrite ?length_app; cbn [length] in *; try lia.
  all: cbn in Hfuel; lia.
Qed.

(** *** URL encoding of 7-bit characters *)

Definition is_ascii (c : Z) : Prop := 0 < c < 128.

Lemma ascii_char c : is_ascii c -> is_char c.
Proof using Type. unfold is_ascii, is_char. lia. Qed.

Lemma url_facts c : is_ascii c ->
  (url_plain c = true -> c <> 37 /\ c <> 43) /\
  (rd hex (Z.shiftr (schar c) 4) = Some (hex_of (c / 16)) /\ rd hex (Z.land (schar c) 15) = Some (hex_of (c mod 16))) /\
  (isxdigit (hex_of (c / 16)) = true /\ isxdigit (hex_of (c mod 16)) = true /\
   ctoi (hex_of (c / 16)) * 16 + ctoi (hex_of (c mod 16)) = c) /\
  is_byte (hex_of (c / 16)) /\ is_byte (hex_of (c mod 16)).
Proof using Type.
  intros Hc.
  assert (forall c, 0 <= c < 128 ->
    (negb (url_plain c) || (negb (c =? 37) && negb (c =? 43))) &&
    bool_decide (rd hex (Z.shiftr (schar c) 4) = Some (hex_of (c / 16))) &&
    bool_decide (rd hex (Z.land (schar c) 15) = Some (hex_of (c mod 16))) &&
    isxdigit (hex_of (c / 16)) && isxdigit (hex_of (c mod 16)) &&
    (ctoi (hex_of (c / 16)) * 16 + ctoi (hex_of (c mod 16)) =? c) &&
    (0 <=? hex_of (c / 16)) && (hex_of (c / 16) <? 256) && (0 <=? hex_of (c mod 16)) && (hex_of (c mod 16) <? 256) = true) as Hall.
  { apply check_range. by vm_compute. }
  specialize (Hall c ltac:(unfold is_ascii in Hc; lia)). rewrite !andb_true_iff in Hall.
  destruct Hall as (((((((((H1 & H2) & H3) & H4) & H5) & H6) & H7) & H8) & H9) & H10).
  apply bool_decide_eq_true in H2, H3. apply Z.eqb_eq in H6. bprop.
  split; [intros Hp; rewrite Hp in H1; cbn in H1; bprop; lia|]. split_and!; try done.
Qed.

Lemma urlencode_runs from : forall o t,
  Forall is_ascii from -> sobj_rep L o t -> zlen t + zlen (escaped url_char from) + 64 <= L ->
  runs (sobj_urlencode_sc from o) (flags o) (t ++ escaped url_char from).
Proof.
  induction from as [|c from IH]; intros o t Hc Hr Hf.
  { cbn [escaped concat map]. rewrite app_nil_r. by apply runs_ret. }
  rewrite Forall_cons_iff in Hc. destruct Hc as [Hc Hcs]. rewrite escaped_cons, length_app in *.
  destruct (url_facts c Hc) as (_ & [E1 E2] & _ & [Hb1 Hb2]). rewrite app_assoc. cbn [sobj_urlencode_sc].
  unfold url_char at 1 in Hf. unfold url_char at 1. destruct (url_plain c).
  - eapply runs_add_schar; [done|cbn in Hf; lia|by apply ascii_char|]. intros o' Hr' Hfl. rewrite <- Hfl.
    apply IH; try done. rewrite length_app. lia.
  - cbn [length] in Hf. eapply (runs_add_char o t 37 37); [done|lia|done|]. intros o1 Hr1 Hf1 n. cbn [fst].
    rewrite (bind_run _ _ _ _ _ (lift_run _ _ _ E1)). revert n.
    eapply runs_add_char; [done|rewrite length_app; cbn [length]; lia|by apply u8_small|]. intros o2 Hr2 Hf2 n. cbn [fst].
    rewrite (bind_run _ _ _ _ _ (lift_run _ _ _ E2)). revert n.
    eapply runs_add_char; [done|rewrite !length_app; cbn [length]; lia|by apply u8_small|]. intros o3 Hr3 Hf3.
    replace (flags o) with (flags o3) by congruence. rewrite <- !app_assoc in Hr3. cbn [app fst] in Hr3 |- *.
    apply IH; try done. rewrite !length_app. cbn [length]. lia.
Qed.

Lemma urldecode_runs from : forall fuel o t,
  Forall is_ascii from -> sobj_rep L o t -> (length (escaped url_char from) <= fuel)%nat -> zlen t + zlen from + 64 <= L ->
  runs (urldecode_loop fuel (escaped url_char from) o) (flags o) (t ++ from).
Proof.
  induction from as [|c from IH]; intros fuel o t Hc Hr Hfuel Hf.
  { cbn [escaped concat map]. rewrite app_nil_r. destruct fuel; by apply runs_ret. }
  rewrite Forall_cons_iff in Hc. destruct Hc as [Hc Hcs]. rewrite escaped_cons, length_app in *.
  pose proof (url_char_len c) as Hlen. cbn [length] in Hf. rewrite (cons_middle c t), app_assoc.
  destruct fuel as [|fuel]; [lia|]. destruct (url_facts c Hc) as (Hp & _ & (Hx1 & Hx2 & Hx3) & _).
  unfold url_char at 1. unfold url_char at 1 in Hfuel. destruct (url_plain c).
  - destruct (Hp eq_refl) as [Hn1 Hn2]. cbn [app urldecode_loop].
    rewrite (proj2 (Z.eqb_neq c 37)), (proj2 (Z.eqb_neq c 43)) by done. cbn [andb drop].
    eapply runs_add_schar; [done|lia|by apply ascii_char|]. intros o' Hr' Hfl. rewrite <- Hfl.
    apply IH; try done; [cbn in Hfuel; lia|]. rewrite length_app. cbn [length]. lia.
  - cbn [app urldecode_loop deref hd drop]. rewrite Z.eqb_refl, Hx1, Hx2, Hx3. cbn [andb].
    eapply (runs_add_char _ _ _ c); [done|lia|apply u8_small; unfold is_ascii, is_byte in *; lia|].
    intros o' Hr' Hfl. rewrite <- Hfl. apply IH; try done; [cbn in Hfuel; lia|]. rewrite length_app. cbn [length]. lia.
Qed.

(** ** Round trips *)

Lemma escaped_cstring f s : (forall c, is_char c -> cstring (f c)) -> cstring s -> cstring (escaped f s).
Proof using Type.
  intros Hf Hs. induction Hs as [|c s Hc _ IH]; [constructor|]. rewrite escaped_cons. apply Forall_app. auto.
Qed.

Ltac literal_cstring := repeat constructor; vm_compute; discriminate.

Lemma html_char_cstring c : is_char c -> cstring (html_char c).
Proof using Type. intros Hc. unfold html_char. char_cases; try literal_cstring. constructor; [done|constructor]. Qed.
Lemma xml_char_cstring c : is_char c -> cstring (xml_char c).
Proof using Type. intros Hc. unfold xml_char. char_cases; try literal_cstring. constructor; [done|constructor]. Qed.

(** Escaping for HTML and for XML is undone by the matching unescaping: for every C string, the text
    written by the escaping routine into one object, unescaped into another, is the string again. *)
Theorem sobj_markup_roundtrip from n :
  cstring from -> 6 * zlen from + 64 <= L ->
  (exists o1 n1 e o2 n2, sobj_escape_html_sc from empty_sobj n = Some (o1, n1) /\ sobj_get_string o1 = Some e /\
     sobj_unescape_html_sc e empty_sobj n1 = Some (o2, n2) /\ sobj_get_string o2 = Some from) /\
  (exists o1 n1 e o2 n2, sobj_escape_xml_sc from empty_sobj n = Some (o1, n1) /\ sobj_get_string o1 = Some e /\
     sobj_unescape_xml_sc e empty_sobj n1 = Some (o2, n2) /\ sobj_get_string o2 = Some from).
Proof.
  intros Hc Hf.
  assert (forall f, (forall c, (1 <= length (f c) <= 6)%nat) -> zlen (escaped f from) <= 6 * zlen from) as Hlen.
  { intros f Hf1. clear -Hf1. induction from as [|c s IH]; [done|]. rewrite escaped_cons, length_app. cbn [length].
    specialize (Hf1 c). lia. }
  split.
  - destruct (escape_html_runs from empty_sobj [] Hc empty_rep) with (n := n) as (o1 & n1 & E1 & R1 & _).
    { specialize (Hlen html_char html_char_len). cbn [length]. lia. }
    destruct (unescape_html_runs from (length (escaped html_char from)) empty_sobj [] Hc empty_rep) with (n := n1)
      as (o2 & n2 & E2 & R2 & _); [lia|cbn [length]; lia|].
    exists o1, n1, (escaped html_char from), o2, n2. split_and!; try done; apply get_string_rep; try done.
    apply escaped_cstring; [apply html_char_cstring|done].
  - destruct (escape_xml_runs from empty_sobj [] Hc empty_rep) with (n := n) as (o1 & n1 & E1 & R1 & _).
    { specialize (Hlen xml_char xml_char_len). cbn [length]. lia. }
    destruct (unescape_xml_runs from (length (escaped xml_char from)) empty_sobj [] Hc empty_rep) with (n := n1)
      as (o2 & n2 & E2 & R2 & _); [lia|cbn [length]; lia|].
    exists o1, n1, (escaped xml_char from), o2, n2. split_and!; try done; apply get_string_rep; try done.
    apply escaped_cstring; [apply xml_char_cstring|done].
Qed.

Lemma url_char_cstring c : is_ascii c -> cstring (url_char c).
Proof using Type.
  intros Hc. unfold url_char. destruct (url_plain c); [constructor; [by apply ascii_char|constructor]|].
  destruct (url_facts c Hc) as (_ & _ & (H1 & H2 & _) & (Hb1 & Hb2)).
  assert (forall x, is_byte x -> isxdigit x = true -> is_char x) as Hx.
  { intros x Hb. unfold is_char, is_byte in *. destruct (Z.eq_dec x 0) as [->|]; [done|lia]. }
  repeat constructor; try (by vm_compute); by apply Hx.
Qed.

(** URL encoding of 7-bit text is undone by URL decoding. *)
Theorem sobj_url_roundtrip from n :
  Forall is_ascii from -> 3 * zlen from + 64 <= L ->
  exists o1 n1 e o2 n2, sobj_urlencode_sc from empty_sobj n = Some (o1, n1) /\ sobj_get_string o1 = Some e /\
    sobj_urldecode e empty_sobj n1 = Some (o2, n2) /\ sobj_get_string o2 = Some from.
Proof.
  intros Hc Hf. assert (cstring from) as Hcs by (revert Hc; apply List.Forall_impl; apply ascii_char).
  assert (zlen (escaped url_char from) <= 3 * zlen from) as Hlen.
  { clear. induction from as [|c s IH]; [done|]. rewrite escaped_cons, length_app. cbn [length].
    pose proof (url_char_len c). lia. }
  destruct (urlencode_runs from empty_sobj [] Hc empty_rep) with (n := n) as (o1 & n1 & E1 & R1 & _); [cbn [length]; lia|].
  destruct (urldecode_runs from (length (escaped url_char from)) empty_sobj [] Hc empty_rep) with (n := n1)
    as (o2 & n2 & E2 & R2 & _); [lia|cbn [length]; lia|].
  exists o1, n1, (escaped url_char from), o2, n2. split_and!; try done; apply get_string_rep; try done.
  clear -Hc. induction Hc as [|c s Hc _ IH]; [constructor|]. rewrite escaped_cons. apply Forall_app.
  split; [by apply url_char_cstring|done].
Qed.

(** ** Quoted tokens *)

Lemma escape_character_runs sc from : forall o t,
  cstring from -> sobj_rep L o t -> zlen t + zlen (escaped (escape_char sc) from) + 64 <= L ->
  runs (escape_character 92 sc from o) (flags o) (t ++ escaped (escape_char sc) from).
Proof.
  induction from as [|c from IH]; intros o t Hc Hr Hf.
  { cbn [escaped concat map]. rewrite app_nil_r. by apply runs_ret. }
  rewrite Forall_cons_iff in Hc. destruct Hc as [Hc Hcs]. rewrite escaped_cons, length_app in *.
  rewrite app_assoc. cbn [escape_character]. unfold escape_char at 1. unfold escape_char at 1 in Hf.
  destruct (negb (find_pattern c sc =? 0)); cbn [length] in Hf.
  - intros n. destruct (add_char_rep o t 92 n Hr) as (o1 & n1 & E1 & Hr1 & Hf1); [lia|].
    rewrite (bind_run _ _ n o1 n1); [|by rewrite (bind_run _ _ _ _ _ E1)]. revert n1 E1. intros n1 _. revert n1.
    eapply runs_add_schar; [done|rewrite length_app; cbn [length]; lia|done|]. intros o2 Hr2 Hf2.
    replace (flags o) with (flags o2) by congruence. rewrite <- !app_assoc in Hr2. cbn [app] in Hr2.
    apply IH; try done. rewrite !length_app. cbn [length]. lia.
  - intros n. rewrite (bind_run _ _ n o n) by done. revert n.
    eapply runs_add_schar; [done|lia|done|]. intros o2 Hr2 Hf2. rewrite <- Hf2.
    apply IH; try done. rewrite !length_app. cbn [length]. lia.
Qed.

(** A set of characters that survives quoting: it has the backslash and the quotation mark, and no
    letter the reader translates. *)
Definition quoting_set (sc : list Z) : Prop :=
  find_pattern 92 sc <> 0 /\ find_pattern 34 sc <> 0 /\ forall c, find_pattern c sc <> 0 -> unescaped c = c.

Lemma getc_next fd c tl :
  stream_ok fd -> pending fd = c :: tl ->
  exists fd', xs_getc fd = Some (fd', c) /\ stream_ok fd' /\ pending fd' = tl.
Proof using Type.
  intros Hok Hp. destruct (xs_getc_spec fd Hok) as (fd' & Hok' & Hx). rewrite Hp in Hx.
  exists fd'. by destruct Hx.
Qed.

Lemma char_tests c : is_char c -> (c =? EOF) = false /\ (c =? 0) = false.
Proof using Type. unfold is_char, EOF. intros Hc. split; apply Z.eqb_neq; lia. Qed.

(** One turn of the reader inside quotation marks, on a character that is kept. *)
Lemma read_keep fuel fd fd' so end_ c esc d (escape : bool) n so' n' :
  xs_getc fd = Some (fd', c) -> is_char c -> sobj_add_char so d n = Some ((so', 0), n') ->
  (if escape then unescaped c = d else c = d /\ c <> 34 /\ (negb (esc =? 0) && (c =? schar esc)) = false) ->
  read_loop (S fuel) fd so end_ esc escape 34 n = read_loop fuel fd' so' end_ esc false 34 n'.
Proof using Type.
  intros Eg Hc Ea Hd. destruct (char_tests c Hc) as [Ht1 Ht2]. cbn [read_loop].
  rewrite (bind_run _ _ _ _ _ (lift_run _ _ _ Eg)), Ht1, Ht2. cbn [Z.ltb Z.compare andb Z.eqb negb].
  destruct escape.
  - rewrite Hd, (bind_run _ _ _ _ _ Ea). done.
  - destruct Hd as (<- & H34 & ->). rewrite (proj2 (Z.eqb_neq c 34) H34), (bind_run _ _ _ _ _ Ea). done.
Qed.

Lemma read_quoted_runs sc s end_ : quoting_set sc -> forall fuel fd so t rest n,
  cstring s -> stream_ok fd -> pending fd = escaped (escape_char sc) s ++ 34 :: rest ->
  sobj_rep L so t -> zlen t + zlen s + 64 <= L -> (length (escaped (escape_char sc) s) < fuel)%nat ->
  exists fd' so' n', read_loop fuel fd so end_ 92 false 34 n = Some ((fd', so', mkend false 34 34), n') /\
    stream_ok fd' /\ pending fd' = rest /\ sobj_rep L so' (t ++ s) /\ flags so' = Z.lor (flags so) SO_FLAG_QUOT_STRING.
Proof.
  intros (Hq1 & Hq2 & Hq3). induction s as [|c s IH]; intros fuel fd so t rest n Hs Hok Hp Hr Hf Hfuel.
  - destruct (getc_next fd 34 rest Hok Hp) as (fd' & Eg & Hok' & Hp'). destruct fuel as [|fuel]; [cbn in Hfuel; lia|].
    cbn [read_loop]. rewrite (bind_run _ _ _ _ _ (lift_run _ _ _ Eg)).
    exists fd', (set_quot so), n. split_and!; try done. rewrite app_nil_r. exact Hr.
  - rewrite Forall_cons_iff in Hs. destruct Hs as [Hc Hs]. rewrite escaped_cons, length_app in *.
    cbn [length] in Hf. rewrite (cons_middle c t), app_assoc.
    assert (is_byte c) as Hbc by (unfold is_char, is_byte in *; lia).
    destruct (add_char_rep so t c n Hr) as (so1 & n1 & Ea & Hr1 & Hf1); [lia|]. rewrite u8_small in Hr1 by done.
    assert (zlen (t ++ [c]) + zlen s + 64 <= L) as Hf' by (rewrite length_app; cbn [length]; lia).
    unfold escape_char at 1 in Hp. unfold escape_char at 1 in Hfuel.
    destruct (Z.eqb_spec (find_pattern c sc) 0) as [Hnot|Hin]; cbn [negb app length] in Hp, Hfuel.
    + destruct (getc_next fd c _ Hok Hp) as (fd1 & Eg & Hok1 & Hp1). destruct fuel as [|fuel]; [lia|].
      rewrite (read_keep fuel fd fd1 so end_ c 92 c false n so1 n1 Eg Hc Ea).
      * destruct (IH fuel fd1 so1 (t ++ [c]) rest n1) as (fd2 & so2 & n2 & E & H1 & H2 & H3 & H4); try done; [lia|].
        exists fd2, so2, n2. split_and!; try done. congruence.
      * split; [done|]. split; [intros ->; done|]. cbn [Z.eqb negb andb]. change (schar 92) with 92.
        apply Z.eqb_neq. intros ->. done.
    + destruct (getc_next fd 92 _ Hok Hp) as (fd0 & Eg0 & Hok0 & Hp0).
      destruct (getc_next fd0 c _ Hok0 Hp0) as (fd1 & Eg & Hok1 & Hp1).
      destruct fuel as [|[|fuel]]; [lia..|].
      assert (read_loop (S (S fuel)) fd so end_ 92 false 34 n = read_loop (S fuel) fd0 so end_ 92 true 34 n) as ->.
      { cbn [read_loop]. rewrite (bind_run _ _ _ _ _ (lift_run _ _ _ Eg0)). done. }
      rewrite (read_keep fuel fd0 fd1 so end_ c 92 c true n so1 n1 Eg Hc Ea) by (by apply Hq3).
      destruct (IH fuel fd1 so1 (t ++ [c]) rest n1) as (fd2 & so2 & n2 & E & H1 & H2 & H3 & H4); try done; [lia|].
      exists fd2, so2, n2. split_and!; try done. congruence.
Qed.

Lemma javascript_set : quoting_set [92; 34; 39].
Proof using Type.
  split; [done|]. split; [done|]. intros c. cbn [find_pattern].
  destruct (Z.eqb_spec 92 c) as [<-|]; [done|]. destruct (Z.eqb_spec 34 c) as [<-|]; [done|].
  destruct (Z.eqb_spec 39 c) as [<-|]; done.
Qed.

Lemma shellscript_set : quoting_set [92; 36; 34; 96].
Proof using Type.
  split; [done|]. split; [done|]. intros c. cbn [find_pattern].
  destruct (Z.eqb_spec 92 c) as [<-|]; [done|]. destruct (Z.eqb_spec 36 c) as [<-|]; [done|].
  destruct (Z.eqb_spec 34 c) as [<-|]; [done|]. destruct (Z.eqb_spec 96 c) as [<-|]; done.
Qed.

Lemma escape_char_cstring sc c : is_char c -> cstring (escape_char sc c).
Proof using Type.
  intros Hc. unfold escape_char. destruct (negb _); [|constructor; [done|constructor]].
  constructor; [by vm_compute|]. constructor; [done|constructor].
Qed.

Lemma quoted_roundtrip sc s rest fd end_ n :
  quoting_set sc -> cstring s -> 2 * zlen s + 64 <= L -> stream_ok fd ->
  pending fd = 34 :: escaped (escape_char sc) s ++ 34 :: rest ->
  exists fd' so n', sobj_xstream_read fd empty_sobj end_ n = Some ((fd', so, 34, 34), n') /\
    sobj_get_string so = Some s /\ sobj_get_flags so = SO_FLAG_QUOT_STRING /\ pending fd' = rest.
Proof.
  intros Hsc Hs Hf Hok Hp. unfold sobj_xstream_read, sobj_xstream_read_esc, stream_fuel. rewrite Hp.
  destruct (getc_next fd 34 _ Hok Hp) as (fd1 & Eg & Hok1 & Hp1).
  destruct (read_quoted_runs sc s end_ Hsc (length (34 :: escaped (escape_char sc) s ++ 34 :: rest)) fd1 empty_sobj [] rest n
    Hs Hok1 Hp1 empty_rep) as (fd2 & so & n2 & E & _ & Hp2 & Hr2 & Hfl).
  { cbn [length]. lia. }
  { cbn [length]. rewrite length_app. lia. }
  exists fd2, so, n2. split; [|split_and!; [by apply get_string_rep|exact Hfl|done]].
  rewrite (bind_run _ _ n (fd2, so, mkend false 34 34) n2); [done|]. cbn [read_loop].
  rewrite (bind_run _ _ _ _ _ (lift_run _ _ _ Eg)). cbn [EOF Z.eqb Pos.eqb is_quote orb Z.ltb Z.compare andb]. exact E.
Qed.

(** A string printed between double quotation marks with its special characters escaped, as the
    database and the script writers do, is read back by the token reader: for every C string,
    escaped for JavaScript or for the shell, a stream that delivers the quoted text makes
    [sobj_xstream_read] return the closing mark, the original string, flagged as quoted, and leaves
    the stream right behind it. *)
Theorem sobj_quoted_roundtrip s rest fd end_ n :
  cstring s -> 2 * zlen s + 64 <= L -> stream_ok fd ->
  (forall o1 n1 e, sobj_escape_javascript s empty_sobj n = Some (o1, n1) -> sobj_get_string o1 = Some e ->
     pending fd = 34 :: e ++ 34 :: rest ->
     exists fd' so n', sobj_xstream_read fd empty_sobj end_ n1 = Some ((fd', so, 34, 34), n') /\
       sobj_get_string so = Some s /\ sobj_get_flags so = SO_FLAG_QUOT_STRING /\ pending fd' = rest) /\
  (forall o1 n1 e, sobj_escape_shellscript s empty_sobj n = Some (o1, n1) -> sobj_get_string o1 = Some e ->
     pending fd = 34 :: e ++ 34 :: rest ->
     exists fd' so n', sobj_xstream_read fd empty_sobj end_ n1 = Some ((fd', so, 34, 34), n') /\
       sobj_get_string so = Some s /\ sobj_get_flags so = SO_FLAG_QUOT_STRING /\ pending fd' = rest) /\
  (exists o1 n1 e, sobj_escape_javascript s empty_sobj n = Some (o1, n1) /\ sobj_get_string o1 = Some e) /\
  (exists o1 n1 e, sobj_escape_shellscript s empty_sobj n = Some (o1, n1) /\ sobj_get_string o1 = Some e).
Proof.
  intros Hs Hf Hok.
  assert (forall sc, quoting_set sc -> exists o1 n1, escape_character 92 sc s empty_sobj n = Some (o1, n1) /\
    sobj_get_string o1 = Some (escaped (escape_char sc) s)) as Hesc.
  { intros sc _. destruct (escape_character_runs sc s empty_sobj [] Hs empty_rep) with (n := n) as (o1 & n1 & E & R & _).
    - cbn [length]. assert (zlen (escaped (escape_char sc) s) <= 2 * zlen s); [|lia].
      clear. induction s as [|c s IH]; [done|]. rewrite escaped_cons, length_app. cbn [length].
      pose proof (escape_char_len sc c). lia.
    - exists o1, n1. split; [done|]. apply get_string_rep; [done|].
      apply escaped_cstring; [apply escape_char_cstring|done]. }
  destruct (Hesc _ javascript_set) as (j1 & m1 & Ej & Gj). destruct (Hesc _ shellscript_set) as (s1 & k1 & Es & Gs).
  unfold sobj_escape_javascript, sobj_escape_shellscript. rewrite Ej, Es.
  split_and!; [| |by eauto|by eauto]; intros o1 n1 e [= <- <-] Ge Hp.
  - rewrite Gj in Ge. injection Ge as <-. by apply (quoted_roundtrip [92; 34; 39]); [apply javascript_set|..].
  - rewrite Gs in Ge. injection Ge as <-. by apply (quoted_roundtrip [92; 36; 34; 96]); [apply shellscript_set|..].
Qed.

End Text.

(** ** The allocator of mem_helper.c is a [Grower] *)

Section FromMemHelper.
Import MemHelper.MemHelper.
Context (sys_malloc : nat -> list (Z * Z) -> Z -> option Z) (fresh_byte : nat -> Z -> Z) (sys_strdup : nat -> bool).
Context (Hfresh : malloc_fresh sys_malloc).

(** The history of a program: the state of the allocator at its [n]-th string allocation, and the
    block in use that is being grown then. *)
Context (sts : nat -> mh) (ptrs : nat -> Z).
Context (Hsts : forall n, mh_inv (sts n)).
Context (Hptrs : forall n, ptrs n <> 0 /\ exists s, In (MEMHDR (ptrs n)) (mpool_used_list (get_pool (sts n) s))).

(** The first [size] bytes of the block returned. *)
Definition block_bytes (st : mh) (ptr size : Z) : option (list Z) :=
  if ptr =? 0 then None else d ← data st !! MEMHDR ptr; Some (take (Z.to_nat size) d).

Definition mh_grow (n : nat) (b : list Z) (size : Z) : option (list Z) :=
  match b with
  | [] => let '(st, p) := mh_malloc sys_malloc fresh_byte sys_strdup (sts n) size [] 0 in block_bytes st p size
  | _ :: _ =>
      st ← store (sts n) (ptrs n) b;
      r ← mh_realloc sys_malloc fresh_byte sys_strdup st (ptrs n) size [] 0;
      block_bytes (fst r) (snd r) size
  end.

Lemma take_block size (b x : list Z) :
  zlen b <= size -> size <= zlen (b ++ x) ->
  zlen (take (Z.to_nat size) (b ++ x)) = size /\ take (length b) (take (Z.to_nat size) (b ++ x)) = b.
Proof.
  intros H1 H2. rewrite length_take. split; [lia|]. rewrite take_take.
  replace (Nat.min (length b) (Z.to_nat size)) with (length b) by lia. apply take_app_length.
Qed.

Lemma mh_grow_ok n b size b' :
  zlen b <= size -> mh_grow n b size = Some b' -> zlen b' = size /\ take (length b) b' = b.
Proof using Hfresh Hsts Hptrs.
  intros Hsz. unfold mh_grow. destruct b as [|c b].
  - pose proof (mh_malloc_inv sys_malloc fresh_byte sys_strdup (sts n) size [] 0 Hfresh (Hsts n)) as Hm.
    destruct (mh_malloc sys_malloc fresh_byte sys_strdup (sts n) size [] 0) as [st p].
    destruct Hm as (Hinv & _ & Ha). unfold block_bytes. destruct (Z.eqb_spec p 0) as [|Hp]; [done|].
    destruct Ha as [[? _]|(s & Hs & Hz & Ht & _)]; [done|].
    destruct (used_blocks _ _ _ Hinv (took_block _ _ _ _ Hinv Ht)) as [Hs1 Hb].
    destruct (blk_data _ _ _ (inv_blk _ _ _ Hinv s _ Hs1 Hb)) as (d & Hd & Hl). rewrite Hd. intros [= <-].
    apply (take_block size [] d); [done|]. cbn [app]. lia.
  - intros E. apply bind_Some in E as (st & Est & E). apply bind_Some in E as ([st' p'] & Er & E). cbn [fst snd] in E.
    destruct (Hptrs n) as (Hp & s & Hu).
    destruct (store_inv _ _ _ _ (Hsts n) Est) as (Hinv & Hsame & _ & _ & (d & Hd & Hd')).
    rewrite <- Hsame in Hu.
    destruct (realloc_spec sys_malloc fresh_byte sys_strdup st s (ptrs n) size [] 0 _ Hfresh Hinv Hp Hu Hd')
      as (st2 & p2 & Er2 & H1 & _ & H2).
    rewrite Er in Er2. injection Er2 as <- <-. unfold block_bytes in E. destruct (Z.eqb_spec p' 0) as [|Hp']; [done|].
    set (old := (c :: b) ++ drop (length (c :: b)) d) in *.
    destruct (Z.le_gt_cases size (zlen old)) as [Hle|Hgt].
    + destruct (H1 Hle) as [-> ->]. rewrite Hd' in E. injection E as <-. by apply take_block.
    + destruct (H2 Hgt Hp') as (s' & tl & Hl & Hd2 & _). rewrite Hd2 in E. injection E as <-.
      unfold old in *. rewrite <- app_assoc in *. by apply (take_block size (c :: b)).
Qed.

#[export] Instance mem_helper_grower : Grower := {| grow := mh_grow; grow_ok := mh_grow_ok |}.

End FromMemHelper.

(** ** Walking a list of objects *)

(** Calling [get] until it returns NULL, at most [fuel] times. *)
Fixpoint walk (get : solist -> option (solist * option Z)) (fuel : nat) (l : solist) : option (solist * list Z) :=
  match fuel with
  | O => None
  | S fuel' =>
      r ← get l;
      match snd r with
      | None => Some (fst r, [])
      | Some so => q ← walk get fuel' (fst r); Some (fst q, so :: snd q)
      end
  end.

Lemma next_of_mid pre x post : ~ In x pre -> next_of (pre ++ x :: post) x = Some (head post).
Proof.
  induction pre as [|y pre IH]; intros Hn; cbn [app next_of]; [by rewrite Z.eqb_refl|].
  cbn [In] in Hn. rewrite (proj2 (Z.eqb_neq y x)) by tauto. apply IH. tauto.
Qed.

(** [get] follows the entries in the order [es], which is that of the links or the reverse one. *)
Definition follows (get : solist -> option (solist * option Z)) (es l : list Z) : Prop :=
  forall c, get (mksol l c) =
    (so ← match c with Some e => next_of es e | None => Some (head es) end; Some (mksol l so, so)).

Lemma walk_from get l post : forall pre x,
  NoDup (pre ++ x :: post) -> follows get (pre ++ x :: post) l ->
  walk get (S (length post)) (mksol l (Some x)) = Some (mksol l None, post).
Proof.
  induction post as [|y post IH]; intros pre x Hnd Hget.
  all: assert (~ In x pre) as Hx by
    (apply list.NoDup_app in Hnd as (_ & Hd & _); rewrite <- list_elem_of_In; intros Hin; apply (Hd x Hin); by left).
  - cbn [length walk]. rewrite Hget, next_of_mid by done. done.
  - specialize (IH (pre ++ [x]) y). rewrite <- app_assoc in IH. specialize (IH Hnd Hget).
    change (walk get (S (length (y :: post))) (mksol l (Some x))) with
      (r ← get (mksol l (Some x));
       match snd r with
       | None => Some (fst r, [])
       | Some so => q ← walk get (S (length post)) (fst r); Some (fst q, so :: snd q)
       end).
    rewrite Hget, next_of_mid by done. cbn [head mbind option_bind fst snd]. by rewrite IH.
Qed.

Lemma walk_all get es l :
  NoDup es -> follows get es l -> walk get (S (length es)) (mksol l None) = Some (mksol l None, es).
Proof.
  intros Hnd Hget. destruct es as [|x post]; [cbn [length walk]; by rewrite Hget|].
  pose proof (walk_from get l post [] x Hnd Hget) as Hw.
  change (walk get (S (length (x :: post))) (mksol l None)) with
    (r ← get (mksol l None);
     match snd r with
     | None => Some (fst r, [])
     | Some so => q ← walk get (S (length post)) (fst r); Some (fst q, so :: snd q)
     end).
  rewrite Hget. cbn [head mbind option_bind fst snd]. by rewrite Hw.
Qed.

(** Walking a list of string objects: after [solist_get_reset], [solist_get_next] returns the objects in
    the order they were added, then NULL, and the cursor is reset; [solist_get_prev] does the same
    from the end; removing an object takes it, and only it, out of both walks. *)
Theorem solist_walks l so :
  NoDup (sol_entries l) ->
  let es := sol_entries (solist_remove l so) in
  walk solist_get_next (S (length (sol_entries l))) (solist_get_reset l) = Some (solist_get_reset l, sol_entries l) /\
  walk solist_get_prev (S (length (sol_entries l))) (solist_get_reset l) = Some (solist_get_reset l, rev (sol_entries l)) /\
  walk solist_get_next (S (length es)) (solist_get_reset (solist_remove l so)) = Some (mksol es None, es) /\
  (forall x, In x es <-> In x (sol_entries l) /\ x <> so) /\
  solist_get_count (solist_add l so) = solist_get_count l + 1.
Proof.
  intros Hnd es. assert (NoDup es) as Hes by (by apply list.NoDup_filter). split_and!.
  - by apply walk_all.
  - rewrite <- length_rev. apply walk_all; [|done]. by rewrite <- Permutation_rev.
  - by apply walk_all.
  - intros x. unfold es, solist_remove. cbn [sol_entries]. rewrite <- !list_elem_of_In, list_elem_of_filter. tauto.
  - unfold solist_get_count, solist_add. cbn [sol_entries]. rewrite length_app. cbn [length]. lia.
Qed.

Lemma solist_walks_witness :
  let l := mksol [10; 20; 30] (Some 20) in
  let es := sol_entries (solist_remove l 20) in
  walk solist_get_next (S (length (sol_entries l))) (solist_get_reset l) = Some (solist_get_reset l, sol_entries l) /\
  walk solist_get_prev (S (length (sol_entries l))) (solist_get_reset l) = Some (solist_get_reset l, rev (sol_entries l)) /\
  walk solist_get_next (S (length es)) (solist_get_reset (solist_remove l 20)) = Some (mksol es None, es) /\
  (forall x, In x es <-> In x (sol_entries l) /\ x <> 20) /\
  solist_get_count (solist_add l 20) = solist_get_count l + 1.
Proof.
  apply (solist_walks (mksol [10; 20; 30] (Some 20)) 20). apply (bool_decide_unpack _). by vm_compute.
Defined.

(** ** Witnesses: an allocator that serves up to 64 KB *)

Definition zero_grow (n : nat) (b : list Z) (size : Z) : option (list Z) :=
  if size <=? 65536 then Some (take (Z.to_nat size) (b ++ replicate (Z.to_nat size) 0)) else None.

Lemma zero_grow_ok n b size b' :
  zlen b <= size -> zero_grow n b size = Some b' -> zlen b' = size /\ take (length b) b' = b.
Proof.
  intros Hs. unfold zero_grow. destruct (size <=? 65536); [|done]. intros [= <-].
  rewrite length_take, length_app, length_replicate. split; [lia|].
  rewrite take_take. replace (Nat.min (length b) (Z.to_nat size)) with (length b) by lia. apply take_app_length.
Qed.

Definition zero_grower : Grower := {| grow := zero_grow; grow_ok := zero_grow_ok |}.

Lemma zero_plenty : @plenty zero_grower 4096.
Proof. intros n b size Hs. cbn. unfold zero_grow. rewrite (proj2 (Z.leb_le _ _)) by lia. by eexists. Qed.

Lemma sobj_refines_text_witness :
  exists o n', @sops_run zero_grower empty_sobj [AddString (cs "abcd"); RemoveChar 1; AddChar 33; SplitAt 3] 0%nat = Some (o, n') /\
    sobj_get_string o = Some (cs "acd") /\ sobj_get_length o = 3.
Proof.
  apply (@sobj_refines_text zero_grower 4096 ltac:(lia) zero_plenty
    [AddString (cs "abcd"); RemoveChar 1; AddChar 33; SplitAt 3] 0%nat).
  vm_compute. split_and!; try done. repeat constructor; discriminate.
Defined.

Lemma sobj_markup_roundtrip_witness :
  (exists o1 n1 e o2 n2, @sobj_escape_html_sc zero_grower (cs "a<b&c") empty_sobj 0%nat = Some (o1, n1) /\ sobj_get_string o1 = Some e /\
     @sobj_unescape_html_sc zero_grower e empty_sobj n1 = Some (o2, n2) /\ sobj_get_string o2 = Some (cs "a<b&c")) /\
  (exists o1 n1 e o2 n2, @sobj_escape_xml_sc zero_grower (cs "a<b&c") empty_sobj 0%nat = Some (o1, n1) /\ sobj_get_string o1 = Some e /\
     @sobj_unescape_xml_sc zero_grower e empty_sobj n1 = Some (o2, n2) /\ sobj_get_string o2 = Some (cs "a<b&c")).
Proof.
  apply (@sobj_markup_roundtrip zero_grower 4096 ltac:(lia) zero_plenty (cs "a<b&c") 0%nat).
  - repeat constructor; vm_compute; discriminate.
  - vm_compute. discriminate.
Defined.

Lemma sobj_url_roundtrip_witness :
  exists o1 n1 e o2 n2, @sobj_urlencode_sc zero_grower (cs "a b+c%") empty_sobj 0%nat = Some (o1, n1) /\ sobj_get_string o1 = Some e /\
    @sobj_urldecode zero_grower e empty_sobj n1 = Some (o2, n2) /\ sobj_get_string o2 = Some (cs "a b+c%").
Proof.
  apply (@sobj_url_roundtrip zero_grower 4096 ltac:(lia) zero_plenty (cs "a b+c%") 0%nat).
  - repeat constructor; vm_compute; discriminate.
  - vm_compute. discriminate.
Defined.

(** The text of the witness: a backslash and a letter, between marks, and a rest. *)
Definition quoted_stream : xstream := mkxs (XSTYPE_FILE [34; 92; 92; 110; 34; 59]) zero_undo 0.

Lemma sobj_quoted_roundtrip_witness :
  (forall o1 n1 e, @sobj_escape_javascript zero_grower [92; 110] empty_sobj 0%nat = Some (o1, n1) -> sobj_get_string o1 = Some e ->
     pending quoted_stream = 34 :: e ++ 34 :: [59] ->
     exists fd' so n', @sobj_xstream_read zero_grower quoted_stream empty_sobj None n1 = Some ((fd', so, 34, 34), n') /\
       sobj_get_string so = Some [92; 110] /\ sobj_get_flags so = SO_FLAG_QUOT_STRING /\ pending fd' = [59]) /\
  (forall o1 n1 e, @sobj_escape_shellscript zero_grower [92; 110] empty_sobj 0%nat = Some (o1, n1) -> sobj_get_string o1 = Some e ->
     pending quoted_stream = 34 :: e ++ 34 :: [59] ->
     exists fd' so n', @sobj_xstream_read zero_grower quoted_stream empty_sobj None n1 = Some ((fd', so, 34, 34), n') /\
       sobj_get_string so = Some [92; 110] /\ sobj_get_flags so = SO_FLAG_QUOT_STRING /\ pending fd' = [59]) /\
  (exists o1 n1 e, @sobj_escape_javascript zero_grower [92; 110] empty_sobj 0%nat = Some (o1, n1) /\ sobj_get_string o1 = Some e) /\
  (exists o1 n1 e, @sobj_escape_shellscript zero_grower [92; 110] empty_sobj 0%nat = Some (o1, n1) /\ sobj_get_string o1 = Some e).
Proof.
  apply (@sobj_quoted_roundtrip zero_grower 4096 ltac:(lia) zero_plenty [92; 110] [59] quoted_stream None 0%nat).
  - repeat constructor; vm_compute; discriminate.
  - vm_compute. discriminate.
  - split; try done. repeat constructor; vm_compute; discriminate.
Defined.

(** ** Behaviours worth knowing *)

(** An allocator that never succeeds. *)
Definition no_grower : Grower := {| grow := fun _ _ _ => None; grow_ok := fun _ _ _ _ _ => ltac:(done) |}.

(** When the allocation in [sobj_inc_space] fails the object is left with [total] grown and no
    buffer: the call reports the error, but the next one stores through NULL. *)
Example add_char_after_failure :
  match @sobj_add_char no_grower empty_sobj 65 0%nat with
  | Some ((o, r), n) => r = -1 /\ buff o = None /\ total o = 32 /\ @sobj_add_char no_grower o 66 n = None
  | None => False
  end.
Proof. by vm_compute. Qed.

(** [sobj_strcpy] of an empty string resets the length but not the text. *)
Example strcpy_empty_keeps_text :
  match @sobj_add_string zero_grower empty_sobj (Some (cs "old")) 0%nat with
  | Some ((o, _), n) =>
      match @sobj_strcpy zero_grower o (Some []) n with
      | Some ((o', _), _) => sobj_get_length o' = 0 /\ sobj_get_string o' = Some (cs "old")
      | None => False
      end
  | None => False
  end.
Proof. by vm_compute. Qed.

(** [sobj_urlencode_sc] reads outside of its table of digits on a character from 0x80 on. *)
Example urlencode_high_char : @sobj_urlencode_sc zero_grower [0xE9] empty_sobj 0%nat = None.
Proof. by vm_compute. Qed.

End Strobj.
