(* ===== verification/Sloop.v ===== *)
(** * comlib/sloop.c: the event loop of the daemons.

    Sockets, timers and signals are slots of three fixed arrays that move between a free
    list and the lists of the loop.  A slot is its index; a list is the list of the slots in
    the order of the links ([Dlist] refines it), so that [dlist_del] takes a slot out of
    whichever list holds it.  The [flags] of the slots, which only the assertions read, are
    left out.  The call-backs of the clients are a parameter: they act on the loop through its
    interface. *)
From Stdlib Require Import ZArith Lia Bool Sorting.Sorted.
From stdpp Require Import base tactics list option numbers gmap.
From S2P Require Import Prelude.

Module Sloop.

Definition MAX_SLOOP_SOCKET : nat := 128.
Definition MAX_SLOOP_TIMEOUT : nat := 128.
Definition MAX_SLOOP_SIGNAL : nat := 16.

(** [struct timeval]: seconds and microseconds. *)
Definition timeval : Type := Z * Z.

Definition timercmp_lt (a b : timeval) : bool :=
  if fst a =? fst b then snd a <? snd b else fst a <? fst b.
Definition timercmp_ge (a b : timeval) : bool :=
  if fst a =? fst b then snd b <=? snd a else fst b <=? fst a.

(** [timersub]: the difference, with the microseconds made positive. *)
Definition timersub (a b : timeval) : timeval :=
  let sec := fst a - fst b in
  let usec := snd a - snd b in
  if usec <? 0 then (sec - 1, usec + 1000000) else (sec, usec).

Record sloop_socket := mksock { sock : Z; s_param : Z; s_handler : Z }.
Record sloop_timeout := mktmo { time : timeval; t_param : Z; t_handler : Z }.
Record sloop_signal := mksig { sig : Z; g_param : Z; g_handler : Z }.

Record sloop := mksloop {
  terminate : bool;
  sockets : gmap nat sloop_socket;      (* _sloop_sockets *)
  timeouts : gmap nat sloop_timeout;    (* _sloop_timeout *)
  sigs : gmap nat sloop_signal;         (* _sloop_signals *)
  free_sockets : list nat;
  free_timeout : list nat;
  free_signals : list nat;
  readers : list nat;
  writers : list nat;
  signals : list nat;
  timeout : list nat;
  installed : list Z                    (* the signals directed to sloop_signals_handler *)
}.

(** [dlist_del] of a slot. *)
Definition unlink (x : nat) (l : list nat) : list nat := filter (fun y => y <> x) l.

(** ** Initialisation *)

Definition zero_sock : sloop_socket := mksock 0 0 0.
Definition zero_tmo : sloop_timeout := mktmo (0, 0) 0 0.
Definition zero_sig : sloop_signal := mksig 0 0 0.

Definition zero_slots {A} (n : nat) (z : A) : gmap nat A := list_to_map (map (fun i => (i, z)) (seq 0 n)).

(** [init_list_pools]: every slot is added in front of its free list. *)
Definition init_list_pools (n : nat) : list nat := foldl (fun l i => i :: l) [] (seq 0 n).

Definition sloop_init (installed : list Z) : sloop :=
  mksloop false (zero_slots MAX_SLOOP_SOCKET zero_sock) (zero_slots MAX_SLOOP_TIMEOUT zero_tmo)
          (zero_slots MAX_SLOOP_SIGNAL zero_sig)
          (init_list_pools MAX_SLOOP_SOCKET) (init_list_pools MAX_SLOOP_TIMEOUT) (init_list_pools MAX_SLOOP_SIGNAL)
          [] [] [] [] installed.

(** ** Sockets *)

Inductive side := Read | Write.

Definition set_sock_lists (st : sloop) (fs rs ws : list nat) : sloop :=
  mksloop (terminate st) (sockets st) (timeouts st) (sigs st) fs (free_timeout st) (free_signals st)
          rs ws (signals st) (timeout st) (installed st).

Definition set_sockets (st : sloop) (m : gmap nat sloop_socket) : sloop :=
  mksloop (terminate st) m (timeouts st) (sigs st) (free_sockets st) (free_timeout st) (free_signals st)
          (readers st) (writers st) (signals st) (timeout st) (installed st).

(** [get_socket]: the slot taken from the pool, [None] when the pool is empty. *)
Definition get_socket (st : sloop) : option (nat * sloop) :=
  match free_sockets st with
  | [] => None
  | x :: tl => Some (x, set_sock_lists st tl (readers st) (writers st))
  end.

Definition free_socket (st : sloop) (target : nat) : sloop :=
  set_sock_lists st (target :: free_sockets st) (readers st) (writers st).

Definition del_socket (st : sloop) (target : nat) : sloop :=
  set_sock_lists st (unlink target (free_sockets st)) (unlink target (readers st)) (unlink target (writers st)).

Definition register_socket (st : sloop) (fd handler param : Z) (head : side) : sloop * option nat :=
  match get_socket st with
  | None => (st, None)
  | Some (entry, st) =>
      let st := set_sockets st (<[entry := mksock fd param handler]> (sockets st)) in
      (match head with
       | Read => set_sock_lists st (free_sockets st) (entry :: readers st) (writers st)
       | Write => set_sock_lists st (free_sockets st) (readers st) (entry :: writers st)
       end, Some entry)
  end.

Definition head_list (st : sloop) (head : side) : list nat :=
  match head with Read => readers st | Write => writers st end.

(** The loop that empties the list; [n] is its length. *)
Fixpoint cancel_all_sockets (n : nat) (st : sloop) (head : side) : sloop :=
  match n, head_list st head with
  | S n', target :: _ => cancel_all_sockets n' (free_socket (del_socket st target) target) head
  | _, _ => st
  end.

Definition cancel_socket (st : sloop) (target : option nat) (head : side) : sloop :=
  match target with
  | Some t => free_socket (del_socket st t) t
  | None => cancel_all_sockets (length (head_list st head)) st head
  end.

Definition sloop_register_read_sock (st : sloop) (fd handler param : Z) := register_socket st fd handler param Read.
Definition sloop_register_write_sock (st : sloop) (fd handler param : Z) := register_socket st fd handler param Write.
Definition sloop_cancel_read_sock (st : sloop) (handle : option nat) := cancel_socket st handle Read.
Definition sloop_cancel_write_sock (st : sloop) (handle : option nat) := cancel_socket st handle Write.

(** ** Signals *)

Definition set_signals (st : sloop) (m : gmap nat sloop_signal) (fs ss : list nat) (ins : list Z) : sloop :=
  mksloop (terminate st) (sockets st) (timeouts st) m (free_sockets st) (free_timeout st) fs
          (readers st) (writers st) ss (timeout st) ins.

Definition get_signal (st : sloop) : option (nat * sloop) :=
  match free_signals st with
  | [] => None
  | x :: tl => Some (x, set_signals st (sigs st) tl (signals st) (installed st))
  end.

Definition free_signal (st : sloop) (target : nat) : sloop :=
  set_signals st (sigs st) (target :: free_signals st) (signals st) (installed st).

Definition del_signal (st : sloop) (target : nat) : sloop :=
  set_signals st (sigs st) (unlink target (free_signals st)) (unlink target (signals st)) (installed st).

(** [signal(sig, SIG_DFL)] *)
Definition sig_dfl (st : sloop) (s : Z) : sloop :=
  set_signals st (sigs st) (free_signals st) (signals st) (filter (fun x => x <> s) (installed st)).

Definition sloop_register_signal (st : sloop) (s handler param : Z) : sloop * option nat :=
  match get_signal st with
  | None => (st, None)
  | Some (entry, st) =>
      (set_signals st (<[entry := mksig s param handler]> (sigs st)) (free_signals st) (entry :: signals st)
                   (s :: installed st), Some entry)
  end.

Definition signal_of (st : sloop) (x : nat) : sloop_signal := default zero_sig (sigs st !! x).

Fixpoint cancel_all_signals (n : nat) (st : sloop) : sloop :=
  match n, signals st with
  | S n', entry :: _ =>
      cancel_all_signals n' (free_signal (del_signal (sig_dfl st (sig (signal_of st entry))) entry) entry)
  | _, _ => st
  end.

Definition sloop_cancel_signal (st : sloop) (handle : option nat) : sloop :=
  match handle with
  | Some entry => free_signal (del_signal (sig_dfl st (sig (signal_of st entry))) entry) entry
  | None => cancel_all_signals (length (signals st)) st
  end.

(** ** Timers *)

Definition set_timeouts (st : sloop) (m : gmap nat sloop_timeout) (fs ts : list nat) : sloop :=
  mksloop (terminate st) (sockets st) m (sigs st) (free_sockets st) fs (free_signals st)
          (readers st) (writers st) (signals st) ts (installed st).

Definition get_timeout (st : sloop) : option (nat * sloop) :=
  match free_timeout st with
  | [] => None
  | x :: tl => Some (x, set_timeouts st (timeouts st) tl (timeout st))
  end.

Definition free_timeout_ (st : sloop) (target : nat) : sloop :=
  set_timeouts st (timeouts st) (target :: free_timeout st) (timeout st).

Definition del_timeout (st : sloop) (target : nat) : sloop :=
  set_timeouts st (timeouts st) (unlink target (free_timeout st)) (unlink target (timeout st)).

Definition timeout_of (st : sloop) (x : nat) : sloop_timeout := default zero_tmo (timeouts st !! x).

(** The value of a 32-bit pattern as a [long]. *)
Definition long_of (x : Z) : Z := let y := u32 x in if y <? 2 ^ 31 then y else y - 2 ^ 32.

(** The loop that carries whole seconds out of the microseconds. *)
Fixpoint carry_secs (fuel : nat) (tv : timeval) : timeval :=
  match fuel with
  | O => tv
  | S fuel' => if 1000000 <=? snd tv then carry_secs fuel' (fst tv + 1, snd tv - 1000000) else tv
  end.

(** A [long] holds at most 2147 million microseconds. *)
Definition CARRY_FUEL : nat := 2148.

Definition deadline (uptime secs usecs : Z) : timeval :=
  carry_secs CARRY_FUEL (long_of (uptime + secs), long_of usecs).

(** The new timer goes in front of the first one that expires later. *)
Fixpoint insert_timer (m : gmap nat sloop_timeout) (x : nat) (tv : timeval) (l : list nat) : list nat :=
  match l with
  | [] => [x]
  | y :: tl =>
      if timercmp_lt tv (time (default zero_tmo (m !! y))) then x :: y :: tl
      else y :: insert_timer m x tv tl
  end.

Definition sloop_register_timeout (st : sloop) (uptime secs usecs handler param : Z) : sloop * option nat :=
  match get_timeout st with
  | None => (st, None)
  | Some (x, st) =>
      let tv := deadline uptime secs usecs in
      let m := <[x := mktmo tv param handler]> (timeouts st) in
      let l := match timeout st with [] => [x] | _ => insert_timer m x tv (timeout st) end in
      (set_timeouts st m (free_timeout st) l, Some x)
  end.

Fixpoint cancel_all_timeouts (n : nat) (st : sloop) : sloop :=
  match n, timeout st with
  | S n', entry :: _ => cancel_all_timeouts n' (free_timeout_ (del_timeout st entry) entry)
  | _, _ => st
  end.

Definition sloop_cancel_timeout (st : sloop) (handle : option nat) : sloop :=
  match handle with
  | Some entry => free_timeout_ (del_timeout st entry) entry
  | None => cancel_all_timeouts (length (timeout st)) st
  end.

Definition sloop_terminate (st : sloop) : sloop :=
  mksloop true (sockets st) (timeouts st) (sigs st) (free_sockets st) (free_timeout st) (free_signals st)
          (readers st) (writers st) (signals st) (timeout st) (installed st).

(** ** The loop *)

(** What the system answers in one turn: the uptime before the wait, the result of [select], whether
    a negative result is EINTR, the descriptors found ready, whether the signal pipe is among
    them and what is read from it ([None]: an error), and the uptime after the wait. *)
Record poll := mkpoll {
  uptime1 : Z; res : Z; eintr : bool; rfds : list Z; wfds : list Z;
  pipe_ready : bool; pipe_sig : option Z; uptime2 : Z
}.

(** The timeout given to [select]: [None] waits for ever. *)
Definition select_wait (st : sloop) (uptime : Z) : option timeval :=
  match timeout st with
  | [] => None
  | x :: _ =>
      let now := (uptime, 0) in
      let t := time (timeout_of st x) in
      Some (if timercmp_ge now t then (0, 0) else timersub t now)
  end.

Definition socket_of (st : sloop) (x : nat) : sloop_socket := default zero_sock (sockets st !! x).

(** The descriptors given to [select], and its first argument. *)
Definition select_fds (st : sloop) (head : side) : list Z := map (fun x => sock (socket_of st x)) (head_list st head).
Definition select_nfds (st : sloop) (signal_pipe : Z) : Z :=
  foldl Z.max (Z.max 0 signal_pipe) (select_fds st Read ++ select_fds st Write) + 1.

Definition FD_ISSET (fd : Z) (fds : list Z) : bool := existsb (Z.eqb fd) fds.

Section Run.

(** The call-backs: handler, descriptor or signal, and parameter; the loop they leave and their result. *)
Context (call_socket : Z -> Z -> Z -> sloop -> sloop * Z)
        (call_signal : Z -> Z -> Z -> sloop -> sloop * Z)
        (call_timeout : Z -> Z -> sloop -> sloop).

(** The first entry for the signal is called, and removed when it returns a negative result. *)
Definition dispatch_signal (st : sloop) (s : Z) : sloop :=
  match find (fun x => sig (signal_of st x) =? s) (signals st) with
  | None => st
  | Some x =>
      let e := signal_of st x in
      let '(st, r) := call_signal (g_handler e) (sig e) (g_param e) st in
      if r <? 0 then free_signal (del_signal st x) x else st
  end.

(** The timer noted before the wait, if it is still the first one: it is fired when the wait timed
    out or its time has come.  The second result tells whether it was. *)
Definition check_timeout (st : sloop) (entry_timeout : option nat) (res uptime : Z) : sloop * bool :=
  match entry_timeout with
  | None => (st, false)
  | Some x =>
      if decide (head (timeout st) = Some x) then
        let t := timeout_of st x in
        if (res =? 0) || timercmp_ge (uptime, 0) (time t) then
          let st := if negb (t_handler t =? 0) then call_timeout (t_handler t) (t_param t) st else st in
          (free_timeout_ (del_timeout st x) x, true)
        else (st, false)
      else (st, false)
  end.

(** The slot after [x] in a list; the outer [None]: [x] is not in it any more, and its link leads
    elsewhere. *)
Fixpoint next_in (l : list nat) (x : nat) : option (option nat) :=
  match l with
  | [] => None
  | y :: tl => if (y =? x)%nat then Some (head tl) else next_in tl x
  end.

(** The walk over the readers or the writers; the successor is read after the handler has returned. *)
Fixpoint socket_loop (fuel : nat) (st : sloop) (hd : side) (ready : list Z) (entry : option nat) : option sloop :=
  match entry with
  | None => Some st
  | Some x =>
      match fuel with
      | O => None
      | S fuel' =>
          let e := socket_of st x in
          let '(st, r) :=
            if FD_ISSET (sock e) ready then call_socket (s_handler e) (sock e) (s_param e) st else (st, 0) in
          next ← next_in (head_list st hd) x;
          socket_loop fuel' (if r <? 0 then free_socket (del_socket st x) x else st) hd ready next
      end
  end.

Definition check_sockets (st : sloop) (hd : side) (ready : list Z) : option sloop :=
  socket_loop (length (head_list st hd)) st hd ready (head (head_list st hd)).

(** One turn of [sloop_run]: the state, whether the loop goes on, and whether a timer was fired. *)
Definition run_turn (st : sloop) (p : poll) : option (sloop * bool * bool) :=
  let entry_timeout := head (timeout st) in
  if res p <? 0 then Some (st, eintr p, false)
  else
    let got := (0 <? res p) && pipe_ready p in
    let st1 :=
      match pipe_sig p with
      | Some s => if got && negb (s =? 0) then dispatch_signal st s else st
      | None => st
      end in
    let stop :=
      match pipe_sig p with
      | Some s => got && negb (s =? 0) && negb (bool_decide (signals st = [])) && terminate st1
      | None => false
      end in
    if stop then Some (st1, false, false)
    else
      let '(st2, fired) := check_timeout st1 entry_timeout (res p) (uptime2 p) in
      if res p <=? 0 then Some (st2, true, fired)
      else
        st3 ← check_sockets st2 Read (rfds p);
        st4 ← check_sockets st3 Write (wfds p);
        Some (st4, true, fired).

(** The condition of the loop. *)
Definition has_work (st : sloop) : bool :=
  negb (terminate st) &&
  (negb (bool_decide (timeout st = [])) || negb (bool_decide (readers st = [])) ||
   negb (bool_decide (writers st = [])) || negb (bool_decide (signals st = []))).

Definition cancel_everything (st : sloop) : sloop :=
  let st := sloop_cancel_signal st None in
  let st := sloop_cancel_timeout st None in
  let st := sloop_cancel_read_sock st None in
  sloop_cancel_write_sock st None.

(** The loop on the answers of the system; the flag tells whether [sloop_run] has returned, or is still
    waiting for more. *)
Fixpoint sloop_run (st : sloop) (ps : list poll) : option (sloop * bool) :=
  if has_work st then
    match ps with
    | [] => Some (st, false)
    | p :: tl =>
        r ← run_turn st p;
        let '(st, go, fired) := r in
        if (go : bool) then sloop_run st tl else Some (cancel_everything st, true)
    end
  else Some (cancel_everything st, true).

End Run.

(** ** The invariant *)

(** [a] is not after [b]. *)
Definition tle (a b : timeval) : Prop := fst a < fst b \/ (fst a = fst b /\ snd a <= snd b).

Lemma timercmp_lt_spec a b : timercmp_lt a b = false <-> tle b a.
Proof.
  unfold timercmp_lt, tle. destruct (Z.eqb_spec (fst a) (fst b)); rewrite ?Z.ltb_ge; lia.
Qed.

Lemma timercmp_ge_spec a b : timercmp_ge a b = true <-> tle b a.
Proof.
  unfold timercmp_ge, tle. destruct (Z.eqb_spec (fst a) (fst b)); rewrite ?Z.leb_le; lia.
Qed.

Lemma tle_trans a b c : tle a b -> tle b c -> tle a c.
Proof. unfold tle. lia. Qed.

Lemma tle_lt a b : timercmp_lt a b = true -> tle a b.
Proof. unfold timercmp_lt, tle. destruct (Z.eqb_spec (fst a) (fst b)); rewrite ?Z.ltb_lt; lia. Qed.

Definition time_of (m : gmap nat sloop_timeout) (x : nat) : timeval := time (default zero_tmo (m !! x)).

Definition sorted_timers (m : gmap nat sloop_timeout) (l : list nat) : Prop :=
  StronglySorted (fun x y => tle (time_of m x) (time_of m y)) l.

(** Every slot is in exactly one list of its kind, and the timers are in the order of their deadlines. *)
Record sloop_inv (st : sloop) : Prop := {
  inv_sockets : free_sockets st ++ readers st ++ writers st ≡ₚ seq 0 MAX_SLOOP_SOCKET;
  inv_timeouts : free_timeout st ++ timeout st ≡ₚ seq 0 MAX_SLOOP_TIMEOUT;
  inv_signals : free_signals st ++ signals st ≡ₚ seq 0 MAX_SLOOP_SIGNAL;
  inv_sorted : sorted_timers (timeouts st) (timeout st)
}.

(** A handle of the client: a slot of the array, whichever list it is in. *)
Definition slot (max : nat) (h : option nat) : Prop := match h with Some x => (x < max)%nat | None => True end.

Inductive api_step (st : sloop) : sloop -> Prop :=
| api_read fd h p : api_step st (fst (sloop_register_read_sock st fd h p))
| api_write fd h p : api_step st (fst (sloop_register_write_sock st fd h p))
| api_cancel_read x : slot MAX_SLOOP_SOCKET x -> api_step st (sloop_cancel_read_sock st x)
| api_cancel_write x : slot MAX_SLOOP_SOCKET x -> api_step st (sloop_cancel_write_sock st x)
| api_signal s h p : api_step st (fst (sloop_register_signal st s h p))
| api_cancel_signal x : slot MAX_SLOOP_SIGNAL x -> api_step st (sloop_cancel_signal st x)
| api_timeout up secs usecs h p : api_step st (fst (sloop_register_timeout st up secs usecs h p))
| api_cancel_timeout x : slot MAX_SLOOP_TIMEOUT x -> api_step st (sloop_cancel_timeout st x)
| api_terminate : api_step st (sloop_terminate st).

(** ** Moving slots between lists *)

Lemma unlink_app x a b : unlink x (a ++ b) = unlink x a ++ unlink x b.
Proof. apply filter_app. Qed.

(** Unlinking a slot of the array and putting it in front of a list of its kind loses nothing. *)
Lemma relink_perm x l n : l ≡ₚ seq 0 n -> (x < n)%nat -> x :: unlink x l ≡ₚ seq 0 n.
Proof.
  intros Hp Hx. rewrite <- Hp. apply filter_ne_perm; rewrite Hp; [apply NoDup_seq|apply elem_of_seq; lia].
Qed.

Lemma unlink_length x l n : l ≡ₚ seq 0 n -> (x < n)%nat -> S (length (unlink x l)) = n.
Proof. intros Hp Hx. pose proof (relink_perm x l n Hp Hx) as Hl%Permutation_length. rewrite length_seq in Hl. exact Hl. Qed.

Lemma sorted_unlink m x l : sorted_timers m l -> sorted_timers m (unlink x l).
Proof.
  induction 1 as [|y l Hl IH Hy]; [constructor|]. unfold unlink. rewrite filter_cons.
  destruct (decide (y <> x)); [|exact IH]. constructor; [exact IH|].
  rewrite Forall_forall in Hy |- *. intros z Hz. apply Hy. by apply list_elem_of_filter in Hz as [_ ?].
Qed.

Lemma sorted_ext m m' l : (forall x, x ∈ l -> m' !! x = m !! x) -> sorted_timers m l -> sorted_timers m' l.
Proof.
  intros Hm Hs. induction Hs as [|y l Hl IH Hy]; [constructor|].
  constructor; [apply IH; intros x Hx; apply Hm; by right|]. rewrite Forall_forall in Hy |- *.
  intros z Hz. specialize (Hy z Hz). unfold time_of in *. rewrite !Hm; [done|by right|by left].
Qed.

(** The place of a new timer: after those that are not later, before those that are. *)
Lemma insert_timer_split m x tv l :
  sorted_timers m l ->
  exists l1 l2, l = l1 ++ l2 /\ insert_timer m x tv l = l1 ++ x :: l2 /\
    Forall (fun y => tle (time_of m y) tv) l1 /\ Forall (fun y => timercmp_lt tv (time_of m y) = true) l2.
Proof.
  induction 1 as [|y l Hl IH Hy]; cbn [insert_timer]; [by exists [], []|]. fold (time_of m y).
  destruct (timercmp_lt tv (time_of m y)) eqn:E.
  - exists [], (y :: l). split_and!; try done. constructor; [done|].
    rewrite Forall_forall in Hy |- *. intros z Hz. specialize (Hy z Hz).
    destruct (timercmp_lt tv (time_of m z)) eqn:E2; [done|]. apply timercmp_lt_spec in E2.
    pose proof (tle_trans _ _ _ Hy E2) as E3. apply timercmp_lt_spec in E3. congruence.
  - destruct IH as (l1 & l2 & -> & -> & H1 & H2). exists (y :: l1), l2. split_and!; try done.
    constructor; [by apply timercmp_lt_spec|done].
Qed.

Lemma insert_timer_sorted m x tv l :
  x ∉ l -> time_of m x = tv -> sorted_timers m l -> sorted_timers m (insert_timer m x tv l).
Proof.
  intros Hx Ht Hs. destruct (insert_timer_split m x tv l Hs) as (l1 & l2 & -> & -> & H1 & H2). clear Hx.
  induction l1 as [|y l1 IH]; cbn [app] in *.
  - constructor; [done|]. rewrite Forall_forall in H2 |- *. intros z Hz. rewrite Ht. by apply tle_lt, H2.
  - apply StronglySorted_inv in Hs as [Hs Hy]. rewrite Forall_cons_iff in H1. destruct H1 as [H0 H1].
    constructor; [by apply IH|]. rewrite Forall_app in Hy |- *. destruct Hy as [Hy1 Hy2]. split; [done|].
    constructor; [by rewrite Ht|done].
Qed.

(** ** Every operation keeps the invariant *)

Lemma cancel_socket_inv st x :
  sloop_inv st -> (x < MAX_SLOOP_SOCKET)%nat -> sloop_inv (free_socket (del_socket st x) x).
Proof.
  intros [I1 I2 I3 I4] Hx. split; try done. cbn [free_socket del_socket set_sock_lists free_sockets readers writers].
  cbn [app]. rewrite <- !unlink_app. by apply relink_perm.
Qed.

Lemma cancel_signal_inv st x s :
  sloop_inv st -> (x < MAX_SLOOP_SIGNAL)%nat -> sloop_inv (free_signal (del_signal (sig_dfl st s) x) x).
Proof.
  intros [I1 I2 I3 I4] Hx. split; try done. cbn [free_signal del_signal sig_dfl set_signals free_signals signals].
  cbn [app]. rewrite <- !unlink_app. by apply relink_perm.
Qed.

Lemma remove_signal_inv st x :
  sloop_inv st -> (x < MAX_SLOOP_SIGNAL)%nat -> sloop_inv (free_signal (del_signal st x) x).
Proof.
  intros [I1 I2 I3 I4] Hx. split; try done. cbn [free_signal del_signal set_signals free_signals signals].
  cbn [app]. rewrite <- !unlink_app. by apply relink_perm.
Qed.

Lemma cancel_timeout_inv st x :
  sloop_inv st -> (x < MAX_SLOOP_TIMEOUT)%nat -> sloop_inv (free_timeout_ (del_timeout st x) x).
Proof.
  intros [I1 I2 I3 I4] Hx.
  split; try done; cbn [free_timeout_ del_timeout set_timeouts free_timeout timeout timeouts].
  - cbn [app]. rewrite <- !unlink_app. by apply relink_perm.
  - by apply sorted_unlink.
Qed.

Lemma register_socket_inv st fd h p hd : sloop_inv st -> sloop_inv (fst (register_socket st fd h p hd)).
Proof.
  intros Hinv. unfold register_socket, get_socket. destruct (free_sockets st) as [|x tl] eqn:Ef; [done|].
  destruct Hinv as [I1 I2 I3 I4]. rewrite Ef in I1.
  destruct hd; split; try done; cbn [fst set_sock_lists set_sockets free_sockets readers writers app] in *; rewrite <- I1.
  - symmetry. apply Permutation_middle.
  - rewrite !app_assoc. rewrite <- Permutation_middle. done.
Qed.

Lemma register_signal_inv st s h p : sloop_inv st -> sloop_inv (fst (sloop_register_signal st s h p)).
Proof.
  intros Hinv. unfold sloop_register_signal, get_signal. destruct (free_signals st) as [|x tl] eqn:Ef; [done|].
  destruct Hinv as [I1 I2 I3 I4]. rewrite Ef in I3. split; try done.
  cbn [fst set_signals free_signals signals app] in *. rewrite <- I3. symmetry. apply Permutation_middle.
Qed.

(** The timer list after a registration, in the one form the two branches of the code share. *)
Lemma register_timeout_eq st up secs usecs h p x tl :
  free_timeout st = x :: tl ->
  let tv := deadline up secs usecs in
  let m := <[x := mktmo tv p h]> (timeouts st) in
  sloop_register_timeout st up secs usecs h p = (set_timeouts st m tl (insert_timer m x tv (timeout st)), Some x).
Proof.
  intros Ef. unfold sloop_register_timeout, get_timeout. rewrite Ef.
  cbn [set_timeouts timeout timeouts free_timeout]. by destruct (timeout st).
Qed.

Lemma free_not_pending st x tl :
  sloop_inv st -> free_timeout st = x :: tl -> x ∉ timeout st.
Proof.
  intros [_ I2 _ _] Ef Hx. rewrite Ef in I2.
  assert (NoDup ((x :: tl) ++ timeout st)) as Hnd by (rewrite I2; apply NoDup_seq).
  apply list.NoDup_app in Hnd as (_ & Hd & _). apply (Hd x); [by left|done].
Qed.

Lemma register_timeout_inv st up secs usecs h p :
  sloop_inv st -> sloop_inv (fst (sloop_register_timeout st up secs usecs h p)).
Proof.
  intros Hinv. destruct (free_timeout st) as [|x tl] eqn:Ef.
  { unfold sloop_register_timeout, get_timeout. by rewrite Ef. }
  rewrite (register_timeout_eq st up secs usecs h p x tl Ef). cbn zeta. cbn [fst].
  pose proof (free_not_pending st x tl Hinv Ef) as Hx. destruct Hinv as [I1 I2 I3 I4].
  set (tv := deadline up secs usecs). set (m := <[x := mktmo tv p h]> (timeouts st)).
  assert (sorted_timers m (timeout st)) as Hs.
  { eapply sorted_ext; [|exact I4]. intros y Hy. unfold m. rewrite lookup_insert_ne; [done|]. by intros ->. }
  split; try done; cbn [set_timeouts free_timeout timeout timeouts].
  - rewrite Ef in I2. destruct (insert_timer_split m x tv (timeout st) Hs) as (l1 & l2 & E & -> & _ & _).
    rewrite E in I2. rewrite <- I2. cbn [app]. rewrite <- Permutation_middle, <- Permutation_middle. done.
  - apply insert_timer_sorted; [done| |done]. unfold time_of, m. by rewrite lookup_insert_eq.
Qed.

(** *** Cancelling everything *)

Lemma in_seq_lt x l rest n : l ++ rest ≡ₚ seq 0 n -> x ∈ rest -> (x < n)%nat.
Proof. intros Hp Hx. assert (x ∈ seq 0 n) as H by (rewrite <- Hp, elem_of_app; by right). apply elem_of_seq in H. lia. Qed.

Lemma head_list_lt st hd x : sloop_inv st -> x ∈ head_list st hd -> (x < MAX_SLOOP_SOCKET)%nat.
Proof.
  intros [I1 _ _ _] Hx. eapply in_seq_lt; [exact I1|]. apply elem_of_app. destruct hd; [by left|by right].
Qed.

Lemma unlink_shorter x l n : (length (x :: l) <= S n)%nat -> (length (unlink x (x :: l)) <= n)%nat.
Proof.
  intros Hl. unfold unlink. rewrite filter_cons, decide_False by (intros H; by apply H).
  pose proof (length_filter (fun y => y <> x) l). cbn [length] in Hl. lia.
Qed.

Definition other (hd : side) : side := match hd with Read => Write | Write => Read end.

Lemma cancel_all_sockets_spec n : forall st hd,
  sloop_inv st -> (length (head_list st hd) <= n)%nat ->
  let st' := cancel_all_sockets n st hd in
  sloop_inv st' /\ head_list st' hd = [] /\
  timeout st' = timeout st /\ signals st' = signals st /\
  (head_list st (other hd) = [] -> head_list st' (other hd) = []).
Proof.
  induction n as [|n IH]; intros st hd Hinv Hn; cbn [cancel_all_sockets].
  - destruct (head_list st hd) as [|x tl] eqn:E; [done|cbn in Hn; lia].
  - destruct (head_list st hd) as [|x tl] eqn:E; [done|].
    assert (x < MAX_SLOOP_SOCKET)%nat as Hx by (apply (head_list_lt st hd); [done|rewrite E; by left]).
    pose proof (cancel_socket_inv st x Hinv Hx) as Hinv1.
    destruct (IH (free_socket (del_socket st x) x) hd Hinv1) as (H1 & H2 & H3 & H4 & H5).
    { assert (head_list (free_socket (del_socket st x) x) hd = unlink x (head_list st hd)) as -> by (by destruct hd).
      rewrite E. by apply unlink_shorter. }
    split_and!; try done. intros H0. apply H5.
    assert (head_list (free_socket (del_socket st x) x) (other hd) =
            unlink x (head_list st (other hd))) as -> by (by destruct hd).
    by rewrite H0.
Qed.

Lemma cancel_all_signals_spec n : forall st,
  sloop_inv st -> (length (signals st) <= n)%nat ->
  let st' := cancel_all_signals n st in
  sloop_inv st' /\ signals st' = [] /\ readers st' = readers st /\ writers st' = writers st /\ timeout st' = timeout st.
Proof.
  induction n as [|n IH]; intros st Hinv Hn; cbn [cancel_all_signals].
  - destruct (signals st) as [|x tl] eqn:E; [done|cbn in Hn; lia].
  - destruct (signals st) as [|x tl] eqn:E; [done|].
    assert (x < MAX_SLOOP_SIGNAL)%nat as Hx by (eapply in_seq_lt; [apply (inv_signals _ Hinv)|rewrite E; by left]).
    apply (IH (free_signal (del_signal (sig_dfl st (sig (signal_of st x))) x) x)); [by apply cancel_signal_inv|].
    cbn [free_signal del_signal sig_dfl set_signals signals]. rewrite E. by apply unlink_shorter.
Qed.

Lemma cancel_all_timeouts_spec n : forall st,
  sloop_inv st -> (length (timeout st) <= n)%nat ->
  let st' := cancel_all_timeouts n st in
  sloop_inv st' /\ timeout st' = [] /\ readers st' = readers st /\ writers st' = writers st /\ signals st' = signals st.
Proof.
  induction n as [|n IH]; intros st Hinv Hn; cbn [cancel_all_timeouts].
  - destruct (timeout st) as [|x tl] eqn:E; [done|cbn in Hn; lia].
  - destruct (timeout st) as [|x tl] eqn:E; [done|].
    assert (x < MAX_SLOOP_TIMEOUT)%nat as Hx by (eapply in_seq_lt; [apply (inv_timeouts _ Hinv)|rewrite E; by left]).
    apply (IH (free_timeout_ (del_timeout st x) x)); [by apply cancel_timeout_inv|].
    cbn [free_timeout_ del_timeout set_timeouts timeout]. rewrite E. by apply unlink_shorter.
Qed.

Lemma api_step_inv st st' : sloop_inv st -> api_step st st' -> sloop_inv st'.
Proof.
  intros Hinv [fd h p|fd h p|x Hx|x Hx|s h p|x Hx|up secs usecs h p|x Hx|].
  - by apply register_socket_inv.
  - by apply register_socket_inv.
  - destruct x; [by apply cancel_socket_inv|by apply cancel_all_sockets_spec].
  - destruct x; [by apply cancel_socket_inv|by apply cancel_all_sockets_spec].
  - by apply register_signal_inv.
  - destruct x; [by apply cancel_signal_inv|by apply cancel_all_signals_spec].
  - by apply register_timeout_inv.
  - destruct x; [by apply cancel_timeout_inv|by apply cancel_all_timeouts_spec].
  - by destruct Hinv.
Qed.

Lemma api_steps_inv st st' : sloop_inv st -> rtc api_step st st' -> sloop_inv st'.
Proof. intros Hinv Hr. induction Hr as [|x y z Hxy _ IH]; [done|]. apply IH. by eapply api_step_inv. Qed.

Lemma init_pools_perm n : init_list_pools n ≡ₚ seq 0 n.
Proof.
  unfold init_list_pools. assert (forall l acc, foldl (fun a (i : nat) => i :: a) acc l ≡ₚ acc ++ l) as H.
  { intros l. induction l as [|i l IH]; intros acc; cbn [foldl]; [by rewrite app_nil_r|].
    rewrite IH. cbn [app]. apply Permutation_middle. }
  apply H.
Qed.

Lemma sloop_init_inv ins : sloop_inv (sloop_init ins).
Proof. split; cbn; rewrite ?app_nil_r; try apply (init_pools_perm 128); try apply (init_pools_perm 16). constructor. Qed.

(** ** Running the loop *)

(** The operations open to the handler of the socket slot [x]: all but cancelling this slot, alone or
    with all the others.  (A handler that wants its slot cancelled returns a negative result.) *)
Definition spares (x : nat) (h : option nat) : Prop := match h with Some y => y <> x | None => False end.

Inductive api_sparing (x : nat) (st : sloop) : sloop -> Prop :=
| sparing_read fd h p : api_sparing x st (fst (sloop_register_read_sock st fd h p))
| sparing_write fd h p : api_sparing x st (fst (sloop_register_write_sock st fd h p))
| sparing_cancel_read y : slot MAX_SLOOP_SOCKET y -> spares x y -> api_sparing x st (sloop_cancel_read_sock st y)
| sparing_cancel_write y : slot MAX_SLOOP_SOCKET y -> spares x y -> api_sparing x st (sloop_cancel_write_sock st y)
| sparing_signal s h p : api_sparing x st (fst (sloop_register_signal st s h p))
| sparing_cancel_signal y : slot MAX_SLOOP_SIGNAL y -> api_sparing x st (sloop_cancel_signal st y)
| sparing_timeout up secs usecs h p : api_sparing x st (fst (sloop_register_timeout st up secs usecs h p))
| sparing_cancel_timeout y : slot MAX_SLOOP_TIMEOUT y -> api_sparing x st (sloop_cancel_timeout st y)
| sparing_terminate : api_sparing x st (sloop_terminate st).

Lemma sparing_api x st st' : api_sparing x st st' -> api_step st st'.
Proof. intros []; by constructor. Qed.

(** Signals and timers do not touch the socket lists. *)
Lemma cancel_all_signals_lists n : forall st hd, head_list (cancel_all_signals n st) hd = head_list st hd.
Proof.
  induction n as [|n IH]; intros st hd; cbn [cancel_all_signals]; destruct (signals st); try done.
  rewrite IH. by destruct hd.
Qed.
Lemma cancel_all_timeouts_lists n : forall st hd, head_list (cancel_all_timeouts n st) hd = head_list st hd.
Proof.
  induction n as [|n IH]; intros st hd; cbn [cancel_all_timeouts]; destruct (timeout st); try done.
  rewrite IH. by destruct hd.
Qed.

(** [x] is in the list, with at most [k] slots after it. *)
Definition in_list (x : nat) (k : nat) (l : list nat) : Prop :=
  exists l1 l2, l = l1 ++ x :: l2 /\ (length l2 <= k)%nat.

Lemma in_list_unlink x y k l : y <> x -> in_list x k l -> in_list x k (unlink y l).
Proof.
  intros Hne (l1 & l2 & -> & Hl). exists (unlink y l1), (unlink y l2). rewrite unlink_app. split.
  - f_equal. unfold unlink. by rewrite filter_cons, decide_True.
  - unfold unlink. pose proof (length_filter (fun z => z <> y) l2). lia.
Qed.

Lemma in_list_cons x y k l : in_list x k l -> in_list x k (y :: l).
Proof. intros (l1 & l2 & -> & Hl). by exists (y :: l1), l2. Qed.

Lemma sparing_in_list x st st' hd k :
  api_sparing x st st' -> in_list x k (head_list st hd) -> in_list x k (head_list st' hd).
Proof.
  intros Hs Hin. destruct Hs as [fd h p|fd h p|y Hy Hsp|y Hy Hsp|s h p|y Hy|up secs usecs h p|y Hy|].
  - unfold sloop_register_read_sock, register_socket, get_socket. destruct (free_sockets st); [done|].
    destruct hd; [by apply in_list_cons|done].
  - unfold sloop_register_write_sock, register_socket, get_socket. destruct (free_sockets st); [done|].
    destruct hd; [done|by apply in_list_cons].
  - destruct y as [y|]; [|done]. destruct hd; by apply in_list_unlink.
  - destruct y as [y|]; [|done]. destruct hd; by apply in_list_unlink.
  - unfold sloop_register_signal, get_signal. destruct (free_signals st); [done|]. by destruct hd.
  - destruct y as [y|]; [by destruct hd|]. cbn [sloop_cancel_signal]. by rewrite cancel_all_signals_lists.
  - unfold sloop_register_timeout, get_timeout. destruct (free_timeout st); [done|]. by destruct hd.
  - destruct y as [y|]; [by destruct hd|]. cbn [sloop_cancel_timeout]. by rewrite cancel_all_timeouts_lists.
  - by destruct hd.
Qed.

Lemma sparing_steps x st st' hd k :
  rtc (api_sparing x) st st' -> sloop_inv st -> in_list x k (head_list st hd) ->
  sloop_inv st' /\ in_list x k (head_list st' hd).
Proof.
  intros Hr. induction Hr as [|a b c Hab _ IH]; [done|]. intros Hinv Hin. apply IH.
  - eapply api_step_inv; [done|]. by eapply sparing_api.
  - by eapply sparing_in_list.
Qed.

Section RunProofs.
Context (call_socket : Z -> Z -> Z -> sloop -> sloop * Z)
        (call_signal : Z -> Z -> Z -> sloop -> sloop * Z)
        (call_timeout : Z -> Z -> sloop -> sloop).

(** The call-backs act through the interface of the loop, and the handler of a socket spares its own slot. *)
Definition handlers_ok : Prop :=
  (forall st x, let e := socket_of st x in
     rtc (api_sparing x) st (fst (call_socket (s_handler e) (sock e) (s_param e) st))) /\
  (forall h s p st, rtc api_step st (fst (call_signal h s p st))) /\
  (forall h p st, rtc api_step st (call_timeout h p st)).

Lemma next_in_mid l1 x l2 : x ∉ l1 -> next_in (l1 ++ x :: l2) x = Some (head l2).
Proof.
  induction l1 as [|y l1 IH]; intros Hn; cbn [app next_in]; [by rewrite Nat.eqb_refl|].
  rewrite not_elem_of_cons in Hn. rewrite (proj2 (Nat.eqb_neq y x)) by (intros ->; tauto). apply IH. tauto.
Qed.

Lemma head_list_nodup st hd : sloop_inv st -> NoDup (head_list st hd).
Proof.
  intros [I1 _ _ _]. assert (NoDup (free_sockets st ++ readers st ++ writers st)) as Hnd by (rewrite I1; apply NoDup_seq).
  apply list.NoDup_app in Hnd as (_ & _ & Hnd). apply list.NoDup_app in Hnd as (H1 & _ & H2). by destruct hd.
Qed.

(** The walk over the sockets reaches the end of the list whatever the handlers do. *)
Lemma socket_loop_total fuel : forall st hd ready entry,
  handlers_ok -> sloop_inv st ->
  match entry with None => True | Some x => in_list x (fuel - 1) (head_list st hd) /\ fuel <> O end ->
  exists st', socket_loop call_socket fuel st hd ready entry = Some st' /\ sloop_inv st'.
Proof.
  induction fuel as [|fuel IH]; intros st hd ready entry Hh Hinv Hin; destruct entry as [x|]; try (by exists st).
  { by destruct Hin. }
  destruct Hin as [Hin _]. cbn [socket_loop]. replace (S fuel - 1)%nat with fuel in Hin by lia.
  set (call := if FD_ISSET _ _ then _ else _).
  assert (sloop_inv (fst call) /\ in_list x fuel (head_list (fst call) hd)) as [Hinv1 Hin1].
  { unfold call. destruct (FD_ISSET _ _); [|done]. eapply sparing_steps; [apply Hh|done|done]. }
  destruct call as [st1 r]. cbn [fst] in Hinv1, Hin1. destruct Hin1 as (l1 & l2 & El & Hl).
  pose proof (head_list_nodup st1 hd Hinv1) as Hnd. rewrite El in Hnd.
  assert ((x ∉ l1) /\ (x ∉ l2)) as [Hx1 Hx2].
  { apply list.NoDup_app in Hnd as (_ & Hd & Hnd2). apply list.NoDup_cons in Hnd2 as [Hx2 _].
    split; [|done]. intros Hx. apply (Hd x Hx). by left. }
  rewrite El, next_in_mid by done. cbn [mbind option_bind].
  assert (x < MAX_SLOOP_SOCKET)%nat as Hxm.
  { apply (head_list_lt st1 hd); [done|]. rewrite El. apply elem_of_app. right. by left. }
  apply IH; [done|destruct (r <? 0); [by apply cancel_socket_inv|done]|].
  destruct l2 as [|y l2]; [done|]. cbn [head]. cbn [length] in Hl. split; [|lia].
  assert (in_list y (fuel - 1) (l1 ++ x :: y :: l2)) as Hy.
  { exists (l1 ++ [x]), l2. rewrite <- app_assoc. split; [done|lia]. }
  destruct (r <? 0); [|by rewrite El].
  assert (head_list (free_socket (del_socket st1 x) x) hd = unlink x (head_list st1 hd)) as -> by (by destruct hd).
  rewrite El. apply in_list_unlink; [|done]. intros <-. apply Hx2. by left.
Qed.

Lemma check_sockets_total st hd ready :
  handlers_ok -> sloop_inv st -> exists st', check_sockets call_socket st hd ready = Some st' /\ sloop_inv st'.
Proof.
  intros Hh Hinv. unfold check_sockets. apply socket_loop_total; [done|done|].
  destruct (head_list st hd) as [|x l]; [done|]. cbn [head length]. split; [|lia].
  exists [], l. split; [done|]. lia.
Qed.

Lemma dispatch_signal_inv st s : handlers_ok -> sloop_inv st -> sloop_inv (dispatch_signal call_signal st s).
Proof.
  intros (_ & Hg & _) Hinv. unfold dispatch_signal. destruct (find _ _) as [x|] eqn:Ef; [|done].
  apply find_some in Ef as [Hx _]. apply list_elem_of_In in Hx.
  pose proof (in_seq_lt _ _ _ _ (inv_signals _ Hinv) Hx) as Hlt.
  pose proof (Hg (g_handler (signal_of st x)) (sig (signal_of st x)) (g_param (signal_of st x)) st) as Hr.
  destruct (call_signal _ _ _ st) as [st1 r]. cbn [fst] in Hr. pose proof (api_steps_inv _ _ Hinv Hr).
  destruct (r <? 0); [by apply remove_signal_inv|done].
Qed.

Lemma check_timeout_inv st entry r up :
  handlers_ok -> sloop_inv st -> sloop_inv (fst (check_timeout call_timeout st entry r up)).
Proof.
  intros (_ & _ & Ht) Hinv. unfold check_timeout. destruct entry as [x|]; [|done].
  destruct (decide _) as [Hhd|]; [|done]. destruct (_ || _); [|done]. cbn [fst].
  assert (x ∈ timeout st) as Hx by (destruct (timeout st); [done|injection Hhd as ->; by left]).
  pose proof (in_seq_lt _ _ _ _ (inv_timeouts _ Hinv) Hx) as Hlt.
  apply cancel_timeout_inv; [|done]. destruct (negb _); [|done]. eapply api_steps_inv; [done|apply Ht].
Qed.

Lemma run_turn_total st p :
  handlers_ok -> sloop_inv st ->
  exists st' go fired, run_turn call_socket call_signal call_timeout st p = Some (st', go, fired) /\ sloop_inv st'.
Proof.
  intros Hh Hinv. unfold run_turn. destruct (res p <? 0); [by eexists _, _, _|].
  set (st1 := match pipe_sig p with Some s => _ | None => st end).
  assert (sloop_inv st1) as Hinv1.
  { unfold st1. destruct (pipe_sig p) as [s|]; [|done]. destruct (_ && _); [by apply dispatch_signal_inv|done]. }
  destruct (match pipe_sig p with Some s => _ | None => false end); [by eexists _, _, _|].
  pose proof (check_timeout_inv st1 (head (timeout st)) (res p) (uptime2 p) Hh Hinv1) as Hinv2.
  destruct (check_timeout _ st1 _ _ _) as [st2 fired]. cbn [fst] in Hinv2.
  destruct (res p <=? 0); [by eexists _, _, _|].
  destruct (check_sockets_total st2 Read (rfds p) Hh Hinv2) as (st3 & -> & Hinv3). cbn [mbind option_bind].
  destruct (check_sockets_total st3 Write (wfds p) Hh Hinv3) as (st4 & -> & Hinv4). cbn [mbind option_bind].
  by eexists _, _, _.
Qed.

Lemma cancel_everything_spec st :
  sloop_inv st ->
  let st' := cancel_everything st in
  sloop_inv st' /\ readers st' = [] /\ writers st' = [] /\ signals st' = [] /\ timeout st' = [].
Proof.
  intros Hinv. unfold cancel_everything. cbn zeta.
  destruct (cancel_all_signals_spec (length (signals st)) st Hinv) as (I1 & G1 & _); [lia|].
  change (cancel_all_signals (length (signals st)) st) with (sloop_cancel_signal st None) in *.
  set (s1 := sloop_cancel_signal st None) in *.
  destruct (cancel_all_timeouts_spec (length (timeout s1)) s1 I1) as (I2 & T2 & _ & _ & G2); [lia|].
  change (cancel_all_timeouts (length (timeout s1)) s1) with (sloop_cancel_timeout s1 None) in *.
  set (s2 := sloop_cancel_timeout s1 None) in *.
  destruct (cancel_all_sockets_spec (length (readers s2)) s2 Read I2) as (I3 & R3 & T3 & G3 & _); [cbn; lia|].
  change (cancel_all_sockets (length (readers s2)) s2 Read) with (sloop_cancel_read_sock s2 None) in *.
  set (s3 := sloop_cancel_read_sock s2 None) in *.
  destruct (cancel_all_sockets_spec (length (writers s3)) s3 Write I3) as (I4 & W4 & T4 & G4 & R4); [cbn; lia|].
  change (cancel_all_sockets (length (writers s3)) s3 Write) with (sloop_cancel_write_sock s3 None) in *.
  cbn in R3, W4, R4. split_and!; try done; [by apply R4|congruence|congruence].
Qed.

Lemma sloop_run_total ps : forall st,
  handlers_ok -> sloop_inv st ->
  exists st' b, sloop_run call_socket call_signal call_timeout st ps = Some (st', b) /\ sloop_inv st' /\
    (b = true -> readers st' = [] /\ writers st' = [] /\ signals st' = [] /\ timeout st' = []).
Proof.
  induction ps as [|p ps IH]; intros st Hh Hinv; cbn [sloop_run]; destruct (has_work st);
    try (destruct (cancel_everything_spec st Hinv) as (H1 & H2); by eexists _, true).
  - by exists st, false.
  - destruct (run_turn_total st p Hh Hinv) as (st1 & go & fired & -> & Hinv1). cbn [mbind option_bind].
    destruct go; [by apply IH|]. destruct (cancel_everything_spec st1 Hinv1) as (H1 & H2). by eexists _, true.
Qed.

(** ** Properties *)

(** C30. No slot is ever lost or used twice, and the loop cannot derail: from [sloop_init], after any calls of
    the interface (cancelling twice, or through the wrong function, included), [sloop_run] handles any
    sequence of events without leaving its lists, with call-backs that themselves register and cancel what they like, except that
    the handler of a socket does not cancel its own socket but returns -1 for that ([self_cancel_derails] shows what happens
    otherwise); every slot stays in exactly one of them; and when [sloop_run] returns, every socket, timer
    and signal is back in its pool. *)
Theorem sloop_conserves ins st ps :
  handlers_ok -> rtc api_step (sloop_init ins) st ->
  exists st' b, sloop_run call_socket call_signal call_timeout st ps = Some (st', b) /\
    free_sockets st' ++ readers st' ++ writers st' ≡ₚ seq 0 MAX_SLOOP_SOCKET /\
    free_timeout st' ++ timeout st' ≡ₚ seq 0 MAX_SLOOP_TIMEOUT /\
    free_signals st' ++ signals st' ≡ₚ seq 0 MAX_SLOOP_SIGNAL /\
    sorted_timers (timeouts st') (timeout st') /\
    (b = true -> free_sockets st' ≡ₚ seq 0 MAX_SLOOP_SOCKET /\ free_timeout st' ≡ₚ seq 0 MAX_SLOOP_TIMEOUT /\
                 free_signals st' ≡ₚ seq 0 MAX_SLOOP_SIGNAL).
Proof.
  intros Hh Hr. pose proof (api_steps_inv _ _ (sloop_init_inv ins) Hr) as Hinv.
  destruct (sloop_run_total ps st Hh Hinv) as (st' & b & E & [I1 I2 I3 I4] & Hb).
  exists st', b. split_and!; try done. intros Hbt. destruct (Hb Hbt) as (R & W & G & T).
  rewrite R, W in I1. rewrite T in I2. rewrite G in I3. cbn [app] in I1. rewrite app_nil_r in I1, I2, I3. done.
Qed.

Lemma select_wait_deadline st up x l :
  timeout st = x :: l -> 0 <= snd (time (timeout_of st x)) < 1000000 ->
  exists w, select_wait st up = Some w /\ 0 <= fst w /\ 0 <= snd w < 1000000 /\
    (fst w * 1000000 + snd w = Z.max 0 ((fst (time (timeout_of st x)) - up) * 1000000 + snd (time (timeout_of st x)))).
Proof.
  intros Ht Hu. unfold select_wait. rewrite Ht. set (t := time (timeout_of st x)) in *.
  destruct (timercmp_ge (up, 0) t) eqn:E.
  - apply timercmp_ge_spec in E. exists (0, 0). split; [done|]. unfold tle in E. cbn [fst snd] in *. lia.
  - assert (~ tle t (up, 0)) as Hn by (rewrite <- timercmp_ge_spec; congruence).
    eexists. split; [reflexivity|]. unfold timersub, tle in *. cbn [fst snd] in *.
    destruct (Z.ltb_spec (snd t - 0) 0); cbn [fst snd]; lia.
Qed.

(** C31. Timers fire in the order of their deadlines, and on time: the timer the loop waits for has the
    earliest deadline of all; [select] is told to wait exactly until it; and in a turn without signal
    that timer is fired if and only if the wait ran out or its deadline has been reached, and it is
    back in the pool afterwards. *)
Theorem sloop_timer_order ins st p x l :
  handlers_ok -> rtc api_step (sloop_init ins) st -> timeout st = x :: l ->
  0 <= snd (time (timeout_of st x)) < 1000000 -> 0 <= res p -> pipe_ready p = false ->
  (forall y, y ∈ l -> tle (time (timeout_of st x)) (time (timeout_of st y))) /\
  (exists w, select_wait st (uptime1 p) = Some w /\
     fst w * 1000000 + snd w =
       Z.max 0 ((fst (time (timeout_of st x)) - uptime1 p) * 1000000 + snd (time (timeout_of st x)))) /\
  (exists st' fired, run_turn call_socket call_signal call_timeout st p = Some (st', true, fired) /\
     (fired = true <-> res p = 0 \/ tle (time (timeout_of st x)) (uptime2 p, 0)) /\
     (fired = true -> res p = 0 -> x ∉ timeout st')).
Proof.
  intros Hh Hr Ht Hu Hres Hpipe. pose proof (api_steps_inv _ _ (sloop_init_inv ins) Hr) as Hinv.
  split; [|split].
  - intros y Hy. pose proof (inv_sorted _ Hinv) as Hs. rewrite Ht in Hs. apply StronglySorted_inv in Hs as [_ Hf].
    rewrite Forall_forall in Hf. by apply (Hf y).
  - destruct (select_wait_deadline st (uptime1 p) x l Ht Hu) as (w & E & _ & _ & Hw). by exists w.
  - unfold run_turn. rewrite (proj2 (Z.ltb_ge _ _) Hres), Hpipe, andb_false_r, Ht. cbn [andb head].
    replace (match pipe_sig p with Some _ => st | None => st end) with st by (by destruct (pipe_sig p)).
    replace (match pipe_sig p with Some _ => false | None => false end) with false by (by destruct (pipe_sig p)).
    pose proof (check_timeout_inv st (Some x) (res p) (uptime2 p) Hh Hinv) as Hinv2.
    assert (snd (check_timeout call_timeout st (Some x) (res p) (uptime2 p)) = true <->
            res p = 0 \/ tle (time (timeout_of st x)) (uptime2 p, 0)) as Hfired.
    { unfold check_timeout. rewrite Ht. cbn [head]. rewrite decide_True by done.
      rewrite <- timercmp_ge_spec, <- Z.eqb_eq, <- orb_true_iff. by destruct (_ || _). }
    assert (snd (check_timeout call_timeout st (Some x) (res p) (uptime2 p)) = true ->
            x ∉ timeout (fst (check_timeout call_timeout st (Some x) (res p) (uptime2 p)))) as Hout.
    { unfold check_timeout. destruct (decide _); [|done]. destruct (_ || _); [|done]. cbn [snd fst]. intros _.
      cbn [free_timeout_ del_timeout set_timeouts timeout]. unfold unlink. rewrite list_elem_of_filter. tauto. }
    destruct (check_timeout call_timeout st (Some x) (res p) (uptime2 p)) as [st2 fired]. cbn [fst snd] in *.
    destruct (Z.leb_spec (res p) 0) as [H0|H0].
    + exists st2, fired. split_and!; try done. by intros Hf _; apply Hout.
    + destruct (check_sockets_total st2 Read (rfds p) Hh Hinv2) as (st3 & -> & Hinv3). cbn [mbind option_bind].
      destruct (check_sockets_total st3 Write (wfds p) Hh Hinv3) as (st4 & -> & Hinv4). cbn [mbind option_bind].
      exists st4, fired. split_and!; try done. lia.
Qed.

End RunProofs.

(** *** Registering a timer *)

Lemma carry_secs_spec fuel : forall sec usec,
  0 <= usec -> usec / 1000000 <= Z.of_nat fuel -> carry_secs fuel (sec, usec) = (sec + usec / 1000000, usec mod 1000000).
Proof.
  induction fuel as [|fuel IH]; intros sec usec Hu Hf; cbn [carry_secs].
  - assert (usec < 1000000) by (Z.to_euclidean_division_equations; lia).
    rewrite Z.div_small, Z.mod_small by lia. f_equal. lia.
  - cbn [snd fst]. destruct (Z.leb_spec 1000000 usec) as [Hge|Hlt].
    + replace (usec / 1000000) with (1 + (usec - 1000000) / 1000000) in * by (Z.to_euclidean_division_equations; lia).
      rewrite IH by lia. f_equal; [lia|]. Z.to_euclidean_division_equations; lia.
    + rewrite Z.div_small, Z.mod_small by lia. f_equal. lia.
Qed.

Lemma long_of_small x : 0 <= x < 2 ^ 31 -> long_of x = x.
Proof. intros Hx. unfold long_of. rewrite u32_small by lia. by rewrite (proj2 (Z.ltb_lt x (2 ^ 31))) by lia. Qed.

(** Registering a timer: it fails exactly when all 128 timers are pending and then changes nothing;
    otherwise the timer gets the deadline uptime plus delay, with its microseconds below a million,
    and stands behind every timer that is not later and in front of every later one, so that equal
    deadlines keep their order of registration. *)
Theorem sloop_register_timeout_spec ins st up secs usecs h p :
  rtc api_step (sloop_init ins) st ->
  0 <= up -> 0 <= secs -> up + secs < 2 ^ 31 -> 0 <= usecs < 2 ^ 31 ->
  match sloop_register_timeout st up secs usecs h p with
  | (st', None) => st' = st /\ length (timeout st) = MAX_SLOOP_TIMEOUT
  | (st', Some x) =>
      let tv := (up + secs + usecs / 1000000, usecs mod 1000000) in
      (length (timeout st) < MAX_SLOOP_TIMEOUT)%nat /\ (x ∉ timeout st) /\
      timeouts st' !! x = Some (mktmo tv p h) /\
      exists l1 l2, timeout st = l1 ++ l2 /\ timeout st' = l1 ++ x :: l2 /\
        Forall (fun y => tle (time_of (timeouts st) y) tv) l1 /\
        Forall (fun y => timercmp_lt tv (time_of (timeouts st) y) = true) l2
  end.
Proof.
  intros Hr Hup Hsecs Hsum Husecs. pose proof (api_steps_inv _ _ (sloop_init_inv ins) Hr) as Hinv.
  pose proof (inv_timeouts _ Hinv) as Hp. pose proof (Permutation_length Hp) as Hl. rewrite length_app, length_seq in Hl.
  assert (deadline up secs usecs = (up + secs + usecs / 1000000, usecs mod 1000000)) as Hd.
  { unfold deadline. rewrite !long_of_small by lia. apply carry_secs_spec; [lia|].
    unfold CARRY_FUEL. Z.to_euclidean_division_equations; lia. }
  destruct (free_timeout st) as [|x tl] eqn:Ef.
  { unfold sloop_register_timeout, get_timeout. rewrite Ef. split; [done|]. cbn in Hl. unfold MAX_SLOOP_TIMEOUT in *. lia. }
  rewrite (register_timeout_eq st up secs usecs h p x tl Ef). cbn zeta. rewrite Hd.
  set (tv := (up + secs + usecs / 1000000, usecs mod 1000000)). set (m := <[x := mktmo tv p h]> (timeouts st)).
  pose proof (free_not_pending st x tl Hinv Ef) as Hx.
  assert (forall y, y ∈ timeout st -> m !! y = timeouts st !! y) as Hm.
  { intros y Hy. unfold m. rewrite lookup_insert_ne; [done|]. by intros ->. }
  assert (sorted_timers m (timeout st)) as Hs by (eapply sorted_ext; [exact Hm|apply Hinv]).
  destruct (insert_timer_split m x tv (timeout st) Hs) as (l1 & l2 & E & E' & H1 & H2).
  cbn [set_timeouts timeout timeouts]. split; [cbn [length] in Hl; unfold MAX_SLOOP_TIMEOUT in *; lia|].
  split; [done|]. split; [unfold m; by rewrite lookup_insert_eq|].
  exists l1, l2. split; [done|]. split; [done|].
  assert (forall y, y ∈ l1 \/ y ∈ l2 -> time_of m y = time_of (timeouts st) y) as Ht.
  { intros y Hy. unfold time_of. rewrite Hm; [done|]. rewrite E, elem_of_app. done. }
  rewrite !Forall_forall in *. split; intros y Hy; rewrite <- Ht by auto; auto.
Qed.

(** *** Witnesses *)

(** Call-backs: the socket handler hangs up, the signal handler ends the loop, the timer starts again. *)
Definition hangup (h fd p : Z) (st : sloop) : sloop * Z := (st, -1).
Definition quit (h s p : Z) (st : sloop) : sloop * Z := (sloop_terminate st, 0).
Definition periodic (h p : Z) (st : sloop) : sloop := fst (sloop_register_timeout st 20 5 0 h p).

Lemma example_handlers_ok : handlers_ok hangup quit periodic.
Proof.
  split_and!; intros; cbn [hangup quit fst].
  - apply rtc_refl.
  - apply rtc_once. constructor.
  - apply rtc_once. constructor.
Qed.

(** A socket, a signal and two timers. *)
Definition example_loop : sloop :=
  let st := fst (sloop_register_read_sock (sloop_init []) 5 1 0) in
  let st := fst (sloop_register_signal st 15 2 0) in
  let st := fst (sloop_register_timeout st 10 9 0 3 0) in
  fst (sloop_register_timeout st 10 5 1500000 4 0).

Lemma example_loop_reached : rtc api_step (sloop_init []) example_loop.
Proof. do 4 (eapply rtc_r; [|constructor]). apply rtc_refl. Qed.

Definition data_on_5 : poll := mkpoll 11 1 false [5] [] false None 12.
Definition nothing : poll := mkpoll 12 0 false [] [] false None 17.
Definition sigterm : poll := mkpoll 17 1 false [] [] true (Some 15) 17.

Lemma sloop_conserves_witness :
  exists st' b, sloop_run hangup quit periodic example_loop [data_on_5; nothing; sigterm] = Some (st', b) /\
    free_sockets st' ++ readers st' ++ writers st' ≡ₚ seq 0 MAX_SLOOP_SOCKET /\
    free_timeout st' ++ timeout st' ≡ₚ seq 0 MAX_SLOOP_TIMEOUT /\
    free_signals st' ++ signals st' ≡ₚ seq 0 MAX_SLOOP_SIGNAL /\
    sorted_timers (timeouts st') (timeout st') /\
    (b = true -> free_sockets st' ≡ₚ seq 0 MAX_SLOOP_SOCKET /\ free_timeout st' ≡ₚ seq 0 MAX_SLOOP_TIMEOUT /\
                 free_signals st' ≡ₚ seq 0 MAX_SLOOP_SIGNAL).
Proof.
  exact (sloop_conserves hangup quit periodic [] example_loop [data_on_5; nothing; sigterm]
           example_handlers_ok example_loop_reached).
Defined.

Lemma sloop_register_timeout_spec_witness :
  match sloop_register_timeout example_loop 10 6 2750000 5 0 with
  | (st', None) => st' = example_loop /\ length (timeout example_loop) = MAX_SLOOP_TIMEOUT
  | (st', Some x) =>
      let tv := (18, 750000) in
      (length (timeout example_loop) < MAX_SLOOP_TIMEOUT)%nat /\ (x ∉ timeout example_loop) /\
      timeouts st' !! x = Some (mktmo tv 0 5) /\
      exists l1 l2, timeout example_loop = l1 ++ l2 /\ timeout st' = l1 ++ x :: l2 /\
        Forall (fun y => tle (time_of (timeouts example_loop) y) tv) l1 /\
        Forall (fun y => timercmp_lt tv (time_of (timeouts example_loop) y) = true) l2
  end.
Proof. apply (sloop_register_timeout_spec [] example_loop 10 6 2750000 5 0 example_loop_reached); lia. Defined.

Lemma sloop_timer_order_witness :
  timeout example_loop = [126%nat; 127%nat] /\
  exists st' fired, run_turn hangup quit periodic example_loop nothing = Some (st', true, fired) /\ fired = true.
Proof.
  split; [by vm_compute|].
  destruct (sloop_timer_order hangup quit periodic [] example_loop nothing 126 [127%nat]
              example_handlers_ok example_loop_reached) as (_ & _ & st' & fired & E & Hf & _);
    [by vm_compute|by vm_compute|by vm_compute|done|].
  exists st', fired. split; [exact E|]. apply Hf. by left.
Defined.

(** A timer that cancels itself and starts another from its own handler: the new timer gets the slot just
    given back, and is then removed in place of the old one. *)
Definition restart (h p : Z) (st : sloop) : sloop :=
  fst (sloop_register_timeout (sloop_cancel_timeout st (Some 127%nat)) 20 5 0 h p).

Example restarted_timer_is_lost :
  let st := fst (sloop_register_timeout (sloop_init []) 10 5 0 1 0) in
  timeout (restart 1 0 st) = [127%nat] /\
  (r ← run_turn hangup quit restart st nothing; Some (timeout (fst (fst r)))) = Some [].
Proof. by vm_compute. Qed.

(** A socket handler that cancels its own socket leaves the walk without a successor. *)
Example self_cancel_derails :
  let st := fst (sloop_register_read_sock (sloop_init []) 5 1 0) in
  run_turn (fun _ _ _ st => (sloop_cancel_read_sock st (Some 127%nat), 0)) quit periodic st data_on_5 = None.
Proof. by vm_compute. Qed.

End Sloop.
