(* ===== verification/Xmldb.v ===== *)
(** * tools/alpha/xmldb/xmldb.c: the configuration database, its tree and its paths.

    The database is a tree of [struct xml_node]; the chain of the [next] links from the first
    child of a node is the list of its children.  A pointer to a node is the list of the
    indices that lead to it from [g_xml_root].  The heap answers each request for memory with
    success or failure, and counts the blocks that are live. *)
From Stdlib Require Import ZArith Lia Bool String.
From stdpp Require Import base tactics list option numbers.
From S2P Require Import Prelude.

Module Xmldb.

#[local] Set Warnings "-register-all".

Definition MAX_TAG_LEN : nat := 256.
Definition MAX_VAL_LEN : nat := 256.

Definition IS_WHITE (c : Z) : bool := (c =? 32) || (c =? 9) || (c =? 13) || (c =? 10).

Definition xmldb_eatwhite (s : list Z) : list Z := eat IS_WHITE s.

(** The trailing characters are overwritten with NULs from the end of the string. *)
Definition xmldb_reatwhite (s : list Z) : list Z := rev (eat IS_WHITE (rev s)).

Inductive xml_node := mknode {
  name : list Z; id : Z; value : option (list Z); notify : option (list Z); child : list xml_node
}.

Definition set_id (n : xml_node) (i : Z) := mknode (name n) i (value n) (notify n) (child n).
Definition set_value (n : xml_node) (v : option (list Z)) := mknode (name n) (id n) v (notify n) (child n).
Definition set_notify (n : xml_node) (m : option (list Z)) := mknode (name n) (id n) (value n) m (child n).
Definition set_child (n : xml_node) (l : list xml_node) := mknode (name n) (id n) (value n) (notify n) l.

(** ** The heap *)

(** [avail]: the answers to the next requests; when it runs out, every request succeeds. *)
Record heap := mkheap { avail : list bool; live : Z }.

Definition malloc (h : heap) : bool * heap :=
  match avail h with
  | false :: tl => (false, mkheap tl (live h))
  | true :: tl => (true, mkheap tl (live h + 1))
  | [] => (true, mkheap [] (live h + 1))
  end.

Definition free (h : heap) (blocks : Z) : heap := mkheap (avail h) (live h - blocks).

Definition strdup (h : heap) (s : list Z) : option (list Z) * heap :=
  let '(ok, h) := malloc h in (if ok then Some s else None, h).

(** [new_node]: NULL for the empty name, or when there is no memory. *)
Definition new_node (nm : list Z) (v : option (list Z)) (i : Z) (h : heap) : option xml_node * heap :=
  match nm with
  | [] => (None, h)
  | _ =>
      let '(ok, h) := malloc h in
      if ok then
        match v with
        | Some s => let '(v', h) := strdup h s in (Some (mknode nm i v' None []), h)
        | None => (Some (mknode nm i None None []), h)
        end
      else (None, h)
  end.

(** The blocks a string member holds. *)
Definition owned (s : option (list Z)) : Z := match s with Some _ => 1 | None => 0 end.

(** The number of blocks [del_node] gives back: the children's, the value, the message, the node. *)
Fixpoint node_blocks (n : xml_node) : Z :=
  foldr (fun c acc => node_blocks c + acc) 0 (child n) + owned (value n) + owned (notify n) + 1.

Definition del_node (h : heap) (n : xml_node) : heap := free h (node_blocks n).

(** ** Pointers to nodes *)

Abbreviation pos := (list nat).

Fixpoint node_at (n : xml_node) (p : pos) : option xml_node :=
  match p with
  | [] => Some n
  | i :: p' => c ← child n !! i; node_at c p'
  end.

(** The tree after a change of the node at [p]. *)
Fixpoint upd_at (p : pos) (f : xml_node -> xml_node) (n : xml_node) : xml_node :=
  match p with
  | [] => f n
  | i :: p' => set_child n (alter (upd_at p' f) i (child n))
  end.

(** [sent]: the messages given to [send_notify]. *)
Record db := mkdb { g_xml_root : xml_node; mem : heap; sent : list (list Z) }.

(** ** Paths *)

Fixpoint until_slash (path : list Z) : list Z * list Z :=
  match path with
  | [] => ([], [])
  | c :: tl => if c =? 47 then ([], path) else let '(w, r) := until_slash tl in (c :: w, r)
  end.

(** [get_node]: the first component, cut to the buffer, and the path behind its slash. *)
Definition get_node (size : nat) (path : list Z) : list Z * list Z :=
  let '(w, r) := until_slash path in (take (size - 1) w, tail r).

Definition isspace (c : Z) : bool := (c =? 32) || ((9 <=? c) && (c <=? 13)).

Fixpoint digits (acc : Z) (s : list Z) : Z :=
  match s with
  | c :: tl => if isdigit c then digits (10 * acc + (c - 48)) tl else acc
  | [] => acc
  end.

(** [atoi], that is [strtol] on a 32-bit [long]: the value is clamped to its range. *)
Definition atoi (s : list Z) : Z :=
  match eat isspace s with
  | [] => 0
  | c :: tl =>
      if c =? 45 then Z.max (- 2 ^ 31) (- digits 0 tl)
      else Z.min INT_MAX (digits 0 (if c =? 43 then tl else c :: tl))
  end.

(** The name and the text behind the first [:], if there is one. *)
Fixpoint split_colon (s : list Z) : list Z * option (list Z) :=
  match s with
  | [] => ([], None)
  | c :: tl => if c =? 58 then ([], Some tl) else let '(w, r) := split_colon tl in (c :: w, r)
  end.

Definition split_id (s : list Z) : list Z * Z :=
  match split_colon s with (nm, Some t) => (nm, atoi t) | (nm, None) => (nm, 0) end.

(** ** Looking up *)

Definition is_node (nm : list Z) (i : Z) (n : xml_node) : bool := (strcasecmp (name n) nm =? 0) && (id n =? i).

Fixpoint index_of (p : xml_node -> bool) (l : list xml_node) : option nat :=
  match l with
  | [] => None
  | n :: tl => if p n then Some 0%nat else S <$> index_of p tl
  end.

(** [xmldb_find_sibling]: the node found or made, and the chain; [None] is the NULL [prev] when the
    chain is empty. *)
Definition xmldb_find_sibling (start : list xml_node) (nm : list Z) (i : Z) (create : bool) (h : heap)
  : option (option nat * list xml_node * heap) :=
  match index_of (is_node nm i) start with
  | Some k => Some (Some k, start, h)
  | None =>
      if create then
        match start with
        | [] => None
        | _ =>
            match new_node nm None i h with
            | (Some n, h) => Some (Some (length start), start ++ [n], h)
            | (None, h) => Some (None, start, h)
            end
        end
      else Some (None, start, h)
  end.

(** [remove_child]: the node taken out, if there is one, and the chain left. *)
Fixpoint remove_child (l : list xml_node) (nm : list Z) (i : Z) : option xml_node * list xml_node :=
  match l with
  | [] => (None, [])
  | n :: tl =>
      if (strcmp (name n) nm =? 0) && (id n =? i) then (Some n, tl)
      else let '(r, tl') := remove_child tl nm i in (r, n :: tl')
  end.

Definition set_root (d : db) (t : xml_node) (h : heap) : db := mkdb t h (sent d).

(** One component of the path, below [root]; [target] is what the steps before have found. *)
Definition find_step (d : db) (root : pos) (target : option pos) (nm : list Z) (i : Z) (create : bool)
  : option (option pos * db) :=
  node ← node_at (g_xml_root d) root;
  match child node return option (option pos * db) with
  | _ :: _ =>
      r ← xmldb_find_sibling (child node) nm i create (mem d);
      let '(k, l, h) := r in
      Some (option_map (fun k => root ++ [k]) k, set_root d (upd_at root (fun n => set_child n l) (g_xml_root d)) h)
  | [] =>
      if create then
        match new_node nm None i (mem d) with
        | (Some n, h) =>
            Some (Some (root ++ [0%nat]), set_root d (upd_at root (fun r => set_child r [n]) (g_xml_root d)) h)
        | (None, h) => Some (None, set_root d (g_xml_root d) h)
        end
      else Some (target, d)
  end.

Fixpoint find_loop (fuel : nat) (d : db) (root : pos) (target : option pos) (ptr : list Z) (create : bool)
  : option (option pos * db) :=
  match ptr with
  | [] => Some (target, d)
  | _ =>
      match fuel with
      | O => None
      | S fuel' =>
          let '(buff, ptr) := get_node MAX_TAG_LEN ptr in
          if eqb_list buff [46] then find_loop fuel' d root (Some root) ptr create
          else
            let '(nm, i) := split_id buff in
            r ← find_step d root target nm i create;
            match r return option (option pos * db) with
            | (None, d) => Some (None, d)
            | (Some root, d) => find_loop fuel' d root (Some root) ptr create
            end
      end
  end.

Definition xmldb_find_node (d : db) (root : option pos) (path : list Z) (create : bool) : option (option pos * db) :=
  let '(root, ptr) := match path with 47 :: tl => (None, tl) | _ => (root, path) end in
  find_loop (length ptr) d (default [] root) None ptr create.

(** ** The operations *)

(** The value after [xmldb_set_value], whether it changed, and the heap. *)
Definition store_value (old : option (list Z)) (v : list Z) (h : heap) : option (list Z) * bool * heap :=
  match old with
  | Some o =>
      if negb (strcmp o v =? 0) then
        let h := free h 1 in
        match v with
        | [] => (None, true, h)
        | _ => let '(s, h) := strdup h v in (s, true, h)
        end
      else (old, false, h)
  | None =>
      match v with
      | [] => (None, false, h)
      | _ => let '(s, h) := strdup h v in (s, true, h)
      end
  end.

Definition xmldb_set_value (d : db) (root : option pos) (path v : list Z) : option (option pos * db) :=
  r ← xmldb_find_node d root path true;
  match r return option (option pos * db) with
  | (None, d) => Some (None, d)
  | (Some p, d) =>
      node ← node_at (g_xml_root d) p;
      let '(s, dirty, h) := store_value (value node) v (mem d) in
      Some (Some p,
            mkdb (upd_at p (fun n => set_value n s) (g_xml_root d)) h
                 (match notify node with Some m => if (dirty : bool) then sent d ++ [m] else sent d | None => sent d end))
  end.

Definition xmldb_set_notify (d : db) (root : option pos) (path message : list Z) : option (option pos * db) :=
  r ← xmldb_find_node d root path true;
  match r return option (option pos * db) with
  | (None, d) => Some (None, d)
  | (Some p, d) =>
      node ← node_at (g_xml_root d) p;
      let h := free (mem d) (owned (notify node)) in
      let '(m, h) := match message with [] => (None, h) | _ => strdup h message end in
      Some (Some p, set_root d (upd_at p (fun n => set_notify n m) (g_xml_root d)) h)
  end.

Definition xmldb_get_value (d : db) (root : option pos) (path : list Z) : option (list Z) :=
  r ← xmldb_find_node d root path false;
  match r return option (list Z) with
  | (None, _) => Some []
  | (Some p, d) => node ← node_at (g_xml_root d) p; Some (default [] (value node))
  end.

(** The parent path and the last component, split at the last slash. *)
Fixpoint strrchr_slash (path : list Z) : option (list Z * list Z) :=
  match path with
  | [] => None
  | c :: tl =>
      match strrchr_slash tl with
      | Some (a, b) => Some (c :: a, b)
      | None => if c =? 47 then Some ([], tl) else None
      end
  end.

Definition split_leaf (path : list Z) : option (list Z) * list Z :=
  match strrchr_slash path with
  | Some ([], l) => (None, l)
  | Some (p, l) => (Some p, l)
  | None => (None, path)
  end.

(** The siblings with the following numbers move down by one; [None]: the number overflows. *)
Fixpoint renumber (fuel : nat) (l : list xml_node) (nm : list Z) (i : Z) : option (list xml_node) :=
  match fuel with
  | O => None
  | S fuel' =>
      i1 ← int_of (i + 1);
      match index_of (is_node nm i1) l return option (list xml_node) with
      | Some k => renumber fuel' (alter (fun n => set_id n i) k l) nm i1
      | None => Some l
      end
  end.

(** The deletion, once the copy of the path is made. *)
Definition del_path (d : db) (root : option pos) (path : list Z) : option (Z * db) :=
  let '(ppath, lnode) := split_leaf path in
  let '(nm, i) := split_id lnode in
  r ← match ppath with
      | Some p => xmldb_find_node d root p false
      | None => Some (Some (default [] root), d)
      end;
  match r return option (Z * db) with
  | (None, d) => Some (-1, d)
  | (Some p, d) =>
      pnode ← node_at (g_xml_root d) p;
      match remove_child (child pnode) nm i return option (Z * db) with
      | (None, _) => Some (-1, d)
      | (Some node, l) =>
          let h := del_node (mem d) node in
          l ← if i =? 0 then Some l else renumber (S (length l)) l nm i;
          Some (0, set_root d (upd_at p (fun n => set_child n l) (g_xml_root d)) h)
      end
  end.

(** [xmldb_del_node]; a copy of the path that could not be made is used all the same. *)
Definition xmldb_del_node (d : db) (root : option pos) (path : list Z) : option (Z * db) :=
  let '(ok, h) := malloc (mem d) in
  if ok then
    r ← del_path (set_root d (g_xml_root d) h) root path;
    let '(ret, d) := r in
    Some (ret, set_root d (g_xml_root d) (free (mem d) 1))
  else None.

(** ** The specification: a map from paths to values and messages *)

(** The name of a node without its case, and its number: what paths select by. *)
Abbreviation key := (list Z * Z)%type.

Definition fold_key (k : key) : key := (map tolower (fst k), snd k).
Definition key_of (n : xml_node) : key := fold_key (name n, id n).

Definition find_child (k : key) (l : list xml_node) : option xml_node :=
  find (fun c => bool_decide (key_of c = k)) l.

Fixpoint resolve (n : xml_node) (ks : list key) : option xml_node :=
  match ks with
  | [] => Some n
  | k :: ks' => c ← find_child k (child n); resolve c ks'
  end.

(** NULL and the empty string are the same to the clients. *)
Abbreviation info := (list Z * list Z)%type.
Definition info_of (n : xml_node) : info := (default [] (value n), default [] (notify n)).

Definition view (n : xml_node) (ks : list key) : option info := info_of <$> resolve n ks.

(** The components of a path, without the limit of the buffer. *)
Fixpoint split_slash (path : list Z) : list (list Z) :=
  match path with
  | [] => []
  | c :: tl =>
      if c =? 47 then [] :: split_slash tl
      else match split_slash tl with [] => [[c]] | w :: ws => (c :: w) :: ws end
  end.

Definition relative (path : list Z) : list Z := match path with 47 :: tl => tl | _ => path end.

(** The keys a path stands for. *)
Definition keys_of (path : list Z) : list key := map (fun w => fold_key (split_id w)) (split_slash (relative path)).

(** A component that names a node: it fits the buffer, is not [.], and has a name. *)
Definition comp_ok (w : list Z) : Prop :=
  (length w < MAX_TAG_LEN)%nat /\ w <> [46] /\ fst (split_id w) <> [].

Definition path_ok (path : list Z) : Prop :=
  Forall comp_ok (split_slash (relative path)) /\ split_slash (relative path) <> [].

#[global] Instance comp_ok_dec w : Decision (comp_ok w).
Proof. unfold comp_ok. apply _. Defined.

#[global] Instance path_ok_dec path : Decision (path_ok path).
Proof. unfold path_ok. apply _. Defined.

(** ** Trees *)

(** The children of every node have different keys, usable names and numbers that can be counted up;
    a value or a message is not the empty string. *)
Definition name_ok (nm : list Z) : Prop := nm <> [] /\ (length nm < MAX_TAG_LEN)%nat /\ Forall (fun c => c <> 47 /\ c <> 58) nm.

Inductive wf (n : xml_node) : Prop :=
| wf_node :
    value n <> Some [] -> notify n <> Some [] ->
    NoDup (map key_of (child n)) ->
    Forall (fun c => name_ok (name c) /\ id c < INT_MAX) (child n) ->
    Forall wf (child n) -> wf n.

(** Every name is in lower case. *)
Inductive lower (n : xml_node) : Prop :=
| lower_node : Forall (fun c => map tolower (name c) = name c) (child n) -> Forall lower (child n) -> lower n.

(** ** Strings *)

Lemma eqb_list_spec a : forall b, eqb_list a b = true <-> a = b.
Proof.
  induction a as [|x a IH]; intros [|y b]; cbn; try done. rewrite andb_true_iff, Z.eqb_eq, IH.
  split; [by intros [-> ->]|by intros [= -> ->]].
Qed.

Lemma compare_strings_eq f a : forall b, compare_strings f a b = 0 <-> map f a = map f b.
Proof.
  induction a as [|x a IH]; intros [|y b]; cbn; try done. destruct (Z.eqb_spec (f x) (f y)) as [E|E].
  - rewrite IH, E. split; [by intros ->|by intros [=]].
  - split; [|congruence]. intros Hs. apply Z.sgn_null_iff in Hs. lia.
Qed.

Lemma strcmp_eq a b : strcmp a b = 0 <-> a = b.
Proof. unfold strcmp. by rewrite compare_strings_eq, !map_id. Qed.

Lemma is_node_spec nm i n : is_node nm i n = bool_decide (key_of n = fold_key (nm, i)).
Proof.
  unfold is_node, key_of, fold_key, strcasecmp. cbn [fst snd]. symmetry.
  apply eq_bool_prop_intro. split.
  - intros [= E1 E2]%bool_decide_unpack. rewrite <- E2, Z.eqb_refl, andb_true_r. apply Is_true_eq_left, Z.eqb_eq.
    by apply compare_strings_eq.
  - intros [E1%Z.eqb_eq E2%Z.eqb_eq]%Is_true_true%andb_true_iff. apply bool_decide_pack.
    apply compare_strings_eq in E1. by rewrite E1, E2.
Qed.

Lemma index_of_ext p q l : (forall n, p n = q n) -> index_of p l = index_of q l.
Proof. intros H. induction l as [|n l IH]; [done|]. cbn. by rewrite H, IH. Qed.

Lemma index_of_find p l :
  match index_of p l with
  | Some k => exists n, l !! k = Some n /\ find p l = Some n /\ p n = true
  | None => find p l = None
  end.
Proof.
  induction l as [|n l IH]; [done|]. cbn [index_of find]. destruct (p n) eqn:E; [by exists n|].
  destruct (index_of p l); [|done]. exact IH.
Qed.

(** ** Paths *)

Lemma until_slash_spec path w r :
  until_slash path = (w, r) ->
  path = w ++ r /\ Forall (fun c => c <> 47) w /\ (r = [] \/ exists tl, r = 47 :: tl).
Proof.
  revert w r. induction path as [|c path IH]; intros w r; cbn [until_slash]; [intros [= <- <-]; by auto|].
  destruct (Z.eqb_spec c 47) as [->|Hc]; [intros [= <- <-]; by eauto 6|].
  destruct (until_slash path) as [w' r']. intros [= <- <-]. destruct (IH w' r' eq_refl) as (-> & Hw & Hr). auto.
Qed.

Lemma split_slash_word w r :
  Forall (fun c => c <> 47) w -> (r = [] \/ exists tl, r = 47 :: tl) -> w ++ r <> [] ->
  split_slash (w ++ r) = w :: split_slash (tail r).
Proof.
  induction 1 as [|c w Hc Hw IH]; intros Hr Hne.
  - destruct Hr as [->|[tl ->]]; [done|]. done.
  - cbn [app split_slash]. rewrite (proj2 (Z.eqb_neq _ _) Hc).
    destruct (decide (w ++ r = [])) as [E|E].
    + apply app_eq_nil in E as [-> ->]. done.
    + by rewrite (IH Hr E).
Qed.

(** What the loop sees of a component: [None] is the dot. *)
Definition comp_of (w : list Z) : option key :=
  let b := take (MAX_TAG_LEN - 1) w in if eqb_list b [46] then None else Some (split_id b).

Fixpoint find_comps (d : db) (root : pos) (target : option pos) (ks : list (option key)) (create : bool)
  : option (option pos * db) :=
  match ks with
  | [] => Some (target, d)
  | None :: ks' => find_comps d root (Some root) ks' create
  | Some (nm, i) :: ks' =>
      r ← find_step d root target nm i create;
      match r return option (option pos * db) with
      | (None, d) => Some (None, d)
      | (Some root, d) => find_comps d root (Some root) ks' create
      end
  end.

(** The loop reads one component at a time, and its fuel is enough. *)
Lemma find_loop_comps fuel : forall d root target ptr create,
  (length ptr <= fuel)%nat ->
  find_loop fuel d root target ptr create = find_comps d root target (map comp_of (split_slash ptr)) create.
Proof.
  induction fuel as [|fuel IH]; intros d root target [|c ptr] create Hl; cbn [length] in Hl; try lia; [done|done|].
  cbn [find_loop]. unfold get_node. destruct (until_slash (c :: ptr)) as [w r] eqn:E.
  apply until_slash_spec in E as (E & Hw & Hr). pose proof (split_slash_word w r Hw Hr) as Hs.
  rewrite E, Hs by (by rewrite <- E). cbn [map find_comps].
  assert (length (tail r) <= fuel)%nat as Hl'.
  { apply (f_equal length) in E. rewrite length_app in E. cbn [length] in E.
    destruct Hr as [->|[tl ->]]; cbn [tail length] in *; lia. }
  change (comp_of w) with (if eqb_list (take (MAX_TAG_LEN - 1) w) [46] then None else Some (split_id (take (MAX_TAG_LEN - 1) w))).
  destruct (eqb_list _ _); [by apply IH|]. destruct (split_id _) as [nm i].
  destruct (find_step d root target nm i create) as [[[p|] d']|]; [|done|done]. cbn [mbind option_bind]. by apply IH.
Qed.

Lemma xmldb_find_node_comps d path create :
  xmldb_find_node d None path create = find_comps d [] None (map comp_of (split_slash (relative path))) create.
Proof.
  unfold xmldb_find_node, relative. destruct path as [|c path]; [done|].
  destruct (Z.eq_dec c 47) as [->|Hc]; [by apply find_loop_comps|].
  replace (match c :: path with 47 :: tl => (None, tl) | _ => (None, c :: path) end) with (@None pos, c :: path)
    by (destruct c as [|[]|]; try done; repeat (destruct p; try done)).
  replace (match c :: path with 47 :: tl => tl | _ => c :: path end) with (c :: path)
    by (destruct c as [|[]|]; try done; repeat (destruct p; try done)).
  by apply find_loop_comps.
Qed.

Lemma comp_of_ok w : comp_ok w -> comp_of w = Some (split_id w).
Proof.
  intros (Hl & Hd & _). unfold comp_of. rewrite take_ge by (unfold MAX_TAG_LEN in *; lia).
  destruct (eqb_list w [46]) eqn:E; [|done]. by apply eqb_list_spec in E.
Qed.

(** ** Changes at a pointer *)

Lemma node_at_app p : forall q n, node_at n (p ++ q) = (c ← node_at n p; node_at c q).
Proof.
  induction p as [|i p IH]; intros q n; [done|]. cbn [app node_at]. destruct (child n !! i) as [c|]; [|done].
  apply IH.
Qed.

Lemma node_at_upd p f : forall n c, node_at n p = Some c -> node_at (upd_at p f n) p = Some (f c).
Proof.
  induction p as [|i p IH]; intros n c; cbn [node_at upd_at]; [by intros [= ->]|].
  destruct (child n !! i) as [c'|] eqn:E; [|done]. cbn [mbind option_bind]. intros Hc.
  cbn [set_child child]. rewrite list_lookup_alter_eq, E. cbn. by apply IH.
Qed.

Lemma upd_at_app p q f : forall n, upd_at (p ++ q) f n = upd_at p (upd_at q f) n.
Proof. induction p as [|i p IH]; intros n; [done|]. cbn [app upd_at]. f_equal. apply list_alter_ext; auto. Qed.

Lemma set_child_set_child n l l' : set_child (set_child n l) l' = set_child n l'.
Proof. done. Qed.

Lemma upd_at_twice p f g : forall n, upd_at p f (upd_at p g n) = upd_at p (fun c => f (g c)) n.
Proof.
  induction p as [|i p IH]; intros n; [done|]. cbn [upd_at set_child child]. rewrite set_child_set_child. f_equal.
  rewrite list_alter_alter_eq. apply list_alter_ext; [|done]. intros; apply IH.
Qed.

Lemma alter_at {A} (f : A -> A) (l : list A) k c : l !! k = Some c -> alter f k l = <[k := f c]> l.
Proof.
  intros E. apply list_eq. intros j. destruct (decide (j = k)) as [->|Hj].
  - rewrite list_lookup_alter_eq, E, list_lookup_insert_eq; [done|]. by eapply lookup_lt_Some.
  - by rewrite list_lookup_alter_ne, list_lookup_insert_ne.
Qed.

Lemma alter_out {A} (f : A -> A) (l : list A) k : l !! k = None -> alter f k l = l.
Proof.
  intros E. apply list_eq. intros j. destruct (decide (j = k)) as [->|Hj]; [by rewrite list_lookup_alter_eq, E|by rewrite list_lookup_alter_ne].
Qed.

Lemma upd_at_ext p f g : forall n c, node_at n p = Some c -> f c = g c -> upd_at p f n = upd_at p g n.
Proof.
  induction p as [|i p IH]; intros n c; cbn [node_at upd_at]; [by intros [= ->]|].
  destruct (child n !! i) as [c'|] eqn:E; [|done]. cbn [mbind option_bind]. intros Hc Hf. f_equal.
  rewrite !(alter_at _ _ _ _ E). f_equal. by eapply IH.
Qed.

Lemma upd_at_id p : forall n c, node_at n p = Some c -> upd_at p (fun _ => c) n = n.
Proof.
  induction p as [|i p IH]; intros n c; cbn [node_at upd_at]; [by intros [= ->]|].
  destruct (child n !! i) as [c'|] eqn:E; [|done]. cbn [mbind option_bind]. intros Hc.
  rewrite (alter_at _ _ _ _ E), (IH _ _ Hc), list_insert_id by done. by destruct n.
Qed.

(** ** Making the nodes of a path *)

Definition fresh (k : key) : xml_node := mknode (fst k) (snd k) None None [].

(** The tree with the missing nodes appended, and where the last one is. *)
Fixpoint ensure (n : xml_node) (ks : list key) : xml_node * pos :=
  match ks with
  | [] => (n, [])
  | k :: ks' =>
      match index_of (is_node (fst k) (snd k)) (child n) with
      | Some j =>
          match child n !! j with
          | Some c => let '(c', p) := ensure c ks' in (set_child n (<[j := c']> (child n)), j :: p)
          | None => (n, [])
          end
      | None =>
          let '(c', p) := ensure (fresh k) ks' in (set_child n (child n ++ [c']), length (child n) :: p)
      end
  end.

(** The same with a change of the last node. *)
Fixpoint assign (n : xml_node) (ks : list key) (f : xml_node -> xml_node) : xml_node :=
  match ks with
  | [] => f n
  | k :: ks' =>
      match index_of (is_node (fst k) (snd k)) (child n) with
      | Some j => set_child n (alter (fun c => assign c ks' f) j (child n))
      | None => set_child n (child n ++ [assign (fresh k) ks' f])
      end
  end.

(** The node of the path, new if there was none. *)
Fixpoint reached (n : xml_node) (ks : list key) : xml_node :=
  match ks with
  | [] => n
  | k :: ks' => reached (default (fresh k) (find_child (fold_key k) (child n))) ks'
  end.

Lemma index_of_is_node k l :
  match index_of (is_node (fst k) (snd k)) l with
  | Some j => exists c, l !! j = Some c /\ find_child (fold_key k) l = Some c /\ key_of c = fold_key k
  | None => find_child (fold_key k) l = None
  end.
Proof.
  rewrite (index_of_ext _ (fun c => bool_decide (key_of c = fold_key k)) l) by (intros; by rewrite is_node_spec; destruct k).
  pose proof (index_of_find (fun c => bool_decide (key_of c = fold_key k)) l) as H.
  destruct (index_of _ l); [|done]. destruct H as (c & H1 & H2 & H3%bool_decide_eq_true). by exists c.
Qed.

Lemma ensure_spec ks f : forall n,
  let '(n', p) := ensure n ks in upd_at p f n' = assign n ks f /\ node_at n' p = Some (reached n ks).
Proof.
  induction ks as [|k ks IH]; intros n; cbn [ensure assign reached]; [done|].
  pose proof (index_of_is_node k (child n)) as Hk. destruct (index_of _ _) as [j|].
  - destruct Hk as (c & E & -> & _). rewrite E. specialize (IH c). destruct (ensure c ks) as [c' p].
    destruct IH as [IH1 IH2]. cbn [upd_at node_at set_child child default]. split.
    + rewrite set_child_set_child. f_equal.
      rewrite (alter_at _ (<[j:=c']> (child n)) j c') by (apply list_lookup_insert_eq; by eapply lookup_lt_Some).
      by rewrite list_insert_insert_eq, (alter_at _ _ _ _ E), IH1.
    + rewrite list_lookup_insert_eq by (by eapply lookup_lt_Some). exact IH2.
  - rewrite Hk. specialize (IH (fresh k)). destruct (ensure (fresh k) ks) as [c' p]. destruct IH as [IH1 IH2].
    cbn [upd_at node_at set_child child default]. split.
    + rewrite set_child_set_child. f_equal. rewrite (alter_at _ _ (length (child n)) c').
      * rewrite insert_app_r_alt, Nat.sub_diag by lia. cbn. by rewrite IH1.
      * by rewrite lookup_app_r, Nat.sub_diag by lia.
    + by rewrite lookup_app_r, Nat.sub_diag by lia.
Qed.

Lemma new_node_avail k h :
  avail h = [] -> fst k <> [] -> new_node (fst k) None (snd k) h = (Some (fresh k), mkheap [] (live h + 1)).
Proof. intros Ha Hk. unfold new_node, malloc. rewrite Ha. destruct k as [[|c nm] i]; by cbn in *. Qed.

(** [find_step] with [create]: one step of [ensure]. *)
Lemma find_step_create d root target k n :
  avail (mem d) = [] -> fst k <> [] -> node_at (g_xml_root d) root = Some n ->
  exists j l h, find_step d root target (fst k) (snd k) true =
      Some (Some (root ++ [j]), set_root d (upd_at root (fun r => set_child r l) (g_xml_root d)) h) /\ avail h = [] /\
    match index_of (is_node (fst k) (snd k)) (child n) with
    | Some j' => j = j' /\ l = child n
    | None => j = length (child n) /\ l = child n ++ [fresh k]
    end.
Proof.
  intros Ha Hk Hn. unfold find_step. rewrite Hn. cbn [mbind option_bind]. unfold xmldb_find_sibling.
  destruct (child n) as [|c l] eqn:E.
  - rewrite new_node_avail by done. by eexists _, _, _.
  - destruct (index_of _ (c :: l)) as [j|]; [by exists j, (c :: l), (mem d)|].
    rewrite new_node_avail by done. cbn [option_map]. by eexists _, _, _.
Qed.

Lemma find_comps_create ks : forall d root target n,
  avail (mem d) = [] -> Forall (fun k => fst k <> []) ks -> node_at (g_xml_root d) root = Some n ->
  let '(n', p) := ensure n ks in
  exists h, find_comps d root target (map Some ks) true =
      Some (match ks with [] => target | _ => Some (root ++ p) end,
            set_root d (upd_at root (fun _ => n') (g_xml_root d)) h) /\ avail h = [].
Proof.
  induction ks as [|k ks IH]; intros d root target n Ha Hks Hn; cbn [ensure map find_comps].
  { exists (mem d). rewrite (upd_at_id _ _ _ Hn). split; [by destruct d|done]. }
  apply Forall_cons_iff in Hks as [Hk Hks]. destruct k as [nm i] eqn:Ek. rewrite <- Ek in *.
  replace nm with (fst k) by (by rewrite Ek). replace i with (snd k) by (by rewrite Ek). clear Ek.
  destruct (find_step_create d root target k n Ha Hk Hn) as (j & l & h & -> & Hh & Hj). cbn [mbind option_bind].
  set (d1 := set_root d _ h). pose proof (index_of_is_node k (child n)) as Hf.
  assert (exists c, l !! j = Some c /\
    ensure n (k :: ks) = (set_child n (<[j := fst (ensure c ks)]> l), j :: snd (ensure c ks))) as (c & Hc & He).
  { cbn [ensure]. destruct (index_of _ _) as [j'|]; destruct Hj as [-> ->].
    - destruct Hf as (c & Hc & _ & _). exists c. rewrite Hc. by destruct (ensure c ks).
    - exists (fresh k). rewrite lookup_app_r, Nat.sub_diag by lia. split; [done|].
      rewrite insert_app_r_alt, Nat.sub_diag by lia. by destruct (ensure (fresh k) ks). }
  change (match index_of _ _ with Some _ => _ | None => _ end) with (ensure n (k :: ks)). rewrite He.
  assert (node_at (g_xml_root d1) (root ++ [j]) = Some c) as Hat.
  { rewrite node_at_app. cbn [d1 set_root g_xml_root]. rewrite (node_at_upd _ _ _ _ Hn). cbn. by rewrite Hc. }
  specialize (IH d1 (root ++ [j]) (Some (root ++ [j])) c Hh Hks Hat). destruct (ensure c ks) as [c' p] eqn:Ec.
  destruct IH as (h' & -> & Hh'). exists h'. split; [|done]. cbn [fst snd]. f_equal. f_equal.
  - destruct ks; [|by rewrite <- app_assoc]. cbn [ensure] in Ec. injection Ec as <- <-. done.
  - unfold d1, set_root. cbn [g_xml_root sent]. f_equal. rewrite upd_at_app, upd_at_twice.
    eapply upd_at_ext; [done|]. cbn [upd_at set_child child]. by rewrite set_child_set_child, (alter_at _ _ _ _ Hc).
Qed.

(** ** What a change does to the map *)

Lemma find_child_alter k l j F k2 :
  index_of (is_node (fst k) (snd k)) l = Some j -> (forall c, key_of (F c) = key_of c) ->
  find_child k2 (alter F j l) = if decide (k2 = fold_key k) then F <$> find_child k2 l else find_child k2 l.
Proof.
  intros Hj HF. revert j Hj. unfold find_child.
  assert (forall c, is_node (fst k) (snd k) c = bool_decide (key_of c = fold_key k)) as Hn
    by (intros; by rewrite is_node_spec).
  induction l as [|c l IH]; intros j; cbn [index_of]; [done|]. rewrite Hn.
  case_bool_decide as Hc; [intros [= <-]|destruct (index_of _ l) as [j'|]; [|done]; intros [= <-]];
    cbn [alter list_alter find].
  - rewrite HF. destruct (decide (k2 = fold_key k)) as [->|Hk].
    + by rewrite bool_decide_true by congruence.
    + by rewrite bool_decide_false by congruence.
  - specialize (IH j' eq_refl). cbn [alter] in IH. rewrite IH. case_bool_decide as H2; [|done].
    by rewrite decide_False by congruence.
Qed.

Lemma find_child_snoc k l x :
  find_child k (l ++ [x]) = match find_child k l with Some c => Some c | None => if decide (key_of x = k) then Some x else None end.
Proof.
  unfold find_child. induction l as [|c l IH]; cbn [app find].
  - case_bool_decide; by case_decide.
  - by case_bool_decide.
Qed.

Lemma view_cons n k q : view n (k :: q) = c ← find_child k (child n); view c q.
Proof. unfold view. cbn [resolve]. by destruct (find_child k (child n)). Qed.

Lemma view_fresh k q : view (fresh k) q = if decide (q = []) then Some ([], []) else None.
Proof. by destruct q. Qed.

Section Assign.
Context (f : xml_node -> xml_node) (g : info -> info).
Context (Hkey : forall n, key_of (f n) = key_of n) (Hchild : forall n, child (f n) = child n)
        (Hinfo : forall n, info_of (f n) = g (info_of n)).

Lemma assign_key ks n : key_of (assign n ks f) = key_of n.
Proof using Hkey. destruct ks as [|k ks]; cbn [assign]; [apply Hkey|]. by destruct (index_of _ _). Qed.

(** The map after [assign]: the new entry, empty ones for the nodes on the way that did not exist,
    and every other entry as before. *)
Lemma view_assign ks : forall n q,
  view (assign n ks f) q =
    if decide (q = map fold_key ks) then Some (g (default ([], []) (view n q)))
    else match view n q with
         | Some x => Some x
         | None => if decide (q `prefix_of` map fold_key ks) then Some ([], []) else None
         end.
Proof using All.
  induction ks as [|k ks IH]; intros n q; cbn [assign map].
  - destruct q as [|k2 q]; [by rewrite decide_True by done; unfold view; cbn; rewrite Hinfo|].
    rewrite decide_False by done. rewrite !view_cons, Hchild, decide_False by (by intros ?%prefix_nil_inv).
    by destruct (c ← _; _).
  - destruct q as [|k2 q]; [rewrite decide_False by done; by destruct (index_of _ _)|].
    pose proof (index_of_is_node k (child n)) as Hk.
    destruct (index_of (is_node (fst k) (snd k)) (child n)) as [j|] eqn:Ej; rewrite !view_cons; cbn [set_child child].
    + rewrite (find_child_alter k _ _ _ _ Ej) by (intros; apply assign_key).
      destruct (decide (k2 = fold_key k)) as [->|Hne].
      * destruct Hk as (c & _ & -> & _). cbn [fmap option_fmap option_map mbind option_bind]. rewrite IH.
        rewrite (decide_ext (fold_key k :: q = fold_key k :: map fold_key ks) (q = map fold_key ks)) by naive_solver.
        rewrite (decide_ext (fold_key k :: q `prefix_of` fold_key k :: map fold_key ks) (q `prefix_of` map fold_key ks))
          by (split; [apply prefix_cons_inv_2|apply prefix_cons]). done.
      * rewrite decide_False by congruence.
        rewrite (decide_False (P := k2 :: q `prefix_of` _)) by (by intros ?%prefix_cons_inv_1). by destruct (c ← _; _).
    + rewrite find_child_snoc, assign_key. change (key_of (fresh k)) with (fold_key k).
      destruct (decide (fold_key k = k2)) as [<-|Hne].
      * rewrite Hk. cbn [mbind option_bind default]. rewrite IH, view_fresh.
        rewrite (decide_ext (fold_key k :: q = fold_key k :: map fold_key ks) (q = map fold_key ks)) by naive_solver.
        rewrite (decide_ext (fold_key k :: q `prefix_of` fold_key k :: map fold_key ks) (q `prefix_of` map fold_key ks))
          by (split; [apply prefix_cons_inv_2|apply prefix_cons]).
        destruct (decide (q = map fold_key ks)); [by destruct (decide (q = []))|].
        destruct (decide (q = [])) as [->|]; [|done]. by rewrite decide_True by apply prefix_nil.
      * rewrite decide_False by congruence.
        rewrite (decide_False (P := k2 :: q `prefix_of` _)) by (intros ?%prefix_cons_inv_1; congruence).
        destruct (find_child k2 (child n)); [|done]. cbn. by destruct (view _ q).
Qed.

End Assign.

(** The information the path leads to, before the nodes are made. *)
Lemma reached_info ks : forall n, info_of (reached n ks) = default ([], []) (view n (map fold_key ks)).
Proof.
  induction ks as [|k ks IH]; intros n; [done|]. cbn [reached map]. rewrite IH, view_cons.
  destruct (find_child _ _); [done|]. cbn [default mbind option_bind]. rewrite view_fresh. by case_decide.
Qed.

(** ** Looking up without making nodes *)

Lemma upd_at_same root T n : node_at T root = Some n -> upd_at root (fun r => set_child r (child n)) T = T.
Proof.
  intros Hn. rewrite (upd_at_ext root _ (fun _ => n) T n Hn); [by apply upd_at_id|]. by destruct n.
Qed.

Lemma find_step_lookup d root target k n :
  node_at (g_xml_root d) root = Some n ->
  find_step d root target (fst k) (snd k) false =
    Some (match child n with
          | [] => target
          | _ => option_map (fun j => root ++ [j]) (index_of (is_node (fst k) (snd k)) (child n))
          end, d).
Proof.
  intros Hn. unfold find_step. rewrite Hn. cbn [mbind option_bind]. destruct (child n) as [|c l] eqn:E; [done|].
  unfold xmldb_find_sibling. rewrite <- E. destruct (index_of _ _); cbn [option_map mbind option_bind];
    rewrite (upd_at_same _ _ _ Hn); by destruct d.
Qed.

(** Along an existing path the loop goes to its node, and nothing changes. *)
Lemma find_comps_app ks rest : forall d root target n c,
  node_at (g_xml_root d) root = Some n -> resolve n (map fold_key ks) = Some c ->
  exists p, find_comps d root target (map Some ks ++ rest) false =
      find_comps d (root ++ p) (match p with [] => target | _ => Some (root ++ p) end) rest false /\
    node_at n p = Some c /\ (p = [] <-> ks = []) /\ (forall f, upd_at p f n = assign n ks f).
Proof.
  induction ks as [|[nm i] ks IH]; intros d root target n c Hn Hr; cbn [map app find_comps resolve] in *.
  { injection Hr as <-. exists []. by rewrite app_nil_r. }
  destruct (find_child _ (child n)) as [c'|] eqn:Ef; [|done]. cbn [mbind option_bind] in Hr.
  pose proof (find_step_lookup d root target (nm, i) n Hn) as Es. cbn [fst snd] in Es. rewrite Es. cbn [mbind option_bind].
  pose proof (index_of_is_node (nm, i) (child n)) as Hj. cbn [assign fst snd] in *.
  destruct (index_of _ _) as [j|]; [|congruence]. destruct Hj as (c2 & Hj & Hf & _). rewrite Ef in Hf. injection Hf as <-.
  destruct (child n) as [|c0 l] eqn:El; [done|]. cbn [option_map]. rewrite <- El in *.
  assert (node_at (g_xml_root d) (root ++ [j]) = Some c') as Hat by (rewrite node_at_app, Hn; cbn; by rewrite Hj).
  destruct (IH d (root ++ [j]) (Some (root ++ [j])) c' c Hat Hr) as (p & -> & Hp & _ & Hu).
  exists (j :: p). rewrite <- app_assoc. cbn [node_at upd_at]. rewrite Hj. split_and!; [by destruct p|done|done|].
  intros f. f_equal. by rewrite !(alter_at _ _ _ _ Hj), Hu.
Qed.

(** Below a leaf the loop stays where it is. *)
Lemma find_comps_stall ks : forall d root c,
  node_at (g_xml_root d) root = Some c -> child c = [] ->
  find_comps d root (Some root) (map Some ks) false = Some (Some root, d).
Proof.
  induction ks as [|[nm i] ks IH]; intros d root c Hc Hl; [done|]. cbn [map find_comps].
  pose proof (find_step_lookup d root (Some root) (nm, i) c Hc) as Es. cbn [fst snd] in Es. rewrite Es, Hl.
  cbn [mbind option_bind]. by eapply IH.
Qed.

Lemma keys_of_comps path :
  Forall comp_ok (split_slash (relative path)) ->
  exists ks, map comp_of (split_slash (relative path)) = map Some ks /\ keys_of path = map fold_key ks /\
    Forall (fun k => fst k <> []) ks /\ length ks = length (split_slash (relative path)).
Proof.
  intros Hok. exists (map split_id (split_slash (relative path))). unfold keys_of. rewrite !map_map.
  split_and!; [|done| |apply length_map].
  - apply map_ext_in. intros w Hw. apply comp_of_ok. rewrite Forall_forall in Hok. exact (Hok _ Hw).
  - apply Forall_map. eapply List.Forall_impl; [|exact Hok]. by intros w (_ & _ & ?).
Qed.

Lemma find_node_found d path c :
  path_ok path -> resolve (g_xml_root d) (keys_of path) = Some c ->
  exists p ks, xmldb_find_node d None path false = Some (Some p, d) /\ node_at (g_xml_root d) p = Some c /\
    keys_of path = map fold_key ks /\ (forall f, upd_at p f (g_xml_root d) = assign (g_xml_root d) ks f).
Proof.
  intros [Hok Hne] Hr. destruct (keys_of_comps path Hok) as (ks & E & Ek & _ & Hl). rewrite Ek in Hr.
  rewrite xmldb_find_node_comps, E. destruct (find_comps_app ks [] d [] None _ c eq_refl Hr) as (p & Ef & Hp & Hnil & Hu).
  rewrite app_nil_r in Ef. rewrite Ef. cbn [find_comps app] in *. exists p, ks. split; [|done].
  destruct p; [|done]. destruct Hnil as [Hnil _]. rewrite (Hnil eq_refl) in Hl. by destruct (split_slash _).
Qed.

Lemma find_node_missing d path ks1 k ks2 c :
  path_ok path -> keys_of path = ks1 ++ k :: ks2 ->
  resolve (g_xml_root d) ks1 = Some c -> find_child k (child c) = None ->
  if decide (child c = [] /\ ks1 <> []) then
    exists p, xmldb_find_node d None path false = Some (Some p, d) /\ node_at (g_xml_root d) p = Some c
  else xmldb_find_node d None path false = Some (None, d).
Proof.
  intros [Hok Hne] Hk Hr Hf. destruct (keys_of_comps path Hok) as (ks & E & Ek & _ & Hl). rewrite Hk in Ek. symmetry in Ek.
  apply map_eq_app in Ek as (l1 & l2 & -> & <- & Ek). apply map_eq_cons in Ek as ([nm i] & l2' & -> & <- & <-).
  rewrite xmldb_find_node_comps, E, map_app.
  destruct (find_comps_app l1 (map Some ((nm, i) :: l2')) d [] None _ c eq_refl Hr) as (p & -> & Hp & Hnil & _).
  cbn [app map find_comps] in *. pose proof (find_step_lookup d p (match p with [] => None | _ => Some p end) (nm, i) c Hp) as Es.
  cbn [fst snd] in Es. rewrite Es. cbn [mbind option_bind].
  pose proof (index_of_is_node (nm, i) (child c)) as Hj. cbn [fst snd] in Hj.
  destruct (index_of _ _) as [j|]; [destruct Hj as (? & _ & Hj & _); congruence|].
  destruct (child c) as [|c0 l] eqn:Ec; [|rewrite decide_False by (by intros [? _]); done].
  destruct p as [|x p].
  - rewrite decide_False; [done|]. intros [_ Hn]. apply Hn. destruct Hnil as [Hnil _]. by rewrite (Hnil eq_refl).
  - rewrite decide_True.
    + exists (x :: p). split; [|done]. by eapply find_comps_stall.
    + split; [done|]. destruct l1; [|done]. destruct Hnil as [_ Hnil]. by discriminate (Hnil eq_refl).
Qed.

(** ** Setting *)

Lemma find_node_create d path :
  path_ok path -> avail (mem d) = [] ->
  exists ks p n' h, keys_of path = map fold_key ks /\ ensure (g_xml_root d) ks = (n', p) /\
    xmldb_find_node d None path true = Some (Some p, set_root d n' h) /\ avail h = [].
Proof.
  intros [Hok Hne] Ha. destruct (keys_of_comps path Hok) as (ks & E & Ek & Hks & Hl).
  rewrite xmldb_find_node_comps, E.
  pose proof (find_comps_create ks d [] None (g_xml_root d) Ha Hks eq_refl) as Hc.
  destruct (ensure (g_xml_root d) ks) as [n' p] eqn:En. destruct Hc as (h & -> & Hh).
  exists ks, p, n', h. split_and!; try done. destruct ks; [|done]. by destruct (split_slash _).
Qed.

Lemma store_value_avail old v h :
  avail h = [] ->
  exists s h', store_value old v h = (s, negb (bool_decide (default [] old = v)), h') /\ default [] s = v /\ avail h' = [].
Proof.
  intros Ha. unfold store_value, strdup, malloc, free. destruct old as [o|]; cbn [default].
  - destruct (Z.eqb_spec (strcmp o v) 0) as [E|E]; rewrite strcmp_eq in E; cbn [negb avail].
    + rewrite bool_decide_true by done. by eexists _, _.
    + rewrite bool_decide_false by done. rewrite Ha. destruct v; by eexists _, _.
  - rewrite Ha. destruct v; by eexists _, _.
Qed.

(** The messages that a change of the value causes. *)
Definition change_notice (old : option info) (v : list Z) : list (list Z) :=
  let '(o, m) := default ([], []) old in
  if bool_decide (o = v) || bool_decide (m = []) then [] else [m].

Lemma wf_notify_reached ks : forall n, wf n -> notify (reached n ks) <> Some [].
Proof.
  induction ks as [|k ks IH]; intros n Hn; [by destruct Hn|]. cbn [reached]. apply IH.
  destruct (find_child _ _) as [c|] eqn:E; cbn [default].
  - unfold find_child in E. apply find_some in E as [Hin _]. destruct Hn as [_ _ _ _ Hf].
    rewrite Forall_forall in Hf. by apply Hf.
  - by constructor; try constructor.
Qed.

Lemma set_value_refines d path v :
  path_ok path -> avail (mem d) = [] -> wf (g_xml_root d) ->
  let ks := keys_of path in
  let m := view (g_xml_root d) in
  exists p d', xmldb_set_value d None path v = Some (Some p, d') /\
    (forall q, view (g_xml_root d') q =
       if decide (q = ks) then Some (v, snd (default ([], []) (m q)))
       else match m q with
            | Some x => Some x
            | None => if decide (q `prefix_of` ks) then Some ([], []) else None
            end) /\
    sent d' = sent d ++ change_notice (m ks) v /\
    xmldb_get_value d' None path = Some v.
Proof.
  intros Hp Ha Hwf ks0 m. destruct (find_node_create d path Hp Ha) as (ks & p & n' & h & Ek & En & Ef & Hh).
  unfold xmldb_set_value. rewrite Ef. cbn [mbind option_bind set_root g_xml_root mem sent].
  pose proof (ensure_spec ks (fun n => n) (g_xml_root d)) as Hs. rewrite En in Hs. destruct Hs as [_ Hat]. rewrite Hat.
  cbn [mbind option_bind]. destruct (store_value_avail (value (reached (g_xml_root d) ks)) v h Hh) as (s & h' & -> & Hv & _).
  eexists _, _. split; [reflexivity|]. cbn [g_xml_root sent].
  pose proof (ensure_spec ks (fun n => set_value n s) (g_xml_root d)) as Hs. rewrite En in Hs. destruct Hs as [-> _].
  assert (forall q, view (assign (g_xml_root d) ks (fun n => set_value n s)) q =
       if decide (q = ks0) then Some (v, snd (default ([], []) (m q)))
       else match m q with Some x => Some x | None => if decide (q `prefix_of` ks0) then Some ([], []) else None end) as Hview.
  { intros q. rewrite (view_assign _ (fun x => (v, snd x))) by (done || (intros; unfold info_of; cbn; by rewrite Hv)).
    unfold ks0. by rewrite Ek. }
  split; [exact Hview|]. split.
  - pose proof (reached_info ks (g_xml_root d)) as Hi. pose proof (wf_notify_reached ks _ Hwf) as Hn.
    unfold change_notice, m, ks0. rewrite Ek, <- Hi. unfold info_of.
    revert Hn. destruct (notify (reached (g_xml_root d) ks)) as [msg|]; intros Hn; cbn [default].
    + destruct (bool_decide (default [] _ = v)); cbn [negb orb]; [by rewrite app_nil_r|].
      change (Datatypes.id msg) with msg. by rewrite bool_decide_false by congruence.
    + by rewrite orb_true_r, app_nil_r.
  - set (d' := mkdb _ _ _). specialize (Hview ks0). rewrite decide_True in Hview by done.
    unfold view in Hview. destruct (resolve _ ks0) as [c|] eqn:Ec; [|done]. injection Hview as Hc _.
    destruct (find_node_found d' path c Hp Ec) as (p' & _ & Ef' & Hp' & _).
    unfold xmldb_get_value. rewrite Ef'. cbn [mbind option_bind]. rewrite Hp'. cbn. by rewrite Hc.
Qed.

(** C1. [xmldb_set_value] implements the assignment of a map: the entry of the path gets the value and keeps
    its message, the nodes missing on the way are made with empty entries, and every other entry is as
    before; the client registered at the path is notified exactly when the value has changed; and
    [xmldb_get_value] returns the value from then on. *)
Theorem xmldb_set_value_refines d path v :
  path_ok path -> avail (mem d) = [] -> wf (g_xml_root d) ->
  let ks := keys_of path in
  let m := view (g_xml_root d) in
  exists p d', xmldb_set_value d None path v = Some (Some p, d') /\
    (forall q, view (g_xml_root d') q =
       if decide (q = ks) then Some (v, snd (default ([], []) (m q)))
       else match m q with
            | Some x => Some x
            | None => if decide (q `prefix_of` ks) then Some ([], []) else None
            end) /\
    sent d' = sent d ++ change_notice (m ks) v /\
    xmldb_get_value d' None path = Some v.
Proof. exact (set_value_refines d path v). Qed.

(** ** Taking nodes out *)

(** With different keys the order of the children does not matter. *)
Lemma find_child_elem k l c : NoDup (map key_of l) -> (find_child k l = Some c <-> c ∈ l /\ key_of c = k).
Proof.
  intros Hnd. split.
  - intros [Hin Hk%bool_decide_eq_true]%find_some. by rewrite list_elem_of_In.
  - intros [Hin Hk]. unfold find_child. induction l as [|c' l IH]; [by apply not_elem_of_nil in Hin|].
    cbn [map] in Hnd. apply list.NoDup_cons in Hnd as [Hn Hnd]. cbn [find]. apply elem_of_cons in Hin as [->|Hin].
    + by rewrite bool_decide_true.
    + rewrite bool_decide_false; [by apply IH|]. intros E. apply Hn. rewrite E, <- Hk.
      apply list_elem_of_In, in_map. by apply list_elem_of_In.
Qed.

Lemma find_child_perm k l l' : NoDup (map key_of l) -> l ≡ₚ l' -> find_child k l = find_child k l'.
Proof.
  intros Hnd Hp. assert (NoDup (map key_of l')) as Hnd' by (by rewrite <- Hp).
  apply option_eq. intros c. by rewrite !find_child_elem, Hp.
Qed.

Lemma find_child_cons k c l :
  find_child k (c :: l) = if decide (key_of c = k) then Some c else find_child k l.
Proof. unfold find_child. cbn [find]. case_bool_decide; by case_decide. Qed.

Lemma find_child_notin c l : key_of c ∉ map key_of l -> find_child (key_of c) l = None.
Proof.
  intros Hn. destruct (find_child _ l) as [c'|] eqn:E; [|done]. exfalso. apply Hn.
  apply find_some in E as [Hin <-%bool_decide_eq_true]. by apply list_elem_of_In, in_map.
Qed.

Lemma alter_perm {A} (F : A -> A) l j c : l !! j = Some c -> l ≡ₚ c :: delete j l /\ alter F j l ≡ₚ F c :: delete j l.
Proof.
  intros E. split; [by apply delete_Permutation|]. pose proof (lookup_lt_Some _ _ _ E).
  rewrite (alter_at _ _ _ _ E), insert_take_drop, delete_take_drop by done. by rewrite <- Permutation_middle.
Qed.

Lemma remove_child_perm nm i l c l' :
  remove_child l nm i = (Some c, l') -> l ≡ₚ c :: l' /\ name c = nm /\ id c = i.
Proof.
  revert l'. induction l as [|n l IH]; intros l'; cbn [remove_child]; [done|].
  destruct (Z.eqb_spec (strcmp (name n) nm) 0) as [E|E]; cbn [andb];
    [rewrite strcmp_eq in E; destruct (Z.eqb_spec (id n) i) as [Ei|Ei]; [by intros [= <- <-]|]|];
    (destruct (remove_child l nm i) as [r tl]; intros [= -> <-];
     destruct (IH tl eq_refl) as (-> & H); split; [by constructor|exact H]).
Qed.

Lemma remove_child_none nm i l l' :
  remove_child l nm i = (None, l') -> map tolower nm = nm -> Forall (fun c => map tolower (name c) = name c) l ->
  find_child (nm, i) l = None.
Proof.
  intros Hr Hnm. revert l' Hr. induction l as [|n l IH]; intros l' Hr Hf; cbn [remove_child] in Hr; [done|].
  apply Forall_cons_iff in Hf as [Hn Hf]. rewrite find_child_cons.
  destruct ((strcmp (name n) nm =? 0) && (id n =? i)) eqn:E; [done|].
  destruct (remove_child l nm i) as [r tl]. injection Hr as -> <-. rewrite decide_False; [by eapply IH|].
  unfold key_of, fold_key. cbn [fst snd]. rewrite Hn. intros [= <- <-].
  rewrite (proj2 (Z.eqb_eq _ _) (proj2 (strcmp_eq (name n) (name n)) eq_refl)), Z.eqb_refl in E. done.
Qed.

(** What the map has below a child. *)
Definition sub (l : list xml_node) (k : key) (ks : list key) : option info := c ← find_child k l; view c ks.

Lemma view_set_id n i ks : view (set_id n i) ks = view n ks.
Proof. by destruct ks. Qed.

(** The numbers above [i] up to [j] are all taken. *)
Definition chain (has : Z -> bool) (i j : Z) : bool := forallb has (seqZ (i + 1) (j - i)).

Lemma chain_step has i j : i < j -> chain has i j = has (i + 1) && chain has (i + 1) j.
Proof. intros H. unfold chain. rewrite seqZ_cons by lia. cbn [forallb]. do 3 f_equal; lia. Qed.

Lemma chain_nil has i j : j <= i -> chain has i j = true.
Proof. intros H. unfold chain. by rewrite seqZ_nil by lia. Qed.

Lemma chain_ext has has' i j : (forall x, i < x -> has x = has' x) -> chain has i j = chain has' i j.
Proof.
  intros H. apply eq_true_iff_eq. unfold chain. rewrite !forallb_forall.
  split; intros Hf x Hx; pose proof (Hf x Hx); apply list_elem_of_In, elem_of_seqZ in Hx; rewrite H in * by lia; done.
Qed.

(** The entry that comes to number [j] when number [i] is taken out and the following ones move down. *)
Definition shifted {A} (has : Z -> bool) (get : Z -> option A) (i j : Z) : option A :=
  if j <? i then get j
  else if chain has i (j + 1) then get (j + 1)
  else if chain has i j then None
  else get j.

Definition has_num (l : list xml_node) (nm : list Z) (x : Z) : bool := bool_decide (is_Some (find_child (nm, x) l)).

(** One node moves from number [i + 1] to the free number [i]. *)
Lemma move_down l nm i k c :
  NoDup (map key_of l) -> find_child (nm, i) l = None -> l !! k = Some c -> key_of c = (nm, i + 1) ->
  let l1 := alter (fun n => set_id n i) k l in
  NoDup (map key_of l1) /\
  forall k2, find_child k2 l1 =
    if decide (k2 = (nm, i)) then Some (set_id c i) else if decide (k2 = (nm, i + 1)) then None else find_child k2 l.
Proof.
  intros Hnd Hi Hk Hc l1. destruct (alter_perm (fun n => set_id n i) l k c Hk) as [Hp Hp1]. fold l1 in Hp1.
  set (r := delete k l) in *.
  assert (key_of (set_id c i) = (nm, i)) as Hc1
    by (unfold key_of, fold_key in *; cbn [set_id name id fst snd] in *; by injection Hc as ->).
  assert (NoDup (map key_of (c :: r))) as Hnd0 by (by rewrite <- Hp). cbn [map] in Hnd0.
  apply list.NoDup_cons in Hnd0 as [Hcr Hr].
  assert (forall k2, find_child k2 l = if decide ((nm, i + 1) = k2) then Some c else find_child k2 r) as Hl
    by (intros k2; rewrite (find_child_perm k2 l _ Hnd Hp), find_child_cons; by rewrite Hc).
  assert ((nm, i) ∉ map key_of r) as Hir.
  { rewrite <- Hc1. intros Hin. rewrite Hl, decide_False in Hi by (intros E; injection E; lia).
    apply list_elem_of_In, in_map_iff in Hin as (x & Hx & Hin).
    assert (find_child (nm, i) r = Some x) as E by (apply find_child_elem; [done|]; rewrite list_elem_of_In, Hx; done).
    congruence. }
  assert (NoDup (map key_of l1)) as Hnd1 by (rewrite Hp1; cbn [map]; rewrite Hc1; by constructor).
  split; [done|]. intros k2. rewrite (find_child_perm k2 l1 _ Hnd1 Hp1), find_child_cons, Hc1, Hl.
  destruct (decide ((nm, i) = k2)) as [<-|Hne]; [by rewrite decide_True|].
  rewrite decide_False by congruence. destruct (decide ((nm, i + 1) = k2)) as [<-|Hne2].
  - rewrite decide_True by done. rewrite <- Hc. by apply find_child_notin.
  - by rewrite decide_False by congruence.
Qed.

Lemma count_above_step l i k c :
  l !! k = Some c -> id c = i + 1 ->
  (S (length (filter (fun n => (i + 1 < id n)%Z) (alter (fun n => set_id n i) k l))) <= length (filter (fun n => (i < id n)%Z) l))%nat.
Proof.
  intros Hk Hc. destruct (alter_perm (fun n => set_id n i) l k c Hk) as [Hp Hp1].
  rewrite (Permutation_length (filter_Permutation (fun n => (i + 1 < id n)%Z) _ _ Hp1)).
  rewrite (Permutation_length (filter_Permutation (fun n => (i < id n)%Z) _ _ Hp)).
  rewrite !filter_cons. cbn [set_id id]. rewrite decide_False, decide_True by lia. cbn [length].
  apply le_n_S. clear Hp Hp1. induction (delete k l) as [|x r IH]; [done|]. rewrite !filter_cons.
  destruct (decide (i + 1 < id x)); destruct (decide (i < id x)); cbn [length]; lia.
Qed.

(** Moving one node down first, and the rest from the next number on, is moving them all. *)
Lemma shifted_step {A} (has has1 : Z -> bool) (get get1 : Z -> option A) i j :
  has (i + 1) = true -> (forall x, i + 1 < x -> has1 x = has x) ->
  get1 i = get (i + 1) -> (forall x, x <> i -> x <> i + 1 -> get1 x = get x) ->
  shifted has1 get1 (i + 1) j = shifted has get i j.
Proof.
  intros Hi Hhas Hgi Hget. unfold shifted. destruct (Z.ltb_spec j i) as [Hj|Hj].
  { rewrite (proj2 (Z.ltb_lt j (i + 1))) by lia. apply Hget; lia. }
  rewrite (chain_step has i (j + 1)), Hi by lia. cbn [andb].
  destruct (Z.ltb_spec j (i + 1)) as [Hj1|Hj1].
  { assert (j = i) as -> by lia. by rewrite chain_nil by lia. }
  rewrite (chain_step has i j), Hi by lia. cbn [andb]. rewrite !(chain_ext has1 has (i + 1)) by done.
  destruct (chain has (i + 1) (j + 1)); [apply Hget; lia|].
  destruct (Z.eq_dec j (i + 1)) as [->|Hne]; [by rewrite chain_nil by lia|].
  destruct (chain has (i + 1) j); [done|]. apply Hget; lia.
Qed.

Lemma renumber_spec fuel : forall l nm i,
  NoDup (map key_of l) -> find_child (fold_key (nm, i)) l = None -> Forall (fun c => id c < INT_MAX) l ->
  - 2 ^ 31 <= i < INT_MAX -> (length (filter (fun c => (i < id c)%Z) l) < fuel)%nat ->
  exists l', renumber fuel l nm i = Some l' /\ NoDup (map key_of l') /\
    Forall2 (fun c c' => exists j, c' = set_id c j /\ j < INT_MAX) l l' /\
    forall nm' j ks, sub l' (nm', j) ks =
      if decide (nm' = map tolower nm) then shifted (has_num l nm') (fun x => sub l (nm', x) ks) i j else sub l (nm', j) ks.
Proof.
  induction fuel as [|fuel IH]; intros l nm i Hnd Hf Hmax Hi Hc; [lia|]. cbn [renumber].
  rewrite int_of_ok by (unfold INT_MAX in *; lia). cbn [mbind option_bind].
  pose proof (index_of_is_node (nm, i + 1) l) as Hk. cbn [fst snd] in Hk. set (tn := map tolower nm).
  assert (forall x, fold_key (nm, x) = (tn, x)) as Hfk by done. rewrite Hfk in *.
  destruct (index_of _ l) as [k|].
  - destruct Hk as (c & Hk & Hfc & Hkc). destruct (move_down l tn i k c Hnd Hf Hk Hkc) as [Hnd1 Hfind].
    set (l1 := alter _ k l) in *. assert (id c = i + 1) as Hid by (injection Hkc; done).
    assert (i + 1 < INT_MAX) as Hlt.
    { rewrite Forall_forall in Hmax. rewrite <- Hid. apply Hmax. apply list_elem_of_In. by eapply list_elem_of_lookup_2. }
    destruct (IH l1 nm (i + 1)) as (l' & -> & Hnd' & Hf2 & Hsub).
    + done.
    + rewrite Hfk, Hfind, decide_False, decide_True by (done || (intros E; injection E; lia)). done.
    + unfold l1. rewrite (alter_at _ _ _ _ Hk). apply Forall_insert; [done|]. cbn. lia.
    + lia.
    + pose proof (count_above_step l i k c Hk Hid). unfold l1. lia.
    + exists l'. split_and!; try done.
      * apply Forall2_same_length_lookup_2; [apply Forall2_length in Hf2; unfold l1 in Hf2; rewrite length_alter in Hf2; done|].
        intros x y y' Hy Hy'. destruct (decide (x = k)) as [->|Hx].
        -- assert (l1 !! k = Some (set_id c i)) as Hl1 by (unfold l1; by rewrite list_lookup_alter_eq, Hk).
           rewrite Hk in Hy. injection Hy as <-. pose proof (Forall2_lookup_lr _ _ _ _ _ _ Hf2 Hl1 Hy') as (j & -> & Hj). by exists j.
        -- assert (l1 !! x = Some y) as Hl1 by (unfold l1; by rewrite list_lookup_alter_ne).
           by pose proof (Forall2_lookup_lr _ _ _ _ _ _ Hf2 Hl1 Hy').
      * intros nm' j ks. rewrite Hsub. fold tn. destruct (decide (nm' = tn)) as [->|Hne].
        -- apply shifted_step.
           ++ unfold has_num. rewrite Hfc. by apply bool_decide_true.
           ++ intros x Hx. unfold has_num. by rewrite Hfind, !decide_False by (intros E; injection E; lia).
           ++ unfold sub. rewrite Hfind, decide_True by done. rewrite Hfc. apply view_set_id.
           ++ intros x H1 H2. unfold sub. by rewrite Hfind, !decide_False by congruence.
        -- unfold sub. by rewrite Hfind, !decide_False by congruence.
  - exists l. split_and!; try done.
    + apply Forall_Forall2_diag. eapply List.Forall_impl; [|exact Hmax]. intros c Hcm. exists (id c). by destruct c.
    + intros nm' j ks. destruct (decide (nm' = tn)) as [->|]; [|done]. unfold shifted.
      destruct (Z.ltb_spec j i) as [|Hj]; [done|].
      assert (has_num l tn (i + 1) = false) as Hh by (unfold has_num; rewrite Hk; apply bool_decide_false; by intros [? ?]).
      rewrite (chain_step _ i (j + 1)), Hh by lia. cbn [andb].
      destruct (Z.eq_dec i j) as [<-|Hij]; [rewrite chain_nil by lia; unfold sub; by rewrite Hf|].
      by rewrite chain_step, Hh by lia.
Qed.

Lemma shifted_ext {A} (has has' : Z -> bool) (get get' : Z -> option A) i j :
  (forall x, i < x -> has x = has' x) -> (forall x, x <> i -> get x = get' x) ->
  shifted has get i j = shifted has' get' i j.
Proof.
  intros Hh Hg. unfold shifted. rewrite !(chain_ext has has') by done.
  destruct (Z.ltb_spec j i); [apply Hg; lia|]. destruct (chain _ i (j + 1)); [apply Hg; lia|].
  destruct (Z.eq_dec j i) as [->|]; [by rewrite chain_nil by lia|]. destruct (chain _ i j); [done|]. by apply Hg.
Qed.

Lemma digits_nonneg s : forall acc, 0 <= acc -> 0 <= digits acc s.
Proof.
  induction s as [|c s IH]; intros acc Ha; cbn [digits]; [done|]. destruct (isdigit c) eqn:E; [|done].
  apply IH. unfold isdigit in E. bprop. lia.
Qed.

Lemma atoi_min s : - 2 ^ 31 <= atoi s.
Proof.
  unfold atoi. destruct (eat isspace s) as [|c tl]; [lia|]. destruct (c =? 45); [lia|].
  pose proof (digits_nonneg (if c =? 43 then tl else c :: tl) 0). unfold INT_MAX. lia.
Qed.

Lemma split_id_min s : - 2 ^ 31 <= snd (split_id s).
Proof. unfold split_id. destruct (split_colon s) as [nm [t|]]; cbn [snd]; [apply atoi_min|lia]. Qed.

Definition after_remove (l : list xml_node) (nm : list Z) (i : Z) : option (list xml_node) :=
  if i =? 0 then Some l else renumber (S (length l)) l nm i.

(** The children after [remove_child] and the renumbering. *)
Lemma after_remove_spec l nm i c l1 :
  NoDup (map key_of l) -> Forall (fun c => id c < INT_MAX) l -> - 2 ^ 31 <= i ->
  remove_child l nm i = (Some c, l1) ->
  exists l2, after_remove l1 nm i = Some l2 /\ NoDup (map key_of l2) /\
    Forall2 (fun c c' => exists j, c' = set_id c j /\ j < INT_MAX) l1 l2 /\
    forall nm' j ks, sub l2 (nm', j) ks =
      if decide (nm' = map tolower nm) then
        if i =? 0 then (if j =? 0 then None else sub l (nm', j) ks)
        else shifted (has_num l nm') (fun x => sub l (nm', x) ks) i j
      else sub l (nm', j) ks.
Proof.
  intros Hnd Hmax Hi Hr. apply remove_child_perm in Hr as (Hp & Hnm & Hid).
  assert (NoDup (map key_of (c :: l1))) as Hnd0 by (by rewrite <- Hp). cbn [map] in Hnd0.
  apply list.NoDup_cons in Hnd0 as [Hc Hnd1]. rewrite Hp in Hmax. apply Forall_cons_iff in Hmax as [Hmc Hmax].
  assert (key_of c = (map tolower nm, i)) as Hkc by (unfold key_of; rewrite Hnm, Hid; done).
  assert (forall k, find_child k l = if decide ((map tolower nm, i) = k) then Some c else find_child k l1) as Hl
    by (intros k; rewrite (find_child_perm k l _ Hnd Hp), find_child_cons; by rewrite Hkc).
  assert (find_child (map tolower nm, i) l1 = None) as Hf by (rewrite <- Hkc; by apply find_child_notin).
  unfold after_remove. destruct (Z.eqb_spec i 0) as [->|Hi0].
  - exists l1. split_and!; try done.
    + apply Forall_Forall2_diag. eapply List.Forall_impl; [|exact Hmax]. intros x Hx. exists (id x). by destruct x.
    + intros nm' j ks. unfold sub. rewrite Hl. destruct (decide (nm' = _)) as [->|Hne]; [|by rewrite decide_False by congruence].
      destruct (Z.eqb_spec j 0) as [->|Hj]; [by rewrite Hf|]. by rewrite decide_False by congruence.
  - destruct (renumber_spec (S (length l1)) l1 nm i) as (l2 & -> & Hnd2 & Hf2 & Hsub); try done; [lia| |].
    { pose proof (length_filter (fun c => (i < id c)%Z) l1). lia. }
    exists l2. split_and!; try done. intros nm' j ks. rewrite Hsub. unfold sub.
    destruct (decide (nm' = _)) as [->|Hne]; [|by rewrite Hl, decide_False by congruence].
    apply shifted_ext; intros x Hx; unfold has_num; by rewrite Hl, decide_False by (intros E; injection E; lia).
Qed.

Lemma view_app n pk r : view n (pk ++ r) = c ← resolve n pk; view c r.
Proof.
  revert n. induction pk as [|k pk IH]; intros n; [done|]. cbn [app resolve]. rewrite view_cons.
  destruct (find_child k (child n)); [|done]. apply IH.
Qed.

(** A change of an existing node is seen below its path only. *)
Lemma view_assign_sub f ks : forall n c,
  (forall n, key_of (f n) = key_of n) -> resolve n (map fold_key ks) = Some c ->
  (forall r, view (assign n ks f) (map fold_key ks ++ r) = view (f c) r) /\
  (forall q, ~ map fold_key ks `prefix_of` q -> view (assign n ks f) q = view n q).
Proof.
  induction ks as [|k ks IH]; intros n c Hkey Hr; cbn [map assign resolve app] in *.
  { injection Hr as <-. split; [done|]. intros q Hq. destruct Hq. apply prefix_nil. }
  destruct (find_child _ _) as [c'|] eqn:Ef; [|done]. cbn [mbind option_bind] in Hr.
  pose proof (index_of_is_node k (child n)) as Hk. destruct (index_of _ _) as [j|] eqn:Ej; [|congruence].
  destruct (IH c' c Hkey Hr) as [IH1 IH2]. split.
  - intros r. rewrite view_cons. cbn [set_child child].
    rewrite (find_child_alter k _ _ _ _ Ej), decide_True, Ef by (done || (intros; by apply assign_key)). apply IH1.
  - intros [|k2 q] Hq; [done|]. rewrite !view_cons. cbn [set_child child].
    rewrite (find_child_alter k _ _ _ _ Ej) by (intros; by apply assign_key).
    destruct (decide (k2 = fold_key k)) as [->|]; [|done]. rewrite Ef. apply IH2. intros Hpre. apply Hq. by apply prefix_cons.
Qed.

Lemma resolve_none ks : forall n,
  resolve n ks = None -> exists ks1 k ks2 c, ks = ks1 ++ k :: ks2 /\ resolve n ks1 = Some c /\ find_child k (child c) = None.
Proof.
  induction ks as [|k ks IH]; intros n; cbn [resolve]; [done|]. destruct (find_child k (child n)) as [c|] eqn:E.
  - intros (ks1 & k' & ks2 & c' & -> & Hr & Hf)%IH. exists (k :: ks1), k', ks2, c'. cbn [resolve]. by rewrite E.
  - intros _. by exists [], k, ks, n.
Qed.

Lemma wf_resolve ks : forall n c, wf n -> resolve n ks = Some c -> wf c.
Proof.
  induction ks as [|k ks IH]; intros n c Hn; cbn [resolve]; [by intros [= <-]|].
  destruct (find_child _ _) as [c'|] eqn:E; [|done]. cbn [mbind option_bind]. apply IH.
  apply find_some in E as [Hin _]. destruct Hn as [_ _ _ _ Hf]. rewrite Forall_forall in Hf. by apply Hf.
Qed.

Lemma lower_resolve ks : forall n c, lower n -> resolve n ks = Some c -> lower c.
Proof.
  induction ks as [|k ks IH]; intros n c Hn; cbn [resolve]; [by intros [= <-]|].
  destruct (find_child _ _) as [c'|] eqn:E; [|done]. cbn [mbind option_bind]. apply IH.
  apply find_some in E as [Hin _]. destruct Hn as [_ Hf]. rewrite Forall_forall in Hf. by apply Hf.
Qed.

Lemma strrchr_slash_none w : Forall (fun c => c <> 47) w -> strrchr_slash w = None.
Proof.
  induction 1 as [|c w Hc Hw IH]; [done|]. cbn [strrchr_slash]. rewrite IH. by rewrite (proj2 (Z.eqb_neq _ _) Hc).
Qed.

Lemma strrchr_slash_last pp w : Forall (fun c => c <> 47) w -> strrchr_slash (pp ++ 47 :: w) = Some (pp, w).
Proof.
  intros Hw. induction pp as [|c pp IH]; cbn [app strrchr_slash]; [by rewrite strrchr_slash_none|]. by rewrite IH.
Qed.

(** The map after the entry [k] below [pk] is deleted: with the number 0 the entry and what is below it
    go; with another number the following ones move down, as far as there is no gap. *)
Definition deleted (m : list key -> option info) (pk : list key) (k : key) (q : list key) : option info :=
  if decide (pk `prefix_of` q) then
    match drop (length pk) q with
    | (nm, j) :: rest =>
        if decide (nm = fst k) then
          if snd k =? 0 then (if j =? 0 then None else m q)
          else shifted (fun x => bool_decide (is_Some (m (pk ++ [(nm, x)])))) (fun x => m (pk ++ (nm, x) :: rest)) (snd k) j
        else m q
    | [] => m q
    end
  else m q.

(** The parent of the node to delete, found or not. *)
Lemma find_parent d pp w :
  pp = [] \/ path_ok pp -> Forall (fun c => c <> 47) w ->
  exists r, match fst (split_leaf (pp ++ 47 :: w)) with
            | Some p => xmldb_find_node d None p false
            | None => Some (Some [], d)
            end = Some (r, d) /\ snd (split_leaf (pp ++ 47 :: w)) = w /\
    match resolve (g_xml_root d) (keys_of pp) with
    | Some c => exists p ks, r = Some p /\ node_at (g_xml_root d) p = Some c /\ keys_of pp = map fold_key ks /\
                  (forall f, upd_at p f (g_xml_root d) = assign (g_xml_root d) ks f)
    | None => match r with Some p => exists c, node_at (g_xml_root d) p = Some c /\ child c = [] | None => True end
    end.
Proof.
  intros Hpp Hw. unfold split_leaf. rewrite strrchr_slash_last by done. destruct pp as [|x pp]; cbn [fst snd].
  { exists (Some []). split_and!; try done. by exists [], []. }
  destruct Hpp as [?|Hpp]; [done|]. destruct (resolve _ _) as [c|] eqn:E.
  - destruct (find_node_found d _ c Hpp E) as (p & ks & H1 & H2 & H3 & H4). exists (Some p). split_and!; try done. by exists p, ks.
  - apply resolve_none in E as (ks1 & k & ks2 & c & Hk & Hr & Hf).
    pose proof (find_node_missing d _ ks1 k ks2 c Hpp Hk Hr Hf) as Hm. case_decide as Hc.
    + destruct Hm as (p & H1 & H2). exists (Some p). split_and!; try done. exists c. tauto.
    + by exists None.
Qed.

Lemma split_id_lower w : map tolower w = w -> map tolower (fst (split_id w)) = fst (split_id w).
Proof.
  intros Hw. unfold split_id. assert (map tolower (fst (split_colon w)) = fst (split_colon w)) as H.
  { revert Hw. induction w as [|c w IH]; cbn [split_colon map]; [done|]. intros [= Hc Hw]. destruct (c =? 58); [done|].
    specialize (IH Hw). destruct (split_colon w). cbn [fst map] in *. congruence. }
  by destruct (split_colon w) as [nm [t|]].
Qed.

Lemma view_sub n k ks : view n (k :: ks) = sub (child n) k ks.
Proof. apply view_cons. Qed.

(** A new list of children for the node of [pk] is the deletion in the map. *)
Lemma view_deleted n ks c l2 nm i :
  resolve n (map fold_key ks) = Some c ->
  (forall nm' j r, sub l2 (nm', j) r =
     if decide (nm' = nm) then
       if i =? 0 then (if j =? 0 then None else sub (child c) (nm', j) r)
       else shifted (has_num (child c) nm') (fun x => sub (child c) (nm', x) r) i j
     else sub (child c) (nm', j) r) ->
  forall q, view (assign n ks (fun n => set_child n l2)) q = deleted (view n) (map fold_key ks) (nm, i) q.
Proof.
  intros Hr Hsub q. set (pk := map fold_key ks) in *. unfold deleted. cbn [fst snd].
  destruct (view_assign_sub (fun n => set_child n l2) ks n c ltac:(done) Hr) as [H1 H2].
  destruct (decide (pk `prefix_of` q)) as [[r ->]|Hq]; [|by apply H2].
  assert (forall r, view n (pk ++ r) = view c r) as Hm by (intros; by rewrite view_app, Hr).
  rewrite drop_app_length, H1, Hm. destruct r as [|[nm' j] r]; [done|].
  rewrite !view_sub. cbn [set_child child]. rewrite Hsub. destruct (decide (nm' = nm)) as [->|]; [|done].
  destruct (i =? 0); [done|]. apply shifted_ext; intros x Hx; rewrite Hm, view_sub; [|done].
  unfold has_num, sub. by destruct (find_child (nm, x) (child c)).
Qed.

Lemma del_path_refines d pp w :
  pp = [] \/ path_ok pp -> Forall (fun c => c <> 47) w -> map tolower w = w ->
  wf (g_xml_root d) -> lower (g_xml_root d) ->
  let m := view (g_xml_root d) in
  let pk := keys_of pp in
  let k := split_id w in
  exists r d', del_path d None (pp ++ 47 :: w) = Some (r, d') /\
    match m (pk ++ [k]) with
    | None => r = -1 /\ d' = d
    | Some _ => r = 0 /\ (forall q, view (g_xml_root d') q = deleted m pk k q) /\ sent d' = sent d
    end.
Proof.
  intros Hpp Hw Hlw Hwf Hlow m pk k. destruct (find_parent d pp w Hpp Hw) as (r & Ef & El & Hr).
  unfold del_path. destruct (split_leaf _) as [ppath lnode]. cbn [fst snd] in *. subst lnode.
  fold k. assert (map tolower (fst k) = fst k) as Hk by (by apply split_id_lower).
  assert (- 2 ^ 31 <= snd k) as Hmin by apply split_id_min.
  destruct k as [nm i] eqn:Ek. cbn [fst snd] in *. cbn [default]. rewrite Ef. cbn [mbind option_bind].
  unfold m. rewrite view_app. fold pk in Hr. destruct (resolve _ pk) as [c|] eqn:Ec.
  - destruct Hr as (p & ks & -> & Hat & Hks & Hu). rewrite Hat. cbn [mbind option_bind].
    pose proof (wf_resolve _ _ _ Hwf Ec) as Hwc. pose proof (lower_resolve _ _ _ Hlow Ec) as Hlc.
    destruct Hwc as [_ _ Hnd Hmax _]. destruct Hlc as [Hlc' _].
    destruct (remove_child (child c) nm i) as [[node|] l] eqn:Erm.
    + destruct (after_remove_spec _ nm i node l Hnd) as (l2 & Ear & _ & _ & Hsub); try done.
      { eapply List.Forall_impl; [|exact Hmax]. tauto. }
      unfold after_remove in Ear. rewrite Ear. cbn [mbind option_bind]. eexists _, _. split; [reflexivity|].
      apply remove_child_perm in Erm as (Hp & Hn1 & Hn2).
      assert (find_child (nm, i) (child c) = Some node) as Hfn.
      { apply find_child_elem; [done|]. rewrite Hp. split; [by left|]. unfold key_of, fold_key. cbn. by rewrite Hn1, Hn2, Hk. }
      rewrite view_cons, Hfn. cbn [mbind option_bind]. split_and!; [done| |done].
      intros q. cbn [set_root g_xml_root]. rewrite Hu. rewrite Hks.
      apply view_deleted with (c := c); [by rewrite <- Hks|]. by rewrite Hk in Hsub.
    + eexists _, _. split; [reflexivity|]. rewrite view_cons, (remove_child_none nm i _ _ Erm Hk Hlc'). done.
  - cbn [mbind option_bind]. destruct r as [p|]; [|by eexists _, _].
    destruct Hr as (c & Hat & Hc). rewrite Hat. cbn [mbind option_bind]. rewrite Hc. by eexists _, _.
Qed.

(** C2. [xmldb_del_node] implements the deletion of the map: it returns 0 exactly if the node exists; then the
    node and everything below it are gone; when it has a number, the siblings of that name with
    the following numbers move down by one, with all that is below them, as far as the numbers
    have no gap; nothing else changes. *)
Theorem xmldb_del_node_refines d pp w :
  pp = [] \/ path_ok pp -> Forall (fun c => c <> 47) w -> map tolower w = w ->
  avail (mem d) = [] -> wf (g_xml_root d) -> lower (g_xml_root d) ->
  let m := view (g_xml_root d) in
  let pk := keys_of pp in
  let k := split_id w in
  exists r d', xmldb_del_node d None (pp ++ 47 :: w) = Some (r, d') /\
    match m (pk ++ [k]) with
    | None => r = -1 /\ d' = d
    | Some _ => r = 0 /\ (forall q, view (g_xml_root d') q = deleted m pk k q) /\ sent d' = sent d
    end.
Proof.
  intros Hpp Hw Hlw Ha Hwf Hlow m pk k. unfold xmldb_del_node, malloc. rewrite Ha.
  set (d0 := set_root d (g_xml_root d) _).
  destruct (del_path_refines d0 pp w Hpp Hw Hlw Hwf Hlow) as (r & d' & -> & Hr). cbn [mbind option_bind].
  eexists _, _. split; [reflexivity|]. change (view (g_xml_root d0)) with m in Hr. fold pk k in Hr.
  destruct (m (pk ++ [k])); [done|]. destruct Hr as [-> ->]. split; [done|].
  destruct d as [t [av n] s]. unfold d0, set_root, free. cbn in *. subst av. do 2 f_equal. lia.
Qed.

(** ** Every sequence of operations *)

Definition child_blocks (l : list xml_node) : Z := foldr (fun c acc => node_blocks c + acc) 0 l.

Lemma node_blocks_eq n : node_blocks n = child_blocks (child n) + owned (value n) + owned (notify n) + 1.
Proof. by destruct n. Qed.

Lemma child_blocks_cons c l : child_blocks (c :: l) = node_blocks c + child_blocks l.
Proof. done. Qed.

Lemma child_blocks_app a b : child_blocks (a ++ b) = child_blocks a + child_blocks b.
Proof. induction a as [|c a IH]; [done|]. cbn [app]. rewrite !child_blocks_cons, IH. lia. Qed.

Lemma child_blocks_perm a b : a ≡ₚ b -> child_blocks a = child_blocks b.
Proof. induction 1; rewrite ?child_blocks_cons; lia. Qed.

Lemma child_blocks_alter f l j c :
  l !! j = Some c -> child_blocks (alter f j l) = child_blocks l - node_blocks c + node_blocks (f c).
Proof.
  intros E. destruct (alter_perm f l j c E) as [H1 H2]. rewrite (child_blocks_perm _ _ H2), (child_blocks_perm _ _ H1).
  rewrite !child_blocks_cons. lia.
Qed.

Lemma blocks_upd_at p f : forall n c,
  node_at n p = Some c -> node_blocks (upd_at p f n) = node_blocks n - node_blocks c + node_blocks (f c).
Proof.
  induction p as [|j p IH]; intros n c; cbn [node_at upd_at]; [intros [= ->]; lia|].
  destruct (child n !! j) as [c'|] eqn:E; [|done]. cbn [mbind option_bind]. intros Hc.
  rewrite node_blocks_eq. cbn [set_child child value notify]. rewrite (child_blocks_alter _ _ _ _ E), (IH _ _ Hc), (node_blocks_eq n). lia.
Qed.

Lemma map_key_alter f l j c : l !! j = Some c -> key_of (f c) = key_of c -> map key_of (alter f j l) = map key_of l.
Proof.
  intros E Hk. rewrite (alter_at _ _ _ _ E). change (map key_of) with (fmap (M := list) key_of).
  rewrite list_fmap_insert, Hk. apply list_insert_id. by rewrite list_lookup_fmap, E.
Qed.

Definition same_tag (n n' : xml_node) : Prop := name n' = name n /\ id n' = id n.

Lemma same_tag_key n n' : same_tag n n' -> key_of n' = key_of n.
Proof. intros [H1 H2]. unfold key_of. by rewrite H1, H2. Qed.

Lemma upd_at_tag p f n c : node_at n p = Some c -> same_tag c (f c) -> same_tag n (upd_at p f n).
Proof. destruct p; cbn [node_at upd_at]; [by intros [= ->]|done]. Qed.

Lemma wf_upd_at p f : forall n c, wf n -> node_at n p = Some c -> same_tag c (f c) -> wf (f c) -> wf (upd_at p f n).
Proof.
  induction p as [|j p IH]; intros n c Hn; cbn [node_at upd_at]; [by intros [= ->]|].
  destruct (child n !! j) as [c'|] eqn:E; [|done]. cbn [mbind option_bind]. intros Hc Ht Hf.
  destruct Hn as [Hv Hm Hnd Hok Hch]. pose proof (upd_at_tag _ _ _ _ Hc Ht) as Ht'.
  assert (In c' (child n)) as Hin by (apply list_elem_of_In; by eapply list_elem_of_lookup_2).
  constructor; cbn [set_child child value notify]; try done.
  - rewrite (map_key_alter _ _ _ _ E); [done|]. by apply same_tag_key.
  - rewrite (alter_at _ _ _ _ E). apply Forall_insert; [done|]. destruct Ht' as [-> ->].
    rewrite Forall_forall in Hok. by apply Hok.
  - rewrite (alter_at _ _ _ _ E). apply Forall_insert; [done|]. eapply IH; [|done..].
    rewrite Forall_forall in Hch. by apply Hch.
Qed.

Lemma lower_upd_at p f : forall n c, lower n -> node_at n p = Some c -> same_tag c (f c) -> lower (f c) -> lower (upd_at p f n).
Proof.
  induction p as [|j p IH]; intros n c Hn; cbn [node_at upd_at]; [by intros [= ->]|].
  destruct (child n !! j) as [c'|] eqn:E; [|done]. cbn [mbind option_bind]. intros Hc Ht Hf.
  destruct Hn as [Hok Hch]. pose proof (upd_at_tag _ _ _ _ Hc Ht) as [Ht' _].
  assert (In c' (child n)) as Hin by (apply list_elem_of_In; by eapply list_elem_of_lookup_2).
  constructor; cbn [set_child child]; rewrite (alter_at _ _ _ _ E); (apply Forall_insert; [done|]).
  - rewrite Ht'. rewrite Forall_forall in Hok. by apply Hok.
  - eapply IH; [|done..]. rewrite Forall_forall in Hch. by apply Hch.
Qed.

Lemma wf_node_at p : forall n c, wf n -> node_at n p = Some c -> wf c.
Proof.
  induction p as [|j p IH]; intros n c Hn; cbn [node_at]; [by intros [= ->]|].
  destruct (child n !! j) as [c'|] eqn:E; [|done]. cbn [mbind option_bind]. apply IH.
  destruct Hn as [_ _ _ _ Hf]. rewrite Forall_forall in Hf. apply Hf, list_elem_of_In. by eapply list_elem_of_lookup_2.
Qed.

Lemma lower_node_at p : forall n c, lower n -> node_at n p = Some c -> lower c.
Proof.
  induction p as [|j p IH]; intros n c Hn; cbn [node_at]; [by intros [= ->]|].
  destruct (child n !! j) as [c'|] eqn:E; [|done]. cbn [mbind option_bind]. apply IH.
  destruct Hn as [_ Hf]. rewrite Forall_forall in Hf. apply Hf, list_elem_of_In. by eapply list_elem_of_lookup_2.
Qed.

(** The heap after [k] more blocks are in use; it does not run out if it does not before. *)
Definition heap_to (h : heap) (k : Z) (h' : heap) : Prop := live h' = live h + k /\ (avail h = [] -> avail h' = []).

Lemma heap_to_trans h1 k1 h2 k2 h3 k : heap_to h1 k1 h2 -> heap_to h2 k2 h3 -> k = k1 + k2 -> heap_to h1 k h3.
Proof. intros [H1 H2] [H3 H4] ->. split; [lia|auto]. Qed.

Lemma heap_to_free h k : heap_to h (- k) (free h k).
Proof. split; [cbn; lia|done]. Qed.

Lemma malloc_cases h : (exists h', malloc h = (true, h') /\ heap_to h 1 h') \/ (exists h', malloc h = (false, h') /\ heap_to h 0 h').
Proof.
  unfold malloc, heap_to. destruct (avail h) as [|[] tl]; [left|left|right]; (eexists; split; [done|]; cbn [live avail]; split; [lia|done]).
Qed.

Lemma malloc_avail h : avail h = [] -> exists h', malloc h = (true, h') /\ heap_to h 1 h'.
Proof. intros Ha. destruct (malloc_cases h) as [?|(h' & E & _)]; [done|]. unfold malloc in E. by rewrite Ha in E. Qed.

Lemma new_node_cases nm i h :
  (exists h', new_node nm None i h = (Some (fresh (nm, i)), h') /\ heap_to h 1 h' /\ nm <> []) \/
  (exists h', new_node nm None i h = (None, h') /\ heap_to h 0 h').
Proof.
  unfold new_node. destruct nm as [|x nm]; [right; exists h; split; [done|split; [lia|done]]|].
  destruct (malloc_cases h) as [(h' & -> & Hh)|(h' & -> & Hh)]; [left|right]; by exists h'.
Qed.

Lemma strdup_cases s h :
  (exists h', strdup h s = (Some s, h') /\ heap_to h 1 h') \/ (exists h', strdup h s = (None, h') /\ heap_to h 0 h').
Proof. unfold strdup. destruct (malloc_cases h) as [(h' & -> & Hh)|(h' & -> & Hh)]; [left|right]; by exists h'. Qed.

(** What the steps rely on in a component, and what they need for lower case. *)
Definition comp_good (k : option key) : Prop :=
  match k with Some (nm, i) => (nm = [] \/ name_ok nm) /\ i < INT_MAX | None => True end.
Definition comp_lower (k : option key) : Prop :=
  match k with Some (nm, _) => map tolower nm = nm | None => True end.

(** The heap pays for the change of the tree. *)
Definition paid (d d' : db) : Prop := heap_to (mem d) (node_blocks (g_xml_root d') - node_blocks (g_xml_root d)) (mem d').

Lemma paid_refl d : paid d d.
Proof. split; [lia|done]. Qed.

Lemma paid_trans d1 d2 d3 : paid d1 d2 -> paid d2 d3 -> paid d1 d3.
Proof. intros H1 H2. eapply heap_to_trans; [exact H1|exact H2|lia]. Qed.

Definition db_ok (low : Prop) (d d' : db) : Prop :=
  wf (g_xml_root d') /\ paid d d' /\ (low -> lower (g_xml_root d) -> lower (g_xml_root d')).

Lemma db_ok_refl low d : wf (g_xml_root d) -> db_ok low d d.
Proof. intros Hwf. split_and!; [done|apply paid_refl|done]. Qed.

Lemma db_ok_trans (low1 low2 : Prop) d1 d2 d3 : db_ok low1 d1 d2 -> db_ok low2 d2 d3 -> db_ok (low1 /\ low2) d1 d3.
Proof. intros (H1 & H2 & H3) (H4 & H5 & H6). split_and!; [done|by eapply paid_trans|]. intros [? ?] ?. auto. Qed.

Lemma db_ok_weaken (low low' : Prop) d d' : (low' -> low) -> db_ok low d d' -> db_ok low' d d'.
Proof. intros Hl (H1 & H2 & H3). split_and!; auto. Qed.

Lemma wf_fresh k : wf (fresh k).
Proof. constructor; try done; constructor. Qed.

Lemma lower_fresh k : lower (fresh k).
Proof. constructor; constructor. Qed.

(** A node is appended to the children of another. *)
Lemma append_child_ok d root n nm i h :
  wf (g_xml_root d) -> node_at (g_xml_root d) root = Some n -> find_child (fold_key (nm, i)) (child n) = None ->
  comp_good (Some (nm, i)) -> nm <> [] -> heap_to (mem d) 1 h ->
  let d' := set_root d (upd_at root (fun r => set_child r (child n ++ [fresh (nm, i)])) (g_xml_root d)) h in
  db_ok (comp_lower (Some (nm, i))) d d' /\ node_at (g_xml_root d') (root ++ [length (child n)]) = Some (fresh (nm, i)).
Proof.
  intros Hwf Hn Hf [[?|Hnm] Hi] Hne Hh d'; [done|]. cbn [d' set_root g_xml_root mem]. split; [split_and!|].
  - eapply wf_upd_at; [done|done|done|]. pose proof (wf_node_at _ _ _ Hwf Hn) as [Hv Hm Hnd Hok Hch].
    constructor; cbn [set_child child value notify]; try done.
    + rewrite map_app. apply list.NoDup_app. split_and!; [done| |by apply NoDup_singleton].
      intros k Hk Hk'. cbn [map] in Hk'. apply list_elem_of_singleton in Hk' as ->.
      apply list_elem_of_In, in_map_iff in Hk as (c & Hkc & Hin).
      assert (find_child (fold_key (nm, i)) (child n) = Some c) as E by (apply find_child_elem; [done|]; by rewrite list_elem_of_In).
      congruence.
    + apply Forall_app. split; [done|]. constructor; [done|constructor].
    + apply Forall_app. split; [done|]. constructor; [apply wf_fresh|constructor].
  - eapply heap_to_trans; [exact Hh|split; [exact (eq_sym (Z.add_0_r _))|done]|].
    unfold d'. cbn [set_root mem g_xml_root]. rewrite (blocks_upd_at _ _ _ _ Hn), !node_blocks_eq. cbn [set_child child value notify].
    rewrite child_blocks_app. rewrite child_blocks_cons. cbn. lia.
  - intros Hl Hlow. eapply lower_upd_at; [done|done|done|]. pose proof (lower_node_at _ _ _ Hlow Hn) as [Hok Hch].
    constructor; cbn [set_child child]; apply Forall_app; (split; [done|]); (constructor; [|constructor]);
      [exact Hl|apply lower_fresh].
  - rewrite node_at_app, (node_at_upd _ _ _ _ Hn). cbn [mbind option_bind node_at set_child child].
    by rewrite lookup_app_r, Nat.sub_diag by lia.
Qed.

Definition valid (d : db) (t : option pos) : Prop := match t with Some p => is_Some (node_at (g_xml_root d) p) | None => True end.

Lemma set_heap_ok low d h : wf (g_xml_root d) -> heap_to (mem d) 0 h -> db_ok low d (set_root d (g_xml_root d) h).
Proof. intros Hwf Hh. split_and!; [done| |done]. unfold paid. cbn [set_root g_xml_root mem]. by rewrite Z.sub_diag. Qed.

Lemma heap_to_refl h : heap_to h 0 h.
Proof. split; [lia|done]. Qed.

Lemma find_sibling_create start nm i h :
  start <> [] -> index_of (is_node nm i) start = None ->
  xmldb_find_sibling start nm i true h =
    match new_node nm None i h with
    | (Some n, h) => Some (Some (length start), start ++ [n], h)
    | (None, h) => Some (None, start, h)
    end.
Proof. intros Hs Hi. unfold xmldb_find_sibling. rewrite Hi. by destruct start. Qed.

Lemma find_step_ok d root target nm i create :
  wf (g_xml_root d) -> valid d (Some root) -> valid d target -> comp_good (Some (nm, i)) ->
  exists t d', find_step d root target nm i create = Some (t, d') /\
    db_ok (comp_lower (Some (nm, i))) d d' /\ sent d' = sent d /\ valid d' t.
Proof.
  intros Hwf [n Hn] Ht Hk. unfold find_step. rewrite Hn. cbn [mbind option_bind].
  assert (forall h, heap_to (mem d) 0 h -> db_ok (comp_lower (Some (nm, i))) d (set_root d (g_xml_root d) h)) as Hheap
    by (intros; by apply set_heap_ok).
  pose proof (heap_to_refl (mem d)) as Hsame.
  pose proof (index_of_is_node (nm, i) (child n)) as Hf. cbn [fst snd] in Hf.
  destruct (child n) as [|c l] eqn:Ec.
  - destruct create; [|exists target, d; split_and!; [done|by apply db_ok_refl|done|done]]. destruct (new_node_cases nm i (mem d)) as [(h & -> & Hh & Hne)|(h & -> & Hh)].
    + destruct (append_child_ok d root n nm i h) as [H1 H2]; try done; [by rewrite Ec|].
      rewrite Ec in H1, H2. cbn [app length] in H1, H2. eexists _, _. split_and!; [done..|]. by eexists.
    + eexists _, _. split_and!; [done|by apply Hheap|done|done].
  - rewrite <- Ec in Hf |- *. destruct (index_of _ _) as [j|] eqn:Ej.
    + unfold xmldb_find_sibling. rewrite Ej.
      destruct Hf as (c' & Hj & _). cbn [mbind option_bind option_map]. rewrite (upd_at_same _ _ _ Hn).
      eexists _, _. split_and!; [done|by apply Hheap|done|]. cbn [valid set_root g_xml_root]. rewrite node_at_app, Hn. cbn. by rewrite Hj.
    + destruct create.
      * rewrite find_sibling_create by (done || by rewrite Ec). destruct (new_node_cases nm i (mem d)) as [(h & -> & Hh & Hne)|(h & -> & Hh)]; cbn [mbind option_bind option_map].
        -- destruct (append_child_ok d root n nm i h) as [H1 H2]; try done. eexists _, _. split_and!; [done..|]. by eexists.
        -- rewrite (upd_at_same _ _ _ Hn). eexists _, _. split_and!; [done|by apply Hheap|done|done].
      * unfold xmldb_find_sibling. rewrite Ej. cbn [mbind option_bind option_map]. rewrite (upd_at_same _ _ _ Hn). eexists _, _. split_and!; [done|by apply Hheap|done|done].
Qed.

Lemma find_comps_ok ks create : forall d root target,
  wf (g_xml_root d) -> valid d (Some root) -> valid d target -> Forall comp_good ks ->
  exists t d', find_comps d root target ks create = Some (t, d') /\
    db_ok (Forall comp_lower ks) d d' /\ sent d' = sent d /\ valid d' t.
Proof.
  induction ks as [|[[nm i]|] ks IH]; intros d root target Hwf Hroot Ht Hks; cbn [find_comps].
  - exists target, d. split; [done|]. split; [by apply db_ok_refl|done].
  - apply Forall_cons_iff in Hks as [Hk Hks].
    destruct (find_step_ok d root target nm i create Hwf Hroot Ht Hk) as (t & d1 & -> & H1 & H2 & H3). cbn [mbind option_bind].
    destruct t as [p|].
    + destruct (IH d1 p (Some p)) as (t & d2 & -> & H4 & H5 & H6); try done; [apply H1|]. exists t, d2.
      split; [done|]. split; [|split; [congruence|done]]. eapply db_ok_weaken; [|exact (db_ok_trans _ _ _ _ _ H1 H4)].
      intros Hlow. by apply Forall_cons_iff in Hlow.
    + exists None, d1. split; [done|]. split; [|done]. eapply db_ok_weaken; [|exact H1].
      intros Hlow. by apply Forall_cons_iff in Hlow as [? _].
  - apply Forall_cons_iff in Hks as [_ Hks]. destruct (IH d root (Some root)) as (t & d2 & -> & H4 & H7 & H8); try done.
    exists t, d2. split; [done|]. split; [|done]. eapply db_ok_weaken; [|exact H4].
    intros Hlow. by apply Forall_cons_iff in Hlow as [_ ?].
Qed.

(** The number of a component is not the largest [int]. *)
Definition nums_ok (path : list Z) : Prop :=
  Forall (fun w => snd (split_id (take (MAX_TAG_LEN - 1) w)) < INT_MAX) (split_slash (relative path)).

#[global] Instance nums_ok_dec path : Decision (nums_ok path).
Proof. unfold nums_ok. apply _. Defined.

Lemma split_colon_prefix s : exists r, s = fst (split_colon s) ++ r /\ Forall (fun c => c <> 58) (fst (split_colon s)).
Proof.
  induction s as [|c s IH]; cbn [split_colon]; [by exists []|].
  destruct (Z.eqb_spec c 58); cbn [fst]; [by exists (c :: s)|]. destruct IH as (r & E & Hf).
  destruct (split_colon s) as [w t]. cbn [fst] in *. exists r. cbn [app]. split; [by f_equal|by constructor].
Qed.

Lemma split_id_prefix s : exists r, s = fst (split_id s) ++ r /\ Forall (fun c => c <> 58) (fst (split_id s)).
Proof.
  destruct (split_colon_prefix s) as (r & E & Hf). unfold split_id. exists r. by destruct (split_colon s) as [w [t|]].
Qed.

Lemma split_slash_words path : Forall (Forall (fun c => c <> 47)) (split_slash path).
Proof.
  induction path as [|c path IH]; cbn [split_slash]; [done|]. destruct (Z.eqb_spec c 47); [by constructor|].
  destruct IH; repeat constructor; done.
Qed.

Lemma split_slash_lower path : map tolower path = path -> Forall (fun w => map tolower w = w) (split_slash path).
Proof.
  induction path as [|c path IH]; cbn [split_slash map]; [done|]. intros [= Hc Hp]. specialize (IH Hp).
  destruct (c =? 47); [by constructor|]. destruct IH as [|w ws Hw Hws]; (constructor; [|done]); cbn [map]; by rewrite Hc, ?Hw.
Qed.

Lemma comps_good path : nums_ok path -> Forall comp_good (map comp_of (split_slash (relative path))).
Proof.
  intros Hn. apply Forall_map. pose proof (split_slash_words (relative path)) as Hw. unfold nums_ok in Hn.
  rewrite Forall_forall in *. intros w Hin. specialize (Hn w Hin). specialize (Hw w Hin). cbv beta in Hn.
  unfold compose, comp_of. destruct (eqb_list _ _); [done|]. set (b := take (MAX_TAG_LEN - 1) w) in *.
  destruct (split_id_prefix b) as (r & Eb & Hc). destruct (split_id b) as [nm i]. cbn [comp_good fst snd] in *.
  split; [|done]. destruct nm as [|x nm]; [by left|right]. set (nm' := x :: nm) in *. split_and!; [done| |].
  - apply (f_equal length) in Eb. rewrite length_app in Eb. unfold b in Eb. rewrite length_take in Eb. unfold MAX_TAG_LEN in *. lia.
  - assert (Forall (fun c => c <> 47) nm') as H47.
    { apply (Forall_take _ (MAX_TAG_LEN - 1)%nat) in Hw. fold b in Hw. rewrite Eb in Hw. by apply Forall_app in Hw as [? _]. }
    by apply Forall_and.
Qed.

Lemma relative_lower path : map tolower path = path -> map tolower (relative path) = relative path.
Proof.
  unfold relative. destruct path as [|c path]; [done|]. intros H.
  destruct (Z.eq_dec c 47) as [->|Hc]; [cbn [map] in H; by injection H|].
  destruct c as [|p|p]; try done. repeat (destruct p; try done).
Qed.

Lemma comps_lower path : map tolower path = path -> Forall comp_lower (map comp_of (split_slash (relative path))).
Proof.
  intros Hp. apply Forall_map. apply relative_lower, split_slash_lower in Hp. eapply List.Forall_impl; [|exact Hp].
  intros w Hw. unfold compose, comp_of. destruct (eqb_list _ _); [done|]. set (b := take _ w).
  assert (map tolower b = b) as Hb by (unfold b; by rewrite <- firstn_map, Hw).
  pose proof (split_id_lower b Hb) as Hl. by destruct (split_id b).
Qed.

Lemma find_node_ok d path create :
  wf (g_xml_root d) -> nums_ok path ->
  exists t d', xmldb_find_node d None path create = Some (t, d') /\
    db_ok (map tolower path = path) d d' /\ sent d' = sent d /\ valid d' t.
Proof.
  intros Hwf Hn. rewrite xmldb_find_node_comps.
  destruct (find_comps_ok (map comp_of (split_slash (relative path))) create d [] None) as (t & d' & E & H1 & H4 & H5);
    try done; [by eexists|by apply comps_good|].
  exists t, d'. split; [done|]. split; [|done]. eapply db_ok_weaken; [|exact H1]. apply comps_lower.
Qed.

(** Without [create] no path changes anything. *)
Lemma find_comps_false ks : forall d root target,
  valid d (Some root) -> valid d target ->
  exists t, find_comps d root target ks false = Some (t, d) /\ valid d t.
Proof.
  induction ks as [|[[nm i]|] ks IH]; intros d root target Hroot Ht; cbn [find_comps]; [by exists target| |by apply IH].
  destruct Hroot as [n Hn]. pose proof (find_step_lookup d root target (nm, i) n Hn) as Es. cbn [fst snd] in Es.
  rewrite Es. cbn [mbind option_bind]. set (t := match child n with [] => target | _ => _ end).
  assert (valid d t) as Hv.
  { unfold t. pose proof (index_of_is_node (nm, i) (child n)) as Hf. cbn [fst snd] in Hf. destruct (child n) eqn:Ec; [done|].
    rewrite <- Ec in *. destruct (index_of _ _) as [j|]; [|done]. destruct Hf as (c & Hj & _).
    cbn [option_map valid]. rewrite node_at_app, Hn. cbn. by rewrite Hj. }
  destruct t as [p|]; [by apply IH|by exists None].
Qed.

Lemma find_node_false d path : exists t, xmldb_find_node d None path false = Some (t, d) /\ valid d t.
Proof. rewrite xmldb_find_node_comps. apply find_comps_false; [by eexists|done]. Qed.

(** A search that makes nothing depends on the tree alone. *)
Lemma find_comps_tree ks : forall d d' root target, valid d (Some root) -> valid d target -> g_xml_root d' = g_xml_root d ->
  fst <$> find_comps d' root target ks false = fst <$> find_comps d root target ks false.
Proof.
  induction ks as [|[[nm i]|] ks IH]; intros d d' root target Hroot Ht E; cbn [find_comps]; [done| |by apply IH].
  destruct Hroot as [n Hn]. pose proof Hn as Hn'. rewrite <- E in Hn'.
  pose proof (find_step_lookup d root target (nm, i) n Hn) as Es. pose proof (find_step_lookup d' root target (nm, i) n Hn') as Es'.
  cbn [fst snd] in *. rewrite Es, Es'. cbn [mbind option_bind]. set (t := match child n with [] => target | _ => _ end).
  assert (valid d t) as Hv.
  { pose proof (find_comps_false [Some (nm, i)] d root target (ex_intro _ n Hn) Ht) as (t' & Hf & Hv).
    cbn [find_comps] in Hf. rewrite Es in Hf. cbn [mbind option_bind] in Hf. fold t in Hf. destruct t; by injection Hf as <-. }
  destruct t as [p|]; [by apply IH|done].
Qed.

Lemma find_node_from d root path : valid d (Some (default [] root)) ->
  exists t, xmldb_find_node d root path false = Some (t, d) /\ valid d t /\
    forall d', g_xml_root d' = g_xml_root d -> xmldb_find_node d' root path false = Some (t, d').
Proof.
  intros Hr. unfold xmldb_find_node.
  assert (exists r ptr, (match path with 47 :: tl => (None, tl) | _ => (root, path) end) = (r, ptr) /\ valid d (Some (default [] r))) as (r & ptr & -> & Hv).
  { destruct path as [|c path]; [by eexists _, _|]. destruct (decide (c = 47)) as [->|Hc]; [eexists _, _; split; [done|]; by eexists|].
    exists root, (c :: path). split; [|done]. destruct c as [|[]|]; try done; repeat (destruct p; try done). }
  rewrite find_loop_comps by lia. destruct (find_comps_false (map comp_of (split_slash ptr)) d (default [] r) None Hv I) as (t & Ht & Hvt).
  exists t. split; [done|]. split; [done|]. intros d' E. rewrite find_loop_comps by lia.
  assert (valid d' (Some (default [] r))) as Hv' by (unfold valid in *; by rewrite E).
  destruct (find_comps_false (map comp_of (split_slash ptr)) d' (default [] r) None Hv' I) as (t' & Ht' & _).
  pose proof (find_comps_tree (map comp_of (split_slash ptr)) d d' (default [] r) None Hv I E) as Hs.
  rewrite Ht, Ht' in Hs. cbn in Hs. injection Hs as ->. done.
Qed.

Lemma store_value_live old v h :
  old <> Some [] ->
  exists s dirty h', store_value old v h = (s, dirty, h') /\ s <> Some [] /\ heap_to h (owned s - owned old) h'.
Proof.
  intros Ho. unfold store_value. destruct old as [o|].
  - destruct (negb _); [|eexists _, _, _; split_and!; [done|done|rewrite Z.sub_diag; apply heap_to_refl]].
    destruct v as [|x v]; [eexists _, _, _; split_and!; [done|done|apply heap_to_free]|].
    destruct (strdup_cases (x :: v) (free h 1)) as [(h' & -> & Hh)|(h' & -> & Hh)];
      (eexists _, _, _; split_and!; [done|done|eapply heap_to_trans; [apply heap_to_free|exact Hh|done]]).
  - destruct v as [|x v]; [eexists _, _, _; split_and!; [done|done|apply heap_to_refl]|].
    destruct (strdup_cases (x :: v) h) as [(h' & -> & Hh)|(h' & -> & Hh)]; by eexists _, _, _.
Qed.

(** A string member of an existing node is replaced, and the heap pays for it. *)
Lemma set_member_ok d p n n' h s :
  wf (g_xml_root d) -> node_at (g_xml_root d) p = Some n -> same_tag n n' -> child n' = child n ->
  value n' <> Some [] -> notify n' <> Some [] ->
  heap_to (mem d) (owned (value n') + owned (notify n') - owned (value n) - owned (notify n)) h ->
  db_ok True d (mkdb (upd_at p (fun _ => n') (g_xml_root d)) h s).
Proof.
  intros Hwf Hn Ht Hc Hv Hm Hh. split_and!; cbn [g_xml_root].
  - eapply wf_upd_at; [done|done|done|]. pose proof (wf_node_at _ _ _ Hwf Hn) as [_ _ Hnd Hok Hch].
    constructor; rewrite ?Hc; done.
  - eapply heap_to_trans; [exact Hh|apply heap_to_refl|]. cbn [mem g_xml_root].
    rewrite (blocks_upd_at _ _ _ _ Hn), !node_blocks_eq, Hc. lia.
  - intros _ Hlow. eapply lower_upd_at; [done|done|done|]. pose proof (lower_node_at _ _ _ Hlow Hn) as [Hok Hch].
    constructor; by rewrite Hc.
Qed.

Lemma xmldb_set_value_ok d path v :
  wf (g_xml_root d) -> nums_ok path ->
  exists t d', xmldb_set_value d None path v = Some (t, d') /\ db_ok (map tolower path = path) d d'.
Proof.
  intros Hwf Hn. unfold xmldb_set_value. destruct (find_node_ok d path true Hwf Hn) as (t & d1 & -> & H1 & H2 & H3).
  cbn [mbind option_bind]. destruct t as [p|]; [|by exists None, d1]. destruct H3 as [n Hat]. rewrite Hat. cbn [mbind option_bind].
  destruct H1 as (Hwf1 & Hb & Hl). pose proof (wf_node_at _ _ _ Hwf1 Hat) as [Hv Hm _ _ _].
  destruct (store_value_live (value n) v (mem d1) Hv) as (s & dirty & h & -> & Hs & Hh).
  eexists _, _. split; [reflexivity|]. rewrite (upd_at_ext p (fun n => set_value n s) (fun _ => set_value n s) _ _ Hat eq_refl).
  match goal with |- db_ok _ _ (mkdb _ _ ?x) =>
    destruct (set_member_ok d1 p n (set_value n s) h x) as (A & B & C); try done; [eapply heap_to_trans; [exact Hh|apply heap_to_refl|cbn; lia]|] end.
  split_and!; [done|by eapply paid_trans|]. intros Hlow Hd. by apply C, Hl.
Qed.

Lemma xmldb_set_notify_ok d path m :
  wf (g_xml_root d) -> nums_ok path ->
  exists t d', xmldb_set_notify d None path m = Some (t, d') /\ db_ok (map tolower path = path) d d'.
Proof.
  intros Hwf Hn. unfold xmldb_set_notify. destruct (find_node_ok d path true Hwf Hn) as (t & d1 & -> & H1 & H2 & H3).
  cbn [mbind option_bind]. destruct t as [p|]; [|by exists None, d1]. destruct H3 as [n Hat]. rewrite Hat. cbn [mbind option_bind].
  destruct H1 as (Hwf1 & Hb & Hl). pose proof (wf_node_at _ _ _ Hwf1 Hat) as [Hv Hm _ _ _].
  set (h0 := free (mem d1) (owned (notify n))).
  assert (exists s h, match m with [] => (None, h0) | _ => strdup h0 m end = (s, h) /\ s <> Some [] /\ heap_to h0 (owned s) h)
    as (s & h & -> & Hs & Hh).
  { destruct m as [|x m]; [eexists _, _; split_and!; [done|done|apply heap_to_refl]|].
    destruct (strdup_cases (x :: m) h0) as [(h & -> & Hh)|(h & -> & Hh)]; by eexists _, _. }
  eexists _, _. split; [reflexivity|]. unfold set_root. rewrite (upd_at_ext p (fun n => set_notify n s) (fun _ => set_notify n s) _ _ Hat eq_refl).
  destruct (set_member_ok d1 p n (set_notify n s) h (sent d1)) as (A & B & C); try done.
  { eapply heap_to_trans; [apply heap_to_free|exact Hh|cbn; lia]. }
  split_and!; [done|by eapply paid_trans|]. intros Hlow Hd. by apply C, Hl.
Qed.

Lemma renumbered_forall (P : xml_node -> Prop) l1 l2 :
  (forall c j, j < INT_MAX -> P c -> P (set_id c j)) ->
  Forall2 (fun c c' => exists j, c' = set_id c j /\ j < INT_MAX) l1 l2 -> Forall P l1 -> Forall P l2.
Proof.
  intros HP. induction 1 as [|x y l l' (j & -> & Hj) _ IH]; [done|]. intros [Hx Hl]%Forall_cons_iff.
  constructor; [by apply HP|by apply IH].
Qed.

Lemma del_path_ok d path :
  wf (g_xml_root d) -> exists r d', del_path d None path = Some (r, d') /\ db_ok True d d'.
Proof.
  intros Hwf. unfold del_path. destruct (split_leaf path) as [ppath lnode].
  pose proof (split_id_min lnode) as Hmin. destruct (split_id lnode) as [nm i]. cbn [snd] in Hmin.
  assert (exists t, match ppath with Some p => xmldb_find_node d None p false | None => Some (Some (default [] None), d) end
            = Some (t, d) /\ valid d t) as (t & -> & Ht).
  { destruct ppath as [p|]; [apply find_node_false|]. eexists. split; [done|]. by eexists. }
  cbn [mbind option_bind]. destruct t as [p|]; [|eexists _, _; split; [done|by apply db_ok_refl]]. destruct Ht as [n Hn]. rewrite Hn. cbn [mbind option_bind].
  destruct (remove_child (child n) nm i) as [[c|] l1] eqn:Er; [|eexists _, _; split; [done|by apply db_ok_refl]].
  pose proof (wf_node_at _ _ _ Hwf Hn) as [Hv Hm Hnd Hok Hch].
  destruct (after_remove_spec _ nm i c l1 Hnd) as (l2 & E & Hnd2 & Hf2 & _); try done.
  { eapply List.Forall_impl; [|exact Hok]. intros x [_ Hx]; exact Hx. }
  unfold after_remove in E. rewrite E. cbn [mbind option_bind]. eexists _, _. split; [reflexivity|].
  apply remove_child_perm in Er as (Hp & _). rewrite Hp in Hok, Hch. apply Forall_cons_iff in Hok as [_ Hok], Hch as [_ Hch].
  assert (child_blocks l2 = child_blocks l1) as Hbl.
  { clear -Hf2. induction Hf2 as [|x y l l' (j & -> & _) _ IH]; [done|]. rewrite !child_blocks_cons, IH. by destruct x. }
  split_and!; cbn [set_root g_xml_root].
  - eapply wf_upd_at; [done|done|done|]. constructor; cbn [set_child child value notify]; try done.
    + eapply renumbered_forall; [|exact Hf2|exact Hok]. by intros x j Hj [? _].
    + eapply renumbered_forall; [|exact Hf2|exact Hch]. intros x j _ []. by constructor.
  - eapply heap_to_trans; [apply heap_to_free|apply heap_to_refl|]. cbn [set_root mem g_xml_root].
    rewrite (blocks_upd_at _ _ _ _ Hn), !(node_blocks_eq n), (node_blocks_eq (set_child n l2)). cbn [set_child child value notify]. rewrite Hbl, (child_blocks_perm _ _ Hp), child_blocks_cons. lia.
  - intros _ Hlow. eapply lower_upd_at; [done|done|done|]. pose proof (lower_node_at _ _ _ Hlow Hn) as [Hlo Hlc].
    rewrite Hp in Hlo, Hlc. apply Forall_cons_iff in Hlo as [_ Hlo], Hlc as [_ Hlc].
    constructor; cbn [set_child child].
    + eapply renumbered_forall; [|exact Hf2|exact Hlo]. done.
    + eapply renumbered_forall; [|exact Hf2|exact Hlc]. intros x j _ []. by constructor.
Qed.

Lemma xmldb_del_node_ok d path :
  wf (g_xml_root d) -> avail (mem d) = [] ->
  exists r d', xmldb_del_node d None path = Some (r, d') /\ db_ok True d d'.
Proof.
  intros Hwf Ha. unfold xmldb_del_node. destruct (malloc_avail (mem d) Ha) as (h & -> & Hh).
  destruct (del_path_ok (set_root d (g_xml_root d) h) path Hwf) as (r & d' & -> & H1 & H2 & H3). cbn [mbind option_bind].
  eexists _, _. split; [reflexivity|]. split_and!; [done| |done].
  eapply heap_to_trans; [exact Hh|eapply heap_to_trans; [exact H2|apply (heap_to_free _ 1)|reflexivity]|]. cbn [set_root g_xml_root]. lia.
Qed.

Inductive op :=
| OpSet (path v : list Z)
| OpNotify (path m : list Z)
| OpDel (path : list Z)
| OpGet (path : list Z).

Definition run_op (d : db) (o : op) : option db :=
  match o with
  | OpSet path v => snd <$> xmldb_set_value d None path v
  | OpNotify path m => snd <$> xmldb_set_notify d None path m
  | OpDel path => snd <$> xmldb_del_node d None path
  | OpGet path => (fun _ => d) <$> xmldb_get_value d None path
  end.

Fixpoint run_ops (d : db) (ops : list op) : option db :=
  match ops with
  | [] => Some d
  | o :: tl => d' ← run_op d o; run_ops d' tl
  end.

Definition op_ok (o : op) : Prop := match o with OpSet path _ | OpNotify path _ => nums_ok path | _ => True end.
Definition op_lower (o : op) : Prop := match o with OpSet path _ | OpNotify path _ => map tolower path = path | _ => True end.

(** A deletion needs memory for the copy of its path. *)
Definition has_memory (d : db) (o : op) : Prop := match o with OpDel _ => avail (mem d) = [] | _ => True end.

Lemma run_op_ok d o : wf (g_xml_root d) -> op_ok o -> has_memory d o -> exists d', run_op d o = Some d' /\ db_ok (op_lower o) d d'.
Proof.
  intros Hwf Ho Hm. destruct o as [path v|path m|path|path]; cbn [run_op op_lower op_ok has_memory] in *.
  - destruct (xmldb_set_value_ok d path v Hwf Ho) as (t & d' & -> & H). by exists d'.
  - destruct (xmldb_set_notify_ok d path m Hwf Ho) as (t & d' & -> & H). by exists d'.
  - destruct (xmldb_del_node_ok d path Hwf Hm) as (r & d' & -> & H). by exists d'.
  - unfold xmldb_get_value. destruct (find_node_false d path) as (t & -> & Ht). exists d. split; [|by apply db_ok_refl].
    destruct t as [p|]; [|done]. destruct Ht as [n Hn]. cbn [mbind option_bind]. by rewrite Hn.
Qed.

(** C3. [xmldb_find_node] on a path of names: an existing node is found, and nothing changes; when the path
    leaves the tree below an inner node the result is NULL; when it leaves it below a leaf, the
    pointer to that leaf is returned, as if the rest of the path were not there. *)
Theorem xmldb_find_node_spec d path :
  path_ok path ->
  (forall c, resolve (g_xml_root d) (keys_of path) = Some c ->
     exists p, xmldb_find_node d None path false = Some (Some p, d) /\ node_at (g_xml_root d) p = Some c) /\
  (forall ks1 k ks2 c, keys_of path = ks1 ++ k :: ks2 ->
     resolve (g_xml_root d) ks1 = Some c -> find_child k (child c) = None ->
     if decide (child c = [] /\ ks1 <> []) then
       exists p, xmldb_find_node d None path false = Some (Some p, d) /\ node_at (g_xml_root d) p = Some c
     else xmldb_find_node d None path false = Some (None, d)).
Proof.
  intros Hp. split.
  - intros c Hc. destruct (find_node_found d path c Hp Hc) as (p & _ & H1 & H2 & _). by exists p.
  - intros ks1 k ks2 c. by apply find_node_missing.
Qed.

(** [xmldb_set_notify] changes the message of the entry and nothing else: the value stays, missing nodes on the
    way are made with empty entries, no client is notified. *)
Theorem xmldb_set_notify_refines d path msg :
  path_ok path -> avail (mem d) = [] ->
  let ks := keys_of path in
  let m := view (g_xml_root d) in
  exists p d', xmldb_set_notify d None path msg = Some (Some p, d') /\
    (forall q, view (g_xml_root d') q =
       if decide (q = ks) then Some (fst (default ([], []) (m q)), msg)
       else match m q with
            | Some x => Some x
            | None => if decide (q `prefix_of` ks) then Some ([], []) else None
            end) /\
    sent d' = sent d.
Proof.
  intros Hp Ha ks0 m. destruct (find_node_create d path Hp Ha) as (ks & p & n' & h & Ek & En & Ef & Hh).
  unfold xmldb_set_notify. rewrite Ef. cbn [mbind option_bind set_root g_xml_root mem sent].
  pose proof (ensure_spec ks (fun n => n) (g_xml_root d)) as Hs. rewrite En in Hs. destruct Hs as [_ Hat]. rewrite Hat.
  cbn [mbind option_bind]. set (h0 := free h _).
  assert (exists s h', match msg with [] => (None, h0) | _ => strdup h0 msg end = (s, h') /\ default [] s = msg) as (s & h' & -> & Hs).
  { destruct msg; [by eexists _, _|]. unfold strdup, malloc, h0, free. cbn [avail]. rewrite Hh. by eexists _, _. }
  eexists _, _. split; [reflexivity|]. cbn [set_root g_xml_root sent]. split; [|done].
  pose proof (ensure_spec ks (fun n => set_notify n s) (g_xml_root d)) as He. rewrite En in He. destruct He as [He _]. rewrite He.
  intros q. rewrite (view_assign _ (fun x => (fst x, msg))) by (done || (intros; unfold info_of; cbn; by rewrite Hs)).
  unfold ks0. by rewrite Ek.
Qed.

(** C28. The database stays sound: no sequence of operations on paths whose numbers, in those that are set, are below the largest [int] meets
    undefined behaviour, while there is memory, and also when memory runs out at any time as long as nothing is deleted; the
    children of every node keep distinct names and numbers; the blocks in use are those of the
    tree and no others, so nothing is leaked or freed twice; and with requests in lower case every
    name is in lower case. *)
Theorem xmldb_ops_safe d ops :
  wf (g_xml_root d) -> Forall op_ok ops -> avail (mem d) = [] \/ (forall path, OpDel path ∉ ops) ->
  exists d', run_ops d ops = Some d' /\ wf (g_xml_root d') /\
    live (mem d') - node_blocks (g_xml_root d') = live (mem d) - node_blocks (g_xml_root d) /\
    (Forall op_lower ops -> lower (g_xml_root d) -> lower (g_xml_root d')).
Proof.
  revert d. induction ops as [|o ops IH]; intros d Hwf Hops Hmem; cbn [run_ops]; [by exists d|].
  apply Forall_cons_iff in Hops as [Ho Hops].
  assert (has_memory d o) as Hm by (destruct o; try done; destruct Hmem as [?|Hn]; [done|]; by destruct (Hn path); left).
  destruct (run_op_ok d o Hwf Ho Hm) as (d1 & -> & Hwf1 & [Hb Ha] & Hl). cbn [mbind option_bind].
  destruct (IH d1 Hwf1 Hops) as (d' & -> & H1 & H2 & H3).
  { destruct Hmem as [Hmem|Hn]; [left; auto|right]. intros path Hin. apply (Hn path). by right. }
  exists d'. split_and!; [done|done|lia|]. intros [Hlo Hlos]%Forall_cons_iff Hlow. apply H3; [done|]. by apply Hl.
Qed.

(** ** Witnesses *)

#[global] Instance name_ok_dec nm : Decision (name_ok nm).
Proof. unfold name_ok. apply _. Defined.

Ltac wf_tree :=
  constructor; cbn [value notify child];
  [ done | done | apply (bool_decide_unpack _); vm_compute; exact I | apply (bool_decide_unpack _); vm_compute; exact I
  | repeat (constructor; [wf_tree|]); constructor ].

Ltac lower_tree :=
  constructor; cbn [child]; [apply (bool_decide_unpack _); vm_compute; exact I | repeat (constructor; [lower_tree|]); constructor].

(** A database with [/wan/node:1], [/wan/node:2], [/wan/node:3] and [/wan/node:5]; the second one is watched. *)
Definition str_node : list Z := Eval cbv in cs "node".
Definition str_wan : list Z := Eval cbv in cs "wan".
Definition example_db : db :=
  mkdb (mknode (cs "root") 0 None None
          [mknode str_wan 0 None None
             [mknode str_node 1 (Some [97]) None []; mknode str_node 2 (Some [98]) (Some [109]) [];
              mknode str_node 3 (Some [99]) None []; mknode str_node 5 (Some [101]) None []]])
       (mkheap [] 10) [].

Lemma example_wf : wf (g_xml_root example_db).
Proof. wf_tree. Qed.

Lemma example_lower : lower (g_xml_root example_db).
Proof. lower_tree. Qed.

Definition path_2 : list Z := Eval cbv in cs "/wan/node:2".
Definition path_new : list Z := Eval cbv in cs "/wan/node:2/mode".
Definition path_wan : list Z := Eval cbv in cs "/wan".
Definition leaf_2 : list Z := Eval cbv in cs "node:2".

Lemma example_path_2 : path_ok path_2.
Proof. apply (bool_decide_unpack _). vm_compute. exact I. Qed.

Lemma example_path_new : path_ok path_new.
Proof. apply (bool_decide_unpack _). vm_compute. exact I. Qed.

(** The path to the missing [mode] below the leaf [node:2] gives the leaf. *)
Lemma xmldb_find_node_spec_witness :
  xmldb_find_node example_db None path_2 false = Some (Some [0%nat; 1%nat], example_db) /\
  exists p, xmldb_find_node example_db None path_new false = Some (Some p, example_db) /\
    node_at (g_xml_root example_db) p = Some (mknode str_node 2 (Some [98]) (Some [109]) []).
Proof.
  split; [by vm_compute|].
  destruct (xmldb_find_node_spec example_db path_new example_path_new) as [_ H].
  specialize (H [(str_wan, 0); (str_node, 2)] (cs "mode", 0) []
                (mknode str_node 2 (Some [98]) (Some [109]) [])).
  rewrite decide_True in H by done. apply H; by vm_compute.
Defined.

Lemma xmldb_set_value_refines_witness :
  exists p d', xmldb_set_value example_db None path_2 [120] = Some (Some p, d') /\
    sent d' = [[109]] /\ xmldb_get_value d' None path_2 = Some [120].
Proof.
  destruct (xmldb_set_value_refines example_db path_2 [120] example_path_2 eq_refl example_wf)
    as (p & d' & H1 & _ & H2 & H3).
  exists p, d'. split; [exact H1|]. split; [|exact H3]. rewrite H2. by vm_compute.
Defined.

Lemma xmldb_set_notify_refines_witness :
  exists p d', xmldb_set_notify example_db None path_new [120] = Some (Some p, d') /\
    view (g_xml_root d') (keys_of path_new) = Some ([], [120]) /\
    view (g_xml_root d') (keys_of path_2) = Some ([98], [109]).
Proof.
  destruct (xmldb_set_notify_refines example_db path_new [120] example_path_new eq_refl) as (p & d' & H1 & H2 & _).
  exists p, d'. split; [exact H1|]. rewrite !H2. by vm_compute.
Defined.

(** Deleting [/wan/node:2]: number 3 moves down, number 5 is behind the gap and stays. *)
Lemma xmldb_del_node_refines_witness :
  exists d', xmldb_del_node example_db None (path_wan ++ 47 :: leaf_2) = Some (0, d') /\
    view (g_xml_root d') [(str_wan, 0); (str_node, 2)] = Some ([99], []) /\
    view (g_xml_root d') [(str_wan, 0); (str_node, 3)] = None /\
    view (g_xml_root d') [(str_wan, 0); (str_node, 5)] = Some ([101], []).
Proof.
  destruct (xmldb_del_node_refines example_db path_wan leaf_2) as (r & d' & H1 & H2).
  - right. apply (bool_decide_unpack _). vm_compute. exact I.
  - apply (bool_decide_unpack _). vm_compute. exact I.
  - by vm_compute.
  - reflexivity.
  - exact example_wf.
  - exact example_lower.
  - assert (view (g_xml_root example_db) (keys_of path_wan ++ [split_id leaf_2]) = Some ([98], [109])) as E by (by vm_compute).
    rewrite E in H2. destruct H2 as (-> & H2 & _). exists d'. split; [exact H1|]. rewrite !H2. by vm_compute.
Defined.

(** Enough memory and a deletion, and the first and the third request for memory failing. *)
Definition example_short : db := mkdb (g_xml_root example_db) (mkheap [false; true; false] 10) [].
Definition example_ops : list op := [OpSet path_new [49]; OpSet path_new [49]; OpGet path_new; OpNotify path_2 [50]].

Lemma xmldb_ops_safe_witness :
  (exists d', run_ops example_db (OpDel path_2 :: example_ops) = Some d' /\ wf (g_xml_root d') /\
     live (mem d') - node_blocks (g_xml_root d') = -1) /\
  (exists d', run_ops example_short example_ops = Some d' /\ wf (g_xml_root d') /\
     live (mem d') - node_blocks (g_xml_root d') = -1).
Proof.
  split.
  - destruct (xmldb_ops_safe example_db (OpDel path_2 :: example_ops)) as (d' & H1 & H2 & H3 & _).
    + exact example_wf.
    + repeat constructor; apply (bool_decide_unpack _); vm_compute; exact I.
    + by left.
    + exists d'. split; [exact H1|]. split; [exact H2|]. rewrite H3. by vm_compute.
  - destruct (xmldb_ops_safe example_short example_ops) as (d' & H1 & H2 & H3 & _).
    + exact example_wf.
    + repeat constructor; apply (bool_decide_unpack _); vm_compute; exact I.
    + right. intros path Hin. unfold example_ops in Hin. rewrite !elem_of_cons in Hin.
      destruct Hin as [?|[?|[?|[?|Hin]]]]; try discriminate. by apply not_elem_of_nil in Hin.
    + exists d'. split; [exact H1|]. split; [exact H2|]. rewrite H3. by vm_compute.
Defined.

(** The lookup ignores case, the deletion does not. *)
Example delete_is_case_sensitive :
  let path := cs "/WAN/NODE:1" in
  xmldb_get_value example_db None path = Some [97] /\ (fst <$> xmldb_del_node example_db None path) = Some (-1).
Proof. by vm_compute. Qed.

(** With a start node, an absolute path of one component deletes below the start node. *)
Example delete_absolute_path_ignores_the_root :
  let path := cs "/node:1" in
  xmldb_find_node example_db (Some [0%nat]) path false = Some (None, example_db) /\
  (fst <$> xmldb_del_node example_db (Some [0%nat]) path) = Some 0.
Proof. by vm_compute. Qed.

End Xmldb.
