(* ===== verification/XmldbFile.v ===== *)
(** * tools/alpha/xmldb/xmldb.c: the database as an XML file.

    [xmldb_dump_nodes] prints the tree, [xmldb_read_xml] reads it back.  A file is the list of its
    bytes; a buffer that [read_tag] fills is the string in it, [None] is a write or a read outside of
    a buffer. *)
From Stdlib Require Import ZArith Lia Bool String.
From stdpp Require Import base tactics list option numbers.
From S2P Require Import Prelude Xmldb.

Module XmldbFile.
#[local] Set Warnings "-register-all".
Import Xmldb.

Definition EOF : Z := -1.
Definition RGDB_SKIP_PROC : Z := 0x00010000.

(** The string in a buffer. *)
Fixpoint cstr (l : list Z) : list Z :=
  match l with
  | [] => []
  | c :: tl => if c =? 0 then [] else c :: cstr tl
  end.

(** ** Reading *)

Definition str_comment : list Z := Eval cbv in cs "<!--".
Definition str_xml : list Z := Eval cbv in cs "<?xml".

(** A comment or a declaration. *)
Definition skipped_tag (tag : list Z) : bool :=
  ((4 <? length tag)%nat && has_prefix str_comment tag) || ((5 <? length tag)%nat && has_prefix str_xml tag).

(** The loop over the characters: what was read last, the rest of the file, the raw value and the tag.
    [state] is true behind the [<]. *)
Fixpoint read_loop (fh : list Z) (state : bool) (raw tag : list Z) (tsize : nat) : option (Z * list Z * list Z * list Z) :=
  match fh with
  | [] => Some (EOF, [], raw, tag)
  | c :: fh' =>
      if negb state then
        if c =? 60 then
          if (length tag <? tsize)%nat then read_loop fh' true raw (tag ++ [c]) tsize else None
        else
          let raw := raw ++ [c] in
          if (MAX_VAL_LEN <=? length raw)%nat then Some (c, fh', raw, tag) else read_loop fh' false raw tag tsize
      else if (tsize <=? length tag)%nat then Some (c, fh', raw, tag)
      else if c =? 62 then
        let tag := tag ++ [c] in
        if skipped_tag tag then read_loop fh' false raw [] tsize else Some (c, fh', raw, tag)
      else read_loop fh' true raw (tag ++ [c]) tsize
  end.

Definition str_amp : list Z := Eval cbv in cs "&amp;".
Definition str_lt : list Z := Eval cbv in cs "&lt;".
Definition str_gt : list Z := Eval cbv in cs "&gt;".
Definition str_quot : list Z := Eval cbv in cs "&quot;".
Definition str_apos : list Z := Eval cbv in cs "&apos;".

(** One character of the value and the rest of the raw text. *)
Definition unescape_one (c : Z) (tl : list Z) : Z * list Z :=
  let raw := c :: tl in
  if c =? 38 then
    if has_prefix str_amp raw then (38, drop 5 raw)
    else if has_prefix str_lt raw then (60, drop 4 raw)
    else if has_prefix str_gt raw then (62, drop 4 raw)
    else if has_prefix str_quot raw then (34, drop 6 raw)
    else if has_prefix str_apos raw then (39, drop 6 raw)
    else (c, tl)
  else (c, tl).

(** The special characters are put back, up to [vsize] characters. *)
Fixpoint unescape (fuel : nat) (raw value : list Z) (vsize : nat) : list Z :=
  match fuel, raw with
  | S fuel', c :: tl =>
      if (length value <? vsize)%nat then
        let '(x, raw) := unescape_one c tl in unescape fuel' raw (value ++ [x]) vsize
      else value
  | _, _ => value
  end.

(** [read_tag] with a buffer for the value of [vsize] bytes, or with NULL: the last character, the
    rest of the file, the value and the tag. *)
Definition read_tag (fh : list Z) (vsize : option nat) (tsize : nat) : option (Z * list Z * list Z * list Z) :=
  match read_loop fh false [] [] tsize with
  | None => None
  | Some (c, fh, raw, tag) =>
      if (length tag <? tsize)%nat then
        match vsize with
        | None => Some (c, fh, [], cstr tag)
        | Some vsize =>
            let raw := cstr raw in
            let value := unescape (length raw) raw [] vsize in
            if (length value <? vsize)%nat then Some (c, fh, value, cstr tag) else None
        end
      else None
  end.

Fixpoint name_loop (tag : list Z) (size : nat) : list Z :=
  match tag, size with
  | c :: tl, S (S _ as size') =>
      if negb (IS_WHITE c) && negb (c =? 62) then c :: name_loop tl size' else []
  | _, _ => []
  end.

(** [get_name_from_tag]: the name put in the buffer; the result of the C function is its length, 0
    also when the tag does not start with [<]. *)
Definition get_name_from_tag (tag : list Z) (size : nat) : list Z :=
  match tag with
  | 60 :: tl => name_loop tl size
  | _ => []
  end.

Definition str_id : list Z := Eval cbv in cs "id=".

(** [strstr] *)
Fixpoint strstr (s lit : list Z) : option (list Z) :=
  if has_prefix lit s then Some s
  else match s with [] => None | _ :: tl => strstr tl lit end.

(** The text behind the next quote. *)
Fixpoint behind_quote (s : list Z) : option (list Z) :=
  match s with
  | [] => None
  | c :: tl => if c =? 34 then Some tl else behind_quote tl
  end.

(** The text up to the next quote. *)
Fixpoint until_quote (s : list Z) : option (list Z) :=
  match s with
  | [] => None
  | c :: tl => if c =? 34 then Some [] else w ← until_quote tl; Some (c :: w)
  end.

(** [get_id_from_tag]; [None] when a quote is missing, or the number does not fit in the buffer. *)
Definition get_id_from_tag (tag : list Z) : option Z :=
  match strstr tag str_id with
  | None => Some 0
  | Some s =>
      s ← behind_quote s;
      buff ← until_quote s;
      if (length buff <? 32)%nat then Some (atoi buff) else None
  end.

(** [parse_xmltree]: the node of the tag with its following siblings ([] is NULL), the rest of the file, the
    tag read last and the heap.  The fuel is used up by the tags read. *)
Fixpoint parse_xmltree (fuel : nat) (fh tag : list Z) (h : heap) : option (list xml_node * list Z * list Z * heap) :=
  match fuel with
  | O => None
  | S fuel' =>
      let nm := get_name_from_tag tag MAX_TAG_LEN in
      if bool_decide (nm = []) then Some ([], fh, tag, h)
      else
        i ← get_id_from_tag tag;
        match new_node nm None i h with
        | (None, h) => Some ([], fh, tag, h)
        | (Some node, h) =>
            r ← read_tag fh (Some MAX_VAL_LEN) MAX_TAG_LEN;
            let '(_, fh, val, tag) := r in
            let text := xmldb_eatwhite (xmldb_reatwhite val) in
            let '(v, h) := match text with [] => (None, h) | _ => strdup h text end in
            let node := set_value node v in
            let nm := get_name_from_tag tag MAX_TAG_LEN in
            if bool_decide (nm = []) then Some ([], fh, tag, del_node h node)
            else
              r ← if negb (deref nm =? 47) then parse_xmltree fuel' fh tag h else Some ([], fh, tag, h);
              let '(children, fh, tag, h) := r in
              let node := set_child node children in
              let nm := get_name_from_tag tag MAX_TAG_LEN in
              if bool_decide (nm = []) then Some ([], fh, tag, del_node h node)
              else if negb (deref nm =? 47) then Some ([], fh, tag, del_node h node)
              else if negb (strcmp (name node) (tail nm) =? 0) then Some ([node], fh, tag, h)
              else
                r ← read_tag fh None MAX_TAG_LEN;
                let '(_, fh, _, tag) := r in
                let nm := get_name_from_tag tag MAX_TAG_LEN in
                if negb (bool_decide (nm = [])) && negb (deref nm =? 47) then
                  r ← parse_xmltree fuel' fh tag h;
                  let '(next, fh, tag, h) := r in Some (node :: next, fh, tag, h)
                else Some ([node], fh, tag, h)
        end
  end.

Definition str_proc : list Z := Eval cbv in cs "proc".

(** [del_node(g_xml_root.child)] *)
Definition del_first (h : heap) (l : list xml_node) : heap :=
  match l with [] => h | n :: _ => del_node h n end.

(** [xmldb_read_xml]; [file] is [None] when it cannot be opened.  The result and the database. *)
Definition xmldb_read_xml (d : db) (rootname : list Z) (file : option (list Z)) (flags : Z) : option (Z * db) :=
  let root := g_xml_root d in
  let '(nptr, l) :=
    if negb (Z.land flags RGDB_SKIP_PROC =? 0) then remove_child (child root) str_proc 0 else (None, child root) in
  let h := del_first (mem d) l in
  match file with
  | None => Some (-1, set_root d (set_child root []) h)
  | Some fh =>
      r ← read_tag fh None MAX_TAG_LEN;
      let '(_, fh, _, tag) := r in
      let nm := get_name_from_tag tag MAX_VAL_LEN in
      r ←
        (if negb (bool_decide (nm = [])) && (strcmp nm rootname =? 0) then
           r ← read_tag fh None MAX_TAG_LEN;
           let '(_, fh, _, tag) := r in
           if bool_decide (get_name_from_tag tag MAX_VAL_LEN = []) then Some ([], h)
           else
             r ← parse_xmltree (S (length fh)) fh tag h;
             let '(l, _, _, h) := r in Some (l, h)
         else Some ([], h));
      let '(l, h) := r in
      let '(l, h) :=
        match nptr with
        | None => (l, h)
        | Some n =>
            let '(tmp, l) := remove_child l str_proc 0 in
            (l ++ [n], match tmp with Some t => del_node h t | None => h end)
        end in
      Some (if bool_decide (l = []) then -1 else 0, set_root d (set_child root l) h)
  end.

(** ** Writing *)

Definition escape_char (c : Z) : list Z :=
  if c =? 38 then str_amp
  else if c =? 60 then str_lt
  else if c =? 62 then str_gt
  else if c =? 34 then str_quot
  else if c =? 39 then str_apos
  else [c].

(** [%d] of a positive number: the digits, the last one first. *)
Fixpoint dec_rev (fuel : nat) (n : Z) : list Z :=
  match fuel with
  | O => []
  | S fuel' => 48 + n mod 10 :: (if n <? 10 then [] else dec_rev fuel' (n / 10))
  end.

(** An [int] has at most ten digits. *)
Definition dec (n : Z) : list Z := rev (dec_rev 10 n).

(** [%d] *)
Definition print_int (n : Z) : list Z := if n <? 0 then 45 :: dec (- n) else dec n.

Definition dump_node_start (n : xml_node) (depth : nat) : list Z :=
  repeat 9 depth ++ [60] ++ name n ++
  (if 0 <? id n then [32] ++ str_id ++ [34] ++ dec (id n) ++ [34] else []) ++ [62] ++
  match value n with Some v => flat_map escape_char v | None => [] end.

Definition dump_node_end (n : xml_node) (depth : nat) : list Z :=
  repeat 9 depth ++ [60; 47] ++ name n ++ [62; 10].

Definition str_tmp : list Z := Eval cbv in cs "tmp".
Definition str_runtime : list Z := Eval cbv in cs "runtime".

(** The nodes at depth 1 that are not written. *)
Definition ignored (depth : nat) (flags : Z) (n : xml_node) : bool :=
  (depth =? 1)%nat &&
  ((strcmp (name n) str_tmp =? 0) || (strcmp (name n) str_runtime =? 0) ||
   (negb (Z.land flags RGDB_SKIP_PROC =? 0) && (strcmp (name n) str_proc =? 0))).

Fixpoint dump_node (n : xml_node) (depth : nat) (flags : Z) : list Z :=
  if ignored depth flags n then []
  else
    dump_node_start n depth ++
    match child n with
    | [] => dump_node_end n 0
    | _ => [10] ++ flat_map (fun c => dump_node c (S depth) flags) (child n) ++ dump_node_end n depth
    end.

(** [xmldb_dump_nodes] of a node and its following siblings. *)
Definition xmldb_dump_nodes (l : list xml_node) (depth : nat) (flags : Z) : list Z :=
  flat_map (fun n => dump_node n depth flags) l.

(** ** What can be written and read back *)

(** A name that survives: no blank, [>] or [=] in it, and nothing at its head that makes the tag an end
    tag, a comment or a declaration. *)
Definition name_char (c : Z) : Prop := c <> 0 /\ IS_WHITE c = false /\ c <> 62 /\ c <> 61.
Definition tag_name (nm : list Z) : Prop :=
  nm <> [] /\ (length nm <= 200)%nat /\ Forall name_char nm /\ deref nm <> 47 /\ deref nm <> 33 /\ deref nm <> 63.

(** A value that survives: it does not start or end with a blank, and its text fits the buffer
    together with the indentation behind it. *)
Definition tag_value (v : list Z) (depth : nat) : Prop :=
  v <> [] /\ Forall (fun c => c <> 0) v /\ xmldb_eatwhite v = v /\ xmldb_reatwhite v = v /\
  (length (flat_map escape_char v) + depth + 2 < MAX_VAL_LEN)%nat.

Inductive printable (depth : nat) (n : xml_node) : Prop :=
| printable_node :
    tag_name (name n) -> 0 <= id n <= INT_MAX -> (depth + 2 < MAX_VAL_LEN)%nat ->
    match value n with Some v => tag_value v depth | None => True end ->
    Forall (printable (S depth)) (child n) -> printable depth n.

(** What is read back of a node: everything but the messages. *)
Fixpoint saved (n : xml_node) : xml_node := mknode (name n) (id n) (value n) None (map saved (child n)).

(** ** Tags *)

Definition id_text (i : Z) : list Z := if 0 <? i then [32] ++ str_id ++ [34] ++ dec i ++ [34] else [].
Definition open_tag (n : xml_node) : list Z := [60] ++ name n ++ id_text (id n) ++ [62].
Definition close_tag (nm : list Z) : list Z := [60; 47] ++ nm ++ [62].
Definition value_text (n : xml_node) : list Z := match value n with Some v => flat_map escape_char v | None => [] end.

(** The printed node without the rule for depth 1. *)
Fixpoint text (n : xml_node) (depth : nat) : list Z :=
  repeat 9 depth ++ open_tag n ++ value_text n ++
  match child n with
  | [] => close_tag (name n) ++ [10]
  | _ => [10] ++ flat_map (fun c => text c (S depth)) (child n) ++ repeat 9 depth ++ close_tag (name n) ++ [10]
  end.

Definition behind_open (n : xml_node) (depth : nat) : list Z :=
  value_text n ++
  match child n with
  | [] => close_tag (name n) ++ [10]
  | _ => [10] ++ flat_map (fun c => text c (S depth)) (child n) ++ repeat 9 depth ++ close_tag (name n) ++ [10]
  end.

Lemma text_eq n depth : text n depth = repeat 9 depth ++ open_tag n ++ behind_open n depth.
Proof. by destruct n. Qed.

(** [xml_node] is nested in lists: its induction principle. *)
Lemma xml_node_nested_ind (P : xml_node -> Prop) :
  (forall n, Forall P (child n) -> P n) -> forall n, P n.
Proof.
  intros H. fix IH 1. intros [nm i v m l]. apply H. cbn [child]. induction l as [|c l IHl]; constructor; [apply IH|exact IHl].
Qed.

Lemma dump_start_eq n depth : dump_node_start n depth = repeat 9 depth ++ open_tag n ++ value_text n.
Proof.
  unfold dump_node_start, open_tag, id_text, value_text. destruct (0 <? id n); rewrite <- ?app_assoc; cbn [app]; by rewrite <- ?app_assoc.
Qed.

Lemma dump_end_eq n depth : dump_node_end n depth = repeat 9 depth ++ close_tag (name n) ++ [10].
Proof. unfold dump_node_end, close_tag. by rewrite <- !app_assoc. Qed.

Lemma dump_node_deep flags n : forall depth, (2 <= depth)%nat -> dump_node n depth flags = text n depth.
Proof.
  induction n as [n IH] using xml_node_nested_ind. intros depth Hd.
  assert (ignored depth flags n = false) as Hi.
  { unfold ignored. by rewrite (proj2 (Nat.eqb_neq depth 1)) by lia. }
  assert (flat_map (fun c => dump_node c (S depth) flags) (child n) = flat_map (fun c => text c (S depth)) (child n)) as Hc.
  { clear Hi. induction IH as [|c l Hc _ IHl]; [done|]. cbn [flat_map]. rewrite IHl, Hc by lia. done. }
  destruct n as [nm i v m l]. cbn [dump_node text child] in *. rewrite Hi, dump_start_eq, !dump_end_eq, <- !app_assoc. cbn [name].
  destruct l; [done|]. by rewrite Hc.
Qed.

Lemma dump_node_one flags n : dump_node n 1 flags = if ignored 1 flags n then [] else text n 1.
Proof.
  assert (flat_map (fun c => dump_node c 2 flags) (child n) = flat_map (fun c => text c 2) (child n)) as Hc.
  { induction (child n) as [|c l IHl]; [done|]. cbn [flat_map]. by rewrite IHl, dump_node_deep by lia. }
  destruct n as [nm i v m l]. cbn [dump_node text child] in *. destruct (ignored _ _ _); [done|].
  rewrite dump_start_eq, !dump_end_eq, <- !app_assoc. cbn [name]. destruct l; [done|]. by rewrite Hc.
Qed.

Lemma dump_nodes_one flags l :
  flat_map (fun n => dump_node n 1 flags) l = flat_map (fun n => text n 1) (filter (fun n => ignored 1 flags n = false) l).
Proof.
  induction l as [|n l IH]; [done|]. cbn [flat_map]. rewrite IH, dump_node_one, filter_cons.
  destruct (ignored 1 flags n); by case_decide.
Qed.

(** ** Reading one tag *)

Lemma read_loop_value raw fh ts : forall r0,
  Forall (fun c => c <> 60) raw -> (length r0 + length raw < MAX_VAL_LEN)%nat ->
  read_loop (raw ++ fh) false r0 [] ts = read_loop fh false (r0 ++ raw) [] ts.
Proof.
  induction raw as [|c raw IH]; intros r0 Hf Hl; [by rewrite app_nil_r|].
  apply Forall_cons_iff in Hf as [Hc Hf]. cbn [app read_loop negb length] in *.
  rewrite (proj2 (Z.eqb_neq _ _) Hc), (proj2 (Nat.leb_gt _ _)) by (rewrite length_app; cbn [length]; lia).
  rewrite IH by (done || (rewrite length_app; cbn [length]; lia)). by rewrite <- app_assoc.
Qed.

Lemma read_loop_tag body rest raw ts : forall tag,
  Forall (fun c => c <> 62) body -> (length tag + length body < ts)%nat -> skipped_tag (tag ++ body ++ [62]) = false ->
  read_loop (body ++ 62 :: rest) true raw tag ts = Some (62, rest, raw, tag ++ body ++ [62]).
Proof.
  induction body as [|c body IH]; intros tag Hf Hl Hs; cbn [app read_loop negb length] in *.
  - rewrite (proj2 (Nat.leb_gt _ _)) by lia. by rewrite Z.eqb_refl, Hs.
  - apply Forall_cons_iff in Hf as [Hc Hf]. rewrite (proj2 (Nat.leb_gt _ _)), (proj2 (Z.eqb_neq _ _) Hc) by lia.
    rewrite IH; [by rewrite <- app_assoc|done|rewrite length_app; cbn [length]; lia|by rewrite <- app_assoc].
Qed.

Lemma cstr_id l : Forall (fun c => c <> 0) l -> cstr l = l.
Proof. induction 1 as [|c l Hc _ IH]; [done|]. cbn [cstr]. by rewrite (proj2 (Z.eqb_neq _ _) Hc), IH. Qed.

Lemma has_prefix_app lit r : has_prefix lit (lit ++ r) = true.
Proof. induction lit as [|c lit IH]; [done|]. cbn [app has_prefix]. by rewrite Z.eqb_refl. Qed.

Lemma escape_char_cons c : exists x tl, escape_char c = x :: tl.
Proof. unfold escape_char. repeat case_match; by eexists _, _. Qed.

(** A character is put back as it was. *)
Lemma unescape_escape c r x tl : escape_char c ++ r = x :: tl -> unescape_one x tl = (c, r).
Proof.
  unfold escape_char, unescape_one.
  destruct (Z.eqb_spec c 38) as [->|H1]; [intros [= <- <-]; done|].
  destruct (Z.eqb_spec c 60) as [->|H2]; [intros [= <- <-]; done|].
  destruct (Z.eqb_spec c 62) as [->|H3]; [intros [= <- <-]; done|].
  destruct (Z.eqb_spec c 34) as [->|H4]; [intros [= <- <-]; done|].
  destruct (Z.eqb_spec c 39) as [->|H5]; [intros [= <- <-]; done|].
  intros [= <- <-]. by rewrite (proj2 (Z.eqb_neq _ _) H1).
Qed.

Lemma length_escape v : (length v <= length (flat_map escape_char v))%nat.
Proof.
  induction v as [|c v IH]; [done|]. cbn [flat_map length]. rewrite length_app.
  destruct (escape_char_cons c) as (x & tl & ->). cbn [length]. lia.
Qed.

Lemma unescape_all v vs : forall fuel acc,
  (length (flat_map escape_char v) <= fuel)%nat -> (length acc + length v <= vs)%nat ->
  unescape fuel (flat_map escape_char v) acc vs = acc ++ v.
Proof.
  induction v as [|c v IH]; intros fuel acc Hf Hl; cbn [flat_map length] in *.
  { rewrite app_nil_r. by destruct fuel. }
  destruct (escape_char_cons c) as (x & tl & E).
  pose proof (unescape_escape c (flat_map escape_char v) x (tl ++ flat_map escape_char v)) as Hu. rewrite E in Hu, Hf |- *.
  cbn [app length] in *. rewrite length_app in Hf. destruct fuel as [|fuel]; [lia|]. cbn [unescape].
  rewrite (proj2 (Nat.ltb_lt _ _)) by lia. rewrite (Hu eq_refl), IH; [by rewrite <- app_assoc|lia|rewrite length_app; cbn [length]; lia].
Qed.

Lemma escape_no c v : (c = 0 \/ c = 60) -> Forall (fun x => x <> 0) v -> Forall (fun x => x <> c) (flat_map escape_char v).
Proof.
  intros Hc. induction 1 as [|x v Hx _ IH]; [done|]. cbn [flat_map]. apply Forall_app. split; [|done].
  unfold escape_char. repeat (case_match; bprop; [apply (bool_decide_unpack _); by destruct Hc as [->| ->]|]).
  constructor; [|done]. destruct Hc as [->| ->]; congruence.
Qed.

(** A tag that [read_tag] delivers as it stands. *)
Definition plain_tag (tag : list Z) : Prop :=
  exists body, tag = 60 :: body ++ [62] /\ Forall (fun c => c <> 62) body /\ Forall (fun c => c <> 0) tag /\
    (length tag < MAX_TAG_LEN)%nat /\ skipped_tag tag = false.

Lemma read_tag_plain v tag rest :
  plain_tag tag -> Forall (fun c => c <> 0) v -> (length (flat_map escape_char v) < MAX_VAL_LEN)%nat ->
  read_tag (flat_map escape_char v ++ tag ++ rest) (Some MAX_VAL_LEN) MAX_TAG_LEN = Some (62, rest, v, tag) /\
  read_tag (flat_map escape_char v ++ tag ++ rest) None MAX_TAG_LEN = Some (62, rest, [], tag).
Proof.
  intros (body & -> & Hb & Hz & Hl & Hs) Hv Hlen. unfold read_tag.
  rewrite read_loop_value by (done || apply escape_no; auto). cbn [app read_loop negb].
  change ((60 =? 60)) with true. cbn iota. change ((length (@nil Z) <? MAX_TAG_LEN)%nat) with true. cbn iota.
  assert (length (60 :: body ++ [62]) = S (length body + 1)) as El by (cbn [length]; by rewrite length_app). rewrite El in Hl.
  rewrite <- app_assoc. cbn [app].
  rewrite read_loop_tag by (done || (cbn [length]; lia)). cbn [app].
  rewrite (cstr_id (60 :: body ++ [62])) by done. rewrite El, (proj2 (Nat.ltb_lt _ _)) by lia.
  rewrite cstr_id by (apply escape_no; auto). pose proof (length_escape v).
  rewrite unescape_all by (cbn [length]; lia). cbn [app]. rewrite (proj2 (Nat.ltb_lt _ _)) by lia. done.
Qed.

(** ** Names and numbers of tags *)

Lemma dec_rev_digits fuel : forall n, 0 <= n -> Forall (fun c => isdigit c = true) (dec_rev fuel n).
Proof.
  induction fuel as [|fuel IH]; intros n Hn; cbn [dec_rev]; [done|].
  constructor; [unfold isdigit; Z.to_euclidean_division_equations; lia|].
  destruct (n <? 10); [done|]. apply IH. Z.to_euclidean_division_equations; lia.
Qed.

Lemma dec_digits n : 0 <= n -> Forall (fun c => isdigit c = true) (dec n).
Proof. intros Hn. apply Forall_rev. by apply dec_rev_digits. Qed.

Lemma length_dec_rev fuel : forall n, (length (dec_rev fuel n) <= fuel)%nat.
Proof. induction fuel as [|fuel IH]; intros n; cbn [dec_rev length]; [lia|]. destruct (n <? 10); cbn [length]; [lia|]. specialize (IH (n / 10)). lia. Qed.

Lemma digits_snoc a c : forall acc,
  Forall (fun c => isdigit c = true) a -> isdigit c = true -> digits acc (a ++ [c]) = 10 * digits acc a + (c - 48).
Proof.
  induction a as [|x a IH]; intros acc Ha Hc; cbn [app digits]; [by rewrite Hc|].
  apply Forall_cons_iff in Ha as [Hx Ha]. rewrite Hx. by apply IH.
Qed.

Lemma digits_dec_rev fuel : forall n, 0 <= n < 10 ^ Z.of_nat fuel -> digits 0 (rev (dec_rev fuel n)) = n.
Proof.
  induction fuel as [|fuel IH]; intros n Hn; cbn [dec_rev rev]; [cbn in *; lia|].
  rewrite Nat2Z.inj_succ, Z.pow_succ_r in Hn by lia.
  assert (isdigit (48 + n mod 10) = true) as Hd by (unfold isdigit; Z.to_euclidean_division_equations; lia).
  destruct (Z.ltb_spec n 10).
  - cbn [rev app digits]. rewrite Hd. Z.to_euclidean_division_equations; lia.
  - rewrite digits_snoc; [|apply Forall_rev, dec_rev_digits; Z.to_euclidean_division_equations; lia|done].
    rewrite IH by (Z.to_euclidean_division_equations; lia). Z.to_euclidean_division_equations; lia.
Qed.

Lemma dec_nonempty n : exists c tl, dec n = c :: tl.
Proof.
  unfold dec. cbn [dec_rev rev]. set (r := if n <? 10 then [] else _). destruct (rev r) as [|c tl]; by eexists _, _.
Qed.

Lemma atoi_dec n : 0 <= n <= INT_MAX -> atoi (dec n) = n.
Proof.
  intros Hn. pose proof (dec_digits n ltac:(lia)) as Hd. assert (digits 0 (dec n) = n) as Hv.
  { apply digits_dec_rev. unfold INT_MAX in Hn. cbn. lia. }
  destruct (dec_nonempty n) as (c & tl & E). rewrite E in *. apply Forall_cons_iff in Hd as [Hc _].
  unfold atoi. cbn [eat]. unfold isdigit in Hc. bprop. unfold isspace.
  replace ((c =? 32) || ((9 <=? c) && (c <=? 13))) with false by lia. replace (c =? 45) with false by lia.
  replace (c =? 43) with false by lia. rewrite Hv. unfold INT_MAX in *. lia.
Qed.

Lemma name_loop_stop nm x r : forall size,
  Forall name_char nm -> IS_WHITE x = true \/ x = 62 -> (length nm + 1 < size)%nat -> name_loop (nm ++ x :: r) size = nm.
Proof.
  induction nm as [|c nm IH]; intros size Hf Hx Hs; cbn [length app] in *; (destruct size as [|[|size]]; [lia|lia|]); cbn [name_loop].
  - destruct Hx as [Hx| ->]; [by rewrite Hx|]. by rewrite Z.eqb_refl, andb_false_r.
  - apply Forall_cons_iff in Hf as [(_ & Hw & H62 & _) Hf]. rewrite Hw, (proj2 (Z.eqb_neq _ _) H62). cbn [negb andb].
    f_equal. apply IH; [done|done|lia].
Qed.

Lemma get_name_open n : tag_name (name n) -> get_name_from_tag (open_tag n) MAX_TAG_LEN = name n.
Proof.
  intros (_ & Hl & Hf & _). unfold open_tag, id_text. cbn [app get_name_from_tag].
  destruct (0 <? id n); cbn [app]; apply name_loop_stop; auto; unfold MAX_TAG_LEN; lia.
Qed.

Lemma get_name_close nm : tag_name nm -> get_name_from_tag (close_tag nm) MAX_TAG_LEN = 47 :: nm.
Proof.
  intros (_ & Hl & Hf & _). unfold close_tag. cbn [app get_name_from_tag].
  change (47 :: nm ++ [62]) with ((47 :: nm) ++ [62]). apply name_loop_stop; [|by right|cbn [length]; unfold MAX_TAG_LEN; lia].
  constructor; [|done]. split_and!; done.
Qed.

(** [id=] is not found before the first [=]. *)
Lemma strstr_skip a r : Forall (fun c => c <> 61) a -> strstr (a ++ str_id ++ r) str_id = Some (str_id ++ r).
Proof.
  induction 1 as [|c a Hc Ha IH]; [done|]. cbn [app strstr]. rewrite IH.
  assert (has_prefix str_id (c :: a ++ str_id ++ r) = false) as ->; [|done].
  destruct Ha as [|x a Hx Ha]; [cbn; lia|]. destruct Ha as [|y a Hy Ha]; [cbn; lia|].
  cbn [app str_id has_prefix]. replace (61 =? y) with false by lia. by rewrite !andb_false_r.
Qed.

Lemma strstr_none a : Forall (fun c => c <> 61) a -> strstr a str_id = None.
Proof.
  induction 1 as [|c a Hc Ha IH]; [done|]. cbn [strstr]. rewrite IH.
  assert (has_prefix str_id (c :: a) = false) as ->; [|done].
  destruct Ha as [|x a Hx Ha]; [cbn; lia|]. destruct Ha as [|y a Hy Ha]; [cbn; lia|].
  cbn [str_id has_prefix]. replace (61 =? y) with false by lia. by rewrite !andb_false_r.
Qed.

Lemma until_quote_stop w r : Forall (fun c => isdigit c = true) w -> until_quote (w ++ 34 :: r) = Some w.
Proof.
  induction 1 as [|c w Hc _ IH]; [done|]. cbn [app until_quote]. unfold isdigit in Hc. bprop.
  replace (c =? 34) with false by lia. by rewrite IH.
Qed.

Lemma name_no_eq nm : Forall name_char nm -> Forall (fun c => c <> 61) nm.
Proof. intros H. eapply List.Forall_impl; [|exact H]. by intros c (_ & _ & _ & ?). Qed.

Lemma get_id_open n : tag_name (name n) -> 0 <= id n <= INT_MAX -> get_id_from_tag (open_tag n) = Some (id n).
Proof.
  intros (_ & _ & Hf & _) Hi. apply name_no_eq in Hf. unfold get_id_from_tag, open_tag, id_text. destruct (Z.ltb_spec 0 (id n)).
  - replace ([60] ++ name n ++ ([32] ++ str_id ++ [34] ++ dec (id n) ++ [34]) ++ [62])
      with ((60 :: name n ++ [32]) ++ str_id ++ ([34] ++ dec (id n) ++ [34] ++ [62]))
      by (repeat (cbn [app]; rewrite <- !app_assoc); done).
    rewrite strstr_skip by (constructor; [done|]; apply Forall_app; split; [done|by repeat constructor]).
    cbn [app str_id behind_quote Z.eqb Pos.eqb mbind option_bind].
    rewrite until_quote_stop by (apply dec_digits; lia). cbn [mbind option_bind].
    assert (length (dec (id n)) <= 10)%nat as Hl by (unfold dec; rewrite length_rev; apply length_dec_rev).
    rewrite (proj2 (Nat.ltb_lt _ _)) by lia. by rewrite atoi_dec.
  - cbn [app]. rewrite strstr_none; [f_equal; lia|]. constructor; [done|]. apply Forall_app. split; [done|]. by constructor.
Qed.

Lemma get_id_close nm : tag_name nm -> get_id_from_tag (close_tag nm) = Some 0.
Proof.
  intros (_ & _ & Hf & _). apply name_no_eq in Hf. unfold get_id_from_tag, close_tag. cbn [app].
  rewrite strstr_none; [done|]. constructor; [done|]. constructor; [done|]. apply Forall_app. split; [done|]. by constructor.
Qed.

Lemma skipped_second tag x r : tag = 60 :: x :: r -> x <> 33 -> x <> 63 -> skipped_tag tag = false.
Proof.
  intros -> H1 H2. unfold skipped_tag. cbn [str_comment str_xml has_prefix]. rewrite Z.eqb_refl.
  replace (33 =? x) with false by lia. replace (63 =? x) with false by lia. cbn [andb]. by rewrite !andb_false_r.
Qed.

Lemma name_plain nm : Forall name_char nm -> Forall (fun c => c <> 62 /\ c <> 0) nm.
Proof. intros H. eapply List.Forall_impl; [|exact H]. by intros c (? & _ & ? & _). Qed.

(** A tag made of a body of harmless characters. *)
Lemma plain_tag_intro x body :
  Forall (fun c => c <> 62 /\ c <> 0) (x :: body) -> (length body < 252)%nat -> x <> 33 -> x <> 63 ->
  plain_tag ([60] ++ (x :: body) ++ [62]).
Proof.
  intros Hb Hl H1 H2. exists (x :: body). split; [done|]. split; [eapply List.Forall_impl; [|exact Hb]; intros a [? ?]; done|]. split_and!.
  - constructor; [done|]. apply Forall_app. split; [|by constructor]. eapply List.Forall_impl; [|exact Hb]; intros a [? ?]; done.
  - cbn [app length]. rewrite length_app. cbn [length]. unfold MAX_TAG_LEN. lia.
  - by eapply skipped_second.
Qed.

Lemma close_tag_plain nm : tag_name nm -> plain_tag (close_tag nm).
Proof.
  intros (_ & Hl & Hf & _). apply name_plain in Hf. apply (plain_tag_intro 47 nm); [by constructor|lia|done|done].
Qed.

Lemma open_tag_plain n : tag_name (name n) -> 0 <= id n <= INT_MAX -> plain_tag (open_tag n).
Proof.
  intros (Hne & Hl & Hf & _ & H1 & H2) Hi. apply name_plain in Hf. unfold open_tag. rewrite (app_assoc (name n)).
  destruct (name n) as [|x nm] eqn:En; [done|]. cbn [deref hd length app] in *.
  apply (plain_tag_intro x (nm ++ id_text (id n))); [|rewrite length_app|done|done].
  - change (x :: nm ++ id_text (id n)) with ((x :: nm) ++ id_text (id n)). apply Forall_app. split; [done|].
    assert (Forall (fun c => c <> 62 /\ c <> 0) (dec (id n))) as Hd.
    { eapply List.Forall_impl; [|apply (dec_digits (id n)); lia]. intros c Hc. cbv beta in Hc. unfold isdigit in Hc. bprop. lia. }
    unfold id_text. destruct (0 <? id n); [|done]. cbn [app str_id]. do 5 (constructor; [done|]).
    apply Forall_app. split; [exact Hd|]. by constructor.
  - unfold id_text. destruct (0 <? id n); cbn [length]; [|lia]. rewrite !length_app. cbn [length str_id].
    assert (length (dec (id n)) <= 10)%nat as Hd by (unfold dec; rewrite length_rev; apply length_dec_rev). lia.
Qed.

(** ** Reading the tree *)

Definition blanks (ws : list Z) : Prop := Forall (fun c => IS_WHITE c = true) ws.

Lemma blanks_tabs k : blanks (repeat 9 k).
Proof. induction k; by constructor. Qed.

Lemma eat_blanks ws s : blanks ws -> eat IS_WHITE (ws ++ s) = eat IS_WHITE s.
Proof. induction 1 as [|c ws Hc _ IH]; [done|]. cbn [app eat]. by rewrite Hc. Qed.

Lemma trim_blanks v ws : xmldb_reatwhite v = v -> xmldb_eatwhite v = v -> blanks ws -> xmldb_eatwhite (xmldb_reatwhite (v ++ ws)) = v.
Proof.
  intros Hr He Hw. unfold xmldb_reatwhite in *. rewrite rev_app_distr, eat_blanks by (by apply Forall_rev). by rewrite Hr.
Qed.

Lemma escape_blanks ws : blanks ws -> flat_map escape_char ws = ws.
Proof.
  induction 1 as [|c ws Hc _ IH]; [done|]. cbn [flat_map]. rewrite IH. unfold IS_WHITE in Hc. unfold escape_char.
  rewrite !orb_true_iff, !Z.eqb_eq in Hc. by destruct Hc as [[[-> | ->] | ->] | ->].
Qed.

Lemma blanks_nonzero ws : blanks ws -> Forall (fun c => c <> 0) ws.
Proof. intros H. eapply List.Forall_impl; [|exact H]. by intros c Hc ->. Qed.

(** The value of a node, the empty string for none. *)
Abbreviation str_of n := (default [] (value n)).

Lemma value_text_eq n : value_text n = flat_map escape_char (str_of n).
Proof. unfold value_text. by destruct (value n). Qed.

Lemma printable_value depth n :
  printable depth n ->
  Forall (fun c => c <> 0) (str_of n) /\ xmldb_reatwhite (str_of n) = str_of n /\ xmldb_eatwhite (str_of n) = str_of n /\
  (length (flat_map escape_char (str_of n)) + depth + 2 < MAX_VAL_LEN)%nat /\ value n <> Some [].
Proof.
  intros [_ _ Hd Hv _]. destruct (value n) as [v|]; cbn [default]; [|by split_and!].
  destruct Hv as (Hne & Hz & He & Hr & Hl). split_and!; try done. by intros [= ->].
Qed.

(** Text, blanks and a tag: the value is the text. *)
Lemma read_text depth n ws tag rest :
  printable depth n -> blanks ws -> (length ws <= depth + 2)%nat -> plain_tag tag ->
  exists val, read_tag (value_text n ++ ws ++ tag ++ rest) (Some MAX_VAL_LEN) MAX_TAG_LEN = Some (62, rest, val, tag) /\
    xmldb_eatwhite (xmldb_reatwhite val) = str_of n.
Proof.
  intros Hp Hw Hl Ht. destruct (printable_value _ _ Hp) as (Hz & Hr & He & Hlen & _). exists (str_of n ++ ws).
  split; [|by apply trim_blanks].
  destruct (read_tag_plain (str_of n ++ ws) tag rest Ht) as [E _].
  - apply Forall_app. split; [done|]. by apply blanks_nonzero.
  - rewrite flat_map_app, length_app, (escape_blanks ws Hw). lia.
  - rewrite flat_map_app, (escape_blanks ws Hw), <- app_assoc in E. by rewrite value_text_eq.
Qed.

(** Blanks and a tag, when the value is not asked for. *)
Lemma read_next ws tag rest :
  blanks ws -> (length ws < MAX_VAL_LEN)%nat -> plain_tag tag ->
  read_tag (ws ++ tag ++ rest) None MAX_TAG_LEN = Some (62, rest, [], tag).
Proof.
  intros Hw Hl Ht. destruct (read_tag_plain ws tag rest Ht) as [_ E]; [by apply blanks_nonzero|by rewrite escape_blanks|].
  by rewrite (escape_blanks ws Hw) in E.
Qed.

(** What the parser does with the siblings [n :: ns] at [depth], when the text behind them closes [pname]. *)
Definition parses (fuel : nat) : Prop := forall n ns depth k pname rest h,
  Forall (printable depth) (n :: ns) -> tag_name pname -> (k + 1 < MAX_VAL_LEN)%nat -> avail h = [] ->
  let fh := behind_open n depth ++ flat_map (fun n => text n depth) ns ++ repeat 9 k ++ close_tag pname ++ rest in
  (length fh < fuel)%nat ->
  exists h', parse_xmltree fuel fh (open_tag n) h = Some (map saved (n :: ns), rest, close_tag pname, h') /\
    avail h' = [] /\ live h' = live h + child_blocks (map saved (n :: ns)).

(** The value and the children of a node. *)
Lemma parse_inner fuel depth n rest :
  parses fuel -> printable depth n -> (length (behind_open n depth ++ rest) < S fuel)%nat ->
  exists fh val tag, read_tag (behind_open n depth ++ rest) (Some MAX_VAL_LEN) MAX_TAG_LEN = Some (62, fh, val, tag) /\
    xmldb_eatwhite (xmldb_reatwhite val) = str_of n /\ get_name_from_tag tag MAX_TAG_LEN <> [] /\
    forall h, avail h = [] ->
    exists h', (if negb (deref (get_name_from_tag tag MAX_TAG_LEN) =? 47) then parse_xmltree fuel fh tag h
                else Some ([], fh, tag, h)) = Some (map saved (child n), 10 :: rest, close_tag (name n), h') /\
      avail h' = [] /\ live h' = live h + child_blocks (map saved (child n)).
Proof.
  intros IH Hp Hlen. pose proof Hp as [Hnm Hid Hdep _ Hch]. unfold behind_open in *. destruct (child n) as [|c l] eqn:Ec.
  - destruct (read_text depth n [] (close_tag (name n)) (10 :: rest) Hp) as (val & E & Hv);
      [constructor|cbn; lia|by apply close_tag_plain|].
    exists (10 :: rest), val, (close_tag (name n)). rewrite <- !app_assoc. cbn [app] in *. rewrite E, get_name_close by done.
    split_and!; try done. intros h Ha. exists h. split_and!; [done|done|cbn; lia].
  - pose proof (Forall_inv Hch) as [Hcn Hci _ _ _].
    cbn [flat_map] in *. rewrite text_eq in *.
    destruct (read_text depth n (10 :: repeat 9 (S depth)) (open_tag c)
                (behind_open c (S depth) ++ flat_map (fun n => text n (S depth)) l ++
                 repeat 9 depth ++ close_tag (name n) ++ 10 :: rest) Hp) as (val & E & Hv).
    { constructor; [done|]. apply blanks_tabs. }
    { cbn [length]. rewrite repeat_length. lia. }
    { by apply open_tag_plain. }
    eexists _, val, (open_tag c). split; [etransitivity; [|exact E]; f_equal; rewrite <- ?app_assoc; cbn [app]; by rewrite <- ?app_assoc|].
    rewrite get_name_open by done. destruct Hcn as (Hne & Hrest). split_and!; [done|done|]. intros h Ha.
    rewrite (proj2 (Z.eqb_neq _ _)) by tauto. cbn [negb]. apply (IH c l (S depth) depth (name n) (10 :: rest) h); try done; [lia|].
    rewrite !length_app in *. cbn [length] in *. rewrite ?length_app in *. cbn [length] in *.
    unfold open_tag in Hlen. cbn [app length] in Hlen. rewrite ?length_app in *. cbn [length] in *. lia.
Qed.

Lemma set_value_owned v h :
  avail h = [] -> v <> Some [] ->
  exists h', match default [] v with [] => (None, h) | _ => strdup h (default [] v) end = (v, h') /\
    avail h' = [] /\ live h' = live h + owned v.
Proof.
  intros Ha Hv. unfold strdup, malloc. rewrite Ha. destruct v as [[|x v]|]; [done| |].
  - eexists. split; [done|]. done.
  - exists h. split_and!; [done|done|cbn; lia].
Qed.

(** The fuel is enough, and the siblings come back as they were saved. *)
Lemma parse_siblings fuel : parses fuel.
Proof.
  induction fuel as [|fuel IH]; intros n ns depth k pname rest h Hp Hpn Hk Ha fh Hfuel; [lia|].
  apply Forall_cons_iff in Hp as [Hp Hps]. pose proof Hp as [Hnm Hid Hdep _ _].
  destruct (printable_value _ _ Hp) as (_ & _ & _ & _ & Hvne).
  cbn [parse_xmltree]. rewrite get_name_open by done. rewrite bool_decide_false by (by destruct Hnm).
  rewrite get_id_open by done. cbn [mbind option_bind].
  pose proof (new_node_avail (name n, id n) h Ha) as En. cbn [fst snd] in En. rewrite En by (by destruct Hnm). cbn iota.
  unfold fh in *. set (R := flat_map _ ns ++ _) in *.
  destruct (parse_inner fuel depth n R IH Hp Hfuel) as (fh1 & val & tag1 & E1 & Hval & Hn1 & Hin).
  rewrite E1. cbn [mbind option_bind]. rewrite Hval.
  destruct (set_value_owned (value n) (mkheap [] (live h + 1)) eq_refl Hvne) as (h1 & -> & Ha1 & Hl1).
  rewrite bool_decide_false by done. destruct (Hin h1 Ha1) as (h2 & -> & Ha2 & Hl2). cbn [mbind option_bind].
  rewrite get_name_close by done. rewrite bool_decide_false by done.
  cbn [deref hd tail fresh set_value set_child name fst]. change (47 =? 47) with true. cbn [negb].
  rewrite (proj2 (strcmp_eq _ _) eq_refl). cbn [Z.eqb negb].
  assert (node_blocks (saved n) = 1 + owned (value n) + child_blocks (map saved (child n))) as Hb
    by (destruct n; rewrite node_blocks_eq; cbn; lia).
  destruct ns as [|n2 ns].
  - unfold R. cbn [flat_map app].
    change (10 :: repeat 9 k ++ close_tag pname ++ rest) with ((10 :: repeat 9 k) ++ close_tag pname ++ rest).
    rewrite (read_next (10 :: repeat 9 k) (close_tag pname) rest);
      [|constructor; [done|apply blanks_tabs]|cbn [length]; rewrite repeat_length; lia|by apply close_tag_plain].
    cbn [mbind option_bind]. rewrite get_name_close by done. cbn [deref hd]. change (47 =? 47) with true. rewrite andb_false_r.
    exists h2. split_and!; [by destruct n|done|]. cbn [map]. rewrite child_blocks_cons, Hb. cbn in *. lia.
  - pose proof (Forall_inv Hps) as Hp2. pose proof Hp2 as [Hnm2 Hid2 _ _ _]. unfold R. cbn [flat_map]. rewrite text_eq.
    set (fh2 := behind_open n2 depth ++ flat_map (fun n => text n depth) ns ++ repeat 9 k ++ close_tag pname ++ rest).
    assert (10 :: ((repeat 9 depth ++ open_tag n2 ++ behind_open n2 depth) ++ flat_map (fun n => text n depth) ns) ++ repeat 9 k ++ close_tag pname ++ rest
      = (10 :: repeat 9 depth) ++ open_tag n2 ++ fh2) as -> by (unfold fh2; rewrite <- ?app_assoc; cbn [app]; by rewrite <- ?app_assoc).
    rewrite (read_next (10 :: repeat 9 depth) (open_tag n2) fh2);
      [|constructor; [done|apply blanks_tabs]|cbn [length]; rewrite repeat_length; lia|by apply open_tag_plain].
    cbn [mbind option_bind]. rewrite get_name_open by done. destruct Hnm2 as (Hne2 & Hrest2).
    rewrite bool_decide_false by done. rewrite (proj2 (Z.eqb_neq _ _)) by tauto. cbn [negb andb].
    destruct (IH n2 ns depth k pname rest h2) as (h3 & E3 & Ha3 & Hl3); try done.
    { unfold R in Hfuel. cbn [flat_map] in Hfuel. rewrite text_eq in Hfuel. rewrite !length_app in *.
      unfold open_tag in Hfuel. cbn [app length] in Hfuel. rewrite ?length_app in *. cbn [length] in *. lia. }
    fold fh2 in E3. rewrite E3. cbn [mbind option_bind]. exists h3. split_and!; [by destruct n|done|].
    cbn [map] in *. rewrite !child_blocks_cons in *. rewrite Hb. cbn in *. lia.
Qed.

(** ** The whole file *)

Lemma read_skip depth n ws tag rest :
  printable depth n -> blanks ws -> (length ws <= depth + 2)%nat -> plain_tag tag ->
  read_tag (value_text n ++ ws ++ tag ++ rest) None MAX_TAG_LEN = Some (62, rest, [], tag).
Proof.
  intros Hp Hw Hl Ht. destruct (printable_value _ _ Hp) as (Hz & _ & _ & Hlen & _).
  destruct (read_tag_plain (str_of n ++ ws) tag rest Ht) as [_ E].
  - apply Forall_app. split; [done|]. by apply blanks_nonzero.
  - rewrite flat_map_app, length_app, (escape_blanks ws Hw). lia.
  - rewrite flat_map_app, (escape_blanks ws Hw), <- app_assoc in E. by rewrite value_text_eq.
Qed.

(** The end tag of an empty root is taken for a node, which is then dropped. *)
Lemma parse_close nm fuel h :
  tag_name nm -> avail h = [] ->
  exists h', parse_xmltree (S fuel) [10] (close_tag nm) h = Some ([], [], [], h') /\ avail h' = [] /\ live h' = live h.
Proof.
  intros Hnm Ha. cbn [parse_xmltree]. rewrite get_name_close, get_id_close by done.
  rewrite bool_decide_false by done. cbn [mbind option_bind]. pose proof (new_node_avail (47 :: nm, 0) h Ha) as En.
  cbn [fst snd] in En. rewrite En by done. cbn iota.
  replace (read_tag [10] (Some MAX_VAL_LEN) MAX_TAG_LEN) with (Some (EOF, @nil Z, [10], @nil Z)) by (by vm_compute).
  cbn [mbind option_bind]. change (xmldb_eatwhite (xmldb_reatwhite [10])) with (@nil Z). cbn iota.
  change (get_name_from_tag [] MAX_TAG_LEN) with (@nil Z). rewrite bool_decide_true by done.
  eexists. split; [done|]. split; [done|]. cbn. lia.
Qed.

(** The nodes of a root that are written. *)
Definition written (flags : Z) (r : xml_node) : list xml_node := filter (fun n => ignored 1 flags n = false) (child r).

Definition root_text (flags : Z) (r : xml_node) : list Z :=
  match child r with
  | [] => close_tag (name r) ++ [10]
  | _ => [10] ++ flat_map (fun n => text n 1) (written flags r) ++ close_tag (name r) ++ [10]
  end.

Lemma dump_root flags r : xmldb_dump_nodes [r] 0 flags = open_tag r ++ value_text r ++ root_text flags r.
Proof.
  unfold xmldb_dump_nodes, root_text, written. cbn [flat_map]. rewrite app_nil_r. pose proof (dump_nodes_one flags (child r)) as Hd.
  destruct r as [nm i v m l]. cbn [dump_node child] in *. change (ignored 0 flags _) with false. cbn iota.
  rewrite dump_start_eq, !dump_end_eq. cbn [repeat app name]. rewrite <- !app_assoc. destruct l; [done|]. by rewrite Hd.
Qed.

(** From behind the start tag of the root: the children. *)
Lemma parse_root flags r h :
  printable 0 r -> avail h = [] ->
  exists fh tag, read_tag (value_text r ++ root_text flags r) None MAX_TAG_LEN = Some (62, fh, [], tag) /\
    get_name_from_tag tag MAX_TAG_LEN <> [] /\
    exists rest tag' h', parse_xmltree (S (length fh)) fh tag h = Some (map saved (written flags r), rest, tag', h') /\
      avail h' = [] /\ live h' = live h + child_blocks (map saved (written flags r)).
Proof.
  intros Hp Ha. pose proof Hp as [Hnm Hid _ _ Hch].
  assert (Forall (printable 1) (written flags r)) as Hw.
  { rewrite Forall_forall in Hch |- *. intros x Hx. apply Hch. unfold written in Hx. apply list_elem_of_In in Hx.
    apply list_elem_of_filter in Hx as [_ Hx]. by apply list_elem_of_In. }
  assert (forall ws, blanks ws -> (length ws <= 1)%nat -> written flags r = [] ->
    exists fh tag, read_tag (value_text r ++ ws ++ close_tag (name r) ++ [10]) None MAX_TAG_LEN = Some (62, fh, [], tag) /\
    get_name_from_tag tag MAX_TAG_LEN <> [] /\
    exists rest tag' h', parse_xmltree (S (length fh)) fh tag h = Some (map saved (written flags r), rest, tag', h') /\
      avail h' = [] /\ live h' = live h + child_blocks (map saved (written flags r))) as Hempty.
  { intros ws Hws Hl Hwr. rewrite (read_skip 0 r ws _ [10] Hp Hws) by (lia || by apply close_tag_plain).
    eexists _, _. split; [done|]. rewrite get_name_close by done. split; [done|].
    destruct (parse_close (name r) (length [10]) h Hnm Ha) as (h' & E & Ha' & Hl'). rewrite Hwr.
    eexists _, _, h'. split; [exact E|]. split; [done|]. cbn. lia. }
  unfold root_text. destruct (child r) as [|c0 l0] eqn:Ec.
  - apply (Hempty []); [constructor|cbn; lia|]. unfold written. by rewrite Ec.
  - destruct (written flags r) as [|n ns] eqn:Ew.
    + apply (Hempty [10]); [by repeat constructor|cbn; lia|done].
    + pose proof (Forall_inv Hw) as [Hn Hi _ _ _]. cbn [flat_map]. rewrite text_eq.
      set (fh := behind_open n 1 ++ flat_map (fun n => text n 1) ns ++ repeat 9 0 ++ close_tag (name r) ++ [10]).
      replace ([10] ++ ((repeat 9 1 ++ open_tag n ++ behind_open n 1) ++ flat_map (fun n => text n 1) ns) ++ close_tag (name r) ++ [10])
        with ([10; 9] ++ open_tag n ++ fh) by (unfold fh; cbn [repeat app]; rewrite <- ?app_assoc; cbn [app]; by rewrite <- ?app_assoc).
      rewrite (read_skip 0 r [10; 9] _ fh Hp); [|by repeat constructor|cbn; lia|by apply open_tag_plain].
      eexists _, _. split; [done|]. rewrite get_name_open by done. split; [by destruct Hn|].
      destruct (parse_siblings (S (length fh)) n ns 1%nat 0%nat (name r) [10] h) as (h' & E & Ha' & Hl'); try done; [unfold MAX_VAL_LEN; lia|fold fh; lia|].
      eexists _, _, h'. split; [exact E|]. done.
Qed.

Lemma file_roundtrip d r flags flags' :
  printable 0 r -> avail (mem d) = [] ->
  let loaded := map saved (written flags r) in
  let kept := if Z.land flags' RGDB_SKIP_PROC =? 0 then None
              else fst (remove_child (child (g_xml_root d)) str_proc 0) in
  let l := match kept with None => loaded | Some n => snd (remove_child loaded str_proc 0) ++ [n] end in
  exists h, xmldb_read_xml d (name r) (Some (xmldb_dump_nodes [r] 0 flags)) flags' =
    Some (if bool_decide (l = []) then -1 else 0, set_root d (set_child (g_xml_root d) l) h).
Proof.
  intros Hp Ha loaded kept l. pose proof Hp as [Hnm Hid _ _ _]. unfold xmldb_read_xml.
  set (nl := if negb _ then _ else _).
  assert (fst nl = kept) as Hk by (unfold nl, kept; by destruct (_ =? 0)). destruct nl as [nptr l0]. cbn [fst] in Hk. subst nptr.
  set (h0 := del_first (mem d) l0). assert (avail h0 = []) as Ha0 by (unfold h0; by destruct l0).
  rewrite dump_root. pose proof (read_next [] (open_tag r) (value_text r ++ root_text flags r)) as Er. cbn [app] in Er.
  rewrite Er; [|apply List.Forall_nil|unfold MAX_VAL_LEN; cbn; lia|by apply open_tag_plain]. cbn [mbind option_bind].
  change MAX_VAL_LEN with MAX_TAG_LEN. rewrite get_name_open by done. rewrite bool_decide_false by (by destruct Hnm).
  rewrite (proj2 (strcmp_eq _ _) eq_refl). cbn [negb andb Z.eqb].
  destruct (parse_root flags r h0 Hp Ha0) as (fh & tag & E1 & Hn1 & rest & tag' & h' & E2 & _ & _).
  rewrite E1. cbn [mbind option_bind]. rewrite bool_decide_false by done. rewrite E2. cbn [mbind option_bind].
  fold loaded. unfold l. destruct kept as [n|]; [|by eexists].
  destruct (remove_child loaded str_proc 0) as [tmp l1]. cbn [snd]. by eexists.
Qed.

(** C4. Saving and loading: a database written by [xmldb_dump_nodes] is read back by [xmldb_read_xml] node by
    node, with names, numbers and values (special characters included) and without [tmp] and
    [runtime]; with RGDB_SKIP_PROC the [proc] node in memory is kept in place of the one in the
    file.  The result is 0 exactly if the database is not empty. *)
Theorem xmldb_file_roundtrip d r flags flags' :
  printable 0 r -> avail (mem d) = [] ->
  let loaded := map saved (written flags r) in
  let kept := if Z.land flags' RGDB_SKIP_PROC =? 0 then None
              else fst (remove_child (child (g_xml_root d)) str_proc 0) in
  let l := match kept with None => loaded | Some n => snd (remove_child loaded str_proc 0) ++ [n] end in
  exists h, xmldb_read_xml d (name r) (Some (xmldb_dump_nodes [r] 0 flags)) flags' =
    Some (if bool_decide (l = []) then -1 else 0, set_root d (set_child (g_xml_root d) l) h).
Proof. exact (file_roundtrip d r flags flags'). Qed.

(** ** Witness and limits *)

#[global] Instance tag_name_dec nm : Decision (tag_name nm).
Proof. unfold tag_name, name_char. apply _. Defined.

#[global] Instance tag_value_dec v depth : Decision (tag_value v depth).
Proof. unfold tag_value. apply _. Defined.

Ltac printable_tree :=
  constructor; cbn [name id value child];
  [ apply (bool_decide_unpack _); vm_compute; exact I | unfold INT_MAX; lia | unfold MAX_VAL_LEN; lia
  | first [exact I | apply (bool_decide_unpack _); vm_compute; exact I]
  | repeat (constructor; [printable_tree|]); constructor ].

(** A root with a value to escape, a numbered node, and a [runtime] node that is not saved. *)
Definition leaf (nm : string) (i : Z) (v : string) : xml_node := mknode (cs nm) i (Some (cs v)) None [].
Definition example_root : xml_node :=
  mknode (cs "war100") 0 None None
    [mknode (cs "wan") 0 (Some (cs "main")) (Some (cs "restart")) [leaf "ssid" 0 "a<b & 'c'"; leaf "rule" 12 "x"];
     leaf "runtime" 0 "gone"; leaf "proc" 0 "old"].

Definition loaded_root : list xml_node :=
  [mknode (cs "wan") 0 (Some (cs "main")) None [leaf "ssid" 0 "a<b & 'c'"; leaf "rule" 12 "x"]; leaf "proc" 0 "old"].

Definition running : db := mkdb (mknode (cs "war100") 0 None None [leaf "proc" 0 "new"]) (mkheap [] 2) [].

Lemma example_printable : printable 0 example_root.
Proof. unfold example_root, leaf. printable_tree. Qed.

Lemma xmldb_file_roundtrip_witness :
  (exists h, xmldb_read_xml running (name example_root) (Some (xmldb_dump_nodes [example_root] 0 0)) 0 =
     Some (0, set_root running (set_child (g_xml_root running) loaded_root) h)) /\
  (exists h, xmldb_read_xml running (name example_root) (Some (xmldb_dump_nodes [example_root] 0 0)) RGDB_SKIP_PROC =
     Some (0, set_root running (set_child (g_xml_root running) [hd (leaf "" 0 "") loaded_root; leaf "proc" 0 "new"]) h)).
Proof.
  split.
  - destruct (xmldb_file_roundtrip running example_root 0 0 example_printable eq_refl) as (h & E). exists h. rewrite E. by vm_compute.
  - destruct (xmldb_file_roundtrip running example_root 0 RGDB_SKIP_PROC example_printable eq_refl) as (h & E).
    exists h. rewrite E. by vm_compute.
Defined.

(** A value of 256 characters is accepted and saved, but loading it writes behind the buffer. *)
Example long_value_cannot_be_loaded :
  let r := mknode (cs "war100") 0 None None [mknode (cs "a") 0 (Some (repeat 97 256)) None []] in
  xmldb_read_xml running (name r) (Some (xmldb_dump_nodes [r] 0 0)) 0 = None.
Proof. by vm_compute. Qed.

(** Loading frees the first node below the root only. *)
Example loading_leaks_the_siblings :
  let d := mkdb (mknode (cs "war100") 0 None None [leaf "a" 0 "1"; leaf "b" 0 "2"]) (mkheap [] 4) [] in
  (fun r => (fst r, live (mem (snd r)), child (g_xml_root (snd r)))) <$> xmldb_read_xml d (cs "war100") None 0 = Some (-1, 2, []).
Proof. by vm_compute. Qed.

(** With RGDB_SKIP_PROC and a file that cannot be opened, the [proc] node is lost as well. *)
Example missing_file_loses_proc :
  (fun r => child (g_xml_root (snd r))) <$> xmldb_read_xml running (cs "war100") None RGDB_SKIP_PROC = Some [].
Proof. by vm_compute. Qed.

(** A number without quotes runs out of the tag. *)
Example number_without_quotes : get_id_from_tag (cs "<a id=1>") = None.
Proof. by vm_compute. Qed.

End XmldbFile.
