(* ===== verification/Ephp.v ===== *)
(** * tools/alpha/xmldb/ephp.c: the program blocks of a template, from text to statements.

    A pointer into the text of a program is the list of the bytes from there to the end of what
    has been written to the buffer, the terminator included: a read through the empty list leaves
    the text and is undefined.  The functions run in a monad over the static variables of the file,
    the database and the heap; running out of fuel is kept apart from undefined behaviour. *)
From Stdlib Require Import ZArith Lia Bool String.
From stdpp Require Import base tactics list option numbers.
From S2P Require Import Prelude Xmldb XmldbFile.

Import Xmldb XmldbFile.

Module Ephp.

#[local] Set Warnings "-register-all".

(** ** Statements *)

(** An operand with the operator behind it; [ST_QUERY true] is the code's [ST_QUERYJS].  A string is
    [None] when the copy of it could not be made. *)
Inductive strlist_t :=
| ST_STR (str : option (list Z)) (op : Z)
| ST_VAR (str : option (list Z)) (op : Z)
| ST_QUERY (js : bool) (slist : list strlist_t) (op : Z).

Record match_t := mkmatch { pattern : list strlist_t; output : list strlist_t }.

Inductive ifop_t := IFOP_EQUAL | IFOP_NOTEQUAL | IFOP_GREATERTHAN | IFOP_LESSTHAN | IFOP_GREATEREQUAL | IFOP_LESSEQUAL.
Inductive ifnext_t := IFNEXT_END | IFNEXT_AND | IFNEXT_OR.
Record cond_t := mkcond { operand1 : list strlist_t; operand2 : list strlist_t; if_op : ifop_t; next : ifnext_t }.

Inductive aop_t := AOP_ASSIGN | AOP_ADD | AOP_SUB | AOP_INCREASE | AOP_DECREASE.

Inductive sblock_t :=
| SB_REQUIRE (file : list strlist_t)
| SB_ANCHOR (node : list strlist_t)
| SB_QUERY (js : bool) (node : list strlist_t)
| SB_DEL (node : list strlist_t)
| SB_SET (node val : list strlist_t)
| SB_ECHO (str : list strlist_t)
| SB_ASSIGN (op : aop_t) (variable : option (list Z)) (val : list strlist_t)
| SB_MAP (node : list strlist_t) (default_output : option match_t) (matches : list match_t)
| SB_INCLOG (format file : option (list Z))
| SB_IF (condition : list cond_t) (_true _false : list sblock_t)
| SB_FOR (node : list strlist_t) (statement : list sblock_t)
| SB_EXIT.

(** ** The world *)

Record var_t := mkvar { v_name : option (list Z); v_value : option (list Z) }.

(** A pointer to a node that is kept while the tree changes. *)
Inductive nptr := Null | Node (p : pos) | Freed.

(** [buffer] holds [count] characters, [written] is what [b_flush] has sent; [held] are the pointers to
    nodes that the running [for] statements keep; [pb_buff] holds the bytes stored so far. *)
Record world := mkw {
  base : db;
  buffer : list Z;
  written : list (list Z);
  g_nspace : list var_t;
  g_anchor : nptr;
  held : list nptr;
  pb_buff : option (list Z);
  pb_size : nat;
  pb_allocsize : nat
}.

Definition set_base (w : world) (d : db) : world :=
  mkw d (buffer w) (written w) (g_nspace w) (g_anchor w) (held w) (pb_buff w) (pb_size w) (pb_allocsize w).
Definition set_out (w : world) (b : list Z) (o : list (list Z)) : world :=
  mkw (base w) b o (g_nspace w) (g_anchor w) (held w) (pb_buff w) (pb_size w) (pb_allocsize w).
Definition set_vars (w : world) (l : list var_t) : world :=
  mkw (base w) (buffer w) (written w) l (g_anchor w) (held w) (pb_buff w) (pb_size w) (pb_allocsize w).
Definition set_ptrs (w : world) (a : nptr) (l : list nptr) : world :=
  mkw (base w) (buffer w) (written w) (g_nspace w) a l (pb_buff w) (pb_size w) (pb_allocsize w).
Definition set_pb (w : world) (b : option (list Z)) (n k : nat) : world :=
  mkw (base w) (buffer w) (written w) (g_nspace w) (g_anchor w) (held w) b n k.

(** ** The monad *)

Inductive res (A : Type) := Ret (a : A) | UB | NoFuel.
Arguments Ret {A} a.
Arguments UB {A}.
Arguments NoFuel {A}.

Definition M (A : Type) : Type := world -> res (A * world).

#[global] Instance M_ret : MRet M := fun A x w => Ret (x, w).
#[global] Instance M_bind : MBind M := fun A B k m w =>
  match m w with Ret (x, w') => k x w' | UB => UB | NoFuel => NoFuel end.

Definition ub {A} : M A := fun _ => UB.
Definition nofuel {A} : M A := fun _ => NoFuel.
Definition get : M world := fun w => Ret (w, w).
Definition modify (f : world -> world) : M unit := fun w => Ret (tt, f w).
Definition lift {A} (o : option A) : M A := match o with Some x => mret x | None => ub end.

(** ** The heap, shared with the database *)

Definition set_heap (w : world) (h : heap) : world := set_base w (set_root (base w) (g_xml_root (base w)) h).
Definition w_heap (w : world) : heap := mem (base w).

Definition m_malloc : M bool := fun w => let '(ok, h) := malloc (w_heap w) in Ret (ok, set_heap w h).
Definition m_strdup (s : list Z) : M (option (list Z)) := fun w =>
  let '(r, h) := strdup (w_heap w) s in Ret (r, set_heap w h).
Definition m_free (blocks : Z) : M unit := modify (fun w => set_heap w (free (w_heap w) blocks)).

(** ** Output *)

Definition BUFFER_SIZE : nat := 1024.

Definition b_flush : M unit := modify (fun w => set_out w [] (written w ++ [buffer w])).

Definition put_buffer (w : world) (c : Z) : world :=
  if (length (buffer w) <? BUFFER_SIZE)%nat then set_out w (buffer w ++ [c]) (written w) else w.

Definition b_putc (c : Z) : M unit :=
  _ ← modify (fun w => put_buffer w c);
  w ← get;
  if (length (buffer w) =? BUFFER_SIZE)%nat then b_flush else mret tt.

Fixpoint b_puts (str : list Z) : M unit :=
  match str with [] => mret tt | c :: tl => _ ← b_putc c; b_puts tl end.

(** ** Tokens *)

Definition MAX_STRING_LEN : nat := 1024.

Fixpoint find_pattern (c : Z) (str : list Z) : Z :=
  match str with [] => 0 | x :: tl => if c =? x then x else find_pattern c tl end.

(** [*p] *)
Definition at_ (p : list Z) : M Z := lift (head p).

(** [xmldb_eatwhite] on the text of a program. *)
Definition eatwhite (p : list Z) : M (list Z) :=
  match xmldb_eatwhite p with [] => ub | q => mret q end.

(** The loop on a string in quotes: the characters, and the pointer at its end. *)
Fixpoint quoted (msg acc : list Z) : option (list Z * list Z) :=
  match msg with
  | [] => None
  | c :: tl =>
      if (c =? 0) || (c =? 34) then Some (acc, msg)
      else if (length acc <? MAX_STRING_LEN - 1)%nat then
        if c =? 92 then
          match tl with
          | [] => None
          | c' :: tl' => quoted tl' (acc ++ [if c' =? 110 then 10 else c'])
          end
        else quoted tl (acc ++ [c])
      else quoted tl acc
  end.

(** The loop on a string that ends with white space or a character of [ends]. *)
Fixpoint unquoted (ends msg acc : list Z) : option (list Z * list Z) :=
  match msg with
  | [] => None
  | c :: tl =>
      if (c =? 0) || IS_WHITE c then Some (acc, msg)
      else if negb (find_pattern c ends =? 0) then Some (acc, msg)
      else unquoted ends tl (if (length acc <? MAX_STRING_LEN - 1)%nat then acc ++ [c] else acc)
  end.

(** The string, whether it was in quotes, and [*message]. *)
Definition read_string_ex (message ends : list Z) : M (list Z * bool * list Z) :=
  c ← at_ message;
  if c =? 34 then
    r ← lift (quoted (tail message) []);
    let '(acc, msg) := r in
    c ← at_ msg;
    if c =? 34 then mret (cstr acc, true, tail msg) else mret ([], true, message)
  else
    r ← lift (unquoted ends message []);
    let '(acc, msg) := r in mret (acc, false, msg).

Definition read_string (message : list Z) (end_ : Z) : M (list Z * bool * list Z) := read_string_ex message [end_].

(** ** Memory held by statements *)

(** What [destroy_strlst] gives back for a list. *)
Fixpoint strlst_blocks1 (s : strlist_t) : Z :=
  match s with
  | ST_STR str _ | ST_VAR str _ => owned str + 1
  | ST_QUERY _ l _ => foldr (fun x n => strlst_blocks1 x + n) 0 l + 1
  end.
Definition strlst_blocks (l : list strlist_t) : Z := foldr (fun x n => strlst_blocks1 x + n) 0 l.

Definition destroy_strlst (l : list strlist_t) : M unit := m_free (strlst_blocks l).

Definition match_blocks (m : match_t) : Z := strlst_blocks (pattern m) + strlst_blocks (output m) + 1.
Definition free_match_t (m : option match_t) : M unit :=
  match m with Some m => m_free (match_blocks m) | None => mret tt end.
Definition matches_blocks (l : list match_t) : Z := foldr (fun m n => match_blocks m + n) 0 l.
Definition destroy_match_list (l : list match_t) : M unit := m_free (matches_blocks l).

Definition cond_blocks (c : cond_t) : Z := strlst_blocks (operand1 c) + strlst_blocks (operand2 c) + 1.
Definition conds_blocks (l : list cond_t) : Z := foldr (fun c n => cond_blocks c + n) 0 l.
Definition destroy_cond_list (l : list cond_t) : M unit := m_free (conds_blocks l).

(** What [destroy_sblist] gives back for one statement: of a [map], not the list of its node. *)
Fixpoint sblock_blocks (s : sblock_t) : Z :=
  1 + match s with
      | SB_REQUIRE l | SB_ANCHOR l | SB_QUERY _ l | SB_DEL l | SB_ECHO l => strlst_blocks l
      | SB_SET a b => strlst_blocks a + strlst_blocks b
      | SB_ASSIGN _ v l => owned v + strlst_blocks l
      | SB_MAP _ d l => from_option match_blocks 0 d + matches_blocks l
      | SB_INCLOG a b => owned a + owned b
      | SB_IF c a b =>
          conds_blocks c + foldr (fun x n => sblock_blocks x + n) 0 a + foldr (fun x n => sblock_blocks x + n) 0 b
      | SB_FOR l a => strlst_blocks l + foldr (fun x n => sblock_blocks x + n) 0 a
      | SB_EXIT => 0
      end.
Definition sblist_blocks (l : list sblock_t) : Z := foldr (fun x n => sblock_blocks x + n) 0 l.
Definition destroy_sblist (l : list sblock_t) : M unit := m_free (sblist_blocks l).

(** ** Expressions *)

Definition str_query : list Z := Eval cbv in cs "query".
Definition str_queryjs : list Z := Eval cbv in cs "queryjs".

Definition set_sl_op (s : strlist_t) (op : Z) : strlist_t :=
  match s with
  | ST_STR x _ => ST_STR x op
  | ST_VAR x _ => ST_VAR x op
  | ST_QUERY j l _ => ST_QUERY j l op
  end.

(** One operand from [curr], with the reading of the operands of a query; [None] when it is abandoned, with its memory
    given back. *)
Definition read_operand (nested : list Z -> M (bool * list strlist_t * list Z)) (curr pat : list Z)
  : M (option strlist_t * list Z) :=
  if has_prefix str_query curr then
    let js := has_prefix str_queryjs curr in
    curr ← eatwhite (drop (if js then 7 else 5) curr);
    c ← at_ curr;
    if negb (c =? 40) then _ ← m_free 1; mret (None, curr)
    else
      curr ← eatwhite (tail curr);
      r ← nested curr;
      let '(ok, l, curr) := r in
      if negb ok then _ ← destroy_strlst l; _ ← m_free 1; mret (None, curr)
      else
        c ← at_ curr;
        if negb (c =? 41) then _ ← destroy_strlst l; _ ← m_free 1; mret (None, curr)
        else mret (Some (ST_QUERY js l 0), tail curr)
  else
    r ← read_string_ex curr pat;
    let '(token, quote, curr) := r in
    if negb quote && (Prelude.deref token =? 36) then
      s ← m_strdup (tail token); mret (Some (ST_VAR s 0), curr)
    else s ← m_strdup token; mret (Some (ST_STR s 0), curr).

(** The loop of [read_strlst] from [curr]: whether it succeeds, the operands it adds to the list, and [*message].
    What was added before an operand is abandoned stays for the caller to free. *)
Fixpoint strlst_loop (fuel : nat) (message curr ops ends : list Z) : M (bool * list strlist_t * list Z) :=
  match fuel with
  | O => nofuel
  | S fuel =>
      curr ← eatwhite curr;
      c ← at_ curr;
      if c =? 0 then mret (true, [], curr)
      else
        ok ← m_malloc;
        if negb ok then mret (false, [], message)
        else
          e ← read_operand (fun curr => strlst_loop fuel curr curr [46] [41]) curr (ops ++ ends);
          match e return M (bool * list strlist_t * list Z) with
          | (None, curr) => mret (false, [], curr)
          | (Some s, curr) =>
              curr ← eatwhite curr;
              c ← at_ curr;
              if negb (find_pattern c ends =? 0) then mret (true, [s], curr)
              else
                let s := set_sl_op s c in
                if c =? 0 then mret (true, [s], tail curr)
                else
                  r ← strlst_loop fuel message (tail curr) ops ends;
                  let '(ok, l, curr) := r in mret (ok, s :: l, curr)
          end
  end.

(** The fuel: every turn of the loop reads a character of the text. *)
Definition read_strlst (message ops ends : list Z) : M (bool * list strlist_t * list Z) :=
  strlst_loop (S (length message)) message message ops ends.

(** ** Statements without blocks *)

Definition syntax_error : list Z := Eval cbv in cs "SYNTAX ERROR !!".
Definition malloc_error : list Z := Eval cbv in cs "MALLOC ERROR !!".
Definition missing (c : Z) : list Z := Eval cbv in cs "SYNTAX ERROR: missing '" ++ [c] ++ cs "' !!".
Definition missing_ (c : Z) : list Z := Eval cbv in cs "SYNTAX ERROR : missing '" ++ [c] ++ cs "' !!".
Definition no_variable : list Z := Eval cbv in cs "SYNTAX ERROR: no variable name !!".
Definition unknown_operator : list Z := Eval cbv in cs "SYNTAX ERROR: unknown operator !!".

(** The result of a parser: 0 or -1, the statements it added to the list, and [*ptr]. *)
Abbreviation parsed := (Z * list sblock_t * list Z)%type.

(** [SHOW_GO] to a label that ends in [return -1] with [*ptr = curr] *)
Definition fail {A} (l : A) (curr : list Z) : M (Z * A * list Z) := mret (-1, l, curr).

(** The operands are in the list also when the result is -1. *)
Definition parse_one_strlst (ptr : list Z) : M (Z * list strlist_t * list Z) :=
  curr ← eatwhite ptr;
  c ← at_ curr;
  if negb (c =? 40) then _ ← b_puts (missing 40); fail [] curr
  else
    r ← read_strlst (tail curr) [46] [41];
    let '(ok, l, curr) := r in
    if negb ok then _ ← b_puts syntax_error; fail l curr
    else
      curr ← eatwhite curr;
      c ← at_ curr;
      if negb (c =? 41) then _ ← b_puts (missing 41); fail l curr
      else
        curr ← eatwhite (tail curr);
        c ← at_ curr;
        if negb (c =? 59) then _ ← b_puts (missing 59); fail l curr
        else mret (0, l, tail curr).

(** The frame of parse_require, parse_anchor, _parse_query and parse_del. *)
Definition parse_one (mk : list strlist_t -> sblock_t) (ptr : list Z) : M parsed :=
  ok ← m_malloc;
  if negb ok then _ ← b_puts malloc_error; fail [] ptr
  else
    r ← parse_one_strlst ptr;
    let '(ret, l, ptr) := r in
    if ret <? 0 then _ ← destroy_strlst l; _ ← m_free 1; fail [] ptr
    else mret (0, [mk l], ptr).

Definition parse_require : list Z -> M parsed := parse_one SB_REQUIRE.
Definition parse_anchor : list Z -> M parsed := parse_one SB_ANCHOR.
Definition _parse_query (js : bool) : list Z -> M parsed := parse_one (SB_QUERY js).
Definition parse_query : list Z -> M parsed := _parse_query false.
Definition parse_queryjs : list Z -> M parsed := _parse_query true.
Definition parse_del : list Z -> M parsed := parse_one SB_DEL.

(** The operator of an assignment and the text behind it. *)
Definition assign_op (curr : list Z) : option (aop_t * list Z) :=
  if has_prefix [43; 61] curr then Some (AOP_ADD, drop 2 curr)
  else if has_prefix [45; 61] curr then Some (AOP_SUB, drop 2 curr)
  else if has_prefix [43; 43] curr then Some (AOP_INCREASE, drop 2 curr)
  else if has_prefix [45; 45] curr then Some (AOP_DECREASE, drop 2 curr)
  else if has_prefix [61] curr then Some (AOP_ASSIGN, tail curr)
  else None.

Definition arith_ops : list Z := Eval cbv in cs ".+-*/%".

(** Without memory for the statement [curr] has no value when it is stored to [*ptr]; so in parse_set,
    parse_map, parse_inclog, parse_if and parse_for. *)
Definition parse_assign (ptr : list Z) : M parsed :=
  ok ← m_malloc;
  if negb ok then _ ← b_puts malloc_error; ub
  else
    r ← read_string_ex ptr [61; 43; 45];
    let '(str, _, curr) := r in
    if (length str =? 0)%nat then _ ← b_puts no_variable; _ ← m_free 1; fail [] curr
    else
      v ← m_strdup (xmldb_reatwhite str);
      curr ← eatwhite curr;
      match assign_op curr return M parsed with
      | None => _ ← b_puts unknown_operator; _ ← m_free (owned v + 1); fail [] curr
      | Some (op, curr) =>
          curr ← eatwhite curr;
          r ← read_strlst curr arith_ops [59];
          let '(ok, l, curr) := r in
          if negb ok then _ ← b_puts syntax_error; _ ← m_free (owned v); _ ← destroy_strlst l; _ ← m_free 1; fail [] curr
          else
            c ← at_ curr;
            if negb (c =? 59) then
              _ ← b_puts (missing 59); _ ← m_free (owned v); _ ← destroy_strlst l; _ ← m_free 1; fail [] curr
            else mret (0, [SB_ASSIGN op v l], tail curr)
      end.

Definition parse_set (ptr : list Z) : M parsed :=
  ok ← m_malloc;
  if negb ok then _ ← b_puts malloc_error; ub
  else
    let error (msg : list Z) (a b : list strlist_t) (curr : list Z) : M parsed :=
      _ ← b_puts msg; _ ← destroy_strlst a; _ ← destroy_strlst b; _ ← m_free 1; fail [] curr in
    curr ← eatwhite ptr;
    c ← at_ curr;
    if negb (c =? 40) then error (missing 40) [] [] curr
    else
      r ← read_strlst (tail curr) [46] [44];
      let '(ok, a, curr) := r in
      if negb ok then error syntax_error a [] curr
      else
        curr ← eatwhite curr;
        c ← at_ curr;
        if negb (c =? 44) then error (missing 44) a [] curr
        else
          curr ← eatwhite (tail curr);
          r ← read_strlst curr [46] [41];
          let '(ok, b, curr) := r in
          if negb ok then error syntax_error a b curr
          else
            curr ← eatwhite curr;
            c ← at_ curr;
            if negb (c =? 41) then error (missing 41) a b curr
            else
              curr ← eatwhite (tail curr);
              c ← at_ curr;
              if negb (c =? 59) then error (missing 59) a b curr
              else mret (0, [SB_SET a b], tail curr).

Definition parse_echo (ptr : list Z) : M parsed :=
  curr ← eatwhite ptr;
  ok ← m_malloc;
  if negb ok then _ ← b_puts malloc_error; fail [] curr
  else
    r ← read_strlst curr [46] [59];
    let '(ok, l, curr) := r in
    if negb ok then _ ← b_puts syntax_error; _ ← destroy_strlst l; _ ← m_free 1; fail [] curr
    else
      c ← at_ curr;
      if negb (c =? 59) then _ ← b_puts (missing 59); _ ← destroy_strlst l; _ ← m_free 1; fail [] curr
      else mret (0, [SB_ECHO l], tail curr).

Definition malloc_error_map : list Z := Eval cbv in cs "MALLOC ERROR!!".

(** [parse_map_error]: everything read so far is freed. *)
Definition map_error {A} (msg : list Z) (mptr : option match_t) (node : list strlist_t) (dflt : option match_t)
    (matches : list match_t) (curr : list Z) : M (option A * list Z) :=
  _ ← b_puts msg; _ ← free_match_t mptr; _ ← destroy_strlst node; _ ← free_match_t dflt;
  _ ← destroy_match_list matches; _ ← m_free 1; mret (None, curr).

(** The new default output and list of matches with one more match. *)
Definition add_match (m : match_t) (dflt : option match_t) (matches : list match_t)
  : M (option match_t * list match_t) :=
  match pattern m with
  | [] => _ ← free_match_t (Some m); mret (dflt, matches)
  | s :: _ =>
      star ← (match s with
              | ST_STR None _ => ub
              | ST_STR (Some t) _ => mret (strcmp t [42] =? 0)
              | _ => mret false
              end);
      if (star : bool) then _ ← free_match_t dflt; mret (Some m, matches) else mret (dflt, m :: matches)
  end.

Fixpoint map_loop (fuel : nat) (curr : list Z) (node : list strlist_t) (dflt : option match_t) (matches : list match_t)
  : M (option (option match_t * list match_t) * list Z) :=
  match fuel with
  | O => nofuel
  | S fuel =>
      c ← at_ curr;
      if c =? 0 then mret (Some (dflt, matches), curr)
      else if c =? 41 then mret (Some (dflt, matches), tail curr)
      else if negb (c =? 44) then map_error (missing 44) None node dflt matches curr
      else
        let curr := tail curr in
        ok ← m_malloc;
        if negb ok then map_error malloc_error_map None node dflt matches curr
        else
          r ← read_strlst curr [46] [44];
          let '(ok, pat, curr) := r in
          if negb ok then map_error syntax_error (Some (mkmatch pat [])) node dflt matches curr
          else
            curr ← eatwhite curr;
            c ← at_ curr;
            if negb (c =? 44) then map_error (missing 44) (Some (mkmatch pat [])) node dflt matches curr
            else
              r ← read_strlst (tail curr) [46] [44; 41];
              let '(ok, out, curr) := r in
              if negb ok then map_error syntax_error (Some (mkmatch pat out)) node dflt matches curr
              else
                curr ← eatwhite curr;
                r ← add_match (mkmatch pat out) dflt matches;
                let '(dflt, matches) := r in
                curr ← eatwhite curr;
                map_loop fuel curr node dflt matches
  end.

Definition parse_map (ptr : list Z) : M parsed :=
  ok ← m_malloc;
  if negb ok then _ ← b_puts malloc_error; ub
  else
    curr ← eatwhite ptr;
    c ← at_ curr;
    if negb (c =? 40) then r ← map_error (A := unit) (missing 40) None [] None [] curr; fail [] (snd r)
    else
      r ← read_strlst (tail curr) [46] [44];
      let '(ok, node, curr) := r in
      if negb ok then r ← map_error (A := unit) syntax_error None node None [] curr; fail [] (snd r)
      else
        curr ← eatwhite curr;
        r ← map_loop (S (length curr)) curr node None [];
        match r return M parsed with
        | (None, curr) => fail [] curr
        | (Some (dflt, matches), curr) =>
            curr ← eatwhite curr;
            c ← at_ curr;
            if negb (c =? 59) then
              r ← map_error (A := unit) (missing 59) None node dflt matches curr; fail [] (snd r)
            else mret (0, [SB_MAP node dflt matches], tail curr)
        end.

Definition parse_inclog (ptr : list Z) : M parsed :=
  ok ← m_malloc;
  if negb ok then _ ← b_puts malloc_error; ub
  else
    let error (msg : list Z) (a b : option (list Z)) (curr : list Z) : M parsed :=
      _ ← b_puts msg; _ ← m_free (owned a + owned b + 1); fail [] curr in
    curr ← eatwhite ptr;
    c ← at_ curr;
    if negb (c =? 40) then error (missing_ 40) None None curr
    else
      curr ← eatwhite (tail curr);
      r ← read_string curr 44;
      let '(str, _, curr) := r in
      a ← m_strdup str;
      curr ← eatwhite curr;
      c ← at_ curr;
      if negb (c =? 44) then error (missing_ 44) a None curr
      else
        curr ← eatwhite (tail curr);
        r ← read_string curr 41;
        let '(str, _, curr) := r in
        b ← m_strdup str;
        curr ← eatwhite curr;
        c ← at_ curr;
        if negb (c =? 41) then error (missing_ 41) a b curr
        else
          curr ← eatwhite (tail curr);
          c ← at_ curr;
          if negb (c =? 59) then error (missing_ 59) a b curr
          else mret (0, [SB_INCLOG a b], tail curr).

Definition parse_exit (ptr : list Z) : M parsed :=
  ok ← m_malloc;
  if negb ok then _ ← b_puts malloc_error; fail [] ptr
  else
    curr ← eatwhite ptr;
    c ← at_ curr;
    if negb (c =? 59) then _ ← b_puts (missing_ 59); _ ← m_free 1; fail [] ptr
    else mret (0, [SB_EXIT], tail curr).

(** ** Statements with blocks *)

(** The comparison of a condition and the text behind it. *)
Definition cond_op (curr : list Z) : option (ifop_t * list Z) :=
  if has_prefix [61; 61] curr then Some (IFOP_EQUAL, drop 2 curr)
  else if has_prefix [33; 61] curr then Some (IFOP_NOTEQUAL, drop 2 curr)
  else if has_prefix [60; 61] curr then Some (IFOP_LESSEQUAL, drop 2 curr)
  else if has_prefix [62; 61] curr then Some (IFOP_GREATEREQUAL, drop 2 curr)
  else if has_prefix [62] curr then Some (IFOP_GREATERTHAN, tail curr)
  else if has_prefix [60] curr then Some (IFOP_LESSTHAN, tail curr)
  else None.

Definition cond_next (curr : list Z) : ifnext_t * list Z :=
  if has_prefix [124; 124] curr then (IFNEXT_OR, drop 2 curr)
  else if has_prefix [38; 38] curr then (IFNEXT_AND, drop 2 curr)
  else (IFNEXT_END, curr).

Definition ends_op1 : list Z := Eval cbv in cs "!=<>".
Definition ends_op2 : list Z := Eval cbv in cs "|&)".

(** The end of a failing condition: the entry is freed. *)
Definition cond_error (msg : list Z) (a b : list strlist_t) (curr : list Z) : M (bool * list cond_t * list Z) :=
  _ ← b_puts msg; _ ← destroy_strlst a; _ ← destroy_strlst b; _ ← m_free 1; mret (false, [], curr).

(** The loop on the conditions: whether it succeeds, the conditions in the list, and [curr]. *)
Fixpoint cond_loop (fuel : nat) (curr : list Z) : M (bool * list cond_t * list Z) :=
  match fuel with
  | O => nofuel
  | S fuel =>
      ok ← m_malloc;
      if negb ok then _ ← b_puts malloc_error; mret (false, [], curr)
      else
        curr ← eatwhite curr;
        r ← read_strlst curr arith_ops ends_op1;
        let '(ok, a, curr) := r in
        if negb ok then cond_error syntax_error a [] curr
        else
          curr ← eatwhite curr;
          match cond_op curr return M (bool * list cond_t * list Z) with
          | None => cond_error unknown_operator a [] curr
          | Some (op, curr) =>
              curr ← eatwhite curr;
              r ← read_strlst curr arith_ops ends_op2;
              let '(ok, b, curr) := r in
              if negb ok then cond_error syntax_error a b curr
              else
                curr ← eatwhite curr;
                let '(nx, curr) := cond_next curr in
                let cond := mkcond a b op nx in
                match nx return M (bool * list cond_t * list Z) with
                | IFNEXT_END => mret (true, [cond], curr)
                | _ =>
                    c ← at_ curr;
                    if c =? 0 then mret (true, [cond], curr)
                    else r ← cond_loop fuel curr; let '(ok, l, curr) := r in mret (ok, cond :: l, curr)
                end
          end
  end.

Definition missing_typo : list Z := Eval cbv in cs "SYNATX ERROR: missing ')' !!".
Definition str_else : list Z := Eval cbv in cs "else".
Definition str_if : list Z := Eval cbv in cs "if".

(** [b_puts(curr, outfd)] *)
Definition puts_at (p : list Z) : M unit := if existsb (Z.eqb 0) p then b_puts (cstr p) else ub.

Definition syntax_error3 : list Z := Eval cbv in cs "EPHP: syntax error!!!" ++ [10].
Definition syntax_error4 : list Z := Eval cbv in cs "EPHP: syntax error!!!!" ++ [10].

Section Blocks.
(** The two parsers that call each other: of a block, and of the rest of an [if]. *)
Variables parse_block parse_elseif : list Z -> M parsed.

Definition parse_if_body (ptr : list Z) : M parsed :=
  ok ← m_malloc;
  if negb ok then _ ← b_puts malloc_error; ub
  else
    let error (cs : list cond_t) (t f : list sblock_t) (curr : list Z) : M parsed :=
      _ ← destroy_cond_list cs; _ ← destroy_sblist t; _ ← destroy_sblist f; _ ← m_free 1; fail [] curr in
    curr ← eatwhite ptr;
    c ← at_ curr;
    if negb (c =? 40) then _ ← b_puts (missing 40); error [] [] [] curr
    else
      r ← cond_loop (length curr) (tail curr);
      let '(ok, conds, curr) := r in
      if negb ok then error conds [] [] curr
      else
        curr ← eatwhite curr;
        c ← at_ curr;
        if negb (c =? 41) then _ ← b_puts missing_typo; error conds [] [] curr
        else
          curr ← eatwhite (tail curr);
          c ← at_ curr;
          if negb (c =? 123) then _ ← b_puts (missing 123); error conds [] [] curr
          else
            r ← parse_block (tail curr);
            let '(ret, t, curr) := r in
            if ret <? 0 then error conds t [] curr
            else
              c ← at_ curr;
              if negb (c =? 125) then _ ← b_puts (missing 125); error conds t [] curr
              else
                curr ← eatwhite (tail curr);
                if negb (has_prefix str_else curr) then mret (0, [SB_IF conds t []], curr)
                else
                  curr ← eatwhite (drop 4 curr);
                  c ← at_ curr;
                  if c =? 123 then
                    r ← parse_block (tail curr);
                    let '(ret, f, curr) := r in
                    if ret <? 0 then error conds t f curr
                    else
                      c ← at_ curr;
                      if negb (c =? 125) then _ ← b_puts (missing 125); error conds t f curr
                      else mret (0, [SB_IF conds t f], tail curr)
                  else if has_prefix str_if curr then
                    r ← parse_elseif (drop 2 curr);
                    let '(ret, f, curr) := r in
                    if ret <? 0 then error conds t f curr
                    else mret (0, [SB_IF conds t f], curr)
                  else mret (0, [], curr).

Definition parse_for (ptr : list Z) : M parsed :=
  ok ← m_malloc;
  if negb ok then _ ← b_puts malloc_error; ub
  else
    let error (l : list strlist_t) (b : list sblock_t) (curr : list Z) : M parsed :=
      _ ← destroy_strlst l; _ ← destroy_sblist b; _ ← m_free 1; fail [] curr in
    curr ← eatwhite ptr;
    c ← at_ curr;
    if negb (c =? 40) then _ ← b_puts (missing 40); error [] [] curr
    else
      r ← read_strlst (tail curr) [46] [41];
      let '(ok, l, curr) := r in
      if negb ok then _ ← b_puts syntax_error; error l [] curr
      else
        curr ← eatwhite curr;
        c ← at_ curr;
        if negb (c =? 41) then _ ← b_puts (missing 41); error l [] curr
        else
          curr ← eatwhite (tail curr);
          c ← at_ curr;
          if negb (c =? 123) then _ ← b_puts (missing 123); error l [] curr
          else
            r ← parse_block (tail curr);
            let '(ret, b, curr) := r in
            if ret <? 0 then error l b curr
            else
              c ← at_ curr;
              if negb (c =? 125) then _ ← b_puts (missing 125); error l b curr
              else mret (0, [SB_FOR l b], tail curr).

(** The keywords, in the order in which the code tries them, and the parser behind each. *)
Definition keywords : list (list Z * (list Z -> M parsed)) :=
  [([36], parse_assign);
   (cs "require", parse_require);
   (cs "anchor", parse_anchor);
   (str_queryjs, parse_queryjs);
   (str_query, parse_query);
   (cs "del", parse_del);
   (cs "set", parse_set);
   (cs "echo", parse_echo);
   (cs "map", parse_map);
   (cs "inclog", parse_inclog);
   (str_if, parse_elseif);
   (cs "for", parse_for);
   (cs "exit", parse_exit)].

Fixpoint keyword (l : list (list Z * (list Z -> M parsed))) (curr : list Z) : option (M parsed) :=
  match l with
  | [] => None
  | (k, p) :: tl => if has_prefix k curr then Some (p (drop (length k) curr)) else keyword tl curr
  end.

(** The body of the loop of [parse_ephp], [parse_block] being the turns that follow. *)
Definition parse_ephp_body (ptr : list Z) : M parsed :=
  curr ← eatwhite ptr;
  c ← at_ curr;
  if (c =? 0) || (c =? 125) then mret (0, [], curr)
  else
    match keyword keywords curr return M parsed with
    | None => _ ← b_puts syntax_error3; _ ← puts_at curr; fail [] curr
    | Some p =>
        r ← p;
        let '(ret, l, curr) := r in
        if negb (ret =? 0) then _ ← b_puts syntax_error4; _ ← puts_at curr; fail l curr
        else r ← parse_block curr; let '(ret, l', curr) := r in mret (ret, l ++ l', curr)
    end.
End Blocks.

Fixpoint parse_ephp (fuel : nat) (ptr : list Z) {struct fuel} : M parsed :=
  match fuel with
  | O => nofuel
  | S fuel => parse_ephp_body (parse_ephp fuel) (parse_if fuel) ptr
  end
with parse_if (fuel : nat) (ptr : list Z) {struct fuel} : M parsed :=
  match fuel with
  | O => nofuel
  | S fuel => parse_if_body (parse_ephp fuel) (parse_if fuel) ptr
  end.

(** ** Induction on operands and statements *)

Section Induction.
Context (P : strlist_t -> Prop)
  (HS : forall s op, P (ST_STR s op)) (HV : forall s op, P (ST_VAR s op))
  (HQ : forall js l op, Forall P l -> P (ST_QUERY js l op)).

Fixpoint strlist_ind' (s : strlist_t) : P s :=
  match s with
  | ST_STR s op => HS s op
  | ST_VAR s op => HV s op
  | ST_QUERY js l op =>
      HQ js l op ((fix go (l : list strlist_t) : Forall P l :=
        match l with [] => @List.Forall_nil _ P | x :: tl => @List.Forall_cons _ P x tl (strlist_ind' x) (go tl) end) l)
  end.
End Induction.

Section Induction2.
Context (P : sblock_t -> Prop)
  (Hplain : forall s, match s with SB_IF _ _ _ | SB_FOR _ _ => True | _ => P s end)
  (HI : forall c t f, Forall P t -> Forall P f -> P (SB_IF c t f))
  (HF : forall l b, Forall P b -> P (SB_FOR l b)).

Fixpoint sblock_ind' (s : sblock_t) : P s :=
  let go := fix go (l : list sblock_t) : Forall P l :=
    match l with [] => @List.Forall_nil _ P | x :: tl => @List.Forall_cons _ P x tl (sblock_ind' x) (go tl) end in
  match s return match s with SB_IF _ _ _ | SB_FOR _ _ => True | _ => P s end -> P s with
  | SB_IF c t f => fun _ => HI c t f (go t) (go f)
  | SB_FOR l b => fun _ => HF l b (go b)
  | _ => fun H => H
  end (Hplain s).
End Induction2.

End Ephp.
