(* ===== verification/EphpParse.v ===== *)
(** * The parser of ephp.c: it ends on every text, and it inverts printing.

    The first part is a small program logic for the monad of [Ephp]: [ends Q m] says that [m] does not run
    out of fuel, changes nothing but the heap and the output, and that [Q] holds of its result and of the
    number of blocks it has taken from the heap.  The second part prints statements and shows that the
    parser reads them back. *)
From Stdlib Require Import ZArith Lia Bool String.
From stdpp Require Import base tactics list option numbers.
From S2P Require Import Prelude Xmldb XmldbFile Ephp.

Import Xmldb XmldbFile Ephp.

Module EphpParse.

(** ** A logic for termination *)

Definition w_live (w : world) : Z := live (w_heap w).

(** Everything but the heap and the output is the same, and a heap that does not fail any more stays so. *)
Definition quiet (w w' : world) : Prop :=
  exists h b o, w' = set_out (set_heap w h) b o /\ (avail (w_heap w) = [] -> avail h = []).

Definition ends {A} (Q : A -> Z -> Prop) (m : M A) : Prop := forall w,
  match m w with
  | Ret (a, w') => quiet w w' /\ Q a (w_live w' - w_live w)
  | UB => True
  | NoFuel => False
  end.

Lemma world_eta w : set_out (set_heap w (w_heap w)) (buffer w) (written w) = w.
Proof. by destruct w as [[] ]. Qed.

Lemma quiet_refl w : quiet w w.
Proof. exists (w_heap w), (buffer w), (written w). by rewrite world_eta. Qed.

Lemma quiet_trans w1 w2 w3 : quiet w1 w2 -> quiet w2 w3 -> quiet w1 w3.
Proof. intros (h & b & o & -> & H1) (h' & b' & o' & -> & H2). exists h', b', o'. split; [done|]. intros H. apply H2. exact (H1 H). Qed.

Lemma quiet_heap w h : (avail (w_heap w) = [] -> avail h = []) -> quiet w (set_heap w h).
Proof. intros H. exists h, (buffer w), (written w). split; [by destruct w as [[] ]|done]. Qed.

Lemma quiet_out w b o : quiet w (set_out w b o).
Proof. exists (w_heap w), b, o. split; [by destruct w as [[] ]|done]. Qed.

Lemma ends_ret {A} (Q : A -> Z -> Prop) a : Q a 0 -> ends Q (mret a).
Proof. intros H w. cbn. split; [apply quiet_refl|]. by rewrite Z.sub_diag. Qed.

Lemma ends_ub {A} (Q : A -> Z -> Prop) : ends Q ub.
Proof. by intros w. Qed.

Lemma ends_bind {A B} (P : A -> Z -> Prop) (Q : B -> Z -> Prop) (m : M A) (k : A -> M B) :
  ends P m -> (forall a n, P a n -> ends (fun b n' => Q b (n + n')) (k a)) -> ends Q (a ← m; k a).
Proof.
  intros Hm Hk w. specialize (Hm w). unfold mbind, M_bind. destruct (m w) as [[a w']| |]; [|done|done].
  destruct Hm as [Hq HP]. specialize (Hk a _ HP w'). destruct (k a w') as [[b w'']| |]; [|done|done].
  destruct Hk as [Hq' HQ]. split; [by eapply quiet_trans|].
  by replace (w_live w'' - w_live w) with (w_live w' - w_live w + (w_live w'' - w_live w')) by lia.
Qed.

Lemma ends_weaken {A} (P Q : A -> Z -> Prop) m : ends P m -> (forall a n, P a n -> Q a n) -> ends Q m.
Proof. intros Hm H w. specialize (Hm w). destruct (m w) as [[a w']| |]; [|done|done]. destruct Hm. eauto. Qed.

Lemma ends_lift {A} (o : option A) : ends (fun a n => o = Some a /\ n = 0) (lift o).
Proof. destruct o; [by apply ends_ret|apply ends_ub]. Qed.

Lemma ends_at p : ends (fun c n => head p = Some c /\ n = 0) (at_ p).
Proof. apply ends_lift. Qed.

Lemma ends_malloc : ends (fun ok n => n = if (ok : bool) then 1 else 0) m_malloc.
Proof.
  intros w. unfold m_malloc, malloc.
  destruct (avail (w_heap w)) as [|[] tl] eqn:E; (split; [apply quiet_heap; by rewrite E|]); cbn; unfold w_live, w_heap; lia.
Qed.

Lemma ends_strdup s : ends (fun r n => n = owned r) (m_strdup s).
Proof.
  intros w. unfold m_strdup, strdup, malloc.
  destruct (avail (w_heap w)) as [|[] tl] eqn:E; (split; [apply quiet_heap; by rewrite E|]); cbn; unfold w_live, w_heap; lia.
Qed.

Lemma ends_free k : ends (fun _ n => n = - k) (m_free k).
Proof. intros w. unfold m_free, modify. split; [by apply quiet_heap|]. cbn. unfold w_live, w_heap. lia. Qed.

Lemma live_out w b o : w_live (set_out w b o) = w_live w.
Proof. done. Qed.

Lemma ends_putc c : ends (fun _ n => n = 0) (b_putc c).
Proof.
  intros w. unfold b_putc, mbind, M_bind, modify, get.
  assert (quiet w (put_buffer w c) /\ w_live (put_buffer w c) = w_live w) as [Hq Hl].
  { unfold put_buffer. destruct (_ <? _)%nat; [by split; [apply quiet_out|]|by split; [apply quiet_refl|]]. }
  destruct (_ =? _)%nat; cbn; [|split; [done|]; lia].
  split; [eapply quiet_trans; [exact Hq|apply quiet_out]|]. rewrite live_out. lia.
Qed.

Lemma ends_puts s : ends (fun _ n => n = 0) (b_puts s).
Proof.
  induction s as [|c s IH]; cbn [b_puts]; [by apply ends_ret|].
  eapply ends_bind; [apply ends_putc|]. intros ? n ->. exact IH.
Qed.

Lemma ends_puts_at p : ends (fun _ n => n = 0) (puts_at p).
Proof. unfold puts_at. destruct (existsb _ _); [apply ends_puts|apply ends_ub]. Qed.

(** ** Pointers only move forward *)

Abbreviation behind p q := (suffix q p).

Lemma eat_suffix f s : behind s (eat f s).
Proof. induction s as [|c s IH]; cbn; [done|]. destruct (f c); [by apply suffix_cons_r|done]. Qed.

Lemma tail_suffix (p : list Z) : behind p (tail p).
Proof. destruct p; [done|]. by apply suffix_cons_r. Qed.

Lemma drop_suffix n (p : list Z) : behind p (drop n p).
Proof. exists (take n p). by rewrite take_drop. Qed.

Lemma ends_eatwhite p : ends (fun q n => behind p q /\ q <> [] /\ n = 0) (eatwhite p).
Proof.
  unfold eatwhite. pose proof (eat_suffix IS_WHITE p : behind p (xmldb_eatwhite p)) as H.
  destruct (xmldb_eatwhite p) as [|c q]; [apply ends_ub|]. by apply ends_ret.
Qed.

Lemma quoted_suffix msg : forall acc a m, quoted msg acc = Some (a, m) -> behind msg m.
Proof.
  induction msg as [msg IH] using (induction_ltof1 _ (@length Z)). unfold ltof in IH.
  destruct msg as [|c tl]; intros acc a m; cbn [quoted]; [done|].
  destruct (_ || _); [by intros [= _ <-]|].
  destruct (_ <? _)%nat.
  - destruct (c =? 92).
    + destruct tl as [|c' tl]; [done|]. intros H. apply IH in H; [|cbn; lia]. by do 2 apply suffix_cons_r.
    + intros H. apply IH in H; [|cbn; lia]. by apply suffix_cons_r.
  - intros H. apply IH in H; [|cbn; lia]. by apply suffix_cons_r.
Qed.

Lemma unquoted_suffix ends msg : forall acc a m, unquoted ends msg acc = Some (a, m) -> behind msg m.
Proof.
  induction msg as [|c tl IH]; intros acc a m; cbn [unquoted]; [done|].
  destruct (_ || _); [by intros [= _ <-]|]. destruct (negb _); [by intros [= _ <-]|].
  intros H. apply suffix_cons_r. by eapply IH.
Qed.

Lemma ends_read_string message pat :
  ends (fun r n => behind message (snd r) /\ n = 0) (read_string_ex message pat).
Proof.
  unfold read_string_ex. eapply ends_bind; [apply ends_at|]. intros c n [_ ->]. destruct (c =? 34).
  - eapply ends_bind; [apply ends_lift|]. intros [acc msg] n [Hq ->]. apply quoted_suffix in Hq.
    eapply ends_bind; [apply ends_at|]. intros c' n [_ ->].
    destruct (c' =? 34); apply ends_ret; (split; [|lia]); cbn [snd]; [|done].
    etrans; [apply tail_suffix|]. etrans; [exact Hq|]. apply tail_suffix.
  - eapply ends_bind; [apply ends_lift|]. intros [acc msg] n [Hq ->]. apply unquoted_suffix in Hq.
    by apply ends_ret.
Qed.

(** ** Automation: run a program statement by statement *)

Create HintDb ephp discriminated.
#[export] Hint Resolve ends_lift ends_at ends_malloc ends_strdup ends_free ends_putc ends_puts ends_puts_at
  ends_eatwhite ends_read_string : ephp.

Ltac tidy :=
  repeat match goal with
  | x : _ * _ |- _ => destruct x
  | H : (fun _ _ => _) _ _ |- _ => cbv beta in H
  | H : context [let '(_, _) := (_, _) in _] |- _ => cbn beta iota in H
  | H : _ /\ _ |- _ => destruct H
  | H : negb _ = true |- _ => apply negb_true_iff in H
  | H : negb _ = false |- _ => apply negb_false_iff in H
  end; cbn beta iota in *; cbn [fst snd] in *; subst.

Ltac bind_with L := eapply ends_bind; [eapply L | intros ? ? ?; tidy].

Ltac step :=
  lazymatch goal with
  | |- ends _ (mret _) => apply ends_ret
  | |- ends _ ub => apply ends_ub
  | |- ends _ (fail _ _) => apply ends_ret
  | |- ends _ (mbind _ _) => eapply ends_bind; [solve [eauto with ephp] | intros ? ? ?; tidy]
  | |- ends _ (match ?x with _ => _ end) => destruct x eqn:?; tidy
  end.

Ltac chain := cbn [fst snd];
  repeat match goal with
  | |- behind _ (tail _) => etrans; [apply tail_suffix|]
  | |- behind _ (drop _ _) => etrans; [apply drop_suffix|]
  | |- behind ?a ?a => reflexivity
  | H : behind ?a ?b |- behind _ ?b => etrans; [exact H|]
  end; try done.

Lemma length_behind (p q : list Z) : behind p q -> (length q <= length p)%nat.
Proof. apply suffix_length. Qed.

Lemma length_tail_lt (p : list Z) : p <> [] -> (length (tail p) < length p)%nat.
Proof. destruct p; [done|]. cbn. lia. Qed.

Lemma length_tail_le (p : list Z) : (length (tail p) <= length p)%nat.
Proof. destruct p; cbn; lia. Qed.

Ltac note_tail p :=
  lazymatch goal with
  | _ : (length (tail p) <= length p)%nat |- _ => fail
  | _ : (length (tail p) < length p)%nat |- _ => fail
  | _ => pose proof (length_tail_le p)
  end.

(** Lengths of texts, from the order of the pointers. *)
Ltac lengths :=
  repeat match goal with
  | H : behind _ _ |- _ => apply length_behind in H
  | H : ?p <> [] |- _ => apply length_tail_lt in H
  end; rewrite ?length_drop in *;
  repeat match goal with
  | |- context [length (tail ?p)] => note_tail p
  | _ : context [length (tail ?p)] |- _ => note_tail p
  end; lia.

Lemma set_sl_op_blocks s c : strlst_blocks1 (set_sl_op s c) = strlst_blocks1 s.
Proof. by destruct s. Qed.

Lemma strlst_blocks_cons s l : strlst_blocks (s :: l) = strlst_blocks1 s + strlst_blocks l.
Proof. done. Qed.

(** The operands taken are in the list, whether or not the reading succeeds. *)
Definition strlst_post (message : list Z) (r : bool * list strlist_t * list Z) (n : Z) : Prop :=
  behind message (snd r) /\ n = strlst_blocks (snd (fst r)).

Lemma strlst_loop_ends fuel : forall message curr ops pat,
  (length curr < fuel)%nat -> behind message curr ->
  ends (strlst_post message) (strlst_loop fuel message curr ops pat).
Proof.
  induction fuel as [|fuel IH]; intros message curr ops pat Hf Hm; [lia|]. cbn [strlst_loop].
  step. rename a into curr1. step. step; [by step; split; [chain|]|].
  step. step; [step; split; [done|]; cbn; lia|].
  eapply (ends_bind (fun e n => match e with
    | (None, c) => behind curr1 c /\ n = -1
    | (Some s, c) => behind curr1 c /\ n = strlst_blocks1 s - 1 end)).
  - unfold read_operand. step.
    + step. step. step; [step; step; split; [chain|lia]|]. step.
      eapply ends_bind; [apply IH; [lengths|reflexivity]|]. intros [[ok l] c] n [Hc Hn]; cbn [fst snd] in *.
      unfold destroy_strlst. step; [step; step; step; split; [chain|lia]|].
      step. step; [step; step; step; split; [chain|lia]|]. step. split; [chain|]. cbn [strlst_blocks1].
      subst. unfold strlst_blocks. lia.
    + step. step; step; step; (split; [done|]); cbn [strlst_blocks1]; lia.
  - intros [[s|] c'] n Hn; cbn beta iota in Hn; destruct Hn as [Hc Hn].
    + step. step. step; [step; split; [chain|]; cbn; lia|]. step.
      * step. split; [chain|]. cbn [fst snd]. rewrite strlst_blocks_cons, set_sl_op_blocks. cbn [strlst_blocks foldr]. lia.
      * eapply ends_bind; [apply (IH message); [lengths|chain]|].
        intros [[ok l] c''] n' [Hc' Hn']; cbn [fst snd] in *. step. split; [done|].
        cbn [fst snd]. rewrite strlst_blocks_cons, set_sl_op_blocks. lia.
    + step. split; [chain|]. cbn. lia.
Qed.

Lemma ends_read_strlst message ops pat : ends (strlst_post message) (read_strlst message ops pat).
Proof. apply strlst_loop_ends; [lia|done]. Qed.

#[export] Hint Resolve ends_read_strlst : ephp.

Lemma ends_destroy_strlst l : ends (fun _ n => n = - strlst_blocks l) (destroy_strlst l).
Proof. apply ends_free. Qed.

Lemma ends_free_match m : ends (fun _ n => n = - from_option match_blocks 0 m) (free_match_t m).
Proof. destruct m; [apply ends_free|by apply ends_ret]. Qed.

Lemma ends_destroy_matches l : ends (fun _ n => n = - matches_blocks l) (destroy_match_list l).
Proof. apply ends_free. Qed.

Lemma ends_destroy_conds l : ends (fun _ n => n = - conds_blocks l) (destroy_cond_list l).
Proof. apply ends_free. Qed.

Lemma ends_destroy_sblist l : ends (fun _ n => n = - sblist_blocks l) (destroy_sblist l).
Proof. apply ends_free. Qed.

#[export] Hint Resolve ends_destroy_strlst ends_free_match ends_destroy_matches ends_destroy_conds
  ends_destroy_sblist : ephp.

(** What a parser promises: it stops within the text, and the statements it added have taken no more than
    what it holds; what [destroy_sblist] forgets may be left over. *)
Definition parsed_post (ptr : list Z) (r : parsed) (n : Z) : Prop :=
  behind ptr (snd r) /\ (fst (fst r) = 0 \/ fst (fst r) = -1) /\ sblist_blocks (snd (fst r)) <= n.

Lemma sblist_blocks_1 s : sblist_blocks [s] = sblock_blocks s.
Proof. cbn. lia. Qed.

Lemma strlst_blocks1_nonneg s : 0 <= strlst_blocks1 s.
Proof.
  revert s. fix IH 1. intros [[?|] ?|[?|] ?|js l op]; [cbn; lia..|]. cbn [strlst_blocks1].
  assert (0 <= foldr (fun x n => strlst_blocks1 x + n) 0 l); [|lia].
  induction l as [|x l IHl]; cbn; [lia|]. specialize (IH x). lia.
Qed.

Lemma strlst_blocks_nonneg l : 0 <= strlst_blocks l.
Proof.
  induction l as [|x l IH]; [done|]. rewrite strlst_blocks_cons. pose proof (strlst_blocks1_nonneg x). lia.
Qed.

(** The end of a parser: the pointer, the result, and the memory. *)
Ltac finish :=
  step; unfold strlst_post in *; tidy; cbn [fst snd] in *; subst;
  (split; [chain|split; [auto|]]); cbn [fst snd];
  rewrite ?sblist_blocks_1; cbn [sblock_blocks sblist_blocks foldr owned from_option];
  change (strlst_blocks []) with 0 in *; change (matches_blocks []) with 0 in *; change (conds_blocks []) with 0 in *;
  repeat match goal with |- context [strlst_blocks ?l] =>
    lazymatch goal with H : 0 <= strlst_blocks l |- _ => fail | _ => pose proof (strlst_blocks_nonneg l) end end;
  lia.

Lemma ends_one_strlst ptr :
  ends (fun r n => behind ptr (snd r) /\ (fst (fst r) = 0 \/ fst (fst r) = -1) /\ n = strlst_blocks (snd (fst r)))
       (parse_one_strlst ptr).
Proof.
  unfold parse_one_strlst. do 3 step; [step; finish|]. step. step; [step; finish|].
  do 3 step; [step; finish|]. do 3 step; [step; finish|]. finish.
Qed.
#[export] Hint Resolve ends_one_strlst : ephp.

Lemma ends_parse_one mk ptr :
  (forall l, sblock_blocks (mk l) = 1 + strlst_blocks l) -> ends (parsed_post ptr) (parse_one mk ptr).
Proof.
  intros Hmk. unfold parse_one. do 2 step; [step; finish|]. step. step; [step; step; finish|].
  step. split; [chain|]. split; [auto|]. cbn [fst snd]. rewrite sblist_blocks_1, Hmk. lia.
Qed.

Lemma assign_op_behind curr op q : assign_op curr = Some (op, q) -> behind curr q.
Proof. unfold assign_op. intros H. repeat (destruct (has_prefix _ _)); inv_opt; apply drop_suffix || apply tail_suffix. Qed.

Lemma ends_parse_assign ptr : ends (parsed_post ptr) (parse_assign ptr).
Proof.
  unfold parse_assign. do 2 step; [step; step|]. step. step; [step; step; finish|]. do 3 step.
  - match goal with H : assign_op _ = _ |- _ => apply assign_op_behind in H end. step. step. step; [do 4 step; finish|]. do 2 step; [do 4 step; finish|]. finish.
  - step. step. finish.
Qed.

Lemma ends_parse_set ptr : ends (parsed_post ptr) (parse_set ptr).
Proof.
  unfold parse_set. do 2 step; [step; step|]. do 3 step; [do 4 step; finish|].
  step. step; [do 4 step; finish|]. do 3 step; [do 4 step; finish|].
  do 2 step. step; [do 4 step; finish|]. do 3 step; [do 4 step; finish|]. do 3 step; [do 4 step; finish|]. finish.
Qed.

Lemma ends_parse_echo ptr : ends (parsed_post ptr) (parse_echo ptr).
Proof.
  unfold parse_echo. do 3 step; [step; finish|]. step. step; [do 3 step; finish|].
  do 2 step; [do 3 step; finish|]. finish.
Qed.

Lemma ends_map_error {A} msg mptr node dflt ms curr :
  ends (fun (r : option A * list Z) n => fst r = None /\ snd r = curr /\
          n = - (from_option match_blocks 0 mptr + strlst_blocks node + from_option match_blocks 0 dflt + matches_blocks ms + 1))
       (map_error msg mptr node dflt ms curr).
Proof. unfold map_error. do 7 step. cbn [fst snd]. repeat split; lia. Qed.
#[export] Hint Resolve ends_map_error : ephp.

Lemma ends_add_match m dflt ms :
  ends (fun r n => n = from_option match_blocks 0 (fst r) + matches_blocks (snd r)
                       - (from_option match_blocks 0 dflt + matches_blocks ms + match_blocks m))
       (add_match m dflt ms).
Proof.
  unfold add_match. destruct (pattern m) as [|s l].
  - step. step. cbn [from_option fst snd]. lia.
  - eapply (ends_bind (fun _ n => n = 0)).
    { destruct s as [[t|] ?| |]; step; lia. }
    intros [] n ->; [step|]; step; cbn [from_option fst snd matches_blocks foldr]; unfold matches_blocks; lia.
Qed.
#[export] Hint Resolve ends_add_match : ephp.

(** In an error everything is given back, the node and the statement too. *)
Definition map_post (curr : list Z) (node : list strlist_t) (old : Z)
    (r : option (option match_t * list match_t) * list Z) (n : Z) : Prop :=
  behind curr (snd r) /\
  n = match fst r with
      | Some (d, ms) => from_option match_blocks 0 d + matches_blocks ms - old
      | None => - (old + strlst_blocks node + 1)
      end.

Lemma match_blocks_eq p o : match_blocks (mkmatch p o) = strlst_blocks p + strlst_blocks o + 1.
Proof. done. Qed.

Ltac map_arith := unfold strlst_post in *; tidy; cbn [fst snd] in *; subst; split; [chain|]; cbn [fst snd];
  cbn [from_option]; rewrite ?match_blocks_eq; change (strlst_blocks []) with 0 in *; try lia.

Ltac map_fail := eapply ends_weaken; [apply ends_map_error|]; intros ? ? (? & ? & ?); map_arith.

Lemma map_loop_ends fuel : forall curr node dflt ms, (length curr < fuel)%nat ->
  ends (map_post curr node (from_option match_blocks 0 dflt + matches_blocks ms)) (map_loop fuel curr node dflt ms).
Proof.
  induction fuel as [|fuel IH]; intros curr node dflt ms Hf; [lia|]. cbn [map_loop].
  step. step; [step; map_arith|]. step; [step; map_arith|]. step; [map_fail|].
  step. step; [map_fail|]. step. step; [map_fail|]. do 3 step; [map_fail|].
  step. step; [map_fail|]. step. step. step.
  eapply ends_weaken; [apply IH; unfold strlst_post in *; tidy; lengths|]. intros [r c'] n' [Hc Hn]. map_arith.
  destruct r as [[]|]; lia.
Qed.

Lemma ends_parse_map ptr : ends (parsed_post ptr) (parse_map ptr).
Proof.
  unfold parse_map. do 2 step; [step; step|]. do 3 step; [step; finish|]. step. step; [step; finish|]. step.
  eapply ends_bind; [apply map_loop_ends; lia|]. intros [[[d ms]|] c] n' [Hc Hn]; cbn [fst snd from_option] in *.
  - do 3 step; [step; finish|]. finish.
  - change (matches_blocks []) with 0 in *. finish.
Qed.

Lemma ends_read_string1 message e : ends (fun r n => behind message (snd r) /\ n = 0) (read_string message e).
Proof. apply ends_read_string. Qed.
#[export] Hint Resolve ends_read_string1 : ephp.

Lemma ends_parse_inclog ptr : ends (parsed_post ptr) (parse_inclog ptr).
Proof.
  unfold parse_inclog. do 2 step; [step; step|]. do 3 step; [do 2 step; finish|].
  do 5 step. step; [do 2 step; finish|]. do 5 step. step; [do 2 step; finish|].
  do 3 step; [do 2 step; finish|]. finish.
Qed.

Lemma ends_parse_exit ptr : ends (parsed_post ptr) (parse_exit ptr).
Proof. unfold parse_exit. do 2 step; [step; finish|]. do 3 step; [do 2 step; finish|]. finish. Qed.

Lemma cond_op_behind curr op q : cond_op curr = Some (op, q) -> behind curr q.
Proof. unfold cond_op. intros H. repeat (destruct (has_prefix _ _)); inv_opt; apply drop_suffix || apply tail_suffix. Qed.

Lemma cond_next_behind curr : behind curr (snd (cond_next curr)).
Proof. unfold cond_next. repeat (destruct (has_prefix _ _)); cbn [snd]; try apply drop_suffix; done. Qed.

(** The text is shorter behind an operator. *)
Lemma cond_op_shorter curr op q : cond_op curr = Some (op, q) -> (length q < length curr)%nat.
Proof.
  unfold cond_op. destruct curr as [|c curr]; [done|]. intros H.
  repeat (destruct (has_prefix _ _)); inv_opt; cbn [tail]; rewrite ?length_drop; cbn [length]; lia.
Qed.

Definition cond_post (curr : list Z) (r : bool * list cond_t * list Z) (n : Z) : Prop :=
  behind curr (snd r) /\ n = conds_blocks (snd (fst r)).

Lemma ends_cond_error msg a b curr :
  ends (fun r n => snd r = curr /\ snd (fst r) = [] /\ n = - (strlst_blocks a + strlst_blocks b + 1)) (cond_error msg a b curr).
Proof. unfold cond_error. do 5 step. cbn [fst snd]. repeat split. lia. Qed.

Lemma conds_blocks_cons c l : conds_blocks (c :: l) = strlst_blocks (operand1 c) + strlst_blocks (operand2 c) + 1 + conds_blocks l.
Proof. done. Qed.

Ltac cond_arith := unfold strlst_post, cond_post in *; tidy; cbn [fst snd] in *; subst; split; [chain|];
  cbn [fst snd]; rewrite ?conds_blocks_cons; cbn [operand1 operand2];
  change (strlst_blocks []) with 0 in *; change (conds_blocks []) with 0 in *; try lia.
Ltac cond_fail := eapply ends_weaken; [apply ends_cond_error|]; intros ? ? (? & ? & ?); cond_arith.

Lemma cond_loop_ends fuel : forall curr, (length curr < fuel)%nat -> ends (cond_post curr) (cond_loop fuel curr).
Proof.
  induction fuel as [|fuel IH]; intros curr Hf; [lia|]. cbn [cond_loop].
  do 2 step; [step; step; cond_arith|]. do 2 step. step; [cond_fail|]. do 2 step; [|cond_fail].
  match goal with H : cond_op _ = _ |- _ => pose proof (cond_op_shorter _ _ _ H); apply cond_op_behind in H end.
  do 2 step. step; [cond_fail|]. step.
  match goal with |- context [cond_next ?c] => pose proof (cond_next_behind c); destruct (cond_next c) as [nx c'] end.
  cbn [snd] in *.
  assert (length c' < fuel)%nat by (unfold strlst_post in *; tidy; lengths).
  destruct nx; [step; cond_arith|..]; (step; step; [step; cond_arith|]); bind_with IH; try done; step; cond_arith.
Qed.
#[export] Hint Resolve cond_loop_ends : ephp.

Lemma matches_blocks_nonneg l : 0 <= matches_blocks l.
Proof.
  induction l as [|x l IH]; [done|]. unfold matches_blocks, match_blocks in *. cbn [foldr].
  pose proof (strlst_blocks_nonneg (pattern x)). pose proof (strlst_blocks_nonneg (output x)). lia.
Qed.

Lemma conds_blocks_nonneg l : 0 <= conds_blocks l.
Proof.
  induction l as [|x l IH]; [done|]. rewrite conds_blocks_cons.
  pose proof (strlst_blocks_nonneg (operand1 x)). pose proof (strlst_blocks_nonneg (operand2 x)). lia.
Qed.

Lemma owned_nonneg (s : option (list Z)) : 0 <= owned s.
Proof. destruct s; cbn; lia. Qed.

Lemma sblock_blocks_if c t f : sblock_blocks (SB_IF c t f) = 1 + (conds_blocks c + sblist_blocks t + sblist_blocks f).
Proof. done. Qed.

Lemma sblock_blocks_for l b : sblock_blocks (SB_FOR l b) = 1 + (strlst_blocks l + sblist_blocks b).
Proof. done. Qed.

Lemma sblist_blocks_app a b : sblist_blocks (a ++ b) = sblist_blocks a + sblist_blocks b.
Proof. induction a as [|x a IH]; [done|]. cbn [app]. unfold sblist_blocks in *. cbn [foldr]. lia. Qed.

Lemma sblist_nonneg l : Forall (fun s => 0 <= sblock_blocks s) l -> 0 <= sblist_blocks l.
Proof. induction 1 as [|x l Hx _ IH]; [done|]. unfold sblist_blocks in *. cbn [foldr]. lia. Qed.

Lemma sblock_blocks_nonneg s : 0 <= sblock_blocks s.
Proof.
  revert s. apply sblock_ind'; [intros s|intros c t f H H0|intros l b H].
  - destruct s; try done; cbn [sblock_blocks];
      repeat match goal with
      | |- context [strlst_blocks ?l] => unless (0 <= strlst_blocks l) by assumption; pose proof (strlst_blocks_nonneg l)
      | |- context [matches_blocks ?l] => unless (0 <= matches_blocks l) by assumption; pose proof (matches_blocks_nonneg l)
      | |- context [owned ?l] => unless (0 <= owned l) by assumption; pose proof (owned_nonneg l)
      end; try lia.
    destruct default_output as [[a b]|]; cbn [from_option]; [rewrite match_blocks_eq|lia].
    pose proof (strlst_blocks_nonneg a). pose proof (strlst_blocks_nonneg b). lia.
  - rewrite sblock_blocks_if. apply sblist_nonneg in H, H0. pose proof (conds_blocks_nonneg c). lia.
  - rewrite sblock_blocks_for. apply sblist_nonneg in H. pose proof (strlst_blocks_nonneg l). lia.
Qed.

Lemma sblist_blocks_nonneg l : 0 <= sblist_blocks l.
Proof. apply sblist_nonneg. induction l; constructor; [apply sblock_blocks_nonneg|done]. Qed.

Section Blocks.
Variables (fuel : nat) (block elseif : list Z -> M parsed).
Hypothesis block_ends : forall ptr, (length ptr < fuel)%nat -> ends (parsed_post ptr) (block ptr).
Hypothesis elseif_ends : forall ptr, (length ptr < fuel)%nat -> ends (parsed_post ptr) (elseif ptr).

Ltac posts := unfold parsed_post, cond_post, strlst_post in *; tidy; cbn [fst snd] in *.

Ltac bind_block := eapply ends_bind; [apply block_ends; posts; lengths | intros ? ? ?; posts].

(** The end of a statement with blocks. *)
Ltac close :=
  step; posts; (split; [chain|split; [auto|]]); cbn [fst snd];
  rewrite ?sblist_blocks_1, ?sblock_blocks_if, ?sblock_blocks_for;
  change (strlst_blocks []) with 0 in *; change (conds_blocks []) with 0 in *; change (sblist_blocks []) with 0 in *;
  repeat match goal with
  | |- context [strlst_blocks ?l] => unless (0 <= strlst_blocks l) by assumption; pose proof (strlst_blocks_nonneg l)
  | |- context [conds_blocks ?l] => unless (0 <= conds_blocks l) by assumption; pose proof (conds_blocks_nonneg l)
  | _ : sblist_blocks ?l <= _ |- _ => unless (0 <= sblist_blocks l) by assumption; pose proof (sblist_blocks_nonneg l)
  end; lia.

Lemma ends_if_body ptr : (length ptr <= fuel)%nat -> ends (parsed_post ptr) (parse_if_body block elseif ptr).
Proof using block_ends elseif_ends.
  intros Hf. unfold parse_if_body. do 2 step; [step; step|]. do 3 step; [do 5 step; close|].
  eapply ends_bind; [apply cond_loop_ends; by apply length_tail_lt | intros ? ? ?; posts].
  step; [do 4 step; close|]. do 3 step; [do 5 step; close|]. do 3 step; [do 5 step; close|].
  bind_block. step; [do 4 step; close|]. do 2 step; [do 5 step; close|]. do 2 step; [close|].
  do 3 step.
  - bind_block. step; [do 4 step; close|]. do 2 step; [do 5 step; close|]. close.
  - step; [|close]. eapply ends_bind; [apply elseif_ends; posts; lengths | intros ? ? ?; posts].
    step; [do 4 step; close|]. close.
Qed.

Lemma ends_parse_for ptr : (length ptr <= fuel)%nat -> ends (parsed_post ptr) (parse_for block ptr).
Proof using block_ends.
  intros Hf. unfold parse_for. do 2 step; [step; step|]. do 3 step; [do 4 step; close|].
  step. posts. step; [do 4 step; close|]. do 3 step; [do 4 step; close|]. do 3 step; [do 4 step; close|].
  bind_block. step; [do 3 step; close|]. do 2 step; [do 4 step; close|]. close.
Qed.

Lemma keyword_ends l curr p :
  Forall (fun kp => fst kp <> [] /\ forall ptr, (length ptr < fuel)%nat -> ends (parsed_post ptr) (snd kp ptr)) l ->
  (length curr <= fuel)%nat -> keyword l curr = Some p -> exists q, behind curr q /\ (length q < length curr)%nat /\ ends (parsed_post q) p.
Proof using Type.
  intros Hl Hf. induction Hl as [|[k f] l [Hk He] _ IH]; cbn [keyword]; [done|].
  destruct (has_prefix k curr) eqn:Ek; [|done]. intros [= <-]. cbn [fst snd] in *.
  exists (drop (length k) curr).
  assert (length (drop (length k) curr) < length curr)%nat.
  { rewrite length_drop. destruct k, curr; cbn [length has_prefix] in *; (done || lia). }
  split; [apply drop_suffix|]. split; [done|]. apply He. lia.
Qed.

Lemma ends_ephp_body ptr : (length ptr <= fuel)%nat -> ends (parsed_post ptr) (parse_ephp_body block elseif ptr).
Proof using block_ends elseif_ends.
  intros Hf. unfold parse_ephp_body. do 3 step; [close|].
  destruct (keyword _ _) as [p|] eqn:Ek; [|do 2 step; close].
  apply keyword_ends in Ek as (q & Hq & Hlt & Hp).
  - eapply ends_bind; [exact Hp|]. intros ? ? ?. posts. step; [do 2 step; close|].
    bind_block. step. posts. split; [chain|]. split; [done|]. rewrite sblist_blocks_app. lia.
  - unfold keywords. repeat (apply Forall_cons; [cbn [fst snd]; split; [discriminate|]; intros ptr' Hl|]); [..|constructor];
      auto using ends_parse_assign, ends_parse_set, ends_parse_echo, ends_parse_map, ends_parse_inclog, ends_parse_exit;
      try (apply ends_parse_one; done). apply ends_parse_for. lia.
  - lengths.
Qed.
End Blocks.

Lemma parsers_end fuel :
  (forall ptr, (length ptr < fuel)%nat -> ends (parsed_post ptr) (parse_ephp fuel ptr)) /\
  (forall ptr, (length ptr < fuel)%nat -> ends (parsed_post ptr) (parse_if fuel ptr)).
Proof.
  induction fuel as [|fuel [IH1 IH2]]; [split; intros; lia|].
  split; intros ptr Hf; cbn [parse_ephp parse_if]; [eapply ends_ephp_body|eapply ends_if_body]; eauto; lia.
Qed.

(** C27. Parsing a program ends on every text and under every behaviour of the heap: with as much fuel as the
    text has bytes, and one more, the parser does not run out of it.  It either leaves the text, which is
    undefined, or returns 0 or -1 with its pointer still in the text it was given; it has then changed nothing
    but the heap and the output, and holds at least the memory of the statements it returns, so that
    [destroy_sblist] frees nothing twice. *)
Theorem parse_ephp_ends (fuel : nat) (ptr : list Z) (w : world) : (length ptr < fuel)%nat ->
  match parse_ephp fuel ptr w with
  | Ret (ret, l, curr, w') =>
      (exists read, ptr = read ++ curr) /\ (ret = 0 \/ ret = -1) /\
      (exists h b o, w' = set_out (set_heap w h) b o) /\ w_live w + sblist_blocks l <= w_live w'
  | UB => True
  | NoFuel => False
  end.
Proof.
  intros Hf. pose proof (proj1 (parsers_end fuel) ptr Hf w) as H.
  destruct (parse_ephp fuel ptr w) as [[[[ret l] curr] w']| |]; [|done|done].
  destruct H as [Hq (Hs & Hr & Hb)]. cbn [fst snd] in *. destruct Hq as (h & b & o & Hw & _).
  repeat split; [exact Hs|exact Hr|by exists h, b, o|lia].
Qed.

Lemma parse_ephp_ends_witness :
  match parse_ephp 9 (cs "echo x;" ++ [0]) (mkw (mkdb (mknode [] 0 None None []) (mkheap [] 0) []) [] [] [] Null [] None 0 0) with
  | Ret (ret, l, curr, w') => (exists read, cs "echo x;" ++ [0] = read ++ curr) /\ (ret = 0 \/ ret = -1) /\
      (exists h b o, w' = set_out (set_heap (mkw (mkdb (mknode [] 0 None None []) (mkheap [] 0) []) [] [] [] Null [] None 0 0) h) b o) /\
      w_live (mkw (mkdb (mknode [] 0 None None []) (mkheap [] 0) []) [] [] [] Null [] None 0 0) + sblist_blocks l <= w_live w'
  | UB => True
  | NoFuel => False
  end.
Proof. apply (parse_ephp_ends 9 (cs "echo x;" ++ [0])). cbn. lia. Defined.

(** ** Printing *)

Definition print_char (c : Z) : list Z :=
  if c =? 34 then [92; 34] else if c =? 92 then [92; 92] else if c =? 10 then [92; 110] else [c].

Definition print_str (s : list Z) : list Z := 34 :: flat_map print_char s ++ [34].

Definition sl_op (s : strlist_t) : Z := match s with ST_STR _ op | ST_VAR _ op | ST_QUERY _ _ op => op end.

Definition print_op (op : Z) : list Z := if op =? 0 then [] else [op].

Fixpoint print_operand (s : strlist_t) : list Z :=
  match s with
  | ST_STR t op => print_str (default [] t) ++ print_op op
  | ST_VAR v op => 36 :: default [] v ++ print_op op
  | ST_QUERY js l op => (if js then str_queryjs else str_query) ++ 40 :: flat_map print_operand l ++ 41 :: print_op op
  end.

Definition print_expr (l : list strlist_t) : list Z := flat_map print_operand l.

Definition print_aop (op : aop_t) : list Z :=
  match op with
  | AOP_ASSIGN => [61] | AOP_ADD => [43; 61] | AOP_SUB => [45; 61] | AOP_INCREASE => [43; 43] | AOP_DECREASE => [45; 45]
  end.

Definition print_ifop (op : ifop_t) : list Z :=
  match op with
  | IFOP_EQUAL => [61; 61] | IFOP_NOTEQUAL => [33; 61] | IFOP_GREATERTHAN => [62] | IFOP_LESSTHAN => [60]
  | IFOP_GREATEREQUAL => [62; 61] | IFOP_LESSEQUAL => [60; 61]
  end.

Definition print_next (n : ifnext_t) : list Z :=
  match n with IFNEXT_END => [] | IFNEXT_AND => [38; 38] | IFNEXT_OR => [124; 124] end.

Definition print_cond (c : cond_t) : list Z :=
  print_expr (operand1 c) ++ print_ifop (if_op c) ++ print_expr (operand2 c) ++ print_next (next c).

Definition print_match (m : match_t) : list Z := 44 :: print_expr (pattern m) ++ 44 :: print_expr (output m).

(** The text of a statement, with the alternatives of a [map] in the order of the text. *)
Fixpoint print_sblock (s : sblock_t) : list Z :=
  match s with
  | SB_REQUIRE l => cs "require(" ++ print_expr l ++ [41; 59]
  | SB_ANCHOR l => cs "anchor(" ++ print_expr l ++ [41; 59]
  | SB_QUERY js l => (if js then str_queryjs else str_query) ++ 40 :: print_expr l ++ [41; 59]
  | SB_DEL l => cs "del(" ++ print_expr l ++ [41; 59]
  | SB_SET a b => cs "set(" ++ print_expr a ++ 44 :: print_expr b ++ [41; 59]
  | SB_ECHO l => cs "echo " ++ print_expr l ++ [59]
  | SB_ASSIGN op v l => 36 :: default [] v ++ print_aop op ++ print_expr l ++ [59]
  | SB_MAP node d ms =>
      cs "map(" ++ print_expr node ++ from_option print_match [] d ++ flat_map print_match (rev ms) ++ [41; 59]
  | SB_INCLOG a b => cs "inclog(" ++ print_str (default [] a) ++ 44 :: print_str (default [] b) ++ [41; 59]
  | SB_IF c t f =>
      cs "if(" ++ flat_map print_cond c ++ cs "){" ++ flat_map print_sblock t ++ cs "}else{" ++
      flat_map print_sblock f ++ [125]
  | SB_FOR l b => cs "for(" ++ print_expr l ++ cs "){" ++ flat_map print_sblock b ++ [125]
  | SB_EXIT => cs "exit;"
  end.

Definition print_sblist (l : list sblock_t) : list Z := flat_map print_sblock l.

(** ** Statements that can be written *)

Definition name_char (c : Z) : bool :=
  isdigit c || ((65 <=? c) && (c <=? 90)) || ((97 <=? c) && (c <=? 122)) || (c =? 95) || (c =? 35).

Definition str_ok (s : option (list Z)) : bool :=
  match s with
  | Some s => forallb (fun c => (0 <? c) && (c <? 256)) s && (length s <? MAX_STRING_LEN)%nat
  | None => false
  end.

Definition var_ok (s : option (list Z)) : bool :=
  match s with Some s => forallb name_char s && (length s <? MAX_STRING_LEN - 1)%nat | None => false end.

(** Operators between the operands, and none behind the last. *)
Fixpoint ops_ok (ops l : list Z) : bool :=
  match l with
  | [] => false
  | [c] => c =? 0
  | c :: tl => negb (find_pattern c ops =? 0) && ops_ok ops tl
  end.

Fixpoint operand_ok (s : strlist_t) : bool :=
  match s with
  | ST_STR t _ => str_ok t
  | ST_VAR v _ => var_ok v
  | ST_QUERY _ l _ => ops_ok [46] (map sl_op l) && forallb operand_ok l
  end.

Definition expr_ok (ops : list Z) (l : list strlist_t) : bool := ops_ok ops (map sl_op l) && forallb operand_ok l.

Fixpoint conds_ok (l : list cond_t) : bool :=
  match l with
  | [] => false
  | c :: tl =>
      expr_ok arith_ops (operand1 c) && expr_ok arith_ops (operand2 c) &&
      match next c, tl with IFNEXT_END, [] => true | IFNEXT_END, _ => false | _, _ => conds_ok tl end
  end.

Definition match_ok (m : match_t) : bool := expr_ok [46] (pattern m) && expr_ok [46] (output m).

(** A pattern that begins with the string [*]. *)
Definition is_default (m : match_t) : bool :=
  match pattern m with ST_STR (Some t) _ :: _ => strcmp t [42] =? 0 | _ => false end.

Fixpoint sblock_ok (s : sblock_t) : bool :=
  match s with
  | SB_REQUIRE l | SB_ANCHOR l | SB_QUERY _ l | SB_DEL l | SB_ECHO l => expr_ok [46] l
  | SB_SET a b => expr_ok [46] a && expr_ok [46] b
  | SB_ASSIGN _ v l => var_ok v && negb (eqb_list (default [] v) []) && expr_ok arith_ops l
  | SB_MAP node d ms =>
      expr_ok [46] node && from_option (fun m => match_ok m && is_default m) true d &&
      forallb (fun m => match_ok m && negb (is_default m)) ms && match d, ms with None, [] => false | _, _ => true end
  | SB_INCLOG a b => str_ok a && str_ok b
  | SB_IF c t f => conds_ok c && forallb sblock_ok t && forallb sblock_ok f
  | SB_FOR l b => expr_ok [46] l && forallb sblock_ok b
  | SB_EXIT => true
  end.

(** What [destroy_sblist] does not give back: the lists of the nodes of the [map] statements. *)
Fixpoint sblock_lost (s : sblock_t) : Z :=
  match s with
  | SB_MAP node _ _ => strlst_blocks node
  | SB_IF _ t f => foldr (fun x n => sblock_lost x + n) 0 t + foldr (fun x n => sblock_lost x + n) 0 f
  | SB_FOR _ b => foldr (fun x n => sblock_lost x + n) 0 b
  | _ => 0
  end.
Definition sblist_lost (l : list sblock_t) : Z := foldr (fun x n => sblock_lost x + n) 0 l.

(** ** A logic for runs without failure *)

(** All requests for memory succeed from here on. *)
Definition ready (w : world) : Prop := avail (w_heap w) = [].

Definition add_live (w : world) (n : Z) : world := set_heap w (mkheap (avail (w_heap w)) (w_live w + n)).

Definition runs {A} (m : M A) (a : A) (n : Z) : Prop := forall w, ready w -> m w = Ret (a, add_live w n).

Lemma add_live_0 w : add_live w 0 = w.
Proof. destruct w as [[r [a l] s] ]. unfold add_live, set_heap, set_base, set_root, w_live, w_heap. cbn. by rewrite Z.add_0_r. Qed.

Lemma add_live_add w a b : add_live (add_live w a) b = add_live w (a + b).
Proof. unfold add_live, set_heap, set_base, set_root, w_live, w_heap. cbn. by rewrite Z.add_assoc. Qed.

Lemma ready_add w n : ready w -> ready (add_live w n).
Proof. done. Qed.

Lemma runs_return {A} (a : A) : runs (mret a) a 0.
Proof. intros w _. by rewrite add_live_0. Qed.

Lemma runs_bind {A B} (m : M A) (k : A -> M B) a b n n' : runs m a n -> runs (k a) b n' -> runs (x ← m; k x) b (n + n').
Proof.
  intros Hm Hk w Hw. unfold mbind, M_bind. rewrite (Hm w Hw), (Hk _ (ready_add _ n Hw)). by rewrite add_live_add.
Qed.

Lemma runs_eq {A} (m : M A) a n n' : runs m a n -> n = n' -> runs m a n'.
Proof. by intros H <-. Qed.

Lemma runs_malloc : runs m_malloc true 1.
Proof. intros w Hw. unfold m_malloc, malloc. rewrite Hw. cbn. unfold add_live. by rewrite Hw. Qed.

Lemma runs_strdup s : runs (m_strdup s) (Some s) 1.
Proof. intros w Hw. unfold m_strdup, strdup, malloc. rewrite Hw. cbn. unfold add_live. by rewrite Hw. Qed.

Lemma runs_at c p : runs (at_ (c :: p)) c 0.
Proof. apply runs_return. Qed.

Lemma runs_eatwhite c p : IS_WHITE c = false -> runs (eatwhite (c :: p)) (c :: p) 0.
Proof. intros H. unfold eatwhite, xmldb_eatwhite. cbn [eat]. rewrite H. apply runs_return. Qed.

(** ** Reading back what was printed *)

Lemma quoted_print s : forall acc rest,
  forallb (fun c => (0 <? c) && (c <? 256)) s = true -> (length acc + length s < MAX_STRING_LEN)%nat ->
  quoted (flat_map print_char s ++ 34 :: rest) acc = Some (acc ++ s, 34 :: rest).
Proof.
  induction s as [|c s IH]; intros acc rest Hs Hl; [by rewrite app_nil_r|].
  cbn [forallb length flat_map] in *. bprop. rewrite <- app_assoc.
  assert ((length acc <? MAX_STRING_LEN - 1)%nat = true) as Ha by (apply Nat.ltb_lt; unfold MAX_STRING_LEN in *; lia).
  assert (forall x, x = c -> quoted (flat_map print_char s ++ 34 :: rest) (acc ++ [x]) = Some (acc ++ c :: s, 34 :: rest)) as Hstep.
  { intros x ->. rewrite IH; [by rewrite <- app_assoc|done|]. rewrite length_app. cbn. lia. }
  unfold print_char. destruct (c =? 34) eqn:E1; bprop; [subst; cbn [app quoted]; cbn -[quoted MAX_STRING_LEN Nat.ltb]; rewrite Ha; by apply Hstep|].
  destruct (c =? 92) eqn:E2; bprop; [subst; cbn -[quoted MAX_STRING_LEN Nat.ltb]; cbn [quoted]; cbn -[quoted MAX_STRING_LEN Nat.ltb]; rewrite Ha; by apply Hstep|].
  destruct (c =? 10) eqn:E3; bprop; [subst; cbn -[quoted MAX_STRING_LEN Nat.ltb]; cbn [quoted]; cbn -[quoted MAX_STRING_LEN Nat.ltb]; rewrite Ha; by apply Hstep|].
  cbn [app quoted]. rewrite Ha, (proj2 (Z.eqb_neq c 0)), (proj2 (Z.eqb_neq c 34)), (proj2 (Z.eqb_neq c 92)) by lia. by apply Hstep.
Qed.

(** The characters of the operators and the ends of an expression do not occur in names, and no operator ends it. *)
Definition delims_ok (ops ends : list Z) : bool :=
  forallb (fun c => negb (name_char c) && negb (IS_WHITE c) && negb (c =? 0) && negb (c =? 36)) (ops ++ ends) &&
  forallb (fun c => find_pattern c ends =? 0) ops.

Lemma find_pattern_In c l : find_pattern c l <> 0 -> In c l.
Proof.
  induction l as [|x l IH]; cbn; [done|]. destruct (c =? x) eqn:E; bprop; [by left|]. right. auto.
Qed.

Lemma find_pattern_out c l : (In c l -> False) -> find_pattern c l = 0.
Proof.
  induction l as [|x l IH]; cbn; [done|]. intros H. destruct (c =? x) eqn:E; bprop; [exfalso; auto|]. apply IH. auto.
Qed.

Lemma find_pattern_app c a b : c <> 0 -> (find_pattern c a <> 0 \/ find_pattern c b <> 0) -> find_pattern c (a ++ b) <> 0.
Proof.
  intros Hc. induction a as [|x a IH]; cbn [app find_pattern]; [tauto|].
  destruct (c =? x) eqn:E; bprop; [by subst|]. exact IH.
Qed.

Lemma delim_facts ops ends c : delims_ok ops ends = true -> In c (ops ++ ends) ->
  name_char c = false /\ IS_WHITE c = false /\ c <> 0 /\ c <> 36.
Proof.
  unfold delims_ok. intros H Hin. bprop. rewrite forallb_forall in H. specialize (H c Hin). by bprop.
Qed.

Lemma delim_name ops ends c : delims_ok ops ends = true -> name_char c = true -> find_pattern c (ops ++ ends) = 0.
Proof. intros H Hc. apply find_pattern_out. intros Hin. apply (delim_facts _ _ _ H) in Hin as [? _]. congruence. Qed.

Lemma name_char_facts c : name_char c = true -> c <> 0 /\ IS_WHITE c = false /\ c <> 34 /\ c <> 36.
Proof. unfold name_char, isdigit, IS_WHITE. intros H. rewrite !orb_true_iff, !andb_true_iff, !Z.leb_le, !Z.eqb_eq in H. repeat split; lia. Qed.

Lemma unquoted_name pat s : forall acc c rest,
  forallb name_char s = true -> (forall c, name_char c = true -> find_pattern c pat = 0) ->
  find_pattern c pat <> 0 -> (length acc + length s < MAX_STRING_LEN)%nat ->
  unquoted pat (s ++ c :: rest) acc = Some (acc ++ s, c :: rest).
Proof.
  induction s as [|x s IH]; intros acc c rest Hs Hp Hc Hl; cbn [app unquoted].
  - rewrite app_nil_r. destruct (_ || _); [done|]. by rewrite (proj2 (Z.eqb_neq _ _) Hc).
  - cbn [forallb length] in *. bprop. destruct (name_char_facts x) as (H1 & H2 & _); [done|].
    rewrite (proj2 (Z.eqb_neq _ _) H1), H2, Hp by done. cbn [orb negb Z.eqb].
    rewrite (proj2 (Nat.ltb_lt _ _)) by (unfold MAX_STRING_LEN in *; lia).
    rewrite IH; [by rewrite <- app_assoc|done..|]. rewrite length_app. cbn. lia.
Qed.

Lemma cstr_str_ok s : forallb (fun c => (0 <? c) && (c <? 256)) s = true -> cstr s = s.
Proof.
  intros H. apply cstr_id. rewrite forallb_forall in H. apply Forall_forall. intros c Hc. specialize (H c Hc). bprop. lia.
Qed.

Lemma runs_read_quoted s pat rest : str_ok (Some s) = true ->
  runs (read_string_ex (print_str s ++ rest) pat) (s, true, rest) 0.
Proof.
  intros H. cbn [str_ok] in H. bprop. unfold print_str, read_string_ex. cbn [app].
  eapply (runs_bind _ _ _ _ 0 0); [apply runs_at|]. rewrite Z.eqb_refl. cbn [tail]. rewrite <- app_assoc. cbn [app].
  rewrite quoted_print; [|done|by apply Nat.ltb_lt]. cbn [lift app].
  eapply (runs_bind _ _ _ _ 0 0); [apply runs_return|]. cbn beta iota.
  eapply (runs_bind _ _ _ _ 0 0); [apply runs_at|]. rewrite Z.eqb_refl, cstr_str_ok by done. apply runs_return.
Qed.

Lemma runs_read_plain x v pat c rest :
  x <> 0 -> IS_WHITE x = false -> x <> 34 -> find_pattern x pat = 0 -> forallb name_char v = true ->
  (forall c, name_char c = true -> find_pattern c pat = 0) -> find_pattern c pat <> 0 -> (length v < MAX_STRING_LEN - 1)%nat ->
  runs (read_string_ex (x :: v ++ c :: rest) pat) (x :: v, false, c :: rest) 0.
Proof.
  intros H0 Hw Hq Hx Hv Hp Hc Hl. unfold read_string_ex.
  eapply (runs_bind _ _ _ _ 0 0); [apply runs_at|]. rewrite (proj2 (Z.eqb_neq _ _) Hq).
  cbn [unquoted]. rewrite (proj2 (Z.eqb_neq _ _) H0), Hw, Hx. cbn [orb negb Z.eqb length app].
  rewrite (proj2 (Nat.ltb_lt _ _)) by (unfold MAX_STRING_LEN; lia).
  rewrite unquoted_name by (try done; cbn [length]; lia). cbn [lift app].
  eapply (runs_bind _ _ _ _ 0 0); [apply runs_return|]. apply runs_return.
Qed.

(** The operand without the operator behind it, at a character that ends it. *)
Definition operand_text (s : strlist_t) : list Z := print_operand (set_sl_op s 0).

Lemma print_operand_eq s rest : print_operand s ++ rest = operand_text s ++ print_op (sl_op s) ++ rest.
Proof.
  unfold operand_text. destruct s; cbn [set_sl_op print_operand sl_op print_op Z.eqb]; rewrite ?app_nil_r, <- ?app_assoc; cbn [app];
    rewrite <- ?app_assoc; done.
Qed.

Lemma operand_head s : exists c t, operand_text s = c :: t /\ IS_WHITE c = false /\ c <> 0.
Proof.
  unfold operand_text. destruct s as [t op|v op|[] l op]; cbn [set_sl_op print_operand print_str str_queryjs str_query app];
    eexists _, _; (split; [reflexivity|]); done.
Qed.

Lemma eat_operand s rest : runs (eatwhite (operand_text s ++ rest)) (operand_text s ++ rest) 0.
Proof. destruct (operand_head s) as (x & t & -> & Hx & _). by apply runs_eatwhite. Qed.

Lemma at_operand s rest : exists x, x <> 0 /\ runs (at_ (operand_text s ++ rest)) x 0.
Proof. destruct (operand_head s) as (x & t & -> & _ & Hx). exists x. split; [done|apply runs_at]. Qed.

Lemma print_expr_cons s l rest : print_expr (s :: l) ++ rest = operand_text s ++ print_op (sl_op s) ++ print_expr l ++ rest.
Proof. unfold print_expr. cbn [flat_map]. rewrite <- app_assoc. apply print_operand_eq. Qed.

(** Printed expressions do not begin with white space. *)
Lemma eat_expr l c rest : IS_WHITE c = false -> runs (eatwhite (print_expr l ++ c :: rest)) (print_expr l ++ c :: rest) 0.
Proof.
  intros Hc. destruct l as [|s l]; [by apply runs_eatwhite|]. rewrite print_expr_cons.
  destruct (operand_head s) as (x & t & -> & Hx & _). by apply runs_eatwhite.
Qed.

Lemma runs_operand nested ops ends s c rest :
  delims_ok ops ends = true -> operand_ok s = true -> find_pattern c (ops ++ ends) <> 0 ->
  (forall js l op, s = ST_QUERY js l op ->
     runs (nested (print_expr l ++ 41 :: c :: rest)) (true, l, 41 :: c :: rest) (strlst_blocks l)) ->
  runs (read_operand nested (operand_text s ++ c :: rest) (ops ++ ends)) (Some (set_sl_op s 0), c :: rest) (strlst_blocks1 s - 1).
Proof.
  intros Hd Hs Hc Hn. unfold operand_text. destruct s as [[t|] op|[v|] op|js l op]; cbn [operand_ok] in Hs; try done;
    cbn [set_sl_op print_operand print_op Z.eqb default]; rewrite ?app_nil_r.
  - unfold read_operand. change (has_prefix str_query _) with false. cbn beta iota.
    eapply (runs_bind _ _ _ _ 0 1); [by apply runs_read_quoted|]. cbn beta iota. cbn [negb andb].
    eapply (runs_bind _ _ _ _ 1 0); [apply runs_strdup|]. apply runs_return.
  - unfold read_operand. cbn [app]. change (has_prefix str_query _) with false. cbn beta iota. cbn [var_ok] in Hs. bprop.
    eapply (runs_bind _ _ _ _ 0 1).
    { apply runs_read_plain; try done; [|intros x; by apply delim_name|by apply Nat.ltb_lt].
      apply find_pattern_out. intros Hin. by apply (delim_facts _ _ _ Hd) in Hin as (_ & _ & _ & ?). }
    cbn beta iota. cbn [negb andb Prelude.deref hd Z.eqb]. eapply (runs_bind _ _ _ _ 1 0); [apply runs_strdup|]. apply runs_return.
  - specialize (Hn js l op eq_refl). cbn [strlst_blocks1].
    assert (has_prefix str_query (((if js then str_queryjs else str_query) ++ 40 :: flat_map print_operand l ++ [41]) ++ c :: rest) = true) as H1
      by (by destruct js).
    assert (has_prefix str_queryjs (((if js then str_queryjs else str_query) ++ 40 :: flat_map print_operand l ++ [41]) ++ c :: rest) = js) as H2
      by (by destruct js).
    unfold read_operand. rewrite H1, H2.
    replace (drop _ _) with (40 :: print_expr l ++ 41 :: c :: rest)
      by (destruct js; cbn [app drop str_queryjs str_query]; rewrite <- ?app_assoc; cbn [app]; by rewrite <- ?app_assoc).
    eapply runs_eq.
    { eapply runs_bind; [by apply runs_eatwhite|]. eapply runs_bind; [apply runs_at|]. cbn [negb Z.eqb Pos.eqb tail].
      eapply runs_bind; [by apply eat_expr|]. eapply runs_bind; [exact Hn|]. cbn beta iota. cbn [negb].
      eapply runs_bind; [apply runs_at|]. cbn [negb Z.eqb Pos.eqb tail]. apply runs_return. }
    unfold strlst_blocks. lia.
Qed.

Lemma ops_ok_cons ops s s' l : ops_ok ops (map sl_op (s :: s' :: l)) = true ->
  find_pattern (sl_op s) ops <> 0 /\ ops_ok ops (map sl_op (s' :: l)) = true.
Proof. cbn [map ops_ok]. intros H. by bprop. Qed.

Lemma set_sl_op_id s : set_sl_op s (sl_op s) = s.
Proof. by destruct s. Qed.

Lemma set_sl_op_same s : set_sl_op (set_sl_op s 0) (sl_op s) = s.
Proof. by destruct s. Qed.

Lemma runs_strlst fuel : forall l ops ends e rest message,
  delims_ok ops ends = true -> expr_ok ops l = true -> find_pattern e ends <> 0 ->
  (length (print_expr l ++ e :: rest) < fuel)%nat ->
  runs (strlst_loop fuel message (print_expr l ++ e :: rest) ops ends) (true, l, e :: rest) (strlst_blocks l).
Proof.
  induction fuel as [|fuel IH]; intros l ops ends e rest message Hd Hl He Hf; [lia|].
  unfold expr_ok in Hl. apply andb_true_iff in Hl as [Ho Hl].
  destruct l as [|s l]; [done|]. rewrite strlst_blocks_cons. cbn [forallb] in Hl. apply andb_true_iff in Hl as [Hs Hl].
  assert (In e (ops ++ ends)) as Hin by (apply in_or_app; right; by apply find_pattern_In).
  destruct (delim_facts _ _ _ Hd Hin) as (_ & Hwe & He0 & _).
  rewrite print_expr_cons in *. destruct (operand_head s) as (x & t & Et & Hx & Hx0).
  assert (exists c q, print_op (sl_op s) ++ print_expr l ++ e :: rest = c :: q /\ IS_WHITE c = false /\
    find_pattern c (ops ++ ends) <> 0 /\ c <> 0 /\
    (l = [] /\ sl_op s = 0 /\ c = e /\ q = rest \/
     l <> [] /\ sl_op s = c /\ q = print_expr l ++ e :: rest /\ find_pattern c ends = 0 /\ expr_ok ops l = true)) as (c & q & Eq & Hwc & Hfc & Hc0 & Hcase).
  { destruct l as [|s' l].
    - cbn [map ops_ok] in Ho. bprop. rewrite Ho. exists e, rest. repeat split; auto. apply find_pattern_app; auto.
    - apply ops_ok_cons in Ho as [Hop Ho].
      assert (In (sl_op s) (ops ++ ends)) as Hin' by (apply in_or_app; left; by apply find_pattern_In).
      destruct (delim_facts _ _ _ Hd Hin') as (_ & Hw & H0 & _).
      exists (sl_op s), (print_expr (s' :: l) ++ e :: rest). unfold print_op. rewrite (proj2 (Z.eqb_neq _ _) H0).
      repeat split; auto; [apply find_pattern_app; auto|]. right. repeat split; auto.
      + unfold delims_ok in Hd. apply andb_true_iff in Hd as [_ Hd]. rewrite forallb_forall in Hd.
        apply Z.eqb_eq, Hd, find_pattern_In, Hop.
      + unfold expr_ok. by rewrite Ho. }
  rewrite Eq in *. rewrite length_app in Hf. cbn [length] in Hf.
  destruct (at_operand s (c :: q)) as (y & Hy & Hat).
  assert (runs (read_operand (fun curr => strlst_loop fuel curr curr [46] [41]) (operand_text s ++ c :: q) (ops ++ ends))
    (Some (set_sl_op s 0), c :: q) (strlst_blocks1 s - 1)) as Hop.
  { eapply runs_operand; [done..|]. intros js l' op ->. cbn [operand_ok] in Hs. apply IH; try done.
    unfold operand_text in Hf. cbn [set_sl_op print_operand] in Hf. rewrite !length_app in *. cbn [length] in *.
    rewrite !length_app in Hf. cbn [length] in Hf. unfold print_expr. lia. }
  cbn [strlst_loop]. destruct Hcase as [(-> & Hop0 & -> & ->)|(Hne & <- & -> & Hcf & Hlo)];
    (eapply runs_eq;
     [ eapply runs_bind; [apply eat_operand|]; eapply runs_bind; [exact Hat|]; cbn beta; rewrite (proj2 (Z.eqb_neq _ _) Hy);
       eapply runs_bind; [apply runs_malloc|]; cbn [negb]; eapply runs_bind; [exact Hop|]; cbn beta iota;
       eapply runs_bind; [by apply runs_eatwhite|]; eapply runs_bind; [apply runs_at|]; cbn beta
     | ]).
  - rewrite (proj2 (Z.eqb_neq _ _) He). cbn [negb]. rewrite <- Hop0, set_sl_op_id. apply runs_return.
  - cbn. lia.
  - rewrite Hcf, (proj2 (Z.eqb_neq _ _) Hc0). cbn [negb Z.eqb tail]. rewrite set_sl_op_same.
    eapply runs_bind; [apply IH; try done; rewrite Et in Hf; cbn [length] in *; lia|]. apply runs_return.
  - lia.
Qed.

Lemma runs_read_strlst l ops ends e rest : delims_ok ops ends = true -> expr_ok ops l = true -> find_pattern e ends <> 0 ->
  runs (read_strlst (print_expr l ++ e :: rest) ops ends) (true, l, e :: rest) (strlst_blocks l).
Proof. intros Hd Hl He. apply runs_strlst; [done..|lia]. Qed.

(** ** Reading back statements *)

Ltac text := repeat first [rewrite <- app_assoc | progress cbn [app]].

(** The next call, by a lemma; the tests on known characters are evaluated. *)
Ltac run L := eapply runs_bind; [by apply L | cbn beta iota; cbn [negb Z.eqb Pos.eqb Z.ltb Z.compare Pos.compare Pos.compare_cont tail fst snd]].

Lemma runs_one_strlst l rest : expr_ok [46] l = true ->
  runs (parse_one_strlst (40 :: print_expr l ++ 41 :: 59 :: rest)) (0, l, rest) (strlst_blocks l).
Proof.
  intros Hl. unfold parse_one_strlst. eapply runs_eq.
  { run runs_eatwhite. run runs_at. run runs_read_strlst. run runs_eatwhite. run runs_at. run runs_eatwhite. run runs_at.
    apply runs_return. }
  lia.
Qed.

Lemma runs_one mk l rest : expr_ok [46] l = true -> sblock_blocks (mk l) = 1 + strlst_blocks l -> sblock_lost (mk l) = 0 ->
  runs (parse_one mk (40 :: print_expr l ++ 41 :: 59 :: rest)) (0, [mk l], rest) (sblock_blocks (mk l) + sblock_lost (mk l)).
Proof.
  intros Hl Hb H0. unfold parse_one. eapply runs_eq; [run runs_malloc; run runs_one_strlst; apply runs_return|]. lia.
Qed.

Lemma runs_set a b rest : expr_ok [46] a = true -> expr_ok [46] b = true ->
  runs (parse_set (40 :: print_expr a ++ 44 :: print_expr b ++ 41 :: 59 :: rest)) (0, [SB_SET a b], rest) (sblock_blocks (SB_SET a b) + 0).
Proof.
  intros Ha Hb. unfold parse_set. eapply runs_eq.
  { run runs_malloc. run runs_eatwhite. run runs_at. run runs_read_strlst. run runs_eatwhite. run runs_at.
    run eat_expr. run runs_read_strlst. run runs_eatwhite. run runs_at. run runs_eatwhite. run runs_at. apply runs_return. }
  cbn [sblock_blocks]. lia.
Qed.

Lemma runs_echo l rest : expr_ok [46] l = true ->
  runs (parse_echo (32 :: print_expr l ++ 59 :: rest)) (0, [SB_ECHO l], rest) (sblock_blocks (SB_ECHO l) + 0).
Proof.
  intros Hl. unfold parse_echo. change (eatwhite (32 :: ?p)) with (eatwhite p). eapply runs_eq.
  { run eat_expr. run runs_malloc. run runs_read_strlst. run runs_at. apply runs_return. }
  cbn [sblock_blocks]. lia.
Qed.

Lemma reatwhite_name v : forallb name_char v = true -> xmldb_reatwhite v = v.
Proof.
  intros H. unfold xmldb_reatwhite. rewrite <- (rev_involutive v) in H at 1.
  assert (forallb name_char (rev v) = true) as Hr.
  { apply forallb_forall. intros x Hx. rewrite forallb_forall in H. apply H. by rewrite rev_involutive, <- in_rev in *. }
  clear H. rewrite <- (rev_involutive v) at 2. f_equal. destruct (rev v) as [|c r]; [done|]. cbn [forallb eat] in *. bprop.
  by destruct (name_char_facts c) as (_ & -> & _).
Qed.

Lemma runs_assign op v l rest : sblock_ok (SB_ASSIGN op v l) = true ->
  runs (parse_assign (default [] v ++ print_aop op ++ print_expr l ++ 59 :: rest)) (0, [SB_ASSIGN op v l], rest)
       (sblock_blocks (SB_ASSIGN op v l) + 0).
Proof.
  cbn [sblock_ok]. intros H. bprop. destruct v as [v|]; [|done]. cbn [default var_ok] in *. bprop.
  destruct v as [|x v]; [done|]. cbn [forallb length] in *. bprop.
  assert (exists c q, print_aop op ++ print_expr l ++ 59 :: rest = c :: q /\ IS_WHITE c = false /\ find_pattern c [61; 43; 45] <> 0 /\
    assign_op (c :: q) = Some (op, print_expr l ++ 59 :: rest)) as (c & q & Eq & Hw & Hf & Hop).
  { destruct op; cbn [print_aop app]; eexists _, _; (split; [reflexivity|]); repeat split; done. }
  assert (forall c, name_char c = true -> find_pattern c [61; 43; 45] = 0) as Hn.
  { intros c' Hc'. apply find_pattern_out. intros [<-|[<-|[<-|[]]]]; done. }
  destruct (name_char_facts x) as (Hx0 & Hxw & Hxq & _); [done|].
  assert (runs (read_string_ex (x :: v ++ c :: q) [61; 43; 45]) (x :: v, false, c :: q) 0) as Hread.
  { apply runs_read_plain; try done; [by apply Hn|]. apply Nat.ltb_lt in H2. cbn [length] in *. lia. }
  cbn [app]. rewrite Eq. unfold parse_assign. eapply runs_eq.
  { run runs_malloc. run Hread. cbn [length Nat.eqb]. rewrite reatwhite_name by (cbn [forallb]; by rewrite H, H3).
    run runs_strdup. run runs_eatwhite. rewrite Hop. run eat_expr. run runs_read_strlst. run runs_at. apply runs_return. }
  cbn [sblock_blocks owned]. lia.
Qed.

Lemma expr_ok_cons ops l : expr_ok ops l = true -> exists s tl, l = s :: tl.
Proof. destruct l as [|s tl]; [done|]. eauto. Qed.

Lemma add_other m d ms : match_ok m = true -> is_default m = false -> runs (add_match m d ms) (d, m :: ms) 0.
Proof.
  unfold match_ok, is_default, add_match. intros H Hd. bprop. destruct (expr_ok_cons _ _ H) as (s & tl & E). rewrite E in *.
  destruct s as [[t|] op| |]; [|by unfold expr_ok in H; bprop|..]; (eapply (runs_bind _ _ _ _ 0 0); [apply runs_return|]); cbn beta iota; rewrite ?Hd; apply runs_return.
Qed.

Lemma add_default m ms : is_default m = true -> runs (add_match m None ms) (Some m, ms) 0.
Proof.
  unfold is_default, add_match. destruct (pattern m) as [|[[t|] ?| |] ?]; try done. intros H.
  eapply (runs_bind _ _ _ _ 0 0); [apply runs_return|]. cbn beta iota. rewrite H.
  eapply (runs_bind _ _ _ _ 0 0); apply runs_return.
Qed.

Lemma runs_match_step fuel m node d ms d' ms' c q r n : match_ok m = true -> c = 44 \/ c = 41 ->
  runs (add_match m d ms) (d', ms') 0 -> runs (map_loop fuel (c :: q) node d' ms') r n ->
  runs (map_loop (S fuel) (print_match m ++ c :: q) node d ms) r (match_blocks m + n).
Proof.
  unfold match_ok. intros H Hc Ha Hr. bprop. unfold print_match. text. cbn [map_loop].
  assert (find_pattern c [44; 41] <> 0 /\ IS_WHITE c = false) as [Hf Hw] by (by destruct Hc; subst).
  destruct m as [pat out]. cbn [pattern output] in *. eapply runs_eq.
  { run runs_at. run runs_malloc. run runs_read_strlst. run runs_eatwhite. run runs_at. run runs_read_strlst.
    run runs_eatwhite. run Ha. run runs_eatwhite. exact Hr. }
  rewrite match_blocks_eq. lia.
Qed.

Lemma runs_map_loop L : forall fuel node d ms rest,
  forallb (fun m => match_ok m && negb (is_default m)) L = true ->
  (length (flat_map print_match L ++ 41%Z :: rest) < fuel)%nat ->
  runs (map_loop fuel (flat_map print_match L ++ 41 :: rest) node d ms) (Some (d, rev L ++ ms), rest) (matches_blocks L).
Proof.
  induction L as [|m L IH]; intros [|fuel] node d ms rest HL Hf; try lia.
  - change (matches_blocks []) with (0 + 0). cbn [flat_map app map_loop]. run runs_at. apply runs_return.
  - cbn [forallb flat_map] in *. bprop. text. cbn [rev]. rewrite <- app_assoc. cbn [app].
    change (matches_blocks (m :: L)) with (match_blocks m + matches_blocks L).
    rewrite <- app_assoc, length_app in Hf. unfold print_match at 1 in Hf. cbn [length] in Hf.
    assert (exists c q, flat_map print_match L ++ 41 :: rest = c :: q /\ (c = 44 \/ c = 41)) as (c & q & Eq & Hc).
    { destruct L; cbn [flat_map app]; unfold print_match; eexists _, _; split; try reflexivity; auto. }
    rewrite Eq in *. eapply runs_match_step; [done..|by apply add_other|]. rewrite <- Eq. apply IH; [done|]. rewrite Eq. lia.
Qed.

Lemma matches_blocks_rev l : matches_blocks (rev l) = matches_blocks l.
Proof.
  assert (forall a b, matches_blocks (a ++ b) = matches_blocks a + matches_blocks b) as Happ.
  { induction a as [|x a IH]; intros b; [done|]. cbn [app]. unfold matches_blocks in *. cbn [foldr]. rewrite IH. lia. }
  induction l as [|x l IH]; [done|]. cbn [rev]. rewrite Happ, IH. unfold matches_blocks. cbn [foldr]. lia.
Qed.

Lemma runs_map node d ms rest : sblock_ok (SB_MAP node d ms) = true ->
  runs (parse_map (40 :: print_expr node ++ from_option print_match [] d ++ flat_map print_match (rev ms) ++ 41 :: 59 :: rest))
       (0, [SB_MAP node d ms], rest) (sblock_blocks (SB_MAP node d ms) + sblock_lost (SB_MAP node d ms)).
Proof.
  cbn [sblock_ok sblock_blocks sblock_lost]. intros H. bprop.
  assert (forallb (fun m => match_ok m && negb (is_default m)) (rev ms) = true) as Hms.
  { apply forallb_forall. intros x Hx. match goal with H : forallb _ ms = true |- _ => rewrite forallb_forall in H; apply H end. by rewrite <- in_rev in Hx. }
  set (body := flat_map print_match (rev ms) ++ 41 :: 59 :: rest).
  assert (exists c q, body = c :: q /\ (c = 44 \/ c = 41 /\ ms = [])) as (c & q & Eq & Hc).
  { subst body. destruct (rev ms) as [|x l] eqn:E; cbn [flat_map app]; unfold print_match; eexists _, _; (split; [reflexivity|]); [right|auto].
    split; [done|]. rewrite <- (rev_involutive ms), E. done. }
  assert (forall fuel d, (length body < fuel)%nat -> runs (map_loop fuel body node d []) (Some (d, ms), 59 :: rest) (matches_blocks ms)) as Hloop.
  { intros fuel d' Hf. pose proof (runs_map_loop (rev ms) fuel node d' [] (59 :: rest) Hms Hf) as Hr.
    by rewrite rev_involutive, app_nil_r, matches_blocks_rev in Hr. }
  assert (forall fuel, (length (from_option print_match [] d ++ body) < fuel)%nat ->
    runs (map_loop fuel (from_option print_match [] d ++ body) node None []) (Some (d, ms), 59 :: rest) (from_option match_blocks 0 d + matches_blocks ms)) as Hall.
  { intros [|fuel] Hf; [lia|]. destruct d as [m|]; cbn [from_option app] in *; [|by apply Hloop]. bprop.
    rewrite length_app in Hf. unfold print_match at 1 in Hf. cbn [length] in Hf.
    rewrite Eq. eapply runs_match_step; [done|tauto|by apply add_default|]. rewrite <- Eq. apply Hloop. lia. }
  assert (exists c' q', from_option print_match [] d ++ body = c' :: q' /\ IS_WHITE c' = false /\ find_pattern c' [44] <> 0) as (c' & q' & Eq' & Hw & Hf).
  { destruct d as [m|]; cbn [from_option app]; [unfold print_match; eexists _, _; by split|].
    exists c, q. destruct Hc as [->|[-> ->]]; [|done]. repeat split; done. }
  rewrite Eq' in *. specialize (Hall _ (Nat.lt_succ_diag_r _)). unfold parse_map. eapply runs_eq.
  { run runs_malloc. run runs_eatwhite. run runs_at. run runs_read_strlst. run runs_eatwhite. run Hall. run runs_eatwhite. run runs_at. apply runs_return. }
  lia.
Qed.

Lemma eat_str s rest : runs (eatwhite (print_str s ++ rest)) (print_str s ++ rest) 0.
Proof. by apply runs_eatwhite. Qed.

Lemma runs_read_string s e rest : str_ok (Some s) = true -> runs (read_string (print_str s ++ rest) e) (s, true, rest) 0.
Proof. apply runs_read_quoted. Qed.

Lemma runs_inclog a b rest : str_ok a = true -> str_ok b = true ->
  runs (parse_inclog (40 :: print_str (default [] a) ++ 44 :: print_str (default [] b) ++ 41 :: 59 :: rest)) (0, [SB_INCLOG a b], rest)
       (sblock_blocks (SB_INCLOG a b) + 0).
Proof.
  intros Ha Hb. destruct a as [a|], b as [b|]; [|done..]. cbn [default]. unfold parse_inclog. eapply runs_eq.
  { run runs_malloc. run runs_eatwhite. run runs_at. run eat_str. run runs_read_string. run runs_strdup. run runs_eatwhite.
    run runs_at. run eat_str. run runs_read_string. run runs_strdup. run runs_eatwhite. run runs_at. run runs_eatwhite. run runs_at.
    apply runs_return. }
  done.
Qed.

Lemma runs_exit rest : runs (parse_exit (59 :: rest)) (0, [SB_EXIT], rest) (sblock_blocks SB_EXIT + 0).
Proof. unfold parse_exit. eapply runs_eq; [run runs_malloc; run runs_eatwhite; run runs_at; apply runs_return|done]. Qed.

Lemma expr_head ops l : expr_ok ops l = true -> exists x t, print_expr l = x :: t /\ (x = 34 \/ x = 36 \/ x = 113).
Proof.
  intros H. destruct (expr_ok_cons _ _ H) as (s & tl & ->). unfold print_expr. cbn [flat_map].
  destruct s as [|v op|[] l op]; cbn [print_operand print_str str_queryjs str_query app]; eexists _, _; (split; [reflexivity|]); auto.
Qed.

(** The texts around the operators of a condition. *)
Lemma print_ifop_facts op ops l rest : expr_ok ops l = true ->
  exists c q, print_ifop op ++ print_expr l ++ rest = c :: q /\ IS_WHITE c = false /\ find_pattern c ends_op1 <> 0 /\
    cond_op (c :: q) = Some (op, print_expr l ++ rest).
Proof.
  intros H. destruct (expr_head _ _ H) as (x & t & -> & Hx).
  destruct op; cbn [print_ifop app]; eexists _, _; (split; [reflexivity|]); (split; [done|]); (split; [done|]);
    unfold cond_op; destruct Hx as [->|[->|Hx]]; subst; done.
Qed.

Lemma print_next_facts n rest x t : rest = x :: t -> (n = IFNEXT_END -> x = 41) ->
  exists c q, print_next n ++ rest = c :: q /\ IS_WHITE c = false /\ find_pattern c ends_op2 <> 0 /\ cond_next (c :: q) = (n, rest).
Proof.
  intros -> Hn. destruct n; cbn [print_next app]; [rewrite Hn by done|..]; eexists _, _; (split; [reflexivity|]); repeat split; done.
Qed.

Lemma conds_ok_cons c l : conds_ok (c :: l) = true ->
  expr_ok arith_ops (operand1 c) = true /\ expr_ok arith_ops (operand2 c) = true /\
  (next c = IFNEXT_END /\ l = [] \/ next c <> IFNEXT_END /\ conds_ok l = true).
Proof. cbn [conds_ok]. intros H. bprop. repeat split; try done. destruct (next c), l; first [done|left; by split|right; by split]. Qed.

Lemma conds_head l rest : conds_ok l = true -> exists x t, flat_map print_cond l ++ rest = x :: t /\ x <> 0.
Proof.
  destruct l as [|c l]; [done|]. intros H. destruct (conds_ok_cons _ _ H) as (H1 & _).
  destruct (expr_head _ _ H1) as (x & t & E & Hx). cbn [flat_map]. unfold print_cond. rewrite E. cbn [app].
  eexists _, _. split; [reflexivity|]. lia.
Qed.

Lemma runs_cond_loop fuel : forall l rest, conds_ok l = true -> (length (flat_map print_cond l ++ 41%Z :: rest) < fuel)%nat ->
  runs (cond_loop fuel (flat_map print_cond l ++ 41 :: rest)) (true, l, 41 :: rest) (conds_blocks l).
Proof.
  induction fuel as [|fuel IH]; intros l rest Hl Hf; [lia|]. destruct l as [|c l]; [done|].
  destruct (conds_ok_cons _ _ Hl) as (H1 & H2 & Hn). cbn [flat_map] in *. unfold print_cond at 1. unfold print_cond at 1 in Hf.
  rewrite !length_app in Hf. cbn [length] in Hf. text. set (r := flat_map print_cond l ++ 41 :: rest).
  assert (exists x t, r = x :: t /\ (next c = IFNEXT_END -> x = 41) /\ x <> 0) as (x & t & Er & Hx & Hx0).
  { subst r. destruct Hn as [[Hn ->]|[Hn Hl']]; [by eexists _, _|]. destruct (conds_head l (41 :: rest) Hl') as (x & t & -> & Hx).
    exists x, t. repeat split; [|done]. done. }
  destruct (print_next_facts (next c) r x t Er Hx) as (c2 & q2 & E2 & Hw2 & Hf2 & Hn2). rewrite E2.
  destruct (print_ifop_facts (if_op c) _ _ (c2 :: q2) H2) as (c1 & q1 & E1 & Hw1 & Hf1 & Hop). rewrite E1.
  assert (runs (match next c return M (bool * list cond_t * list Z) with
          | IFNEXT_END => mret (true, [mkcond (operand1 c) (operand2 c) (if_op c) (next c)], r)
          | _ => c' ← at_ r; if c' =? 0 then mret (true, [mkcond (operand1 c) (operand2 c) (if_op c) (next c)], r)
                 else z ← cond_loop fuel r; let '(ok, l, curr) := z in mret (ok, mkcond (operand1 c) (operand2 c) (if_op c) (next c) :: l, curr)
          end) (true, c :: l, 41 :: rest) (conds_blocks l)) as Hlast.
  { destruct c as [a b op nx]. cbn [next operand1 operand2 if_op] in *.
    destruct Hn as [[-> ->]|[Hne Hl']].
    - subst r. cbn [flat_map app]. apply runs_return.
    - assert (runs (cond_loop fuel r) (true, l, 41 :: rest) (conds_blocks l)) as Hr.
      { apply IH; [done|]. rewrite !length_app. cbn [length]. destruct (expr_head _ _ H1) as (? & ? & Eh & _). rewrite Eh in Hf. cbn [length] in Hf. lia. }
      destruct nx; [done|..]; (eapply runs_eq; [eapply runs_bind; [rewrite Er; apply runs_at|]; cbn beta; rewrite (proj2 (Z.eqb_neq _ _) Hx0);
        eapply runs_bind; [exact Hr|]; apply runs_return|lia]). }
  cbn [cond_loop]. eapply runs_eq.
  { run runs_malloc. run eat_expr. run runs_read_strlst. run runs_eatwhite. rewrite Hop. run eat_expr. run runs_read_strlst.
    run runs_eatwhite. rewrite Hn2. cbn beta iota. exact Hlast. }
  rewrite conds_blocks_cons. lia.
Qed.

Definition total (s : sblock_t) : Z := sblock_blocks s + sblock_lost s.
Definition totals (l : list sblock_t) : Z := sblist_blocks l + sblist_lost l.

Lemma totals_cons s l : totals (s :: l) = total s + totals l.
Proof. unfold totals, total, sblist_blocks, sblist_lost. cbn [foldr]. lia. Qed.

Lemma total_if c t f : total (SB_IF c t f) = 1 + conds_blocks c + totals t + totals f.
Proof. unfold total. rewrite sblock_blocks_if. unfold totals, sblist_lost. cbn [sblock_lost]. lia. Qed.

Lemma total_for l b : total (SB_FOR l b) = 1 + strlst_blocks l + totals b.
Proof. unfold total. rewrite sblock_blocks_for. unfold totals, sblist_lost. cbn [sblock_lost]. lia. Qed.

Section Blocks2.
Variables (fuel : nat) (block elseif : list Z -> M parsed).
Hypothesis block_runs : forall l rest, forallb sblock_ok l = true -> (length (print_sblist l ++ 125%Z :: rest) < fuel)%nat ->
  runs (block (print_sblist l ++ 125 :: rest)) (0, l, 125 :: rest) (totals l).

Lemma runs_if c t f rest : sblock_ok (SB_IF c t f) = true -> (length (print_sblock (SB_IF c t f) ++ rest) <= S fuel)%nat ->
  runs (parse_if_body block elseif (drop 2 (print_sblock (SB_IF c t f) ++ rest))) (0, [SB_IF c t f], rest) (total (SB_IF c t f)).
Proof using block_runs.
  cbn [sblock_ok print_sblock]. intros H Hf. apply andb_true_iff in H as [H H2]. apply andb_true_iff in H as [H0 H1].
  fold (print_sblist t) (print_sblist f) in *. rewrite !length_app in Hf. cbn [length cs] in Hf.
  replace (drop 2 _) with (40 :: flat_map print_cond c ++ 41 :: 123 :: print_sblist t ++ 125 :: str_else ++ 123 :: print_sblist f ++ 125 :: rest)
    by (cbn [cs app drop]; text; done).
  assert (runs (block (print_sblist f ++ 125 :: rest)) (0, f, 125 :: rest) (totals f)) as Hbf
    by (apply block_runs; [done|]; rewrite length_app; cbn [length]; lia).
  assert (runs (block (print_sblist t ++ 125 :: str_else ++ 123 :: print_sblist f ++ 125 :: rest))
    (0, t, 125 :: str_else ++ 123 :: print_sblist f ++ 125 :: rest) (totals t)) as Hbt
    by (apply block_runs; [done|]; repeat first [rewrite length_app | progress cbn [length str_else app]]; lia).
  unfold parse_if_body. eapply runs_eq.
  { run runs_malloc. run runs_eatwhite. run runs_at.
    eapply runs_bind; [apply runs_cond_loop; [done|cbn [length]; lia]|]. cbn beta iota. cbn [negb].
    run runs_eatwhite. run runs_at. run runs_eatwhite. run runs_at. run Hbt. run runs_at.
    cbn [str_else app]. run runs_eatwhite. change (has_prefix str_else _) with true. cbn [negb drop]. run runs_eatwhite. run runs_at.
    run Hbf. run runs_at. apply runs_return. }
  rewrite total_if. lia.
Qed.

Lemma runs_for l b rest : sblock_ok (SB_FOR l b) = true -> (length (print_sblock (SB_FOR l b) ++ rest) <= fuel)%nat ->
  runs (parse_for block (drop 3 (print_sblock (SB_FOR l b) ++ rest))) (0, [SB_FOR l b], rest) (total (SB_FOR l b)).
Proof using block_runs.
  cbn [sblock_ok print_sblock]. intros H Hf. bprop. fold (print_sblist b) in *. rewrite !length_app in Hf. cbn [length cs] in Hf.
  replace (drop 3 _) with (40 :: print_expr l ++ 41 :: 123 :: print_sblist b ++ 125 :: rest) by (cbn [cs app drop]; text; done).
  assert (runs (block (print_sblist b ++ 125 :: rest)) (0, b, 125 :: rest) (totals b)) as Hb
    by (apply block_runs; [done|]; rewrite length_app; cbn [length]; lia).
  unfold parse_for. eapply runs_eq.
  { run runs_malloc. run runs_eatwhite. run runs_at. run runs_read_strlst. run runs_eatwhite. run runs_at. run runs_eatwhite. run runs_at.
    run Hb. run runs_at. apply runs_return. }
  rewrite total_for. lia.
Qed.

(** The first characters of a statement choose its parser. *)
Lemma statement_runs s rest : sblock_ok s = true -> (length (print_sblock s ++ rest) <= fuel)%nat ->
  (forall c t f, s = SB_IF c t f -> runs (elseif (drop 2 (print_sblock s ++ rest))) (0, [s], rest) (total s)) ->
  exists p, keyword (keywords block elseif) (print_sblock s ++ rest) = Some p /\ runs p (0, [s], rest) (total s).
Proof using block_runs.
  intros Hs Hf Hif. destruct s;
    try (eexists; split; [reflexivity|]; cbn [print_sblock cs str_queryjs str_query app length drop]; text; by apply runs_one).
  - destruct js; (eexists; split; [reflexivity|]; cbn [print_sblock cs str_queryjs str_query app length drop]; text; by apply runs_one).
  - cbn [sblock_ok] in Hs. bprop. eexists; split; [reflexivity|]; cbn [print_sblock cs app length drop]; text. by apply runs_set.
  - eexists; split; [reflexivity|]; cbn [print_sblock cs app length drop]; text. by apply runs_echo.
  - eexists; split; [reflexivity|]; cbn [print_sblock cs app length drop]; text. by apply runs_assign.
  - eexists; split; [reflexivity|]; cbn [print_sblock cs app length drop]; text. by apply runs_map.
  - cbn [sblock_ok] in Hs. bprop. eexists; split; [reflexivity|]; cbn [print_sblock cs app length drop]; text. by apply runs_inclog.
  - eexists; split; [reflexivity|]. cbn [length str_if]. by eapply Hif.
  - eexists; split; [reflexivity|]. by apply runs_for.
  - eexists; split; [reflexivity|]; cbn [print_sblock cs app length drop]; text. apply runs_exit.
Qed.

Lemma statement_head s : exists c t, print_sblock s = c :: t /\ IS_WHITE c = false /\ c <> 0 /\ c <> 125.
Proof using Type. destruct s; try destruct js; cbn [print_sblock cs str_queryjs str_query app]; eexists _, _; (split; [reflexivity|]); done. Qed.
End Blocks2.

Lemma parsers_run fuel : forall l e rest, e = 0 \/ e = 125 -> forallb sblock_ok l = true ->
  (length (print_sblist l ++ e :: rest) < fuel)%nat ->
  runs (parse_ephp fuel (print_sblist l ++ e :: rest)) (0, l, e :: rest) (totals l).
Proof.
  induction fuel as [fuel IH] using lt_wf_ind. intros l e rest He Hl Hf. destruct fuel as [|fuel]; [lia|].
  cbn [parse_ephp]. unfold parse_ephp_body. destruct l as [|s l].
  - change (totals []) with (0 + (0 + 0)). cbn [print_sblist flat_map app]. destruct He as [->| ->].
    + run runs_eatwhite. run runs_at. apply runs_return.
    + run runs_eatwhite. run runs_at. apply runs_return.
  - cbn [forallb] in Hl. apply andb_true_iff in Hl as [Hs Hl]. unfold print_sblist in *. cbn [flat_map] in *. rewrite <- app_assoc in *.
    destruct (statement_head s) as (c & t & E & Hw & Hc0 & Hc1). 
    set (rest' := flat_map print_sblock l ++ e :: rest) in *.
    destruct (statement_runs fuel (parse_ephp fuel) (parse_if fuel)) with (s := s) (rest := rest') as (p & Ek & Hp); [|done|lia| |].
    { intros l' r' Hl' Hf'. apply IH; [lia|auto|done..]. }
    { intros c' t' f' ->. destruct fuel as [|fuel]; [rewrite E in Hf; cbn in Hf; lia|]. cbn [parse_if].
      eapply runs_if with (fuel := fuel); [|done|rewrite E in *; cbn [app length] in *; lia].
      intros l' r' Hl' Hf'. apply IH; [lia|auto|done..]. }
    rewrite totals_cons. rewrite E in *. cbn [app] in *. eapply runs_eq.
    { run runs_eatwhite. run runs_at. rewrite (proj2 (Z.eqb_neq _ _) Hc0), (proj2 (Z.eqb_neq _ _) Hc1). cbn [orb]. rewrite Ek.
      run Hp. eapply runs_bind; [apply IH; [lia|done|done|cbn [length] in Hf; rewrite length_app in Hf; subst rest'; lia]|]. apply runs_return. }
    lia.
Qed.

(** C23. What is printed is read back: the text of any statements that can be written - strings, variables, queries,
    arithmetic, assignments, maps with their alternatives, conditions, loops, nested blocks - is parsed into these
    statements, up to its terminator and without output.  The parser holds the memory of the statements and,
    besides, the lists of the nodes of the maps, which [destroy_sblist] does not give back. *)
Theorem ephp_print_parse (l : list sblock_t) (w : world) : forallb sblock_ok l = true -> ready w ->
  parse_ephp (S (length (print_sblist l ++ [0]))) (print_sblist l ++ [0]) w =
  Ret (0, l, [0], add_live w (sblist_blocks l + sblist_lost l)).
Proof. intros Hl Hw. exact (parsers_run _ l 0 [] (or_introl eq_refl) Hl (Nat.lt_succ_diag_r _) w Hw). Qed.

(** ** A program with every statement *)

Definition empty_world (answers : list bool) : world :=
  mkw (mkdb (mknode [] 0 None None []) (mkheap answers 0) []) [] [] [] Null [] None 0 0.

Definition word (s : string) (op : Z) : strlist_t := ST_STR (Some (cs s)) op.

Definition sample : list sblock_t :=
  [SB_ASSIGN AOP_ASSIGN (Some (cs "i")) [ST_VAR (Some (cs "#")) 43; word "1" 0];
   SB_FOR [word "/lan/dhcp/" 46; ST_VAR (Some (cs "kind")) 0]
     [SB_IF [mkcond [ST_QUERY false [word "enable" 0] 0] [word "1" 0] IFOP_EQUAL IFNEXT_AND;
             mkcond [ST_VAR (Some (cs "i")) 0] [word "10" 0] IFOP_LESSTHAN IFNEXT_END]
        [SB_ECHO [word "name " 46; ST_QUERY true [word "name" 0] 0]; SB_SET [word "seen" 0] [word "1" 0]]
        [SB_DEL [word "seen" 0]; SB_EXIT]];
   SB_MAP [word "/mode" 0] (Some (mkmatch [word "*" 0] [word "unknown" 0])) [mkmatch [word "1" 0] [word "on" 0]; mkmatch [word "0" 0] [word "off" 0]];
   SB_ASSIGN AOP_INCREASE (Some (cs "i")) [word "" 0];
   SB_REQUIRE [word "/www/tail.php" 0]; SB_ANCHOR [word "/lan" 0]; SB_QUERY false [word "ip" 0];
   SB_INCLOG (Some (cs "%0 %1")) (Some (cs "/var/log/messages"))].

Lemma ephp_print_parse_witness :
  parse_ephp (S (length (print_sblist sample ++ [0]))) (print_sblist sample ++ [0]) (empty_world []) =
  Ret (0, sample, [0], add_live (empty_world []) (sblist_blocks sample + sblist_lost sample)).
Proof. apply (ephp_print_parse sample (empty_world [])); reflexivity. Defined.

(** ** What the parser does with other texts *)

Definition parse_text (s : string) (answers : list bool) : res (parsed * world) :=
  parse_ephp (S (S (String.length s))) (cs s ++ [0]) (empty_world answers).

(** An expression that runs to the end of the text takes the terminator for an operator, and the parser reads on
    behind it. *)
Example open_expression_reads_on : parse_text "echo name" [] = UB.
Proof. reflexivity. Qed.

(** So does a string that ends with a backslash. *)
Example open_string_reads_on : parse_ephp 9 (cs "echo " ++ [34; 92; 0]) (empty_world []) = UB.
Proof. reflexivity. Qed.

(** Without memory for the statement the pointer to the text is stored without having been set. *)
Example no_memory_no_pointer : parse_text "set(a,b);" [false] = UB.
Proof. reflexivity. Qed.

(** Behind [else] anything but a brace or [if] is taken for the next statement, and the [if] is dropped with its
    condition and its block. *)
Example else_drops_the_if :
  match parse_text "if($a==1){echo x;}else exit;" [] with Ret (ret, l, _, w) => ret = 0 /\ l = [SB_EXIT] /\ sblist_blocks l < w_live w | _ => False end.
Proof. vm_compute. auto. Qed.

End EphpParse.
