(* ===== verification/EphpRun.v ===== *)
(** * tools/alpha/xmldb/ephp.c: variables, expressions, statements and templates.

    Execution in the monad of [Ephp].  The files, and what the command [tlogs] leaves in its file, are
    parameters.  A pointer to a node is a position in the tree; when a node is deleted the pointers that the
    program keeps ([g_anchor], and those of the running loops) move with their nodes or are freed with them. *)
From Stdlib Require Import ZArith Lia Bool String.
From stdpp Require Import base tactics list option numbers.
From S2P Require Import Prelude Xmldb XmldbFile Ephp EphpParse.

Import Xmldb XmldbFile Ephp EphpParse.

Module EphpRun.

(** ** Variables *)

(** The variable with a name; a variable without one, or no name to look for, cannot be compared. *)
Fixpoint find_var (l : list var_t) (name : list Z) : option (option nat) :=
  match l with
  | [] => Some None
  | v :: tl =>
      n ← v_name v;
      if strcmp n name =? 0 then Some (Some 0%nat) else r ← find_var tl name; Some (option_map S r)
  end.

Definition _new_var (name value : list Z) : M unit :=
  ok ← m_malloc;
  if (ok : bool) then
    n ← m_strdup name;
    v ← m_strdup value;
    modify (fun w => set_vars w (mkvar n v :: g_nspace w))
  else mret tt.

(** The index of the variable in [g_nspace]; after a new one is made, the head of the list, whatever it is. *)
Definition get_var (name : list Z) : M (option nat) :=
  w ← get;
  r ← lift (find_var (g_nspace w) name);
  match r return M (option nat) with
  | Some i => mret (Some i)
  | None =>
      _ ← _new_var name [];
      w ← get;
      mret (match g_nspace w with [] => None | _ => Some 0%nat end)
  end.

Definition set_var (name value : list Z) : M unit :=
  var ← get_var name;
  match var return M unit with
  | Some i =>
      w ← get;
      v ← lift (g_nspace w !! i);
      _ ← m_free (owned (v_value v));
      s ← m_strdup value;
      modify (fun w => set_vars w (alter (fun v => mkvar (v_name v) s) i (g_nspace w)))
  | None => _new_var name value
  end.

(** The callers read the string at once. *)
Definition get_var_value (name : list Z) : M (list Z) :=
  var ← get_var name;
  w ← get;
  lift (i ← var; v ← g_nspace w !! i; v_value v).

Definition vars_blocks (l : list var_t) : Z := foldr (fun v n => owned (v_name v) + owned (v_value v) + 1 + n) 0 l.

Definition clear_var : M unit :=
  w ← get;
  _ ← m_free (vars_blocks (g_nspace w));
  modify (fun w => set_vars w []).

(** ** Pointers to nodes *)

(** The start of a search: an absolute path does not look at it. *)
Definition search_root (a : nptr) (path : list Z) : option (option pos) :=
  if Prelude.deref path =? 47 then Some None
  else match a with Null => Some None | Node p => Some (Some p) | Freed => None end.

(** The start of a deletion: not looked at when the path of the parent is absolute. *)
Definition delete_root (a : nptr) (path : list Z) : option (option pos) :=
  match split_leaf path with
  | (Some pp, _) => if Prelude.deref pp =? 47 then Some None else match a with Null => Some None | Node p => Some (Some p) | Freed => None end
  | (None, _) => match a with Null => Some None | Node p => Some (Some p) | Freed => None end
  end.

(** The parent and the index of the node that [xmldb_del_node] deletes. *)
Definition deleted (d : db) (root : option pos) (path : list Z) : option (pos * nat) :=
  let '(ppath, lnode) := split_leaf path in
  let '(nm, i) := split_id lnode in
  p ← match ppath with
      | Some p => r ← xmldb_find_node d root p false; fst r
      | None => Some (default [] root)
      end;
  pnode ← node_at (g_xml_root d) p;
  k ← index_of (fun n => (strcmp (name n) nm =? 0) && (id n =? i)) (child pnode);
  Some (p, k).

(** Where a node is after the [k]-th child of the node at [q] is deleted. *)
Fixpoint shift_pos (q : pos) (k : nat) (p : pos) : option pos :=
  match q, p with
  | [], j :: p' => if (j <? k)%nat then Some p else if (j =? k)%nat then None else Some ((j - 1)%nat :: p')
  | i :: q', j :: p' => if (i =? j)%nat then r ← shift_pos q' k p'; Some (j :: r) else Some p
  | _, [] => Some p
  end.

Definition shift_ptr (q : pos) (k : nat) (a : nptr) : nptr :=
  match a with Node p => match shift_pos q k p with Some p' => Node p' | None => Freed end | _ => a end.

Definition shift_ptrs (del : option (pos * nat)) (w : world) : world :=
  match del with
  | Some (q, k) => set_ptrs w (shift_ptr q k (g_anchor w)) (map (shift_ptr q k) (held w))
  | None => w
  end.

(** ** Expressions *)

Fixpoint js_escape (str acc : list Z) : list Z :=
  match str with
  | c :: tl =>
      if (length acc <? 511)%nat then
        js_escape tl ((if (c =? 34) || (c =? 36) || (c =? 92) then acc ++ [92] else acc) ++ [c])
      else acc
  | [] => acc
  end.

(** The copy of the value of a node; [value[512]] has no room for a terminator behind 512 characters. *)
Definition query_node (node : list Z) (js : bool) : M (option (list Z)) :=
  w ← get;
  root ← lift (search_root (g_anchor w) node);
  str ← lift (xmldb_get_value (base w) root node);
  if js then
    let s := js_escape str [] in
    if (length s <? 512)%nat then m_strdup s else ub
  else m_strdup str.

(** [strncpy(result, s, 511)]: the string in [result], whose last byte is known to be NUL if [sealed]. *)
Definition copy_result (s : list Z) (sealed : bool) : M (list Z) :=
  if (length s <? 511)%nat then mret s else if sealed then mret (take 511 s) else ub.

(** [final] and [result] combined by the operator before [result]. *)
Definition combine (op : Z) (final result : list Z) : M (list Z) :=
  let arith (r : Z) := n ← lift (int_of r); mret (print_int n) in
  let a := atoi final in let b := atoi result in
  if op =? 46 then if (length final + length result <? MAX_STRING_LEN)%nat then mret (final ++ result) else ub
  else if op =? 43 then arith (a + b)
  else if op =? 45 then arith (a - b)
  else if op =? 42 then arith (a * b)
  else if op =? 47 then if b =? 0 then mret final else arith (Z.quot a b)
  else if op =? 37 then if b =? 0 then ub else _ ← lift (int_of (Z.quot a b)); mret (print_int (Z.rem a b))
  else mret result.

(** The loop of [convert_strlst], with the value of one operand and whether [result] is sealed after it. *)
Definition convert_loop (operand : strlist_t -> bool -> M (list Z * bool)) :=
  fix loop (l : list strlist_t) (final : list Z) (op : Z) (sealed : bool) : M (list Z) :=
    match l with
    | [] => mret final
    | s :: tl =>
        r ← operand s sealed;
        let '(result, sealed) := r in
        final ← combine op final result;
        let op := find_pattern (sl_op s) arith_ops in
        if op =? 0 then mret final else loop tl final op sealed
    end.

Fixpoint operand_value (s : strlist_t) (sealed : bool) : M (list Z * bool) :=
  match s with
  | ST_STR str _ => t ← lift str; r ← copy_result t sealed; mret (r, sealed)
  | ST_VAR str _ => t ← lift str; v ← get_var_value t; r ← copy_result v sealed; mret (r, sealed)
  | ST_QUERY js l _ =>
      final ← convert_loop operand_value l [] 0 false;
      node ← m_strdup final;
      value ← (match node return M (option (list Z)) with Some n => query_node n js | None => mret None end);
      r ← (match value return M (list Z * bool) with
           | Some v => r ← copy_result v sealed; mret (r, sealed)
           | None => mret ([], true)
           end);
      _ ← m_free (owned node + owned value);
      mret r
  end.

Definition convert_strlst (l : list strlist_t) : M (option (list Z)) :=
  final ← convert_loop operand_value l [] 0 false;
  m_strdup final.

Definition bool_int (b : bool) : Z := if b then 1 else 0.

Definition compare (op : ifop_t) (a b : list Z) : Z :=
  match op with
  | IFOP_EQUAL => bool_int (strcmp a b =? 0)
  | IFOP_NOTEQUAL => bool_int (negb (strcmp a b =? 0))
  | IFOP_GREATERTHAN => bool_int (atoi b <? atoi a)
  | IFOP_LESSTHAN => bool_int (atoi a <? atoi b)
  | IFOP_GREATEREQUAL => bool_int (atoi b <=? atoi a)
  | IFOP_LESSEQUAL => bool_int (atoi a <=? atoi b)
  end.

(** [ret] is the result so far. *)
Fixpoint check_condition (l : list cond_t) (ret : Z) : M Z :=
  match l with
  | [] => mret ret
  | c :: tl =>
      op1 ← convert_strlst (operand1 c);
      op2 ← convert_strlst (operand2 c);
      match op1, op2 return M Z with
      | Some a, Some b =>
          let ret := compare (if_op c) a b in
          _ ← m_free 2;
          match next c return M Z with
          | IFNEXT_AND => if ret =? 0 then mret ret else check_condition tl ret
          | IFNEXT_OR => if ret =? 0 then check_condition tl ret else mret ret
          | IFNEXT_END => mret ret
          end
      | _, _ => _ ← m_free (owned op1 + owned op2); mret ret
      end
  end.

(** ** The buffer of a program block *)

Definition PB_INCREASE_STEP : nat := 1024.

(** [realloc]: a block is taken from the heap only if there was none. *)
Definition m_realloc (had : bool) : M bool :=
  ok ← m_malloc;
  _ ← (if ok && had then m_free 1 else mret tt);
  mret ok.

(** The byte at [pb_size], over an old one or behind all. *)
Definition store_byte (b : list Z) (n : nat) (c : Z) : list Z :=
  if (n <? length b)%nat then <[n := c]> b else b ++ [c].

Definition pb_putc (c : Z) : M unit :=
  w ← get;
  _ ← (if (pb_allocsize w <=? pb_size w)%nat then
         ok ← m_realloc (match pb_buff w with Some _ => true | None => false end);
         modify (fun w => set_pb w (if (ok : bool) then Some (default [] (pb_buff w)) else None) (pb_size w) (pb_allocsize w + PB_INCREASE_STEP))
       else mret tt);
  w ← get;
  match pb_buff w return M unit with
  | Some b => modify (fun w => set_pb w (Some (store_byte b (pb_size w) c)) (pb_size w + 1) (pb_allocsize w))
  | None => mret tt
  end.

Definition invalid_format : list Z := Eval cbv in cs "!! invalid format !!".
Definition str_ephp : list Z := Eval cbv in cs "ephp".

(** -1, 0 with the statements, or 1 for a variable that was shown; the white space behind its name is cut off in
    the buffer. *)
Definition check_format : M (Z * list sblock_t) :=
  w ← get;
  b ← lift (pb_buff w);
  c ← at_ b;
  if c =? 61 then
    c ← at_ (tail b);
    if negb (c =? 36) then _ ← b_puts invalid_format; mret (-1, [])
    else
      let t := drop 2 b in
      if existsb (Z.eqb 0) t then
        let nm := xmldb_reatwhite (cstr t) in
        let cut := replicate (length (cstr t) - length nm) 0 in
        _ ← modify (fun w => set_pb w (Some (take 2 b ++ nm ++ cut ++ drop (length (cstr t)) t)) (pb_size w) (pb_allocsize w));
        v ← get_var_value nm;
        _ ← b_puts v;
        mret (1, [])
      else ub
  else
    let ephp := if has_prefix str_ephp b then drop 4 b else b in
    r ← parse_ephp (S (length ephp)) ephp;
    let '(ret, l, _) := r in mret (ret, l).

(** ** Log files *)

(** One line of a file, and the rest of it; the newline is stripped, a NUL ends the line too.  [size] is the size of
    the line buffer, which grows by 80 bytes. *)
Fixpoint line_loop (file acc : list Z) (size : nat) : M (list Z * list Z) :=
  match file with
  | [] => mret (acc, [])
  | c :: tl =>
      r ← (if (size <? length acc + 2)%nat then
             ok ← m_realloc (negb (size =? 0)%nat);
             if (ok : bool) then mret (size + 80)%nat else ub
           else mret size);
      if (c =? 10) || (c =? 0) then mret (acc, tl) else line_loop tl (acc ++ [c]) r
  end.

(** [None] at the end of the file. *)
Definition _get_line_from_file (file : list Z) : M (option (list Z) * list Z) :=
  match file with
  | [] => mret (None, [])
  | _ => r ← line_loop file [] 0; mret (Some (fst r), snd r)
  end.

(** The fields of a line; [None] when there are more than the table holds. *)
Fixpoint split_bar (s : list Z) : list Z * option (list Z) :=
  match s with
  | [] => ([], None)
  | c :: tl => if c =? 124 then ([], Some tl) else let '(w, r) := split_bar tl in (c :: w, r)
  end.

Fixpoint fields (room : nat) (s : list Z) : option (list (list Z)) :=
  match room with
  | O => None
  | S room =>
      match split_bar (xmldb_eatwhite s) with
      | (w, None) => Some [xmldb_reatwhite w]
      | (w, Some r) => l ← fields room r; Some (xmldb_reatwhite w :: l)
      end
  end.

(** A line in the format; a field that the line does not have is NULL. *)
Fixpoint show_line (format : list Z) (fs : list (list Z)) : M unit :=
  match format with
  | [] => mret tt
  | c :: tl =>
      if c =? 37 then
        match tl return M unit with
        | [] => mret tt
        | d :: tl' =>
            if isdigit d then f ← lift (fs !! Z.to_nat (d - 48)); _ ← b_puts f; show_line tl' fs
            else _ ← b_putc d; show_line tl' fs
        end
      else _ ← b_putc c; show_line tl fs
  end.

Fixpoint log_loop (fuel : nat) (format : option (list Z)) (file : list Z) : M unit :=
  match fuel with
  | O => nofuel
  | S fuel =>
      r ← _get_line_from_file file;
      match r return M unit with
      | (None, _) => mret tt
      | (Some line, file) =>
          fs ← lift (fields 16 line);
          text ← lift format;
          _ ← show_line text fs;
          _ ← b_putc 10;
          _ ← m_free 1;
          log_loop fuel format file
      end
  end.

(** ** Statements *)

(** The files that can be opened; whether log files are translated first, and what the translation leaves. *)
Class Files := { file_of : list Z -> option (list Z); o_tlogs : bool; tlogs : list Z -> option (list Z) }.

Definition str_tlogs : list Z := Eval cbv in cs "tlogs -l  > /var/log/tlogsmsg".
Definition hash : list Z := [35].

Section Execute.
Context `{Files}.

Definition execute_anchor (l : list strlist_t) : M Z :=
  node ← convert_strlst l;
  match node return M Z with
  | Some node =>
      w ← get;
      root ← lift (search_root (g_anchor w) node);
      r ← lift (xmldb_find_node (base w) root node false);
      _ ← modify (fun w => set_ptrs (set_base w (snd r)) (match fst r with Some p => Node p | None => Null end) (held w));
      _ ← m_free 1;
      mret 0
  | None => mret (-1)
  end.

Definition _exec_query (js : bool) (l : list strlist_t) : M Z :=
  node ← convert_strlst l;
  match node return M Z with
  | Some node =>
      value ← query_node node js;
      ret ← (match value return M Z with Some v => _ ← b_puts v; _ ← m_free 1; mret 0 | None => mret (-1) end);
      _ ← m_free 1;
      mret ret
  | None => mret (-1)
  end.

Definition execute_del (l : list strlist_t) : M Z :=
  node ← convert_strlst l;
  match node return M Z with
  | Some node =>
      w ← get;
      root ← lift (delete_root (g_anchor w) node);
      r ← lift (xmldb_del_node (base w) root node);
      _ ← modify (fun w' => shift_ptrs (deleted (base w) root node) (set_base w' (snd r)));
      _ ← m_free 1;
      mret 0
  | None => mret (-1)
  end.

Definition execute_set (ln lv : list strlist_t) : M Z :=
  node ← convert_strlst ln;
  value ← convert_strlst lv;
  ret ← (match node, value return M Z with
         | Some node, Some value =>
             w ← get;
             root ← lift (search_root (g_anchor w) node);
             r ← lift (xmldb_set_value (base w) root node value);
             _ ← modify (fun w => set_base w (snd r));
             mret 0
         | _, _ => mret (-1)
         end);
  _ ← m_free (owned node + owned value);
  mret ret.

Definition execute_echo (l : list strlist_t) : M Z :=
  str ← convert_strlst l;
  match str return M Z with Some s => _ ← b_puts s; _ ← m_free 1; mret 0 | None => mret 0 end.

Definition execute_assign (op : aop_t) (variable : option (list Z)) (l : list strlist_t) : M Z :=
  str ← convert_strlst l;
  match str return M Z with
  | Some str =>
      v ← lift variable;
      let arith (f : Z -> Z) := old ← get_var_value v; n ← lift (int_of (f (atoi old))); mret (print_int n) in
      buf ← (match op return M (list Z) with
             | AOP_ASSIGN => if (length str <? MAX_STRING_LEN)%nat then mret str else ub
             | AOP_ADD => arith (fun n => n + atoi str)
             | AOP_SUB => arith (fun n => n - atoi str)
             | AOP_INCREASE => arith (fun n => n + 1)
             | AOP_DECREASE => arith (fun n => n - 1)
             end);
      _ ← m_free 1;
      _ ← set_var v buf;
      mret 0
  | None => mret (-1)
  end.

(** The output of the first match, if any matches; the pattern that matches is not freed. *)
Fixpoint match_loop (l : list match_t) (value : list Z) : M (option (list Z)) :=
  match l with
  | [] => mret None
  | m :: tl =>
      patt ← convert_strlst (pattern m);
      match patt return M (option (list Z)) with
      | Some p => if strcmp p value =? 0 then convert_strlst (output m) else _ ← m_free 1; match_loop tl value
      | None => match_loop tl value
      end
  end.

Definition execute_map (l : list strlist_t) (dflt : option match_t) (matches : list match_t) : M Z :=
  node ← convert_strlst l;
  match node return M Z with
  | Some node =>
      value ← query_node node false;
      r ← (match value return M (Z * option (list Z)) with
           | Some value =>
               out ← match_loop matches value;
               out ← (match out, dflt return M (option (list Z)) with
                      | None, Some m => convert_strlst (output m)
                      | _, _ => mret out
                      end);
               _ ← b_puts (match out with Some o => o | None => value end);
               _ ← m_free 1;
               mret (0, out)
           | None => mret (-1, None)
           end);
      _ ← m_free 1;
      _ ← m_free (owned (snd r));
      mret (fst r)
  | None => mret (-1)
  end.

Definition execute_inclog (format file : option (list Z)) : M Z :=
  name ← lift file;
  content ← (if o_tlogs then
               if (length str_tlogs + length name <? 256)%nat then mret (tlogs name) else ub
             else mret (file_of name));
  match content return M Z with
  | Some c => _ ← log_loop (S (length c)) format c; mret 0
  | None => mret 0
  end.

Section Blocks.
(** The execution of the blocks inside, and a bound on the turns of a loop. *)
Variables (block : list sblock_t -> M Z) (turns : nat).

Definition execute_if (c : list cond_t) (t f : list sblock_t) : M Z :=
  ret ← check_condition c (-1);
  if ret <? 0 then mret (-1) else if ret =? 0 then block f else block t.

(** The turns of [for] from number [id] on; the pointers it keeps are the first two of [held]. *)
Fixpoint for_loop (turns : nat) (entry : list Z) (id : Z) (statement : list sblock_t) : M Z :=
  match turns with
  | O => nofuel
  | S turns =>
      w ← get;
      p ← lift (match held w with Node p :: _ => Some p | _ => None end);
      pnode ← lift (node_at (g_xml_root (base w)) p);
      match index_of (is_node entry id) (child pnode) return M Z with
      | None => mret 0
      | Some k =>
          _ ← modify (fun w => set_ptrs w (Node (p ++ [k])) (held w));
          let num := dec id in
          if (length num <? 8)%nat then
            _ ← set_var hash num;
            ret ← block statement;
            if negb (ret =? 0) then mret ret else for_loop turns entry (id + 1) statement
          else ub
      end
  end.

(** The path is cut at its last slash; without one the entries are those below the anchor. *)
Definition execute_for (l : list strlist_t) (statement : list sblock_t) : M Z :=
  path ← convert_strlst l;
  match path return M Z with
  | None => _ ← b_puts malloc_error; mret (-1)
  | Some path =>
      w ← get;
      r ← (match strrchr_slash path return M (nptr * list Z) with
           | None => mret (g_anchor w, path)
           | Some (path, entry) =>
               root ← lift (search_root (g_anchor w) path);
               r ← lift (xmldb_find_node (base w) root path false);
               mret (match fst r with Some p => Node p | None => Null end, entry)
           end);
      let '(pnode, entry) := r in
      match pnode return M Z with
      | Null => _ ← m_free 1; mret 0
      | _ =>
          var ← get_var hash;
          w ← get;
          oldnum ← lift (match var with Some i => v ← g_nspace w !! i; v_value v | None => Some [48] end);
          if (length oldnum <? 8)%nat then
            _ ← modify (fun w => set_ptrs w (g_anchor w) (pnode :: g_anchor w :: held w));
            ret ← for_loop turns entry 1 statement;
            _ ← set_var hash oldnum;
            _ ← modify (fun w => match held w with _ :: a :: tl => set_ptrs w a tl | _ => w end);
            _ ← m_free 1;
            mret ret
          else ub
      end
  end.

(** A program block: the text is complete. *)
Definition run_block : M Z :=
  r ← check_format;
  let '(ret, l) := r in
  ret ← (if ret =? 1 then mret 0 else if ret =? 0 then block l else mret ret);
  _ ← destroy_sblist l;
  mret ret.

(** The states of [do_embeded_php]. *)
Inductive state := Outside | Inside | Comment | LineComment.

Definition clear_pb : M unit := modify (fun w => set_pb w (pb_buff w) 0 (pb_allocsize w)).

Fixpoint embeded_loop (s : state) (file : list Z) : M Z :=
  match file with
  | [] => mret 0
  | c :: tl =>
      match s with
      | Outside =>
          if c =? 60 then
            match tl with
            | [] => mret 0
            | c' :: tl' =>
                if c' =? 63 then _ ← clear_pb; embeded_loop Inside tl'
                else _ ← b_putc 60; _ ← b_putc c'; embeded_loop Outside tl'
            end
          else _ ← b_putc c; embeded_loop Outside tl
      | Inside =>
          if c =? 47 then
            match tl with
            | [] => mret 0
            | c' :: tl' =>
                if c' =? 42 then embeded_loop Comment tl'
                else if c' =? 47 then embeded_loop LineComment tl'
                else _ ← pb_putc 47; _ ← pb_putc c'; embeded_loop Inside tl'
            end
          else if c =? 63 then
            match tl with
            | [] => mret 0
            | c' :: tl' =>
                if c' =? 62 then
                  _ ← pb_putc 0;
                  ret ← run_block;
                  if negb (ret =? 0) then mret ret else embeded_loop Outside tl'
                else _ ← pb_putc 63; _ ← pb_putc c'; embeded_loop Inside tl'
            end
          else _ ← pb_putc c; embeded_loop Inside tl
      | Comment =>
          if c =? 42 then
            match tl with
            | [] => mret 0
            | c' :: tl' => embeded_loop (if c' =? 47 then Inside else Comment) tl'
            end
          else embeded_loop Comment tl
      | LineComment => embeded_loop (if (c =? 10) || (c =? 13) then Inside else LineComment) tl
      end
  end.

Definition do_embeded_php (file : list Z) : M Z := embeded_loop Outside file.

Definition execute_require (l : list strlist_t) : M Z :=
  fname ← convert_strlst l;
  match fname return M Z with
  | Some fname =>
      ret ← (match file_of fname return M Z with Some f => do_embeded_php f | None => mret (-1) end);
      _ ← m_free 1;
      mret ret
  | None => mret (-1)
  end.

Definition execute_statement (s : sblock_t) : M Z :=
  match s with
  | SB_REQUIRE l => execute_require l
  | SB_ANCHOR l => execute_anchor l
  | SB_QUERY js l => _exec_query js l
  | SB_DEL l => execute_del l
  | SB_SET a b => execute_set a b
  | SB_ECHO l => execute_echo l
  | SB_ASSIGN op v l => execute_assign op v l
  | SB_MAP l d ms => execute_map l d ms
  | SB_INCLOG a b => execute_inclog a b
  | SB_IF c t f => execute_if c t f
  | SB_FOR l b => execute_for l b
  | SB_EXIT => mret 1
  end.

Fixpoint execute_list (l : list sblock_t) : M Z :=
  match l with
  | [] => mret 0
  | s :: tl => ret ← execute_statement s; if negb (ret =? 0) then mret ret else execute_list tl
  end.
End Blocks.

(** The fuel bounds the nesting of blocks and required files, and the turns of each loop. *)
Fixpoint execute_sblist (fuel : nat) (l : list sblock_t) : M Z :=
  match fuel with
  | O => nofuel
  | S fuel => execute_list (execute_sblist fuel) fuel l
  end.

(** ** Requests *)

(** The text before the first [c], and behind it. *)
Fixpoint split_char (c : Z) (s : list Z) : list Z * option (list Z) :=
  match s with
  | [] => ([], None)
  | x :: tl => if x =? c then ([], Some tl) else let '(w, r) := split_char c tl in (x :: w, r)
  end.

Fixpoint set_vars_loop (fuel : nat) (var : option (list Z)) : M unit :=
  match fuel with
  | O => nofuel
  | S fuel =>
      match var with
      | None => mret tt
      | Some var =>
          match split_char 61 var with
          | (_, None) => mret tt
          | (v, Some rest) => let '(value, next) := split_char 10 rest in _ ← set_var v value; set_vars_loop fuel next
          end
      end
  end.

Definition xmldb_ephp (fuel : nat) (message : list Z) : M Z :=
  let '(file, var) := split_char 10 message in
  ret ← (match file_of file return M Z with
         | Some f =>
             _ ← set_var hash [48];
             _ ← set_vars_loop (S (length message)) var;
             ret ← do_embeded_php (execute_sblist fuel) f;
             _ ← clear_var;
             mret ret
         | None => mret (-1)
         end);
  _ ← b_putc 0;
  _ ← b_flush;
  mret ret.
End Execute.

(** ** The value of an expression *)

Definition limit (n : nat) (s : list Z) : option (list Z) := if (length s <? n)%nat then Some s else None.

(** The operations on integers; [None] is an overflow or a remainder by zero. *)
Definition arith (op a b : Z) : option Z :=
  if op =? 43 then int_of (a + b)
  else if op =? 45 then int_of (a - b)
  else if op =? 42 then int_of (a * b)
  else if b =? 0 then None
  else q ← int_of (Z.quot a b); Some (if op =? 47 then q else Z.rem a b).

(** A dot appends; the other operators compute with the numbers at the beginning of the texts, and a division by
    zero leaves its left side alone. *)
Definition apply_op (op : Z) (x y : list Z) : option (list Z) :=
  if op =? 46 then limit MAX_STRING_LEN (x ++ y)
  else if (op =? 47) && (atoi y =? 0) then Some x
  else n ← arith op (atoi x) (atoi y); Some (print_int n).

Definition js_char (c : Z) : list Z := if (c =? 34) || (c =? 36) || (c =? 92) then [92; c] else [c].

Section Eval.
(** The values of the variables and of the nodes. *)
Variables (env query : list Z -> list Z).

(** From left to right; [op] is the operator behind [x]. *)
Definition eval_from (operand : strlist_t -> option (list Z)) :=
  fix go (x : list Z) (op : Z) (l : list strlist_t) {struct l} : option (list Z) :=
    match l with
    | [] => Some x
    | s :: tl => if find_pattern op arith_ops =? 0 then Some x else y ← operand s; z ← apply_op op x y; go z (sl_op s) tl
    end.

Definition eval_list (operand : strlist_t -> option (list Z)) (l : list strlist_t) : option (list Z) :=
  match l with [] => Some [] | s :: tl => x ← operand s; eval_from operand x (sl_op s) tl end.

Fixpoint eval_operand (s : strlist_t) : option (list Z) :=
  match s with
  | ST_STR t _ => t ≫= limit 511
  | ST_VAR v _ => v ≫= (fun x => limit 511 (env x))
  | ST_QUERY js l _ =>
      p ← match l with [] => Some [] | s :: tl => x ← eval_operand s; eval_from eval_operand x (sl_op s) tl end;
      limit 511 (if js then flat_map js_char (query p) else query p)
  end.

Definition eval (l : list strlist_t) : option (list Z) := eval_list eval_operand l.
End Eval.

(** ** Looking up in a tree that does not change *)

Definition anchor_ok (w : world) : Prop :=
  match g_anchor w with Null => True | Node p => is_Some (node_at (g_xml_root (base w)) p) | Freed => False end.

Definition look (w : world) (path : list Z) : option (list Z) :=
  root ← search_root (g_anchor w) path; xmldb_get_value (base w) root path.

Lemma look_total w path : anchor_ok w -> exists v, look w path = Some v /\
  forall w', g_anchor w' = g_anchor w -> g_xml_root (base w') = g_xml_root (base w) -> look w' path = Some v.
Proof.
  intros Ha. assert (exists root, search_root (g_anchor w) path = Some root /\ valid (base w) (Some (default [] root))) as (root & Er & Hv).
  { unfold search_root, anchor_ok in *. destruct (_ =? 47); [by eexists; split; [|eexists]|].
    destruct (g_anchor w) as [|p|]; [by eexists; split; [|eexists]|by exists (Some p)|done]. }
  destruct (find_node_from (base w) root path Hv) as (t & Et & Hvt & Ht).
  unfold look, xmldb_get_value. rewrite Er. cbn [mbind option_bind]. rewrite Et. cbn [mbind option_bind].
  assert (exists v, (match t with Some p => node ← node_at (g_xml_root (base w)) p; Some (default [] (value node)) | None => Some [] end) = Some v) as [v Ev].
  { destruct t as [p|]; [|by eexists]. destruct Hvt as [n Hn]. rewrite Hn. by eexists. }
  exists v. split; [by destruct t|]. intros w' Ea Eb. rewrite Ea, Er. cbn [mbind option_bind]. rewrite (Ht _ Eb). cbn [mbind option_bind].
  by destruct t; rewrite ?Eb.
Qed.

(** The value of a variable; one that does not exist has the empty value. *)
Definition env_of (w : world) (x : list Z) : list Z :=
  default [] (i ← find_var (g_nspace w) x; i ← i; v ← g_nspace w !! i; v_value v).

Definition query_of (w : world) (path : list Z) : list Z := default [] (look w path).

Definition var_ok' (v : var_t) : Prop := is_Some (v_name v) /\ is_Some (v_value v).

(** Memory does not fail, the variables have names and values, and the anchor is a node or NULL. *)
Definition settled (w : world) : Prop := ready w /\ Forall var_ok' (g_nspace w) /\ anchor_ok w.

(** Nothing has changed but the heap and the list of variables, and no value of one; [n] blocks are taken
    besides those of the variables. *)
Definition kept (n : Z) (w w' : world) : Prop :=
  w' = set_vars (set_heap w (w_heap w')) (g_nspace w') /\ (forall x, env_of w' x = env_of w x) /\
  w_live w' - vars_blocks (g_nspace w') = w_live w - vars_blocks (g_nspace w) + n.

Lemma kept_trans a b w1 w2 w3 : kept a w1 w2 -> kept b w2 w3 -> kept (a + b) w1 w3.
Proof.
  intros (E1 & H1 & L1) (E2 & H2 & L2). split; [|split; [intros x; by rewrite H2|lia]].
  rewrite E2 at 1. rewrite E1 at 1. done.
Qed.

Lemma kept_refl w : kept 0 w w.
Proof. split; [by destruct w as [[] ]|]. split; [done|lia]. Qed.

Lemma kept_query n w w' : anchor_ok w -> kept n w w' -> anchor_ok w' /\ forall p, look w' p = look w p.
Proof.
  intros Ha (E & _ & _). assert (g_anchor w' = g_anchor w /\ g_xml_root (base w') = g_xml_root (base w)) as [E1 E2] by (by rewrite E).
  split; [unfold anchor_ok in *; by rewrite E1, E2|]. intros p. destruct (look_total w p Ha) as (v & Hv & Hs). by rewrite Hv, Hs.
Qed.

(** [m] returns [o], or is undefined if that is [None], in every settled world with these values. *)
Definition yields {A} (E Q : list Z -> list Z) (m : M A) (o : option A) (n : Z) : Prop := forall w,
  settled w -> (forall x, env_of w x = E x) -> (forall p, look w p = Some (Q p)) ->
  match o with Some a => exists w', m w = Ret (a, w') /\ kept n w w' /\ settled w' | None => m w = UB end.

Section Values.
Context (E Q : list Z -> list Z).

Lemma yields_ret {A} (a : A) : yields E Q (mret a) (Some a) 0.
Proof using Type. intros w Hw _ _. exists w. split; [done|]. split; [apply kept_refl|done]. Qed.

Lemma yields_ub {A} n : yields E Q (ub : M A) None n.
Proof using Type. done. Qed.

Lemma yields_lift {A} (o : option A) : yields E Q (lift o) o 0.
Proof using Type. destruct o; [apply yields_ret|apply yields_ub]. Qed.

Lemma yields_bind {A B} (m : M A) (k : A -> M B) o o' n n' :
  yields E Q m o n -> (forall a, o = Some a -> yields E Q (k a) (o' a) n') -> yields E Q (x ← m; k x) (o ≫= o') (n + n').
Proof using Type.
  intros Hm Hk w Hw He Hq. change ((x ← m; k x) w) with (match m w with Ret (x, w') => k x w' | UB => UB | NoFuel => NoFuel end). specialize (Hm w Hw He Hq). destruct o as [a|]; cbn [mbind option_bind].
  - destruct Hm as (w' & -> & Hkept & Hw'). specialize (Hk a eq_refl w' Hw').
    assert (forall x, env_of w' x = E x) as He' by (intros x; destruct Hkept as (_ & -> & _); auto).
    assert (forall p, look w' p = Some (Q p)) as Hq' by (intros p; destruct (kept_query _ _ _ (proj2 (proj2 Hw)) Hkept) as [_ ->]; auto).
    specialize (Hk He' Hq'). destruct (o' a) as [b|]; [|done]. destruct Hk as (w'' & -> & Hkept' & Hw''). exists w''.
    split; [done|]. split; [by eapply kept_trans|done].
  - by rewrite Hm.
Qed.

Lemma yields_eq {A} (m : M A) o n o' n' : yields E Q m o n -> o = o' -> n = n' -> yields E Q m o' n'.
Proof using Type. by intros H <- <-. Qed.

Lemma kept_heap n w h : avail h = avail (w_heap w) -> live h = w_live w + n -> kept n w (set_heap w h).
Proof using Type. intros Ha Hl. split; [by destruct w as [[] ]|]. split; [done|].
  change (w_live (set_heap w h)) with (live h). change (g_nspace (set_heap w h)) with (g_nspace w). lia.
Qed.

Lemma yields_strdup s : yields E Q (m_strdup s) (Some (Some s)) 1.
Proof using Type.
  intros w Hw _ _. eexists. split; [apply runs_strdup, Hw|]. split; [by apply kept_heap|]. done.
Qed.

Lemma yields_free k : yields E Q (m_free k) (Some tt) (- k).
Proof using Type. intros w Hw _ _. eexists. split; [done|]. split; [by apply kept_heap|done]. Qed.

Lemma yields_copy s : yields E Q (copy_result s false) (limit 511 s) 0.
Proof using Type. unfold copy_result, limit. destruct (_ <? _)%nat; [apply yields_ret|apply yields_ub]. Qed.

Lemma find_var_spec l x : Forall var_ok' l ->
  find_var l x = Some None /\ (forall v, v ∈ l -> v_name v <> Some x) \/
  exists i v s, find_var l x = Some (Some i) /\ l !! i = Some v /\ v_name v = Some x /\ v_value v = Some s.
Proof using Type.
  induction 1 as [|v l [[n Hn] [s Hs]] _ IH]; cbn [find_var]; [left; split; [done|]; intros v Hv; by apply not_elem_of_nil in Hv|].
  rewrite Hn. cbn [mbind option_bind]. destruct (strcmp n x =? 0) eqn:Ex; bprop.
  - apply strcmp_eq in Ex as ->. right. by exists 0%nat, v, s.
  - assert (n <> x) as Hne by (intros ->; apply Ex; by apply strcmp_eq).
    destruct IH as [[-> IH]|(i & v' & s' & -> & Hi & Hv)]; cbn.
    + left. split; [done|]. intros v' Hv'. apply elem_of_cons in Hv' as [->|Hv']; [congruence|auto].
    + right. by exists (S i), v', s'.
Qed.

Lemma env_of_new w x y : Forall var_ok' (g_nspace w) -> find_var (g_nspace w) x = Some None ->
  env_of (set_vars w (mkvar (Some x) (Some []) :: g_nspace w)) y = env_of w y.
Proof using Type.
  intros Hw Hx. unfold env_of. cbn [g_nspace set_vars find_var v_name mbind option_bind].
  destruct (strcmp x y =? 0) eqn:Exy; bprop; cbn.
  - apply strcmp_eq in Exy as <-. by rewrite Hx.
  - destruct (find_var (g_nspace w) y) as [[i|]|]; done.
Qed.
End Values.

Section Values2.
Context (E Q : list Z -> list Z).

(** What a new variable does to the world. *)
Definition with_var (w : world) (x v : list Z) : world := set_vars (add_live w 3) (mkvar (Some x) (Some v) :: g_nspace w).

Lemma new_var_run x v w : ready w -> _new_var x v w = Ret (tt, with_var w x v).
Proof using Type.
  intros Hw. unfold _new_var, mbind, M_bind. rewrite (runs_malloc w Hw). cbn beta iota.
  rewrite (runs_strdup x _ (ready_add _ _ Hw)). cbn beta iota. rewrite (runs_strdup v _ (ready_add _ _ (ready_add _ _ Hw))). cbn beta iota.
  unfold modify, with_var. by rewrite !add_live_add.
Qed.

(** Reading a variable makes it if it does not exist. *)
Lemma get_var_run x w : settled w -> exists w' i v, get_var x w = Ret (Some i, w') /\ g_nspace w' !! i = Some v /\
  v_name v = Some x /\ v_value v = Some (env_of w x) /\ kept 0 w w' /\ settled w'.
Proof using Type.
  intros (Hr & Hv & Ha). unfold get_var, mbind, M_bind, get. cbn beta iota. unfold env_of.
  destruct (find_var_spec (g_nspace w) x Hv) as [[Ef Hn]|(i & v & s & Ef & Hi & Hx & Hs)]; rewrite Ef; cbn.
  - rewrite new_var_run by done. exists (with_var w x []), 0%nat, (mkvar (Some x) (Some [])). repeat split; try done.
    + intros y. rewrite <- (env_of_new w x y Hv Ef). done.
    + change (w_live (with_var w x [])) with (w_live w + 3).
      change (vars_blocks (g_nspace (with_var w x []))) with (1 + 1 + 1 + vars_blocks (g_nspace w)). lia.
    + constructor; [split; by eexists|done].
  - exists w, i, v. rewrite Hi. cbn. rewrite Hs. split_and!; try done; apply kept_refl.
Qed.

Lemma yields_var x : yields E Q (get_var_value x) (Some (E x)) 0.
Proof using Type.
  intros w Hw He _. destruct (get_var_run x w Hw) as (w' & i & v & Eg & Hi & _ & Hs & Hk & Hw').
  exists w'. split; [|done]. unfold get_var_value, mbind, M_bind. rewrite Eg. unfold get. cbn [option_bind]. rewrite Hi. cbn [option_bind]. by rewrite Hs, He.
Qed.

(** The escaped text, up to the limit of the buffer. *)
Lemma js_escape_text s : forall acc, (length acc < 511)%nat -> (length (acc ++ flat_map js_char s) < 511)%nat ->
  js_escape s acc = acc ++ flat_map js_char s.
Proof using Type.
  induction s as [|c s IH]; intros acc Ha Hl; cbn [js_escape flat_map] in *; [by rewrite app_nil_r|].
  rewrite (proj2 (Nat.ltb_lt _ _) Ha). unfold js_char at 1 in Hl. unfold js_char at 1.
  assert (length (acc ++ js_char c) < 511)%nat as Hc by (unfold js_char; rewrite !length_app in *; lia).
  destruct (_ || _) eqn:Ec; rewrite app_assoc in *; unfold js_char in Hc; rewrite Ec in Hc; rewrite IH; try done;
    rewrite <- ?app_assoc in *; done.
Qed.

Lemma js_escape_long s : forall acc, (511 <= length (acc ++ flat_map js_char s))%nat -> (511 <= length (js_escape s acc))%nat.
Proof using Type.
  induction s as [|c s IH]; intros acc Hl; cbn [js_escape flat_map] in *; [by rewrite app_nil_r in Hl|].
  destruct (_ <? _)%nat eqn:Ea; [|by apply Nat.ltb_ge in Ea]. apply IH. unfold js_char at 1 in Hl.
  destruct (_ || _); rewrite <- ?app_assoc in *; done.
Qed.

Definition js_text (js : bool) (s : list Z) : option (list Z) :=
  if js then limit 512 (js_escape s []) else Some s.

Lemma yields_query p js : yields E Q (query_node p js) (option_map Some (js_text js (Q p))) 1.
Proof using Type.
  intros w Hw He Hq. pose proof (Hq p) as Hp. unfold look in Hp.
  assert (query_node p js w = (if js then if (length (js_escape (Q p) []) <? 512)%nat then m_strdup (js_escape (Q p) []) else ub
    else m_strdup (Q p)) w) as ->.
  { unfold query_node, mbind, M_bind, get. destruct (search_root (g_anchor w) p) as [root|]; [|done].
    cbn [mbind option_bind] in Hp. cbn. rewrite Hp. by destruct js. }
  unfold js_text, limit. destruct js; [|exact (yields_strdup E Q (Q p) w Hw He Hq)].
  destruct (_ <? _)%nat; [exact (yields_strdup E Q _ w Hw He Hq)|done].
Qed.

Lemma js_text_limit js s : js_text js s ≫= limit 511 = limit 511 (if js then flat_map js_char s else s).
Proof using Type.
  unfold js_text. destruct js; [|done]. destruct (Nat.lt_ge_cases (length (flat_map js_char s)) 511) as [El|El].
  - rewrite js_escape_text by (cbn [app length]; lia). cbn [app]. unfold limit.
    rewrite (proj2 (Nat.ltb_lt _ 512)) by lia. done.
  - pose proof (js_escape_long s [] El) as Hl. unfold limit. rewrite (proj2 (Nat.ltb_ge _ _) El).
    destruct (_ <? 512)%nat; [|done]. cbn [mbind option_bind]. by rewrite (proj2 (Nat.ltb_ge _ _) Hl).
Qed.

Lemma yields_combine op x y : find_pattern op arith_ops <> 0 -> yields E Q (combine op x y) (apply_op op x y) 0.
Proof using Type.
  intros Hop. unfold combine, apply_op, arith, limit. rewrite length_app.
  assert (forall r, yields E Q (n ← lift (int_of r); mret (print_int n)) (n ← int_of r; Some (print_int n)) 0) as Har.
  { intros r. apply (yields_bind E Q _ _ _ _ 0 0); [apply yields_lift|]. intros a _. apply yields_ret. }
  destruct (op =? 46) eqn:E0; bprop; [destruct (_ <? _)%nat; [apply yields_ret|apply yields_ub]|].
  destruct (op =? 43) eqn:E1; bprop; [subst op; apply Har|].
  destruct (op =? 45) eqn:E2; bprop; [subst op; apply Har|].
  destruct (op =? 42) eqn:E3; bprop; [subst op; apply Har|].
  destruct (op =? 47) eqn:E4; bprop.
  - destruct (atoi y =? 0); [apply yields_ret|]. cbn [andb]. eapply yields_eq; [apply Har| |done].
    by destruct (int_of _).
  - cbn [andb]. destruct (op =? 37) eqn:E5; bprop.
    + destruct (atoi y =? 0); [apply yields_ub|]. eapply yields_eq.
      { eapply (yields_bind E Q _ _ _ _ 0 0); [apply yields_lift|]. intros q _. apply yields_ret. }
      { by destruct (int_of (Z.quot _ _)). }
      done.
    + exfalso. apply Hop. unfold arith_ops. cbn [find_pattern].
      rewrite !(proj2 (Z.eqb_neq _ _)) by assumption. done.
Qed.
End Values2.

Lemma find_pattern_id c l : find_pattern c l <> 0 -> find_pattern c l = c.
Proof. induction l as [|x l IH]; cbn; [done|]. destruct (c =? x) eqn:E; bprop; [by subst|exact IH]. Qed.

Section Values3.
Context (E Q : list Z -> list Z).

Abbreviation ev := (eval_operand E Q).
Definition operand_yields (s : strlist_t) : Prop :=
  yields E Q (operand_value s false) (v ← ev s; Some (v, false)) 0.

Lemma yields_loop l : Forall operand_yields l -> forall x op, find_pattern op arith_ops <> 0 ->
  yields E Q (convert_loop operand_value l x op false) (eval_from ev x op l) 0.
Proof using Type.
  induction 1 as [|s l Hs Hl IH]; intros x op Hop; cbn [convert_loop eval_from]; [apply yields_ret|].
  rewrite (proj2 (Z.eqb_neq _ _) Hop). eapply yields_eq.
  { eapply (yields_bind E Q _ _ _ (fun r => z ← apply_op op x (fst r); eval_from ev z (sl_op s) l) 0 0); [exact Hs|].
    intros [y sealed] Hy. destruct (ev s) as [y'|]; cbn in Hy; [|done]. injection Hy as <- <-. cbn [fst].
    eapply (yields_bind E Q _ _ _ _ 0 0); [by apply yields_combine|]. intros z _. cbn zeta.
    destruct (find_pattern (sl_op s) arith_ops =? 0) eqn:Ef.
    - eapply yields_eq; [apply yields_ret| |done]. destruct l; [done|]. cbn [eval_from]. by rewrite Ef.
    - bprop. rewrite (find_pattern_id _ _ Ef). by apply IH. }
  all: try done. by destruct (ev s).
Qed.

Lemma yields_list l : Forall operand_yields l -> yields E Q (convert_loop operand_value l [] 0 false) (eval_list ev l) 0.
Proof using Type.
  intros H. destruct H as [|s l Hs Hl]; [apply yields_ret|]. cbn [convert_loop eval_list]. eapply yields_eq.
  { eapply (yields_bind E Q _ _ _ (fun r => eval_from ev (fst r) (sl_op s) l) 0 0); [exact Hs|].
    intros [y sealed] Hy. destruct (ev s) as [y'|]; cbn in Hy; [|done]. injection Hy as <- <-. cbn [fst].
    change (combine 0 [] y') with (mret y' : M (list Z)).
    eapply (yields_bind E Q _ _ (Some y') (fun _ => _) 0 0); [apply yields_ret|]. intros z [= <-]. cbn zeta.
    destruct (find_pattern (sl_op s) arith_ops =? 0) eqn:Ef.
    - eapply yields_eq; [apply yields_ret| |done]. destruct l; [done|]. cbn [eval_from]. by rewrite Ef.
    - bprop. rewrite (find_pattern_id _ _ Ef). by apply yields_loop. }
  all: try done. by destruct (ev s).
Qed.

Lemma yields_copy_free v k :
  yields E Q (r ← (r ← copy_result v false; mret (r, false)); _ ← m_free k; mret r) (r ← limit 511 v; Some (r, false)) (- k).
Proof using Type.
  unfold copy_result, limit. destruct (_ <? _)%nat; [|done]. eapply yields_eq.
  { refine (yields_bind E Q _ _ (Some (v, false)) (fun r => Some r) 0 (- k + 0) _ _).
    - refine (yields_bind E Q _ _ (Some v) (fun r => Some (r, false)) 0 0 (yields_ret E Q v) _). intros a _. apply yields_ret.
    - intros r _. refine (yields_bind E Q _ _ (Some tt) (fun _ => Some r) (- k) 0 (yields_free E Q k) _). intros _ _. apply yields_ret. }
  { done. }
  lia.
Qed.

Lemma yields_operand s : operand_yields s.
Proof using Type.
  induction s as [[t|] op|[v|] op|js l op IH] using strlist_ind'; unfold operand_yields; cbn [operand_value eval_operand lift mbind option_bind].
  - eapply yields_eq.
    { eapply (yields_bind E Q _ _ (Some t) (fun t => r ← limit 511 t; Some (r, false)) 0 0); [apply yields_ret|]. intros t' [= <-].
      eapply (yields_bind E Q _ _ _ (fun r => Some (r, false)) 0 0); [apply yields_copy|]. intros a _. apply yields_ret. }
    all: done.
  - apply yields_ub.
  - eapply yields_eq.
    { eapply (yields_bind E Q _ _ (Some v) (fun v => r ← limit 511 (E v); Some (r, false)) 0 0); [apply yields_ret|]. intros t' [= <-].
      refine (yields_bind E Q _ _ (Some (E v)) (fun t => r ← limit 511 t; Some (r, false)) 0 0 (yields_var E Q v) _); intros x [= <-].
      eapply (yields_bind E Q _ _ _ (fun r => Some (r, false)) 0 0); [apply yields_copy|]. intros a _. apply yields_ret. }
    all: done.
  - apply yields_ub.
  - eapply yields_eq.
    { eapply (yields_bind E Q _ _ _ (fun p => v ← js_text js (Q p); r ← limit 511 v; Some (r, false)) 0); [by apply yields_list|]. intros p _.
      eapply (yields_bind E Q _ _ (Some (Some p)) (fun _ => _) 1); [apply yields_strdup|]. intros ? [= <-].
      eapply yields_eq.
      { eapply (yields_bind E Q _ _ _ (fun o => v ← o; r ← limit 511 v; Some (r, false)) 1); [apply yields_query|].
        intros o Ho. destruct (js_text js (Q p)) as [v|]; [|done]. injection Ho as <-.
        cbn [mbind option_bind owned]. exact (yields_copy_free v 2). }
      { by destruct (js_text js (Q p)). }
      reflexivity. }
    { fold (eval_list ev l). destruct (eval_list ev l) as [p|]; [|done]. cbn [mbind option_bind]. rewrite <- (js_text_limit js (Q p)).
      by destruct (js_text js (Q p)). }
    done.
Qed.
End Values3.

(** Expressions have the value that reading them from left to right gives: variables and nodes stand for their
    values, a dot appends, arithmetic is that of the numbers at the beginning of the texts.  With memory at hand,
    [convert_strlst] returns it in a new block and changes nothing else, apart from making the variables it read
    and did not find; and it is undefined exactly when a value has 511 characters or more, a text 1024 or more,
    a result does not fit into an [int], or a remainder by zero is asked for. *)
Theorem convert_strlst_eval (l : list strlist_t) (w : world) : settled w ->
  match eval (env_of w) (query_of w) l with
  | Some v => exists w', convert_strlst l w = Ret (Some v, w') /\ kept 1 w w' /\ settled w'
  | None => convert_strlst l w = UB
  end.
Proof.
  intros Hw. set (E := env_of w). set (Q := query_of w).
  assert (yields E Q (convert_strlst l) (v ← eval E Q l; Some (Some v)) (0 + 1)) as H.
  { apply yields_bind; [apply yields_list, Forall_forall; intros s _; apply yields_operand|]. intros v _. apply yields_strdup. }
  assert (forall p, look w p = Some (Q p)) as HQ.
  { intros p. destruct (look_total w p (proj2 (proj2 Hw))) as (v & Hv & _). unfold Q, query_of. by rewrite Hv. }
  specialize (H w Hw (fun _ => eq_refl) HQ). by destruct (eval E Q l).
Qed.

(** ** Templates *)

Inductive piece := Text (t : list Z) | Code (l : list sblock_t).

Definition render (p : piece) : list Z :=
  match p with Text t => t | Code l => [60; 63] ++ print_sblist l ++ [63; 62] end.

(** A text without the beginning of a block; the character behind a [<] is not looked at again. *)
Fixpoint text_ok (t : list Z) : bool :=
  match t with
  | [] => true
  | c :: tl => if c =? 60 then match tl with [] => false | c' :: tl' => negb (c' =? 63) && text_ok tl' end else text_ok tl
  end.

(** A program without the end of a block or the beginning of a comment, be it in a string. *)
Fixpoint code_ok (t : list Z) : bool :=
  match t with
  | [] => true
  | c :: tl =>
      if (c =? 47) || (c =? 63) then
        match tl with
        | [] => false
        | c' :: tl' => (if c =? 47 then negb (c' =? 42) && negb (c' =? 47) else negb (c' =? 62)) && code_ok tl'
        end
      else code_ok tl
  end.

Definition piece_ok (p : piece) : bool :=
  match p with Text t => text_ok t | Code l => forallb sblock_ok l && code_ok (print_sblist l) end.

(** The size of the block for [n] bytes, from [a] on. *)
Definition room (a n : nat) : nat := if (n <=? a)%nat then a else (a + 1024 * ((n - a + 1023) / 1024))%nat.

(** The buffer with the text [t] stored over its old bytes. *)
Definition stored (t : list Z) (w : world) : world :=
  set_pb (add_live w (match pb_buff w with Some _ => 0 | None => 1 end)) (Some (t ++ drop (length t) (default [] (pb_buff w))))
         (length t) (room (pb_allocsize w) (length t)).

(** The statements of a block, in memory with their text. *)
Definition loaded (l : list sblock_t) (w : world) : world := add_live (stored (print_sblist l ++ [0]) w) (sblist_blocks l + sblist_lost l).

Section Play.
Variable block : list sblock_t -> M Z.

(** What a template means: texts are written, blocks are executed until one does not return 0. *)
Fixpoint play (ps : list piece) : M Z :=
  match ps with
  | [] => mret 0
  | Text t :: tl => _ ← b_puts t; play tl
  | Code l :: tl =>
      _ ← modify (loaded l);
      ret ← block l;
      _ ← destroy_sblist l;
      if negb (ret =? 0) then mret ret else play tl
  end.
End Play.

(** The buffer has no block, or one with room for what was stored. *)
Definition pb_ok (w : world) : Prop :=
  match pb_buff w with
  | None => pb_allocsize w = 0%nat /\ pb_size w = 0%nat
  | Some b => (length b <= pb_allocsize w)%nat /\ (0 < pb_allocsize w)%nat /\ (pb_size w <= pb_allocsize w)%nat
  end.

Definition steady (w : world) : Prop := ready w /\ pb_ok w.

Lemma bind_assoc {A B C} (m : M A) (k : A -> M B) (h : B -> M C) w : (y ← (x ← m; k x); h y) w = (x ← m; y ← k x; h y) w.
Proof. unfold mbind, M_bind. by destruct (m w) as [[]| |]. Qed.

Lemma bind_Ret_run {A B} (m : M A) (k : A -> M B) w a w' : m w = Ret (a, w') -> (x ← m; k x) w = k a w'.
Proof. intros H. unfold mbind, M_bind. by rewrite H. Qed.

Lemma puts_app a b w : b_puts (a ++ b) w = (_ ← b_puts a; b_puts b) w.
Proof.
  revert w. induction a as [|c a IH]; intros w; [done|]. cbn [app b_puts]. rewrite bind_assoc.
  unfold mbind, M_bind in *. destruct (b_putc c w) as [[? w']| |]; [|done|done]. apply IH.
Qed.

(** Output never fails. *)
Lemma putc_run c w : exists w', b_putc c w = Ret (tt, w') /\ w' = set_out w (buffer w') (written w').
Proof.
  unfold b_putc, modify, get, put_buffer, b_flush, mbind, M_bind. cbn beta iota.
  destruct (length (buffer w) <? _)%nat; destruct (_ =? _)%nat; (eexists; split; [reflexivity|]); by destruct w.
Qed.

Lemma embeded_text block t : forall rest w, text_ok t = true ->
  embeded_loop block Outside (t ++ rest) w = (_ ← b_puts t; embeded_loop block Outside rest) w.
Proof.
  induction t as [t IH] using (induction_ltof1 _ (@length Z)). unfold ltof in IH. intros rest w Ht.
  destruct t as [|c t]; [done|]. cbn [text_ok] in Ht. cbn [app embeded_loop b_puts]. rewrite bind_assoc.
  destruct (c =? 60) eqn:Ec.
  - destruct t as [|c' t]; [done|]. bprop. subst c. cbn [app]. rewrite (proj2 (Z.eqb_neq _ _) H). cbn [b_puts].
    destruct (putc_run 60 w) as (w1 & E1 & _). rewrite !(bind_Ret_run _ _ _ _ _ E1), bind_assoc.
    destruct (putc_run c' w1) as (w2 & E2 & _). rewrite !(bind_Ret_run _ _ _ _ _ E2). apply IH; [cbn; lia|done].
  - destruct (putc_run c w) as (w1 & E1 & _). rewrite !(bind_Ret_run _ _ _ _ _ E1). apply IH; [cbn; lia|done].
Qed.

Fixpoint pb_puts (t : list Z) : M unit := match t with [] => mret tt | c :: tl => _ ← pb_putc c; pb_puts tl end.

Lemma bind_cong {A B} (m : M A) (k k' : A -> M B) w : (forall a w', k a w' = k' a w') -> (x ← m; k x) w = (x ← m; k' x) w.
Proof. intros H. unfold mbind, M_bind. destruct (m w) as [[]| |]; [apply H|done|done]. Qed.

Lemma embeded_code block t : forall rest w, code_ok t = true ->
  embeded_loop block Inside (t ++ rest) w = (_ ← pb_puts t; embeded_loop block Inside rest) w.
Proof.
  induction t as [t IH] using (induction_ltof1 _ (@length Z)). unfold ltof in IH. intros rest w Ht.
  destruct t as [|c t]; [done|]. cbn [code_ok] in Ht. cbn [app embeded_loop pb_puts]. rewrite bind_assoc.
  destruct ((c =? 47) || (c =? 63)) eqn:Ec.
  - destruct t as [|c' t]; [done|]. apply andb_true_iff in Ht as [Hc Ht]. cbn [app pb_puts].
    assert (forall w, (_ ← pb_putc c; _ ← pb_putc c'; embeded_loop block Inside (t ++ rest)) w =
      (_ ← pb_putc c; _ ← (_ ← pb_putc c'; pb_puts t); embeded_loop block Inside rest) w) as Hgo.
    { intros w'. apply bind_cong. intros _ w1. rewrite bind_assoc. apply bind_cong. intros _ w2. apply IH; [cbn; lia|done]. }
    destruct (c =? 47) eqn:E1; bprop; [subst c|].
    + rewrite (proj2 (Z.eqb_neq _ _) H), (proj2 (Z.eqb_neq _ _) H0). apply Hgo.
    + destruct (c =? 63) eqn:E2; bprop; [subst c|by destruct Ec]. rewrite (proj2 (Z.eqb_neq _ _) Hc). apply Hgo.
  - apply orb_false_iff in Ec as [-> ->]. apply bind_cong. intros _ w1. apply IH; [cbn; lia|done].
Qed.

Lemma room_step a n : room a (S n) = if (room a n <=? n)%nat then (room a n + 1024)%nat else room a n.
Proof.
  unfold room. destruct (Nat.leb_spec n a), (Nat.leb_spec (S n) a); try lia.
  - destruct (Nat.leb_spec a n); lia.
  - assert (n = a) as -> by lia. rewrite Nat.leb_refl. replace (S a - a + 1023)%nat with 1024%nat by lia. cbn. lia.
  - pose proof (Nat.div_mod_eq (n - a + 1023) 1024) as H1. pose proof (Nat.mod_upper_bound (n - a + 1023) 1024 ltac:(lia)) as H2.
    pose proof (Nat.div_mod_eq (S n - a + 1023) 1024) as H3. pose proof (Nat.mod_upper_bound (S n - a + 1023) 1024 ltac:(lia)) as H4.
    revert H1 H2 H3 H4. generalize ((n - a + 1023) / 1024)%nat, ((S n - a + 1023) / 1024)%nat,
      ((n - a + 1023) mod 1024)%nat, ((S n - a + 1023) mod 1024)%nat. intros q q' r r' H1 H2 H3 H4.
    destruct (Nat.leb_spec (a + 1024 * q) n); lia.
Qed.

Lemma store_byte_over p old c : store_byte (p ++ drop (length p) old) (length p) c = (p ++ [c]) ++ drop (length (p ++ [c])) old.
Proof.
  unfold store_byte. rewrite !length_app. cbn [length]. rewrite <- drop_drop.
  destruct (drop (length p) old) as [|x r]; cbn [length].
  - rewrite (proj2 (Nat.ltb_ge _ _)) by lia. by rewrite !app_nil_r.
  - rewrite (proj2 (Nat.ltb_lt _ _)) by lia. rewrite insert_app_r_alt by lia. rewrite Nat.sub_diag. cbn. by rewrite drop_0, <- app_assoc.
Qed.

(** The world with the first bytes of a text stored. *)
Definition partly (p : list Z) (w : world) : world :=
  match p with [] => set_pb w (pb_buff w) 0 (pb_allocsize w) | _ => stored p w end.

Lemma free_run k w : m_free k w = Ret (tt, add_live w (- k)).
Proof. done. Qed.

Lemma runs_realloc had : runs (m_realloc had) true (if had then 0 else 1).
Proof.
  intros w Hw. unfold m_realloc. rewrite (bind_Ret_run _ _ _ _ _ (runs_malloc w Hw)). destruct had; cbn [andb].
  - rewrite (bind_Ret_run _ _ _ _ _ (free_run 1 (add_live w 1))). by rewrite add_live_add.
  - done.
Qed.

Lemma pb_putc_step p c w : steady w -> pb_putc c (partly p w) = Ret (tt, stored (p ++ [c]) w).
Proof.
  intros [Hr Hp]. unfold pb_putc, partly, pb_ok in *. destruct w as [d bf wr vs an hd pb sz al]. cbn [pb_buff pb_allocsize] in *.
  destruct p as [|x p].
  - destruct pb as [b|]; [destruct Hp as (Hl & Ha & _)|destruct Hp as [-> _]].
    + unfold get, mbind, M_bind. cbn [pb_allocsize pb_size set_pb]. rewrite (proj2 (Nat.leb_gt _ _) Ha). cbn. unfold stored, room.
      cbn [pb_buff pb_allocsize default app length]. rewrite (proj2 (Nat.leb_le _ _)) by lia.
      unfold modify, set_pb, store_byte. rewrite add_live_0. cbn. do 3 f_equal. by destruct b.
    + unfold get. rewrite (bind_Ret_run get _ _ _ _ eq_refl). cbn [pb_allocsize pb_size set_pb Nat.leb pb_buff].
      unfold mbind at 1, M_bind at 1. unfold mbind at 1, M_bind at 1. rewrite (runs_realloc false) by done. cbn. done.
  - set (w := mkw d bf wr vs an hd pb sz al) in *. set (q := x :: p) in *.
    assert (stored q w = stored q w) as _ by done. unfold get. rewrite (bind_Ret_run get _ _ _ _ eq_refl).
    assert (pb_size (stored q w) = length q /\ pb_allocsize (stored q w) = room al (length q)) as [-> ->] by done.
    pose proof (room_step al (length q)) as Hroom.
    assert (forall w', w' = set_pb (stored q w) (pb_buff (stored q w)) (length q) (room al (S (length q))) ->
      (w0 ← get; match pb_buff w0 return M unit with
        | Some b => modify (fun w => set_pb w (Some (store_byte b (pb_size w) c)) (pb_size w + 1) (pb_allocsize w)) | None => mret tt end) w' =
      Ret (tt, stored (q ++ [c]) w)) as Hend.
    { intros w' ->. rewrite (bind_Ret_run get _ _ _ _ eq_refl). cbn [pb_buff set_pb stored]. unfold modify. cbn [pb_size set_pb pb_allocsize].
      rewrite store_byte_over. unfold stored. rewrite !length_app. cbn [length]. rewrite Nat.add_1_r. done. }
    destruct (room al (length q) <=? length q)%nat.
    + unfold mbind at 1, M_bind at 1. unfold mbind at 1, M_bind at 1. rewrite (runs_realloc true) by done. rewrite add_live_0. cbn beta iota.
      unfold modify. apply Hend. rewrite Hroom. done.
    + apply Hend. by rewrite Hroom.
Qed.

Lemma pb_puts_run t : forall p w, steady w -> pb_puts t (partly p w) = Ret (tt, partly (p ++ t) w).
Proof.
  induction t as [|c t IH]; intros p w Hw; cbn [pb_puts]; [by rewrite app_nil_r|].
  rewrite (bind_Ret_run _ _ _ _ _ (pb_putc_step p c w Hw)). specialize (IH (p ++ [c]) w Hw). rewrite <- app_assoc in IH. cbn [app] in IH.
  rewrite <- IH. unfold partly at 1. by destruct p.
Qed.

(** ** Execution keeps the heap that does not fail, and the buffer *)

Lemma malloc_ready h : avail h = [] -> malloc h = (true, mkheap [] (live h + 1)).
Proof. intros H. unfold malloc. by rewrite H. Qed.

Lemma new_node_ready nm v i h n h' : avail h = [] -> new_node nm v i h = (n, h') -> avail h' = [].
Proof.
  intros H. unfold new_node, strdup. destruct nm; [by intros [= _ <-]|]. rewrite malloc_ready by done.
  destruct v; [rewrite malloc_ready by done|]; by intros [= _ <-].
Qed.

Lemma find_sibling_ready l nm i create h r l' h' : avail h = [] ->
  xmldb_find_sibling l nm i create h = Some (r, l', h') -> avail h' = [].
Proof.
  intros H. unfold xmldb_find_sibling. destruct (index_of _ _); [by intros [= _ _ <-]|]. destruct create; [|by intros [= _ _ <-]].
  destruct l; [done|]. destruct (new_node nm None i h) as [[]] eqn:E; intros [= _ _ <-]; by eapply new_node_ready.
Qed.

Lemma find_step_ready d root target nm i create r d' : avail (mem d) = [] ->
  find_step d root target nm i create = Some (r, d') -> avail (mem d') = [].
Proof.
  intros H. unfold find_step. destruct (node_at _ _) as [n|]; [|done]. cbn [mbind option_bind]. destruct (child n).
  - destruct create; [|by intros [= _ <-]]. destruct (new_node nm None i (mem d)) as [[]] eqn:E; intros [= _ <-]; cbn; by eapply new_node_ready.
  - destruct (xmldb_find_sibling _ _ _ _ _) as [[[k l'] h]|] eqn:E; [|done]. cbn [mbind option_bind]. intros [= _ <-]. cbn. by eapply find_sibling_ready.
Qed.

Lemma find_loop_ready fuel : forall d root target ptr create r d', avail (mem d) = [] ->
  find_loop fuel d root target ptr create = Some (r, d') -> avail (mem d') = [].
Proof.
  induction fuel as [|fuel IH]; intros d root target ptr create r d' H; (destruct ptr as [|c ptr]; [by intros [= _ <-]|]); [done|]. cbn [find_loop].
  destruct (get_node _ _) as [buff ptr']. destruct (eqb_list _ _); [by apply IH|]. destruct (split_id buff) as [nm i].
  destruct (find_step d root target nm i create) as [[[p|] d1]|] eqn:E; cbn [mbind option_bind]; [|by intros [= _ <-]; eapply find_step_ready|done].
  apply IH. by eapply find_step_ready.
Qed.

Lemma find_node_ready d root path create r d' : avail (mem d) = [] ->
  xmldb_find_node d root path create = Some (r, d') -> avail (mem d') = [].
Proof. intros H. unfold xmldb_find_node. destruct (match path with 47 :: tl => (None, tl) | _ => (root, path) end). by apply find_loop_ready. Qed.

Lemma set_value_ready d root path v r d' : avail (mem d) = [] -> xmldb_set_value d root path v = Some (r, d') -> avail (mem d') = [].
Proof.
  intros H. unfold xmldb_set_value. destruct (xmldb_find_node _ _ _ _) as [[[p|] d1]|] eqn:E; cbn [mbind option_bind]; [|by intros [= _ <-]; eapply find_node_ready|done].
  apply find_node_ready in E; [|done]. destruct (node_at _ _) as [n|]; [|done]. cbn [mbind option_bind].
  destruct (store_value (value n) v (mem d1)) as [[s dirty] h] eqn:Es. intros [= _ <-]. cbn. revert Es. unfold store_value, strdup.
  destruct (value n) as [o|]; [destruct (negb _); [|by intros [= _ _ <-]]|]; destruct v; rewrite ?malloc_ready by done; by intros [= _ _ <-].
Qed.

Lemma del_node_ready d root path r d' : avail (mem d) = [] -> xmldb_del_node d root path = Some (r, d') -> avail (mem d') = [].
Proof.
  intros H. unfold xmldb_del_node. rewrite malloc_ready by done.
  destruct (del_path _ _ _) as [[ret d1]|] eqn:E; [|done]. cbn [mbind option_bind]. intros [= _ <-]. cbn. revert E. unfold del_path.
  destruct (split_leaf path) as [pp lf]. destruct (split_id lf) as [nm i].
  set (d0 := set_root d (g_xml_root d) (mkheap [] (live (mem d) + 1))).
  assert (forall x, (match pp with Some p => xmldb_find_node d0 root p false | None => Some (Some (default [] root), d0) end) = Some x -> avail (mem (snd x)) = []) as Hx.
  { intros [x1 x2]. destruct pp; [intros Ef; by eapply find_node_ready in Ef|by intros [= _ <-]]. }
  destruct (match pp with Some p => _ | None => _ end) as [[[p|] d2]|]; [|by cbn; intros [= _ <-]; apply (Hx _ eq_refl)|done]. cbn [mbind option_bind].
  specialize (Hx _ eq_refl). cbn [snd] in Hx. destruct (node_at _ _) as [n|]; [|done]. cbn [mbind option_bind].
  destruct (remove_child _ _ _) as [[c|] l]; [|by intros [= _ <-]].
  destruct (if i =? 0 then Some l else renumber _ _ _ _) as [l'|]; [|done]. cbn [mbind option_bind]. by intros [= _ <-].
Qed.

Definition holds {A} (m : M A) : Prop := forall w, steady w -> match m w with Ret (_, w') => steady w' | _ => True end.

Lemma holds_ret {A} (a : A) : holds (mret a).
Proof. by intros w. Qed.

Lemma holds_bind {A B} (m : M A) (k : A -> M B) : holds m -> (forall a, holds (k a)) -> holds (x ← m; k x).
Proof. intros Hm Hk w Hw. unfold mbind, M_bind. specialize (Hm w Hw). destruct (m w) as [[a w']| |]; [|done|done]. by apply Hk. Qed.

Lemma holds_lift {A} (o : option A) : holds (lift o).
Proof. destruct o; by intros w. Qed.

Lemma holds_ub {A} : holds (ub : M A).
Proof. by intros w. Qed.

Lemma holds_nofuel {A} : holds (nofuel : M A).
Proof. by intros w. Qed.

Lemma holds_quiet {A} (Q : A -> Z -> Prop) (m : M A) : ends Q m -> holds m.
Proof.
  intros H w [Hr Hp]. specialize (H w). destruct (m w) as [[a w']| |]; [|done|done]. destruct H as [(h & b & o & -> & Ha) _].
  split; [exact (Ha Hr)|exact Hp].
Qed.

Lemma holds_modify (f : world -> world) : (forall w, steady w -> steady (f w)) -> holds (modify f).
Proof. intros H w Hw. exact (H w Hw). Qed.

(** From one world. *)
Definition holds_at {A} (w : world) (m : M A) : Prop := match m w with Ret (_, w') => steady w' | _ => True end.

Lemma holds_get {A} (k : world -> M A) : (forall w, steady w -> holds_at w (k w)) -> holds (w ← get; k w).
Proof. intros H w Hw. exact (H w Hw). Qed.

Lemma at_lift {A B} w (o : option A) (k : A -> M B) : steady w -> (forall a, o = Some a -> holds_at w (k a)) -> holds_at w (x ← lift o; k x).
Proof. intros Hw H. destruct o as [a|]; [exact (H a eq_refl)|done]. Qed.

Lemma at_holds {A} w (m : M A) : steady w -> holds m -> holds_at w m.
Proof. intros Hw H. exact (H w Hw). Qed.

Lemma at_modify {A} w f (k : unit -> M A) : steady (f w) -> (forall u, holds (k u)) -> holds_at w (u ← modify f; k u).
Proof. intros Hw H. exact (H tt (f w) Hw). Qed.

Lemma steady_base w d : steady w -> avail (mem d) = [] -> steady (set_base w d).
Proof. by intros [? ?]. Qed.

Lemma steady_ptrs w a l : steady w -> steady (set_ptrs w a l).
Proof. done. Qed.

Lemma steady_vars w l : steady w -> steady (set_vars w l).
Proof. done. Qed.

Lemma steady_shift del w : steady w -> steady (shift_ptrs del w).
Proof. by destruct del as [[]|]. Qed.

#[export] Hint Resolve holds_ret holds_lift holds_ub holds_nofuel steady_base steady_ptrs steady_vars steady_shift : ephp.

Ltac keep :=
  repeat first
  [ progress eauto with ephp
  | lazymatch goal with
    | |- holds (mbind _ get) => apply holds_get; intros ? ?
    | |- holds (mbind _ _) => apply holds_bind; [|intros ?]
    | |- holds (m_free _) => eapply holds_quiet, ends_free
    | |- holds (m_strdup _) => eapply holds_quiet, ends_strdup
    | |- holds m_malloc => eapply holds_quiet, ends_malloc
    | |- holds (b_puts _) => eapply holds_quiet, ends_puts
    | |- holds (b_putc _) => eapply holds_quiet, ends_putc
    | |- holds (destroy_sblist _) => eapply holds_quiet, ends_destroy_sblist
    | |- holds (modify _) => apply holds_modify; intros ? ?
    | |- holds (match ?x with _ => _ end) => destruct x
    | |- holds_at _ (mbind _ (lift _)) => apply at_lift; [assumption|intros ? ?]
    | |- holds_at _ _ => apply at_holds; [assumption|]
    end ].

Lemma holds_new_var x v : holds (_new_var x v).
Proof. unfold _new_var. keep. Qed.
#[export] Hint Resolve holds_new_var : ephp.

Lemma holds_get_var x : holds (get_var x).
Proof. unfold get_var. keep. Qed.
#[export] Hint Resolve holds_get_var : ephp.

Lemma holds_set_var x v : holds (set_var x v).
Proof. unfold set_var. keep. Qed.

Lemma holds_var_value x : holds (get_var_value x).
Proof. unfold get_var_value. keep. Qed.

Lemma holds_query p js : holds (query_node p js).
Proof. unfold query_node. keep. Qed.
#[export] Hint Resolve holds_set_var holds_var_value holds_query : ephp.

Lemma holds_combine op a b : holds (combine op a b).
Proof. unfold combine. keep. Qed.

Lemma holds_copy s b : holds (copy_result s b).
Proof. unfold copy_result. keep. Qed.
#[export] Hint Resolve holds_combine holds_copy : ephp.

Lemma holds_loop ev l : Forall (fun s => forall b, holds (ev s b)) l -> forall x op b, holds (convert_loop ev l x op b).
Proof. induction 1 as [|s l Hs _ IH]; intros x op b; cbn [convert_loop]; keep. Qed.

Lemma holds_operand s : forall b, holds (operand_value s b).
Proof.
  induction s as [t op|v op|js l op IH] using strlist_ind'; intros b; cbn [operand_value]; keep. by apply holds_loop.
Qed.

Lemma holds_convert l : holds (convert_strlst l).
Proof. unfold convert_strlst. keep. apply holds_loop, Forall_forall. intros s _. apply holds_operand. Qed.
#[export] Hint Resolve holds_convert : ephp.

Lemma holds_condition l : forall r, holds (check_condition l r).
Proof. induction l as [|c l IH]; intros r; cbn [check_condition]; keep. Qed.
#[export] Hint Resolve holds_condition : ephp.

Lemma holds_anchor l : holds (execute_anchor l).
Proof.
  unfold execute_anchor. keep.  apply steady_ptrs, steady_base; [done|].
  match goal with H : xmldb_find_node (base ?w) _ _ _ = Some ?r, Hs : steady ?w |- _ => destruct r; exact (find_node_ready _ _ _ _ _ _ (proj1 Hs) H) end.
Qed.

Lemma holds_exec_query js l : holds (_exec_query js l).
Proof. unfold _exec_query. keep. Qed.

Lemma holds_del l : holds (execute_del l).
Proof.
  unfold execute_del. keep.  apply steady_shift, steady_base; [done|].
  match goal with H : xmldb_del_node (base ?w) _ _ = Some ?r, Hs : steady ?w |- _ => destruct r; exact (del_node_ready _ _ _ _ _ (proj1 Hs) H) end.
Qed.

Lemma holds_set a b : holds (execute_set a b).
Proof.
  unfold execute_set. keep.  apply steady_base; [done|].
  match goal with H : xmldb_set_value (base ?w) _ _ _ = Some ?r, Hs : steady ?w |- _ => destruct r; exact (set_value_ready _ _ _ _ _ _ (proj1 Hs) H) end.
Qed.

Lemma holds_echo l : holds (execute_echo l).
Proof. unfold execute_echo. keep. Qed.

Lemma holds_assign op v l : holds (execute_assign op v l).
Proof. unfold execute_assign. keep. Qed.

Lemma holds_match_loop l v : holds (match_loop l v).
Proof. induction l as [|m l IH]; cbn [match_loop]; keep. Qed.
#[export] Hint Resolve holds_match_loop : ephp.

Lemma holds_map l d ms : holds (execute_map l d ms).
Proof. unfold execute_map. keep. Qed.

Lemma holds_realloc had : holds (m_realloc had).
Proof. unfold m_realloc. keep. Qed.
#[export] Hint Resolve holds_realloc : ephp.

Lemma holds_line file : forall acc size, holds (line_loop file acc size).
Proof. induction file as [|c file IH]; intros acc size; cbn [line_loop]; keep. Qed.
#[export] Hint Resolve holds_line : ephp.

Lemma holds_show fs format : holds (show_line format fs).
Proof.
  induction format as [format IH] using (induction_ltof1 _ (@length Z)). unfold ltof in IH.
  destruct format as [|c [|d tl]]; cbn [show_line]; keep; (apply IH; cbn; lia).
Qed.
#[export] Hint Resolve holds_show : ephp.

Lemma holds_log fuel format : forall file, holds (log_loop fuel format file).
Proof. induction fuel as [|fuel IH]; intros file; cbn [log_loop]; keep. unfold _get_line_from_file. keep. Qed.
#[export] Hint Resolve holds_log holds_anchor holds_exec_query holds_del holds_set holds_echo holds_assign holds_map : ephp.

Lemma holds_inclog `{Files} a b : holds (execute_inclog a b).
Proof. unfold execute_inclog. keep. Qed.
#[export] Hint Resolve holds_inclog : ephp.

Lemma realloc_ready had w : ready w -> exists w', m_realloc had w = Ret (true, w') /\ ready w' /\ w' = set_heap w (w_heap w').
Proof.
  intros Hw. rewrite (runs_realloc had w Hw). eexists. split; [done|]. split; [done|]. by destruct w as [[] ].
Qed.

Lemma holds_pb_putc c : holds (pb_putc c).
Proof.
  intros w [Hr Hp]. unfold pb_putc. rewrite (bind_Ret_run get _ _ _ _ eq_refl). unfold pb_ok in Hp.
  assert (forall w1 b, ready w1 -> pb_buff w1 = Some b -> (length b <= pb_allocsize w1)%nat -> (pb_size w1 < pb_allocsize w1)%nat ->
    holds_at w1 (w ← get; match pb_buff w return M unit with
      | Some b => modify (fun w => set_pb w (Some (store_byte b (pb_size w) c)) (pb_size w + 1) (pb_allocsize w)) | None => mret tt end)) as Hend.
  { intros w1 b Hr1 Hb Hl Hs. unfold holds_at. rewrite (bind_Ret_run get _ _ _ _ eq_refl), Hb. unfold modify. split; [done|].
    unfold pb_ok. cbn. unfold store_byte. destruct (Nat.ltb_spec (pb_size w1) (length b)); rewrite ?length_insert, ?length_app; cbn [length]; lia. }
  destruct (Nat.leb_spec (pb_allocsize w) (pb_size w)) as [Hs|Hs].
  - unfold mbind at 1, M_bind at 1. unfold mbind at 1, M_bind at 1.
    destruct (realloc_ready (match pb_buff w with Some _ => true | None => false end) w Hr) as (w1 & -> & Hr1 & E1). cbn beta iota.
    assert (pb_buff w1 = pb_buff w /\ pb_size w1 = pb_size w /\ pb_allocsize w1 = pb_allocsize w) as (Eb & Es & Ea) by (by rewrite E1).
    apply (Hend _ (default [] (pb_buff w))); cbn; rewrite ?Eb, ?Es, ?Ea; [done|done|..]; unfold PB_INCREASE_STEP;
      destruct (pb_buff w); destruct Hp; cbn; lia.
  - rewrite (bind_Ret_run (mret tt) _ _ _ _ eq_refl). destruct (pb_buff w) as [b|] eqn:Eb; [|lia]. apply (Hend w b); [done..|lia|done].
Qed.
#[export] Hint Resolve holds_pb_putc : ephp.

Lemma length_reatwhite s : (length (xmldb_reatwhite s) <= length s)%nat.
Proof. unfold xmldb_reatwhite. rewrite length_rev. etrans; [apply length_eat|]. by rewrite length_rev. Qed.

Lemma length_cstr s : (length (cstr s) <= length s)%nat.
Proof. induction s as [|c s IH]; cbn; [lia|]. destruct (c =? 0); cbn; lia. Qed.

Lemma holds_check_format : holds check_format.
Proof.
  unfold check_format. apply holds_get. intros w Hw. apply at_lift; [done|]. intros b Hb. apply at_lift; [done|]. intros c Hc.
  destruct (c =? 61).
  - apply at_lift; [done|]. intros c' Hc'. destruct (negb _); [apply at_holds; [done|keep]|].
    destruct (existsb _ _) eqn:Ee; [|done]. apply at_modify; [|intros _; keep]. destruct Hw as [Hr Hp]. split; [done|]. unfold pb_ok in *. rewrite Hb in Hp. cbn.
    rewrite !length_app, length_take, length_replicate, !length_drop.
    pose proof (length_reatwhite (cstr (drop 2 b))). pose proof (length_cstr (drop 2 b)). rewrite length_drop in *. lia.
  - apply at_holds; [done|]. keep. eapply holds_quiet, (proj1 (parsers_end _)). lia.
Qed.
#[export] Hint Resolve holds_check_format : ephp.

Section Keep.
Context `{Files} (block : list sblock_t -> M Z) (block_holds : forall l, holds (block l)).

Lemma holds_run_block : holds (run_block block).
Proof using block_holds. unfold run_block. keep. Qed.

Lemma holds_clear_pb : holds clear_pb.
Proof using Type.
  apply holds_modify. intros w [Hr Hp]. split; [done|]. unfold pb_ok in *. cbn. destruct (pb_buff w); [lia|]. by destruct Hp.
Qed.

Lemma holds_embeded file : forall s, holds (embeded_loop block s file).
Proof using block_holds.
  induction file as [file IH] using (induction_ltof1 _ (@length Z)). unfold ltof in IH. intros s.
  pose proof holds_run_block. pose proof holds_clear_pb.
  assert (forall tl s, (length tl < length file)%nat -> holds (embeded_loop block s tl)) as Hl by auto.
  destruct file as [|c [|c' tl]]; cbn [embeded_loop]; keep; try (apply Hl; cbn; lia).
Qed.

Lemma holds_for_loop n entry : forall id st, holds (for_loop block n entry id st).
Proof using block_holds.
  induction n as [|n IH]; intros id st; cbn [for_loop]; keep.
Qed.

Lemma holds_statement n s : holds (execute_statement block n s).
Proof using block_holds.
  pose proof holds_for_loop. pose proof holds_embeded. destruct s; cbn [execute_statement]; keep.
  - unfold execute_require, do_embeded_php. keep.
  - unfold execute_if. keep.
  - unfold execute_for. keep; by destruct (held _) as [|? []].
Qed.

Lemma holds_list n l : holds (execute_list block n l).
Proof using block_holds. induction l as [|s l IH]; cbn [execute_list]; keep. apply holds_statement. Qed.
End Keep.

Lemma execute_holds `{Files} fuel : forall l, holds (execute_sblist fuel l).
Proof. induction fuel as [|fuel IH]; intros l; cbn [execute_sblist]; [keep|]. by apply holds_list. Qed.

(** ** A template is played *)

Lemma puts_run t : forall w, exists w', b_puts t w = Ret (tt, w') /\ w' = set_out w (buffer w') (written w').
Proof.
  induction t as [|c t IH]; intros w; cbn [b_puts]; [exists w; split; [done|by destruct w]|].
  destruct (putc_run c w) as (w1 & E1 & H1). rewrite (bind_Ret_run _ _ _ _ _ E1). destruct (IH w1) as (w2 & E2 & H2). exists w2.
  split; [done|]. rewrite H2, H1. done.
Qed.

Lemma room_bounds a n : (n <= room a n)%nat /\ (a <= room a n)%nat /\ ((0 < n)%nat -> (0 < room a n)%nat).
Proof.
  unfold room. destruct (Nat.leb_spec n a); [lia|].
  pose proof (Nat.div_mod_eq (n - a + 1023) 1024). pose proof (Nat.mod_upper_bound (n - a + 1023) 1024 ltac:(lia)).
  generalize dependent ((n - a + 1023) mod 1024)%nat. generalize ((n - a + 1023) / 1024)%nat. intros q r ? ?. lia.
Qed.

Lemma steady_loaded l w : steady w -> steady (loaded l w).
Proof.
  intros [Hr Hp]. split; [done|]. unfold pb_ok in *. cbn [loaded stored pb_buff set_pb add_live set_heap set_base pb_size pb_allocsize].
  set (t := print_sblist l ++ [0]). assert (0 < length t)%nat as Ht by (unfold t; rewrite length_app; cbn; lia).
  destruct (room_bounds (pb_allocsize w) (length t)) as (H1 & H2 & H3). specialize (H3 Ht).
  rewrite length_app, length_drop. clearbody t. destruct (pb_buff w) as [b|]; [change (default [] (Some b)) with b|cbn [default from_option length]]; lia.
Qed.

Lemma print_head l rest : exists c q, print_sblist l ++ 0 :: rest = c :: q /\ (c =? 61) = false /\ has_prefix str_ephp (c :: q) = false.
Proof.
  destruct l as [|s l]; [by eexists _, _|]. unfold print_sblist. cbn [flat_map].
  destruct s; try destruct js; cbn [print_sblock cs str_queryjs str_query app]; eexists _, _; (split; [reflexivity|]); done.
Qed.

(** The text of a block in the buffer is parsed, and the statements are executed. *)
Lemma run_block_loaded block l w : steady w -> forallb sblock_ok l = true ->
  run_block block (stored (print_sblist l ++ [0]) w) = (ret ← block l; _ ← destroy_sblist l; mret ret) (loaded l w).
Proof.
  intros [Hr Hp] Hl. unfold run_block.
  assert (check_format (stored (print_sblist l ++ [0]) w) = Ret ((0, l), loaded l w)) as E.
  { unfold check_format. rewrite (bind_Ret_run get _ _ _ _ eq_refl). cbn [stored pb_buff set_pb].
    set (old := drop _ _). rewrite <- app_assoc. cbn [app]. cbn [lift]. rewrite (bind_Ret_run (mret _) _ _ _ _ eq_refl).
    pose proof (parsers_run (S (length (print_sblist l ++ 0 :: old))) l 0 old (or_introl eq_refl) Hl (Nat.lt_succ_diag_r _) (stored (print_sblist l ++ [0]) w) Hr) as Hparse.
    destruct (print_head l old) as (c & q & Eq & Hc & He). rewrite Eq in *. unfold at_. cbn [head lift]. rewrite (bind_Ret_run (mret _) _ _ _ _ eq_refl), Hc, He.
    rewrite (bind_Ret_run _ _ _ _ _ Hparse). done. }
  rewrite (bind_Ret_run _ _ _ _ _ E). cbn beta iota. done.
Qed.

Lemma play_embeded block : (forall l, holds (block l)) -> forall ps w, forallb piece_ok ps = true -> steady w ->
  embeded_loop block Outside (flat_map render ps) w = play block ps w.
Proof.
  intros Hb. induction ps as [|[t|l] ps IH]; intros w Hok Hw; [done|..]; cbn [forallb piece_ok flat_map render play] in *; apply andb_true_iff in Hok as [Hp Hok].
  - rewrite embeded_text by done. destruct (puts_run t w) as (w' & E & H). rewrite !(bind_Ret_run _ _ _ _ _ E). apply IH; [done|]. by rewrite H.
  - apply andb_true_iff in Hp as [Hl Hc]. rewrite <- !app_assoc. cbn [app embeded_loop Z.eqb Pos.eqb].
    rewrite (bind_Ret_run clear_pb _ _ _ (partly [] w) eq_refl). rewrite embeded_code by done.
    rewrite (bind_Ret_run _ _ _ _ _ (pb_puts_run (print_sblist l) [] w Hw)). cbn [app embeded_loop Z.eqb Pos.eqb].
    rewrite (bind_Ret_run _ _ _ _ _ (pb_putc_step (print_sblist l) 0 w Hw)).
    unfold mbind at 1, M_bind at 1. rewrite (run_block_loaded block l w Hw Hl).
    rewrite (bind_Ret_run (modify _) _ _ _ _ eq_refl). unfold mbind, M_bind.
    pose proof (Hb l (loaded l w) (steady_loaded l w Hw)) as Hs. destruct (block l (loaded l w)) as [[ret w']| |]; [|done|done].
    cbn. destruct (negb (ret =? 0)); [done|]. apply IH; [done|]. done.
Qed.

(** C24. A template is played piece by piece: the text around the program blocks is written as it is, and the
    statements of each block - found between their marks, parsed, and freed afterwards - are executed in the
    state the pieces before have left, until a block returns something else than 0.  This holds for every text
    and every program without marks and comments of its own, with as many blocks as there are; what is undefined
    or needs more fuel in a block is so in the template. *)
Theorem ephp_template_plays `{Files} (fuel : nat) (ps : list piece) (w : world) : forallb piece_ok ps = true -> steady w ->
  do_embeded_php (execute_sblist fuel) (flat_map render ps) w = play (execute_sblist fuel) ps w.
Proof. intros Hps Hw. apply play_embeded; [apply execute_holds|done|done]. Qed.

(** ** Requests *)

Definition node (nm : string) (i : Z) (v : string) (l : list xml_node) : xml_node :=
  mknode (cs nm) i (match cs v with [] => None | s => Some s end) None l.

Definition example_tree : xml_node :=
  mknode [] 0 None None
    [node "lan" 0 "" [node "ip" 0 "192.168.0.1" []; node "host" 1 "alpha" []; node "host" 2 "beta" []]; node "mode" 0 "2" []].

Definition example_world : world := mkw (mkdb example_tree (mkheap [] 10) []) [] [] [] Null [] None 0 0.

(** A text with quotation marks. *)
Definition qs (s : string) : list Z := map (fun c => if c =? 39 then 34 else c) (cs s).

(** One file, [p]. *)
Definition one_file (s : string) : Files := {| file_of := fun n => if eqb_list n (cs "p") then Some (qs s) else None; o_tlogs := false; tlogs := fun _ => None |}.

(** What a request sends, and what it returns. *)
Definition request (F : Files) (message : list Z) : option (Z * list (list Z) * Z) :=
  match xmldb_ephp 20 message example_world with Ret (r, w) => Some (r, written w, w_live w) | _ => None end.

Definition sends (s : string) (F : Files) (message : list Z) : Prop :=
  match request F message with Some (r, o, _) => r = 0 /\ o = [cs s ++ [0]] | None => False end.

Definition sample_pieces : list piece :=
  [Text (cs "<p>"); Code [SB_ECHO [word "host " 46; ST_QUERY false [word "/lan/host:2" 0] 0]]; Text (cs "</p>");
   Code [SB_IF [mkcond [ST_QUERY false [word "/mode" 0] 0] [word "2" 0] IFOP_EQUAL IFNEXT_END] [SB_EXIT] []]; Text (cs "not reached")].

Lemma ephp_template_plays_witness :
  forallb piece_ok sample_pieces = true /\ steady example_world /\
  do_embeded_php (execute_sblist (H := one_file "") 5) (flat_map render sample_pieces) example_world =
  play (execute_sblist (H := one_file "") 5) sample_pieces example_world.
Proof.
  assert (steady example_world) as Hw by (split; [reflexivity|]; cbn; lia).
  split; [reflexivity|]. split; [exact Hw|]. exact (ephp_template_plays (H := one_file "") 5 sample_pieces example_world eq_refl Hw).
Defined.

Lemma convert_strlst_eval_witness :
  settled example_world /\
  match eval (env_of example_world) (query_of example_world) [word "2" 43; ST_QUERY false [word "/mode" 0] 46; ST_VAR (Some (cs "unit")) 0] with
  | Some v => exists w', convert_strlst [word "2" 43; ST_QUERY false [word "/mode" 0] 46; ST_VAR (Some (cs "unit")) 0] example_world = Ret (Some v, w') /\
                kept 1 example_world w' /\ settled w'
  | None => convert_strlst [word "2" 43; ST_QUERY false [word "/mode" 0] 46; ST_VAR (Some (cs "unit")) 0] example_world = UB
  end.
Proof.
  assert (settled example_world) as Hw by (split; [reflexivity|]; split; [constructor|exact I]).
  split; [exact Hw|]. exact (convert_strlst_eval [word "2" 43; ST_QUERY false [word "/mode" 0] 46; ST_VAR (Some (cs "unit")) 0] example_world Hw).
Defined.

(** A loop over the numbered nodes, with its number and its anchor. *)
Example loop_over_hosts : sends "1=alpha;2=beta;0" (one_file "<? for(/lan/host) { echo $#.'='; query('.'); echo ';'; } echo $#; ?>") (cs "p").
Proof. vm_compute. auto. Qed.

(** Variables of the request, arithmetic and conditions. *)
Example variables_and_conditions :
  sends "Bob has 3 hosts, not two" (one_file "<?=$name?> has <? $n += 2; echo $n; ?> hosts<? if ($n == 2) { echo '.'; } else { echo ', not two'; } ?>")
        (cs "p" ++ [10] ++ cs "n=1" ++ [10] ++ cs "name=Bob").
Proof. vm_compute. auto. Qed.

(** Matches are tried from the last to the first, and the default when none matches. *)
Example map_of_a_mode : sends "auto" (one_file "<? map('/mode', '1','fixed', '2','auto', *,'off'); ?>") (cs "p").
Proof. vm_compute. auto. Qed.

Definition undefined (F : Files) (message : list Z) : Prop := xmldb_ephp 20 message example_world = UB.

(** The anchor is not forgotten when its node is deleted. *)
Example anchor_is_left_behind : undefined (one_file "<? anchor('/lan/host:1'); del('/lan/host:1'); query('.'); ?>") (cs "p").
Proof. reflexivity. Qed.

(** The marks of comments are found in strings too: the rest of the line is lost, here with the end of the block. *)
Example address_is_a_comment : sends "" (one_file "<? echo 'http://192.168.0.1/'; ?>") (cs "p").
Proof. vm_compute. auto. Qed.

(** The character behind a [<] is not taken for the beginning of a block. *)
Example block_behind_a_bracket : sends "<<? echo x; ?>" (one_file "<<? echo x; ?>") (cs "p").
Proof. vm_compute. auto. Qed.

Example remainder_by_zero : undefined (one_file "<? $a = 5 % $b; ?>") (cs "p").
Proof. reflexivity. Qed.

(** The loop copies the value of [$#] into eight bytes. *)
Example long_number : undefined (one_file "<? $# = '12345678'; for(/lan/host) { exit; } ?>") (cs "p").
Proof. reflexivity. Qed.

(** A format that asks for more fields than a line has. *)
Example missing_field : undefined {| file_of := fun n => if eqb_list n (cs "p") then Some (qs "<? inclog('%0 %2', log); ?>") else Some (cs "one|two"); o_tlogs := false; tlogs := fun _ => None |} (cs "p").
Proof. reflexivity. Qed.

(** Of a map the pattern that matches and the list of the node are not freed: three blocks stay, besides the buffer of the
    program. *)
Example map_leaks : option_map snd (request (one_file "") (cs "p")) = Some 10 /\
  option_map snd (request (one_file "<? map('/mode', '2','auto', *,'off'); ?>") (cs "p")) = Some (10 + 1 + 2 + 1).
Proof. vm_compute. auto. Qed.

(** A loop over the children of the root is empty. *)
Example no_loop_at_the_root : sends "" (one_file "<? for('/lan') { echo 'x'; } ?>") (cs "p").
Proof. vm_compute. auto. Qed.

End EphpRun.
