(* ===== verification/Patch.v ===== *)
(** * tools/alpha/xmldb/patch.c: the templates with tags between double braces.

    A template is read character by character from a file or from a buffer.  The text of an array or of a
    condition is first collected in a buffer of its own and then run as a template, for every element, or if the
    condition holds.  The functions run in a monad over the static variables of the file and the database, whose
    heap they share; a loop that makes no progress is kept apart from undefined behaviour and from fuel
    that has run out.  The database is only read. *)
From Stdlib Require Import ZArith Lia Bool String.
From stdpp Require Import base tactics list option numbers.
From S2P Require Import Prelude Xmldb XmldbFile.

Module Patch.
Import Xmldb XmldbFile.

Definition EOF : Z := -1.
Definition MAX_PATCH_MSG_LEN : nat := 256.
Definition MAX_MAP_SECTION : nat := 32.
Definition RGDB_ESCAPE_JS : Z := 1.

(** ** The world and the monad *)

(** [buffer] holds [count] characters, [written] is what [buffer_flush] has sent. *)
Record world := mkw { base : db; g_var : list Z; buffer : list Z; written : list (list Z) }.

Definition set_vars (w : world) (l : list Z) : world := mkw (base w) l (buffer w) (written w).
Definition set_out (w : world) (b : list Z) (o : list (list Z)) : world := mkw (base w) (g_var w) b o.
Definition set_heap (w : world) (h : heap) : world :=
  mkw (set_root (base w) (g_xml_root (base w)) h) (g_var w) (buffer w) (written w).

(** [Hang]: a loop has come back to the state it was in. *)
Inductive res (A : Type) := Ret (a : A) | UB | Hang | NoFuel.
Arguments Ret {A} a.
Arguments UB {A}.
Arguments Hang {A}.
Arguments NoFuel {A}.

Definition M (A : Type) : Type := world -> res (A * world).

#[global] Instance M_ret : MRet M := fun A x w => Ret (x, w).
#[global] Instance M_bind : MBind M := fun A B k m w =>
  match m w with Ret (x, w') => k x w' | UB => UB | Hang => Hang | NoFuel => NoFuel end.

Definition ub {A} : M A := fun _ => UB.
Definition hang {A} : M A := fun _ => Hang.
Definition nofuel {A} : M A := fun _ => NoFuel.
Definition get : M world := fun w => Ret (w, w).
Definition modify (f : world -> world) : M unit := fun w => Ret (tt, f w).
Definition lift {A} (o : option A) : M A := match o with Some x => mret x | None => ub end.

Definition m_malloc : M bool := fun w => let '(ok, h) := malloc (mem (base w)) in Ret (ok, set_heap w h).
Definition m_strdup (s : list Z) : M (option (list Z)) := fun w =>
  let '(r, h) := strdup (mem (base w)) s in Ret (r, set_heap w h).
Definition m_free (blocks : Z) : M unit := modify (fun w => set_heap w (free (mem (base w)) blocks)).

(** [realloc]: a block is taken from the heap only if there was none; when it fails the old block stays. *)
Definition m_realloc (had : bool) : M bool :=
  ok ← m_malloc;
  _ ← (if ok && had then m_free 1 else mret tt);
  mret ok.

(** ** Where the template comes from *)

(** [fh]: the bytes of the file and the position in it; [buff]: the bytes stored so far. *)
Record PINFO := mkpi {
  flags : Z; current : option pos; max : Z;
  fh : option (list Z * nat);
  buff : option (list Z); size : nat; offset : nat; allocsize : nat
}.

Definition set_current (pi : PINFO) (p : option pos) : PINFO :=
  mkpi (flags pi) p (max pi) (fh pi) (buff pi) (size pi) (offset pi) (allocsize pi).
Definition set_max (pi : PINFO) (n : Z) : PINFO :=
  mkpi (flags pi) (current pi) n (fh pi) (buff pi) (size pi) (offset pi) (allocsize pi).
Definition set_fh (pi : PINFO) (f : option (list Z * nat)) : PINFO :=
  mkpi (flags pi) (current pi) (max pi) f (buff pi) (size pi) (offset pi) (allocsize pi).
Definition set_offset (pi : PINFO) (n : nat) : PINFO :=
  mkpi (flags pi) (current pi) (max pi) (fh pi) (buff pi) (size pi) n (allocsize pi).
Definition set_buff (pi : PINFO) (b : option (list Z)) (n k : nat) : PINFO :=
  mkpi (flags pi) (current pi) (max pi) (fh pi) b n (offset pi) k.

Definition pi_get_offset (pi : PINFO) : nat := match fh pi with Some (_, n) => n | None => offset pi end.

Definition pi_set_offset (pi : PINFO) (n : nat) : Z * PINFO :=
  match fh pi with
  | Some (l, _) => (0, set_fh pi (Some (l, n)))
  | None => if (n <? size pi)%nat then (0, set_offset pi n) else (-1, pi)
  end.

(** A byte of the buffer is read through a signed character: 255 reads as [EOF]. *)
Definition pi_getc (pi : PINFO) : M (Z * PINFO) :=
  match fh pi with
  | Some (l, n) =>
      match l !! n with Some c => mret (c, set_fh pi (Some (l, S n))) | None => mret (EOF, pi) end
  | None =>
      if (offset pi <? size pi)%nat then
        b ← lift (buff pi);
        c ← lift (b !! offset pi);
        mret (schar c, set_offset pi (S (offset pi)))
      else mret (EOF, pi)
  end.

Definition PI_INCREASE_STEP : nat := 1024.

Definition pi_putc (pi : PINFO) (c : Z) : M (Z * PINFO) :=
  pi ← (if (allocsize pi <=? size pi)%nat then
          ok ← m_realloc (match buff pi with Some _ => true | None => false end);
          mret (set_buff pi (if (ok : bool) then Some (default [] (buff pi)) else None) (size pi) (allocsize pi + PI_INCREASE_STEP))
        else mret pi);
  match buff pi return M (Z * PINFO) with
  | Some b => mret (0, set_buff pi (Some (b ++ [u8 c])) (S (size pi)) (allocsize pi))
  | None => mret (-1, pi)
  end.

Fixpoint pi_puts (pi : PINFO) (s : list Z) : M (Z * PINFO) :=
  match s with
  | [] => mret (0, pi)
  | c :: tl => r ← pi_putc pi c; let '(ret, pi) := r in if ret <? 0 then mret (-1, pi) else pi_puts pi tl
  end.

Definition pi_puttag (pi : PINFO) (tag : list Z) : M (Z * PINFO) := pi_puts pi ([123; 123] ++ tag ++ [125; 125]).

(** ** Output *)

Definition buffer_flush : M unit := modify (fun w => set_out w [] (written w ++ [buffer w])).

Definition buffer_putc (c : Z) : M unit :=
  _ ← modify (fun w => if (length (buffer w) <? 1024)%nat then set_out w (buffer w ++ [u8 c]) (written w) else w);
  w ← get;
  if (length (buffer w) =? 1024)%nat then buffer_flush else mret tt.

Fixpoint buffer_puts (s : list Z) : M unit :=
  match s with [] => mret tt | c :: tl => _ ← buffer_putc c; buffer_puts tl end.

(** ** Strings of a tag *)

(** The loop on a string in quotes: the characters, and the pointer at its end. *)
Fixpoint quoted (msg acc : list Z) : list Z * list Z :=
  match msg with
  | [] => (acc, [])
  | c :: tl =>
      if c =? 34 then (acc, msg)
      else if (length acc <? 255)%nat then
        match tl with
        | c' :: tl' => if c =? 92 then quoted tl' (acc ++ [c']) else quoted tl (acc ++ [c])
        | [] => quoted tl (acc ++ [c])
        end
      else quoted tl acc
  end.

Fixpoint unquoted (end_ : Z) (msg acc : list Z) : list Z * list Z :=
  match msg with
  | [] => (acc, [])
  | c :: tl =>
      if IS_WHITE c then (acc, msg)
      else if negb (end_ =? 0) && (c =? end_) then (acc, msg)
      else unquoted end_ tl (if (length acc <? 255)%nat then acc ++ [c] else acc)
  end.

(** The string, and [*message]. *)
Definition read_string (message : list Z) (end_ : Z) : list Z * list Z :=
  match message with
  | 34 :: tl => let '(s, msg) := quoted tl [] in match msg with [] => ([], message) | _ :: msg => (s, msg) end
  | _ => unquoted end_ message []
  end.

(** ** Maps *)

(** The pairs are [patt] and [output]; a string is [None] when the copy of it could not be made. *)
Record map_sect := mkmaps { default_output : option (list Z); pairs : list (option (list Z) * option (list Z)) }.

Definition num (m : map_sect) : nat := length (pairs m).

Inductive map_state := SectionStart | PatternState | OutputState.

(** A pattern with its output, unless the table is full. *)
Definition add_map (maps : map_sect) (pattern output : option (list Z)) : M map_sect :=
  if (num maps <? MAX_MAP_SECTION)%nat then
    p ← lift pattern;
    if strcmp p [42] =? 0 then
      _ ← m_free (owned (default_output maps));
      o ← lift output;
      o ← m_strdup o;
      mret (mkmaps o (pairs maps))
    else
      p ← m_strdup p;
      o ← lift output;
      o ← m_strdup o;
      mret (mkmaps (default_output maps) (pairs maps ++ [(p, o)]))
  else mret maps.

(** The loop of [extract_maps]: the result and the table. *)
Fixpoint extract_loop (fuel : nat) (maps : map_sect) (msg : list Z) (st : map_state) (pattern : option (list Z))
  : M (Z * map_sect) :=
  match msg with
  | [] => _ ← m_free (owned pattern); mret (Z.of_nat (num maps), maps)
  | _ =>
      match fuel with
      | O => nofuel
      | S fuel =>
          match st return M (Z * map_sect) with
          | SectionStart => extract_loop fuel maps msg PatternState None
          | PatternState =>
              let '(s, msg) := read_string (xmldb_eatwhite msg) 58 in
              pattern ← m_strdup s;
              match xmldb_eatwhite msg return M (Z * map_sect) with
              | 58 :: msg => extract_loop fuel maps msg OutputState pattern
              | _ => _ ← m_free (owned pattern); mret (-1, maps)
              end
          | OutputState =>
              let '(s, msg) := read_string (xmldb_eatwhite msg) 44 in
              output ← m_strdup s;
              match xmldb_eatwhite msg return M (Z * map_sect) with
              | [] =>
                  maps ← add_map maps pattern output;
                  _ ← m_free (owned pattern + owned output);
                  extract_loop fuel maps [] SectionStart None
              | 44 :: msg =>
                  maps ← add_map maps pattern output;
                  _ ← m_free (owned pattern + owned output);
                  extract_loop fuel maps msg SectionStart None
              | _ => _ ← m_free (owned pattern + owned output); mret (-1, maps)
              end
          end
      end
  end.

(** The fuel: of three turns of the loop one reads a character. *)
Definition extract_maps (maps : map_sect) (msg : list Z) : M (Z * map_sect) :=
  extract_loop (3 * length msg + 3) maps msg SectionStart None.

Definition map_blocks (m : map_sect) : Z :=
  foldr (fun p n => owned (fst p) + owned (snd p) + n) 0 (pairs m) + owned (default_output m).
Definition clean_map (m : map_sect) : M unit := m_free (map_blocks m).

Fixpoint _output_js (value : list Z) : M unit :=
  match value with
  | [] => mret tt
  | c :: tl =>
      _ ← (if (c =? 34) || (c =? 36) || (c =? 92) then buffer_putc 92 else mret tt);
      _ ← buffer_putc c;
      _output_js tl
  end.

Definition _output (value : list Z) (flags : Z) : M unit :=
  if negb (Z.land flags RGDB_ESCAPE_JS =? 0) then _output_js value else buffer_puts value.

(** The output of the first pattern that is the value; a pattern that is NULL cannot be compared. *)
Fixpoint find_map (value : list Z) (l : list (option (list Z) * option (list Z))) : option (option (option (list Z))) :=
  match l with
  | [] => Some None
  | (p, o) :: tl => p ← p; if strcmp value p =? 0 then Some (Some o) else find_map value tl
  end.

(** An invalid message is reported, and what was read of it is used. *)
Definition map_output (value map : list Z) (flags : Z) : M unit :=
  r ← extract_maps (mkmaps None []) map;
  let '(_, maps) := r in
  o ← lift (find_map value (pairs maps));
  _ ← match o return M unit with
      | Some o => o ← lift o; _output o flags
      | None => _output (default value (default_output maps)) flags
      end;
  clean_map maps.

(** ** Tags *)

(** The loop of [read_tag_msg], with [room] characters left: the last character read, and the message. *)
Fixpoint tag_loop (room : nat) (pi : PINFO) (c : Z) (acc : list Z) : M (Z * list Z * PINFO) :=
  match room with
  | O => mret (c, acc, pi)
  | S room =>
      r ← pi_getc pi;
      let '(c, pi) := r in
      if c =? EOF then mret (c, acc, pi)
      else if c =? 125 then
        r ← pi_getc pi;
        let '(c, pi) := r in
        if (c =? EOF) || (c =? 125) then mret (c, acc, pi)
        else tag_loop (Nat.pred room) pi c (acc ++ [125; u8 c])
      else tag_loop room pi c (acc ++ [u8 c])
  end.

Definition read_tag_msg (pi : PINFO) (size : nat) : M (Z * list Z * PINFO) := tag_loop (size - 2) pi 0 [].

(** A tag behind its opening braces, without the white space around it. *)
Definition read_tag (pi : PINFO) : M (Z * list Z * PINFO) :=
  r ← read_tag_msg pi MAX_PATCH_MSG_LEN;
  let '(c, g_tag, pi) := r in mret (c, xmldb_eatwhite (xmldb_reatwhite (cstr g_tag)), pi).

(** ** Calculations *)

(** [g_var[(c-'0')%10]]: below the digit 0 the index is negative. *)
Definition var_index (c : Z) : Z := Z.rem (schar c - 48) 10.
Definition var_at (c : Z) : M Z := w ← get; lift (rd (g_var w) (var_index c)).

Definition str_var : list Z := Eval cbv in cs "var".

(** The number in front of a text and the text behind it; the number must fit. *)
Fixpoint num_loop (i : Z) (s : list Z) : option (Z * list Z) :=
  match s with
  | c :: tl => if isdigit c then i ← int_of (i * 10 + (c - 48)); num_loop i tl else Some (i, s)
  | [] => Some (i, [])
  end.

Definition readnum (ptr : list Z) (id max : Z) : M (Z * list Z) :=
  if deref ptr =? 35 then mret (id, tail ptr)
  else if deref ptr =? 64 then mret (max, tail ptr)
  else if has_prefix str_var ptr then i ← var_at (deref (drop 3 ptr)); mret (i, drop 4 ptr)
  else lift (num_loop 0 ptr).

Fixpoint find_pattern (c : Z) (str : list Z) : Z :=
  match str with [] => 0 | x :: tl => if c =? x then x else find_pattern c tl end.

Definition calc_ops : list Z := Eval cbv in cs "+-*/%><=!".

Fixpoint node_loop (s : list Z) : list Z * list Z :=
  match s with
  | c :: tl => if negb (find_pattern c calc_ops =? 0) then ([], s) else let '(w, r) := node_loop tl in (c :: w, r)
  | [] => ([], [])
  end.

(** The text before the first operator, and the text from it; the terminator does not fit behind [size]
    characters. *)
Definition get_node_from_cstring (size : nat) (s : list Z) : M (list Z * list Z) :=
  let '(w, r) := node_loop s in if (length w <? size)%nat then mret (w, r) else ub.

Definition bool_int (b : bool) : Z := if b then 1 else 0.

(** [v %= i] *)
Definition remainder (v i : Z) : option Z := if i =? 0 then None else _ ← int_of (Z.quot v i); Some (Z.rem v i).

(** One turn of the loop of [do_calculate]. *)
Definition calc_step (v : Z) (cstr : list Z) (id max : Z) : M (Z * list Z) :=
  let cstr := xmldb_eatwhite cstr in
  let with_num (n : nat) (f : Z -> option Z) :=
    r ← readnum (xmldb_eatwhite (drop n cstr)) id max;
    let '(i, cstr) := r in v ← lift (f i); mret (v, cstr) in
  if has_prefix [61; 61] cstr then with_num 2%nat (fun i => Some (bool_int (v =? i)))
  else if has_prefix [33; 61] cstr then with_num 2%nat (fun i => Some (bool_int (negb (v =? i))))
  else if has_prefix [62; 61] cstr || has_prefix [33; 60] cstr then with_num 2%nat (fun i => Some (bool_int (i <=? v)))
  else if has_prefix [60; 61] cstr || has_prefix [33; 62] cstr then with_num 2%nat (fun i => Some (bool_int (v <=? i)))
  else
    let c := deref cstr in
    if c =? 43 then with_num 1%nat (fun i => int_of (v + i))
    else if c =? 45 then with_num 1%nat (fun i => int_of (v - i))
    else if c =? 42 then with_num 1%nat (fun i => int_of (v * i))
    else if c =? 47 then with_num 1%nat (fun i => Some (if 0 <? i then Z.quot v i else v))
    else if c =? 37 then with_num 1%nat (remainder v)
    else if c =? 62 then with_num 1%nat (fun i => Some (bool_int (i <? v)))
    else if c =? 60 then with_num 1%nat (fun i => Some (bool_int (v <? i)))
    else mret (v, cstr).

(** The loop over the turns of a calculation: a turn that reads nothing leaves everything as it was, and so
    will the next. *)
Fixpoint turns (step : Z -> list Z -> M (Z * list Z)) (fuel : nat) (v : Z) (s : list Z) : M Z :=
  match s with
  | [] => mret v
  | _ =>
      match fuel with
      | O => nofuel
      | S fuel =>
          r ← step v s;
          let '(v', s') := r in
          if (length s' =? length s)%nat then hang else turns step fuel v' s'
      end
  end.

Definition do_calculate (v : Z) (cstr : list Z) (id max : Z) : M Z :=
  turns (fun v s => calc_step v s id max) (length cstr) v cstr.

(** ** Arrays *)

(** The first number from [i] on that no sibling with the name has. *)
Fixpoint count_loop (fuel : nat) (l : list xml_node) (entry : list Z) (i : Z) : M Z :=
  match fuel with
  | O => nofuel
  | S fuel =>
      w ← get;
      r ← lift (xmldb_find_sibling l entry i false (mem (base w)));
      match r return M Z with
      | (Some _, _, _) => count_loop fuel l entry (i + 1)
      | (None, _, _) => mret i
      end
  end.

(** The number of elements; the fuel: every turn finds another sibling. *)
Definition count_entries (l : list xml_node) (entry : list Z) : M Z :=
  n ← count_loop (S (length l)) l entry 1; mret (n - 1).

(** The node above the elements, and their name: the path is split at its last slash. *)
Definition parent_of (pi : PINFO) (path : list Z) : M (option pos * list Z) :=
  w ← get;
  match strrchr_slash path return M (option pos * list Z) with
  | Some (parent, entry) => r ← lift (xmldb_find_node (base w) (current pi) parent false); mret (fst r, entry)
  | None => mret (current pi, path)
  end.

Definition children (p : pos) : M (list xml_node) := w ← get; n ← lift (node_at (g_xml_root (base w)) p); mret (child n).

Definition do_array_count (pi : PINFO) (path : list Z) : M Z :=
  parent ← m_strdup path;
  match parent return M Z with
  | None => mret 0
  | Some path =>
      r ← parent_of pi path;
      let '(pnode, entry) := r in
      match pnode return M Z with
      | None => _ ← m_free 1; mret 0
      | Some p => l ← children p; n ← count_entries l entry; _ ← m_free 1; mret n
      end
  end.

(** ** Values *)

Fixpoint split_comma (s : list Z) : list Z * option (list Z) :=
  match s with
  | [] => ([], None)
  | c :: tl => if c =? 44 then ([], Some tl) else let '(w, r) := split_comma tl in (c :: w, r)
  end.

Definition get_value (pi : PINFO) (path : list Z) : M (list Z) :=
  w ← get; lift (xmldb_get_value (base w) (current pi) path).

(** The value of [%...]: a number and operations on it. *)
Definition calculated (pi : PINFO) (path : list Z) (id : Z) : M (list Z) :=
  r ← get_node_from_cstring 80 path;
  let '(node, path) := r in
  match node return M (list Z) with
  | [] => mret []
  | _ =>
      i ← (if strcmp node [35] =? 0 then mret id
           else if has_prefix str_var node then var_at (deref (drop 3 node))
           else v ← get_value pi node; mret (atoi v));
      n ← do_calculate i path id (max pi);
      mret (print_int n)
  end.

(** The value of a path; [white]: there is white space before the path in the buffer.  The last character of an
    empty path is the one before it. *)
Definition mapped_value (pi : PINFO) (white : bool) (path : list Z) (id : Z) : M (list Z) :=
  if strcmp path [35] =? 0 then mret (print_int id)
  else
    l ← match list.last path return M Z with Some c => mret c | None => if white then mret 32 else ub end;
    if l =? 35 then n ← do_array_count pi (removelast path); mret (print_int n)
    else if deref path =? 37 then calculated pi (tail path) id
    else if has_prefix str_var path then n ← var_at (deref (drop 3 path)); mret (print_int n)
    else get_value pi path.

Definition do_mapping (pi : PINFO) (msg : list Z) (id : Z) : M Z :=
  copy ← m_strdup msg;
  match copy return M Z with
  | None => mret (-1)
  | Some copy =>
      let path := xmldb_eatwhite copy in
      let white := negb (length path =? length copy)%nat in
      let '(path, map) := split_comma path in
      value ← mapped_value pi white (xmldb_reatwhite path) id;
      _ ← match map return M unit with
          | Some (c :: map) => map_output value (c :: map) (flags pi)
          | _ => _output value (flags pi)
          end;
      _ ← m_free 1;
      mret 0
  end.


(** ** Conditions *)

(** The number an entry beginning with [%] stands for. *)
Definition entry_number (root : option pos) (entry : list Z) : M Z :=
  if has_prefix str_var entry then var_at (deref (drop 3 entry))
  else w ← get; v ← lift (xmldb_get_value (base w) root entry); mret (atoi v).

(** [entry[3]] of the copy of the entry. *)
Definition entry_char (entry : list Z) : M Z := lift ((entry ++ [0]) !! 3%nat).

(** A variable as operand has the number behind the name of the entry, not of the operand. *)
Definition operand_number (entry oprand : list Z) : M Z :=
  if has_prefix str_var oprand then c ← entry_char entry; var_at c else mret (atoi oprand).

Definition entry_string (root : option pos) (entry : list Z) : M (list Z) :=
  if has_prefix str_var entry then n ← var_at (deref (drop 3 entry)); mret (print_int n)
  else w ← get; lift (xmldb_get_value (base w) root entry).

Definition operand_string (entry oprand : list Z) : M (list Z) :=
  if has_prefix str_var oprand then c ← entry_char entry; n ← var_at c; mret (print_int n) else mret oprand.

Definition op_eq : list Z := Eval cbv in cs "==".
Definition op_ne : list Z := Eval cbv in cs "!=".

(** The comparisons of numbers and of strings; [None]: the operator is unknown. *)
Definition compare_numbers (op : list Z) (a b : Z) : option bool :=
  if eqb_list op op_eq then Some (a =? b)
  else if eqb_list op op_ne then Some (negb (a =? b))
  else if eqb_list op [60; 61] || eqb_list op [33; 62] then Some (a <=? b)
  else if eqb_list op [62; 61] || eqb_list op [33; 60] then Some (b <=? a)
  else if eqb_list op [60] then Some (a <? b)
  else if eqb_list op [62] then Some (b <? a)
  else None.

Definition compare_texts (op a b : list Z) : option bool :=
  if eqb_list op op_eq then Some (strcmp a b =? 0)
  else if eqb_list op op_ne then Some (negb (strcmp a b =? 0))
  else None.

(** One comparison, and whether the pointer to the entry has been moved. *)
Definition compare_entry (root : option pos) (entry op oprand : list Z) : M (option bool * bool) :=
  if deref entry =? 37 then
    let entry := tail entry in
    a ← entry_number root entry;
    b ← operand_number entry oprand;
    mret (compare_numbers op a b, true)
  else
    a ← entry_string root entry;
    b ← operand_string entry oprand;
    mret (compare_texts op a b, false).

(** [free(entry)] and its companions: a pointer into the middle of a block cannot be freed. *)
Definition free_strings (moved : bool) (blocks : Z) : M unit := if moved then ub else m_free blocks.

Fixpoint cond_loop (fuel : nat) (root : option pos) (ptr : list Z) (res : Z) : M Z :=
  match ptr with
  | [] => mret res
  | _ =>
      match fuel with
      | O => nofuel
      | S fuel =>
          let '(s, ptr) := read_string (xmldb_eatwhite ptr) 0 in
          entry ← m_strdup s;
          match entry return M Z with
          | Some (c :: entry) =>
              let entry := c :: entry in
              let '(s, ptr) := read_string (xmldb_eatwhite ptr) 0 in
              op ← m_strdup s;
              match op return M Z with
              | Some (c :: op) =>
                  let op := c :: op in
                  let '(s, ptr) := read_string (xmldb_eatwhite ptr) 0 in
                  oprand ← m_strdup s;
                  let ptr := xmldb_eatwhite ptr in
                  oprand ← lift oprand;
                  r ← compare_entry root entry op oprand;
                  let '(b, moved) := r in
                  match b return M Z with
                  | None => _ ← free_strings moved 3; mret res
                  | Some b =>
                      _ ← free_strings moved 3;
                      if has_prefix [38; 38] ptr then if (b : bool) then cond_loop fuel root (drop 2 ptr) 1 else mret 0
                      else if has_prefix [124; 124] ptr then if (b : bool) then mret 1 else cond_loop fuel root (drop 2 ptr) 0
                      else mret (bool_int b)
                  end
              | _ => _ ← m_free (1 + owned op); mret res
              end
          | _ => _ ← m_free (owned entry); mret res
          end
      end
  end.

Definition do_if_condition (root : option pos) (tagmsg : list Z) : M Z :=
  copy ← m_strdup tagmsg;
  match copy return M Z with
  | None => mret (-1)
  | Some copy =>
      let ptr := xmldb_eatwhite (xmldb_reatwhite copy) in
      res ← cond_loop (length ptr) root ptr 0;
      _ ← m_free 1;
      mret res
  end.

(** ** Blocks *)

Definition tag_if : list Z := Eval cbv in cs "$if".
Definition tag_else : list Z := Eval cbv in cs "$else".
Definition tag_fi : list Z := Eval cbv in cs "$fi".
Definition tag_array : list Z := Eval cbv in cs "$arraystart:".
Definition tag_arrayend : list Z := Eval cbv in cs "$arrayend".
Definition tag_var : list Z := Eval cbv in cs "$var".

(** What a tag means for a block that is collected, with [n] blocks open: it belongs to the block, with the number
    of open blocks behind it, or it ends the block, at [$else] or not. *)
Inductive verdict := Inside (n : nat) | Ends (at_else : bool).

Definition if_verdict (n : nat) (msg : list Z) : verdict :=
  if has_prefix tag_if msg then Inside (S n)
  else if has_prefix tag_else msg then if (n =? 1)%nat then Ends true else Inside n
  else if has_prefix tag_fi msg then if (n =? 1)%nat then Ends false else Inside (n - 1)
  else Inside n.

Definition else_verdict (n : nat) (msg : list Z) : verdict :=
  if has_prefix tag_if msg then Inside (S n)
  else if has_prefix tag_fi msg then if (n =? 1)%nat then Ends false else Inside (n - 1)
  else Inside n.

Definition array_verdict (n : nat) (msg : list Z) : verdict :=
  if has_prefix tag_array msg then Inside (S n)
  else if has_prefix tag_arrayend msg then if (n =? 1)%nat then Ends false else Inside (n - 1)
  else Inside n.

(** Collected text is stored only if it is wanted; a lost character is not noticed. *)
Definition keep_text (keep : bool) (info : PINFO) (s : list Z) : M PINFO :=
  if keep then
    (fix go info s := match s with [] => mret info | c :: tl => r ← pi_putc info c; go (snd r) tl end) info s
  else mret info.

Definition keep_tag (keep : bool) (info : PINFO) (tag : list Z) : M PINFO :=
  if keep then r ← pi_puttag info tag; mret (snd r) else mret info.

(** The loops that collect a block: how it ended, the template and the block. *)
Fixpoint collect (fuel : nat) (judge : nat -> list Z -> verdict) (keep : bool) (n : nat) (pi info : PINFO)
  : M (option bool * PINFO * PINFO) :=
  match fuel with
  | O => nofuel
  | S fuel =>
      r ← pi_getc pi;
      let '(c, pi) := r in
      if c =? EOF then mret (None, pi, info)
      else if negb (c =? 123) then info ← keep_text keep info [c]; collect fuel judge keep n pi info
      else
        r ← pi_getc pi;
        let '(c, pi) := r in
        if c =? EOF then info ← keep_text keep info [123]; mret (None, pi, info)
        else if negb (c =? 123) then info ← keep_text keep info [123; c]; collect fuel judge keep n pi info
        else
          r ← read_tag pi;
          let '(c, msg, pi) := r in
          match judge n msg return M (option bool * PINFO * PINFO) with
          | Inside n =>
              info ← keep_tag keep info msg;
              if c =? EOF then mret (None, pi, info) else collect fuel judge keep n pi info
          | Ends e => mret (Some e, pi, info)
          end
  end.

(** What is left to read. *)
Definition rest (pi : PINFO) : list Z :=
  match fh pi with Some (l, n) => drop n l | None => drop (offset pi) (take (size pi) (default [] (buff pi))) end.

Definition collect_block (judge : nat -> list Z -> verdict) (keep : bool) (pi info : PINFO)
  : M (option bool * PINFO * PINFO) := collect (S (length (rest pi))) judge keep 1 pi info.

Definition new_info (pi : PINFO) : PINFO := mkpi (flags pi) None 0 None None 0 0 0.

Section Nested.
(** [do_patch] on a block. *)
Context (patch : PINFO -> Z -> M (Z * PINFO)).

(** The number of the array is not passed on to the block. *)
Definition do_if (pi : PINFO) (tagmsg : list Z) (id : Z) : M (Z * PINFO) :=
  res ← do_if_condition (current pi) tagmsg;
  let yes := negb (res =? 0) in
  r ← collect_block if_verdict yes pi (set_current (new_info pi) (current pi));
  let '(end_, pi, info) := r in
  info ← (if (yes : bool) then r ← patch info id; mret (snd r) else mret info);
  r ← (match end_ return M (PINFO * PINFO) with
       | Some true =>
           r ← collect_block else_verdict (negb yes) pi info;
           let '(_, pi, info) := r in
           info ← (if (yes : bool) then mret info else r ← patch info id; mret (snd r));
           mret (pi, info)
       | _ => mret (pi, info)
       end);
  let '(pi, info) := r in
  _ ← m_free (owned (buff info));
  mret (0, pi).

(** The block for the elements from [id] on. *)
Fixpoint array_loop (fuel : nat) (p : pos) (l : list xml_node) (entry : list Z) (id : Z) (info : PINFO) : M PINFO :=
  match fuel with
  | O => nofuel
  | S fuel =>
      w ← get;
      r ← lift (xmldb_find_sibling l entry id false (mem (base w)));
      match r return M PINFO with
      | (Some k, _, _) =>
          let info := snd (pi_set_offset (set_current info (Some (p ++ [k]))) 0) in
          r ← patch info id;
          array_loop fuel p l entry (id + 1) (snd r)
      | (None, _, _) => mret info
      end
  end.

(** When the node above the elements is not found, the block is not freed. *)
Definition do_array (pi : PINFO) (tag : list Z) : M (Z * PINFO) :=
  path ← m_strdup tag;
  match path return M (Z * PINFO) with
  | None => mret (-1, pi)
  | Some path =>
      r ← collect_block array_verdict true pi (new_info pi);
      let '(_, pi, info) := r in
      r ← parent_of pi path;
      let '(pnode, entry) := r in
      match pnode return M (Z * PINFO) with
      | None => _ ← m_free 1; mret (0, pi)
      | Some p =>
          l ← children p;
          n ← count_entries l entry;
          info ← array_loop (S (length l)) p l entry 1 (set_max info n);
          _ ← m_free (owned (buff info) + 1);
          mret (0, pi)
      end
  end.

(** One turn of the loop of [do_variables]. *)
Definition var_step (value : Z) (tagmsg : list Z) (id max : Z) : M (Z * list Z) :=
  let with_num (f : Z -> option Z) :=
    r ← readnum (xmldb_eatwhite (tail tagmsg)) id max;
    let '(i, tagmsg) := r in v ← lift (f i); mret (v, tagmsg) in
  let c := deref tagmsg in
  if c =? 43 then with_num (fun i => int_of (value + i))
  else if c =? 45 then with_num (fun i => int_of (value - i))
  else if c =? 42 then with_num (fun i => int_of (value * i))
  else if c =? 47 then with_num (fun i => Some (if 0 <? i then Z.quot value i else value))
  else if c =? 37 then with_num (remainder value)
  else mret (value, tagmsg).

(** Behind the terminator of an empty [tag] there are the remains of earlier tags: their use is undefined here. *)
Definition do_variables (pi : PINFO) (tag : list Z) (id : Z) : M Z :=
  match tag return M Z with
  | [] => ub
  | c :: tl =>
      match xmldb_eatwhite tl return M Z with
      | 61 :: tagmsg =>
          r ← readnum (xmldb_eatwhite tagmsg) id (max pi);
          let '(value, tagmsg) := r in
          let tagmsg := xmldb_eatwhite tagmsg in
          value ← turns (fun v s => var_step v s id (max pi)) (length tagmsg) value tagmsg;
          w ← get;
          l ← lift (wr (g_var w) (var_index c) value);
          _ ← modify (fun w => set_vars w l);
          mret 0
      | _ => mret (-1)
      end
  end.

(** What a tag does: the result and the template behind it. *)
Definition do_tag (pi : PINFO) (tagmsg : list Z) (id : Z) : M (Z * PINFO) :=
  let c := deref tagmsg in
  if c =? 36 then
    if has_prefix tag_array tagmsg then do_array pi (drop 12 tagmsg)
    else if has_prefix tag_if tagmsg then do_if pi (drop 3 tagmsg) id
    else if has_prefix tag_var tagmsg then ret ← do_variables pi (drop 4 tagmsg) id; mret (ret, pi)
    else mret (0, pi)
  else if c =? 64 then
    if id =? 0 then
      w ← get;
      r ← lift (xmldb_find_node (base w) (current pi) (tail tagmsg) false);
      mret (0, set_current pi (fst r))
    else mret (0, pi)
  else ret ← do_mapping pi tagmsg id; mret (ret, pi).

Fixpoint patch_loop (fuel : nat) (pi : PINFO) (id : Z) : M (Z * PINFO) :=
  match fuel with
  | O => nofuel
  | S fuel =>
      r ← pi_getc pi;
      let '(c, pi) := r in
      if c =? EOF then mret (0, pi)
      else if negb (c =? 123) then _ ← buffer_putc c; patch_loop fuel pi id
      else
        r ← pi_getc pi;
        let '(c, pi) := r in
        if c =? EOF then _ ← buffer_putc 123; mret (0, pi)
        else if negb (c =? 123) then _ ← buffer_putc 123; _ ← buffer_putc c; patch_loop fuel pi id
        else
          r ← read_tag pi;
          let '(c, tagmsg, pi) := r in
          r ← do_tag pi tagmsg id;
          let '(ret, pi) := r in
          if ret <? 0 then mret (ret, pi)
          else if c =? EOF then mret (ret, pi)
          else patch_loop fuel pi id
  end.

End Nested.

(** [depth] bounds the nesting of the blocks; each turn of the loop reads a character. *)
Fixpoint do_patch (depth : nat) (pi : PINFO) (id : Z) : M (Z * PINFO) :=
  match depth with
  | O => nofuel
  | S depth => patch_loop (do_patch depth) (S (length (rest pi))) pi id
  end.

(** ** Requests *)

Definition no_vars : M unit := modify (fun w => set_vars w (replicate 10 0)).
Definition new_pinfo (flags : Z) (current : option pos) : PINFO := mkpi flags current 0 None None 0 0 0.

(** [file]: what [fopen] finds. *)
Definition xmldb_patch_file (file : option (list Z)) (flags : Z) : M Z :=
  _ ← no_vars;
  match file return M Z with
  | None => mret (-1)
  | Some text =>
      r ← do_patch (S (length text)) (set_fh (new_pinfo flags (Some [])) (Some (text, 0%nat))) 0;
      _ ← buffer_putc 0;
      _ ← buffer_flush;
      mret (fst r)
  end.

Definition xmldb_patch_message (root : option pos) (msg : list Z) (flags : Z) : M Z :=
  _ ← no_vars;
  ret ← do_mapping (new_pinfo flags root) msg 0;
  _ ← buffer_putc 0;
  _ ← buffer_flush;
  mret ret.

(** [data]: what [read] delivers, at most [length] bytes; [None]: the error -1, which becomes the size of the
    buffer.  The buffer is not freed. *)
Definition xmldb_patch_buffer (length_ : nat) (data : option (list Z)) (flags : Z) : M Z :=
  _ ← no_vars;
  ok ← m_malloc;
  if negb ok then mret 0
  else
    bs ← lift data;
    let info := set_buff (new_pinfo flags (Some [])) (Some bs) (length bs) length_ in
    _ ← do_patch (S (length bs)) info 0;
    _ ← buffer_putc 0;
    _ ← buffer_flush;
    mret (zlen bs).

End Patch.
