(* ===== verification/PatchRun.v ===== *)
(** * tools/alpha/xmldb/patch.c: every template ends, and what a template shows.

    First a logic for termination: whatever the template, the database and the heap, [do_patch] does not run out of its
    fuel.  Then the text of a template as a list of pieces, what it means, and the proof that the
    engine shows exactly that and gives back its memory. *)
From Stdlib Require Import ZArith Lia Bool String.
From stdpp Require Import base tactics list option numbers.
From S2P Require Import Prelude Xmldb XmldbFile Patch.

Module PatchRun.
Import Xmldb XmldbFile Patch.

(** ** Loops that make no progress *)

(** The loop as it is written, for [n] turns. *)
Fixpoint plain_turns (step : Z -> list Z -> M (Z * list Z)) (n : nat) (v : Z) (s : list Z) : M Z :=
  match s with
  | [] => mret v
  | _ => match n with O => nofuel | S n => r ← step v s; let '(v', s') := r in plain_turns step n v' s' end
  end.

Lemma bind_lift {A B} (o : option A) (k : A -> M B) w :
  mbind k (lift o) w = match o with Some x => k x w | None => UB end.
Proof. by destruct o. Qed.

(** [m] looks at the world only, and what it returns satisfies [P]. *)
Definition tame {A} (m : M A) (P : A -> Prop) : Prop :=
  forall w, match m w with Ret (x, w') => w' = w /\ P x | UB => True | _ => False end.

Lemma tame_ret {A} (x : A) (P : A -> Prop) : P x -> tame (mret x) P.
Proof. by intros H w. Qed.

Lemma tame_bind {A B} (m : M A) (k : A -> M B) (P : A -> Prop) (Q : B -> Prop) :
  tame m P -> (forall x, P x -> tame (k x) Q) -> tame (mbind k m) Q.
Proof.
  intros Hm Hk w. unfold mbind, M_bind. specialize (Hm w). destruct (m w) as [[x w']| | |]; try done.
  destruct Hm as [-> Hx]. by apply Hk.
Qed.

Lemma tame_lift {A} (o : option A) (P : A -> Prop) : (forall x, o = Some x -> P x) -> tame (lift o) P.
Proof. intros H w. destruct o; [split; [done|by apply H]|done]. Qed.

Lemma tame_get (P : world -> Prop) : (forall w, P w) -> tame get P.
Proof. intros H w. split; [done|apply H]. Qed.

Lemma tame_weaken {A} (m : M A) (P Q : A -> Prop) : tame m P -> (forall x, P x -> Q x) -> tame m Q.
Proof. intros H HPQ w. specialize (H w). destruct (m w) as [[x w']| | |]; try done. destruct H. auto. Qed.

(** A turn ends; if it reads something it leaves a shorter text, and if not it changes nothing. *)
Definition settled (step : Z -> list Z -> M (Z * list Z)) : Prop :=
  forall v s, tame (step v s) (fun r => (length (snd r) < length s)%nat \/ r = (v, s)).

(** [Hang] is exactly the loop that never ends, and without it the loop is the one that is written. *)
Lemma turns_exact step : settled step -> forall fuel v s w,
  (length s <= fuel)%nat ->
  match turns step fuel v s w with
  | Hang => forall n, plain_turns step n v s w = NoFuel
  | NoFuel => False
  | r => forall n, (length s <= n)%nat -> plain_turns step n v s w = r
  end.
Proof.
  intros Hs. induction fuel as [|fuel IH]; intros v s w Hl; destruct s as [|c s]; cbn [length] in Hl; try lia;
    try (intros [|n] _; reflexivity).
  cbn [turns]. unfold mbind, M_bind. pose proof (Hs v (c :: s) w) as Hstep.
  assert (forall n, plain_turns step (S n) v (c :: s) w =
            match step v (c :: s) w with Ret (v', s', w') => plain_turns step n v' s' w' | UB => UB | Hang => Hang | NoFuel => NoFuel end) as Hp
    by (intros n; cbn [plain_turns]; unfold mbind, M_bind; by destruct (step v (c :: s) w) as [[[? ?] ?]| | |]).
  destruct (step v (c :: s) w) as [[[v' s'] w']| | |] eqn:E; try done.
  2:{ intros [|n] Hn; [cbn in Hn; lia|apply Hp]. }
  destruct Hstep as [-> [Hlt|[= -> ->]]]; [cbn [snd] in Hlt|].
  - rewrite (proj2 (Nat.eqb_neq _ _)) by (cbn in *; lia). cbn [length] in Hlt. specialize (IH v' s' w ltac:(lia)).
    destruct (turns step fuel v' s' w) as [r| | |]; [| | |done].
    1,2: intros [|n] Hn; [cbn in Hn; lia|]; rewrite Hp; apply IH; cbn in Hn; lia.
    intros [|n]; [done|]. by rewrite Hp.
  - rewrite Nat.eqb_refl. intros n. induction n as [|n IHn]; [done|]. by rewrite Hp.
Qed.

Lemma eat_same p s : length (eat p s) = length s -> eat p s = s.
Proof. destruct s as [|c s]; cbn [eat]; [done|]. destruct (p c); [|done]. pose proof (length_eat p s). cbn [length]. lia. Qed.

Lemma num_loop_length : forall s i n r, num_loop i s = Some (n, r) -> (length r <= length s)%nat.
Proof.
  induction s as [|c s IH]; cbn [num_loop]; intros i n r E; [inv_opt; done|].
  destruct (isdigit c); inv_opt; [|done]. apply IH in H0. cbn [length]. lia.
Qed.

Lemma tame_var_at c : tame (var_at c) (fun _ => True).
Proof. unfold var_at. eapply tame_bind; [by apply (tame_get (fun _ => True))|]. intros w _. by apply tame_lift. Qed.

(** Reading a number changes nothing, and reads no further than the text. *)
Lemma tame_readnum ptr id max : tame (readnum ptr id max) (fun r => (length (snd r) <= length ptr)%nat).
Proof.
  unfold readnum. destruct (_ =? 35); [apply tame_ret; destruct ptr; cbn; lia|]. destruct (_ =? 64); [apply tame_ret; destruct ptr; cbn; lia|].
  destruct (has_prefix str_var ptr).
  - eapply tame_bind; [apply tame_var_at|]. intros i _. apply tame_ret. cbn [snd]. rewrite length_drop. lia.
  - apply tame_lift. intros [i r] E. by eapply num_loop_length.
Qed.

(** A number behind an operator of [n] characters. *)
Lemma tame_with_num n s id max (f : Z -> option Z) v s0 :
  (0 < n <= length s)%nat -> (length s <= length s0)%nat ->
  tame (r ← readnum (xmldb_eatwhite (drop n s)) id max; let '(i, s') := r in v ← lift (f i); mret (v, s') : M (Z * list Z))
    (fun r => (length (snd r) < length s0)%nat \/ r = (v, s0)).
Proof.
  intros Hn Hl. eapply tame_bind; [apply tame_readnum|]. intros [i r] Hr. eapply tame_bind; [apply (tame_lift _ (fun _ => True)); done|].
  intros v' _. apply tame_ret. left. cbn [snd] in *. pose proof (length_eat IS_WHITE (drop n s)). unfold xmldb_eatwhite in Hr.
  rewrite length_drop in *. lia.
Qed.

Lemma has_prefix_length lit s : has_prefix lit s = true -> (length lit <= length s)%nat.
Proof.
  revert s. induction lit as [|x lit IH]; intros [|y s] H; cbn in *; try lia; try done.
  bprop. apply le_n_S. by apply IH.
Qed.

Lemma deref_length s c : (deref s =? c) = true -> c <> 0 -> (0 < length s)%nat.
Proof. intros E Hc. bprop. destruct s; cbn in *; [congruence|lia]. Qed.

(** The cases of a step that looks for an operator. *)
Ltac step_cases s :=
  repeat match goal with
  | |- context [if has_prefix ?l s || has_prefix ?l' s then _ else _] => destruct (has_prefix l s) eqn:?; [|destruct (has_prefix l' s) eqn:?]; cbn [orb]
  | |- context [if has_prefix ?l s then _ else _] => destruct (has_prefix l s) eqn:?
  | |- context [if deref s =? ?c then _ else _] => destruct (deref s =? c) eqn:?
  end.

Lemma calc_settled id max : settled (fun v s => calc_step v s id max).
Proof.
  intros v s. unfold calc_step. set (s0 := xmldb_eatwhite s).
  assert (length s0 <= length s)%nat as Hl by apply length_eat.
  step_cases s0;
    try (apply tame_with_num; [|done]; match goal with
         | H : has_prefix _ s0 = true |- _ => apply has_prefix_length in H; cbn in H; lia
         | H : (deref s0 =? _) = true |- _ => apply deref_length in H; [lia|done] end).
  apply tame_ret. destruct (Nat.lt_ge_cases (length s0) (length s)); [by left|right]. f_equal.
  apply eat_same. fold (xmldb_eatwhite s). fold s0. lia.
Qed.

Lemma var_settled id max : settled (fun v s => var_step v s id max).
Proof.
  intros v s. unfold var_step. replace (tail s) with (drop 1 s) by (by destruct s).
  step_cases s; try (apply tame_with_num; [|done]; match goal with H : (deref s =? _) = true |- _ => apply deref_length in H; [lia|done] end).
  apply tame_ret. by right.
Qed.

(** ** Every template ends *)

(** What no run changes: the tree and the messages. *)
Definition quiet (w w' : world) : Prop :=
  g_xml_root (base w') = g_xml_root (base w) /\ sent (base w') = sent (base w).

(** [m] does not run out of fuel, is quiet, and what it returns satisfies [Q]. *)
Definition ends {A} (m : M A) (Q : A -> Prop) : Prop :=
  forall w, match m w with Ret (x, w') => quiet w w' /\ Q x | NoFuel => False | _ => True end.

Lemma patch_quiet_refl w : quiet w w.
Proof. done. Qed.

Lemma patch_quiet_trans w1 w2 w3 : quiet w1 w2 -> quiet w2 w3 -> quiet w1 w3.
Proof. intros (A & B) (A' & B'). unfold quiet. by rewrite A', B'. Qed.

Lemma patch_ends_weaken {A} (m : M A) (P Q : A -> Prop) : ends m P -> (forall x, P x -> Q x) -> ends m Q.
Proof. intros H HPQ w. specialize (H w). destruct (m w) as [[x w']| | |]; try done. destruct H. auto. Qed.

Lemma patch_ends_ret {A} (x : A) (Q : A -> Prop) : Q x -> ends (mret x) Q.
Proof. intros H w. by split. Qed.

Lemma patch_ends_bind {A B} (m : M A) (k : A -> M B) (P : A -> Prop) (Q : B -> Prop) :
  ends m P -> (forall x, P x -> ends (k x) Q) -> ends (mbind k m) Q.
Proof.
  intros Hm Hk w. unfold mbind, M_bind. specialize (Hm w). destruct (m w) as [[x w']| | |]; try done.
  destruct Hm as [Hq Hx]. specialize (Hk x Hx w'). destruct (k x w') as [[y w'']| | |]; try done.
  destruct Hk. split; [by eapply patch_quiet_trans|done].
Qed.

Lemma patch_ends_lift {A} (o : option A) (Q : A -> Prop) : (forall x, o = Some x -> Q x) -> ends (lift o) Q.
Proof. intros H w. destruct o; [split; [done|by apply H]|done]. Qed.

Lemma patch_ends_ub {A} (Q : A -> Prop) : ends ub Q.
Proof. done. Qed.

Lemma ends_get (Q : world -> Prop) : (forall w, Q w) -> ends get Q.
Proof. intros H w. split; [done|apply H]. Qed.

Lemma ends_modify f (Q : unit -> Prop) : (forall w, quiet w (f w)) -> Q tt -> ends (modify f) Q.
Proof. intros H HQ w. by split. Qed.

(** When nothing is to be known of the result. *)
Abbreviation ends_any m := (ends m (fun _ => True)).

Lemma ends_bind_any {A B} (m : M A) (k : A -> M B) (Q : B -> Prop) :
  ends_any m -> (forall x, ends (k x) Q) -> ends (mbind k m) Q.
Proof. intros Hm Hk. eapply patch_ends_bind; [exact Hm|]. auto. Qed.

Lemma ends_ret_any {A} (x : A) : ends_any (mret x).
Proof. by apply patch_ends_ret. Qed.

Lemma ends_lift_any {A} (o : option A) : ends_any (lift o).
Proof. by apply patch_ends_lift. Qed.

Lemma ends_get_any : ends_any get.
Proof. by apply ends_get. Qed.

Lemma patch_ends_malloc : ends_any m_malloc.
Proof. intros w. unfold m_malloc. by destruct (malloc _). Qed.

Lemma patch_ends_strdup s : ends (m_strdup s) (fun r => r = None \/ r = Some s).
Proof. intros w. unfold m_strdup, strdup. destruct (malloc _) as [[|] h]; split; auto; done. Qed.

Lemma ends_strdup_any s : ends_any (m_strdup s).
Proof. eapply patch_ends_weaken; [apply patch_ends_strdup|done]. Qed.

Lemma patch_ends_free n : ends_any (m_free n).
Proof. by apply ends_modify. Qed.

Create HintDb patch_ends discriminated.
#[export] Hint Resolve ends_ret_any patch_ends_ub ends_lift_any ends_get_any patch_ends_malloc ends_strdup_any patch_ends_free : patch_ends.

(** Sequences of steps of which nothing is to be known. *)
Ltac ends_auto :=
  repeat match goal with
  | |- ends (mbind _ _) _ => eapply ends_bind_any; [solve [auto with patch_ends nocore]|intros ?]
  | |- ends (if ?b then _ else _) _ => destruct b
  | |- ends (match ?x with Some _ => _ | None => _ end) _ => destruct x
  end; auto with patch_ends nocore.

Lemma ends_realloc b : ends_any (m_realloc b).
Proof.
  unfold m_realloc. eapply ends_bind_any; [apply patch_ends_malloc|]. intros ok.
  eapply ends_bind_any; [|intros; ends_auto]. ends_auto.
Qed.
#[export] Hint Resolve ends_realloc : patch_ends.

Lemma ends_flush : ends_any buffer_flush.
Proof. by apply ends_modify. Qed.
#[export] Hint Resolve ends_flush : patch_ends.

Lemma patch_ends_putc c : ends_any (buffer_putc c).
Proof.
  unfold buffer_putc. eapply ends_bind_any; [apply ends_modify; [|done]; intros w; by destruct (_ <? _)%nat|].
  intros _. ends_auto.
Qed.
#[export] Hint Resolve patch_ends_putc : patch_ends.

Lemma patch_ends_puts s : ends_any (buffer_puts s).
Proof. induction s as [|c s IH]; cbn [buffer_puts]; ends_auto. Qed.

Lemma ends_output v fl : ends_any (_output v fl).
Proof.
  unfold _output. destruct (negb _); [|apply patch_ends_puts]. induction v as [|c v IH]; cbn [_output_js]; [ends_auto|].
  eapply ends_bind_any; [ends_auto|]. intros _. ends_auto.
Qed.
#[export] Hint Resolve patch_ends_puts ends_output : patch_ends.

Lemma ends_tame {A} (m : M A) (P : A -> Prop) : tame m P -> ends m P.
Proof. intros H w. specialize (H w). destruct (m w) as [[x w']| | |]; try done. destruct H as [-> H]. done. Qed.

Lemma ends_turns step fuel v s : settled step -> (length s <= fuel)%nat -> ends_any (turns step fuel v s).
Proof.
  intros Hs. revert v s. induction fuel as [|fuel IH]; intros v [|c s] Hl; cbn [length] in Hl; try (by apply patch_ends_ret); try lia.
  cbn [turns]. eapply patch_ends_bind; [apply ends_tame, Hs|]. intros [v' s'] Hr. cbn [snd length] in Hr.
  destruct (_ =? _)%nat eqn:E; [by intros w|]. apply Nat.eqb_neq in E. apply IH. cbn [length] in E. destruct Hr as [Hr|[= -> ->]]; cbn [length] in *; lia.
Qed.

(** ** Strings of a tag get shorter *)

Lemma quoted_length msg : forall acc s r, quoted msg acc = (s, r) -> (length r <= length msg)%nat.
Proof.
  induction msg as [msg IH] using (induction_ltof1 _ (@length Z)); unfold ltof in IH. intros acc s r.
  destruct msg as [|c tl]; cbn [quoted]; [by intros [= <- <-]|]. destruct (c =? 34); [by intros [= <- <-]|].
  destruct (_ <? _)%nat.
  - destruct tl as [|c' tl']; [intros E; apply IH in E; cbn in *; lia|]. destruct (c =? 92); intros E; apply IH in E; cbn in *; lia.
  - intros E; apply IH in E; cbn in *; lia.
Qed.

Lemma unquoted_length e msg : forall acc s r, unquoted e msg acc = (s, r) ->
  (length r <= length msg)%nat /\ (acc = [] -> s <> [] -> (length r < length msg)%nat).
Proof.
  induction msg as [|c tl IH]; intros acc s r; cbn [unquoted]; [intros [= <- <-]; split; [done|congruence]|].
  destruct (IS_WHITE c); [intros [= <- <-]; split; [done|congruence]|].
  destruct (_ && _); [intros [= <- <-]; split; [done|congruence]|].
  intros E. apply IH in E as [E _]. cbn [length]. split; [lia|]. intros; lia.
Qed.

Lemma read_string_length msg e s r : read_string msg e = (s, r) ->
  (length r <= length msg)%nat /\ (s <> [] -> (length r < length msg)%nat).
Proof.
  destruct msg as [|c tl]; [cbn; intros [= <- <-]; split; [done|congruence]|].
  destruct (Z.eqb_spec c 34) as [->|Hc].
  - cbn [read_string]. destruct (quoted tl []) as [s' r'] eqn:E. apply quoted_length in E.
    destruct r'; intros [= <- <-]; cbn [length] in *; (split; [lia|]); [congruence|lia].
  - assert (read_string (c :: tl) e = unquoted e (c :: tl) []) as ->.
    { unfold read_string. repeat (case_match; try done); subst; done. }
    intros E. apply unquoted_length in E as [E1 E2]. auto.
Qed.

Lemma eatwhite_length s : (length (xmldb_eatwhite s) <= length s)%nat.
Proof. apply length_eat. Qed.

Lemma ends_add_map m p o : ends_any (add_map m p o).
Proof. unfold add_map. ends_auto. Qed.
#[export] Hint Resolve ends_add_map : patch_ends.

Definition state_rank (st : map_state) : nat := match st with PatternState => 1 | _ => 2 end.

Lemma ends_extract fuel : forall maps msg st p, (3 * length msg + state_rank st <= fuel)%nat ->
  ends (extract_loop fuel maps msg st p) (fun _ => True).
Proof.
  assert (forall n (r : Z * map_sect), ends_any (_ ← m_free n; mret r : M _)) as Hend by (intros; ends_auto).
  induction fuel as [|fuel IH]; intros maps [|c msg] st p Hf; cbn [extract_loop]; try apply Hend; [destruct st; cbn in Hf; lia|].
  set (m := c :: msg) in *. pose proof (eatwhite_length m) as Hw. destruct st; cbn [state_rank] in Hf.
  - apply IH. cbn [state_rank]. lia.
  - destruct (read_string (xmldb_eatwhite m) 58) as [s r] eqn:E. apply read_string_length in E as [E _].
    eapply ends_bind_any; [apply ends_strdup_any|]. intros x. pose proof (eatwhite_length r) as Hr.
    destruct (xmldb_eatwhite r) as [|d r']; [apply Hend|]. destruct (Z.eqb_spec d 58) as [->|Hd].
    + apply IH. cbn [length state_rank] in *. lia.
    + repeat (case_match; try apply Hend). by subst.
  - destruct (read_string (xmldb_eatwhite m) 44) as [s r] eqn:E. apply read_string_length in E as [E _].
    eapply ends_bind_any; [apply ends_strdup_any|]. intros x. pose proof (eatwhite_length r) as Hr.
    assert (forall msg', (3 * length msg' + 2 <= fuel)%nat ->
      ends (maps ← add_map maps p x; _ ← m_free (owned p + owned x); extract_loop fuel maps msg' SectionStart None) (fun _ => True)) as Hgo.
    { intros msg' Hm. ends_auto. }
    destruct (xmldb_eatwhite r) as [|d r']; [apply Hgo; cbn [length]; unfold m in *; cbn [length] in *; lia|]. destruct (Z.eqb_spec d 44) as [->|Hd].
    + apply Hgo. cbn [length] in *. lia.
    + repeat (case_match; try apply Hend). by subst.
Qed.

Lemma ends_map_output v m fl : ends_any (map_output v m fl).
Proof.
  unfold map_output, extract_maps. eapply ends_bind_any; [apply ends_extract; cbn [state_rank]; lia|]. intros [n maps].
  eapply ends_bind_any; [ends_auto|]. intros o. eapply ends_bind_any; [ends_auto|intros; apply patch_ends_free].
Qed.
#[export] Hint Resolve ends_map_output : patch_ends.

(** ** Numbers of elements *)

Lemma index_of_In p l k : index_of p l = Some k -> exists n, l !! k = Some n /\ p n = true.
Proof.
  revert k. induction l as [|x l IH]; intros k; cbn [index_of]; [done|]. destruct (p x) eqn:E.
  - intros [= <-]. by exists x.
  - destruct (index_of p l) as [k'|]; [|done]. intros [= <-]. by apply IH.
Qed.

(** Consecutive numbers that all belong to siblings are no more than the siblings. *)
Lemma numbers_bound l entry (k : nat) :
  (forall j, 1 <= j <= Z.of_nat k -> index_of (is_node entry j) l <> None) -> (k <= length l)%nat.
Proof.
  intros H. rewrite <- (length_map id l). replace k with (length (map Z.of_nat (seq 1 k))) by (by rewrite length_map, length_seq).
  apply NoDup_incl_length.
  - apply NoDup_ListNoDup, NoDup_fmap_2; [intros a b; lia|apply NoDup_seq].
  - intros j Hj. apply in_map_iff in Hj as (i & <- & Hi). apply in_seq in Hi.
    specialize (H (Z.of_nat i) ltac:(lia)). destruct (index_of _ l) as [m|] eqn:E; [|done].
    apply index_of_In in E as (n & Hn & E). apply in_map_iff. exists n. unfold is_node in E. bprop. split; [lia|].
    apply list_elem_of_In. by eapply list_elem_of_lookup_2.
Qed.

(** The siblings numbered from 1 up to [i] exist, and [fuel] turns are enough for the others. *)
Definition counted (fuel : nat) (l : list xml_node) (entry : list Z) (i : Z) : Prop :=
  1 <= i /\ (forall j, 1 <= j < i -> index_of (is_node entry j) l <> None) /\ zlen l < Z.of_nat fuel + (i - 1).

Lemma counted_start l entry : counted (S (length l)) l entry 1.
Proof. split_and!; intros; lia. Qed.

Lemma counted_some fuel l entry i : counted (S fuel) l entry i -> index_of (is_node entry i) l <> None -> counted fuel l entry (i + 1).
Proof.
  intros (H1 & H2 & H3) Hi. split_and!; [lia| |lia]. intros j Hj. destruct (Z.eq_dec j i) as [->|]; [done|]. apply H2. lia.
Qed.

Lemma counted_none l entry i : ~ counted 0 l entry i.
Proof.
  intros (H1 & H2 & H3). pose proof (numbers_bound l entry (Z.to_nat (i - 1))) as Hb.
  cut (Z.to_nat (i - 1) <= length l)%nat; [lia|]. apply Hb. intros j Hj. apply H2. lia.
Qed.

Lemma find_sibling_index l entry i h :
  xmldb_find_sibling l entry i false h = Some (index_of (is_node entry i) l, l, h).
Proof. unfold xmldb_find_sibling. by destruct (index_of _ l). Qed.

Lemma ends_count_loop l entry : forall fuel i, counted fuel l entry i -> ends_any (count_loop fuel l entry i).
Proof.
  induction fuel as [|fuel IH]; intros i Hc; [by apply counted_none in Hc|]. cbn [count_loop].
  eapply ends_bind_any; [ends_auto|]. intros w. rewrite find_sibling_index. cbn [lift].
  eapply patch_ends_bind; [apply (patch_ends_ret _ (fun r => r = (index_of (is_node entry i) l, l, mem (base w)))); done|]. intros ? ->.
  destruct (index_of _ l) eqn:E; [|ends_auto]. apply IH. apply counted_some; [done|]. by rewrite E.
Qed.

Lemma ends_count_entries l entry : ends_any (count_entries l entry).
Proof. unfold count_entries. eapply ends_bind_any; [apply ends_count_loop, counted_start|]. intros; ends_auto. Qed.

Lemma ends_parent_of pi path : ends_any (parent_of pi path).
Proof. unfold parent_of. eapply ends_bind_any; [ends_auto|]. intros w. destruct (strrchr_slash path) as [[a b]|]; ends_auto. Qed.

Lemma ends_children p : ends_any (children p).
Proof. unfold children. ends_auto. Qed.
#[export] Hint Resolve ends_count_entries ends_parent_of ends_children : patch_ends.

Lemma ends_array_count pi path : ends_any (do_array_count pi path).
Proof.
  unfold do_array_count. eapply ends_bind_any; [ends_auto|]. intros [s|]; [|ends_auto].
  eapply ends_bind_any; [ends_auto|]. intros [[p|] entry]; ends_auto.
Qed.

(** ** Values *)

Lemma ends_get_value pi path : ends_any (get_value pi path).
Proof. unfold get_value. ends_auto. Qed.

Lemma ends_var_at c : ends_any (var_at c).
Proof. apply ends_tame, tame_var_at. Qed.

Lemma ends_calculate v s id max : ends_any (do_calculate v s id max).
Proof. apply ends_turns; [apply calc_settled|done]. Qed.
#[export] Hint Resolve ends_array_count ends_get_value ends_var_at ends_calculate : patch_ends.

Lemma ends_mapped_value pi white path id : ends_any (mapped_value pi white path id).
Proof.
  unfold mapped_value, calculated, get_node_from_cstring. destruct (strcmp path [35] =? 0); [ends_auto|].
  eapply ends_bind_any; [destruct (list.last path), white; ends_auto|]. intros l.
  destruct (l =? 35); [ends_auto|]. destruct (deref path =? 37); [|ends_auto].
  destruct (node_loop (tail path)) as [a b]. eapply ends_bind_any; [ends_auto|]. intros [node s].
  destruct node as [|c node]; [ends_auto|]. eapply ends_bind_any; [ends_auto|]. intros i. ends_auto.
Qed.
#[export] Hint Resolve ends_mapped_value : patch_ends.

Lemma ends_mapping pi msg id : ends_any (do_mapping pi msg id).
Proof.
  unfold do_mapping. eapply ends_bind_any; [ends_auto|]. intros [s|]; [|ends_auto]. destruct (split_comma _) as [a b].
  eapply ends_bind_any; [ends_auto|]. intros v. eapply ends_bind_any; [destruct b as [[|c m]|]; ends_auto|]. intros. ends_auto.
Qed.
#[export] Hint Resolve ends_mapping : patch_ends.

(** ** Conditions *)

Lemma ends_compare_entry root e op x : ends_any (compare_entry root e op x).
Proof.
  unfold compare_entry, entry_number, operand_number, entry_string, operand_string, entry_char.
  destruct (deref e =? 37); (eapply ends_bind_any; [ends_auto|]; intros a; eapply ends_bind_any; [ends_auto|]; intros b; ends_auto).
Qed.
#[export] Hint Resolve ends_compare_entry : patch_ends.

Lemma ends_free_strings moved n : ends_any (free_strings moved n).
Proof. unfold free_strings. ends_auto. Qed.
#[export] Hint Resolve ends_free_strings : patch_ends.

Lemma ends_cond_loop root : forall fuel ptr r, (length ptr <= fuel)%nat -> ends_any (cond_loop fuel root ptr r).
Proof.
  induction fuel as [|fuel IH]; intros [|c ptr] r Hl; cbn [length] in Hl; try (by apply patch_ends_ret); [lia|].
  cbn [cond_loop]. set (m := c :: ptr). pose proof (eatwhite_length m) as Hw.
  destruct (read_string (xmldb_eatwhite m) 0) as [s r1] eqn:E1. apply read_string_length in E1 as [E1 E1'].
  eapply patch_ends_bind; [apply patch_ends_strdup|]. intros x Hx.
  assert (x = None \/ x = Some [] \/ (length r1 < length (xmldb_eatwhite m))%nat) as Hr.
  { destruct Hx as [->| ->]; [by left|]. right. destruct s; [by left|right]. by apply E1'. }
  destruct x as [[|c1 entry]|]; [ends_auto| |ends_auto]. destruct Hr as [?|[?|Hr]]; [done|done|].
  destruct (read_string (xmldb_eatwhite r1) 0) as [s2 r2] eqn:E2. apply read_string_length in E2 as [E2 _].
  eapply ends_bind_any; [ends_auto|]. intros [[|c2 op]|]; [ends_auto| |ends_auto].
  destruct (read_string (xmldb_eatwhite r2) 0) as [s3 r3] eqn:E3. apply read_string_length in E3 as [E3 _].
  eapply ends_bind_any; [ends_auto|]. intros x3. eapply ends_bind_any; [ends_auto|]. intros oprand.
  eapply ends_bind_any; [ends_auto|]. intros [b moved].
  assert (length (drop 2 (xmldb_eatwhite r3)) <= fuel)%nat as Hd.
  { pose proof (eatwhite_length r1). pose proof (eatwhite_length r2). pose proof (eatwhite_length r3).
    rewrite length_drop. unfold m in *. cbn [length] in *. lia. }
  destruct b as [b|]; [|ends_auto]. eapply ends_bind_any; [ends_auto|]. intros _.
  destruct (has_prefix [38; 38] _); [destruct b; [by apply IH|ends_auto]|].
  destruct (has_prefix [124; 124] _); [destruct b; [ends_auto|by apply IH]|]. ends_auto.
Qed.

Lemma ends_if_condition root tag : ends_any (do_if_condition root tag).
Proof.
  unfold do_if_condition. eapply ends_bind_any; [ends_auto|]. intros [s|]; [|ends_auto].
  eapply ends_bind_any; [by apply ends_cond_loop|]. intros. ends_auto.
Qed.
#[export] Hint Resolve ends_if_condition : patch_ends.

Lemma ends_variables pi tag id : ends_any (do_variables pi tag id).
Proof.
  unfold do_variables. destruct tag as [|c tl]; [ends_auto|]. destruct (xmldb_eatwhite tl) as [|d s]; [ends_auto|].
  destruct (Z.eqb_spec d 61) as [->|Hd]; [|repeat case_match; subst; ends_auto; done].
  eapply ends_bind_any; [eapply patch_ends_weaken; [apply ends_tame, tame_readnum|done]|]. intros [v r].
  eapply ends_bind_any; [apply ends_turns; [apply var_settled|done]|]. intros v'. ends_auto.
Qed.
#[export] Hint Resolve ends_variables : patch_ends.


(** ** Blocks *)

(** The dollar signs of a text, by which the nesting of blocks is bounded: every block begins with a tag that has one, and
    that tag does not come into the block. *)
Fixpoint dollars (l : list Z) : nat :=
  match l with [] => 0 | c :: tl => (if u8 c =? 36 then 1 else 0) + dollars tl end.

Lemma dollars_length l : (dollars l <= length l)%nat.
Proof. induction l as [|c l IH]; cbn [dollars length]; [lia|]. destruct (_ =? _); lia. Qed.

Lemma dollars_app a b : dollars (a ++ b) = (dollars a + dollars b)%nat.
Proof. induction a as [|c a IH]; cbn; lia. Qed.

Lemma dollars_sublist a b : sublist a b -> (dollars a <= dollars b)%nat.
Proof. induction 1; cbn [dollars]; lia. Qed.

Lemma sublist_eat p s : sublist (eat p s) s.
Proof. induction s as [|c s IH]; cbn [eat]; [constructor|]. destruct (p c); [by constructor|done]. Qed.

Lemma dollars_rev l : dollars (rev l) = dollars l.
Proof. induction l as [|c l IH]; [done|]. cbn [rev dollars]. rewrite dollars_app, IH. cbn [dollars]. lia. Qed.

Lemma dollars_trim s : (dollars (xmldb_eatwhite (xmldb_reatwhite (cstr s))) <= dollars s)%nat.
Proof.
  etransitivity; [apply dollars_sublist, sublist_eat|]. unfold xmldb_reatwhite. rewrite dollars_rev.
  etransitivity; [apply dollars_sublist, sublist_eat|]. rewrite dollars_rev.
  induction s as [|c s IH]; cbn [cstr dollars]; [done|]. destruct (c =? 0); cbn [dollars]; lia.
Qed.

Lemma u8_of_schar b : u8 (schar b) = u8 b.
Proof. unfold schar, u8. destruct (_ <? _); [done|]. replace (b - 256) with (b + (-1) * 2 ^ 8) by lia. by apply Z_mod_plus_full. Qed.

(** Reading changes neither the block nor its kind. *)
Definition same (pi pi' : PINFO) : Prop := buff pi' = buff pi /\ (fh pi = None -> fh pi' = None).

Lemma same_refl pi : same pi pi.
Proof. done. Qed.

Lemma same_trans a b c : same a b -> same b c -> same a c.
Proof. intros [H1 H2] [H3 H4]. split; [congruence|auto]. Qed.

(** What is read of a template: no more than there is. *)
Record shrinks (pi pi' : PINFO) (text : list Z) : Prop := {
  shrinks_same : same pi pi';
  shrinks_length : (length (rest pi') <= length (rest pi))%nat;
  shrinks_dollars : (dollars text + dollars (rest pi') <= dollars (rest pi))%nat
}.

Lemma shrinks_refl pi : shrinks pi pi [].
Proof. by constructor. Qed.

Lemma shrinks_app a b c x y : shrinks a b x -> shrinks b c y -> shrinks a c (x ++ y).
Proof. intros [A1 A2 A3] [B1 B2 B3]. constructor; [by eapply same_trans|lia|rewrite dollars_app; lia]. Qed.

Lemma shrinks_less a b x y : shrinks a b x -> (dollars y <= dollars x)%nat -> shrinks a b y.
Proof. intros [A1 A2 A3] H. constructor; [done|done|lia]. Qed.

Lemma ends_getc pi :
  ends (pi_getc pi) (fun r => shrinks pi (snd r) (if fst r =? EOF then [] else [fst r]) /\
                              (fst r <> EOF -> (length (rest (snd r)) < length (rest pi))%nat)).
Proof.
  unfold pi_getc. destruct (fh pi) as [[l n]|] eqn:Ef.
  - destruct (l !! n) as [c|] eqn:El; apply patch_ends_ret; cbn [fst snd]; [|by rewrite Z.eqb_refl; split; [apply shrinks_refl|]].
    assert (rest pi = c :: rest (set_fh pi (Some (l, S n)))) as Hr by (unfold rest; rewrite Ef; cbn [fh set_fh]; by apply drop_S).
    split; [|intros _; rewrite Hr; cbn [length]; lia]. constructor; [split; [done|by rewrite Ef]|rewrite Hr; cbn [length]; lia|].
    rewrite Hr. destruct (c =? EOF); cbn [dollars]; lia.
  - destruct (Nat.ltb_spec (offset pi) (size pi)) as [Hlt|_]; [|apply patch_ends_ret; cbn [fst snd]; rewrite Z.eqb_refl; split; [apply shrinks_refl|done]].
    intros w. rewrite bind_lift. destruct (buff pi) as [b|] eqn:Eb; [|done]. rewrite bind_lift. destruct (b !! offset pi) as [c|] eqn:Ec; [|done].
    cbn. split; [done|]. set (pi' := set_offset pi (S (offset pi))).
    assert (rest pi = c :: rest pi') as Hr.
    { unfold rest, pi'. cbn [set_offset fh buff size offset]. rewrite Ef, Eb. cbn [default]. apply drop_S. by rewrite lookup_take_lt. }
    split; [|intros _; rewrite Hr; cbn [length]; lia]. constructor; [split; [done|done]|rewrite Hr; cbn [length]; lia|].
    rewrite Hr. destruct (schar c =? EOF); cbn [dollars]; rewrite ?u8_of_schar; lia.
Qed.

Lemma u8_u8 c : u8 (u8 c) = u8 c.
Proof. apply u8_small, u8_byte. Qed.

Lemma ends_tag_loop : forall room pi c acc,
  ends (tag_loop room pi c acc) (fun r => exists t, snd (fst r) = acc ++ t /\ shrinks pi (snd r) t).
Proof.
  induction room as [room IH] using (well_founded_induction lt_wf). intros pi c acc.
  destruct room as [|room]; cbn [tag_loop]; [apply patch_ends_ret; exists []; by rewrite app_nil_r|].
  eapply patch_ends_bind; [apply ends_getc|]. intros [c1 pi1] [Hs1 _]. cbn [fst snd] in Hs1.
  destruct (c1 =? EOF); [apply patch_ends_ret; exists []; by rewrite app_nil_r|]. destruct (c1 =? 125).
  - eapply patch_ends_bind; [apply ends_getc|]. intros [c2 pi2] [Hs2 _]. cbn [fst snd] in Hs2.
    pose proof (shrinks_app _ _ _ _ _ Hs1 Hs2) as Hs12.
    destruct (c2 =? EOF); cbn [orb]; [apply patch_ends_ret; exists []; split; [by rewrite app_nil_r|]; eapply shrinks_less; [exact Hs12|cbn; lia]|].
    destruct (c2 =? 125); [apply patch_ends_ret; exists []; split; [by rewrite app_nil_r|]; eapply shrinks_less; [exact Hs12|cbn; lia]|].
    eapply patch_ends_weaken; [apply IH; lia|]. intros [[c' acc'] pi'] (t & E & Ht). cbn [fst snd] in *. subst acc'. exists ([125; u8 c2] ++ t).
    split; [by rewrite <- app_assoc|]. eapply shrinks_app; [|exact Ht]. eapply shrinks_less; [exact Hs12|]. cbn [dollars app]. rewrite u8_u8.
    change (u8 125 =? 36) with false. destruct (u8 c1 =? 36); lia.
  - eapply patch_ends_weaken; [apply IH; lia|]. intros [[c' acc'] pi'] (t & E & Ht). cbn [fst snd] in *. subst acc'. exists ([u8 c1] ++ t).
    split; [by rewrite <- app_assoc|]. eapply shrinks_app; [|exact Ht]. eapply shrinks_less; [exact Hs1|]. cbn [dollars]. by rewrite u8_u8.
Qed.

Lemma ends_read_tag pi : ends (read_tag pi) (fun r => shrinks pi (snd r) (snd (fst r))).
Proof.
  unfold read_tag, read_tag_msg. eapply patch_ends_bind; [apply ends_tag_loop|]. intros [[c t] pi'] (t' & E & Ht). apply patch_ends_ret. cbn [fst snd] in *. subst t.
  eapply shrinks_less; [exact Ht|]. apply dollars_trim.
Qed.

(** A block is in a buffer, and has at most [n] dollar signs. *)
Definition bounded (n : nat) (pi : PINFO) : Prop := fh pi = None /\ (dollars (default [] (buff pi)) <= n)%nat.

Lemma bounded_rest n pi : bounded n pi -> (dollars (rest pi) <= n)%nat.
Proof.
  intros [Hf Hd]. unfold rest. rewrite Hf. etransitivity; [|exact Hd]. apply dollars_sublist.
  etransitivity; [apply sublist_drop|apply sublist_take].
Qed.

Lemma bounded_same n pi pi' : same pi pi' -> bounded n pi -> bounded n pi'.
Proof. intros [H1 H2] [H3 H4]. split; [auto|by rewrite H1]. Qed.

Lemma bounded_more n m pi : bounded n pi -> (n <= m)%nat -> bounded m pi.
Proof. intros [H1 H2] H. split; [done|lia]. Qed.

Lemma ends_pi_putc pi c n : bounded n pi -> ends (pi_putc pi c) (fun r => bounded (n + dollars [c]) (snd r)).
Proof.
  intros [Hf Hd]. unfold pi_putc. eapply patch_ends_bind with (P := bounded n).
  - destruct (_ <=? _)%nat; [|by apply patch_ends_ret]. eapply ends_bind_any; [ends_auto|]. intros ok. apply patch_ends_ret. split; [done|].
    cbn [set_buff buff]. destruct ok; [done|cbn; lia].
  - intros pi' [Hf' Hd']. destruct (buff pi') as [b|] eqn:Eb; apply patch_ends_ret; cbn [snd].
    + split; [done|]. cbn -[dollars] in *. rewrite dollars_app. cbn [dollars]. rewrite u8_u8. lia.
    + split; [done|]. rewrite Eb. cbn. lia.
Qed.

Lemma ends_pi_puts : forall s pi n, bounded n pi -> ends (pi_puts pi s) (fun r => bounded (n + dollars s) (snd r)).
Proof.
  induction s as [|c s IH]; intros pi n Hb; cbn [pi_puts].
  - apply patch_ends_ret. eapply bounded_more; [exact Hb|lia].
  - eapply patch_ends_bind; [by apply ends_pi_putc|]. intros [ret pi'] Hb'. cbn [snd] in Hb'. destruct (ret <? 0).
    + apply patch_ends_ret. eapply bounded_more; [exact Hb'|cbn [dollars]; lia].
    + eapply patch_ends_weaken; [by apply IH|]. intros r Hr. eapply bounded_more; [exact Hr|cbn [dollars]; lia].
Qed.

Lemma ends_keep_text keep s : forall info n, bounded n info -> ends (keep_text keep info s) (bounded (n + dollars s)).
Proof.
  destruct keep; [|intros info n Hb; apply patch_ends_ret; eapply bounded_more; [exact Hb|lia]]. unfold keep_text.
  induction s as [|c s IH]; intros info n Hb; [apply patch_ends_ret; eapply bounded_more; [exact Hb|lia]|].
  eapply patch_ends_bind; [by apply ends_pi_putc|]. intros [ret pi'] Hb'. eapply patch_ends_weaken; [by apply IH|].
  intros r Hr. eapply bounded_more; [exact Hr|cbn [dollars]; lia].
Qed.

Lemma ends_keep_tag keep info tag n : bounded n info -> ends (keep_tag keep info tag) (bounded (n + dollars tag)).
Proof.
  intros Hb. destruct keep; [|apply patch_ends_ret; eapply bounded_more; [exact Hb|lia]]. unfold keep_tag, pi_puttag.
  eapply patch_ends_bind; [by apply ends_pi_puts|]. intros r Hr. apply patch_ends_ret. eapply bounded_more; [exact Hr|].
  rewrite !dollars_app. change (dollars [123; 123]) with 0%nat. change (dollars [125; 125]) with 0%nat. lia.
Qed.


(** What collecting leaves: the template is read on, and the block has no more dollar signs than were read. *)
Definition collected (pi : PINFO) (n : nat) (r : option bool * PINFO * PINFO) : Prop :=
  let '(_, pi', info) := r in
  same pi pi' /\ (length (rest pi') <= length (rest pi))%nat /\ (dollars (rest pi') <= dollars (rest pi))%nat /\
  exists k, bounded k info /\ (k + dollars (rest pi') <= n + dollars (rest pi))%nat.

Lemma collected_after pi pi1 n m text r :
  shrinks pi pi1 text -> (m <= n + dollars text)%nat -> collected pi1 m r -> collected pi n r.
Proof.
  intros [S1 S2 S3] Hm. destruct r as [[e pi'] info]. intros (C1 & C2 & Cd & k & C3 & C4).
  split; [by eapply same_trans|]. split; [lia|]. split; [lia|]. exists k. split; [done|lia].
Qed.

Lemma collected_here pi n info e : bounded n info -> collected pi n (e, pi, info).
Proof. intros H. split; [done|]. split; [done|]. split; [done|]. by exists n. Qed.

Lemma ends_collect judge keep : forall fuel lvl pi info n,
  (length (rest pi) < fuel)%nat -> bounded n info -> ends (collect fuel judge keep lvl pi info) (collected pi n).
Proof.
  induction fuel as [|fuel IH]; intros lvl pi info n Hf Hb; [lia|]. cbn [collect].
  eapply patch_ends_bind; [apply ends_getc|]. intros [c1 pi1] [Hs1 Hl1]. cbn [fst snd] in Hs1, Hl1.
  destruct (c1 =? EOF) eqn:E1.
  { apply patch_ends_ret. eapply collected_after; [exact Hs1| |by apply collected_here]. lia. }
  bprop. specialize (Hl1 E1). destruct (negb (c1 =? 123)).
  { eapply patch_ends_bind; [by apply ends_keep_text|]. intros info' Hi. eapply patch_ends_weaken; [apply IH; [lia|exact Hi]|].
    intros r. eapply collected_after; [exact Hs1|lia]. }
  eapply patch_ends_bind; [apply ends_getc|]. intros [c2 pi2] [Hs2 Hl2]. cbn [fst snd] in Hs2, Hl2.
  pose proof (shrinks_app _ _ _ _ _ Hs1 Hs2) as Hs12. pose proof (shrinks_length _ _ _ Hs2) as Hl12.
  assert (dollars [123] = 0%nat) as Hz by reflexivity. destruct (c2 =? EOF).
  { eapply patch_ends_bind; [by apply ends_keep_text|]. intros info' Hi. apply patch_ends_ret.
    eapply collected_after; [exact Hs12| |apply collected_here; exact Hi]. rewrite dollars_app. lia. }
  destruct (negb (c2 =? 123)).
  { eapply patch_ends_bind; [by apply ends_keep_text|]. intros info' Hi. eapply patch_ends_weaken; [apply IH; [lia|exact Hi]|].
    intros r. eapply collected_after; [exact Hs12|]. rewrite dollars_app. cbn [dollars] in *. lia. }
  eapply patch_ends_bind; [apply ends_read_tag|]. intros [[c3 msg] pi3] Hs3. cbn [fst snd] in Hs3.
  pose proof (shrinks_app _ _ _ _ _ Hs12 Hs3) as Hs. pose proof (shrinks_length _ _ _ Hs3) as Hl3.
  destruct (judge lvl msg) as [lvl'|e].
  - eapply patch_ends_bind; [by apply ends_keep_tag|]. intros info' Hi. destruct (c3 =? EOF).
    + apply patch_ends_ret. eapply collected_after; [exact Hs| |apply collected_here; exact Hi]. rewrite dollars_app. lia.
    + eapply patch_ends_weaken; [apply IH; [lia|exact Hi]|]. intros r. eapply collected_after; [exact Hs|]. rewrite dollars_app. lia.
  - apply patch_ends_ret. eapply collected_after; [exact Hs| |by apply collected_here]. lia.
Qed.

Lemma ends_collect_block judge keep pi info n : bounded n info -> ends (collect_block judge keep pi info) (collected pi n).
Proof. intros H. apply ends_collect; [lia|done]. Qed.

Section Depth.
(** Blocks with fewer than [n] dollar signs end. *)
Context (patch : PINFO -> Z -> M (Z * PINFO)) (n : nat).
Context (Hpatch : forall pi id, (dollars (rest pi) < n)%nat -> ends (patch pi id) (fun r => same pi (snd r))).

Lemma ends_nested pi id m : bounded m pi -> (m < n)%nat -> ends (patch pi id) (fun r => bounded m (snd r)).
Proof using Hpatch.
  intros Hb Hm. eapply patch_ends_weaken; [apply Hpatch; apply bounded_rest in Hb; lia|]. intros r Hr. exact (bounded_same _ _ _ Hr Hb).
Qed.

(** A tag leaves less of the template. *)
Definition advances (pi : PINFO) (r : Z * PINFO) : Prop :=
  same pi (snd r) /\ (length (rest (snd r)) <= length (rest pi))%nat /\ (dollars (rest (snd r)) <= dollars (rest pi))%nat.

Lemma advances_refl pi ret : advances pi (ret, pi).
Proof using Type. by split_and!. Qed.

Lemma bounded_new pi : bounded 0 (new_info pi).
Proof using Type. done. Qed.

Lemma ends_do_if pi tag id : (dollars (rest pi) < n)%nat -> ends (do_if patch pi tag id) (advances pi).
Proof using Hpatch.
  intros Hn. unfold do_if. eapply ends_bind_any; [ends_auto|]. intros r0. generalize (negb (r0 =? 0)). intros yes.
  eapply patch_ends_bind; [by apply (ends_collect_block _ _ _ _ 0)|]. intros [[e pi1] info] (C1 & C2 & Cd & k & C3 & C4).
  eapply patch_ends_bind with (P := bounded k).
  { destruct yes; [|by apply patch_ends_ret]. eapply patch_ends_bind; [apply ends_nested; [exact C3|lia]|].
    intros x Hx. by apply patch_ends_ret. }
  intros info1 Hi1. eapply patch_ends_bind with (P := fun r => advances pi (0, fst r)).
  - destruct e as [[|]|]; [|apply patch_ends_ret; by split_and!..].
    eapply patch_ends_bind; [by apply ends_collect_block|]. intros [[e2 pi2] info2] (D1 & D2 & Dd & k2 & D3 & D4).
    eapply ends_bind_any.
    { destruct yes; [by apply patch_ends_ret|]. eapply ends_bind_any; [|intros; by apply patch_ends_ret].
      eapply patch_ends_weaken; [apply ends_nested; [exact D3|lia]|done]. }
    intros info3. apply patch_ends_ret. split_and!; cbn [fst snd]; [by eapply same_trans|lia|lia].
  - intros [pi2 info2] Ha. ends_auto. by apply patch_ends_ret.
Qed.

Lemma ends_array_loop p l entry m : (m < n)%nat -> forall fuel id info,
  counted fuel l entry id -> bounded m info -> ends (array_loop patch fuel p l entry id info) (fun _ => True).
Proof using Hpatch.
  intros Hm. induction fuel as [|fuel IH]; intros id info Hc Hb; [by apply counted_none in Hc|]. cbn [array_loop].
  eapply ends_bind_any; [ends_auto|]. intros w. rewrite find_sibling_index. cbn [lift].
  eapply patch_ends_bind; [apply (patch_ends_ret _ (fun r => r = (index_of (is_node entry id) l, l, mem (base w)))); done|]. intros ? ->.
  destruct (index_of _ l) as [k|] eqn:E; [|ends_auto]. eapply patch_ends_bind; [apply (ends_nested _ _ m); [|done]|].
  - unfold pi_set_offset. cbn [fh set_current]. rewrite (proj1 Hb). by destruct (_ <? _)%nat.
  - intros r Hr. apply IH; [|done]. apply counted_some; [done|]. by rewrite E.
Qed.

Lemma ends_do_array pi tag : (dollars (rest pi) < n)%nat -> ends (do_array patch pi tag) (advances pi).
Proof using Hpatch.
  intros Hn. unfold do_array. eapply ends_bind_any; [ends_auto|]. intros [path|]; [|apply patch_ends_ret, advances_refl].
  eapply patch_ends_bind; [by apply (ends_collect_block _ _ _ _ 0)|]. intros [[e pi1] info] (C1 & C2 & Cd & k & C3 & C4).
  eapply ends_bind_any; [ends_auto|]. intros [[p|] entry]; [|ends_auto; by apply patch_ends_ret].
  eapply ends_bind_any; [ends_auto|]. intros l. eapply ends_bind_any; [ends_auto|]. intros m.
  eapply ends_bind_any; [|intros info'; ends_auto; by apply patch_ends_ret].
  apply (ends_array_loop _ _ _ k); [lia|apply counted_start|exact C3].
Qed.

Lemma ends_do_tag pi msg id : (dollars msg + dollars (rest pi) <= n)%nat -> ends (do_tag patch pi msg id) (advances pi).
Proof using Hpatch.
  intros Hn. unfold do_tag. destruct (deref msg =? 36) eqn:E.
  - assert (1 <= dollars msg)%nat as Hd by (destruct msg as [|c m]; [done|]; cbn in E; bprop; subst c; cbn [dollars]; change (u8 36 =? 36) with true; cbn iota; lia).
    destruct (has_prefix tag_array msg); [apply ends_do_array; lia|]. destruct (has_prefix tag_if msg); [apply ends_do_if; lia|].
    destruct (has_prefix tag_var msg); ends_auto; apply patch_ends_ret, advances_refl.
  - destruct (deref msg =? 64); [|ends_auto; apply patch_ends_ret, advances_refl]. destruct (id =? 0); ends_auto; apply patch_ends_ret; by split_and!.
Qed.

Lemma ends_patch_loop : forall fuel pi id,
  (length (rest pi) < fuel)%nat -> (dollars (rest pi) <= n)%nat -> ends (patch_loop patch fuel pi id) (fun r => same pi (snd r)).
Proof using Hpatch.
  induction fuel as [|fuel IH]; intros pi id Hf Hn; [lia|]. cbn [patch_loop].
  eapply patch_ends_bind; [apply ends_getc|]. intros [c1 pi1] [Hs1 Hl1]. cbn [fst snd] in Hs1, Hl1.
  assert (forall pi', same pi pi' -> (length (rest pi') < fuel)%nat -> (dollars (rest pi') <= n)%nat ->
            ends (patch_loop patch fuel pi' id) (fun r => same pi (snd r))) as Hgo.
  { intros pi' H1 H2 H3. eapply patch_ends_weaken; [by apply IH|]. intros r Hr. by eapply same_trans. }
  destruct (c1 =? EOF) eqn:E1; [apply patch_ends_ret, Hs1|]. bprop. specialize (Hl1 E1). pose proof (shrinks_dollars _ _ _ Hs1).
  destruct (negb (c1 =? 123)); [ends_auto; apply Hgo; [apply Hs1|lia|lia]|].
  eapply patch_ends_bind; [apply ends_getc|]. intros [c2 pi2] [Hs2 Hl2]. cbn [fst snd] in Hs2, Hl2.
  pose proof (shrinks_app _ _ _ _ _ Hs1 Hs2) as Hs12. pose proof (shrinks_length _ _ _ Hs2) as Hl12. pose proof (shrinks_dollars _ _ _ Hs2).
  destruct (c2 =? EOF); [ends_auto; apply patch_ends_ret, Hs12|].
  destruct (negb (c2 =? 123)); [ends_auto; apply Hgo; [apply Hs12|lia|lia]|].
  eapply patch_ends_bind; [apply ends_read_tag|]. intros [[c3 msg] pi3] Hs3. cbn [fst snd] in Hs3.
  pose proof (shrinks_app _ _ _ _ _ Hs12 Hs3) as Hs. pose proof (shrinks_length _ _ _ Hs3). pose proof (shrinks_dollars _ _ _ Hs3).
  eapply patch_ends_bind; [apply ends_do_tag; lia|]. intros [ret pi4] (A1 & A2 & A3). cbn [snd] in A1, A2, A3.
  assert (same pi pi4) as Hs4 by (eapply same_trans; [apply Hs|done]).
  destruct (ret <? 0); [by apply patch_ends_ret|]. destruct (c3 =? EOF); [by apply patch_ends_ret|]. apply Hgo; [done|lia|lia].
Qed.
End Depth.

Lemma ends_do_patch : forall depth pi id, (dollars (rest pi) < depth)%nat -> ends (do_patch depth pi id) (fun r => same pi (snd r)).
Proof.
  induction depth as [|depth IH]; intros pi id Hd; [lia|]. cbn [do_patch].
  apply (ends_patch_loop _ depth); [|lia|lia]. intros pi' id' H'. by apply IH.
Qed.

(** Within the fuel a loop hangs exactly if it never ends. *)
Lemma hangs_exactly step v s w : settled step ->
  turns step (length s) v s w = Hang <-> forall n, plain_turns step n v s w = NoFuel.
Proof.
  intros Hs. pose proof (turns_exact step Hs (length s) v s w ltac:(lia)) as H.
  destruct (turns step (length s) v s w); (split; [done || exact (fun _ => H)|]); try done; intros Hn;
    specialize (H (length s) ltac:(lia)); rewrite Hn in H; done.
Qed.

(** C26. Every request ends or hangs in a calculation: whatever the template or the message, the tree and the behaviour of
    the heap, none runs out of fuel (blocks are nested no deeper than the template has dollar signs),
    and none changes the tree; and a calculation hangs exactly if the loop as it is written never ends. *)
Theorem patch_ends :
  (forall file flags, ends (xmldb_patch_file file flags) (fun _ => True)) /\
  (forall len data flags, ends (xmldb_patch_buffer len data flags) (fun _ => True)) /\
  (forall root msg flags, ends (xmldb_patch_message root msg flags) (fun _ => True)) /\
  (forall v s id max w, do_calculate v s id max w = Hang <->
     forall n, plain_turns (fun v s => calc_step v s id max) n v s w = NoFuel) /\
  (forall v s id max w, turns (fun v s => var_step v s id max) (length s) v s w = Hang <->
     forall n, plain_turns (fun v s => var_step v s id max) n v s w = NoFuel).
Proof.
  assert (forall pi id n, (length (rest pi) <= n)%nat -> ends_any (do_patch (S n) pi id)) as Hp.
  { intros pi id n Hn. eapply patch_ends_weaken; [apply ends_do_patch|done]. pose proof (dollars_length (rest pi)). lia. }
  assert (ends_any no_vars) as Hv by (by apply ends_modify).
  split_and!.
  - intros file fl. unfold xmldb_patch_file. eapply ends_bind_any; [done|]. intros _. destruct file as [t|]; [|ends_auto].
    eapply ends_bind_any; [by apply Hp|]. intros. ends_auto.
  - intros len data fl. unfold xmldb_patch_buffer. eapply ends_bind_any; [done|]. intros _. ends_auto.
    eapply ends_bind_any; [apply Hp|intros; ends_auto]. unfold rest. cbn. rewrite firstn_all, drop_0. done.
  - intros root msg fl. unfold xmldb_patch_message. eapply ends_bind_any; [done|]. intros _. ends_auto.
  - intros. apply hangs_exactly, calc_settled.
  - intros. apply hangs_exactly, var_settled.
Qed.
End PatchRun.
