(* ===== verification/PatchShow.v ===== *)
(** * tools/alpha/xmldb/patch.c: what a template shows.

    A template is a list of pieces: text, values, conditions, arrays, variables and paths.  [render] says what
    it shows, on a tree and without a buffer, a cursor or a heap; the theorem at the end says that
    the engine, on the text of the pieces, shows just that. *)
From Stdlib Require Import ZArith Lia Bool String.
From stdpp Require Import base tactics list option numbers.
From S2P Require Import Prelude Xmldb XmldbFile Patch PatchRun.

Module PatchShow.
Import Xmldb XmldbFile Patch PatchRun.

(** ** The effect of a run on the world *)

(** Buffered output: the buffer, and the blocks that were sent. *)
Fixpoint spill (b : list Z) (o : list (list Z)) (s : list Z) : list Z * list (list Z) :=
  match s with
  | [] => (b, o)
  | c :: tl =>
      let b := if (length b <? 1024)%nat then b ++ [u8 c] else b in
      if (length b =? 1024)%nat then spill [] (o ++ [b]) tl else spill b o tl
  end.

(** The world after [s] has been shown, the variables are [vs], and [n] more blocks are live. *)
Definition after (w : world) (s vs : list Z) (n : Z) : world :=
  mkw (mkdb (g_xml_root (base w)) (mkheap (avail (mem (base w))) (live (mem (base w)) + n)) (sent (base w)))
      vs (fst (spill (buffer w) (written w) s)) (snd (spill (buffer w) (written w) s)).

Lemma spill_app a : forall b o s, spill b o (a ++ s) = spill (fst (spill b o a)) (snd (spill b o a)) s.
Proof. induction a as [|c a IH]; intros b o s; cbn [app spill]; [done|]. destruct (_ =? _)%nat; apply IH. Qed.

Lemma after_after w s vs n s' vs' n' : after (after w s vs n) s' vs' n' = after w (s ++ s') vs' (n + n').
Proof. unfold after. cbn [base g_xml_root mem avail live sent buffer written]. by rewrite spill_app, Z.add_assoc. Qed.

Lemma after_nothing w : after w [] (g_var w) 0 = w.
Proof. unfold after. destruct w as [[t [a l] m] v b o]. cbn. by rewrite Z.add_0_r. Qed.

(** On the tree [t] with the variables [vs] and memory to spare, [m] returns [x], shows [s], leaves the variables [vs'] and [n]
    more blocks. *)
Definition shows {A} (t : xml_node) (vs : list Z) (m : M A) (x : A) (s vs' : list Z) (n : Z) : Prop :=
  forall w, avail (mem (base w)) = [] -> g_xml_root (base w) = t -> g_var w = vs -> m w = Ret (x, after w s vs' n).

Lemma shows_ret {A} t vs (x : A) : shows t vs (mret x) x [] vs 0.
Proof. intros w _ _ <-. by rewrite after_nothing. Qed.

Lemma shows_bind {A B} t vs (m : M A) (k : A -> M B) x s vs1 n y s' vs2 n' :
  shows t vs m x s vs1 n -> shows t vs1 (k x) y s' vs2 n' -> shows t vs (mbind k m) y (s ++ s') vs2 (n + n').
Proof.
  intros Hm Hk w Ha Ht Hv. unfold mbind, M_bind. rewrite (Hm w Ha Ht Hv). rewrite Hk by done. by rewrite after_after.
Qed.

(** For the sequel, with the effects named. *)
Lemma shows_seq {A B} t vs (m : M A) (k : A -> M B) x s vs1 n y s' vs2 n' s2 n2 :
  shows t vs m x s vs1 n -> shows t vs1 (k x) y s' vs2 n' -> s2 = s ++ s' -> n2 = n + n' -> shows t vs (mbind k m) y s2 vs2 n2.
Proof. intros Hm Hk -> ->. by eapply shows_bind. Qed.

(** A first step that shows nothing. *)
Lemma shows_first {A B} t vs (m : M A) (k : A -> M B) x n y s vs2 n2 :
  shows t vs m x [] vs n -> shows t vs (k x) y s vs2 (n2 - n) -> shows t vs (mbind k m) y s vs2 n2.
Proof. intros Hm Hk. eapply shows_seq; [exact Hm|exact Hk|done|lia]. Qed.

Lemma shows_silent {A B} t vs (m : M A) (k : A -> M B) x n y vs2 n' :
  shows t vs m x [] vs n -> shows t vs (k x) y [] vs2 n' -> shows t vs (mbind k m) y [] vs2 (n + n').
Proof. intros Hm Hk. by eapply shows_seq. Qed.

Lemma shows_lift {A} t vs (o : option A) x : o = Some x -> shows t vs (lift o) x [] vs 0.
Proof. intros ->. apply shows_ret. Qed.

(** Steps that look at the world. *)
Lemma shows_get {B} t vs (k : world -> M B) y s vs2 n2 :
  (forall w, g_xml_root (base w) = t -> g_var w = vs -> shows t vs (k w) y s vs2 n2) -> shows t vs (mbind k get) y s vs2 n2.
Proof. intros H w Ha Ht Hv. unfold mbind, M_bind, get. by apply H. Qed.

Lemma shows_strdup t vs x : shows t vs (m_strdup x) (Some x) [] vs 1.
Proof. intros w Ha <- <-. unfold m_strdup, strdup, malloc. rewrite Ha. unfold after, set_heap, set_root. cbn. by rewrite Ha. Qed.

Lemma shows_malloc t vs : shows t vs m_malloc true [] vs 1.
Proof. intros w Ha <- <-. unfold m_malloc, malloc. rewrite Ha. unfold after, set_heap, set_root. cbn. by rewrite Ha. Qed.

Lemma shows_free t vs k : shows t vs (m_free k) tt [] vs (- k).
Proof. intros w Ha <- <-. unfold m_free, modify, after, set_heap, set_root, free. cbn. do 4 f_equal. Qed.

Lemma shows_realloc t vs b : shows t vs (m_realloc b) true [] vs (if b then 0 else 1).
Proof.
  unfold m_realloc. eapply shows_first; [apply shows_malloc|]. destruct b; cbn [andb].
  - eapply shows_first; [apply shows_free|]. apply shows_ret.
  - eapply shows_first; [apply shows_ret|]. apply shows_ret.
Qed.

Lemma shows_flushed t vs c : shows t vs (buffer_putc c) tt [c] vs 0.
Proof.
  intros [[t' [a l] m] v b o] Ha <- <-. unfold buffer_putc, buffer_flush, mbind, M_bind, modify, get, after. cbn -[u8 app Nat.ltb Nat.eqb].
  rewrite Z.add_0_r. destruct (length b <? 1024)%nat; cbn -[u8 app Nat.ltb Nat.eqb];
    match goal with |- context [(?x =? 1024)%nat] => destruct (x =? 1024)%nat end; reflexivity.
Qed.

Lemma shows_puts t vs s : shows t vs (buffer_puts s) tt s vs 0.
Proof.
  induction s as [|c s IH]; cbn [buffer_puts]; [apply shows_ret|].
  eapply shows_seq; [apply shows_flushed|exact IH|done|done].
Qed.

(** [RGDB_ESCAPE_JS] *)
Definition js_text (s : list Z) : list Z := flat_map (fun c => if (c =? 34) || (c =? 36) || (c =? 92) then [92; c] else [c]) s.
Definition shown (flags : Z) (s : list Z) : list Z := if negb (Z.land flags RGDB_ESCAPE_JS =? 0) then js_text s else s.

Lemma shows_output t vs fl s : shows t vs (_output s fl) tt (shown fl s) vs 0.
Proof.
  unfold _output, shown. destruct (negb _); [|apply shows_puts]. unfold js_text. induction s as [|c s IH]; cbn [_output_js flat_map]; [apply shows_ret|].
  destruct (_ || _).
  - eapply shows_seq; [apply shows_flushed| |reflexivity|reflexivity]. eapply shows_seq; [apply shows_flushed|exact IH|done|done].
  - eapply shows_seq; [apply shows_ret| |reflexivity|reflexivity]. eapply shows_seq; [apply shows_flushed|exact IH|done|done].
Qed.

(** ** Reading a template *)

(** A buffer holds as many bytes as it says. *)
Definition good (pi : PINFO) : Prop := fh pi = None -> size pi = length (default [] (buff pi)).

Definition skip (pi : PINFO) (n : nat) : PINFO :=
  match fh pi with Some (l, k) => set_fh pi (Some (l, (k + n)%nat)) | None => set_offset pi (offset pi + n) end.

Lemma rest_skip pi n : rest (skip pi n) = drop n (rest pi).
Proof.
  unfold rest, skip. destruct (fh pi) as [[l k]|] eqn:E; cbn [set_fh set_offset fh buff size offset]; [by rewrite drop_drop|].
  rewrite E. by rewrite drop_drop.
Qed.

Lemma rest_skip_app pi a r n : rest pi = a ++ r -> n = length a -> rest (skip pi n) = r.
Proof. intros E ->. by rewrite rest_skip, E, drop_app_length. Qed.

Lemma skip_skip pi a b : skip (skip pi a) b = skip pi (a + b).
Proof.
  destruct pi as [f c m [[l k]|] bf sz o al]; unfold skip; cbn; [by rewrite Nat.add_assoc|by rewrite Nat.add_assoc].
Qed.

Lemma skip_0 pi : skip pi 0 = pi.
Proof. destruct pi as [f c m [[l k]|] bf sz o al]; unfold skip; cbn; by rewrite Nat.add_0_r. Qed.

Lemma good_skip pi n : good pi -> good (skip pi n).
Proof. unfold good, skip. destruct pi as [f c m [[l k]|] bf sz o al]; cbn; done. Qed.

Lemma current_skip pi n : current (skip pi n) = current pi.
Proof. destruct pi as [f c m [[l k]|] bf sz o al]; done. Qed.

Lemma flags_skip pi n : flags (skip pi n) = flags pi.
Proof. destruct pi as [f c m [[l k]|] bf sz o al]; done. Qed.

Lemma max_skip pi n : max (skip pi n) = max pi.
Proof. destruct pi as [f c m [[l k]|] bf sz o al]; done. Qed.

(** What a byte reads as. *)
Definition seen (pi : PINFO) (c : Z) : Z := match fh pi with Some _ => c | None => schar c end.

Lemma shows_getc t vs pi c r : good pi -> rest pi = c :: r -> shows t vs (pi_getc pi) (seen pi c, skip pi 1) [] vs 0.
Proof.
  intros Hg Hr w Ha <- <-. rewrite after_nothing. unfold pi_getc, seen, skip, rest in *. destruct (fh pi) as [[l k]|] eqn:Ef.
  - assert (l !! k = Some c) as ->.
    { rewrite <- (Nat.add_0_r k), <- lookup_drop. by rewrite Hr. }
    by rewrite Nat.add_1_r.
  - specialize (Hg Ef). set (b := default [] (buff pi)) in *. rewrite Hg, take_ge in Hr by lia.
    assert (b !! offset pi = Some c) as Hc by (rewrite <- (Nat.add_0_r (offset pi)), <- lookup_drop; by rewrite Hr).
    pose proof (lookup_lt_Some _ _ _ Hc) as Hlt. rewrite Hg, (proj2 (Nat.ltb_lt _ _) Hlt).
    unfold b in *. destruct (buff pi) as [b'|]; [|done]. rewrite bind_lift. change (b' !! offset pi = Some c) in Hc.
    rewrite bind_lift, Hc. by rewrite Nat.add_1_r.
Qed.

Lemma shows_getc_end t vs pi : good pi -> rest pi = [] -> shows t vs (pi_getc pi) (EOF, pi) [] vs 0.
Proof.
  intros Hg Hr w Ha <- <-. rewrite after_nothing. unfold pi_getc, rest in *. destruct (fh pi) as [[l k]|] eqn:Ef.
  - assert (l !! k = None) as -> by (apply lookup_ge_None_2; apply (f_equal length) in Hr; rewrite length_drop in Hr; cbn in Hr; lia). done.
  - specialize (Hg Ef). rewrite Hg, take_ge in Hr by lia. apply (f_equal length) in Hr. rewrite length_drop in Hr. cbn in Hr.
    rewrite (proj2 (Nat.ltb_ge _ _)); [done|lia].
Qed.

(** Bytes that a buffer can deliver: not 255. *)
Definition text_char (c : Z) : bool := (0 <=? c) && (c <? 255).

Lemma seen_facts pi c : text_char c = true ->
  (seen pi c =? EOF) = false /\ u8 (seen pi c) = c /\ (forall d, 0 <= d < 128 -> (seen pi c =? d) = (c =? d)).
Proof.
  unfold text_char, seen, EOF. intros H. bprop. destruct (fh pi); [|unfold schar; destruct (Z.ltb_spec c 128)].
  - split_and!; [lia|apply u8_small; split; lia|done].
  - split_and!; [lia|apply u8_small; split; lia|done].
  - split_and!; [lia| |intros; lia]. change (c - 256) with (c + (-1) * 2 ^ 8). unfold u8. rewrite Z_mod_plus_full. apply Z.mod_small. lia.
Qed.

(** ** Tags *)

(** A message that is read back as it is: no NUL, no closing brace, not too long, no white space around it. *)
Definition tag_char (c : Z) : bool := text_char c && negb (c =? 0) && negb (c =? 125).
Definition trimmed (s : list Z) : bool := negb (IS_WHITE (deref s)) && negb (IS_WHITE (deref (rev s))).
Definition tag_ok (msg : list Z) : bool := forallb tag_char msg && (length msg <=? 253)%nat && trimmed msg.

Lemma shows_tag_loop t vs msg : forall room pi c acc r,
  good pi -> rest pi = msg ++ 125 :: 125 :: r -> forallb tag_char msg = true -> (length msg < room)%nat ->
  shows t vs (tag_loop room pi c acc) (125, acc ++ msg, skip pi (length msg + 2)) [] vs 0.
Proof.
  induction msg as [|x msg IH]; intros room pi c acc r Hg Hr Hm Hl; (destruct room as [|room]; [cbn in Hl; lia|]); cbn [tag_loop app] in *.
  - eapply shows_first; [by eapply shows_getc|]. destruct (seen_facts pi 125 eq_refl) as (-> & _ & H). rewrite (H 125) by lia.
    change (125 =? 125) with true. cbn iota.
    assert (rest (skip pi 1) = 125 :: r) as Hr1 by (by rewrite rest_skip, Hr).
    eapply shows_first; [eapply shows_getc; [by apply good_skip|exact Hr1]|]. destruct (seen_facts (skip pi 1) 125 eq_refl) as (-> & _ & H1).
    rewrite (H1 125) by lia. change (125 =? 125) with true. cbn [orb]. rewrite skip_skip. cbn [length Nat.add]. rewrite app_nil_r.
    assert (seen (skip pi 1) 125 = 125) as -> by (apply Z.eqb_eq; by rewrite (H1 125)). apply shows_ret.
  - cbn [forallb length] in *. apply andb_true_iff in Hm as [Hx Hm]. unfold tag_char in Hx. bprop.
    eapply shows_first; [by eapply shows_getc|]. destruct (seen_facts pi x) as (-> & Hu & He); [done|]. rewrite (He 125) by lia.
    rewrite (proj2 (Z.eqb_neq x 125)) by done. rewrite Hu.
    replace (acc ++ x :: msg) with ((acc ++ [x]) ++ msg) by (by rewrite <- app_assoc).
    replace (skip pi (S (length msg) + 2)) with (skip (skip pi 1) (length msg + 2)) by (rewrite skip_skip; f_equal; lia).
    eapply IH; [by apply good_skip|by rewrite rest_skip, Hr|done|lia].
Qed.

Lemma eat_deref p s : p (deref s) = false -> eat p s = s.
Proof. destruct s as [|c s]; cbn; [done|]. by intros ->. Qed.

Lemma shows_read_tag t vs msg pi r :
  good pi -> rest pi = msg ++ 125 :: 125 :: r -> tag_ok msg = true ->
  shows t vs (read_tag pi) (125, msg, skip pi (length msg + 2)) [] vs 0.
Proof.
  intros Hg Hr Hm. unfold tag_ok in Hm. apply andb_true_iff in Hm as [Hm Ht]. apply andb_true_iff in Hm as [Hc Hl].
  unfold trimmed in Ht. bprop. apply Nat.leb_le in Hl. unfold read_tag, read_tag_msg.
  eapply shows_first; [eapply shows_tag_loop; [done|exact Hr|done|unfold MAX_PATCH_MSG_LEN; lia]|]. cbn [app].
  rewrite cstr_id.
  - unfold xmldb_reatwhite, xmldb_eatwhite. rewrite (eat_deref _ (rev msg)) by done. rewrite rev_involutive, eat_deref by done. apply shows_ret.
  - apply List.Forall_forall. intros c Hin. rewrite forallb_forall in Hc. specialize (Hc c Hin). unfold tag_char in Hc. bprop. done.
Qed.


(** ** Blocks *)

Definition blocks (s : list Z) : Z := match s with [] => 0 | _ => 1 end.
Definition room_for (n : nat) : nat := 1024 * ((n + 1023) / 1024).

(** The block [info] with the text [s] in it. *)
Definition filled (info : PINFO) (s : list Z) : PINFO :=
  mkpi (flags info) (current info) (max info) None (match s with [] => None | _ => Some s end) (length s) (offset info) (room_for (length s)).

Lemma patch_room_step n : room_for (S n) = if (room_for n <=? n)%nat then (room_for n + 1024)%nat else room_for n.
Proof.
  unfold room_for. pose proof (Nat.div_mod (n + 1023) 1024 ltac:(lia)). pose proof (Nat.mod_upper_bound (n + 1023) 1024 ltac:(lia)).
  pose proof (Nat.div_mod (S n + 1023) 1024 ltac:(lia)). pose proof (Nat.mod_upper_bound (S n + 1023) 1024 ltac:(lia)).
  destruct (Nat.leb_spec (1024 * ((n + 1023) / 1024)) n); nia.
Qed.

Lemma room_0 : room_for 0 = 0%nat.
Proof. by vm_compute. Qed.

Lemma shows_pi_putc t vs info s v :
  shows t vs (pi_putc (filled info s) v) (0, filled info (s ++ [u8 v])) [] vs (blocks (s ++ [u8 v]) - blocks s).
Proof.
  unfold pi_putc. cbn [filled allocsize size buff].
  assert (filled info (s ++ [u8 v]) = mkpi (flags info) (current info) (max info) None (Some (s ++ [u8 v])) (S (length s)) (offset info) (room_for (S (length s)))) as ->.
  { unfold filled. rewrite length_app. cbn [length]. rewrite Nat.add_1_r. by destruct (s ++ [u8 v]) eqn:E; [destruct s|]. }
  assert (blocks (s ++ [u8 v]) = 1) as -> by (by destruct s). rewrite patch_room_step. unfold room_for at 1.
  fold (room_for (length s)). destruct (room_for (length s) <=? length s)%nat eqn:E.
  - eapply shows_first; [eapply shows_silent; [apply shows_realloc|apply shows_ret]|].
    cbn [set_buff buff flags current max fh offset allocsize size]. destruct s; apply shows_ret.
  - destruct s as [|x s]; [cbn [length] in E; rewrite room_0 in E; discriminate E|]. eapply shows_first; [apply shows_ret|]. apply shows_ret.
Qed.

Lemma shows_keep_text t vs info x : forall s,
  shows t vs (keep_text true (filled info s) x) (filled info (s ++ map u8 x)) [] vs (blocks (s ++ map u8 x) - blocks s).
Proof.
  unfold keep_text. induction x as [|c x IH]; intros s.
  - cbn [map]. rewrite app_nil_r, Z.sub_diag. apply shows_ret.
  - eapply shows_first; [apply shows_pi_putc|]. cbn [snd map]. specialize (IH (s ++ [u8 c])). rewrite <- app_assoc in IH. cbn [app] in IH.
    replace (blocks (s ++ u8 c :: map u8 x) - blocks s - (blocks (s ++ [u8 c]) - blocks s)) with (blocks (s ++ u8 c :: map u8 x) - blocks (s ++ [u8 c])) by lia.
    exact IH.
Qed.

Lemma shows_pi_puts t vs info x : forall s,
  shows t vs (pi_puts (filled info s) x) (0, filled info (s ++ map u8 x)) [] vs (blocks (s ++ map u8 x) - blocks s).
Proof.
  induction x as [|c x IH]; intros s; cbn [pi_puts].
  - cbn [map]. rewrite app_nil_r, Z.sub_diag. apply shows_ret.
  - eapply shows_first; [apply shows_pi_putc|]. change (0 <? 0) with false. cbn iota. cbn [map]. specialize (IH (s ++ [u8 c])). rewrite <- app_assoc in IH. cbn [app] in IH.
    replace (blocks (s ++ u8 c :: map u8 x) - blocks s - (blocks (s ++ [u8 c]) - blocks s)) with (blocks (s ++ u8 c :: map u8 x) - blocks (s ++ [u8 c])) by lia.
    exact IH.
Qed.

Lemma map_u8 s : forallb text_char s = true -> map u8 s = s.
Proof.
  induction s as [|c s IH]; cbn [forallb map]; [done|]. intros H. bprop. rewrite IH by done. f_equal.
  unfold text_char in H. bprop. apply u8_small. split; lia.
Qed.

Lemma tag_text msg : forallb tag_char msg = true -> forallb text_char msg = true.
Proof.
  rewrite !forallb_forall. intros H c Hc. specialize (H c Hc). unfold tag_char in H. bprop. done.
Qed.

(** Text and tags as they stand in a template. *)
Definition braced (msg : list Z) : list Z := [123; 123] ++ msg ++ [125; 125].

Fixpoint text_ok (s : list Z) : bool :=
  match s with
  | [] => true
  | c :: tl =>
      text_char c &&
      (if c =? 123 then match tl with d :: tl' => text_char d && negb (d =? 123) && text_ok tl' | [] => false end else text_ok tl)
  end.

Definition kept (keep : bool) (s : list Z) : list Z := if keep then s else [].

Section Collect.
Context (t : xml_node) (vs : list Z) (judge : nat -> list Z -> verdict) (keep : bool) (info : PINFO).

(** Collecting from [pi] with the text [a] in the block gives [x] and takes [k] blocks, with any fuel that is enough. *)
Definition collects (lvl : nat) (pi : PINFO) (a : list Z) (x : option bool * PINFO * PINFO) (k : Z) : Prop :=
  forall fuel, (length (rest pi) < fuel)%nat -> shows t vs (collect fuel judge keep lvl pi (filled info a)) x [] vs k.

Lemma collects_eq lvl pi a x k k' : collects lvl pi a x k -> k = k' -> collects lvl pi a x k'.
Proof using Type. by intros H <-. Qed.

Lemma shows_kept_text s a : forallb text_char (map u8 s) = true ->
  shows t vs (keep_text keep (filled info a) s) (filled info (a ++ kept keep (map u8 s))) [] vs (blocks (a ++ kept keep (map u8 s)) - blocks a).
Proof using Type.
  intros H. destruct keep; cbn [kept]; [apply shows_keep_text|]. rewrite app_nil_r, Z.sub_diag. apply shows_ret.
Qed.

Lemma collects_text s : forall lvl pi a x k r,
  good pi -> rest pi = s ++ r -> text_ok s = true ->
  collects lvl (skip pi (length s)) (a ++ kept keep s) x (k + blocks a - blocks (a ++ kept keep s)) ->
  collects lvl pi a x k.
Proof using Type.
  induction s as [s IH] using (induction_ltof1 _ (@length Z)); unfold ltof in IH. intros lvl pi a x k r Hg Hr Hs Hk.
  destruct s as [|c s].
  { cbn [length] in Hk. rewrite skip_0 in Hk. assert (kept keep [] = []) as E by (by destruct keep). rewrite E, app_nil_r in Hk.
    replace (k + blocks a - blocks a) with k in Hk by lia. exact Hk. }
  intros fuel Hf. destruct fuel as [|fuel]; [lia|]. cbn [collect app text_ok] in *. apply andb_true_iff in Hs as [Hc Hs].
  eapply shows_first; [by eapply shows_getc|]. destruct (seen_facts pi c Hc) as (-> & Hu & He). rewrite (He 123) by lia.
  assert (length (rest (skip pi 1)) < fuel)%nat as Hf1 by (rewrite rest_skip, length_drop; rewrite Hr in Hf |- *; cbn [length] in *; lia).
  destruct (Z.eqb_spec c 123) as [->|Hc3]; cbn [negb].
  - destruct s as [|d s]; [done|]. bprop. rename H into Hd, H1 into Hd3, H0 into Hs.
    assert (rest (skip pi 1) = d :: s ++ r) as Hr1 by (by rewrite rest_skip, Hr).
    eapply shows_first; [eapply shows_getc; [by apply good_skip|exact Hr1]|].
    destruct (seen_facts (skip pi 1) d Hd) as (-> & Hu1 & He1). rewrite (He1 123) by lia. rewrite (proj2 (Z.eqb_neq d 123)) by done. cbn [negb].
    assert (map u8 [123; seen (skip pi 1) d] = [123; d]) as Eu by (cbn [map]; by rewrite Hu1).
    eapply shows_first; [apply shows_kept_text; rewrite Eu; cbn [forallb]; by rewrite Hd|]. rewrite Eu, skip_skip.
    assert (a ++ kept keep [123; d] ++ kept keep s = a ++ kept keep (123 :: d :: s)) as Ea by (by destruct keep).
    eapply (IH s ltac:(cbn; lia) lvl (skip pi (1 + 1)) (a ++ kept keep [123; d]) _ _ r); [by apply good_skip|by rewrite rest_skip, Hr|done| |rewrite rest_skip, length_drop; rewrite Hr in Hf |- *; cbn [length] in *; lia].
    rewrite skip_skip, <- app_assoc, Ea. cbn [length Nat.add] in Hk |- *. eapply collects_eq; [exact Hk|lia].
  - assert (map u8 [seen pi c] = [c]) as Eu by (cbn [map]; by rewrite Hu).
    eapply shows_first; [apply shows_kept_text; rewrite Eu; cbn [forallb]; by rewrite Hc|]. rewrite Eu.
    assert (a ++ kept keep [c] ++ kept keep s = a ++ kept keep (c :: s)) as Ea by (by destruct keep).
    eapply (IH s ltac:(cbn; lia) lvl (skip pi 1) (a ++ kept keep [c]) _ _ r); [by apply good_skip|by rewrite rest_skip, Hr|done| |done].
    rewrite skip_skip, <- app_assoc, Ea. cbn [length Nat.add] in Hk |- *. eapply collects_eq; [exact Hk|lia].
Qed.
End Collect.


Section Tags.
Context (t : xml_node) (vs : list Z).

Lemma shows_brace pi r : good pi -> rest pi = 123 :: r -> shows t vs (pi_getc pi) (123, skip pi 1) [] vs 0.
Proof using Type.
  intros Hg Hr. assert (seen pi 123 = 123) as <- by (apply Z.eqb_eq; by rewrite (proj2 (proj2 (seen_facts pi 123 eq_refl)) 123)).
  by eapply shows_getc.
Qed.

(** Reading a tag from its opening braces on. *)
Lemma shows_open {A} (f : Z * PINFO -> M A) (g : Z * PINFO -> M A) (k : Z * list Z * PINFO -> M A) pi msg r x s vs2 n :
  good pi -> rest pi = braced msg ++ r -> tag_ok msg = true ->
  (forall pi, f (123, pi) = mbind g (pi_getc pi)) -> (forall pi, g (123, pi) = mbind k (read_tag pi)) ->
  shows t vs (k (125, msg, skip pi (length (braced msg)))) x s vs2 n ->
  shows t vs (mbind f (pi_getc pi)) x s vs2 n.
Proof using Type.
  intros Hg Hr Hm Hf Hgk Hk. unfold braced in Hr. cbn [app] in Hr.
  assert (rest (skip pi 1) = 123 :: (msg ++ [125; 125]) ++ r) as Hr1 by (by rewrite rest_skip, Hr).
  assert (rest (skip pi 2) = msg ++ 125 :: 125 :: r) as Hr2 by (rewrite rest_skip, Hr; cbn [drop]; by rewrite <- app_assoc).
  eapply shows_first; [by eapply shows_brace|]. rewrite Hf.
  eapply shows_first; [eapply shows_brace; [by apply good_skip|exact Hr1]|]. rewrite Hgk, skip_skip.
  eapply shows_first; [eapply shows_read_tag; [by apply good_skip|exact Hr2|done]|]. rewrite skip_skip.
  replace (n - 0 - 0 - 0) with n by lia. replace (1 + 1 + (length msg + 2))%nat with (length (braced msg)); [exact Hk|].
  unfold braced. cbn [app length]. rewrite length_app. cbn. lia.
Qed.

End Tags.

Section CollectTags.
Context (t : xml_node) (vs : list Z) (judge : nat -> list Z -> verdict) (keep : bool) (info : PINFO).
Abbreviation collects_ := (collects t vs judge keep info).

Lemma braced_text msg : forallb tag_char msg = true -> map u8 (braced msg) = braced msg.
Proof using Type.
  intros H. unfold braced. rewrite !map_app, (map_u8 msg) by (by apply tag_text). reflexivity.
Qed.

Lemma shows_kept_tag msg a : forallb tag_char msg = true ->
  shows t vs (keep_tag keep (filled info a) msg) (filled info (a ++ kept keep (braced msg))) [] vs (blocks (a ++ kept keep (braced msg)) - blocks a).
Proof using Type.
  intros H. unfold keep_tag. destruct keep; cbn [kept].
  - unfold pi_puttag. fold (braced msg). pose proof (shows_pi_puts t vs info (braced msg) a) as Hp. rewrite braced_text in Hp by done.
    eapply shows_first; [exact Hp|]. rewrite Z.sub_diag. apply shows_ret.
  - rewrite app_nil_r, Z.sub_diag. apply shows_ret.
Qed.

Lemma collects_tag msg lvl lvl' pi a x k r :
  good pi -> rest pi = braced msg ++ r -> tag_ok msg = true -> judge lvl msg = Inside lvl' ->
  collects_ lvl' (skip pi (length (braced msg))) (a ++ kept keep (braced msg)) x (k + blocks a - blocks (a ++ kept keep (braced msg))) ->
  collects_ lvl pi a x k.
Proof using Type.
  intros Hg Hr Hm Hj Hk fuel Hf. destruct fuel as [|fuel]; [lia|]. cbn [collect].
  eapply shows_open; [done|exact Hr|done|reflexivity|reflexivity|]. cbn beta iota. rewrite Hj.
  assert (forallb tag_char msg = true) as Hc by (unfold tag_ok in Hm; by bprop).
  eapply shows_first; [by apply shows_kept_tag|]. change (125 =? EOF) with false. cbn iota.
  replace (k - (blocks (a ++ kept keep (braced msg)) - blocks a)) with (k + blocks a - blocks (a ++ kept keep (braced msg))) by lia.
  apply Hk. rewrite rest_skip, length_drop. rewrite Hr in Hf |- *. rewrite length_app in *. unfold braced in *. cbn [app length] in *. lia.
Qed.

Lemma collects_end msg lvl e pi a r :
  good pi -> rest pi = braced msg ++ r -> tag_ok msg = true -> judge lvl msg = Ends e ->
  collects_ lvl pi a (Some e, skip pi (length (braced msg)), filled info a) 0.
Proof using Type.
  intros Hg Hr Hm Hj fuel Hf. destruct fuel as [|fuel]; [lia|]. cbn [collect].
  eapply shows_open; [done|exact Hr|done|reflexivity|reflexivity|]. cbn beta iota. rewrite Hj. apply shows_ret.
Qed.

End CollectTags.

End PatchShow.
