(* ===== verification/PatchTemplate.v ===== *)
(** * tools/alpha/xmldb/patch.c: templates as lists of pieces, and what they show.

    The pieces of a template, their text, and [render]: what they show on a tree, without cursors, buffers or a heap.
    The theorem [patch_renders] says that [do_patch], on the text of the pieces, shows what [render] says. *)
From Stdlib Require Import ZArith Lia Bool String.
From stdpp Require Import base tactics list option numbers.
From S2P Require Import Prelude Xmldb XmldbFile Patch PatchRun PatchShow.

Module PatchTemplate.
Import Xmldb XmldbFile Patch PatchRun PatchShow.

#[local] Set Warnings "-register-all".

(** ** Pieces *)

Inductive operand := ONum (n : Z) | OId | OMax | OVar (k : nat).
Inductive cop := CEq | CNe | CGe | CLe | CAdd | CSub | CMul | CDiv | CMod | CGt | CLt.

(** The value a calculation starts with. *)
Inductive start := SNode (name : list Z) | SId | SVar (k : nat).

Inductive vexp :=
| VNode (path : list Z)
| VId
| VCount (path : list Z)
| VVar (k : nat)
| VCalc (s : start) (l : list (cop * operand)).

(** Texts for values, and the text for any other value. *)
Record vmap := mkvmap { cases : list (list Z * list Z); other : option (list Z) }.

Inductive centry := ENode (path : list Z) | EVar (k : nat).
Record comparison := mkcomp { c_entry : centry; c_equal : bool; c_text : list Z }.

(** A comparison, and others joined to it by [&&] or [||]. *)
Record condition := mkcond { c_first : comparison; c_more : list (bool * comparison) }.

(** A condition without [$else] has no pieces for it. *)
Inductive piece :=
| PText (s : list Z)
| PValue (e : vexp) (m : option vmap)
| PIf (c : condition) (yes : list piece) (has_else : bool) (no : list piece)
| PArray (path : list Z) (body : list piece)
| PVar (k : nat) (o : operand) (l : list (cop * operand))
| PPath (path : list Z).

(** ** Their text *)

Definition print_var (k : nat) : list Z := str_var ++ [48 + Z.of_nat k].

Definition print_operand (o : operand) : list Z :=
  match o with ONum n => dec n | OId => [35] | OMax => [64] | OVar k => print_var k end.

Definition print_cop (c : cop) : list Z :=
  match c with
  | CEq => [61; 61] | CNe => [33; 61] | CGe => [62; 61] | CLe => [60; 61]
  | CAdd => [43] | CSub => [45] | CMul => [42] | CDiv => [47] | CMod => [37] | CGt => [62] | CLt => [60]
  end.

Definition print_calc (l : list (cop * operand)) : list Z := flat_map (fun p => print_cop (fst p) ++ print_operand (snd p)) l.

Definition print_start (s : start) : list Z := match s with SNode nm => nm | SId => [35] | SVar k => print_var k end.

Definition print_vexp (e : vexp) : list Z :=
  match e with
  | VNode path => path
  | VId => [35]
  | VCount path => path ++ [35]
  | VVar k => print_var k
  | VCalc s l => 37 :: print_start s ++ print_calc l
  end.

Definition quote_char (c : Z) : list Z := if (c =? 34) || (c =? 92) then [92; c] else [c].
Definition quote (s : list Z) : list Z := 34 :: flat_map quote_char s ++ [34].

Definition print_case (p : list Z * list Z) : list Z := quote (fst p) ++ [58] ++ quote (snd p).

Fixpoint print_cases (l : list (list Z * list Z)) : list Z :=
  match l with [] => [] | [p] => print_case p | p :: tl => print_case p ++ [44] ++ print_cases tl end.

(** All the cases of a map, the one for other values last. *)
Definition all_cases (m : vmap) : list (list Z * list Z) :=
  cases m ++ match other m with Some o => [([42], o)] | None => [] end.

Definition print_value (e : vexp) (m : option vmap) : list Z :=
  print_vexp e ++ match m with Some m => 44 :: print_cases (all_cases m) | None => [] end.

Definition print_entry (e : centry) : list Z := match e with ENode path => path | EVar k => print_var k end.

Definition print_comparison (c : comparison) : list Z :=
  print_entry (c_entry c) ++ [32] ++ (if c_equal c then op_eq else op_ne) ++ [32] ++ quote (c_text c).

Definition print_join (b : bool) : list Z := if b then [38; 38] else [124; 124].

Definition print_condition (c : condition) : list Z :=
  print_comparison (c_first c) ++ flat_map (fun p => print_join (fst p) ++ [32] ++ print_comparison (snd p)) (c_more c).

Definition msg_if (c : condition) : list Z := tag_if ++ [32] ++ print_condition c.
Definition msg_array (path : list Z) : list Z := tag_array ++ path.
Definition msg_var (k : nat) (o : operand) (l : list (cop * operand)) : list Z :=
  tag_var ++ [48 + Z.of_nat k] ++ [61] ++ print_operand o ++ print_calc l.
Definition msg_path (path : list Z) : list Z := 64 :: path.

Fixpoint print_piece (p : piece) : list Z :=
  match p with
  | PText s => s
  | PValue e m => braced (print_value e m)
  | PIf c a els b =>
      braced (msg_if c) ++ flat_map print_piece a ++ (if els then braced tag_else else []) ++ flat_map print_piece b ++ braced tag_fi
  | PArray path b => braced (msg_array path) ++ flat_map print_piece b ++ braced tag_arrayend
  | PVar k o l => braced (msg_var k o l)
  | PPath path => braced (msg_path path)
  end.

Definition print_template (l : list piece) : list Z := flat_map print_piece l.

(** ** What can be written *)

Definition operand_ok (o : operand) : bool :=
  match o with ONum n => (0 <=? n) && (n <=? INT_MAX) | OVar k => (k <? 10)%nat | _ => true end.
Definition calc_ok (l : list (cop * operand)) : bool := forallb (fun p => operand_ok (snd p)) l.

(** The operations of [do_variables] *)
Definition plain_cop (c : cop) : bool := match c with CAdd | CSub | CMul | CDiv | CMod => true | _ => false end.

(** A path: not empty, without white space and commas, and with a first character that means nothing else. *)
Definition path_char (c : Z) : bool := negb (IS_WHITE c) && negb (c =? 44).
Definition path_start (c : Z) : bool := negb ((c =? 0) || (c =? 34) || (c =? 36) || (c =? 37) || (c =? 64)).
Definition plain_path (path : list Z) : bool := forallb path_char path && path_start (deref path).
Definition no_var (path : list Z) : bool := negb (has_prefix str_var path).
Definition no_hash (s : list Z) : bool := negb (deref (rev s) =? 35).

Definition start_ok (s : start) : bool :=
  match s with
  | SNode nm => forallb (fun c => path_char c && (find_pattern c calc_ops =? 0)) nm && path_start (deref nm) && no_var nm && no_hash nm && (length nm <? 80)%nat
  | SId => true
  | SVar k => (k <? 10)%nat
  end.

Definition vexp_ok (e : vexp) : bool :=
  match e with
  | VNode path => plain_path path && no_var path && no_hash path
  | VId => true
  | VCount path => plain_path path
  | VVar k => (k <? 10)%nat
  | VCalc s l => start_ok s && calc_ok l && no_hash (print_vexp e)
  end.

Definition short (s : list Z) : bool := (length s <? 255)%nat.
Definition vmap_ok (m : vmap) : bool :=
  forallb (fun p => negb (eqb_list (fst p) [42]) && short (fst p) && short (snd p)) (cases m) &&
  (length (cases m) <? MAX_MAP_SECTION)%nat && from_option short true (other m) && (0 <? length (all_cases m))%nat.

Definition entry_ok (e : centry) : bool :=
  match e with ENode path => plain_path path && no_var path && short path | EVar k => (k <? 10)%nat end.
Definition comparison_ok (c : comparison) : bool := entry_ok (c_entry c) && no_var (c_text c) && short (c_text c).
Definition condition_ok (c : condition) : bool := comparison_ok (c_first c) && forallb (fun p => comparison_ok (snd p)) (c_more c).

Fixpoint piece_ok (p : piece) : bool :=
  match p with
  | PText s => text_ok s
  | PValue e m => vexp_ok e && from_option vmap_ok true m && tag_ok (print_value e m)
  | PIf c a els b =>
      condition_ok c && tag_ok (msg_if c) && forallb piece_ok a && forallb piece_ok b && (els || match b with [] => true | _ => false end)
  | PArray path b => tag_ok (msg_array path) && forallb piece_ok b
  | PVar k o l => (k <? 10)%nat && operand_ok o && calc_ok l && forallb (fun p => plain_cop (fst p)) l && tag_ok (msg_var k o l)
  | PPath path => tag_ok (msg_path path)
  end.

(** ** What they show *)

Section Render.
Context (t : xml_node) (fl : Z).

(** The tree as a database; searches look at nothing else. *)
Definition as_db : db := mkdb t (mkheap [] 0) [].

(** The node at a path from [cur]. *)
Definition look (cur : option pos) (path : list Z) : option pos :=
  match xmldb_find_node as_db cur path false with Some (r, _) => r | None => None end.

Definition value_at (cur : option pos) (path : list Z) : list Z :=
  match look cur path with
  | Some p => match node_at t p with Some n => default [] (value n) | None => [] end
  | None => []
  end.

(** The number of the element and of the elements. *)
Record env := mkenv { e_id : Z; e_max : Z }.

Definition operand_val (e : env) (vs : list Z) (o : operand) : option Z :=
  match o with ONum n => Some n | OId => Some (e_id e) | OMax => Some (e_max e) | OVar k => vs !! k end.

(** [None]: an overflow, or a remainder by zero; a division by a number that is not positive is left out. *)
Definition apply_cop (c : cop) (v i : Z) : option Z :=
  match c with
  | CEq => Some (bool_int (v =? i)) | CNe => Some (bool_int (negb (v =? i)))
  | CGe => Some (bool_int (i <=? v)) | CLe => Some (bool_int (v <=? i))
  | CGt => Some (bool_int (i <? v)) | CLt => Some (bool_int (v <? i))
  | CAdd => int_of (v + i) | CSub => int_of (v - i) | CMul => int_of (v * i)
  | CDiv => Some (if 0 <? i then Z.quot v i else v)
  | CMod => remainder v i
  end.

Fixpoint calc (e : env) (vs : list Z) (v : Z) (l : list (cop * operand)) : option Z :=
  match l with [] => Some v | (c, o) :: tl => i ← operand_val e vs o; v ← apply_cop c v i; calc e vs v tl end.

(** The elements of an array: the siblings with a name, numbered from [i] on without a gap. *)
Fixpoint elements (fuel : nat) (l : list xml_node) (entry : list Z) (i : Z) : list (Z * nat) :=
  match fuel with
  | O => []
  | S fuel => match index_of (is_node entry i) l with Some k => (i, k) :: elements fuel l entry (i + 1) | None => [] end
  end.

(** The node above the elements, their name, and the elements. *)
Definition array_at (cur : option pos) (path : list Z) : option (pos * list (Z * nat)) :=
  let '(p, entry) := match strrchr_slash path with Some (a, b) => (look cur a, b) | None => (cur, path) end in
  p ← p; n ← node_at t p; Some (p, elements (length (child n)) (child n) entry 1).

Definition count_at (cur : option pos) (path : list Z) : Z := match array_at cur path with Some (_, l) => zlen l | None => 0 end.

Definition start_val (e : env) (cur : option pos) (vs : list Z) (s : start) : option Z :=
  match s with SNode nm => Some (atoi (value_at cur nm)) | SId => Some (e_id e) | SVar k => vs !! k end.

Definition vexp_val (e : env) (cur : option pos) (vs : list Z) (x : vexp) : option (list Z) :=
  match x with
  | VNode path => Some (value_at cur path)
  | VId => Some (print_int (e_id e))
  | VCount path => Some (print_int (count_at cur path))
  | VVar k => print_int <$> vs !! k
  | VCalc s l => v ← start_val e cur vs s; n ← calc e vs v l; Some (print_int n)
  end.

Definition map_text (m : option vmap) (v : list Z) : list Z :=
  match m with
  | None => v
  | Some m => match list_find (fun p => v = fst p) (cases m) with Some (_, p) => snd p | None => default v (other m) end
  end.

Definition entry_text (cur : option pos) (vs : list Z) (e : centry) : option (list Z) :=
  match e with ENode path => Some (value_at cur path) | EVar k => print_int <$> vs !! k end.

Definition holds (cur : option pos) (vs : list Z) (c : comparison) : option bool :=
  x ← entry_text cur vs (c_entry c); Some (eqb (c_equal c) (eqb_list x (c_text c))).

Fixpoint holds_more (cur : option pos) (vs : list Z) (b : bool) (l : list (bool * comparison)) : option bool :=
  match l with
  | [] => Some b
  | (join, c) :: tl => if eqb join b then b ← holds cur vs c; holds_more cur vs b tl else Some b
  end.

Definition condition_val (cur : option pos) (vs : list Z) (c : condition) : option bool :=
  b ← holds cur vs (c_first c); holds_more cur vs b (c_more c).

(** What pieces do: the text, the node in place of [cur], the variables, and the blocks that are lost. *)
Record shown_by := mkshown { r_text : list Z; r_cur : option pos; r_vars : list Z; r_lost : Z }.
Abbreviation renderer := (env -> option pos -> list Z -> option shown_by).

Definition render_list (f : piece -> renderer) : list piece -> renderer :=
  fix go l e cur vs :=
    match l with
    | [] => Some (mkshown [] cur vs 0)
    | p :: tl =>
        a ← f p e cur vs;
        b ← go tl e (r_cur a) (r_vars a);
        Some (mkshown (r_text a ++ r_text b) (r_cur b) (r_vars b) (r_lost a + r_lost b))
    end.

(** The block of an array for each element. *)
Fixpoint render_elements (f : renderer) (p : pos) (n : Z) (l : list (Z * nat)) (vs : list Z) : option shown_by :=
  match l with
  | [] => Some (mkshown [] None vs 0)
  | (i, k) :: tl =>
      a ← f (mkenv i n) (Some (p ++ [k])) vs;
      b ← render_elements f p n tl (r_vars a);
      Some (mkshown (r_text a ++ r_text b) None (r_vars b) (r_lost a + r_lost b))
  end.

Fixpoint render_piece (p : piece) : renderer := fun e cur vs =>
  match p with
  | PText s => Some (mkshown s cur vs 0)
  | PValue x m => v ← vexp_val e cur vs x; Some (mkshown (shown fl (map_text m v)) cur vs 0)
  | PIf c a _ b =>
      y ← condition_val cur vs c;
      r ← (if (y : bool) then render_list render_piece a (mkenv (e_id e) 0) cur vs
           else render_list render_piece b (mkenv (e_id e) 0) cur vs);
      Some (mkshown (r_text r) cur (r_vars r) (r_lost r))
  | PArray path b =>
      match array_at cur path with
      | None => Some (mkshown [] cur vs (blocks (print_template b)))
      | Some (q, l) =>
          r ← render_elements (render_list render_piece b) q (zlen l) l vs;
          Some (mkshown (r_text r) cur (r_vars r) (r_lost r))
      end
  | PVar k o l =>
      i ← operand_val e vs o;
      v ← calc e vs i l;
      vs' ← wr vs (Z.of_nat k) v;
      Some (mkshown [] cur vs' 0)
  | PPath path => Some (mkshown [] (if e_id e =? 0 then look cur path else cur) vs 0)
  end.

(** What a template shows. *)
Definition render (l : list piece) : renderer := render_list render_piece l.
End Render.
End PatchTemplate.
