(* ===== verification/PatchRender.v ===== *)
(** * tools/alpha/xmldb/patch.c: the engine shows what a template says.

    Piece by piece: searches, calculations, maps, conditions, arrays and the loop of [do_patch] on the text
    of a template, up to the theorem [patch_renders]. *)
From Stdlib Require Import ZArith Lia Bool String.
From stdpp Require Import base tactics list option numbers.
From S2P Require Import Prelude Xmldb XmldbFile Patch PatchRun PatchShow PatchTemplate.

Module PatchRender.
Import Xmldb XmldbFile Patch PatchRun PatchShow PatchTemplate.

#[local] Opaque room_for.

(** ** Searches *)

Section Search.
Context (t : xml_node).

(** A pointer to a node of the tree, or NULL. *)
Definition cur_ok (cur : option pos) : Prop := match cur with Some p => is_Some (node_at t p) | None => True end.

Lemma cur_valid cur : cur_ok cur -> valid (as_db t) (Some (default [] cur)).
Proof using Type. destruct cur; [done|]. intros _. by eexists. Qed.

Lemma find_look d cur path : cur_ok cur -> g_xml_root d = t -> xmldb_find_node d cur path false = Some (look t cur path, d).
Proof using Type.
  intros Hc Hd. destruct (find_node_from (as_db t) cur path (cur_valid _ Hc)) as (r & E & _ & Hall).
  unfold look. rewrite E. by apply Hall.
Qed.

Lemma look_ok cur path : cur_ok cur -> cur_ok (look t cur path).
Proof using Type.
  intros Hc. destruct (find_node_from (as_db t) cur path (cur_valid _ Hc)) as (r & E & Hv & _). unfold look. rewrite E. exact Hv.
Qed.

Lemma get_value_at d cur path : cur_ok cur -> g_xml_root d = t -> xmldb_get_value d cur path = Some (value_at t cur path).
Proof using Type.
  intros Hc Hd. unfold xmldb_get_value, value_at. rewrite (find_look d) by done. cbn [mbind option_bind].
  pose proof (look_ok cur path Hc) as Hl. destruct (look t cur path) as [p|]; [|done]. destruct Hl as [n Hn].
  rewrite Hd, Hn. done.
Qed.

Lemma shows_get_value vs pi path : cur_ok (current pi) -> shows t vs (get_value pi path) (value_at t (current pi) path) [] vs 0.
Proof using Type.
  intros Hc. unfold get_value. apply shows_get. intros w Hw _. apply shows_lift. by apply get_value_at.
Qed.

Lemma shows_children vs p n : node_at t p = Some n -> shows t vs (children p) (child n) [] vs 0.
Proof using Type.
  intros Hn. unfold children. apply shows_get. intros w Hw _. eapply shows_first; [apply shows_lift; by rewrite Hw|]. apply shows_ret.
Qed.

(** ** Numbers of elements *)

Lemma elements_more l entry : forall fuel i, counted (S fuel) l entry i -> elements (S fuel) l entry i = elements fuel l entry i.
Proof using Type.
  induction fuel as [|fuel IH]; intros i Hc; cbn [elements].
  - destruct (index_of _ l) eqn:E; [|done]. exfalso. eapply counted_none, counted_some; [exact Hc|]. by rewrite E.
  - destruct (index_of _ l) eqn:E; [|done]. f_equal. apply IH. apply counted_some; [done|]. by rewrite E.
Qed.

Lemma shows_count_loop vs l entry : forall fuel i, counted fuel l entry i ->
  shows t vs (count_loop fuel l entry i) (i + zlen (elements fuel l entry i)) [] vs 0.
Proof using Type.
  induction fuel as [|fuel IH]; intros i Hc; [by apply counted_none in Hc|]. cbn [count_loop elements].
  apply shows_get. intros w _ _. rewrite find_sibling_index. eapply shows_first; [by apply shows_lift|].
  destruct (index_of _ l) as [k|] eqn:E.
  - specialize (IH (i + 1)). cbn [length]. replace (i + Z.of_nat (S (length (elements fuel l entry (i + 1))))) with (i + 1 + zlen (elements fuel l entry (i + 1))) by lia.
    apply IH. apply counted_some; [done|]. by rewrite E.
  - cbn [length]. rewrite Z.add_0_r. apply shows_ret.
Qed.

Lemma shows_count vs l entry : shows t vs (count_entries l entry) (zlen (elements (length l) l entry 1)) [] vs 0.
Proof using Type.
  unfold count_entries. rewrite <- elements_more by apply counted_start.
  eapply shows_first; [apply shows_count_loop, counted_start|].
  replace (1 + _ - 1) with (zlen (elements (S (length l)) l entry 1)) by lia. apply shows_ret.
Qed.

(** The parent of an array, with the name of its elements. *)
Definition array_parent (cur : option pos) (path : list Z) : option pos * list Z :=
  match strrchr_slash path with Some (a, b) => (look t cur a, b) | None => (cur, path) end.

Lemma array_at_parent cur path :
  array_at t cur path = let '(p, entry) := array_parent cur path in
    p ← p; n ← node_at t p; Some (p, elements (length (child n)) (child n) entry 1).
Proof using Type. done. Qed.

Lemma array_parent_ok cur path : cur_ok cur -> cur_ok (fst (array_parent cur path)).
Proof using Type. intros Hc. unfold array_parent. destruct (strrchr_slash path) as [[a b]|]; [by apply look_ok|done]. Qed.

Lemma shows_parent vs pi path : cur_ok (current pi) -> shows t vs (parent_of pi path) (array_parent (current pi) path) [] vs 0.
Proof using Type.
  intros Hc. unfold parent_of, array_parent. apply shows_get. intros w Hw _. destruct (strrchr_slash path) as [[a b]|]; [|apply shows_ret].
  eapply shows_first; [apply shows_lift; by apply find_look|]. apply shows_ret.
Qed.

Lemma shows_array_count vs pi path : cur_ok (current pi) ->
  shows t vs (do_array_count pi path) (count_at t (current pi) path) [] vs 0.
Proof using Type.
  intros Hc. unfold do_array_count. eapply shows_first; [apply shows_strdup|]. eapply shows_first; [by apply shows_parent|].
  unfold count_at. rewrite array_at_parent. pose proof (array_parent_ok (current pi) path Hc) as Hp.
  destruct (array_parent (current pi) path) as [[p|] entry]; cbn [fst] in Hp.
  - destruct Hp as [n Hn]. cbn [mbind option_bind]. rewrite Hn. cbn [mbind option_bind].
    eapply shows_first; [by apply shows_children|]. eapply shows_first; [apply shows_count|].
    eapply shows_first; [apply shows_free|]. apply shows_ret.
  - eapply shows_first; [apply shows_free|]. apply shows_ret.
Qed.

(** ** Calculations *)

Lemma shows_var_at vs k v : (k < 10)%nat -> vs !! k = Some v -> shows t vs (var_at (48 + Z.of_nat k)) v [] vs 0.
Proof using Type.
  intros Hk Hv. unfold var_at. apply shows_get. intros w _ ->. apply shows_lift. apply rd_Some. unfold var_index, schar.
  rewrite (proj2 (Z.ltb_lt _ _)) by lia. replace (48 + Z.of_nat k - 48) with (Z.of_nat k) by lia.
  rewrite Z.rem_small by lia. split; [lia|]. by rewrite Nat2Z.id.
Qed.

Lemma digits_ge s : forall acc, 0 <= acc -> acc <= digits acc s.
Proof using Type.
  induction s as [|c s IH]; intros acc Ha; cbn [digits]; [lia|]. destruct (isdigit c) eqn:E; [|lia]. unfold isdigit in E. bprop.
  specialize (IH (10 * acc + (c - 48)) ltac:(lia)). lia.
Qed.

Lemma num_loop_digits a r : forall acc,
  Forall (fun c => isdigit c = true) a -> isdigit (deref r) = false -> 0 <= acc -> digits acc a <= INT_MAX ->
  num_loop acc (a ++ r) = Some (digits acc a, r).
Proof using Type.
  induction a as [|c a IH]; intros acc Ha Hr H0 Hm; cbn [app num_loop digits] in *.
  - destruct r as [|d r]; cbn in *; [done|]. by rewrite Hr.
  - apply Forall_cons_iff in Ha as [Hc Ha]. rewrite Hc in *. pose proof (digits_ge a (10 * acc + (c - 48))) as Hge.
    unfold isdigit in Hc. bprop. rewrite int_of_ok by (unfold INT_MAX in *; lia). cbn [mbind option_bind].
    replace (acc * 10 + (c - 48)) with (10 * acc + (c - 48)) by lia. apply IH; [done|done|lia|done].
Qed.

Lemma digits_of_dec n : 0 <= n <= INT_MAX -> digits 0 (dec n) = n.
Proof using Type. intros Hn. apply digits_dec_rev. unfold INT_MAX in Hn. cbn. lia. Qed.

Lemma shows_readnum vs o id max r v : operand_ok o = true -> isdigit (deref r) = false ->
  operand_val (mkenv id max) vs o = Some v ->
  shows t vs (readnum (print_operand o ++ r) id max) (v, r) [] vs 0.
Proof using Type.
  intros Ho Hr Hv. unfold readnum. destruct o as [n| | |k]; cbn [print_operand operand_val operand_ok e_id e_max] in *.
  - injection Hv as <-. bprop. pose proof (dec_digits n ltac:(lia)) as Hd. pose proof (digits_of_dec n ltac:(lia)) as Hn.
    pose proof (num_loop_digits (dec n) r 0 Hd Hr ltac:(lia) ltac:(lia)) as Hl. rewrite Hn in Hl.
    destruct (dec_nonempty n) as (c & tl & E). rewrite E in *. apply Forall_cons_iff in Hd as [Hc _]. unfold isdigit in Hc. bprop.
    cbn [app deref hd] in *. rewrite (proj2 (Z.eqb_neq c 35)), (proj2 (Z.eqb_neq c 64)) by lia.
    cbn [has_prefix str_var]. rewrite (proj2 (Z.eqb_neq 118 c)) by lia. cbn [andb]. by apply shows_lift.
  - injection Hv as <-. apply shows_ret.
  - injection Hv as <-. apply shows_ret.
  - apply Nat.ltb_lt in Ho. unfold print_var. cbn [str_var app deref hd drop].
    change (118 =? 35) with false. change (118 =? 64) with false. cbn iota. change (has_prefix [118; 97; 114] (118 :: 97 :: 114 :: 48 + Z.of_nat k :: r)) with true. cbn iota.
    eapply shows_first; [by apply shows_var_at|]. apply shows_ret.
Qed.
End Search.

Section Calculations.
Context (t : xml_node).

Lemma patch_operand_head o : operand_ok o = true -> exists d tl, print_operand o = d :: tl /\ d <> 61 /\ IS_WHITE d = false.
Proof using Type.
  intros Ho. destruct o as [n| | |k]; cbn [print_operand operand_ok] in *; [|by eexists _, _..].
  bprop. pose proof (dec_digits n ltac:(lia)) as Hd. destruct (dec_nonempty n) as (c & tl & E). rewrite E in *.
  apply Forall_cons_iff in Hd as [Hc _]. unfold isdigit in Hc. bprop. eexists _, _. split; [done|]. unfold IS_WHITE. split; [lia|].
  repeat (apply orb_false_iff; split); apply Z.eqb_neq; lia.
Qed.

Lemma operand_no_white o r : operand_ok o = true -> xmldb_eatwhite (print_operand o ++ r) = print_operand o ++ r.
Proof using Type. intros Ho. destruct (patch_operand_head o Ho) as (d & tl & -> & _ & Hw). unfold xmldb_eatwhite. cbn [app eat]. by rewrite Hw. Qed.

Lemma calc_no_digit l : isdigit (deref (print_calc l)) = false.
Proof using Type. destruct l as [|[[] o] l]; done. Qed.

Lemma calc_apart l : forall c o, print_calc ((c, o) :: l) = print_cop c ++ print_operand o ++ print_calc l.
Proof using Type. intros. unfold print_calc. cbn [flat_map fst snd]. by rewrite <- app_assoc. Qed.

Lemma calc_shorter c o l : (length (print_calc l) < length (print_calc ((c, o) :: l)))%nat.
Proof using Type. rewrite calc_apart, !length_app. destruct c; cbn [print_cop length]; lia. Qed.

Lemma shows_with_num vs o r id max (f : Z -> option Z) i v :
  operand_ok o = true -> isdigit (deref r) = false -> operand_val (mkenv id max) vs o = Some i -> f i = Some v ->
  shows t vs (r ← readnum (xmldb_eatwhite (print_operand o ++ r)) id max; let '(i, s') := r in v ← lift (f i); mret (v, s') : M (Z * list Z))
    (v, r) [] vs 0.
Proof using Type.
  intros Ho Hr Hi Hf. rewrite operand_no_white by done. eapply shows_first; [by apply shows_readnum|].
  eapply shows_first; [by apply shows_lift|]. apply shows_ret.
Qed.

Lemma shows_calc_step vs c o r id max v i v' :
  operand_ok o = true -> isdigit (deref r) = false -> operand_val (mkenv id max) vs o = Some i -> apply_cop c v i = Some v' ->
  shows t vs (calc_step v (print_cop c ++ print_operand o ++ r) id max) (v', r) [] vs 0.
Proof using Type.
  intros Ho Hr Hi Ha. pose proof (patch_operand_head o Ho) as (d & tl & Ed & Hd & _).
  assert (forall x, has_prefix [x; 61] (x :: print_operand o ++ r) = false) as Hno.
  { intros x. rewrite Ed. cbn [app has_prefix]. rewrite (proj2 (Z.eqb_neq 61 d)) by congruence. by rewrite andb_false_r. }
  unfold calc_step. assert (xmldb_eatwhite (print_cop c ++ print_operand o ++ r) = print_cop c ++ print_operand o ++ r) as -> by (by destruct c).
  destruct c; cbn [print_cop app]; rewrite ?(Hno 62), ?(Hno 60); eapply shows_with_num; eassumption.
Qed.

Lemma shows_turns vs step l id max : forall fuel v v',
  (forall c o l' v i v', (c, o) ∈ l -> operand_val (mkenv id max) vs o = Some i -> apply_cop c v i = Some v' ->
     shows t vs (step v (print_calc ((c, o) :: l'))) (v', print_calc l') [] vs 0) ->
  (length (print_calc l) <= fuel)%nat -> calc (mkenv id max) vs v l = Some v' ->
  shows t vs (turns step fuel v (print_calc l)) v' [] vs 0.
Proof using Type.
  induction l as [|[c o] l IH]; intros fuel v v' Hstep Hl Hc.
  - cbn in Hc. injection Hc as <-. destruct fuel; apply shows_ret.
  - cbn [calc] in Hc. inv_opt. pose proof (calc_shorter c o l) as Hlt. destruct fuel as [|fuel]; [lia|].
    assert (turns step (S fuel) v (print_calc ((c, o) :: l)) =
              r ← step v (print_calc ((c, o) :: l)); let '(v', s') := r in
              if (length s' =? length (print_calc ((c, o) :: l)))%nat then hang else turns step fuel v' s') as ->
      by (cbn [turns]; destruct (print_calc ((c, o) :: l)); [cbn in Hlt; lia|done]).
    eapply shows_first; [eapply Hstep; [by left|eassumption|eassumption]|].
    cbn beta iota. rewrite (proj2 (Nat.eqb_neq _ _)) by lia. eapply IH; [|lia|done].
    intros c' o' l' u i u' Hin. apply Hstep. by right.
Qed.

Lemma shows_calculate vs l id max v v' : calc_ok l = true -> calc (mkenv id max) vs v l = Some v' ->
  shows t vs (do_calculate v (print_calc l) id max) v' [] vs 0.
Proof using Type.
  intros Hl Hc. unfold do_calculate. eapply shows_turns; [|done|exact Hc]. intros c o l' u i u' Hin Hi Ha.
  rewrite calc_apart. eapply shows_calc_step; [|apply calc_no_digit|eassumption|done].
  unfold calc_ok in Hl. rewrite forallb_forall in Hl. apply (Hl (c, o)). by apply list_elem_of_In.
Qed.

Lemma shows_var_step vs c o r id max v i v' :
  plain_cop c = true -> operand_ok o = true -> isdigit (deref r) = false -> operand_val (mkenv id max) vs o = Some i -> apply_cop c v i = Some v' ->
  shows t vs (var_step v (print_cop c ++ print_operand o ++ r) id max) (v', r) [] vs 0.
Proof using Type.
  intros Hc Ho Hr Hi Ha. unfold var_step. destruct c; try done; cbn [print_cop app tail deref hd Z.eqb Pos.eqb]; cbn iota; eapply shows_with_num; eassumption.
Qed.

Lemma shows_var_turns vs l id max v v' : calc_ok l = true -> forallb (fun p => plain_cop (fst p)) l = true ->
  calc (mkenv id max) vs v l = Some v' ->
  shows t vs (turns (fun v s => var_step v s id max) (length (print_calc l)) v (print_calc l)) v' [] vs 0.
Proof using Type.
  intros Hl Hp Hc. eapply shows_turns; [|done|exact Hc]. intros c o l' u i u' Hin Hi Ha. rewrite calc_apart.
  apply list_elem_of_In in Hin. unfold calc_ok in Hl. rewrite forallb_forall in Hl, Hp.
  eapply shows_var_step; [apply (Hp (c, o) Hin)|apply (Hl (c, o) Hin)|apply calc_no_digit|eassumption|done].
Qed.
End Calculations.


(** ** Values *)

Lemma last_deref l : l <> [] -> list.last l = Some (deref (rev l)).
Proof.
  destruct l as [|x l _] using rev_ind; [done|]. intros _. rewrite last_snoc, rev_app_distr. done.
Qed.

Lemma strcmp_one path c : (strcmp path [c] =? 0) = bool_decide (path = [c]).
Proof.
  destruct (bool_decide_reflect (path = [c])) as [->|Hn].
  - apply Z.eqb_eq. by apply strcmp_eq.
  - apply Z.eqb_neq. intros H. by apply strcmp_eq in H.
Qed.

Lemma no_hash_ne path : no_hash path = true -> path <> [35].
Proof. intros H ->. done. Qed.

Lemma print_var_chars k : (k < 10)%nat -> forallb path_char (print_var k) = true.
Proof.
  intros Hk. unfold print_var. cbn [str_var app forallb]. unfold path_char, IS_WHITE.
  repeat (apply andb_true_iff; split); try done; apply negb_true_iff; try (apply Z.eqb_neq; lia).
  repeat (apply orb_false_iff; split); apply Z.eqb_neq; lia.
Qed.

Lemma digits_chars s : Forall (fun c => isdigit c = true) s -> forallb path_char s = true.
Proof.
  intros H. apply forallb_forall. intros c Hc. rewrite List.Forall_forall in H. specialize (H c Hc). unfold isdigit in H. bprop.
  unfold path_char, IS_WHITE. apply andb_true_iff; split; apply negb_true_iff; [repeat (apply orb_false_iff; split)|]; apply Z.eqb_neq; lia.
Qed.

Lemma calc_chars l : calc_ok l = true -> forallb path_char (print_calc l) = true.
Proof.
  induction l as [|[c o] l IH]; cbn [calc_ok forallb snd]; [done|]. intros H. bprop. rewrite calc_apart, !forallb_app.
  assert (forallb path_char (print_cop c) = true) as -> by (by destruct c). rewrite IH by done. rewrite andb_true_r. cbn [andb].
  destruct o as [n| | |k]; cbn [print_operand operand_ok] in *; [|done|done|by apply print_var_chars, Nat.ltb_lt].
  bprop. apply digits_chars, dec_digits. lia.
Qed.

Lemma start_chars s : start_ok s = true -> forallb path_char (print_start s) = true.
Proof.
  destruct s as [nm| |k]; cbn [start_ok print_start]; [|done|by intros H%Nat.ltb_lt; apply print_var_chars].
  intros H. bprop. rewrite forallb_forall in *. intros c Hc. specialize (H c Hc). by bprop.
Qed.

Lemma vexp_chars e : vexp_ok e = true -> forallb path_char (print_vexp e) = true /\ print_vexp e <> [].
Proof.
  destruct e as [path| |path|k|s l]; cbn [vexp_ok print_vexp]; unfold plain_path.
  - intros H. bprop. split; [done|]. by intros ->.
  - done.
  - intros H. bprop. split; [by rewrite forallb_app, H|by destruct path].
  - intros H%Nat.ltb_lt. split; [by apply print_var_chars|done].
  - intros H. bprop. split; [|done]. cbn [forallb]. rewrite forallb_app, start_chars, calc_chars by done. done.
Qed.

Lemma split_comma_app p r : forallb path_char p = true -> split_comma (p ++ r) = match r with [] => (p, None) | _ => let '(w, x) := split_comma r in (p ++ w, x) end.
Proof.
  induction p as [|c p IH]; cbn [forallb app split_comma]; intros H.
  - destruct r as [|z r]; [done|]. by destruct (split_comma (z :: r)).
  - unfold path_char in H at 1. bprop. rewrite (proj2 (Z.eqb_neq c 44)) by done. rewrite IH by done. destruct r as [|z r]; [done|].
    by destruct (split_comma (z :: r)).
Qed.

Lemma path_no_white p : forallb path_char p = true -> p <> [] -> trimmed p = true.
Proof.
  intros H Hn. rewrite forallb_forall in H. assert (forall c, In c p -> IS_WHITE c = false) as Hw.
  { intros c Hc. specialize (H c Hc). unfold path_char in H. by bprop. }
  unfold trimmed. destruct p as [|x p] using rev_ind; [done|]. clear IHp. rewrite rev_app_distr. cbn [rev app deref hd].
  rewrite (Hw x) by (apply in_or_app; right; by left). destruct p as [|y p]; cbn [app deref hd]; rewrite Hw; try done; [apply in_or_app; right; by left|by left].
Qed.

Lemma reatwhite_id s : IS_WHITE (deref (rev s)) = false -> xmldb_reatwhite s = s.
Proof. intros H. unfold xmldb_reatwhite. by rewrite eat_deref, rev_involutive. Qed.

(** The text before the first operator. *)
Lemma node_loop_calc nm l : forallb (fun c => find_pattern c calc_ops =? 0) nm = true -> node_loop (nm ++ print_calc l) = (nm, print_calc l).
Proof.
  intros H. induction nm as [|c nm IH]; cbn [forallb app node_loop] in *.
  - destruct l as [|[[] o] l]; done.
  - bprop. rewrite H. cbn [negb Z.eqb]. by rewrite IH.
Qed.

Lemma digit_no_op c : 48 <= c <= 57 -> find_pattern c calc_ops = 0.
Proof. intros H. cbn [find_pattern calc_ops]. repeat match goal with |- context [c =? ?x] => rewrite (proj2 (Z.eqb_neq c x)) by lia end. done. Qed.

Lemma start_no_op s : start_ok s = true -> forallb (fun c => find_pattern c calc_ops =? 0) (print_start s) = true /\ (length (print_start s) < 80)%nat /\ print_start s <> [].
Proof.
  destruct s as [nm| |k]; cbn [start_ok print_start].
  - intros H. bprop. split_and!; [|by apply Nat.ltb_lt|by intros ->]. rewrite forallb_forall in *. intros c Hc. specialize (H c Hc). apply andb_true_iff in H. by destruct H.
  - intros _. split_and!; [done|cbn; lia|done].
  - intros H%Nat.ltb_lt. split_and!; [|cbn; lia|done]. unfold print_var. cbn [str_var app forallb]. rewrite (digit_no_op (48 + Z.of_nat k)) by lia. done.
Qed.

Section Values.
Context (t : xml_node).

Lemma shows_calculated vs pi s l id v n :
  cur_ok t (current pi) -> start_ok s = true -> calc_ok l = true ->
  start_val t (mkenv id (max pi)) (current pi) vs s = Some v -> calc (mkenv id (max pi)) vs v l = Some n ->
  shows t vs (calculated pi (print_start s ++ print_calc l) id) (print_int n) [] vs 0.
Proof using Type.
  intros Hc Hs Hl Hv Hn. destruct (start_no_op s Hs) as (Hop & Hlen & Hne). unfold calculated, get_node_from_cstring.
  rewrite node_loop_calc by done. rewrite (proj2 (Nat.ltb_lt _ _) Hlen). eapply shows_first; [apply shows_ret|]. cbn beta iota.
  destruct (print_start s) as [|c nm] eqn:E; [done|]. rewrite <- E. rewrite strcmp_one.
  eapply (shows_first t vs _ _ v 0).
  - destruct s as [nm'| |k]; cbn [print_start start_ok start_val] in *.
    + bprop. rewrite bool_decide_eq_false_2 by (by apply no_hash_ne). unfold no_var in *. bprop.
      match goal with H : has_prefix _ nm' = false |- _ => rewrite H end. injection Hv as <-.
      eapply shows_first; [by apply shows_get_value|]. apply shows_ret.
    + injection Hv as <-. rewrite bool_decide_eq_true_2 by done. apply shows_ret.
    + apply Nat.ltb_lt in Hs. rewrite bool_decide_eq_false_2 by done. change (has_prefix str_var (print_var k)) with true. cbn iota.
      by apply shows_var_at.
  - eapply shows_first; [by eapply shows_calculate|]. apply shows_ret.
Qed.

Lemma shows_mapped vs pi e id v :
  cur_ok t (current pi) -> vexp_ok e = true -> vexp_val t (mkenv id (max pi)) (current pi) vs e = Some v ->
  shows t vs (mapped_value pi false (print_vexp e) id) v [] vs 0.
Proof using Type.
  intros Hc He Hv. unfold mapped_value. rewrite strcmp_one. destruct (vexp_chars e He) as [_ Hne].
  destruct e as [path| |path|k|s l]; cbn [print_vexp vexp_ok vexp_val e_id] in *.
  - bprop. rewrite bool_decide_eq_false_2 by (by apply no_hash_ne). rewrite last_deref by done.
    eapply shows_first; [apply shows_ret|]. unfold no_hash, no_var, plain_path in *. bprop.
    rewrite (proj2 (Z.eqb_neq (deref (rev path)) 35)) by done.
    assert (deref path <> 37) as H37 by (intros E; unfold path_start in *; rewrite E in *; done).
    rewrite (proj2 (Z.eqb_neq _ _) H37). match goal with H : has_prefix _ path = false |- _ => rewrite H end. injection Hv as <-. by apply shows_get_value.
  - injection Hv as <-. rewrite bool_decide_eq_true_2 by done. apply shows_ret.
  - injection Hv as <-. assert (path <> []) as Hp by (intros ->; done).
    rewrite bool_decide_eq_false_2 by (destruct path as [|x [|y path]]; done). rewrite last_snoc.
    eapply shows_first; [apply shows_ret|]. change (35 =? 35) with true. cbn iota. rewrite removelast_last.
    eapply shows_first; [by apply shows_array_count|]. apply shows_ret.
  - apply Nat.ltb_lt in He. rewrite bool_decide_eq_false_2 by done. rewrite last_deref by done. eapply shows_first; [apply shows_ret|].
    unfold print_var. cbn [str_var app rev deref hd]. rewrite (proj2 (Z.eqb_neq (48 + Z.of_nat k) 35)) by lia.
    change (118 =? 37) with false. cbn iota. change (has_prefix [118; 97; 114] (118 :: 97 :: 114 :: [48 + Z.of_nat k])) with true. cbn iota.
    destruct (vs !! k) as [x|] eqn:Ek; [|done]. injection Hv as <-. cbn [drop hd].
    eapply shows_first; [by apply shows_var_at|]. apply shows_ret.
  - inv_opt. bprop. rewrite bool_decide_eq_false_2 by (by apply no_hash_ne). rewrite last_deref by done.
    eapply shows_first; [apply shows_ret|]. unfold no_hash in *. bprop.
    match goal with H : deref (rev _) <> 35 |- _ => rewrite (proj2 (Z.eqb_neq _ _) H) end.
    change (deref (37 :: print_start s ++ print_calc l) =? 37) with true. cbn [tail]. by eapply shows_calculated.
Qed.
End Values.


(** ** Maps *)

Lemma quoted_quote s r : forall acc, (length acc + length s <= 255)%nat -> quoted (flat_map quote_char s ++ 34 :: r) acc = (acc ++ s, 34 :: r).
Proof.
  induction s as [|c s IH]; intros acc Hl; cbn [flat_map app].
  - cbn [quoted]. change (34 =? 34) with true. cbn iota. by rewrite app_nil_r.
  - cbn [length] in Hl. rewrite <- app_assoc.
    assert ((length acc <? 255)%nat = true) as Hlt by (apply Nat.ltb_lt; lia).
    assert (forall c', quoted (flat_map quote_char s ++ 34 :: r) (acc ++ [c']) = (acc ++ c' :: s, 34 :: r)) as Hnext.
    { intros c'. rewrite IH by (rewrite length_app; cbn [length]; lia). by rewrite <- app_assoc. }
    assert (exists x y, flat_map quote_char s ++ 34 :: r = x :: y) as (x & y & Exy) by (destruct (flat_map quote_char s); by eexists _, _).
    unfold quote_char at 1. destruct ((c =? 34) || (c =? 92)) eqn:E; cbn [app].
    + cbn [quoted]. change (92 =? 34) with false. cbn iota. rewrite Hlt. change (92 =? 92) with true. cbn iota. by apply Hnext.
    + bprop. specialize (Hnext c). rewrite Exy in *. cbn [quoted]. rewrite (proj2 (Z.eqb_neq c 34)), (proj2 (Z.eqb_neq c 92)) by done.
      rewrite Hlt. by apply Hnext.
Qed.

Lemma read_quote s r e : short s = true -> read_string (quote s ++ r) e = (s, r).
Proof.
  unfold short. intros Hs%Nat.ltb_lt. unfold quote. cbn [app read_string]. rewrite <- app_assoc. cbn [app]. rewrite quoted_quote by (cbn; lia). done.
Qed.

Lemma quote_head s r : xmldb_eatwhite (quote s ++ r) = quote s ++ r.
Proof. done. Qed.

(** A case in the table. *)
Definition entered (m : map_sect) (p : list Z * list Z) : map_sect :=
  if eqb_list (fst p) [42] then mkmaps (Some (snd p)) (pairs m) else mkmaps (default_output m) (pairs m ++ [(Some (fst p), Some (snd p))]).

Lemma pair_blocks_app (l : list (option (list Z) * option (list Z))) x :
  foldr (fun p n => owned (fst p) + owned (snd p) + n) 0 (l ++ [x]) = foldr (fun p n => owned (fst p) + owned (snd p) + n) 0 l + (owned (fst x) + owned (snd x)).
Proof. induction l as [|y l IH]; cbn [app foldr]; [lia|]. rewrite IH. lia. Qed.

Lemma strcmp_eqb a b : (strcmp a b =? 0) = eqb_list a b.
Proof.
  destruct (eqb_list a b) eqn:E.
  - apply eqb_list_spec in E as ->. apply Z.eqb_eq. by apply strcmp_eq.
  - apply Z.eqb_neq. intros H. apply strcmp_eq in H as ->. assert (eqb_list b b = true) by (by apply eqb_list_spec). congruence.
Qed.

Section Maps.
Context (t : xml_node) (vs : list Z).

Lemma shows_add_map m p o : (num m < MAX_MAP_SECTION)%nat ->
  shows t vs (add_map m (Some p) (Some o)) (entered m (p, o)) [] vs (map_blocks (entered m (p, o)) - map_blocks m).
Proof using Type.
  intros Hn. unfold add_map, entered. rewrite (proj2 (Nat.ltb_lt _ _) Hn). cbn [fst snd].
  eapply shows_first; [by apply shows_lift|]. rewrite strcmp_eqb. destruct (eqb_list p [42]).
  - eapply shows_first; [apply shows_free|]. eapply shows_first; [by apply shows_lift|]. eapply shows_first; [apply shows_strdup|].
    unfold map_blocks. cbn [pairs default_output owned]. replace (_ - _) with 0 by lia. apply shows_ret.
  - eapply shows_first; [apply shows_strdup|]. eapply shows_first; [by apply shows_lift|]. eapply shows_first; [apply shows_strdup|].
    unfold map_blocks. cbn [pairs default_output]. rewrite pair_blocks_app. cbn [fst snd owned]. replace (_ - _) with 0 by lia. apply shows_ret.
Qed.

Definition case_ok (p : list Z * list Z) : Prop := short (fst p) = true /\ short (snd p) = true.

Lemma shows_one_case fuel m p r : case_ok p -> (num m < MAX_MAP_SECTION)%nat -> forall x n,
  shows t vs (extract_loop fuel (entered m p) r SectionStart None) x [] vs n ->
  shows t vs (extract_loop (S (S (S fuel))) m (print_case p ++ match r with [] => [] | _ => 44 :: r end) SectionStart None) x [] vs
    (n + (map_blocks (entered m p) - map_blocks m)).
Proof using Type.
  intros [Hp Ho] Hn x n Hx. destruct p as [a b]. unfold print_case. cbn [fst snd] in *.
  set (tl := match r with [] => [] | _ => 44 :: r end).
  assert ((quote a ++ [58] ++ quote b) ++ tl = quote a ++ 58 :: quote b ++ tl) as -> by (by rewrite <- !app_assoc).
  set (msg := quote a ++ 58 :: quote b ++ tl).
  assert (extract_loop (S (S (S fuel))) m msg SectionStart None = extract_loop (S (S fuel)) m msg PatternState None) as -> by reflexivity.
  assert (extract_loop (S (S fuel)) m msg PatternState None =
    let '(s, q) := read_string (xmldb_eatwhite msg) 58 in
    pattern ← m_strdup s;
    match xmldb_eatwhite q return M (Z * map_sect) with
    | 58 :: q => extract_loop (S fuel) m q OutputState pattern
    | _ => _ ← m_free (owned pattern); mret (-1, m)
    end) as -> by reflexivity.
  unfold msg. rewrite quote_head, read_quote by done. eapply shows_first; [apply shows_strdup|].
  change (xmldb_eatwhite (58 :: quote b ++ tl)) with (58 :: quote b ++ tl). cbn iota.
  assert (extract_loop (S fuel) m (quote b ++ tl) OutputState (Some a) =
    let '(s, q) := read_string (xmldb_eatwhite (quote b ++ tl)) 44 in
    output ← m_strdup s;
    match xmldb_eatwhite q return M (Z * map_sect) with
    | [] => maps ← add_map m (Some a) output; _ ← m_free (owned (Some a) + owned output); extract_loop fuel maps [] SectionStart None
    | 44 :: q => maps ← add_map m (Some a) output; _ ← m_free (owned (Some a) + owned output); extract_loop fuel maps q SectionStart None
    | _ => _ ← m_free (owned (Some a) + owned output); mret (-1, m)
    end) as -> by reflexivity.
  rewrite quote_head, read_quote by done. eapply shows_first; [apply shows_strdup|].
  assert (shows t vs (maps ← add_map m (Some a) (Some b); _ ← m_free (owned (Some a) + owned (Some b)); extract_loop fuel maps r SectionStart None) x [] vs
            (n + (map_blocks (entered m (a, b)) - map_blocks m) - 1 - 1)) as Hgo.
  { eapply shows_first; [by apply shows_add_map|]. eapply shows_first; [apply shows_free|]. cbn [owned].
    replace (_ - _) with n by lia. exact Hx. }
  destruct r as [|c r]; unfold tl; exact Hgo.
Qed.

Lemma print_cases_cons p l : print_cases (p :: l) = print_case p ++ match print_cases l with [] => [] | _ => 44 :: print_cases l end.
Proof using Type.
  destruct l as [|q l]; [cbn [print_cases]; by rewrite app_nil_r|].
  change (print_cases (p :: q :: l)) with (print_case p ++ [44] ++ print_cases (q :: l)).
  destruct (print_cases (q :: l)) eqn:E; [|done]. by destruct l.
Qed.

Lemma shows_extract l : forall fuel m,
  Forall case_ok l -> (forall k, (k < length l)%nat -> (num (foldl entered m (take k l)) < MAX_MAP_SECTION)%nat) -> (3 * length l <= fuel)%nat ->
  let m' := foldl entered m l in
  shows t vs (extract_loop fuel m (print_cases l) SectionStart None) (Z.of_nat (num m'), m') [] vs (map_blocks m' - map_blocks m).
Proof using Type.
  induction l as [|p l IH]; intros fuel m Hl Hn Hf m'.
  - cbn [print_cases foldl] in *. unfold m'. rewrite Z.sub_diag. destruct fuel; (eapply shows_first; [apply shows_free|]; apply shows_ret).
  - apply Forall_cons_iff in Hl as [Hp Hl]. cbn [length] in *. do 3 (destruct fuel as [|fuel]; [lia|]). rewrite print_cases_cons.
    replace (map_blocks m' - map_blocks m) with (map_blocks m' - map_blocks (entered m p) + (map_blocks (entered m p) - map_blocks m)) by lia.
    apply shows_one_case; [done|exact (Hn 0%nat ltac:(lia))|]. apply IH; [done| |lia].
    intros k Hk. exact (Hn (S k) ltac:(lia)).
Qed.

Lemma num_entered m p : (num (entered m p) <= S (num m))%nat.
Proof using Type. unfold entered, num. destruct (eqb_list _ _); cbn [pairs]; [lia|]. rewrite length_app. cbn. lia. Qed.

Lemma num_foldl l : forall m, (num (foldl entered m l) <= num m + length l)%nat.
Proof using Type.
  induction l as [|p l IH]; intros m; cbn [foldl length]; [lia|]. specialize (IH (entered m p)). pose proof (num_entered m p). lia.
Qed.

Lemma entered_cases l : forall m, forallb (fun p => negb (eqb_list (fst p) [42])) l = true ->
  foldl entered m l = mkmaps (default_output m) (pairs m ++ map (fun p => (Some (fst p), Some (snd p))) l).
Proof using Type.
  induction l as [|p l IH]; intros m H; cbn [foldl map forallb] in *; [destruct m; cbn; by rewrite app_nil_r|].
  bprop. rewrite IH by done. unfold entered. rewrite H. cbn [default_output pairs]. by rewrite <- app_assoc.
Qed.

Lemma entered_all m : vmap_ok m = true ->
  foldl entered (mkmaps None []) (all_cases m) = mkmaps (other m) (map (fun p => (Some (fst p), Some (snd p))) (cases m)).
Proof using Type.
  intros H. unfold vmap_ok in H. bprop. unfold all_cases. rewrite foldl_app, (entered_cases (cases m)).
  - destruct (other m) as [o|]; done.
  - rewrite forallb_forall in *. intros p Hp. specialize (H p Hp). apply andb_true_iff in H as [H _]. by apply andb_true_iff in H as [H _].
Qed.

Lemma find_map_spec v l :
  find_map v (map (fun p => (Some (fst p), Some (snd p))) l) =
  Some (match list_find (fun p => v = fst p) l with Some (_, p) => Some (Some (snd p)) | None => None end).
Proof using Type.
  induction l as [|p l IH]; cbn [map find_map list_find]; [done|]. cbn [mbind option_bind]. rewrite strcmp_eqb.
  destruct (decide (v = fst p)) as [->|Hn].
  - by rewrite (proj2 (eqb_list_spec _ _) eq_refl).
  - destruct (eqb_list v (fst p)) eqn:E; [by apply eqb_list_spec in E|]. rewrite IH.
    destruct (list_find _ l) as [[i q]|]; done.
Qed.

Lemma shows_map_output m v fl : vmap_ok m = true ->
  shows t vs (map_output v (print_cases (all_cases m)) fl) tt (shown fl (map_text (Some m) v)) vs 0.
Proof using Type.
  intros Hm. pose proof (entered_all m Hm) as Ef. pose proof Hm as Hm'. unfold vmap_ok in Hm. bprop. apply Nat.ltb_lt in H0, H2.
  unfold map_output, extract_maps.
  assert (length (all_cases m) <= length (print_cases (all_cases m)))%nat as Hlen.
  { generalize (all_cases m). clear. induction l as [|p l IH]; [done|]. rewrite print_cases_cons, length_app. unfold print_case, quote. cbn [length app].
    destruct (print_cases l) eqn:E; cbn [length] in *; [destruct l; [cbn; lia|]|lia]. rewrite print_cases_cons in E. done. }
  assert (Forall case_ok (all_cases m)) as Hok.
  { unfold all_cases. apply Forall_app. split.
    - apply List.Forall_forall. intros p Hp. rewrite forallb_forall in H. specialize (H p Hp). bprop. done.
    - destruct (other m) as [o|]; [|done]. constructor; [split; [done|]|done]. exact H1. }
  pose proof (shows_extract (all_cases m) (3 * length (print_cases (all_cases m)) + 3) (mkmaps None []) Hok) as Hx.
  cbv zeta in Hx. rewrite Ef in Hx. eapply shows_first; [apply Hx; [|lia]|].
  { intros k Hk. pose proof (num_foldl (take k (all_cases m)) (mkmaps None [])) as Hn. unfold num in *. cbn [pairs length] in Hn.
    rewrite length_take in Hn. unfold all_cases in *. rewrite length_app in *. unfold MAX_MAP_SECTION in *.
    destruct (other m); cbn [length] in *; lia. }
  set (mb := map_blocks _). change (map_blocks (mkmaps None [])) with 0. cbn [pairs default_output].
  eapply shows_first; [apply shows_lift, find_map_spec|].
  assert (shows t vs (clean_map (mkmaps (other m) (map (fun p => (Some (fst p), Some (snd p))) (cases m)))) tt [] vs (- mb)) as Hclean
    by (unfold clean_map; apply shows_free).
  unfold map_text. destruct (list_find _ (cases m)) as [[i p]|].
  - eapply (shows_seq t vs _ _ tt _ vs 0); [|exact Hclean|by rewrite app_nil_r|lia].
    eapply shows_first; [by apply shows_lift|]. apply shows_output.
  - eapply (shows_seq t vs _ _ tt _ vs 0); [|exact Hclean|by rewrite app_nil_r|lia]. apply shows_output.
Qed.
End Maps.


Lemma trimmed_deref s : trimmed s = true -> IS_WHITE (deref s) = false /\ IS_WHITE (deref (rev s)) = false.
Proof. unfold trimmed. intros H. by bprop. Qed.

Lemma tag_starts s : tag_ok s = true -> IS_WHITE (deref s) = false.
Proof. intros [_ H]%andb_true_iff. apply (trimmed_deref _ H). Qed.

Section Mapping.
Context (t : xml_node) (vs : list Z).

Lemma shows_mapping pi e m id v :
  cur_ok t (current pi) -> vexp_ok e = true -> from_option vmap_ok true m = true -> IS_WHITE (deref (print_value e m)) = false ->
  vexp_val t (mkenv id (max pi)) (current pi) vs e = Some v ->
  shows t vs (do_mapping pi (print_value e m) id) 0 (shown (flags pi) (map_text m v)) vs 0.
Proof using Type.
  intros Hc He Hm Ht Hv. unfold do_mapping. destruct (vexp_chars e He) as [Hch Hne].
  eapply shows_first; [apply shows_strdup|]. unfold xmldb_eatwhite. rewrite eat_deref by done. rewrite Nat.eqb_refl. cbn [negb].
  destruct (trimmed_deref _ (path_no_white _ Hch Hne)) as [_ Hw].
  unfold print_value. rewrite split_comma_app by done. destruct m as [m|].
  - cbn [split_comma]. change (44 =? 44) with true. cbn iota. rewrite app_nil_r, reatwhite_id by done.
    eapply shows_first; [by apply shows_mapped|]. cbn [from_option] in Hm.
    assert (exists c x, print_cases (all_cases m) = c :: x) as (c & x & Ec).
    { unfold vmap_ok in Hm. bprop. apply Nat.ltb_lt in H0. destruct (all_cases m) as [|p l]; [cbn in H0; lia|].
      rewrite print_cases_cons. unfold print_case, quote. by eexists _, _. }
    rewrite Ec, <- Ec. eapply (shows_seq t vs _ _ tt _ vs 0 _ [] vs (-1)); [by apply shows_map_output| |symmetry; apply app_nil_r|].
    + eapply shows_first; [apply shows_free|]. apply shows_ret.
    + lia.
  - rewrite reatwhite_id by done. eapply shows_first; [by apply shows_mapped|].
    eapply (shows_seq t vs _ _ tt _ vs 0 _ [] vs (-1)); [apply shows_output| |symmetry; apply app_nil_r|].
    + eapply shows_first; [apply shows_free|]. apply shows_ret.
    + lia.
Qed.

(** ** Conditions *)

Lemma unquoted_plain e p x r : forall acc,
  (forall c, In c p -> IS_WHITE c = false) -> e = 0 -> IS_WHITE x = true -> (length acc + length p <= 255)%nat ->
  unquoted e (p ++ x :: r) acc = (acc ++ p, x :: r).
Proof using Type.
  intros acc Hp -> Hx. revert acc. induction p as [|c p IH]; intros acc Hl; cbn [app unquoted].
  - by rewrite Hx, app_nil_r.
  - cbn [length] in Hl. rewrite Hp by (by left). change (0 =? 0) with true. cbn [negb andb]. rewrite (proj2 (Nat.ltb_lt _ _)) by lia.
    rewrite IH; [by rewrite <- app_assoc|by intros; apply Hp; right|rewrite length_app; cbn; lia].
Qed.

Lemma read_plain p r : p <> [] -> (forall c, In c p -> IS_WHITE c = false) -> deref p <> 34 -> (length p <= 255)%nat ->
  read_string (xmldb_eatwhite (p ++ 32 :: r)) 0 = (p, 32 :: r).
Proof using Type.
  intros Hn Hp Hd Hl. unfold xmldb_eatwhite. rewrite eat_deref by (destruct p; [done|]; cbn; apply Hp; by left).
  assert (read_string (p ++ 32 :: r) 0 = unquoted 0 (p ++ 32 :: r) []) as ->.
  { destruct p as [|c p]; [done|]. cbn [deref hd app] in *. unfold read_string. repeat (case_match; try done); subst; done. }
  by apply unquoted_plain.
Qed.

Definition print_more (l : list (bool * comparison)) : list Z :=
  flat_map (fun p => print_join (fst p) ++ [32] ++ print_comparison (snd p)) l.

Lemma entry_chars e : entry_ok e = true ->
  print_entry e <> [] /\ (forall c, In c (print_entry e) -> IS_WHITE c = false) /\ deref (print_entry e) <> 34 /\ deref (print_entry e) <> 37 /\
  (length (print_entry e) <= 255)%nat.
Proof using Type.
  assert (forall s, forallb path_char s = true -> forall c, In c s -> IS_WHITE c = false) as Hw.
  { intros s H c Hc. rewrite forallb_forall in H. specialize (H c Hc). unfold path_char in H. by bprop. }
  destruct e as [path|k]; cbn [entry_ok print_entry].
  - intros H. unfold plain_path, short, path_start in H. bprop. apply Nat.ltb_lt in H0.
    split_and!; [by intros ->|by apply Hw|congruence|congruence|lia].
  - intros H%Nat.ltb_lt. split_and!; [done|by apply Hw, print_var_chars|done|done|cbn; lia].
Qed.

Lemma shows_compare root c b : cur_ok t root -> comparison_ok c = true -> holds t root vs c = Some b ->
  shows t vs (compare_entry root (print_entry (c_entry c)) (if c_equal c then op_eq else op_ne) (c_text c)) (Some b, false) [] vs 0.
Proof using Type.
  intros Hr Hc Hb. unfold comparison_ok in Hc. bprop. rename H into He, H1 into Hnv.
  destruct (entry_chars _ He) as (_ & _ & _ & H37 & _). unfold compare_entry. rewrite (proj2 (Z.eqb_neq _ _) H37).
  unfold holds in Hb. inv_opt. eapply (shows_first t vs _ _ x 0).
  - unfold entry_string. destruct (c_entry c) as [path|k]; cbn [entry_text print_entry entry_ok] in *.
    + unfold no_var in *. bprop. match goal with H : has_prefix _ path = false |- _ => rewrite H end. inv_opt.
      apply shows_get. intros w Hw _. apply shows_lift. by apply get_value_at.
    + apply Nat.ltb_lt in He. change (has_prefix str_var (print_var k)) with true. cbn iota. destruct (vs !! k) eqn:Ek; [|done]. injection H as <-.
      eapply shows_first; [by apply shows_var_at|]. apply shows_ret.
  - unfold operand_string, no_var in *. bprop. rewrite Hnv. eapply shows_first; [apply shows_ret|].
    unfold compare_texts. rewrite strcmp_eqb. destruct (c_equal c); cbn [eqb];
      [change (eqb_list op_eq op_eq) with true|change (eqb_list op_ne op_eq) with false; change (eqb_list op_ne op_ne) with true]; cbn iota.
    + destruct (eqb_list x (c_text c)); apply shows_ret.
    + destruct (eqb_list x (c_text c)); apply shows_ret.
Qed.

Lemma more_head l : xmldb_eatwhite (print_more l) = print_more l.
Proof using Type. destruct l as [|[[|] c] l]; done. Qed.

(** One comparison of a condition, and then what follows it. *)
Lemma shows_comparison root c more ptr fuel res b x n :
  cur_ok t root -> comparison_ok c = true -> xmldb_eatwhite ptr = print_comparison c ++ more -> xmldb_eatwhite more = more ->
  holds t root vs c = Some b ->
  shows t vs (if has_prefix [38; 38] more then if b then cond_loop fuel root (drop 2 more) 1 else mret 0
              else if has_prefix [124; 124] more then if b then mret 1 else cond_loop fuel root (drop 2 more) 0
              else mret (bool_int b)) x [] vs n ->
  shows t vs (cond_loop (S fuel) root ptr res) x [] vs n.
Proof using Type.
  intros Hr Hc Hp Hm Hb Hx. pose proof Hc as Hc'. unfold comparison_ok in Hc'. apply andb_true_iff in Hc' as [Hc' Hs].
  apply andb_true_iff in Hc' as [He _]. destruct (entry_chars _ He) as (E1 & E2 & E3 & _ & E5).
  unfold print_comparison in Hp. set (op := if c_equal c then op_eq else op_ne) in *.
  replace ((print_entry (c_entry c) ++ [32] ++ op ++ [32] ++ quote (c_text c)) ++ more)
    with (print_entry (c_entry c) ++ 32 :: op ++ 32 :: quote (c_text c) ++ more) in Hp by (by rewrite <- !app_assoc).
  pose proof (read_plain (print_entry (c_entry c)) (op ++ 32 :: quote (c_text c) ++ more) E1 E2 E3 E5) as Er1.
  assert (read_string (xmldb_eatwhite (32 :: op ++ 32 :: quote (c_text c) ++ more)) 0 = (op, 32 :: quote (c_text c) ++ more)) as Er2
    by (unfold op; by destruct (c_equal c)).
  assert (exists c0 op0, op = c0 :: op0) as (c0 & op0 & Eop) by (unfold op; destruct (c_equal c); by eexists _, _).
  pose proof (shows_compare root c b Hr Hc Hb) as Hcmp. fold op in Hcmp.
  destruct ptr as [|p0 ptr0]; [cbn in Hp; destruct (print_entry (c_entry c)); [done|discriminate Hp]|].
  cbn [cond_loop]. rewrite Hp. unfold xmldb_eatwhite in Er1. rewrite eat_deref in Er1
    by (destruct (print_entry (c_entry c)); [done|]; cbn; apply E2; by left).
  rewrite Er1. eapply shows_first; [apply shows_strdup|]. destruct (print_entry (c_entry c)) as [|e0 e] eqn:Ee; [done|].
  rewrite Er2. eapply shows_first; [apply shows_strdup|]. rewrite Eop, <- Eop.
  change (xmldb_eatwhite (32 :: quote (c_text c) ++ more)) with (quote (c_text c) ++ more). rewrite read_quote by done.
  eapply shows_first; [apply shows_strdup|]. rewrite Hm. eapply shows_first; [by apply shows_lift|].
  eapply shows_first; [exact Hcmp|]. cbn beta iota. eapply shows_first; [apply shows_free|].
  replace (n - 1 - 1 - 1 - 0 - 0 - - (3)) with n by lia. exact Hx.
Qed.

Lemma shows_cond root l : forall c ptr fuel res b0 b,
  cur_ok t root -> comparison_ok c = true -> forallb (fun p => comparison_ok (snd p)) l = true ->
  xmldb_eatwhite ptr = print_comparison c ++ print_more l -> (length l < fuel)%nat ->
  holds t root vs c = Some b0 -> holds_more t root vs b0 l = Some b ->
  shows t vs (cond_loop fuel root ptr res) (bool_int b) [] vs 0.
Proof using Type.
  induction l as [|[join c'] l IH]; intros c ptr fuel res b0 b Hr Hc Hl Hp Hf Hb0 Hb; (destruct fuel as [|fuel]; [cbn in Hf; lia|]);
    (eapply shows_comparison; [done|done|exact Hp|apply more_head|exact Hb0|]).
  - cbn in Hb. injection Hb as ->. apply shows_ret.
  - cbn [holds_more forallb snd length] in *. apply andb_true_iff in Hl as [Hc1 Hl].
    assert (forall res, eqb join b0 = true -> shows t vs (cond_loop fuel root (drop 2 (print_more ((join, c') :: l))) res) (bool_int b) [] vs 0) as Hnext.
    { intros r1 Ej. rewrite Ej in Hb. inv_opt.
      assert (xmldb_eatwhite (drop 2 (print_more ((join, c') :: l))) = print_comparison c' ++ print_more l) as Hd.
      { unfold print_more at 1. cbn [flat_map fst snd]. fold (print_more l). destruct (entry_chars (c_entry c')) as (D1 & D2 & _).
        { unfold comparison_ok in Hc1. by bprop. }
        destruct join; cbn [print_join app drop]; unfold xmldb_eatwhite; cbn [eat IS_WHITE Z.eqb Pos.eqb orb];
          (apply eat_deref; unfold print_comparison; destruct (print_entry (c_entry c')); [done|]; cbn; apply D2; by left). }
      eapply IH; [done|exact Hc1|done|exact Hd|lia|eassumption|eassumption]. }
    unfold print_more at 1 3. cbn [flat_map fst snd]. destruct join, b0; cbn [eqb print_join app has_prefix Z.eqb Pos.eqb andb] in *; cbn iota;
      try (by apply Hnext); injection Hb as <-; apply shows_ret.
Qed.

Lemma deref_rev_app a b : b <> [] -> deref (rev (a ++ b)) = deref (rev b).
Proof using Type. intros Hb. rewrite rev_app_distr. destruct b as [|x b _] using rev_ind; [done|]. by rewrite rev_app_distr. Qed.

Lemma condition_length l : (length l <= length (print_more l))%nat.
Proof using Type.
  induction l as [|[j c] l IH]; [done|]. unfold print_more. cbn [flat_map length]. rewrite length_app. fold (print_more l).
  destruct j; cbn [print_join fst app length]; lia.
Qed.

Lemma print_condition_more c : print_condition c = print_comparison (c_first c) ++ print_more (c_more c).
Proof using Type. done. Qed.

Lemma shows_condition root c b : cur_ok t root -> condition_ok c = true -> tag_ok (msg_if c) = true ->
  condition_val t root vs c = Some b -> shows t vs (do_if_condition root (drop 3 (msg_if c))) (bool_int b) [] vs 0.
Proof using Type.
  intros Hr Hc Ht Hb. unfold condition_ok in Hc. apply andb_true_iff in Hc as [Hc Hl]. unfold condition_val in Hb. inv_opt.
  unfold msg_if. change (drop 3 (tag_if ++ [32] ++ print_condition c)) with (32 :: print_condition c).
  unfold do_if_condition. eapply shows_first; [apply shows_strdup|].
  unfold tag_ok in Ht. apply andb_true_iff in Ht as [_ Ht]. apply trimmed_deref in Ht as [_ Ht]. unfold msg_if in Ht.
  rewrite deref_rev_app in Ht by done. change ([32] ++ print_condition c) with (32 :: print_condition c) in Ht.
  rewrite reatwhite_id by done. rewrite print_condition_more.
  destruct (entry_chars (c_entry (c_first c))) as (D1 & D2 & _); [unfold comparison_ok in Hc; by bprop|].
  assert (xmldb_eatwhite (32 :: print_comparison (c_first c) ++ print_more (c_more c)) = print_comparison (c_first c) ++ print_more (c_more c)) as Ew.
  { unfold xmldb_eatwhite. cbn [eat IS_WHITE Z.eqb Pos.eqb orb]. apply eat_deref. unfold print_comparison.
    destruct (print_entry (c_entry (c_first c))); [done|]. cbn. apply D2. by left. }
  rewrite Ew. assert (xmldb_eatwhite (print_comparison (c_first c) ++ print_more (c_more c)) = print_comparison (c_first c) ++ print_more (c_more c)) as Ew2.
  { apply eat_deref. unfold print_comparison. destruct (print_entry (c_entry (c_first c))); [done|]. cbn. apply D2. by left. }
  eapply shows_first.
  - eapply shows_cond; [done|exact Hc|done|exact Ew2| |eassumption|eassumption]. pose proof (condition_length (c_more c)).
    rewrite length_app. unfold print_comparison, quote. rewrite !length_app. cbn [length]. lia.
  - eapply shows_first; [apply shows_free|]. apply shows_ret.
Qed.
End Mapping.

(** ** Collecting the text of pieces *)

(** Induction on pieces, with the lists in them. *)
Lemma piece_ind' (P : piece -> Prop) :
  (forall s, P (PText s)) -> (forall e m, P (PValue e m)) ->
  (forall c a els b, Forall P a -> Forall P b -> P (PIf c a els b)) -> (forall path b, Forall P b -> P (PArray path b)) ->
  (forall k o l, P (PVar k o l)) -> (forall path, P (PPath path)) -> forall p, P p.
Proof.
  intros H1 H2 H3 H4 H5 H6. fix IH 1. intros [s|e m|c a els b|path b|k o l|path]; [apply H1|apply H2| | |apply H5|apply H6].
  - apply H3; [induction a|induction b]; constructor; auto.
  - apply H4. induction b; constructor; auto.
Qed.

(** A judge that lets the text of complete pieces pass, at any level of nesting. *)
Record fits (judge : nat -> list Z -> verdict) : Prop := {
  fits_plain : forall n msg, deref msg <> 36 -> judge n msg = Inside n;
  fits_var : forall n k o l, judge n (msg_var k o l) = Inside n;
  fits_if : forall n c, (0 < n)%nat -> exists m, (0 < m)%nat /\ judge n (msg_if c) = Inside m /\ judge m tag_else = Inside m /\ judge m tag_fi = Inside n;
  fits_array : forall n path, (0 < n)%nat -> exists m, (0 < m)%nat /\ judge n (msg_array path) = Inside m /\ judge m tag_arrayend = Inside n
}.

Lemma prefix_plain lit msg : deref msg <> 36 -> has_prefix (36 :: lit) msg = false.
Proof. intros H. destruct msg as [|c msg]; [done|]. cbn [deref hd has_prefix] in *. by rewrite (proj2 (Z.eqb_neq 36 c)) by congruence. Qed.

Ltac fits_judge := constructor;
  [ intros n msg H; cbv delta [if_verdict else_verdict array_verdict tag_if tag_else tag_fi tag_array tag_arrayend]; cbn beta; by rewrite !prefix_plain
  | intros; reflexivity
  | intros n c Hn; first [exists (S n); (split; [lia|]); (split; [reflexivity|]); (split; [destruct n; [lia|reflexivity]|destruct n; [lia|]; cbn; by rewrite ?Nat.sub_0_r])
                         | exists n; by split_and!]
  | intros n path Hn; first [by (exists n; split_and!)|exists (S n); (split; [lia|]); (split; [reflexivity|]); destruct n; [lia|]; cbn; by rewrite ?Nat.sub_0_r] ].

Lemma fits_if_verdict : fits if_verdict.
Proof. fits_judge. Qed.

Lemma fits_else_verdict : fits else_verdict.
Proof. fits_judge. Qed.

Lemma fits_array_verdict : fits array_verdict.
Proof. fits_judge. Qed.

Lemma kept_app keep a b : kept keep (a ++ b) = kept keep a ++ kept keep b.
Proof. by destruct keep. Qed.

Section CollectPieces.
Context (t : xml_node) (vs : list Z) (judge : nat -> list Z -> verdict) (keep : bool) (info : PINFO) (Hj : fits judge).

(** Collecting at a level passes over [s]. *)
Definition passes (lvl : nat) (s : list Z) : Prop := forall pi a x k r,
  good pi -> rest pi = s ++ r ->
  collects t vs judge keep info lvl (skip pi (length s)) (a ++ kept keep s) x (k + blocks a - blocks (a ++ kept keep s)) ->
  collects t vs judge keep info lvl pi a x k.

Lemma passes_nil lvl : passes lvl [].
Proof using Type.
  intros pi a x k r Hg Hr Hk. cbn [length] in Hk. rewrite skip_0 in Hk. assert (kept keep [] = []) as E by (by destruct keep).
  rewrite E, app_nil_r in Hk. eapply collects_eq; [exact Hk|lia].
Qed.

Lemma passes_app lvl s1 s2 : passes lvl s1 -> passes lvl s2 -> passes lvl (s1 ++ s2).
Proof using Type.
  intros H1 H2 pi a x k r Hg Hr Hk. rewrite <- app_assoc in Hr. eapply H1; [done|exact Hr|].
  eapply (H2 (skip pi (length s1)) (a ++ kept keep s1) _ _ r); [by apply good_skip|by eapply rest_skip_app|].
  rewrite skip_skip, <- app_assoc, <- kept_app, <- length_app. eapply collects_eq; [exact Hk|lia].
Qed.

Lemma passes_tag lvl msg : tag_ok msg = true -> judge lvl msg = Inside lvl -> passes lvl (braced msg).
Proof using Type. intros Hm Hn pi a x k r Hg Hr Hk. by eapply collects_tag. Qed.

(** A block between two tags of which the first opens a level that the second closes. *)
Lemma passes_between m1 m2 s lvl m :
  tag_ok m1 = true -> tag_ok m2 = true -> passes m s -> judge lvl m1 = Inside m -> judge m m2 = Inside lvl ->
  passes lvl (braced m1 ++ s ++ braced m2).
Proof using Type.
  intros Ht1 Ht2 Hs Hj1 Hj2 pi a x k r Hg Hr Hk. rewrite <- !app_assoc in Hr.
  eapply collects_tag; [done|exact Hr|done|exact Hj1|].
  assert (rest (skip pi (length (braced m1))) = s ++ braced m2 ++ r) as Hr1 by (by eapply rest_skip_app).
  eapply (Hs _ _ _ _ _ ltac:(by apply good_skip) Hr1). rewrite skip_skip.
  assert (rest (skip pi (length (braced m1) + length s)) = braced m2 ++ r) as Hr2
    by (eapply (rest_skip_app _ (braced m1 ++ s)); [by rewrite <- app_assoc|by rewrite length_app]).
  eapply collects_tag; [by apply good_skip|exact Hr2|done|exact Hj2|]. rewrite skip_skip, <- !app_assoc, <- !kept_app.
  rewrite !length_app, Nat.add_assoc in Hk. eapply collects_eq; [exact Hk|lia].
Qed.

Lemma tag_ok_plain : tag_ok tag_else = true /\ tag_ok tag_fi = true /\ tag_ok tag_arrayend = true.
Proof using Type. done. Qed.

Lemma value_head e m : vexp_ok e = true -> deref (print_value e m) <> 36.
Proof using Type.
  unfold print_value. destruct e as [path| |path|k|s l]; cbn [vexp_ok print_vexp]; try done; unfold plain_path, path_start; intros H; bprop;
    (destruct path as [|c path]; [done|]; cbn in *; congruence).
Qed.

Lemma passes_list lvl l : Forall (fun p => piece_ok p = true -> forall lvl, (0 < lvl)%nat -> passes lvl (print_piece p)) l ->
  forallb piece_ok l = true -> (0 < lvl)%nat -> passes lvl (print_template l).
Proof using Type.
  intros Hl Ho Hlvl. revert Ho. unfold print_template. induction Hl as [|p l Hp _ IH]; cbn [forallb flat_map]; [intros _; apply passes_nil|]. intros H. bprop.
  apply passes_app; auto.
Qed.

Lemma passes_piece p : piece_ok p = true -> forall lvl, (0 < lvl)%nat -> passes lvl (print_piece p).
Proof using Hj.
  induction p as [s|e m|c a els b Ha Hb|path b Hb|k o l|path] using piece_ind'; cbn [piece_ok print_piece]; intros H lvl Hl.
  - intros pi a x k r Hg Hr Hk. by eapply collects_text.
  - bprop. apply passes_tag; [done|]. apply (fits_plain _ Hj). by apply value_head.
  - apply andb_true_iff in H as [H Hels]. apply andb_true_iff in H as [H Hbo]. apply andb_true_iff in H as [H Hao].
    apply andb_true_iff in H as [_ Hm]. fold (print_template a) (print_template b).
    replace (braced (msg_if c) ++ print_template a ++ (if els then braced tag_else else []) ++ print_template b ++ braced tag_fi)
      with (braced (msg_if c) ++ (print_template a ++ (if els then braced tag_else else []) ++ print_template b) ++ braced tag_fi)
      by (by rewrite <- !app_assoc).
    destruct (fits_if _ Hj lvl c Hl) as (m & Hm0 & J1 & J2 & J3).
    eapply passes_between; [exact Hm|done| |exact J1|exact J3].
    apply passes_app; [by apply passes_list|]. apply passes_app; [|by apply passes_list].
    destruct els; [by apply passes_tag|apply passes_nil].
  - bprop. fold (print_template b). destruct (fits_array _ Hj lvl path Hl) as (m & Hm0 & J1 & J2).
    eapply passes_between; [exact H|done|by apply passes_list|exact J1|exact J2].
  - bprop. apply passes_tag; [done|]. apply (fits_var _ Hj).
  - apply passes_tag; [done|]. by apply (fits_plain _ Hj).
Qed.

Lemma passes_template lvl l : forallb piece_ok l = true -> (0 < lvl)%nat -> passes lvl (print_template l).
Proof using Hj.
  intros Ho Hl. apply passes_list; [|done|done]. apply List.Forall_forall. intros p _ Hp n Hn. by apply passes_piece.
Qed.
End CollectPieces.

(** ** Blocks *)

Lemma filled_nil pi : filled (new_info pi) [] = new_info pi.
Proof. unfold filled, new_info. cbn [length flags current max offset]. by rewrite room_0. Qed.

Lemma good_filled info s : good (filled info s).
Proof. intros _. by destruct s. Qed.

Lemma rest_filled info s : rest (filled info s) = drop (offset info) s.
Proof. unfold rest, filled. cbn [fh size offset buff]. destruct s; cbn [default from_option]; [done|]. by rewrite take_ge. Qed.

Lemma skip_filled info s n : skip (filled info s) n = filled (set_offset info (offset info + n)) s.
Proof. done. Qed.

Lemma current_filled info s p : set_current (filled info s) p = filled (set_current info p) s.
Proof. done. Qed.

Lemma owned_filled info s : owned (buff (filled info s)) = blocks s.
Proof. by destruct s. Qed.

Lemma set_current_id pi : set_current pi (current pi) = pi.
Proof. by destruct pi. Qed.

(** How deep blocks are nested in pieces. *)
Fixpoint nest (p : piece) : nat :=
  match p with
  | PIf _ a _ b => S (Nat.max (foldr (fun p n => Nat.max (nest p) n) 0%nat a) (foldr (fun p n => Nat.max (nest p) n) 0%nat b))
  | PArray _ b => S (foldr (fun p n => Nat.max (nest p) n) 0%nat b)
  | _ => 0
  end.
Definition nests (l : list piece) : nat := foldr (fun p n => Nat.max (nest p) n) 0%nat l.

Section Loop.
Context (t : xml_node) (patch : PINFO -> Z -> M (Z * PINFO)) (d : nat).

(** Blocks that are nested less deep than [d] are shown. *)
Context (Hpatch : forall ps pi id vs r,
  forallb piece_ok ps = true -> (nests ps < d)%nat -> good pi -> rest pi = print_template ps -> cur_ok t (current pi) ->
  render t (flags pi) ps (mkenv id (max pi)) (current pi) vs = Some r ->
  shows t vs (patch pi id) (0, set_current (skip pi (length (print_template ps))) (r_cur r)) (r_text r) (r_vars r) (r_lost r)).

Lemma shows_block judge keep msg e vs l pi info a r :
  fits judge -> forallb piece_ok l = true -> tag_ok msg = true -> judge 1%nat msg = Ends e ->
  good pi -> rest pi = print_template l ++ braced msg ++ r ->
  shows t vs (collect_block judge keep pi (filled info a))
    (Some e, skip pi (length (print_template l ++ braced msg)), filled info (a ++ kept keep (print_template l))) [] vs
    (blocks (a ++ kept keep (print_template l)) - blocks a).
Proof using Type.
  intros Hj Hl Hm He Hg Hr.
  assert (collects t vs judge keep info 1 pi a (Some e, skip pi (length (print_template l ++ braced msg)), filled info (a ++ kept keep (print_template l)))
            (blocks (a ++ kept keep (print_template l)) - blocks a)) as Hc; [|apply Hc; lia].
  eapply (passes_template t vs judge keep info Hj 1 l Hl ltac:(lia)); [done|exact Hr|].
  assert (rest (skip pi (length (print_template l))) = braced msg ++ r) as Hr1 by (by eapply rest_skip_app).
  eapply collects_eq; [rewrite length_app, <- skip_skip; eapply collects_end; [by apply good_skip|exact Hr1|done|done]|lia].
Qed.

(** The block of a condition: it has the node of the template, but not the number of elements. *)
Definition if_info (pi : PINFO) : PINFO := set_current (new_info pi) (current pi).

Lemma if_info_filled pi : filled (if_info pi) [] = if_info pi.
Proof using Type. unfold if_info. by rewrite <- current_filled, filled_nil. Qed.

Lemma shows_branch vs pi id ps r : forallb piece_ok ps = true -> (nests ps < d)%nat -> cur_ok t (current pi) ->
  render t (flags pi) ps (mkenv id 0) (current pi) vs = Some r ->
  exists j, shows t vs (r ← patch (filled (if_info pi) (print_template ps)) id; mret (snd r)) (filled j (print_template ps)) (r_text r) (r_vars r) (r_lost r).
Proof using Hpatch.
  intros Hps Hn Hc Hr.
  pose proof (Hpatch ps (filled (if_info pi) (print_template ps)) id vs r Hps Hn (good_filled _ _) (rest_filled _ _) Hc Hr) as Hp.
  rewrite skip_filled, current_filled in Hp. eexists.
  eapply (shows_seq t vs _ _ _ _ _ _ _ [] _ 0); [exact Hp|apply shows_ret|by rewrite app_nil_r|lia].
Qed.

(** What is behind the first tag of a condition. *)
Definition if_text (a : list piece) (els : bool) (b : list piece) : list Z :=
  print_template a ++ (if els then braced tag_else else []) ++ print_template b ++ braced tag_fi.

(** The end of [do_if]. *)
Lemma shows_if_end vs pi pi' j s : pi' = pi ->
  shows t vs (let '(p, info) := (pi, filled j s) in _ ← m_free (owned (buff info)); mret (0, p) : M (Z * PINFO)) (0, pi') [] vs (- blocks s).
Proof using Type. intros ->. cbn beta iota. rewrite owned_filled. eapply shows_first; [apply shows_free|]. rewrite Z.sub_diag. apply shows_ret. Qed.

Lemma shows_if_yes vs pi c a els b id rr r :
  piece_ok (PIf c a els b) = true -> (nests a < d)%nat -> good pi -> cur_ok t (current pi) -> rest pi = if_text a els b ++ rr ->
  condition_val t (current pi) vs c = Some true -> render t (flags pi) a (mkenv id 0) (current pi) vs = Some r ->
  shows t vs (do_if patch pi (drop 3 (msg_if c)) id) (0, skip pi (length (if_text a els b))) (r_text r) (r_vars r) (r_lost r).
Proof using Hpatch.
  intros Hok Hn Hg Hc Hr Hy Hres. cbn [piece_ok] in Hok.
  apply andb_true_iff in Hok as [Hok Hels]. apply andb_true_iff in Hok as [Hok Hbo]. apply andb_true_iff in Hok as [Hok Hao].
  apply andb_true_iff in Hok as [Hco Hm]. unfold do_if. eapply shows_first; [by apply shows_condition|]. cbn [bool_int negb Z.eqb].
  destruct (shows_branch vs pi id a r Hao Hn Hc Hres) as (j & Hp). fold (if_info pi). rewrite <- if_info_filled.
  unfold if_text in *. destruct els.
  - rewrite <- !app_assoc in Hr.
    eapply shows_first; [by eapply (shows_block if_verdict true tag_else true); [apply fits_if_verdict|..|exact Hr]|].
    cbn [kept app]. set (pi1 := skip pi _).
    assert (rest pi1 = print_template b ++ braced tag_fi ++ rr) as Hr1 by (eapply rest_skip_app; [rewrite <- app_assoc; exact Hr|done]).
    eapply (shows_seq _ _ _ _ _ _ _ _ _ [] _ (- blocks (print_template a))); [exact Hp| |by rewrite app_nil_r|cbn [blocks]; lia].
    eapply (shows_first t (r_vars r) _ _ (skip pi1 (length (print_template b ++ braced tag_fi)), filled j (print_template a)) 0).
    + eapply shows_first; [eapply (shows_block else_verdict false tag_fi false); [apply fits_else_verdict|done|done|done|by apply good_skip|exact Hr1]|].
      cbn [kept negb]. rewrite app_nil_r, Z.sub_diag. eapply shows_first; [apply shows_ret|]. apply shows_ret.
    + rewrite Z.sub_0_r. apply shows_if_end. unfold pi1. rewrite skip_skip, !length_app. f_equal. lia.
  - destruct b as [|? ?]; [|discriminate Hels]. cbn [app print_template flat_map] in Hr |- *. rewrite <- app_assoc in Hr.
    eapply shows_first; [by eapply (shows_block if_verdict true tag_fi false); [apply fits_if_verdict|..|exact Hr]|].
    eapply (shows_seq _ _ _ _ _ _ _ _ _ [] _ (- blocks (print_template a))); [exact Hp| |by rewrite app_nil_r|cbn [blocks kept app]; lia].
    eapply shows_first; [apply shows_ret|]. rewrite Z.sub_0_r. by apply shows_if_end.
Qed.

Lemma shows_if_no vs pi c a els b id rr r :
  piece_ok (PIf c a els b) = true -> (nests b < d)%nat -> good pi -> cur_ok t (current pi) -> rest pi = if_text a els b ++ rr ->
  condition_val t (current pi) vs c = Some false -> render t (flags pi) b (mkenv id 0) (current pi) vs = Some r ->
  shows t vs (do_if patch pi (drop 3 (msg_if c)) id) (0, skip pi (length (if_text a els b))) (r_text r) (r_vars r) (r_lost r).
Proof using Hpatch.
  intros Hok Hn Hg Hc Hr Hy Hres. cbn [piece_ok] in Hok.
  apply andb_true_iff in Hok as [Hok Hels]. apply andb_true_iff in Hok as [Hok Hbo]. apply andb_true_iff in Hok as [Hok Hao].
  apply andb_true_iff in Hok as [Hco Hm]. unfold do_if. eapply shows_first; [by apply shows_condition|]. cbn [bool_int negb Z.eqb].
  destruct (shows_branch vs pi id b r Hbo Hn Hc Hres) as (j & Hp). fold (if_info pi). rewrite <- if_info_filled.
  unfold if_text in *. destruct els.
  - rewrite <- !app_assoc in Hr.
    eapply shows_first; [by eapply (shows_block if_verdict false tag_else true); [apply fits_if_verdict|..|exact Hr]|].
    cbn [kept app]. set (pi1 := skip pi _).
    assert (rest pi1 = print_template b ++ braced tag_fi ++ rr) as Hr1 by (eapply rest_skip_app; [rewrite <- app_assoc; exact Hr|done]).
    eapply shows_first; [apply shows_ret|].
    eapply (shows_seq t vs _ _ (skip pi1 (length (print_template b ++ braced tag_fi)), filled j (print_template b)) _ _
              (blocks (print_template b) + r_lost r) _ [] _ (- blocks (print_template b))); [| |by rewrite app_nil_r|cbn [blocks]; lia].
    + eapply shows_first; [eapply (shows_block else_verdict true tag_fi false); [apply fits_else_verdict|done|done|done|by apply good_skip|exact Hr1]|].
      cbn [kept negb app]. eapply (shows_seq _ _ _ _ _ _ _ _ _ [] _ 0); [exact Hp|apply shows_ret|by rewrite app_nil_r|cbn [blocks]; lia].
    + apply shows_if_end. unfold pi1. rewrite skip_skip, !length_app. f_equal. lia.
  - destruct b as [|? ?]; [|discriminate Hels]. cbn [app print_template flat_map] in Hr |- *. rewrite <- app_assoc in Hr.
    injection Hres as <-. cbn [r_text r_vars r_lost].
    eapply shows_first; [by eapply (shows_block if_verdict false tag_fi false); [apply fits_if_verdict|..|exact Hr]|].
    eapply shows_first; [apply shows_ret|]. eapply shows_first; [apply shows_ret|]. by apply shows_if_end.
Qed.

(** ** Arrays *)

Lemma rewind info s p : (s = [] -> offset info = 0%nat) ->
  snd (pi_set_offset (set_current (filled info s) p) 0) = filled (set_offset (set_current info p) 0) s.
Proof using Type.
  intros Ho. unfold pi_set_offset. cbn [set_current filled fh size].
  destruct s as [|c s]; cbn [length Nat.ltb Nat.leb snd]; [|done]. unfold filled, set_offset. cbn. by rewrite (Ho eq_refl).
Qed.

Lemma shows_array_loop p l entry body : forallb piece_ok body = true -> (nests body < d)%nat ->
  (forall k, (k < length l)%nat -> cur_ok t (Some (p ++ [k]))) ->
  forall fuel i info vs r, counted fuel l entry i -> (print_template body = [] -> offset info = 0%nat) ->
  render_elements (render t (flags info) body) p (max info) (elements fuel l entry i) vs = Some r ->
  exists j, shows t vs (array_loop patch fuel p l entry i (filled info (print_template body))) (filled j (print_template body))
              (r_text r) (r_vars r) (r_lost r).
Proof using Hpatch.
  intros Hb Hn Hk. set (s := print_template body) in *.
  induction fuel as [|fuel IH]; intros i info vs r Hc Ho Hr; [by apply counted_none in Hc|]. cbn [array_loop elements] in *.
  destruct (index_of (is_node entry i) l) as [k|] eqn:E.
  - cbn [render_elements] in Hr. apply bind_Some in Hr as (a & Ha & Hr). apply bind_Some in Hr as (b & Hb' & [= <-]). cbn [r_text r_vars r_lost].
    pose proof (index_of_In _ _ _ E) as (n & Hin & _). pose proof (lookup_lt_Some _ _ _ Hin) as Hlt.
    set (i1 := set_offset (set_current info (Some (p ++ [k]))) 0).
    pose proof (Hpatch body (filled i1 s) i vs a Hb Hn (good_filled _ _) (rest_filled _ _) (Hk k Hlt) Ha) as Hp.
    rewrite skip_filled, current_filled in Hp. set (i2 := set_current (set_offset i1 _) _) in Hp.
    destruct (IH (i + 1) i2 (r_vars a) b) as (j & Hj).
    { apply counted_some; [done|]. by rewrite E. }
    { intros Es. unfold i2. cbn [set_current set_offset offset i1]. fold s. by rewrite Es. }
    { exact Hb'. }
    exists j. apply shows_get. intros w _ _. rewrite find_sibling_index, E. eapply shows_first; [by apply shows_lift|]. cbn beta iota.
    rewrite rewind by done. fold i1. eapply shows_seq; [exact Hp|exact Hj|done|lia].
  - injection Hr as <-. exists info. apply shows_get. intros w _ _. rewrite find_sibling_index, E.
    eapply shows_first; [by apply shows_lift|]. apply shows_ret.
Qed.

(** What is behind the first tag of an array. *)
Definition array_text (b : list piece) : list Z := print_template b ++ braced tag_arrayend.

Lemma shows_do_array vs pi path b id rr r :
  piece_ok (PArray path b) = true -> (nests b < d)%nat -> good pi -> cur_ok t (current pi) -> rest pi = array_text b ++ rr ->
  render_piece t (flags pi) (PArray path b) (mkenv id (max pi)) (current pi) vs = Some r ->
  shows t vs (do_array patch pi path) (0, skip pi (length (array_text b))) (r_text r) (r_vars r) (r_lost r).
Proof using Hpatch.
  intros Hok Hn Hg Hc Hr Hres. cbn [piece_ok render_piece] in *. apply andb_true_iff in Hok as [_ Hb]. unfold do_array.
  eapply shows_first; [apply shows_strdup|]. rewrite <- filled_nil. unfold array_text in *. rewrite <- app_assoc in Hr.
  eapply shows_first; [by eapply (shows_block array_verdict true tag_arrayend false); [apply fits_array_verdict|..|exact Hr]|].
  cbn [kept app blocks]. set (pi1 := skip pi _). assert (current pi1 = current pi) as Ec by apply current_skip.
  eapply shows_first; [apply shows_parent; by rewrite Ec|]. rewrite Ec. rewrite array_at_parent in Hres.
  pose proof (array_parent_ok t (current pi) path Hc) as Hp. destruct (array_parent t (current pi) path) as [[p|] entry]; cbn [fst mbind option_bind] in *.
  - destruct Hp as [n Hpn]. rewrite Hpn in Hres. cbn [mbind option_bind] in Hres. apply bind_Some in Hres as (r1 & Hr1 & [= <-]). cbn [r_text r_vars r_lost].
    eapply shows_first; [by apply shows_children|]. eapply shows_first; [apply shows_count|].
    set (m := zlen (elements (length (child n)) (child n) entry 1)) in *.
    change (set_max (filled (new_info pi) (print_template b)) m) with (filled (set_max (new_info pi) m) (print_template b)).
    rewrite <- (elements_more (child n) entry _ 1 (counted_start _ _)) in Hr1.
    destruct (shows_array_loop p (child n) entry b Hb Hn) with (fuel := S (length (child n))) (i := 1) (info := set_max (new_info pi) m) (vs := vs) (r := r1) as (j & Hj).
    { intros k Hk. destruct (lookup_lt_is_Some_2 _ _ Hk) as [c Hck]. exists c. by rewrite node_at_app, Hpn; cbn; rewrite Hck. }
    { apply counted_start. }
    { done. }
    { exact Hr1. }
    eapply (shows_seq _ _ _ _ _ _ _ _ _ [] _ (- (blocks (print_template b) + 1))); [exact Hj| |by rewrite app_nil_r|lia].
    rewrite owned_filled. eapply shows_first; [apply shows_free|]. replace (_ - _) with 0 by lia. apply shows_ret.
  - injection Hres as <-. cbn [r_text r_vars r_lost]. eapply shows_first; [apply shows_free|].
    match goal with |- shows _ _ _ _ _ _ ?x => replace x with 0 by lia end. apply shows_ret.
Qed.

(** ** Variables and paths *)

Lemma shows_set_vars vs vs' : shows t vs (modify (fun w => set_vars w vs')) tt [] vs' 0.
Proof using Type. intros w _ _ <-. unfold modify, set_vars, after. cbn. rewrite Z.add_0_r. by destruct w as [[t0 [a0 l0] m0] v0 b0 o0]. Qed.

Lemma calc_head l : xmldb_eatwhite (print_calc l) = print_calc l.
Proof using Type. destruct l as [|[[] o] l]; done. Qed.

Lemma shows_variables vs pi k o l id i v vs' :
  (k < 10)%nat -> operand_ok o = true -> calc_ok l = true -> forallb (fun p => plain_cop (fst p)) l = true ->
  operand_val (mkenv id (max pi)) vs o = Some i -> calc (mkenv id (max pi)) vs i l = Some v -> wr vs (Z.of_nat k) v = Some vs' ->
  shows t vs (do_variables pi (drop 4 (msg_var k o l)) id) 0 [] vs' 0.
Proof using Type.
  intros Hk Ho Hl Hp Hi Hv Hw. unfold msg_var.
  change (drop 4 (tag_var ++ [48 + Z.of_nat k] ++ [61] ++ print_operand o ++ print_calc l)) with (48 + Z.of_nat k :: 61 :: print_operand o ++ print_calc l).
  unfold do_variables. change (xmldb_eatwhite (61 :: print_operand o ++ print_calc l)) with (61 :: print_operand o ++ print_calc l). cbn iota.
  rewrite operand_no_white by done. eapply shows_first; [apply shows_readnum; [done|apply calc_no_digit|exact Hi]|]. cbn beta iota.
  rewrite calc_head. eapply shows_first; [by apply shows_var_turns|]. apply shows_get. intros w _ ->.
  eapply shows_first.
  - apply shows_lift. unfold var_index, schar. rewrite (proj2 (Z.ltb_lt _ _)) by lia. replace (48 + Z.of_nat k - 48) with (Z.of_nat k) by lia.
    rewrite Z.rem_small by lia. exact Hw.
  - eapply (shows_seq t vs _ _ tt [] vs' 0 _ [] vs' 0); [apply shows_set_vars|apply shows_ret|done|done].
Qed.

(** ** The loop *)

(** The loop of [do_patch] from [pi] returns [x], shows [s], and so on, with any fuel that is enough. *)
Definition loops (vs : list Z) (pi : PINFO) (id : Z) (x : Z * PINFO) (s vs' : list Z) (n : Z) : Prop :=
  forall fuel, (length (rest pi) < fuel)%nat -> shows t vs (patch_loop patch fuel pi id) x s vs' n.

Lemma loops_end vs pi id : good pi -> rest pi = [] -> loops vs pi id (0, pi) [] vs 0.
Proof using Type.
  intros Hg Hr fuel Hf. destruct fuel as [|fuel]; [lia|]. cbn [patch_loop]. eapply shows_first; [by apply shows_getc_end|].
  cbn beta iota. change (EOF =? EOF) with true. apply shows_ret.
Qed.

Lemma spill_same b o s s' : map u8 s = map u8 s' -> spill b o s = spill b o s'.
Proof using Type.
  revert b o s'. induction s as [|c s IH]; intros b o [|c' s'] E; try done. cbn [map spill] in *. injection E as Ec Es. rewrite Ec.
  destruct (_ =? _)%nat; by apply IH.
Qed.

(** A character as it is read is shown as it is. *)
Lemma shows_seen vs pi c : text_char c = true -> shows t vs (buffer_putc (seen pi c)) tt [c] vs 0.
Proof using Type.
  intros Hc w Ha Ht Hv. rewrite (shows_flushed t vs (seen pi c) w Ha Ht Hv). unfold after.
  rewrite (spill_same _ _ [seen pi c] [c]); [done|]. cbn [map]. f_equal. destruct (seen_facts pi c Hc) as (_ & -> & _).
  unfold text_char in Hc. bprop. symmetry. apply u8_small. split; lia.
Qed.

Lemma loops_text s : forall vs pi id x s2 vs' n r,
  good pi -> rest pi = s ++ r -> text_ok s = true -> loops vs (skip pi (length s)) id x s2 vs' n -> loops vs pi id x (s ++ s2) vs' n.
Proof using Type.
  induction s as [s IH] using (induction_ltof1 _ (@length Z)); unfold ltof in IH. intros vs pi id x s2 vs' n r Hg Hr Hs Hk.
  destruct s as [|c s]; [cbn [length] in Hk; by rewrite skip_0 in Hk|].
  intros fuel Hf. destruct fuel as [|fuel]; [lia|]. cbn [patch_loop app text_ok] in *. apply andb_true_iff in Hs as [Hc Hs].
  eapply shows_first; [by eapply shows_getc|]. destruct (seen_facts pi c Hc) as (-> & _ & He). rewrite (He 123) by lia.
  assert (length (rest (skip pi 1)) < fuel)%nat as Hf1 by (rewrite rest_skip, length_drop; rewrite Hr in Hf |- *; cbn [length] in *; lia).
  destruct (Z.eqb_spec c 123) as [->|Hc3]; cbn [negb].
  - destruct s as [|y s]; [done|]. bprop. rename H into Hy, H1 into Hy3, H0 into Hs.
    assert (rest (skip pi 1) = y :: s ++ r) as Hr1 by (by rewrite rest_skip, Hr).
    eapply shows_first; [eapply shows_getc; [by apply good_skip|exact Hr1]|].
    destruct (seen_facts (skip pi 1) y Hy) as (-> & _ & He1). rewrite (He1 123) by lia. rewrite (proj2 (Z.eqb_neq y 123)) by done. cbn [negb].
    eapply (shows_seq t vs _ _ tt [123] vs 0 _ (y :: s ++ s2) vs' n); [apply shows_flushed| |done|lia].
    eapply (shows_seq t vs _ _ tt [y] vs 0 _ (s ++ s2) vs' n); [by apply shows_seen| |done|lia]. rewrite skip_skip.
    eapply (IH s ltac:(cbn; lia) vs (skip pi (1 + 1)) id x s2 vs' n r); [by apply good_skip|by rewrite rest_skip, Hr|done| |].
    + rewrite skip_skip. exact Hk.
    + rewrite rest_skip, length_drop. rewrite Hr in Hf |- *. cbn [length] in *. lia.
  - eapply (shows_seq t vs _ _ tt [c] vs 0 _ (s ++ s2) vs' n); [by apply shows_seen| |done|lia].
    eapply (IH s ltac:(cbn; lia) vs (skip pi 1) id x s2 vs' n r); [by apply good_skip|by rewrite rest_skip, Hr|done| |done].
    rewrite skip_skip. exact Hk.
Qed.

Lemma loops_tag msg vs pi id r pi' s1 vs1 n1 x s2 vs' n :
  good pi -> rest pi = braced msg ++ r -> tag_ok msg = true ->
  shows t vs (do_tag patch (skip pi (length (braced msg))) msg id) (0, pi') s1 vs1 n1 ->
  (length (rest pi') <= length r)%nat -> loops vs1 pi' id x s2 vs' n -> loops vs pi id x (s1 ++ s2) vs' (n1 + n).
Proof using Type.
  intros Hg Hr Hm Ht Hl Hk fuel Hf. destruct fuel as [|fuel]; [lia|]. cbn [patch_loop].
  eapply shows_open; [done|exact Hr|done|reflexivity|reflexivity|]. cbn beta iota.
  eapply shows_bind; [exact Ht|]. cbn beta iota. change (0 <? 0) with false. change (125 =? EOF) with false. cbn iota. apply Hk.
  rewrite Hr, length_app in Hf. unfold braced in Hf. cbn [app length] in Hf. lia.
Qed.

Lemma plain_tag pi msg id : deref msg <> 36 -> deref msg <> 64 -> do_tag patch pi msg id = (ret ← do_mapping pi msg id; mret (ret, pi)).
Proof using Type. intros H1 H2. unfold do_tag. by rewrite (proj2 (Z.eqb_neq _ _) H1), (proj2 (Z.eqb_neq _ _) H2). Qed.

Lemma value_no_at e m : vexp_ok e = true -> deref (print_value e m) <> 64.
Proof using Type.
  unfold print_value. destruct e as [path| |path|k|s l]; cbn [vexp_ok print_vexp]; try done; unfold plain_path, path_start; intros H; bprop;
    (destruct path as [|c path]; [done|]; cbn in *; congruence).
Qed.

Lemma rest_after pi a r : rest pi = a ++ r -> (length (rest (skip pi (length a))) <= length r)%nat.
Proof using Type. intros H. rewrite (rest_skip_app _ _ _ _ H eq_refl). done. Qed.

Lemma skip_current pi n : set_current (skip pi n) (current pi) = skip pi n.
Proof using Type. rewrite <- (current_skip pi n). apply set_current_id. Qed.

(** A piece that is one tag and leaves the node alone. *)
Lemma loops_one msg vs pi id r s1 vs1 n1 x s2 vs' n :
  good pi -> rest pi = braced msg ++ r -> tag_ok msg = true ->
  shows t vs (do_tag patch (skip pi (length (braced msg))) msg id) (0, skip pi (length (braced msg))) s1 vs1 n1 ->
  loops vs1 (set_current (skip pi (length (braced msg))) (current pi)) id x s2 vs' n -> loops vs pi id x (s1 ++ s2) vs' (n1 + n).
Proof using Type.
  intros Hg Hr Hm Ht Hk. rewrite skip_current in Hk. by eapply loops_tag; [..|by apply rest_after|exact Hk].
Qed.

(** A piece that is a tag and a block. *)
Lemma loops_block msg text vs pi id r s1 vs1 n1 x s2 vs' n :
  good pi -> rest pi = (braced msg ++ text) ++ r -> tag_ok msg = true ->
  shows t vs (do_tag patch (skip pi (length (braced msg))) msg id) (0, skip (skip pi (length (braced msg))) (length text)) s1 vs1 n1 ->
  loops vs1 (set_current (skip pi (length (braced msg ++ text))) (current pi)) id x s2 vs' n -> loops vs pi id x (s1 ++ s2) vs' (n1 + n).
Proof using Type.
  intros Hg Hr Hm Ht Hk. rewrite skip_current, length_app, <- skip_skip in Hk.
  eapply loops_tag; [done|by rewrite <- app_assoc in Hr|done|exact Ht| |exact Hk].
  rewrite skip_skip, <- length_app. etransitivity; [by apply rest_after|]. rewrite length_app. lia.
Qed.

Lemma good_tail pi k : good pi -> cur_ok t (current pi) ->
  good (skip pi k) /\ cur_ok t (current (skip pi k)) /\ flags (skip pi k) = flags pi /\ max (skip pi k) = max pi /\ current (skip pi k) = current pi.
Proof using Type. intros Hg Hc. rewrite current_skip, flags_skip, max_skip. split_and!; [by apply good_skip|done..]. Qed.

Lemma loops_if vs pi id rr c a els b r x s2 vs' n :
  piece_ok (PIf c a els b) = true -> (nest (PIf c a els b) <= d)%nat -> good pi -> cur_ok t (current pi) ->
  rest pi = print_piece (PIf c a els b) ++ rr ->
  render_piece t (flags pi) (PIf c a els b) (mkenv id (max pi)) (current pi) vs = Some r ->
  loops (r_vars r) (set_current (skip pi (length (print_piece (PIf c a els b)))) (r_cur r)) id x s2 vs' n ->
  loops vs pi id x (r_text r ++ s2) vs' (r_lost r + n).
Proof using Hpatch.
  intros Hok Hn Hg Hc Hr Hres Hk. pose proof Hok as Hok'. cbn [piece_ok nest render_piece print_piece] in *. fold (nests a) (nests b) in Hn.
  fold (print_template a) (print_template b) in Hr, Hk. fold (if_text a els b) in Hr, Hk.
  apply bind_Some in Hres as (y & Hy & Hres). apply bind_Some in Hres as (r1 & Hr1 & [= <-]). cbn [r_text r_vars r_lost r_cur e_id] in *.
  assert (tag_ok (msg_if c) = true) as Hm by (by bprop).
  eapply loops_block; [done|exact Hr|exact Hm| |exact Hk]. destruct (good_tail pi (length (braced (msg_if c))) Hg Hc) as (C0 & C1 & C2 & _ & C4).
  assert (rest (skip pi (length (braced (msg_if c)))) = if_text a els b ++ rr) as Hrest by (eapply rest_skip_app; [by rewrite app_assoc|done]).
  change (do_tag patch ?q (msg_if c) id) with (do_if patch q (drop 3 (msg_if c)) id).
  destruct y; [eapply shows_if_yes|eapply shows_if_no]; rewrite ?C2, ?C4; try done; lia.
Qed.

Lemma loops_path vs pi id rr path x s2 vs' n :
  piece_ok (PPath path) = true -> good pi -> cur_ok t (current pi) -> rest pi = print_piece (PPath path) ++ rr ->
  loops vs (set_current (skip pi (length (print_piece (PPath path)))) (if id =? 0 then look t (current pi) path else current pi)) id x s2 vs' n ->
  loops vs pi id x s2 vs' n.
Proof using Type.
  intros Hok Hg Hc Hr Hk. cbn [piece_ok print_piece] in *.
  destruct (good_tail pi (length (braced (msg_path path))) Hg Hc) as (_ & C1 & _ & _ & C4).
  set (q := if id =? 0 then look t (current pi) path else current pi) in *.
  eapply (loops_tag _ vs pi id rr (set_current (skip pi (length (braced (msg_path path)))) q) [] vs 0); [done|exact Hr|done| | |exact Hk].
  - change (do_tag patch ?p (msg_path path) id) with
      (if id =? 0 then w ← get; r ← lift (xmldb_find_node (base w) (current p) path false); mret (0, set_current p (fst r)) else mret (0, p)).
    unfold q. destruct (id =? 0).
    + apply shows_get. intros w Hw _. eapply shows_first; [apply shows_lift, find_look; done|]. rewrite C4. apply shows_ret.
    + rewrite skip_current. apply shows_ret.
  - change (rest (set_current ?p q)) with (rest p). by apply rest_after.
Qed.

Lemma loops_piece p vs pi id rr a x s2 vs' n :
  piece_ok p = true -> (nest p <= d)%nat -> good pi -> cur_ok t (current pi) -> rest pi = print_piece p ++ rr ->
  render_piece t (flags pi) p (mkenv id (max pi)) (current pi) vs = Some a ->
  loops (r_vars a) (set_current (skip pi (length (print_piece p))) (r_cur a)) id x s2 vs' n ->
  loops vs pi id x (r_text a ++ s2) vs' (r_lost a + n).
Proof using Hpatch.
  intros Hok Hn Hg Hc Hr Hres Hk.
  pose proof (fun k => good_tail pi k Hg Hc) as Hs.
  destruct p as [s|e m|c a0 els b|path b|k o l|path].
  - injection Hres as <-. cbn [r_text r_vars r_lost r_cur print_piece] in *. rewrite skip_current in Hk. by eapply loops_text.
  - cbn [piece_ok render_piece print_piece] in *. apply andb_true_iff in Hok as [Hok Ht]. apply andb_true_iff in Hok as [He Hm].
    apply bind_Some in Hres as (v & Hv & [= <-]). cbn [r_text r_vars r_lost r_cur] in *. eapply loops_one; [done|exact Hr|done| |exact Hk].
    destruct (Hs (length (braced (print_value e m)))) as (_ & C1 & C2 & C3 & C4).
    rewrite plain_tag by (by apply value_head || by apply value_no_at). rewrite <- C2.
    eapply (shows_seq t vs _ _ 0 _ vs 0 _ [] vs 0); [|apply shows_ret|by rewrite app_nil_r|lia].
    apply shows_mapping; [done|done|done|by apply tag_starts|by rewrite C3, C4].
  - by eapply loops_if.
  - pose proof Hok as Hok'. cbn [piece_ok nest print_piece] in *. fold (nests b) in Hn. fold (print_template b) in Hr, Hk. fold (array_text b) in Hr, Hk.
    assert (r_cur a = current pi) as Ecur.
    { cbn [render_piece] in Hres. destruct (array_at t (current pi) path) as [[q l]|]; [apply bind_Some in Hres as (? & _ & [= <-])|injection Hres as <-]; done. }
    rewrite Ecur in Hk. assert (tag_ok (msg_array path) = true) as Hm by (by bprop).
    eapply loops_block; [done|exact Hr|exact Hm| |exact Hk]. destruct (Hs (length (braced (msg_array path)))) as (C0 & C1 & C2 & C3 & C4).
    assert (rest (skip pi (length (braced (msg_array path)))) = array_text b ++ rr) as Hrest by (eapply rest_skip_app; [by rewrite app_assoc|done]).
    change (do_tag patch ?q (msg_array path) id) with (do_array patch q path).
    eapply shows_do_array; [exact Hok'|lia|done|done|exact Hrest|]. rewrite C2, C3, C4. exact Hres.
  - cbn [piece_ok render_piece print_piece] in *. apply andb_true_iff in Hok as [Hok Ht]. apply andb_true_iff in Hok as [Hok Hp].
    apply andb_true_iff in Hok as [Hok Hl]. apply andb_true_iff in Hok as [Hk10 Ho]. apply Nat.ltb_lt in Hk10.
    apply bind_Some in Hres as (i & Hi & Hres). apply bind_Some in Hres as (v & Hv & Hres). apply bind_Some in Hres as (vs1 & Hw & [= <-]).
    cbn [r_text r_vars r_lost r_cur] in *. eapply loops_one; [done|exact Hr|done| |exact Hk].
    change (do_tag patch ?q (msg_var k o l) id) with (ret ← do_variables q (drop 4 (msg_var k o l)) id; mret (ret, q)).
    destruct (Hs (length (braced (msg_var k o l)))) as (_ & _ & _ & C3 & _).
    eapply (shows_seq t vs _ _ 0 [] vs1 0 _ [] vs1 0); [|apply shows_ret|done|done].
    eapply shows_variables; rewrite ?C3; eassumption.
  - injection Hres as <-. by eapply loops_path.
Qed.

Lemma render_piece_cur p fl e cur vs a : cur_ok t cur -> render_piece t fl p e cur vs = Some a -> cur_ok t (r_cur a).
Proof using Type.
  intros Hc. destruct p as [s|x m|c y els b|path b|k o l|path]; cbn [render_piece]; intros H; inv_opt; try done.
  - destruct (array_at t cur path) as [[q l]|]; inv_opt; done.
  - destruct (e_id e =? 0); [by apply look_ok|done].
Qed.

Lemma loops_template ps : forall vs pi id r,
  forallb piece_ok ps = true -> (nests ps <= d)%nat -> good pi -> cur_ok t (current pi) -> rest pi = print_template ps ->
  render t (flags pi) ps (mkenv id (max pi)) (current pi) vs = Some r ->
  loops vs pi id (0, set_current (skip pi (length (print_template ps))) (r_cur r)) (r_text r) (r_vars r) (r_lost r).
Proof using Hpatch.
  induction ps as [|p ps IH]; intros vs pi id r Hok Hn Hg Hc Hr Hres; cbn [forallb print_template flat_map length] in *.
  - injection Hres as <-. cbn [r_text r_vars r_lost r_cur]. rewrite skip_0, set_current_id. by apply loops_end.
  - fold (print_template ps) in *. apply andb_true_iff in Hok as [Hp Hok]. unfold nests in Hn. cbn [foldr] in Hn. fold (nests ps) in Hn.
    unfold render in Hres. cbn [render_list] in Hres. apply bind_Some in Hres as (a & Ha & Hres). apply bind_Some in Hres as (b & Hb & [= <-]).
    cbn [r_text r_vars r_lost r_cur]. eapply loops_piece; [done|lia|done|done|exact Hr|exact Ha|].
    set (pi1 := set_current (skip pi (length (print_piece p))) (r_cur a)).
    assert (set_current (skip pi (length (print_piece p ++ print_template ps))) (r_cur b) = set_current (skip pi1 (length (print_template ps))) (r_cur b)) as ->.
    { rewrite length_app, <- skip_skip. unfold pi1. destruct pi as [f c m [[l0 k0]|] bf sz o al]; done. }
    apply IH; [done|lia| | | |].
    + unfold pi1. intros Hf. by apply (good_skip pi (length (print_piece p)) Hg).
    + by eapply render_piece_cur.
    + change (rest pi1) with (rest (skip pi (length (print_piece p)))). by eapply rest_skip_app.
    + change (flags pi1) with (flags (skip pi (length (print_piece p)))). change (max pi1) with (max (skip pi (length (print_piece p)))).
      rewrite flags_skip, max_skip. exact Hb.
Qed.
End Loop.

(** ** Templates *)

Lemma do_patch_renders t : forall depth ps pi id vs r,
  forallb piece_ok ps = true -> (nests ps < depth)%nat -> good pi -> rest pi = print_template ps -> cur_ok t (current pi) ->
  render t (flags pi) ps (mkenv id (max pi)) (current pi) vs = Some r ->
  shows t vs (do_patch depth pi id) (0, set_current (skip pi (length (print_template ps))) (r_cur r)) (r_text r) (r_vars r) (r_lost r).
Proof.
  induction depth as [|depth IH]; intros ps pi id vs r Hok Hn Hg Hr Hc Hres; [lia|]. cbn [do_patch].
  apply (loops_template t (do_patch depth) depth); [|done|lia|done|done|done|done|lia]. intros. by apply IH.
Qed.

Lemma nest_bound p : (nest p <= length (print_piece p))%nat.
Proof.
  assert (forall l, Forall (fun p => nest p <= length (print_piece p))%nat l -> (nests l <= length (print_template l))%nat) as Hl.
  { induction 1 as [|q l Hq _ IH]; [done|]. unfold nests, print_template in *. cbn [foldr flat_map]. rewrite length_app. lia. }
  induction p as [s|e m|c a els b Ha Hb|path b Hb|k o l|path] using piece_ind'; cbn [nest print_piece]; try lia.
  - apply Hl in Ha, Hb. fold (nests a) (nests b). unfold print_template in *. rewrite !length_app. unfold braced at 1. cbn [app length]. lia.
  - apply Hl in Hb. fold (nests b). unfold print_template in *. rewrite !length_app. unfold braced at 1. cbn [app length]. lia.
Qed.

Lemma nests_bound l : (nests l <= length (print_template l))%nat.
Proof. induction l as [|p l IH]; [done|]. unfold nests, print_template in *. cbn [foldr flat_map]. rewrite length_app. pose proof (nest_bound p). lia. Qed.

(** What has been sent, and what is still in the buffer. *)
Definition output_of (w : world) : list Z := concat (written w) ++ buffer w.

Lemma spill_text s : forall b o, (length b < 1024)%nat ->
  concat (snd (spill b o s)) ++ fst (spill b o s) = concat o ++ b ++ map u8 s /\ (length (fst (spill b o s)) < 1024)%nat.
Proof.
  induction s as [|c s IH]; intros b o Hb; cbn [spill map]; [by rewrite app_nil_r|]. rewrite (proj2 (Nat.ltb_lt _ _) Hb).
  destruct (length (b ++ [u8 c]) =? 1024)%nat eqn:E.
  - destruct (IH [] (o ++ [b ++ [u8 c]]) ltac:(cbn; lia)) as [-> Hl]. split; [|done]. rewrite concat_app. cbn [concat]. rewrite app_nil_r, <- !app_assoc. done.
  - apply Nat.eqb_neq in E. rewrite length_app in E. cbn [length] in E.
    destruct (IH (b ++ [u8 c]) o) as [-> Hl]; [rewrite length_app; cbn [length]; lia|]. split; [|done]. by rewrite <- !app_assoc.
Qed.

(** The state of the world after a request that shows [s]. *)
Definition answered (w : world) (s vs : list Z) (n : Z) (w' : world) : Prop :=
  concat (written w') = output_of w ++ map u8 s ++ [0] /\ buffer w' = [] /\ g_var w' = vs /\
  base w' = mkdb (g_xml_root (base w)) (mkheap [] (live (mem (base w)) + n)) (sent (base w)).

(** The frame of the requests: the variables are cleared, and a NUL and the rest of the buffer are sent at the end. *)
Lemma request_frame {A B} (m : M A) (f : A -> B) (w : world) x s vs n :
  avail (mem (base w)) = [] -> (length (buffer w) < 1024)%nat ->
  shows (g_xml_root (base w)) (replicate 10 0) m x s vs n ->
  exists w', (_ ← no_vars; r ← m; _ ← buffer_putc 0; _ ← buffer_flush; mret (f r) : M B) w = Ret (f x, w') /\ answered w s vs n w'.
Proof.
  intros Ha Hb Hm. set (t := g_xml_root (base w)) in *. set (w0 := set_vars w (replicate 10 0)).
  set (w1 := after (after w0 s vs n) [0] vs 0).
  exists (set_out w1 [] (written w1 ++ [buffer w1])). split.
  - unfold mbind, M_bind, no_vars, modify. fold w0. rewrite (Hm w0 Ha eq_refl eq_refl).
    rewrite (shows_flushed t vs 0 (after w0 s vs n)) by done. done.
  - unfold w1. rewrite after_after, Z.add_0_r. destruct (spill_text (s ++ [0]) (buffer w) (written w) Hb) as [Ht _].
    split_and!; [|done|done|].
    + cbn [set_out written]. rewrite concat_app. cbn [concat]. rewrite app_nil_r.
      change (written (after w0 (s ++ [0]) vs n)) with (snd (spill (buffer w) (written w) (s ++ [0]))).
      change (buffer (after w0 (s ++ [0]) vs n)) with (fst (spill (buffer w) (written w) (s ++ [0]))).
      rewrite Ht, map_app. unfold output_of. by rewrite <- app_assoc.
    + unfold after. cbn. by rewrite Ha.
Qed.

(** The answer to a request for a template file. *)
Lemma template_answered (ps : list piece) (fl : Z) (w : world) (r : shown_by) :
  forallb piece_ok ps = true -> avail (mem (base w)) = [] -> (length (buffer w) < 1024)%nat ->
  render (g_xml_root (base w)) fl ps (mkenv 0 0) (Some []) (replicate 10 0) = Some r ->
  exists w', xmldb_patch_file (Some (print_template ps)) fl w = Ret (0, w') /\ answered w (r_text r) (r_vars r) (r_lost r) w'.
Proof.
  intros Hok Ha Hb Hr. set (pi := set_fh (new_pinfo fl (Some [])) (Some (print_template ps, 0%nat))).
  pose proof (nests_bound ps) as Hn.
  pose proof (do_patch_renders _ (S (length (print_template ps))) ps pi 0 (replicate 10 0) r Hok ltac:(lia) ltac:(done) eq_refl ltac:(by eexists) Hr) as Hp.
  exact (request_frame _ fst w _ _ _ _ Ha Hb Hp).
Qed.

(** C25. A template shows what it says: the file with the text of pieces that can be written is answered with the text that
    [render] gives for them and a NUL, and with nothing else; the tree is not changed; and of the memory that was
    taken nothing stays but the blocks of arrays under paths that do not exist. *)
Theorem patch_renders (ps : list piece) (fl : Z) (w : world) (r : shown_by) :
  forallb piece_ok ps = true -> avail (mem (base w)) = [] -> (length (buffer w) < 1024)%nat ->
  render (g_xml_root (base w)) fl ps (mkenv 0 0) (Some []) (replicate 10 0) = Some r ->
  exists w', xmldb_patch_file (Some (print_template ps)) fl w = Ret (0, w') /\ answered w (r_text r) (r_vars r) (r_lost r) w'.
Proof. exact (template_answered ps fl w r). Qed.

(** A template with everything in it, and a tree. *)
Definition shown_tree : xml_node :=
  mknode (cs "root") 0 None None
    [mknode (cs "wan") 0 None None
       [mknode (cs "mode") 0 (Some (cs "dhcp")) None [];
        mknode (cs "dns") 1 (Some (cs "10.0.0.1")) None []; mknode (cs "dns") 2 (Some (cs "10.0.0.2")) None []];
     mknode (cs "mtu") 0 (Some (cs "1492")) None []].

Definition is_dhcp : condition := mkcond (mkcomp (ENode (cs "wan/mode")) true (cs "dhcp")) [].
Definition second : condition := mkcond (mkcomp (ENode (cs ".")) false (cs "10.0.0.1")) [].

Definition example_template : list piece :=
  [PText (cs "mode={ "); PValue (VNode (cs "wan/mode")) (Some (mkvmap [(cs "pppoe", cs "P"); (cs "dhcp", cs "D")] (Some (cs "?"))));
   PText (cs "} dns="); PVar 3 (ONum 40) [(CAdd, ONum 2)];
   PArray (cs "wan/dns") [PValue VId None; PText (cs ":"); PValue (VNode (cs ".")) None; PIf second [PText (cs "!")] false []; PText (cs " ")];
   PIf is_dhcp [PValue (VCount (cs "wan/dns")) None] true [PText (cs "static")];
   PText (cs " "); PValue (VCalc (SNode (cs "mtu")) [(CSub, OVar 3); (CMul, ONum 2)]) None; PArray (cs "lan/host") [PText (cs "x")]].

Definition example_world : world := mkw (mkdb shown_tree (mkheap [] 12) []) [] [] [].

Lemma patch_renders_witness :
  exists w', xmldb_patch_file (Some (print_template example_template)) 0 example_world = Ret (0, w') /\
    concat (written w') = cs "mode={ D} dns=1:10.0.0.1 2:10.0.0.2! 2 2900" ++ [0] /\ live (mem (base w')) = 13.
Proof.
  destruct (patch_renders example_template 0 example_world
              (mkshown (cs "mode={ D} dns=1:10.0.0.1 2:10.0.0.2! 2 2900") (Some []) [0; 0; 0; 42; 0; 0; 0; 0; 0; 0] 1)) as (w' & E & Hw & _ & _ & Hb).
  - by vm_compute.
  - reflexivity.
  - cbn. lia.
  - by vm_compute.
  - exists w'. split; [exact E|]. split; [exact Hw|]. rewrite Hb. reflexivity.
Defined.

(** ** Templates that go wrong *)

(** What a template shows, and how many more blocks are live. *)
Definition run_file (text : string) : res (list Z * Z) :=
  match xmldb_patch_file (Some (cs text)) 0 example_world with
  | Ret (_, w) => Ret (concat (written w), live (mem (base w)) - 12)
  | UB => UB | Hang => Hang | NoFuel => NoFuel
  end.

Definition run_get (msg : string) : res (list Z) :=
  match xmldb_patch_message None (cs msg) 0 example_world with
  | Ret (_, w) => Ret (concat (written w))
  | UB => UB | Hang => Hang | NoFuel => NoFuel
  end.

(** A comparison of numbers moves the pointer to the copy of the entry and frees the moved pointer. *)
Example number_condition_frees_inside : run_file "{{$if %mtu == 1492}}x{{$fi}}" = UB.
Proof. by vm_compute. Qed.

(** A variable on the right of a comparison is the one on the left. *)
Example operand_is_the_entry :
  run_file "{{$var1=1}}{{$var2=2}}{{$if var1 == var2}}same{{$fi}}" = Ret (cs "same" ++ [0], 0).
Proof. by vm_compute. Qed.

(** White space behind an operand, or a slash in the path of a calculation, and the loop never ends. *)
Example white_space_hangs : run_file "{{$var1=1 + 2 + 3}}" = Hang.
Proof. by vm_compute. Qed.

Example slash_hangs : run_file "{{%wan/mode+1}}" = Hang.
Proof. by vm_compute. Qed.

(** A remainder by zero is not looked for, a division is. *)
Example template_remainder : run_file "{{%mtu%0}}" = UB /\ run_file "{{%mtu/0}}" = Ret (cs "1492" ++ [0], 0).
Proof. by vm_compute. Qed.

(** The block of an array whose parent does not exist stays on the heap. *)
Example missing_array_leaks : run_file "{{$arraystart:lan/host}}x{{$arrayend}}" = Ret ([0], 1).
Proof. by vm_compute. Qed.

(** In a condition the number of elements is 0. *)
Example condition_forgets_max :
  run_file "{{$arraystart:wan/dns}}{{%#+@*1}}{{$if . == 10.0.0.1}}{{%#+@*1}}{{$fi}} {{$arrayend}}" = Ret (cs "31 4 " ++ [0], 0).
Proof. by vm_compute. Qed.

(** The sign for the number of the element at the end of a calculation makes it a count of elements. *)
Example hash_at_the_end : run_file "{{%mtu+#}}" = Ret (cs "0" ++ [0], 0).
Proof. by vm_compute. Qed.

(** An empty tag looks at the character before its message. *)
Example empty_tag : run_file "{{}}" = UB.
Proof. by vm_compute. Qed.

(** A byte 255 ends a block, and what is left of the block is lost. *)
Example byte_255_ends_a_block :
  match xmldb_patch_file (Some (cs "a" ++ [255] ++ cs "{{$if . == 1}}{{$else}}b" ++ [255] ++ cs "c{{$fi}}")) 0 example_world with
  | Ret (_, w) => concat (written w) = cs "a" ++ [255] ++ cs "b" ++ [0]
  | _ => False
  end.
Proof. by vm_compute. Qed.

(** Below the root nothing is counted for a GET request: the path of the root finds no node. *)
Example no_count_at_the_root : run_get "wan#" = Ret (cs "0" ++ [0]) /\ run_get "/wan#" = Ret (cs "0" ++ [0]) /\ run_get "/wan/dns#" = Ret (cs "2" ++ [0]).
Proof. by vm_compute. Qed.

(** A path that begins with var is a variable. *)
Example var_is_no_node : run_get "variable" = Ret (cs "0" ++ [0]) /\ run_get "var" = UB.
Proof. by vm_compute. Qed.

(** The buffer of a request is never freed, and an error of [read] makes it endless. *)
Example request_buffer_leaks :
  match xmldb_patch_buffer 5 (Some (cs "{{x}}")) 0 example_world with Ret (_, w) => live (mem (base w)) = 13 | _ => False end.
Proof. by vm_compute. Qed.

Example read_error_is_a_size : xmldb_patch_buffer 5 None 0 example_world = UB.
Proof. by vm_compute. Qed.

End PatchRender.
