(* ===== verification/PatchMessage.v ===== *)
(** * tools/alpha/xmldb/patch.c: the messages of GET requests.

    A message is a path, perhaps with a map behind a comma.  A message that is no calculation is always
    answered, whatever its map says, and gives back all the memory it takes; for a plain path the answer is
    the value of the node. *)
From Stdlib Require Import ZArith Lia Bool String.
From stdpp Require Import base tactics list option numbers.
From S2P Require Import Prelude Xmldb XmldbFile Patch PatchRun PatchShow PatchTemplate PatchRender.

Module PatchMessage.
Import Xmldb XmldbFile Patch PatchRun PatchShow PatchTemplate PatchRender.

(** ** Any map *)

(** All the strings of a table are there. *)
Definition complete (m : map_sect) : Prop := Forall (fun p => is_Some (fst p) /\ is_Some (snd p)) (pairs m).

Section AnyMap.
Context (t : xml_node) (vs : list Z).

Lemma any_add_map m p o : complete m ->
  exists m', shows t vs (add_map m (Some p) (Some o)) m' [] vs (map_blocks m' - map_blocks m) /\ complete m'.
Proof using Type.
  intros Hm. destruct (decide (num m < MAX_MAP_SECTION)%nat) as [Hn|Hn].
  - exists (entered m (p, o)). split; [by apply shows_add_map|]. unfold entered, complete. cbn [fst snd].
    destruct (eqb_list _ _); cbn [pairs]; [done|]. apply Forall_app. split; [done|]. constructor; [|done]. split; by eexists.
  - exists m. split; [|done]. unfold add_map. rewrite (proj2 (Nat.ltb_nlt _ _) Hn). rewrite Z.sub_diag. apply shows_ret.
Qed.

(** The pattern that has been read when the output is. *)
Definition pattern_ok (st : map_state) (p : option (list Z)) : Prop :=
  match st with OutputState => is_Some p | _ => p = None end.

Lemma any_extract fuel : forall m msg st p, complete m -> pattern_ok st p -> (3 * length msg + state_rank st <= fuel)%nat ->
  exists r m', shows t vs (extract_loop fuel m msg st p) (r, m') [] vs (map_blocks m' - map_blocks m - owned p) /\ complete m'.
Proof using Type.
  assert (forall (r : Z) (m : map_sect) (k : Z), complete m -> exists r' m',
    shows t vs (_ ← m_free k; mret (r, m) : M _) (r', m') [] vs (map_blocks m' - map_blocks m - k) /\ complete m') as Hend.
  { intros r m k Hm. exists r, m. split; [|done]. replace (_ - _ - k) with (- k + 0) by lia.
    eapply (shows_seq t vs _ _ tt [] vs); [apply shows_free|apply shows_ret|done|done]. }
  induction fuel as [|fuel IH]; intros m [|c msg] st p Hm Hp Hf; cbn [extract_loop]; try (by apply Hend); [destruct st; cbn in Hf; lia|].
  set (l := c :: msg) in *. pose proof (eatwhite_length l) as Hw. destruct st; cbn [state_rank pattern_ok] in *.
  - subst p. by apply IH; [done|done|cbn [state_rank]; lia].
  - subst p. destruct (read_string (xmldb_eatwhite l) 58) as [s r] eqn:E. apply read_string_length in E as [E _].
    pose proof (eatwhite_length r) as Hr.
    assert (forall k : option (list Z) -> M (Z * map_sect),
      (exists r' m', shows t vs (k (Some s)) (r', m') [] vs (map_blocks m' - map_blocks m - 1) /\ complete m') ->
      exists r' m', shows t vs (x ← m_strdup s; k x) (r', m') [] vs (map_blocks m' - map_blocks m - owned None) /\ complete m') as Hdup.
    { intros k (r' & m' & Hs & Hc). exists r', m'. split; [|done]. cbn [owned].
      eapply (shows_seq t vs _ _ _ [] vs); [apply shows_strdup|exact Hs|done|lia]. }
    apply Hdup. destruct (xmldb_eatwhite r) as [|d r']; [by apply Hend|]. destruct (Z.eqb_spec d 58) as [->|Hd].
    + apply (IH m r' OutputState (Some s)); [done|by eexists|cbn [length state_rank] in *; lia].
    + repeat (case_match; try (by apply Hend)). by subst.
  - destruct Hp as [q ->]. destruct (read_string (xmldb_eatwhite l) 44) as [s r] eqn:E. apply read_string_length in E as [E _].
    pose proof (eatwhite_length r) as Hr.
    assert (forall k : option (list Z) -> M (Z * map_sect),
      (exists r' m', shows t vs (k (Some s)) (r', m') [] vs (map_blocks m' - map_blocks m - 2) /\ complete m') ->
      exists r' m', shows t vs (x ← m_strdup s; k x) (r', m') [] vs (map_blocks m' - map_blocks m - owned (Some q)) /\ complete m') as Hdup.
    { intros k (r' & m' & Hs & Hc). exists r', m'. split; [|done]. cbn [owned].
      eapply (shows_seq t vs _ _ _ [] vs); [apply shows_strdup|exact Hs|done|lia]. }
    apply Hdup. clear Hdup.
    assert (forall msg', (3 * length msg' + 2 <= fuel)%nat -> exists r' m',
      shows t vs (maps ← add_map m (Some q) (Some s); _ ← m_free (owned (Some q) + owned (Some s)); extract_loop fuel maps msg' SectionStart None : M _)
        (r', m') [] vs (map_blocks m' - map_blocks m - 2) /\ complete m') as Hgo.
    { intros msg' Hl. destruct (any_add_map m q s Hm) as (m1 & Hs1 & Hc1).
      destruct (IH m1 msg' SectionStart None Hc1 eq_refl Hl) as (r' & m' & Hs' & Hc'). exists r', m'. split; [|done].
      eapply (shows_seq t vs _ _ _ [] vs); [exact Hs1| |done|].
      - eapply (shows_seq t vs _ _ _ [] vs); [apply shows_free|exact Hs'|done|reflexivity].
      - cbn [owned]. lia. }
    destruct (xmldb_eatwhite r) as [|d r']; [apply Hgo; cbn [length]; unfold l in *; cbn [length] in *; lia|].
    destruct (Z.eqb_spec d 44) as [->|Hd]; [apply Hgo; cbn [length] in *; lia|].
    repeat (case_match; try (by apply (Hend (-1) m 2))). by subst.
Qed.

Lemma any_find_map v l : Forall (fun p => is_Some (fst p) /\ is_Some (snd p)) l ->
  exists o, find_map v l = Some o /\ match o with Some o => is_Some o | None => True end.
Proof using Type.
  induction 1 as [|[p o] l [[p' Hp] Ho] Hl IH]; cbn [find_map]; [by exists None|]. cbn [fst snd] in *. rewrite Hp. cbn [mbind option_bind].
  destruct (_ =? 0); [by exists (Some o)|done].
Qed.

(** Every map answers, and gives back the memory of its table. *)
Lemma any_map_output v map fl : exists s, shows t vs (map_output v map fl) tt s vs 0.
Proof using Type.
  destruct (any_extract (3 * length map + 3) (mkmaps None []) map SectionStart None) as (r & m & Hx & Hm);
    [by constructor|done|cbn [state_rank]; lia|].
  destruct (any_find_map v (pairs m) Hm) as (o & Ho & Hsome).
  assert (shows t vs (clean_map m) tt [] vs (- map_blocks m)) as Hclean by apply shows_free.
  assert (exists s, shows t vs (match o return M unit with
      | Some o => o ← lift o; _output o fl
      | None => _output (default v (default_output m)) fl
      end) tt s vs 0) as [s Hs].
  { destruct o as [o|]; [|by eexists; apply shows_output]. destruct Hsome as [x ->]. eexists. eapply shows_first; [by apply shows_lift|]. apply shows_output. }
  exists s. unfold map_output, extract_maps. eapply (shows_seq t vs _ _ _ [] vs); [exact Hx| |done|].
  - eapply (shows_seq t vs _ _ _ [] vs); [by apply shows_lift| |done|reflexivity].
    eapply (shows_seq t vs _ _ tt s vs); [exact Hs|exact Hclean|by rewrite app_nil_r|reflexivity].
  - change (map_blocks (mkmaps None [])) with 0. cbn [owned]. lia.
Qed.
End AnyMap.

(** ** Messages *)

(** The path of a message, without the white space around it. *)
Definition message_path (msg : list Z) : list Z := xmldb_reatwhite (fst (split_comma (xmldb_eatwhite msg))).

(** A message that is no calculation: a count, a variable that exists, or a path; an empty path is told from
    the character before it, which must be there. *)
Definition message_ok (msg : list Z) : bool :=
  let path := message_path msg in
  match list.last path with
  | None => negb (length (xmldb_eatwhite msg) =? length msg)%nat
  | Some c => (c =? 35) || (negb (deref path =? 37) && (negb (has_prefix str_var path) || (48 <=? schar (deref (drop 3 path)))))
  end.

Section Messages.
Context (t : xml_node) (vs : list Z).

Lemma any_var_at c : length vs = 10%nat -> 48 <= schar c -> exists v, shows t vs (var_at c) v [] vs 0.
Proof using Type.
  intros Hl Hc. destruct (rd vs (var_index c)) as [v|] eqn:E.
  - exists v. unfold var_at. apply shows_get. intros w _ ->. by apply shows_lift.
  - exfalso. unfold rd, var_index in E. pose proof (Z.rem_bound_pos (schar c - 48) 10 ltac:(lia) ltac:(lia)) as Hb.
    rewrite (proj2 (Z.leb_le _ _)) in E by lia. apply lookup_ge_None_1 in E. lia.
Qed.

Lemma any_mapped_value pi msg id : cur_ok t (current pi) -> length vs = 10%nat -> message_ok msg = true ->
  exists v, shows t vs (mapped_value pi (negb (length (xmldb_eatwhite msg) =? length msg)%nat) (message_path msg) id) v [] vs 0.
Proof using Type.
  intros Hc Hl Hm. unfold message_ok in Hm. set (path := message_path msg) in *. unfold mapped_value.
  destruct (_ =? 0); [eexists; apply shows_ret|]. destruct (list.last path) as [c|] eqn:El.
  - destruct (Z.eqb_spec c 35) as [->|Hne].
    + eexists. eapply shows_first; [apply shows_ret|]. cbn beta iota. change (35 =? 35) with true. cbn iota.
      eapply shows_first; [by apply shows_array_count|]. apply shows_ret.
    + cbn [orb] in Hm. apply andb_true_iff in Hm as [Hp Hv]. apply negb_true_iff in Hp.
      destruct (has_prefix str_var path) eqn:Ev.
      * cbn [negb orb] in Hv. apply Z.leb_le in Hv. destruct (any_var_at _ Hl Hv) as (v & Hs). eexists.
        eapply shows_first; [apply shows_ret|]. rewrite (proj2 (Z.eqb_neq _ _) Hne), Hp. eapply shows_first; [exact Hs|]. apply shows_ret.
      * eexists. eapply shows_first; [apply shows_ret|]. rewrite (proj2 (Z.eqb_neq _ _) Hne), Hp. by apply shows_get_value.
  - rewrite Hm. eexists. eapply shows_first; [apply shows_ret|]. change (32 =? 35) with false. cbn iota.
    apply last_None in El. rewrite El. change (deref [] =? 37) with false. change (has_prefix str_var []) with false. cbn iota.
    by apply shows_get_value.
Qed.

(** Every such message is answered, and the memory is as before. *)
Lemma any_mapping pi msg id : cur_ok t (current pi) -> length vs = 10%nat -> message_ok msg = true ->
  exists s, shows t vs (do_mapping pi msg id) 0 s vs 0.
Proof using Type.
  intros Hc Hl Hm. destruct (any_mapped_value pi msg id Hc Hl Hm) as (v & Hv). unfold do_mapping.
  unfold message_path in Hv. destruct (split_comma (xmldb_eatwhite msg)) as [path map] eqn:Es. cbn [fst] in Hv.
  assert (exists s, shows t vs (match map return M unit with
      | Some (c :: map) => map_output v (c :: map) (flags pi)
      | _ => _output v (flags pi)
      end) tt s vs 0) as [s Hs].
  { destruct map as [[|c map]|]; [by eexists; apply shows_output|apply any_map_output|by eexists; apply shows_output]. }
  exists s. eapply shows_first; [apply shows_strdup|]. cbn beta iota zeta. rewrite Es. eapply shows_first; [exact Hv|].
  eapply (shows_seq t vs _ _ tt s vs 0 _ [] vs (-1)); [exact Hs| |by rewrite app_nil_r|lia].
  eapply shows_first; [apply shows_free|]. apply shows_ret.
Qed.
End Messages.

(** What a GET request answers with. *)
Lemma message_answered msg fl w :
  avail (mem (base w)) = [] -> (length (buffer w) < 1024)%nat -> message_ok msg = true ->
  exists s w', xmldb_patch_message None msg fl w = Ret (0, w') /\ answered w s (replicate 10 0) 0 w'.
Proof.
  intros Ha Hb Hm. destruct (any_mapping (g_xml_root (base w)) (replicate 10 0) (new_pinfo fl None) msg 0 I eq_refl Hm) as (s & Hs).
  exists s. exact (request_frame _ (fun r => r) w _ _ _ _ Ha Hb Hs).
Qed.

(** For the path of a node it is the value. *)
Lemma path_answered path fl w :
  avail (mem (base w)) = [] -> (length (buffer w) < 1024)%nat -> vexp_ok (VNode path) = true ->
  exists w', xmldb_patch_message None path fl w = Ret (0, w') /\
    answered w (shown fl (value_at (g_xml_root (base w)) None path)) (replicate 10 0) 0 w'.
Proof.
  intros Ha Hb Hp.
  assert (print_value (VNode path) None = path) as Ep by apply app_nil_r.
  assert (IS_WHITE (deref (print_value (VNode path) None)) = false) as Hw.
  { rewrite Ep. cbn [vexp_ok] in Hp. destruct path as [|c path]; [done|]. cbn [deref hd]. unfold plain_path in Hp.
    cbn [forallb] in Hp. unfold path_char in Hp. by bprop. }
  pose proof (shows_mapping (g_xml_root (base w)) (replicate 10 0) (new_pinfo fl None) (VNode path) None 0 _ I Hp eq_refl Hw eq_refl) as Hs.
  rewrite Ep in Hs. exact (request_frame _ (fun r => r) w _ _ _ _ Ha Hb Hs).
Qed.

End PatchMessage.
