(* ===== verification/XmldbServer.v ===== *)
(** * tools/alpha/xmldb/main.c: the server of the configuration database.

    Clients connect to a local socket and send requests of two parts: a header [rgdb_ipc_t], and
    then a string.  A table of 128 clients holds the descriptor and the header of each; what the
    system answers to [select], [accept] and [read] is the input of the model.  A header is read
    whole.  Requests run the engines of patch.c and ephp.c on the same database.  [None] is undefined
    behaviour, or an engine that does not come back. *)
From Stdlib Require Import ZArith Lia Bool String.
From stdpp Require Import base tactics list option numbers.
From S2P Require Import Prelude Xmldb XmldbFile Ephp EphpRun Patch PatchShow PatchRender PatchMessage.

Module XmldbServer.
Import Xmldb XmldbFile.

Definition MAX_CLIENT_LIST : nat := 128.
Definition MAX_PATCH_BUFFER : Z := 1024.

Definition RGDB_NONE : Z := 0.
Definition RGDB_GET : Z := 1.
Definition RGDB_SET : Z := 2.
Definition RGDB_DEL : Z := 3.
Definition RGDB_RELOAD : Z := 4.
Definition RGDB_DUMP : Z := 5.
Definition RGDB_PATCH : Z := 6.
Definition RGDB_PATCH_BUFF : Z := 7.
Definition RGDB_SET_NOTIFY : Z := 8.
Definition RGDB_EPHP : Z := 10.

Record rgdb_ipc_t := mkipc { action : Z; len : Z; flags : Z; retcode : Z }.
Record xmldb_client := mkclient { fd : Z; ipc : rgdb_ipc_t }.

(** What is written to a descriptor: a header, or bytes. *)
Inductive output := Ack (h : rgdb_ipc_t) | Bytes (bs : list Z).

(** The state of the process: the table, the database with the static variables of ephp.c, the files, the open
    descriptors, what was written.  Between requests the buffer of patch.c is empty, and its variables
    are cleared by each request. *)
Record server := mksrv {
  clients : list xmldb_client;
  eng : Ephp.world;
  files : list (list Z * list Z);
  opened : list Z;
  out : list (Z * output)
}.

Definition base (s : server) : db := Ephp.base (eng s).
Definition set_clients (s : server) (l : list xmldb_client) := mksrv l (eng s) (files s) (opened s) (out s).
Definition set_eng (s : server) (w : Ephp.world) := mksrv (clients s) w (files s) (opened s) (out s).
Definition set_base (s : server) (d : db) := set_eng s (Ephp.set_base (eng s) d).
Definition set_files (s : server) (f : list (list Z * list Z)) := mksrv (clients s) (eng s) f (opened s) (out s).
Definition set_opened (s : server) (l : list Z) := mksrv (clients s) (eng s) (files s) l (out s).
Definition emit (s : server) (f : Z) (o : output) := mksrv (clients s) (eng s) (files s) (opened s) (out s ++ [(f, o)]).

Definition set_action (h : rgdb_ipc_t) (a : Z) := mkipc a (len h) (flags h) (retcode h).

(** ** The table of clients *)

Definition no_client : xmldb_client := mkclient (-1) (mkipc RGDB_NONE 0 0 0).

(** A slot given back; flags and return code keep their values. *)
Definition clear_client (c : xmldb_client) : xmldb_client :=
  mkclient (-1) (mkipc RGDB_NONE 0 (flags (ipc c)) (retcode (ipc c))).

Definition init_clients (l : list xmldb_client) : list xmldb_client := map clear_client l.

Fixpoint add_loop (l : list xmldb_client) (s : Z) : option (list xmldb_client) :=
  match l with
  | [] => None
  | c :: tl => if fd c <? 0 then Some (mkclient s (ipc c) :: tl) else l' ← add_loop tl s; Some (c :: l')
  end.

(** [add_client]: the result and the table. *)
Definition add_client (l : list xmldb_client) (s : Z) : Z * list xmldb_client :=
  match add_loop l s with Some l' => (0, l') | None => (-1, l) end.

Fixpoint remove_client (l : list xmldb_client) (s : Z) : list xmldb_client :=
  match l with
  | [] => []
  | c :: tl => if fd c =? s then clear_client c :: tl else c :: remove_client tl s
  end.

(** [set_fd]: the descriptors waited for, and the largest one. *)
Definition set_fd (l : list xmldb_client) : list Z := filter (fun f => 2 < f) (map fd l).
Definition max_fd (l : list xmldb_client) : Z := foldl Z.max 0 (set_fd l).

(** [close(fd)] *)
Definition close_fd (f : Z) (l : list Z) : list Z := filter (fun x => x <> f) l.

Definition close_client (s : server) (f : Z) : server := set_opened (set_clients s (remove_client (clients s) f)) (close_fd f (opened s)).

Definition close_clients (s : server) : server :=
  set_opened (set_clients s (map (fun c => if 0 <? fd c then clear_client c else c) (clients s)))
             (foldl (fun o c => if 0 <? fd c then close_fd (fd c) o else o) (opened s) (clients s)).

(** ** Requests *)

(** The answers of [read] for one client: to a read of the header ([None]: end of file or an error), and
    to a read of the parameter ([None]: an error), which delivers no more bytes than are asked for. *)
Record reading := mkread { hdr : option rgdb_ipc_t; data : option (list Z) }.

(** The system around the server: which files can be written, the translation of log messages, and how deep the
    statements of a program may be nested. *)
Class System := {
  can_write : list Z -> bool;
  tlogs_used : bool;
  tlogs_file : list Z -> option (list Z);
  depth : nat
}.

Section Server.
Context `{System}.

Definition client_of (s : server) (i : nat) : xmldb_client := default no_client (clients s !! i).

Definition set_ipc (s : server) (i : nat) (h : rgdb_ipc_t) : server :=
  set_clients s (alter (fun c => mkclient (fd c) h) i (clients s)).

(** The string in the buffer; [None]: it has no end in what was read. *)
Definition param_string (bs : list Z) : option (list Z) := if existsb (Z.eqb 0) bs then Some (cstr bs) else None.

Definition str_tolower (s : list Z) : list Z := map tolower s.

Definition set_mem (s : server) (h : heap) : server := set_base s (set_root (base s) (g_xml_root (base s)) h).

(** The frame of the requests: the buffer, the parameter, the work on its string, the buffer freed. *)
Definition with_param (s : server) (i : nat) (r : reading) (work : server -> list Z -> option server) : option (server * Z) :=
  let '(ok, h) := malloc (mem (base s)) in
  let s := set_mem s h in
  if negb ok then Some (s, 0)
  else
    match data r with
    | None => Some (set_mem s (free (mem (base s)) 1), -1)
    | Some bs =>
        match bs with
        | [] => Some (set_mem s (free (mem (base s)) 1), 0)
        | _ =>
            str ← param_string bs;
            s ← work s str;
            Some (set_mem s (free (mem (base s)) 1), zlen bs)
        end
    end.

Definition strchr_space (str : list Z) : list Z * option (list Z) :=
  (fix go (l : list Z) := match l with
   | [] => ([], None)
   | c :: tl => if c =? 32 then ([], Some tl) else let '(w, r) := go tl in (c :: w, r)
   end) str.

(** The answer: the header with the action, no length and the result. *)
Definition acknowledge (s : server) (i : nat) (a ret : Z) : server :=
  let c := client_of s i in
  let h := mkipc a 0 (flags (ipc c)) ret in
  emit (set_ipc s i h) (fd c) (Ack h).

Fixpoint file_of (l : list (list Z * list Z)) (nm : list Z) : option (list Z) :=
  match l with
  | [] => None
  | (n, t) :: tl => if eqb_list n nm then Some t else file_of tl nm
  end.

(** A request of patch.c for the descriptor [f]: its result, and what it writes. *)
Definition run_patch {A} (s : server) (f : Z) (m : Patch.M A) : option (A * server) :=
  match m (Patch.mkw (base s) [] [] []) with
  | Patch.Ret (x, w) => Some (x, emit (set_base s (Patch.base w)) f (Bytes (concat (Patch.written w))))
  | _ => None
  end.

(** A request of ephp.c, whose static variables stay for the next one. *)
Definition run_ephp (s : server) (f : Z) (message : list Z) : option server :=
  let files := EphpRun.Build_Files (file_of (files s)) tlogs_used tlogs_file in
  match EphpRun.xmldb_ephp (H := files) depth message (eng s) with
  | Ephp.Ret (_, w) => Some (emit (set_eng s (Ephp.set_out w (Ephp.buffer w) [])) f (Bytes (concat (Ephp.written w))))
  | _ => None
  end.

Definition do_get (s : server) (i : nat) (r : reading) : option (server * Z) :=
  with_param s i r (fun s str =>
    let c := client_of s i in snd <$> run_patch s (fd c) (Patch.xmldb_patch_message None (str_tolower str) (flags (ipc c)))).

Definition do_patch (s : server) (i : nat) (r : reading) : option (server * Z) :=
  with_param s i r (fun s str =>
    let c := client_of s i in snd <$> run_patch s (fd c) (Patch.xmldb_patch_file (file_of (files s) str) (flags (ipc c)))).

Definition do_ephp (s : server) (i : nat) (r : reading) : option (server * Z) :=
  with_param s i r (fun s str => run_ephp s (fd (client_of s i)) str).

Definition do_patch_buffer (s : server) (i : nat) (r : reading) : option (server * Z) :=
  let c := client_of s i in
  if len (ipc c) <? MAX_PATCH_BUFFER then
    res ← run_patch s (fd c) (Patch.xmldb_patch_buffer (Z.to_nat (len (ipc c))) (data r) (flags (ipc c)));
    let '(size, s) := res in Some (s, size)
  else Some (emit s (fd c) (Bytes [0]), 0).

Definition do_set (s : server) (i : nat) (r : reading) : option (server * Z) :=
  with_param s i r (fun s str =>
    s ← match strchr_space str with
        | (path, Some v) => res ← xmldb_set_value (base s) None (str_tolower path) v; Some (set_base s (snd res))
        | (_, None) => Some s
        end;
    Some (acknowledge s i RGDB_NONE 0)).

Definition do_set_notify (s : server) (i : nat) (r : reading) : option (server * Z) :=
  with_param s i r (fun s str =>
    s ← match strchr_space str with
        | (path, Some v) => res ← xmldb_set_notify (base s) None (str_tolower path) v; Some (set_base s (snd res))
        | (_, None) => Some s
        end;
    Some (acknowledge s i RGDB_SET_NOTIFY 0)).

Definition do_del (s : server) (i : nat) (r : reading) : option (server * Z) :=
  with_param s i r (fun s str =>
    let path := str_tolower str in
    res ← xmldb_del_node (base s) None path;
    let w := EphpRun.shift_ptrs (EphpRun.deleted (base s) None path) (Ephp.set_base (eng s) (snd res)) in
    Some (acknowledge (set_eng s w) i RGDB_NONE 0)).

(** A new tree: a pointer below the root leads to a node that has been freed, or to one that nothing else leads
    to any more; its use is undefined here. *)
Definition forget (a : Ephp.nptr) : Ephp.nptr := match a with Ephp.Node (_ :: _) => Ephp.Freed | _ => a end.
Definition forget_nodes (w : Ephp.world) : Ephp.world := Ephp.set_ptrs w (forget (Ephp.g_anchor w)) (map forget (Ephp.held w)).

Definition do_reload (s : server) (i : nat) (r : reading) : option (server * Z) :=
  with_param s i r (fun s str =>
    res ← xmldb_read_xml (base s) (name (g_xml_root (base s))) (file_of (files s) str) (flags (ipc (client_of s i)));
    let '(ret, d) := res in Some (acknowledge (set_eng s (forget_nodes (Ephp.set_base (eng s) d))) i RGDB_NONE ret)).

Definition str_stdout : list Z := Eval cbv in cs "stdout".

Definition do_dump (s : server) (i : nat) (r : reading) : option (server * Z) :=
  with_param s i r (fun s str =>
    let text := xmldb_dump_nodes [g_xml_root (base s)] 0 (flags (ipc (client_of s i))) in
    let s :=
      if strcmp str str_stdout =? 0 then emit s 1 (Bytes text)
      else if can_write str then set_files s ((str, text) :: files s)
      else s in
    Some (acknowledge s i RGDB_NONE 0)).

(** [rhandler]: the size that was read, which decides on the life of the client. *)
Definition rhandler (s : server) (i : nat) (r : reading) : option (server * Z) :=
  let c := client_of s i in
  let a := action (ipc c) in
  if a =? RGDB_NONE then
    match hdr r with
    | Some h => Some (set_ipc s i h, 12)
    | None => Some (s, 0)
    end
  else
    res ←
      (if a =? RGDB_GET then do_get s i r
       else if a =? RGDB_SET then do_set s i r
       else if a =? RGDB_SET_NOTIFY then do_set_notify s i r
       else if a =? RGDB_DEL then do_del s i r
       else if a =? RGDB_RELOAD then do_reload s i r
       else if a =? RGDB_DUMP then do_dump s i r
       else if a =? RGDB_PATCH then do_patch s i r
       else if a =? RGDB_EPHP then do_ephp s i r
       else if a =? RGDB_PATCH_BUFF then do_patch_buffer s i r
       else Some (s, 0));
    let '(s, size) := res in
    Some (set_ipc s i (set_action (ipc (client_of s i)) RGDB_NONE), size).

(** ** The loop *)

(** What the system answers in one turn: whether [select] failed; whether a connection is waiting and what
    [accept] returned ([None]: an error); the descriptors found readable and what is read from them;
    whether a signal has asked for the end. *)
Record turn := mkturn {
  failed : bool; incoming : option (option Z); ready : list Z; reads : Z -> reading; stopped : bool
}.

(** [dispatch_fd] from slot [i] on, for [n] slots; a descriptor that has been served is taken out of the set. *)
Fixpoint dispatch_loop (n i : nat) (s : server) (set : list Z) (reads : Z -> reading) : option server :=
  match n with
  | O => Some s
  | S n' =>
      let f := fd (client_of s i) in
      if (2 <? f) && existsb (Z.eqb f) set then
        res ← rhandler s i (reads f);
        let '(s, ret) := res in
        dispatch_loop n' (S i) (if ret <=? 0 then close_client s f else s) (close_fd f set) reads
      else dispatch_loop n' (S i) s set reads
  end.

Definition dispatch_fd (s : server) (t : turn) : option server := dispatch_loop MAX_CLIENT_LIST 0 s (ready t) (reads t).

(** A connection is entered in the table, or not when the table is full; nobody looks at the result. *)
Definition accept_client (s : server) (f : Z) : server :=
  set_clients (set_opened s (f :: opened s)) (snd (add_client (clients s) f)).

(** One turn: the state and whether the loop goes on. *)
Definition main_turn (s : server) (t : turn) : option (server * bool) :=
  if failed t then Some (s, negb (stopped t))
  else
    match incoming t with
    | Some None => Some (s, false)
    | Some (Some f) => s ← dispatch_fd (accept_client s f) t; Some (s, negb (stopped t))
    | None => s ← dispatch_fd s t; Some (s, negb (stopped t))
    end.

(** The loop of [main]; the flag tells that the server has ended. *)
Fixpoint main_loop (s : server) (ts : list turn) : option (server * bool) :=
  match ts with
  | [] => Some (s, false)
  | t :: tl =>
      r ← main_turn s t;
      let '(s, go) := r in
      if (go : bool) then main_loop s tl else Some (close_clients s, true)
  end.

(** The state in which [main] enters the loop. *)
Definition started (d : db) (files : list (list Z * list Z)) : server :=
  mksrv (init_clients (repeat no_client MAX_CLIENT_LIST)) (Ephp.mkw d [] [] [] Ephp.Null [] None 0 0) files [] [].

End Server.

(** ** The table *)

(** The descriptors of the clients. *)
Definition used (l : list xmldb_client) : list Z := filter (fun f => 0 < f) (map fd l).

(** The requests that work on paths: no file is loaded, no template or program is run. *)
Definition calm (a : Z) : Prop := a <> RGDB_RELOAD /\ a <> RGDB_EPHP /\ a <> RGDB_PATCH /\ a <> RGDB_PATCH_BUFF.
Definition calm_table (l : list xmldb_client) : Prop := Forall (fun c => calm (action (ipc c))) l.
Definition fds_ok (l : list xmldb_client) : Prop := Forall (fun c => fd c = -1 \/ 2 < fd c) l.

Lemma used_cons c l : used (c :: l) = if decide (0 < fd c) then fd c :: used l else used l.
Proof. unfold used. cbn [map]. by rewrite filter_cons. Qed.

Lemma used_ext l l' : map fd l' = map fd l -> used l' = used l.
Proof. intros E. unfold used. by rewrite E. Qed.

Lemma fds_ok_ext l l' : map fd l' = map fd l -> fds_ok l -> fds_ok l'.
Proof.
  intros E. unfold fds_ok. revert l' E. induction l as [|c l IH]; intros [|c' l'] E; cbn in E; try done.
  injection E as E1 E2. intros [H1 H2]%Forall_cons_iff. constructor; [by rewrite E1|by apply IH].
Qed.

Lemma length_used l : (length (used l) <= length l)%nat.
Proof. unfold used. pose proof (length_filter (fun f => 0 < f) (map fd l)). by rewrite length_map in H. Qed.

Lemma add_client_spec l f :
  fds_ok l -> (length (used l) < length l)%nat -> 2 < f ->
  let '(r, l') := add_client l f in
  r = 0 /\ length l' = length l /\ used l' ≡ₚ f :: used l /\ fds_ok l' /\ (calm_table l -> calm_table l').
Proof.
  intros Hok Hl Hf. unfold add_client.
  assert (exists l', add_loop l f = Some l' /\ length l' = length l /\ used l' ≡ₚ f :: used l /\ fds_ok l' /\ (calm_table l -> calm_table l'))
    as (l' & -> & Hl'); [|done].
  induction l as [|c l IH]; cbn [length] in Hl; [lia|]. apply Forall_cons_iff in Hok as [Hc Hok]. cbn [add_loop].
  rewrite used_cons in *. destruct (Z.ltb_spec (fd c) 0) as [Hn|Hn].
  - eexists. split; [done|]. rewrite used_cons. cbn [fd]. rewrite decide_True, decide_False by lia. split_and!; [done|done| |].
    + constructor; [by right|done].
    + intros [H1 H2]%Forall_cons_iff. by constructor.
  - assert (2 < fd c) by lia. rewrite decide_True in * by lia. cbn [length] in Hl.
    destruct (IH Hok) as (l' & -> & H1 & H2 & H3 & H4); [lia|]. cbn [mbind option_bind]. eexists. split; [done|].
    rewrite used_cons, decide_True by lia. split_and!; [cbn; lia| | |].
    + rewrite H2. apply Permutation_swap.
    + constructor; [by right|done].
    + intros [H5 H6]%Forall_cons_iff. constructor; [done|by apply H4].
Qed.

Lemma remove_client_spec l f :
  f ∈ used l ->
  length (remove_client l f) = length l /\ f :: used (remove_client l f) ≡ₚ used l /\
  (fds_ok l -> fds_ok (remove_client l f)) /\ (calm_table l -> calm_table (remove_client l f)).
Proof.
  induction l as [|c l IH]; intros Hin; [by apply not_elem_of_nil in Hin|]. cbn [remove_client]. rewrite used_cons in Hin.
  destruct (Z.eqb_spec (fd c) f) as [E|E].
  - rewrite !used_cons. cbn [clear_client fd]. rewrite (decide_False (P := 0 < -1)) by lia.
    destruct (decide (0 < fd c)) as [Hp|Hp].
    + rewrite E. split_and!; [done|done| |]; intros [H1 H2]%Forall_cons_iff; (constructor; [|done]); [by left|done].
    + exfalso. unfold used in Hin. apply list_elem_of_filter in Hin as [Hf _]. lia.
  - assert (f ∈ used l) as Hin' by (destruct (decide (0 < fd c)); [apply elem_of_cons in Hin as [?|?]; [congruence|done]|done]).
    destruct (IH Hin') as (H1 & H2 & H3 & H4). rewrite !used_cons. split_and!.
    + cbn. lia.
    + destruct (decide (0 < fd c)); [|done]. rewrite <- H2. apply Permutation_swap.
    + intros [? ?]%Forall_cons_iff. constructor; [done|by apply H3].
    + intros [? ?]%Forall_cons_iff. constructor; [done|by apply H4].
Qed.

Lemma used_elem l i c : l !! i = Some c -> 0 < fd c -> fd c ∈ used l.
Proof.
  intros Hi Hc. unfold used. apply list_elem_of_filter. split; [done|]. apply list_elem_of_In, in_map, list_elem_of_In.
  by eapply list_elem_of_lookup_2.
Qed.

Lemma used_unique l : forall i j c c',
  NoDup (used l) -> l !! i = Some c -> l !! j = Some c' -> fd c = fd c' -> 0 < fd c -> i = j.
Proof.
  induction l as [|x l IH]; intros i j c c' Hnd Hi Hj E Hc; [done|]. rewrite used_cons in Hnd.
  destruct i as [|i], j as [|j]; [done| | |]; cbn in Hi, Hj.
  - injection Hi as ->. rewrite decide_True in Hnd by done. apply list.NoDup_cons in Hnd as [Hn _]. destruct Hn.
    rewrite E. eapply used_elem; [done|lia].
  - injection Hj as ->. rewrite decide_True in Hnd by lia. apply list.NoDup_cons in Hnd as [Hn _]. destruct Hn.
    rewrite <- E. by eapply used_elem.
  - f_equal. eapply IH; [|done..]. destruct (decide _); [by apply list.NoDup_cons in Hnd as [_ ?]|done].
Qed.

Lemma remove_client_other l f i j c :
  NoDup (used l) -> l !! i = Some c -> fd c = f -> 0 < f -> j <> i -> remove_client l f !! j = l !! j.
Proof.
  revert i j. induction l as [|x l IH]; intros i j Hnd Hi Hf Hp Hj; [done|]. cbn [remove_client].
  destruct (Z.eqb_spec (fd x) f) as [E|E].
  - assert (i = 0%nat) as -> by (apply (used_unique (x :: l) i 0 c x Hnd Hi eq_refl); lia). by destruct j.
  - destruct i as [|i]; [cbn in Hi; congruence|]. destruct j as [|j]; [done|]. cbn [lookup list_lookup] in *. apply (IH i); try done; [|congruence].
    rewrite used_cons in Hnd. destruct (decide _); [by apply list.NoDup_cons in Hnd as [_ ?]|done].
Qed.

(** ** What a request keeps *)

(** A request of the client [i] touches no other slot, opens and closes nothing, and leaves a sound database
    with the memory accounted for. *)
Definition keeps (i : nat) (s s' : server) : Prop :=
  map fd (clients s') = map fd (clients s) /\ (forall j, j <> i -> clients s' !! j = clients s !! j) /\ opened s' = opened s /\
  (calm_table (clients s) -> calm_table (clients s')) /\ db_ok True (base s) (base s').

Lemma srv_keeps_trans i s1 s2 s3 : keeps i s1 s2 -> keeps i s2 s3 -> keeps i s1 s3.
Proof.
  intros (A1 & A2 & A3 & A4 & A5) (B1 & B2 & B3 & B4 & B5). split_and!; [congruence| |congruence|auto|].
  - intros j Hj. by rewrite B2, A2.
  - eapply db_ok_weaken; [|exact (db_ok_trans _ _ _ _ _ A5 B5)]. done.
Qed.

Lemma keeps_base i s d : db_ok True (base s) d -> keeps i s (set_base s d).
Proof. intros Hd. by split_and!. Qed.

Lemma keeps_same i s s' :
  clients s' = clients s -> opened s' = opened s -> base s' = base s -> wf (g_xml_root (base s)) -> keeps i s s'.
Proof. intros E1 E2 E3 Hw. unfold keeps. rewrite E1, E2, E3. split_and!; [done|done|done|done|by apply db_ok_refl]. Qed.

Lemma srv_keeps_refl i s : wf (g_xml_root (base s)) -> keeps i s s.
Proof. by apply keeps_same. Qed.

Lemma map_fd_set_ipc s i h : map fd (clients (set_ipc s i h)) = map fd (clients s).
Proof.
  cbn [set_ipc set_clients clients]. change (map fd) with (fmap (M := list) fd). destruct (clients s !! i) as [c|] eqn:E.
  - rewrite (alter_at _ _ _ _ E), list_fmap_insert. apply list_insert_id. by rewrite list_lookup_fmap, E.
  - by rewrite alter_out.
Qed.

Lemma keeps_set_ipc s i h : calm (action h) -> wf (g_xml_root (base s)) -> keeps i s (set_ipc s i h).
Proof.
  intros Hh Hw. split; [apply map_fd_set_ipc|]. split; [|split; [done|split; [|by apply db_ok_refl]]].
  - intros j Hj. cbn [set_ipc set_clients clients]. by rewrite list_lookup_alter_ne.
  - intros Hc. cbn [set_ipc set_clients clients]. destruct (clients s !! i) as [c|] eqn:E.
    + rewrite (alter_at _ _ _ _ E). by apply Forall_insert.
    + by rewrite alter_out.
Qed.

Lemma keeps_acknowledge s i a ret : calm a -> wf (g_xml_root (base s)) -> keeps i s (acknowledge s i a ret).
Proof.
  intros Ha Hw. eapply srv_keeps_trans; [apply (keeps_set_ipc s i); [|done]|by apply keeps_same]. done.
Qed.

(** The part of the state the requests rely on. *)
Definition sane (s : server) : Prop := wf (g_xml_root (base s)) /\ avail (mem (base s)) = [].

Lemma keeps_sane i s s' : keeps i s s' -> sane s -> sane s'.
Proof. intros (_ & _ & _ & _ & Hw & [_ Ha] & _) [_ Hs]. split; [done|auto]. Qed.

Lemma tolower_twice c : tolower (tolower c) = tolower c.
Proof.
  unfold tolower. destruct ((65 <=? c) && (c <=? 90)) eqn:E; [|by rewrite E]. bprop.
  rewrite (proj2 (andb_false_iff _ _)); [done|]. right. apply Z.leb_gt. lia.
Qed.

Lemma str_tolower_twice s : map tolower (str_tolower s) = str_tolower s.
Proof. unfold str_tolower. rewrite map_map. apply map_ext. apply tolower_twice. Qed.

(** ** The requests *)

(** Data that the server can take for a request: the string has its end in what is read, no number in a path
    that is set is the largest [int], and a value that is asked for is no calculation. *)
Definition data_ok (a : Z) (bs : list Z) : Prop :=
  existsb (Z.eqb 0) bs = true /\
  (a = RGDB_SET \/ a = RGDB_SET_NOTIFY -> nums_ok (str_tolower (fst (strchr_space (cstr bs))))) /\
  (a = RGDB_GET -> PatchMessage.message_ok (str_tolower (cstr bs)) = true).

Definition reading_ok (a : Z) (r : reading) : Prop :=
  match hdr r with Some h => calm (action h) | None => True end /\
  match data r with Some bs => bs = [] \/ data_ok a bs | None => True end.

Lemma calm_none : calm RGDB_NONE.
Proof. done. Qed.

Lemma calm_notify : calm RGDB_SET_NOTIFY.
Proof. done. Qed.

Section Requests.
Context `{System}.

Lemma root_set_mem s h : g_xml_root (base (set_mem s h)) = g_xml_root (base s).
Proof using Type. done. Qed.

(** The frame: what the work keeps, the request keeps, the buffer included. *)
Lemma with_param_keeps a s i r work :
  sane s -> reading_ok a r ->
  (forall s1 bs, data_ok a bs -> clients s1 = clients s -> sane s1 -> exists s2, work s1 (cstr bs) = Some s2 /\ keeps i s1 s2) ->
  exists s' size, with_param s i r work = Some (s', size) /\ keeps i s s'.
Proof using Type.
  intros [Hw Ha] [_ Hr] Hwork. unfold with_param. destruct (malloc_avail _ Ha) as (h & -> & Hh). cbn [negb].
  set (s1 := set_mem s h).
  assert (sane s1) as Hs1 by (split; [done|by apply Hh]).
  assert (forall s2, keeps i s1 s2 -> keeps i s (set_mem s2 (free (mem (base s2)) 1))) as Hfin.
  { intros s2 (A1 & A2 & A3 & A4 & A5 & A6 & A7). split_and!; [done|done|done|done|]. split_and!; [done| |done].
    eapply heap_to_trans; [exact Hh|eapply heap_to_trans; [exact A6|apply (heap_to_free _ 1)|reflexivity]|].
    unfold s1. rewrite !root_set_mem. lia. }
  pose proof (srv_keeps_refl i s1 (proj1 Hs1)) as Hk1.
  destruct (data r) as [[|b bs]|] eqn:Ed; [eexists _, _; split; [done|by apply Hfin]| |eexists _, _; split; [done|by apply Hfin]].
  destruct Hr as [?|Hr]; [done|]. unfold param_string. rewrite (proj1 Hr). cbn [mbind option_bind].
  destruct (Hwork s1 (b :: bs) Hr eq_refl Hs1) as (s2 & -> & Hk2). cbn [mbind option_bind].
  eexists _, _. split; [done|by apply Hfin].
Qed.

Ltac request := intros Hs Hr; eapply with_param_keeps; [done|exact Hr|]; intros s1 bs (Hb & Hn & Hg) Hc [Hw Ha].

(** An operation of the database on a path in lower case, and the answer. *)
Lemma keeps_operation s w i a ret low :
  calm a -> db_ok low (base s) (Ephp.base w) -> low -> keeps i s (acknowledge (set_eng s w) i a ret).
Proof using Type.
  intros Ha Hd Hl. eapply (srv_keeps_trans _ _ (set_eng s w)); [split_and!; [done|done|done|done|eapply db_ok_weaken; [|exact Hd]; done]|].
  apply keeps_acknowledge; [done|]. apply Hd.
Qed.

Lemma do_set_keeps s i r : sane s -> reading_ok RGDB_SET r -> exists s' size, do_set s i r = Some (s', size) /\ keeps i s s'.
Proof using Type.
  request. specialize (Hn ltac:(by left)). destruct (strchr_space (cstr bs)) as [path [v|]]; cbn [fst] in Hn.
  - destruct (xmldb_set_value_ok (base s1) (str_tolower path) v Hw Hn) as (t & d' & -> & Hd'). cbn [mbind option_bind].
    eexists. split; [done|]. eapply keeps_operation; [apply calm_none|exact Hd'|apply str_tolower_twice].
  - cbn [mbind option_bind]. eexists. split; [done|]. by apply keeps_acknowledge.
Qed.

Lemma do_set_notify_keeps s i r : sane s -> reading_ok RGDB_SET_NOTIFY r -> exists s' size, do_set_notify s i r = Some (s', size) /\ keeps i s s'.
Proof using Type.
  request. specialize (Hn ltac:(by right)). destruct (strchr_space (cstr bs)) as [path [v|]]; cbn [fst] in Hn.
  - destruct (xmldb_set_notify_ok (base s1) (str_tolower path) v Hw Hn) as (t & d' & -> & Hd'). cbn [mbind option_bind].
    eexists. split; [done|]. eapply keeps_operation; [apply calm_notify|exact Hd'|apply str_tolower_twice].
  - cbn [mbind option_bind]. eexists. split; [done|]. by apply keeps_acknowledge.
Qed.

Lemma base_shift del w : Ephp.base (EphpRun.shift_ptrs del w) = Ephp.base w.
Proof using Type. by destruct del as [[q k]|]. Qed.

Lemma do_del_keeps s i r : sane s -> reading_ok RGDB_DEL r -> exists s' size, do_del s i r = Some (s', size) /\ keeps i s s'.
Proof using Type.
  request. cbv zeta. destruct (xmldb_del_node_ok (base s1) (str_tolower (cstr bs)) Hw Ha) as (t & d' & -> & Hd'). cbn [mbind option_bind].
  eexists. split; [done|]. eapply keeps_operation; [apply calm_none|rewrite base_shift; exact Hd'|done].
Qed.

Lemma do_dump_keeps s i r : sane s -> reading_ok RGDB_DUMP r -> exists s' size, do_dump s i r = Some (s', size) /\ keeps i s s'.
Proof using Type.
  request. eexists. split; [done|]. set (s2 := if strcmp _ _ =? 0 then _ else _).
  assert (keeps i s1 s2) as Hk by (unfold s2; repeat case_match; by apply keeps_same).
  eapply srv_keeps_trans; [exact Hk|]. apply keeps_acknowledge; [done|]. apply Hk.
Qed.

(** A request of patch.c that is answered: the text goes out, and the tree and the memory are as before. *)
Lemma run_patch_answered {A} s f (m : Patch.M A) x text vs n :
  avail (mem (base s)) = [] ->
  (exists w', m (Patch.mkw (base s) [] [] []) = Patch.Ret (x, w') /\ PatchRender.answered (Patch.mkw (base s) [] [] []) text vs n w') ->
  run_patch s f m = Some (x, emit (set_base s (set_root (base s) (g_xml_root (base s)) (mkheap [] (live (mem (base s)) + n)))) f (Bytes (map u8 text ++ [0]))).
Proof using Type.
  intros Ha (w' & E & Hw & _ & _ & Hb). unfold run_patch. rewrite E, Hb, Hw. done.
Qed.

Lemma do_get_keeps s i r : sane s -> reading_ok RGDB_GET r -> exists s' size, do_get s i r = Some (s', size) /\ keeps i s s'.
Proof using Type.
  request. specialize (Hg eq_refl). set (c := client_of s1 i). set (w0 := Patch.mkw (base s1) [] [] []).
  destruct (PatchMessage.message_answered (str_tolower (cstr bs)) (flags (ipc c)) w0) as (text & Ht); [done|cbn; lia|done|].
  cbv zeta. rewrite (run_patch_answered s1 (fd c) _ 0 text _ 0 Ha Ht). eexists. split; [done|].
  eapply srv_keeps_trans; [apply keeps_base|by apply keeps_same]. apply set_heap_ok; [done|].
  split; [by cbn|done].
Qed.

Lemma rhandler_keeps s i r :
  sane s -> reading_ok (action (ipc (client_of s i))) r -> calm (action (ipc (client_of s i))) ->
  exists s' size, rhandler s i r = Some (s', size) /\ keeps i s s'.
Proof using Type.
  intros Hs Hr (H1 & H2 & H3 & H4). unfold rhandler. set (a := action _) in *.
  destruct (a =? RGDB_NONE).
  { destruct (hdr r) as [h|] eqn:Eh; eexists _, _; (split; [done|]); [|by apply srv_keeps_refl, Hs].
    apply keeps_set_ipc; [|apply Hs]. destruct Hr as [Hr _]. by rewrite Eh in Hr. }
  match goal with |- context [mbind _ ?x] => assert (exists s' size, x = Some (s', size) /\ keeps i s s') as (s1 & size & -> & Hk) end.
  { repeat match goal with |- context [if ?a =? ?b then _ else _] => destruct (Z.eqb_spec a b) as [E|_] end;
      try done; try rewrite E in Hr;
      [by apply do_get_keeps|by apply do_set_keeps|by apply do_set_notify_keeps|by apply do_del_keeps|by apply do_dump_keeps|].
    eexists _, _. split; [done|by apply srv_keeps_refl, Hs]. }
  cbn [mbind option_bind]. eexists _, _. split; [done|]. eapply srv_keeps_trans; [exact Hk|].
  apply keeps_set_ipc; [apply calm_none|apply Hk].
Qed.

End Requests.

(** ** The loop *)

(** The table has its size, no descriptor is in it twice, the open descriptors are those of the table; the
    database is sound, in lower case, and owns all the memory but [K] blocks. *)
Record srv_inv (K : Z) (s : server) : Prop := {
  inv_len : length (clients s) = MAX_CLIENT_LIST;
  inv_fds : fds_ok (clients s);
  inv_calm : calm_table (clients s);
  inv_nodup : NoDup (used (clients s));
  inv_opened : opened s ≡ₚ used (clients s);
  inv_sane : sane s;
  inv_lower : lower (g_xml_root (base s));
  inv_blocks : live (mem (base s)) - node_blocks (g_xml_root (base s)) = K
}.

Lemma keeps_inv K i s s' : keeps i s s' -> srv_inv K s -> srv_inv K s'.
Proof.
  intros Hk [H1 H2 H3 H4 H5 H6 H7 H8]. pose proof Hk as (A1 & _ & A2 & A3 & A4 & [A5 _] & A6). constructor.
  - apply (f_equal length) in A1. rewrite !length_map in A1. congruence.
  - by eapply fds_ok_ext.
  - auto.
  - by rewrite (used_ext _ _ A1).
  - by rewrite (used_ext _ _ A1), A2.
  - by eapply keeps_sane.
  - auto.
  - lia.
Qed.

Lemma close_client_inv K s f : f ∈ used (clients s) -> srv_inv K s -> srv_inv K (close_client s f).
Proof.
  intros Hf [H1 H2 H3 H4 H5 H6 H7 H8]. destruct (remove_client_spec _ _ Hf) as (R1 & R2 & R3 & R4).
  assert (NoDup (f :: used (remove_client (clients s) f))) as Hnd by (by rewrite R2).
  constructor; cbn [close_client set_opened set_clients clients opened base]; try done; [lia|auto|auto| |].
  - by apply list.NoDup_cons in Hnd as [_ ?].
  - apply (Permutation_cons_inv (a := f)). rewrite R2. unfold close_fd.
    rewrite filter_ne_perm; [done|by rewrite H5|by rewrite H5].
Qed.

Lemma accept_client_inv K s f :
  (length (used (clients s)) < MAX_CLIENT_LIST)%nat -> 2 < f -> f ∉ opened s -> srv_inv K s -> srv_inv K (accept_client s f).
Proof.
  intros Hl Hf Hn [H1 H2 H3 H4 H5 H6 H7 H8]. pose proof (add_client_spec (clients s) f H2) as Ha. rewrite H1 in Ha.
  specialize (Ha Hl Hf). unfold accept_client. destruct (add_client _ _) as [r l']. destruct Ha as (_ & A1 & A2 & A3 & A4).
  constructor; cbn [snd set_clients set_opened clients opened base]; try done; [auto| |].
  - rewrite A2. constructor; [by rewrite <- H5|done].
  - rewrite A2. by constructor.
Qed.

(** What is read from the clients is fit for their requests. *)
Definition readings_ok (s : server) (reads : Z -> reading) : Prop :=
  forall i c, clients s !! i = Some c -> reading_ok (action (ipc c)) (reads (fd c)).

Section Loop.
Context `{System}.

Lemma calm_client s i : calm_table (clients s) -> calm (action (ipc (client_of s i))).
Proof using Type.
  intros Hc. unfold client_of. destruct (clients s !! i) as [c|] eqn:E; [|done].
  unfold calm_table in Hc. rewrite Forall_forall in Hc. apply Hc. apply list_elem_of_In. by eapply list_elem_of_lookup_2.
Qed.

Lemma dispatch_loop_inv K reads : forall n i s set,
  (forall j c, (i <= j)%nat -> clients s !! j = Some c -> reading_ok (action (ipc c)) (reads (fd c))) -> srv_inv K s ->
  exists s', dispatch_loop n i s set reads = Some s' /\ srv_inv K s'.
Proof using Type.
  induction n as [|n IH]; intros i s set Hr Hs; cbn [dispatch_loop]; [by exists s|].
  destruct (_ && _) eqn:Eb; [|apply IH; [|done]; intros j c Hj; apply Hr; lia].
  apply andb_true_iff in Eb as [Hf _]. apply Z.ltb_lt in Hf.
  assert (exists c, clients s !! i = Some c /\ client_of s i = c) as (c & Hi & Ec).
  { unfold client_of in *. destruct (clients s !! i) as [c|]; [by exists c|cbn in Hf; lia]. }
  pose proof (calm_client s i (inv_calm _ _ Hs)) as Hcalm. rewrite Ec in *.
  destruct (rhandler_keeps s i (reads (fd c)) (inv_sane _ _ Hs)) as (s1 & size & -> & Hk); rewrite ?Ec; [by eapply Hr|done|].
  cbn [mbind option_bind]. pose proof (keeps_inv K _ _ _ Hk Hs) as Hs1. destruct Hk as (A1 & A2 & _).
  assert (exists c1, clients s1 !! i = Some c1 /\ fd c1 = fd c) as (c1 & Hi1 & Ef).
  { apply (f_equal (fun l => l !! i)) in A1. change (map fd) with (fmap (M := list) fd) in A1. rewrite !list_lookup_fmap, Hi in A1.
    destruct (clients s1 !! i) as [c1|]; [|done]. cbn in A1. injection A1 as A1. by exists c1. }
  apply IH.
  - intros j c' Hj Hc'. apply (Hr j); [lia|]. rewrite <- (A2 j) by lia. destruct (size <=? 0); [|done].
    cbn [close_client set_opened set_clients clients] in Hc'. rewrite <- Hc'. symmetry.
    eapply remove_client_other; [apply Hs1|exact Hi1|done|lia|lia].
  - destruct (size <=? 0); [|done]. apply close_client_inv; [|done]. rewrite <- Ef. eapply used_elem; [done|lia].
Qed.

Definition accepted (s : server) (t : turn) : server :=
  match incoming t with Some (Some f) => accept_client s f | _ => s end.

(** What the system and the clients are trusted with: the readings fit the requests; a new descriptor is not an open one,
    and comes when a slot is free. *)
Definition turn_ok (s : server) (t : turn) : Prop :=
  match incoming t with
  | Some (Some f) => 2 < f /\ (f ∉ opened s) /\ (length (used (clients s)) < MAX_CLIENT_LIST)%nat
  | _ => True
  end /\ readings_ok (accepted s t) (reads t).

Fixpoint turns_ok (s : server) (ts : list turn) : Prop :=
  match ts with
  | [] => True
  | t :: tl => turn_ok s t /\ (forall s', main_turn s t = Some (s', true) -> turns_ok s' tl)
  end.

Lemma main_turn_inv K s t : turn_ok s t -> srv_inv K s -> exists s' go, main_turn s t = Some (s', go) /\ srv_inv K s'.
Proof using Type.
  intros [Hi Hr] Hs. unfold main_turn. destruct (failed t); [by eexists _, _|].
  assert (srv_inv K (accepted s t)) as Ha.
  { unfold accepted. destruct (incoming t) as [[f|]|]; [|done|done]. destruct Hi as (Hf & Hn & Hl). by apply accept_client_inv. }
  destruct (dispatch_loop_inv K (reads t) MAX_CLIENT_LIST 0 (accepted s t) (ready t) ltac:(intros j c _; apply Hr) Ha) as (s' & E & Hs').
  unfold accepted, dispatch_fd in *. destruct (incoming t) as [[f|]|]; [rewrite E|..]; [by eexists _, _|by eexists _, _|].
  rewrite E. by eexists _, _.
Qed.

Lemma close_fold l : forall o,
  (forall f, f ∈ o -> f ∈ used l) -> foldl (fun o c => if 0 <? fd c then close_fd (fd c) o else o) o l = [].
Proof using Type.
  induction l as [|c l IH]; intros o Ho; cbn [foldl].
  - destruct o as [|f o]; [done|]. exfalso. specialize (Ho f ltac:(by left)). by apply not_elem_of_nil in Ho.
  - apply IH. intros f Hf. destruct (Z.ltb_spec 0 (fd c)) as [Hc|Hc].
    + unfold close_fd in Hf. apply list_elem_of_filter in Hf as [Hne Hf]. specialize (Ho f Hf). rewrite used_cons, decide_True in Ho by done.
      apply elem_of_cons in Ho as [?|?]; done.
    + specialize (Ho f Hf). by rewrite used_cons, decide_False in Ho by lia.
Qed.

(** At the end every client is closed. *)
Lemma close_clients_inv K s : srv_inv K s -> srv_inv K (close_clients s) /\ opened (close_clients s) = [].
Proof using Type.
  intros [H1 H2 H3 H4 H5 H6 H7 H8].
  assert (opened (close_clients s) = []) as Ho.
  { cbn [close_clients set_opened opened]. apply close_fold. intros f Hf. by rewrite <- H5. }
  set (g := fun c => if 0 <? fd c then clear_client c else c).
  assert (forall l, used (map g l) = []) as Hu.
  { induction l as [|c l IH]; [done|]. cbn [map]. rewrite used_cons, IH. unfold g. destruct (Z.ltb_spec 0 (fd c)); rewrite decide_False; (done || cbn; lia). }
  split; [|exact Ho]. constructor; rewrite ?Ho; cbn [close_clients set_opened set_clients clients base]; try done.
  - by rewrite length_map.
  - apply Forall_map. eapply List.Forall_impl; [|exact H2]. intros c Hc. unfold compose. destruct (0 <? fd c); [by left|done].
  - apply Forall_map. eapply List.Forall_impl; [|exact H3]. intros c Hc. unfold compose. by destruct (0 <? fd c).
  - fold g. rewrite Hu. constructor.
  - fold g. by rewrite Hu.
Qed.

(** C5. The server outlives its clients.  While there is memory and a free slot in the table of 128 clients for each connection that is
    accepted, clients may send GET, SET, SET_NOTIFY, DEL and DUMP requests in any interleaving, broken off at any point, if
    the strings end in what is read, the numbers in the paths that are set are below the largest [int], and what is asked for is a path, a count
    or a variable that exists (no calculation, and no empty path without white space before it); nobody reloads the database, patches a
    template or runs a program.  Then the server meets no
    undefined behaviour; no descriptor is in the table twice; the open descriptors are exactly
    those of the table, so none is leaked; the database stays sound and in lower case and leaks no
    memory; and when the server ends every client is closed. *)
Theorem server_safe K s ts :
  srv_inv K s -> turns_ok s ts ->
  exists s' ended, main_loop s ts = Some (s', ended) /\
    NoDup (used (clients s')) /\ opened s' ≡ₚ used (clients s') /\
    wf (g_xml_root (base s')) /\ lower (g_xml_root (base s')) /\
    live (mem (base s')) - node_blocks (g_xml_root (base s')) = K /\
    (ended = true -> opened s' = []).
Proof using Type.
  intros Hs Hok.
  assert (exists s' ended, main_loop s ts = Some (s', ended) /\ srv_inv K s' /\ (ended = true -> opened s' = []))
    as (s' & ended & E & [H1 H2 H3 H4 H5 [H6 _] H7 H8] & He).
  { revert s Hs Hok. induction ts as [|t ts IH]; intros s Hs Hok; cbn [main_loop]; [by exists s, false|].
    destruct Hok as (Hok & Hnext). destruct (main_turn_inv K s t Hok Hs) as (s1 & go & E & Hs1). rewrite E.
    cbn [mbind option_bind]. destruct go; [by apply IH; [|apply Hnext]|].
    destruct (close_clients_inv K s1 Hs1) as [H1 H2]. by eexists _, true. }
  exists s', ended. by split_and!.
Qed.

End Loop.


End XmldbServer.
