(* ===== verification/XmldbRequests.v ===== *)
(** * tools/alpha/xmldb/main.c: whole requests.

    One request of one client through the loop of the server, from its header to its answer, on the database
    and through the engine of patch.c; and saving and loading the database. *)
From Stdlib Require Import ZArith Lia Bool String.
From stdpp Require Import base tactics list option numbers.
From S2P Require Import Prelude Xmldb XmldbFile Ephp EphpRun Patch PatchShow PatchTemplate PatchRender PatchMessage XmldbServer.

Module XmldbRequests.
Import Xmldb XmldbFile XmldbServer.

(** ** One request from its header to its answer *)

Section Exchange.
Context `{System}.

Lemma dispatch_skip reads set : forall n i s,
  (forall k, (i <= k < i + n)%nat -> existsb (Z.eqb (fd (client_of s k))) set = false) ->
  dispatch_loop n i s set reads = Some s.
Proof using Type.
  induction n as [|n IH]; intros i s Hk; cbn [dispatch_loop]; [done|].
  rewrite (Hk i) by lia. rewrite andb_false_r. apply IH. intros k Hr. apply Hk. lia.
Qed.

Lemma dispatch_skips reads set b : forall a i s,
  (forall k, (i <= k < i + a)%nat -> existsb (Z.eqb (fd (client_of s k))) set = false) ->
  dispatch_loop (a + b) i s set reads = dispatch_loop b (i + a) s set reads.
Proof using Type.
  induction a as [|a IH]; intros i s Hk; cbn [Nat.add dispatch_loop]; [by rewrite Nat.add_0_r|].
  rewrite (Hk i) by lia. rewrite andb_false_r, <- Nat.add_succ_comm. apply IH. intros k Hr. apply Hk. lia.
Qed.

(** Only the client [i] is readable. *)
Definition only (f : Z) (r : reading) : turn := mkturn false None [f] (fun _ => r) false.

(** A table of the right size, no descriptor in it twice. *)
Definition tidy (s : server) : Prop := length (clients s) = MAX_CLIENT_LIST /\ NoDup (used (clients s)).

Lemma tidy_ext s s' : map fd (clients s') = map fd (clients s) -> tidy s -> tidy s'.
Proof using Type.
  intros E [H1 H2]. split; [|by rewrite (used_ext _ _ E)]. apply (f_equal length) in E. rewrite !length_map in E. congruence.
Qed.

Lemma same_fd s s' k c' : map fd (clients s') = map fd (clients s) -> clients s' !! k = Some c' ->
  exists c, clients s !! k = Some c /\ fd c = fd c'.
Proof using Type.
  intros E Hk. apply (f_equal (fun l => l !! k)) in E. change (map fd) with (fmap (M := list) fd) in E. rewrite !list_lookup_fmap, Hk in E.
  destruct (clients s !! k) as [c|]; [|done]. cbn in E. injection E as E. by exists c.
Qed.

(** Of the slots only that of the client is looked at. *)
Lemma dispatch_one s i c r s1 size :
  tidy s -> clients s !! i = Some c -> 2 < fd c ->
  rhandler s i r = Some (s1, size) ->
  main_turn s (only (fd c) r) = Some (if size <=? 0 then close_client s1 (fd c) else s1, true).
Proof using Type.
  intros [Hl Hnd] Hi Hf Hr. pose proof (lookup_lt_Some _ _ _ Hi) as Hlt.
  assert (forall k, k <> i -> fd (client_of s k) <> fd c) as Hno.
  { intros k Hne. unfold client_of. destruct (clients s !! k) as [c'|] eqn:Ek; [|cbn; lia]. intros Ef. apply Hne.
    eapply (used_unique (clients s) k i c' c); [done|done|done|exact Ef|]. change (fd c' = fd c) in Ef. lia. }
  unfold main_turn, dispatch_fd. cbn [failed incoming only ready reads].
  replace MAX_CLIENT_LIST with (i + S (MAX_CLIENT_LIST - i - 1))%nat by lia.
  rewrite dispatch_skips by (intros k Hk'; cbn [existsb]; rewrite orb_false_r; apply Z.eqb_neq, Hno; lia).
  cbn [Nat.add dispatch_loop].
  assert (client_of s i = c) as -> by (unfold client_of; by rewrite Hi). cbn [existsb].
  rewrite Z.eqb_refl, (proj2 (Z.ltb_lt _ _) Hf). cbn [andb orb]. rewrite Hr. cbn [mbind option_bind].
  assert (close_fd (fd c) [fd c] = []) as -> by (unfold close_fd; rewrite filter_cons_False by (by intros []); done).
  by rewrite dispatch_skip.
Qed.

Lemma dispatch_only s i c r s1 size :
  tidy s -> clients s !! i = Some c -> 2 < fd c ->
  rhandler s i r = Some (s1, size) -> 0 < size ->
  main_turn s (only (fd c) r) = Some (s1, true).
Proof using Type. intros Ht Hi Hf Hr Hsz. rewrite (dispatch_one _ _ _ _ _ _ Ht Hi Hf Hr). by rewrite (proj2 (Z.leb_gt _ _) Hsz). Qed.

Lemma dispatch_closes s i c r s1 size :
  tidy s -> clients s !! i = Some c -> 2 < fd c ->
  rhandler s i r = Some (s1, size) -> size <= 0 ->
  main_turn s (only (fd c) r) = Some (close_client s1 (fd c), true).
Proof using Type. intros Ht Hi Hf Hr Hsz. rewrite (dispatch_one _ _ _ _ _ _ Ht Hi Hf Hr). by rewrite (proj2 (Z.leb_le _ _) Hsz). Qed.

Lemma client_of_set_ipc s i h c : clients s !! i = Some c -> clients (set_ipc s i h) !! i = Some (mkclient (fd c) h).
Proof using Type. intros Hi. cbn [set_ipc set_clients clients]. by rewrite list_lookup_alter_eq, Hi. Qed.

Lemma client_at s i c : clients s !! i = Some c -> client_of s i = c.
Proof using Type. unfold client_of. by intros ->. Qed.

Lemma set_ipc_other s i j h : j <> i -> clients (set_ipc s i h) !! j = clients s !! j.
Proof using Type. intros Hj. cbn [set_ipc set_clients clients]. by rewrite list_lookup_alter_ne. Qed.

Lemma two_turns s1 s2 s3 t1 t2 :
  main_turn s1 t1 = Some (s2, true) -> main_turn s2 t2 = Some (s3, true) ->
  main_loop s1 [t1; t2] = Some (s3, false).
Proof using Type. intros E1 E2. cbn [main_loop]. rewrite E1. cbn [mbind option_bind]. rewrite E2. reflexivity. Qed.

(** The two turns of a request: the header, and the parameter, which [rhandler] works on. *)
Definition exchange (f : Z) (h : rgdb_ipc_t) (r : reading) : list turn := [only f (mkread (Some h) None); only f r].

Lemma exchange_runs s i c h r s2 size :
  tidy s -> clients s !! i = Some c -> 2 < fd c -> action (ipc c) = RGDB_NONE ->
  rhandler (set_ipc s i h) i r = Some (s2, size) -> map fd (clients s2) = map fd (clients s) -> 0 < size ->
  main_loop s (exchange (fd c) h r) = Some (s2, false).
Proof using Type.
  intros Ht Hi Hf Ha Hr Hfd Hsz. pose proof (map_fd_set_ipc s i h) as Hm. pose proof (client_of_set_ipc s i h c Hi) as Hi1.
  assert (rhandler s i (mkread (Some h) None) = Some (set_ipc s i h, 12)) as E0.
  { unfold rhandler. rewrite (client_at _ _ _ Hi), Ha. reflexivity. }
  pose proof (dispatch_only s i c _ _ 12 Ht Hi Hf E0 eq_refl) as E1.
  assert (tidy (set_ipc s i h)) as Ht1 by (by eapply tidy_ext).
  rewrite <- Hm in Hfd. clear E0 Hm. revert Ht1 Hi1 Hr Hfd E1. generalize (set_ipc s i h). intros s1 Ht1 Hi1 Hr Hfd E1.
  pose proof (dispatch_only s1 i (mkclient (fd c) h) r s2 size Ht1 Hi1 Hf Hr Hsz) as E2.
  exact (two_turns _ _ _ _ _ E1 E2).
Qed.

Lemma main_loop_app ts : forall s us s1,
  main_loop s ts = Some (s1, false) -> main_loop s (ts ++ us) = main_loop s1 us.
Proof using Type.
  induction ts as [|t ts IH]; intros s us s1 E; cbn [main_loop app] in *; [by injection E as ->|].
  destruct (main_turn s t) as [[s2 go]|]; [|done]. cbn [mbind option_bind] in *. destruct go; [by apply IH|done].
Qed.

(** A string without NUL is what is read back from the buffer. *)
Lemma param_string_ok w : Forall (fun c => c <> 0) w -> param_string (w ++ [0]) = Some w.
Proof using Type.
  intros Hw. unfold param_string. rewrite existsb_app. cbn [existsb]. rewrite Z.eqb_refl, orb_true_r. f_equal.
  induction Hw as [|c w Hc _ IH]; [done|]. cbn [app cstr]. by rewrite (proj2 (Z.eqb_neq _ _) Hc), IH.
Qed.

Lemma strchr_space_ok path v : Forall (fun c => c <> 32) path -> strchr_space (path ++ 32 :: v) = (path, Some v).
Proof using Type.
  induction 1 as [|c path Hc _ IH]; [done|]. cbn [app]. unfold strchr_space in *. cbn [app].
  rewrite (proj2 (Z.eqb_neq _ _) Hc). by rewrite IH.
Qed.

(** The work of a request on its string, with the buffer around it. *)
Lemma with_param_work s i r w work :
  avail (mem (base s)) = [] -> Forall (fun c => c <> 0) w -> data r = Some (w ++ [0]) ->
  with_param s i r work =
    s2 ← work (set_mem s (mkheap [] (live (mem (base s)) + 1))) w; Some (set_mem s2 (free (mem (base s2)) 1), zlen (w ++ [0])).
Proof using Type.
  intros Ha Hw Hd. unfold with_param, malloc. rewrite Ha. cbn [negb]. rewrite Hd.
  pose proof (param_string_ok w Hw) as E. destruct (w ++ [0]) as [|b bs] eqn:Eb; [by destruct w|]. by rewrite E.
Qed.

Lemma zlen_snoc (w : list Z) : 0 < zlen (w ++ [0]).
Proof using Type. rewrite length_app. cbn. lia. Qed.

(** The state behind a request of the client [i]: its header, the static variables, the files and one more output; all
    the rest is as it was.  Most requests change only the database of these. *)
Definition behind (s : server) (i : nat) (h : rgdb_ipc_t) (w : Ephp.world) (fs : list (list Z * list Z)) (o : output) : server :=
  mksrv (alter (fun c => mkclient (fd c) h) i (clients s)) w fs (opened s) (out s ++ [(fd (client_of s i), o)]).

Definition after (s : server) (i : nat) (h : rgdb_ipc_t) (d : db) (o : output) : server :=
  behind s i h (Ephp.set_base (eng s) d) (files s) o.

Lemma set_ipc_twice s i h h' : alter (fun c => mkclient (fd c) h') i (clients (set_ipc s i h)) = alter (fun c => mkclient (fd c) h') i (clients s).
Proof using Type. cbn [set_ipc set_clients clients]. rewrite list_alter_alter_eq. by apply list_alter_ext. Qed.

Lemma server_eq s s' :
  clients s = clients s' -> eng s = eng s' -> files s = files s' -> opened s = opened s' -> out s = out s' -> s = s'.
Proof using Type. destruct s, s'. cbn. intros. by subst. Qed.

Lemma altered (l : list xmldb_client) (i : nat) (h h' h'' : rgdb_ipc_t) :
  alter (fun c => mkclient (fd c) h'') i (alter (fun c => mkclient (fd c) h') i (alter (fun c => mkclient (fd c) h) i l)) =
  alter (fun c => mkclient (fd c) h'') i l.
Proof using Type. rewrite !list_alter_alter_eq. by apply list_alter_ext. Qed.

(** The end of a request that is acknowledged, and of one that sends bytes. *)
Lemma acknowledged s i c h s1 hp a ret : clients s !! i = Some c ->
  clients s1 = clients (set_ipc s i h) -> opened s1 = opened s -> out s1 = out s ->
  let s2 := acknowledge s1 i a ret in
  set_ipc (set_mem s2 hp) i (set_action (ipc (client_of s2 i)) RGDB_NONE) =
  behind s i (mkipc RGDB_NONE 0 (flags h) ret) (Ephp.set_base (eng s1) (set_root (base s1) (g_xml_root (base s1)) hp)) (files s1)
         (Ack (mkipc a 0 (flags h) ret)).
Proof using Type.
  intros Hi Ec Eo Eu.
  assert (clients s1 !! i = Some (mkclient (fd c) h)) as Hi1 by (rewrite Ec; exact (client_of_set_ipc s i h c Hi)).
  assert (clients (acknowledge s1 i a ret) !! i = Some (mkclient (fd c) (mkipc a 0 (flags h) ret))) as Hi2.
  { unfold acknowledge. rewrite (client_at _ _ _ Hi1). exact (client_of_set_ipc s1 i _ _ Hi1). }
  cbv zeta. rewrite (client_at _ _ _ Hi2). cbn [ipc set_action len flags retcode]. unfold acknowledge, behind.
  rewrite (client_at _ _ _ Hi1), (client_at _ _ _ Hi). cbn [fd ipc]. rewrite <- Eo, <- Eu.
  apply server_eq; [|reflexivity..]. cbn [set_mem set_base set_eng emit set_ipc set_clients clients]. rewrite Ec. apply altered.
Qed.

Lemma sent_bytes s i c h hp hp' d bs : clients s !! i = Some c ->
  let s2 := emit (set_base (set_mem (set_ipc s i h) hp) d) (fd c) (Bytes bs) in
  set_ipc (set_mem s2 hp') i (set_action (ipc (client_of s2 i)) RGDB_NONE) =
  after s i (set_action h RGDB_NONE) (set_root d (g_xml_root d) hp') (Bytes bs).
Proof using Type.
  intros Hi. set (s2 := emit _ _ _).
  assert (clients s2 !! i = Some (mkclient (fd c) h)) as Hi2 by exact (client_of_set_ipc s i h c Hi).
  cbv zeta. rewrite (client_at _ _ _ Hi2). unfold after, behind. rewrite (client_at _ _ _ Hi).
  apply server_eq; [apply set_ipc_twice|reflexivity..].
Qed.

(** A request that is one of [do_get], [do_set], ... on the parameter. *)
Lemma request_runs (work : server -> list Z -> option server) s i c h w s2 :
  (forall s1 r, client_of s1 i = mkclient (fd c) h -> rhandler s1 i r =
     '(s, size) ← with_param s1 i r work; Some (set_ipc s i (set_action (ipc (client_of s i)) RGDB_NONE), size)) ->
  tidy s -> avail (mem (base s)) = [] -> clients s !! i = Some c -> 2 < fd c -> action (ipc c) = RGDB_NONE -> Forall (fun x => x <> 0) w ->
  work (set_mem (set_ipc s i h) (mkheap [] (live (mem (base s)) + 1))) w = Some s2 -> map fd (clients s2) = map fd (clients s) ->
  main_loop s (exchange (fd c) h (mkread None (Some (w ++ [0])))) =
    Some (set_ipc (set_mem s2 (free (mem (base s2)) 1)) i (set_action (ipc (client_of s2 i)) RGDB_NONE), false).
Proof using Type.
  intros Hh Ht Ha Hi Hf Hn Hw E Hfd. eapply exchange_runs; [done|done|done|done| | |apply zlen_snoc].
  - rewrite Hh by (by apply client_at, client_of_set_ipc).
    rewrite (with_param_work (set_ipc s i h) i (mkread None (Some (w ++ [0]))) w work Ha Hw eq_refl).
    change (base (set_ipc s i h)) with (base s). rewrite E. cbn [mbind option_bind]. reflexivity.
  - by rewrite map_fd_set_ipc.
Qed.

(** A request that the engine of patch.c answers. *)
Lemma patch_runs (work : server -> list Z -> option server) s i c h w (m : Patch.M Z) x text vs n :
  let s1 := set_mem (set_ipc s i h) (mkheap [] (live (mem (base s)) + 1)) in
  (forall s1 r, client_of s1 i = mkclient (fd c) h -> rhandler s1 i r =
     '(s, size) ← with_param s1 i r work; Some (set_ipc s i (set_action (ipc (client_of s i)) RGDB_NONE), size)) ->
  tidy s -> avail (mem (base s)) = [] -> clients s !! i = Some c -> 2 < fd c -> action (ipc c) = RGDB_NONE -> Forall (fun x => x <> 0) w ->
  work s1 w = snd <$> run_patch s1 (fd c) m ->
  (exists w', m (Patch.mkw (base s1) [] [] []) = Patch.Ret (x, w') /\ PatchRender.answered (Patch.mkw (base s1) [] [] []) text vs n w') ->
  main_loop s (exchange (fd c) h (mkread None (Some (w ++ [0])))) =
    Some (after s i (set_action h RGDB_NONE) (set_root (base s) (g_xml_root (base s)) (mkheap [] (live (mem (base s)) + n)))
                (Bytes (map u8 text ++ [0])), false).
Proof using Type.
  intros s1 Hh Ht Hav Hi Hf Hn Hw Hwork Hans. rewrite (run_patch_answered s1 (fd c) m x text vs n eq_refl Hans) in Hwork.
  match type of Hwork with _ = snd <$> Some (_, emit (set_base _ ?y) _ _) => set (d := y) in Hwork end.
  rewrite (request_runs work s i c h w _ Hh Ht Hav Hi Hf Hn Hw Hwork); [|apply (map_fd_set_ipc s i h)].
  do 2 f_equal. etrans; [exact (sent_bytes s i c h _ (free (mem d) 1) d (map u8 text ++ [0]) Hi)|].
  f_equal. unfold d, s1, free, set_root. cbn. f_equal. f_equal. lia.
Qed.

(** ** SET *)

Lemma set_string path v : Forall (fun x => x <> 0 /\ x <> 32) path -> Forall (fun x => x <> 0) v ->
  Forall (fun x => x <> 0) (path ++ 32 :: v) /\ strchr_space (path ++ 32 :: v) = (path, Some v).
Proof using Type.
  intros Hp Hv. split.
  - apply Forall_app. split; [eapply List.Forall_impl; [|exact Hp]; intros x [? _]; done|by constructor].
  - apply strchr_space_ok. eapply List.Forall_impl; [|exact Hp]. intros x [_ ?]; done.
Qed.

(** The map of the database with a value set, and the nodes on the way. *)
Definition assigned (m : list key -> option info) (ks : list key) (v : list Z) (q : list key) : option info :=
  if decide (q = ks) then Some (v, snd (default ([], []) (m q)))
  else match m q with
       | Some x => Some x
       | None => if decide (q `prefix_of` ks) then Some ([], []) else None
       end.

Lemma set_exchange s i c h path v :
  tidy s -> sane s -> clients s !! i = Some c -> 2 < fd c -> action (ipc c) = RGDB_NONE -> action h = RGDB_SET ->
  Forall (fun x => x <> 0 /\ x <> 32) path -> Forall (fun x => x <> 0) v -> path_ok (str_tolower path) ->
  let ks := keys_of (str_tolower path) in
  let m := view (g_xml_root (base s)) in
  let ack := mkipc RGDB_NONE 0 (flags h) 0 in
  exists d, main_loop s (exchange (fd c) h (mkread None (Some ((path ++ 32 :: v) ++ [0])))) = Some (after s i ack d (Ack ack), false) /\
    (forall q, view (g_xml_root d) q = assigned m ks v q) /\ sent d = sent (base s) ++ change_notice (m ks) v /\
    (nums_ok (str_tolower path) -> avail (mem d) = [] /\ wf (g_xml_root d)).
Proof using Type.
  intros Ht [Hwf Hav] Hi Hf Hn Hh Hp Hv Hpo ks m ack. destruct (set_string path v Hp Hv) as [Hw Hspace].
  set (s1 := set_mem (set_ipc s i h) (mkheap [] (live (mem (base s)) + 1))).
  destruct (set_value_refines (base s1) (str_tolower path) v Hpo eq_refl Hwf) as (p & d & Es & Hview & Hsent & _).
  assert (client_of s1 i = mkclient (fd c) h) as Hc1 by (apply client_at, (client_of_set_ipc s i h c Hi)).
  exists (set_root d (g_xml_root d) (free (mem d) 1)). split; [|split; [done|split; [done|]]].
  2: { intros Hno. destruct (xmldb_set_value_ok (base s1) (str_tolower path) v Hwf Hno) as (p' & d' & Es' & Hwf' & [_ Ha'] & _).
       rewrite Es in Es'. injection Es' as _ <-. split; [by apply Ha'|exact Hwf']. }
  erewrite (request_runs _ s i c h _ (acknowledge (set_base s1 d) i RGDB_NONE 0)); [|intros s2 r Hc2; unfold rhandler; rewrite Hc2; cbn [ipc]; rewrite Hh; reflexivity|done..| |].
  - do 2 f_equal. exact (acknowledged s i c h (set_base s1 d) (free (mem d) 1) RGDB_NONE 0 Hi eq_refl eq_refl eq_refl).
  - cbv beta. fold s1. rewrite Hspace, Es. reflexivity.
  - cbn [acknowledge emit clients]. rewrite map_fd_set_ipc. apply (map_fd_set_ipc s i h).
Qed.

(** ** GET *)

Lemma value_seen t path v m : path_ok path -> view t (keys_of path) = Some (v, m) -> PatchTemplate.value_at t None path = v.
Proof using Type.
  intros Hp Hv. set (d := mkdb t (mkheap [] 0) []). pose proof (PatchRender.get_value_at t d None path I eq_refl) as E.
  unfold view in Hv. destruct (resolve t (keys_of path)) as [n|] eqn:En; [|done]. injection Hv as Hv _.
  destruct (find_node_found d path n Hp En) as (p & _ & Ef & Hn & _). unfold xmldb_get_value in E. rewrite Ef in E. cbn [mbind option_bind] in E.
  rewrite Hn in E. cbn in E. congruence.
Qed.

Lemma get_exchange s i c h path v m :
  tidy s -> avail (mem (base s)) = [] -> clients s !! i = Some c -> 2 < fd c -> action (ipc c) = RGDB_NONE -> action h = RGDB_GET ->
  Forall (fun x => x <> 0) path -> PatchTemplate.vexp_ok (PatchTemplate.VNode (str_tolower path)) = true -> path_ok (str_tolower path) ->
  view (g_xml_root (base s)) (keys_of (str_tolower path)) = Some (v, m) ->
  main_loop s (exchange (fd c) h (mkread None (Some (path ++ [0])))) =
    Some (after s i (set_action h RGDB_NONE) (base s) (Bytes (map u8 (PatchShow.shown (flags h) v) ++ [0])), false).
Proof using Type.
  intros Ht Hav Hi Hf Hn Hh Hw Hx Hp Hv.
  set (s1 := set_mem (set_ipc s i h) (mkheap [] (live (mem (base s)) + 1))).
  assert (client_of s1 i = mkclient (fd c) h) as Hc1 by (apply client_at, (client_of_set_ipc s i h c Hi)).
  pose proof (PatchMessage.path_answered (str_tolower path) (flags h) (Patch.mkw (base s1) [] [] []) eq_refl ltac:(cbn; lia) Hx) as Hans.
  cbn [Patch.base] in Hans. change (g_xml_root (base s1)) with (g_xml_root (base s)) in Hans. rewrite (value_seen _ _ v m Hp Hv) in Hans.
  erewrite (patch_runs _ s i c h path _ 0 _ _ 0); [|intros s2 r Hc2; unfold rhandler; rewrite Hc2; cbn [ipc]; rewrite Hh; reflexivity|done..| |exact Hans].
  - do 3 f_equal. destruct (base s) as [t [av n] o]. cbn in *. subst av. unfold set_root. cbn. by rewrite Z.add_0_r.
  - cbv beta zeta. fold s1. by rewrite Hc1.
Qed.

(** ** PATCH *)

(** C7. A PATCH request from end to end: the header and the name of a template file are answered with the text that the
    evaluation of the template on the database gives, and a NUL; the tree and all the rest of the server are as they
    were, but for the memory of arrays under paths that do not exist. *)
Theorem server_patch_request s i c h file ps r :
  tidy s -> avail (mem (base s)) = [] -> clients s !! i = Some c -> 2 < fd c -> action (ipc c) = RGDB_NONE -> action h = RGDB_PATCH ->
  Forall (fun x => x <> 0) file -> file_of (files s) file = Some (PatchTemplate.print_template ps) ->
  forallb PatchTemplate.piece_ok ps = true ->
  PatchTemplate.render (g_xml_root (base s)) (flags h) ps (PatchTemplate.mkenv 0 0) (Some []) (replicate 10 0) = Some r ->
  main_loop s (exchange (fd c) h (mkread None (Some (file ++ [0])))) =
    Some (after s i (set_action h RGDB_NONE)
                (set_root (base s) (g_xml_root (base s)) (mkheap [] (live (mem (base s)) + PatchTemplate.r_lost r)))
                (Bytes (map u8 (PatchTemplate.r_text r) ++ [0])), false).
Proof using Type.
  intros Ht Hav Hi Hf Hn Hh Hw Hfile Hok Hr.
  set (s1 := set_mem (set_ipc s i h) (mkheap [] (live (mem (base s)) + 1))).
  assert (client_of s1 i = mkclient (fd c) h) as Hc1 by (apply client_at, (client_of_set_ipc s i h c Hi)).
  pose proof (PatchRender.template_answered ps (flags h) (Patch.mkw (base s1) [] [] []) r Hok eq_refl ltac:(cbn; lia) Hr) as Hans.
  erewrite (patch_runs _ s i c h file); [reflexivity|intros s2 r2 Hc2; unfold rhandler; rewrite Hc2; cbn [ipc]; rewrite Hh; reflexivity|done..| |exact Hans].
  cbv beta zeta. fold s1. rewrite Hc1. cbn [fd ipc flags]. change (files s1) with (files s). by rewrite Hfile.
Qed.

(** ** SET and GET *)

(** A SET request from end to end: the header and then the string [path value] of one client, whatever
    the others are doing, assign the value to the path in the database and to nothing else, notify
    the watcher of the path if the value changed, and answer the client with an acknowledgement;
    its slot is ready for the next request and all the rest of the server is untouched. *)
Theorem server_set_request s i c h path v :
  tidy s -> sane s -> clients s !! i = Some c -> 2 < fd c -> action (ipc c) = RGDB_NONE -> action h = RGDB_SET ->
  Forall (fun x => x <> 0 /\ x <> 32) path -> Forall (fun x => x <> 0) v -> path_ok (str_tolower path) ->
  let ks := keys_of (str_tolower path) in
  let m := view (g_xml_root (base s)) in
  let ack := mkipc RGDB_NONE 0 (flags h) 0 in
  exists d, main_loop s (exchange (fd c) h (mkread None (Some ((path ++ 32 :: v) ++ [0])))) = Some (after s i ack d (Ack ack), false) /\
    (forall q, view (g_xml_root d) q = assigned m ks v q) /\ sent d = sent (base s) ++ change_notice (m ks) v.
Proof using Type.
  intros Ht Hs Hi Hf Hn Hh Hp Hv Hpo ks m ack.
  destruct (set_exchange s i c h path v Ht Hs Hi Hf Hn Hh Hp Hv Hpo) as (d & E & Hview & Hsent & _). by exists d.
Qed.

(** A GET request from end to end: the value of the path in the database, escaped if the header asks for it, and a
    NUL are sent to the client; nothing else changes. *)
Theorem server_get_request s i c h path v m :
  tidy s -> avail (mem (base s)) = [] -> clients s !! i = Some c -> 2 < fd c -> action (ipc c) = RGDB_NONE -> action h = RGDB_GET ->
  Forall (fun x => x <> 0) path -> PatchTemplate.vexp_ok (PatchTemplate.VNode (str_tolower path)) = true -> path_ok (str_tolower path) ->
  view (g_xml_root (base s)) (keys_of (str_tolower path)) = Some (v, m) ->
  main_loop s (exchange (fd c) h (mkread None (Some (path ++ [0])))) =
    Some (after s i (set_action h RGDB_NONE) (base s) (Bytes (map u8 (PatchShow.shown (flags h) v) ++ [0])), false).
Proof using Type. exact (get_exchange s i c h path v m). Qed.

Lemma after_tidy s i h d o : tidy s -> tidy (after s i h d o).
Proof using Type. apply tidy_ext. exact (map_fd_set_ipc s i h). Qed.

Lemma after_client s i h d o j c : clients s !! j = Some c -> action h = RGDB_NONE -> action (ipc c) = RGDB_NONE ->
  exists c', clients (after s i h d o) !! j = Some c' /\ fd c' = fd c /\ action (ipc c') = RGDB_NONE.
Proof using Type.
  intros Hj Hh Hc. cbn [after behind clients]. destruct (decide (j = i)) as [->|Hne].
  - rewrite list_lookup_alter_eq, Hj. by eexists.
  - rewrite list_lookup_alter_ne by done. by eexists.
Qed.

(** C6. What one client sets another client gets: after a SET request of the client [i], a GET request of the client [j]
    for the same path, in any mixture of small and capital letters, is answered with the value that was set. *)
Theorem server_read_your_writes s i c hs path v j c' hg path' :
  tidy s -> sane s -> clients s !! i = Some c -> 2 < fd c -> action (ipc c) = RGDB_NONE -> action hs = RGDB_SET ->
  clients s !! j = Some c' -> 2 < fd c' -> action (ipc c') = RGDB_NONE -> action hg = RGDB_GET ->
  Forall (fun x => x <> 0 /\ x <> 32) path -> Forall (fun x => x <> 0) v -> Forall (fun x => x <> 0) path' ->
  str_tolower path' = str_tolower path -> path_ok (str_tolower path) -> nums_ok (str_tolower path) ->
  PatchTemplate.vexp_ok (PatchTemplate.VNode (str_tolower path)) = true ->
  let ack := mkipc RGDB_NONE 0 (flags hs) 0 in
  exists d, main_loop s (exchange (fd c) hs (mkread None (Some ((path ++ 32 :: v) ++ [0]))) ++
                         exchange (fd c') hg (mkread None (Some (path' ++ [0])))) =
    Some (after (after s i ack d (Ack ack)) j (set_action hg RGDB_NONE) d (Bytes (map u8 (PatchShow.shown (flags hg) v) ++ [0])), false).
Proof using Type.
  intros Ht Hs Hi Hf Hn Hh Hj Hf' Hn' Hh' Hp Hv Hp' Elow Hpo Hno Hx ack.
  destruct (set_exchange s i c hs path v Ht Hs Hi Hf Hn Hh Hp Hv Hpo) as (d & E & Hview & _ & Hav). exists d.
  rewrite (main_loop_app _ _ _ _ E). fold ack. specialize (Hview (keys_of (str_tolower path))).
  unfold assigned in Hview. rewrite decide_True in Hview by done. rewrite <- Elow in Hview, Hpo, Hx.
  destruct (after_client s i ack d (Ack ack) j c' Hj eq_refl Hn') as (c2 & Hj2 & Ef & Hn2). rewrite <- Ef in *.
  eapply get_exchange; [by apply after_tidy|by destruct (Hav Hno)|exact Hj2|exact Hf'|done..|exact Hview].
Qed.

Lemma eqb_list_refl w : eqb_list w w = true.
Proof using Type. by apply eqb_list_spec. Qed.

(** ** DUMP and RELOAD *)

Lemma dump_exchange s i c h w :
  tidy s -> avail (mem (base s)) = [] -> clients s !! i = Some c -> 2 < fd c -> action (ipc c) = RGDB_NONE -> action h = RGDB_DUMP ->
  Forall (fun x => x <> 0) w -> w <> str_stdout -> can_write w = true ->
  let ack := mkipc RGDB_NONE 0 (flags h) 0 in
  exists hp, avail hp = [] /\ main_loop s (exchange (fd c) h (mkread None (Some (w ++ [0])))) =
    Some (behind s i ack (Ephp.set_base (eng s) (set_root (base s) (g_xml_root (base s)) hp))
                 ((w, xmldb_dump_nodes [g_xml_root (base s)] 0 (flags h)) :: files s) (Ack ack), false).
Proof using Type.
  intros Ht Hav Hi Hf Hn Hh Hw Hst Hcan ack.
  set (s1 := set_mem (set_ipc s i h) (mkheap [] (live (mem (base s)) + 1))).
  assert (client_of s1 i = mkclient (fd c) h) as Hc1 by (apply client_at, (client_of_set_ipc s i h c Hi)).
  set (s2 := set_files s1 ((w, xmldb_dump_nodes [g_xml_root (base s)] 0 (flags h)) :: files s)).
  exists (free (mem (base s2)) 1). split; [done|].
  erewrite (request_runs _ s i c h _ (acknowledge s2 i RGDB_NONE 0)); [|intros s3 r Hc2; unfold rhandler; rewrite Hc2; cbn [ipc]; rewrite Hh; reflexivity|done..| |].
  - do 2 f_equal. exact (acknowledged s i c h s2 _ RGDB_NONE 0 Hi eq_refl eq_refl eq_refl).
  - cbv beta zeta. fold s1. rewrite Hc1. destruct (Z.eqb_spec (strcmp w str_stdout) 0) as [E|_]; [by apply strcmp_eq in E|]. by rewrite Hcan.
  - cbn [acknowledge emit clients]. rewrite map_fd_set_ipc. apply (map_fd_set_ipc s i h).
Qed.

Lemma reload_exchange s i c h w ret d :
  tidy s -> avail (mem (base s)) = [] -> clients s !! i = Some c -> 2 < fd c -> action (ipc c) = RGDB_NONE -> action h = RGDB_RELOAD ->
  Forall (fun x => x <> 0) w ->
  xmldb_read_xml (set_root (base s) (g_xml_root (base s)) (mkheap [] (live (mem (base s)) + 1))) (name (g_xml_root (base s)))
                 (file_of (files s) w) (flags h) = Some (ret, d) ->
  let ack := mkipc RGDB_NONE 0 (flags h) ret in
  main_loop s (exchange (fd c) h (mkread None (Some (w ++ [0])))) =
    Some (behind s i ack (forget_nodes (Ephp.set_base (eng s) (set_root d (g_xml_root d) (free (mem d) 1)))) (files s) (Ack ack), false).
Proof using Type.
  intros Ht Hav Hi Hf Hn Hh Hw Hread ack.
  set (s1 := set_mem (set_ipc s i h) (mkheap [] (live (mem (base s)) + 1))).
  assert (client_of s1 i = mkclient (fd c) h) as Hc1 by (apply client_at, (client_of_set_ipc s i h c Hi)).
  set (s2 := set_eng s1 (forget_nodes (Ephp.set_base (eng s1) d))).
  erewrite (request_runs _ s i c h _ (acknowledge s2 i RGDB_NONE ret)); [|intros s3 r Hc2; unfold rhandler; rewrite Hc2; cbn [ipc]; rewrite Hh; reflexivity|done..| |].
  - do 2 f_equal. exact (acknowledged s i c h s2 (free (mem d) 1) RGDB_NONE ret Hi eq_refl eq_refl eq_refl).
  - cbv beta. fold s1. rewrite Hc1. cbn [ipc]. change (files s1) with (files s).
    change (base s1) with (set_root (base s) (g_xml_root (base s)) (mkheap [] (live (mem (base s)) + 1))).
    change (g_xml_root (set_root ?a ?b ?c)) with b. rewrite Hread. reflexivity.
  - cbn [acknowledge emit clients]. rewrite map_fd_set_ipc. apply (map_fd_set_ipc s i h).
Qed.

(** C29. Saving and restoring through the server: after a DUMP request to a file and a RELOAD request from it, without
    RGDB_SKIP_PROC, the tree is the one that was saved, without [tmp] and [runtime] and without the
    messages, and the client is told whether anything was loaded. *)
Theorem server_save_restore s i c hd hr w :
  tidy s -> sane s -> clients s !! i = Some c -> 2 < fd c -> action (ipc c) = RGDB_NONE ->
  action hd = RGDB_DUMP -> action hr = RGDB_RELOAD -> Z.land (flags hr) RGDB_SKIP_PROC = 0 ->
  Forall (fun x => x <> 0) w -> w <> str_stdout -> can_write w = true -> printable 0 (g_xml_root (base s)) ->
  let r := mkread None (Some (w ++ [0])) in
  let l := map saved (written (flags hd) (g_xml_root (base s))) in
  exists s', main_loop s (exchange (fd c) hd r ++ exchange (fd c) hr r) = Some (s', false) /\
    g_xml_root (base s') = set_child (g_xml_root (base s)) l /\ opened s' = opened s /\
    out s' = out s ++ [(fd c, Ack (mkipc RGDB_NONE 0 (flags hd) 0));
                       (fd c, Ack (mkipc RGDB_NONE 0 (flags hr) (if bool_decide (l = []) then -1 else 0)))].
Proof using Type.
  intros Ht [Hwf Hav] Hi Hf Hn Hhd Hhr Hfl Hw Hst Hcan Hp r l.
  destruct (dump_exchange s i c hd w Ht Hav Hi Hf Hn Hhd Hw Hst Hcan) as (hp & Hhp & E).
  rewrite (main_loop_app _ _ _ _ E). clear E. set (text := xmldb_dump_nodes _ 0 (flags hd)). set (ack := mkipc RGDB_NONE 0 (flags hd) 0).
  set (sb := behind s i ack _ _ _). assert (clients sb !! i = Some (mkclient (fd c) ack)) as Hib.
  { unfold sb. cbn [behind clients]. by rewrite list_lookup_alter_eq, Hi. }
  assert (tidy sb) as Htb by (eapply tidy_ext; [exact (map_fd_set_ipc s i ack)|done]).
  assert (avail (mem (base sb)) = []) as Hab by exact Hhp.
  assert (g_xml_root (base sb) = g_xml_root (base s)) as Hrb by reflexivity. assert (opened sb = opened s) as Hob by reflexivity.
  assert (out sb = out s ++ [(fd c, Ack ack)]) as Hub by (unfold sb; cbn [behind out]; by rewrite (client_at _ _ _ Hi)).
  assert (file_of (files sb) w = Some text) as Hfb by (unfold sb; cbn [behind files file_of]; by rewrite eqb_list_refl).
  clearbody sb.
  destruct (file_roundtrip (set_root (base sb) (g_xml_root (base sb)) (mkheap [] (live (mem (base sb)) + 1))) (g_xml_root (base s)) (flags hd) (flags hr) Hp eq_refl)
    as (h3 & E3).
  rewrite Hfl in E3. change (0 =? 0) with true in E3. cbv iota in E3. fold text l in E3. rewrite <- Hfb in E3. rewrite <- Hrb in E3.
  pose proof (reload_exchange sb i _ hr w _ _ Htb Hab Hib Hf eq_refl Hhr Hw E3) as E. cbn [fd] in E.
  eexists. split; [exact E|]. split; [cbn; by rewrite Hrb|]. split; [exact Hob|].
  cbn [behind out]. rewrite (client_at _ _ _ Hib), Hub, <- app_assoc. reflexivity.
Qed.

End Exchange.

(** ** Witnesses *)

(** A system in which every file can be written and no log is translated. *)
#[local] Instance plain_system : System := {
  can_write f := true;
  tlogs_used := false;
  tlogs_file f := None;
  depth := 20
}.

Definition served : db := mkdb (g_xml_root example_db) (mkheap [] 10) [].

(** Two clients, with nothing asked yet. *)
Definition two_clients : server := accept_client (accept_client (started served []) 5) 6.

Lemma started_inv : srv_inv (-1) (started served []).
Proof.
  constructor.
  - by vm_compute.
  - unfold fds_ok. apply (bool_decide_unpack _). vm_compute. exact I.
  - unfold calm_table, calm. apply (bool_decide_unpack _). vm_compute. exact I.
  - apply (bool_decide_unpack _). vm_compute. exact I.
  - by vm_compute.
  - split; [exact example_wf|reflexivity].
  - exact example_lower.
  - by vm_compute.
Qed.

Lemma two_clients_inv : srv_inv (-1) two_clients.
Proof.
  unfold two_clients. apply accept_client_inv; [vm_compute; lia|lia|apply (bool_decide_unpack _); vm_compute; exact I|].
  apply accept_client_inv; [vm_compute; lia|lia|apply (bool_decide_unpack _); vm_compute; exact I|]. exact started_inv.
Qed.

Lemma two_clients_tidy : tidy two_clients.
Proof. split; apply two_clients_inv. Qed.

Definition set_header : rgdb_ipc_t := mkipc RGDB_SET 14 0 0.
Definition no_reading : reading := mkread None None.

(** A connection; a value that is set and asked for; and the end, asked for by a signal while the client hangs up. *)
Definition turn_connect : turn := mkturn false (Some (Some 5)) [] (fun _ => no_reading) false.
Definition turn_hangup : turn := mkturn false None [5] (fun _ => no_reading) true.

Definition asks_get : rgdb_ipc_t := mkipc RGDB_GET 12 0 0.
Definition set_data : list Z := Eval cbv in cs "/WAN/node:2 x" ++ [0].
Definition get_data : list Z := Eval cbv in cs "/wan/node:2" ++ [0].

Definition some_requests : list turn :=
  turn_connect :: exchange 5 set_header (mkread None (Some set_data)) ++ exchange 5 asks_get (mkread None (Some get_data)) ++ [turn_hangup].

Lemma no_reading_ok a : reading_ok a no_reading.
Proof. done. Qed.

Lemma header_ok a h : calm (action h) -> reading_ok a (mkread (Some h) None).
Proof. done. Qed.

Lemma request_data_ok a : reading_ok a (mkread None (Some set_data)) /\ reading_ok a (mkread None (Some get_data)).
Proof.
  assert (forall bs, existsb (Z.eqb 0) bs = true -> bool_decide (nums_ok (str_tolower (fst (strchr_space (cstr bs))))) = true -> PatchMessage.message_ok (str_tolower (cstr bs)) = true ->
    reading_ok a (mkread None (Some bs))) as H by (intros bs H1 H2%bool_decide_eq_true_1 H3; split; [done|]; right; by split_and!).
  split; apply H; by vm_compute.
Qed.

(** A turn in which a client that is there is heard. *)
Lemma heard_ok s r ts : (forall a, reading_ok a r) -> (forall s', turns_ok s' ts) -> turns_ok s (only 5 r :: ts).
Proof. intros Hr Hts. split; [split; [exact I|]; intros i c _; apply Hr|]. intros s' _. apply Hts. Qed.

Lemma server_safe_witness :
  exists s', main_loop (started served []) some_requests = Some (s', true) /\ out s' = [(5, Ack (mkipc RGDB_NONE 0 0 0)); (5, Bytes [120; 0])] /\
    opened s' = [] /\ wf (g_xml_root (base s')) /\ live (mem (base s')) - node_blocks (g_xml_root (base s')) = -1.
Proof.
  destruct (server_safe (-1) (started served []) some_requests started_inv) as (s' & ended & E & _ & _ & Hw & _ & Hl & He).
  - split; [split; [split; [lia|]; split; [apply (bool_decide_unpack _); vm_compute; exact I|vm_compute; lia]|]; intros i c _; exact (no_reading_ok _)|].
    intros s1 _. apply heard_ok; [intros a; by apply header_ok|]. intros s2. apply heard_ok; [apply request_data_ok|]. intros s3.
    apply heard_ok; [intros a; by apply header_ok|]. intros s4. apply heard_ok; [apply request_data_ok|]. intros s5. split; [|done]. split; [exact I|]. intros i c _. exact (no_reading_ok _).
  - assert ((fun r => (out (fst r), snd r)) <$> main_loop (started served []) some_requests = Some ([(5, Ack (mkipc RGDB_NONE 0 0 0)); (5, Bytes [120; 0])], true)) as Hb by (by vm_compute).
    rewrite E in Hb. cbn in Hb. injection Hb as Ho ->. exists s'. split; [exact E|]. split; [exact Ho|]. split; [exact (He eq_refl)|]. split; [exact Hw|exact Hl].
Defined.

Definition request_path : list Z := Eval cbv in cs "/WAN/node:2".
Definition other_path : list Z := Eval cbv in cs "/Wan/Node:2".
Definition get_header : rgdb_ipc_t := mkipc RGDB_GET 12 0 0.
Definition idle (f : Z) : xmldb_client := mkclient f (mkipc RGDB_NONE 0 0 0).

Ltac computed := first [reflexivity | apply (bool_decide_unpack _); vm_compute; exact I | by vm_compute].

(** The second client sets a value; the path is put in lower case. *)
Lemma server_set_request_witness :
  exists d, main_loop two_clients (exchange 6 set_header (mkread None (Some ((request_path ++ 32 :: [120]) ++ [0])))) =
      Some (after two_clients 1 (mkipc RGDB_NONE 0 0 0) d (Ack (mkipc RGDB_NONE 0 0 0)), false) /\
    view (g_xml_root d) [(str_wan, 0); (str_node, 2)] = Some ([120], [109]) /\ sent d = [[109]].
Proof.
  destruct (server_set_request two_clients 1 (idle 6) set_header request_path [120] two_clients_tidy) as (d & E & Hv & Hs);
    [split; [exact example_wf|reflexivity]|computed..|].
  exists d. split; [exact E|]. rewrite Hv, Hs. by vm_compute.
Defined.

Lemma server_get_request_witness :
  main_loop two_clients (exchange 6 get_header (mkread None (Some (request_path ++ [0])))) =
    Some (after two_clients 1 (set_action get_header RGDB_NONE) served (Bytes [98; 0]), false).
Proof. apply (server_get_request two_clients 1 (idle 6) get_header request_path [98] [109] two_clients_tidy); computed. Defined.

(** The second client sets a value and the first one reads it. *)
Lemma server_read_your_writes_witness :
  exists d, main_loop two_clients (exchange 6 set_header (mkread None (Some ((request_path ++ 32 :: [120]) ++ [0]))) ++
                                   exchange 5 get_header (mkread None (Some (other_path ++ [0])))) =
    Some (after (after two_clients 1 (mkipc RGDB_NONE 0 0 0) d (Ack (mkipc RGDB_NONE 0 0 0))) 0 (set_action get_header RGDB_NONE) d (Bytes [120; 0]), false).
Proof.
  apply (server_read_your_writes two_clients 1 (idle 6) set_header request_path [120] 0 (idle 5) get_header other_path two_clients_tidy);
    first [computed | split; [exact example_wf|reflexivity]].
Defined.

(** A template with an array and a condition. *)
Definition template_name : list Z := Eval cbv in cs "/etc/dns.txt".
Definition patch_header : rgdb_ipc_t := mkipc RGDB_PATCH 13 0 0.
Definition with_template : server :=
  accept_client (started (mkdb PatchRender.shown_tree (mkheap [] 12) []) [(template_name, PatchTemplate.print_template PatchRender.example_template)]) 5.

Lemma server_patch_request_witness :
  main_loop with_template (exchange 5 patch_header (mkread None (Some (template_name ++ [0])))) =
    Some (after with_template 0 (set_action patch_header RGDB_NONE) (mkdb PatchRender.shown_tree (mkheap [] 13) [])
                (Bytes (cs "mode={ D} dns=1:10.0.0.1 2:10.0.0.2! 2 2900" ++ [0])), false).
Proof.
  apply (server_patch_request with_template 0 (idle 5) patch_header template_name PatchRender.example_template
           (PatchTemplate.mkshown (cs "mode={ D} dns=1:10.0.0.1 2:10.0.0.2! 2 2900") (Some []) [0; 0; 0; 42; 0; 0; 0; 0; 0; 0] 1)).
  - split; computed.
  - computed.
  - computed.
  - computed.
  - computed.
  - computed.
  - computed.
  - computed.
  - computed.
  - computed.
Defined.

Definition config_file : list Z := Eval cbv in cs "/var/config.xml".
Definition dump_header : rgdb_ipc_t := mkipc RGDB_DUMP 16 0 0.
Definition reload_header : rgdb_ipc_t := mkipc RGDB_RELOAD 16 0 0.

Lemma server_save_restore_witness :
  let r := mkread None (Some (config_file ++ [0])) in
  exists s', main_loop two_clients (exchange 5 dump_header r ++ exchange 5 reload_header r) = Some (s', false) /\
    view (g_xml_root (base s')) [(str_wan, 0); (str_node, 2)] = Some ([98], []).
Proof.
  intros r. destruct (server_save_restore two_clients 0 (idle 5) dump_header reload_header config_file two_clients_tidy) as (s' & E & Hr & _).
  - split; [exact example_wf|reflexivity].
  - computed.
  - computed.
  - computed.
  - computed.
  - computed.
  - computed.
  - computed.
  - computed.
  - computed.
  - unfold two_clients, served, base. cbn [eng accept_client set_clients set_opened started Ephp.base g_xml_root example_db]. printable_tree.
  - exists s'. split; [exact E|]. rewrite Hr. by vm_compute.
Defined.

(** When the table is full the result of [add_client] is lost, and with it the descriptor: it stays open. *)
Example full_table_leaks_descriptor :
  let full := set_opened (set_clients (started served []) (repeat (idle 9) MAX_CLIENT_LIST)) [9] in
  opened (accept_client full 200) = [200; 9] /\ existsb (Z.eqb 200) (map fd (clients (accept_client full 200))) = false.
Proof. by vm_compute. Qed.

(** A parameter without its final NUL is used past the end of what was read. *)
Example unterminated_parameter : do_set two_clients 0 (mkread None (Some (cs "/wan/mode 1"))) = None.
Proof. by vm_compute. Qed.

(** ** Requests that go wrong together *)

Definition anchor_name : list Z := Eval cbv in cs "/anchor.php".
Definition query_name : list Z := Eval cbv in cs "/query.php".

Definition with_programs : server :=
  accept_client (started served [(anchor_name, EphpRun.qs "<? anchor('/wan/node:2'); ?>"); (query_name, EphpRun.qs "<? query('.'); ?>")]) 5.

Definition asks (a : Z) (s : list Z) : list turn := exchange 5 (mkipc a (zlen s + 1) 0 0) (mkread None (Some (s ++ [0]))).

(** The node an earlier program has anchored is the one a relative path starts from in later requests; when a
    client deletes it, the next program reads freed memory. *)
Example anchor_outlives_its_node :
  (out ∘ fst <$> main_loop with_programs (asks RGDB_EPHP anchor_name ++ asks RGDB_EPHP query_name)) = Some [(5, Bytes [0]); (5, Bytes [98; 0])] /\
  main_loop with_programs (asks RGDB_EPHP anchor_name ++ asks RGDB_DEL (cs "/wan/node:2") ++ asks RGDB_EPHP query_name) = None.
Proof. by vm_compute. Qed.

(** A template sent to the server costs it a block of memory each time. *)
Example template_requests_leak :
  let ask := exchange 5 (mkipc RGDB_PATCH_BUFF 5 0 0) (mkread None (Some (cs "{{/x}"))) in
  (fun r => live (mem (base (fst r)))) <$> main_loop with_programs (ask ++ ask ++ ask) = Some 13.
Proof. by vm_compute. Qed.

End XmldbRequests.
