(* ===== verification/Lrgbin.v ===== *)
(** * tools/alpha/rgdb/lrgbin.c: the library of the command line client.

    Helpers on strings, arrays of pointers, names of days and lines of files; and the client's side of the
    protocol of the configuration database: a header, a parameter, and an answer that is read in pieces.
    What the system answers to [write] and [read] is the input of the model; [None] is undefined behaviour,
    or an answer that never comes. *)
From Stdlib Require Import ZArith Lia Bool String.
From stdpp Require Import base tactics list option numbers.
From S2P Require Import Prelude Xmldb XmldbFile XmldbServer.

Module Lrgbin.
Import Xmldb XmldbFile XmldbServer.

Definition MAX_CMD_LEN : nat := 1024.

(** [IS_WHITE] of lrgbin.h: blanks and tabulators only. *)
Definition IS_WHITE (c : Z) : bool := (c =? 32) || (c =? 9).

(** ** Strings and commands *)

Definition lrgbin_eatwhite (s : list Z) : list Z := eat IS_WHITE s.
Definition lrgbin_reatwhite (s : list Z) : list Z := rev (eat IS_WHITE (rev s)).

(** What [vsnprintf] leaves of its expansion in a buffer of [n] bytes. *)
Definition snprintf (n : nat) (s : list Z) : list Z := take (n - 1) s.

(** [system]: its argument. *)
Definition lrgbin_system (s : list Z) : list Z := snprintf MAX_CMD_LEN s.

(** [popen]: what the command prints, or NULL.  The result and the buffer; behind a command that prints nothing
    the byte before the buffer is looked at. *)
Definition lrgbin_run_shell (popen : list Z -> option (list Z)) (buf : list Z) (size : Z) (cmd : list Z) : option (Z * list Z) :=
  match popen (snprintf MAX_CMD_LEN cmd) with
  | Some text =>
      let got := take (Z.to_nat (size - 1)) text in
      if (length got <? length buf)%nat then
        let buf := got ++ [0] ++ drop (S (length got)) buf in
        let i := zlen (cstr buf) in
        c ← rd buf (i - 1);
        if c =? 10 then buf ← wr buf (i - 1) 0; Some (0, buf) else Some (0, buf)
      else None
  | None => buf ← wr buf 0 0; Some (-1, buf)
  end.

(** ** Arrays of pointers *)

(** A pointer is its address, or [None]. *)
Record parray_t := mkpa { growsby : nat; size : nat; array : option (list (option Z)) }.

Definition lrgbin_pa_init (growsby : nat) : parray_t := mkpa (if (growsby =? 0)%nat then 16 else growsby) 0 None.

Definition pointers (l : list (option Z)) : Z := zlen (filter (fun p => is_Some p) l).

Definition lrgbin_pa_destroy (pa : parray_t) (do_free : bool) (h : heap) : parray_t * heap :=
  let h :=
    match array pa with
    | Some l => if (0 <? size pa)%nat then free h ((if do_free then pointers l else 0) + 1) else h
    | None => h
    end in
  (lrgbin_pa_init 16, h).

(** [calloc], the pointers copied, the old array freed. *)
Definition lrgbin_pa_grows (pa : parray_t) (n : nat) (h : heap) : Z * parray_t * heap :=
  if (n <=? size pa)%nat then (0, pa, h)
  else
    let '(ok, h) := malloc h in
    if negb ok then (-1, pa, h)
    else
      match array pa with
      | Some l => (0, mkpa (growsby pa) n (Some (take (size pa) l ++ replicate (n - size pa) None)), free h 1)
      | None => (0, mkpa (growsby pa) n (Some (replicate n None)), h)
      end.

Definition lrgbin_pa_get_nth (pa : parray_t) (index : nat) : option (option Z) :=
  if (size pa <=? index)%nat then Some None else l ← array pa; l !! index.

(** The array grows once: an index further away is out of bounds all the same. *)
Definition lrgbin_pa_set_nth (pa : parray_t) (index : nat) (pointer : option Z) (do_free : bool) (h : heap)
  : option (Z * parray_t * heap) :=
  let '(ret, pa, h) :=
    if (size pa <=? index)%nat then lrgbin_pa_grows pa (size pa + growsby pa) h else (0, pa, h) in
  if ret <? 0 then Some (ret, pa, h)
  else
    l ← array pa;
    old ← l !! index;
    let h := if do_free then free h (if old is Some _ then 1 else 0) else h in
    Some (0, mkpa (growsby pa) (size pa) (Some (<[index := pointer]> l)), h).

(** ** Days *)

Definition __days : list Z := Eval cbv in cs "Sun,Mon,Tue,Wed,Thu,Fri,Sat,Sun,Mon,Tue,Wed,Thu,Fri,Sat,".

(** [n] bytes of the table from [at] on, with the terminator, in the buffer of 32 bytes. *)
Definition copy_days (at_ n : Z) : option (list Z) :=
  if (0 <=? at_) && (at_ + n <=? zlen __days) && (n + 1 <=? 32) then Some (take (Z.to_nat n) (drop (Z.to_nat at_) __days)) else None.

Definition lrgbin_getdaystring (start end_ : Z) : option (list Z) :=
  let start := Z.rem start 7 in
  let end_ := Z.rem end_ 7 in
  if start =? end_ then copy_days (start * 4) 3
  else if start <? end_ then copy_days (start * 4) ((end_ - start) * 4 + 3)
  else copy_days (start * 4) ((end_ + 7 - start) * 4 + 3).

(** ** Lines *)

(** The loop of [lrgbin_get_line_from_file]: the bytes stored, the rest of the file, the size of the buffer.  The
    buffer has room for one more byte and the terminator after one step of growth; when it cannot grow the
    next store goes through NULL. *)
Fixpoint line_loop (file acc : list Z) (linebufsz : nat) (strip : bool) (h : heap) : option (list Z * list Z * nat * heap) :=
  match file with
  | [] => Some (acc, [], linebufsz, h)
  | c :: tl =>
      r ← (if (linebufsz <? length acc + 2)%nat then
             let '(ok, h) := malloc h in
             if (ok : bool) then Some ((linebufsz + 80)%nat, if (linebufsz =? 0)%nat then h else free h 1) else None
           else Some (linebufsz, h));
      let '(linebufsz, h) := r in
      let ch := if strip && (c =? 10) then 0 else c in
      acc ← put (Z.of_nat linebufsz) acc [ch];
      if (ch =? 10) || (ch =? 0) then Some (acc, tl, linebufsz, h) else line_loop tl acc linebufsz strip h
  end.

(** The line, or NULL at the end of the file; and the rest of the file. *)
Definition lrgbin_get_line_from_file (file : list Z) (strip : bool) (h : heap) : option (option (list Z) * list Z * heap) :=
  r ← line_loop file [] 0 strip h;
  let '(acc, rest, linebufsz, h) := r in
  match acc with
  | [] => Some (None, rest, h)
  | _ => line ← put (Z.of_nat linebufsz) acc [0]; Some (Some (cstr line), rest, h)
  end.

(** ** The protocol *)

(** What the system answers to a client: the results of the two [write]s, and of the [read]s that follow ([None]: an
    error, no bytes: the end); [junk] is what the return code of the header happens to be. *)
Record peer := mkpeer { w_header : Z; w_data : Z; replies : list (option output); junk : Z }.

(** What reaches the server. *)
Inductive sent := Header (h : rgdb_ipc_t) | Data (bs : list Z).

Definition str_unixsock : list Z := Eval cbv in cs "/var/run/xmldb_sock".

(** [connect]: on the path that fits [sun_path].  The message about a failure prints the name. *)
Definition lrgdb_open (sockname : option (list Z)) (socket : Z) (connect : list Z -> Z) : option Z :=
  if socket <? 0 then Some (-1)
  else if connect (snprintf 108 (default str_unixsock sockname)) <? 0 then _ ← sockname; Some (-1)
  else Some socket.

(** The length of the parameter is a short: of a longer one only a part is sent. *)
Definition send_xmldb_cmd (p : peer) (action flags : Z) (data : list Z) : Z * list sent :=
  let length := u16 (zlen data + 1) in
  let ipc := mkipc action length flags (junk p) in
  if w_header p <=? 0 then (-1, [])
  else if w_data p <=? 0 then (-1, [Header ipc])
  else (0, [Header ipc; Data (take (Z.to_nat length) (data ++ [0]))]).

(** The answer is complete when a piece of it ends with NUL. *)
Fixpoint redirect_output (l : list (option output)) : option (list Z) :=
  match l with
  | Some (Bytes (b :: bs)) :: tl =>
      if list.last (b :: bs) is Some 0 then Some (cstr (b :: bs))
      else o ← redirect_output tl; Some (b :: bs ++ o)
  | Some (Bytes []) :: _ | None :: _ => Some []
  | _ => None
  end.

(** A request with an answer that is written to [out]; [None]: there is no [out], and nothing is read. *)
Definition with_output (p : peer) (action flags : Z) (data : list Z) (out : bool) : option (Z * list sent * list Z) :=
  let '(r, s) := send_xmldb_cmd p action flags data in
  if r <? 0 then Some (-1, s, [])
  else if out then o ← redirect_output (replies p); Some (0, s, o)
  else Some (0, s, []).

Definition lrgdb_get (p : peer) (flags : Z) (node : list Z) (out : bool) := with_output p RGDB_GET flags node out.
Definition lrgdb_patch (p : peer) (flags : Z) (tempfile : list Z) (out : bool) := with_output p RGDB_PATCH flags tempfile out.
Definition lrgdb_ephp (p : peer) (flags : Z) (phpfile : list Z) (out : bool) := with_output p RGDB_EPHP flags phpfile out.
Definition lrgdb_patch_buffer (p : peer) (flags : Z) (buffer : list Z) (out : bool) := with_output p RGDB_PATCH_BUFF flags buffer out.

(** One [read] into a buffer of [size] bytes; the size, and the bytes. *)
Definition lrgdb_getwb (p : peer) (size : nat) (node : list Z) : option (Z * list sent * list Z) :=
  r ← lrgdb_get p 0 (snprintf 512 node) false;
  let '(ret, s, _) := r in
  if ret <? 0 then Some (-1, s, [])
  else
    match replies p with
    | Some (Bytes bs) :: _ => let bs := take size bs in Some (zlen bs, s, bs)
    | None :: _ => Some (-1, s, [])
    | _ => None
    end.

(** A request that is acknowledged: the return code of the header that comes back, whatever it was before if none
    comes. *)
Definition acknowledged (p : peer) (action flags : Z) (data : list Z) : option (Z * list sent) :=
  let '(r, s) := send_xmldb_cmd p action flags data in
  if r <? 0 then Some (-1, s)
  else match replies p with Some (Ack h) :: _ => Some (retcode h, s) | _ => None end.

(** The path and the value in a buffer of 255 bytes. *)
Definition pair_string (node value : list Z) : list Z := snprintf 255 (node ++ 32 :: value).

Definition lrgdb_set (p : peer) (flags : Z) (node value : list Z) := acknowledged p RGDB_SET flags (pair_string node value).
Definition lrgdb_set_notify (p : peer) (flags : Z) (node message : list Z) := acknowledged p RGDB_SET_NOTIFY flags (pair_string node message).
Definition lrgdb_del (p : peer) (flags : Z) (node : list Z) := acknowledged p RGDB_DEL flags node.
Definition lrgdb_reload (p : peer) (flags : Z) (file : list Z) := acknowledged p RGDB_RELOAD flags file.
Definition lrgdb_dump (p : peer) (flags : Z) (file : list Z) := acknowledged p RGDB_DUMP flags file.

(** ** The array as a map *)

(** The pointer at an index, NULL beyond the end; the blocks of memory of the array. *)
Definition slot (pa : parray_t) (k : nat) : option Z := mjoin (default [] (array pa) !! k).
Definition pa_blocks (pa : parray_t) : Z := if array pa is Some _ then 1 else 0.

Definition pa_ok (pa : parray_t) : Prop :=
  (0 < growsby pa)%nat /\ match array pa with Some l => length l = size pa | None => size pa = 0%nat end.

Lemma pa_init_ok n : pa_ok (lrgbin_pa_init n) /\ forall k, slot (lrgbin_pa_init n) k = None.
Proof. split; [|done]. split; [|done]. unfold lrgbin_pa_init. cbn [growsby]. destruct (Nat.eqb_spec n 0); lia. Qed.

(** Every index can be read. *)
Lemma pa_get_spec pa k : pa_ok pa -> lrgbin_pa_get_nth pa k = Some (slot pa k).
Proof.
  intros [_ Hs]. unfold lrgbin_pa_get_nth, slot. destruct (Nat.leb_spec (size pa) k) as [Hk|Hk].
  - destruct (array pa) as [l|]; [|done]. simpl. by rewrite lookup_ge_None_2 by lia.
  - destruct (array pa) as [l|]; [|lia]. simpl. destruct (lookup_lt_is_Some_2 l k) as [x ->]; [lia|done].
Qed.

(** Growing changes no pointer, and the memory of the array is one block again. *)
Lemma pa_grows_spec pa n h : pa_ok pa -> avail h = [] -> exists pa' h', lrgbin_pa_grows pa n h = (0, pa', h') /\
  pa_ok pa' /\ size pa' = Nat.max n (size pa) /\ avail h' = [] /\ live h' - pa_blocks pa' = live h - pa_blocks pa /\
  forall k, slot pa' k = slot pa k.
Proof.
  intros [Hg Hs] Ha. unfold lrgbin_pa_grows. destruct (Nat.leb_spec n (size pa)) as [Hn|Hn]; [exists pa, h; split_and!; [done..|lia|done|done|done]|].
  unfold malloc. rewrite Ha. cbn [negb]. destruct pa as [g sz [l|]]; cbn [array size growsby] in *; eexists _, _; (split; [done|]);
    unfold pa_ok, pa_blocks, slot; simpl; (split_and!; [done| | |done| |]).
  - rewrite length_app, length_take, length_replicate. lia.
  - lia.
  - unfold free. cbn [live]. lia.
  - intros k. rewrite take_ge by lia. destruct (Nat.lt_ge_cases k (length l)) as [Hk|Hk]; [by rewrite lookup_app_l by lia|].
    rewrite lookup_app_r, (lookup_ge_None_2 l) by lia. destruct (replicate _ _ !! _) eqn:E; [|done].
    apply lookup_replicate in E as [-> _]. done.
  - by rewrite length_replicate.
  - lia.
  - cbn [live]. lia.
  - intros k. destruct (replicate n None !! k) eqn:E; [|done]. apply lookup_replicate in E as [-> _]. done.
Qed.

(** An array of pointers is a map from indices: a pointer that is set is the one found at its index, the others stay,
    and what was there before is freed if that is asked for; for any index up to one step of growth past the
    end. *)
Theorem pa_set_spec pa index pointer do_free h :
  pa_ok pa -> avail h = [] -> (index < size pa + growsby pa)%nat ->
  exists pa' h', lrgbin_pa_set_nth pa index pointer do_free h = Some (0, pa', h') /\ pa_ok pa' /\ avail h' = [] /\
    live h' - pa_blocks pa' = live h - pa_blocks pa - (if do_free then if slot pa index is Some _ then 1 else 0 else 0) /\
    forall k, lrgbin_pa_get_nth pa' k = Some (if decide (k = index) then pointer else slot pa k).
Proof.
  intros Hp Ha Hi. unfold lrgbin_pa_set_nth.
  assert (exists pa1 h1, (if (size pa <=? index)%nat then lrgbin_pa_grows pa (size pa + growsby pa) h else (0, pa, h)) = (0, pa1, h1) /\
    pa_ok pa1 /\ (index < size pa1)%nat /\ avail h1 = [] /\ live h1 - pa_blocks pa1 = live h - pa_blocks pa /\
    forall k, slot pa1 k = slot pa k) as (pa1 & h1 & -> & [Hg Hs] & Hi1 & Ha1 & Hl & Hsl).
  { destruct (Nat.leb_spec (size pa) index) as [Hle|Hle]; [|by exists pa, h].
    destruct (pa_grows_spec pa (size pa + growsby pa) h Hp Ha) as (pa1 & h1 & -> & Hok & Hs & Ha1 & Hl & Hk).
    exists pa1, h1. split_and!; [done|done|lia|done..]. }
  change (0 <? 0) with false. cbv iota. rewrite <- (Hsl index). destruct pa1 as [g sz [l|]]; cbn [array size growsby] in *; [|lia].
  cbn [mbind option_bind]. assert (slot (mkpa g sz (Some l)) index = mjoin (l !! index)) as -> by done. destruct (lookup_lt_is_Some_2 l index) as [old Ho]; [lia|].
  rewrite Ho. cbn [mjoin option_join]. eexists _, _. split; [done|].
  assert (pa_ok (mkpa g sz (Some (<[index:=pointer]> l)))) as Hok by (split; [done|cbn; by rewrite length_insert]).
  split; [done|]. split; [by destruct do_free|]. split.
  - unfold pa_blocks in *. cbn [array] in *. destruct do_free; [|lia]. unfold free. cbn [live]. destruct old; lia.
  - intros k. rewrite pa_get_spec by done. rewrite <- Hsl. unfold slot. simpl. destruct (decide (k = index)) as [->|Hk].
    + by rewrite list_lookup_insert_eq by lia.
    + by rewrite list_lookup_insert_ne by done.
Qed.

(** Further away the array, which has grown once, is overrun. *)
Example pa_set_far : lrgbin_pa_set_nth (lrgbin_pa_init 16) 16 (Some 1) false (mkheap [] 0) = None.
Proof. reflexivity. Qed.

(** ** Answers in pieces *)

(** The pieces in which the bytes of an answer are read. *)
Definition pieces (l : list (list Z)) : list (option output) := map (fun bs => Some (Bytes bs)) l.

Lemma cstr_plain w r : Forall (fun c => c <> 0) w -> cstr (w ++ 0 :: r) = w.
Proof. induction 1 as [|c w Hc _ IH]; [done|]. cbn [app cstr]. by rewrite (proj2 (Z.eqb_neq _ _) Hc), IH. Qed.

Lemma last_not_nul w : Forall (fun c => c <> 0) w -> w <> [] -> exists c, list.last w = Some c /\ c <> 0.
Proof.
  intros Hw Hn. destruct (list.last w) as [c|] eqn:E; [|by apply last_None in E]. exists c. split; [done|].
  apply last_Some_elem_of in E. rewrite Forall_forall in Hw. apply Hw. by apply list_elem_of_In.
Qed.

(** However an answer is cut into pieces, the client writes its text. *)
Lemma redirect_pieces l : forall text, Forall (fun c => c <> 0) text -> Forall (fun bs => bs <> []) l ->
  concat l = text ++ [0] -> redirect_output (pieces l) = Some text.
Proof.
  induction l as [|bs l IH]; intros text Ht Hl E; [by destruct text|]. apply Forall_cons_iff in Hl as [Hb Hl].
  cbn [concat] in E. destruct bs as [|b bs]; [done|]. cbn [pieces map redirect_output]. fold (pieces l).
  apply app_eq_app in E as (r & [[E1 E2]|[E1 E2]]).
  - assert (r = [0] /\ concat l = [] \/ r = [] /\ concat l = [0]) as [[-> E3]|[-> E3]].
    { destruct r as [|x r]; [by right|]. left. injection E2 as <- E2. symmetry in E2. by apply app_eq_nil in E2 as [-> ->]. }
    + rewrite E1, last_snoc. by rewrite cstr_plain.
    + rewrite app_nil_r in E1. rewrite E1. destruct (last_not_nul text Ht) as (c & -> & Hc); [by rewrite <- E1|].
      rewrite (IH [] (List.Forall_nil _) Hl E3). cbn [mbind option_bind]. rewrite app_nil_r, E1. by destruct c.
  - rewrite E1 in Ht. apply Forall_app in Ht as [Ht1 Ht2]. destruct (last_not_nul _ Ht1) as (c & -> & Hc); [done|].
    rewrite (IH r Ht2 Hl E2). cbn [mbind option_bind]. rewrite E1. by destruct c.
Qed.

(** ** Days *)

Definition day (k : nat) : list Z := take 3 (drop (4 * k) __days).

Fixpoint join (l : list (list Z)) : list Z :=
  match l with [] => [] | [w] => w | w :: tl => w ++ 44 :: join tl end.

(** The days of the week from one to another, round the end of the week. *)
Definition days_between (start end_ : Z) : list nat :=
  map (fun k => Z.to_nat ((start + Z.of_nat k) mod 7)) (seq 0 (S (Z.to_nat ((end_ - start) mod 7)))).

(** For any two days the string has the names of the days from the first to the last, separated by commas. *)
Theorem getdaystring_spec start end_ :
  0 <= start -> 0 <= end_ -> lrgbin_getdaystring start end_ = Some (join (map day (days_between start end_))).
Proof.
  intros Hs He.
  assert (forall a b, 0 <= a < 7 -> 0 <= b < 7 -> lrgbin_getdaystring a b = Some (join (map day (days_between a b)))) as H7.
  { intros a b Ha Hb. assert (a = 0 \/ a = 1 \/ a = 2 \/ a = 3 \/ a = 4 \/ a = 5 \/ a = 6) as Ha' by lia.
    assert (b = 0 \/ b = 1 \/ b = 2 \/ b = 3 \/ b = 4 \/ b = 5 \/ b = 6) as Hb' by lia.
    repeat destruct Ha' as [->|Ha']; try subst a; repeat destruct Hb' as [->|Hb']; try subst b; reflexivity. }
  pose proof (Z.mod_pos_bound start 7 ltac:(lia)) as Ms. pose proof (Z.mod_pos_bound end_ 7 ltac:(lia)) as Me.
  specialize (H7 (start mod 7) (end_ mod 7) Ms Me).
  assert (lrgbin_getdaystring start end_ = lrgbin_getdaystring (start mod 7) (end_ mod 7)) as ->.
  { unfold lrgbin_getdaystring. rewrite !(Z.rem_small (_ mod 7)) by lia. by rewrite !Z.rem_mod_nonneg by lia. }
  assert (days_between (start mod 7) (end_ mod 7) = days_between start end_) as <-; [|done].
  unfold days_between. rewrite <- Zminus_mod. apply map_ext. intros k. by rewrite Zplus_mod_idemp_l.
Qed.

Lemma getdaystring_spec_witness : lrgbin_getdaystring 5 8 = Some (cs "Fri,Sat,Sun,Mon").
Proof. apply (getdaystring_spec 5 8); lia. Defined.

(** A day before Sunday is an index before the table. *)
Example negative_day : lrgbin_getdaystring (-1) 3 = None.
Proof. reflexivity. Qed.

(** ** Lines *)

(** The first line of a text with its newline, and the rest. *)
Fixpoint break_line (s : list Z) : list Z * list Z :=
  match s with
  | [] => ([], [])
  | c :: tl => if c =? 10 then ([10], tl) else let '(l, r) := break_line tl in (c :: l, r)
  end.

Definition chomp (strip : bool) (l : list Z) : list Z := if strip then filter (fun c => c <> 10) l else l.

Lemma break_line_app s : fst (break_line s) ++ snd (break_line s) = s.
Proof. induction s as [|c s IH]; [done|]. cbn [break_line]. destruct (Z.eqb_spec c 10) as [->|_]; [done|]. destruct (break_line s). cbn in *. by rewrite IH. Qed.

(** What the buffer holds behind the loop: a newline that is stripped is stored as NUL. *)
Definition stored (strip : bool) (l : list Z) : list Z := map (fun c => if strip && (c =? 10) then 0 else c) l.

(** One step of growth makes room for a byte and the terminator. *)
Lemma grow_spec (acc : list Z) n h :
  avail h = [] -> (length acc < n \/ n = 0 /\ acc = [])%nat ->
  exists n', (if (n <? length acc + 2)%nat then
      let '(ok, h) := malloc h in
      if (ok : bool) then Some ((n + 80)%nat, if (n =? 0)%nat then h else free h 1) else None
    else Some (n, h)) = Some (n', mkheap [] (live h + if (n =? 0)%nat then 1 else 0)) /\ (length acc + 1 < n')%nat.
Proof.
  intros Ha Hn. destruct h as [av k]. cbn [avail] in Ha. subst av. destruct (Nat.ltb_spec n (length acc + 2)) as [Hl|Hl].
  - exists (n + 80)%nat. unfold malloc, free. cbn [avail live]. destruct (Nat.eqb_spec n 0) as [->|H0]; (split; [|destruct Hn as [?|[? ->]]; cbn [length] in *; lia]).
    + done.
    + do 3 f_equal. lia.
  - exists n. destruct (Nat.eqb_spec n 0) as [->|H0]; [lia|]. rewrite Z.add_0_r. split; [done|lia].
Qed.

Lemma line_loop_spec strip file : Forall (fun c => c <> 0) file -> forall acc n h,
  avail h = [] -> (length acc < n \/ n = 0 /\ acc = [])%nat -> file <> [] ->
  exists n', line_loop file acc n strip h = Some (acc ++ stored strip (fst (break_line file)), snd (break_line file), n',
      mkheap [] (live h + if (n =? 0)%nat then 1 else 0)) /\ (length acc + length (fst (break_line file)) < n')%nat.
Proof.
  induction 1 as [|c file Hc Hf IH]; intros acc n h Ha Hn Hne; [done|]. cbn [line_loop break_line].
  destruct (grow_spec acc n h Ha Hn) as (n1 & -> & Hn1). cbn [mbind option_bind].
  unfold put. rewrite (proj2 (Z.leb_le _ _)) by (cbn [length]; lia). cbn [mbind option_bind].
  destruct (Z.eqb_spec c 10) as [->|Hc10].
  - exists n1. cbn [fst snd length stored map]. split; [|lia]. destruct strip; done.
  - rewrite andb_false_r, (proj2 (Z.eqb_neq _ _) Hc10), (proj2 (Z.eqb_neq _ _) Hc). cbn [orb].
    destruct file as [|d file].
    + exists n1. cbn [line_loop break_line fst snd length stored map]. rewrite (proj2 (Z.eqb_neq _ _) Hc10), andb_false_r. split; [done|lia].
    + destruct (IH (acc ++ [c]) n1 (mkheap [] (live h + if (n =? 0)%nat then 1 else 0)) eq_refl) as (n2 & E & Hn2);
        [left; rewrite length_app; cbn; lia|done|].
      exists n2. rewrite E. destruct (break_line (d :: file)) as [l r]. cbn [fst snd live length] in *. split.
      * rewrite (proj2 (Nat.eqb_neq n1 0)) by lia. rewrite Z.add_0_r, <- app_assoc. cbn [stored map app].
        by rewrite (proj2 (Z.eqb_neq _ _) Hc10), andb_false_r.
      * rewrite length_app in Hn2. cbn [length] in Hn2. lia.
Qed.

Lemma break_line_shape s : exists l, Forall (fun c => c <> 10) l /\ (fst (break_line s) = l \/ fst (break_line s) = l ++ [10]).
Proof.
  induction s as [|c s (l & Hl & H)]; [by exists []; split; [|left]|]. cbn [break_line]. destruct (Z.eqb_spec c 10) as [->|Hc].
  - exists []. split; [done|by right].
  - destruct (break_line s) as [a r]. cbn [fst] in *. exists (c :: l). split; [by constructor|]. destruct H as [->| ->]; [by left|by right].
Qed.

Lemma stored_line strip s : Forall (fun c => c <> 0) s -> cstr (stored strip (fst (break_line s)) ++ [0]) = chomp strip (fst (break_line s)).
Proof.
  intros Hs. destruct (break_line_shape s) as (l & Hl & H). assert (Forall (fun c => c <> 0) (fst (break_line s))) as H0.
  { rewrite <- (break_line_app s) in Hs. by apply Forall_app in Hs as [? _]. }
  destruct strip; unfold stored, chomp; [|cbn [andb]; rewrite map_id; by rewrite cstr_plain].
  assert (map (fun c => if true && (c =? 10) then 0 else c) l = l) as Em.
  { clear -Hl. induction Hl as [|c l Hc _ IH]; [done|]. cbn [map andb]. rewrite (proj2 (Z.eqb_neq _ _) Hc). cbn [andb] in IH. by rewrite IH. }
  assert (filter (fun c => c <> 10) l = l) as Ef.
  { clear -Hl. induction Hl as [|c l Hc _ IH]; [done|]. rewrite filter_cons, decide_True by done. by rewrite IH. }
  destruct H as [E|E]; rewrite E in *.
  - rewrite Em, Ef. by rewrite cstr_plain.
  - rewrite map_app, Em, list.filter_app, Ef. apply Forall_app in H0 as [H0 _]. cbn [map app]. change (filter (fun c => c <> 10) [10]) with (@nil Z).
    rewrite <- app_assoc, app_nil_r. cbn [app]. by apply (cstr_plain l [0]).
Qed.

(** A text file is read line by line: the line with its newline, or without it, and the rest of the file; the buffer,
    which grows by 80 bytes, is never overrun, and is one block of memory. *)
Lemma get_line_spec file strip h :
  Forall (fun c => c <> 0) file -> avail h = [] -> file <> [] ->
  lrgbin_get_line_from_file file strip h =
    Some (Some (chomp strip (fst (break_line file))), snd (break_line file), mkheap [] (live h + 1)).
Proof.
  intros Hf Ha Hne. unfold lrgbin_get_line_from_file. destruct (line_loop_spec strip file Hf [] 0 h Ha ltac:(by right) Hne) as (n & -> & Hn).
  cbn [mbind option_bind app]. change (0 =? 0)%nat with true. cbv iota.
  assert (length (stored strip (fst (break_line file))) = length (fst (break_line file))) as Hl by apply length_map.
  pose proof (stored_line strip file Hf) as Hs. destruct (stored strip _) as [|c l] eqn:E.
  - exfalso. destruct file as [|c file]; [done|]. cbn [break_line] in Hl. destruct (c =? 10); [done|]. by destruct (break_line file).
  - unfold put. rewrite (proj2 (Z.leb_le _ _)) by (cbn [length] in *; lia). cbn [mbind option_bind]. by rewrite Hs.
Qed.

End Lrgbin.
