(* ===== verification/Rgdb.v ===== *)
(** * tools/alpha/rgdb/rgdb.c: the command line client of the configuration database.

    The options, which [getopt] finds in the arguments, the requests, and what the program prints and gives
    back when it ends.  What the system answers is the input of the model; [Undefined] is undefined behaviour,
    or an answer that never comes. *)
From Stdlib Require Import ZArith Lia Bool String.
From stdpp Require Import base tactics list option numbers functions.
From S2P Require Import Prelude Xmldb XmldbFile XmldbServer Lrgbin.

Module Rgdb.
Import Xmldb XmldbFile XmldbServer Lrgbin.

Definition RGDB_ESCAPE_JS : Z := 1.

(** ** The state of the program *)

(** The static variables that hold strings of the heap. *)
Inductive var := o_node_path | o_node_value | o_unixsock | o_reloadfile | o_dumpfile | o_tempfile | o_ephpfile | o_escape | o_patchmsg.

#[export] Instance var_eq_dec : EqDecision var.
Proof. solve_decision. Defined.

Definition all_vars : list var :=
  [o_node_path; o_node_value; o_unixsock; o_reloadfile; o_dumpfile; o_tempfile; o_escape; o_patchmsg; o_ephpfile].

(** The variables, the heap, what was printed, and the commands that were run. *)
Record proc := mkproc {
  o_verbose : Z; o_ignore : Z; o_skip_proc : Z; o_action : Z;
  vars : var -> option (list Z);
  hp : heap; stdout : list Z; ran : list (list Z)
}.

Definition set_flags (p : proc) (v i s : Z) : proc := mkproc v i s (o_action p) (vars p) (hp p) (stdout p) (ran p).
Definition set_o_action (p : proc) (a : Z) : proc := mkproc (o_verbose p) (o_ignore p) (o_skip_proc p) a (vars p) (hp p) (stdout p) (ran p).
Definition set_var (p : proc) (v : var) (x : option (list Z)) (h : heap) : proc :=
  mkproc (o_verbose p) (o_ignore p) (o_skip_proc p) (o_action p) (<[v := x]> (vars p)) h (stdout p) (ran p).
Definition set_hp (p : proc) (h : heap) : proc :=
  mkproc (o_verbose p) (o_ignore p) (o_skip_proc p) (o_action p) (vars p) h (stdout p) (ran p).
Definition print (p : proc) (s : list Z) : proc :=
  mkproc (o_verbose p) (o_ignore p) (o_skip_proc p) (o_action p) (vars p) (hp p) (stdout p ++ s) (ran p).
Definition system (p : proc) (s : list Z) : proc :=
  mkproc (o_verbose p) (o_ignore p) (o_skip_proc p) (o_action p) (vars p) (hp p) (stdout p) (ran p ++ [lrgbin_system s]).

Definition init (h : heap) : proc := mkproc 0 0 0 RGDB_NONE (fun _ => None) h [] [].

(** A step goes on, or the program ends with an exit code. *)
Inductive outcome := Next (p : proc) | Exit (code : Z) (p : proc) | Undefined.

Definition andthen (x : outcome) (k : proc -> outcome) : outcome := match x with Next p => k p | _ => x end.

Definition verbose (p : proc) (s : list Z) : proc := if o_verbose p =? 0 then p else print p s.

(** The blocks that the variables hold. *)
Definition held (vs : var -> option (list Z)) : Z := foldr (fun v n => (if vs v is Some _ then 1 else 0) + n) 0 all_vars.

Definition num (n : Z) : list Z := if n <? 0 then 45 :: dec (- n) else dec n.

Definition cleanup_exit (code : Z) (p : proc) : outcome :=
  let p := set_hp p (free (hp p) (held (vars p))) in
  Exit code (verbose p (cs "rgdb exit with code " ++ num code ++ [10])).

Definition usage : list Z := Eval cbv in
  cs "Usage: rgdb [OPTIONS]" ++ [10] ++
  cs "  -h                     show this help message." ++ [10] ++
  cs "  -v                     verbose mode." ++ [10] ++
  cs "  -i                     ignore external function(like runtime)." ++ [10] ++
  cs "  -a                     skip node 'proc'." ++ [10] ++
  cs "  -A {ephp file}         embeded php parse." ++ [10] ++
  cs "  -g {node path}         get value from {node path}." ++ [10] ++
  cs "  -s {node path} {value} set {value} in {node path}." ++ [10] ++
  cs "  -n {node path} {msg}   set notify message in {node path}." ++ [10] ++
  cs "  -d {node path}         delete {node path}." ++ [10] ++
  cs "  -p {template file}     patch the specified template file." ++ [10] ++
  cs "  -P {template message}  patch the specified template message." ++ [10] ++
  cs "  -l {XML file}          reload XML file to database." ++ [10] ++
  cs "  -e {type}              insert escape character in output." ++ [10] ++
  cs "  -D {XML file}          dump database to XML file." ++ [10] ++
  cs "  -S {unix socket}       specify unix socket name, default is " ++ str_unixsock ++ cs "." ++ [10; 10] ++
  cs " For type of escape character." ++ [10] ++
  cs "  -e js                  javascript." ++ [10; 10].

Definition show_usage (code : Z) (p : proc) : outcome := cleanup_exit code (print p usage).

(** ** Options *)

(** What a call of [getopt] finds: the option, its argument, and the word behind it. *)
Record seen := mkseen { opt : Z; optarg : list Z; next : option (list Z) }.

Definition no_memory : list Z := Eval cbv in cs "memory allocation fail!" ++ [10].
Definition no_memory_typo : list Z := Eval cbv in cs "memory allocateion fail!" ++ [10].
Definition no_value : list Z := Eval cbv in cs "no value assigned for set action!" ++ [10].

(** [if (v) free(v); v = strdup(s); if (v == NULL) ...] *)
Definition assign (v : var) (s msg : list Z) (p : proc) : outcome :=
  let h := if vars p v is Some _ then free (hp p) 1 else hp p in
  let '(x, h) := strdup h s in
  let p := set_var p v x h in
  if x is Some _ then Next p else cleanup_exit (-1) (verbose p msg).

(** An option with its string; it decides on the action. *)
Definition choose (v : var) (s : list Z) (a : Z) (p : proc) : outcome := andthen (assign v s no_memory p) (fun p => Next (set_o_action p a)).

(** The body of the loop of [parse_args]. *)
Definition option_step (a : seen) (p : proc) : outcome :=
  let c := opt a in
  if c =? 104 then show_usage 0 p
  else if c =? 118 then Next (set_flags p (o_verbose p + 1) (o_ignore p) (o_skip_proc p))
  else if c =? 105 then Next (set_flags p (o_verbose p) (o_ignore p + 1) (o_skip_proc p))
  else if c =? 97 then Next (set_flags p (o_verbose p) (o_ignore p) (o_skip_proc p + 1))
  else if c =? 101 then assign o_escape (optarg a) no_memory p
  else if c =? 103 then choose o_node_path (lrgbin_eatwhite (optarg a)) RGDB_GET p
  else if (c =? 110) || (c =? 115) then
    andthen (assign o_node_path (lrgbin_eatwhite (optarg a)) no_memory p) (fun p =>
      match next a with
      | None => show_usage (-1) (verbose p no_value)
      | Some v =>
          andthen (assign o_node_value (lrgbin_eatwhite v) no_memory_typo p) (fun p =>
            Next (set_o_action p (if c =? 110 then RGDB_SET_NOTIFY else RGDB_SET)))
      end)
  else if c =? 100 then choose o_node_path (lrgbin_eatwhite (optarg a)) RGDB_DEL p
  else if c =? 112 then choose o_tempfile (lrgbin_eatwhite (optarg a)) RGDB_PATCH p
  else if c =? 80 then choose o_patchmsg (optarg a) RGDB_PATCH_BUFF p
  else if c =? 65 then choose o_ephpfile (optarg a) RGDB_EPHP p
  else if c =? 108 then choose o_reloadfile (optarg a) RGDB_RELOAD p
  else if c =? 68 then choose o_dumpfile (optarg a) RGDB_DUMP p
  else if c =? 83 then assign o_unixsock (optarg a) no_memory p
  else show_usage (-1) p.

Fixpoint parse_loop (l : list seen) (p : proc) : outcome :=
  match l with
  | [] => Next p
  | a :: tl => andthen (option_step a p) (parse_loop tl)
  end.

Definition no_action : list Z := Eval cbv in cs "no action specified!" ++ [10].

Definition parse_args (l : list seen) (p : proc) : outcome :=
  andthen (parse_loop l p) (fun p =>
    if o_action p =? RGDB_NONE then cleanup_exit 0 (verbose p no_action)
    else
      let p := if vars p o_unixsock is Some _ then p
               else let '(x, h) := strdup (hp p) str_unixsock in set_var p o_unixsock x h in
      if o_verbose p =? 0 then Next p
      else match vars p o_unixsock with
           | Some s => Next (verbose p (cs "Unix socket: " ++ s ++ [10]))
           | None => Undefined
           end).

(** [getopt] of the C library with the options of the program: words from the first one on, up to one that is no
    option. *)
Definition flag_options : list Z := Eval cbv in cs "hvia".
Definition arg_options : list Z := Eval cbv in cs "gsdpPleDSAn".
Definition bad_option : seen := mkseen 63 [] None.

Fixpoint getopt_word (w : list Z) (rest : list (list Z)) : list seen * list (list Z) :=
  match w with
  | [] => ([], rest)
  | c :: w' =>
      if existsb (Z.eqb c) arg_options then
        match w', rest with
        | _ :: _, _ => ([mkseen c w' (head rest)], rest)
        | [], a :: rest' => ([mkseen c a (head rest')], rest')
        | [], [] => ([bad_option], [])
        end
      else
        let '(l, r) := getopt_word w' rest in
        ((if existsb (Z.eqb c) flag_options then mkseen c [] (head rest) else bad_option) :: l, r)
  end.

Fixpoint getopt_loop (fuel : nat) (args : list (list Z)) : list seen :=
  match fuel, args with
  | S fuel, (d :: c :: w) :: rest =>
      if negb (d =? 45) || (c =? 45) && bool_decide (w = []) then []
      else let '(l, r) := getopt_word (c :: w) rest in l ++ getopt_loop fuel r
  | _, _ => []
  end.

Definition getopt (args : list (list Z)) : list seen := getopt_loop (length args) args.

(** ** Runtime nodes *)

(** The text before the first slash and behind it. *)
Fixpoint cut_slash (s : list Z) : option (list Z * list Z) :=
  match s with
  | [] => None
  | c :: tl => if c =? 47 then Some ([], tl) else '(w, r) ← cut_slash tl; Some (c :: w, r)
  end.

(** The text before the slash is copied into [cmd], whatever its length; without a slash the loop runs past the string. *)
Definition runtime (node : list Z) (p : proc) : outcome :=
  match cut_slash node with
  | None => Undefined
  | Some (cmd, rest) =>
      if 64 <=? zlen cmd then Undefined
      else if o_action p =? RGDB_GET then
        let s := cmd ++ cs " -g " ++ rest in Next (system (verbose p (s ++ [10])) s)
      else if o_action p =? RGDB_SET then
        match vars p o_node_value with
        | Some v => let s := cmd ++ cs " -s " ++ rest ++ [32; 34] ++ v ++ [34; 10] in Next (system (verbose p s) s)
        | None => Undefined
        end
      else Next p
  end.

(** ** The program *)

Definition str_js : list Z := Eval cbv in cs "js".

Definition get_flags (p : proc) : Z :=
  let f := if vars p o_escape is Some e then if eqb_list e str_js then RGDB_ESCAPE_JS else 0 else 0 in
  if o_skip_proc p =? 0 then f else Z.lor f RGDB_SKIP_PROC.

(** What the system answers: a new socket, [connect], and the exchange with the server. *)
Record system_t := mksys { socket : Z; connect : list Z -> Z; other : peer }.

(** What [main] does over the connection: the exit code, the messages, and what is printed; through -1 nothing can be
    written. *)
Definition act (p : proc) (fd : Z) (s : peer) : option (Z * list sent * list Z) :=
  let s := if fd <? 0 then mkpeer (-1) (w_data s) (replies s) (junk s) else s in
  let quiet (x : option (Z * list sent)) := '(i, l) ← x; Some (i, l, []) in
  let f := get_flags p in
  let a := o_action p in
  if a =? RGDB_GET then w ← vars p o_node_path; '(i, l, o) ← lrgdb_get s f w true; Some (i, l, o ++ [10])
  else if a =? RGDB_SET then w ← vars p o_node_path; v ← vars p o_node_value; quiet (lrgdb_set s f w v)
  else if a =? RGDB_SET_NOTIFY then w ← vars p o_node_path; v ← vars p o_node_value; quiet (lrgdb_set_notify s f w v)
  else if a =? RGDB_DEL then w ← vars p o_node_path; quiet (lrgdb_del s f w)
  else if a =? RGDB_RELOAD then w ← vars p o_reloadfile; quiet (lrgdb_reload s f w)
  else if a =? RGDB_DUMP then w ← vars p o_dumpfile; quiet (lrgdb_dump s f w)
  else if a =? RGDB_PATCH then w ← vars p o_tempfile; lrgdb_patch s f w true
  else if a =? RGDB_EPHP then w ← vars p o_ephpfile; lrgdb_ephp s f w true
  else w ← vars p o_patchmsg; lrgdb_patch_buffer s f w true.

Definition str_runtime : list Z := Eval cbv in cs "/runtime/".

(** The path and the value without blanks at the end, the path in small letters. *)
Definition trim_value (p : proc) : proc :=
  if vars p o_node_value is Some v then set_var p o_node_value (Some (lrgbin_reatwhite v)) (hp p) else p.
Definition trim_path (p : proc) : proc :=
  if vars p o_node_path is Some w then set_var p o_node_path (Some (str_tolower (lrgbin_reatwhite w))) (hp p) else p.

(** [main] behind [parse_args]: how it ends, and the messages it has sent. *)
Definition serve (p : proc) (y : system_t) : outcome * list sent :=
  let p := trim_path (trim_value p) in
  let go :=
    match lrgdb_open (vars p o_unixsock) (socket y) (connect y) with
    | None => (Undefined, [])
    | Some fd =>
        if fd =? 0 then (cleanup_exit (if vars p o_node_path is Some w then zlen w else -1) p, [])
        else match act p fd (other y) with
             | Some (i, l, o) => (cleanup_exit i (print p o), l)
             | None => (Undefined, [])
             end
    end in
  match vars p o_node_path with
  | Some w =>
      if (o_ignore p =? 0) && has_prefix str_runtime w then (andthen (runtime (drop 9 w) p) (cleanup_exit 0), []) else go
  | None => go
  end.

Definition rgdb_main (args : list (list Z)) (h : heap) (y : system_t) : outcome * list sent :=
  match parse_args (getopt args) (init h) with
  | Next p => serve p y
  | x => (x, [])
  end.

(** ** Memory *)

Definition block (x : option (list Z)) : Z := if x is Some _ then 1 else 0.

Lemma held_insert vs v x : held (<[v := x]> vs) = held vs - block (vs v) + block x.
Proof.
  unfold held, block, all_vars. cbn [foldr]. destruct v; rewrite !fn_lookup_insert; rewrite !fn_lookup_insert_ne by done; lia.
Qed.

(** Apart from the blocks of the variables the heap is as it was at the start. *)
Definition balanced (k : Z) (p : proc) : Prop := live (hp p) - held (vars p) = k.

(** The end of the program has given everything back; a step that goes on is balanced. *)
Definition settled (k : Z) (x : outcome) : Prop :=
  match x with Next p => balanced k p | Exit _ p => live (hp p) = k | Undefined => True end.

Lemma settled_andthen k x f : settled k x -> (forall p, balanced k p -> settled k (f p)) -> settled k (andthen x f).
Proof. destruct x; cbn; auto. Qed.

Lemma balanced_verbose k p s : balanced k p -> balanced k (verbose p s).
Proof. unfold verbose. by destruct (o_verbose p =? 0). Qed.

Lemma cleanup_settled k code p : balanced k p -> settled k (cleanup_exit code p).
Proof. unfold balanced, cleanup_exit, verbose, settled. intros H. destruct (o_verbose _ =? 0); cbn [set_hp print hp free live]; lia. Qed.

Lemma usage_settled k code p : balanced k p -> settled k (show_usage code p).
Proof. intros H. by apply cleanup_settled. Qed.

Lemma strdup_live h s x h' : strdup h s = (x, h') -> live h' = live h + block x.
Proof. unfold strdup, malloc. destruct (avail h) as [|[] tl]; intros [= <- <-]; cbn; lia. Qed.

Lemma assign_settled k v s msg p : balanced k p -> settled k (assign v s msg p).
Proof.
  unfold balanced, assign. intros H. destruct (strdup _ s) as [x h'] eqn:E. apply strdup_live in E.
  assert (balanced k (set_var p v x h')) as Hb.
  { unfold balanced. cbn [set_var hp vars]. rewrite held_insert, E. destruct (vars p v); cbn [block free live] in *; lia. }
  destruct x; [done|]. by apply cleanup_settled, balanced_verbose.
Qed.

Lemma choose_settled k v s a p : balanced k p -> settled k (choose v s a p).
Proof. intros H. apply settled_andthen; [by apply assign_settled|done]. Qed.

Create HintDb rgdb.
#[export] Hint Resolve balanced_verbose cleanup_settled usage_settled assign_settled choose_settled settled_andthen : rgdb.

Lemma option_step_settled k a p : balanced k p -> settled k (option_step a p).
Proof.
  intros H. unfold option_step. repeat case_match; eauto 6 with rgdb.
Qed.

Lemma parse_loop_settled k l : forall p, balanced k p -> settled k (parse_loop l p).
Proof. induction l as [|a l IH]; intros p H; cbn [parse_loop]; [done|]. apply settled_andthen; [by apply option_step_settled|done]. Qed.

Lemma parse_args_settled k l p : balanced k p -> settled k (parse_args l p).
Proof.
  intros H. apply settled_andthen; [by apply parse_loop_settled|]. clear p H. intros p H.
  destruct (o_action p =? RGDB_NONE); [auto with rgdb|]. destruct (vars p o_unixsock) as [s|] eqn:Es.
  - cbv zeta. rewrite Es. destruct (o_verbose p =? 0); cbn [settled]; auto with rgdb.
  - destruct (strdup _ _) as [x h'] eqn:E. apply strdup_live in E.
    assert (balanced k (set_var p o_unixsock x h')) as Hb.
    { unfold balanced in *. cbn [set_var hp vars]. rewrite held_insert, E, Es. cbn [block]. lia. }
    cbv zeta. destruct (o_verbose _ =? 0); [done|]. destruct (vars (set_var _ _ _ _) o_unixsock); [|done]. cbn [settled]. auto with rgdb.
Qed.

Lemma trim_balanced k p : balanced k p -> balanced k (trim_path (trim_value p)).
Proof.
  intros H. unfold trim_path, trim_value. destruct (vars p o_node_value) as [v|] eqn:Ev.
  - assert (balanced k (set_var p o_node_value (Some (lrgbin_reatwhite v)) (hp p))) as H1.
    { unfold balanced in *. cbn [set_var hp vars]. rewrite held_insert, Ev. cbn [block]. lia. }
    destruct (vars (set_var _ _ _ _) o_node_path) as [w|] eqn:Ew; [|done].
    unfold balanced in *. cbn [set_var hp vars] in *. rewrite (held_insert _ o_node_path), Ew. cbn [block]. lia.
  - destruct (vars p o_node_path) as [w|] eqn:Ew; [|done]. unfold balanced in *. cbn [set_var hp vars]. rewrite held_insert, Ew. cbn [block]. lia.
Qed.

Lemma runtime_settled k node p : balanced k p -> settled k (runtime node p).
Proof.
  intros H. unfold runtime. destruct (cut_slash node) as [[cmd rest]|]; [|done]. repeat case_match; cbn [settled]; try done.
  - exact (balanced_verbose k p _ H).
  - exact (balanced_verbose k p _ H).
Qed.

Lemma serve_settled k p y : balanced k p -> settled k (fst (serve p y)).
Proof.
  intros H%trim_balanced. unfold serve. set (q := trim_path (trim_value p)) in *. clearbody q.
  assert (settled k (fst (match lrgdb_open (vars q o_unixsock) (socket y) (connect y) with
    | None => (Undefined, [])
    | Some fd =>
        if fd =? 0 then (cleanup_exit (if vars q o_node_path is Some w then zlen w else -1) q, [])
        else match act q fd (other y) with
             | Some (i, l, o) => (cleanup_exit i (print q o), l)
             | None => (Undefined, [])
             end
    end))) as Hgo.
  { destruct (lrgdb_open _ _ _) as [fd|]; [|done]. destruct (fd =? 0); [cbn [fst]; auto with rgdb|].
    destruct (act q fd (other y)) as [[[i l] o]|]; [|done]. cbn [fst]. by apply cleanup_settled. }
  destruct (vars q o_node_path) as [w|]; [|done]. destruct (_ && _); [|done]. cbn [fst].
  apply settled_andthen; [by apply runtime_settled|intros; by apply cleanup_settled].
Qed.

Lemma serve_ends p y q : fst (serve p y) <> Next q.
Proof.
  unfold serve. set (r := trim_path (trim_value p)). clearbody r. unfold cleanup_exit.
  repeat case_match; cbn [fst]; try done. unfold andthen. by destruct (runtime _ r).
Qed.

(** The program gives back all the memory it has taken, whatever its arguments are, whatever allocation fails, whatever
    the server answers, and wherever it ends. *)
Theorem rgdb_frees args h y code p l : rgdb_main args h y = (Exit code p, l) -> live (hp p) = live h.
Proof.
  intros E. assert (settled (live h) (fst (rgdb_main args h y))) as H; [|by rewrite E in H].
  unfold rgdb_main. assert (balanced (live h) (init h)) as H0 by (unfold balanced, held; cbn; lia).
  apply (parse_args_settled _ (getopt args)) in H0. destruct (parse_args _ _); [by apply serve_settled|done|done].
Qed.

(** ** What an action needs *)

Definition needs (a : Z) : list var :=
  if a =? RGDB_GET then [o_node_path]
  else if a =? RGDB_SET then [o_node_path; o_node_value]
  else if a =? RGDB_SET_NOTIFY then [o_node_path; o_node_value]
  else if a =? RGDB_DEL then [o_node_path]
  else if a =? RGDB_RELOAD then [o_reloadfile]
  else if a =? RGDB_DUMP then [o_dumpfile]
  else if a =? RGDB_PATCH then [o_tempfile]
  else if a =? RGDB_EPHP then [o_ephpfile]
  else if a =? RGDB_NONE then []
  else [o_patchmsg].

(** The strings that the action works with are there. *)
Definition ready (p : proc) : Prop := Forall (fun v => is_Some (vars p v)) (needs (o_action p)).

(** [q] has the strings that [p] has, the one of [v], and memory if [p] has. *)
Definition gains (v : var) (p q : proc) : Prop :=
  (forall u, is_Some (vars p u) -> is_Some (vars q u)) /\ is_Some (vars q v) /\ o_action q = o_action p /\
  (avail (hp p) = [] -> avail (hp q) = []).

Lemma set_var_gains p v s h : (avail (hp p) = [] -> avail h = []) -> gains v p (set_var p v (Some s) h).
Proof.
  intros Hh. split_and!; [|by cbn [set_var vars]; rewrite fn_lookup_insert|done|exact Hh]. intros u Hu. cbn [set_var vars].
  destruct (decide (v = u)) as [<-|Hn]; [by rewrite fn_lookup_insert|by rewrite fn_lookup_insert_ne].
Qed.

Lemma assign_gains v s msg p q : assign v s msg p = Next q -> gains v p q.
Proof.
  unfold assign, strdup, malloc. set (h := if vars p v is Some _ then _ else _).
  assert (avail h = avail (hp p)) as Eh by (unfold h; by destruct (vars p v)).
  destruct (avail h) as [|[] tl] eqn:Ea; intros [= <-]; apply set_var_gains; rewrite <- Eh; done.
Qed.

Lemma gains_ready v p q : gains v p q -> ready p -> ready q.
Proof. intros (H1 & _ & H3 & _). unfold ready. rewrite H3. apply List.Forall_impl. auto. Qed.

Lemma andthen_next x k q : andthen x k = Next q -> exists p, x = Next p /\ k p = Next q.
Proof. destruct x as [p| |]; [|done|done]. by exists p. Qed.

Lemma choose_ready v s a p q : needs a = [v] -> choose v s a p = Next q -> ready q.
Proof.
  intros Ha. unfold choose. intros (p1 & (_ & H2 & _)%assign_gains & [= <-])%andthen_next. unfold ready. cbn [set_o_action o_action vars]. rewrite Ha. by constructor.
Qed.

Lemma pair_ready w v msg msg' a p q : needs a = [o_node_path; o_node_value] ->
  andthen (assign o_node_path w msg p) (fun p => andthen (assign o_node_value v msg' p) (fun p => Next (set_o_action p a))) = Next q -> ready q.
Proof.
  intros Ha (p1 & E1%assign_gains & E)%andthen_next. apply andthen_next in E as (p2 & E2%assign_gains & [= <-]).
  destruct E1 as (_ & H1 & _), E2 as (H2 & H3 & _). unfold ready. cbn [set_o_action o_action vars]. rewrite Ha. repeat constructor; auto.
Qed.

(** Whatever the arguments are and whatever allocation fails, each action finds its strings. *)
Lemma option_step_ready a p q : ready p -> option_step a p = Next q -> ready q.
Proof.
  intros Hp. unfold option_step. repeat case_match; intros E; try done;
    first [injection E as <-; exact Hp | by apply assign_gains in E; eapply gains_ready | eapply choose_ready, E; reflexivity | idtac].
  - by apply pair_ready in E.
  - by apply pair_ready in E.
  - by apply andthen_next in E as (p1 & _ & E).
Qed.

Lemma parse_loop_ready l : forall p q, ready p -> parse_loop l p = Next q -> ready q.
Proof.
  induction l as [|a l IH]; intros p q Hp E; cbn [parse_loop] in E; [by injection E as <-|].
  apply andthen_next in E as (p1 & E1 & E2). eapply IH; [|exact E2]. by eapply option_step_ready.
Qed.

(** Steps are defined, and leave memory if there is memory. *)
Definition fine (x : outcome) : Prop := match x with Next p => avail (hp p) = [] | Exit _ _ => True | Undefined => False end.

Lemma assign_fine v s msg p : avail (hp p) = [] -> fine (assign v s msg p).
Proof.
  intros Ha. destruct (assign v s msg p) as [q| |] eqn:E; [|done|].
  - apply assign_gains in E as (_ & _ & _ & H). by apply H.
  - revert E. unfold assign. destruct (strdup _ _) as [[x|] h]; done.
Qed.

Lemma fine_andthen x k : fine x -> (forall p, avail (hp p) = [] -> fine (k p)) -> fine (andthen x k).
Proof. destruct x; cbn; auto. Qed.

Lemma choose_fine v s a p : avail (hp p) = [] -> fine (choose v s a p).
Proof. intros Ha. apply fine_andthen; [by apply assign_fine|done]. Qed.

#[export] Hint Resolve assign_fine fine_andthen choose_fine : rgdb.

Lemma option_step_fine a p : avail (hp p) = [] -> fine (option_step a p).
Proof. intros Ha. unfold option_step. repeat case_match; try done; eauto 6 with rgdb. apply fine_andthen; [by apply assign_fine|done]. Qed.

Lemma parse_loop_fine l : forall p, avail (hp p) = [] -> fine (parse_loop l p).
Proof. induction l as [|a l IH]; intros p Ha; cbn [parse_loop]; [done|]. apply fine_andthen; [by apply option_step_fine|done]. Qed.

(** Behind [parse_args] there is an action with its strings, and the name of the socket. *)
Lemma parse_args_ready l p : avail (hp p) = [] -> ready p ->
  match parse_args l p with
  | Next q => ready q /\ o_action q <> RGDB_NONE /\ is_Some (vars q o_unixsock)
  | Exit _ _ => True
  | Undefined => False
  end.
Proof.
  intros Ha Hp. unfold parse_args. pose proof (parse_loop_fine l p Ha) as Hf. destruct (parse_loop l p) as [q| |] eqn:E; [|done|done].
  apply parse_loop_ready in E; [|done]. cbn [andthen fine] in *. destruct (Z.eqb_spec (o_action q) RGDB_NONE) as [|Hn]; [done|].
  destruct (vars q o_unixsock) as [s|] eqn:Es.
  - cbv zeta. destruct (o_verbose q =? 0) eqn:Ev; rewrite ?Es; [by split_and!|]. unfold verbose. rewrite Ev. by split_and!.
  - unfold strdup, malloc. rewrite Hf. cbv zeta. set (r := set_var q o_unixsock _ _).
    assert (ready r /\ o_action r <> RGDB_NONE /\ vars r o_unixsock = Some str_unixsock) as (R1 & R2 & R3).
    { split_and!; [|done|by cbn [r set_var vars]; rewrite fn_lookup_insert]. eapply gains_ready; [|exact E]. by apply set_var_gains. }
    rewrite R3. clearbody r. destruct (o_verbose r =? 0) eqn:Ev; [by split_and!|]. unfold verbose. rewrite Ev. by split_and!.
Qed.

(** The answer that the request of an action waits for. *)
Definition answered (a : Z) (s : peer) : Prop :=
  if existsb (Z.eqb a) [RGDB_SET; RGDB_SET_NOTIFY; RGDB_DEL; RGDB_RELOAD; RGDB_DUMP] then exists h tl, replies s = Some (Ack h) :: tl
  else is_Some (redirect_output (replies s)).

Lemma with_output_defined s a f d : is_Some (redirect_output (replies s)) -> is_Some (with_output s a f d true).
Proof. intros [o Ho]. unfold with_output. destruct (send_xmldb_cmd s a f d) as [r l]. destruct (r <? 0); [done|]. rewrite Ho. done. Qed.

Lemma acknowledged_defined s a f d : (exists h tl, replies s = Some (Ack h) :: tl) -> is_Some (acknowledged s a f d).
Proof. intros (h & tl & E). unfold acknowledged. destruct (send_xmldb_cmd s a f d) as [r l]. destruct (r <? 0); [done|]. by rewrite E. Qed.

Lemma act_defined p fd s : ready p -> o_action p <> RGDB_NONE -> answered (o_action p) s -> is_Some (act p fd s).
Proof.
  unfold ready, needs, act, answered. set (s' := if fd <? 0 then _ else s). assert (replies s' = replies s) as <- by (unfold s'; by destruct (fd <? 0)).
  clearbody s'. intros Hr Hn Ha. cbn [existsb] in Ha.
  repeat match goal with |- context [o_action p =? ?b] => destruct (Z.eqb_spec (o_action p) b) as [E|_]; [rewrite E in *; cbn in Ha|] end; try done;
    repeat match goal with H : Forall _ (_ :: _) |- _ => apply Forall_cons_iff in H as [[? ?] H] end;
    repeat match goal with H : vars p _ = Some _ |- _ => rewrite H; clear H end; cbn [mbind option_bind].
  - destruct (with_output_defined s' RGDB_GET (get_flags p) x Ha) as [[[? ?] ?] E']. unfold lrgdb_get. rewrite E'. done.
  - destruct (acknowledged_defined s' RGDB_SET (get_flags p) (pair_string x x0) Ha) as [[? ?] E']. unfold lrgdb_set. rewrite E'. done.
  - destruct (acknowledged_defined s' RGDB_SET_NOTIFY (get_flags p) (pair_string x x0) Ha) as [[? ?] E']. unfold lrgdb_set_notify. rewrite E'. done.
  - destruct (acknowledged_defined s' RGDB_DEL (get_flags p) x Ha) as [[? ?] E']. unfold lrgdb_del. rewrite E'. done.
  - destruct (acknowledged_defined s' RGDB_RELOAD (get_flags p) x Ha) as [[? ?] E']. unfold lrgdb_reload. rewrite E'. done.
  - destruct (acknowledged_defined s' RGDB_DUMP (get_flags p) x Ha) as [[? ?] E']. unfold lrgdb_dump. rewrite E'. done.
  - by apply with_output_defined.
  - by apply with_output_defined.
  - rewrite (proj2 (Z.eqb_neq _ _) Hn) in Hr. apply Forall_cons_iff in Hr as [[x ->] _]. by apply with_output_defined.
Qed.

Lemma trim_shape p : let q := trim_path (trim_value p) in
  (forall v, is_Some (vars p v) -> is_Some (vars q v)) /\ o_action q = o_action p /\ o_ignore q = o_ignore p /\
  vars q o_unixsock = vars p o_unixsock /\ vars q o_node_path = (fun w => str_tolower (lrgbin_reatwhite w)) <$> vars p o_node_path.
Proof.
  intros q. unfold q, trim_path, trim_value.
  destruct (vars p o_node_value) eqn:Ev; cbn [set_var vars]; rewrite ?fn_lookup_insert_ne by done;
    destruct (vars p o_node_path) eqn:Ew; cbn [set_var vars o_action o_ignore];
    rewrite ?fn_lookup_insert, ?fn_lookup_insert_ne by done; rewrite ?fn_lookup_insert_ne by done; (split_and!; try done);
    intros v Hv; unfold insert, fn_insert; repeat case_decide; done.
Qed.

(** A path of a runtime node is within the bounds of [runtime]. *)
Definition tame (p : proc) : Prop :=
  match vars p o_node_path with
  | Some w =>
      let w := str_tolower (lrgbin_reatwhite w) in
      o_ignore p = 0 -> has_prefix str_runtime w = true -> exists cmd rest, cut_slash (drop 9 w) = Some (cmd, rest) /\ zlen cmd < 64
  | None => True
  end.

(** The program always comes to an end: with memory, and a server that sends the answer its request waits for (or that cannot
    be reached), every list of arguments leads to an exit, unless a runtime node has a path that [runtime] copies
    out of bounds; in particular each action has the strings it uses. *)
Theorem rgdb_ends args h y :
  avail h = [] -> (forall p, parse_args (getopt args) (init h) = Next p -> answered (o_action p) (other y) /\ tame p) ->
  exists code p l, rgdb_main args h y = (Exit code p, l).
Proof.
  intros Ha Hok. pose proof (parse_args_ready (getopt args) (init h) Ha ltac:(by constructor)) as Hp. unfold rgdb_main.
  destruct (parse_args _ _) as [p|code p|]; [|by eexists _, _, _|done]. destruct (Hok p eq_refl) as [Hans Ht].
  destruct Hp as (Hr & Hn & [s Hs]). unfold serve. destruct (trim_shape p) as (T1 & T2 & T3 & T4 & T5). set (q := trim_path (trim_value p)) in *.
  assert (ready q) as Hq by (unfold ready in *; rewrite T2; eapply List.Forall_impl; [|exact Hr]; auto).
  assert (forall x, exists code r, cleanup_exit x q = Exit code r) as Hexit by (intros x; by eexists _, _).
  assert (exists code r l, match lrgdb_open (vars q o_unixsock) (socket y) (connect y) with
    | None => (Undefined, [])
    | Some fd =>
        if fd =? 0 then (cleanup_exit (if vars q o_node_path is Some w then zlen w else -1) q, [])
        else match act q fd (other y) with
             | Some (i, l, o) => (cleanup_exit i (print q o), l)
             | None => (Undefined, [])
             end
    end = (Exit code r, l)) as Hgo.
  { rewrite T4, Hs. assert (is_Some (lrgdb_open (Some s) (socket y) (connect y))) as [fd ->] by (unfold lrgdb_open; by repeat case_match).
    destruct (fd =? 0); [by eexists _, _, _|]. destruct (act_defined q fd (other y)) as [[[i l] o] ->]; [done|by rewrite T2|by rewrite T2|].
    by eexists _, _, _. }
  unfold tame in Ht. rewrite T5 in *. destruct (vars p o_node_path) as [w|]; cbn [fmap option_fmap option_map] in *; [|done].
  destruct (_ && _) eqn:Eb; [|done]. apply andb_true_iff in Eb as [Ei%Z.eqb_eq Ep]. rewrite T3 in Ei. destruct (Ht Ei Ep) as (cmd & rest & Ec & Hl).
  unfold runtime. rewrite Ec, (proj2 (Z.leb_gt _ _) Hl). destruct (o_action q =? RGDB_GET); [by eexists _, _, _|].
  destruct (Z.eqb_spec (o_action q) RGDB_SET) as [Es|]; [|by eexists _, _, _]. unfold ready in Hq. rewrite Es in Hq.
  apply Forall_cons_iff in Hq as [_ [[v ->] _]%Forall_cons_iff]. by eexists _, _, _.
Qed.

(** ** Runs over a connection *)

Definition trimmed (s : list Z) : list Z := lrgbin_reatwhite (lrgbin_eatwhite s).

(** The server can be reached, and takes what is written. *)
Definition working (y : system_t) : Prop :=
  0 < socket y /\ (forall path, 0 <= connect y path) /\ 0 < w_header (other y) /\ 0 < w_data (other y).

(** A word that is not taken for an option. *)
Definition operand (w : list Z) : Prop := match w with d :: _ :: _ => d <> 45 | _ => True end.

Lemma getopt_operand n w rest : operand w -> getopt_loop n (w :: rest) = [].
Proof. destruct n, w as [|c [|d w]]; cbn [getopt_loop operand]; try done. intros Hc. by rewrite (proj2 (Z.eqb_neq _ _) Hc). Qed.

Definition str_s : list Z := [45; 115].
Definition str_g : list Z := [45; 103].

Lemma getopt_set path v : operand v -> getopt [str_s; path; v] = [mkseen 115 path (Some v)].
Proof. intros Hv. unfold getopt. change (length _) with 3%nat. pose proof (getopt_operand 2 v [] Hv) as E.
  change (mkseen 115 path (Some v) :: getopt_loop 2 [v] = [mkseen 115 path (Some v)]). by rewrite E. Qed.

Lemma getopt_get path : getopt [str_g; path] = [mkseen 103 path None].
Proof. reflexivity. Qed.

Lemma set_parsed path v h : avail h = [] -> operand v -> exists p, parse_args (getopt [str_s; path; v]) (init h) = Next p /\
  vars p o_node_path = Some (lrgbin_eatwhite path) /\ vars p o_node_value = Some (lrgbin_eatwhite v) /\
  vars p o_unixsock = Some str_unixsock /\ vars p o_escape = None /\
  o_action p = RGDB_SET /\ o_verbose p = 0 /\ o_ignore p = 0 /\ o_skip_proc p = 0 /\ stdout p = [].
Proof. intros Ha Hv. rewrite (getopt_set path v Hv). destruct h as [av k]. cbn [avail] in Ha. subst av. eexists. split; [reflexivity|]. by split_and!. Qed.

Lemma get_parsed path h : avail h = [] -> exists p, parse_args (getopt [str_g; path]) (init h) = Next p /\
  vars p o_node_path = Some (lrgbin_eatwhite path) /\ vars p o_node_value = None /\
  vars p o_unixsock = Some str_unixsock /\ vars p o_escape = None /\
  o_action p = RGDB_GET /\ o_verbose p = 0 /\ o_ignore p = 0 /\ o_skip_proc p = 0 /\ stdout p = [].
Proof. intros Ha. rewrite getopt_get. destruct h as [av k]. cbn [avail] in Ha. subst av. eexists. split; [reflexivity|]. by split_and!. Qed.

Lemma serve_connected p y w s : working y -> vars p o_node_path = Some w -> vars p o_unixsock = Some s ->
  has_prefix str_runtime (str_tolower (lrgbin_reatwhite w)) = false ->
  serve p y = let q := trim_path (trim_value p) in
    match act q (socket y) (other y) with Some (i, l, o) => (cleanup_exit i (print q o), l) | None => (Undefined, []) end.
Proof.
  intros (Hs & Hc & _) Hw Hu Hr. unfold serve. set (q := trim_path (trim_value p)).
  assert (vars q o_node_path = Some (str_tolower (lrgbin_reatwhite w)) /\ vars q o_unixsock = Some s) as [-> ->].
  { unfold q, trim_path, trim_value. destruct (vars p o_node_value); cbn [set_var vars];
      rewrite ?fn_lookup_insert_ne by done; rewrite Hw; cbn [set_var vars]; rewrite ?fn_lookup_insert; by rewrite ?fn_lookup_insert_ne. }
  rewrite Hr, andb_false_r. unfold lrgdb_open. rewrite (proj2 (Z.ltb_ge _ _)) by lia.
  rewrite (proj2 (Z.ltb_ge _ _) (Hc _)). by rewrite (proj2 (Z.eqb_neq _ _)) by lia.
Qed.

(** A request is sent whole when it fits the length. *)
Lemma send_whole s a f d : 0 < w_header s -> 0 < w_data s -> zlen d + 1 < 2 ^ 16 ->
  send_xmldb_cmd s a f d = (0, [Header (mkipc a (zlen d + 1) f (junk s)); Data (d ++ [0])]).
Proof.
  intros H1 H2 H3. unfold send_xmldb_cmd, u16. rewrite Z.mod_small by lia. rewrite !(proj2 (Z.leb_gt _ _)) by lia.
  rewrite take_ge; [done|]. rewrite length_app. cbn [length]. lia.
Qed.

Lemma quiet_exit q i o : o_verbose q = 0 -> exists r, cleanup_exit i (print q o) = Exit i r /\ stdout r = stdout q ++ o.
Proof. intros Hv. unfold cleanup_exit, verbose. cbn [print set_hp o_verbose]. rewrite Hv. change (0 =? 0) with true. cbv iota. by eexists. Qed.

(** [rgdb -s path value]: the request, and the return code that comes back. *)
Lemma rgdb_set_runs path v h y r : avail h = [] -> operand v -> working y -> replies (other y) = [Some (Ack r)] ->
  let w := str_tolower (trimmed path) in
  has_prefix str_runtime w = false -> (length (w ++ 32%Z :: trimmed v) <= 254)%nat ->
  exists p, rgdb_main [str_s; path; v] h y =
      (Exit (retcode r) p, [Header (mkipc RGDB_SET (zlen (w ++ 32 :: trimmed v) + 1) 0 (junk (other y))); Data ((w ++ 32 :: trimmed v) ++ [0])]) /\
    stdout p = [].
Proof.
  intros Ha Hv Hy Hr w Hw Hl. destruct (set_parsed path v h Ha Hv) as (p & E & E1 & E2 & E3 & E4 & E5 & E6 & E7 & E8 & E9).
  unfold rgdb_main. rewrite E, (serve_connected p y _ _ Hy E1 E3 Hw). cbv zeta. set (q := trim_path (trim_value p)).
  assert (vars q o_node_path = Some w /\ vars q o_node_value = Some (trimmed v) /\ vars q o_escape = None) as (Q1 & Q2 & Q3).
  { unfold q, trim_path, trim_value. rewrite E2. cbn [set_var vars]. rewrite fn_lookup_insert_ne by done. rewrite E1. cbn [set_var vars].
    rewrite fn_lookup_insert. rewrite fn_lookup_insert_ne by done. rewrite fn_lookup_insert. rewrite !fn_lookup_insert_ne by done. done. }
  assert (o_action q = RGDB_SET /\ o_verbose q = 0 /\ o_skip_proc q = 0 /\ stdout q = []) as (Q4 & Q5 & Q6 & Q7).
  { unfold q, trim_path, trim_value. rewrite E2. cbn [set_var vars]. rewrite fn_lookup_insert_ne by done. by rewrite E1. }
  clearbody q. destruct Hy as (Hs & _ & Hwh & Hwd). unfold act. rewrite Q1, Q2, Q4. rewrite (proj2 (Z.ltb_ge (socket y) 0)) by lia.
  unfold get_flags. rewrite Q3, Q6. unfold lrgdb_set, acknowledged.
  cbn -[cleanup_exit send_xmldb_cmd Z.add pair_string]. unfold pair_string, snprintf. rewrite take_ge by lia. rewrite send_whole by lia. rewrite Hr. cbn -[cleanup_exit Z.add].
  destruct (quiet_exit q (retcode r) [] Q5) as (p' & -> & Hp). exists p'. split; [done|]. by rewrite Hp, Q7.
Qed.

(** [rgdb -g path]: the request; the text of the answer and a newline are printed. *)
Lemma rgdb_get_runs path h y l text : avail h = [] -> working y -> replies (other y) = pieces l ->
  Forall (fun c => c <> 0) text -> Forall (fun bs => bs <> []) l -> concat l = text ++ [0] ->
  let w := str_tolower (trimmed path) in
  has_prefix str_runtime w = false -> zlen w + 1 < 2 ^ 16 ->
  exists p, rgdb_main [str_g; path] h y = (Exit 0 p, [Header (mkipc RGDB_GET (zlen w + 1) 0 (junk (other y))); Data (w ++ [0])]) /\
    stdout p = text ++ [10].
Proof.
  intros Ha Hy Hr Ht Hp Hc w Hw Hl. destruct (get_parsed path h Ha) as (p & E & E1 & E2 & E3 & E4 & E5 & E6 & E7 & E8 & E9).
  unfold rgdb_main. rewrite E, (serve_connected p y _ _ Hy E1 E3 Hw). cbv zeta. set (q := trim_path (trim_value p)).
  assert (vars q o_node_path = Some w /\ vars q o_escape = None) as (Q1 & Q3).
  { unfold q, trim_path, trim_value. rewrite E2, E1. cbn [set_var vars]. rewrite fn_lookup_insert. by rewrite !fn_lookup_insert_ne. }
  assert (o_action q = RGDB_GET /\ o_verbose q = 0 /\ o_skip_proc q = 0 /\ stdout q = []) as (Q4 & Q5 & Q6 & Q7).
  { unfold q, trim_path, trim_value. by rewrite E2, E1. }
  clearbody q. destruct Hy as (Hs & _ & Hwh & Hwd). unfold act. rewrite Q1, Q4. rewrite (proj2 (Z.ltb_ge (socket y) 0)) by lia.
  unfold get_flags. rewrite Q3, Q6. unfold lrgdb_get, with_output.
  cbn -[cleanup_exit send_xmldb_cmd Z.add]. rewrite send_whole by lia. cbn -[cleanup_exit Z.add redirect_output].
  rewrite Hr, (redirect_pieces l text Ht Hp Hc). cbn -[cleanup_exit Z.add].
  destruct (quiet_exit q 0 (text ++ [10]) Q5) as (p' & -> & Hq). exists p'. split; [done|]. by rewrite Hq, Q7.
Qed.

(** ** Runs *)

Definition no_server : system_t := mksys 3 (fun _ => -1) (mkpeer 0 0 [] 0).

(** Two templates, of which the first is given back when the second comes, for which there is no memory. *)
Lemma rgdb_frees_witness :
  exists p, rgdb_main [cs "-va"; cs "-p"; cs "a.txt"; cs "-pb.txt"] (mkheap [true; false] 5) no_server = (Exit (-1) p, []) /\ live (hp p) = 5.
Proof.
  eexists. split; [reflexivity|].
  apply (rgdb_frees [cs "-va"; cs "-p"; cs "a.txt"; cs "-pb.txt"] (mkheap [true; false] 5) no_server (-1) _ []). reflexivity.
Defined.

Lemma rgdb_ends_witness :
  exists code p l, rgdb_main [cs "-g"; cs "/wan/mode"] (mkheap [] 0) (mksys 3 (fun _ => 0) (mkpeer 12 10 (pieces [cs "dhcp" ++ [0]]) 0)) = (Exit code p, l).
Proof.
  apply (rgdb_ends [cs "-g"; cs "/wan/mode"]); [reflexivity|]. intros p [= <-]. split; [vm_compute; eauto|]. vm_compute. intros _ Hr. discriminate Hr.
Defined.

(** ** Numbers *)

Lemma zlen_num n : - 10 ^ 10 < n < 10 ^ 10 -> 1 <= zlen (num n) <= 11.
Proof.
  intros Hn. unfold num, dec. assert (forall m, 1 <= zlen (rev (dec_rev 10 m)) <= 10) as Hd.
  { intros m. rewrite length_rev. pose proof (length_dec_rev 10 m). cbn [dec_rev length] in *. lia. }
  destruct (n <? 0); cbn [length]; [specialize (Hd (- n))|specialize (Hd n)]; lia.
Qed.

Lemma zlen_num_small n : 0 <= n < 100 -> 1 <= zlen (num n) <= 2.
Proof.
  intros Hn. unfold num. rewrite (proj2 (Z.ltb_ge _ _)) by lia. unfold dec. rewrite length_rev. cbn [dec_rev length]. destruct (Z.ltb_spec n 10); cbn [length]; [lia|].
  rewrite (proj2 (Z.ltb_lt (n / 10) 10)) by (Z.to_euclidean_division_equations; lia). cbn [length]. lia.
Qed.

End Rgdb.
