(* ===== verification/RgdbSession.v ===== *)
(** * Sessions: rgdb runs against the server.

    The composition of tools/alpha/rgdb with tools/alpha/xmldb: the messages of a run of the client are the
    turns of the server, what the server writes is what the client reads. *)
From Stdlib Require Import ZArith Lia Bool String.
From stdpp Require Import base tactics list option numbers functions.
From S2P Require Import Prelude Xmldb XmldbFile Ephp EphpRun Patch PatchShow PatchTemplate PatchRender PatchMessage XmldbServer XmldbRequests Lrgbin Rgdb.

Module RgdbSession.
Import Xmldb XmldbFile XmldbServer XmldbRequests Lrgbin Rgdb.

(** ** A connection from its start to its end *)

(** Between requests: the table is sound, free slots have no request begun, the open descriptors are those of the
    table, and the database is sound. *)
Definition idle_slots (l : list xmldb_client) : Prop := Forall (fun c => fd c = -1 -> action (ipc c) = RGDB_NONE) l.

Record at_rest (s : server) : Prop := {
  rest_len : length (clients s) = MAX_CLIENT_LIST;
  rest_fds : fds_ok (clients s);
  rest_nodup : NoDup (used (clients s));
  rest_opened : opened s ≡ₚ used (clients s);
  rest_idle : idle_slots (clients s);
  rest_sane : sane s
}.

(** The turns of a connection and of a client that hangs up. *)
Definition nothing : reading := mkread None None.
Definition arrives (f : Z) : turn := mkturn false (Some (Some f)) [] (fun _ => nothing) false.
Definition leaves (f : Z) : turn := only f nothing.

Lemma add_loop_slot l f : fds_ok l -> (length (used l) < length l)%nat ->
  exists i c, l !! i = Some c /\ fd c = -1 /\ add_loop l f = Some (<[i := mkclient f (ipc c)]> l).
Proof.
  induction l as [|c l IH]; intros Hok Hl; cbn [length] in Hl; [lia|]. apply Forall_cons_iff in Hok as [Hc Hok]. cbn [add_loop].
  rewrite used_cons in Hl. destruct (Z.ltb_spec (fd c) 0) as [Hn|Hn].
  - exists 0%nat, c. split_and!; [done|lia|done].
  - rewrite decide_True in Hl by lia. cbn [length] in Hl. destruct (IH Hok ltac:(lia)) as (i & c' & Hi & Hf & ->).
    exists (S i), c'. done.
Qed.

Lemma idle_at l i c : idle_slots l -> l !! i = Some c -> fd c = -1 -> action (ipc c) = RGDB_NONE.
Proof. intros H Hi. apply (Forall_lookup_1 _ _ _ _ H Hi). Qed.

Lemma close_fd_head f l : close_fd f (f :: l) = close_fd f l.
Proof. unfold close_fd. by rewrite filter_cons_False by (by intros []). Qed.

Section Sessions.
Context `{System}.

Lemma arrives_runs s f : at_rest s -> (length (used (clients s)) < MAX_CLIENT_LIST)%nat -> 2 < f -> (f ∉ opened s) ->
  exists i c, main_turn s (arrives f) = Some (accept_client s f, true) /\ at_rest (accept_client s f) /\
    clients (accept_client s f) !! i = Some c /\ fd c = f /\ action (ipc c) = RGDB_NONE.
Proof using Type.
  intros [H1 H2 H3 H4 H5 H6] Hl Hf Hn. rewrite <- H1 in Hl. destruct (add_loop_slot (clients s) f H2 Hl) as (i & c & Hi & Hc & Ha).
  assert (clients (accept_client s f) = <[i := mkclient f (ipc c)]> (clients s)) as Ec.
  { unfold accept_client, add_client. cbn [set_clients clients]. by rewrite Ha. }
  pose proof (add_client_spec (clients s) f H2 Hl Hf) as Hs. unfold add_client in Hs. rewrite Ha in Hs. destruct Hs as (_ & A1 & A2 & A3 & _).
  exists i, (mkclient f (ipc c)). split_and!.
  - unfold main_turn, dispatch_fd. cbn [failed incoming arrives ready reads]. by rewrite dispatch_skip.
  - constructor; rewrite ?Ec; [congruence|done| | | |done].
    + rewrite A2. constructor; [by rewrite <- H4|done].
    + cbn [accept_client set_clients opened set_opened]. rewrite A2. by constructor.
    + apply Forall_insert; [done|]. cbn. lia.
  - rewrite Ec. apply list_lookup_insert_eq. by eapply lookup_lt_Some.
  - done.
  - exact (idle_at _ _ _ H5 Hi Hc).
Qed.

Lemma leaves_runs s i c : at_rest s -> clients s !! i = Some c -> 2 < fd c -> action (ipc c) = RGDB_NONE ->
  main_turn s (leaves (fd c)) = Some (close_client s (fd c), true) /\ at_rest (close_client s (fd c)).
Proof using Type.
  intros Hs Hi Hf Ha. pose proof Hs as [H1 H2 H3 H4 H5 H6]. split.
  - assert (rhandler s i nothing = Some (s, 0)) as Hr by (unfold rhandler; by rewrite (client_at _ _ _ Hi), Ha).
    exact (dispatch_closes s i c nothing s 0 (conj H1 H3) Hi Hf Hr ltac:(lia)).
  - assert (fd c ∈ used (clients s)) as Hu by (eapply used_elem; [done|lia]).
    destruct (remove_client_spec _ _ Hu) as (R1 & R2 & R3 & _).
    assert (NoDup (fd c :: used (remove_client (clients s) (fd c)))) as Hnd by (by rewrite R2).
    constructor; cbn [close_client set_opened set_clients clients opened]; [congruence|auto|by apply list.NoDup_cons in Hnd as [_ ?]| | |done].
    + apply (Permutation_cons_inv (a := fd c)). rewrite R2. unfold close_fd. rewrite filter_ne_perm; [done|by rewrite H4|by rewrite H4].
    + revert H5. generalize (clients s). clear. induction l as [|x l IH]; intros Hx; [done|]. apply Forall_cons_iff in Hx as [Hx Hl]. cbn [remove_client].
      destruct (fd x =? fd c); constructor; try done. by apply IH.
Qed.

(** The turns in which the server reads the messages of a client, and the whole connection. *)
Definition turns_of (f : Z) (l : list sent) : list turn :=
  map (fun m => only f (match m with Header h => mkread (Some h) None | Data d => mkread None (Some d) end)) l.
Definition visit (f : Z) (l : list sent) : list turn := arrives f :: turns_of f l ++ [leaves f].

(** What a client reads of something written: a header whole, bytes in pieces that fit its buffer. *)
Definition deliver (o : output) (rs : list (option output)) : Prop :=
  match o with
  | Ack h => rs = [Some (Ack h)]
  | Bytes bs => exists l, rs = pieces l /\ concat l = bs /\ Forall (fun b => b <> [] /\ zlen b <= 1024) l
  end.

(** A run of the client against the server through the descriptor [f]: the messages of the one are read by the other,
    which writes one answer, and the answer is what the client reads; the client ends with [code] and has printed
    [text]. *)
Definition session (s : server) (f : Z) (args : list (list Z)) (h : heap) (y : system_t) (s' : server) (code : Z) (text : list Z) : Prop :=
  exists p l o, rgdb_main args h y = (Exit code p, l) /\ stdout p = text /\
    main_loop s (visit f l) = Some (s', false) /\ out s' = out s ++ [(f, o)] /\ deliver o (replies (other y)).

Lemma after_rest s i c h d o : at_rest s -> clients s !! i = Some c -> 2 < fd c -> wf (g_xml_root d) -> avail (mem d) = [] ->
  at_rest (after s i h d o).
Proof using Type.
  intros [H1 H2 H3 H4 H5 H6] Hi Hf Hwf Ha. pose proof (map_fd_set_ipc s i h) as Em. cbn [set_ipc set_clients clients] in Em.
  constructor; cbn [after behind clients opened].
  - by rewrite length_alter.
  - by eapply fds_ok_ext.
  - by rewrite (used_ext _ _ Em).
  - by rewrite (used_ext _ _ Em).
  - apply Forall_alter; [done|]. intros c' Hc' _. cbn. rewrite Hi in Hc'. injection Hc' as ->. lia.
  - done.
Qed.

(** One request of a visitor, in the slot that [accept] has given it. *)
Lemma visit_runs s f l (o : output) (Q : db -> Prop) :
  at_rest s -> (length (used (clients s)) < MAX_CLIENT_LIST)%nat -> 2 < f -> (f ∉ opened s) ->
  (forall i c, let s0 := accept_client s f in tidy s0 -> sane s0 -> clients s0 !! i = Some c -> fd c = f -> action (ipc c) = RGDB_NONE ->
    exists h d, main_loop s0 (turns_of f l) = Some (after s0 i h d o, false) /\ action h = RGDB_NONE /\
      wf (g_xml_root d) /\ avail (mem d) = [] /\ Q d) ->
  exists s', main_loop s (visit f l) = Some (s', false) /\ at_rest s' /\ opened s' = opened s /\ Q (base s') /\
    out s' = out s ++ [(f, o)] /\ files s' = files s.
Proof using Type.
  intros Hs Hl Hf Hn Hrun. destruct (arrives_runs s f Hs Hl Hf Hn) as (i & c & E1 & Hs0 & Hi & Hfc & Ha).
  destruct (Hrun i c (conj (rest_len _ Hs0) (rest_nodup _ Hs0)) (rest_sane _ Hs0) Hi Hfc Ha) as (h & d & Er & Hh & Hwf & Hav & Hq).
  assert (2 < fd c) as Hf' by lia. pose proof (after_rest _ i c h d o Hs0 Hi Hf' Hwf Hav) as Hs1.
  destruct (after_client (accept_client s f) i h d o i c Hi Hh Ha) as (c1 & Hi1 & Hf1 & Ha1). rewrite <- Hf1 in Hf'.
  destruct (leaves_runs _ i c1 Hs1 Hi1 Hf' Ha1) as [E2 Hs2]. rewrite Hf1, Hfc in E2, Hs2.
  eexists. split; [|split; [exact Hs2|]].
  - unfold visit. cbn [main_loop]. rewrite E1. cbn [mbind option_bind]. rewrite (main_loop_app _ _ _ _ Er). cbn [main_loop]. rewrite E2. done.
  - split_and!; [|exact Hq| |done].
    + cbn [close_client set_opened set_clients opened after behind accept_client]. rewrite close_fd_head. by apply filter_ne_id.
    + cbn [close_client set_opened set_clients out after behind]. rewrite (client_at _ _ _ Hi), Hfc. done.
Qed.

Definition done_ack : rgdb_ipc_t := mkipc RGDB_NONE 0 0 0.

(** A path that can be set and queried: it names a node, and does not belong to the runtime tools. *)
Record usable (w : list Z) : Prop := {
  use_chars : Forall (fun x => x <> 0 /\ x <> 32) w;
  use_path : path_ok w;
  use_nums : nums_ok w;
  use_plain : PatchTemplate.vexp_ok (PatchTemplate.VNode w) = true;
  use_node : has_prefix str_runtime w = false;
}.

Lemma set_session s f path v h y :
  at_rest s -> (length (used (clients s)) < MAX_CLIENT_LIST)%nat -> 2 < f -> (f ∉ opened s) ->
  avail h = [] -> working y -> operand v -> deliver (Ack done_ack) (replies (other y)) ->
  let w := str_tolower (trimmed path) in
  usable w -> Forall (fun x => x <> 0) (trimmed v) -> (length (w ++ 32%Z :: trimmed v) <= 254)%nat ->
  exists s', session s f [str_s; path; v] h y s' 0 [] /\ at_rest s' /\ opened s' = opened s /\ files s' = files s /\
    (forall q, view (g_xml_root (base s')) q = assigned (view (g_xml_root (base s))) (keys_of w) (trimmed v) q).
Proof using Type.
  intros Hs Hl Hf Hn Ha Hy Hv Hr w [U1 U2 U3 U4 U5] Hz Hlen. cbn [deliver] in Hr.
  destruct (rgdb_set_runs path v h y done_ack Ha Hv Hy Hr U5 Hlen) as (p & E & Ho). fold w in E.
  assert (str_tolower w = w) as Hlow by apply str_tolower_twice.
  set (m := mkipc RGDB_SET _ 0 _) in E.
  destruct (visit_runs s f [Header m; Data ((w ++ 32 :: trimmed v) ++ [0])] (Ack done_ack)
    (fun d => forall q, view (g_xml_root d) q = assigned (view (g_xml_root (base s))) (keys_of w) (trimmed v) q) Hs Hl Hf Hn)
    as (s' & E' & Hs' & Hop & Hq & Hout & Hfi).
  { intros i c s0 Ht Hsa Hi Hfc Hc. rewrite <- Hlow in U2, U3.
    destruct (set_exchange s0 i c m w (trimmed v) Ht Hsa Hi ltac:(lia) Hc eq_refl U1 Hz U2) as (d & Ed & Hview & _ & Hav).
    destruct (Hav U3) as [Hav' Hwf]. exists done_ack, d. rewrite Hfc, Hlow in *. split_and!; done. }
  exists s'. split; [|done]. eexists p, _, (Ack done_ack). split_and!; [exact E|done|exact E'|exact Hout|exact Hr].
Qed.

Lemma get_session s f path v m h y :
  at_rest s -> (length (used (clients s)) < MAX_CLIENT_LIST)%nat -> 2 < f -> (f ∉ opened s) ->
  avail h = [] -> working y -> deliver (Bytes (v ++ [0])) (replies (other y)) ->
  let w := str_tolower (trimmed path) in
  usable w -> cstring v -> zlen w + 1 < 2 ^ 16 -> view (g_xml_root (base s)) (keys_of w) = Some (v, m) ->
  exists s', session s f [str_g; path] h y s' 0 (v ++ [10]) /\ at_rest s' /\ opened s' = opened s /\ files s' = files s /\ base s' = base s.
Proof using Type.
  intros Hs Hl Hf Hn Ha Hy Hr w [U1 U2 U3 U4 U5] Hv Hlen Hview. pose proof Hr as (l & Hl1 & Hl2 & Hl3).
  assert (Forall (fun c => c <> 0) v) as Hnz by (eapply List.Forall_impl; [|exact Hv]; unfold is_char; lia).
  destruct (rgdb_get_runs path h y l v Ha Hy Hl1 Hnz) as (p & E & Ho); [eapply List.Forall_impl; [|exact Hl3]; by intros b [? _]|done..|].
  fold w in E. assert (str_tolower w = w) as Hlow by apply str_tolower_twice.
  assert (map u8 (PatchShow.shown 0 v) = v) as Hsh.
  { change (PatchShow.shown 0 v) with v. clear -Hv. induction Hv as [|c v Hc _ IH]; [done|]. cbn in *. rewrite IH. f_equal. apply Z.mod_small.
    unfold is_char in Hc. lia. }
  set (hd := mkipc RGDB_GET _ 0 _) in E.
  destruct (visit_runs s f [Header hd; Data (w ++ [0])] (Bytes (v ++ [0])) (fun d => d = base s) Hs Hl Hf Hn)
    as (s' & E' & Hs' & Hop & Hq & Hout & Hfi).
  { intros i c s0 Ht Hsa Hi Hfc Hc.
    assert (Forall (fun x => x <> 0) w) as Hw by (eapply List.Forall_impl; [|exact U1]; by intros x [? _]).
    pose proof (get_exchange s0 i c hd w v m Ht (proj2 Hsa) Hi ltac:(lia) Hc eq_refl Hw) as Eg. rewrite Hlow in Eg.
    specialize (Eg U4 U2 Hview). rewrite Hfc in Eg. change (flags hd) with 0 in Eg. rewrite Hsh in Eg.
    eexists _, (base s0). split; [exact Eg|]. split_and!; [done|apply Hsa|apply Hsa|done]. }
  exists s'. split; [|done]. eexists p, _, (Bytes (v ++ [0])). split_and!; [exact E|done|exact E'|exact Hout|exact Hr].
Qed.

(** C18. What is set from the command line is what is got.  For a path outside of the runtime nodes that names a node, and a value that
    does not begin with a dash (one that is all of the value apart), with at most 254 characters together: [rgdb -s path value], run
    against the server through a connection of its own, ends with 0; afterwards [rgdb -g path'], for the same path in any mixture of small and capital letters and
    blanks around it, prints the value without the blanks around it and a newline; both connections are closed.  There is memory, the server has a free
    slot, and it can be reached. *)
Theorem rgdb_set_get s f path v h y f' path' h' y' :
  at_rest s -> (length (used (clients s)) < MAX_CLIENT_LIST)%nat -> 2 < f -> (f ∉ opened s) -> 2 < f' -> (f' ∉ opened s) ->
  avail h = [] -> working y -> deliver (Ack done_ack) (replies (other y)) ->
  avail h' = [] -> working y' -> deliver (Bytes (trimmed v ++ [0])) (replies (other y')) ->
  operand v -> cstring (trimmed v) ->
  let w := str_tolower (trimmed path) in
  usable w -> (length (w ++ 32%Z :: trimmed v) <= 254)%nat -> str_tolower (trimmed path') = w ->
  exists s1 s2, session s f [str_s; path; v] h y s1 0 [] /\ session s1 f' [str_g; path'] h' y' s2 0 (trimmed v ++ [10]) /\
    at_rest s2 /\ opened s2 = opened s /\
    (forall q, view (g_xml_root (base s2)) q = assigned (view (g_xml_root (base s))) (keys_of w) (trimmed v) q).
Proof using Type.
  intros Hs Hl Hf Hn Hf' Hn' Ha Hy Hr Ha' Hy' Hr' Hv Hc w Hw Hlen Ew.
  assert (Forall (fun c => c <> 0) (trimmed v)) as Hnz by (eapply List.Forall_impl; [|exact Hc]; unfold is_char; lia).
  destruct (set_session s f path v h y Hs Hl Hf Hn Ha Hy Hv Hr Hw Hnz Hlen) as (s1 & E1 & Hs1 & Ho1 & _ & Hq). fold w in Hq.
  assert (length (used (clients s1)) = length (used (clients s))) as Hlu.
  { rewrite <- (Permutation_length (rest_opened _ Hs1)), Ho1. by apply Permutation_length, rest_opened. }
  pose proof (Hq (keys_of w)) as Hk. unfold assigned in Hk. rewrite decide_True in Hk by done.
  destruct (get_session s1 f' path' (trimmed v) (snd (default ([], []) (view (g_xml_root (base s)) (keys_of w)))) h' y' Hs1) as (s2 & E2 & Hs2 & Ho2 & _ & Eb);
    rewrite ?Ew, ?Hlu, ?Ho1; try done.
  { rewrite length_app in Hlen. cbn [length] in Hlen. lia. }
  exists s1, s2. split_and!; [done|done|done|by rewrite Ho2|by rewrite Eb].
Qed.

End Sessions.

(** ** A run *)

#[local] Instance session_system : System := { can_write f := true; tlogs_used := false; tlogs_file f := None; depth := 20 }.

(** A server with two clients, and a client that is answered. *)
Lemma two_clients_rest : at_rest two_clients.
Proof.
  destruct two_clients_inv as [H1 H2 _ H4 H5 H6 _ _]. constructor; [done|done|done|done| |done].
  apply (bool_decide_unpack _). vm_compute. exact I.
Qed.

Definition reached (rs : list (option output)) : system_t := mksys 3 (fun _ => 0) (mkpeer 12 1 rs 77).

Lemma reached_working rs : working (reached rs).
Proof. by split_and!. Qed.

Definition given_path : list Z := Eval cbv in cs "  /WAN/Mode ".
Definition asked_path : list Z := Eval cbv in cs "/wan/mode".
Definition given_value : list Z := Eval cbv in cs "dhcp client ".

Lemma usable_example : usable asked_path.
Proof. constructor; apply (bool_decide_unpack _); vm_compute; exact I. Qed.

(** [rgdb -s "  /WAN/Mode " "dhcp client "] and [rgdb -g /wan/mode]; the answer is read in two pieces. *)
Lemma rgdb_set_get_witness :
  let y := reached [Some (Ack done_ack)] in
  let y' := reached (pieces [cs "dhcp "; cs "client" ++ [0]]) in
  exists s1 s2, session two_clients 7 [str_s; given_path; given_value] (mkheap [] 0) y s1 0 [] /\
    session s1 7 [str_g; asked_path] (mkheap [] 0) y' s2 0 (cs "dhcp client" ++ [10]) /\ at_rest s2.
Proof.
  intros y y'. destruct (rgdb_set_get two_clients 7 given_path given_value (mkheap [] 0) y 7 asked_path (mkheap [] 0) y' two_clients_rest)
    as (s1 & s2 & E1 & E2 & Hs & _).
  - vm_compute. lia.
  - lia.
  - computed.
  - lia.
  - computed.
  - reflexivity.
  - apply reached_working.
  - reflexivity.
  - reflexivity.
  - apply reached_working.
  - exists [cs "dhcp "; cs "client" ++ [0]]. split_and!; computed.
  - done.
  - computed.
  - exact usable_example.
  - vm_compute. lia.
  - reflexivity.
  - exists s1, s2. split_and!; [exact E1|exact E2|exact Hs].
Defined.

(** ** What the client does not tell *)

(** A value that begins with a dash is taken for an option, and nothing is set. *)
Example negative_value_refused :
  exists p, rgdb_main [str_s; asked_path; cs "-1"] (mkheap [] 0) (reached [Some (Ack done_ack)]) = (Exit (-1) p, []) /\ stdout p = usage.
Proof. eexists. split; [vm_compute; reflexivity|reflexivity]. Qed.

(** A long value is cut, and the client is told that it has been set. *)
Example long_value_cut :
  let v := replicate 300 120 in
  exists p, rgdb_main [str_s; asked_path; v] (mkheap [] 0) (reached [Some (Ack done_ack)]) =
    (Exit 0 p, [Header (mkipc RGDB_SET 255 0 77); Data (asked_path ++ 32 :: replicate 244 120 ++ [0])]).
Proof. eexists. vm_compute. reflexivity. Qed.

(** A template of 65535 characters is announced with length 0. *)
Example length_wraps :
  snd (send_xmldb_cmd (other (reached [])) RGDB_PATCH_BUFF 0 (replicate (Z.to_nat 65535) 32)) = [Header (mkipc RGDB_PATCH_BUFF 0 0 77); Data []].
Proof. vm_compute. reflexivity. Qed.

(** When the socket is descriptor 0 the request is not made, and the exit code is the length of the path. *)
Example descriptor_zero :
  exists p, rgdb_main [str_g; asked_path] (mkheap [] 0) (mksys 0 (fun _ => 0) (mkpeer 12 1 [] 0)) = (Exit 9 p, []).
Proof. eexists. vm_compute. reflexivity. Qed.

(** When the server cannot be reached a request is made all the same, and [-g] prints a newline. *)
Example unreachable_prints :
  exists p, rgdb_main [str_g; asked_path] (mkheap [] 0) (mksys 3 (fun _ => -1) (mkpeer 12 1 [] 0)) = (Exit (-1) p, []) /\ stdout p = [10].
Proof. eexists. split; [vm_compute; reflexivity|reflexivity]. Qed.

(** A path below [/runtime/] without another slash, or with more than 63 characters before it, is copied out of bounds. *)
Example runtime_overrun :
  fst (rgdb_main [str_g; cs "/runtime/wan"] (mkheap [] 0) (reached [])) = Undefined /\
  fst (rgdb_main [str_g; cs "/runtime/" ++ replicate 64 97 ++ cs "/x"] (mkheap [] 0) (reached [])) = Undefined.
Proof. by vm_compute. Qed.

(** A command that prints nothing makes [lrgbin_run_shell] look at the byte before its buffer. *)
Example empty_command_output : lrgbin_run_shell (fun _ => Some []) (replicate 8 1) 8 (cs "true") = None.
Proof. by vm_compute. Qed.

End RgdbSession.
