(* ===== verification/Libxmldbc.v ===== *)
(** * comlib/libxmldbc.c: the library of the clients of the configuration database.

    The programs of the firmware talk to the database through these calls: a connection for each request, a header, a parameter
    and an answer.  The requests to get, set and delete and to run a program are those of the server that [XmldbServer] models;
    the last section runs them against it.  What the system answers is the input of the model; [None] is undefined behaviour, or
    an answer that never comes. *)
From Stdlib Require Import ZArith Lia Bool String.
From stdpp Require Import base tactics list option numbers functions.
From S2P Require Import Prelude Xmldb XmldbFile Ephp EphpRun Patch PatchShow PatchTemplate PatchRender PatchMessage XmldbServer XmldbRequests Lrgbin Rgdb RgdbSession.

Module Libxmldbc.
Import Xmldb XmldbFile XmldbServer XmldbRequests RgdbSession.
Import Lrgbin (snprintf, MAX_CMD_LEN, peer, mkpeer, w_header, w_data, replies, junk, sent, Header, Data, pieces).
Import Rgdb (system_t, mksys, socket, connect, other, working).

Definition XMLDB_GET : Z := 1.
Definition XMLDB_SET : Z := 2.
Definition XMLDB_DEL : Z := 3.
Definition XMLDB_RELOAD : Z := 4.
Definition XMLDB_DUMP : Z := 5.
Definition XMLDB_READ : Z := 6.
Definition XMLDB_PATCH : Z := 7.
Definition XMLDB_EPHP : Z := 10.
Definition XMLDB_SETEXT : Z := 11.
Definition XMLDB_TIMER : Z := 12.
Definition XMLDB_KILLTIMER : Z := 13.
Definition XMLDB_WRITE : Z := 14.

(** ** Strings and commands *)

Definition IS_WHITE (c : Z) : bool := (c =? 32) || (c =? 9) || (c =? 10) || (c =? 13).

Definition lxmldbc_eatwhite (s : list Z) : list Z := eat IS_WHITE s.
Definition lxmldbc_reatwhite (s : list Z) : list Z := rev (eat IS_WHITE (rev s)).

(** [system]: its argument. *)
Definition lxmldbc_system (s : list Z) : list Z := snprintf MAX_CMD_LEN s.

(** [popen]: what the command prints, or NULL.  The result and the buffer; behind a command that prints nothing the byte before
    the buffer is looked at. *)
Definition lxmldbc_run_shell (popen : list Z -> option (list Z)) (buf : list Z) (size : Z) (cmd : list Z) : option (Z * list Z) :=
  match popen (snprintf MAX_CMD_LEN cmd) with
  | Some text =>
      let got := take (Z.to_nat (size - 1)) text in
      if (length got <? length buf)%nat then
        let buf := got ++ [0] ++ drop (S (length got)) buf in
        let i := zlen (cstr buf) in
        c ← rd buf (i - 1);
        if c =? 10 then buf ← wr buf (i - 1) 0; Some (0, buf) else Some (0, buf)
      else None
  | None => buf ← wr buf 0 0; Some (-1, buf)
  end.

(** ** The protocol *)

Definition XMLDB_DEFAULT_UNIXSOCK : list Z := Eval cbv in cs "/var/run/xmldb_sock".

(** [__open_socket] *)
Definition open_socket (y : system_t) (sockname : option (list Z)) : Z :=
  if socket y <? 0 then -1
  else if connect y (snprintf 108 (default XMLDB_DEFAULT_UNIXSOCK sockname)) <? 0 then -1
  else socket y.

(** The length is a short: of a longer parameter only a part is sent. *)
Definition send_xmldb_cmd (p : peer) (action flags : Z) (data : list Z) : Z * list sent :=
  let length := u16 (zlen data + 1) in
  let ipc := mkipc action length flags (junk p) in
  if w_header p <=? 0 then (-1, [])
  else if w_data p <=? 0 then (-1, [Header ipc])
  else (0, [Header ipc; Data (take (Z.to_nat length) (data ++ [0]))]).

(** The answer is complete when a piece of it ends with NUL. *)
Fixpoint redirect_output (l : list (option output)) : option (list Z) :=
  match l with
  | Some (Bytes (b :: bs)) :: tl =>
      if list.last (b :: bs) is Some 0 then Some (cstr (b :: bs))
      else o ← redirect_output tl; Some (b :: bs ++ o)
  | Some (Bytes []) :: _ | None :: _ => Some []
  | _ => None
  end.

(** [read] gives at most what there is room for, and the rest with the next call.  The test behind it is true whenever there
    still is room. *)
Fixpoint redirect_to_buffer (l : list (option output)) (buff : list Z) (buff_size : nat) : option (list Z) :=
  match l with
  | Some (Bytes bs) :: tl =>
      let got := take (buff_size - length buff) bs in
      match got with
      | [] => Some buff
      | _ =>
          let buff := buff ++ got in
          if list.last buff is Some 0 then Some buff
          else if (length buff <=? buff_size)%nat then Some buff
          else redirect_to_buffer tl buff buff_size
      end
  | None :: _ => Some buff
  | _ => None
  end.

(** A request with an answer that is written to a file. *)
Definition cmd_w_out (y : system_t) (sn : option (list Z)) (a f : Z) (param : list Z) : option (Z * list sent * list Z) :=
  if open_socket y sn <? 0 then Some (-1, [], [])
  else
    let '(r, s) := send_xmldb_cmd (other y) a f param in
    if r <? 0 then Some (-1, s, [])
    else o ← redirect_output (replies (other y)); Some (0, s, o).

(** A request that is acknowledged: the return code of the header that comes back, whatever it was before if none comes. *)
Definition cmd_wo_out (y : system_t) (sn : option (list Z)) (a f : Z) (param : list Z) : option (Z * list sent) :=
  if open_socket y sn <? 0 then Some (-1, [])
  else
    let '(r, s) := send_xmldb_cmd (other y) a f param in
    if r <? 0 then Some (-1, s)
    else match replies (other y) with Some (Ack h) :: _ => Some (retcode h, s) | _ => None end.

(** A request with an answer that is read into a buffer: the result and the buffer behind it. *)
Definition cmd_w_buffer (y : system_t) (sn : option (list Z)) (a f : Z) (param buff : list Z) : option (Z * list sent * list Z) :=
  if open_socket y sn <? 0 then Some (-1, [], buff)
  else
    let '(r, s) := send_xmldb_cmd (other y) a f param in
    if r <? 0 then Some (-1, s, buff)
    else o ← redirect_to_buffer (replies (other y)) [] (length buff); Some (0, s, o ++ drop (length o) buff).

Section Calls.
Context (y : system_t) (sn : option (list Z)) (f : Z).

Definition xmldbc_get_wb (node buff : list Z) := cmd_w_buffer y sn XMLDB_GET f node buff.
Definition xmldbc_get (node : list Z) := cmd_w_out y sn XMLDB_GET f node.
Definition xmldbc_ephp_wb (file buff : list Z) := cmd_w_buffer y sn XMLDB_EPHP f file buff.
Definition xmldbc_ephp (file : list Z) := cmd_w_out y sn XMLDB_EPHP f file.

(** The path and the value in a buffer of 511 bytes. *)
Definition pair_param (node value : list Z) : list Z := snprintf 511 (node ++ 32 :: value).

Definition xmldbc_set (node value : list Z) := cmd_wo_out y sn XMLDB_SET f (pair_param node value).
Definition xmldbc_setext (node cmd : list Z) := cmd_wo_out y sn XMLDB_SETEXT f (pair_param node cmd).
Definition xmldbc_timer (cmd : list Z) := cmd_wo_out y sn XMLDB_TIMER f cmd.
Definition xmldbc_killtimer (tag : list Z) := cmd_wo_out y sn XMLDB_KILLTIMER f tag.
Definition xmldbc_del (node : list Z) := cmd_wo_out y sn XMLDB_DEL f node.
Definition xmldbc_reload (file : list Z) := cmd_wo_out y sn XMLDB_RELOAD f file.
Definition xmldbc_patch (file : list Z) := cmd_wo_out y sn XMLDB_PATCH f file.
Definition xmldbc_read (file : list Z) := cmd_wo_out y sn XMLDB_READ f file.
Definition xmldbc_write (node : list Z) := cmd_w_out y sn XMLDB_WRITE f node.
Definition xmldbc_dump (file : list Z) := cmd_wo_out y sn XMLDB_DUMP f file.
End Calls.

(** ** Answers *)

(** The two libraries have the same protocol. *)
Lemma send_same p a f d : send_xmldb_cmd p a f d = Lrgbin.send_xmldb_cmd p a f d.
Proof. reflexivity. Qed.

Lemma redirect_same l : redirect_output l = Lrgbin.redirect_output l.
Proof. reflexivity. Qed.

(** Only the first piece gets into the buffer. *)
Lemma buffer_first bs l size : bs <> [] -> (0 < size)%nat -> redirect_to_buffer (pieces (bs :: l)) [] size = Some (take size bs).
Proof.
  intros Hb Hs. cbn [pieces map redirect_to_buffer length app]. rewrite Nat.sub_0_r. destruct (take size bs) as [|c got] eqn:E.
  - destruct bs, size; try done; lia.
  - rewrite <- E, length_take, (proj2 (Nat.leb_le _ _)) by lia. destruct (list.last _) as [[]|]; done.
Qed.

(** ** Requests to the server *)

Section Server.
Context `{System}.

(** A request with the messages [l] through the descriptor [f]: the server reads them and writes one answer, which is what the
    client reads. *)
Definition request (s : server) (f : Z) (l : list sent) (y : system_t) (s' : server) : Prop :=
  exists o, main_loop s (visit f l) = Some (s', false) /\ out s' = out s ++ [(f, o)] /\ deliver o (replies (other y)).

Record usable_path (w : list Z) : Prop := {
  path_chars : Forall (fun x => x <> 0 /\ x <> 32) w;
  path_names : path_ok (str_tolower w);
  path_nums : nums_ok (str_tolower w);
  path_plain : PatchTemplate.vexp_ok (PatchTemplate.VNode (str_tolower w)) = true
}.

Lemma open_working y sn : working y -> (open_socket y sn <? 0) = false.
Proof using Type. intros (H1 & H2 & _). unfold open_socket. rewrite (proj2 (Z.ltb_ge (socket y) 0)) by lia. rewrite (proj2 (Z.ltb_ge _ _) (H2 _)). apply Z.ltb_ge. lia. Qed.

Lemma send_working y a f d : working y -> zlen d + 1 < 2 ^ 16 ->
  send_xmldb_cmd (other y) a f d = (0, [Header (mkipc a (zlen d + 1) f (junk (other y))); Data (d ++ [0])]).
Proof using Type. intros (_ & _ & H3 & H4) Hd. rewrite send_same. by apply Rgdb.send_whole. Qed.

Lemma set_request s f y sn path v : at_rest s -> (length (used (clients s)) < MAX_CLIENT_LIST)%nat -> 2 < f -> (f ∉ opened s) ->
  working y -> deliver (Ack done_ack) (replies (other y)) -> usable_path path -> Forall (fun x => x <> 0) v -> (length (path ++ 32%Z :: v) <= 510)%nat ->
  exists s' l, xmldbc_set y sn 0 path v = Some (0, l) /\ request s f l y s' /\ at_rest s' /\ opened s' = opened s /\
    (forall q, view (g_xml_root (base s')) q = assigned (view (g_xml_root (base s))) (keys_of (str_tolower path)) v q).
Proof using Type.
  intros Hs Hl Hf Hn Hy Hr [U1 U2 U3 U4] Hz Hlen. set (m := mkipc XMLDB_SET (zlen (path ++ 32 :: v) + 1) 0 (junk (other y))).
  destruct (visit_runs s f [Header m; Data ((path ++ 32 :: v) ++ [0])] (Ack done_ack)
    (fun d => forall q, view (g_xml_root d) q = assigned (view (g_xml_root (base s))) (keys_of (str_tolower path)) v q) Hs Hl Hf Hn)
    as (s' & E' & Hs' & Hop & Hq & Hout & Hfi).
  { intros i c s0 Ht Hsa Hi Hfc Hc. destruct (set_exchange s0 i c m path v Ht Hsa Hi ltac:(lia) Hc eq_refl U1 Hz U2) as (d & Ed & Hview & _ & Hav).
    destruct (Hav U3) as [Hav' Hwf]. exists done_ack, d. rewrite Hfc in *. split_and!; done. }
  exists s', [Header m; Data ((path ++ 32 :: v) ++ [0])]. split_and!; [|by exists (Ack done_ack)|done|done|done].
  unfold xmldbc_set, cmd_wo_out, pair_param, snprintf. rewrite open_working, take_ge by (done || lia). rewrite send_working by (done || lia). cbn [deliver] in Hr. by rewrite Hr.
Qed.

Lemma get_visit s f path v m r : at_rest s -> (length (used (clients s)) < MAX_CLIENT_LIST)%nat -> 2 < f -> (f ∉ opened s) ->
  usable_path path -> cstring v -> view (g_xml_root (base s)) (keys_of (str_tolower path)) = Some (v, m) ->
  exists s', main_loop s (visit f [Header (mkipc XMLDB_GET (zlen path + 1) 0 r); Data (path ++ [0])]) = Some (s', false) /\ out s' = out s ++ [(f, Bytes (v ++ [0]))] /\
    at_rest s' /\ opened s' = opened s /\ base s' = base s.
Proof using Type.
  intros Hs Hl Hf Hn [U1 U2 U3 U4] Hv Hview. set (hd := mkipc XMLDB_GET (zlen path + 1) 0 r).
  assert (map u8 (PatchShow.shown 0 v) = v) as Hsh.
  { change (PatchShow.shown 0 v) with v. clear -Hv. induction Hv as [|c v Hc _ IH]; [done|]. cbn in *. rewrite IH. f_equal. apply Z.mod_small. unfold is_char in Hc. lia. }
  destruct (visit_runs s f [Header hd; Data (path ++ [0])] (Bytes (v ++ [0])) (fun d => d = base s) Hs Hl Hf Hn) as (s' & E' & Hs' & Hop & Hq & Hout & Hfi); [|by exists s'].
  intros i c s0 Ht Hsa Hi Hfc Hc. assert (Forall (fun x => x <> 0) path) as Hw by (eapply List.Forall_impl; [|exact U1]; by intros x [? _]).
  pose proof (get_exchange s0 i c hd path v m Ht (proj2 Hsa) Hi ltac:(lia) Hc eq_refl Hw U4 U2 Hview) as Eg. rewrite Hfc in Eg. change (flags hd) with 0 in Eg. rewrite Hsh in Eg.
  eexists _, (base s0). split; [exact Eg|]. split_and!; [done|apply Hsa|apply Hsa|done].
Qed.

(** C19. What one program sets is what another gets, if the path and the value have at most 510 characters together: [xmldbc_set]
    through a connection to the server of [tools/alpha/xmldb], whose codes for GET and SET are those of the library, ends with 0, and whatever
    connection comes next, [xmldbc_get] of the path, in small or capital letters, writes the value, in however many pieces it comes;
    [xmldbc_get_wb] has the value, with the end of the string, in its buffer, if it comes in one piece and the buffer is large
    enough.  The path names a node; there is memory, the server has a free slot, and it can be reached. *)
Theorem xmldbc_set_get s f path v y sn f' path' y' y'' sn' buff :
  at_rest s -> (length (used (clients s)) < MAX_CLIENT_LIST)%nat -> 2 < f -> (f ∉ opened s) -> 2 < f' -> (f' ∉ opened s) ->
  working y -> deliver (Ack done_ack) (replies (other y)) -> usable_path path -> cstring v -> (length (path ++ 32%Z :: v) <= 510)%nat ->
  usable_path path' -> str_tolower path' = str_tolower path -> zlen path' + 1 < 2 ^ 16 ->
  working y' -> deliver (Bytes (v ++ [0])) (replies (other y')) ->
  working y'' -> replies (other y'') = pieces [v ++ [0]] -> zlen v + 1 <= 1024 -> (length v < length buff)%nat ->
  exists s1 l1 s2 l2 s3 l3,
    xmldbc_set y sn 0 path v = Some (0, l1) /\ request s f l1 y s1 /\
    xmldbc_get y' sn' 0 path' = Some (0, l2, v) /\ request s1 f' l2 y' s2 /\
    xmldbc_get_wb y'' sn' 0 path' buff = Some (0, l3, v ++ 0 :: drop (S (length v)) buff) /\ request s2 f' l3 y'' s3 /\
    at_rest s3 /\ opened s3 = opened s /\
    (forall q, view (g_xml_root (base s3)) q = assigned (view (g_xml_root (base s))) (keys_of (str_tolower path)) v q).
Proof using Type.
  intros Hs Hl Hf Hn Hf' Hn' Hy Hr Hp Hv Hlen Hp' Ep Hlen' Hy' Hr' Hy'' Hr'' Hv1 Hb.
  assert (Forall (fun c => c <> 0) v) as Hnz by (eapply List.Forall_impl; [|exact Hv]; unfold is_char; lia).
  destruct (set_request s f y sn path v Hs Hl Hf Hn Hy Hr Hp Hnz Hlen) as (s1 & l1 & E1 & R1 & Hs1 & Ho1 & Hq).
  assert (forall t, at_rest t -> opened t = opened s -> (length (used (clients t)) < MAX_CLIENT_LIST)%nat) as Hlu.
  { intros t Ht Ho. rewrite <- (Permutation_length (rest_opened _ Ht)), Ho, (Permutation_length (rest_opened _ Hs)). exact Hl. }
  pose proof (Hq (keys_of (str_tolower path))) as Hk. unfold assigned in Hk. rewrite decide_True in Hk by done. rewrite <- Ep in Hk.
  destruct (get_visit s1 f' path' v _ (junk (other y')) Hs1 (Hlu _ Hs1 Ho1) Hf' ltac:(by rewrite Ho1) Hp' Hv Hk) as (s2 & E2 & O2 & Hs2 & Ho2 & B2). rewrite <- B2 in Hk.
  destruct (get_visit s2 f' path' v _ (junk (other y'')) Hs2 (Hlu _ Hs2 (eq_trans Ho2 Ho1)) Hf' ltac:(by rewrite Ho2, Ho1) Hp' Hv Hk) as (s3 & E3 & O3 & Hs3 & Ho3 & B3).
  eexists s1, l1, s2, _, s3, _. split; [exact E1|]. split; [exact R1|]. split.
  { unfold xmldbc_get, cmd_w_out. rewrite open_working, send_working by done. cbn [Z.ltb Z.compare]. rewrite redirect_same. destruct Hr' as (l & -> & Hc & Hne).
    rewrite (Lrgbin.redirect_pieces l v Hnz); [reflexivity| |done]. eapply List.Forall_impl; [|exact Hne]. by intros b [? _]. }
  split; [exists (Bytes (v ++ [0])); split_and!; [exact E2|exact O2|exact Hr']|]. split.
  { unfold xmldbc_get_wb, cmd_w_buffer. rewrite open_working, send_working by done. cbn [Z.ltb Z.compare]. rewrite Hr'', buffer_first by ((by destruct v) || lia). cbn [mbind option_bind].
    rewrite take_ge by (rewrite length_app; cbn [length]; lia). rewrite length_app, <- app_assoc. cbn [length app]. by rewrite Nat.add_1_r. }
  split; [exists (Bytes (v ++ [0])); split_and!; [exact E3|exact O3|rewrite Hr'']|].
  { exists [v ++ [0]]. split_and!; [done|cbn; by rewrite app_nil_r|]. constructor; [|constructor]. split; [by destruct v|rewrite length_app; cbn [length]; lia]. }
  split_and!; [exact Hs3|by rewrite Ho3, Ho2|]. intros q. by rewrite B3, B2.
Qed.
End Server.

(** Whatever comes behind the first piece is not read, and the call says that all is well. *)
Theorem get_wb_first_piece y sn f node buff bs l : working y -> zlen node + 1 < 2 ^ 16 -> replies (other y) = pieces (bs :: l) -> bs <> [] -> buff <> [] ->
  exists s, xmldbc_get_wb y sn f node buff = Some (0, s, take (length buff) bs ++ drop (length (take (length buff) bs)) buff).
Proof.
  intros Hy Hn Hr Hb Hbuff. eexists. unfold xmldbc_get_wb, cmd_w_buffer. rewrite open_working, send_working by done. cbn [Z.ltb Z.compare].
  rewrite Hr, buffer_first by (done || (destruct buff; [done|cbn [length]; lia])). reflexivity.
Qed.

(** ** A run *)

#[local] Instance library_system : System := { can_write f := true; tlogs_used := false; tlogs_file f := None; depth := 20 }.

Definition set_path : list Z := Eval cbv in cs "/WAN/Mode".
Definition set_value : list Z := Eval cbv in cs "dhcp client".

Lemma usable_set_path : usable_path set_path /\ usable_path asked_path.
Proof. split; constructor; apply (bool_decide_unpack _); vm_compute; exact I. Qed.

Lemma xmldbc_set_get_witness :
  let y := reached [Some (Ack done_ack)] in
  let y' := reached (pieces [cs "dhcp "; cs "client" ++ [0]]) in
  let y'' := reached (pieces [set_value ++ [0]]) in
  exists s1 l1 s2 l2 s3 l3, xmldbc_set y None 0 set_path set_value = Some (0, l1) /\ request two_clients 7 l1 y s1 /\
    xmldbc_get y' None 0 asked_path = Some (0, l2, set_value) /\ request s1 8 l2 y' s2 /\
    xmldbc_get_wb y'' None 0 asked_path (replicate 16 1) = Some (0, l3, set_value ++ [0; 1; 1; 1; 1]) /\ request s2 8 l3 y'' s3.
Proof.
  intros y y' y''. destruct usable_set_path as [U U'].
  destruct (xmldbc_set_get two_clients 7 set_path set_value y None 8 asked_path y' y'' None (replicate 16 1) two_clients_rest)
    as (s1 & l1 & s2 & l2 & s3 & l3 & E1 & R1 & E2 & R2 & E3 & R3 & _);
    [vm_compute; lia|lia|computed|lia|computed|apply reached_working|reflexivity|exact U|computed|vm_compute; lia|exact U'|reflexivity|computed|apply reached_working| |apply reached_working|reflexivity|computed|vm_compute; lia|].
  - exists [cs "dhcp "; cs "client" ++ [0]]. split_and!; computed.
  - exists s1, l1, s2, l2, s3, l3. split_and!; [exact E1|exact R1|exact E2|exact R2|exact E3|exact R3].
Defined.

(** The same answer in two pieces: half a value, without an end. *)
Example get_wb_cut : option_map snd (xmldbc_get_wb (reached (pieces [cs "dhcp "; cs "client" ++ [0]])) None 0 asked_path (replicate 8 1)) = Some (cs "dhcp " ++ [1; 1; 1]).
Proof. reflexivity. Qed.
End Libxmldbc.
