(* ===== verification/Effects.v ===== *)
(** * What a routine does in the world, in order, and its failures.

    The programs around the database work by commands, requests and files.  A routine of theirs is a function of the list of what has
    been done so far; [None] is undefined behaviour, or waiting for ever. *)
From Stdlib Require Import List.
From stdpp Require Import base tactics list option.

Module Effects.

Definition logM (E A : Type) : Type := list E -> option (A * list E).

#[global] Instance logM_ret {E} : MRet (logM E) := fun A x l => Some (x, l).
#[global] Instance logM_bind {E} : MBind (logM E) := fun A B k m l => match m l with Some (x, l') => k x l' | None => None end.

Section Log.
Context {E : Type}.

Definition lift {A} (o : option A) : logM E A := fun l => match o with Some x => Some (x, l) | None => None end.
Definition tell (e : E) : logM E unit := fun l => Some (tt, l ++ [e]).

Lemma log_ret {A} (x : A) l : mret (M := logM E) x l = Some (x, l).
Proof using Type. reflexivity. Qed.

Lemma log_bind {A B} (m : logM E A) (k : A -> logM E B) l x l' : m l = Some (x, l') -> (m ≫= k) l = k x l'.
Proof using Type. intros H. unfold mbind, logM_bind. by rewrite H. Qed.

Lemma log_lift {A B} (o : option A) (k : A -> logM E B) l x : o = Some x -> (lift o ≫= k) l = k x l.
Proof using Type. intros ->. reflexivity. Qed.

Lemma log_tell {B} e (k : unit -> logM E B) l : (tell e ≫= k) l = k tt (l ++ [e]).
Proof using Type. reflexivity. Qed.

(** A step that fails whatever comes before it. *)
Lemma bind_none {A B} (m : logM E A) (k : A -> logM E B) l : (forall x l', m l = Some (x, l') -> k x l' = None) -> (m ≫= k) l = None.
Proof using Type. intros H. unfold mbind, logM_bind. destruct (m l) as [[x l']|] eqn:Em; [by eapply H|done]. Qed.

(** Routines that do nothing but what [P] allows. *)
Definition does (P : E -> Prop) {A} (m : logM E A) : Prop := forall l x l', m l = Some (x, l') -> exists k, l' = l ++ k /\ Forall P k.

Lemma does_ret P {A} (x : A) : does P (mret x).
Proof using Type. intros l y l' [= _ <-]. exists []. by rewrite app_nil_r. Qed.

Lemma does_lift P {A} (o : option A) : does P (lift o).
Proof using Type. intros l y l'. unfold lift. destruct o; [|done]. intros [= _ <-]. exists []. by rewrite app_nil_r. Qed.

Lemma does_tell (P : E -> Prop) e : P e -> does P (tell e).
Proof using Type. intros He l y l' [= _ <-]. exists [e]. split; [done|by constructor]. Qed.

Lemma does_bind P {A B} (m : logM E A) (k : A -> logM E B) : does P m -> (forall x, does P (k x)) -> does P (m ≫= k).
Proof using Type.
  intros Hm Hk l y l'. unfold mbind, logM_bind. destruct (m l) as [[x l1]|] eqn:Em; [|done]. intros E'. destruct (Hm _ _ _ Em) as (k1 & -> & H1). destruct (Hk _ _ _ _ E') as (k2 & -> & H2).
  exists (k1 ++ k2). rewrite app_assoc. split; [done|]. by apply Forall_app.
Qed.
End Log.

Create HintDb does discriminated.
#[export] Hint Resolve does_ret does_lift does_tell does_bind : does.
End Effects.
