(* ===== verification/Sendtrap.v ===== *)
(** * comlib/sendtrap.c: SNMP traps.

    A trap is sent by a command for each host of the table in the configuration database; the commands are put together in
    buffers of 100 bytes on the stack.  [db] is what a query of the database reads, at most as much as the buffer takes; [None] is
    an access out of bounds. *)
From Stdlib Require Import ZArith Lia Bool String.
From stdpp Require Import base tactics list option numbers.
From S2P Require Import Prelude Effects Xmldb XmldbFile Lrgbin Rgdb.

Module Sendtrap.
Import Effects Xmldb XmldbFile.
Import Rgdb (num, zlen_num_small).

(** What is done: commands, nodes that are set or deleted, and text for the console. *)
Inductive event := System (cmd : list Z) | Set_node (node value : list Z) | Del_node (node : list Z) | Print (text : list Z).

Abbreviation M := (logM event).

Section Traps.
(** The database; the number of the model; the build with the traps of a provider, and the one for another provider. *)
Context (db : list Z -> list Z) (model : Z) (telecom cloud_sea : bool).

(** ** The database *)

(** [xmldbc_get_wb] into a buffer of zeros that has one more byte. *)
Definition get_small (path : list Z) (size : nat) : list Z := cstr (take size (db path)).

(** [xmldbc_get_wb] into all of a buffer of 256 zeros: without an end, what is printed of it goes on behind it. *)
Definition get_256 (path : list Z) : option (list Z) :=
  let got := take 256 (db path) in
  if (length got <? 256)%nat || existsb (Z.eqb 0) got then Some (cstr got) else None.

Definition XMLDEBUG : Z := 1.

Definition xml_debug (level : Z) (action node value : list Z) : M unit :=
  d ← lift (get_256 (cs "/runtime/snmp/debug"));
  if negb (Z.land level (atoi d) =? 0) then
    tell (Print (cs "action:" ++ action ++ cs "       node:" ++ node ++ cs "     value:" ++ value ++ [10]))
  else mret tt.

Definition rgdb_get_max (node : list Z) : M (list Z) :=
  v ← lift (get_256 node);
  _ ← xml_debug XMLDEBUG (cs "Get") node v;
  mret v.

(** The node with its index. *)
Definition rgdb_get_single_index (before after : list Z) (index : Z) : M (list Z) :=
  p ← lift (sprint 256 [] (before ++ num index ++ after));
  rgdb_get_max p.

(** The node with two. *)
Definition double_index (before between after : list Z) (index1 index2 : Z) : option (list Z) :=
  sprint 256 [] (before ++ num index1 ++ between ++ num index2 ++ after).

Definition rgdb_get_double_index (before between after : list Z) (index1 index2 : Z) : M (list Z) :=
  p ← lift (double_index before between after index1 index2);
  rgdb_get_max p.

(** [xmldbc_get_wb] into all of a buffer of [size] zeros. *)
Definition rgdb_get (node : list Z) (size : nat) : M (list Z) :=
  let got := take size (db node) in
  v ← lift (if (length got <? size)%nat || existsb (Z.eqb 0) got then Some (cstr got) else None);
  _ ← xml_debug XMLDEBUG (cs "Get") node v;
  mret v.

Definition rgdb_default_get_max (node def : list Z) : M (list Z) :=
  v ← rgdb_get_max node;
  match v with [] => if (length def <? 256)%nat then mret def else lift None | _ => mret v end.

Definition int_rgdb_get (node : list Z) : M Z := v ← rgdb_get_max node; mret (atoi v).

Definition int_default_rgdb_get (node : list Z) (def : Z) : M Z :=
  v ← rgdb_get_max node;
  mret (match v with [] => def | _ => atoi v end).

Definition int_rgdb_get_single_index (before after : list Z) (index : Z) : M Z :=
  p ← lift (sprint 256 [] (before ++ num index ++ after));
  int_rgdb_get p.

Definition int_rgdb_get_double_index (before between after : list Z) (index1 index2 : Z) : M Z :=
  p ← lift (double_index before between after index1 index2);
  int_rgdb_get p.

(** With the debugging on, the text of a null pointer is printed. *)
Definition rgdb_del (node : list Z) : M unit :=
  d ← lift (get_256 (cs "/runtime/snmp/debug"));
  if negb (Z.land XMLDEBUG (atoi d) =? 0) then lift None else tell (Del_node node).

Definition rgdb_set (node value : list Z) : M unit :=
  _ ← xml_debug XMLDEBUG (cs "Set") node value;
  tell (Set_node node value).

Definition rgdb_set_single_index (before after value : list Z) (index : Z) : M unit :=
  p ← lift (sprint 256 [] (before ++ num index ++ after));
  rgdb_set p value.

Definition rgdb_set_double_index (before between after value : list Z) (index1 index2 : Z) : M unit :=
  p ← lift (double_index before between after index1 index2);
  rgdb_set p value.

(** The value that it is declared to return is not given. *)
Definition int_rgdb_set (node : list Z) (value : Z) : M unit :=
  b ← lift (sprint 256 [] (num value));
  rgdb_set node b.

Definition int_rgdb_set_single_index (before after : list Z) (value index : Z) : M unit :=
  p ← lift (sprint 256 [] (before ++ num index ++ after));
  int_rgdb_set p value.

Definition int_rgdb_set_double_index (before between after : list Z) (value index1 index2 : Z) : M unit :=
  p ← lift (double_index before between after index1 index2);
  int_rgdb_set p value.

(** [size] bytes of [value], which is all there is to read, in a buffer of 256 zeros. *)
Definition rgdb_set_safe (node value : list Z) (size : nat) : M unit :=
  b ← lift (if (size <=? length value)%nat && (size <=? 256)%nat then
              let got := take size value in if (size <? 256)%nat || existsb (Z.eqb 0) got then Some (cstr got) else None
            else None);
  rgdb_set node b.

(** [var] is the number that [value] points to. *)
Definition int_rgdb_set_safe (node : list Z) (var : Z) : M unit := int_rgdb_set node var.

(** [num++] of the greatest number is an overflow. *)
Definition xmldbc_integer_increase (node : list Z) : M unit :=
  v ← lift (get_256 node);
  n ← lift (int_of (atoi v + 1));
  b ← lift (sprint 256 [] (num n));
  tell (Set_node node b).

(** ** Commands *)

Definition str_trap : list Z := Eval cbv in cs "[SNMP-TRAP]".
Definition str_generic : list Z := Eval cbv in cs "[Generic=".
Definition str_specific : list Z := Eval cbv in cs "[Specific=".
Definition str_telecom : list Z := Eval cbv in cs "[Telecom=".
Definition str_tebind : list Z := Eval cbv in cs "[TeBind=".
Definition str_up_times : list Z := Eval cbv in cs "/runtime/stats/wireless/up_times".

Definition trap_counter (cmd : list Z) : M unit :=
  if has_prefix str_trap cmd then
    let cmd := drop 11 cmd in
    let cmd := if has_prefix str_generic cmd then drop 9 cmd else cmd in
    let specific := has_prefix str_specific cmd in
    let cmd := if specific then drop 10 cmd else cmd in
    _ ← (if specific && (atoi cmd =? 7) then xmldbc_integer_increase str_up_times else mret tt);
    if telecom && has_prefix str_telecom cmd && (atoi (drop 9 cmd) =? 18) then xmldbc_integer_increase str_up_times else mret tt
  else mret tt.

Definition str_hostip : list Z := Eval cbv in cs "/sys/snmpd/hostip:".
Definition str_secumodel : list Z := Eval cbv in cs "/sys/snmpd/secumodel:".
Definition str_commorun : list Z := Eval cbv in cs "/sys/snmpd/commorun:".
Definition str_quiet : list Z := Eval cbv in cs " 1>/dev/null 2>&1 ".

(** A row of the table of hosts. *)
Definition row (name : list Z) (host : Z) : M (list Z) := p ← lift (sprint 30 [] (name ++ num host)); mret (get_small p 29).

(** A command in a buffer of 100 bytes, with the output thrown away. *)
Definition run (text : list Z) : M unit :=
  c ← lift (sprint 100 [] text);
  c ← lift (sprint 100 c str_quiet);
  tell (System c).

(** The loop over the table, up to the first row without a host: [v1] and [v2] are the commands, by the community and the host,
    for the two versions. *)
Fixpoint host_loop (n : nat) (host : Z) (v1 v2 : option (list Z -> list Z -> list Z)) : M unit :=
  match n with
  | O => mret tt
  | S n =>
      h ← row str_hostip host;
      match h with
      | [] => mret tt
      | _ =>
          sec ← row str_secumodel host;
          _ ← match (if deref sec =? 49 then v1 else None) with
              | Some f => c ← row str_commorun host; run (f c h)
              | None => mret tt
              end;
          _ ← match (if deref sec =? 50 then v2 else None) with
              | Some f => c ← row str_commorun host; run (f c h)
              | None => mret tt
              end;
          host_loop n (host + 1) v1 v2
      end
  end.

(** [hosts 1] to [10]. *)
Definition all_hosts (v1 v2 : option (list Z -> list Z -> list Z)) : M unit := host_loop 10 1 v1 v2.

(** [\nsnmptrap -v 1 -c community host oid ""] *)
Definition str_v1 : list Z := Eval cbv in 10 :: cs "snmptrap -v 1 -c ".
Definition str_v2 : list Z := Eval cbv in cs "snmptrap -v 2c -c ".
Definition v1_head (oid comm host : list Z) : list Z := str_v1 ++ comm ++ 32 :: host ++ 32 :: oid ++ [32; 34; 34; 32].

Definition str_enterprise : list Z := if cloud_sea then cs "1.3.6.1.4.1.38045" else cs "1.3.6.1.4.1.171".

Definition sendGenericTrap (trap : Z) : M unit :=
  all_hosts (Some (fun comm host => v1_head str_enterprise comm host ++ num trap ++ [32; 48; 32; 34; 34; 10])) None.

Definition specific_oid (trap : Z) : list Z :=
  if cloud_sea then cs "1.3.6.1.4.1.38045.10.37." ++ num model ++ cs ".5.7.1." ++ num trap
  else cs "1.3.6.1.4.1.171.10.37." ++ num model ++ cs ".5.7.2".

Definition sendSpecificTrap (trap : Z) : M unit :=
  oid ← lift (sprint 256 [] (specific_oid trap));
  all_hosts (Some (fun comm host => v1_head oid comm host ++ [54; 32] ++ num trap ++ [32; 34; 34; 32; 10]))
            (Some (fun comm host => str_v2 ++ comm ++ 32 :: host ++ [32; 34; 34; 32] ++ oid ++ 46 :: num trap)).

(** ** The traps of a provider *)

Definition trapName : list (list Z) := Eval cbv in map cs
  ["nothing"; "CPUusageTooHighTrap"; "CPUusageTooHighRecovTrap"; "MemUsageTooHighTrap"; "MemUsageTooHighRecovTrap"; "APOfflineTrap"; "APOnlineTrap";
   "APMtWorkModeChgTrap"; "APSWUpdateFailTrap"; "SSIDkeyConflictTrap"; "APCoInterfDetectedTrap"; "APCoInterfClearTrap"; "APNerborInterfDetectedTrap";
   "APNeiborInterfClearTrap"; "StaInterfDetectedTrap"; "StaInterfClearTrap"; "OtherDeviceInterfDetectedTrap"; "OtherDevInterfClearTrap"; "RadioDownTrap";
   "RadioDownRecovTrap"; "APStaFullTrap"; "APStaFullRecoverTrap"; "APMtRdoChanlChgTrap"; "StaAuthErrorTrap"; "StaAssociationFailTrap"; "UserWithInvalidCerTrap";
   "StationRepititiveAttackTrap"; "TamperAttackTrap"; "LowSafeLevelAttackTrap"; "AddressRedirectionAttackTrap"; "detectRogueTrap"]%string.

Definition trapSwitchTable : list (list Z) := Eval cbv in cs "nothing" :: map (fun s => cs "/sys/snmptrap/switch/" ++ cs s)
  ["cpuUsageTooHighTrapSwitch"; "cpuUsageTooHighRecovTrapSwitch"; "memUsageTooHighTrapSwitch"; "memUsageTooHighRecovTrapSwitch"; "apOfflineTrapSwitch";
   "apOnlineTrapSwitch"; "apMtWorkModeChgTrapSwitch"; "apSWUpdateFailTrapSwitch"; "ssidKeyConflictTrapSwitch"; "apCoInterfDetectedTrapSwitch";
   "apCoInterfClearTrapSwitch"; "apNerborInterfDetectedTrapSwitch"; "apNeiborInterfClearTrapSwitch"; "staInterfDetectedTrapSwitch"; "staInterfClearTrapSwitch";
   "otherDeviceInterfDetectedTrapSwitch"; "otherDevInterfClearTrapSwitch"; "radioDownTrapSwitch"; "radioDownRecovTrapSwitch"; "apStaFullTrapSwitch";
   "apStaFullRecoverTrapSwitch"; "apMtRdoChanlChgTrapSwitch"; "staAuthErrorTrapSwitch"; "stAssociationFailTrapSwitch";
   "userWithInvalidCerficationInbreakNetworkTrapSwitch"; "stationRepititiveAttackTrapSwitch"; "tamperAttackTrapSwitch"; "lowSafeLevelAttackTrapSwitch";
   "addressRedirectionAttackTrapSwitch"; "detectRogueTrapSwitch"]%string.

(** A variable of a trap: [ 1 s name"text"]. *)
Definition item (name : string) (text : list Z) : list Z := cs " 1 s " ++ cs name ++ 34 :: text ++ [34].

Definition path_mac : list Z := Eval cbv in cs "/runtime/wan/inf:1/mac".
Definition path_client : list Z := Eval cbv in cs "/runtime/stats/wlan/inf:1/client:1/mac".

Definition get_ssid (index : Z) : M (list Z) := rgdb_get_single_index (cs "/wlan/inf:") (cs "/ssid") index.

(** The channel in use, and whether it was chosen by the device. *)
Definition get_channel : M (list Z * bool) :=
  a ← rgdb_get_max (cs "/wlan/inf:1/autochannel");
  if atoi a =? 1 then c ← rgdb_get_max (cs "/runtime/stats/wlan/inf:1/channel"); mret (c, true)
  else c ← rgdb_get_max (cs "/wlan/inf:1/channel"); mret (c, false).

(** What [sprintf] puts into the buffer of 256 bytes for a trap. *)
Definition bind_text (trap : Z) (mac : list Z) : M (option (list Z)) :=
  if (trap =? 1) || (trap =? 2) then cpu ← rgdb_get_max (cs "/runtime/cpu/status/alluser_utilize"); mret (Some (item "ap:" mac ++ item "cpu:" cpu ++ [32]))
  else if (trap =? 3) || (trap =? 4) then mem ← rgdb_get_max (cs "/runtime/mem/status/alluser_utilize"); mret (Some (item "ap:" mac ++ item "mem:" mem ++ [32]))
  else if trap =? 5 then mret (Some (item "ap:" mac ++ item "reason:" (cs "eth disconnect") ++ [32]))
  else if trap =? 6 then mret (Some (item "ap:" mac ++ [32]))
  else if trap =? 7 then
    now ← rgdb_get_max (cs "/wlan/inf:1/apmonitor"); prev ← rgdb_get_max (cs "/wlan/inf:1/apmonitor_last");
    mret (Some (item "ap:" mac ++ item "monitor_now:" now ++ item "monitor_prev:" prev ++ [32]))
  else if trap =? 8 then
    v ← rgdb_get_max (cs "/runtime/sys/info/firmwareversion");
    mret (Some (item "reason:" (cs "fw version wrong") ++ item "version:" v ++ item "" (cs "version unknow") ++ [32]))
  else if trap =? 9 then
    s1 ← get_ssid 1; s2 ← get_ssid 2;
    mret (Some (item "ap" mac ++ item "ssid1:" s1 ++ item "ssid2:" s2 ++ item "" (cs "wepkey1")))
  else if (trap =? 10) || (trap =? 11) then
    c ← get_channel; i ← rgdb_get_max (cs "/runtime/interfereDevice");
    mret (Some (item "ap:" mac ++ item "channel:" c.1 ++ item "interfere:" i ++ [32]))
  else if (trap =? 12) || (trap =? 13) then
    c ← get_channel; i ← rgdb_get_max (cs "/runtime/interfereDevice"); ic ← rgdb_get_max (cs "/runtime/interfereChannel");
    mret (Some (item "ap:" mac ++ item "channel:" c.1 ++ item "interfere:" i ++ item "interchannel:" ic ++ [32]))
  else if (trap =? 14) || (trap =? 15) then
    c ← get_channel; cl ← rgdb_get_max path_client;
    mret (Some (item "ap:" mac ++ item "channel:" c.1 ++ item "client:" cl ++ [32]))
  else if (trap =? 16) || (trap =? 17) then
    c ← get_channel; mret (Some (item "ap:" mac ++ item "channel:" c.1 ++ [32; 32]))
  else if (trap =? 18) || (trap =? 19) then mret (Some (item "ap:" mac ++ item "reason:" (cs "admin down") ++ [32]))
  else if (trap =? 20) || (trap =? 21) then
    l ← rgdb_get_max (cs "/wlan/inf:1/assoc_limit/number");
    mret (Some (item "limit:" l ++ item "reason:" (cs "user limited") ++ [32]))
  else if trap =? 22 then
    c ← get_channel; old ← rgdb_get_max (cs "/wlan/inf:1/channel_old");
    mret (Some (item "ap:" mac ++ item "channel:" c.1 ++ item "channel_old:" old ++ item "changemode:" (if (c.2 : bool) then cs "auto" else cs "manual") ++ [32]))
  else if trap =? 23 then
    s1 ← get_ssid 1; cl ← rgdb_get_max path_client;
    mret (Some (item "ap:" mac ++ item "ssid1:" s1 ++ item "client:" cl ++ item "auth:" (cs "wep") ++ item "reason:" (cs "wep key fail") ++ [32]))
  else if trap =? 24 then
    s1 ← get_ssid 1; cl ← rgdb_get_max path_client;
    mret (Some (item "ap:" mac ++ item "ssid1:" s1 ++ item "client:" cl ++ item "reason:" (cs "user limited")))
  else if trap =? 25 then
    s1 ← get_ssid 1; cl ← rgdb_get_max path_client;
    mret (Some (32 :: item "ap:" mac ++ item "ssid1:" s1 ++ item "client:" cl ++ [32]))
  else if (26 <=? trap) && (trap <=? 29) then
    s1 ← get_ssid 1; cl ← rgdb_get_max path_client;
    mret (Some (item "ap:" mac ++ item "ssid1:" s1 ++ item "client:" cl ++ [32]))
  else mret None.

Definition trapbind (trap : Z) : M (list Z) :=
  mac ← rgdb_get_max path_mac;
  t ← bind_text trap mac;
  b ← match t with Some t => lift (sprint 256 [] t) | None => mret [] end;
  debug ← int_rgdb_get (cs "/debug/trap");
  _ ← (if negb (debug =? 0) then tell (Print (cs "trap:" ++ b ++ [10])) else mret tt);
  mret b.

Definition telecom_oid (trap : Z) : list Z :=
  if cloud_sea then cs "1.3.6.1.4.1.38045.10.37.39.32.9." ++ num trap else cs "1.3.6.1.4.1.171.10.37.39.32.9." ++ num trap.

(** The commands with a name and variables. *)
Definition named_hosts (trap : Z) (name bind oid : list Z) : M unit :=
  all_hosts (Some (fun comm host => v1_head oid comm host ++ [54; 32] ++ num trap ++ [32; 34; 34] ++ cs " 1 s " ++ name ++ 32 :: bind ++ [32; 10]))
            (Some (fun comm host => str_v2 ++ comm ++ 32 :: host ++ [32; 34; 34; 32] ++ oid)).

Definition defaultSwitch : Z := 1.

Definition sendTelecomTrap (trap : Z) : M unit :=
  sw ← lift (rd trapSwitchTable trap);
  s ← int_default_rgdb_get sw defaultSwitch;
  if s =? 0 then mret tt
  else
    oid ← lift (sprint 256 [] (telecom_oid trap));
    bind ← trapbind trap;
    nm ← lift (rd trapName trap);
    name ← lift (sprint 32 [] nm);
    named_hosts trap name bind oid.

(** [getBindArray]: the words in brackets, into 16 arrays of 32 zeros.  [move] is the place in the array that is being filled, of
    which [cur] has been written; a bracket begins it anew, over what is there. *)
Fixpoint bind_loop (fuel : nat) (s : list Z) (inside : bool) (move : nat) (cur : list Z) (argv : list (list Z)) : option (list (list Z) * list Z) :=
  match fuel, s with
  | O, _ | _, [] => Some (argv, cur)
  | S fuel, c :: s =>
      if c =? 91 then bind_loop fuel s true 0 cur argv
      else if inside then
        if c =? 93 then bind_loop fuel s false 0 [] (argv ++ [cur])
        else if (length argv <? 16)%nat && (move <? 32)%nat then bind_loop fuel s inside (S move) (take move cur ++ c :: drop (S move) cur) argv
        else None
      else bind_loop fuel s inside move cur argv
  end.

(** The number of words, and the arrays. *)
Definition getBindArray (s : list Z) : option (nat * list (list Z)) :=
  r ← bind_loop 256 s false 0 [] []; Some (length r.1, r.1 ++ [r.2]).

(** The string in one of the 16 arrays: it has an end if the array is not full. *)
Definition word_at (argv : list (list Z)) (i : nat) : option (list Z) :=
  let w := default [] (argv !! i) in if (i <? 16)%nat && (length w <? 32)%nat then Some w else None.

(** The variables of the words: each in a buffer of 64 bytes, all of them in one of 256. *)
Fixpoint bind_words (argv : list (list Z)) (i n : nat) (bind : list Z) : option (list Z) :=
  match n with
  | O => Some bind
  | S n =>
      w ← word_at argv (i + 1);
      t ← sprint 64 [] (cs " 1 s " ++ w ++ [32]);
      bind ← sprint 256 bind t;
      bind_words argv (i + 1) n bind
  end.

Definition sendTeBindTrap (cmd : list Z) : M unit :=
  r ← lift (getBindArray cmd);
  let argv := r.2 in
  first ← lift (word_at argv 0);
  let trap := atoi (drop 7 first) in
  nm ← lift (word_at argv 1);
  name ← lift (sprint 32 [] nm);
  bind ← lift (bind_words argv 1 (r.1 - 2) []);
  oid ← lift (sprint 256 [] (telecom_oid trap));
  named_hosts trap name bind oid.

Definition str_status : list Z := Eval cbv in cs "/sys/snmptrap/status".

Definition sendtrap (cmd : list Z) : M unit :=
  let status := atoi (get_small str_status 29) in
  _ ← trap_counter cmd;
  if status =? 1 then
    if has_prefix str_trap cmd then
      let cmd := drop 11 cmd in
      let generic := has_prefix str_generic cmd in
      let cmd := if generic then drop 9 cmd else cmd in
      _ ← (if generic then sendGenericTrap (atoi cmd) else mret tt);
      if telecom then
        _ ← (if has_prefix str_tebind cmd then sendTeBindTrap cmd else mret tt);
        if has_prefix str_telecom cmd then sendTelecomTrap (atoi (drop 9 cmd)) else mret tt
      else if has_prefix str_specific cmd then sendSpecificTrap (atoi (drop 10 cmd)) else mret tt
    else mret tt
  else mret tt.
End Traps.

(** ** The commands of a trap *)

Section Commands.
Context (db : list Z -> list Z).

Definition hostip (host : Z) : list Z := get_small db (str_hostip ++ num host) 29.
Definition secumodel (host : Z) : list Z := get_small db (str_secumodel ++ num host) 29.
Definition community (host : Z) : list Z := get_small db (str_commorun ++ num host) 29.

(** The commands for the rows of the table from [host] on, without the end that throws the output away. *)
Fixpoint commands (n : nat) (host : Z) (v1 v2 : option (list Z -> list Z -> list Z)) : list (list Z) :=
  match n with
  | O => []
  | S n =>
      match hostip host with
      | [] => []
      | h =>
          match (if deref (secumodel host) =? 49 then v1 else if deref (secumodel host) =? 50 then v2 else None) with
          | Some f => [f (community host) h]
          | None => []
          end ++ commands n (host + 1) v1 v2
      end
  end.

(** With the rest of the command and the end of the string it has to fit 100 bytes. *)
Definition fits (c : list Z) : bool := zlen c + 19 <=? 100.

Lemma row_get name host l : zlen name <= 21 -> 0 <= host < 100 -> row db name host l = Some (get_small db (name ++ num host) 29, l).
Proof using Type.
  intros Hn Hh. unfold row, mbind, logM_bind, lift. rewrite sprint_ok; [done|]. pose proof (zlen_num_small host Hh). rewrite length_app. cbn [length]. lia.
Qed.

Lemma run_fits c l : run c l = if fits c then Some (tt, l ++ [System (c ++ str_quiet)]) else None.
Proof using Type.
  unfold run, fits, mbind, logM_bind, lift. destruct (Z.leb_spec (zlen c + 19) 100) as [H|H].
  - rewrite sprint_ok by (cbn [length]; lia). cbn [app]. rewrite sprint_ok by (cbn [length str_quiet]; lia). reflexivity.
  - destruct (Z.le_gt_cases (zlen c + 1) 100).
    + rewrite sprint_ok by (cbn [length]; lia). cbn [app]. by rewrite sprint_over by (cbn [length str_quiet]; lia).
    + by rewrite sprint_over by (cbn [length]; lia).
Qed.

Definition sent_all (l : list event) (cs : list (list Z)) : option (unit * list event) :=
  if forallb fits cs then Some (tt, l ++ map (fun c => System (c ++ str_quiet)) cs) else None.

Lemma sent_cons l c cs : sent_all l (c :: cs) = if fits c then sent_all (l ++ [System (c ++ str_quiet)]) cs else None.
Proof using Type. unfold sent_all. cbn [forallb map]. destruct (fits c); [|done]. cbn [andb]. destruct (forallb fits cs); [|done]. by rewrite <- app_assoc. Qed.

(** A row, and the rows behind it. *)
Lemma host_loop_spec v1 v2 : forall n host l, 0 <= host -> host + Z.of_nat n <= 100 -> host_loop db n host v1 v2 l = sent_all l (commands n host v1 v2).
Proof using Type.
  induction n as [|n IH]; intros host l H0 Hh; cbn [host_loop commands]; [unfold sent_all; cbn; by rewrite app_nil_r|].
  unfold mbind, logM_bind. rewrite row_get by (cbn; lia). fold (hostip host). destruct (hostip host) as [|x h] eqn:Eh; [unfold sent_all; cbn; by rewrite app_nil_r|].
  rewrite row_get by (cbn; lia). fold (secumodel host). destruct (Z.eqb_spec (deref (secumodel host)) 49) as [E1|E1]; [rewrite E1; change (49 =? 50) with false|]; cbv iota.
  - destruct v1 as [f|]; cbn [app].
    + rewrite row_get by (cbn; lia). fold (community host). rewrite run_fits, sent_cons. destruct (fits _); [|done]. cbn [mret logM_ret]. apply IH; lia.
    + cbn [mret logM_ret]. apply IH; lia.
  - cbn [mret logM_ret]. destruct (Z.eqb_spec (deref (secumodel host)) 50); [destruct v2 as [f|]|]; cbn [app].
    + rewrite row_get by (cbn; lia). fold (community host). rewrite run_fits, sent_cons. destruct (fits _); [|done]. apply IH; lia.
    + cbn [mret logM_ret]. apply IH; lia.
    + cbn [mret logM_ret]. apply IH; lia.
Qed.

(** The rows in use: those before the first without a host. *)
Fixpoint used_hosts (n : nat) (host : Z) : list Z :=
  match n with
  | O => []
  | S n => match hostip host with [] => [] | _ => host :: used_hosts n (host + 1) end
  end.

Definition row_command (v1 v2 : option (list Z -> list Z -> list Z)) (host : Z) : list (list Z) :=
  match (if deref (secumodel host) =? 49 then v1 else if deref (secumodel host) =? 50 then v2 else None) with
  | Some f => [f (community host) (hostip host)]
  | None => []
  end.

Lemma commands_rows v1 v2 : forall n host, commands n host v1 v2 = concat (map (row_command v1 v2) (used_hosts n host)).
Proof using Type.
  induction n as [|n IH]; intros host; [done|]. cbn [commands used_hosts]. destruct (hostip host) as [|x h] eqn:E; [done|]. cbn [map concat]. unfold row_command at 1. by rewrite E, IH.
Qed.

Lemma forallb_rows {A} (p : A -> bool) (q : Z -> bool) f rows : (forall h, forallb p (f h) = q h) -> forallb p (concat (map f rows)) = forallb q rows.
Proof using Type. intros Hq. induction rows as [|h rows IH]; [done|]. cbn [map concat forallb]. by rewrite forallb_app, Hq, IH. Qed.

(** The commands of a specific trap. *)
Definition specific_v1 (oid : list Z) (trap : Z) (comm host : list Z) : list Z := v1_head oid comm host ++ [54; 32] ++ num trap ++ [32; 34; 34; 32; 10].
Definition specific_v2 (oid : list Z) (trap : Z) (comm host : list Z) : list Z := str_v2 ++ comm ++ 32 :: host ++ [32; 34; 34; 32] ++ oid ++ 46 :: num trap.

(** The community, the host and the number of the trap: 20 characters at most with version 1, 27 with version 2. *)
Definition row_fits (trap host : Z) : bool :=
  let n := zlen (community host) + zlen (hostip host) + zlen (num trap) in
  if deref (secumodel host) =? 49 then n <=? 20 else if deref (secumodel host) =? 50 then n <=? 27 else true.

Lemma oid_length model trap : 10 <= model < 100 -> zlen (specific_oid model false trap) = 30.
Proof using Type.
  intros Hm. unfold specific_oid. rewrite !length_app. assert (zlen (num model) = 2) as Hn; [|cbn [length cs] in *; lia].
  unfold num. rewrite (proj2 (Z.ltb_ge _ _)) by lia. unfold dec. rewrite length_rev. cbn [dec_rev length]. rewrite (proj2 (Z.ltb_ge model 10)) by lia.
  cbn [length]. rewrite (proj2 (Z.ltb_lt (model / 10) 10)) by (Z.to_euclidean_division_equations; lia). done.
Qed.

(** C32. A specific trap is sent to every host of the table, to the hosts of version 1 and of version 2 with the command of
    theirs, if for each of them the name of the community, the host and the number of the trap have together no more than 20
    characters with version 1 and 27 with version 2; otherwise the command runs over its buffer on the stack.  The community
    "public" and a host whose address has 14 characters are enough for that. *)
Theorem specific_trap_sent model trap l : 10 <= model < 100 -> - 2 ^ 31 <= trap < 2 ^ 31 ->
  let oid := specific_oid model false trap in
  let rows := used_hosts 10 1 in
  sendSpecificTrap db model false trap l =
    if forallb (row_fits trap) rows
    then Some (tt, l ++ map (fun c => System (c ++ str_quiet)) (concat (map (row_command (Some (specific_v1 oid trap)) (Some (specific_v2 oid trap))) rows)))
    else None.
Proof using Type.
  intros Hm Ht oid rows. pose proof (oid_length model trap Hm) as Ho. fold oid in Ho. unfold sendSpecificTrap, mbind, logM_bind, lift. fold oid. rewrite sprint_ok by (cbn [length]; lia). cbn [app].
  fold (specific_v1 oid trap) (specific_v2 oid trap). unfold all_hosts. rewrite host_loop_spec by lia. unfold sent_all. rewrite commands_rows. fold rows.
  rewrite (forallb_rows fits (row_fits trap)); [done|]. intros h. unfold row_command, row_fits, fits. destruct (_ =? 49); [|destruct (_ =? 50); [|done]]; cbn [forallb]; rewrite andb_true_r;
    unfold specific_v1, specific_v2, v1_head; repeat (rewrite length_app; cbn [length str_v1 str_v2]); apply eq_true_iff_eq; rewrite !Z.leb_le; lia.
Qed.

Lemma rgdb_get_max_is node v l l' : rgdb_get_max db node l = Some (v, l') -> get_256 db node = Some v.
Proof using Type.
  unfold rgdb_get_max, mbind, logM_bind, lift. destruct (get_256 db node) as [w|]; [|done]. destruct (xml_debug _ _ _ _ _ _) as [[? ?]|]; [|done]. cbn. by intros [= -> _].
Qed.

(** The names are no shorter than this. *)
Lemma trap_name_long trap nm : 1 <= trap <= 30 -> rd trapName trap = Some nm -> 12 <= zlen nm.
Proof using Type.
  intros Ht Hn. assert (forallb (fun t => match rd trapName t with Some w => 12 <=? zlen w | None => false end) (map Z.of_nat (seq 1 30)) = true) as Ha by (by vm_compute).
  rewrite forallb_forall in Ha. specialize (Ha trap). rewrite Hn, Z.leb_le in Ha. apply Ha. apply in_map_iff. exists (Z.to_nat trap). split; [lia|]. apply in_seq. lia.
Qed.

(** The switch of a trap: on if nothing is stored. *)
Definition switched_on (trap : Z) : Prop := exists sw v, rd trapSwitchTable trap = Some sw /\ get_256 db sw = Some v /\ (v = [] \/ atoi v <> 0).

Lemma switch_read trap sw s l l' : switched_on trap -> rd trapSwitchTable trap = Some sw -> int_default_rgdb_get db sw defaultSwitch l = Some (s, l') -> s <> 0.
Proof using Type.
  intros (sw' & v & E1 & E2 & Hv) E. rewrite E in E1. injection E1 as <-. unfold int_default_rgdb_get, mbind, logM_bind.
  destruct (rgdb_get_max db sw l) as [[w l1]|] eqn:Eg; [|done]. apply rgdb_get_max_is in Eg. rewrite E2 in Eg. injection Eg as <-. cbn. intros [= <- _].
  destruct Hv as [->|Hv]; [done|]. by destruct v.
Qed.

Lemma telecom_oid_length cloud_sea trap : 1 <= trap <= 30 -> 31 <= zlen (telecom_oid cloud_sea trap) <= 40.
Proof using Type. intros Ht. pose proof (zlen_num_small trap ltac:(lia)). unfold telecom_oid. destruct cloud_sea; rewrite length_app; cbn [length cs] in *; lia. Qed.

(** A command with a name that does not fit, whatever the variables are. *)
Lemma named_over trap name bind oid l : 1 <= trap <= 30 -> 12 <= zlen name -> 31 <= zlen oid -> hostip 1 <> [] -> deref (secumodel 1) = 49 ->
  named_hosts db trap name bind oid l = None.
Proof using Type.
  intros Ht Hn Ho Hh Hs. unfold named_hosts, all_hosts. rewrite host_loop_spec by lia. unfold sent_all. rewrite commands_rows. cbn [used_hosts].
  destruct (hostip 1) as [|x h] eqn:Eh; [done|]. cbn [map concat]. unfold row_command at 1. rewrite Hs, Eh. cbn [Z.eqb Pos.eqb app forallb].
  assert (forall c, zlen c > 81 -> fits c = false) as Hf by (intros c Hc; unfold fits; apply Z.leb_gt; lia). rewrite Hf; [done|].
  pose proof (zlen_num_small trap ltac:(lia)). unfold v1_head. repeat (rewrite length_app; cbn [length str_v1 cs]). lia.
Qed.

(** In the build with the traps of a provider, every trap of theirs to a first host of version 1 runs over the buffer of the command:
    even with the shortest name of a trap, a host of one character, no community and no variables it does not fit 100 bytes. *)
Theorem telecom_trap_overflows cloud_sea trap l : 1 <= trap <= 30 -> switched_on trap -> hostip 1 <> [] -> deref (secumodel 1) = 49 ->
  sendTelecomTrap db cloud_sea trap l = None.
Proof using Type.
  intros Ht Hsw Hh Hs. unfold sendTelecomTrap. apply bind_none. intros sw l1 E1. apply bind_none. intros s l2 E2.
  assert (s <> 0) as H0. { eapply switch_read; [exact Hsw| |exact E2]. unfold lift in E1. destruct (rd trapSwitchTable trap); [by injection E1 as -> _|done]. }
  rewrite (proj2 (Z.eqb_neq _ _) H0). apply bind_none. intros oid l3 E3. apply bind_none. intros bind l4 _. apply bind_none. intros nm l5 E5. apply bind_none. intros name l6 E6.
  pose proof (telecom_oid_length cloud_sea trap Ht). unfold lift in *.
  rewrite sprint_ok in E3 by (cbn [length]; lia). injection E3 as <- _.
  destruct (rd trapName trap) as [w|] eqn:En; [|done]. injection E5 as -> _. pose proof (trap_name_long trap nm Ht En).
  destruct (sprint 32 [] nm) as [w|] eqn:Ew; [|done]. injection E6 as -> _. apply named_over; [done| | |done|done].
  - unfold sprint in Ew. destruct (put _ _ _); [|done]. by injection Ew as <-.
  - cbn [app]. lia.
Qed.

(** Steps without a command. *)
Definition no_command (e : event) : Prop := match e with System _ => False | _ => True end.

Lemma quiet_increase node : does no_command (xmldbc_integer_increase db node).
Proof using Type. unfold xmldbc_integer_increase. repeat (apply does_bind; [apply does_lift|intros ?]). by apply does_tell. Qed.

(** While the status of the traps is not 1, no command is run for any message: only the counter may be set. *)
Theorem traps_off_run_nothing model telecom cloud_sea cmd : atoi (get_small db str_status 29) <> 1 -> does no_command (sendtrap db model telecom cloud_sea cmd).
Proof using Type.
  intros Hs. unfold sendtrap. apply does_bind; [|intros; rewrite (proj2 (Z.eqb_neq _ _) Hs); apply does_ret]. unfold trap_counter.
  destruct (has_prefix str_trap cmd); [|apply does_ret]. apply does_bind; [|intros]; (case_match; [apply quiet_increase|apply does_ret]).
Qed.
End Commands.

(** A table with two hosts. *)
Definition some_db (p : list Z) : list Z :=
  if bool_decide (p = cs "/sys/snmptrap/status") then [49]
  else if bool_decide (p = cs "/sys/snmpd/hostip:1") then cs "10.0.0.2"
  else if bool_decide (p = cs "/sys/snmpd/secumodel:1") then [49]
  else if bool_decide (p = cs "/sys/snmpd/commorun:1") then cs "public"
  else if bool_decide (p = cs "/sys/snmpd/hostip:2") then cs "10.0.0.3"
  else if bool_decide (p = cs "/sys/snmpd/secumodel:2") then [50]
  else if bool_decide (p = cs "/sys/snmpd/commorun:2") then cs "public"
  else [].

(** The counter and a command for each of the hosts. *)
Example some_trap : sendtrap some_db 42 false false (cs "[SNMP-TRAP][Specific=7]") [] =
  Some (tt, [Set_node str_up_times [49];
             System (10 :: cs "snmptrap -v 1 -c public 10.0.0.2 1.3.6.1.4.1.171.10.37.42.5.7.2 " ++ [34; 34] ++ cs " 6 7 " ++ [34; 34; 32; 10] ++ cs " 1>/dev/null 2>&1 ");
             System (cs "snmptrap -v 2c -c public 10.0.0.3 " ++ [34; 34] ++ cs " 1.3.6.1.4.1.171.10.37.42.5.7.2.7 1>/dev/null 2>&1 ")]).
Proof. by vm_compute. Qed.

Lemma specific_trap_sent_witness : sendSpecificTrap some_db 42 false 7 [] =
  Some (tt, [System (10 :: cs "snmptrap -v 1 -c public 10.0.0.2 1.3.6.1.4.1.171.10.37.42.5.7.2 " ++ [34; 34] ++ cs " 6 7 " ++ [34; 34; 32; 10] ++ cs " 1>/dev/null 2>&1 ");
             System (cs "snmptrap -v 2c -c public 10.0.0.3 " ++ [34; 34] ++ cs " 1.3.6.1.4.1.171.10.37.42.5.7.2.7 1>/dev/null 2>&1 ")]).
Proof. rewrite (specific_trap_sent some_db 42 7 []) by lia. vm_compute. reflexivity. Defined.

Lemma telecom_trap_overflows_witness : sendTelecomTrap some_db false 6 [] = None.
Proof.
  apply (telecom_trap_overflows some_db false 6 []); [lia| |by vm_compute|by vm_compute].
  exists (cs "/sys/snmptrap/switch/apOnlineTrapSwitch"), []. split; [by vm_compute|]. split; [by vm_compute|by left].
Defined.
End Sendtrap.
