(* ===== verification/Postman.v ===== *)
(** * comlib/postman.c: a setting is posted to the services.

    A setting is written to a copy of the configuration of a service in a session, checked by the script of the service, and only
    then made the configuration, brought into effect and saved.  The model is what is done in order: requests to the database,
    commands, and the work on the temporary file.  What the system answers is the input. *)
From Stdlib Require Import ZArith Lia Bool String.
From stdpp Require Import base tactics list option numbers.
From S2P Require Import Prelude Effects Xmldb XmldbFile Lrgbin Rgdb Libxmldbc.

Module Postman.
Import Effects Xmldb XmldbFile.
Import Rgdb (num, zlen_num).
Import Libxmldbc (IS_WHITE, lxmldbc_system).

Inductive event :=
  | Fopen (file : list Z) | Fclose (file : list Z) | Remove (file : list Z) | Lock | Unlock
  | Del_node (node : list Z) | Set_node (node value : list Z) | Read (flags : Z) (file : list Z) | Php (cmd : list Z) | System (cmd : list Z).

Abbreviation M := (logM event).

Definition SIGNATURE_FILE : list Z := Eval cbv in cs "/etc/config/image_sign".
Definition XML_TEMP_FILE : list Z := Eval cbv in cs "/var/tmp/fatladytemp.xml".
Definition WAND_SCRIPT : list Z := Eval cbv in cs "/etc/scripts/php_cmd/wand.php".
Definition BUFF_MAX_LEN : Z := 1024.
Definition DONT_SETCFG : Z := 0.
Definition DO_SETCFG : Z := 1.
Definition DO_DELCFG : Z := 2.
Definition DO_ACTIVATE : Z := 1.
Definition DO_SAVE : Z := 1.

Definition reatwhite (s : list Z) : list Z := rev (eat IS_WHITE (rev s)).

(** What the world is for a call. *)
Record world := mkworld {
  base : list Z;                                             (* ELBOX_ARIES_SESSION_BASE, of the configuration of the build *)
  random : Z;
  pid : Z;
  image_sign : option (list Z);                              (* the text of the file, if there is one *)
  temp_opens : bool;
  lock_tests : list Z;                                       (* what the tests of the lock give, one after the other *)
  ephp : list event -> list Z -> list Z -> list Z;           (* what a script leaves in a buffer, by what was done before *)
  reason_size : Z                                            (* of the buffer of the caller *)
}.

Section Calls.
Context (w : world).

(** [random() % 10000] *)
Definition session : Z := Z.rem (random w) 10000.

(** [%s/%d] *)
Definition prefix : list Z := base w ++ 47 :: num session.

Definition newline (s : string) : list Z := 10 :: cs s.

(** A script, whose output goes to a buffer. *)
Definition xmldbc_ephp_wb (cmd buff : list Z) : M (list Z) := fun l => Some (ephp w l cmd buff, l ++ [Php cmd]).

(** The string in a buffer, which has to have an end. *)
Definition string_in (buff : list Z) : option (list Z) := if existsb (Z.eqb 0) buff then Some (cstr buff) else None.

(** [do ret = lockf(...) while (ret < 0)] *)
Fixpoint test_lock (l : list Z) : option Z :=
  match l with
  | [] => None
  | r :: l => if r <? 0 then test_lock l else Some r
  end.

(** What [fgets] reads, if the buffer is large enough. *)
Fixpoint first_line (text : list Z) : list Z :=
  match text with
  | [] => []
  | c :: text => if c =? 10 then [c] else c :: first_line text
  end.

(** [fopen] and [fgets] into 128 bytes: the line without the spaces behind it, or nothing at the end of the file. *)
Definition read_signature : M (option (list Z)) :=
  _ ← tell (Fopen SIGNATURE_FILE);
  text ← lift (image_sign w);
  match text with
  | [] => mret None
  | _ => _ ← tell (Fclose SIGNATURE_FILE); mret (Some (reatwhite (cstr (take 127 (first_line text)))))
  end.

(** The configuration of a service goes through the file into the session; the result of the test of the lock. *)
Definition load_service (script service signature : list Z) : M Z :=
  ret ← lift (test_lock (lock_tests w));
  _ ← tell Lock;
  _ ← tell (System (lxmldbc_system (cs "xmldbc -P " ++ script ++ cs " -V GETCFG_SVC=" ++ service ++ cs " -V SESSION=" ++ num session ++ cs " -V SIGNATURE=" ++ signature ++ cs " > " ++ XML_TEMP_FILE ++ [32])));
  _ ← tell (Read 2 XML_TEMP_FILE);
  _ ← tell Unlock;
  _ ← tell (Fclose XML_TEMP_FILE);
  _ ← tell (Remove XML_TEMP_FILE);
  mret ret.

(** The node is set or deleted. *)
Definition set_or_del (setcfg : Z) (node value : list Z) : M unit :=
  if setcfg =? DO_SETCFG then tell (Set_node node value)
  else if setcfg =? DO_DELCFG then tell (Del_node node)
  else mret tt.

Definition check_cmd (header : list Z) : list Z := cs "/etc/scripts/php_cmd/fatlady.php" ++ newline "prefix=" ++ header.
Definition setcfg_cmd (header : list Z) : list Z := WAND_SCRIPT ++ newline "ACTION=SETCFG" ++ newline "PREFIX=" ++ header.
Definition activate_cmd (header : list Z) : list Z :=
  WAND_SCRIPT ++ newline "ACTION=ACTIVATE" ++ newline "PREFIX=" ++ header ++ newline "SHELL=/var/run/wand_activate_" ++ num (pid w) ++ cs ".sh".
Definition shell_cmd : list Z := cs "sh /var/run/wand_activate_" ++ num (pid w) ++ cs ".sh".
Definition save_cmd : list Z := Eval cbv in cs "/etc/scripts/dbsave.sh".

(** The result and, if it is written, the reason: [checked] is the output of the check in its buffer, [setting] tells whether the
    configuration is set. *)
Definition conclude (setting : bool) (activate save : Z) (header checked : list Z) : M (Z * option (list Z)) :=
  answer ← lift (string_in checked);
  if bool_decide (answer = [49]) then
    buff ← (if setting then c ← lift (sprint BUFF_MAX_LEN [] (setcfg_cmd header)); xmldbc_ephp_wb c checked else mret checked);
    _ ← (if activate =? DO_ACTIVATE then
           c ← lift (sprint BUFF_MAX_LEN [] (activate_cmd header));
           _ ← xmldbc_ephp_wb c buff;
           c ← lift (sprint BUFF_MAX_LEN [] shell_cmd);
           tell (System (lxmldbc_system c))
         else mret tt);
    _ ← (if save =? DO_SAVE then tell (System (lxmldbc_system save_cmd)) else mret tt);
    mret (0, None)
  else
    r ← lift (sprint (reason_size w) [] answer);
    mret (-1, Some r).

(** A buffer of zeros. *)
Definition zeros : list Z := replicate 1024 0.

(** [reason] of an error here is the parameter, not the buffer behind it: the caller does not see it. *)
Definition postman (setcfg activate save : Z) (service realnode value : list Z) : M (Z * option (list Z)) :=
  let finish ret checked :=
    if ret =? 0 then conclude ((setcfg =? DO_SETCFG) || (setcfg =? DO_DELCFG)) activate save prefix checked
    else mret (ret, None) in
  if setcfg =? DONT_SETCFG then finish 0 (49 :: drop 1 zeros)
  else
    s ← read_signature;
    match s with
    | None => finish (-1) zeros
    | Some signature =>
        buff ← lift (sprint BUFF_MAX_LEN [] (prefix ++ cs "/module"));
        _ ← tell (Del_node buff);
        node ← lift (sprint BUFF_MAX_LEN buff realnode);
        _ ← tell (Fopen XML_TEMP_FILE);
        if temp_opens w then
          ret ← load_service (cs "/etc/scripts/phpcontrol/getcfg.php") service signature;
          _ ← set_or_del setcfg node value;
          c ← lift (sprint BUFF_MAX_LEN [] (check_cmd prefix));
          checked ← xmldbc_ephp_wb c zeros;
          finish ret checked
        else finish (-1) zeros
    end.

(** [reason]: the buffer that the path is to go to. *)
Definition GetPathByTaget (reason base node target value : list Z) (create : Z) : M (list Z) :=
  c ← lift (sprint BUFF_MAX_LEN [] (cs "/etc/scripts/php_cmd/GETPATH.php" ++ newline "BASE=" ++ base ++ newline "NODE=" ++ node ++ newline "TARGET=" ++ target ++
                                    newline "VALUE=" ++ value ++ newline "CREATE=" ++ num create));
  xmldbc_ephp_wb c reason.

(** The result and the header, in a buffer of [size] bytes. *)
Definition GetCfg (size : Z) (service : list Z) : M (Z * option (list Z)) :=
  s ← read_signature;
  match s with
  | None => mret (-1, None)
  | Some signature =>
      header ← lift (sprint size [] prefix);
      _ ← tell (Del_node header);
      _ ← tell (Fopen XML_TEMP_FILE);
      if temp_opens w then
        ret ← load_service (cs "/etc/scripts/php_cmd/getcfg.php") service signature;
        mret (ret, Some header)
      else mret (-1, Some header)
  end.

Definition SetValue (setcfg : Z) (header realnode value : list Z) : M unit :=
  node ← lift (sprint BUFF_MAX_LEN [] (header ++ cs "/module" ++ realnode));
  set_or_del setcfg node value.

Definition PassValue (setcfg activate save : Z) (header : list Z) : M (Z * option (list Z)) :=
  c ← lift (sprint BUFF_MAX_LEN [] (check_cmd header));
  checked ← xmldbc_ephp_wb c zeros;
  conclude (setcfg =? DO_SETCFG) activate save header checked.

(** ** What is done, in order *)

(** The service is copied to the session and the node is changed there. *)
Definition staged (setcfg : Z) (service signature realnode value : list Z) : list event :=
  [Fopen SIGNATURE_FILE; Fclose SIGNATURE_FILE; Del_node (prefix ++ cs "/module"); Fopen XML_TEMP_FILE; Lock;
   System (lxmldbc_system (cs "xmldbc -P " ++ cs "/etc/scripts/phpcontrol/getcfg.php" ++ cs " -V GETCFG_SVC=" ++ service ++ cs " -V SESSION=" ++ num session ++ cs " -V SIGNATURE=" ++ signature ++ cs " > " ++ XML_TEMP_FILE ++ [32]));
   Read 2 XML_TEMP_FILE; Unlock; Fclose XML_TEMP_FILE; Remove XML_TEMP_FILE;
   if setcfg =? DO_SETCFG then Set_node (prefix ++ cs "/module" ++ realnode) value else Del_node (prefix ++ cs "/module" ++ realnode)].

(** The configuration of the session becomes the one of the device. *)
Definition committed (setting : bool) (activate save : Z) (header : list Z) : list event :=
  (if setting then [Php (setcfg_cmd header)] else []) ++
  (if activate =? DO_ACTIVATE then [Php (activate_cmd header); System shell_cmd] else []) ++
  (if save =? DO_SAVE then [System save_cmd] else []).

Lemma system_short c : zlen c < 1024 -> lxmldbc_system c = c.
Proof using Type. intros Hc. unfold lxmldbc_system, Lrgbin.snprintf, Lrgbin.MAX_CMD_LEN. apply take_ge. lia. Qed.

Lemma into_buffer {B} c (k : list Z -> M B) l : zlen c < 1024 -> (lift (sprint BUFF_MAX_LEN [] c) ≫= k) l = k c l.
Proof using Type. intros Hc. unfold BUFF_MAX_LEN. by rewrite (log_lift _ _ _ c) by (rewrite sprint_ok by (cbn [length]; lia); done). Qed.

Lemma ran {B} c buff (k : list Z -> M B) l : (xmldbc_ephp_wb c buff ≫= k) l = k (ephp w l c buff) (l ++ [Php c]).
Proof using Type. reflexivity. Qed.

(** The commands are short enough. *)
Lemma commands_short header : - 2 ^ 31 <= pid w < 2 ^ 31 -> zlen header <= 900 ->
  zlen (check_cmd header) < 1024 /\ zlen (setcfg_cmd header) < 1024 /\ zlen (activate_cmd header) < 1024 /\ zlen shell_cmd < 1024.
Proof using Type.
  intros Hp Hh. pose proof (zlen_num (pid w) ltac:(lia)) as Hn. unfold check_cmd, setcfg_cmd, activate_cmd, shell_cmd, newline. repeat (rewrite length_app; cbn [length cs WAND_SCRIPT]). lia.
Qed.

Lemma conclude_spec setting activate save header checked a l : - 2 ^ 31 <= pid w < 2 ^ 31 -> zlen header <= 900 -> string_in checked = Some a -> zlen a < reason_size w ->
  conclude setting activate save header checked l =
    Some (if bool_decide (a = [49]) then ((0, None), l ++ committed setting activate save header) else ((-1, Some a), l)).
Proof using Type.
  intros Hp Hh Ha Hr. destruct (commands_short header Hp Hh) as (_ & H1 & H2 & H3). unfold conclude. rewrite (log_lift _ _ _ _ Ha). destruct (bool_decide (a = [49])).
  - unfold committed. transitivity (Some ((0, None : option (list Z)), ((l ++ (if setting then [Php (setcfg_cmd header)] else [])) ++
      (if activate =? DO_ACTIVATE then [Php (activate_cmd header); System shell_cmd] else [])) ++ (if save =? DO_SAVE then [System save_cmd] else []))); [|by rewrite !app_assoc].
    rewrite (log_bind _ _ _ (if setting then ephp w l (setcfg_cmd header) checked else checked) (l ++ (if setting then [Php (setcfg_cmd header)] else [])))
      by (destruct setting; [by rewrite into_buffer by done|by rewrite log_ret, app_nil_r]).
    generalize (if setting then ephp w l (setcfg_cmd header) checked else checked) as buff. generalize (l ++ (if setting then [Php (setcfg_cmd header)] else [])) as l1. intros l1 buff.
    rewrite (log_bind _ _ _ tt (l1 ++ (if activate =? DO_ACTIVATE then [Php (activate_cmd header); System shell_cmd] else []))).
    + rewrite (log_bind _ _ _ tt ((l1 ++ (if activate =? DO_ACTIVATE then [Php (activate_cmd header); System shell_cmd] else [])) ++ (if save =? DO_SAVE then [System save_cmd] else []))); [done|].
      destruct (save =? DO_SAVE); [done|by rewrite log_ret, app_nil_r].
    + destruct (activate =? DO_ACTIVATE); [|by rewrite log_ret, app_nil_r]. rewrite into_buffer by done. rewrite ran, into_buffer by done. rewrite system_short by done. unfold tell. by rewrite <- app_assoc.
  - rewrite (log_lift _ _ _ a) by (rewrite sprint_ok by (cbn [length]; lia); done). done.
Qed.

(** The signature of the image, as it is read. *)
Definition signature_of (text : list Z) : list Z := reatwhite (cstr (take 127 (first_line text))).

Lemma signature_read text l : image_sign w = Some text -> text <> [] ->
  read_signature l = Some (Some (signature_of text), l ++ [Fopen SIGNATURE_FILE; Fclose SIGNATURE_FILE]).
Proof using Type.
  intros Ht Hn. unfold read_signature. rewrite log_tell, (log_lift _ _ _ _ Ht). destruct text as [|c text]; [done|]. by rewrite log_tell, log_ret, <- app_assoc.
Qed.

Lemma prefix_length : zlen prefix <= zlen (base w) + 12.
Proof using Type.
  assert (-10 ^ 10 < session < 10 ^ 10) as Hs. { unfold session. pose proof (Z.rem_bound_abs (random w) 10000 ltac:(lia)). lia. }
  pose proof (zlen_num session Hs). unfold prefix. rewrite length_app. cbn [length]. lia.
Qed.

Lemma loaded script service signature l : test_lock (lock_tests w) = Some 0 ->
  load_service script service signature l =
    Some (0, l ++ [Lock; System (lxmldbc_system (cs "xmldbc -P " ++ script ++ cs " -V GETCFG_SVC=" ++ service ++ cs " -V SESSION=" ++ num session ++ cs " -V SIGNATURE=" ++ signature ++ cs " > " ++ XML_TEMP_FILE ++ [32]));
                   Read 2 XML_TEMP_FILE; Unlock; Fclose XML_TEMP_FILE; Remove XML_TEMP_FILE]).
Proof using Type. intros Hl. unfold load_service. rewrite (log_lift _ _ _ _ Hl), !log_tell, log_ret. by rewrite <- !app_assoc. Qed.

(** C20. A setting that is to be made or deleted is first copied, with the service, to a session of its own, changed there and given to the
    check of the service, in this order; only if the check answers 1 is the session made the configuration, brought into effect and
    saved, as far as it is asked for, and the result 0; otherwise nothing is done behind the check, the result is -1 and the
    caller has the answer as the reason. *)
Theorem postman_checks setcfg activate save service realnode value text a l :
  setcfg = DO_SETCFG \/ setcfg = DO_DELCFG -> - 2 ^ 31 <= pid w < 2 ^ 31 -> zlen (base w) + zlen realnode <= 800 ->
  image_sign w = Some text -> text <> [] -> temp_opens w = true -> test_lock (lock_tests w) = Some 0 ->
  let l1 := l ++ staged setcfg service (signature_of text) realnode value in
  string_in (ephp w l1 (check_cmd prefix) zeros) = Some a -> zlen a < reason_size w ->
  postman setcfg activate save service realnode value l =
    Some (if bool_decide (a = [49]) then ((0, None), l1 ++ Php (check_cmd prefix) :: committed true activate save prefix)
          else ((-1, Some a), l1 ++ [Php (check_cmd prefix)])).
Proof using Type.
  intros Hsc Hp Hb Ht Hn Hto Hlk l1 Ha Hr. pose proof prefix_length as Hpl. destruct (commands_short prefix Hp ltac:(lia)) as (H1 & _). unfold postman.
  rewrite (proj2 (Z.eqb_neq setcfg DONT_SETCFG)) by (unfold DONT_SETCFG, DO_SETCFG, DO_DELCFG in *; lia). rewrite (log_bind _ _ _ _ _ (signature_read text l Ht Hn)).
  rewrite into_buffer, log_tell by (rewrite length_app; cbn [length cs]; lia).
  rewrite (log_lift _ _ _ ((prefix ++ cs "/module") ++ realnode)) by (unfold BUFF_MAX_LEN; rewrite sprint_ok by (rewrite length_app; cbn [length cs]; lia); done).
  rewrite log_tell, Hto. rewrite (log_bind _ _ _ _ _ (loaded _ _ _ _ Hlk)). rewrite (log_bind _ _ _ tt l1).
  - rewrite into_buffer by done. rewrite ran. cbn [Z.eqb]. rewrite (conclude_spec _ _ _ _ _ a) by (done || lia).
    replace ((setcfg =? DO_SETCFG) || (setcfg =? DO_DELCFG)) with true by (symmetry; apply orb_true_iff; rewrite !Z.eqb_eq; tauto).
    destruct (bool_decide (a = [49])); [|done]. by rewrite <- app_assoc.
  - unfold l1, set_or_del, staged. destruct Hsc as [-> | ->]; cbn [Z.eqb Pos.eqb DO_SETCFG DO_DELCFG]; unfold tell; by rewrite <- !app_assoc.
Qed.

(** The same check for the calls one by one; a deletion is brought into effect and saved, but it is not made the configuration. *)
Theorem pass_value_checks setcfg activate save header a l : - 2 ^ 31 <= pid w < 2 ^ 31 -> zlen header <= 900 ->
  string_in (ephp w l (check_cmd header) zeros) = Some a -> zlen a < reason_size w ->
  PassValue setcfg activate save header l =
    Some (if bool_decide (a = [49]) then ((0, None), l ++ Php (check_cmd header) :: committed (setcfg =? DO_SETCFG) activate save header)
          else ((-1, Some a), l ++ [Php (check_cmd header)])).
Proof using Type.
  intros Hp Hh Ha Hr. destruct (commands_short header Hp Hh) as (H1 & _). unfold PassValue. rewrite into_buffer by done. rewrite ran, (conclude_spec _ _ _ _ _ a) by done.
  destruct (bool_decide (a = [49])); [|done]. by rewrite <- app_assoc.
Qed.

(** Nothing is told to a caller of a signature that cannot be read, and its file stays open; without the file there is no such answer. *)
Theorem signature_failures setcfg activate save service realnode value l : setcfg <> DONT_SETCFG ->
  (image_sign w = Some [] -> postman setcfg activate save service realnode value l = Some ((-1, None), l ++ [Fopen SIGNATURE_FILE])) /\
  (image_sign w = None -> postman setcfg activate save service realnode value l = None).
Proof using Type.
  intros Hs. unfold postman, read_signature. rewrite (proj2 (Z.eqb_neq _ _) Hs). split; intros H.
  - rewrite (log_bind _ _ _ None (l ++ [Fopen SIGNATURE_FILE])); [done|]. by rewrite log_tell, (log_lift _ _ _ _ H).
  - unfold mbind at 1, logM_bind at 1. rewrite log_tell. unfold mbind, logM_bind, lift. by rewrite H.
Qed.
End Calls.

(** A check that accepts what was set last if it is a number from 0 to 9. *)
Definition some_world : world := {|
  base := cs "/runtime/session"; random := 41234; pid := 77; image_sign := Some (cs "wapnd03cm_dkbs_dap2310" ++ [10]); temp_opens := true; lock_tests := [-1; -1; 0];
  ephp := fun l _ buff => match list.last l with Some (Set_node _ [c]) => if (48 <=? c) && (c <=? 57) then 49 :: drop 1 buff else cs "FAILED" ++ drop 6 buff | _ => cs "FAILED" ++ drop 6 buff end;
  reason_size := 1024 |}.

Lemma postman_checks_witness :
  option_map fst (postman some_world 1 1 1 (cs "WAN") (cs "/mtu") [53] []) = Some (0, None) /\
  option_map fst (postman some_world 1 1 1 (cs "WAN") (cs "/mtu") (cs "x") []) = Some (-1, Some (cs "FAILED")).
Proof.
  split.
  - rewrite (postman_checks some_world 1 1 1 (cs "WAN") (cs "/mtu") [53] (cs "wapnd03cm_dkbs_dap2310" ++ [10]) [49] []); [by vm_compute|by left|cbn; lia|cbn; lia|done|done|done|done|by vm_compute|cbn; lia].
  - rewrite (postman_checks some_world 1 1 1 (cs "WAN") (cs "/mtu") (cs "x") (cs "wapnd03cm_dkbs_dap2310" ++ [10]) (cs "FAILED") []); [by vm_compute|by left|cbn; lia|cbn; lia|done|done|done|done|by vm_compute|cbn; lia].
Defined.

Definition accepting : world := {|
  base := cs "/runtime/session"; random := 1; pid := 77; image_sign := Some [97]; temp_opens := true; lock_tests := [0]; ephp := fun _ _ buff => 49 :: drop 1 buff; reason_size := 1024 |}.

(** The calls one by one: a deletion that passes the check is saved but not set. *)
Example lost_deletion : option_map (fun r => (r.1, drop 1 r.2)) (PassValue accepting 2 0 1 (cs "/runtime/session/1") []) =
  Some ((0, None), [System save_cmd]).
Proof. by vm_compute. Qed.
End Postman.
