(* ===== verification/Sealpac.v ===== *)
(** * tools/sealpac/sealpac.c: the packs of strings of a language.

    The strings that the pages ask a translation for are collected from their files, in the order of their MD5 digests, and
    written to a pack: a header with a checksum, a table with the digests and the places of the strings, and the strings.  A pack
    that is there is read first.  The texts that the parser of the pages finds in a file, what the directories hold, and what the
    allocator answers are inputs; [None] is undefined behaviour. *)
From Stdlib Require Import ZArith Lia Bool String Sorting.Sorted.
From stdpp Require Import base tactics list option numbers gmap.
From S2P Require Import Prelude BlockHash Md5 Xmldb XmldbFile Lrgbin Rgdb.

Module Sealpac.
Import Md5 Xmldb XmldbFile.
Import Rgdb (num).

(** ** The state *)

Record i18nstr_t := mkistr { digest : list Z; string : list Z }.

Record options := mkopts {
  o_verbose : Z;
  o_recursive : Z;
  o_targetpath : option (list Z);
  o_listfile : Z;
  o_types : list (list Z);
  o_langcode : list Z;
  o_slpfile : option (list Z)
}.

(** The list, the number of files, what the allocator still answers (success when it is asked for more), and the output. *)
Record pac := mkpac { g_i18n_strings : list i18nstr_t; g_filecount : Z; answers : list bool; printed : list (list Z) }.

Definition no_options : options := mkopts 0 0 None 0 [] (cs "en") None.
Definition start (mem : list bool) : pac := mkpac [] 0 mem [].

Definition MAX_FILE_TYPE : nat := 16.

Definition say (t : list Z) (st : pac) : pac := mkpac (g_i18n_strings st) (g_filecount st) (answers st) (printed st ++ [t]).
Definition set_list (l : list i18nstr_t) (st : pac) : pac := mkpac l (g_filecount st) (answers st) (printed st).

Definition alloc (st : pac) : bool * pac :=
  match answers st with
  | [] => (true, st)
  | b :: r => (b, mkpac (g_i18n_strings st) (g_filecount st) r (printed st))
  end.

(** ** The options, as [getopt] finds them *)

Inductive parsed := Options (o : options) | Usage (code : Z).

Definition parse_opt (opt : Z) (optarg : list Z) (o : options) : parsed :=
  let '(mkopts v r d l t c f) := o in
  if opt =? 104 then Usage 0
  else if opt =? 118 then Options (mkopts (v + 1) r d l t c f)
  else if opt =? 114 then Options (mkopts v (r + 1) d l t c f)
  else if opt =? 108 then Options (mkopts v r d (l + 1) t c f)
  else if opt =? 99 then Options (mkopts v r d l t optarg f)
  else if opt =? 102 then Options (mkopts v r d l t c (Some optarg))
  else if opt =? 100 then Options (mkopts v r (Some optarg) l t c f)
  else if opt =? 116 then Options (mkopts v r d l (if (length t <? MAX_FILE_TYPE)%nat then t ++ [optarg] else t) c f)
  else Usage 9.

Fixpoint parse_args (seen : list (Z * list Z)) (o : options) : parsed :=
  match seen with
  | [] => Options o
  | (opt, optarg) :: seen => match parse_opt opt optarg o with Options o => parse_args seen o | Usage code => Usage code end
  end.

(** ** Strings *)

(** [memcmp] of the digests: the sign of the first difference. *)
Fixpoint memcmp (a b : list Z) : Z :=
  match a, b with
  | x :: a, y :: b => if x =? y then memcmp a b else if x <? y then -1 else 1
  | _, _ => 0
  end.

Definition compare_i18nstr (str1 str2 : i18nstr_t) : Z := memcmp (digest str1) (digest str2).

(** [MD5Init], [MD5Update] of each of the pieces, [MD5Final]; [ctx] is what is on the stack. *)
Definition digest_of (ctx : MD5_CTX) (pieces : list (list Z)) : option (list Z) :=
  c ← foldl md5_feed (Some (MD5Init ctx)) pieces;
  r ← MD5Final c;
  Some r.1.

(** The loop that looks for the place: the entry with the same digest, or the list with the new one. *)
Fixpoint insert_point (newstr : i18nstr_t) (l : list i18nstr_t) : i18nstr_t + list i18nstr_t :=
  match l with
  | [] => inr [newstr]
  | istr :: r =>
      let comp := compare_i18nstr istr newstr in
      if 0 <? comp then inr (newstr :: istr :: r)
      else if comp =? 0 then inl istr
      else match insert_point newstr r with inl e => inl e | inr r => inr (istr :: r) end
  end.

Section Program.
Context (ctx : MD5_CTX) (o : options).

Definition verbose (t : list Z) (st : pac) : pac := if o_verbose o =? 0 then st else say t st.

Definition quoted (before t : list Z) : list Z := before ++ 39 :: t ++ [39; 10].

(** [if (o_verbose > 1) verbose(...)] *)
Definition verbose2 (t : list Z) (st : pac) : pac := if 1 <? o_verbose o then verbose t st else st.

Definition str_no_memory : list Z := Eval cbv in cs "sealpac_puts: memory allocation failed!" ++ [10].

Definition sealpac_puts (text : list Z) (st : pac) : option pac :=
  match text with
  | [] => Some st
  | _ =>
      let '(a1, st) := alloc st in
      if a1 then
        let '(a2, st) := alloc st in
        if a2 then
          d ← digest_of ctx [text];
          let newstr := mkistr d text in
          match insert_point newstr (g_i18n_strings st) with
          | inr l => Some (verbose2 (quoted (cs "Add string ") text) (set_list l st))
          | inl istr =>
              if bool_decide (text = string istr) then Some (verbose2 (quoted (cs "Duplicated string : ") text) st)
              else Some (say (quoted (cs "ERROR!! Digest Conflict. Please change the string ") text) st)
          end
        else Some (say str_no_memory st)
      else Some (say str_no_memory st)
  end.

Fixpoint puts_all (l : list (list Z)) (st : pac) : option pac :=
  match l with
  | [] => Some st
  | s :: l => st ← sealpac_puts s st; puts_all l st
  end.

(** ** Files *)

(** What a name in a directory is. *)
Inductive kind := Link | Regular | Directory | Other.

(** [strrchr]: what is behind the last dot. *)
Fixpoint extension (fname : list Z) : option (list Z) :=
  match fname with
  | [] => None
  | c :: r => match extension r with Some e => Some e | None => if c =? 46 then Some r else None end
  end.

Definition match_type (fname : list Z) : bool :=
  match o_types o with
  | [] => true
  | ts => match extension fname with Some e => existsb (fun t => bool_decide (t = e)) ts | None => false end
  end.

(** The file system: [scandir], in the order of the names, [stat], and the texts of a file. *)
Context (scandir : list Z -> option (list (list Z * kind))) (stat : list Z -> option kind) (texts : list Z -> list (list Z)).

(** The loop over the names, from the last one on, with the lists of files and directories.  A path has to fit a buffer of 1024 bytes. *)
Fixpoint list_loop (path : list Z) (names : list (list Z * kind)) (files dirs : list (list Z)) (st : pac) : option (list (list Z) * list (list Z) * pac) :=
  match names with
  | [] => Some (files, dirs, st)
  | (name, k) :: names =>
      p ← sprint 1024 [] (path ++ 47 :: name);
      let ignore errmsg := list_loop path names files dirs (verbose2 (quoted (cs "Ignoring " ++ cs errmsg ++ cs " file - ") name) st) in
      match k with
      | Link => ignore "link"%string
      | Other => ignore "UNKNOWN FILE TYPE"%string
      | Regular | Directory =>
          if deref name =? 46 then ignore "hidden"%string
          else
            let dir := match k with Directory => true | _ => false end in
            if negb dir && negb (match_type name) then ignore "unmatch"%string
            else
              let '(a, st) := alloc st in
              if a then
                let st := verbose (quoted (cs "Found " ++ (if dir then cs "DT_DIR" else cs "DT_REG") ++ cs " file - ") p) st in
                if dir then list_loop path names files (dirs ++ [p]) st else list_loop path names (files ++ [p]) dirs st
              else list_loop path names files dirs (verbose (cs "Memory allocation failed !!" ++ [10]) st)
      end
  end.

Definition read_file_list (path : list Z) (st : pac) : option (Z * list (list Z) * list (list Z) * pac) :=
  match scandir path with
  | None => Some (-1, [], [], st)
  | Some names => r ← list_loop path (rev names) [] [] st; let '(files, dirs, st) := r in Some (0, files, dirs, st)
  end.

Definition read_file (fname : list Z) (st : pac) : option pac :=
  let st := mkpac (g_i18n_strings st) (g_filecount st + 1) (answers st) (printed st) in
  if negb (o_listfile o =? 0) then Some (say (fname ++ [10]) st) else puts_all (texts fname) st.

Fixpoint read_files (files : list (list Z)) (st : pac) : option pac :=
  match files with
  | [] => Some st
  | f :: files => st ← read_file f st; read_files files st
  end.

(** The loop over the directories, up to the first that fails. *)
Fixpoint each_directory (read : list Z -> pac -> option (Z * pac)) (dirs : list (list Z)) (st : pac) : option (Z * pac) :=
  match dirs with
  | [] => Some (0, st)
  | d :: dirs =>
      r ← read d st;
      if fst r <? 0 then Some (fst r, verbose (quoted (cs "error handling directory - ") d) (snd r)) else each_directory read dirs (snd r)
  end.

(** [fuel]: how deep the directories are. *)
Fixpoint read_directory (fuel : nat) (dname : list Z) (st : pac) : option (Z * pac) :=
  match fuel with
  | O => None
  | S fuel =>
      let '(a1, st) := alloc st in
      let '(a2, st) := alloc st in
      if a1 && a2 then
        r ← read_file_list dname st;
        let '(ret, files, dirs, st) := r in
        if ret <? 0 then Some (ret, verbose (cs "error reading file list @ " ++ 39 :: dname ++ 39 :: cs " !" ++ [10]) st)
        else
          st ← read_files files st;
          if negb (o_recursive o =? 0) then
            each_directory (read_directory fuel) dirs st
          else Some (0, st)
      else Some (-1, verbose (cs "solist_new() return error!" ++ [10]) st)
  end.

(** ** Packs *)

Definition SEALPAC_MAGIC : Z := 0x5ea19ac.

(** [sizeof] of the header and of an entry of the table. *)
Definition HDR_SIZE : nat := 48.
Definition STR_SIZE : nat := 20.

Definition hex_digit (n : Z) : Z := if n <? 10 then 48 + n else 87 + n.

(** [%02x] *)
Definition hex2 (b : Z) : list Z := [hex_digit (b / 16); hex_digit (b mod 16)].

(** What the system says of the last error. *)
Context (strerror : list Z).

(** The table: [offset] is where the next string will be, in 32 bits. *)
Fixpoint string_heads (l : list i18nstr_t) (offset : Z) : list Z :=
  match l with
  | [] => []
  | istr :: l => digest istr ++ be_bytes 4 offset ++ string_heads l (u32 (offset + zlen (string istr) + 1))
  end.

Definition string_bytes (istr : i18nstr_t) : list Z := string istr ++ [0].

(** [strncpy] into 16 zeros. *)
Definition lang_bytes : list Z := let c := take 16 (o_langcode o) in c ++ replicate (16 - length c) 0.

Definition sealpac_header (count : nat) (checksum : list Z) : list Z :=
  be_bytes 4 SEALPAC_MAGIC ++ be_bytes 4 (u32 (Z.of_nat count)) ++ replicate 8 0 ++ lang_bytes ++ checksum.

Definition heads (l : list i18nstr_t) : list Z := string_heads l (u32 (Z.of_nat HDR_SIZE + Z.of_nat STR_SIZE * zlen l)).

(** [if (o_verbose > 2)]: every string with its digest. *)
Definition list_strings (l : list i18nstr_t) (st : pac) : pac :=
  if 2 <? o_verbose o then foldl (fun st istr => verbose (91 :: concat (map hex2 (digest istr)) ++ cs "] : [" ++ string istr ++ [93; 10]) st) st l else st.

(** [writable]: whether the file can be opened.  The result has what is written to it. *)
Definition dump_i18n_strings (writable : bool) (st : pac) : option (pac * option (list Z)) :=
  let l := g_i18n_strings st in
  let st := list_strings l st in
  let st := say (cs "Number of strings : " ++ num (zlen l) ++ [10]) st in
  match l, o_targetpath o with
  | [], _ | _, None => Some (st, None)
  | _, Some _ =>
      let '(a, st) := alloc st in
      if a then
        checksum ← digest_of ctx (heads l :: map string_bytes l);
        match o_slpfile o with
        | None => Some (say (cs "No output file !" ++ [10]) st, None)
        | Some name =>
            if writable then Some (st, Some (sealpac_header (length l) checksum ++ heads l ++ concat (map string_bytes l)))
            else Some (say (cs "ERROR!!! Unable to open output file " ++ 39 :: name ++ [39; 44; 32] ++ strerror ++ [10]) st, None)
        end
      else Some (say (cs "dump_i18n_strings: Memory Allocation Failed!" ++ [10]) st, None)
  end.

(** The pieces of 256 bytes that are read up to the end of the file. *)
Fixpoint pieces_256 (fuel : nat) (rest : list Z) : list (list Z) :=
  match fuel, rest with
  | O, _ | _, [] => []
  | S fuel, _ => take 256 rest :: pieces_256 fuel (drop 256 rest)
  end.

Definition str_line : list Z := replicate 58 61 ++ [10].

(** The name of the language is printed up to its end, which has to be in its array. *)
Definition dump_sealpac_hdr (hdr : list Z) (st : pac) : option pac :=
  let lang := take 16 (drop 16 hdr) in
  if existsb (Z.eqb 0) lang then
    let n := be_word (take 4 (drop 4 hdr)) in
    Some (say (str_line ++ cs "Magic    : " ++ concat (map hex2 (take 4 hdr)) ++ [10] ++
               cs "Num      : " ++ num (if n <? 2 ^ 31 then n else n - 2 ^ 32) ++ [10] ++ cs "langcode : " ++ cstr lang ++ [10] ++
               cs "Checksum : " ++ concat (map (fun b => hex2 b ++ [32]) (drop 32 hdr)) ++ [10] ++ str_line) st)
  else None.

(** The loop over the table: a string is read from its place up to its end or the end of the file.  Every place can be sought, as a [long] has
    64 bits. *)
Fixpoint strings_loop (file table : list Z) (n : nat) (st : pac) : option pac :=
  match n with
  | O => Some st
  | S n =>
      let offset := be_word (take 4 (drop 16 table)) in
      st ← sealpac_puts (cstr (drop (Z.to_nat offset) file)) st;
      strings_loop file (drop STR_SIZE table) n st
  end.

(** [file]: what is in the file, if it can be opened. *)
Definition read_sealpac (filename : list Z) (file : option (list Z)) (st : pac) : option pac :=
  match file with
  | None => Some (say (cs "Unable to open file " ++ 39 :: filename ++ 39 :: cs " for reading. " ++ strerror ++ cs ". Creating a new one." ++ [10]) st)
  | Some file =>
      if (length file <? HDR_SIZE)%nat then Some (say (cs "Unable to read sealpac header!" ++ [10]) st)
      else
        let hdr := take HDR_SIZE file in
        if negb (be_word (take 4 hdr) =? SEALPAC_MAGIC) then Some (say (cs "Invalid MAGIC!" ++ [10]) st)
        else
          let rest := drop HDR_SIZE file in
          d ← digest_of ctx (pieces_256 (length rest) rest);
          if negb (memcmp d (drop 32 hdr) =? 0) then Some (say (cs "Invalid Checksum !" ++ [10]) st)
          else
            st ← (if o_verbose o =? 0 then Some st else dump_sealpac_hdr hdr st);
            let count := be_word (take 4 (drop 4 hdr)) in
            if count =? 0 then Some st
            else
              let '(a, st) := alloc st in
              if negb a then Some (say (cs "Memory Allocation Failed !" ++ [10]) st)
              else if zlen rest <? Z.of_nat STR_SIZE * count then Some (say (cs "Unable to read sealpac string head!" ++ [10]) st)
              else
                let '(a, st) := alloc st in
                if negb a then Some (say (cs "Memory Allocation Failed!" ++ [10]) st)
                else strings_loop file rest (Z.to_nat count) st
  end.

(** The messages at the end; the memory is not looked at. *)
Definition cleanup_exit (code : Z) (st : pac) : pac := verbose (cs "sealpac: exit with code " ++ num code ++ [10]) st.

(** [main] behind the options: the exit code, the output, and what is written. *)
Definition run (depth : nat) (old : option (list Z)) (writable : bool) (st : pac) : option (Z * pac * option (list Z)) :=
  st ← match o_slpfile o with Some name => read_sealpac name old st | None => Some st end;
  let finish st := r ← dump_i18n_strings writable st; Some (0, cleanup_exit 0 (fst r), snd r) in
  match o_targetpath o with
  | None => finish st
  | Some path =>
      let read st := finish (say (cs "Number of files read : " ++ num (g_filecount st) ++ [10]) st) in
      match stat path with
      | None => Some (-1, cleanup_exit (-1) (say (cs "stat() error, " ++ strerror ++ cs " !" ++ [10]) st), None)
      | Some Regular => st ← read_file path st; read st
      | Some Directory => r ← read_directory depth path st; read (snd r)
      | Some _ => Some (-1, cleanup_exit (-1) (say (cs "Unable to handle " ++ 39 :: path ++ [39; 46; 10]) st), None)
      end
  end.
End Program.

(** The exit code, the output and what is written; the text of the help is left out. *)
Definition main (ctx : MD5_CTX) (scandir : list Z -> option (list (list Z * kind))) (stat : list Z -> option kind) (texts : list Z -> list (list Z)) (strerror : list Z)
  (depth : nat) (seen : list (Z * list Z)) (mem : list bool) (old : option (list Z)) (writable : bool) : option (Z * pac * option (list Z)) :=
  match parse_args seen no_options with
  | Usage code => Some (code, start mem, None)
  | Options o => run ctx o scandir stat texts strerror depth old writable (start mem)
  end.

(** ** The order of the digests *)

Lemma memcmp_range a : forall b, memcmp a b = -1 \/ memcmp a b = 0 \/ memcmp a b = 1.
Proof. induction a as [|x a IH]; intros [|y b]; cbn [memcmp]; try tauto. destruct (x =? y); [apply IH|]. destruct (x <? y); tauto. Qed.

Lemma memcmp_flip a : forall b, memcmp b a = - memcmp a b.
Proof.
  induction a as [|x a IH]; intros [|y b]; cbn [memcmp]; try done. rewrite (Z.eqb_sym y x). destruct (Z.eqb_spec x y); [apply IH|].
  destruct (Z.ltb_spec y x), (Z.ltb_spec x y); try done; lia.
Qed.

Lemma memcmp_same a : forall b, length a = length b -> memcmp a b = 0 <-> a = b.
Proof.
  induction a as [|x a IH]; intros [|y b] Hl; cbn [memcmp length] in *; try done. destruct (Z.eqb_spec x y) as [->|Hn].
  - rewrite IH by lia. split; [by intros ->|by intros [= ->]].
  - destruct (x <? y); split; try done; by intros [= -> _].
Qed.

Lemma memcmp_trans a : forall b c, length a = length b -> length b = length c -> memcmp a b = -1 -> memcmp b c = -1 -> memcmp a c = -1.
Proof.
  induction a as [|x a IH]; intros [|y b] [|z c] H1 H2; cbn [memcmp length] in *; try done.
  destruct (Z.eqb_spec x y) as [->|N1], (Z.eqb_spec y z) as [->|N2]; cbn.
  - intros ? ?. eapply IH; [| |done|done]; lia.
  - destruct (Z.eqb_spec y z); done.
  - destruct (Z.eqb_spec x z); done.
  - destruct (Z.ltb_spec x y); [|done]. destruct (Z.ltb_spec y z); [|done]. intros _ _. rewrite (proj2 (Z.eqb_neq x z)), (proj2 (Z.ltb_lt x z)) by lia. done.
Qed.

Lemma length_md5 m : length (md5 m) = 16%nat.
Proof. unfold md5. destruct (absorb _ _ _) as [[[a b] c] d]. reflexivity. Qed.

(** ** The list *)

Definition before (a b : i18nstr_t) : Prop := memcmp (digest a) (digest b) = -1.

(** A text with an end where it ends, of which the digest is there. *)
Record entry_ok (e : i18nstr_t) : Prop := {
  entry_some : string e <> [];
  entry_plain : Forall (fun c => c <> 0) (string e);
  entry_digest : digest e = md5 (string e)
}.

Lemma digest_length e : entry_ok e -> length (digest e) = 16%nat.
Proof. intros He. by rewrite (entry_digest e He), length_md5. Qed.

Definition wf (l : list i18nstr_t) : Prop := StronglySorted before l /\ Forall entry_ok l.

(** What the list stands for: the text of a digest. *)
Definition dict (l : list i18nstr_t) : gmap (list Z) (list Z) := list_to_map (map (fun e => (digest e, string e)) l).

Lemma before_trans a b c : entry_ok a -> entry_ok b -> entry_ok c -> before a b -> before b c -> before a c.
Proof. intros Ha%digest_length Hb%digest_length Hc%digest_length. unfold before. apply memcmp_trans; congruence. Qed.

Lemma before_differ a b : entry_ok a -> entry_ok b -> before a b -> digest a <> digest b.
Proof. intros Ha Hb H E. unfold before in H. assert (memcmp (digest a) (digest b) = 0) as H0 by (by rewrite E; apply memcmp_same). by rewrite H0 in H. Qed.

Lemma wf_keys l : wf l -> NoDup (map fst (map (fun e => (digest e, string e)) l)).
Proof.
  intros [Hs He]. rewrite map_map. cbn [fst]. induction Hs as [|e l Hs IH Hb]; [constructor|]. apply Forall_cons_iff in He as [He Hl]. cbn [map]. constructor; [|by apply IH].
  rewrite list_elem_of_In, in_map_iff. intros (e' & Ed & Hin). rewrite List.Forall_forall in Hb, Hl. by apply (before_differ e e' He (Hl _ Hin) (Hb _ Hin)).
Qed.

Lemma dict_lookup l e : wf l -> e ∈ l -> dict l !! digest e = Some (string e).
Proof. intros Hw He. apply elem_of_list_to_map_1; [by apply wf_keys|]. apply list_elem_of_In, in_map_iff. exists e. split; [done|by apply list_elem_of_In]. Qed.

(** The place of a new entry. *)
Lemma insert_point_spec e l : entry_ok e -> wf l ->
  match insert_point e l with
  | inl e' => e' ∈ l /\ digest e' = digest e
  | inr l' => wf l' /\ l' ≡ₚ e :: l
  end.
Proof.
  intros He. induction l as [|x l IH]; intros [Hs Hl]; cbn [insert_point].
  { split; [|done]. split; [|by constructor]. repeat constructor. }
  apply StronglySorted_inv in Hs as [Hs Hb]. apply Forall_cons_iff in Hl as [Hx Hl]. unfold compare_i18nstr.
  pose proof (memcmp_flip (digest x) (digest e)) as Hf. destruct (memcmp_range (digest x) (digest e)) as [E|[E|E]]; rewrite E; cbn [Z.ltb Z.compare Z.eqb].
  - destruct (insert_point e l) as [e'|l'].
    + destruct IH as [H1 H2]; [by split|]. split; [by apply elem_of_cons; right|done].
    + destruct IH as [[H1 H2] H3]; [by split|]. split; [split|].
      * constructor; [done|]. rewrite H3. by constructor.
      * by constructor.
      * rewrite H3. by constructor.
  - split; [by apply elem_of_cons; left|]. apply memcmp_same; [|done]. by rewrite (digest_length x), (digest_length e).
  - split; [|done]. assert (before e x) as Hex by (unfold before; by rewrite Hf, E). split; [|constructor; [done|by constructor]].
    constructor; [by constructor|]. constructor; [done|]. rewrite List.Forall_forall in Hb, Hl |- *. intros y Hy. apply (before_trans e x y); [done|done|by apply Hl|done|by apply Hb].
Qed.

(** ** What a text adds *)

(** A new text under its digest; one that is there stays. *)
Definition add (d : gmap (list Z) (list Z)) (t : list Z) : gmap (list Z) (list Z) :=
  match t with
  | [] => d
  | _ => match d !! md5 t with Some _ => d | None => <[md5 t := t]> d end
  end.

(** The room that texts take in a pack. *)
Definition weight (ts : list (list Z)) : Z := foldr (fun t n => zlen t + 21 + n) 0 ts.

Lemma weight_app a b : weight (a ++ b) = weight a + weight b.
Proof. induction a as [|t a IH]; [done|]. cbn [weight foldr app]. unfold weight in *. lia. Qed.

Lemma weight_pos ts : 0 <= weight ts.
Proof. induction ts as [|t ts IH]; [done|]. cbn [weight foldr]. unfold weight in *. lia. Qed.

#[export] Instance weight_perm : Proper ((≡ₚ) ==> eq) weight.
Proof. intros a b H. induction H; cbn [weight foldr]; unfold weight in *; lia. Qed.

Definition list_strings_of (st : pac) : list (list Z) := map string (g_i18n_strings st).

(** From [st] to [st'] the texts [ts] are added, and nothing else happens but output. *)
Record adds (ts : list (list Z)) (st st' : pac) : Prop := {
  adds_wf : wf (g_i18n_strings st');
  adds_dict : dict (g_i18n_strings st') = foldl add (dict (g_i18n_strings st)) ts;
  adds_mem : answers st' = [];
  adds_weight : weight (list_strings_of st') <= weight (list_strings_of st) + weight ts
}.

Definition ready (st : pac) : Prop := wf (g_i18n_strings st) /\ answers st = [].
Definition text_ok (t : list Z) : Prop := Forall (fun c => c <> 0) t /\ zlen t <= 2 ^ 32 - 64.

Lemma adds_ready ts st st' : adds ts st st' -> ready st'.
Proof. by intros [H1 _ H2 _]. Qed.

Lemma adds_none st : ready st -> adds [] st st.
Proof. intros [H1 H2]. split; [done|done|done|cbn; lia]. Qed.

Lemma adds_app ts1 ts2 st st1 st2 : adds ts1 st st1 -> adds ts2 st1 st2 -> adds (ts1 ++ ts2) st st2.
Proof. intros [A1 B1 C1 D1] [A2 B2 C2 D2]. split; [done|by rewrite foldl_app, <- B1|done|rewrite weight_app; lia]. Qed.

(** Output does not matter. *)
Lemma adds_same ts st st' st1 st1' : g_i18n_strings st = g_i18n_strings st1 -> g_i18n_strings st' = g_i18n_strings st1' -> answers st' = answers st1' -> adds ts st st' -> adds ts st1 st1'.
Proof. intros E1 E2 E3 [A B C D]. split; unfold list_strings_of in *; by rewrite <- ?E1, <- ?E2, <- ?E3. Qed.

(** ** Packs are read back *)

(** The bytes of a pack. *)
Definition pack_file (w : options) (l : list i18nstr_t) : list Z :=
  sealpac_header w (length l) (md5 (heads l ++ concat (map string_bytes l))) ++ heads l ++ concat (map string_bytes l).

Definition pack_size (l : list i18nstr_t) : Z := 48 + weight (map string l).

Lemma length_heads l : forall off, Forall entry_ok l -> zlen (string_heads l off) = 20 * zlen l.
Proof.
  induction l as [|e l IH]; intros off Hl; [done|]. apply Forall_cons_iff in Hl as [He Hl]. cbn [string_heads]. rewrite !length_app, (digest_length e He), length_be_bytes.
  specialize (IH (u32 (off + zlen (string e) + 1)) Hl). cbn [length]. lia.
Qed.

Lemma length_strings l : zlen (concat (map string_bytes l)) + 20 * zlen l = weight (map string l).
Proof.
  induction l as [|e l IH]; [done|]. cbn [map concat weight foldr length]. unfold string_bytes at 1. rewrite !length_app. cbn [length]. fold (weight (map string l)). lia.
Qed.

Lemma strings_short l : weight (map string l) <= 2 ^ 32 - 64 -> Forall (fun p => zlen p <= 2 ^ 32 - 64) (map string_bytes l).
Proof.
  induction l as [|e l IH]; cbn [map weight foldr]; intros H; [done|]. fold (weight (map string l)) in H. pose proof (weight_pos (map string l)). constructor; [|apply IH; lia].
  unfold string_bytes. rewrite length_app. cbn [length]. lia.
Qed.

Lemma pieces_concat fuel : forall rest, (length rest <= fuel)%nat -> concat (pieces_256 fuel rest) = rest /\ Forall (fun p => zlen p <= 2 ^ 32 - 64) (pieces_256 fuel rest).
Proof.
  induction fuel as [|fuel IH]; intros rest Hl; [destruct rest; [by split|cbn [length] in Hl; lia]|]. destruct rest as [|c rest]; [done|]. cbn [pieces_256].
  destruct (IH (drop 256 (c :: rest))) as [H1 H2]. { rewrite length_drop. cbn [length] in *. lia. }
  cbn [concat]. rewrite H1, take_drop. split; [done|]. constructor; [|done]. rewrite length_take. lia.
Qed.

Lemma insert_last e l : Forall (fun x => before x e) l -> insert_point e l = inr (l ++ [e]).
Proof. induction 1 as [|x l Hx _ IH]; [done|]. cbn [insert_point]. unfold compare_i18nstr. rewrite Hx. cbn [Z.ltb Z.compare Z.eqb]. by rewrite IH. Qed.

(** The fields of a header. *)
Lemma length_lang w : length (lang_bytes w) = 16%nat.
Proof. unfold lang_bytes. rewrite length_app, length_replicate, length_take. lia. Qed.

Lemma drop_parts {A} (a b : list A) n : length a = n -> drop n (a ++ b) = b.
Proof. intros <-. apply drop_app_length. Qed.

Lemma take_parts {A} (a b : list A) n : length a = n -> take n (a ++ b) = a.
Proof. intros <-. apply take_app_length. Qed.

Lemma header_fields w n sum : length sum = 16%nat -> (Z.of_nat n < 2 ^ 32) ->
  let h := sealpac_header w n sum in
  length h = HDR_SIZE /\ be_word (take 4 h) = SEALPAC_MAGIC /\ be_word (take 4 (drop 4 h)) = Z.of_nat n /\ take 16 (drop 16 h) = lang_bytes w /\ drop 32 h = sum.
Proof.
  intros Hs Hn h. unfold h, sealpac_header. set (m := be_bytes 4 SEALPAC_MAGIC). set (c := be_bytes 4 (u32 (Z.of_nat n))).
  assert (length m = 4%nat) as Hm by apply length_be_bytes. assert (length c = 4%nat) as Hc by apply length_be_bytes. pose proof (length_lang w) as Hl. split_and!.
  - rewrite !length_app, length_replicate, Hm, Hc, Hl, Hs. done.
  - by rewrite take_parts.
  - rewrite drop_parts, take_parts by done. unfold c. rewrite be_word_bytes; unfold u32; rewrite Z.mod_small; lia.
  - rewrite !app_assoc, <- (app_assoc _ (lang_bytes w) sum). rewrite drop_parts by (rewrite !length_app, length_replicate; lia). by apply take_parts.
  - rewrite !app_assoc. apply drop_parts. rewrite !length_app, length_replicate. lia.
Qed.

(** Whether the name of the language can be printed. *)
Definition printable (r w : options) : Prop := o_verbose r = 0 \/ zlen (o_langcode w) < 16.

Lemma lang_ends w : zlen (o_langcode w) < 16 -> existsb (Z.eqb 0) (lang_bytes w) = true.
Proof.
  intros Hl. unfold lang_bytes. rewrite take_ge by lia. rewrite existsb_app. replace (16 - length (o_langcode w))%nat with (S (15 - length (o_langcode w))) by lia. cbn. by rewrite orb_true_r.
Qed.

Section Texts.
Context (ctx : MD5_CTX) (o : options) (Hctx : length (buffer ctx) = 64%nat).

Lemma digest_of_md5 pieces : Forall (fun p => zlen p <= 2 ^ 32 - 64) pieces -> digest_of ctx pieces = Some (md5 (concat pieces)).
Proof using Hctx.
  intros Hp. unfold digest_of. destruct (md5_feed_all pieces _ [] (MD5Init_rep ctx Hctx) Hp) as (c & -> & R). cbn [mbind option_bind]. by rewrite (MD5Final_rep _ _ R).
Qed.

Lemma verbose_same t st : g_i18n_strings (verbose o t st) = g_i18n_strings st /\ answers (verbose o t st) = answers st /\ g_filecount (verbose o t st) = g_filecount st.
Proof using Type. unfold verbose. by destruct (o_verbose o =? 0). Qed.

Lemma verbose2_same t st : g_i18n_strings (verbose2 o t st) = g_i18n_strings st /\ answers (verbose2 o t st) = answers st /\ g_filecount (verbose2 o t st) = g_filecount st.
Proof using Type. unfold verbose2. destruct (1 <? o_verbose o); [apply verbose_same|done]. Qed.

Lemma alloc_ok st : answers st = [] -> alloc st = (true, st).
Proof using Type. unfold alloc. by intros ->. Qed.

(** A text is put into the list, unless its digest is there. *)
Lemma puts_adds t st : ready st -> text_ok t -> exists st', sealpac_puts ctx o t st = Some st' /\ adds [t] st st' /\ g_filecount st' = g_filecount st.
Proof using Hctx.
  intros [Hw Hm] [Ht Hl]. destruct t as [|c t0] eqn:Et.
  { exists st. split; [done|]. split; [|done]. split; [done|done|done|unfold weight; cbn; lia]. }
  rewrite <- Et in *. assert (t <> []) as Hn by (by rewrite Et). unfold sealpac_puts. rewrite !alloc_ok by done.
  rewrite digest_of_md5 by (by repeat constructor). cbn [concat]. rewrite app_nil_r. cbn [mbind option_bind].
  set (e := mkistr (md5 t) t). assert (entry_ok e) as He by (by split). pose proof (insert_point_spec e _ He Hw) as Hi.
  assert (forall d, add d t = match d !! md5 t with Some _ => d | None => <[md5 t := t]> d end) as Ha by (intros d; unfold add; by rewrite Et).
  assert (forall X, match t with [] => Some st | _ :: _ => X end = X) as -> by (intros X; by rewrite Et).
  destruct (insert_point e (g_i18n_strings st)) as [e'|l'].
  - destruct Hi as [Hin Hd]. pose proof (dict_lookup _ _ Hw Hin) as Hlk. rewrite Hd in Hlk. cbn [digest] in Hlk. change (digest e) with (md5 t) in Hlk.
    assert (forall st1, g_i18n_strings st1 = g_i18n_strings st -> answers st1 = answers st -> adds [t] st st1) as Hadd.
    { intros st1 E1 E2. split; [by rewrite E1|rewrite E1; cbn [foldl]; by rewrite Ha, Hlk|by rewrite E2|unfold list_strings_of; rewrite E1; unfold weight; cbn; lia]. }
    case_bool_decide.
    + eexists. split; [reflexivity|]. destruct (verbose2_same (quoted (cs "Duplicated string : ") t) st) as (E1 & E2 & E3). auto.
    + eexists. split; [reflexivity|]. auto.
  - destruct Hi as [Hw' Hp]. eexists. split; [reflexivity|]. destruct (verbose2_same (quoted (cs "Add string ") t) (set_list l' st)) as (E1 & E2 & E3). split; [|done].
    assert (dict l' = <[md5 t := t]> (dict (g_i18n_strings st)) /\ dict (g_i18n_strings st) !! md5 t = None) as [Hd1 Hd2].
    { assert (map (fun e => (digest e, string e)) l' ≡ₚ (md5 t, t) :: map (fun e => (digest e, string e)) (g_i18n_strings st)) as Hp' by (by rewrite Hp).
      pose proof (wf_keys l' Hw') as Hk. split.
      - unfold dict. rewrite (list_to_map_proper _ _ Hk Hp'). done.
      - rewrite Hp' in Hk. cbn [map fst] in Hk. apply list.NoDup_cons in Hk as [Hk _]. by apply not_elem_of_list_to_map_1. }
    split; [by rewrite E1|rewrite E1; cbn [foldl]; rewrite Ha, Hd2; exact Hd1|by rewrite E2|].
    unfold list_strings_of. rewrite E1. cbn [set_list g_i18n_strings]. rewrite Hp. cbn [map weight foldr string e]. unfold weight. lia.
Qed.

Lemma puts_all_adds ts : forall st, ready st -> Forall text_ok ts -> exists st', puts_all ctx o ts st = Some st' /\ adds ts st st' /\ g_filecount st' = g_filecount st.
Proof using Hctx.
  induction ts as [|t ts IH]; intros st Hs Ht; cbn [puts_all]; [exists st; split; [done|]; split; [by apply adds_none|done]|].
  apply Forall_cons_iff in Ht as [Ht Hts]. destruct (puts_adds t st Hs Ht) as (s1 & -> & H1 & E1). destruct (IH s1 (adds_ready _ _ _ H1) Hts) as (s2 & E & H2 & E2).
  exists s2. cbn [mbind option_bind]. split; [done|]. split; [by apply (adds_app [t] ts _ s1)|congruence].
Qed.

(** A string that belongs behind those that are there. *)
Lemma puts_last e st : answers st = [] -> entry_ok e -> zlen (string e) <= 2 ^ 32 - 64 -> Forall (fun x => before x e) (g_i18n_strings st) ->
  exists st', sealpac_puts ctx o (string e) st = Some st' /\ g_i18n_strings st' = g_i18n_strings st ++ [e] /\ answers st' = [] /\ g_filecount st' = g_filecount st.
Proof using Hctx.
  intros Hm He Hl Hb. unfold sealpac_puts. rewrite !alloc_ok by done. rewrite digest_of_md5 by (by repeat constructor). cbn [concat]. rewrite app_nil_r. cbn [mbind option_bind].
  rewrite <- (entry_digest e He). assert (mkistr (digest e) (string e) = e) as -> by (by destruct e). rewrite (insert_last e _ Hb).
  assert (forall X, match string e with [] => Some st | _ :: _ => X end = X) as -> by (intros X; pose proof (entry_some e He); by destruct (string e)).
  eexists. split; [reflexivity|]. destruct (verbose2_same (quoted (cs "Add string ") (string e)) (set_list (g_i18n_strings st ++ [e]) st)) as (E1 & E2 & E3). by rewrite E1, E2, E3.
Qed.

Lemma strings_loop_spec tail : forall l st pre, wf (g_i18n_strings st ++ l) -> answers st = [] -> zlen pre + zlen (concat (map string_bytes l)) < 2 ^ 32 - 64 ->
  exists st', strings_loop ctx o (pre ++ concat (map string_bytes l)) (string_heads l (zlen pre) ++ tail) (length l) st = Some st' /\
    g_i18n_strings st' = g_i18n_strings st ++ l /\ answers st' = [] /\ g_filecount st' = g_filecount st.
Proof using Hctx.
  induction l as [|e l IH]; intros st pre Hw Hm Hl; cbn [length strings_loop]; [exists st; by rewrite app_nil_r|].
  destruct Hw as [Hs He]. pose proof He as He'. apply Forall_app in He' as [_ He']. apply Forall_cons_iff in He' as [Hee _].
  cbn [map concat] in *. unfold string_bytes at 1 in Hl. rewrite !length_app in Hl. cbn [length] in Hl.
  assert (be_word (take 4 (drop 16 (string_heads (e :: l) (zlen pre) ++ tail))) = zlen pre) as ->.
  { cbn [string_heads]. rewrite <- !app_assoc. rewrite <- (digest_length e Hee), drop_app_length. rewrite <- (length_be_bytes 4 (zlen pre)) at 1. rewrite take_app_length. apply be_word_bytes. lia. }
  assert (cstr (drop (Z.to_nat (zlen pre)) (pre ++ string_bytes e ++ concat (map string_bytes l))) = string e) as ->.
  { rewrite Nat2Z.id, drop_app_length. unfold string_bytes at 1. rewrite <- app_assoc. apply Lrgbin.cstr_plain, Hee. }
  assert (drop STR_SIZE (string_heads (e :: l) (zlen pre) ++ tail) = string_heads l (zlen (pre ++ string_bytes e)) ++ tail) as ->.
  { cbn [string_heads]. rewrite <- !app_assoc, app_assoc. assert (STR_SIZE = length (digest e ++ be_bytes 4 (zlen pre))) as -> by (by rewrite length_app, digest_length, length_be_bytes).
    rewrite drop_app_length. do 2 f_equal. unfold u32. rewrite Z.mod_small by lia. unfold string_bytes. rewrite !length_app. cbn [length]. lia. }
  destruct (puts_last e st Hm Hee ltac:(lia)) as (s1 & E1 & L1 & M1 & F1). { clear -Hs. induction (g_i18n_strings st) as [|x r IHr]; [done|]. apply StronglySorted_inv in Hs as [Hs Hb]. constructor; [|by apply IHr]. rewrite List.Forall_forall in Hb. apply Hb, in_app_iff. by right; left. }
  rewrite E1. cbn [mbind option_bind].
  destruct (IH s1 (pre ++ string_bytes e)) as (s2 & E2 & L2 & M2 & F2); [by rewrite L1, <- app_assoc|done|unfold string_bytes at 1; rewrite !length_app; cbn [length]; lia|].
  exists s2. rewrite <- app_assoc in E2. split; [exact E2|]. rewrite L2, L1, <- app_assoc. split_and!; [done|done|congruence].
Qed.

Lemma header_printed w n sum st : printable o w -> length sum = 16%nat -> Z.of_nat n < 2 ^ 32 ->
  exists st', (if o_verbose o =? 0 then Some st else dump_sealpac_hdr (sealpac_header w n sum) st) = Some st' /\
    g_i18n_strings st' = g_i18n_strings st /\ answers st' = answers st /\ g_filecount st' = g_filecount st.
Proof using Type.
  intros Hp Hs Hn. destruct (Z.eqb_spec (o_verbose o) 0) as [E|E]; [by exists st|]. destruct Hp as [?|Hp]; [done|].
  destruct (header_fields w n sum Hs Hn) as (_ & _ & _ & H4 & _). unfold dump_sealpac_hdr. rewrite H4, (lang_ends w Hp). eexists. split; [reflexivity|done].
Qed.

(** What is written is read back. *)
Lemma read_back strerror w name l st : wf l -> pack_size l < 2 ^ 32 - 64 -> printable o w -> g_i18n_strings st = [] -> answers st = [] ->
  exists st', read_sealpac ctx o strerror name (Some (pack_file w l)) st = Some st' /\ g_i18n_strings st' = l /\ answers st' = [] /\ g_filecount st' = g_filecount st.
Proof using Hctx.
  intros Hw Hsz Hp Hnil Hm. unfold pack_size in Hsz. pose proof (length_strings l) as Hst. pose proof (length_heads l (u32 (Z.of_nat HDR_SIZE + Z.of_nat STR_SIZE * zlen l)) (proj2 Hw)) as Hh. fold (heads l) in Hh.
  set (body := heads l ++ concat (map string_bytes l)). assert (zlen l < 2 ^ 32) as Hll by lia.
  destruct (header_fields w (length l) (md5 body) (length_md5 _) Hll) as (F1 & F2 & F3 & F4 & F5). destruct (header_printed w (length l) (md5 body) st Hp (length_md5 _) Hll) as (s0 & P0 & L0 & M0 & C0).
  unfold read_sealpac, pack_file. fold body. rewrite (proj2 (Nat.ltb_ge _ _)) by (rewrite length_app, F1; lia). rewrite (take_parts _ _ _ F1), (drop_parts _ _ _ F1), F2, F3, F5, Z.eqb_refl. cbn [negb].
  destruct (pieces_concat (length body) body ltac:(lia)) as [B1 B2]. rewrite (digest_of_md5 _ B2), B1. cbn [mbind option_bind]. rewrite (proj2 (memcmp_same _ _ eq_refl) eq_refl). cbn [Z.eqb negb].
  rewrite P0. cbn [mbind option_bind]. destruct (Z.eqb_spec (zlen l) 0) as [E|E]; [exists s0; split; [reflexivity|]; clear -E L0 M0 C0 Hnil Hm; destruct l; [split_and!; congruence|cbn [length] in E; lia]|].
  rewrite !alloc_ok by congruence. cbn [negb]. rewrite (proj2 (Z.ltb_ge _ _)) by (unfold body; rewrite length_app; unfold STR_SIZE; lia). rewrite Nat2Z.id.
  set (hd := sealpac_header w (length l) (md5 body)). destruct (strings_loop_spec (concat (map string_bytes l)) l s0 (hd ++ heads l)) as (s1 & E1 & L1 & M1 & C1);
    [by rewrite L0, Hnil|congruence|rewrite length_app; unfold hd; rewrite F1; unfold HDR_SIZE; lia|].
  exists s1. rewrite L1, L0, Hnil, C1, C0. split_and!; [|done|done|done]. rewrite <- E1. assert (string_heads l (zlen (hd ++ heads l)) ++ concat (map string_bytes l) = body) as ->.
  { unfold body, heads at 2. do 2 f_equal. rewrite length_app. unfold hd. rewrite F1. unfold u32. rewrite Z.mod_small; unfold HDR_SIZE, STR_SIZE; lia. }
  rewrite <- app_assoc. reflexivity.
Qed.

Lemma list_strings_same l : forall st, g_i18n_strings (list_strings o l st) = g_i18n_strings st /\ answers (list_strings o l st) = answers st.
Proof using Type.
  unfold list_strings. destruct (2 <? o_verbose o); [|done]. induction l as [|e l IH]; intros st; [done|]. cbn [foldl].
  destruct (IH (verbose o (91 :: concat (map hex2 (digest e)) ++ cs "] : [" ++ string e ++ [93; 10]) st)) as [-> ->]. destruct (verbose_same (91 :: concat (map hex2 (digest e)) ++ cs "] : [" ++ string e ++ [93; 10]) st) as (-> & -> & _). done.
Qed.

Lemma dumped strerror st path name : wf (g_i18n_strings st) -> answers st = [] -> g_i18n_strings st <> [] -> pack_size (g_i18n_strings st) < 2 ^ 32 - 64 ->
  o_targetpath o = Some path -> o_slpfile o = Some name ->
  exists st', dump_i18n_strings ctx o strerror true st = Some (st', Some (pack_file o (g_i18n_strings st))) /\ g_i18n_strings st' = g_i18n_strings st.
Proof using Hctx.
  intros Hw Hm Hne Hsz Ht Hs. unfold dump_i18n_strings. rewrite Ht, Hs. set (l := g_i18n_strings st) in *. destruct (list_strings_same l st) as [L1 M1].
  set (s1 := say _ _). assert (g_i18n_strings s1 = l /\ answers s1 = []) as [L2 M2] by (unfold s1, say; cbn; rewrite L1, M1; done).
  unfold pack_size in Hsz. pose proof (length_strings l) as Hst. pose proof (length_heads l (u32 (Z.of_nat HDR_SIZE + Z.of_nat STR_SIZE * zlen l)) (proj2 Hw)) as Hh. fold (heads l) in Hh.
  rewrite alloc_ok by done. rewrite digest_of_md5 by (constructor; [lia|apply strings_short; lia]). cbn [mbind option_bind concat].
  exists s1. split; [|done]. destruct l as [|e r]; [done|]. reflexivity.
Qed.

(** ** Directories *)

Context (scandir : list Z -> option (list (list Z * kind))) (stat : list Z -> option kind) (texts : list Z -> list (list Z)).

(** The names that count. *)
Definition taken (k : kind) (x : list Z * kind) : bool :=
  negb (deref x.1 =? 46) &&
  match k, x.2 with
  | Regular, Regular => match_type o x.1
  | Directory, Directory => true
  | _, _ => false
  end.

Definition paths (path : list Z) (k : kind) (names : list (list Z * kind)) : list (list Z) := map (fun x => path ++ 47 :: x.1) (List.filter (taken k) names).

Definition path_fits (path : list Z) (x : list Z * kind) : Prop := zlen path + zlen x.1 + 2 <= 1024.

Lemma list_loop_spec path : forall names files dirs st, Forall (path_fits path) names -> answers st = [] ->
  exists st', list_loop o path names files dirs st = Some (files ++ paths path Regular names, dirs ++ paths path Directory names, st') /\
    g_i18n_strings st' = g_i18n_strings st /\ answers st' = [] /\ g_filecount st' = g_filecount st.
Proof using Hctx.
  induction names as [|[name k] names IH]; intros files dirs st Hf Hm; cbn [list_loop]; [exists st; unfold paths; cbn; by rewrite !app_nil_r|].
  apply Forall_cons_iff in Hf as [Hx Hf]. unfold path_fits in Hx. cbn [fst] in Hx. rewrite sprint_ok by (rewrite length_app; cbn [length]; lia). cbn [mbind option_bind app].
  assert (forall errmsg, exists st', list_loop o path names files dirs (verbose2 o (quoted (cs "Ignoring " ++ cs errmsg ++ cs " file - ") name) st) =
    Some (files ++ paths path Regular names, dirs ++ paths path Directory names, st') /\ g_i18n_strings st' = g_i18n_strings st /\ answers st' = [] /\ g_filecount st' = g_filecount st) as Hig.
  { intros errmsg. destruct (verbose2_same (quoted (cs "Ignoring " ++ cs errmsg ++ cs " file - ") name) st) as (<- & E & <-). apply IH; [done|congruence]. }
  unfold paths in *. cbn [List.filter].
  assert (taken Regular (name, k) = negb (deref name =? 46) && match k with Regular => match_type o name | _ => false end) as -> by (by destruct k).
  assert (taken Directory (name, k) = negb (deref name =? 46) && match k with Directory => true | _ => false end) as -> by (by destruct k).
  destruct k; cbn [negb andb]; rewrite ?andb_false_r; try exact (Hig _); (destruct (deref name =? 46); cbn [negb andb]; [exact (Hig _)|]).
  - destruct (match_type o name); cbn [negb]; [|exact (Hig _)]. rewrite alloc_ok by done.
    set (s1 := verbose o _ st). destruct (verbose_same (quoted (cs "Found " ++ cs "DT_REG" ++ cs " file - ") (path ++ 47 :: name)) st) as (<- & E & <-). fold s1 in E |- *.
    destruct (IH (files ++ [path ++ 47 :: name]) dirs s1 Hf ltac:(congruence)) as (s2 & E2 & H2). exists s2. split; [|exact H2]. rewrite E2. rewrite <- app_assoc. done.
  - rewrite alloc_ok by done. set (s1 := verbose o _ st). destruct (verbose_same (quoted (cs "Found " ++ cs "DT_DIR" ++ cs " file - ") (path ++ 47 :: name)) st) as (<- & E & <-). fold s1 in E |- *.
    destruct (IH files (dirs ++ [path ++ 47 :: name]) s1 Hf ltac:(congruence)) as (s2 & E2 & H2). exists s2. split; [|exact H2]. rewrite E2. rewrite <- app_assoc. done.
Qed.

(** The files below a directory, in the order they are read, if every directory can be listed. *)
Fixpoint found (fuel : nat) (dname : list Z) : option (list (list Z)) :=
  match fuel with
  | O => None
  | S fuel =>
      names ← scandir dname;
      let names := rev names in
      if forallb (fun x => zlen dname + zlen x.1 + 2 <=? 1024) names then
        subs ← (if negb (o_recursive o =? 0) then mapM (found fuel) (paths dname Directory names) else Some []);
        Some (paths dname Regular names ++ concat subs)
      else None
  end.

Lemma read_files_adds fs : forall st, ready st -> o_listfile o = 0 -> Forall (fun f => Forall text_ok (texts f)) fs ->
  exists st', read_files ctx o texts fs st = Some st' /\ adds (concat (map texts fs)) st st' /\ g_filecount st' = g_filecount st + zlen fs.
Proof using Hctx.
  induction fs as [|f fs IH]; intros st Hs Hlf Hf; cbn [read_files map concat]; [exists st; split; [done|]; split; [by apply adds_none|cbn; lia]|].
  apply Forall_cons_iff in Hf as [Hf Hfs]. unfold read_file. rewrite Hlf. cbn [Z.eqb negb].
  set (s0 := mkpac _ _ _ _). destruct (puts_all_adds (texts f) s0) as (s1 & -> & H1 & C1); [exact Hs|done|]. cbn [mbind option_bind].
  destruct (IH s1 (adds_ready _ _ _ H1) Hlf Hfs) as (s2 & -> & H2 & C2). exists s2. split; [done|].
  split; [|rewrite C2, C1; unfold s0; cbn [g_filecount length]; lia]. apply (adds_app _ _ _ s1); [|done]. by eapply (adds_same _ s0 s1).
Qed.

Lemma each_directory_adds read look : (forall d st fs, ready st -> look d = Some fs -> Forall (fun f => Forall text_ok (texts f)) fs ->
    exists st', read d st = Some (0, st') /\ adds (concat (map texts fs)) st st' /\ g_filecount st' = g_filecount st + zlen fs) ->
  forall dirs subs st, mapM look dirs = Some subs -> Forall (fun f => Forall text_ok (texts f)) (concat subs) -> ready st ->
  exists st', each_directory o read dirs st = Some (0, st') /\ adds (concat (map texts (concat subs))) st st' /\ g_filecount st' = g_filecount st + zlen (concat subs).
Proof using Type.
  intros IH. induction dirs as [|d dirs IHd]; intros subs st Em Hok Hs; cbn [each_directory].
  - injection Em as <-. exists st. split; [done|]. split; [by apply adds_none|cbn; clear; lia].
  - cbn [mapM] in Em. destruct (look d) as [fs|] eqn:Ed; [|done]. cbn [mbind option_bind] in Em. destruct (mapM look dirs) as [subs'|] eqn:Em'; [|done]. injection Em as <-.
    cbn [concat] in *. apply Forall_app in Hok as [Hok1 Hok2]. destruct (IH d st fs Hs Ed Hok1) as (s1 & -> & H1 & C1). cbn [mbind option_bind fst snd Z.ltb Z.compare].
    destruct (IHd subs' s1 eq_refl Hok2 (adds_ready _ _ _ H1)) as (s2 & -> & H2 & C2). exists s2. split; [done|].
    rewrite map_app, concat_app, length_app. split; [by apply (adds_app _ _ _ s1)|clear -C1 C2; lia].
Qed.

Lemma read_directory_adds : forall fuel dname st fs, ready st -> o_listfile o = 0 -> found fuel dname = Some fs -> Forall (fun f => Forall text_ok (texts f)) fs ->
  exists st', read_directory ctx o scandir texts fuel dname st = Some (0, st') /\ adds (concat (map texts fs)) st st' /\ g_filecount st' = g_filecount st + zlen fs.
Proof using Hctx.
  induction fuel as [|fuel IH]; intros dname st fs Hs Hlf Hfo Hf; [done|]. cbn [found] in Hfo. destruct (scandir dname) as [names|] eqn:Esc; [|done]. cbn [mbind option_bind] in Hfo.
  destruct (forallb _ (rev names)) eqn:Efit; [|done]. rewrite forallb_forall in Efit.
  cbn [read_directory]. rewrite !alloc_ok by apply Hs. cbn [andb]. unfold read_file_list. rewrite Esc.
  destruct (list_loop_spec dname (rev names) [] [] st) as (s1 & -> & L1 & M1 & C1); [|apply Hs|].
  { apply List.Forall_forall. intros x Hx. specialize (Efit x Hx). unfold path_fits. by apply Z.leb_le in Efit. }
  cbn [mbind option_bind app Z.ltb Z.compare]. set (files := paths dname Regular (rev names)) in *. set (dirs := paths dname Directory (rev names)) in *.
  assert (ready s1) as Hs1 by (split; [rewrite L1; apply Hs|done]).
  assert (forall ts st', adds ts s1 st' -> adds ts st st') as Hback by (intros ts st'; by apply adds_same).
  destruct (negb (o_recursive o =? 0)).
  - destruct (mapM (found fuel) dirs) as [subs|] eqn:Em; [|done]. injection Hfo as <-. apply Forall_app in Hf as [Hf1 Hf2].
    destruct (read_files_adds files s1 Hs1 Hlf Hf1) as (s2 & -> & H2 & C2). cbn [mbind option_bind].
    destruct (each_directory_adds (read_directory ctx o scandir texts fuel) (found fuel) (fun d st fs Hst => IH d st fs Hst Hlf) dirs subs s2 Em Hf2 (adds_ready _ _ _ H2)) as (s3 & -> & H3 & C3). exists s3. split; [done|].
    rewrite map_app, concat_app, length_app. split; [apply Hback; by apply (adds_app _ _ _ s2)|lia].
  - injection Hfo as <-. cbn [concat] in *. rewrite app_nil_r in *. destruct (read_files_adds files s1 Hs1 Hlf Hf) as (s2 & -> & H2 & C2). cbn [mbind option_bind].
    exists s2. split; [done|]. split; [by apply Hback|lia].
Qed.

(** ** A whole run *)

Lemma add_keeps t d k : is_Some (d !! k) -> is_Some (add d t !! k).
Proof using Type. intros [v Hv]. unfold add. destruct t as [|c t]; [by exists v|]. destruct (d !! md5 (c :: t)) eqn:E; [by exists v|]. exists v. rewrite lookup_insert_ne; [done|]. by intros <-; rewrite E in Hv. Qed.

Lemma add_all_keeps ts : forall d k, is_Some (d !! k) -> is_Some (foldl add d ts !! k).
Proof using Type. induction ts as [|t ts IH]; intros d k Hk; [done|]. cbn [foldl]. by apply IH, add_keeps. Qed.

Lemma added ts : forall d t, t ∈ ts -> t <> [] -> is_Some (foldl add d ts !! md5 t).
Proof using Type.
  induction ts as [|x ts IH]; intros d t Hin Hn; [by apply not_elem_of_nil in Hin|]. cbn [foldl]. apply elem_of_cons in Hin as [<-|Hin]; [|by apply IH].
  apply add_all_keeps. unfold add. destruct t as [|c t]; [done|]. destruct (d !! md5 (c :: t)) eqn:E; [by rewrite E|]. rewrite lookup_insert_eq. by eexists.
Qed.

Lemma some_left l l' ts : wf l -> dict l' = foldl add (dict l) ts -> l <> [] \/ (exists t, t ∈ ts /\ t <> []) -> l' <> [].
Proof using Type.
  intros Hw Hd Hs ->. assert (exists k, is_Some (foldl add (dict l) ts !! k)) as [k Hk]; [|rewrite <- Hd in Hk; by destruct Hk].
  destruct Hs as [Hne|(t & Hin & Hn)]; [|exists (md5 t); by apply added]. destruct l as [|e r]; [done|]. exists (digest e). apply add_all_keeps.
  exists (string e). apply dict_lookup; [done|]. by apply elem_of_cons; left.
Qed.

(** The files of a target. *)
Definition target_files (depth : nat) (path : list Z) : option (list (list Z)) :=
  match stat path with Some Regular => Some [path] | Some Directory => found depth path | _ => None end.

Lemma target_adds depth path fs st : ready st -> o_listfile o = 0 -> target_files depth path = Some fs -> Forall (fun f => Forall text_ok (texts f)) fs ->
  exists st', adds (concat (map texts fs)) st st' /\ g_filecount st' = g_filecount st + zlen fs /\
    match stat path with
    | Some Regular => read_file ctx o texts path st = Some st'
    | Some Directory => read_directory ctx o scandir texts depth path st = Some (0, st')
    | _ => False
    end.
Proof using Hctx.
  intros Hs Hlf Ht Hf. unfold target_files in Ht. destruct (stat path) as [[]|]; try done.
  - injection Ht as <-. destruct (read_files_adds [path] st Hs Hlf Hf) as (s1 & E1 & H1 & C1). exists s1. split; [done|]. split; [done|].
    cbn [read_files] in E1. destruct (read_file ctx o texts path st); [|done]. by injection E1 as ->.
  - destruct (read_directory_adds depth path st fs Hs Hlf Ht Hf) as (s1 & E1 & H1 & C1). by exists s1.
Qed.

(** The run behind the options. *)
Lemma run_packs strerror depth w l path name fs old : o_targetpath o = Some path -> o_slpfile o = Some name -> o_listfile o = 0 ->
  target_files depth path = Some fs -> Forall (fun f => Forall text_ok (texts f)) fs ->
  wf l -> old = Some (pack_file w l) /\ printable o w \/ old = None /\ l = [] ->
  let ts := concat (map texts fs) in
  pack_size l + weight ts < 2 ^ 32 - 64 -> l <> [] \/ (exists t, t ∈ ts /\ t <> []) ->
  exists st l', run ctx o scandir stat texts strerror depth old true (start []) = Some (0, st, Some (pack_file o l')) /\
    wf l' /\ dict l' = foldl add (dict l) ts /\ pack_size l' < 2 ^ 32 - 64.
Proof using Hctx.
  intros Ht Hsl Hlf Hfs Hok Hw Hold ts Hsz Hsome. assert (0 <= weight ts) as Hts by apply weight_pos.
  assert (exists st0, read_sealpac ctx o strerror name old (start []) = Some st0 /\ g_i18n_strings st0 = l /\ answers st0 = []) as (st0 & E0 & L0 & M0).
  { destruct Hold as [[-> Hp]|[-> ->]]; [|by eexists]. destruct (read_back strerror w name l (start []) Hw ltac:(lia) Hp eq_refl eq_refl) as (s & E & L & M & _). by exists s. }
  destruct (target_adds depth path fs st0) as (s1 & H1 & C1 & R1); [by split; [rewrite L0|]|done|done|done|]. destruct H1 as [A1 A2 A3 A4]. fold ts in A2, A4. unfold list_strings_of in A4. rewrite L0 in A2, A4.
  set (s2 := say (cs "Number of files read : " ++ num (g_filecount s1) ++ [10]) s1).
  assert (pack_size (g_i18n_strings s1) < 2 ^ 32 - 64) as Hsz' by (unfold pack_size in *; lia).
  destruct (dumped strerror s2 path name) as (s3 & E3 & L3); [exact A1|exact A3|exact (some_left _ _ _ Hw A2 Hsome)|exact Hsz'|done|done|].
  exists (cleanup_exit o 0 s3), (g_i18n_strings s1). split; [|done]. unfold run. rewrite Hsl, E0. cbn [mbind option_bind]. rewrite Ht. destruct (stat path) as [[]|]; try done; rewrite R1; cbn [mbind option_bind snd]; fold s2; by rewrite E3.
Qed.
End Texts.

(** C21. A run of the program on a file or a directory, with the pack that it wrote before or without one, writes the pack of the list that holds
    what the old one held and every text that the pages have, each once, by the digests in order, of two texts with the same digest the
    first one; whoever reads this pack gets exactly this list. *)
Theorem sealpac_accumulates ctx scandir stat texts strerror depth seen o w l path name fs old :
  length (buffer ctx) = 64%nat -> parse_args seen no_options = Options o ->
  o_targetpath o = Some path -> o_slpfile o = Some name -> o_listfile o = 0 ->
  target_files o scandir stat depth path = Some fs -> Forall (fun f => Forall text_ok (texts f)) fs ->
  wf l -> old = Some (pack_file w l) /\ printable o w \/ old = None /\ l = [] ->
  let ts := concat (map texts fs) in
  pack_size l + weight ts < 2 ^ 32 - 64 -> l <> [] \/ (exists t, t ∈ ts /\ t <> []) ->
  exists st l', main ctx scandir stat texts strerror depth seen [] old true = Some (0, st, Some (pack_file o l')) /\
    wf l' /\ dict l' = foldl add (dict l) ts /\
    (forall r error n, printable r o -> exists st', read_sealpac ctx r error n (Some (pack_file o l')) (start []) = Some st' /\ g_i18n_strings st' = l').
Proof.
  intros Hc Hpa Ht Hs Hlf Hfs Hok Hw Hold ts Hsz Hsome.
  destruct (run_packs ctx o Hc scandir stat texts strerror depth w l path name fs old Ht Hs Hlf Hfs Hok Hw Hold Hsz Hsome) as (st & l' & E & Hw' & Hd & Hsz').
  exists st, l'. unfold main. rewrite Hpa. split_and!; [exact E|done|done|]. intros r error n Hp.
  destruct (read_back ctx r Hc error o n l' (start []) Hw' Hsz' Hp eq_refl eq_refl) as (st' & E' & L' & _). by exists st'.
Qed.

(** The name of a language with 16 characters leaves no room for its end: a reader that prints it reads beyond its array. *)
Theorem long_language_overread w n sum st : length sum = 16%nat -> Z.of_nat n < 2 ^ 32 -> 16 <= zlen (o_langcode w) -> Forall (fun c => c <> 0) (o_langcode w) ->
  dump_sealpac_hdr (sealpac_header w n sum) st = None.
Proof.
  intros Hs Hn Hl Hz. destruct (header_fields w n sum Hs Hn) as (_ & _ & _ & H4 & _). unfold dump_sealpac_hdr. rewrite H4. unfold lang_bytes.
  replace (16 - length (take 16 (o_langcode w)))%nat with 0%nat by (rewrite length_take; lia). cbn [replicate]. rewrite app_nil_r. destruct (existsb (Z.eqb 0) (take 16 (o_langcode w))) eqn:E; [|done].
  apply existsb_exists in E as (c & Hin & Hc). apply Z.eqb_eq in Hc. subst c. exfalso. rewrite List.Forall_forall in Hz. apply (Hz 0); [|done]. rewrite <- (take_drop 16 (o_langcode w)). apply in_app_iff. by left.
Qed.

(** ** A run *)

Definition some_ctx : MD5_CTX := mkctx (1, 2, 3, 4) 5 6 (replicate 64 7).

(** A directory with a page, a file of another type and a directory with a page. *)
Definition some_dir (path : list Z) : option (list (list Z * kind)) :=
  if bool_decide (path = cs "www") then Some [(cs ".", Directory); (cs "..", Directory); (cs "index.php", Regular); (cs "logo.gif", Regular); (cs "sub", Directory)]
  else if bool_decide (path = cs "www/sub") then Some [(cs ".", Directory); (cs "..", Directory); (cs "wan.php", Regular)]
  else None.

Definition some_texts (f : list Z) : list (list Z) :=
  if bool_decide (f = cs "www/index.php") then [cs "Login"; cs "Password"]
  else if bool_decide (f = cs "www/sub/wan.php") then [cs "Password"; cs "Static IP"]
  else [cs "no page"].

Definition some_args : list (Z * list Z) := [(100, cs "www"); (116, cs "php"); (114, []); (102, cs "en.slp")].
Definition some_options : options := mkopts 0 1 (Some (cs "www")) 0 [cs "php"] (cs "en") (Some (cs "en.slp")).

Definition some_main (old : option (list Z)) : option (Z * pac * option (list Z)) := main some_ctx some_dir (fun _ => Some Directory) some_texts [] 2 some_args [] old true.

Lemma sealpac_accumulates_witness : exists st l', some_main None = Some (0, st, Some (pack_file some_options l')) /\ wf l' /\
  dict l' = foldl add ∅ [cs "Login"; cs "Password"; cs "Password"; cs "Static IP"].
Proof.
  destruct (sealpac_accumulates some_ctx some_dir (fun _ => Some Directory) some_texts [] 2 some_args some_options no_options [] (cs "www") (cs "en.slp")
    [cs "www/index.php"; cs "www/sub/wan.php"] None) as (st & l' & H1 & H2 & H3 & _); [done|done|done|done|done|by vm_compute| |done || (split; constructor)|by right|by vm_compute| |].
  - repeat constructor; by vm_compute.
  - right. exists (cs "Login"). split; [by vm_compute; left|done].
  - exists st, l'. split; [exact H1|]. split; [exact H2|exact H3].
Defined.

(** The texts of the pack; the next run finds them there. *)
Example some_pack : match some_main None with
  | Some (code, st, Some file) => code = 0 /\ map string (g_i18n_strings st) = [cs "Static IP"; cs "Login"; cs "Password"] /\ option_map snd (some_main (Some file)) = Some (Some file)
  | _ => False
  end.
Proof. by vm_compute. Qed.
End Sealpac.
