(* ===== verification/Cvimg.v ===== *)
(** * tools/realtek/cvimg.c: the images that the boot loader takes.

    A file is read into a block behind a header, a checksum is put at its end, and the block is written.  The tool runs where the
    firmware is built, on a machine that keeps the low byte of a word first and has [long] with 64 bits; the fields of an image
    have the high byte first.  What [stat], [open], [read] and [malloc] answer are inputs, the output and the files are events, and
    [None] is undefined behaviour. *)
From Stdlib Require Import ZArith Lia Bool String.
From stdpp Require Import base tactics list option numbers.
From S2P Require Import Prelude Xmldb XmldbFile Lrgbin Rgdb Effects.

Module Cvimg.
Import Effects.
Import Xmldb (isspace).
Import Rgdb (num).

(** ** Words *)

(** [(int)v] *)
Definition s32 (v : Z) : Z := if u32 v <? 2 ^ 31 then u32 v else u32 v - 2 ^ 32.

Definition DWORD_SWAP (v : Z) : Z :=
  Z.lor (Z.lor (Z.lor (Z.land (Z.shiftl (Z.land v 0xff) 24) 0xff000000) (Z.land (Z.shiftl (Z.land (Z.shiftr v 8) 0xff) 16) 0xff0000))
    (Z.land (Z.shiftl (Z.land (Z.shiftr v 16) 0xff) 8) 0xff00)) (Z.land (Z.land (Z.shiftr v 24) 0xff) 0xff).

Definition WORD_SWAP (v : Z) : Z := u16 (Z.lor (Z.land (Z.shiftr v 8) 0xff) (Z.land (Z.shiftl v 8) 0xff00)).

(** A word in memory, the low byte first. *)
Fixpoint le_bytes (n : nat) (v : Z) : list Z := match n with O => [] | S n => v mod 256 :: le_bytes n (v / 256) end.
Fixpoint le_word (l : list Z) : Z := match l with [] => 0 | b :: l => b + 256 * le_word l end.

(** A store of bytes into a block. *)
Definition store (blk : list Z) (off : Z) (bs : list Z) : option (list Z) :=
  if off <? 0 then None else memcpy_at blk (Z.to_nat off) (length bs) bs.

(** ** Checksums *)

Fixpoint long_sum (buf : list Z) (j : nat) (sum : Z) {struct j} : option Z :=
  match j with
  | O => Some sum
  | S j =>
      match buf with
      | b0 :: b1 :: b2 :: b3 :: buf => long_sum buf j (u32 (sum + DWORD_SWAP (le_word [b0; b1; b2; b3])))
      | _ => None
      end
  end.

Definition calculate_long_checksum (buf : list Z) (len : Z) : option Z :=
  sum ← long_sum buf (Z.to_nat (Z.quot len 4)) 0;
  Some (u32 (not32 sum + 1)).

Fixpoint short_sum (buf : list Z) (j : nat) (sum : Z) {struct j} : option Z :=
  match j with
  | O => Some sum
  | S j =>
      match buf with
      | b0 :: b1 :: buf => short_sum buf j (u16 (sum + WORD_SWAP (le_word [b0; b1])))
      | _ => None
      end
  end.

Definition calculateChecksum (buf : list Z) (len : Z) : option Z :=
  sum ← short_sum buf (Z.to_nat (Z.quot len 2)) 0;
  sum ← (if Z.rem len 2 =? 0 then Some sum else b ← rd buf (len - 1); Some (u16 (sum + WORD_SWAP (u16 (schar b)))));
  Some (u16 (Z.lnot sum + 1)).

(** ** The arguments *)

(** [sscanf(s, "%s", buf)] into the 80 bytes of a name, which are 0 before. *)
Fixpoint word (s : list Z) : list Z := match s with [] => [] | c :: s => if isspace c then [] else c :: word s end.

Definition scan_name (s : list Z) : option (list Z) := let t := word (eat isspace s) in if zlen t <? 80 then Some t else None.

Definition hex_value (c : Z) : option Z :=
  if isdigit c then Some (c - 48) else if (97 <=? tolower c) && (tolower c <=? 102) then Some (tolower c - 87) else None.

Fixpoint hex_number (acc : Z) (s : list Z) : Z :=
  match s with
  | c :: s => match hex_value c with Some d => hex_number (acc * 16 + d) s | None => acc end
  | [] => acc
  end.

(** [sscanf(s, "%x", &v)]: [Some None] when there is no number and [v] is not set. *)
Definition scan_hex (s : list Z) : option (option Z) :=
  let t := eat isspace s in
  let '(neg, t) := match t with 45 :: r => (true, r) | 43 :: r => (false, r) | _ => (false, t) end in
  let t := match t with 48 :: x :: r => if tolower x =? 120 then r else t | _ => t end in
  match t with
  | c :: _ =>
      match hex_value c with
      | Some _ => let v := hex_number 0 t in if v <? 2 ^ 32 then Some (Some (u32 (if neg then - v else v))) else None
      | None => Some None
      end
  | [] => Some None
  end.

(** ** Output *)

Definition hex_digit (d : Z) : Z := if d <? 10 then 48 + d else 87 + d.

Fixpoint hex_rev (n : nat) (v : Z) : list Z :=
  match n with O => [] | S n => hex_digit (v mod 16) :: (if v / 16 =? 0 then [] else hex_rev n (v / 16)) end.

(** [%x] and [%08x] *)
Definition hex_text (v : Z) : list Z := rev (hex_rev 8 v).
Definition hex08 (v : Z) : list Z := replicate (8 - length (hex_text v)) 48 ++ hex_text v.

Inductive event := Printed (t : list Z) | Written (name : list Z) (file : list Z) | Mode (name : list Z).

Definition say (t : list Z) : logM event unit := tell (Printed (t ++ [10])).

(** [printf] and [exit(1)] *)
Definition die (t : list Z) : logM event Z := say t;; mret 1.

Definition printf_usage : logM event unit :=
  say (cs "Version: 1.1");;
  say (cs "Usage: cvimg <option> input-filename output-filename start-addr burn-addr [signature]");;
  say (cs "<option>: root|linux|boot|all|vmlinux|vmlinuxhdr|signature");;
  say (cs "[signature]: user-specified signature (4 characters)").

Definition cant_stat (inFile : list Z) : logM event Z := die (cs "Can't stat file! [" ++ inFile ++ cs "]").

Definition DEFAULT_BASE_ADDR : Z := 0x80000000.
(** The signatures of the header with [CONFIG_RTL_8198], which it defines itself. *)
Definition ROOT_HEADER : list Z := Eval cbv in cs "r6cr".
Definition BOOT_HEADER : list Z := Eval cbv in cs "boot".
Definition FW_HEADER : list Z := Eval cbv in cs "cs6c".
Definition FW_HEADER_WITH_ROOT : list Z := Eval cbv in cs "cs6c".
Definition SIGNATURE_LEN : nat := 4.

(** [sizeof(IMG_HEADER_T)]: the signature, [startAddr] at 4, [burnAddr] at 8 and [len] at 12; [sizeof(checksum)]. *)
Definition HEADER_SIZE : Z := 16.
Definition SIZE_OF_SQFS_SUPER_BLOCK : Z := 640.

(** [sizeof(Elf32_Ehdr)], and where [e_entry] is. *)
Definition EHDR_SIZE : nat := 52.
Definition E_ENTRY : nat := 24.

(** The system: the size [stat] gives, what is read from a file that can be opened, whether there is memory, and whether the
    output can be opened. *)
Record system := mksys {
  stat : list Z -> option Z;
  contents : list Z -> option (list Z);
  has_memory : Z -> bool;
  creates : list Z -> bool
}.

Inductive image := Vmlinux | Vmlinuxhdr (start_addr : Z) | Signed.

Section Program.
Context (sys : system).

Definition size_chk (arg2 arg3 : list Z) : logM event Z :=
  inFile ← lift (scan_name arg2);
  startAddr ← lift (scan_hex arg3);
  match stat sys inFile with
  | None => cant_stat inFile
  | Some st_size =>
      startAddr ← lift startAddr;
      say (cs "==============================================");;
      say (cs "Summary ==>");;
      say (cs "Image loading  addr          :0x" ++ hex_text startAddr);;
      say (cs "Image decompress end addr    :0x" ++ hex_text (u32 (DEFAULT_BASE_ADDR + u32 st_size)));;
      let total_size := u32 (startAddr - DEFAULT_BASE_ADDR) in
      if s32 total_size <? st_size then die (cs "Error!!!! : Kernel image decompress will overwirte load image")
      else say (cs "Available size               :0x" ++ hex08 (u32 (total_size - st_size)));; mret 0
  end.

(** The entry point of an ELF file, or the message of its error. *)
Definition extractStartAddr (filename : list Z) : list Z + Z :=
  match contents sys filename with
  | None => inl (cs "Open input file error2!")
  | Some file => if (length file <? EHDR_SIZE)%nat then inl (cs "Read file error2!") else inr (le_word (take 4 (drop E_ENTRY file)))
  end.

(** The size of the block, and [padding_len]. *)
Definition image_size (k : image) (st_size : Z) : option (Z * Z) :=
  match k with
  | Signed =>
      let size := s32 (st_size + HEADER_SIZE + 2) in
      size ← (if Z.rem size 2 =? 0 then Some size else int_of (size + 1));
      Some (size, 0)
  | _ =>
      let size := s32 (st_size + match k with Vmlinux => 8 | _ => 12 end) in
      let padding_len := u32 (4 - Z.rem size 4) in
      Some (s32 (size + padding_len), padding_len)
  end.

(** Where the contents of the file go. *)
Definition data_off (k : image) : Z := match k with Vmlinux => 4 | Vmlinuxhdr _ => 8 | Signed => HEADER_SIZE end.

Definition seal_vmlinux (blk : list Z) (size padding_len : Z) : option (list Z * Z) :=
  blk ← store blk 0 (le_bytes 4 (DWORD_SWAP padding_len));
  sum ← calculate_long_checksum (drop 4 blk) (size - 8);
  let lchecksum := DWORD_SWAP sum in
  blk ← store blk (4 + (size - 8)) (le_bytes 4 lchecksum);
  Some (blk, lchecksum).

Definition seal_vmlinuxhdr (start_addr : Z) (blk : list Z) (size padding_len : Z) : option (list Z * Z) :=
  blk ← store blk 0 (le_bytes 4 (DWORD_SWAP padding_len));
  blk ← store blk 4 (le_bytes 4 start_addr);
  sum ← calculate_long_checksum (drop 8 blk) (size - 12);
  let lchecksum := DWORD_SWAP sum in
  blk ← store blk (8 + (size - 12)) (le_bytes 4 lchecksum);
  Some (blk, lchecksum).

(** The bytes that the signature is copied from, with the end of the string. *)
Definition signature (argv : list (list Z)) (arg1 : list Z) : option (list Z) :=
  if bool_decide (arg1 = cs "root") then Some (ROOT_HEADER ++ [0])
  else if bool_decide (arg1 = cs "boot") then Some (BOOT_HEADER ++ [0])
  else if bool_decide (arg1 = cs "linux") then Some (FW_HEADER ++ [0])
  else if bool_decide (arg1 = cs "linux-ro") then Some (FW_HEADER_WITH_ROOT ++ [0])
  else if bool_decide (arg1 = cs "signature") then Some (nth 6 argv [] ++ [0])
  else None.

Definition seal_signed (arg1 sig : list Z) (startAddr burnAddr : option Z) (blk : list Z) (size st_size : Z) : option (list Z * Z) :=
  blk ← memcpy_at blk 0 SIGNATURE_LEN sig;
  blk ← store blk 12 (le_bytes 4 (DWORD_SWAP (size - HEADER_SIZE)));
  startAddr ← startAddr;
  blk ← store blk 4 (le_bytes 4 (DWORD_SWAP startAddr));
  burnAddr ← burnAddr;
  blk ← store blk 8 (le_bytes 4 (DWORD_SWAP burnAddr));
  blk ← (if bool_decide (arg1 = cs "root")
         then store blk (HEADER_SIZE + 8) (le_bytes 4 (DWORD_SWAP (size - HEADER_SIZE - 2 - SIZE_OF_SQFS_SUPER_BLOCK)))
         else Some blk);
  sum ← calculateChecksum (drop (Z.to_nat HEADER_SIZE) blk) (s32 st_size);
  let checksum := WORD_SWAP sum in
  blk ← store blk (HEADER_SIZE + (size - HEADER_SIZE - 2)) (le_bytes 2 checksum);
  Some (blk, checksum).

Definition finish (outFile blk report : list Z) : logM event Z :=
  if creates sys outFile then
    tell (Written outFile blk);;
    tell (Mode outFile);;
    say report;;
    mret 0
  else die (cs "Create output file error! [" ++ outFile ++ cs "]").

Definition made (length checksum : Z) : list Z := cs "Generate image successfully, length=" ++ num length ++ cs ", checksum=0x" ++ hex_text checksum.
Definition padded (padding_len : Z) : list Z := cs ", padding=" ++ num padding_len.

(** The part of [main] behind the allocation and the reading. *)
Definition seal (argv : list (list Z)) (arg1 outFile : list Z) (k : image) (startAddr burnAddr : option Z) (blk : list Z) (size padding_len st_size : Z) : logM event Z :=
  match k with
  | Vmlinuxhdr start_addr =>
      r ← lift (seal_vmlinuxhdr start_addr blk size padding_len);
      finish outFile (fst r) (made (s32 (size - 12 - padding_len)) (snd r) ++ padded padding_len ++ cs ", start address=0x" ++ hex08 (DWORD_SWAP start_addr))
  | Vmlinux =>
      r ← lift (seal_vmlinux blk size padding_len);
      finish outFile (fst r) (made (s32 (size - 8 - padding_len)) (snd r) ++ padded padding_len)
  | Signed =>
      match signature argv arg1 with
      | None => die (cs "not supported signature")
      | Some sig =>
          r ← lift (seal_signed arg1 sig startAddr burnAddr blk size st_size);
          finish outFile (fst r) (made (s32 (DWORD_SWAP (le_word (take 4 (drop 12 (fst r)))))) (snd r))
      end
  end.

Definition build (argv : list (list Z)) (arg1 inFile outFile : list Z) (k : image) (startAddr burnAddr : option Z) : logM event Z :=
  match stat sys inFile with
  | None => cant_stat inFile
  | Some st_size =>
      sp ← lift (image_size k st_size);
      let '(size, padding_len) := (sp : Z * Z) in
      if (size <? 0) || negb (has_memory sys size) then die (cs "Malloc buffer failed!")
      else
        let blk := replicate (Z.to_nat size) 0 in
        match contents sys inFile with
        | None => die (cs "Open input file error!")
        | Some file =>
            let got := take (Z.to_nat st_size) file in
            blk ← lift (store blk (data_off k) got);
            if zlen got =? st_size then seal argv arg1 outFile k startAddr burnAddr blk size padding_len st_size
            else die (cs "Read file error!")
        end
  end.

Definition convert (argv : list (list Z)) (arg1 : list Z) (k : image) : logM event Z :=
  inFile ← lift (scan_name (nth 2 argv []));
  outFile ← lift (scan_name (nth 3 argv []));
  match k with
  | Signed =>
      startAddr ← lift (scan_hex (nth 4 argv []));
      burnAddr ← lift (scan_hex (nth 5 argv []));
      build argv arg1 inFile outFile k startAddr burnAddr
  | _ => build argv arg1 inFile outFile k None None
  end.

(** [argv] with the name of the program; without an argument the null pointer behind it is compared. *)
Definition main (argv : list (list Z)) : logM event Z :=
  let argc := zlen argv in
  arg1 ← lift (argv !! 1%nat);
  if (argc =? 4) && bool_decide (arg1 = cs "size_chk") then size_chk (nth 2 argv []) (nth 3 argv [])
  else if (argc =? 4) && bool_decide (arg1 = cs "vmlinux") then convert argv arg1 Vmlinux
  else if (argc =? 5) && bool_decide (arg1 = cs "vmlinuxhdr") then
    match extractStartAddr (nth 4 argv []) with
    | inl message => die message
    | inr start_addr => convert argv arg1 (Vmlinuxhdr start_addr)
    end
  else if bool_decide (arg1 = cs "signature") then (if argc =? 7 then convert argv arg1 Signed else printf_usage;; mret 1)
  else if argc =? 6 then convert argv arg1 Signed
  else printf_usage;; mret 1.
End Program.

(** ** Words in both orders *)

Lemma length_le_bytes n : forall v, length (le_bytes n v) = n.
Proof. induction n as [|n IH]; intros v; [done|]. cbn [le_bytes length]. by rewrite IH. Qed.

Lemma le_word_bytes n : forall v, 0 <= v < 256 ^ Z.of_nat n -> le_word (le_bytes n v) = v.
Proof.
  induction n as [|n IH]; intros v Hv; [cbn in *; lia|]. cbn [le_bytes le_word]. rewrite IH.
  - pose proof (Z.div_mod v 256). lia.
  - rewrite Nat2Z.inj_succ, Z.pow_succ_r in Hv by lia. split; [apply Z.div_pos; lia|apply Z.div_lt_upper_bound; lia].
Qed.

Lemma le_bytes_word l : bytes l -> le_bytes (length l) (le_word l) = l.
Proof.
  induction l as [|b l IH]; intros H; [done|]. apply Forall_cons_iff in H as [Hb H]. unfold is_byte in Hb. cbn [length le_word le_bytes].
  replace ((b + 256 * le_word l) / 256) with (le_word l) by (Z.to_euclidean_division_equations; lia).
  replace ((b + 256 * le_word l) mod 256) with b by (Z.to_euclidean_division_equations; lia). by rewrite IH.
Qed.

Lemma le_bytes_4 v : le_bytes 4 v = [u8 v; u8 (Z.shiftr v 8); u8 (Z.shiftr v 16); u8 (Z.shiftr v 24)].
Proof. cbn [le_bytes]. rewrite !Z.shiftr_div_pow2, !Z.div_div by lia. reflexivity. Qed.

Lemma be_bytes_u8 v : be_bytes 4 v = [u8 (Z.shiftr v 24); u8 (Z.shiftr v 16); u8 (Z.shiftr v 8); u8 v].
Proof. cbn [be_bytes app]. rewrite !Z.shiftr_div_pow2, !Z.div_div by lia. reflexivity. Qed.

(** What is written after a swap has the high byte first. *)
Lemma swap_bytes_4 v : le_bytes 4 (DWORD_SWAP v) = be_bytes 4 v.
Proof. rewrite le_bytes_4, be_bytes_u8. unfold DWORD_SWAP, u8. repeat apply (f_equal2 cons); try reflexivity; bitwise 8%nat. Qed.

Lemma swap_bytes_2 v : le_bytes 2 (WORD_SWAP v) = be_bytes 2 v.
Proof.
  transitivity [u8 (WORD_SWAP v); u8 (Z.shiftr (WORD_SWAP v) 8)]; [cbn [le_bytes]; by rewrite Z.shiftr_div_pow2|].
  transitivity [u8 (Z.shiftr v 8); u8 v]; [|cbn [be_bytes app]; by rewrite Z.shiftr_div_pow2].
  unfold WORD_SWAP, u8, u16. repeat apply (f_equal2 cons); try reflexivity; bitwise 8%nat.
Qed.

Lemma mask_range n x y : 0 <= n -> 0 <= y < 2 ^ n -> 0 <= Z.land x y < 2 ^ n.
Proof.
  intros Hn Hy. assert (0 <= Z.land x y) as H by (apply Z.land_nonneg; right; lia). split; [exact H|]. apply bit_range; [done| |exact H].
  intros i Hi. rewrite Z.land_spec, (testbit_high n y i) by done. apply andb_false_r.
Qed.

Lemma dword_swap_bound v : 0 <= DWORD_SWAP v < 2 ^ 32.
Proof. unfold DWORD_SWAP. repeat apply (lor_range 32); try (apply mask_range); lia. Qed.

Lemma word_swap_bound v : 0 <= WORD_SWAP v < 2 ^ 16.
Proof. unfold WORD_SWAP, u16. apply Z.mod_pos_bound. lia. Qed.

Lemma dword_swap_word a b c d : bytes [a; b; c; d] -> DWORD_SWAP (le_word [a; b; c; d]) = be_word [a; b; c; d].
Proof.
  intros H. rewrite <- (le_word_bytes 4 (DWORD_SWAP _)) by apply dword_swap_bound. rewrite swap_bytes_4.
  repeat (apply Forall_cons_iff in H as [? H]). unfold is_byte in *. unfold be_word. cbn [be_bytes app le_word foldl]. Z.to_euclidean_division_equations. lia.
Qed.

Lemma word_swap_word a b : bytes [a; b] -> WORD_SWAP (le_word [a; b]) = be_word [a; b].
Proof.
  intros H. rewrite <- (le_word_bytes 2 (WORD_SWAP _)) by apply word_swap_bound. rewrite swap_bytes_2.
  repeat (apply Forall_cons_iff in H as [? H]). unfold is_byte in *. unfold be_word. cbn [be_bytes app le_word foldl]. Z.to_euclidean_division_equations. lia.
Qed.

(** ** What the loader adds up: the words of an image, the high byte first *)

Fixpoint be_sum2 (l : list Z) : Z := match l with a :: b :: l => be_word [a; b] + be_sum2 l | _ => 0 end.
Fixpoint be_sum4 (l : list Z) : Z := match l with a :: b :: c :: d :: l => be_word [a; b; c; d] + be_sum4 l | _ => 0 end.

(** Lists whose length is a multiple of 4, or of 2, one word at a time. *)
Lemma words_4 (P : nat -> list Z -> Prop) :
  P 0%nat [] -> (forall j a b c d l, length l = (4 * j)%nat -> P j l -> P (S j) (a :: b :: c :: d :: l)) -> forall j l, length l = (4 * j)%nat -> P j l.
Proof.
  intros H0 Hs. induction j as [|j IH]; intros l Hl; [by destruct l|].
  destruct l as [|a [|b [|c [|d l]]]]; cbn in Hl; try lia. apply Hs; [lia|]. apply IH. lia.
Qed.

Lemma words_2 (P : nat -> list Z -> Prop) :
  P 0%nat [] -> (forall j a b l, length l = (2 * j)%nat -> P j l -> P (S j) (a :: b :: l)) -> forall j l, length l = (2 * j)%nat -> P j l.
Proof.
  intros H0 Hs. induction j as [|j IH]; intros l Hl; [by destruct l|].
  destruct l as [|a [|b l]]; cbn in Hl; try lia. apply Hs; [lia|]. apply IH. lia.
Qed.

Lemma be_sum4_app j l r : length l = (4 * j)%nat -> be_sum4 (l ++ r) = be_sum4 l + be_sum4 r.
Proof.
  intros Hl. revert j l Hl. apply (words_4 (fun _ l => be_sum4 (l ++ r) = be_sum4 l + be_sum4 r)); [done|]. intros j a b c d l _ IH. cbn [app be_sum4]. rewrite IH. lia.
Qed.

Lemma be_sum2_app j l r : length l = (2 * j)%nat -> be_sum2 (l ++ r) = be_sum2 l + be_sum2 r.
Proof.
  intros Hl. revert j l Hl. apply (words_2 (fun _ l => be_sum2 (l ++ r) = be_sum2 l + be_sum2 r)); [done|]. intros j a b l _ IH. cbn [app be_sum2]. rewrite IH. lia.
Qed.

Lemma long_sum_ok j l : length l = (4 * j)%nat -> forall rest sum, bytes l -> 0 <= sum < 2 ^ 32 -> long_sum (l ++ rest) j sum = Some (u32 (sum + be_sum4 l)).
Proof.
  revert j l. apply (words_4 (fun j l => forall rest sum, bytes l -> 0 <= sum < 2 ^ 32 -> long_sum (l ++ rest) j sum = Some (u32 (sum + be_sum4 l)))).
  - intros rest sum _ Hs. cbn [app long_sum be_sum4]. by rewrite Z.add_0_r, u32_small.
  - intros j a b c d l _ IH rest sum Hb Hs. change (bytes ([a; b; c; d] ++ l)) in Hb. apply Forall_app in Hb as [Hw Hb]. cbn [app long_sum be_sum4].
    rewrite dword_swap_word by done. rewrite IH by (try done; unfold u32; apply Z.mod_pos_bound; lia). f_equal. unfold u32.
    by rewrite Zplus_mod_idemp_l, Z.add_assoc.
Qed.

Lemma short_sum_ok j l : length l = (2 * j)%nat -> forall rest sum, bytes l -> 0 <= sum < 2 ^ 16 -> short_sum (l ++ rest) j sum = Some (u16 (sum + be_sum2 l)).
Proof.
  revert j l. apply (words_2 (fun j l => forall rest sum, bytes l -> 0 <= sum < 2 ^ 16 -> short_sum (l ++ rest) j sum = Some (u16 (sum + be_sum2 l)))).
  - intros rest sum _ Hs. cbn [app short_sum be_sum2]. unfold u16. by rewrite Z.add_0_r, Z.mod_small.
  - intros j a b l _ IH rest sum Hb Hs. change (bytes ([a; b] ++ l)) in Hb. apply Forall_app in Hb as [Hw Hb]. cbn [app short_sum be_sum2].
    rewrite word_swap_word by done. rewrite IH by (try done; unfold u16; apply Z.mod_pos_bound; lia). f_equal. unfold u16.
    by rewrite Zplus_mod_idemp_l, Z.add_assoc.
Qed.

(** The sum of the words and their checksum is 0. *)
Lemma long_checksum_ok j l rest : length l = (4 * j)%nat -> bytes l ->
  exists ck, calculate_long_checksum (l ++ rest) (zlen l) = Some ck /\ 0 <= ck < 2 ^ 32 /\ (be_sum4 l + ck) mod 2 ^ 32 = 0.
Proof.
  intros Hl Hb. unfold calculate_long_checksum. rewrite Hl. replace (Z.quot (Z.of_nat (4 * j)) 4) with (Z.of_nat j) by (Z.to_euclidean_division_equations; lia).
  rewrite Nat2Z.id, (long_sum_ok j l Hl) by (done || lia). cbn [mbind option_bind]. eexists. split; [reflexivity|]. rewrite Z.add_0_l. unfold not32, u32.
  split; [apply Z.mod_pos_bound; lia|]. Z.to_euclidean_division_equations. lia.
Qed.

(** The byte that fills the last word, and what the checksum of an odd number of bytes has too much: the last byte is extended
    with its sign. *)
Definition pad (data : list Z) : list Z := if Z.even (zlen data) then [] else [0].
Definition excess (data : list Z) : Z := if negb (Z.even (zlen data)) && (128 <=? List.last data 0) then 255 else 0.

Lemma odd_split {A} (l : list A) : Z.even (zlen l) = false -> exists j l' b, l = l' ++ [b] /\ length l' = (2 * j)%nat.
Proof.
  intros H. destruct (Nat.Even_or_Odd (length l)) as [[j Hj]|[j Hj]]; [by rewrite Hj, Nat2Z.inj_mul, Z.even_mul in H|].
  destruct l as [|b l _] using rev_ind; [done|]. exists j, l, b. split; [done|]. rewrite length_app in Hj. cbn in Hj. lia.
Qed.

Lemma even_split {A} (l : list A) : Z.even (zlen l) = true -> exists j, length l = (2 * j)%nat.
Proof.
  intros H. destruct (Nat.Even_or_Odd (length l)) as [[j Hj]|[j Hj]]; [by exists j|].
  by rewrite Hj, Nat2Z.inj_add, Nat2Z.inj_mul, Z.even_add, Z.even_mul in H.
Qed.

(** The checksum of the bytes [data], at the end of the words that they fill. *)
Lemma checksum_ok data rest : bytes data ->
  exists ck, calculateChecksum (data ++ rest) (zlen data) = Some ck /\ 0 <= ck < 2 ^ 16 /\ (be_sum2 (data ++ pad data) + ck + excess data) mod 2 ^ 16 = 0.
Proof.
  intros Hb. unfold calculateChecksum, pad, excess. destruct (Z.even (zlen data)) eqn:E; cbn [negb andb].
  - destruct (even_split data E) as [j Hj]. rewrite app_nil_r, Hj. replace (Z.quot (Z.of_nat (2 * j)) 2) with (Z.of_nat j) by (Z.to_euclidean_division_equations; lia).
    replace (Z.rem (Z.of_nat (2 * j)) 2) with 0 by (Z.to_euclidean_division_equations; lia). rewrite Nat2Z.id, (short_sum_ok j data Hj) by (done || lia).
    cbn. eexists. split; [reflexivity|]. unfold u16, Z.lnot. split; [apply Z.mod_pos_bound; lia|]. Z.to_euclidean_division_equations. lia.
  - destruct (odd_split data E) as (j & d & b & -> & Hj). apply Forall_app in Hb as [Hb Hw]. apply Forall_cons_iff in Hw as [Hw _]. unfold is_byte in Hw.
    replace (zlen (d ++ [b])) with (2 * Z.of_nat j + 1) by (rewrite length_app; cbn; lia).
    replace (Z.quot (2 * Z.of_nat j + 1) 2) with (Z.of_nat j) by (Z.to_euclidean_division_equations; lia).
    replace (Z.rem (2 * Z.of_nat j + 1) 2) with 1 by (Z.to_euclidean_division_equations; lia).
    rewrite <- !app_assoc, Nat2Z.id, (short_sum_ok j d Hj) by (done || lia). cbn [app mbind option_bind Z.eqb].
    rewrite rd_app by lia. cbn [mbind option_bind]. eexists. split; [reflexivity|]. unfold u16 at 1. split; [apply Z.mod_pos_bound; lia|].
    rewrite (be_sum2_app j) by done. cbn [app be_sum2]. rewrite List.last_last.
    assert (WORD_SWAP (u16 (schar b)) = be_word [b; 0] + (if 128 <=? b then 255 else 0)) as ->.
    { clear - Hw. apply Z.eqb_eq. revert b Hw. refine (check_range (fun b => WORD_SWAP (u16 (schar b)) =? be_word [b; 0] + (if 128 <=? b then 255 else 0)) 256 _). by vm_compute. }
    unfold u16, Z.lnot. Z.to_euclidean_division_equations. lia.
Qed.

(** ** The images *)

Lemma store_at blk a old c off bs : blk = a ++ old ++ c -> off = zlen a -> length old = length bs -> store blk off bs = Some (a ++ bs ++ c).
Proof.
  intros -> -> Hl. unfold store. rewrite (proj2 (Z.ltb_ge _ _)) by lia. rewrite Nat2Z.id, memcpy_at_ok by (rewrite ?length_app; lia).
  rewrite take_app_length, firstn_all, <- Hl, drop_app_add', drop_app_length by done. done.
Qed.

Lemma s32_small v : - 2 ^ 31 <= v < 2 ^ 31 -> s32 v = v.
Proof. intros Hv. unfold s32, u32. destruct (Z.ltb_spec (v mod 2 ^ 32) (2 ^ 31)); Z.to_euclidean_division_equations; lia. Qed.

(** The bytes behind the header: the image of a root file system gets its length without the super block in bytes 8 to 11. *)
Definition body (arg1 data : list Z) : list Z :=
  if bool_decide (arg1 = cs "root") then take 8 data ++ be_bytes 4 (zlen (data ++ pad data) - SIZE_OF_SQFS_SUPER_BLOCK) ++ drop 12 data else data.

Definition payload (arg1 data : list Z) (ck : Z) : list Z := body arg1 data ++ pad data ++ be_bytes 2 ck.

Definition header (sig : list Z) (startAddr burnAddr : Z) (payload : list Z) : list Z :=
  take SIGNATURE_LEN sig ++ be_bytes 4 startAddr ++ be_bytes 4 burnAddr ++ be_bytes 4 (zlen payload).

Definition fits (arg1 data : list Z) : Prop := bytes data /\ zlen data < 2 ^ 31 - 32 /\ (arg1 = cs "root" -> 12 <= zlen data).

Lemma length_body arg1 data : fits arg1 data -> length (body arg1 data) = length data.
Proof.
  intros (_ & _ & Hr). unfold body. case_bool_decide as E; [|done]. specialize (Hr E). rewrite !length_app, length_take, length_drop, length_be_bytes. lia.
Qed.

Lemma body_bytes arg1 data : fits arg1 data -> bytes (body arg1 data).
Proof.
  intros (Hb & _). unfold body. case_bool_decide; [|done]. apply Forall_app. split; [by apply Forall_take|]. apply Forall_app. split; [apply be_bytes_bytes|by apply Forall_drop].
Qed.

Lemma pad_length data data' : length data = length data' -> pad data = pad data'.
Proof. unfold pad. by intros ->. Qed.

Lemma pad_even data : exists j, length (data ++ pad data) = (2 * j)%nat.
Proof.
  unfold pad. destruct (Z.even (zlen data)) eqn:E; [rewrite app_nil_r; by apply even_split|]. destruct (odd_split data E) as (j & l & b & -> & Hj).
  exists (S j). rewrite !length_app. cbn. lia.
Qed.

Definition sized (data : list Z) : Z := HEADER_SIZE + zlen (data ++ pad data) + 2.

(** The stores of the header, the length of a root file system and the checksum. *)
Lemma seal_signed_ok arg1 sig startAddr burnAddr data : fits arg1 data -> (SIGNATURE_LEN <= length sig)%nat ->
  exists ck, seal_signed arg1 sig (Some startAddr) (Some burnAddr) (replicate 16 0 ++ data ++ pad data ++ [0; 0]) (sized data) (zlen data) =
      Some (header sig startAddr burnAddr (payload arg1 data ck) ++ payload arg1 data ck, WORD_SWAP ck) /\
    0 <= ck < 2 ^ 16 /\ (be_sum2 (body arg1 data ++ pad data) + ck + excess (body arg1 data)) mod 2 ^ 16 = 0.
Proof.
  intros Hf Hs. pose proof (length_body arg1 data Hf) as Hl. pose proof Hf as (Hb & Hn & Hr).
  destruct (checksum_ok (body arg1 data) (pad data ++ [0; 0]) (body_bytes arg1 data Hf)) as (ck & Eck & Hck & Hsum).
  rewrite (pad_length _ data Hl) in Hsum. exists ck. split; [|done]. unfold seal_signed, sized, HEADER_SIZE in *.
  assert (length (take 4 sig) = 4%nat) as Ht by (rewrite length_take; unfold SIGNATURE_LEN in Hs; lia).
  eapply bind_to; [apply memcpy_at_ok; [rewrite !length_app, length_replicate; unfold SIGNATURE_LEN; lia|done]|].
  change (take 0 _) with (@nil Z). change (drop (0 + SIGNATURE_LEN) (replicate 16 0 ++ ?x)) with (replicate 4 0 ++ replicate 4 0 ++ replicate 4 0 ++ x).
  unfold SIGNATURE_LEN. cbn [app]. rewrite swap_bytes_4.
  eapply bind_to; [apply (store_at _ (take 4 sig ++ replicate 4 0 ++ replicate 4 0) (replicate 4 0)); [by rewrite <- !app_assoc|rewrite !length_app, Ht; done|done]|].
  cbn [mbind option_bind]. rewrite !swap_bytes_4.
  eapply bind_to; [apply (store_at _ (take 4 sig) (replicate 4 0)); [by rewrite <- !app_assoc|rewrite Ht; done|done]|].
  eapply bind_to; [apply (store_at _ (take 4 sig ++ be_bytes 4 startAddr) (replicate 4 0)); [by rewrite <- !app_assoc|rewrite length_app, Ht, length_be_bytes; done|done]|].
  set (h := (take 4 sig ++ be_bytes 4 startAddr) ++ be_bytes 4 burnAddr ++ be_bytes 4 (16 + zlen (data ++ pad data) + 2 - 16)).
  assert (length h = 16%nat) as Hh by (unfold h; rewrite !length_app, Ht, !length_be_bytes; done).
  eapply (bind_to _ (h ++ body arg1 data ++ pad data ++ [0; 0])).
  { unfold body. case_bool_decide as E; [|unfold h; by rewrite <- !app_assoc]. specialize (Hr E).
    rewrite (store_at _ (h ++ take 8 data) (take 4 (drop 8 data)) (drop 12 data ++ pad data ++ [0; 0])).
    - unfold SIZE_OF_SQFS_SUPER_BLOCK. replace (16 + zlen (data ++ pad data) + 2 - 16 - 2 - 640) with (zlen (data ++ pad data) - 640) by lia. by rewrite <- !app_assoc.
    - unfold h. rewrite <- !app_assoc. do 4 f_equal. rewrite !app_assoc. do 2 f_equal. rewrite <- app_assoc. change 12%nat with (8 + 4)%nat. by rewrite <- drop_drop, !take_drop.
    - rewrite length_app, Hh, length_take. lia.
    - rewrite length_take, length_drop, length_be_bytes. lia. }
  change (Z.to_nat 16) with 16%nat. rewrite <- Hh, drop_app_length, s32_small by lia. rewrite <- Hl.
  eapply bind_to; [exact Eck|]. rewrite swap_bytes_2.
  eapply bind_to; [apply (store_at _ (h ++ body arg1 data ++ pad data) [0; 0] []); [by rewrite app_nil_r, <- !app_assoc|rewrite !length_app, Hh; lia|by rewrite length_be_bytes]|].
  unfold header, payload, h. replace (zlen (body arg1 data ++ pad data ++ be_bytes 2 ck)) with (16 + zlen (data ++ pad data) + 2 - 16) by (rewrite !length_app, length_be_bytes, Hl; lia).
  by rewrite app_nil_r, <- !app_assoc.
Qed.

(** The number of bytes that fill a kernel: one to four. *)
Definition filling (n : Z) : Z := 4 - n mod 4.

Definition kernel (data : list Z) : list Z := data ++ replicate (Z.to_nat (filling (zlen data))) 0.

Lemma kernel_words data : exists j, length (kernel data) = (4 * j)%nat.
Proof.
  exists (Z.to_nat (zlen data / 4 + 1)). unfold kernel, filling. rewrite length_app, length_replicate. Z.to_euclidean_division_equations. lia.
Qed.

Lemma kernel_length data : zlen (kernel data) = zlen data + filling (zlen data).
Proof. unfold kernel. rewrite length_app, length_replicate. unfold filling. Z.to_euclidean_division_equations. lia. Qed.

Lemma kernel_bytes data : bytes data -> bytes (kernel data).
Proof. intros H. unfold kernel. apply Forall_app. split; [done|]. apply List.Forall_forall. intros x Hx. apply repeat_spec in Hx || (apply list_elem_of_In, elem_of_replicate in Hx as [-> _]). done. Qed.

Lemma seal_vmlinux_ok data p : bytes data ->
  exists ck, seal_vmlinux (replicate 4 0 ++ kernel data ++ replicate 4 0) (zlen (kernel data) + 8) p = Some (be_bytes 4 p ++ kernel data ++ be_bytes 4 ck, DWORD_SWAP ck) /\
    0 <= ck < 2 ^ 32 /\ (be_sum4 (kernel data) + ck) mod 2 ^ 32 = 0.
Proof.
  intros Hb. destruct (kernel_words data) as [j Hj]. destruct (long_checksum_ok j (kernel data) (replicate 4 0) Hj (kernel_bytes data Hb)) as (ck & Eck & Hck).
  exists ck. split; [|done]. unfold seal_vmlinux. rewrite swap_bytes_4.
  eapply bind_to; [apply (store_at _ [] (replicate 4 0)); done|]. replace (zlen (kernel data) + 8 - 8) with (zlen (kernel data)) by lia.
  eapply bind_to; [cbn [app]; rewrite drop_app_length' by (by rewrite length_be_bytes); exact Eck|]. rewrite swap_bytes_4.
  eapply bind_to; [apply (store_at _ (be_bytes 4 p ++ kernel data) (replicate 4 0) []); [by rewrite app_nil_r, <- app_assoc|rewrite length_app, length_be_bytes; lia|by rewrite length_be_bytes]|].
  by rewrite app_nil_r, <- app_assoc.
Qed.

Lemma seal_vmlinuxhdr_ok entry data p : bytes data -> bytes entry -> length entry = 4%nat ->
  exists ck, seal_vmlinuxhdr (le_word entry) (replicate 8 0 ++ kernel data ++ replicate 4 0) (zlen (kernel data) + 12) p =
      Some (be_bytes 4 p ++ entry ++ kernel data ++ be_bytes 4 ck, DWORD_SWAP ck) /\
    0 <= ck < 2 ^ 32 /\ (be_sum4 (kernel data) + ck) mod 2 ^ 32 = 0.
Proof.
  intros Hb He Hl. destruct (kernel_words data) as [j Hj]. destruct (long_checksum_ok j (kernel data) (replicate 4 0) Hj (kernel_bytes data Hb)) as (ck & Eck & Hck).
  exists ck. split; [|done]. unfold seal_vmlinuxhdr. rewrite swap_bytes_4. replace (le_bytes 4 (le_word entry)) with entry by (rewrite <- Hl; by rewrite le_bytes_word).
  change (replicate 8 0 ++ ?x) with (replicate 4 0 ++ replicate 4 0 ++ x).
  eapply bind_to; [apply (store_at _ [] (replicate 4 0)); done|]. cbn [app].
  eapply bind_to; [apply (store_at _ (be_bytes 4 p) (replicate 4 0)); [done|by rewrite length_be_bytes|by rewrite Hl]|].
  replace (zlen (kernel data) + 12 - 12) with (zlen (kernel data)) by lia.
  eapply bind_to; [rewrite app_assoc, drop_app_length' by (by rewrite length_app, length_be_bytes, Hl); exact Eck|]. rewrite swap_bytes_4.
  eapply bind_to; [apply (store_at _ (be_bytes 4 p ++ entry ++ kernel data) (replicate 4 0) []); [by rewrite app_nil_r, <- !app_assoc|rewrite !length_app, length_be_bytes, Hl; lia|by rewrite length_be_bytes]|].
  by rewrite app_nil_r, <- !app_assoc.
Qed.

(** ** Runs *)

(** The argument names a file that can be read, and there is memory. *)
Record reads (sys : system) (arg name data : list Z) : Prop := {
  r_name : scan_name arg = Some name;
  r_stat : stat sys name = Some (zlen data);
  r_file : contents sys name = Some data;
  r_memory : forall n, has_memory sys n = true
}.

Lemma build_reads sys argv arg1 arg name data outFile k sa ba size p n l : reads sys arg name data -> image_size k (zlen data) = Some (size, p) -> size = data_off k + zlen data + Z.of_nat n ->
  build sys argv arg1 name outFile k sa ba l = seal sys argv arg1 outFile k sa ba (replicate (Z.to_nat (data_off k)) 0 ++ data ++ replicate n 0) size p (zlen data) l.
Proof.
  intros [_ Hst Hf Hm] Hs Hsz. assert (0 <= data_off k) as Hk by (destruct k; cbn; unfold HEADER_SIZE; lia). unfold build. rewrite Hst, (log_lift _ _ _ _ Hs). cbn beta iota.
  rewrite (proj2 (Z.ltb_ge _ _)), Hm, Hf by lia. cbn [negb orb]. rewrite Nat2Z.id, firstn_all, Z.eqb_refl. erewrite log_lift; [reflexivity|]. apply (store_at _ _ (replicate (length data) 0)).
  - rewrite <- !replicate_add. f_equal. lia.
  - rewrite length_replicate. lia.
  - by rewrite length_replicate.
Qed.

Lemma finish_ok sys outFile blk report l : creates sys outFile = true -> finish sys outFile blk report l = Some (0, l ++ [Written outFile blk; Mode outFile; Printed (report ++ [10])]).
Proof. intros Hc. unfold finish, say. rewrite Hc, !log_tell, log_ret. by rewrite <- !app_assoc. Qed.

Lemma image_size_signed data : zlen data < 2 ^ 31 - 32 -> image_size Signed (zlen data) = Some (sized data, 0).
Proof.
  intros Hn. unfold image_size, sized, pad, HEADER_SIZE. rewrite s32_small by lia. destruct (Z.even (zlen data)) eqn:E.
  - destruct (even_split data E) as [j Hj]. replace (Z.rem (zlen data + 16 + 2) 2) with 0 by (Z.to_euclidean_division_equations; lia). cbn. rewrite app_nil_r. f_equal. f_equal. lia.
  - destruct (odd_split data E) as (j & d & b & -> & Hj). rewrite !length_app in *. cbn [length] in *. replace (Z.rem _ 2) with 1 by (Z.to_euclidean_division_equations; lia).
    cbn [Z.eqb]. rewrite int_of_ok by (unfold INT_MAX; lia). cbn. f_equal. f_equal. lia.
Qed.

Lemma image_size_vmlinux data : zlen data < 2 ^ 31 - 32 -> image_size Vmlinux (zlen data) = Some (zlen (kernel data) + 8, filling (zlen data)).
Proof.
  intros Hn. rewrite kernel_length. unfold image_size, filling. rewrite (s32_small (zlen data + 8)) by lia.
  replace (4 - Z.rem (zlen data + 8) 4) with (4 - zlen data mod 4) by (Z.to_euclidean_division_equations; lia).
  pose proof (Z.mod_pos_bound (zlen data) 4 ltac:(lia)). rewrite u32_small, s32_small by lia. f_equal. f_equal. lia.
Qed.

Lemma image_size_vmlinuxhdr a data : zlen data < 2 ^ 31 - 32 -> image_size (Vmlinuxhdr a) (zlen data) = Some (zlen (kernel data) + 12, filling (zlen data)).
Proof.
  intros Hn. rewrite kernel_length. unfold image_size, filling. rewrite (s32_small (zlen data + 12)) by lia.
  replace (4 - Z.rem (zlen data + 12) 4) with (4 - zlen data mod 4) by (Z.to_euclidean_division_equations; lia).
  pose proof (Z.mod_pos_bound (zlen data) 4 ltac:(lia)). rewrite u32_small, s32_small by lia. f_equal. f_equal. lia.
Qed.

(** The number of arguments of the images with a signature, and the signature. *)
Definition signed_args (argv : list (list Z)) (arg1 sig : list Z) : Prop :=
  argv !! 1%nat = Some arg1 /\ signature argv arg1 = Some sig /\ zlen argv = (if bool_decide (arg1 = cs "signature") then 7 else 6).

Lemma main_signed sys argv arg1 sig l : signed_args argv arg1 sig -> main sys argv l = convert sys argv arg1 Signed l.
Proof.
  intros (H1 & _ & Hn). unfold main. rewrite (log_lift _ _ _ _ H1). rewrite Hn. by case_bool_decide.
Qed.

Lemma convert_signed sys argv arg1 name out start burn : scan_name (nth 2 argv []) = Some name -> scan_name (nth 3 argv []) = Some out ->
  scan_hex (nth 4 argv []) = Some (Some start) -> scan_hex (nth 5 argv []) = Some (Some burn) ->
  forall l, convert sys argv arg1 Signed l = build sys argv arg1 name out Signed (Some start) (Some burn) l.
Proof.
  intros H2 H3 H4 H5 l. unfold convert. rewrite (log_lift _ _ _ _ H2), (log_lift _ _ _ _ H3), (log_lift _ _ _ _ H4), (log_lift _ _ _ _ H5). done.
Qed.

(** The field [len] of an image. *)
Lemma header_len sig start burn p rest : (SIGNATURE_LEN <= length sig)%nat -> zlen p < 2 ^ 31 -> s32 (DWORD_SWAP (le_word (take 4 (drop 12 (header sig start burn p ++ rest))))) = zlen p.
Proof.
  intros Hs Hp. unfold header. assert (length (take SIGNATURE_LEN sig) = 4%nat) as Ht by (rewrite length_take; unfold SIGNATURE_LEN in *; lia).
  rewrite <- !app_assoc, (app_assoc _ (be_bytes 4 start)), (app_assoc _ (be_bytes 4 burn)), drop_app_length' by (rewrite !length_app, Ht, !length_be_bytes; done).
  rewrite take_app_length' by (symmetry; apply length_be_bytes). rewrite be_bytes_u8. cbn [app].
  rewrite dword_swap_word by (repeat constructor; apply u8_byte). rewrite <- be_bytes_u8, be_word_bytes by (change (256 ^ Z.of_nat 4) with (2 ^ 32); lia). apply s32_small. lia.
Qed.

(** The words behind the header add up to 0, or to 0xff01 after an odd number of bytes of which the last is negative as a [char]. *)
Lemma payload_sum arg1 data ck : fits arg1 data -> 0 <= ck < 2 ^ 16 -> (be_sum2 (body arg1 data ++ pad data) + ck + excess (body arg1 data)) mod 2 ^ 16 = 0 ->
  be_sum2 (payload arg1 data ck) mod 2 ^ 16 = - excess (body arg1 data) mod 2 ^ 16.
Proof.
  intros Hf Hck Hsum. destruct (pad_even (body arg1 data)) as [j Hj]. rewrite (pad_length _ data (length_body _ _ Hf)) in Hj.
  unfold payload. rewrite app_assoc, (be_sum2_app j) by done. cbn [be_bytes app be_sum2].
  replace (be_word [(ck / 256) mod 256; ck mod 256]) with ck by (unfold be_word; cbn [foldl]; Z.to_euclidean_division_equations; lia).
  Z.to_euclidean_division_equations. lia.
Qed.

(** C22. An image with a signature is the header (the signature, the two addresses and the length, the high byte first), the file,
    filled to a whole number of words, and a checksum; in a root file system bytes 8 to 11 hold its length without the super
    block.  The words behind the header add up to 0, as the loader wants, exactly when the file has an even number of bytes or its
    last byte is below 128: the checksum of an odd file takes the last byte with its sign. *)
Theorem firmware_image sys argv arg1 sig name data out start burn l :
  signed_args argv arg1 sig -> (SIGNATURE_LEN <= length sig)%nat -> fits arg1 data ->
  reads sys (nth 2 argv []) name data -> scan_name (nth 3 argv []) = Some out -> creates sys out = true ->
  scan_hex (nth 4 argv []) = Some (Some start) -> scan_hex (nth 5 argv []) = Some (Some burn) ->
  exists ck, let p := payload arg1 data ck in
    main sys argv l = Some (0, l ++ [Written out (header sig start burn p ++ p); Mode out; Printed (made (zlen p) (WORD_SWAP ck) ++ [10])]) /\
    Z.even (zlen p) = true /\ (be_sum2 p mod 2 ^ 16 = 0 <-> Z.even (zlen data) = true \/ List.last (body arg1 data) 0 < 128).
Proof.
  intros Ha Hs Hf Hr Hout Hc Hst Hbu. pose proof Hf as (Hb & Hn & _). pose proof (length_body _ _ Hf) as Hl.
  destruct (seal_signed_ok arg1 sig start burn data Hf Hs) as (ck & E & Hck & Hsum). exists ck. cbn zeta.
  destruct (pad_even data) as [j Hj]. assert (zlen (payload arg1 data ck) = 2 * (Z.of_nat j + 1)) as Hp.
  { unfold payload. rewrite !length_app, length_be_bytes, Hl. rewrite length_app in Hj. lia. }
  split_and!.
  - rewrite (main_signed _ _ _ _ _ Ha), (convert_signed _ _ _ _ _ _ _ (r_name _ _ _ _ Hr) Hout Hst Hbu).
    rewrite (build_reads _ _ _ _ _ _ _ _ _ _ _ _ (length (pad data) + 2) _ Hr (image_size_signed data Hn)) by (cbn; unfold sized; rewrite length_app; lia).
    destruct Ha as (_ & Hsig & _). cbn [seal data_off]. rewrite Hsig. unfold HEADER_SIZE. change (Z.to_nat 16) with 16%nat.
    replace (replicate (length (pad data) + 2) 0) with (pad data ++ [0; 0]) by (unfold pad; by destruct (Z.even _)).
    rewrite (log_lift _ _ _ _ E). cbn [fst snd]. rewrite header_len by (try done; pose proof (length_app data (pad data)); unfold pad in *; destruct (Z.even _); cbn in *; lia).
    by apply finish_ok.
  - by rewrite Hp, Z.even_mul.
  - rewrite (payload_sum _ _ _ Hf Hck Hsum). unfold excess. rewrite Hl. destruct (Z.even (zlen data)); cbn [negb andb]; [by split; [left|]|].
    destruct (Z.leb_spec 128 (List.last (body arg1 data) 0)); split; intros H'; try done; [destruct H'; [done|lia]|by right].
Qed.

Lemma main_vmlinux sys prog arg2 arg3 name out l : scan_name arg2 = Some name -> scan_name arg3 = Some out ->
  main sys [prog; cs "vmlinux"; arg2; arg3] l = build sys [prog; cs "vmlinux"; arg2; arg3] (cs "vmlinux") name out Vmlinux None None l.
Proof.
  intros H2 H3. transitivity (convert sys [prog; cs "vmlinux"; arg2; arg3] (cs "vmlinux") Vmlinux l); [reflexivity|]. unfold convert. cbn [nth].
  by rewrite (log_lift _ _ _ _ H2), (log_lift _ _ _ _ H3).
Qed.

Lemma main_vmlinuxhdr sys prog arg2 arg3 arg4 elf name out l : contents sys arg4 = Some elf -> (EHDR_SIZE <= length elf)%nat -> scan_name arg2 = Some name -> scan_name arg3 = Some out ->
  main sys [prog; cs "vmlinuxhdr"; arg2; arg3; arg4] l =
  build sys [prog; cs "vmlinuxhdr"; arg2; arg3; arg4] (cs "vmlinuxhdr") name out (Vmlinuxhdr (le_word (take 4 (drop E_ENTRY elf)))) None None l.
Proof.
  intros He Hl H2 H3. transitivity (match extractStartAddr sys arg4 with inl m => die m | inr a => convert sys [prog; cs "vmlinuxhdr"; arg2; arg3; arg4] (cs "vmlinuxhdr") (Vmlinuxhdr a) end l); [reflexivity|].
  unfold extractStartAddr. rewrite He. apply Nat.ltb_ge in Hl. rewrite Hl. unfold convert. cbn [nth].
  by rewrite (log_lift _ _ _ _ H2), (log_lift _ _ _ _ H3).
Qed.

Lemma kernel_sum data ck : 0 <= ck < 2 ^ 32 -> (be_sum4 (kernel data) + ck) mod 2 ^ 32 = 0 -> be_sum4 (kernel data ++ be_bytes 4 ck) mod 2 ^ 32 = 0.
Proof.
  intros Hck Hsum. destruct (kernel_words data) as [j Hj]. rewrite (be_sum4_app j) by done. rewrite be_bytes_u8. cbn [be_sum4]. rewrite <- be_bytes_u8, be_word_bytes by done. by rewrite Z.add_0_r.
Qed.

Lemma kernel_block data k : data_off k + zlen data + Z.of_nat (Z.to_nat (filling (zlen data)) + 4) = zlen (kernel data) + data_off k + 4.
Proof. rewrite kernel_length. unfold filling. Z.to_euclidean_division_equations. lia. Qed.

(** A kernel behind the number of bytes that fill it, with its checksum at the end; the words add up to 0. *)
Theorem kernel_image sys prog arg2 arg3 name data out l : bytes data -> zlen data < 2 ^ 31 - 32 ->
  reads sys arg2 name data -> scan_name arg3 = Some out -> creates sys out = true ->
  exists ck report, main sys [prog; cs "vmlinux"; arg2; arg3] l =
      Some (0, l ++ [Written out (be_bytes 4 (filling (zlen data)) ++ kernel data ++ be_bytes 4 ck); Mode out; Printed report]) /\
    be_sum4 (kernel data ++ be_bytes 4 ck) mod 2 ^ 32 = 0.
Proof.
  intros Hb Hn Hr Hout Hc. destruct (seal_vmlinux_ok data (filling (zlen data)) Hb) as (ck & E & Hck & Hsum). eexists ck, _. split; [|by apply kernel_sum].
  rewrite (main_vmlinux _ _ _ _ _ _ _ (r_name _ _ _ _ Hr) Hout).
  rewrite (build_reads _ _ _ _ _ _ _ _ _ _ _ _ (Z.to_nat (filling (zlen data)) + 4) _ Hr (image_size_vmlinux data Hn)) by (rewrite kernel_block; cbn; lia).
  cbn [seal data_off]. change (Z.to_nat 4) with 4%nat. rewrite replicate_add, (app_assoc data). fold (kernel data). rewrite (log_lift _ _ _ _ E). by apply finish_ok.
Qed.

(** The same with the entry point of an ELF file in front, as it is in the file. *)
Theorem kernel_image_entry sys prog arg2 arg3 arg4 elf name data out l : bytes data -> zlen data < 2 ^ 31 - 32 ->
  contents sys arg4 = Some elf -> (EHDR_SIZE <= length elf)%nat -> bytes elf ->
  reads sys arg2 name data -> scan_name arg3 = Some out -> creates sys out = true ->
  exists ck report, main sys [prog; cs "vmlinuxhdr"; arg2; arg3; arg4] l =
      Some (0, l ++ [Written out (be_bytes 4 (filling (zlen data)) ++ take 4 (drop E_ENTRY elf) ++ kernel data ++ be_bytes 4 ck); Mode out; Printed report]) /\
    be_sum4 (kernel data ++ be_bytes 4 ck) mod 2 ^ 32 = 0.
Proof.
  intros Hb Hn He Hl Hbe Hr Hout Hc. assert (length (take 4 (drop E_ENTRY elf)) = 4%nat) as H4 by (rewrite length_take, length_drop; unfold EHDR_SIZE, E_ENTRY in *; lia).
  destruct (seal_vmlinuxhdr_ok (take 4 (drop E_ENTRY elf)) data (filling (zlen data)) Hb) as (ck & E & Hck & Hsum); [by apply Forall_take, Forall_drop|done|].
  eexists ck, _. split; [|by apply kernel_sum]. rewrite (main_vmlinuxhdr _ _ _ _ _ _ _ _ _ He Hl (r_name _ _ _ _ Hr) Hout).
  rewrite (build_reads _ _ _ _ _ _ _ _ _ _ _ _ (Z.to_nat (filling (zlen data)) + 4) _ Hr (image_size_vmlinuxhdr _ data Hn)) by (rewrite kernel_block; cbn; lia).
  cbn [seal data_off]. change (Z.to_nat 8) with 8%nat. rewrite replicate_add, (app_assoc data). fold (kernel data). rewrite (log_lift _ _ _ _ E). by apply finish_ok.
Qed.

(** The check of the size passes exactly when the kernel that is unpacked at the base ends before the address it is loaded at,
    whatever the address is. *)
Theorem size_chk_exact sys prog arg2 arg3 name start n l : scan_name arg2 = Some name -> scan_hex arg3 = Some (Some start) -> 0 <= start < 2 ^ 32 -> stat sys name = Some n -> 0 <= n ->
  exists code k, main sys [prog; cs "size_chk"; arg2; arg3] l = Some (code, l ++ k) /\ (code = 0 <-> DEFAULT_BASE_ADDR + n <= start).
Proof.
  intros H2 H3 Hst Hn H0. change (main sys [prog; cs "size_chk"; arg2; arg3] l) with (size_chk sys arg2 arg3 l). unfold size_chk. rewrite (log_lift _ _ _ _ H2), (log_lift _ _ _ _ H3), Hn. rewrite (log_lift _ _ _ _ eq_refl).
  unfold say, die. rewrite !log_tell. unfold DEFAULT_BASE_ADDR.
  assert (s32 (u32 (start - 0x80000000)) = start - 2 ^ 31) as ->.
  { unfold s32, u32. rewrite Z.mod_mod by lia. destruct (Z.ltb_spec ((start - 2147483648) mod 2 ^ 32) (2 ^ 31)); Z.to_euclidean_division_equations; lia. }
  destruct (Z.ltb_spec (start - 2 ^ 31) n); unfold say; rewrite ?log_tell, log_ret, <- !app_assoc; eexists _, _; (split; [reflexivity|]); lia.
Qed.

(** Without an argument the tool compares the null pointer. *)
Theorem no_argument sys prog l : main sys [prog] l = None.
Proof. reflexivity. Qed.

(** A signature of less than three characters: bytes behind the argument are copied. *)
Theorem short_signature arg1 sig start burn blk size n : (length sig < SIGNATURE_LEN)%nat -> seal_signed arg1 sig start burn blk size n = None.
Proof. intros H. unfold seal_signed, memcpy_at. apply Nat.leb_gt in H. by rewrite H, andb_false_r. Qed.

(** ** A run *)

Definition some_files (name : list Z) : option (list Z) := if bool_decide (name = cs "web.bin") then Some [0x12; 0x34; 0x56; 0x78; 0x80] else None.
Definition some_system : system := mksys (fun n => option_map (fun f => zlen f) (some_files n)) some_files (fun _ => true) (fun _ => true).
Definition some_argv : list (list Z) := [cs "cvimg"; cs "signature"; cs "web.bin"; cs "web.img"; cs "0x80500000"; cs "20000"; cs "w6cp"].

Lemma firmware_image_witness : exists ck, let p := [0x12; 0x34; 0x56; 0x78; 0x80; 0] ++ be_bytes 2 ck in
  main some_system some_argv [] = Some (0, [Written (cs "web.img") (cs "w6cp" ++ [0x80; 0x50; 0; 0; 0; 2; 0; 0; 0; 0; 0; 8] ++ p); Mode (cs "web.img");
    Printed (cs "Generate image successfully, length=8, checksum=0x" ++ hex_text (WORD_SWAP ck) ++ [10])]) /\ be_sum2 p mod 2 ^ 16 <> 0.
Proof.
  destruct (firmware_image some_system some_argv (cs "signature") (cs "w6cp" ++ [0]) (cs "web.bin") [0x12; 0x34; 0x56; 0x78; 0x80] (cs "web.img") 0x80500000 0x20000 [])
    as (ck & H1 & _ & H3); [done|vm_compute; lia| |by constructor|done|done|by vm_compute|by vm_compute|].
  - split_and!; [repeat constructor; by vm_compute|done|by vm_compute].
  - exists ck. split; [exact H1|]. intros H. apply H3 in H as [H|H]; by vm_compute in H.
Defined.

(** A root file system of an even number of bytes. *)
Example some_root : match main (mksys (fun _ => Some 12) (fun _ => Some (replicate 12 0xff)) (fun _ => true) (fun _ => true))
    [cs "cvimg"; cs "root"; cs "sq"; cs "img"; cs "b0000"; cs "b0000"] [] with
  | Some (0, Written _ f :: _) => take 4 f = cs "r6cr" /\ take 4 (drop 24 f) = be_bytes 4 (12 - 640) /\ be_sum2 (drop 16 f) mod 2 ^ 16 = 0
  | _ => False
  end.
Proof. by vm_compute. Qed.
End Cvimg.
