(* ===== verification/DhcpOptions.v ===== *)
(** * progs.gpl/udhcpcd/options.c: the options of DHCP packets.

    A packet has an area of 308 bytes of options, each with a code, a length and data, up to the end mark; more may be in
    the fields for the names of the server and of the boot file.  Words of the packet are kept as the processor reads
    them; the byte order of the processor is a parameter.  [None] and [Wild] are accesses out of bounds. *)
From Stdlib Require Import ZArith Lia Bool String Sorted.
From stdpp Require Import base tactics list option numbers.
From S2P Require Import Prelude Xmldb.

Module DhcpOptions.
Import Xmldb.

(** ** Words and bytes *)

(** The byte order of the processor. *)
Class Endian := { big : bool }.

Section Words.
Context `{Endian}.

Definition native (bs : list Z) : list Z := if big then bs else rev bs.
Definition load (bs : list Z) : Z := be_word (native bs).
Definition store (n : nat) (x : Z) : list Z := native (be_bytes n x).

Definition ntohl (x : Z) : Z := be_word (store 4 x).
Definition htonl (x : Z) : Z := load (be_bytes 4 x).
Definition ntohs (x : Z) : Z := be_word (store 2 x).
Definition htons (x : Z) : Z := load (be_bytes 2 x).
End Words.

(** ** Packets *)

(** [struct dhcpMessage] *)
Record dhcpMessage := mkmsg {
  op : Z; htype : Z; hlen : Z; hops : Z; xid : Z; secs : Z; flags : Z;
  ciaddr : Z; yiaddr : Z; siaddr : Z; giaddr : Z;
  chaddr : list Z; sname : list Z; file : list Z; cookie : Z; options : list Z
}.

Definition set_options (p : dhcpMessage) (o : list Z) : dhcpMessage :=
  mkmsg (op p) (htype p) (hlen p) (hops p) (xid p) (secs p) (flags p) (ciaddr p) (yiaddr p) (siaddr p) (giaddr p)
        (chaddr p) (sname p) (file p) (cookie p) o.

Record fields_ok (p : dhcpMessage) : Prop := {
  sname_ok : length (sname p) = 64%nat /\ bytes (sname p);
  file_ok : length (file p) = 128%nat /\ bytes (file p);
  options_ok : length (options p) = 308%nat /\ bytes (options p)
}.

(** ** Codes *)

Definition DHCP_PADDING : Z := 0x00.
Definition DHCP_SUBNET : Z := 0x01.
Definition DHCP_HOST_NAME : Z := 0x0c.
Definition DHCP_REQUESTED_IP : Z := 0x32.
Definition DHCP_LEASE_TIME : Z := 0x33.
Definition DHCP_OPTION_OVER : Z := 0x34.
Definition DHCP_MESSAGE_TYPE : Z := 0x35.
Definition DHCP_SERVER_ID : Z := 0x36.
Definition DHCP_VENDOR : Z := 0x3c.
Definition DHCP_END : Z := 0xFF.

Definition OPTION_FIELD : Z := 0.
Definition FILE_FIELD : Z := 1.
Definition SNAME_FIELD : Z := 2.

(** The types of options, and the flags beside them. *)
Definition OPTION_IP : Z := 1.
Definition OPTION_IP_PAIR : Z := 2.
Definition OPTION_STRING : Z := 3.
Definition OPTION_BOOLEAN : Z := 4.
Definition OPTION_U8 : Z := 5.
Definition OPTION_U16 : Z := 6.
Definition OPTION_S16 : Z := 7.
Definition OPTION_U32 : Z := 8.
Definition OPTION_S32 : Z := 9.
Definition OPTION_33 : Z := 10.
Definition OPTION_121 : Z := 11.
Definition OPTION_249 : Z := 12.
Definition OPTION_REQ : Z := 0x10.
Definition OPTION_LIST : Z := 0x20.
Definition TYPE_MASK : Z := 0x0F.

Record dhcp_option := mkopt { o_name : list Z; o_flags : Z; o_code : Z }.

(** The table of options, of a build without options for static routes. *)
Definition option_table : list dhcp_option := Eval cbv in
  map (fun x => mkopt (cs (fst (fst x))) (snd (fst x)) (snd x))
    [("subnet", Z.lor OPTION_IP OPTION_REQ, 0x01);
     ("timezone", OPTION_S32, 0x02);
     ("router", Z.lor (Z.lor OPTION_IP OPTION_LIST) OPTION_REQ, 0x03);
     ("timesvr", Z.lor OPTION_IP OPTION_LIST, 0x04);
     ("namesvr", Z.lor OPTION_IP OPTION_LIST, 0x05);
     ("dns", Z.lor (Z.lor OPTION_IP OPTION_LIST) OPTION_REQ, 0x06);
     ("logsvr", Z.lor OPTION_IP OPTION_LIST, 0x07);
     ("cookiesvr", Z.lor OPTION_IP OPTION_LIST, 0x08);
     ("lprsvr", Z.lor OPTION_IP OPTION_LIST, 0x09);
     ("hostname", OPTION_STRING, 0x0c);
     ("bootsize", OPTION_U16, 0x0d);
     ("domain", Z.lor OPTION_STRING OPTION_REQ, 0x0f);
     ("swapsvr", OPTION_IP, 0x10);
     ("rootpath", OPTION_STRING, 0x11);
     ("ipttl", OPTION_U8, 0x17);
     ("mtu", OPTION_U16, 0x1a);
     ("broadcast", OPTION_IP, 0x1c);
     ("sstrout", Z.lor (Z.lor OPTION_33 OPTION_LIST) OPTION_REQ, 0x21);
     ("ntpsrv", Z.lor OPTION_IP OPTION_LIST, 0x2a);
     ("wins", Z.lor (Z.lor OPTION_IP OPTION_LIST) OPTION_REQ, 0x2c);
     ("winstype", Z.lor OPTION_U8 OPTION_REQ, 0x2e);
     ("scope", Z.lor OPTION_STRING OPTION_REQ, 0x2f);
     ("requestip", OPTION_IP, 0x32);
     ("lease", OPTION_U32, 0x33);
     ("dhcptype", OPTION_U8, 0x35);
     ("serverid", OPTION_IP, 0x36);
     ("message", OPTION_STRING, 0x38);
     ("tftp", OPTION_STRING, 0x42);
     ("bootfile", OPTION_STRING, 0x43);
     ("clsstrout", Z.lor (Z.lor OPTION_121 OPTION_LIST) OPTION_REQ, 0x79);
     ("msclsstrout", Z.lor (Z.lor OPTION_249 OPTION_LIST) OPTION_REQ, 0xf9)]%string.

(** [option_lengths]: by type; 0 is a length that varies. *)
Definition option_lengths : list Z := [0; 4; 8; 1; 1; 1; 2; 2; 4; 4; 8; 0; 0].

(** ** Looking for an option *)

(** The option with its length and what follows it in its field; NULL; an access out of bounds; no end. *)
Inductive search := Found (len : Z) (data : list Z) | Missing | Wild | Spinning.

(** The loop of [get_option] at the place [i] of the field [area]. *)
Fixpoint option_loop (fuel : nat) (p : dhcpMessage) (code : Z) (area : list Z) (i over curr : Z) : search :=
  match fuel with
  | O => Spinning
  | S fuel =>
      let length := zlen area in
      if length <=? i then Missing
      else
        match rd area i with
        | None => Wild
        | Some c =>
            if c =? code then
              match rd area (i + 1) with
              | None => Wild
              | Some n => if length <=? i + 1 + n then Missing else Found n (drop (Z.to_nat (i + 2)) area)
              end
            else if c =? DHCP_PADDING then option_loop fuel p code area (i + 1) over curr
            else if c =? DHCP_OPTION_OVER then
              match rd area (i + 1) with
              | None => Wild
              | Some n =>
                  if length <=? i + 1 + n then Missing
                  else
                    match rd area (i + 3), rd area 1 with
                    | Some over, Some m => option_loop fuel p code area (i + m + 2) over curr
                    | _, _ => Wild
                    end
              end
            else if c =? DHCP_END then
              if (curr =? OPTION_FIELD) && negb (Z.land over FILE_FIELD =? 0) then option_loop fuel p code (file p) 0 over FILE_FIELD
              else if (curr =? FILE_FIELD) && negb (Z.land over SNAME_FIELD =? 0) then option_loop fuel p code (sname p) 0 over SNAME_FIELD
              else Missing
            else
              match rd area (i + 1) with
              | None => Wild
              | Some n => option_loop fuel p code area (i + n + 2) over curr
              end
        end
  end.

(** There are 500 bytes in the three fields. *)
Definition get_option (p : dhcpMessage) (code : Z) : search := option_loop 512 p code (options p) 0 0 OPTION_FIELD.

(** ** Adding an option *)

Fixpoint end_loop (fuel : nat) (area : list Z) (i : Z) : option Z :=
  match fuel with
  | O => None
  | S fuel =>
      c ← rd area i;
      if c =? DHCP_END then Some i
      else if c =? DHCP_PADDING then end_loop fuel area (i + 1)
      else n ← rd area (i + 1); end_loop fuel area (i + n + 2)
  end.

(** [end_option]: each turn goes on by a byte at least. *)
Definition end_option (area : list Z) : option Z := end_loop (S (length area)) area 0.

(** The result and the area. *)
Definition add_option_string (area str : list Z) : option (Z * list Z) :=
  e ← end_option area;
  n ← rd str 1;
  if 308 <=? e + n + 2 + 1 then Some (0, area)
  else
    area ← memcpy_at area (Z.to_nat e) (Z.to_nat (n + 2)) str;
    area ← wr area (e + n + 2) DHCP_END;
    Some (n + 2, area).

(** The length of the last entry of the table for the code. *)
Definition simple_length (code : Z) : Z :=
  foldl (fun n o => if o_code o =? code then nth (Z.to_nat (Z.land (o_flags o) TYPE_MASK)) option_lengths 0 else n) 0 option_table.

Definition add_simple_option `{Endian} (area : list Z) (code data : Z) : option (Z * list Z) :=
  let length := simple_length code in
  if length =? 0 then Some (0, area)
  else if length =? 1 then add_option_string area [code; 1; u8 data]
  else if length =? 2 then add_option_string area (code :: 2 :: store 2 (u16 data))
  else if length =? 4 then add_option_string area (code :: 4 :: store 4 data)
  else None.

(** ** Lists of options *)

(** [struct option_set]: the data of the options, with code and length in front. *)
Definition data_code (d : list Z) : Z := nth 0 d 0.
Definition data_len (d : list Z) : Z := nth 1 d 0.

(** [find_option]: the place in the list.  The code is a [char]: from 128 on it is negative. *)
Fixpoint find_loop (l : list (list Z)) (code : Z) (k : nat) : option nat :=
  match l with
  | [] => None
  | d :: tl => if data_code d <? code then find_loop tl code (S k) else if data_code d =? code then Some k else None
  end.

Definition find_option (l : list (list Z)) (code : Z) : option nat := find_loop l (schar code) 0.

Fixpoint insert_option (l : list (list Z)) (d : list Z) : list (list Z) :=
  match l with
  | x :: tl => if data_code x <? data_code d then x :: insert_option tl d else d :: l
  | [] => [d]
  end.

(** [attach_option]: a list of values is extended, another value is kept as it is. *)
Definition attach_option (l : list (list Z)) (o : dhcp_option) (buffer : list Z) : list (list Z) :=
  match find_option l (o_code o) with
  | Some k =>
      if negb (Z.land (o_flags o) OPTION_LIST =? 0) then
        alter (fun d => if data_len d + zlen buffer <=? 255 then data_code d :: (data_len d + zlen buffer) :: drop 2 d ++ buffer else d) k l
      else l
  | None => insert_option l (o_code o :: u8 (zlen buffer) :: buffer)
  end.

(** ** Words *)

Section WordLemmas.
Context `{Endian}.

Lemma native_twice bs : native (native bs) = bs.
Proof using Type. unfold native. destruct big; [done|apply rev_involutive]. Qed.

Lemma length_native bs : length (native bs) = length bs.
Proof using Type. unfold native. destruct big; [done|apply length_rev]. Qed.

Lemma native_bytes bs : bytes bs -> bytes (native bs).
Proof using Type. unfold native. destruct big; [done|apply Forall_rev]. Qed.

Lemma length_store n x : length (store n x) = n.
Proof using Type. unfold store. by rewrite length_native, length_be_bytes. Qed.

Lemma store_bytes n x : bytes (store n x).
Proof using Type. apply native_bytes, be_bytes_bytes. Qed.

(** A word in memory is the word that is read. *)
Lemma load_store n x : 0 <= x < 256 ^ Z.of_nat n -> load (store n x) = x.
Proof using Type. intros Hx. unfold load, store. by rewrite native_twice, be_word_bytes. Qed.

Lemma store_load bs : bytes bs -> store (length bs) (load bs) = bs.
Proof using Type.
  intros Hb. unfold load, store. rewrite <- (length_native bs), be_bytes_word by (by apply native_bytes). apply native_twice.
Qed.

Lemma load_bound bs : bytes bs -> 0 <= load bs < 256 ^ zlen bs.
Proof using Type. intros Hb. unfold load. rewrite <- (length_native bs). by apply be_word_bound, native_bytes. Qed.

Lemma ntohl_htonl x : 0 <= x < 2 ^ 32 -> ntohl (htonl x) = x.
Proof using Type.
  intros Hx. unfold ntohl, htonl. rewrite <- (length_be_bytes 4 x) at 1. rewrite store_load by apply be_bytes_bytes. by apply be_word_bytes.
Qed.

Lemma htonl_ntohl x : 0 <= x < 2 ^ 32 -> htonl (ntohl x) = x.
Proof using Type.
  intros Hx. unfold ntohl, htonl. rewrite <- (length_store 4 x) at 1. rewrite be_bytes_word by apply store_bytes. by apply load_store.
Qed.

Lemma ntohl_bound x : 0 <= ntohl x < 2 ^ 32.
Proof using Type. pose proof (be_word_bound (store 4 x) (store_bytes 4 x)) as Hb. by rewrite length_store in Hb. Qed.

Lemma htonl_bound x : 0 <= htonl x < 2 ^ 32.
Proof using Type. pose proof (load_bound (be_bytes 4 x) (be_bytes_bytes 4 x)) as Hb. by rewrite length_be_bytes in Hb. Qed.
End WordLemmas.

(** ** The search ends *)

Lemma rd_byte area i c : bytes area -> rd area i = Some c -> is_byte c.
Proof. intros Hb [_ Hl]%rd_Some. exact (Forall_lookup_1 _ _ _ _ Hb Hl). Qed.

(** The bytes that may still be looked at. *)
Definition behind_field (curr : Z) : Z := if curr =? OPTION_FIELD then 194 else if curr =? FILE_FIELD then 65 else 0.

Lemma option_loop_ends p code : fields_ok p -> forall fuel area i over curr, bytes area -> 0 <= i ->
  (curr = OPTION_FIELD \/ curr = FILE_FIELD \/ curr = SNAME_FIELD) ->
  Z.max 0 (zlen area - i) + behind_field curr < Z.of_nat fuel -> option_loop fuel p code area i over curr <> Spinning.
Proof.
  intros [[S1 S2] [F1 F2] _]. induction fuel as [|fuel IH]; intros area i over curr Ha Hi Hc Hf.
  { exfalso. unfold behind_field in Hf. destruct (curr =? OPTION_FIELD), (curr =? FILE_FIELD); lia. }
  cbn [option_loop]. destruct (Z.leb_spec (zlen area) i) as [|Hlt]; [done|].
  destruct (rd area i) as [c|] eqn:Ec; [|done]. destruct (c =? code); [destruct (rd area (i + 1)); [by case_match|done]|].
  destruct (c =? DHCP_PADDING); [apply IH; try done; lia|]. destruct (c =? DHCP_OPTION_OVER).
  { destruct (rd area (i + 1)) as [n|]; [|done]. destruct (zlen area <=? i + 1 + n); [done|].
    destruct (rd area (i + 3)); [|done]. destruct (rd area 1) as [m|] eqn:Em; [|done]. apply rd_byte in Em as [? ?]; [|done]. apply IH; try done; lia. }
  destruct (c =? DHCP_END).
  - destruct (_ && _) eqn:E1 in |- *; [|destruct (_ && _) eqn:E2 in |- *; [|discriminate]]; bprop; subst curr; (apply IH; [done|lia|auto|]);
      [rewrite F1|rewrite S1]; unfold behind_field in *; cbn in *; lia.
  - destruct (rd area (i + 1)) as [n|] eqn:En; [|done]. apply rd_byte in En as [? ?]; [|done]. apply IH; try done; lia.
Qed.

(** The search for an option comes to an end on every packet, whatever its bytes are. *)
Theorem get_option_ends p code : fields_ok p -> get_option p code <> Spinning.
Proof.
  intros Hp. apply option_loop_ends; [done|apply Hp|lia|by left|]. rewrite (proj1 (options_ok _ Hp)). cbn. lia.
Qed.

(** ** Areas of options *)

(** The options of an area, in order; an area of 308 bytes with them, the end mark, and zeros. *)
Definition flat (l : list (Z * list Z)) : list Z := flat_map (fun o => fst o :: zlen (snd o) :: snd o) l.
Definition area_of (l : list (Z * list Z)) : list Z := flat l ++ DHCP_END :: replicate (307 - length (flat l)) 0.

Definition opt_ok (o : Z * list Z) : Prop :=
  (is_byte (fst o) /\ fst o <> DHCP_PADDING /\ fst o <> DHCP_END /\ fst o <> DHCP_OPTION_OVER) /\ zlen (snd o) <= 255 /\ bytes (snd o).

Fixpoint lookup_opt (l : list (Z * list Z)) (code : Z) : option (list Z) :=
  match l with
  | [] => None
  | (c, d) :: tl => if c =? code then Some d else lookup_opt tl code
  end.

Lemma flat_app l l' : flat (l ++ l') = flat l ++ flat l'.
Proof. apply flat_map_app. Qed.

Lemma flat_length l : (length l <= length (flat l))%nat.
Proof. induction l as [|o l IH]; [done|]. cbn [flat flat_map length app]. rewrite length_app. fold (flat l). lia. Qed.

Lemma length_area l : (length (flat l) <= 307)%nat -> length (area_of l) = 308%nat.
Proof. intros Hl. unfold area_of. rewrite length_app. cbn [length]. rewrite length_replicate. lia. Qed.

Lemma option_loop_area p code z : code <> DHCP_END -> forall l pre fuel,
  Forall opt_ok l -> (length l < fuel)%nat ->
  let r := option_loop fuel p code (pre ++ flat l ++ DHCP_END :: z) (zlen pre) 0 OPTION_FIELD in
  match lookup_opt l code with Some d => exists rest, r = Found (zlen d) (d ++ rest) | None => r = Missing end.
Proof.
  intros Hcode. induction l as [|[c d] l IH]; intros pre fuel Hl Hfuel; (destruct fuel as [|fuel]; [cbn in Hfuel; lia|]); cbn [option_loop lookup_opt]; cbv zeta.
  - cbn [flat flat_map app]. rewrite (proj2 (Z.leb_gt _ _)) by (rewrite length_app; cbn [length]; lia). rewrite rd_app by done.
    by rewrite (proj2 (Z.eqb_neq DHCP_END code)) by congruence.
  - apply Forall_cons_iff in Hl as [((Hb & Hp & He & Ho) & Hd & Hbs) Hl]. cbn [fst snd] in *.
    change (flat ((c, d) :: l)) with (c :: zlen d :: d ++ flat l). cbn [app]. rewrite <- app_assoc.
    set (tl := flat l ++ DHCP_END :: z) in *. rewrite (proj2 (Z.leb_gt _ _)) by (rewrite length_app; cbn [length]; lia). rewrite rd_app by done.
    assert (rd (pre ++ c :: zlen d :: d ++ tl) (zlen pre + 1) = Some (zlen d)) as Hlen.
    { rewrite (cons_middle c). rewrite app_assoc. apply rd_app. rewrite length_app. cbn. lia. }
    rewrite Hlen. destruct (Z.eqb_spec c code) as [->|Hne].
    + exists tl. rewrite (proj2 (Z.leb_gt _ _)).
      2: { unfold tl. rewrite length_app. cbn [length]. rewrite !length_app. cbn [length]. lia. }
      f_equal. replace (Z.to_nat (zlen pre + 2)) with (length pre + 2)%nat by lia. rewrite <- drop_drop, drop_app_length. done.
    + rewrite !(proj2 (Z.eqb_neq c _)) by done.
      specialize (IH (pre ++ c :: zlen d :: d) fuel Hl ltac:(cbn in Hfuel; lia)).
      rewrite <- app_assoc in IH. cbn [app] in IH. fold tl in IH. replace (zlen (pre ++ c :: zlen d :: d)) with (zlen pre + zlen d + 2) in IH; [exact IH|].
      rewrite length_app. cbn [length]. lia.
Qed.

(** Looking for an option of a packet finds the first one with its code, with its length and its data. *)
Theorem get_option_spec p l code :
  options p = area_of l -> Forall opt_ok l -> (length (flat l) <= 307)%nat -> code <> DHCP_END ->
  match lookup_opt l code with
  | Some d => exists rest, get_option p code = Found (zlen d) (d ++ rest)
  | None => get_option p code = Missing
  end.
Proof.
  intros Ho Hl Hn Hc. unfold get_option. rewrite Ho. pose proof (flat_length l).
  exact (option_loop_area p code _ Hc l [] 512 Hl ltac:(lia)).
Qed.

Lemma end_loop_area z : forall l pre fuel, Forall opt_ok l -> (length l < fuel)%nat ->
  end_loop fuel (pre ++ flat l ++ DHCP_END :: z) (zlen pre) = Some (zlen pre + zlen (flat l)).
Proof.
  induction l as [|[c d] l IH]; intros pre fuel Hl Hfuel; (destruct fuel as [|fuel]; [cbn in Hfuel; lia|]); cbn [end_loop].
  - cbn [flat flat_map app length]. rewrite (rd_app pre DHCP_END z (zlen pre) eq_refl). cbn. f_equal. lia.
  - apply Forall_cons_iff in Hl as [((Hb & Hp & He & Ho) & Hd & Hbs) Hl]. cbn [fst snd] in *.
    change (flat ((c, d) :: l)) with (c :: zlen d :: d ++ flat l). cbn [app]. rewrite <- app_assoc.
    rewrite (rd_app pre c _ (zlen pre) eq_refl). cbn [mbind option_bind]. rewrite !(proj2 (Z.eqb_neq c _)) by done.
    assert (rd (pre ++ c :: zlen d :: d ++ flat l ++ DHCP_END :: z) (zlen pre + 1) = Some (zlen d)) as ->.
    { rewrite (cons_middle c). rewrite app_assoc. apply rd_app. rewrite length_app. cbn. lia. }
    cbn [mbind option_bind]. specialize (IH (pre ++ c :: zlen d :: d) fuel Hl ltac:(cbn in Hfuel; lia)).
    rewrite <- app_assoc in IH. cbn [app] in IH. replace (zlen (pre ++ c :: zlen d :: d)) with (zlen pre + zlen d + 2) in IH by (rewrite length_app; cbn [length]; lia).
    rewrite IH. f_equal. cbn [length]. rewrite length_app. lia.
Qed.

Lemma end_option_area l : Forall opt_ok l -> (length (flat l) <= 307)%nat -> end_option (area_of l) = Some (zlen (flat l)).
Proof.
  intros Hl Hn. unfold end_option. rewrite length_area by done. pose proof (flat_length l). exact (end_loop_area _ l [] 309 Hl ltac:(lia)).
Qed.

(** The bytes of an option string. *)
Definition option_string (o : Z * list Z) : list Z := fst o :: zlen (snd o) :: snd o.

(** Adding an option puts it behind the others, if it fits before the last byte; if not nothing is changed, and the
    result is 0. *)
Theorem add_option_spec l o :
  Forall opt_ok l -> opt_ok o -> (length (flat l) <= 307)%nat ->
  add_option_string (area_of l) (option_string o) =
    if zlen (flat (l ++ [o])) + 1 <? 308 then Some (zlen (snd o) + 2, area_of (l ++ [o])) else Some (0, area_of l).
Proof.
  intros Hl Ho Hn. unfold add_option_string. rewrite end_option_area by done. cbn [mbind option_bind].
  assert (length (flat (l ++ [o])) = (length (flat l) + length (snd o) + 2)%nat) as Hlen.
  { rewrite flat_app, length_app. cbn [flat flat_map app length]. rewrite app_nil_r. lia. }
  change (rd (option_string o) 1) with (Some (zlen (snd o))). cbn [mbind option_bind].
  destruct (Z.ltb_spec (zlen (flat (l ++ [o])) + 1) 308) as [Hs|Hs].
  2: { by rewrite (proj2 (Z.leb_le _ _)) by lia. }
  rewrite (proj2 (Z.leb_gt _ _)) by lia. rewrite memcpy_at_ok; [|rewrite length_area by done; lia|cbn [option_string length]; lia].
  cbn [mbind option_bind]. replace (Z.to_nat (zlen (flat l))) with (length (flat l)) by lia.
  replace (Z.to_nat (zlen (snd o) + 2)) with (length (option_string o)) by (cbn [option_string length]; lia). rewrite firstn_all.
  unfold area_of at 1. rewrite take_app_length.
  assert (drop (length (flat l) + length (option_string o)) (area_of l) = 0 :: replicate (307 - length (flat (l ++ [o]))) 0) as Hdrop.
  { unfold area_of. rewrite <- drop_drop, drop_app_length. cbn [option_string length drop]. rewrite drop_replicate, <- (replicate_S _ 0).
    f_equal. lia. }
  rewrite Hdrop, app_assoc. rewrite wr_app; [|rewrite length_app; cbn [option_string length]; lia].
  cbn [mbind option_bind]. do 2 f_equal. unfold area_of. rewrite flat_app. cbn [flat flat_map]. by rewrite app_nil_r.
Qed.

(** An option of one byte, or of four. *)
Lemma simple_option_1 `{Endian} area code x : simple_length code = 1 -> add_simple_option area code x = add_option_string area (option_string (code, [u8 x])).
Proof. intros E. unfold add_simple_option. by rewrite E. Qed.

Lemma simple_option_4 `{Endian} area code x : simple_length code = 4 -> add_simple_option area code x = add_option_string area (option_string (code, store 4 x)).
Proof. intros E. unfold add_simple_option. rewrite E. cbn [Z.eqb]. unfold option_string. cbn [fst snd]. by rewrite length_store. Qed.

(** ** Lists of options as maps *)

(** The data of an option in the list: its bytes behind code and length. *)
Definition data_ok (d : list Z) : Prop := exists c bs, d = c :: zlen bs :: bs /\ 0 < c < 256 /\ zlen bs <= 255.
Definition by_code (a b : list Z) : Prop := data_code a < data_code b.
Definition set_ok (l : list (list Z)) : Prop := Forall data_ok l /\ StronglySorted by_code l.

Fixpoint content (l : list (list Z)) (c : Z) : option (list Z) :=
  match l with
  | [] => None
  | d :: tl => if data_code d =? c then Some (drop 2 d) else content tl c
  end.

Lemma content_none l c : Forall (fun d => c < data_code d) l -> content l c = None.
Proof. induction 1 as [|d l Hd _ IH]; [done|]. cbn [content]. by rewrite (proj2 (Z.eqb_neq _ _)) by lia. Qed.

Lemma above d l : Forall (by_code d) l -> forall c, c <= data_code d -> Forall (fun x => c < data_code x) l.
Proof. intros Hl c Hc. eapply List.Forall_impl; [|exact Hl]. unfold by_code. lia. Qed.

Lemma find_loop_spec l c : set_ok l -> forall k,
  match find_loop l c k with
  | Some j => exists i d, j = (k + i)%nat /\ l !! i = Some d /\ data_code d = c
  | None => content l c = None
  end.
Proof.
  intros [Hd Hs]. induction Hs as [|d l Hs IH Hl]; intros k; [done|]. apply Forall_cons_iff in Hd as [Hd Hdl]. cbn [find_loop content].
  destruct (Z.ltb_spec (data_code d) c) as [Hlt|Hge].
  - specialize (IH Hdl (S k)). rewrite (proj2 (Z.eqb_neq _ _)) by lia. destruct (find_loop l c (S k)) as [j|]; [|done].
    destruct IH as (i & x & -> & Hi & Hx). exists (S i), x. split; [lia|done].
  - destruct (Z.eqb_spec (data_code d) c) as [E|Hn]; [exists 0%nat, d; split_and!; [lia|done|done]|]. apply content_none, (above d); [done|lia].
Qed.

Lemma content_at l k d : set_ok l -> l !! k = Some d -> content l (data_code d) = Some (drop 2 d).
Proof.
  intros [_ Hs]. revert k. induction Hs as [|x l Hs IH Hl]; intros k Hk; [done|]. cbn [content]. destruct k as [|k]; cbn in Hk.
  - injection Hk as ->. by rewrite Z.eqb_refl.
  - rewrite (proj2 (Z.eqb_neq _ _)); [by eapply IH|]. pose proof (Forall_lookup_1 _ _ _ _ Hl Hk) as Hx. unfold by_code in Hx. lia.
Qed.

Lemma content_alter l k d f : set_ok l -> l !! k = Some d -> data_code (f d) = data_code d ->
  forall c, content (alter f k l) c = if decide (c = data_code d) then Some (drop 2 (f d)) else content l c.
Proof.
  intros [_ Hs]. revert k. induction Hs as [|x l Hs IH Hl]; intros k Hk Hf c; [done|]. destruct k as [|k]; cbn in Hk.
  - injection Hk as ->. cbn [alter list_alter content]. rewrite Hf. destruct (Z.eqb_spec (data_code d) c) as [->|Hn]; [by rewrite decide_True|].
    by rewrite decide_False by congruence.
  - change (alter f (S k) (x :: l)) with (x :: alter f k l). cbn [content]. rewrite (IH k Hk Hf).
    pose proof (Forall_lookup_1 _ _ _ _ Hl Hk) as Hx. unfold by_code in Hx. destruct (Z.eqb_spec (data_code x) c) as [<-|Hn]; [|done].
    by rewrite decide_False by lia.
Qed.

Lemma content_insert l d : StronglySorted by_code l -> content l (data_code d) = None ->
  forall c, content (insert_option l d) c = if decide (c = data_code d) then Some (drop 2 d) else content l c.
Proof.
  induction 1 as [|x l Hs IH Hl]; intros Hn c; cbn [insert_option content] in *.
  - destruct (Z.eqb_spec (data_code d) c) as [->|?]; [by rewrite decide_True|by rewrite decide_False by congruence].
  - destruct (Z.eqb_spec (data_code x) (data_code d)) as [|Hx]; [done|]. destruct (Z.ltb_spec (data_code x) (data_code d)) as [Hlt|Hge]; cbn [content].
    + rewrite IH by done. destruct (Z.eqb_spec (data_code x) c) as [<-|?]; [|done]. by rewrite decide_False by done.
    + destruct (Z.eqb_spec (data_code d) c) as [->|?]; [by rewrite decide_True|by rewrite decide_False by congruence].
Qed.

Lemma insert_sorted l d : StronglySorted by_code l -> content l (data_code d) = None -> StronglySorted by_code (insert_option l d).
Proof.
  induction 1 as [|x l Hs IH Hl]; intros Hn; cbn [insert_option content] in *; [by repeat constructor|].
  destruct (Z.eqb_spec (data_code x) (data_code d)) as [|Hx]; [done|]. destruct (Z.ltb_spec (data_code x) (data_code d)) as [Hlt|Hge].
  - constructor; [by apply IH|]. clear IH Hs. induction Hl as [|y l Hy Hl IHl]; cbn [insert_option content] in *; [by constructor|].
    destruct (data_code y <? data_code d); [constructor; [done|]|by repeat constructor]. apply IHl. by destruct (data_code y =? data_code d).
  - constructor; [by constructor|]. constructor; [unfold by_code; lia|]. eapply List.Forall_impl; [|exact Hl]. unfold by_code. lia.
Qed.

Lemma alter_sorted l k f : StronglySorted by_code l -> (forall d, data_code (f d) = data_code d) -> StronglySorted by_code (alter f k l).
Proof.
  intros Hs Hf. revert k. induction Hs as [|x l Hs IH Hl]; intros k; [destruct k; constructor|]. destruct k as [|k].
  - cbn [alter list_alter]. constructor; [done|]. unfold by_code in *. by rewrite Hf.
  - change (alter f (S k) (x :: l)) with (x :: alter f k l). constructor; [apply IH|]. apply Forall_alter; [done|]. intros y _ Hy. unfold by_code in *. by rewrite Hf.
Qed.

(** What is attached: a value of a list is put behind what is there, if the option still fits; another value counts only
    when there is none. *)
Definition attached (o : dhcp_option) (old : option (list Z)) (buffer : list Z) : list Z :=
  match old with
  | None => buffer
  | Some bs => if negb (Z.land (o_flags o) OPTION_LIST =? 0) && (zlen bs + zlen buffer <=? 255) then bs ++ buffer else bs
  end.

(** C34. Options with codes below 128 are a map from codes to data, sorted by code and without a code twice: attaching at most 255 bytes changes the
    data of its code, and of no other.  (Codes from 128 on are not found again: [attach_high_code].) *)
Theorem attach_option_spec l o buffer :
  set_ok l -> 0 < o_code o < 128 -> zlen buffer <= 255 ->
  set_ok (attach_option l o buffer) /\
  forall c, content (attach_option l o buffer) c =
    if decide (c = o_code o) then Some (attached o (content l (o_code o)) buffer) else content l c.
Proof.
  intros Hok Ho Hb. unfold attach_option, find_option. assert (schar (o_code o) = o_code o) as -> by (unfold schar; by rewrite (proj2 (Z.ltb_lt _ _)) by lia).
  pose proof (find_loop_spec l (o_code o) Hok 0) as Hf. destruct (find_loop l (o_code o) 0) as [j|].
  - destruct Hf as (i & d & -> & Hi & Hc). cbn [Nat.add]. rewrite <- Hc, (content_at l i d Hok Hi). cbn [attached].
    destruct (negb _); cbn [andb].
    2: { split; [done|]. intros c. destruct (decide (c = data_code d)) as [->|]; [|done]. by apply (content_at l i). }
    destruct Hok as [Hd Hs]. pose proof (Forall_lookup_1 _ _ _ _ Hd Hi) as (c0 & bs & -> & Hc0 & Hl0). cbn [drop].
    set (f := fun d => if data_len d + zlen buffer <=? 255 then _ else d).
    assert (forall x, data_code (f x) = data_code x) as Hfc by (intros x; unfold f; by destruct (_ <=? 255)).
    split; [split|].
    + apply Forall_alter; [done|]. intros x Hx _. rewrite Hi in Hx. injection Hx as <-. unfold f, data_len, data_code. cbn [nth drop]. rewrite ?drop_0.
      destruct (Z.leb_spec (zlen bs + zlen buffer) 255); [|by exists c0, bs]. exists c0, (bs ++ buffer). rewrite length_app. split_and!; [f_equal; f_equal; lia|lia|lia|lia].
    + by apply alter_sorted.
    + intros c. rewrite (content_alter l i _ f (conj Hd Hs) Hi (Hfc _)). destruct (decide _); [|done]. f_equal. unfold f, data_len, data_code. cbn [nth drop].
      rewrite drop_0. by destruct (zlen bs + zlen buffer <=? 255).
  - destruct Hok as [Hd Hs]. assert (u8 (zlen buffer) = zlen buffer) as -> by (apply Z.mod_small; lia). split; [split|].
    + assert (data_ok (o_code o :: zlen buffer :: buffer)) as Hn by (exists (o_code o), buffer; split_and!; [done|lia|lia|lia]).
      clear -Hd Hn. induction Hd as [|x l Hx Hl IH]; cbn [insert_option]; [by constructor|]. destruct (_ <? _); by repeat constructor.
    + by apply insert_sorted.
    + intros c. rewrite Hf. by apply content_insert.
Qed.

(** A code from 128 on is never found: a second value becomes a second option, in front of the first. *)
Example attach_high_code :
  let o := mkopt (cs "msclsstrout") 0x3c 0xf9 in
  attach_option (attach_option [] o [1]) o [2] = [[0xf9; 1; 2]; [0xf9; 1; 1]].
Proof. reflexivity. Qed.

(** ** Witnesses and wild packets *)

#[local] Instance be : Endian := { big := true }.

Definition no_options : dhcpMessage :=
  mkmsg 1 1 6 0 0 0 0 0 0 0 0 (replicate 16 0) (replicate 64 0) (replicate 128 0) 0 (area_of []).

Lemma no_options_ok : fields_ok no_options.
Proof. constructor; (split; [reflexivity|]); unfold is_byte; apply (bool_decide_unpack _); vm_compute; exact I. Qed.

Lemma get_option_ends_witness : get_option no_options 0x35 <> Spinning.
Proof. apply (get_option_ends no_options). exact no_options_ok. Defined.

Definition some_options : list (Z * list Z) := [(0x35, [1]); (0x32, [192; 168; 0; 20]); (0x0c, [112; 99])].

Lemma some_options_ok : Forall opt_ok some_options.
Proof. unfold opt_ok, is_byte. apply (bool_decide_unpack _). vm_compute. exact I. Qed.

Lemma get_option_spec_witness : exists rest, get_option (set_options no_options (area_of some_options)) 0x32 = Found 4 ([192; 168; 0; 20] ++ rest).
Proof. apply (get_option_spec (set_options no_options (area_of some_options)) some_options 0x32); [done|exact some_options_ok|cbn; lia|done]. Defined.

Lemma add_option_spec_witness : add_option_string (area_of some_options) [0x33; 4; 0; 0; 14; 16] = Some (6, area_of (some_options ++ [(0x33, [0; 0; 14; 16])])).
Proof.
  apply (add_option_spec some_options (0x33, [0; 0; 14; 16])); [exact some_options_ok| |cbn; lia].
  unfold opt_ok, is_byte. apply (bool_decide_unpack _). vm_compute. exact I.
Defined.

Lemma attach_option_spec_witness :
  content (attach_option (attach_option [] (mkopt (cs "dns") 0x31 6) [10; 0; 0; 1]) (mkopt (cs "dns") 0x31 6) [10; 0; 0; 2]) 6 = Some [10; 0; 0; 1; 10; 0; 0; 2].
Proof.
  destruct (attach_option_spec [] (mkopt (cs "dns") 0x31 6) [10; 0; 0; 1]) as [Hok _]; [split; constructor|cbn; lia|cbn; lia|].
  destruct (attach_option_spec _ (mkopt (cs "dns") 0x31 6) [10; 0; 0; 2] Hok) as [_ Hc]; [cbn; lia|cbn; lia|]. rewrite Hc. reflexivity.
Defined.

(** The code of an option in the last byte of the area: its length is read behind the packet. *)
Example length_behind_packet : get_option (set_options no_options (replicate 307 0 ++ [5])) 5 = Wild.
Proof. by vm_compute. Qed.

(** The option that says that other fields have options too: its value is taken from the byte behind it, and its length
    from the start of the area; the option in the field [file] is not found. *)
Example overload_misread :
  let p := mkmsg 1 1 6 0 0 0 0 0 0 0 0 (replicate 16 0) (replicate 64 0)
                 ([0x0c; 2; 112; 99; 255] ++ replicate 123 0) 0 (area_of [(0x35, [1]); (0x34, [1])]) in
  get_option (set_options p ([0x34; 1; 1; 255] ++ replicate 304 0)) 0x0c = Found 2 ([112; 99; 255] ++ replicate 123 0) /\
  get_option (set_options p ([0x34; 1; 1; 0; 255] ++ replicate 303 0)) 0x0c = Missing.
Proof. by vm_compute. Qed.

End DhcpOptions.
