(* ===== verification/DhcpPacket.v ===== *)
(** * progs.gpl/udhcpcd/packet.c: DHCP packets on the wire.

    The bytes of a packet, reading one, and sending one with its own IP and UDP headers and their checksums.  What the
    system answers is the input of the model; [None] is undefined behaviour. *)
From Stdlib Require Import ZArith Lia Bool String.
From stdpp Require Import base tactics list option numbers.
From S2P Require Import Prelude DhcpOptions.

Module DhcpPacket.
Import DhcpOptions.

Definition DHCP_MAGIC : Z := 0x63825363.
Definition BOOTREQUEST : Z := 1.
Definition BOOTREPLY : Z := 2.
Definition ETH_10MB : Z := 1.
Definition ETH_10MB_LEN : Z := 6.
Definition BROADCAST_FLAG : Z := 0x8000.
Definition SERVER_PORT : Z := 67.
Definition CLIENT_PORT : Z := 68.

Definition DHCPDISCOVER : Z := 1.
Definition DHCPOFFER : Z := 2.
Definition DHCPREQUEST : Z := 3.
Definition DHCPDECLINE : Z := 4.
Definition DHCPACK : Z := 5.
Definition DHCPNAK : Z := 6.
Definition DHCPRELEASE : Z := 7.
Definition DHCPINFORM : Z := 8.

(** [sizeof(struct dhcpMessage)] *)
Definition MSG_SIZE : nat := 548.

Section Packets.
Context `{Endian}.

(** ** The bytes of a packet *)

Definition fields (p : dhcpMessage) : list (list Z) :=
  [[op p]; [htype p]; [hlen p]; [hops p]; store 4 (xid p); store 2 (secs p); store 2 (flags p);
   store 4 (ciaddr p); store 4 (yiaddr p); store 4 (siaddr p); store 4 (giaddr p);
   chaddr p; sname p; file p; store 4 (cookie p); options p].

Definition to_bytes (p : dhcpMessage) : list Z := concat (fields p).

(** [n] bytes from [at_] on. *)
Definition slice (at_ n : nat) (bs : list Z) : list Z := take n (drop at_ bs).

(** [memset] and [read] into the struct. *)
Definition of_bytes (bs : list Z) : dhcpMessage :=
  let bs := take MSG_SIZE bs ++ replicate (MSG_SIZE - length bs) 0 in
  mkmsg (load (slice 0 1 bs)) (load (slice 1 1 bs)) (load (slice 2 1 bs)) (load (slice 3 1 bs)) (load (slice 4 4 bs)) (load (slice 8 2 bs)) (load (slice 10 2 bs))
        (load (slice 12 4 bs)) (load (slice 16 4 bs)) (load (slice 20 4 bs)) (load (slice 24 4 bs))
        (slice 28 16 bs) (slice 44 64 bs) (slice 108 128 bs) (load (slice 236 4 bs)) (slice 240 308 bs).

(** ** A new packet *)

Definition zero_msg : dhcpMessage :=
  mkmsg 0 0 0 0 0 0 0 0 0 0 0 (replicate 16 0) (replicate 64 0) (replicate 128 0) 0 (replicate 308 0).

Definition init_header (type : Z) : option dhcpMessage :=
  let z := zero_msg in
  let op := if (type =? DHCPOFFER) || (type =? DHCPACK) || (type =? DHCPNAK) then BOOTREPLY
            else if (type =? DHCPDISCOVER) || (type =? DHCPREQUEST) || (type =? DHCPRELEASE) || (type =? DHCPINFORM) || (type =? DHCPDECLINE)
            then BOOTREQUEST else 0 in
  area ← wr (options z) 0 DHCP_END;
  r ← add_simple_option area DHCP_MESSAGE_TYPE type;
  Some (mkmsg op ETH_10MB ETH_10MB_LEN 0 0 0 0 0 0 0 0 (chaddr z) (sname z) (file z) (htonl DHCP_MAGIC) (snd r)).

(** ** A packet that arrives *)

Definition set_flags (p : dhcpMessage) (f : Z) : dhcpMessage :=
  mkmsg (op p) (htype p) (hlen p) (hops p) (xid p) (secs p) f (ciaddr p) (yiaddr p) (siaddr p) (giaddr p)
        (chaddr p) (sname p) (file p) (cookie p) (options p).

Definition str_msft98 : list Z := Eval cbv in cs "MSFT 98".

(** [get_packet]: what [read] delivers ([None]: an error); the result and the packet. *)
Definition get_packet (r : option (list Z)) : option (Z * dhcpMessage) :=
  match r with
  | None => Some (-1, zero_msg)
  | Some bs =>
      let p := of_bytes bs in
      if negb (ntohl (cookie p) =? DHCP_MAGIC) then Some (-2, p)
      else if op p =? BOOTREQUEST then
        match get_option p DHCP_VENDOR with
        | Wild | Spinning => None
        | Missing => Some (zlen bs, p)
        | Found n d =>
            if (n =? zlen str_msft98) && has_prefix str_msft98 d
            then Some (zlen bs, set_flags p (Z.lor (flags p) (htons BROADCAST_FLAG)))
            else Some (zlen bs, p)
        end
      else Some (zlen bs, p)
  end.

(** ** Checksums *)

(** The sum of the half words, a byte that is left over being the first byte of the last one. *)
Fixpoint words (bs : list Z) : Z :=
  match bs with
  | a :: b :: tl => load [a; b] + words tl
  | [a] => load [a; 0]
  | [] => 0
  end.

Fixpoint fold_sum (fuel : nat) (s : Z) : option Z :=
  match fuel with
  | O => None
  | S fuel => if Z.shiftr s 16 =? 0 then Some s else fold_sum fuel (Z.land s 0xffff + Z.shiftr s 16)
  end.

(** The sum is an [int]. *)
Definition checksum (bs : list Z) : option Z :=
  s ← int_of (words bs);
  s ← fold_sum 4 s;
  Some (u16 (Z.lnot s)).

(** ** Sending *)

Definition IPPROTO_UDP : Z := 17.
Definition IPDEFTTL : Z := 64.

(** The IP header: [first] holds the version and the length of the header. *)
Definition ip_header (first tot_len ttl check saddr daddr : Z) : list Z :=
  [first; 0] ++ store 2 tot_len ++ [0; 0; 0; 0] ++ [ttl; IPPROTO_UDP] ++ store 2 check ++ store 4 saddr ++ store 4 daddr.

Definition udp_header (source dest len check : Z) : list Z := store 2 source ++ store 2 dest ++ store 2 len ++ store 2 check.

(** The frame that [raw_packet] sends: the UDP checksum is taken over an IP header that has only what the pseudo header has. *)
Definition raw_frame (payload : dhcpMessage) (source_ip source_port dest_ip dest_port : Z) : option (list Z) :=
  let len := htons (8 + Z.of_nat MSG_SIZE) in
  let udp := udp_header (htons source_port) (htons dest_port) len in
  c ← checksum (ip_header 0 len 0 0 source_ip dest_ip ++ udp 0 ++ to_bytes payload);
  let tot := htons (28 + Z.of_nat MSG_SIZE) in
  c' ← checksum (ip_header 0x45 tot IPDEFTTL 0 source_ip dest_ip);
  Some (ip_header 0x45 tot IPDEFTTL c' source_ip dest_ip ++ udp c ++ to_bytes payload).

(** What the system answers to a program that sends: a socket, the calls that set it up, and the number of bytes sent. *)
Record net := mknet { sock : Z; ready : Z; sent_bytes : Z }.

(** What is sent: to the address of the hardware, or through the kernel to an address and a port. *)
Inductive frame := Raw (arp : list Z) (ifindex : Z) (bs : list Z) | Kernel (ip port : Z) (bs : list Z).

Definition raw_packet (n : net) (payload : dhcpMessage) (source_ip source_port dest_ip dest_port : Z) (dest_arp : list Z) (ifindex : Z)
  : option (Z * list frame) :=
  if sock n <? 0 then Some (-1, [])
  else if ready n <? 0 then Some (-1, [])
  else bs ← raw_frame payload source_ip source_port dest_ip dest_port; Some (sent_bytes n, [Raw (take 6 dest_arp) ifindex bs]).

Definition kernel_packet (n : net) (payload : dhcpMessage) (dest_ip dest_port : Z) : Z * list frame :=
  if sock n <? 0 then (-1, [])
  else if ready n =? -1 then (-1, [])
  else (sent_bytes n, [Kernel dest_ip (htons dest_port) (to_bytes payload)]).

(** ** Bytes and packets *)

Definition is_word (n : nat) (x : Z) : Prop := 0 <= x < 256 ^ Z.of_nat n.

Record msg_ok (p : dhcpMessage) : Prop := {
  ok_fields : fields_ok p;
  ok_chaddr : length (chaddr p) = 16%nat /\ bytes (chaddr p);
  ok_bytes : is_byte (op p) /\ is_byte (htype p) /\ is_byte (hlen p) /\ is_byte (hops p);
  ok_words : Forall (is_word 4) [xid p; ciaddr p; yiaddr p; siaddr p; giaddr p; cookie p] /\ Forall (is_word 2) [secs p; flags p]
}.

Lemma length_to_bytes p : fields_ok p -> length (chaddr p) = 16%nat -> length (to_bytes p) = MSG_SIZE.
Proof using Type.
  intros [[S1 _] [F1 _] [O1 _]] C1. unfold to_bytes, fields. cbn [concat]. rewrite !length_app, !length_store, C1, S1, F1, O1. reflexivity.
Qed.

(** A field is found at its place. *)
Lemma slice_concat k : forall l x, l !! k = Some x -> slice (length (concat (take k l))) (length x) (concat l) = x.
Proof using Type.
  induction k as [|k IH]; intros [|y l] x E; cbn in E; [done| |done|].
  - injection E as ->. unfold slice. rewrite take_0. cbn [concat length]. by rewrite drop_0, take_app_length.
  - cbn [take concat]. rewrite length_app. unfold slice. rewrite <- drop_drop, drop_app_length. by apply IH.
Qed.

Lemma slice_field p k a n x : fields_ok p -> length (chaddr p) = 16%nat -> fields p !! k = Some x ->
  length (concat (take k (fields p))) = a -> length x = n -> slice a n (to_bytes p) = x.
Proof using Type. intros _ _ Hk <- <-. by apply slice_concat. Qed.

Ltac field k :=
  erewrite (slice_field _ k); [|eassumption|eassumption|reflexivity| |];
  [|cbn [take concat fields]; rewrite ?length_app, ?length_store; repeat match goal with H : length _ = _ |- _ => rewrite H end; reflexivity
   |rewrite ?length_store; repeat match goal with H : length _ = _ |- _ => rewrite H end; reflexivity].

Ltac computed_bytes := unfold is_byte; apply (bool_decide_unpack _); vm_compute; exact I.

(** What is sent is what is received. *)
Lemma of_to_bytes p : msg_ok p -> of_bytes (to_bytes p) = p.
Proof using Type.
  intros [Hf [C1 C2] (B1 & B2 & B3 & B4) [Hw4 Hw2]]. pose proof (length_to_bytes p Hf C1) as Hl. unfold of_bytes.
  rewrite Hl, take_ge by lia. rewrite Nat.sub_diag, app_nil_r. cbn [replicate]. pose proof Hf as [[S1 _] [F1 _] [O1 _]].
  repeat match goal with H : Forall _ (_ :: _) |- _ => apply Forall_cons_iff in H as [? H] end.
  field 0%nat. field 1%nat. field 2%nat. field 3%nat. field 4%nat. field 5%nat. field 6%nat. field 7%nat. field 8%nat. field 9%nat.
  field 10%nat. field 11%nat. field 12%nat. field 13%nat. field 14%nat. field 15%nat. rewrite !load_store by done.
  assert (forall b, load [b] = b) as Hb by (intros b; unfold load, native, be_word; by destruct big). rewrite !Hb. by destruct p.
Qed.
(** ** Checksums *)

Lemma load_pair a b : is_byte a -> is_byte b -> 0 <= load [a; b] < 65536.
Proof using Type. intros Ha Hb. apply (load_bound [a; b]). constructor; [done|]. by constructor. Qed.

Lemma words_bound bs : bytes bs -> 0 <= words bs <= 65535 * ((zlen bs + 1) / 2).
Proof using Type.
  induction bs as [bs IH] using (well_founded_ind (well_founded_ltof _ length)). intros Hb. destruct bs as [|a [|b bs]].
  - change ((zlen [] + 1) / 2) with 0. cbn [words]. lia.
  - apply Forall_cons_iff in Hb as [Ha _]. pose proof (load_pair a 0 Ha ltac:(done)). change ((zlen [a] + 1) / 2) with 1. cbn [words]. lia.
  - apply Forall_cons_iff in Hb as [Ha [Hb Hbs]%Forall_cons_iff]. pose proof (load_pair a b Ha Hb).
    specialize (IH bs ltac:(unfold ltof; cbn; lia) Hbs). cbn [words length].
    replace (Z.of_nat (S (S (length bs))) + 1) with (zlen bs + 1 + 1 * 2) by lia. rewrite Z.div_add by lia. lia.
Qed.

(** The words of two texts, of which the first has a whole number of them. *)
Lemma words_app k : forall a b, length a = (2 * k)%nat -> words (a ++ b) = words a + words b.
Proof using Type.
  induction k as [|k IH]; intros [|x [|y a]] b Hl; cbn [length] in Hl; try lia; [done|]. cbn [app words]. rewrite IH by lia. lia.
Qed.

(** Folding keeps the sum modulo 65535, and does not make it 0. *)
Lemma fold_step s : 0 <= s -> Z.land s 0xffff + Z.shiftr s 16 = s - 65535 * (s / 65536).
Proof using Type.
  intros Hs. change 0xffff with (Z.ones 16). rewrite Z.land_ones, Z.shiftr_div_pow2 by lia. change (2 ^ 16) with 65536.
  pose proof (Z.div_mod s 65536 ltac:(lia)). change (Z.ones 16) with 65535. lia.
Qed.

Lemma fold_sum_spec s : 0 <= s <= INT_MAX ->
  exists f, fold_sum 4 s = Some f /\ 0 <= f < 65536 /\ (exists k, 0 <= k /\ s = f + 65535 * k) /\ (0 < s -> 0 < f).
Proof using Type.
  intros Hs. unfold INT_MAX in Hs.
  assert (forall n x, 0 <= x -> (x / 65536 = 0 -> fold_sum (S n) x = Some x) /\
    (0 < x / 65536 -> fold_sum (S n) x = fold_sum n (x - 65535 * (x / 65536)))) as Hstep.
  { intros n x Hx. cbn [fold_sum]. rewrite (fold_step x Hx), Z.shiftr_div_pow2 by lia. change (2 ^ 16) with 65536. split; intros E.
    - by rewrite E.
    - by rewrite (proj2 (Z.eqb_neq _ _)) by lia. }
  assert (forall n x, 0 <= x < 131071 -> exists f, fold_sum (S (S n)) x = Some f /\ 0 <= f < 65536 /\ (exists k, 0 <= k /\ x = f + 65535 * k) /\ (0 < x -> 0 < f)) as H2.
  { intros n x Hx. destruct (Hstep (S n) x ltac:(lia)) as [E0 E1]. destruct (Z.lt_ge_cases x 65536) as [Hl|Hl].
    - exists x. rewrite E0 by (apply Z.div_small; lia). split_and!; [done|lia|lia|by exists 0; lia|done].
    - assert (x / 65536 = 1) as Ed by (symmetry; apply Z.div_unique with (x - 65536); lia). rewrite Ed in E1. rewrite E1 by lia.
      destruct (Hstep n (x - 65535 * 1) ltac:(lia)) as [E2 _]. exists (x - 65535). rewrite E2 by (apply Z.div_small; lia).
      split_and!; [do 2 f_equal; lia|lia|lia|by exists 1; lia|lia]. }
  destruct (Hstep 3%nat s ltac:(lia)) as [E0 E1]. destruct (Z.lt_ge_cases s 65536) as [Hl|Hl].
  - exists s. rewrite E0 by (apply Z.div_small; lia). split_and!; [done|lia|lia|by exists 0; lia|done].
  - pose proof (Z.div_mod s 65536 ltac:(lia)) as Ed. pose proof (Z.mod_pos_bound s 65536 ltac:(lia)).
    assert (0 < s / 65536 < 32768) as Hq by (split; [apply Z.div_str_pos; lia|apply Z.div_lt_upper_bound; lia]).
    rewrite E1 by lia. destruct (H2 1%nat (s - 65535 * (s / 65536)) ltac:(lia)) as (f & -> & Hf & (k & Hk0 & Hk) & Hp).
    exists f. split_and!; [done|lia|lia|exists (k + s / 65536); lia|intros _; apply Hp; lia].
Qed.

Lemma checksum_value bs : 0 <= words bs <= INT_MAX ->
  exists f, checksum bs = Some (65535 - f) /\ 0 <= f < 65536 /\ (exists k, 0 <= k /\ words bs = f + 65535 * k) /\ (0 < words bs -> 0 < f).
Proof using Type.
  intros Hw. destruct (fold_sum_spec _ Hw) as (f & E & Hf & Hk & Hp). exists f. unfold checksum. rewrite int_of_ok by lia.
  cbn [mbind option_bind]. rewrite E. cbn [mbind option_bind]. split; [|done]. f_equal. unfold u16, Z.lnot.
  replace (Z.pred (- f)) with (65535 - f + (-1) * 2 ^ 16) by lia. rewrite Z.mod_add by lia. apply Z.mod_small. lia.
Qed.

Lemma load_store2 x : 0 <= x < 65536 -> words (store 2 x) = x.
Proof using Type.
  intros Hx. pose proof (length_store 2 x) as Hl. destruct (store 2 x) as [|a [|b [|c l]]] eqn:E; try done. cbn [words]. rewrite <- E, load_store; [lia|done].
Qed.

(** The checksum of a text with a word of zeros, put in the place of the word, makes the checksum 0: the receiver finds
    the text in order. *)
Lemma checksum_verifies j pre post : length pre = (2 * j)%nat -> bytes pre -> bytes post -> zlen pre + zlen post <= 60000 ->
  exists c, checksum (pre ++ store 2 0 ++ post) = Some c /\ 0 <= c < 65536 /\ checksum (pre ++ store 2 c ++ post) = Some 0.
Proof using Type.
  intros Hj Hpre Hpost Hl. pose proof (words_bound _ Hpre) as W1. pose proof (words_bound _ Hpost) as W2.
  assert ((zlen pre + 1) / 2 + (zlen post + 1) / 2 <= 30001) as Hq.
  { pose proof (Z.div_mod (zlen pre + 1) 2 ltac:(lia)). pose proof (Z.div_mod (zlen post + 1) 2 ltac:(lia)).
    pose proof (Z.mod_pos_bound (zlen pre + 1) 2). pose proof (Z.mod_pos_bound (zlen post + 1) 2). lia. }
  assert (forall x, length x = 2%nat -> words (pre ++ x ++ post) = words pre + words x + words post) as Hw.
  { intros x Hx. rewrite (words_app j) by done. rewrite (words_app 1) by done. lia. }
  assert (words (store 2 0) = 0) as H0 by (by apply load_store2).
  destruct (checksum_value (pre ++ store 2 0 ++ post)) as (f & E & Hf & (k & Hk0 & Hk) & Hp).
  { rewrite Hw by apply length_store. rewrite H0. unfold INT_MAX. lia. }
  rewrite Hw, H0 in Hk, Hp by apply length_store. exists (65535 - f). split; [done|]. split; [lia|].
  destruct (checksum_value (pre ++ store 2 (65535 - f) ++ post)) as (g & E' & Hg & (m & Hm0 & Hm) & Hq').
  { rewrite Hw by apply length_store. rewrite load_store2 by lia. unfold INT_MAX. lia. }
  rewrite Hw, load_store2 in Hm, Hq' by (apply length_store || lia). rewrite E'. f_equal.
  assert (g = 65535 * (k + 1 - m)) as Hgk by lia. assert (0 < g) as Hpos.
  { apply Hq'. destruct (Z.eq_dec f 65535) as [->|]; [|lia]. lia. }
  nia.
Qed.

(** ** A frame that is sent *)

Lemma to_bytes_bytes p : msg_ok p -> bytes (to_bytes p).
Proof using Type.
  intros [[[_ S2] [_ F2] [_ O2]] [_ C2] (B1 & B2 & B3 & B4) _]. unfold to_bytes. apply Forall_concat. unfold fields.
  repeat (apply Forall_cons_iff; split; [first [apply store_bytes | done | constructor; [done|constructor]]|]). constructor.
Qed.

Lemma header_bytes first tot ttl check s d : is_byte first -> is_byte ttl -> bytes (ip_header first tot ttl check s d).
Proof using Type.
  intros Hf Ht. unfold ip_header. repeat (apply Forall_app; split); try apply store_bytes;
    repeat (apply Forall_cons_iff; split; [done|]); constructor.
Qed.

Lemma ip_header_split first tot ttl check s d : ip_header first tot ttl check s d =
  ([first; 0] ++ store 2 tot ++ [0; 0; 0; 0] ++ [ttl; IPPROTO_UDP]) ++ store 2 check ++ (store 4 s ++ store 4 d).
Proof using Type. unfold ip_header. by rewrite <- !app_assoc. Qed.


(** The frame that is sent: the packet behind an IP and a UDP header, whose checksums the receiver finds in order; the
    packet in it is the one that was to be sent. *)
Theorem raw_frame_verifies payload source_ip source_port dest_ip dest_port :
  msg_ok payload ->
  let len := htons (8 + Z.of_nat MSG_SIZE) in
  exists c c', raw_frame payload source_ip source_port dest_ip dest_port =
      Some (ip_header 0x45 (htons (28 + Z.of_nat MSG_SIZE)) IPDEFTTL c' source_ip dest_ip ++
            udp_header (htons source_port) (htons dest_port) len c ++ to_bytes payload) /\
    checksum (ip_header 0x45 (htons (28 + Z.of_nat MSG_SIZE)) IPDEFTTL c' source_ip dest_ip) = Some 0 /\
    checksum (ip_header 0 len 0 0 source_ip dest_ip ++ udp_header (htons source_port) (htons dest_port) len c ++ to_bytes payload) = Some 0 /\
    of_bytes (to_bytes payload) = payload.
Proof using Type.
  intros Hp len. unfold raw_frame. fold len.
  destruct (checksum_verifies 13 (ip_header 0 len 0 0 source_ip dest_ip ++ store 2 (htons source_port) ++ store 2 (htons dest_port) ++ store 2 len) (to_bytes payload))
    as (c & E & Hc & V).
  { unfold ip_header. rewrite !length_app, !length_store. reflexivity. }
  { apply Forall_app. split; [|by repeat (apply Forall_app; split); apply store_bytes]. by apply header_bytes. }
  { by apply to_bytes_bytes. }
  { destruct Hp as [Hf [C1 _] _ _]. rewrite (length_to_bytes _ Hf C1). unfold ip_header. rewrite !length_app, !length_store. unfold MSG_SIZE. cbn [length]. lia. }
  destruct (checksum_verifies 5 ([0x45; 0] ++ store 2 (htons (28 + Z.of_nat MSG_SIZE)) ++ [0; 0; 0; 0] ++ [IPDEFTTL; IPPROTO_UDP]) (store 4 source_ip ++ store 4 dest_ip))
    as (c' & E' & Hc' & V').
  { rewrite !length_app, !length_store. reflexivity. }
  { pose proof (header_bytes 0x45 (htons (28 + Z.of_nat MSG_SIZE)) IPDEFTTL 0 source_ip dest_ip ltac:(done) ltac:(done)) as Hb.
    rewrite ip_header_split in Hb. by apply Forall_app in Hb as [? _]. }
  { apply Forall_app. split; apply store_bytes. }
  { rewrite !length_app, !length_store. cbn [length]. lia. }
  exists c, c'. rewrite <- ip_header_split in V', E'. rewrite <- !app_assoc in E, V.
  assert (forall x, udp_header (htons source_port) (htons dest_port) len x ++ to_bytes payload =
    store 2 (htons source_port) ++ store 2 (htons dest_port) ++ store 2 len ++ store 2 x ++ to_bytes payload) as Hu by (intros x; unfold udp_header; by rewrite <- !app_assoc).
  rewrite !Hu, E. cbn [mbind option_bind]. rewrite E'. cbn [mbind option_bind]. rewrite Hu. split_and!; [done|done|done|by apply of_to_bytes].
Qed.

(** ** New packets *)

(** The header of a packet of each type, with the type as its only option. *)
Lemma init_header_spec type : is_byte type -> exists p, init_header type = Some p /\ options p = area_of [(DHCP_MESSAGE_TYPE, [type])] /\
  (type = DHCPOFFER \/ type = DHCPACK \/ type = DHCPNAK -> op p = BOOTREPLY) /\ ntohl (cookie p) = DHCP_MAGIC /\ msg_ok p /\
  yiaddr p = 0 /\ sname p = replicate 64 0 /\ file p = replicate 128 0.
Proof using Type.
  intros Ht. unfold init_header. change (wr (options zero_msg) 0 DHCP_END) with (Some (area_of [])). cbn [mbind option_bind].
  rewrite simple_option_1 by reflexivity. rewrite (add_option_spec [] (DHCP_MESSAGE_TYPE, [u8 type])); [|constructor| |cbn; lia].
  2: { split_and!; [done..|constructor; [apply u8_byte|constructor]]. }
  change (_ <? 308) with true. cbn [mbind option_bind snd app]. rewrite u8_small by done. eexists. split; [reflexivity|]. cbn [options op cookie yiaddr sname file].
  split_and!; [done| |by apply ntohl_htonl| |done|done|done].
  - intros [->|[->| ->]]; reflexivity.
  - constructor; cbn [op htype hlen hops xid secs flags ciaddr yiaddr siaddr giaddr chaddr sname file cookie options].
    + constructor; cbn [sname file options]; (split; [reflexivity|]); [computed_bytes|computed_bytes|].
      unfold area_of. repeat (apply Forall_cons_iff; split; [done|]). constructor.
    + split; [reflexivity|computed_bytes].
    + split_and!; try done; repeat case_match; done.
    + split; repeat constructor; try done; apply htonl_bound.
Qed.

End Packets.
End DhcpPacket.
