(* ===== verification/DhcpLeases.v ===== *)
(** * progs.gpl/udhcpcd/leases.c: the addresses that the DHCP server has given away.

    A table of leases, each with the hardware address of the client, the address it has and the time when it ends, and
    a table of addresses that are reserved.  The time since the start of the system, which [get_uptime] returns, and the
    answers to ARP requests are inputs of the model. *)
From Stdlib Require Import ZArith Lia Bool String.
From stdpp Require Import base tactics list option numbers.
From S2P Require Import Prelude DhcpOptions.

Module DhcpLeases.
Import DhcpOptions.

(** ** Leases *)

(** [struct dhcpOfferedAddr] *)
Record dhcpOfferedAddr := mklease {
  l_chaddr : list Z; l_yiaddr : Z; l_expires : Z; l_ACKed : Z; l_hostname : list Z; l_options : list (list Z)
}.

Definition blank_chaddr : list Z := replicate 16 0.

Definition zero_lease : dhcpOfferedAddr := mklease blank_chaddr 0 0 0 (replicate 64 0) [].

Definition MAX_STATIC_LEASES : nat := 32.

(** The clients that match, and the addresses. *)
Definition nonzero (chaddr : list Z) : bool := existsb (fun b => negb (b =? 0)) chaddr.
Definition matches (chaddr : list Z) (yiaddr : Z) (l : dhcpOfferedAddr) : bool :=
  nonzero chaddr && eqb_list (l_chaddr l) chaddr || negb (yiaddr =? 0) && (l_yiaddr l =? yiaddr).

Definition clear_lease (ls : list dhcpOfferedAddr) (chaddr : list Z) (yiaddr : Z) : list dhcpOfferedAddr :=
  map (fun l => if matches chaddr yiaddr l then zero_lease else l) ls.

Definition lease_expired (l : dhcpOfferedAddr) (now : Z) : bool := l_expires l <=? now.

(** The loop of [oldest_expired_lease]: from slot [i] on, the earliest end so far and its slot. *)
Fixpoint oldest_loop (ls : list dhcpOfferedAddr) (i : nat) (oldest_lease : Z) (oldest : option nat) : option nat :=
  match ls with
  | [] => oldest
  | l :: tl => if l_expires l <=? oldest_lease then oldest_loop tl (S i) (l_expires l) (Some i) else oldest_loop tl (S i) oldest_lease oldest
  end.

Definition oldest_expired_lease (ls : list dhcpOfferedAddr) (now : Z) : option nat := oldest_loop ls 0 now None.

(** [strncpy] of a name into the 64 bytes, and the terminator. *)
Definition hostname_bytes (s : list Z) : list Z := take 63 (s ++ replicate 64 0) ++ [0].

(** [add_lease]: the slot, or NULL when all leases are in use, and the table.  Without a name the slot keeps the name it had. *)
Definition add_lease (ls : list dhcpOfferedAddr) (now : Z) (chaddr : list Z) (yiaddr lease : Z) (hostname : option (list Z))
  : option nat * list dhcpOfferedAddr :=
  let ls := clear_lease ls chaddr yiaddr in
  match oldest_expired_lease ls now with
  | None => (None, ls)
  | Some i =>
      (Some i, alter (fun l => mklease chaddr yiaddr (u32 (now + lease)) (l_ACKed l)
                                 (if hostname is Some s then hostname_bytes s else l_hostname l) (l_options l)) i ls)
  end.

(** ** Looking for leases *)

(** The first that satisfies [f]: its slot. *)
Fixpoint first_slot (f : dhcpOfferedAddr -> bool) (ls : list dhcpOfferedAddr) : option nat :=
  match ls with
  | [] => None
  | l :: tl => if f l then Some 0%nat else S <$> first_slot f tl
  end.

Definition find_lease_by_chaddr (ls : list dhcpOfferedAddr) (chaddr : list Z) : option nat :=
  first_slot (fun l => eqb_list (l_chaddr l) chaddr) ls.
Definition find_lease_by_yiaddr (ls : list dhcpOfferedAddr) (yiaddr : Z) : option nat :=
  first_slot (fun l => l_yiaddr l =? yiaddr) ls.

(** The reserved addresses end with the first that is 0. *)
Fixpoint reserved (ls : list dhcpOfferedAddr) : list dhcpOfferedAddr :=
  match ls with
  | [] => []
  | l :: tl => if l_yiaddr l =? 0 then [] else l :: reserved tl
  end.

Definition find_static_lease_by_chaddr (statics : list dhcpOfferedAddr) (chaddr : list Z) : option nat :=
  first_slot (fun l => eqb_list (l_chaddr l) chaddr) (reserved (take MAX_STATIC_LEASES statics)).
Definition find_static_lease_by_yiaddr (statics : list dhcpOfferedAddr) (yiaddr : Z) : option nat :=
  first_slot (fun l => l_yiaddr l =? yiaddr) (reserved (take MAX_STATIC_LEASES statics)).

(** ** Addresses *)

Section Addresses.
Context `{Endian}.

(** The range, as numbers, and the bits of an address that count the hosts. *)
Variables first last mask : Z.
Variables (ls statics : list dhcpOfferedAddr) (now : Z).

(** [arpping] answers 0: the address is in use. *)
Variable in_use : Z -> bool.
Definition check_ip (addr : Z) : bool := in_use addr.

(** The conditions of the loop for the address [addr], a number. *)
Definition assignable (check_expired : bool) (addr : Z) : bool :=
  if Z.land addr mask =? 0 then false
  else if Z.land addr mask =? mask then false
  else
    let ret := htonl addr in
    if find_static_lease_by_yiaddr statics ret is Some _ then false
    else
      match find_lease_by_yiaddr ls ret with
      | None => true
      | Some i => if ls !! i is Some l then check_expired && lease_expired l now else false
      end && negb (check_ip ret).

(** The loop of [find_address]; without fuel it has not come to an end. *)
Fixpoint address_loop (fuel : nat) (check_expired : bool) (addr : Z) : option Z :=
  match fuel with
  | O => None
  | S fuel =>
      if last <? addr then Some 0
      else if assignable check_expired addr then Some (htonl addr)
      else address_loop fuel check_expired (u32 (addr + 1))
  end.

Definition find_address (check_expired : bool) : option Z := address_loop (S (Z.to_nat (last - first + 1))) check_expired first.
End Addresses.

(** ** The table *)

(** The table is a partial map both ways: an address that is not 0 has one slot, and so has a client. *)
Definition slots_differ (f : dhcpOfferedAddr -> Prop) (same : dhcpOfferedAddr -> dhcpOfferedAddr -> Prop) (ls : list dhcpOfferedAddr) : Prop :=
  forall i j l l', ls !! i = Some l -> ls !! j = Some l' -> f l -> same l l' -> i = j.

Record table_ok (ls : list dhcpOfferedAddr) : Prop := {
  one_per_address : slots_differ (fun l => l_yiaddr l <> 0) (fun l l' => l_yiaddr l = l_yiaddr l') ls;
  one_per_client : slots_differ (fun l => nonzero (l_chaddr l) = true) (fun l l' => l_chaddr l = l_chaddr l') ls;
  chaddr_sizes : Forall (fun l => length (l_chaddr l) = 16%nat) ls
}.

Lemma eqb_list_true a b : eqb_list a b = true <-> a = b.
Proof. revert b. induction a as [|x a IH]; intros [|y b]; cbn [eqb_list]; try done. rewrite andb_true_iff, Z.eqb_eq, IH. split; [by intros [-> ->]|by intros [= -> ->]]. Qed.

Lemma zero_lease_blank : l_yiaddr zero_lease = 0 /\ nonzero (l_chaddr zero_lease) = false /\ l_expires zero_lease = 0.
Proof. done. Qed.

(** The lease found is one that has ended, and has ended first. *)
Lemma oldest_loop_spec ls : forall i bound best,
  match oldest_loop ls i bound best with
  | None => best = None /\ Forall (fun l => bound < l_expires l) ls
  | Some k => (best = Some k /\ Forall (fun l => bound < l_expires l) ls) \/
              exists j l, k = (i + j)%nat /\ ls !! j = Some l /\ l_expires l <= bound /\ Forall (fun l' => l_expires l <= l_expires l') ls
  end.
Proof.
  induction ls as [|l ls IH]; intros i bound best; cbn [oldest_loop]; [destruct best; [by left|done]|].
  destruct (Z.leb_spec (l_expires l) bound) as [Hle|Hgt].
  - specialize (IH (S i) (l_expires l) (Some i)). destruct (oldest_loop ls (S i) (l_expires l) (Some i)) as [k|]; [|by destruct IH].
    right. destruct IH as [[[= ->] Hall]|(j & x & -> & Hj & Hx & Hall)].
    + exists 0%nat, l. split_and!; [lia|done|lia|constructor; [lia|]]. eapply List.Forall_impl; [|exact Hall]. cbn. lia.
    + exists (S j), x. split_and!; [lia|done|lia|by constructor].
  - specialize (IH (S i) bound best). destruct (oldest_loop ls (S i) bound best) as [k|].
    + destruct IH as [[-> Hall]|(j & x & -> & Hj & Hx & Hall)]; [left; split; [done|by constructor]|right].
      exists (S j), x. split_and!; [lia|done|lia|constructor; [lia|done]].
    + destruct IH as [-> Hall]. split; [done|by constructor].
Qed.

Lemma oldest_spec ls now :
  match oldest_expired_lease ls now with
  | None => Forall (fun l => lease_expired l now = false) ls
  | Some i => exists l, ls !! i = Some l /\ lease_expired l now = true /\ Forall (fun l' => l_expires l <= l_expires l') ls
  end.
Proof.
  pose proof (oldest_loop_spec ls 0 now None) as H. unfold oldest_expired_lease, lease_expired. destruct (oldest_loop ls 0 now None) as [k|].
  - destruct H as [[? _]|(j & l & -> & Hj & Hl & Hall)]; [done|]. exists l. split_and!; [done|by apply Z.leb_le|done].
  - destruct H as [_ Hall]. eapply List.Forall_impl; [|exact Hall]. intros l Hl. cbn in Hl. by apply Z.leb_gt.
Qed.

Lemma clear_lookup ls c a j : clear_lease ls c a !! j = (fun l => if matches c a l then zero_lease else l) <$> ls !! j.
Proof. apply (list_lookup_fmap (fun l => if matches c a l then zero_lease else l) ls j). Qed.

Lemma clear_ok ls c a : table_ok ls -> table_ok (clear_lease ls c a).
Proof.
  intros [H1 H2 H3]. split.
  - intros i j l l' Hi Hj Hl E. rewrite clear_lookup in Hi, Hj. destruct (ls !! i) as [x|] eqn:Ei; [|done]. destruct (ls !! j) as [y|] eqn:Ej; [|done].
    cbn in Hi, Hj. injection Hi as <-. injection Hj as <-. destruct (matches c a x); [done|]. destruct (matches c a y); [by destruct Hl|]. eapply (H1 i j x y); done.
  - intros i j l l' Hi Hj Hl E. rewrite clear_lookup in Hi, Hj. destruct (ls !! i) as [x|] eqn:Ei; [|done]. destruct (ls !! j) as [y|] eqn:Ej; [|done].
    cbn in Hi, Hj. injection Hi as <-. injection Hj as <-. destruct (matches c a x); [done|].
    destruct (matches c a y); [cbn [zero_lease l_chaddr] in E; rewrite E in Hl; done|]. eapply (H2 i j x y); done.
  - apply Forall_map. eapply List.Forall_impl; [|exact H3]. intros l Hl. cbn. by destruct (matches c a l).
Qed.

(** In a table that has been cleared nothing has the address or the client. *)
Lemma cleared ls c a j l : clear_lease ls c a !! j = Some l ->
  (a <> 0 -> l_yiaddr l <> a) /\ (nonzero c = true -> l_chaddr l <> c).
Proof.
  rewrite clear_lookup. destruct (ls !! j) as [x|]; [|done]. cbn. intros [= <-]. destruct (matches c a x) eqn:Em.
  - split; [done|]. intros Hc E. cbn in E. by rewrite <- E in Hc.
  - unfold matches in Em. bprop. destruct_or!; bprop; split; try done; intros Hn E.
    all: try (rewrite Hn in *; done). all: subst; try (rewrite Z.eqb_refl in *; done).
    all: try (rewrite (proj2 (eqb_list_true _ _) eq_refl) in *; done).
    all: congruence.
Qed.

Lemma alter_insert {A} (f : A -> A) (i : nat) (l : list A) x : l !! i = Some x -> alter f i l = <[i := f x]> l.
Proof. intros Hi. rewrite list_insert_alter. apply list_alter_ext; [|done]. intros y Hy. congruence. Qed.

Lemma alter_ok ls i x : table_ok ls -> length (l_chaddr x) = 16%nat ->
  (forall j l, j <> i -> ls !! j = Some l -> (l_yiaddr x <> 0 -> l_yiaddr l <> l_yiaddr x) /\ (nonzero (l_chaddr x) = true -> l_chaddr l <> l_chaddr x)) ->
  table_ok (<[i := x]> ls).
Proof.
  intros [H1 H2 H3] Hx Hn. split.
  - intros j k l l' Hj Hk Hl E. rewrite list_lookup_insert_Some in Hj, Hk.
    destruct Hj as [(-> & <- & _)|[Hji Hj]], Hk as [(-> & <- & _)|[Hki Hk]]; [done| | |by eapply (H1 j k l l')].
    + exfalso. destruct (Hn k l' ltac:(done) Hk) as [Ha _]. by apply (Ha Hl).
    + exfalso. destruct (Hn j l ltac:(done) Hj) as [Ha _]. apply Ha; [congruence|done].
  - intros j k l l' Hj Hk Hl E. rewrite list_lookup_insert_Some in Hj, Hk.
    destruct Hj as [(-> & <- & _)|[Hji Hj]], Hk as [(-> & <- & _)|[Hki Hk]]; [done| | |by eapply (H2 j k l l')].
    + exfalso. destruct (Hn k l' ltac:(done) Hk) as [_ Ha]. by apply (Ha Hl).
    + exfalso. destruct (Hn j l ltac:(done) Hj) as [_ Ha]. apply Ha; [by rewrite <- E|done].
  - by apply Forall_insert.
Qed.

(** ** Adding a lease *)

(** A lease that counts: it has not ended, and belongs neither to the client nor to the address. *)
Definition foreign (now : Z) (c : list Z) (a : Z) (l : dhcpOfferedAddr) : Prop := lease_expired l now = false /\ matches c a l = false.

(** Entering a lease leaves a sound table in which the client has the address and nobody else has either; no lease of
    another client for another address is touched before it has ended.  There is no room only when no lease has ended and
    the client and the address are new to the table, which then stays as it is. *)
Theorem add_lease_spec ls now c a t h :
  table_ok ls -> length c = 16%nat -> 0 <= now ->
  let '(r, ls') := add_lease ls now c a t h in
  table_ok ls' /\ length ls' = length ls /\ (forall j l, ls !! j = Some l -> foreign now c a l -> ls' !! j = Some l) /\
  match r with
  | Some i => exists l, ls' !! i = Some l /\ l_chaddr l = c /\ l_yiaddr l = a /\ l_expires l = u32 (now + t)
  | None => ls' = ls /\ Forall (foreign now c a) ls
  end.
Proof.
  intros Hok Hc Hnow. unfold add_lease. pose proof (oldest_spec (clear_lease ls c a) now) as Ho.
  assert (length (clear_lease ls c a) = length ls) as Hlen by apply length_map.
  destruct (oldest_expired_lease (clear_lease ls c a) now) as [i|].
  - destruct Ho as (l0 & Hi & He & _). set (f := fun l => mklease c a _ _ _ _).
    assert (alter f i (clear_lease ls c a) = <[i := f l0]> (clear_lease ls c a)) as -> by (by apply alter_insert).
    split_and!.
    + apply alter_ok; [by apply clear_ok|done|]. intros j l _ Hj. exact (cleared _ _ _ _ _ Hj).
    + by rewrite length_insert.
    + intros j l Hj [F1 F2]. assert (clear_lease ls c a !! j = Some l) as Hj' by (rewrite clear_lookup, Hj; cbn; by rewrite F2).
      rewrite list_lookup_insert_ne; [done|]. intros <-. congruence.
    + exists (f l0). split; [apply list_lookup_insert_eq; by eapply lookup_lt_Some|done].
  - assert (Forall (foreign now c a) ls) as Hall.
    { apply Forall_lookup. intros j l Hj. rewrite Forall_lookup in Ho. specialize (Ho j). rewrite clear_lookup, Hj in Ho. specialize (Ho _ eq_refl).
      cbn in Ho. destruct (matches c a l) eqn:Em; [|done]. unfold lease_expired in Ho. apply Z.leb_gt in Ho. cbn in Ho. lia. }
    assert (clear_lease ls c a = ls) as ->.
    { unfold clear_lease. clear -Hall. induction Hall as [|l ls [_ Hm] _ IH]; [done|]. cbn. by rewrite Hm, IH. }
    done.
Qed.

(** ** Looking for leases *)

Lemma first_slot_spec f ls :
  match first_slot f ls with
  | Some i => exists l, ls !! i = Some l /\ f l = true
  | None => Forall (fun l => f l = false) ls
  end.
Proof.
  induction ls as [|l ls IH]; cbn [first_slot]; [done|]. destruct (f l) eqn:E; [by exists l|].
  destruct (first_slot f ls) as [i|]; cbn; [done|by constructor].
Qed.

Lemma lease_by_yiaddr ls a :
  match find_lease_by_yiaddr ls a with
  | Some i => exists l, ls !! i = Some l /\ l_yiaddr l = a
  | None => Forall (fun l => l_yiaddr l <> a) ls
  end.
Proof.
  unfold find_lease_by_yiaddr. pose proof (first_slot_spec (fun l => l_yiaddr l =? a) ls) as H. destruct (first_slot _ ls).
  - destruct H as (l & Hl & E%Z.eqb_eq). by exists l.
  - eapply List.Forall_impl; [|exact H]. intros l E%Z.eqb_neq. done.
Qed.

Lemma lease_by_chaddr ls c :
  match find_lease_by_chaddr ls c with
  | Some i => exists l, ls !! i = Some l /\ l_chaddr l = c
  | None => Forall (fun l => l_chaddr l <> c) ls
  end.
Proof.
  unfold find_lease_by_chaddr. pose proof (first_slot_spec (fun l => eqb_list (l_chaddr l) c) ls) as H. destruct (first_slot _ ls).
  - destruct H as (l & Hl & E%eqb_list_true). by exists l.
  - eapply List.Forall_impl; [|exact H]. intros l E Hc. cbn in E. by rewrite (proj2 (eqb_list_true _ _) Hc) in E.
Qed.

(** The addresses that are reserved. *)
Definition is_reserved (statics : list dhcpOfferedAddr) (a : Z) : Prop :=
  exists l, l ∈ reserved (take MAX_STATIC_LEASES statics) /\ l_yiaddr l = a.

Lemma static_by_yiaddr statics a :
  match find_static_lease_by_yiaddr statics a with Some _ => is_reserved statics a | None => ~ is_reserved statics a end.
Proof.
  unfold find_static_lease_by_yiaddr, is_reserved. pose proof (first_slot_spec (fun l => l_yiaddr l =? a) (reserved (take MAX_STATIC_LEASES statics))) as H.
  destruct (first_slot _ _).
  - destruct H as (l & Hl & E%Z.eqb_eq). exists l. split; [by eapply list_elem_of_lookup_2|done].
  - intros (l & Hl & <-). apply list_elem_of_In in Hl. rewrite List.Forall_forall in H. specialize (H l Hl). cbn in H. by rewrite Z.eqb_refl in H.
Qed.

(** ** Addresses *)

Lemma htonl_zero `{Endian} x : 0 <= x < 2 ^ 32 -> htonl x = 0 -> x = 0.
Proof. intros Hx E. rewrite <- (ntohl_htonl x Hx), E. unfold ntohl, store, native. by destruct big. Qed.

Section FindAddress.
Context `{Endian}.
Variables first last mask : Z.
Variables (ls statics : list dhcpOfferedAddr) (now : Z).
Variable in_use : Z -> bool.

(** An address that can be given away: neither that of the network nor that of all hosts, not reserved, not answering, and
    of no lease of the table, or only of a lease that has ended. *)
Record available (check_expired : bool) (x : Z) : Prop := {
  av_host : Z.land x mask <> 0 /\ Z.land x mask <> mask;
  av_reserved : ~ is_reserved statics (htonl x);
  av_lease : forall i, find_lease_by_yiaddr ls (htonl x) = Some i ->
    check_expired = true /\ exists l, ls !! i = Some l /\ lease_expired l now = true;
  av_quiet : in_use (htonl x) = false
}.

Lemma assignable_spec ce x : assignable mask ls statics now in_use ce x = true <-> available ce x.
Proof using Type.
  unfold assignable, check_ip. pose proof (static_by_yiaddr statics (htonl x)) as Hs. pose proof (lease_by_yiaddr ls (htonl x)) as Hl. split.
  - intros E. destruct (Z.eqb_spec (Z.land x mask) 0) as [|H0]; [done|]. destruct (Z.eqb_spec (Z.land x mask) mask) as [|H1]; [done|].
    destruct (find_static_lease_by_yiaddr statics (htonl x)); [done|]. apply andb_true_iff in E as [E1 E2%negb_true_iff]. constructor; [done|done| |done].
    intros i Hi. rewrite Hi in *. destruct Hl as (l & Hl & _). rewrite Hl in E1. apply andb_true_iff in E1 as [-> E1]. by split; [|exists l].
  - intros [[H0 H1] H2 H3 H4]. rewrite (proj2 (Z.eqb_neq _ _) H0), (proj2 (Z.eqb_neq _ _) H1). destruct (find_static_lease_by_yiaddr statics (htonl x)); [done|].
    rewrite H4. destruct (find_lease_by_yiaddr ls (htonl x)) as [i|]; [|done]. destruct (H3 i eq_refl) as (-> & l & -> & ->). done.
Qed.

Lemma address_loop_spec ce : 0 <= first -> last < 2 ^ 32 - 1 -> forall fuel x, first <= x <= last + 1 -> last + 1 - x < Z.of_nat fuel ->
  (address_loop last mask ls statics now in_use fuel ce x = Some 0 /\ (forall y, x <= y <= last -> ~ available ce y)) \/
  (exists y, address_loop last mask ls statics now in_use fuel ce x = Some (htonl y) /\ x <= y <= last /\ available ce y).
Proof using Type.
  intros H0 Hlast. induction fuel as [|fuel IH]; intros x Hx Hf; [lia|]. cbn [address_loop].
  destruct (Z.ltb_spec last x) as [Hl|Hl]; [left; split; [done|intros y Hy; lia]|].
  destruct (assignable mask ls statics now in_use ce x) eqn:E; [right; exists x; split_and!; [done|lia|lia|by apply assignable_spec]|].
  assert (u32 (x + 1) = x + 1) as -> by (apply u32_small; lia). destruct (IH (x + 1) ltac:(lia) ltac:(lia)) as [[-> Hno]|(y & -> & Hy & Ha)].
  - left. split; [done|]. intros y Hy Ha. destruct (Z.eq_dec y x) as [->|]; [by apply assignable_spec in Ha; congruence|apply (Hno y); [lia|done]].
  - right. exists y. split_and!; [done|lia|lia|done].
Qed.

(** The search for an address ends, with the first address of the range that can be given away; it fails only when no
    address of the range can.  The range must end below the last address of all. *)
Theorem find_address_spec ce : 0 <= first -> first <= last + 1 -> last < 2 ^ 32 - 1 ->
  exists r, find_address first last mask ls statics now in_use ce = Some r /\
    ((r = 0 /\ forall y, first <= y <= last -> ~ available ce y) \/
     (r <> 0 /\ first <= ntohl r <= last /\ available ce (ntohl r))).
Proof using Type.
  intros H0 Hle Hlast. unfold find_address.
  destruct (address_loop_spec ce H0 Hlast (S (Z.to_nat (last - first + 1))) first) as [[E Hno]|(y & E & Hy & Ha)]; [lia|lia| |].
  - exists 0. split; [done|]. left. done.
  - exists (htonl y). assert (ntohl (htonl y) = y) as En by (apply ntohl_htonl; lia). rewrite En. split; [done|]. right. split_and!; [|lia|lia|done].
    intros E0. assert (y = 0) as -> by (apply htonl_zero; lia). destruct Ha as [[Hn _] _ _ _]. done.
Qed.
End FindAddress.

(** ** Witnesses *)

#[local] Instance be_order : Endian := { big := true }.

Definition client (n : Z) : list Z := [2; 0; 0; 0; 0; n] ++ replicate 10 0.

(** Two leases, of which the second has ended, and a slot that is free. *)
Definition some_leases : list dhcpOfferedAddr :=
  [mklease (client 1) 0xC0A80014 500 1 (replicate 64 0) []; mklease (client 2) 0xC0A80015 80 1 (replicate 64 0) []; zero_lease].

Lemma some_leases_ok : table_ok some_leases.
Proof.
  split.
  - intros [|[|[|i]]] [|[|[|j]]] l l' [= <-] [= <-]; done.
  - intros [|[|[|i]]] [|[|[|j]]] l l' [= <-] [= <-]; done.
  - repeat constructor.
Qed.

Lemma add_lease_spec_witness :
  let '(r, ls') := add_lease some_leases 100 (client 3) 0xC0A80016 60 None in
  r = Some 2%nat /\ table_ok ls' /\ ls' !! 0%nat = some_leases !! 0%nat.
Proof.
  pose proof (add_lease_spec some_leases 100 (client 3) 0xC0A80016 60 None some_leases_ok eq_refl ltac:(lia)) as H.
  destruct (add_lease some_leases 100 (client 3) 0xC0A80016 60 None) as [r ls'] eqn:E. destruct H as (Hok & _ & Hk & _). split_and!; [|done|].
  - by vm_compute in E; injection E as <- _.
  - apply (Hk 0%nat); [done|]. by split.
Defined.

Lemma find_address_spec_witness :
  find_address 0xC0A80014 0xC0A80016 0xff some_leases [] 100 (fun _ => false) true = Some 0xC0A80015.
Proof.
  destruct (find_address_spec 0xC0A80014 0xC0A80016 0xff some_leases [] 100 (fun _ => false) true ltac:(lia) ltac:(lia) ltac:(lia))
    as (r & E & _). rewrite E. vm_compute in E. by injection E as <-.
Defined.

(** A client without a name gets the name of the client whose slot it takes. *)
Example stale_hostname :
  let full := [mklease (client 2) 0xC0A80015 80 1 (hostname_bytes (cs "laptop")) []] in
  match add_lease full 100 (client 3) 0xC0A80016 60 None with
  | (Some i, ls) => (fun l => (l_chaddr l, take 6 (l_hostname l))) <$> ls !! i = Some (client 3, cs "laptop")
  | _ => False
  end.
Proof. by vm_compute. Qed.

(** An infinite lease ends before it begins. *)
Example infinite_lease_wraps :
  match add_lease some_leases 100 (client 3) 0xC0A80016 0xFFFFFFFF None with
  | (Some i, ls) => (fun l => lease_expired l 100) <$> ls !! i = Some true
  | _ => False
  end.
Proof. by vm_compute. Qed.

(** When the range ends with the last address of all and nothing in it is free the search never ends: the number after the
    last one is 0. *)
Lemma endless_search `{Endian} mask ls statics now ce fuel : forall x, 0 <= x < 2 ^ 32 ->
  address_loop 0xFFFFFFFF mask ls statics now (fun _ => true) fuel ce x = None.
Proof.
  induction fuel as [|fuel IH]; intros x Hx; [done|]. cbn [address_loop]. rewrite (proj2 (Z.ltb_ge _ _)) by lia.
  assert (assignable mask ls statics now (fun _ => true) ce x = false) as ->.
  { destruct (assignable _ _ _ _ _ _ _) eqn:E; [|done]. by apply assignable_spec in E as [_ _ _ ?]. }
  apply IH. apply Z.mod_pos_bound. lia.
Qed.

End DhcpLeases.
