(* ===== verification/DhcpServer.v ===== *)
(** * progs.gpl/udhcpcd/serverpacket.c, dhcpd.c and files.c: the DHCP server.

    The messages of the clients, what the server answers, and the file of leases.  The model is of a build without the
    options of the configuration that hold the address of the LAN or run several servers.  What the system answers in the
    course of one message - the time, ARP, the network, the file - is the input; [None] is undefined behaviour, or a search
    without end. *)
From Stdlib Require Import ZArith Lia Bool String.
From stdpp Require Import base tactics list option numbers.
From S2P Require Import Prelude XmldbFile DhcpOptions DhcpPacket DhcpLeases.

Module DhcpServer.
Import DhcpOptions DhcpPacket DhcpLeases.

(** [struct server_config_t]; the address of the server, the range of the leases; the name of the file of leases and the commands
    that are run when it has been written. *)
Record server_config_t := mkcfg {
  server : Z; start : Z; end_ : Z; conf_options : list (list Z); ifindex : Z;
  lease : Z; max_leases : nat; remaining : bool; decline_time : Z; offer_time : Z; min_lease : Z;
  conf_siaddr : Z; conf_sname : option (list Z); boot_file : option (list Z); mask : Z; force_bcast : bool;
  lease_name : list Z; notify_file : option (list Z); dhcp_helper : option (list Z)
}.

(** The tables, the file of leases, and the commands that were given to [system]. *)
Record dhcpd := mkd { leases : list dhcpOfferedAddr; static_leases : list dhcpOfferedAddr; lease_file : list Z; commands : list (list Z) }.

Definition set_leases (st : dhcpd) (ls : list dhcpOfferedAddr) : dhcpd := mkd ls (static_leases st) (lease_file st) (commands st).
Definition set_statics (st : dhcpd) (ls : list dhcpOfferedAddr) : dhcpd := mkd (leases st) ls (lease_file st) (commands st).

(** What the system answers while a message is served. *)
Record env := mkenv { now : Z; in_use : Z -> bool; network : net; can_open : bool }.

Section Server.
Context `{Endian} (cfg : server_config_t).

(** ** The file of leases *)

(** The members of a lease that are written: 92 bytes. *)
Definition lease_record (l : dhcpOfferedAddr) (lease_time : Z) : list Z :=
  l_chaddr l ++ store 4 (l_yiaddr l) ++ store 4 (htonl lease_time) ++ store 4 (l_ACKed l) ++ l_hostname l.

Definition lease_time_of (l : dhcpOfferedAddr) (t : Z) : Z :=
  if remaining cfg then if lease_expired l t then 0 else u32 (l_expires l - t) else l_expires l.

Definition leases_text (st : dhcpd) (t : Z) : list Z :=
  flat_map (fun l => if negb (l_yiaddr l =? 0) && negb (l_ACKed l =? 0) then lease_record l (lease_time_of l t) else []) (leases st) ++
  flat_map (fun l => if negb (l_ACKed l =? 0) then lease_record l (l_expires l) else []) (reserved (take MAX_STATIC_LEASES (static_leases st))).

(** The command that tells of the file, printed into the 255 bytes of [buf]. *)
Definition notify_command (name : list Z) : option (list Z) := sprint 255 [] (name ++ 32 :: lease_name cfg).

Definition run_command (c : list Z) (st : dhcpd) : dhcpd := mkd (leases st) (static_leases st) (lease_file st) (commands st ++ [c]).

Definition write_leases (e : env) (st : dhcpd) : option dhcpd :=
  if can_open e then
    let st := mkd (leases st) (static_leases st) (leases_text st (now e)) (commands st) in
    let st := match dhcp_helper cfg with Some c => run_command c st | None => st end in
    match notify_file cfg with
    | Some name => c ← notify_command name; Some (run_command c st)
    | None => Some st
    end
  else Some st.

(** [sizeof(struct dhcpOfferedAddr)]: the record has a pointer behind the members that are written. *)
Definition LEASE_SIZE : nat := 96.

(** The reserved address that a lease of the file collides with: [Some true]: it is the same lease. *)
Fixpoint match_static (ls : list dhcpOfferedAddr) (c : list Z) (a : Z) (j : nat) : option (nat * bool) :=
  match ls with
  | [] => None
  | l :: tl =>
      let same_c := eqb_list c (l_chaddr l) in
      let same_a := l_yiaddr l =? a in
      if same_c && same_a then Some (j, true) else if same_c || same_a then Some (j, false) else match_static tl c a (S j)
  end.

Definition set_acked (x : Z) (l : dhcpOfferedAddr) : dhcpOfferedAddr :=
  mklease (l_chaddr l) (l_yiaddr l) (l_expires l) x (l_hostname l) (l_options l).

Fixpoint read_loop (fuel : nat) (t : Z) (file : list Z) (i : nat) (st : dhcpd) : dhcpd :=
  match fuel with
  | O => st
  | S fuel =>
      if (i <? max_leases cfg)%nat && (LEASE_SIZE <=? length file)%nat then
        let rest := drop LEASE_SIZE file in
        let c := slice 0 16 file in
        let a := load (slice 16 4 file) in
        let expires := ntohl (load (slice 20 4 file)) in
        let acked := load (slice 24 4 file) in
        if (start cfg <=? a) && (a <=? end_ cfg) && negb (acked =? 0) then
          match match_static (reserved (take MAX_STATIC_LEASES (static_leases st))) c a 0 with
          | Some (j, true) => read_loop fuel t rest i (set_statics st (alter (set_acked 1) j (static_leases st)))
          | Some (j, false) => read_loop fuel t rest i st
          | None =>
              let expires := if remaining cfg then expires else u32 (expires - t) in
              let expires := if expires =? 0xFFFFFFFF then lease cfg else expires in
              match add_lease (leases st) t c a expires (Some (XmldbFile.cstr (slice 28 64 file))) with
              | (None, ls) => set_leases st ls
              | (Some k, ls) => read_loop fuel t rest (S i) (set_leases st (alter (set_acked 1) k ls))
              end
          end
        else read_loop fuel t rest i st
      else st
  end.

Definition read_leases (t : Z) (file : list Z) (st : dhcpd) : dhcpd := read_loop (S (length file)) t file 0 st.

(** ** Packets of the server *)

(** [get_option]: [None] when the packet is read out of bounds. *)
Definition found (p : dhcpMessage) (code : Z) : option (option (Z * list Z)) :=
  match get_option p code with
  | Found n d => Some (Some (n, d))
  | Missing => Some None
  | _ => None
  end.

(** [memcpy(&x, d, 4)] *)
Definition word4 (d : list Z) : option Z := if 4 <=? zlen d then Some (load (take 4 d)) else None.

Definition option_word (p : dhcpMessage) (code : Z) : option (option Z) :=
  r ← found p code;
  match r with
  | Some (_, d) => x ← word4 d; Some (Some x)
  | None => Some None
  end.

(** The name of the host, copied into a buffer of 256 bytes. *)
Definition host_name (p : dhcpMessage) : option (option (list Z)) :=
  r ← found p DHCP_HOST_NAME;
  match r with
  | Some (n, d) => if n <=? zlen d then Some (Some (XmldbFile.cstr (take (Z.to_nat n) d ++ [0]))) else None
  | None => Some None
  end.

Definition init_packet (old : dhcpMessage) (type : Z) : option dhcpMessage :=
  p ← init_header type;
  r ← add_simple_option (options p) DHCP_SERVER_ID (server cfg);
  Some (mkmsg (op p) (htype p) (hlen p) (hops p) (xid old) (secs p) (flags old) (ciaddr old) (yiaddr p) (siaddr p) (giaddr old)
              (chaddr old) (sname p) (file p) (cookie p) (snd r)).

Fixpoint add_options (l : list (list Z)) (area : list Z) : option (list Z) :=
  match l with
  | [] => Some area
  | d :: tl => if data_code d =? DHCP_LEASE_TIME then add_options tl area else r ← add_option_string area d; add_options tl (snd r)
  end.

(** [strncpy(dst, s, n - 1)] into a field of zeros. *)
Definition field_of (n : nat) (s : option (list Z)) (old : list Z) : list Z :=
  match s with Some s => take (n - 1) (s ++ replicate n 0) ++ [0] | None => old end.

(** The address and the options of a packet, and the members for the boot program. *)
Definition complete (p : dhcpMessage) (yi : Z) (area : list Z) : dhcpMessage :=
  mkmsg (op p) (htype p) (hlen p) (hops p) (xid p) (secs p) (flags p) (ciaddr p) yi (conf_siaddr cfg) (giaddr p)
        (chaddr p) (field_of 64 (conf_sname cfg) (sname p)) (field_of 128 (boot_file cfg) (file p)) (cookie p) area.

Definition INADDR_BROADCAST : Z := 0xFFFFFFFF.
Definition MAC_BCAST_ADDR : list Z := replicate 6 255.

Definition send_packet_to_client (e : env) (p : dhcpMessage) (force_broadcast : bool) : option (Z * list frame) :=
  let '(ip, arp) :=
    if force_broadcast || force_bcast cfg then (INADDR_BROADCAST, MAC_BCAST_ADDR)
    else if negb (Z.land (ntohs (flags p)) BROADCAST_FLAG =? 0) then (INADDR_BROADCAST, MAC_BCAST_ADDR)
    else if negb (ciaddr p =? 0) then (ciaddr p, chaddr p)
    else (yiaddr p, chaddr p) in
  raw_packet (network e) p (server cfg) SERVER_PORT ip CLIENT_PORT arp (ifindex cfg).

Definition send_packet (e : env) (p : dhcpMessage) (force_broadcast : bool) : option (Z * list frame) :=
  if negb (giaddr p =? 0) then Some (kernel_packet (network e) p (giaddr p) SERVER_PORT)
  else send_packet_to_client e p force_broadcast.

(** The last steps of an answer: lease time, options, and the members for the boot program. *)
Definition answer (p : dhcpMessage) (yi lease_time : Z) (opts : list (list Z)) : option dhcpMessage :=
  r ← add_simple_option (options p) DHCP_LEASE_TIME (htonl lease_time);
  area ← add_options opts (snd r);
  Some (complete p yi area).

(** ** The answers *)

(** The result, the tables, and what is sent. *)
Definition result : Type := Z * dhcpd * list frame.

(** The address for a client that has none reserved, and the time it is told. *)
Definition offered (st : dhcpd) (e : env) (p : dhcpMessage) : option (Z * Z) :=
  match find_lease_by_chaddr (leases st) (chaddr p) with
  | Some i =>
      l ← leases st !! i;
      Some (l_yiaddr l, if lease_expired l (now e) then lease cfg else u32 (l_expires l - now e))
  | None =>
      req ← option_word p DHCP_REQUESTED_IP;
      match req with
      | Some a =>
          let free :=
            (ntohl (start cfg) <=? ntohl a) && (ntohl a <=? ntohl (end_ cfg)) &&
            (if find_static_lease_by_yiaddr (static_leases st) a is Some _ then false else true) &&
            match find_lease_by_yiaddr (leases st) a with
            | None => true
            | Some i => if leases st !! i is Some l then lease_expired l (now e) else false
            end in
          Some (if free then a else 0, lease cfg)
      | None => Some (0, lease cfg)
      end
  end.

Definition pool_address (st : dhcpd) (e : env) (check_expired : bool) : option Z :=
  find_address (ntohl (start cfg)) (ntohl (end_ cfg)) (mask cfg) (leases st) (static_leases st) (now e) (in_use e) check_expired.

(** The time in an offer: what the client asks for, up to the limit, and not less than the shortest. *)
Definition offer_lease_time (p : dhcpMessage) (t : Z) : option Z :=
  r ← option_word p DHCP_LEASE_TIME;
  let t := match r with Some x => if lease cfg <? ntohl x then lease cfg else ntohl x | None => t end in
  Some (if t <=? min_lease cfg then lease cfg else t).

Definition sendOffer (st : dhcpd) (e : env) (old : dhcpMessage) : option result :=
  p ← init_packet old DHCPOFFER;
  match find_static_lease_by_chaddr (static_leases st) (chaddr old) with
  | Some i =>
      l ← static_leases st !! i;
      p ← answer p (l_yiaddr l) 0xFFFFFFFF (l_options l);
      r ← send_packet e p false;
      Some (fst r, st, snd r)
  | None =>
      '(addr, t) ← offered st e old;
      yi ← (if negb (addr =? 0) then Some addr
            else a ← pool_address st e false; if a =? 0 then pool_address st e true else Some a);
      if yi =? 0 then Some (-1, st, [])
      else
        h ← host_name old;
        let '(slot, ls) := add_lease (leases st) (now e) (chaddr old) yi (offer_time cfg) h in
        match slot with
        | None => Some (-1, set_leases st ls, [])
        | Some _ =>
            t ← offer_lease_time old t;
            p ← answer p yi t (conf_options cfg);
            r ← send_packet e p false;
            Some (fst r, set_leases st ls, snd r)
        end
  end.

Definition sendNAK (st : dhcpd) (e : env) (old : dhcpMessage) : option result :=
  p ← init_packet old DHCPNAK;
  r ← send_packet e p true;
  Some (fst r, st, snd r).

(** The time in an acknowledgement; the largest number stands for ever. *)
Definition ack_lease_time (p : dhcpMessage) : option Z :=
  r ← option_word p DHCP_LEASE_TIME;
  Some match r with
       | Some x =>
           let t := ntohl x in
           if negb (t =? 0xFFFFFFFF) && (lease cfg <? t) then lease cfg else if t <? min_lease cfg then lease cfg else t
       | None => lease cfg
       end.

Definition name_static (h : option (list Z)) (l : dhcpOfferedAddr) : dhcpOfferedAddr :=
  mklease (l_chaddr l) (l_yiaddr l) (l_expires l) 1 (if h is Some s then hostname_bytes s else l_hostname l) (l_options l).

(** The answer is sent before the lease is entered; there may be no room for it. *)
Definition sendACK (st : dhcpd) (e : env) (old : dhcpMessage) (yi : Z) : option result :=
  p ← init_packet old DHCPACK;
  match find_static_lease_by_chaddr (static_leases st) (chaddr old) with
  | Some i =>
      l ← static_leases st !! i;
      p ← answer p yi 0xFFFFFFFF (l_options l);
      h ← host_name old;
      r ← send_packet e p false;
      if fst r <? 0 then Some (-1, st, snd r)
      else Some (0, set_statics st (alter (name_static h) i (static_leases st)), snd r)
  | None =>
      t ← ack_lease_time old;
      p ← answer p yi t (conf_options cfg);
      h ← host_name old;
      r ← send_packet e p false;
      if fst r <? 0 then Some (-1, st, snd r)
      else
        let '(slot, ls) := add_lease (leases st) (now e) (chaddr old) yi t h in
        let ls := match slot with Some k => alter (set_acked 1) k ls | None => ls end in
        st ← write_leases e (set_leases st ls);
        Some (0, st, snd r)
  end.

Definition send_inform (st : dhcpd) (e : env) (old : dhcpMessage) : option result :=
  p ← init_packet old DHCPACK;
  area ← add_options (conf_options cfg) (options p);
  r ← send_packet e (complete p (yiaddr p) area) false;
  Some (fst r, st, snd r).

(** ** Messages *)

Definition valid_ip (a : Z) : bool :=
  if (ntohl a <? ntohl (start cfg)) || (ntohl (end_ cfg) <? ntohl a) then false
  else if Z.land a 0xFF =? 0 then false
  else if Z.land a 0xFF =? 0xFF then false
  else negb (a =? server cfg).

(** The lease of a client: a reserved one, or one of the table. *)
Inductive holding := Static (i : nat) (l : dhcpOfferedAddr) | Dynamic (i : nat) (l : dhcpOfferedAddr) | Nothing.

Definition lease_of (st : dhcpd) (c : list Z) : option holding :=
  match find_static_lease_by_chaddr (static_leases st) c with
  | Some i => l ← static_leases st !! i; Some (Static i l)
  | None =>
      match find_lease_by_chaddr (leases st) c with
      | Some i => l ← leases st !! i; Some (Dynamic i l)
      | None => Some Nothing
      end
  end.

Definition drop_chaddr (l : dhcpOfferedAddr) : dhcpOfferedAddr :=
  mklease blank_chaddr (l_yiaddr l) (l_expires l) (l_ACKed l) (l_hostname l) (l_options l).
Definition set_expires (x : Z) (l : dhcpOfferedAddr) : dhcpOfferedAddr :=
  mklease (l_chaddr l) (l_yiaddr l) x (l_ACKed l) (l_hostname l) (l_options l).

Definition silent (st : dhcpd) : option result := Some (0, st, []).

Definition do_request (st : dhcpd) (e : env) (p : dhcpMessage) : option result :=
  requested ← option_word p DHCP_REQUESTED_IP;
  server_id ← option_word p DHCP_SERVER_ID;
  h ← lease_of st (chaddr p);
  match h with
  | Static _ l | Dynamic _ l =>
      match server_id, requested with
      | Some s, Some r => if (s =? server cfg) && (r =? l_yiaddr l) then sendACK st e p (l_yiaddr l) else silent st
      | Some s, None => silent st
      | None, Some r => if l_yiaddr l =? r then sendACK st e p (l_yiaddr l) else sendNAK st e p
      | None, None => if l_yiaddr l =? ciaddr p then sendACK st e p (l_yiaddr l) else sendNAK st e p
      end
  | Nothing =>
      match server_id, requested with
      | Some s, _ => silent st
      | None, Some r =>
          match find_lease_by_yiaddr (leases st) r with
          | Some i =>
              l ← leases st !! i;
              if lease_expired l (now e) then silent (set_leases st (alter drop_chaddr i (leases st))) else sendNAK st e p
          | None => if valid_ip r && negb (in_use e r) then sendACK st e p r else sendNAK st e p
          end
      | None, None => if negb (ciaddr p =? 0) && valid_ip (ciaddr p) then sendACK st e p (ciaddr p) else sendNAK st e p
      end
  end.

(** What the server does with a packet. *)
Definition handle (st : dhcpd) (e : env) (p : dhcpMessage) : option result :=
  state ← found p DHCP_MESSAGE_TYPE;
  match state with
  | None => silent st
  | Some (_, d) =>
      type ← rd d 0;
      h ← lease_of st (chaddr p);
      if type =? DHCPDISCOVER then sendOffer st e p
      else if type =? DHCPREQUEST then do_request st e p
      else if type =? DHCPDECLINE then
        match h with
        | Dynamic i _ => silent (set_leases st (alter (fun l => set_expires (u32 (now e + decline_time cfg)) (drop_chaddr l)) i (leases st)))
        | _ => silent st
        end
      else if type =? DHCPRELEASE then
        match h with
        | Dynamic i _ => st ← write_leases e (set_leases st (alter (set_expires (now e)) i (leases st))); silent st
        | Static i _ => st ← write_leases e (set_statics st (alter (set_acked 0) i (static_leases st))); silent st
        | Nothing => silent st
        end
      else if type =? DHCPINFORM then send_inform st e p
      else silent st
  end.

(** A packet from the socket of the server: what [read] delivers. *)
Definition receive (st : dhcpd) (e : env) (r : option (list Z)) : option result :=
  x ← get_packet r;
  if x.1 <? 0 then silent st else handle st e x.2.

End Server.
End DhcpServer.
