(* ===== verification/DhcpClient.v ===== *)
(** * progs.gpl/udhcpcd/clientpacket.c and dhcpc.c: the DHCP client.

    The packets of the client, what it reads from the network, and one turn of its loop: the state machine that gets a lease,
    renews it and gives it up.  The model is of a build without the options for routes, DHCP+ and access points, and of runs that
    do not ask for the mask of the server (option -t).  What the system answers in a turn is its input; [None] is undefined
    behaviour. *)
From Stdlib Require Import ZArith Lia Bool String.
From stdpp Require Import base tactics list option numbers.
From S2P Require Import Prelude DhcpOptions DhcpPacket DhcpServer.

Module DhcpClient.
Import DhcpOptions DhcpPacket.

(** ** The state *)

(** [dhcpc.h] *)
Definition INIT_SELECTING : Z := 0.
Definition REQUESTING : Z := 1.
Definition BOUND : Z := 2.
Definition RENEWING : Z := 3.
Definition REBINDING : Z := 4.
Definition RENEW_REQUESTED : Z := 6.
Definition RELEASED : Z := 7.

Definition LISTEN_NONE : Z := 0.
Definition LISTEN_KERNEL : Z := 1.
Definition LISTEN_RAW : Z := 2.

Definition DHCP_PARAM_REQ : Z := 0x37.
Definition DHCP_CLIENT_ID : Z := 0x3d.

Definition SIGUSR1 : Z := 16.
Definition SIGUSR2 : Z := 17.
Definition SIGTERM : Z := 15.

(** [struct client_config_t]; [query]: the program only asks whether there is a server. *)
Record client_config_t := mkccfg {
  quit_after_lease : bool; abort_if_no_lease : bool; background_if_no_lease : bool; query : bool;
  clientid : list Z; hostname : option (list Z); c_ifindex : Z; c_arp : list Z;
  discover_delay : Z; discover_retry : Z; discover_sleep : Z
}.

(** What the program does: frames, and the script with its argument and the packet it is run for. *)
Inductive event := Sent (f : frame) | Script (p : option dhcpMessage) (name : list Z).

(** The variables of the program; [c_open]: the socket is open; [rx]: the packet that was read last. *)
Record dhcpc := mkdc {
  state : Z; requested_ip : Z; server_addr : Z; timeout : Z; packet_num : Z; listen_mode : Z; c_open : bool;
  c_xid : Z; t1 : Z; t2 : Z; c_start : Z; c_lease : Z; rx : dhcpMessage; foreground : bool; events : list event
}.

Inductive status := Going (c : dhcpc) | Gone (code : Z) (c : dhcpc).

Definition set_state (x : Z) (c : dhcpc) : dhcpc :=
  mkdc x (requested_ip c) (server_addr c) (timeout c) (packet_num c) (listen_mode c) (c_open c) (c_xid c) (t1 c) (t2 c) (c_start c) (c_lease c) (rx c) (foreground c) (events c).
Definition set_ids (req srv xid : Z) (c : dhcpc) : dhcpc :=
  mkdc (state c) req srv (timeout c) (packet_num c) (listen_mode c) (c_open c) xid (t1 c) (t2 c) (c_start c) (c_lease c) (rx c) (foreground c) (events c).
Definition set_timer (t n : Z) (c : dhcpc) : dhcpc :=
  mkdc (state c) (requested_ip c) (server_addr c) t n (listen_mode c) (c_open c) (c_xid c) (t1 c) (t2 c) (c_start c) (c_lease c) (rx c) (foreground c) (events c).
Definition set_listen (m : Z) (o : bool) (c : dhcpc) : dhcpc :=
  mkdc (state c) (requested_ip c) (server_addr c) (timeout c) (packet_num c) m o (c_xid c) (t1 c) (t2 c) (c_start c) (c_lease c) (rx c) (foreground c) (events c).
Definition set_lease (a b s l : Z) (c : dhcpc) : dhcpc :=
  mkdc (state c) (requested_ip c) (server_addr c) (timeout c) (packet_num c) (listen_mode c) (c_open c) (c_xid c) a b s l (rx c) (foreground c) (events c).
Definition set_rx (p : dhcpMessage) (c : dhcpc) : dhcpc :=
  mkdc (state c) (requested_ip c) (server_addr c) (timeout c) (packet_num c) (listen_mode c) (c_open c) (c_xid c) (t1 c) (t2 c) (c_start c) (c_lease c) p (foreground c) (events c).
Definition set_foreground (c : dhcpc) : dhcpc :=
  mkdc (state c) (requested_ip c) (server_addr c) (timeout c) (packet_num c) (listen_mode c) (c_open c) (c_xid c) (t1 c) (t2 c) (c_start c) (c_lease c) (rx c) true (events c).
Definition happen (l : list event) (c : dhcpc) : dhcpc :=
  mkdc (state c) (requested_ip c) (server_addr c) (timeout c) (packet_num c) (listen_mode c) (c_open c) (c_xid c) (t1 c) (t2 c) (c_start c) (c_lease c) (rx c) (foreground c) (events c ++ l).

Definition str_deconfig : list Z := Eval cbv in cs "deconfig".
Definition str_renew : list Z := Eval cbv in cs "renew".
Definition str_bound : list Z := Eval cbv in cs "bound".
Definition str_nak : list Z := Eval cbv in cs "nak".

Definition run_script (p : option dhcpMessage) (name : list Z) (c : dhcpc) : dhcpc := happen [Script p name] c.
Definition deconfig : dhcpc -> dhcpc := run_script None str_deconfig.

(** The answers of the system in a turn: the time before and after [select], a socket, what woke the program up, the network,
    the random number of a transaction, and whether ARP found that the address is in use. *)
Inductive wake :=
  | Expired                                       (** the time is over *)
  | Readable (r : option (list Z)) (eintr : bool) (** a packet; [None]: an error of [read] *)
  | Signalled (sig : option Z)                    (** the number of a signal from the pipe *)
  | Failed.

Record answers := mkans { before : Z; a_socket : Z; woken : wake; after : Z; tx : net; rand : Z; in_use : bool }.

Section Client.
Context `{Endian} (cfg : client_config_t).

(** ** Packets *)

Definition set_chaddr (p : dhcpMessage) (c : list Z) : dhcpMessage :=
  mkmsg (op p) (htype p) (hlen p) (hops p) (xid p) (secs p) (flags p) (ciaddr p) (yiaddr p) (siaddr p) (giaddr p) c (sname p) (file p) (cookie p) (options p).
Definition set_xid (p : dhcpMessage) (x ci : Z) : dhcpMessage :=
  mkmsg (op p) (htype p) (hlen p) (hops p) x (secs p) (flags p) ci (yiaddr p) (siaddr p) (giaddr p) (chaddr p) (sname p) (file p) (cookie p) (options p).

(** [init_packet] *)
Definition init_request (type : Z) : option dhcpMessage :=
  p ← init_header type;
  let p := set_chaddr p (take 6 (c_arp cfg) ++ drop 6 (chaddr p)) in
  r ← add_option_string (options p) (clientid cfg);
  match hostname cfg with
  | Some h => r' ← add_option_string (snd r) h; Some (set_options p (snd r'))
  | None => Some (set_options p (snd r))
  end.

(** The options that are asked for: those of the table, and three more. *)
Definition requested_codes : list Z := Eval vm_compute in
  map o_code (filter (fun o => Z.land (o_flags o) OPTION_REQ <> 0) option_table) ++ [43; 60; 212].

Fixpoint write_all (area : list Z) (i : Z) (bs : list Z) : option (list Z) :=
  match bs with
  | [] => Some area
  | b :: tl => area ← wr area i b; write_all area (i + 1) tl
  end.

(** [add_requests]: written behind the other options without a look at the size of the packet. *)
Definition add_requests (p : dhcpMessage) : option dhcpMessage :=
  end_ ← end_option (options p);
  area ← wr (options p) end_ DHCP_PARAM_REQ;
  area ← write_all area (end_ + 2) requested_codes;
  area ← wr area (end_ + 1) (zlen requested_codes);
  area ← wr area (end_ + 2 + zlen requested_codes) DHCP_END;
  Some (set_flags (set_options p area) (Z.land (flags p) (htons (u16 (Z.lnot BROADCAST_FLAG))))).

Definition simple (code x : Z) (p : dhcpMessage) : option dhcpMessage := r ← add_simple_option (options p) code x; Some (set_options p (snd r)).

Definition INADDR_ANY : Z := 0.

Definition broadcast (n : net) (p : dhcpMessage) : option (Z * list frame) :=
  raw_packet n p INADDR_ANY CLIENT_PORT DhcpServer.INADDR_BROADCAST SERVER_PORT DhcpServer.MAC_BCAST_ADDR (c_ifindex cfg).

(** The packets of the five kinds. *)
Definition discover_packet (xid requested : Z) : option dhcpMessage :=
  p ← init_request DHCPDISCOVER;
  let p := set_xid p xid 0 in
  p ← (if requested =? 0 then Some p else simple DHCP_REQUESTED_IP requested p);
  add_requests p.
Definition selecting_packet (xid server requested : Z) : option dhcpMessage :=
  p ← init_request DHCPREQUEST;
  p ← simple DHCP_REQUESTED_IP requested (set_xid p xid 0);
  p ← simple DHCP_SERVER_ID server p;
  add_requests p.
Definition renew_packet (xid ciaddr : Z) : option dhcpMessage :=
  p ← init_request DHCPREQUEST;
  add_requests (set_xid p xid ciaddr).
Definition release_packet (xid server ciaddr : Z) : option dhcpMessage :=
  p ← init_request DHCPRELEASE;
  p ← simple DHCP_REQUESTED_IP ciaddr (set_xid p xid ciaddr);
  simple DHCP_SERVER_ID server p.
Definition decline_packet (xid server ciaddr : Z) : option dhcpMessage :=
  p ← init_request DHCPDECLINE;
  p ← simple DHCP_REQUESTED_IP ciaddr (set_xid p xid 0);
  simple DHCP_SERVER_ID server p.

Definition send_discover (n : net) (xid requested : Z) : option (Z * list frame) := p ← discover_packet xid requested; broadcast n p.
Definition send_selecting (n : net) (xid server requested : Z) : option (Z * list frame) := p ← selecting_packet xid server requested; broadcast n p.
Definition send_renew (n : net) (xid server ciaddr : Z) : option (Z * list frame) :=
  p ← renew_packet xid ciaddr;
  if server =? 0 then broadcast n p else Some (kernel_packet n p server SERVER_PORT).
Definition send_release (n : net) (xid server ciaddr : Z) : option (Z * list frame) :=
  p ← release_packet xid server ciaddr;
  Some (kernel_packet n p server SERVER_PORT).
Definition send_decline (n : net) (xid server ciaddr : Z) : option (Z * list frame) := p ← decline_packet xid server ciaddr; broadcast n p.

(** ** Reading *)

Definition UDP_SIZE : nat := 576.

(** The header that takes the place of the IP header for the UDP checksum. *)
Definition pseudo_ip (buf : list Z) : list Z := [0; 0] ++ slice 24 2 buf ++ [0; 0; 0; 0; 0; IPPROTO_UDP; 0; 0] ++ slice 12 8 buf.

(** [get_raw_packet]: what is read from the socket, over the packet [old]. *)
Definition get_raw_packet (old : dhcpMessage) (r : option (list Z)) : option (Z * dhcpMessage) :=
  match r with
  | None => Some (-1, old)
  | Some bs =>
      let n := Z.min (zlen bs) (Z.of_nat UDP_SIZE) in
      let buf := take UDP_SIZE bs ++ replicate (UDP_SIZE - length bs) 0 in
      let tot := ntohs (load (slice 2 2 buf)) in
      if n <? 28 then Some (-2, old)
      else if n <? tot then Some (-2, old)
      else if negb (eqb_list (slice 9 1 buf) [IPPROTO_UDP]) || negb (eqb_list (slice 0 1 buf) [0x45]) ||
              negb (load (slice 22 2 buf) =? htons CLIENT_PORT) || (Z.of_nat UDP_SIZE <? tot) || negb (ntohs (load (slice 24 2 buf)) =? u16 (tot - 20))
      then Some (-2, old)
      else
        c ← checksum (slice 0 10 buf ++ [0; 0] ++ slice 12 8 buf);
        if negb (load (slice 10 2 buf) =? c) then Some (-1, old)
        else
          let check := load (slice 26 2 buf) in
          c ← checksum (take (Z.to_nat tot) (pseudo_ip buf ++ slice 20 6 buf ++ [0; 0] ++ drop 28 buf));
          if negb (check =? 0) && negb (check =? c) then Some (-2, old)
          else if tot <? 28 then None
          else
            let n := Z.to_nat (tot - 28) in
            let p := of_bytes (slice 28 n buf ++ drop n (to_bytes old)) in
            if negb (ntohl (cookie p) =? DHCP_MAGIC) then Some (-2, p) else Some (tot - 28, p)
  end.

(** ** The state machine *)

Definition change_mode (m : Z) (c : dhcpc) : dhcpc := set_listen m false c.

Definition sent_by (r : Z * list frame) (c : dhcpc) : dhcpc := happen (map Sent (snd r)) c.

(** [perform_renew] *)
Definition perform_renew (c : dhcpc) : dhcpc :=
  let s := state c in
  let restart c := set_state INIT_SELECTING (change_mode LISTEN_RAW c) in
  let c :=
    if s =? BOUND then set_state RENEW_REQUESTED (change_mode LISTEN_KERNEL c)
    else if (s =? RENEWING) || (s =? REBINDING) then set_state RENEW_REQUESTED c
    else if s =? RENEW_REQUESTED then restart (deconfig c)
    else if (s =? REQUESTING) || (s =? RELEASED) then restart c
    else c in
  set_timer 0 0 c.

(** [perform_release] *)
Definition perform_release (n : net) (rnd : Z) (c : dhcpc) : option dhcpc :=
  let s := state c in
  c ← (if (s =? BOUND) || (s =? RENEWING) || (s =? REBINDING) then
         r ← send_release n rnd (server_addr c) (requested_ip c);
         Some (deconfig (sent_by r c))
       else Some c);
  Some (set_timer 0x7fffffff (packet_num c) (set_state RELEASED (change_mode LISTEN_NONE c))).

(** The time until the next try: [(unsigned int)discover_delay << packet_num], not more than 64. *)
Definition backoff (n : Z) : option Z :=
  if 32 <=? n then None else Some (Z.min 64 (u32 (Z.shiftl (u32 (discover_delay cfg)) n))).

(** The switch for a time that is over. *)
Definition on_init (a : answers) (c : dhcpc) : option status :=
  if packet_num c <? discover_retry cfg then
    let x := if packet_num c =? 0 then rand a else c_xid c in
    let c := set_ids (requested_ip c) (server_addr c) x c in
    r ← send_discover (tx a) x (requested_ip c);
    d ← backoff (packet_num c);
    Some (Going (set_timer (u32 (d + after a)) (packet_num c + 1) (sent_by r c)))
  else if query cfg then Some (Gone 1 c)
  else if negb (background_if_no_lease cfg) && abort_if_no_lease cfg then Some (Gone 1 c)
  else
    let c := if background_if_no_lease cfg then set_foreground c else c in
    if discover_sleep cfg =? 0 then Some (Gone 1 (set_timer (timeout c) 0 c))
    else Some (Going (set_timer (u32 (after a + discover_sleep cfg)) 0 c)).

Definition on_requesting (a : answers) (c : dhcpc) : option status :=
  if packet_num c <? discover_retry cfg then
    r ← (if state c =? RENEW_REQUESTED then send_renew (tx a) (c_xid c) (server_addr c) (requested_ip c)
         else send_selecting (tx a) (c_xid c) (server_addr c) (requested_ip c));
    d ← backoff (packet_num c);
    Some (Going (set_timer (u32 (d + after a)) (packet_num c + 1) (sent_by r c)))
  else
    let c := if state c =? RENEW_REQUESTED then deconfig c else c in
    if discover_sleep cfg =? 0 then Some (Gone 1 c)
    else Some (Going (change_mode LISTEN_RAW (set_timer (after a) 0 (set_state INIT_SELECTING c)))).

Definition on_renewing (a : answers) (c : dhcpc) : option status :=
  if u32 (t2 c - t1 c) <=? u32 (c_lease c / 14400 + 1) then
    Some (Going (set_timer (u32 (after a + (t2 c - t1 c))) (packet_num c) (set_state REBINDING c)))
  else
    r ← send_renew (tx a) (c_xid c) (server_addr c) (requested_ip c);
    let x := u32 (u32 (t2 c - t1 c) / 2 + t1 c) in
    Some (Going (set_timer (u32 (x + c_start c)) (packet_num c) (set_lease x (t2 c) (c_start c) (c_lease c) (sent_by r c)))).

Definition on_rebinding (a : answers) (c : dhcpc) : option status :=
  if u32 (c_lease c - t2 c) <=? u32 (c_lease c / 14400 + 1) then
    Some (Going (change_mode LISTEN_RAW (set_timer (after a) 0 (deconfig (set_state INIT_SELECTING c)))))
  else
    r ← send_renew (tx a) (c_xid c) 0 (requested_ip c);
    let x := u32 (u32 (c_lease c - t2 c) / 2 + t2 c) in
    Some (Going (set_timer (u32 (x + c_start c)) (packet_num c) (set_lease (t1 c) x (c_start c) (c_lease c) (sent_by r c)))).

Definition on_timeout (a : answers) (c : dhcpc) : option status :=
  let s := state c in
  if s =? INIT_SELECTING then on_init a c
  else if (s =? RENEW_REQUESTED) || (s =? REQUESTING) then on_requesting a c
  else if s =? BOUND then on_renewing a (change_mode LISTEN_KERNEL (set_state RENEWING c))
  else if s =? RENEWING then on_renewing a c
  else if s =? REBINDING then on_rebinding a c
  else if s =? RELEASED then Some (Going (set_timer 0x7fffffff (packet_num c) c))
  else Some (Going c).

(** An offer for a client that looks for a server. *)
Definition on_offer (a : answers) (p : dhcpMessage) (c : dhcpc) : option status :=
  r ← DhcpServer.option_word p DHCP_SERVER_ID;
  match r with
  | Some s =>
      if query cfg then Some (Gone 0 c)
      else Some (Going (set_timer (after a) 0 (set_state REQUESTING (set_ids (yiaddr p) s (xid p) c))))
  | None => Some (Going c)
  end.

(** An acknowledgement. *)
Definition on_ack (a : answers) (p : dhcpMessage) (c : dhcpc) : option status :=
  if (state c =? REQUESTING) && in_use a then
    r ← send_decline (tx a) (c_xid c) (server_addr c) (yiaddr p);
    Some (Going (set_ids 0 (server_addr c) (c_xid c) (set_timer (after a) 0 (set_state INIT_SELECTING (sent_by r c)))))
  else
    r ← DhcpServer.option_word p DHCP_LEASE_TIME;
    let l := match r with Some x => ntohl x | None => 3600 end in
    let x1 := l / 2 in
    let x2 := Z.shiftr (u32 (l * 7)) 3 in
    let name := if (state c =? RENEWING) || (state c =? REBINDING) then str_renew else str_bound in
    let c := set_timer (u32 (x1 + after a)) (packet_num c) (set_lease x1 x2 (after a) l (set_ids (yiaddr p) (server_addr c) (c_xid c) c)) in
    let c := change_mode LISTEN_NONE (set_state BOUND (run_script (Some p) name c)) in
    if quit_after_lease cfg then Some (Gone 0 c) else Some (Going (if foreground c then c else set_foreground c)).

(** A refusal: it must come from the server that the client talks to. *)
Definition on_nak (a : answers) (p : dhcpMessage) (c : dhcpc) : option status :=
  r ← DhcpServer.option_word p DHCP_SERVER_ID;
  match r with
  | Some s =>
      if negb (s =? server_addr c) then Some (Going c)
      else
        let c := run_script (Some p) str_nak c in
        let c := if state c =? REQUESTING then c else deconfig c in
        Some (Going (change_mode LISTEN_RAW (set_ids 0 (server_addr c) (c_xid c) (set_timer (after a) 0 (set_state INIT_SELECTING c)))))
  | None => Some (Going c)
  end.

Definition on_packet (a : answers) (p : dhcpMessage) (c : dhcpc) : option status :=
  if negb (xid p =? c_xid c) then Some (Going c)
  else
    m ← DhcpServer.found p DHCP_MESSAGE_TYPE;
    match m with
    | None => Some (Going c)
    | Some (_, d) =>
        type ← rd d 0;
        let s := state c in
        if s =? INIT_SELECTING then if type =? DHCPOFFER then on_offer a p c else Some (Going c)
        else if (s =? RENEW_REQUESTED) || (s =? REQUESTING) || (s =? RENEWING) || (s =? REBINDING) then
          if type =? DHCPACK then on_ack a p c else if type =? DHCPNAK then on_nak a p c else Some (Going c)
        else Some (Going c)
    end.

Definition on_readable (a : answers) (r : option (list Z)) (eintr : bool) (c : dhcpc) : option status :=
  x ← (if listen_mode c =? LISTEN_KERNEL then get_packet r else get_raw_packet (rx c) r);
  let '(len, p) := x in
  let c := set_rx p c in
  let c := if (len =? -1) && negb eintr then change_mode (listen_mode c) c else c in
  if len <? 0 then Some (Going c) else on_packet a p c.

Definition on_signal (a : answers) (sig : Z) (c : dhcpc) : option status :=
  if sig =? SIGUSR1 then Some (Going (perform_renew c))
  else if sig =? SIGUSR2 then c ← perform_release (tx a) (rand a) c; Some (Going c)
  else if sig =? SIGTERM then c ← perform_release (tx a) (rand a) c; Some (Gone 0 c)
  else Some (Going c).

(** The seconds until the time is over: a signed number. *)
Definition remaining_time (a : answers) (c : dhcpc) : Z := let d := u32 (timeout c - before a) in if d <? 2 ^ 31 then d else d - 2 ^ 32.

(** One turn of the loop. *)
Definition turn (a : answers) (c : dhcpc) : option status :=
  let need := negb (listen_mode c =? LISTEN_NONE) && negb (c_open c) in
  if need && (a_socket a <? 0) then Some (Gone 0 c)
  else
    let c := if need then set_listen (listen_mode c) true c else c in
    if remaining_time a c <=? 0 then on_timeout a c
    else
      match woken a with
      | Expired => on_timeout a c
      | Readable r eintr => if listen_mode c =? LISTEN_NONE then Some (Going c) else on_readable a r eintr c
      | Signalled (Some sig) => on_signal a sig c
      | Signalled None | Failed => Some (Going c)
      end.

(** The state at the start of the loop. *)
Definition started (t : Z) (requested : Z) (junk : dhcpMessage) (fg : bool) : dhcpc :=
  mkdc INIT_SELECTING requested 0 t 0 LISTEN_RAW false 0 0 0 0 0 junk fg [].

End Client.
End DhcpClient.
