(* ===== verification/DhcpSafety.v ===== *)
(** * The DHCP server keeps its promises: what a message may change.

    A lease that has not ended stays in the table, unchanged and in its slot, whatever other clients send - but for one
    message, the renewal by a client without a lease, which takes the address it names from whoever has it. *)
From Stdlib Require Import ZArith Lia Bool String.
From stdpp Require Import base tactics list option numbers.
From S2P Require Import Prelude DhcpOptions DhcpPacket DhcpLeases DhcpServer.

Module DhcpSafety.
Import DhcpOptions DhcpPacket DhcpLeases DhcpServer.

(** ** Tables before and after *)

(** From [ls] to [ls'] on behalf of the client [c] at the time [t]: the table stays sound, and the leases of other clients
    that have not ended are where they were, but for those of the addresses [lost]. *)
Definition stays (t : Z) (c : list Z) (lost : Z -> Prop) (ls ls' : list dhcpOfferedAddr) : Prop :=
  forall j l, ls !! j = Some l -> lease_expired l t = false -> l_chaddr l <> c -> ~ lost (l_yiaddr l) -> ls' !! j = Some l.

Definition kept (t : Z) (c : list Z) (lost : Z -> Prop) (ls ls' : list dhcpOfferedAddr) : Prop :=
  table_ok ls' /\ length ls' = length ls /\ stays t c lost ls ls'.

Lemma kept_same t c lost ls : table_ok ls -> kept t c lost ls ls.
Proof. intros Hok. split_and!; [done|done|]. by intros j l Hj _ _ _. Qed.

Lemma kept_lose t c (lost lost' : Z -> Prop) ls ls' : (forall a, lost a -> lost' a) -> kept t c lost ls ls' -> kept t c lost' ls ls'.
Proof. intros Hl (H1 & H2 & H3). split_and!; [done|done|]. intros j l Hj He Hc Hn. apply H3; auto. Qed.

(** A change of one slot that keeps the address, and keeps the client or drops it. *)
Definition same_holder (f : dhcpOfferedAddr -> dhcpOfferedAddr) : Prop :=
  forall l, l_yiaddr (f l) = l_yiaddr l /\ (l_chaddr (f l) = l_chaddr l \/ l_chaddr (f l) = blank_chaddr).

Lemma blank_nothing : nonzero blank_chaddr = false.
Proof. reflexivity. Qed.

Lemma alter_table f i ls : table_ok ls -> same_holder f -> table_ok (alter f i ls).
Proof.
  intros Hok Hf. destruct (ls !! i) as [x|] eqn:Ei.
  2: { assert (alter f i ls = ls) as ->; [|done]. apply list_eq. intros j. destruct (decide (j = i)) as [->|]; [by rewrite list_lookup_alter_eq, Ei|by rewrite list_lookup_alter_ne]. }
  rewrite (alter_insert f i ls x Ei). destruct (Hf x) as [Fa Fc]. destruct Hok as [H1 H2 H3]. apply alter_ok; [done| |].
  - destruct Fc as [-> | ->]; [by eapply Forall_lookup_1 in H3|done].
  - intros j l Hj Hl. rewrite Fa. split; [intros H0 E; apply Hj; symmetry; by eapply (H1 i j x l)|].
    destruct Fc as [-> | ->]; [|by rewrite blank_nothing]. intros H0 E. apply Hj. symmetry. by eapply (H2 i j x l).
Qed.

(** Such a change of the client's own slot, or of one that has ended. *)
Lemma kept_alter t c lost f i ls x : table_ok ls -> same_holder f -> ls !! i = Some x -> l_chaddr x = c \/ lease_expired x t = true ->
  kept t c lost ls (alter f i ls).
Proof.
  intros Hok Hf Hi Hx. split_and!; [by apply alter_table|apply length_alter|]. intros j l Hj He Hc _.
  rewrite list_lookup_alter_ne; [done|]. intros <-. destruct Hx; congruence.
Qed.

Lemma kept_trans_own t c lost f i ls ls' x : kept t c lost ls ls' -> same_holder f -> ls' !! i = Some x -> l_chaddr x = c ->
  kept t c lost ls (alter f i ls').
Proof.
  intros (H1 & H2 & H3) Hf Hi Hx. destruct (kept_alter t c lost f i ls' x H1 Hf Hi (or_introl Hx)) as (K1 & K2 & K3).
  split_and!; [done|by rewrite K2|]. intros j l Hj He Hc Hn. apply K3; [by apply H3|done..].
Qed.

(** Entering a lease for the client. *)
Lemma kept_add t c a x h ls : table_ok ls -> length c = 16%nat -> 0 <= t ->
  let '(r, ls') := add_lease ls t c a x h in
  kept t c (fun b => b <> 0 /\ b = a) ls ls' /\ forall i, r = Some i -> exists l, ls' !! i = Some l /\ l_chaddr l = c.
Proof.
  intros Hok Hc Ht. pose proof (add_lease_spec ls t c a x h Hok Hc Ht) as H. destruct (add_lease ls t c a x h) as [r ls'].
  destruct H as (H1 & H2 & H3 & H4). split.
  - split_and!; [done|done|]. intros j l Hj He Hl Hn. apply H3; [done|]. split; [done|]. unfold matches.
    destruct (eqb_list (l_chaddr l) c) eqn:E; [by apply eqb_list_true in E|]. rewrite andb_false_r. cbn [orb].
    apply andb_false_iff. destruct (Z.eqb_spec a 0) as [|Ha]; [by left|right]. apply Z.eqb_neq. intros E'. apply Hn. split; congruence.
  - intros i ->. destruct H4 as (l & Hl & Hlc & _). by exists l.
Qed.

(** An address that no other client holds. *)
Definition vacant (t : Z) (c : list Z) (ls : list dhcpOfferedAddr) (a : Z) : Prop :=
  forall j l, ls !! j = Some l -> lease_expired l t = false -> l_chaddr l <> c -> l_yiaddr l <> 0 -> l_yiaddr l <> a.

Lemma kept_vacant t c a lost ls ls' : kept t c (fun b => b <> 0 /\ b = a) ls ls' -> vacant t c ls a -> kept t c lost ls ls'.
Proof. intros (H1 & H2 & H3) Hv. split_and!; [done|done|]. intros j l Hj He Hc _. apply H3; try done. intros [Hb E]. by apply (Hv j l). Qed.

(** The first lease of an address that is free of other clients is the only one. *)
Lemma vacant_found t c ls a : table_ok ls ->
  match find_lease_by_yiaddr ls a with
  | None => True
  | Some i => exists l, ls !! i = Some l /\ (lease_expired l t = true \/ l_chaddr l = c)
  end -> vacant t c ls a.
Proof.
  intros Hok Hf j l Hj He Hc Hz <-. pose proof (lease_by_yiaddr ls (l_yiaddr l)) as Hl. destruct (find_lease_by_yiaddr ls (l_yiaddr l)) as [i|].
  - destruct Hf as (x & Hx & Hx'), Hl as (y & Hy & Ey). assert (x = y) as -> by congruence. assert (j = i) as -> by (eapply (one_per_address _ Hok j i l y); done).
    assert (l = y) as -> by congruence. destruct Hx'; congruence.
  - exact (Forall_lookup_1 _ _ _ _ Hl Hj eq_refl).
Qed.

Section Handle.
Context `{Endian} (cfg : server_config_t).

(** ** Addresses that are given away *)

Lemma address_found mask ls statics t in_use ce last fuel : forall x r, address_loop last mask ls statics t in_use fuel ce x = Some r ->
  r = 0 \/ exists y, r = htonl y /\ available mask ls statics t in_use ce y.
Proof using Type.
  induction fuel as [|fuel IH]; intros x r; [done|]. cbn [address_loop]. destruct (last <? x); [intros [= <-]; by left|].
  destruct (assignable mask ls statics t in_use ce x) eqn:E; [|by apply IH]. intros [= <-]. right. exists x. split; [done|]. by apply assignable_spec.
Qed.

Lemma available_vacant c mask ls statics t in_use ce y : table_ok ls -> available mask ls statics t in_use ce y -> vacant t c ls (htonl y).
Proof using Type.
  intros Hok [_ _ Hl _]. apply vacant_found; [done|]. destruct (find_lease_by_yiaddr ls (htonl y)) as [i|]; [|done].
  destruct (Hl i eq_refl) as (_ & l & Hi & He). exists l. auto.
Qed.

Lemma pool_vacant st e ce a c : table_ok (leases st) -> pool_address cfg st e ce = Some a -> vacant (now e) c (leases st) a.
Proof using Type.
  intros Hok Ha. apply address_found in Ha as [->|(y & -> & Hy)]; [|by eapply available_vacant].
  intros j l _ _ _ Hz. done.
Qed.

Lemma own_vacant t c ls i l : table_ok ls -> ls !! i = Some l -> l_chaddr l = c -> vacant t c ls (l_yiaddr l).
Proof using Type.
  intros Hok Hi Hc j x Hj _ Hn Hz E. assert (j = i) as -> by (eapply (one_per_address _ Hok j i x l); done). congruence.
Qed.

Lemma offered_vacant st e p a t : table_ok (leases st) -> offered cfg st e p = Some (a, t) -> vacant (now e) (chaddr p) (leases st) a.
Proof using Type.
  intros Hok. unfold offered. pose proof (lease_by_chaddr (leases st) (chaddr p)) as Hc. destruct (find_lease_by_chaddr (leases st) (chaddr p)) as [i|].
  - destruct Hc as (l & Hl & Hc). rewrite Hl. cbn [mbind option_bind]. intros [= <- _]. by eapply own_vacant.
  - destruct (option_word p DHCP_REQUESTED_IP) as [[r|]|]; cbn [mbind option_bind]; [|intros [= <- _]; intros j l _ _ _ Hz; done|done].
    intros [= <- _]. case_match eqn:E; [|by intros j l _ _ _ Hz]. bprop. apply vacant_found; [done|].
    pose proof (lease_by_yiaddr (leases st) r) as Hr. destruct (find_lease_by_yiaddr (leases st) r) as [i|]; [|done].
    destruct Hr as (l & Hl & _). rewrite Hl in *. exists l. auto.
Qed.

(** ** The answers *)

#[local] Opaque get_option init_packet send_packet answer valid_ip.

(** A step on behalf of the client of [p]. *)
Definition step_kept (e : env) (p : dhcpMessage) (lost : Z -> Prop) (st : dhcpd) (r : result) : Prop :=
  kept (now e) (chaddr p) lost (leases st) (leases (r.1.2)).

Lemma sendOffer_kept st e p r : table_ok (leases st) -> length (chaddr p) = 16%nat -> 0 <= now e ->
  sendOffer cfg st e p = Some r -> step_kept e p (fun _ => False) st r.
Proof using Type.
  intros Hok Hc Ht. unfold sendOffer. destruct (init_packet _ _ _) as [m|]; [|done]. cbn [mbind option_bind].
  destruct (find_static_lease_by_chaddr _ _).
  { intros E. repeat (apply bind_Some in E as (? & ? & E)). injection E as <-. by apply kept_same. }
  intros E. apply bind_Some in E as ([a t] & Ho & E). apply bind_Some in E as (yi & Hyi & E).
  assert (vacant (now e) (chaddr p) (leases st) yi) as Hv.
  { destruct (Z.eqb_spec a 0); cbn [negb] in Hyi; [|injection Hyi as <-; by eapply offered_vacant].
    apply bind_Some in Hyi as (b & Hb & Hyi). destruct (b =? 0); [by eapply pool_vacant|]. injection Hyi as <-. by eapply pool_vacant. }
  destruct (yi =? 0); [injection E as <-; by apply kept_same|]. apply bind_Some in E as (h & _ & E).
  pose proof (kept_add (now e) (chaddr p) yi (offer_time cfg) h (leases st) Hok Hc Ht) as Hk. destruct (add_lease _ _ _ _ _ _) as [slot ls].
  destruct Hk as [Hk _]. destruct slot as [i|]; [|injection E as <-; by eapply kept_vacant].
  repeat (apply bind_Some in E as (? & ? & E)). injection E as <-. by eapply kept_vacant.
Qed.

Lemma sendNAK_kept st e p r lost : table_ok (leases st) -> sendNAK cfg st e p = Some r -> step_kept e p lost st r.
Proof using Type. intros Hok E. unfold sendNAK in E. repeat (apply bind_Some in E as (? & ? & E)). injection E as <-. by apply kept_same. Qed.

Lemma set_acked_holder x : same_holder (set_acked x).
Proof using Type. intros l. by split; [|left]. Qed.

(** Writing the file changes no table. *)
Lemma written_same e st st' : write_leases cfg e st = Some st' -> leases st' = leases st /\ static_leases st' = static_leases st.
Proof using Type.
  unfold write_leases. destruct (can_open e); [|by intros [= <-]]. destruct (notify_file cfg); [|intros [= <-]; by destruct (dhcp_helper cfg)].
  intros (c & _ & [= <-])%bind_Some. by destruct (dhcp_helper cfg).
Qed.

Lemma sendACK_kept st e p a r : table_ok (leases st) -> length (chaddr p) = 16%nat -> 0 <= now e ->
  sendACK cfg st e p a = Some r -> step_kept e p (fun b => b <> 0 /\ b = a) st r.
Proof using Type.
  intros Hok Hc Ht E. unfold sendACK in E. apply bind_Some in E as (m & _ & E). destruct (find_static_lease_by_chaddr _ _).
  { repeat (apply bind_Some in E as (? & ? & E)). destruct (_ <? 0); injection E as <-; by apply kept_same. }
  apply bind_Some in E as (t & _ & E). apply bind_Some in E as (m' & _ & E). apply bind_Some in E as (h & _ & E). apply bind_Some in E as (x & _ & E).
  destruct (_ <? 0); [injection E as <-; by apply kept_same|].
  pose proof (kept_add (now e) (chaddr p) a t h (leases st) Hok Hc Ht) as Hk. destruct (add_lease _ _ _ _ _ _) as [slot ls].
  destruct Hk as [Hk Hi]. apply bind_Some in E as (st' & [Hw _]%written_same & E). injection E as <-. unfold step_kept. cbn [fst snd]. rewrite Hw. cbn [leases set_leases].
  destruct slot as [i|]; [|done]. destruct (Hi i eq_refl) as (l & Hl & Hlc). eapply kept_trans_own; [done|apply set_acked_holder|done|done].
Qed.

Lemma sendACK_vacant st e p a r lost : table_ok (leases st) -> length (chaddr p) = 16%nat -> 0 <= now e -> vacant (now e) (chaddr p) (leases st) a ->
  sendACK cfg st e p a = Some r -> step_kept e p lost st r.
Proof using Type. intros Hok Hc Ht Hv E. eapply kept_vacant; [by eapply sendACK_kept|done]. Qed.

(** ** The messages *)

(** A client without a lease says that it has the address [a]. *)
Definition claims (st : dhcpd) (p : dhcpMessage) (a : Z) : Prop :=
  lease_of st (chaddr p) = Some Nothing /\ option_word p DHCP_SERVER_ID = Some None /\ option_word p DHCP_REQUESTED_IP = Some None /\
  a = ciaddr p /\ valid_ip cfg a = true.

(** Who answers for a reserved address touches nothing in the table. *)
Lemma sendACK_static st e p a r i l lost : table_ok (leases st) -> lease_of st (chaddr p) = Some (Static i l) -> sendACK cfg st e p a = Some r -> step_kept e p lost st r.
Proof using Type.
  intros Hok Hs E. unfold sendACK, lease_of in *. apply bind_Some in E as (m & _ & E). destruct (find_static_lease_by_chaddr _ _).
  - repeat (apply bind_Some in E as (? & ? & E)). destruct (_ <? 0); injection E as <-; by apply kept_same.
  - destruct (find_lease_by_chaddr _ _); [by destruct (_ !! _)|done].
Qed.

Lemma holding_spec st c h : lease_of st c = Some h ->
  match h with
  | Dynamic i l => leases st !! i = Some l /\ l_chaddr l = c
  | Static _ _ => True
  | Nothing => Forall (fun l => l_chaddr l <> c) (leases st)
  end.
Proof using Type.
  unfold lease_of. destruct (find_static_lease_by_chaddr _ _) as [i|]; [destruct (_ !! _); [by intros [= <-]|done]|].
  pose proof (lease_by_chaddr (leases st) c) as Hc. destruct (find_lease_by_chaddr (leases st) c) as [i|]; [|by intros [= <-]].
  destruct Hc as (l & Hl & Hc). rewrite Hl. cbn. intros [= <-]. done.
Qed.

(** The acknowledgement of what the client has. *)
Lemma sendACK_own st e p i l r lost h : table_ok (leases st) -> length (chaddr p) = 16%nat -> 0 <= now e ->
  lease_of st (chaddr p) = Some h -> h = Static i l \/ h = Dynamic i l -> sendACK cfg st e p (l_yiaddr l) = Some r -> step_kept e p lost st r.
Proof using Type.
  intros Hok Hc Ht Hh [-> | ->] E; [by eapply sendACK_static|]. eapply sendACK_vacant; try done. destruct (holding_spec _ _ _ Hh). by eapply own_vacant.
Qed.

#[local] Opaque sendACK sendNAK.

Lemma drop_holder : same_holder drop_chaddr.
Proof using Type. intros l. by split; [|right]. Qed.

Lemma do_request_kept st e p r : table_ok (leases st) -> length (chaddr p) = 16%nat -> 0 <= now e ->
  do_request cfg st e p = Some r -> step_kept e p (claims st p) st r.
Proof using Type.
  intros Hok Hc Ht E. unfold do_request in E. apply bind_Some in E as (req & Hreq & E). apply bind_Some in E as (sid & Hsid & E).
  apply bind_Some in E as (h & Hh & E).
  assert (silent st = Some r -> step_kept e p (claims st p) st r) as Hsilent by (intros [= <-]; by apply kept_same).
  assert (sendNAK cfg st e p = Some r -> step_kept e p (claims st p) st r) as Hnak by (by apply sendNAK_kept).
  assert (forall i l, h = Static i l \/ h = Dynamic i l -> sendACK cfg st e p (l_yiaddr l) = Some r -> step_kept e p (claims st p) st r) as Hown
    by (intros i l Hl E'; by eapply sendACK_own).
  destruct h as [i l|i l|].
  1,2: destruct sid as [s|], req as [a|]; try (lazymatch type of E with (if ?b then _ else _) = _ => destruct b end);
    lazymatch type of E with
    | silent _ = _ => exact (Hsilent E)
    | sendNAK _ _ _ _ = _ => exact (Hnak E)
    | _ => exact (Hown i l ltac:(auto) E)
    end.
  destruct sid as [s|]; [by apply Hsilent|]. destruct req as [a|].
  - pose proof (vacant_found (now e) (chaddr p) (leases st) a Hok) as Hv. pose proof (lease_by_yiaddr (leases st) a) as Ha.
    destruct (find_lease_by_yiaddr (leases st) a) as [i|].
    + destruct Ha as (l & Hl & _). rewrite Hl in E. cbn [mbind option_bind] in E. destruct (lease_expired l (now e)) eqn:He; [|exact (Hnak E)].
      injection E as <-. eapply kept_alter; [done|apply drop_holder|done|by right].
    + destruct (valid_ip cfg a && _); [|exact (Hnak E)]. eapply sendACK_vacant; try done. by apply Hv.
  - destruct (negb (ciaddr p =? 0) && valid_ip cfg (ciaddr p)) eqn:Ev; [|exact (Hnak E)]. bprop. eapply kept_lose; [|by eapply sendACK_kept]. intros b [_ ->].
    unfold claims. split_and!; first [assumption | reflexivity].
Qed.

(** What a message may change: the table stays sound, and every lease of another client that has not ended stays where it
    is, unless the message claims its address without having a lease. *)
Lemma handle_kept st e p r : table_ok (leases st) -> length (chaddr p) = 16%nat -> 0 <= now e ->
  handle cfg st e p = Some r -> step_kept e p (claims st p) st r.
Proof using Type.
  intros Hok Hc Ht E. unfold handle in E. apply bind_Some in E as (s & _ & E).
  assert (silent st = Some r -> step_kept e p (claims st p) st r) as Hsilent by (intros [= <-]; by apply kept_same).
  destruct s as [[n d]|]; [|by apply Hsilent]. apply bind_Some in E as (type & _ & E). apply bind_Some in E as (h & Hh & E).
  destruct (type =? DHCPDISCOVER); [eapply kept_lose; [|by eapply sendOffer_kept]; done|].
  destruct (type =? DHCPREQUEST); [by apply do_request_kept|]. pose proof (holding_spec _ _ _ Hh) as Hs.
  destruct (type =? DHCPDECLINE).
  { destruct h as [i l|i l|]; [by apply Hsilent| |by apply Hsilent]. destruct Hs as [Hl Hlc]. injection E as <-.
    eapply kept_alter; [done| |done|by left]. intros x. by split; [|right]. }
  destruct (type =? DHCPRELEASE).
  { destruct h as [i l|i l|]; [| |by apply Hsilent]; apply bind_Some in E as (st' & [Hw _]%written_same & E); injection E as <-; unfold step_kept; cbn [fst snd]; rewrite Hw; [by apply kept_same|].
    destruct Hs as [Hl Hlc]. eapply kept_alter; [done| |done|by left]. intros x. by split; [|left]. }
  destruct (type =? DHCPINFORM); [|by apply Hsilent]. unfold send_inform in E. repeat (apply bind_Some in E as (? & ? & E)). injection E as <-. by apply kept_same.
Qed.

(** ** Reserved addresses *)

(** What does not change of a reserved address. *)
Definition holder (l : dhcpOfferedAddr) : list Z * Z * list (list Z) := (l_chaddr l, l_yiaddr l, l_options l).

Lemma alter_holder f i (ls : list dhcpOfferedAddr) : (forall l, holder (f l) = holder l) -> map holder (alter f i ls) = map holder ls.
Proof using Type. intros Hf. revert i. induction ls as [|l ls IH]; intros [|i]; [done..|cbn; by rewrite Hf|]. change (alter f (S i) (l :: ls)) with (l :: alter f i ls). cbn. by rewrite IH. Qed.

Lemma sendACK_statics st e p a r : sendACK cfg st e p a = Some r -> map holder (static_leases (r.1.2)) = map holder (static_leases st).
Proof using Type.
  Transparent sendACK. unfold sendACK. Opaque sendACK. intros E. apply bind_Some in E as (m & _ & E). destruct (find_static_lease_by_chaddr _ _) as [i|].
  - repeat (apply bind_Some in E as (? & ? & E)). destruct (_ <? 0); injection E as <-; [done|]. by apply alter_holder.
  - repeat (apply bind_Some in E as (? & ? & E)). destruct (_ <? 0); [by injection E as <-|]. destruct (add_lease _ _ _ _ _ _).
    apply bind_Some in E as (st' & [_ Hw]%written_same & E). injection E as <-. cbn [fst snd]. by rewrite Hw.
Qed.

Lemma sendNAK_statics st e p r : sendNAK cfg st e p = Some r -> r.1.2 = st.
Proof using Type. Transparent sendNAK. unfold sendNAK. Opaque sendNAK. intros E. repeat (apply bind_Some in E as (? & ? & E)). by injection E as <-. Qed.

Lemma sendOffer_statics st e p r : sendOffer cfg st e p = Some r -> static_leases (r.1.2) = static_leases st.
Proof using Type.
  unfold sendOffer. intros E. apply bind_Some in E as (m & _ & E). destruct (find_static_lease_by_chaddr _ _) as [i|].
  { repeat (apply bind_Some in E as (? & ? & E)). by injection E as <-. }
  apply bind_Some in E as ([a t] & _ & E). apply bind_Some in E as (yi & _ & E). destruct (yi =? 0); [by injection E as <-|].
  apply bind_Some in E as (h & _ & E). destruct (add_lease _ _ _ _ _ _) as [[i|] ls]; [|by injection E as <-]. repeat (apply bind_Some in E as (? & ? & E)). by injection E as <-.
Qed.

Lemma do_request_statics st e p r : do_request cfg st e p = Some r -> map holder (static_leases (r.1.2)) = map holder (static_leases st).
Proof using Type.
  intros E. unfold do_request in E. do 3 (apply bind_Some in E as (? & _ & E)).
  repeat match type of E with
  | silent _ = _ => injection E as <-; reflexivity
  | sendNAK _ _ _ _ = _ => by apply sendNAK_statics in E as ->
  | sendACK _ _ _ _ _ = _ => by eapply sendACK_statics
  | mbind _ _ = _ => apply bind_Some in E as (? & _ & E)
  | (match ?x with _ => _ end) = _ => destruct x
  end.
Qed.

(** No message changes who has a reserved address. *)
Lemma handle_statics st e p r : handle cfg st e p = Some r -> map holder (static_leases (r.1.2)) = map holder (static_leases st).
Proof using Type.
  intros E. unfold handle in E. apply bind_Some in E as ([[n d]|] & _ & E); [|by injection E as <-]. do 2 (apply bind_Some in E as (? & _ & E)).
  destruct (_ =? DHCPDISCOVER); [by apply sendOffer_statics in E as ->|]. destruct (_ =? DHCPREQUEST); [by eapply do_request_statics|].
  destruct (_ =? DHCPDECLINE); [case_match; by injection E as <-|]. destruct (_ =? DHCPRELEASE).
  { case_match; [| |by injection E as <-]; apply bind_Some in E as (st' & [_ Hw]%written_same & E); injection E as <-; cbn [fst snd]; rewrite Hw; [by apply alter_holder|done]. }
  destruct (_ =? DHCPINFORM); [|by injection E as <-]. unfold send_inform in E. repeat (apply bind_Some in E as (? & ? & E)). by injection E as <-.
Qed.

(** ** The loop of the server *)

(** Messages that are served one after the other; what is sent. *)
Fixpoint run (st : dhcpd) (ms : list (env * dhcpMessage)) : option (dhcpd * list frame) :=
  match ms with
  | [] => Some (st, [])
  | (e, p) :: ms =>
      r ← handle cfg st e p;
      r' ← run r.1.2 ms;
      Some (r'.1, r.2 ++ r'.2)
  end.

Definition arrived (m : env * dhcpMessage) : Prop := length (chaddr m.2) = 16%nat /\ 0 <= now m.1.

(** A message that comes before [ends], from another client than [c], and does not say that the address [a] is its own without
    asking for an address or naming a server. *)
Definition spares (c : list Z) (a ends : Z) (m : env * dhcpMessage) : Prop :=
  now m.1 < ends /\ chaddr m.2 <> c /\
  ~ (option_word m.2 DHCP_SERVER_ID = Some None /\ option_word m.2 DHCP_REQUESTED_IP = Some None /\ ciaddr m.2 = a).

Definition harmless (l : dhcpOfferedAddr) : env * dhcpMessage -> Prop := spares (l_chaddr l) (l_yiaddr l) (l_expires l).

Lemma run_kept ms : forall st st' f, table_ok (leases st) -> Forall arrived ms -> run st ms = Some (st', f) ->
  table_ok (leases st') /\ length (leases st') = length (leases st) /\ map holder (static_leases st') = map holder (static_leases st) /\
  forall j l, leases st !! j = Some l -> Forall (harmless l) ms -> leases st' !! j = Some l.
Proof using Type.
  induction ms as [|[e p] ms IH]; intros st st' f Hok Ha E; cbn [run] in E; [injection E as <- _; by split_and!|].
  apply bind_Some in E as (r & Hr & E). apply bind_Some in E as ([st2 f2] & Hr2 & E). injection E as <- _. cbn [fst].
  apply Forall_cons_iff in Ha as [[Hc Ht] Ha]. pose proof (handle_kept _ _ _ _ Hok Hc Ht Hr) as (K1 & K2 & K3). pose proof (handle_statics _ _ _ _ Hr) as Hs.
  destruct (IH _ _ _ K1 Ha Hr2) as (I1 & I2 & I3 & I4). split_and!; [done|by rewrite I2|by rewrite I3|].
  intros j l Hj Hl. apply Forall_cons_iff in Hl as [(L1 & L2 & L3) Hl]. apply I4; [|done]. apply K3; [done|by apply Z.leb_gt|done|].
  intros (_ & C1 & C2 & C3 & _). apply L3. split_and!; [exact C1|exact C2|symmetry; exact C3].
Qed.

(** A lease stands: whatever other clients send, in any number and order, and whatever the network and ARP answer, until
    its end the lease is in its slot as it was entered, and the table stays sound: one slot for an address, one for a client.
    Only a renewal by a client that the server does not know can take its address. *)
Theorem leases_stand ms st st' f j l :
  table_ok (leases st) -> Forall arrived ms -> run st ms = Some (st', f) -> leases st !! j = Some l -> Forall (harmless l) ms ->
  table_ok (leases st') /\ leases st' !! j = Some l.
Proof using Type. intros Hok Ha Hr Hj Hl. destruct (run_kept ms st st' f Hok Ha Hr) as (? & _ & _ & Hk). auto. Qed.

End Handle.
End DhcpSafety.
