(* ===== verification/DhcpReplies.v ===== *)
(** * What the DHCP server answers, as the client reads it.

    Every frame that the server sends carries checksums that the receiver finds in order, and the bytes of a packet which,
    read the way the program reads packets, is an answer to the message that was served. *)
From Stdlib Require Import ZArith Lia Bool String.
From stdpp Require Import base tactics list option numbers.
From S2P Require Import Prelude XmldbFile DhcpOptions DhcpPacket DhcpLeases DhcpServer DhcpClient DhcpSafety.

Module DhcpReplies.
Import DhcpOptions DhcpPacket DhcpLeases DhcpServer.

(** ** Frames that are received *)

Section Receive.
Context `{Endian}.

(** The receiver finds the checksums in order, and the client of the program reads the packet [m] from the frame; what goes to a
    relay is the packet itself. *)
Definition receivable (f : frame) (m : dhcpMessage) : Prop :=
  match f with
  | Raw _ _ bs =>
      checksum (take 20 bs) = Some 0 /\ checksum (DhcpClient.pseudo_ip bs ++ drop 20 bs) = Some 0 /\
      forall old, DhcpClient.get_raw_packet old (Some bs) = Some (Z.of_nat MSG_SIZE, m)
  | Kernel _ _ bs => of_bytes bs = m /\ giaddr m <> 0
  end.

Lemma receivable_unique f m m' : receivable f m -> receivable f m' -> m = m'.
Proof using Type. destruct f; cbn [receivable]; [intros (_ & _ & E) (_ & _ & E'); specialize (E m); rewrite E' in E; congruence|intros [E _] [E' _]; congruence]. Qed.

Lemma store_2 x : exists a b, store 2 x = [a; b].
Proof using Type. pose proof (length_store 2 x) as Hl. destruct (store 2 x) as [|a [|b [|]]]; try done. eauto. Qed.

Lemma store_4 x : exists a b c d, store 4 x = [a; b; c; d].
Proof using Type. pose proof (length_store 4 x) as Hl. destruct (store 4 x) as [|a [|b [|c [|d [|]]]]]; try done. by eexists _, _, _, _. Qed.

Lemma store_zero : store 2 0 = [0; 0].
Proof using Type. unfold store, native. by destruct big. Qed.

Lemma ntohs_htons x : 0 <= x < 2 ^ 16 -> ntohs (htons x) = x.
Proof using Type.
  intros Hx. unfold ntohs, htons. change 2%nat with (length (be_bytes 2 x)) at 1. rewrite store_load by apply be_bytes_bytes. by apply be_word_bytes.
Qed.

Lemma htons_bound x : 0 <= htons x < 2 ^ 16.
Proof using Type.
  unfold htons. pose proof (load_bound (be_bytes 2 x) (be_bytes_bytes 2 x)) as Hb. by rewrite length_be_bytes in Hb.
Qed.

Lemma of_bytes_app a b : length a = MSG_SIZE -> of_bytes (a ++ b) = of_bytes a.
Proof using Type.
  intros Ha. unfold of_bytes. rewrite take_app_le by lia. rewrite length_app. replace (MSG_SIZE - (length a + length b))%nat with (MSG_SIZE - length a)%nat by lia. done.
Qed.

Lemma checksum_bound bs c : checksum bs = Some c -> 0 <= c < 2 ^ 16.
Proof using Type.
  unfold checksum. intros E. apply bind_Some in E as (s & _ & E). apply bind_Some in E as (s' & _ & E). injection E as <-. apply Z.mod_pos_bound. lia.
Qed.

(** What is sent to the port of the client is read by the client. *)
Lemma raw_read p src sport dst bs old : msg_ok p -> ntohl (cookie p) = DHCP_MAGIC -> raw_frame p src sport dst CLIENT_PORT = Some bs ->
  DhcpClient.get_raw_packet old (Some bs) = Some (Z.of_nat MSG_SIZE, p).
Proof using Type.
  intros Hp Hck E. unfold raw_frame in E. apply bind_Some in E as (c & Ec & E). apply bind_Some in E as (c' & Ec' & E). apply (inj Some) in E. subst bs.
  pose proof (checksum_bound _ _ Ec) as Bc. pose proof (checksum_bound _ _ Ec') as Bc'.
  assert (length (to_bytes p) = 548%nat) as Hn by (apply length_to_bytes; apply Hp).
  pose proof (load_store 2 (htons (28 + Z.of_nat MSG_SIZE)) (htons_bound _)) as L1. pose proof (load_store 2 (htons (8 + Z.of_nat MSG_SIZE)) (htons_bound _)) as L2.
  pose proof (load_store 2 (htons CLIENT_PORT) (htons_bound _)) as L3. pose proof (load_store 2 c Bc) as L4. pose proof (load_store 2 c' Bc') as L5.
  unfold ip_header, udp_header in *. rewrite store_zero in *.
  destruct (store_2 (htons (28 + Z.of_nat MSG_SIZE))) as (a1 & a2 & Ea). destruct (store_2 c) as (u1 & u2 & Eu). destruct (store_2 c') as (v1 & v2 & Ev).
  destruct (store_2 (htons (8 + Z.of_nat MSG_SIZE))) as (n1 & n2 & En). destruct (store_2 (htons sport)) as (x1 & x2 & Ex). destruct (store_2 (htons CLIENT_PORT)) as (y1 & y2 & Ey).
  destruct (store_4 src) as (s1 & s2 & s3 & s4 & Es). destruct (store_4 dst) as (d1 & d2 & d3 & d4 & Ed).
  rewrite Ea, Eu, Ev, En, Ex, Ey, Es, Ed in *. cbn [app] in *. unfold DhcpClient.get_raw_packet. cbv zeta. cbn [length]. rewrite Hn.
  rewrite take_ge by (cbn [length]; rewrite Hn; reflexivity). change (DhcpClient.UDP_SIZE - _)%nat with 0%nat. cbn [replicate]. rewrite app_nil_r.
  unfold slice, DhcpClient.pseudo_ip, slice. cbn [drop take app]. rewrite drop_0, take_0, L1, L2, L3, L4, L5. rewrite !ntohs_htons by done.
  change (Z.min _ _) with 576. change (28 + Z.of_nat MSG_SIZE) with 576. cbn [Z.ltb Z.compare Pos.compare Pos.compare_cont]. 
  cbn [eqb_list]. rewrite !Z.eqb_refl. change (Z.of_nat DhcpClient.UDP_SIZE <? 576) with false. change (8 + Z.of_nat MSG_SIZE =? u16 (576 - 20)) with true.
  cbn [andb negb orb]. rewrite Ec'. cbn [mbind option_bind]. rewrite Z.eqb_refl. cbn [negb].
  rewrite (take_ge _ (Z.to_nat 576)) by (cbn [length]; rewrite Hn; reflexivity). rewrite Ec. cbn [mbind option_bind]. rewrite Z.eqb_refl, andb_false_r.
  change (Z.to_nat (576 - 28)) with 548%nat. rewrite (take_ge (to_bytes p)) by lia. rewrite of_bytes_app by done. rewrite of_to_bytes by done.
  rewrite Hck, Z.eqb_refl. reflexivity.
Qed.

Lemma raw_receivable p arp ifindex src sport dst : msg_ok p -> ntohl (cookie p) = DHCP_MAGIC ->
  exists bs, raw_frame p src sport dst CLIENT_PORT = Some bs /\ receivable (Raw arp ifindex bs) p.
Proof using Type.
  intros Hp Hck. destruct (raw_frame_verifies p src sport dst CLIENT_PORT Hp) as (c & c' & E & C1 & C2 & _). eexists. split; [exact E|].
  split; [|split; [|intros old; by eapply raw_read]]. all: revert C1 C2; unfold DhcpClient.pseudo_ip, slice, ip_header, udp_header; rewrite store_zero.
  all: destruct (store_2 (htons (28 + Z.of_nat MSG_SIZE))) as (t1 & t2 & ->); destruct (store_2 c) as (u1 & u2 & ->); destruct (store_2 c') as (v1 & v2 & ->).
  all: destruct (store_2 (htons (8 + Z.of_nat MSG_SIZE))) as (n1 & n2 & ->); destruct (store_2 (htons sport)) as (x1 & x2 & ->); destruct (store_2 (htons CLIENT_PORT)) as (y1 & y2 & ->).
  all: destruct (store_4 src) as (s1 & s2 & s3 & s4 & ->); destruct (store_4 dst) as (d1 & d2 & d3 & d4 & ->); cbn [app take drop]; rewrite ?take_0, ?drop_0; auto.
Qed.
End Receive.

Section Answers.
Context `{Endian} (cfg : server_config_t).

(** What the system answers to a program that can send. *)
Definition good_net (n : net) : Prop := 0 <= sock n /\ 0 <= ready n /\ 0 <= sent_bytes n.

Lemma send_spec e m b : msg_ok m -> ntohl (cookie m) = DHCP_MAGIC -> exists x fs, send_packet cfg e m b = Some (x, fs) /\
  ((x = -1 /\ fs = [] /\ ~ good_net (network e)) \/ (x = sent_bytes (network e) /\ exists f, fs = [f] /\ receivable f m)).
Proof using Type.
  intros Hm Hck. unfold send_packet. destruct (Z.eqb_spec (giaddr m) 0) as [|Hg]; cbn [negb].
  - unfold send_packet_to_client. case_match. unfold raw_packet, good_net. destruct (Z.ltb_spec (sock (network e)) 0); [eexists _, _; split; [done|left; split_and!; [done|done|lia]]|].
    destruct (Z.ltb_spec (ready (network e)) 0); [eexists _, _; split; [done|left; split_and!; [done|done|lia]]|].
    edestruct (raw_receivable m) as (bs & -> & Hr); [done|done|]. cbn [mbind option_bind]. eexists _, _. split; [done|]. right. split; [done|]. by eexists.
  - unfold kernel_packet, good_net. destruct (Z.ltb_spec (sock (network e)) 0); [eexists _, _; split; [done|left; split_and!; [done|done|lia]]|].
    destruct (Z.eqb_spec (ready (network e)) (-1)); [eexists _, _; split; [done|left; split_and!; [done|done|lia]]|].
    eexists _, _. split; [done|]. right. split; [done|]. eexists. split; [done|]. split; [by apply of_to_bytes|done].
Qed.

(** ** Options of the configuration *)

(** The length of an option is right for its type: any length for a string, otherwise some values of the length of the type. *)
Definition type_length (o : dhcp_option) (n : Z) : Prop :=
  Z.land (o_flags o) TYPE_MASK = OPTION_STRING \/
  exists m k, rd option_lengths (Z.land (o_flags o) TYPE_MASK) = Some m /\ 0 < m /\ 0 < k /\ n = m * k.

Definition shaped (o : Z * list Z) : Prop := forall x, x ∈ option_table -> o_code x = o.1 -> type_length x (zlen o.2).

Definition good_option (d : list Z) : Prop := exists o, d = option_string o /\ opt_ok o /\ shaped o.

Definition opts_ok (l : list (Z * list Z)) : Prop := Forall opt_ok l /\ (length (flat l) <= 307)%nat.

(** The lists of options only grow at the end, by options that are not the lease time. *)
Lemma add_options_spec opts : Forall good_option opts -> forall l, opts_ok l ->
  exists l', add_options opts (area_of l) = Some (area_of (l ++ l')) /\ opts_ok (l ++ l') /\ Forall (fun o => o.1 <> DHCP_LEASE_TIME) l' /\ Forall shaped l'.
Proof using Type.
  induction opts as [|d opts IH]; intros Ho l Hl; cbn [add_options]; [exists []; by rewrite app_nil_r|].
  apply Forall_cons_iff in Ho as [(o & -> & Ho & Hsh) Hopts]. specialize (IH Hopts). destruct (Z.eqb_spec (data_code (option_string o)) DHCP_LEASE_TIME) as [|Hn]; [by apply IH|].
  destruct Hl as [Hl Hlen]. rewrite add_option_spec by done. destruct (Z.ltb_spec (zlen (flat (l ++ [o])) + 1) 308) as [Hs|Hs]; cbn [mbind option_bind snd].
  - destruct (IH (l ++ [o])) as (l' & E & Hok & Hl' & Hs'); [split; [by apply Forall_app; split; [|constructor]|lia]|].
    exists (o :: l'). rewrite <- app_assoc in E, Hok. by split_and!; [| |constructor|constructor].
  - by apply IH.
Qed.

(** The command that tells of the file of leases fits the buffer of [write_leases]. *)
Definition notify_fits : Prop := match notify_file cfg with Some name => zlen name + 1 + zlen (lease_name cfg) < 255 | None => True end.

Lemma leases_written e st : notify_fits -> exists st', write_leases cfg e st = Some st'.
Proof using Type.
  unfold notify_fits, write_leases. intros Hn. destruct (can_open e); [|by eexists]. destruct (notify_file cfg) as [name|]; [|by eexists].
  unfold notify_command. rewrite sprint_ok; [by eexists|]. rewrite length_app. cbn [length]. lia.
Qed.

(** What is written and what is run, if it fits; if it does not fit, the buffer is overrun. *)
Lemma written_file e st : notify_fits -> can_open e = true ->
  write_leases cfg e st = Some (mkd (leases st) (static_leases st) (leases_text cfg st (now e))
    (commands st ++ option_list (dhcp_helper cfg) ++ option_list ((fun name => name ++ 32 :: lease_name cfg) <$> notify_file cfg))).
Proof using Type.
  unfold notify_fits, write_leases, notify_command. intros Hn ->. destruct (notify_file cfg) as [name|]; [rewrite sprint_ok by (rewrite length_app; cbn [length]; lia)|];
    destruct (dhcp_helper cfg); cbn -[leases_text]; unfold run_command; cbn [leases static_leases lease_file commands]; by rewrite <- ?app_assoc, ?app_nil_r.
Qed.

Theorem long_notify_overflows e st name : notify_file cfg = Some name -> 255 <= zlen name + 1 + zlen (lease_name cfg) -> can_open e = true -> write_leases cfg e st = None.
Proof using Type.
  intros Hn Hl Hc. unfold write_leases, notify_command. rewrite Hc, Hn, sprint_over; [done|]. rewrite length_app. cbn [length]. lia.
Qed.

(** The configuration as it should be. *)
Record cfg_ok : Prop := {
  cfg_words : is_word 4 (server cfg) /\ is_word 4 (conf_siaddr cfg) /\ is_word 4 (lease cfg);
  cfg_options : Forall good_option (conf_options cfg);
  cfg_strings : from_option bytes True (conf_sname cfg) /\ from_option bytes True (boot_file cfg);
  cfg_range : ntohl (start cfg) <= ntohl (end_ cfg) + 1 /\ ntohl (end_ cfg) < 2 ^ 32 - 1;
  cfg_notify : notify_fits
}.

(** The addresses are words, and the options of the reserved ones are options. *)
Definition words_ok (ls : list dhcpOfferedAddr) : Prop := Forall (fun l => is_word 4 (l_yiaddr l)) ls.
Definition state_ok (st : dhcpd) : Prop :=
  words_ok (leases st) /\ words_ok (static_leases st) /\ Forall (fun l => Forall good_option (l_options l)) (static_leases st).

Lemma lookup_app l l' code : lookup_opt (l ++ l') code = match lookup_opt l code with Some d => Some d | None => lookup_opt l' code end.
Proof using Type. induction l as [|[c d] l IH]; [done|]. cbn. by destruct (c =? code). Qed.

Lemma lookup_absent l code : Forall (fun o => o.1 <> code) l -> lookup_opt l code = None.
Proof using Type. induction 1 as [|[c d] l Hc _ IH]; [done|]. cbn in *. by rewrite (proj2 (Z.eqb_neq _ _) Hc). Qed.

Lemma found_area p l code : options p = area_of l -> opts_ok l -> code <> DHCP_END ->
  match lookup_opt l code with Some d => exists rest, found p code = Some (Some (zlen d, d ++ rest)) | None => found p code = Some None end.
Proof using Type.
  intros Ho [Hl Hn] Hc. unfold found. pose proof (get_option_spec p l code Ho Hl Hn Hc) as Hg. destruct (lookup_opt l code); [|by rewrite Hg].
  destruct Hg as [rest ->]. by exists rest.
Qed.

Lemma option_word_area p l code : options p = area_of l -> opts_ok l -> code <> DHCP_END ->
  (forall d, lookup_opt l code = Some d -> (4 <= length d)%nat) ->
  option_word p code = Some ((fun d => load (take 4 d)) <$> lookup_opt l code).
Proof using Type.
  intros Ho Hl Hc Hd. unfold option_word. pose proof (found_area p l code Ho Hl Hc) as Hf. destruct (lookup_opt l code) as [d|]; [|by rewrite Hf].
  destruct Hf as [rest ->]. specialize (Hd d eq_refl). cbn [mbind option_bind]. unfold word4. rewrite (proj2 (Z.leb_le _ _)) by (rewrite length_app; lia).
  cbn. by rewrite take_app_le.
Qed.

(** ** Answers *)

(** The options of a new packet. *)
Definition first_options (type : Z) : list (Z * list Z) := [(DHCP_MESSAGE_TYPE, [type]); (DHCP_SERVER_ID, store 4 (server cfg))].

(** An answer to [old] of the type [type], for the address [yi] and, if it says so, the time [t]. *)
Record reply (old : dhcpMessage) (type yi : Z) (t : option Z) (m : dhcpMessage) : Prop := {
  r_ok : msg_ok m;
  r_op : op m = BOOTREPLY /\ ntohl (cookie m) = DHCP_MAGIC;
  r_for : xid m = xid old /\ chaddr m = chaddr old /\ yiaddr m = yi /\ giaddr m = giaddr old;
  r_type : exists rest, found m DHCP_MESSAGE_TYPE = Some (Some (1, type :: rest));
  r_server : option_word m DHCP_SERVER_ID = Some (Some (server cfg));
  r_time : option_word m DHCP_LEASE_TIME = Some (htonl <$> t);
  r_options : exists l, options m = area_of (first_options type ++ l) /\ opts_ok (first_options type ++ l) /\ Forall shaped (first_options type ++ l) /\
    lookup_opt l DHCP_LEASE_TIME = (fun x => store 4 (htonl x)) <$> t
}.

Definition is_reply (type : Z) : Prop := type = DHCPOFFER \/ type = DHCPACK \/ type = DHCPNAK.

Lemma word_opt_ok code x : is_byte code -> code <> DHCP_PADDING -> code <> DHCP_END -> code <> DHCP_OPTION_OVER -> opt_ok (code, store 4 x).
Proof using Type. intros. split_and!; try done; cbn [snd]; [by rewrite length_store|apply store_bytes]. Qed.

Lemma first_options_ok type : is_byte type -> opts_ok (first_options type).
Proof using Type.
  intros Ht. split; [|unfold first_options, flat; cbn [flat_map fst snd app length]; rewrite app_nil_r, length_store; lia].
  constructor; [split_and!; try done; constructor; [done|constructor]|]. constructor; [by apply word_opt_ok|constructor].
Qed.

Lemma area_ok l : opts_ok l -> length (area_of l) = 308%nat /\ bytes (area_of l).
Proof using Type.
  intros [Hl Hn]. split; [by apply length_area|]. unfold area_of. apply Forall_app. split; [|constructor; [done|by apply Forall_replicate]].
  unfold flat. induction Hl as [|[c d] l [[Hc _] [Hd Hb]] _ IH]; [done|]. cbn [flat_map fst snd app]. constructor; [done|]. constructor; [split; cbn in Hd; lia|].
  apply Forall_app. split; [done|]. apply IH. cbn [flat flat_map length] in Hn. rewrite length_app in Hn. cbn [length] in Hn. unfold flat. lia.
Qed.

Lemma reply_byte type : is_reply type -> is_byte type.
Proof using Type. by intros [->|[->| ->]]. Qed.

(** The codes of the table are those of one entry. *)
Lemma shaped_by x d : x ∈ option_table -> type_length x (zlen d) -> shaped (o_code x, d).
Proof using Type.
  intros Hx Ht y Hy Hc. apply list_elem_of_In in Hx, Hy. assert (forallb (fun a => forallb (fun b => implb (o_code a =? o_code b) (o_flags a =? o_flags b)) option_table) option_table = true) as Hall by (vm_compute; reflexivity).
  rewrite forallb_forall in Hall. specialize (Hall y Hy). rewrite forallb_forall in Hall. specialize (Hall x Hx). cbn [fst] in Hc. rewrite Hc, Z.eqb_refl in Hall. apply Z.eqb_eq in Hall.
  unfold type_length in *. by rewrite Hall.
Qed.

Lemma word_shaped code x : code ∈ [DHCP_SERVER_ID; DHCP_LEASE_TIME] -> shaped (code, store 4 x).
Proof using Type.
  intros Hc y Hy E. right. exists 4, 1. cbn [snd]. rewrite length_store. split_and!; try done. apply list_elem_of_In in Hy. cbn [fst] in E.
  assert (forallb (fun y => implb ((o_code y =? DHCP_SERVER_ID) || (o_code y =? DHCP_LEASE_TIME)) (from_option (Z.eqb 4) false (rd option_lengths (Z.land (o_flags y) TYPE_MASK)))) option_table = true) as Hall by (vm_compute; reflexivity).
  rewrite forallb_forall in Hall. specialize (Hall y Hy). assert ((o_code y =? DHCP_SERVER_ID) || (o_code y =? DHCP_LEASE_TIME) = true) as Hb.
  { rewrite E. rewrite !elem_of_cons, elem_of_nil in Hc. by destruct Hc as [->|[->|[]]]. }
  rewrite Hb in Hall. cbn [implb] in Hall. destruct (rd option_lengths _) as [n|]; [|done]. cbn [from_option] in Hall. apply Z.eqb_eq in Hall. by subst n.
Qed.

Lemma first_shaped type : Forall shaped (first_options type).
Proof using Type.
  constructor; [|constructor; [apply word_shaped; rewrite !elem_of_cons; auto|constructor]].
  change (shaped (o_code (mkopt (cs "dhcptype") OPTION_U8 0x35), [type])). apply shaped_by; [apply list_elem_of_In; vm_compute; tauto|]. right. by exists 1, 1.
Qed.

(** An answer as it is built: its options are those of a new packet and [l]. *)
Lemma built_reply old type yi t l m : is_word 4 (server cfg) -> opts_ok (first_options type ++ l) ->
  options m = area_of (first_options type ++ l) -> msg_ok m -> op m = BOOTREPLY /\ ntohl (cookie m) = DHCP_MAGIC ->
  xid m = xid old /\ chaddr m = chaddr old /\ yiaddr m = yi /\ giaddr m = giaddr old -> lookup_opt l DHCP_LEASE_TIME = (fun x => store 4 (htonl x)) <$> t -> Forall shaped l -> reply old type yi t m.
Proof using Type.
  intros Hs Hl Ho Hm Hop Hfor Ht Hsh. split; [done|done|done| | | |exists l; split_and!; [done|done|apply Forall_app; split; [apply first_shaped|done]|done]].
  - destruct (found_area m _ DHCP_MESSAGE_TYPE Ho Hl ltac:(done)) as [rest E]. by exists rest.
  - rewrite (option_word_area m _ DHCP_SERVER_ID Ho Hl ltac:(done)); cbn; [|intros d [= <-]; by rewrite length_store].
    rewrite take_ge by (by rewrite length_store). by rewrite load_store.
  - rewrite (option_word_area m _ DHCP_LEASE_TIME Ho Hl ltac:(done)); rewrite lookup_app; cbn; rewrite Ht.
    + destruct t as [t|]; [|done]. cbn. rewrite take_ge by (by rewrite length_store). rewrite load_store; [done|apply htonl_bound].
    + destruct t as [t|]; [|done]. intros d [= <-]. by rewrite length_store.
Qed.

Lemma init_packet_spec old type : cfg_ok -> msg_ok old -> is_reply type -> exists p, init_packet cfg old type = Some p /\
  options p = area_of (first_options type) /\ msg_ok p /\ (op p = BOOTREPLY /\ ntohl (cookie p) = DHCP_MAGIC) /\
  (xid p = xid old /\ chaddr p = chaddr old /\ yiaddr p = 0 /\ giaddr p = giaddr old).
Proof using Type.
  intros Hcfg Ho Ht. unfold init_packet. destruct (init_header_spec type (reply_byte _ Ht)) as (p & -> & Hopt & Hop & Hck & Hp & Hyi & _).
  cbn [mbind option_bind]. rewrite Hopt, simple_option_4 by done. destruct (first_options_ok type (reply_byte _ Ht)) as [F1 F2].
  apply Forall_cons_iff in F1 as [F0 F1]. apply Forall_cons_iff in F1 as [F1 _]. rewrite add_option_spec; [|by constructor|done|cbn; lia].
  change ([(DHCP_MESSAGE_TYPE, [type])] ++ [(DHCP_SERVER_ID, store 4 (server cfg))]) with (first_options type).
  assert (length (flat (first_options type)) = 9%nat) as Hn by (unfold first_options, flat; cbn [flat_map fst snd app length]; by rewrite app_nil_r, length_store).
  rewrite Hn. cbn [mbind option_bind snd Z.ltb]. eexists. split; [reflexivity|]. cbn [options op cookie xid chaddr yiaddr giaddr].
  destruct Hp as [[P1 P2 P3] P4 P5 [P6 P7]], Ho as [_ O2 _ [O6 O7]]. split_and!; try done; [|by apply Hop].
  repeat rewrite Forall_cons_iff in *. constructor; cbn [op htype hlen hops xid secs flags ciaddr yiaddr siaddr giaddr chaddr sname file cookie options]; try done.
  - constructor; cbn [sname file options]; [done..|]. by apply area_ok, first_options_ok, reply_byte.
  - repeat rewrite Forall_cons_iff. destruct_and!. split_and!; first [assumption | constructor].
Qed.

Lemma field_ok n s old : (0 < n)%nat -> from_option bytes True s -> length old = n /\ bytes old ->
  length (field_of n s old) = n /\ bytes (field_of n s old).
Proof using Type.
  intros Hn Hs Ho. destruct s as [s|]; [|done]. cbn [field_of]. split.
  - rewrite length_app, length_take, length_app, length_replicate. cbn. lia.
  - apply Forall_app. split; [|by constructor]. apply Forall_take, Forall_app. split; [done|by apply Forall_replicate].
Qed.

(** What becomes of a new packet. *)
Lemma complete_ok p yi area : cfg_ok -> msg_ok p -> is_word 4 yi -> length area = 308%nat /\ bytes area -> msg_ok (complete cfg p yi area).
Proof using Type.
  intros [(C1 & C2 & _) _ [C3 C4] _] [[P1 P2 P3] P4 P5 [P6 P7]] Hy Ha. constructor; cbn [complete op htype hlen hops xid secs flags ciaddr yiaddr siaddr giaddr chaddr sname file cookie options]; try done.
  - constructor; cbn [sname file options]; [by apply field_ok; [lia|..]|by apply field_ok; [lia|..]|done].
  - repeat rewrite Forall_cons_iff in *. destruct_and!. split_and!; first [assumption | constructor].
Qed.

Lemma answer_spec p old type yi t opts : cfg_ok -> is_reply type -> options p = area_of (first_options type) -> msg_ok p ->
  op p = BOOTREPLY /\ ntohl (cookie p) = DHCP_MAGIC -> xid p = xid old /\ chaddr p = chaddr old /\ yiaddr p = 0 /\ giaddr p = giaddr old ->
  is_word 4 yi -> Forall good_option opts -> exists m, answer cfg p yi t opts = Some m /\ reply old type yi (Some t) m.
Proof using Type.
  intros Hcfg Ht Ho Hp Hop (Hx & Hch & _ & Hgi) Hy Hopts. unfold answer. rewrite Ho, simple_option_4 by done.
  destruct (first_options_ok type (reply_byte _ Ht)) as [F1 F2]. assert (opt_ok (DHCP_LEASE_TIME, store 4 (htonl t))) as Hlt by (by apply word_opt_ok).
  set (o := (DHCP_LEASE_TIME, store 4 (htonl t))) in *.
  assert (length (flat (first_options type ++ [o])) = 15%nat) as Hn.
  { rewrite flat_app, length_app. unfold first_options, flat, o. cbn [flat_map fst snd app length]. by rewrite !app_nil_r, !length_store. }
  rewrite add_option_spec by done. rewrite (proj2 (Z.ltb_lt _ _)) by lia. cbn [mbind option_bind snd].
  destruct (add_options_spec opts Hopts (first_options type ++ [o])) as (l' & E & Hl & _ & Hsh); [split; [by apply Forall_app; split; [|constructor]|lia]|].
  rewrite E. cbn [mbind option_bind]. eexists. split; [reflexivity|]. rewrite <- app_assoc in Hl |- *.
  eapply (built_reply _ _ _ _ (o :: l')); try done; [apply Hcfg| |constructor; [apply word_shaped; rewrite !elem_of_cons; auto|done]].
  by apply complete_ok; [..|apply area_ok].
Qed.

(** ** What is read of a message *)

(** A message with the options [l]; those that are read have the bytes that are read. *)
Record request_ok (p : dhcpMessage) (l : list (Z * list Z)) : Prop := {
  q_ok : msg_ok p;
  q_options : options p = area_of l /\ opts_ok l;
  q_type : forall d, lookup_opt l DHCP_MESSAGE_TYPE = Some d -> d <> [];
  q_words : forall code d, code ∈ [DHCP_REQUESTED_IP; DHCP_SERVER_ID; DHCP_LEASE_TIME] -> lookup_opt l code = Some d -> (4 <= length d)%nat
}.

Definition word_of (l : list (Z * list Z)) (code : Z) : option Z := (fun d => load (take 4 d)) <$> lookup_opt l code.

Lemma word_read p l code : request_ok p l -> code ∈ [DHCP_REQUESTED_IP; DHCP_SERVER_ID; DHCP_LEASE_TIME] -> option_word p code = Some (word_of l code).
Proof using Type.
  intros [_ [Ho Hl] _ Hw] Hc. apply option_word_area; [done|done| |intros d Hd; by apply (Hw code)].
  intros ->. by repeat (apply elem_of_cons in Hc as [Hc|Hc]; [done|]); apply elem_of_nil in Hc.
Qed.

Lemma lookup_ok l code d : Forall opt_ok l -> lookup_opt l code = Some d -> bytes d.
Proof using Type. induction 1 as [|[c x] l (_ & _ & Hb) _ IH]; [done|]. cbn. destruct (c =? code); [by intros [= <-]|done]. Qed.

Lemma word_of_ok l code x : opts_ok l -> word_of l code = Some x -> is_word 4 x.
Proof using Type.
  intros [Hl _]. unfold word_of. destruct (lookup_opt l code) as [d|] eqn:E; [|done]. cbn. intros [= <-].
  pose proof (load_bound (take 4 d) ltac:(apply Forall_take; by eapply lookup_ok)) as [H0 H1]. split; [done|]. eapply Z.lt_le_trans; [exact H1|].
  apply Z.pow_le_mono_r; [lia|]. rewrite length_take. lia.
Qed.

Lemma name_read p l : request_ok p l -> exists h, host_name p = Some h.
Proof using Type.
  intros [_ [Ho Hl] _ _]. unfold host_name. pose proof (found_area p l DHCP_HOST_NAME Ho Hl ltac:(done)) as Hf.
  destruct (lookup_opt l DHCP_HOST_NAME) as [d|]; [|rewrite Hf; by eexists]. destruct Hf as [rest ->]. cbn [mbind option_bind].
  rewrite (proj2 (Z.leb_le _ _)) by (rewrite length_app; lia). by eexists.
Qed.

(** ** Leases that are found *)

Lemma reserved_lookup n ls : forall i l, reserved (take n ls) !! i = Some l -> ls !! i = Some l.
Proof using Type.
  revert n. induction ls as [|x ls IH]; intros [|n] i l; cbn [take reserved]; try done.
  destruct (l_yiaddr x =? 0); [done|]. destruct i as [|i]; [done|]. cbn. apply IH.
Qed.

Lemma static_by_chaddr statics c i : find_static_lease_by_chaddr statics c = Some i -> exists l, statics !! i = Some l /\ l_chaddr l = c.
Proof using Type.
  unfold find_static_lease_by_chaddr. intros E.
  pose proof (first_slot_spec (fun l => eqb_list (l_chaddr l) c) (reserved (take MAX_STATIC_LEASES statics))) as Hs. rewrite E in Hs.
  destruct Hs as (l & Hl & Hc%eqb_list_true). apply reserved_lookup in Hl. by exists l.
Qed.

Lemma lease_of_defined st c : exists h, lease_of st c = Some h /\
  match h with Static i l => static_leases st !! i = Some l /\ l_chaddr l = c | Dynamic i l => leases st !! i = Some l /\ l_chaddr l = c | Nothing => True end.
Proof using Type.
  unfold lease_of. destruct (find_static_lease_by_chaddr _ _) as [i|] eqn:E.
  - apply static_by_chaddr in E as (l & Hl & Hc). rewrite Hl. cbn. eexists. split; [reflexivity|done].
  - pose proof (lease_by_chaddr (leases st) c) as Hc. destruct (find_lease_by_chaddr (leases st) c) as [i|]; [|by exists Nothing].
    destruct Hc as (l & Hl & Hc). rewrite Hl. cbn. eexists. split; [reflexivity|done].
Qed.

(** ** The answers to messages *)

(** A computation that comes to a result, of which [Q] holds. *)
Definition gives {A} (Q : A -> Prop) (o : option A) : Prop := exists r, o = Some r /\ Q r.

Lemma gives_bind {A B} (Q : B -> Prop) (o : option A) x (f : A -> option B) : o = Some x -> gives Q (f x) -> gives Q (mbind f o).
Proof using Type. by intros ->. Qed.

Lemma gives_result {A} (Q : A -> Prop) r : Q r -> gives Q (Some r).
Proof using Type. by exists r. Qed.

#[local] Opaque init_packet answer send_packet add_options host_name get_option.

(** What is sent in answer to [old]: one frame if the network is good. *)
Definition replied (e : env) (old : dhcpMessage) (type yi : Z) (t : option Z) (fs : list frame) : Prop :=
  (fs = [] /\ ~ good_net (network e)) \/ exists f m, fs = [f] /\ receivable f m /\ reply old type yi t m.

Lemma reply_sent e old type yi t m b : reply old type yi t m -> exists x fs, send_packet cfg e m b = Some (x, fs) /\ replied e old type yi t fs /\
  (good_net (network e) -> 0 <= x).
Proof using Type.
  intros Hr. destruct (send_spec e m b (r_ok _ _ _ _ _ Hr) (proj2 (r_op _ _ _ _ _ Hr))) as (x & fs & E & [(-> & -> & Hn)|(-> & f & -> & Hf)]); eexists _, _; (split; [exact E|]).
  - split; [by left|done].
  - split; [right; exists f, m; split_and!; [done|exact Hf|exact Hr]|]. by intros (_ & _ & ?).
Qed.

Lemma sendNAK_replies st e old : cfg_ok -> msg_ok old -> exists x fs, sendNAK cfg st e old = Some (x, st, fs) /\ replied e old DHCPNAK 0 None fs.
Proof using Type.
  intros Hcfg Ho. unfold sendNAK. destruct (init_packet_spec old DHCPNAK Hcfg Ho ltac:(by right; right)) as (m & -> & Hopt & Hm & Hop & Hfor). cbn [mbind option_bind].
  assert (reply old DHCPNAK 0 None m) as Hr.
  { eapply (built_reply _ _ _ _ []); rewrite ?app_nil_r; try done; [apply Hcfg|by apply first_options_ok]. }
  destruct (reply_sent e _ _ _ _ _ true Hr) as (x & fs & -> & Hs & _). by eexists _, _.
Qed.

Lemma send_inform_replies st e old : cfg_ok -> msg_ok old -> exists x fs, send_inform cfg st e old = Some (x, st, fs) /\ replied e old DHCPACK 0 None fs.
Proof using Type.
  intros Hcfg Ho. unfold send_inform. destruct (init_packet_spec old DHCPACK Hcfg Ho ltac:(by right; left)) as (m & -> & Hopt & Hm & Hop & Hx & Hch & Hyi & Hgi).
  cbn [mbind option_bind]. rewrite Hopt, Hyi. destruct (add_options_spec _ (cfg_options Hcfg) _ (first_options_ok DHCPACK ltac:(done))) as (l' & -> & Hl & Hn & Hsh).
  cbn [mbind option_bind].
  assert (reply old DHCPACK 0 None (complete cfg m 0 (area_of (first_options DHCPACK ++ l')))) as Hr.
  { eapply (built_reply _ _ _ _ l'); try done; [apply Hcfg|by apply complete_ok; [..|apply area_ok]|by rewrite lookup_absent]. }
  destruct (reply_sent e _ _ _ _ _ false Hr) as (x & fs & -> & Hs & _). by eexists _, _.
Qed.

(** The time in an acknowledgement. *)
Definition ack_time (l : list (Z * list Z)) : Z :=
  match ntohl <$> word_of l DHCP_LEASE_TIME with
  | Some t => if negb (t =? 0xFFFFFFFF) && (lease cfg <? t) then lease cfg else if t <? min_lease cfg then lease cfg else t
  | None => lease cfg
  end.

Lemma ack_time_read p l : request_ok p l -> ack_lease_time cfg p = Some (ack_time l).
Proof using Type.
  intros Hp. unfold ack_lease_time, ack_time. rewrite (word_read p l DHCP_LEASE_TIME Hp) by (rewrite !elem_of_cons; auto).
  cbn [mbind option_bind]. by destruct (word_of l DHCP_LEASE_TIME).
Qed.

Lemma ack_time_word l : cfg_ok -> is_word 4 (ack_time l).
Proof using Type.
  intros Hcfg. destruct (cfg_words Hcfg) as (_ & _ & Hl). unfold ack_time. destruct (word_of l DHCP_LEASE_TIME) as [x|]; cbn [fmap option_fmap option_map]; [|done].
  destruct (_ && _); [done|]. destruct (_ <? _); [done|apply ntohl_bound].
Qed.

(** An acknowledgement of a reserved address. *)
Lemma sendACK_reserved st e old l yi i : cfg_ok -> Forall (fun s => Forall good_option (l_options s)) (static_leases st) -> request_ok old l -> is_word 4 yi ->
  find_static_lease_by_chaddr (static_leases st) (chaddr old) = Some i ->
  gives (fun r => exists t, is_word 4 t /\ replied e old DHCPACK yi (Some t) r.2 /\ (good_net (network e) -> r.1.1 = 0)) (sendACK cfg st e old yi).
Proof using Type.
  intros Hcfg Hst Hp Hy Es. pose proof (q_ok _ _ Hp) as Ho. unfold sendACK.
  destruct (init_packet_spec old DHCPACK Hcfg Ho ltac:(by right; left)) as (p & Ep & Hopt & Hm & Hop & Hfor). apply (gives_bind _ _ _ _ Ep).
  destruct (name_read old l Hp) as [h Hh]. rewrite Es. destruct (static_by_chaddr _ _ _ Es) as (s & Hi & _). apply (gives_bind _ _ _ _ Hi).
  destruct (answer_spec p old DHCPACK yi 0xFFFFFFFF (l_options s) Hcfg ltac:(by right; left) Hopt Hm Hop Hfor Hy (Forall_lookup_1 _ _ _ _ Hst Hi)) as (m & Em & Hr).
  apply (gives_bind _ _ _ _ Em), (gives_bind _ _ _ _ Hh). destruct (reply_sent e _ _ _ _ _ false Hr) as (x & fs & Ex & Hs & Hx).
  apply (gives_bind _ _ _ _ Ex). cbn [fst snd].
  destruct (Z.ltb_spec x 0); apply gives_result; exists 0xFFFFFFFF; (split; [done|]); (split; [exact Hs|]); intros Hg; specialize (Hx Hg); [lia|reflexivity].
Qed.

(** The table with a lease that has been acknowledged. *)
Definition entered (st : dhcpd) (e : env) (c : list Z) (yi t : Z) (ls' : list dhcpOfferedAddr) : Prop :=
  exists h, ls' = let '(slot, ls) := add_lease (leases st) (now e) c yi t h in
            match slot with Some k => alter (set_acked 1) k ls | None => ls end.

Lemma sendACK_leased st e old l yi : cfg_ok -> request_ok old l -> is_word 4 yi ->
  find_static_lease_by_chaddr (static_leases st) (chaddr old) = None ->
  gives (fun r => replied e old DHCPACK yi (Some (ack_time l)) r.2 /\
                  (good_net (network e) -> r.1.1 = 0 /\ entered st e (chaddr old) yi (ack_time l) (leases r.1.2))) (sendACK cfg st e old yi).
Proof using Type.
  intros Hcfg Hp Hy Es. unfold sendACK.
  destruct (init_packet_spec old DHCPACK Hcfg (q_ok _ _ Hp) ltac:(by right; left)) as (p & Ep & Hopt & Hm & Hop & Hfor). apply (gives_bind _ _ _ _ Ep).
  destruct (name_read old l Hp) as [h Hh]. rewrite Es. apply (gives_bind _ _ _ _ (ack_time_read _ _ Hp)).
  destruct (answer_spec p old DHCPACK yi (ack_time l) _ Hcfg ltac:(by right; left) Hopt Hm Hop Hfor Hy (cfg_options Hcfg)) as (m & Em & Hr).
  apply (gives_bind _ _ _ _ Em), (gives_bind _ _ _ _ Hh). destruct (reply_sent e _ _ _ _ _ false Hr) as (x & fs & Ex & Hs & Hx).
  apply (gives_bind _ _ _ _ Ex). cbn [fst snd]. destruct (Z.ltb_spec x 0).
  { apply gives_result. split; [exact Hs|]. intros Hg. specialize (Hx Hg). lia. }
  destruct (add_lease (leases st) (now e) (chaddr old) yi (ack_time l) h) as [slot ls] eqn:Ea.
  destruct (leases_written e (set_leases st (match slot with Some k => alter (set_acked 1) k ls | None => ls end)) (cfg_notify Hcfg)) as (st' & Ew).
  apply (gives_bind _ _ _ _ Ew), gives_result. split; [exact Hs|].
  intros _. split; [reflexivity|]. exists h. rewrite Ea. apply DhcpSafety.written_same in Ew as [Ew _]. exact Ew.
Qed.

(** The times of an offer. *)
Definition offer_time_told (l : list (Z * list Z)) (t : Z) : Z :=
  let t := match ntohl <$> word_of l DHCP_LEASE_TIME with Some x => if lease cfg <? x then lease cfg else x | None => t end in
  if t <=? min_lease cfg then lease cfg else t.

Lemma offer_time_read p l t : request_ok p l -> offer_lease_time cfg p t = Some (offer_time_told l t).
Proof using Type.
  intros Hp. unfold offer_lease_time, offer_time_told. rewrite (word_read p l DHCP_LEASE_TIME Hp) by (rewrite !elem_of_cons; auto).
  cbn [mbind option_bind]. by destruct (word_of l DHCP_LEASE_TIME).
Qed.

Lemma offered_read st e p l : state_ok st -> request_ok p l -> exists a t, offered cfg st e p = Some (a, t) /\ is_word 4 a.
Proof using Type.
  intros (Hw & _) Hp. unfold offered. pose proof (lease_by_chaddr (leases st) (chaddr p)) as Hc. destruct (find_lease_by_chaddr (leases st) (chaddr p)) as [i|].
  - destruct Hc as (x & Hx & _). rewrite Hx. cbn [mbind option_bind]. eexists _, _. split; [reflexivity|]. by eapply Forall_lookup_1 in Hw.
  - rewrite (word_read p l DHCP_REQUESTED_IP Hp) by (rewrite !elem_of_cons; auto). cbn [mbind option_bind].
    destruct (word_of l DHCP_REQUESTED_IP) as [r|] eqn:Er; eexists _, _; (split; [reflexivity|]); [|done].
    case_match; [|done]. eapply word_of_ok; [apply (q_options _ _ Hp)|done].
Qed.

Lemma pool_read st e ce : cfg_ok -> exists a, pool_address cfg st e ce = Some a /\ is_word 4 a.
Proof using Type.
  intros Hcfg. destruct (cfg_range Hcfg) as [R1 R2]. pose proof (ntohl_bound (start cfg)). unfold pool_address, find_address.
  destruct (address_loop_spec (ntohl (start cfg)) (ntohl (end_ cfg)) (mask cfg) (leases st) (static_leases st) (now e) (in_use e) ce (proj1 (ntohl_bound _)) R2
    (S (Z.to_nat (ntohl (end_ cfg) - ntohl (start cfg) + 1))) (ntohl (start cfg))) as [[E _]|(y & E & _)]; [lia|lia| |]; rewrite E; eexists; (split; [reflexivity|]);
    [done|apply htonl_bound].
Qed.

(** The address of an offer. *)
Definition chosen (st : dhcpd) (e : env) (a : Z) : option Z :=
  if negb (a =? 0) then Some a else b ← pool_address cfg st e false; if b =? 0 then pool_address cfg st e true else Some b.

Lemma chosen_read st e a : cfg_ok -> is_word 4 a -> exists yi, chosen st e a = Some yi /\ is_word 4 yi.
Proof using Type.
  intros Hcfg Ha. unfold chosen. destruct (a =? 0); cbn [negb]; [|by exists a]. destruct (pool_read st e false Hcfg) as (b & -> & Hb). cbn [mbind option_bind].
  destruct (b =? 0); [by apply pool_read|by exists b].
Qed.

(** Why no offer is made: no address of the range can be given away, or no slot of the table is free. *)
Definition unoffered (st : dhcpd) (e : env) (c : list Z) : Prop :=
  pool_address cfg st e true = Some 0 \/ exists yi h ls, add_lease (leases st) (now e) c yi (offer_time cfg) h = (None, ls).

Lemma chosen_none st e a : chosen st e a = Some 0 -> pool_address cfg st e true = Some 0.
Proof using Type.
  unfold chosen. destruct (Z.eqb_spec a 0) as [|Hn]; cbn [negb]; [|congruence]. intros E. apply bind_Some in E as (b & _ & E).
  destruct (Z.eqb_spec b 0); [exact E|congruence].
Qed.

(** An offer: the reserved address, or one that is then in the table for the time of offers; without an address nothing is sent. *)
Lemma sendOffer_reserved st e old l i : cfg_ok -> state_ok st -> request_ok old l ->
  find_static_lease_by_chaddr (static_leases st) (chaddr old) = Some i ->
  gives (fun r => r.1.2 = st /\ exists s t, static_leases st !! i = Some s /\ replied e old DHCPOFFER (l_yiaddr s) (Some t) r.2) (sendOffer cfg st e old).
Proof using Type.
  intros Hcfg (_ & Hw & Hst) Hp Es. unfold sendOffer.
  destruct (init_packet_spec old DHCPOFFER Hcfg (q_ok _ _ Hp) ltac:(by left)) as (p & Ep & Hopt & Hm & Hop & Hfor). apply (gives_bind _ _ _ _ Ep).
  rewrite Es. destruct (static_by_chaddr _ _ _ Es) as (s & Hi & _). apply (gives_bind _ _ _ _ Hi).
  destruct (answer_spec p old DHCPOFFER (l_yiaddr s) 0xFFFFFFFF (l_options s) Hcfg ltac:(by left) Hopt Hm Hop Hfor (Forall_lookup_1 _ _ _ _ Hw Hi) (Forall_lookup_1 _ _ _ _ Hst Hi))
    as (m & Em & Hr). apply (gives_bind _ _ _ _ Em). destruct (reply_sent e _ _ _ _ _ false Hr) as (x & fs & Ex & Hs & _). apply (gives_bind _ _ _ _ Ex).
  apply gives_result. split; [reflexivity|]. exists s, 0xFFFFFFFF. split; [exact Hi|exact Hs].
Qed.

Lemma sendOffer_leased st e old l : cfg_ok -> state_ok st -> request_ok old l ->
  find_static_lease_by_chaddr (static_leases st) (chaddr old) = None ->
  gives (fun r => static_leases r.1.2 = static_leases st /\
    ((r.2 = [] /\ unoffered st e (chaddr old)) \/ exists yi t h i, is_word 4 yi /\ yi <> 0 /\ replied e old DHCPOFFER yi (Some t) r.2 /\
      add_lease (leases st) (now e) (chaddr old) yi (offer_time cfg) h = (Some i, leases r.1.2))) (sendOffer cfg st e old).
Proof using Type.
  intros Hcfg Hst Hp Es. unfold sendOffer.
  destruct (init_packet_spec old DHCPOFFER Hcfg (q_ok _ _ Hp) ltac:(by left)) as (p & Ep & Hopt & Hm & Hop & Hfor). apply (gives_bind _ _ _ _ Ep). rewrite Es.
  destruct (offered_read st e old l Hst Hp) as (a & t & Ea & Ha). apply (gives_bind _ _ _ _ Ea).
  destruct (chosen_read st e a Hcfg Ha) as (yi & Ey & Hy). apply (gives_bind _ _ _ _ Ey).
  destruct (Z.eqb_spec yi 0) as [->|Hn]; [apply gives_result; split; [reflexivity|left; split; [reflexivity|left; exact (chosen_none _ _ _ Ey)]]|]. destruct (name_read old l Hp) as [h Hh]. apply (gives_bind _ _ _ _ Hh).
  destruct (add_lease (leases st) (now e) (chaddr old) yi (offer_time cfg) h) as [slot ls] eqn:El. destruct slot as [k|]; [|apply gives_result; split; [reflexivity|left; split; [reflexivity|right; by exists yi, h, ls]]].
  apply (gives_bind _ _ _ _ (offer_time_read _ _ t Hp)).
  destruct (answer_spec p old DHCPOFFER yi (offer_time_told l t) _ Hcfg ltac:(by left) Hopt Hm Hop Hfor Hy (cfg_options Hcfg)) as (m & Em & Hr).
  apply (gives_bind _ _ _ _ Em). destruct (reply_sent e _ _ _ _ _ false Hr) as (x & fs & Ex & Hs & _). apply (gives_bind _ _ _ _ Ex).
  apply gives_result. split; [reflexivity|]. right. exists yi, (offer_time_told l t), h, k. split_and!; [exact Hy|exact Hn|exact Hs|exact El].
Qed.

End Answers.
End DhcpReplies.
