(* ===== verification/DhcpRequests.v ===== *)
(** * The packets of the DHCP client.

    Every packet the client builds is well formed: its options, those of the configuration and those it asks for, fit into the
    packet and are found there. *)
From Stdlib Require Import ZArith Lia Bool String.
From stdpp Require Import base tactics list option numbers.
From S2P Require Import Prelude DhcpOptions DhcpPacket DhcpServer DhcpClient DhcpReplies.

Module DhcpRequests.
Import DhcpOptions DhcpPacket DhcpServer DhcpReplies.
Import DhcpClient.

(** ** Sizes of options *)

Lemma flat_cons_length o l : length (flat (o :: l)) = (length (snd o) + 2 + length (flat l))%nat.
Proof. cbn [flat flat_map length app]. rewrite length_app. fold (flat l). lia. Qed.

Lemma flat_app_length l l' : length (flat (l ++ l')) = (length (flat l) + length (flat l'))%nat.
Proof. by rewrite flat_app, length_app. Qed.

Lemma flat_nil_length : length (flat []) = 0%nat.
Proof. reflexivity. Qed.

Ltac sizes := rewrite ?flat_app_length, ?flat_cons_length, ?flat_nil_length in *; cbn [fst snd length] in *; rewrite ?length_store in *; try lia.

Section Packets.
Context `{Endian} (cfg : client_config_t).

(** ** The packets of the client *)

(** The options of the configuration: the name of the client, and that of its host. *)
Definition own_options : list (Z * list Z) :=
  (DHCP_CLIENT_ID, drop 2 (clientid cfg)) :: match hostname cfg with Some h => [(DHCP_HOST_NAME, drop 2 h)] | None => [] end.

Definition hardware : list Z := c_arp cfg ++ replicate 10 0.

Record client_ok : Prop := {
  co_arp : length (c_arp cfg) = 6%nat /\ bytes (c_arp cfg);
  co_id : clientid cfg = option_string (DHCP_CLIENT_ID, drop 2 (clientid cfg));
  co_name : forall h, hostname cfg = Some h -> h = option_string (DHCP_HOST_NAME, drop 2 h);
  co_options : Forall opt_ok own_options;
  co_room : (length (flat own_options) <= 277)%nat
}.

Lemma header_zero type p : init_header type = Some p -> chaddr p = replicate 16 0 /\ flags p = 0 /\ ciaddr p = 0 /\ giaddr p = 0 /\
  (type = DHCPDISCOVER \/ type = DHCPREQUEST \/ type = DHCPRELEASE \/ type = DHCPDECLINE -> op p = BOOTREQUEST).
Proof using Type.
  unfold init_header. intros E. apply bind_Some in E as (area & _ & E). apply bind_Some in E as (r & _ & E). injection E as <-.
  split_and!; try reflexivity. intros [->|[->|[->| ->]]]; reflexivity.
Qed.

(** A packet of the client with the options [l]. *)
Record packet_ok (p : dhcpMessage) (l : list (Z * list Z)) : Prop := {
  po_msg : msg_ok p;
  po_options : options p = area_of l /\ opts_ok l;
  po_op : op p = BOOTREQUEST /\ ntohl (cookie p) = DHCP_MAGIC;
  po_client : chaddr p = hardware /\ giaddr p = 0;
  po_flags : flags p = 0
}.

Definition is_request (type : Z) : Prop := type = DHCPDISCOVER \/ type = DHCPREQUEST \/ type = DHCPRELEASE \/ type = DHCPDECLINE.

Lemma set_options_ok p l l' : packet_ok p l -> opts_ok l' -> packet_ok (set_options p (area_of l')) l'.
Proof using Type.
  intros [[[F1 F2 F3] M2 M3 M4] _ P3 P4 P5] Hl. split; [|by split|done|done|done]. split; [|done|done|done].
  constructor; cbn [sname file options set_options]; [done|done|by apply area_ok].
Qed.

Lemma add_string_ok p l o : packet_ok p l -> opt_ok o -> (length (flat (l ++ [o])) <= 306)%nat ->
  exists n, add_option_string (options p) (option_string o) = Some (n, area_of (l ++ [o])) /\ packet_ok (set_options p (area_of (l ++ [o]))) (l ++ [o]).
Proof using Type.
  intros Hp Ho Hn. destruct (po_options _ _ Hp) as [E [Hl Hlen]]. rewrite E, add_option_spec by done. rewrite (proj2 (Z.ltb_lt _ _)) by lia.
  eexists. split; [reflexivity|]. apply (set_options_ok p l); [done|]. split; [by apply Forall_app; split; [|constructor]|lia].
Qed.

Lemma init_request_spec type : client_ok -> is_request type -> exists p, init_request cfg type = Some p /\ packet_ok p ((DHCP_MESSAGE_TYPE, [type]) :: own_options) /\ ciaddr p = 0.
Proof using Type.
  intros [[A1 A2] Hid Hname Hopts Hroom] Ht. unfold init_request. assert (is_byte type) as Hb by (by destruct Ht as [->|[->|[->| ->]]]).
  destruct (init_header_spec type Hb) as (p & E & Ho & _ & Hck & Hm & _). rewrite E. destruct (header_zero _ _ E) as (Z1 & Z2 & Z3 & Z4 & Z5). cbn [mbind option_bind].
  rewrite Z1, (take_ge (c_arp cfg)) by lia. change (drop 6 (replicate 16 0)) with (replicate 10 0). fold hardware.
  assert (packet_ok (set_chaddr p hardware) [(DHCP_MESSAGE_TYPE, [type])]) as P0.
  { destruct Hm as [Hf _ M3 M4]. split; [|split; [done|]|by split; [apply Z5|]|done|done].
    - split; [by destruct Hf|cbn [set_chaddr chaddr]; unfold hardware; split; [by rewrite length_app, A1|apply Forall_app; by split; [|apply Forall_replicate]]|done|done].
    - split; [|cbn; lia]. constructor; [|constructor]. split_and!; try done. by constructor. }
  unfold own_options in *. apply Forall_cons_iff in Hopts as [O1 O2].
  destruct (add_string_ok _ _ _ P0 O1) as (n & E1 & P1); [sizes|]. rewrite <- Hid in E1. rewrite E1. cbn [mbind option_bind snd].
  destruct (hostname cfg) as [h|] eqn:Eh.
  - apply Forall_cons_iff in O2 as [O2 _]. destruct (add_string_ok _ _ _ P1 O2) as (n' & E2 & P2); [sizes|].
    rewrite <- (Hname h eq_refl) in E2. cbn [set_options options] in E2. rewrite E2. cbn [mbind option_bind snd]. eexists. split; [reflexivity|]. split; [exact P2|exact Z3].
  - eexists. split; [reflexivity|]. split; [exact P1|exact Z3].
Qed.

Lemma set_xid_ok p l x ci : packet_ok p l -> is_word 4 x -> is_word 4 ci -> packet_ok (set_xid p x ci) l.
Proof using Type.
  intros [[M1 M2 M3 [M4 M5]] P2 P3 P4 P5] Hx Hc. split; [|done|done|done|done]. split; [by destruct M1|done|done|].
  split; [|done]. repeat rewrite Forall_cons_iff in *. cbn [set_xid xid ciaddr yiaddr siaddr giaddr cookie]. tauto.
Qed.

Lemma simple_ok p l code x : packet_ok p l -> simple_length code = 4 -> opt_ok (code, store 4 x) -> (length (flat l) <= 300)%nat ->
  exists q, simple code x p = Some q /\ packet_ok q (l ++ [(code, store 4 x)]) /\ xid q = xid p /\ ciaddr q = ciaddr p.
Proof using Type.
  intros Hp Hc Ho Hn. unfold simple. rewrite simple_option_4 by done. destruct (add_string_ok p l _ Hp Ho) as (n & E & Hq); [sizes|]. rewrite E. cbn [mbind option_bind snd].
  by eexists.
Qed.

Lemma write_all_app bs : forall pre old post i, i = zlen pre -> length old = length bs -> write_all (pre ++ old ++ post) i bs = Some (pre ++ bs ++ post).
Proof using Type.
  induction bs as [|b bs IH]; intros pre [|x old] post i -> Hl; try done. cbn [write_all]. cbn [app]. rewrite wr_app by done. cbn [mbind option_bind].
  rewrite (cons_middle b pre), (app_assoc pre). rewrite (IH (pre ++ [b]) old post); [by rewrite <- app_assoc|rewrite length_app; cbn; lia|by injection Hl].
Qed.

Definition asked : Z * list Z := (DHCP_PARAM_REQ, requested_codes).

Lemma asked_ok : opt_ok asked.
Proof using Type. unfold opt_ok, is_byte. apply (bool_decide_unpack _). vm_compute. exact I. Qed.

Lemma add_requests_ok p l : packet_ok p l -> (length (flat l) <= 292)%nat ->
  exists q, add_requests p = Some q /\ packet_ok q (l ++ [asked]) /\ xid q = xid p /\ ciaddr q = ciaddr p.
Proof using Type.
  intros Hp Hn. pose proof Hp as [_ [Ho Hl] _ _ Hflags]. unfold add_requests. rewrite Ho, end_option_area by apply Hl. cbn [mbind option_bind].
  set (a := flat l) in *. assert (area_of l = a ++ DHCP_END :: 0 :: replicate 13 0 ++ 0 :: replicate (307 - (length a + 15)) 0) as Ea.
  { unfold area_of. fold a. do 2 f_equal. change (0 :: replicate 13 0 ++ 0 :: replicate (307 - (length a + 15)) 0) with (replicate 15 0 ++ replicate (307 - (length a + 15)) 0).
    rewrite <- replicate_add. f_equal. lia. }
  rewrite Ea, wr_app by done. cbn [mbind option_bind].
  replace (a ++ DHCP_PARAM_REQ :: 0 :: replicate 13 0 ++ 0 :: replicate (307 - (length a + 15)) 0)
    with ((a ++ [DHCP_PARAM_REQ; 0]) ++ replicate 13 0 ++ (0 :: replicate (307 - (length a + 15)) 0)) by (by rewrite <- app_assoc).
  rewrite write_all_app; [|rewrite length_app; cbn [length]; lia|reflexivity]. cbn [mbind option_bind].
  replace ((a ++ [DHCP_PARAM_REQ; 0]) ++ requested_codes ++ 0 :: replicate (307 - (length a + 15)) 0)
    with ((a ++ [DHCP_PARAM_REQ]) ++ 0 :: requested_codes ++ 0 :: replicate (307 - (length a + 15)) 0) by (by rewrite <- !app_assoc).
  rewrite wr_app by (rewrite length_app; cbn [length]; lia). cbn [mbind option_bind].
  replace ((a ++ [DHCP_PARAM_REQ]) ++ zlen requested_codes :: requested_codes ++ 0 :: replicate (307 - (length a + 15)) 0)
    with ((a ++ DHCP_PARAM_REQ :: zlen requested_codes :: requested_codes) ++ 0 :: replicate (307 - (length a + 15)) 0) by (by rewrite <- !app_assoc).
  rewrite wr_app by (rewrite length_app; cbn [length]; lia). cbn [mbind option_bind]. rewrite Hflags. change (Z.land 0 _) with 0.
  assert ((a ++ DHCP_PARAM_REQ :: zlen requested_codes :: requested_codes) ++ DHCP_END :: replicate (307 - (length a + 15)) 0 = area_of (l ++ [asked])) as ->.
  { unfold area_of. rewrite flat_app. fold a. change (flat [asked]) with (DHCP_PARAM_REQ :: zlen requested_codes :: requested_codes). do 3 f_equal. rewrite length_app. reflexivity. }
  assert (packet_ok (set_options p (area_of (l ++ [asked]))) (l ++ [asked])) as [[Q1 Q2 Q3 [Q4 Q5]] Q6 Q7 Q8 Q9].
  { apply (set_options_ok p l); [done|]. split; [apply Forall_app; split; [apply Hl|by constructor; [apply asked_ok|constructor]]|]. rewrite flat_app_length. fold a. cbn. lia. }
  eexists. split; [reflexivity|]. split; [|done]. split; [|done|done|done|done]. split; [by destruct Q1|done|done|]. split; [done|].
  repeat rewrite Forall_cons_iff in *. destruct Q5 as (Q5 & _). split_and!; [exact Q5|done|constructor].
Qed.

(** ** The packets that are sent *)

Definition word_option (code x : Z) : Z * list Z := (code, store 4 x).

Definition discover_opts (requested : Z) : list (Z * list Z) :=
  ((DHCP_MESSAGE_TYPE, [DHCPDISCOVER]) :: own_options) ++ (if requested =? 0 then [] else [word_option DHCP_REQUESTED_IP requested]) ++ [asked].
Definition selecting_opts (server requested : Z) : list (Z * list Z) :=
  ((DHCP_MESSAGE_TYPE, [DHCPREQUEST]) :: own_options) ++ [word_option DHCP_REQUESTED_IP requested] ++ [word_option DHCP_SERVER_ID server] ++ [asked].
Definition renew_opts : list (Z * list Z) := ((DHCP_MESSAGE_TYPE, [DHCPREQUEST]) :: own_options) ++ [asked].

Lemma ip_option_ok code x : code = DHCP_REQUESTED_IP \/ code = DHCP_SERVER_ID -> simple_length code = 4 /\ opt_ok (word_option code x).
Proof using Type. intros [-> | ->]; (split; [reflexivity|by apply word_opt_ok]). Qed.

Lemma discover_packet_ok xid requested : client_ok -> is_word 4 xid -> exists q, discover_packet cfg xid requested = Some q /\ packet_ok q (discover_opts requested) /\
  DhcpOptions.xid q = xid /\ ciaddr q = 0.
Proof using Type.
  intros Hc Hx. unfold discover_packet, discover_opts. destruct (init_request_spec DHCPDISCOVER Hc ltac:(by left)) as (p & -> & Hp & _). cbn [mbind option_bind].
  pose proof (set_xid_ok _ _ xid 0 Hp Hx ltac:(done)) as Hp'. pose proof (co_room Hc) as Hr. destruct (requested =? 0); cbn [mbind option_bind].
  - apply add_requests_ok in Hp' as (q & -> & Hq & X1 & X2); [by exists q|sizes].
  - destruct (ip_option_ok DHCP_REQUESTED_IP requested ltac:(auto)) as [S1 S2]. destruct (simple_ok _ _ _ _ Hp' S1 S2) as (p2 & -> & Hp2 & Y1 & Y2); [sizes|]. cbn [mbind option_bind].
    apply add_requests_ok in Hp2 as (q & -> & Hq & X1 & X2); [|sizes]. exists q. rewrite <- app_assoc in Hq. split_and!; [done|exact Hq|by rewrite X1, Y1|by rewrite X2, Y2].
Qed.

Lemma selecting_packet_ok xid server requested : client_ok -> is_word 4 xid -> exists q, selecting_packet cfg xid server requested = Some q /\
  packet_ok q (selecting_opts server requested) /\ DhcpOptions.xid q = xid /\ ciaddr q = 0.
Proof using Type.
  intros Hc Hx. unfold selecting_packet, selecting_opts. destruct (init_request_spec DHCPREQUEST Hc ltac:(by right; left)) as (p & -> & Hp & _). cbn [mbind option_bind].
  pose proof (set_xid_ok _ _ xid 0 Hp Hx ltac:(done)) as Hp'. pose proof (co_room Hc) as Hr.
  destruct (ip_option_ok DHCP_REQUESTED_IP requested ltac:(auto)) as [S1 S2]. destruct (simple_ok _ _ _ _ Hp' S1 S2) as (p2 & -> & Hp2 & Y1 & Y2); [sizes|]. cbn [mbind option_bind].
  destruct (ip_option_ok DHCP_SERVER_ID server ltac:(auto)) as [S3 S4]. destruct (simple_ok _ _ _ _ Hp2 S3 S4) as (p3 & -> & Hp3 & W1 & W2); [unfold word_option in *; sizes|]. cbn [mbind option_bind].
  apply add_requests_ok in Hp3 as (q & -> & Hq & X1 & X2); [|unfold word_option in *; sizes]. exists q. rewrite <- !app_assoc in Hq. split_and!; [done|exact Hq|by rewrite X1, W1, Y1|by rewrite X2, W2, Y2].
Qed.

Lemma renew_packet_ok xid ci : client_ok -> is_word 4 xid -> is_word 4 ci -> exists q, renew_packet cfg xid ci = Some q /\ packet_ok q renew_opts /\ DhcpOptions.xid q = xid /\ ciaddr q = ci.
Proof using Type.
  intros Hc Hx Hci. unfold renew_packet, renew_opts. destruct (init_request_spec DHCPREQUEST Hc ltac:(by right; left)) as (p & -> & Hp & _). cbn [mbind option_bind].
  pose proof (set_xid_ok _ _ xid ci Hp Hx Hci) as Hp'. pose proof (co_room Hc) as Hr. apply add_requests_ok in Hp' as (q & -> & Hq & X1 & X2); [by exists q|sizes].
Qed.

End Packets.
End DhcpRequests.
