(* ===== verification/DhcpExchange.v ===== *)
(** * Exchanges with the DHCP server.

    A message that is well formed is always served, and what is sent is an answer to it.  An offer is honoured: the client
    that asks for the address it was offered gets it, whatever other clients have sent in between.  The file of leases. *)
From Stdlib Require Import ZArith Lia Bool String.
From stdpp Require Import base tactics list option numbers.
From S2P Require Import Prelude XmldbFile DhcpOptions DhcpPacket DhcpLeases DhcpServer DhcpSafety DhcpReplies.

Module DhcpExchange.
Import DhcpOptions DhcpPacket DhcpLeases DhcpServer DhcpSafety DhcpReplies.

Section Exchange.
Context `{Endian} (cfg : server_config_t).

#[local] Opaque sendACK sendNAK sendOffer send_inform option_word get_option valid_ip.

Lemma gives_mono {A} (P Q : A -> Prop) o : (forall r, P r -> Q r) -> gives P o -> gives Q o.
Proof using Type. intros HPQ (r & E & Hr). exists r. auto. Qed.

(** ** Messages are answered *)

(** The type of the answer to a message of the type [k]. *)
Definition answers_to (k type : Z) : Prop :=
  (k = DHCPDISCOVER /\ type = DHCPOFFER) \/ (k = DHCPREQUEST /\ (type = DHCPACK \/ type = DHCPNAK)) \/ (k = DHCPINFORM /\ type = DHCPACK).

(** What is sent is nothing, or one answer. *)
Definition answered (e : env) (p : dhcpMessage) (k : Z) (fs : list frame) : Prop :=
  fs = [] \/ exists type yi t, answers_to k type /\ replied cfg e p type yi t fs.

Lemma sendACK_answers st e p l yi k : cfg_ok cfg -> state_ok st -> request_ok p l -> is_word 4 yi -> answers_to k DHCPACK ->
  gives (fun r => answered e p k r.2) (sendACK cfg st e p yi).
Proof using Type.
  intros Hcfg Hst Hp Hy Hk. destruct (find_static_lease_by_chaddr (static_leases st) (chaddr p)) as [i|] eqn:Es.
  - eapply gives_mono; [|eapply sendACK_reserved; try done; apply Hst]. intros r (t & _ & Hr & _). right. by exists DHCPACK, yi, (Some t).
  - eapply gives_mono; [|by eapply sendACK_leased]. intros r (Hr & _). right. by exists DHCPACK, yi, (Some (ack_time cfg l)).
Qed.

Lemma sendNAK_answers st e p : cfg_ok cfg -> msg_ok p -> gives (fun r => answered e p DHCPREQUEST r.2) (sendNAK cfg st e p).
Proof using Type.
  intros Hcfg Hp. destruct (sendNAK_replies cfg st e p Hcfg Hp) as (x & fs & -> & Hr). apply gives_result. right. exists DHCPNAK, 0, None. split; [|done].
  right. left. by split; [|right].
Qed.

Lemma silent_answers st e p k : gives (fun r => answered e p k r.2) (silent st).
Proof using Type. apply gives_result. by left. Qed.

Lemma saved_answers st e e' p k : cfg_ok cfg -> gives (fun r => answered e p k r.2) (st ← write_leases cfg e' st; silent st).
Proof using Type. intros Hcfg. destruct (leases_written cfg e' st (cfg_notify cfg Hcfg)) as (st' & Ew). apply (gives_bind _ _ _ _ Ew), silent_answers. Qed.

Lemma do_request_answers st e p l : cfg_ok cfg -> state_ok st -> request_ok p l -> gives (fun r => answered e p DHCPREQUEST r.2) (do_request cfg st e p).
Proof using Type.
  intros Hcfg Hst Hp. pose proof (q_ok _ _ Hp) as Hm. unfold do_request.
  assert (answers_to DHCPREQUEST DHCPACK) as Hack by (right; left; auto).
  pose proof (sendNAK_answers st e p Hcfg Hm) as Hnak. pose proof (fun st => silent_answers st e p DHCPREQUEST) as Hsilent.
  pose proof (fun yi Hy => sendACK_answers st e p l yi DHCPREQUEST Hcfg Hst Hp Hy Hack) as Hsend.
  apply (gives_bind _ _ _ _ (word_read p l DHCP_REQUESTED_IP Hp ltac:(rewrite !elem_of_cons; auto))).
  apply (gives_bind _ _ _ _ (word_read p l DHCP_SERVER_ID Hp ltac:(rewrite !elem_of_cons; auto))).
  destruct (lease_of_defined st (chaddr p)) as (h & Eh & Hh). apply (gives_bind _ _ _ _ Eh). destruct Hst as (Hw & Hsw & _).
  assert (forall i x, h = Static i x \/ h = Dynamic i x -> is_word 4 (l_yiaddr x)) as Hown.
  { intros i x [-> | ->]; destruct Hh as [Hi _]; [exact (Forall_lookup_1 _ _ _ _ Hsw Hi)|exact (Forall_lookup_1 _ _ _ _ Hw Hi)]. }
  assert (forall i x, h = Static i x \/ h = Dynamic i x -> gives (fun r => answered e p DHCPREQUEST r.2) (sendACK cfg st e p (l_yiaddr x))) as Hsx by eauto.
  destruct h as [i x|i x|].
  1,2: specialize (Hsx i x ltac:(auto)); destruct (word_of l DHCP_SERVER_ID), (word_of l DHCP_REQUESTED_IP); repeat case_match; first [exact Hsx | exact Hnak | apply Hsilent].
  destruct (word_of l DHCP_SERVER_ID); [apply Hsilent|]. destruct (word_of l DHCP_REQUESTED_IP) as [a|] eqn:Ea.
  - pose proof (lease_by_yiaddr (leases st) a) as Hl. destruct (find_lease_by_yiaddr (leases st) a) as [i|].
    + destruct Hl as (x & Hx & _). apply (gives_bind _ _ _ _ Hx). destruct (lease_expired x (now e)); [apply Hsilent|exact Hnak].
    + destruct (_ && _); [|exact Hnak]. apply Hsend. eapply word_of_ok; [apply (q_options _ _ Hp)|exact Ea].
  - destruct (_ && _); [|exact Hnak]. apply Hsend. destruct Hm as [_ _ _ [Hws _]]. repeat rewrite Forall_cons_iff in Hws. tauto.
Qed.

(** A message that is served: no byte is read or written out of bounds and no search goes on for ever.
    What is sent is at most one frame, whose checksums the receiver finds in order, with a packet that answers the message:
    of the type that fits, with its transaction and its client, and with the server's address. *)
Lemma handle_answered st e p l k rest :
  cfg_ok cfg -> state_ok st -> request_ok p l -> lookup_opt l DHCP_MESSAGE_TYPE = Some (k :: rest) ->
  gives (fun r => answered e p k r.2) (handle cfg st e p).
Proof using Type.
  intros Hcfg Hst Hp Hk. pose proof (q_ok _ _ Hp) as Hm. unfold handle. destruct (q_options _ _ Hp) as [Ho Hl].
  pose proof (found_area p l DHCP_MESSAGE_TYPE Ho Hl ltac:(done)) as Hf. rewrite Hk in Hf. destruct Hf as [tl Hf].
  apply (gives_bind _ _ _ _ Hf). cbn [app]. apply (gives_bind _ _ k); [reflexivity|].
  destruct (lease_of_defined st (chaddr p)) as (h & Eh & _). apply (gives_bind _ _ _ _ Eh).
  destruct (Z.eqb_spec k DHCPDISCOVER) as [->|].
  { destruct (find_static_lease_by_chaddr (static_leases st) (chaddr p)) as [i|] eqn:Es.
    - eapply gives_mono; [|by eapply sendOffer_reserved]. intros r (_ & s & t & _ & Hr). right. exists DHCPOFFER, (l_yiaddr s), (Some t). split; [by left|exact Hr].
    - eapply gives_mono; [|by eapply sendOffer_leased]. intros r (_ & [[Hr _]|(yi & t & _ & _ & _ & _ & Hr & _)]); [by left|]. right. exists DHCPOFFER, yi, (Some t).
      split; [by left|exact Hr]. }
  destruct (Z.eqb_spec k DHCPREQUEST) as [->|]; [by eapply do_request_answers|]. destruct (Z.eqb_spec k DHCPDECLINE); [destruct h; apply silent_answers|].
  destruct (Z.eqb_spec k DHCPRELEASE); [destruct h as [i x|i x|]; [by apply saved_answers..|apply silent_answers]|]. destruct (Z.eqb_spec k DHCPINFORM) as [->|]; [|apply silent_answers].
  destruct (send_inform_replies cfg st e p Hcfg Hm) as (x & fs & -> & Hr). apply gives_result. right. exists DHCPACK, 0, None. split; [by right; right|exact Hr].
Qed.

(** ** The state of the server *)

Lemma alter_words f i ls : words_ok ls -> (forall l, l_yiaddr (f l) = l_yiaddr l) -> words_ok (alter f i ls).
Proof using Type. intros Hw Hf. apply Forall_alter; [done|]. intros l _ Hl. by rewrite Hf. Qed.

Lemma add_words ls t c a x h : words_ok ls -> is_word 4 a -> words_ok (add_lease ls t c a x h).2.
Proof using Type.
  intros Hw Ha. unfold add_lease. assert (words_ok (clear_lease ls c a)) as Hc.
  { apply Forall_map. eapply List.Forall_impl; [|exact Hw]. intros l Hl. cbn beta. by destruct (matches c a l). }
  destruct (oldest_expired_lease _ _); [|done]. by apply Forall_alter.
Qed.

Lemma written_words st e st' : write_leases cfg e st = Some st' -> words_ok (leases st) -> words_ok (leases st').
Proof using Type. by intros [-> _]%written_same. Qed.

Lemma sendACK_words st e p a r : words_ok (leases st) -> is_word 4 a -> sendACK cfg st e p a = Some r -> words_ok (leases r.1.2).
Proof using Type.
  intros Hw Ha. Transparent sendACK. unfold sendACK. Opaque sendACK. intros E. apply bind_Some in E as (m & _ & E). destruct (find_static_lease_by_chaddr _ _) as [i|].
  - repeat (apply bind_Some in E as (? & _ & E)). destruct (_ <? 0); by injection E as <-.
  - apply bind_Some in E as (t & _ & E). apply bind_Some in E as (m' & _ & E). apply bind_Some in E as (h & _ & E). apply bind_Some in E as (x & _ & E).
    destruct (_ <? 0); [by injection E as <-|]. pose proof (add_words (leases st) (now e) (chaddr p) a t h Hw Ha) as Hadd.
    destruct (add_lease _ _ _ _ _ _) as [[k|] ls]; apply bind_Some in E as (st' & Ew & E); injection E as <-; apply (written_words _ _ _ Ew); [by apply alter_words|done].
Qed.

Lemma sendOffer_words st e p l r : cfg_ok cfg -> state_ok st -> request_ok p l -> sendOffer cfg st e p = Some r -> words_ok (leases r.1.2).
Proof using Type.
  intros Hcfg Hst Hp. pose proof Hst as (Hw & _). Transparent sendOffer. unfold sendOffer. Opaque sendOffer. intros E. apply bind_Some in E as (m & _ & E).
  destruct (find_static_lease_by_chaddr _ _) as [i|]; [repeat (apply bind_Some in E as (? & _ & E)); by injection E as <-|].
  destruct (offered_read cfg st e p l Hst Hp) as (a & t & Ea & Ha). rewrite Ea in E. cbn [mbind option_bind] in E.
  apply bind_Some in E as (yi & Ey & E). destruct (chosen_read cfg st e a Hcfg Ha) as (yi' & Ey' & Hy). unfold chosen in Ey'. assert (yi' = yi) as -> by congruence.
  destruct (yi =? 0); [by injection E as <-|]. apply bind_Some in E as (h & _ & E). pose proof (add_words (leases st) (now e) (chaddr p) yi (offer_time cfg) h Hw Hy) as Hadd.
  destruct (add_lease _ _ _ _ _ _) as [[k|] ls]; [|by injection E as <-]. repeat (apply bind_Some in E as (? & _ & E)). by injection E as <-.
Qed.

Lemma do_request_words st e p l r : state_ok st -> request_ok p l -> do_request cfg st e p = Some r -> words_ok (leases r.1.2).
Proof using Type.
  intros (Hw & Hsw & _) Hp E. unfold do_request in E. apply bind_Some in E as (req & Hreq & E). apply bind_Some in E as (sid & _ & E).
  apply bind_Some in E as (h & Eh & E). destruct (lease_of_defined st (chaddr p)) as (h' & Eh' & Hh). assert (h' = h) as -> by congruence.
  pose proof (word_read p l DHCP_REQUESTED_IP Hp ltac:(rewrite !elem_of_cons; auto)) as Hreq'. rewrite Hreq in Hreq'. injection Hreq' as Hr.
  assert (forall a, req = Some a -> is_word 4 a) as Ha by (intros a ->; eapply word_of_ok; [apply (q_options _ _ Hp)|by symmetry]).
  assert (is_word 4 (ciaddr p)) as Hci. { destruct (q_ok _ _ Hp) as [_ _ _ [Hws _]]. repeat rewrite Forall_cons_iff in Hws. tauto. }
  assert (forall i x, h = Static i x \/ h = Dynamic i x -> is_word 4 (l_yiaddr x)) as Hown.
  { intros i x [-> | ->]; destruct Hh as [Hi _]; [exact (Forall_lookup_1 _ _ _ _ Hsw Hi)|exact (Forall_lookup_1 _ _ _ _ Hw Hi)]. }
  clear Hh Eh'. repeat match type of E with
  | silent _ = _ => injection E as <-; first [exact Hw | apply alter_words; [exact Hw|reflexivity]]
  | sendNAK _ _ _ _ = _ => apply sendNAK_statics in E as ->; exact Hw
  | sendACK _ _ _ _ _ = _ => eapply sendACK_words; [exact Hw| |exact E]; eauto
  | mbind _ _ = _ => apply bind_Some in E as (? & _ & E)
  | (match ?x with _ => _ end) = _ => destruct x
  end.
Qed.

Lemma holder_ok a b : map holder a = map holder b ->
  words_ok b /\ Forall (fun l => Forall good_option (l_options l)) b -> words_ok a /\ Forall (fun l => Forall good_option (l_options l)) a.
Proof using Type.
  revert b. induction a as [|x a IH]; intros [|y b] E; try done. cbn [map] in E. injection E as _ Ea Eo E. unfold words_ok. rewrite !Forall_cons_iff, Ea, Eo.
  specialize (IH b E). unfold words_ok in IH. tauto.
Qed.

(** Messages keep the addresses words and the options options. *)
Lemma handle_ok st e p l r : cfg_ok cfg -> state_ok st -> request_ok p l -> handle cfg st e p = Some r -> state_ok r.1.2.
Proof using Type.
  intros Hcfg Hst Hp E. pose proof Hst as (Hw & Hs). split; [|exact (holder_ok _ _ (handle_statics _ _ _ _ _ E) Hs)]. unfold handle in E.
  apply bind_Some in E as ([[n d]|] & _ & E); [|by injection E as <-]. apply bind_Some in E as (k & _ & E). apply bind_Some in E as (h & _ & E).
  destruct (k =? DHCPDISCOVER); [by eapply sendOffer_words|]. destruct (k =? DHCPREQUEST); [by eapply do_request_words|].
  destruct (k =? DHCPDECLINE); [destruct h; injection E as <-; [done|by apply alter_words|done]|].
  destruct (k =? DHCPRELEASE); [destruct h; [| |by injection E as <-]; apply bind_Some in E as (st' & Ew & E); injection E as <-; apply (written_words _ _ _ Ew); [done|by apply alter_words]|].
  destruct (k =? DHCPINFORM); [|by injection E as <-]. Transparent send_inform. unfold send_inform in E. Opaque send_inform.
  repeat (apply bind_Some in E as (? & _ & E)). by injection E as <-.
Qed.

(** A message that is well formed. *)
Definition well_formed (m : env * dhcpMessage) : Prop := 0 <= now m.1 /\ exists l, request_ok m.2 l.

(** A frame that answers one of the messages [ms]: its checksums are in order, and the packet in it is of the type that fits,
    has the transaction and the client of the message, and names the server. *)
Definition sent_for (ms : list (env * dhcpMessage)) (f : frame) : Prop :=
  exists m n k rest type yi t msg, m ∈ ms /\ found m.2 DHCP_MESSAGE_TYPE = Some (Some (n, k :: rest)) /\ answers_to k type /\
    receivable f msg /\ reply cfg m.2 type yi t msg.

Lemma handle_defined st e p l : cfg_ok cfg -> state_ok st -> request_ok p l ->
  exists r, handle cfg st e p = Some r /\ Forall (sent_for [(e, p)]) r.2 /\ (length r.2 <= 1)%nat.
Proof using Type.
  intros Hcfg Hst Hp. destruct (q_options _ _ Hp) as [Ho Hl]. pose proof (found_area p l DHCP_MESSAGE_TYPE Ho Hl ltac:(done)) as Hf.
  destruct (lookup_opt l DHCP_MESSAGE_TYPE) as [d|] eqn:Ed.
  - destruct Hf as [tl Hf]. destruct d as [|k rest]; [by destruct (q_type _ _ Hp [] Ed)|]. destruct (handle_answered st e p l k rest Hcfg Hst Hp Ed) as (r & Er & Hr).
    exists r. split; [exact Er|]. destruct Hr as [-> |(type & yi & t & Ht & [[-> _]|(f & m & -> & Hfm & Hrep)])]; [split; [constructor|cbn; lia]..|].
    split; [|cbn; lia]. constructor; [|constructor]. eexists (e, p), _, k, _, type, yi, t, m. split_and!; [by left|exact Hf|exact Ht|exact Hfm|exact Hrep].
  - exists (0, st, []). split; [|split; [constructor|cbn; lia]]. unfold handle. apply (bind_to _ _ _ _ Hf). reflexivity.
Qed.

Lemma sent_for_more ms ms' f : (forall m, m ∈ ms -> m ∈ ms') -> sent_for ms f -> sent_for ms' f.
Proof using Type. intros Hms (m & n & k & rest & type & yi & t & msg & Hm & Hr). exists m, n, k, rest, type, yi, t, msg. auto. Qed.

(** Any number of well-formed messages is served. *)
Lemma run_served ms : forall st,
  cfg_ok cfg -> state_ok st -> table_ok (leases st) -> Forall well_formed ms ->
  exists st' fs, run cfg st ms = Some (st', fs) /\ Forall (sent_for ms) fs /\ (length fs <= length ms)%nat /\
    state_ok st' /\ table_ok (leases st') /\ length (leases st') = length (leases st) /\ map holder (static_leases st') = map holder (static_leases st).
Proof using Type.
  induction ms as [|[e p] ms IH]; intros st Hcfg Hst Hok Hms; [exists st, []; by split_and!; [|constructor|..]|].
  apply Forall_cons_iff in Hms as [[Ht [l Hp]] Hms]. cbn [fst snd] in Ht, Hp.
  destruct (handle_defined st e p l Hcfg Hst Hp) as (r & Er & Hsent & Hone). pose proof (handle_ok _ _ _ _ _ Hcfg Hst Hp Er) as Hst1.
  destruct (handle_kept _ _ _ _ _ Hok (proj1 (ok_chaddr _ (q_ok _ _ Hp))) Ht Er) as (Hok1 & Hn1 & _). pose proof (handle_statics _ _ _ _ _ Er) as Hs1.
  destruct (IH r.1.2 Hcfg Hst1 Hok1 Hms) as (st' & fs & Er' & Hfs & Hlen & ? & ? & Hn & Hs). exists st', (r.2 ++ fs). cbn [run].
  split_and!; [apply (bind_to _ _ _ _ Er), (bind_to _ _ _ _ Er'); reflexivity| | |done|done|congruence|congruence].
  - apply Forall_app. split; (eapply List.Forall_impl; [|eassumption]); intros f; apply sent_for_more; intros m Hm; rewrite elem_of_cons in *; [|by right].
    destruct Hm as [->|Hm]; [by left|by apply elem_of_nil in Hm].
  - rewrite length_app. cbn [length]. lia.
Qed.

(** The server goes on: any number of well-formed messages is served, in any order, with any answers of the system.  No byte
    is read or written out of bounds and no search goes on for ever; every frame that is sent is a sound answer to one of the
    messages, and there are no more frames than messages.  The tables stay as they should be: an address has one slot and so
    has a client, and nobody loses or gets a reserved address. *)
Theorem server_runs ms : forall st,
  cfg_ok cfg -> state_ok st -> table_ok (leases st) -> Forall well_formed ms ->
  exists st' fs, run cfg st ms = Some (st', fs) /\ Forall (sent_for ms) fs /\ (length fs <= length ms)%nat /\
    state_ok st' /\ table_ok (leases st') /\ length (leases st') = length (leases st) /\ map holder (static_leases st') = map holder (static_leases st).
Proof using Type. exact (run_served ms). Qed.

(** ** An offer is honoured *)

(** Reserved addresses are found the same as long as nobody changes who has them. *)
Lemma reserved_same n a : forall b, map holder a = map holder b -> map holder (reserved (take n a)) = map holder (reserved (take n b)).
Proof using Type.
  revert n. induction a as [|x a IH]; intros [|n] [|y b] E; try done. cbn [map] in E. injection E as Ec Ea Eo E. cbn [take reserved]. rewrite Ea.
  destruct (l_yiaddr y =? 0); [done|]. cbn [map]. f_equal; [unfold holder; congruence|by apply IH].
Qed.

Lemma first_slot_same c a : forall b, map holder a = map holder b ->
  first_slot (fun l => eqb_list (l_chaddr l) c) a = first_slot (fun l => eqb_list (l_chaddr l) c) b.
Proof using Type.
  induction a as [|x a IH]; intros [|y b] E; try done. cbn [map] in E. injection E as Ec _ _ E. cbn [first_slot]. by rewrite Ec, (IH b E).
Qed.

Lemma static_same a b c : map holder a = map holder b -> find_static_lease_by_chaddr a c = find_static_lease_by_chaddr b c.
Proof using Type. intros E. apply first_slot_same, reserved_same, E. Qed.

Lemma holder_lookup a b i x : map holder a = map holder b -> a !! i = Some x -> exists y, b !! i = Some y /\ holder y = holder x.
Proof using Type.
  intros E Hi. assert (map holder b !! i = Some (holder x)) as Hb by (rewrite <- E; change (map holder a) with (holder <$> a); by rewrite list_lookup_fmap, Hi).
  change (map holder b) with (holder <$> b) in Hb. rewrite list_lookup_fmap in Hb. destruct (b !! i) as [y|]; [|done]. apply (inj Some) in Hb. by exists y.
Qed.

(** A request for the address that the client has, to this server. *)
Record selects (q : dhcpMessage) (l : list (Z * list Z)) (c : list Z) (a : Z) : Prop := {
  s_ok : request_ok q l;
  s_client : chaddr q = c;
  s_type : exists rest, lookup_opt l DHCP_MESSAGE_TYPE = Some (DHCPREQUEST :: rest);
  s_server : word_of l DHCP_SERVER_ID = Some (server cfg);
  s_address : word_of l DHCP_REQUESTED_IP = Some a
}.

(** It is acknowledged. *)
Lemma selects_acknowledged st e q l c a h x i : selects q l c a -> lease_of st c = Some h -> h = Static i x \/ h = Dynamic i x -> l_yiaddr x = a ->
  handle cfg st e q = sendACK cfg st e q a.
Proof using Type.
  intros [Hq <- [rest Ht] Hs Ha] Eh Hh Hx. destruct (q_options _ _ Hq) as [Ho Hl].
  pose proof (found_area q l DHCP_MESSAGE_TYPE Ho Hl ltac:(done)) as Hf. rewrite Ht in Hf. destruct Hf as [tl Hf].
  pose proof (word_read q l DHCP_REQUESTED_IP Hq ltac:(rewrite !elem_of_cons; auto)) as Hr. pose proof (word_read q l DHCP_SERVER_ID Hq ltac:(rewrite !elem_of_cons; auto)) as Hi.
  rewrite Hs in Hi. rewrite Ha in Hr. unfold handle. apply (bind_to _ _ _ _ Hf). cbn [app]. apply (bind_to _ DHCPREQUEST); [reflexivity|]. apply (bind_to _ _ _ _ Eh).
  change (DHCPREQUEST =? DHCPDISCOVER) with false. change (DHCPREQUEST =? DHCPREQUEST) with true. cbv iota. unfold do_request.
  apply (bind_to _ _ _ _ Hr), (bind_to _ _ _ _ Hi), (bind_to _ _ _ _ Eh). destruct Hh as [-> | ->]; by rewrite Hx, !Z.eqb_refl.
Qed.

(** The lease [x] is the one that the client [c] has, with the address [a], until [ends]. *)
Definition holds (ls : list dhcpOfferedAddr) (c : list Z) (a ends : Z) (i : nat) : Prop :=
  exists x, ls !! i = Some x /\ l_chaddr x = c /\ l_yiaddr x = a /\ l_expires x = ends.

Definition acknowledged (ls : list dhcpOfferedAddr) (i : nat) : Prop := exists x, ls !! i = Some x /\ l_ACKed x = 1.

(** There is room for a client that is in the table. *)
Lemma entered_holds st e c yi t ls' i a ends : table_ok (leases st) -> length c = 16%nat -> 0 <= now e -> nonzero c = true -> holds (leases st) c a ends i ->
  entered st e c yi t ls' -> exists k, holds ls' c yi (u32 (now e + t)) k /\ acknowledged ls' k.
Proof using Type.
  intros Hok Hc Ht Hn (x & Hi & Hx & _) (h & ->). pose proof (add_lease_spec (leases st) (now e) c yi t h Hok Hc Ht) as Ha.
  destruct (add_lease (leases st) (now e) c yi t h) as [[k|] ls]; destruct Ha as (_ & _ & _ & Ha).
  - destruct Ha as (y & Hk & Yc & Ya & Ye). exists k. unfold holds, acknowledged. rewrite list_lookup_alter_eq, Hk. split; eexists; (split; [reflexivity|done]).
  - destruct Ha as [_ Hall]. destruct (Forall_lookup_1 _ _ _ _ Hall Hi) as [_ Hm]. unfold matches in Hm. by rewrite Hn, Hx, (proj2 (eqb_list_true c c) eq_refl) in Hm.
Qed.

Lemma lease_of_holds st c a ends i : table_ok (leases st) -> nonzero c = true -> find_static_lease_by_chaddr (static_leases st) c = None ->
  holds (leases st) c a ends i -> exists x, lease_of st c = Some (Dynamic i x) /\ l_yiaddr x = a.
Proof using Type.
  intros Hok Hn Es (x & Hi & Hx & Ha & _). unfold lease_of. rewrite Es. pose proof (lease_by_chaddr (leases st) c) as Hc.
  destruct (find_lease_by_chaddr (leases st) c) as [k|]; [|by destruct (Forall_lookup_1 _ _ _ _ Hc Hi)]. destruct Hc as (y & Hk & Hy).
  assert (k = i) as -> by (eapply (one_per_client _ Hok k i y x); [done|done|by rewrite Hy|congruence]). assert (y = x) as -> by congruence. rewrite Hk. by exists x.
Qed.

(** The client [c] has the address [a], reserved or in the table. *)
Definition has_address (st st1 : dhcpd) (c : list Z) (a ends : Z) : Prop :=
  match find_static_lease_by_chaddr (static_leases st) c with
  | Some i => exists s, static_leases st !! i = Some s /\ l_yiaddr s = a
  | None => exists i, holds (leases st1) c a ends i
  end.

(** A discovery is answered with an offer. *)
Lemma discover_handled st e d l rest : request_ok d l -> lookup_opt l DHCP_MESSAGE_TYPE = Some (DHCPDISCOVER :: rest) -> handle cfg st e d = sendOffer cfg st e d.
Proof using Type.
  intros Hp Hk. destruct (q_options _ _ Hp) as [Ho Hl]. pose proof (found_area d l DHCP_MESSAGE_TYPE Ho Hl ltac:(done)) as Hf. rewrite Hk in Hf. destruct Hf as [tl Hf].
  destruct (lease_of_defined st (chaddr d)) as (h & Eh & _). unfold handle. apply (bind_to _ _ _ _ Hf). cbn [app].
  apply (bind_to _ DHCPDISCOVER); [reflexivity|]. apply (bind_to _ _ _ _ Eh). reflexivity.
Qed.

(** A discovery that is answered: the client then has the address it reads in the offer. *)
Lemma offer_made st e d l rest x st' f m : cfg_ok cfg -> state_ok st -> table_ok (leases st) -> 0 <= now e -> request_ok d l ->
  lookup_opt l DHCP_MESSAGE_TYPE = Some (DHCPDISCOVER :: rest) -> handle cfg st e d = Some (x, st', [f]) -> receivable f m ->
  (exists t, reply cfg d DHCPOFFER (yiaddr m) t m) /\ static_leases st' = static_leases st /\ table_ok (leases st') /\ is_word 4 (yiaddr m) /\
  has_address st st' (chaddr d) (yiaddr m) (u32 (now e + offer_time cfg)).
Proof using Type.
  intros Hcfg Hst Hok Ht Hp Hk E Hm. pose proof (proj1 (ok_chaddr _ (q_ok _ _ Hp))) as Hlen.
  destruct (handle_kept _ _ _ _ _ Hok Hlen Ht E) as (Hok' & _). cbn [fst snd] in Hok'.
  assert (sendOffer cfg st e d = Some (x, st', [f])) as Es by (rewrite <- E; symmetry; by eapply discover_handled).
  assert (forall yi t, replied cfg e d DHCPOFFER yi t [f] -> yiaddr m = yi /\ reply cfg d DHCPOFFER yi t m) as Hyi.
  { intros yi t [[? _]|(f' & m' & [= <-] & Hm' & Hr)]; [done|]. rewrite (receivable_unique _ _ _ Hm Hm'). split; [apply (r_for _ _ _ _ _ _ Hr)|done]. }
  unfold has_address. destruct (find_static_lease_by_chaddr (static_leases st) (chaddr d)) as [i|] eqn:Ei.
  - destruct (sendOffer_reserved cfg st e d l i Hcfg Hst Hp Ei) as (r & Er & Hr). rewrite Es in Er. injection Er as <-. cbn [fst snd] in Hr.
    destruct Hr as (-> & s & t & Hs & Hr). apply Hyi in Hr as [Hy Hr]. destruct Hst as (_ & Hw & _). rewrite Hy. split_and!; [by exists (Some t)|done|done| |by exists s].
    exact (Forall_lookup_1 _ _ _ _ Hw Hs).
  - destruct (sendOffer_leased cfg st e d l Hcfg Hst Hp Ei) as (r & Er & Hr). rewrite Es in Er. injection Er as <-. cbn [fst snd] in Hr.
    destruct Hr as (Hs & [[Hr _]|(yi & t & h & k & Hy & _ & Hr & Ha)]); [done|]. apply Hyi in Hr as [<- Hr]. split_and!; [by exists (Some t)|done|done|done|].
    pose proof (add_lease_spec (leases st) (now e) (chaddr d) (yiaddr m) (offer_time cfg) h Hok Hlen Ht) as Hadd. rewrite Ha in Hadd.
    destruct Hadd as (_ & _ & _ & y & Hk' & Hy'). exists k, y. by destruct_and?.
Qed.

(** The server can make an offer to the client [c]: it has an address for it, or an address of the range can be given away
    and a slot of the table is free. *)
Definition can_offer (st : dhcpd) (e : env) (c : list Z) : Prop :=
  good_net (network e) /\
  ((exists i, find_static_lease_by_chaddr (static_leases st) c = Some i) \/
   (exists i x, leases st !! i = Some x /\ lease_expired x (now e) = true) /\
   (exists y, ntohl (start cfg) <= y <= ntohl (end_ cfg) /\ available (mask cfg) (leases st) (static_leases st) (now e) (in_use e) true y)).

Lemma can_offer_room st e c : cfg_ok cfg -> table_ok (leases st) -> length c = 16%nat -> 0 <= now e -> can_offer st e c ->
  find_static_lease_by_chaddr (static_leases st) c = None -> ~ unoffered cfg st e c.
Proof using Type.
  intros Hcfg Hok Hc Ht [_ [[i Hi]|[(i & x & Hi & Hx) (y & Hy & Ha)]]] Hs; [congruence|]. intros [Hp|(yi & h & ls & El)].
  - destruct (cfg_range _ Hcfg) as [R1 R2]. unfold pool_address in Hp.
    destruct (address_loop_spec (ntohl (start cfg)) (ntohl (end_ cfg)) (mask cfg) (leases st) (static_leases st) (now e) (in_use e) true (proj1 (ntohl_bound _)) R2
      (S (Z.to_nat (ntohl (end_ cfg) - ntohl (start cfg) + 1))) (ntohl (start cfg))) as [[_ Hno]|(z & E & Hzr & Hz)]; [lia|lia|exact (Hno y Hy Ha)|].
    unfold find_address in Hp. rewrite E in Hp. apply (inj Some) in Hp. rewrite (htonl_zero z) in Hz by (first [exact Hp|pose proof (ntohl_bound (start cfg)); lia]). by destruct Hz as [[] _ _ _].
  - pose proof (add_lease_spec (leases st) (now e) c yi (offer_time cfg) h Hok Hc Ht) as Hadd. rewrite El in Hadd. destruct Hadd as (_ & _ & _ & _ & Hall).
    destruct (Forall_lookup_1 _ _ _ _ Hall Hi) as [Hl _]. congruence.
Qed.

(** Then a discovery is answered. *)
Lemma offer_sent st e d l rest : cfg_ok cfg -> state_ok st -> table_ok (leases st) -> 0 <= now e -> request_ok d l ->
  lookup_opt l DHCP_MESSAGE_TYPE = Some (DHCPDISCOVER :: rest) -> can_offer st e (chaddr d) ->
  exists x st' f m, handle cfg st e d = Some (x, st', [f]) /\ receivable f m.
Proof using Type.
  intros Hcfg Hst Hok Ht Hp Hk Hcan. pose proof (proj1 (ok_chaddr _ (q_ok _ _ Hp))) as Hlen. pose proof Hcan as [Hnet _].
  rewrite (discover_handled st e d l rest Hp Hk).
  assert (forall yi t fs, replied cfg e d DHCPOFFER yi t fs -> exists f m, fs = [f] /\ receivable f m) as Hone.
  { intros yi t fs [[_ Hg]|(f & m & -> & Hm & _)]; [by destruct Hg|by exists f, m]. }
  destruct (find_static_lease_by_chaddr (static_leases st) (chaddr d)) as [i|] eqn:Ei.
  - destruct (sendOffer_reserved cfg st e d l i Hcfg Hst Hp Ei) as ([[x st'] fs] & -> & _ & s & t & _ & Hr). apply Hone in Hr as (f & m & Hf & Hm). cbn [snd] in Hf. subst fs. by exists x, st', f, m.
  - destruct (sendOffer_leased cfg st e d l Hcfg Hst Hp Ei) as ([[x st'] fs] & -> & _ & [[_ Hu]|(yi & t & h & k & _ & _ & Hr & _)]).
    + by destruct (can_offer_room st e (chaddr d) Hcfg Hok Hlen Ht Hcan Ei).
    + apply Hone in Hr as (f & m & Hf & Hm). cbn [snd] in Hf. subst fs. by exists x, st', f, m.
Qed.

(** Its address is still that of the client after the messages of others. *)
Lemma address_kept st st1 ms st2 fs c a ends : table_ok (leases st1) -> static_leases st1 = static_leases st -> Forall arrived ms -> Forall (spares c a ends) ms ->
  run cfg st1 ms = Some (st2, fs) -> has_address st st1 c a ends -> has_address st st2 c a ends /\ table_ok (leases st2) /\ map holder (static_leases st2) = map holder (static_leases st).
Proof using Type.
  intros Hok Hs Ha Hsp Hrun Hhas. destruct (run_kept _ _ _ _ _ Hok Ha Hrun) as (Hok2 & _ & Hs2 & Hkeep). rewrite Hs in Hs2. split_and!; [|done|done].
  unfold has_address in *. destruct (find_static_lease_by_chaddr (static_leases st) c) as [i|]; [done|]. destruct Hhas as (i & y & Hi & Yc & Ya & Ye).
  exists i, y. split; [|done]. apply Hkeep; [done|]. unfold harmless. by rewrite Yc, Ya, Ye.
Qed.

(** A request for it is acknowledged. *)
Lemma request_honoured st st2 c a ends e2 q lq : cfg_ok cfg -> Forall (fun s => Forall good_option (l_options s)) (static_leases st) -> table_ok (leases st2) ->
  map holder (static_leases st2) = map holder (static_leases st) -> has_address st st2 c a ends -> is_word 4 a -> length c = 16%nat -> nonzero c = true ->
  selects q lq c a -> good_net (network e2) -> 0 <= now e2 ->
  exists st3 f' ack t, handle cfg st2 e2 q = Some (0, st3, [f']) /\ receivable f' ack /\ reply cfg q DHCPACK a (Some t) ack /\ is_word 4 t /\
    (find_static_lease_by_chaddr (static_leases st) c = None -> exists i, holds (leases st3) c a (u32 (now e2 + t)) i /\ acknowledged (leases st3) i).
Proof using Type.
  intros Hcfg Hst Hok2 Hs2 Hhas Hw Hlen Hn Hq Hnet Ht2.
  assert (forall t r, replied cfg e2 q DHCPACK a (Some t) r -> exists f' ack, r = [f'] /\ receivable f' ack /\ reply cfg q DHCPACK a (Some t) ack) as Hone.
  { intros t r [[_ Hg]|Hr]; [by destruct Hg|exact Hr]. }
  pose proof (static_same _ _ c Hs2) as Hsame. unfold has_address in Hhas. rewrite <- Hsame in Hhas |- *.
  destruct (find_static_lease_by_chaddr (static_leases st2) c) as [i|] eqn:Ei.
  - destruct Hhas as (s & Hi & Hy). destruct (holder_lookup _ _ i s (eq_sym Hs2) Hi) as (s2 & Hi2 & Hh).
    assert (l_yiaddr s2 = a) as Hy2 by (unfold holder in Hh; congruence).
    assert (lease_of st2 c = Some (Static i s2)) as El by (unfold lease_of; by rewrite Ei, Hi2).
    assert (Forall (fun s => Forall good_option (l_options s)) (static_leases st2)) as Hopts.
    { apply Forall_lookup. intros j y Hj. destruct (holder_lookup _ _ j y Hs2 Hj) as (z & Hz & Hzy). unfold holder in Hzy.
      replace (l_options y) with (l_options z) by congruence. exact (Forall_lookup_1 _ _ _ _ Hst Hz). }
    rewrite (selects_acknowledged st2 e2 q lq _ _ _ s2 i Hq El (or_introl eq_refl) Hy2). destruct Hq as [Hq Hc _ _ _]. rewrite <- Hc in Ei.
    destruct (sendACK_reserved cfg st2 e2 q lq a i Hcfg Hopts Hq Hw Ei) as ([[x' st3] fs'] & -> & t & Htw & Hr & Hx). cbn [fst snd] in Hr, Hx.
    destruct (Hone _ _ Hr) as (f' & ack & -> & Hf' & Hrep). rewrite (Hx Hnet). by exists st3, f', ack, t.
  - destruct Hhas as (i & Hh). destruct (lease_of_holds _ _ _ _ _ Hok2 Hn Ei Hh) as (y' & El & Hy').
    rewrite (selects_acknowledged st2 e2 q lq _ _ _ y' i Hq El (or_intror eq_refl) Hy'). destruct Hq as [Hq Hc _ _ _]. rewrite <- Hc in Ei.
    destruct (sendACK_leased cfg st2 e2 q lq a Hcfg Hq Hw Ei) as ([[x' st3] fs'] & -> & Hr & Hx). cbn [fst snd] in Hr, Hx.
    destruct (Hone _ _ Hr) as (f' & ack & -> & Hf' & Hrep). destruct (Hx Hnet) as [-> Hent]. exists st3, f', ack, (ack_time cfg lq). split_and!; [done|done|done|by apply ack_time_word|].
    intros _. rewrite Hc in Hent. by eapply entered_holds.
Qed.

(** C11. An offer of a server whose configuration is in order ([cfg_ok]) is honoured: a client that reads an address in the offer it gets and then asks this server for it gets it, if
    the messages of other clients in between come before the offer ends and do not claim the address by a renewal, with neither a
    server nor an address asked for ([spares]; [renewal_takes_lease] shows what such a one does).  The acknowledgement tells the
    client a time, and, if the address is not a reserved one, the client is in the table until now and that time, added with 32
    bits: a lease without an end, 0xFFFFFFFF, wraps around. *)
Theorem offer_honoured st e d l rest x st1 f offer ms st2 fs e2 q lq :
  cfg_ok cfg -> state_ok st -> table_ok (leases st) -> 0 <= now e -> nonzero (chaddr d) = true ->
  request_ok d l -> lookup_opt l DHCP_MESSAGE_TYPE = Some (DHCPDISCOVER :: rest) ->
  handle cfg st e d = Some (x, st1, [f]) -> receivable f offer ->
  Forall arrived ms -> Forall (spares (chaddr d) (yiaddr offer) (u32 (now e + offer_time cfg))) ms -> run cfg st1 ms = Some (st2, fs) ->
  selects q lq (chaddr d) (yiaddr offer) -> good_net (network e2) -> 0 <= now e2 ->
  exists st3 f' ack t, handle cfg st2 e2 q = Some (0, st3, [f']) /\ receivable f' ack /\ reply cfg q DHCPACK (yiaddr offer) (Some t) ack /\ is_word 4 t /\
    (find_static_lease_by_chaddr (static_leases st) (chaddr d) = None ->
     exists i, holds (leases st3) (chaddr d) (yiaddr offer) (u32 (now e2 + t)) i /\ acknowledged (leases st3) i).
Proof using Type.
  intros Hcfg Hst Hok Ht Hn Hd Hk E Hf Ha Hsp Hrun Hq Hnet Ht2. pose proof (proj1 (ok_chaddr _ (q_ok _ _ Hd))) as Hlen.
  destruct (offer_made _ _ _ _ _ _ _ _ _ Hcfg Hst Hok Ht Hd Hk E Hf) as (_ & Hs1 & Hok1 & Hw & Hhas).
  destruct (address_kept _ _ _ _ _ _ _ _ Hok1 Hs1 Ha Hsp Hrun Hhas) as (Hhas2 & Hok2 & Hs2). destruct Hst as (_ & _ & Hst). by eapply request_honoured.
Qed.

End Exchange.
(** ** A server and its clients *)

#[local] Instance be_server : Endian := { big := true }.

Definition some_cfg : server_config_t :=
  mkcfg 0xC0A80001 0xC0A80014 0xC0A80016 [[3; 4; 192; 168; 0; 1]] 2 864000 3 true 3600 60 60 0 None (Some (cs "boot")) 0xff false (cs "/var/lib/misc/udhcpd.leases") (Some (cs "/etc/notify")) None.

Lemma some_cfg_ok : cfg_ok some_cfg.
Proof.
  split; [by split_and!| |split; [exact I|change (bytes (cs "boot")); unfold is_byte; apply (bool_decide_unpack _); vm_compute; exact I]|by split|by vm_compute].
  constructor; [|constructor]. exists (3, [192; 168; 0; 1]). split; [reflexivity|]. split; [unfold opt_ok, is_byte; apply (bool_decide_unpack _); vm_compute; exact I|].
  change (shaped (o_code (mkopt (cs "router") 0x31 3), [192; 168; 0; 1])). apply shaped_by; [apply list_elem_of_In; vm_compute; tauto|]. right. by exists 4, 1.
Qed.

Definition some_state : dhcpd := mkd some_leases [] [] [].

Lemma some_state_ok : state_ok some_state.
Proof. split_and!; [|constructor|constructor]. by repeat (constructor; [done|]). Qed.

Definition some_env (t : Z) : env := mkenv t (fun _ => false) (mknet 3 0 576) true.

Definition message (c : list Z) (l : list (Z * list Z)) : dhcpMessage :=
  mkmsg BOOTREQUEST 1 6 0 0x1234 0 0 0 0 0 0 c (replicate 64 0) (replicate 128 0) 0x63825363 (area_of l).

Definition discover_options : list (Z * list Z) := [(DHCP_MESSAGE_TYPE, [DHCPDISCOVER]); (DHCP_HOST_NAME, cs "pc")].
Definition request_options : list (Z * list Z) :=
  [(DHCP_MESSAGE_TYPE, [DHCPREQUEST]); (DHCP_SERVER_ID, [192; 168; 0; 1]); (DHCP_REQUESTED_IP, [192; 168; 0; 22]); (DHCP_LEASE_TIME, [0; 0; 14; 16])].

Lemma computed_request c l : length c = 16%nat -> bytes c -> opts_ok l ->
  (forall d, lookup_opt l DHCP_MESSAGE_TYPE = Some d -> d <> []) ->
  Forall (fun code => forall d, lookup_opt l code = Some d -> (4 <= length d)%nat) [DHCP_REQUESTED_IP; DHCP_SERVER_ID; DHCP_LEASE_TIME] -> request_ok (message c l) l.
Proof.
  intros Hc Hb Hl Ht Hw. split; [|by split|exact Ht|intros code d Hcode Hd; apply list_elem_of_lookup in Hcode as [i Hi]; exact (Forall_lookup_1 _ _ _ _ Hw Hi d Hd)]. split; [|by split|by split_and!|].
  - constructor; cbn [sname file options message]; [split; [reflexivity|by apply Forall_replicate]..|by apply area_ok].
  - split; repeat (constructor; [done|]); constructor.
Qed.

Lemma discover_ok c : length c = 16%nat -> bytes c -> request_ok (message c discover_options) discover_options.
Proof.
  intros Hc Hb. apply computed_request; [done|done| |by intros d [= <-]|repeat (constructor; [done|]); constructor].
  split; [unfold opt_ok, is_byte; apply (bool_decide_unpack _); vm_compute; exact I|cbn; lia].
Qed.

Lemma client_ok n : is_byte n -> length (client n) = 16%nat /\ bytes (client n).
Proof. intros Hn. split; [reflexivity|]. unfold client. repeat (constructor; [done|]). constructor. Qed.

Definition some_discover (t n : Z) : env * dhcpMessage := (some_env t, message (client n) discover_options).

Definition after (st : dhcpd) (e : env) (p : dhcpMessage) : dhcpd := if handle some_cfg st e p is Some (_, st', _) then st' else st.
Definition sent (st : dhcpd) (e : env) (p : dhcpMessage) : frame := if handle some_cfg st e p is Some (_, _, [f]) then f else Kernel 0 0 [].
Definition packet_in (f : frame) : dhcpMessage := match f with Raw _ _ bs => of_bytes (drop 28 bs) | Kernel _ _ bs => of_bytes bs end.

(** The lease of client 1 stands while clients 3 and 4 look for addresses. *)
Lemma leases_stand_witness : exists st' fs, run some_cfg some_state [some_discover 100 3; some_discover 110 4] = Some (st', fs) /\ leases st' !! 0%nat = some_leases !! 0%nat.
Proof.
  destruct (run some_cfg some_state [some_discover 100 3; some_discover 110 4]) as [[st' fs]|] eqn:E; [|by vm_compute in E]. exists st', fs. split; [reflexivity|].
  eapply (leases_stand some_cfg [some_discover 100 3; some_discover 110 4] some_state st' fs 0); [exact some_leases_ok|by repeat constructor|exact E|reflexivity|].
  repeat (constructor; [split_and!; [done|done|intros (_ & _ & Hc); done]|]). constructor.
Defined.

Lemma server_runs_witness : exists st' fs, run some_cfg some_state [some_discover 100 3; some_discover 110 4] = Some (st', fs) /\ table_ok (leases st').
Proof.
  destruct (server_runs some_cfg [some_discover 100 3; some_discover 110 4] some_state some_cfg_ok some_state_ok some_leases_ok) as (st' & fs & E & _ & _ & _ & Hok & _).
  - repeat (constructor; [split; [done|]; exists discover_options; by apply discover_ok; apply client_ok|]). constructor.
  - exists st', fs. split; [exact E|exact Hok].
Defined.

(** Client 3 is offered an address; client 4 looks for one; then client 3 asks for the address it was offered, and gets it. *)
Definition offer_state : dhcpd := after some_state (some_env 100) (message (client 3) discover_options).
Definition offer_frame : frame := Eval vm_compute in sent some_state (some_env 100) (message (client 3) discover_options).
Definition between_state : dhcpd := after offer_state (some_env 110) (message (client 4) discover_options).
Definition between_frame : frame := sent offer_state (some_env 110) (message (client 4) discover_options).

Lemma offer_honoured_witness : exists st3 f ack t,
  handle some_cfg between_state (some_env 120) (message (client 3) request_options) = Some (0, st3, [f]) /\ receivable f ack /\ yiaddr ack = 0xC0A80016 /\
  exists i, holds (leases st3) (client 3) 0xC0A80016 (u32 (120 + t)) i.
Proof.
  edestruct (offer_honoured some_cfg some_state (some_env 100) (message (client 3) discover_options) discover_options [] 576 offer_state offer_frame (packet_in offer_frame)
    [some_discover 110 4] between_state [between_frame] (some_env 120) (message (client 3) request_options) request_options) as (st3 & f & ack & t & E & Hf & Hr & _ & Hh).
  - exact some_cfg_ok.
  - exact some_state_ok.
  - exact some_leases_ok.
  - done.
  - reflexivity.
  - apply discover_ok; by apply client_ok.
  - reflexivity.
  - vm_compute. reflexivity.
  - split_and!; vm_compute; reflexivity.
  - by repeat constructor.
  - constructor; [|constructor]. split_and!; [by vm_compute|done|]. intros (_ & _ & Hc). vm_compute in Hc. done.
  - vm_compute. reflexivity.
  - split; [|reflexivity|by eexists|by vm_compute|by vm_compute]. apply computed_request; [reflexivity|by apply client_ok| |by intros d [= <-]|].
    + split; [unfold opt_ok, is_byte; apply (bool_decide_unpack _); vm_compute; exact I|cbn; lia].
    + repeat (constructor; [intros d [= <-]; cbn; lia|]). constructor.
  - done.
  - done.
  - assert (yiaddr (packet_in offer_frame) = 0xC0A80016) as Ey by (vm_compute; reflexivity). rewrite Ey in *. exists st3, f, ack, t. split_and!; [exact E|exact Hf| |].
    + apply (r_for _ _ _ _ _ _ Hr).
    + destruct (Hh eq_refl) as (i & Hi & _). by exists i.
Defined.

(** ** What clients should not get *)

Definition with_ciaddr (p : dhcpMessage) (a : Z) : dhcpMessage :=
  mkmsg (op p) (htype p) (hlen p) (hops p) (xid p) (secs p) (flags p) a (yiaddr p) (siaddr p) (giaddr p) (chaddr p) (sname p) (file p) (cookie p) (options p).

Definition ack_of (r : option result) : option (list Z * Z) :=
  match r with
  | Some (_, st, [f]) => match found (packet_in f) DHCP_MESSAGE_TYPE with
                         | Some (Some (_, k :: _)) => if k =? DHCPACK then Some (chaddr (packet_in f), yiaddr (packet_in f)) else None
                         | _ => None
                         end
  | _ => None
  end.

Definition tables (r : option result) : option (list (list Z * Z)) := (fun r => map (fun l => (l_chaddr l, l_yiaddr l)) (leases r.1.2)) <$> r.

(** A client without a lease renews the address that client 1 has: it is acknowledged, and client 1 is no longer in the table. *)
Example renewal_takes_lease :
  let r := handle some_cfg some_state (some_env 100) (with_ciaddr (message (client 3) [(DHCP_MESSAGE_TYPE, [DHCPREQUEST])]) 0xC0A80014) in
  ack_of r = Some (client 3, 0xC0A80014) /\ tables r = Some [(blank_chaddr, 0); (client 2, 0xC0A80015); (client 3, 0xC0A80014)].
Proof. by vm_compute. Qed.

(** After a restart a client asks for the address it says it had: it gets the address that is reserved for client 9. *)
Example reserved_given_away :
  let st := mkd [zero_lease] [mklease (client 9) 0xC0A80015 0 0 (replicate 64 0) []] [] [] in
  ack_of (handle some_cfg st (some_env 100) (message (client 3) [(DHCP_MESSAGE_TYPE, [DHCPREQUEST]); (DHCP_REQUESTED_IP, [192; 168; 0; 21])])) = Some (client 3, 0xC0A80015).
Proof. by vm_compute. Qed.

(** With all leases in use the client is told that it has the address, and nothing is entered. *)
Example acknowledged_without_room :
  let r := handle some_cfg (mkd (take 1 some_leases) [] [] []) (some_env 100) (message (client 3) [(DHCP_MESSAGE_TYPE, [DHCPREQUEST]); (DHCP_REQUESTED_IP, [192; 168; 0; 21])]) in
  ack_of r = Some (client 3, 0xC0A80015) /\ tables r = Some [(client 1, 0xC0A80014)].
Proof. by vm_compute. Qed.

(** ** The file of leases *)

(** A record is 92 bytes long. *)
Lemma length_record l t : length (l_chaddr l) = 16%nat -> length (l_hostname l) = 64%nat -> length (lease_record l t) = 92%nat.
Proof. intros Hc Hh. unfold lease_record. rewrite !length_app, !length_store, Hc, Hh. reflexivity. Qed.

(** A server that starts again with a file that has one lease has none. *)
Lemma one_lease_forgotten st0 t0 c st t l :
  leases st = [l] -> static_leases st = [] -> length (l_chaddr l) = 16%nat -> length (l_hostname l) = 64%nat -> read_leases c t0 (leases_text c st t) st0 = st0.
Proof.
  intros El Es Hc Hh. unfold read_leases, read_loop. set (text := leases_text c st t). assert (length text <= 92)%nat as Hlen.
  { unfold text, leases_text. rewrite El, Es. cbn [flat_map reserved take app]. rewrite !app_nil_r. destruct (_ && _); [by rewrite length_record|cbn; lia]. }
  fold (read_loop c). rewrite (proj2 (Nat.leb_gt _ _)) by (unfold LEASE_SIZE; lia). by rewrite andb_false_r.
Qed.

(** Of two leases the second is forgotten. *)
Example second_lease_forgotten :
  let two := [mklease (client 1) 0xC0A80014 500 1 (replicate 64 0) []; mklease (client 2) 0xC0A80015 500 1 (replicate 64 0) []] in
  map l_yiaddr (leases (read_leases some_cfg 100 (leases_text some_cfg (mkd two [] [] []) 100) (mkd [zero_lease; zero_lease] [] [] []))) = [0; 0xC0A80014].
Proof. by vm_compute. Qed.

End DhcpExchange.
