(* ===== verification/DhcpClientLease.v ===== *)
(** * The DHCP client and the end of its lease.

    The runs of the client as sequences of turns.  A client that is woken up in time never holds an address beyond the end
    of its lease, whatever packets and signals arrive, and gives it up after finitely many turns when nothing arrives. *)
From Stdlib Require Import ZArith Lia Bool String.
From stdpp Require Import base tactics list option numbers.
From S2P Require Import Prelude DhcpOptions DhcpPacket DhcpServer DhcpClient DhcpReplies DhcpRequests.

Module DhcpClientLease.
Import DhcpOptions DhcpPacket DhcpClient DhcpRequests.

Section Lease.
Context `{Endian} (cfg : client_config_t).

(** ** Runs *)

(** The states in which the client has an address and counts its time. *)
Definition leased (s : Z) : Prop := s = BOUND \/ s = RENEWING \/ s = REBINDING.

(** The largest lease whose seven eighths are computed without wrapping around. *)
Definition LONGEST : Z := 613566756.

(** The program is woken up in time: when its time is over, or before. *)
Definition punctual (a : answers) (c : dhcpc) : Prop := 0 <= before a <= after a /\ after a <= Z.max (before a) (timeout c).

(** The lease in a packet that is read in a turn is not too long, and its end is a time of the system. *)
Definition modest (a : answers) (c : dhcpc) : Prop :=
  forall r e p n x, woken a = Readable r e -> get_packet r = Some (n, p) \/ get_raw_packet (rx c) r = Some (n, p) ->
    DhcpServer.option_word p DHCP_LEASE_TIME = Some x -> let l := from_option ntohl 3600 x in 0 <= l <= LONGEST /\ after a + l < 2 ^ 32.

(** From [c] at the time [t] to [c'] at the time [t']. *)
Inductive runs : Z -> dhcpc -> list answers -> Z -> dhcpc -> Prop :=
  | runs_nil t c : runs t c [] t c
  | runs_cons t c a c1 l t' c' :
      before a = t -> punctual a c -> modest a c -> turn cfg a c = Some (Going c1) -> runs (after a) c1 l t' c' -> runs t c (a :: l) t' c'.

(** ** The lease and its timers *)

Record in_lease (t : Z) (c : dhcpc) : Prop := {
  il_lease : 0 <= c_lease c <= LONGEST /\ 0 <= c_start c /\ c_start c + c_lease c < 2 ^ 32;
  il_timers : 0 <= t1 c <= t2 c /\ t2 c <= c_lease c;
  il_timeout : 0 <= t <= timeout c /\ timeout c <= c_start c + (if state c =? REBINDING then t2 c else t1 c)
}.

Definition in_time (t : Z) (c : dhcpc) : Prop := leased (state c) -> in_lease t c.

Lemma u32_id x : 0 <= x < 2 ^ 32 -> u32 x = x.
Proof using Type. apply u32_small. Qed.

(** The turns that leave the lease alone. *)
Definition same_lease (c c' : dhcpc) : Prop :=
  state c' = state c /\ timeout c' = timeout c /\ t1 c' = t1 c /\ t2 c' = t2 c /\ c_start c' = c_start c /\ c_lease c' = c_lease c.

Lemma in_time_same t t' c c' : in_time t c -> same_lease c c' -> (leased (state c) -> 0 <= t' <= timeout c) -> in_time t' c'.
Proof using Type.
  intros Hc (E1 & E2 & E3 & E4 & E5 & E6) Ht Hl. rewrite E1 in Hl. destruct (Hc Hl) as [H1 H2 [H3 H4]]. specialize (Ht Hl).
  constructor; rewrite ?E1, ?E2, ?E3, ?E4, ?E5, ?E6; [done|done|lia].
Qed.

Lemma same_lease_refl c : same_lease c c.
Proof using Type. done. Qed.

Lemma in_time_bounds t c : in_time t c -> leased (state c) -> 0 <= t <= timeout c.
Proof using Type. intros Hc Hl. by destruct (Hc Hl) as [_ _ [H3 _]]. Qed.

Lemma not_leased t c : state c = INIT_SELECTING \/ state c = REQUESTING \/ state c = RENEW_REQUESTED \/ state c = RELEASED -> in_time t c.
Proof using Type. intros Hs [Hl|[Hl|Hl]]; rewrite Hl in Hs; destruct Hs as [|[|[|]]]; done. Qed.

(** ** Time that is over *)

Lemma on_renewing_in_time a c c' t : state c = RENEWING -> 0 <= t1 c <= t2 c -> t2 c <= c_lease c <= LONGEST -> 0 <= c_start c ->
  c_start c + c_lease c < 2 ^ 32 -> 0 <= after a <= c_start c + t1 c -> on_renewing cfg a c = Some (Going c') -> t = after a -> in_time t c'.
Proof using Type.
  intros Hs H1 H2 H3 H4 Ha E ->. unfold LONGEST in *. unfold on_renewing in E. rewrite (u32_id (t2 c - t1 c)) in E by lia. destruct (_ <=? _).
  - injection E as <-. intros _. constructor; cbn [set_timer set_state c_lease c_start t1 t2 timeout state]; unfold LONGEST; [lia|lia|].
    rewrite u32_id by lia. change (REBINDING =? REBINDING) with true. cbn iota. lia.
  - apply bind_Some in E as (r & _ & E). pose proof (Z.div_le_upper_bound (t2 c - t1 c) 2 (t2 c - t1 c) ltac:(lia) ltac:(lia)) as Hd.
    pose proof (Z.div_pos (t2 c - t1 c) 2 ltac:(lia) ltac:(lia)) as Hp. rewrite (u32_id (_ / 2 + _)) in E by lia. injection E as <-. intros _.
    constructor; cbn [set_timer set_lease sent_by happen c_lease c_start t1 t2 timeout state]; unfold LONGEST; [lia|lia|].
    rewrite u32_id by lia. rewrite Hs. change (RENEWING =? REBINDING) with false. cbn iota. lia.
Qed.

Lemma on_rebinding_in_time a c c' t : state c = REBINDING -> in_lease t c -> after a <= timeout c -> 0 <= after a -> on_rebinding cfg a c = Some (Going c') -> in_time (after a) c'.
Proof using Type.
  intros Hs [H1 H2 H3] Hle Ha E. rewrite Hs in H3. change (REBINDING =? REBINDING) with true in H3. cbn iota in H3. unfold LONGEST in *. unfold on_rebinding in E.
  rewrite (u32_id (c_lease c - t2 c)) in E by lia. destruct (_ <=? _).
  - injection E as <-. by apply not_leased; left.
  - apply bind_Some in E as (r & _ & E). pose proof (Z.div_le_upper_bound (c_lease c - t2 c) 2 (c_lease c - t2 c) ltac:(lia) ltac:(lia)) as Hd.
    pose proof (Z.div_pos (c_lease c - t2 c) 2 ltac:(lia) ltac:(lia)) as Hp. rewrite (u32_id (_ / 2 + _)) in E by lia. injection E as <-. intros _.
    constructor; cbn [set_timer set_lease sent_by happen c_lease c_start t1 t2 timeout state]; unfold LONGEST; [lia|lia|].
    rewrite u32_id by lia. rewrite Hs. change (REBINDING =? REBINDING) with true. cbn iota. lia.
Qed.

(** The states in which a time is over without a lease. *)
Lemma on_init_state a c c' : on_init cfg a c = Some (Going c') -> state c' = state c.
Proof using Type.
  unfold on_init. destruct (_ <? _).
  - intros E. apply bind_Some in E as (r & _ & E). apply bind_Some in E as (d & _ & E). by injection E as <-.
  - destruct (query cfg); [done|]. destruct (_ && _); [done|]. destruct (_ =? 0); [done|]. intros [= <-]. by destruct (background_if_no_lease cfg).
Qed.

Lemma on_requesting_state a c c' : on_requesting cfg a c = Some (Going c') -> state c' = state c \/ state c' = INIT_SELECTING.
Proof using Type.
  unfold on_requesting. destruct (_ <? _).
  - intros E. apply bind_Some in E as (r & _ & E). apply bind_Some in E as (d & _ & E). left. by injection E as <-.
  - destruct (_ =? 0); [done|]. intros [= <-]. by right.
Qed.

Lemma on_timeout_in_time a c c' t : in_time t c -> (leased (state c) -> 0 <= after a <= timeout c) -> on_timeout cfg a c = Some (Going c') -> in_time (after a) c'.
Proof using Type.
  intros Hc Ha E. unfold on_timeout in E. destruct (Z.eqb_spec (state c) INIT_SELECTING) as [Hs|?].
  { apply not_leased. left. apply on_init_state in E. congruence. }
  destruct (Z.eqb_spec (state c) RENEW_REQUESTED) as [Hs|?]; cbn [orb] in E.
  { apply not_leased. apply on_requesting_state in E as [E|E]; rewrite E; auto. }
  destruct (Z.eqb_spec (state c) REQUESTING) as [Hs|?]; cbn [orb] in E.
  { apply not_leased. apply on_requesting_state in E as [E|E]; rewrite E; auto. }
  destruct (Z.eqb_spec (state c) BOUND) as [Hs|?].
  { assert (leased (state c)) as Hl by (by left). destruct (Hc Hl) as [H1 H2 H3]. specialize (Ha Hl). rewrite Hs in H3. change (BOUND =? REBINDING) with false in H3.
    cbn iota in H3. eapply on_renewing_in_time in E; [exact E|reflexivity|..]; cbn [change_mode set_listen set_state t1 t2 c_lease c_start]; try lia. }
  destruct (Z.eqb_spec (state c) RENEWING) as [Hs|?].
  { assert (leased (state c)) as Hl by (by right; left). destruct (Hc Hl) as [H1 H2 H3]. specialize (Ha Hl). rewrite Hs in H3. change (RENEWING =? REBINDING) with false in H3.
    cbn iota in H3. eapply on_renewing_in_time in E; [exact E|done|..]; lia. }
  destruct (Z.eqb_spec (state c) REBINDING) as [Hs|?].
  { assert (leased (state c)) as Hl by (by right; right). specialize (Ha Hl). eapply on_rebinding_in_time; [exact Hs|exact (Hc Hl)|lia|lia|exact E]. }
  destruct (Z.eqb_spec (state c) RELEASED) as [Hs|Hs].
  { injection E as <-. apply not_leased. by right; right; right. }
  injection E as <-. intros [Hl|[Hl|Hl]]; done.
Qed.

(** ** Packets *)

Lemma shift_seven_eighths l : 0 <= l <= LONGEST -> 0 <= l / 2 <= Z.shiftr (u32 (l * 7)) 3 /\ Z.shiftr (u32 (l * 7)) 3 <= l.
Proof using Type.
  intros Hl. unfold LONGEST in Hl. rewrite u32_id by lia. rewrite Z.shiftr_div_pow2 by lia. change (2 ^ 3) with 8.
  pose proof (Z.div_mod l 2 ltac:(lia)). pose proof (Z.mod_pos_bound l 2 ltac:(lia)). pose proof (Z.div_mod (l * 7) 8 ltac:(lia)). pose proof (Z.mod_pos_bound (l * 7) 8 ltac:(lia)). lia.
Qed.

#[local] Opaque DhcpServer.option_word send_decline DhcpServer.found.

Lemma on_ack_in_time a p c c' : (forall x, DhcpServer.option_word p DHCP_LEASE_TIME = Some x -> let l := from_option ntohl 3600 x in 0 <= l <= LONGEST /\ after a + l < 2 ^ 32) ->
  0 <= after a -> on_ack cfg a p c = Some (Going c') -> in_time (after a) c'.
Proof using Type.
  intros Hm Ha E. unfold on_ack in E. destruct (_ && _).
  { apply bind_Some in E as (r & _ & E). injection E as <-. apply not_leased. by left. }
  apply bind_Some in E as (x & Hx & E). specialize (Hm x Hx). cbv zeta in Hm.
  replace (match x with Some x => ntohl x | None => 3600 end) with (from_option ntohl 3600 x) in E by (by destruct x). set (l := from_option ntohl 3600 x) in *.
  pose proof (shift_seven_eighths l ltac:(lia)) as Hs. destruct (quit_after_lease cfg); [done|]. injection E as <-. intros _.
  assert (forall (b : bool) (d d' : dhcpc), same_lease d d' -> in_lease (after a) d -> in_lease (after a) (if b then d else d')) as Hfg.
  { intros b d d' (E1 & E2 & E3 & E4 & E5 & E6) [G1 G2 G3]. destruct b; [done|]. by constructor; rewrite ?E1, ?E2, ?E3, ?E4, ?E5, ?E6. }
  apply Hfg; [done|]. constructor; cbn [change_mode set_listen set_state run_script happen set_timer set_lease c_lease c_start t1 t2 timeout state].
  - lia.
  - lia.
  - unfold LONGEST in *. rewrite u32_id by lia. change (BOUND =? REBINDING) with false. cbn iota. lia.
Qed.

Lemma on_packet_in_time a p c c' t : in_time t c -> (leased (state c) -> 0 <= after a <= timeout c) -> 0 <= t -> 0 <= after a ->
  (forall x, DhcpServer.option_word p DHCP_LEASE_TIME = Some x -> let l := from_option ntohl 3600 x in 0 <= l <= LONGEST /\ after a + l < 2 ^ 32) ->
  on_packet cfg a p c = Some (Going c') -> in_time (after a) c'.
Proof using Type.
  intros Hc Ha Ht Hpos Hm E.
  assert (Some (Going c) = Some (Going c') -> in_time (after a) c') as Hsame.
  { intros [= <-]. eapply in_time_same; [exact Hc|apply same_lease_refl|exact Ha]. }
  unfold on_packet in E. destruct (negb _); [auto|]. apply bind_Some in E as (m & _ & E). destruct m as [[n d]|]; [|auto]. apply bind_Some in E as (type & _ & E).
  destruct (state c =? INIT_SELECTING).
  { destruct (type =? DHCPOFFER); [|auto]. unfold on_offer in E. apply bind_Some in E as (r & _ & E). destruct r; [|auto]. destruct (query cfg); [done|].
    injection E as <-. apply not_leased. by right; left. }
  destruct (_ || _ || _ || _); [|auto]. destruct (type =? DHCPACK); [by eapply on_ack_in_time|]. destruct (type =? DHCPNAK); [|auto].
  unfold on_nak in E. apply bind_Some in E as (r & _ & E). destruct r as [s|]; [|auto]. destruct (negb _); [auto|]. injection E as <-. apply not_leased. by left.
Qed.

(** ** Turns *)

Lemma release_state n rnd c c' : perform_release cfg n rnd c = Some c' -> state c' = RELEASED.
Proof using Type. unfold perform_release. intros E. apply bind_Some in E as (x & _ & E). by injection E as <-. Qed.

Lemma renew_in_time c t : in_time t (perform_renew c).
Proof using Type.
  intros Hl. exfalso. unfold perform_renew, leased in Hl. cbn [set_timer state] in Hl.
  destruct (Z.eqb_spec (state c) BOUND) as [|N1]; [by destruct Hl as [|[|]]|].
  destruct (Z.eqb_spec (state c) RENEWING) as [|N2]; [by destruct Hl as [|[|]]|]. destruct (Z.eqb_spec (state c) REBINDING) as [|N3]; [by destruct Hl as [|[|]]|].
  cbn [orb] in Hl. destruct (state c =? RENEW_REQUESTED); [by destruct Hl as [|[|]]|]. destruct (_ || _); by destruct Hl as [|[|]].
Qed.

Lemma turn_in_time a c c' t : in_time t c -> before a = t -> punctual a c -> modest a c -> turn cfg a c = Some (Going c') -> in_time (after a) c'.
Proof using Type.
  intros Hc Ht [Hb Hp] Hm E. unfold turn in E. destruct (_ && (a_socket a <? 0)); [done|].
  set (d := if negb (listen_mode c =? LISTEN_NONE) && negb (c_open c) then set_listen (listen_mode c) true c else c) in E.
  assert (same_lease c d) as Hsame by (unfold d; by destruct (_ && _)). assert (rx d = rx c) as Hrx by (unfold d; by destruct (_ && _)).
  assert (leased (state c) -> 0 <= after a <= timeout c) as Hc' by (intros Hl; pose proof (in_time_bounds _ _ Hc Hl); lia).
  assert (in_time t d) as Hd by (eapply in_time_same; [exact Hc|done|by apply in_time_bounds]).
  assert (leased (state d) -> 0 <= after a <= timeout d) as Ha by (destruct Hsame as (-> & -> & _); done). clearbody d.
  assert (in_time (after a) d) as Hstay by (eapply in_time_same; [exact Hd|apply same_lease_refl|exact Ha]).
  destruct (_ <=? 0); [by eapply on_timeout_in_time|]. destruct (woken a) as [|r e|[sig|]|] eqn:Ew; [by eapply on_timeout_in_time| | |by injection E as <-|by injection E as <-].
  - destruct (_ =? LISTEN_NONE); [by injection E as <-|]. unfold on_readable in E. apply bind_Some in E as ([len p] & Hr & E).
    assert (forall x, DhcpServer.option_word p DHCP_LEASE_TIME = Some x -> let l := from_option ntohl 3600 x in 0 <= l <= LONGEST /\ after a + l < 2 ^ 32) as Hp'.
    { intros x. apply (Hm r e p len x Ew). rewrite Hrx in Hr. destruct (_ =? LISTEN_KERNEL); auto. }
    set (d' := if (len =? -1) && negb e then _ else _) in E. assert (same_lease d d') as Hs' by (unfold d'; by destruct (_ && _)).
    assert (in_time t d') as Hd' by (eapply in_time_same; [exact Hd|done|by apply in_time_bounds]).
    assert (leased (state d') -> 0 <= after a <= timeout d') as Ha' by (destruct Hs' as (-> & -> & _); done). clearbody d'.
    destruct (len <? 0); [|eapply on_packet_in_time; try done; lia]. injection E as <-. eapply in_time_same; [exact Hd'|apply same_lease_refl|exact Ha'].
  - unfold on_signal in E. destruct (sig =? SIGUSR1); [injection E as <-; apply renew_in_time|].
    destruct (sig =? SIGUSR2); [apply bind_Some in E as (x & Hx & E); injection E as <-; apply not_leased; apply release_state in Hx; auto|].
    destruct (sig =? SIGTERM); [by apply bind_Some in E as (x & _ & E)|by injection E as <-].
Qed.

Lemma runs_in_time t c l t' c' : runs t c l t' c' -> in_time t c -> in_time t' c'.
Proof using Type. induction 1 as [|t c a c1 l t' c' Hb Hp Hm E _ IH]; [done|]. intros Hc. apply IH. by eapply turn_in_time. Qed.

(** C12. A client that is woken up in time, and is told leases of at most 613566756 seconds whose end is a time of 32 bits, does not
    hold an address beyond the end of its lease: in every run from the start, whatever packets and signals arrive, whatever the
    network and ARP answer, as long as the client is bound or is renewing or rebinding its lease the lease has not ended.  The state
    RENEW_REQUESTED, after a signal to renew, is not among them: there the client counts no time. *)
Theorem client_never_overstays t0 requested junk fg l t c :
  runs t0 (started t0 requested junk fg) l t c -> leased (state c) -> t <= c_start c + c_lease c.
Proof using Type.
  intros Hr Hl. assert (in_time t0 (started t0 requested junk fg)) as H0 by (apply not_leased; by left).
  destruct (runs_in_time _ _ _ _ _ Hr H0 Hl) as [H1 H2 H3]. destruct (_ =? _) in H3; lia.
Qed.

(** ** A silent network *)

(** Nothing arrives: each turn waits until its time is over.  The frames of the client can be sent or not. *)
Definition silence (t : Z) (n : net) (c : dhcpc) : answers := mkans t 3 Expired (Z.max t (timeout c)) n 0 false.

(** [n] turns of silence. *)
Fixpoint wait (k : nat) (t : Z) (n : net) (c : dhcpc) : option (Z * dhcpc) :=
  match k with
  | O => Some (t, c)
  | S k => let a := silence t n c in match turn cfg a c with Some (Going c') => wait k (after a) n c' | _ => None end
  end.

Lemma turn_silence t n c : turn cfg (silence t n c) c = on_timeout cfg (silence t n c) (if negb (listen_mode c =? LISTEN_NONE) && negb (c_open c) then set_listen (listen_mode c) true c else c).
Proof using Type. unfold turn. cbn [silence a_socket woken]. rewrite andb_false_r. by destruct (_ <=? 0). Qed.

(** The transaction and the address of the client are words. *)
Definition addressed (c : dhcpc) : Prop := is_word 4 (c_xid c) /\ is_word 4 (requested_ip c).

Lemma renew_sent n c s : client_ok cfg -> addressed c -> exists r, send_renew cfg n (c_xid c) s (requested_ip c) = Some r.
Proof using Type.
  intros Hc [Hx Hi]. unfold send_renew. destruct (renew_packet_ok cfg _ _ Hc Hx Hi) as (p & -> & Hp & _). cbn [mbind option_bind]. destruct (s =? 0); [|by eexists].
  unfold broadcast, raw_packet. destruct (_ <? 0); [by eexists|]. destruct (_ <? 0); [by eexists|].
  destruct (raw_frame_verifies p INADDR_ANY CLIENT_PORT DhcpServer.INADDR_BROADCAST SERVER_PORT (po_msg _ _ _ Hp)) as (x & y & E & _). rewrite E. by eexists.
Qed.

(** The lease has been given up: the address is no longer configured. *)
Definition given_up (t : Z) (c c' : dhcpc) : Prop :=
  t <= c_start c + c_lease c /\ state c' = INIT_SELECTING /\ exists l, events c' = events c ++ l /\ Script None str_deconfig ∈ l.

Lemma given_up_later t c d c' : given_up t d c' -> c_start d = c_start c -> c_lease d = c_lease c -> (exists l, events d = events c ++ l) -> given_up t c c'.
Proof using Type.
  intros (H1 & H2 & l & H3 & H4) Es El [l0 E]. split_and!; [by rewrite <- Es, <- El|done|]. exists (l0 ++ l). rewrite H3, E, <- app_assoc. split; [done|].
  apply elem_of_app. by right.
Qed.

Definition opened (c : dhcpc) : dhcpc := if negb (listen_mode c =? LISTEN_NONE) && negb (c_open c) then set_listen (listen_mode c) true c else c.

Lemma opened_same c : same_lease c (opened c) /\ events (opened c) = events c.
Proof using Type. unfold opened. by destruct (_ && _). Qed.

Lemma opened_addressed c : addressed c -> addressed (opened c).
Proof using Type. unfold opened. by destruct (_ && _). Qed.

Lemma in_lease_time t n c : in_lease t c -> after (silence t n c) = timeout c.
Proof using Type. intros [_ _ [H3 _]]. cbn [silence after]. lia. Qed.

Lemma share_pos l : 0 <= l <= LONGEST -> 0 < u32 (l / 14400 + 1).
Proof using Type.
  unfold LONGEST. intros Hl. pose proof (Z.div_pos l 14400 ltac:(lia) ltac:(lia)). pose proof (Z.div_le_upper_bound l 14400 l ltac:(lia) ltac:(lia)). rewrite u32_id; lia.
Qed.

Lemma rebinding_ends n : client_ok cfg -> forall k t c, state c = REBINDING -> addressed c -> in_lease t c -> c_lease c - t2 c < Z.of_nat k ->
  exists j t' c', wait j t n c = Some (t', c') /\ given_up t' c c'.
Proof using Type.
  intros Hr. induction k as [|k IH]; intros t c Hs Had Hc Hk; [destruct Hc as [_ [_ ?] _]; lia|].
  destruct (opened_same c) as [(E1 & E2 & E3 & E4 & E5 & E6) Ev]. pose proof (in_lease_time t n c Hc) as Ht. pose proof Hc as [H1 H2 H3]. rewrite Hs in H3.
  change (REBINDING =? REBINDING) with true in H3. cbn iota in H3. unfold LONGEST in H1.
  assert (on_timeout cfg (silence t n c) (opened c) = on_rebinding cfg (silence t n c) (opened c)) as Et by (unfold on_timeout; by rewrite E1, Hs).
  unfold on_rebinding in Et. rewrite E4, E6, E5, Ht in Et. rewrite (u32_id (c_lease c - t2 c)) in Et by lia.
  destruct (Z.leb_spec (c_lease c - t2 c) (u32 (c_lease c / 14400 + 1))) as [Hle|Hgt].
  - eexists 1%nat, _, _. cbn [wait]. rewrite turn_silence. fold (opened c). rewrite Et. split; [reflexivity|]. rewrite Ht. split_and!; [lia|reflexivity|].
    exists [Script None str_deconfig]. cbn [change_mode set_listen set_timer deconfig run_script happen set_state events]. rewrite Ev. split; [done|by left].
  - destruct (renew_sent n (opened c) 0 Hr (opened_addressed c Had)) as (r & Er). cbn [silence tx] in Et. rewrite Er in Et. cbn [mbind option_bind] in Et.
    pose proof (Z.div_mod (c_lease c - t2 c) 2 ltac:(lia)) as Hdm. pose proof (Z.mod_pos_bound (c_lease c - t2 c) 2 ltac:(lia)) as Hmb.
    pose proof (share_pos (c_lease c) ltac:(unfold LONGEST; lia)) as Hone.
    rewrite (u32_id (_ / 2 + _)) in Et by lia. set (c1 := set_timer _ _ _) in Et.
    assert (in_lease (timeout c) c1) as Hc1.
    { constructor; unfold c1; cbn [set_timer set_lease sent_by happen c_lease c_start t1 t2 timeout state]; unfold LONGEST; rewrite ?E1, ?E3, ?E5, ?E6; [lia|lia|].
      rewrite Hs. change (REBINDING =? REBINDING) with true. cbn iota. rewrite u32_id by lia. lia. }
    destruct (IH (timeout c) c1) as (j & t' & c' & Ew & Hg); [unfold c1; cbn; by rewrite E1|exact (opened_addressed c Had)|exact Hc1|unfold c1; cbn [set_timer set_lease sent_by happen c_lease t2]; rewrite ?E6; lia|].
    exists (S j), t', c'. split; [cbn [wait]; rewrite turn_silence; fold (opened c); rewrite Et, Ht; exact Ew|].
    eapply given_up_later; [exact Hg|reflexivity|reflexivity|]. exists (map Sent (snd r)). unfold c1. cbn [set_timer set_lease sent_by happen events]. by rewrite Ev.
Qed.

(** A turn of renewing halves the time until rebinding, or begins to rebind. *)
Lemma renewing_step t n c d : client_ok cfg -> addressed d -> in_lease t c -> state c <> REBINDING -> state d = RENEWING -> t1 d = t1 c -> t2 d = t2 c -> c_start d = c_start c -> c_lease d = c_lease c ->
  exists c1, on_renewing cfg (silence t n c) d = Some (Going c1) /\ in_lease (timeout c) c1 /\ c_start c1 = c_start c /\ c_lease c1 = c_lease c /\ (exists l, events c1 = events d ++ l) /\ addressed c1 /\
    (state c1 = REBINDING \/ (state c1 = RENEWING /\ 0 <= t2 c1 - t1 c1 < t2 c - t1 c)).
Proof using Type.
  intros Hr Had Hc Hnb Hd D1 D2 D3 D4. pose proof (in_lease_time t n c Hc) as Ht. destruct Hc as [H1 H2 H3]. rewrite (proj2 (Z.eqb_neq _ _) Hnb) in H3.
  pose proof (share_pos (c_lease c) ltac:(lia)) as Hone. unfold LONGEST in H1. unfold on_renewing. rewrite D1, D2, D3, D4, Ht, (u32_id (t2 c - t1 c)) by lia.
  destruct (Z.leb_spec (t2 c - t1 c) (u32 (c_lease c / 14400 + 1))) as [Hle|Hgt].
  - eexists. split; [reflexivity|]. cbn [set_timer set_state c_start c_lease events state t1 t2]. split_and!; [|done|done|exists []; by rewrite app_nil_r|exact Had|by left].
    constructor; cbn [set_timer set_state c_start c_lease timeout state t1 t2]; unfold LONGEST; rewrite ?D1, ?D2, ?D3, ?D4; [lia|lia|].
    change (REBINDING =? REBINDING) with true. cbn iota. rewrite u32_id by lia. lia.
  - destruct (renew_sent n d (server_addr d) Hr Had) as (r & Er). cbn [silence tx]. rewrite Er. cbn [mbind option_bind].
    pose proof (Z.div_mod (t2 c - t1 c) 2 ltac:(lia)) as Hdm. pose proof (Z.mod_pos_bound (t2 c - t1 c) 2 ltac:(lia)) as Hmb. rewrite (u32_id (_ / 2 + _)) by lia.
    eexists. split; [reflexivity|]. cbn [set_timer set_lease sent_by happen c_start c_lease events state t1 t2]. split_and!; [|done|done|by eexists|exact Had|right; split; [done|lia]].
    constructor; cbn [set_timer set_lease sent_by happen c_start c_lease timeout state t1 t2]; unfold LONGEST; [lia|lia|].
    rewrite Hd. change (RENEWING =? REBINDING) with false. cbn iota. rewrite u32_id by lia. lia.
Qed.

Lemma renewing_ends n : client_ok cfg -> forall k t c, state c = BOUND \/ state c = RENEWING -> addressed c -> in_lease t c -> t2 c - t1 c < Z.of_nat k ->
  exists j t' c', wait j t n c = Some (t', c') /\ given_up t' c c'.
Proof using Type.
  intros Hr. induction k as [|k IH]; intros t c Hs Had Hc Hk; [destruct Hc as [_ [? _] _]; lia|].
  destruct (opened_same c) as [(E1 & E2 & E3 & E4 & E5 & E6) Ev]. pose proof (in_lease_time t n c Hc) as Ht.
  set (d := if state c =? BOUND then change_mode LISTEN_KERNEL (set_state RENEWING (opened c)) else opened c).
  assert (state d = RENEWING /\ t1 d = t1 c /\ t2 d = t2 c /\ c_start d = c_start c /\ c_lease d = c_lease c /\ events d = events c) as (D0 & D1 & D2 & D3 & D4 & D5).
  { unfold d. destruct Hs as [Hs|Hs]; rewrite Hs; [by split_and!|]. change (RENEWING =? BOUND) with false. cbn iota. split_and!; congruence. }
  assert (on_timeout cfg (silence t n c) (opened c) = on_renewing cfg (silence t n c) d) as Et by (unfold on_timeout, d; rewrite E1; by destruct Hs as [-> | ->]).
  assert (addressed d) as Hadd by (unfold d; pose proof (opened_addressed c Had); by destruct (_ =? _)).
  destruct (renewing_step t n c d Hr Hadd Hc) as (c1 & Er & Hc1 & S1 & L1 & [l0 Ev1] & Had1 & Hnext); try done; [destruct Hs as [-> | ->]; done|].
  assert (exists j t' c', wait j (timeout c) n c1 = Some (t', c') /\ given_up t' c1 c') as (j & t' & c' & Ew & Hg).
  { destruct Hnext as [Hb|[Hb Hlt]]; [|apply IH; [by right|exact Had1|exact Hc1|lia]].
    eapply (rebinding_ends n Hr (S (Z.to_nat (c_lease c1 - t2 c1)))); [exact Hb|exact Had1|exact Hc1|]. destruct Hc1 as [_ [_ ?] _]. lia. }
  exists (S j), t', c'. split; [cbn [wait]; rewrite turn_silence; fold (opened c); rewrite Et, Er, Ht; exact Ew|].
  eapply given_up_later; [exact Hg|exact S1|exact L1|]. exists l0. by rewrite Ev1, D5.
Qed.

(** C13. When nothing more arrives, a client with a lease gives it up after finitely many turns, and not after its end: it
    deconfigures its address and looks for a server again. *)
Theorem lease_runs_out n t c : client_ok cfg -> addressed c -> leased (state c) -> in_lease t c ->
  exists k t' c', wait k t n c = Some (t', c') /\ given_up t' c c'.
Proof using Type.
  intros Hr Had Hl Hc. pose proof Hc as [_ [H1 H2] _]. destruct Hl as [Hs|[Hs|Hs]].
  - apply (renewing_ends n Hr (S (Z.to_nat (t2 c - t1 c)))); [by left|exact Had|exact Hc|lia].
  - apply (renewing_ends n Hr (S (Z.to_nat (t2 c - t1 c)))); [by right|exact Had|exact Hc|lia].
  - apply (rebinding_ends n Hr (S (Z.to_nat (c_lease c - t2 c)))); [exact Hs|exact Had|exact Hc|lia].
Qed.

End Lease.
End DhcpClientLease.
