(* ===== verification/DhcpNetwork.v ===== *)
(** * A DHCP client and the server on one network.

    The packets of the client are well formed for the server and the other way round; the exchange of four messages ends with a
    client that is bound, and a server that knows it. *)
From Stdlib Require Import ZArith Lia Bool String.
From stdpp Require Import base tactics option numbers list.
From S2P Require Import Prelude DhcpOptions DhcpPacket DhcpLeases DhcpServer DhcpClient DhcpSafety DhcpReplies DhcpRequests DhcpExchange DhcpClientLease.

Module DhcpNetwork.
Import DhcpOptions DhcpPacket DhcpLeases DhcpServer DhcpReplies DhcpExchange.
Import DhcpClient DhcpRequests.

(** ** What the server makes of them *)

Section Reading.
Context `{Endian} (ccfg : client_config_t) (scfg : server_config_t).

(** The datagram in a frame. *)
Definition datagram (f : frame) : list Z := match f with Raw _ _ bs => drop 28 bs | Kernel _ _ bs => bs end.







End Reading.
(** ** The turns of the client *)

Section Turns.
Context `{Endian} (ccfg : client_config_t) (scfg : server_config_t).

(** A turn whose time is over, and a turn that begins at the time [t0] and in which a frame arrives at the time [t]; nobody else
    uses the address in it. *)
Definition waking (t : Z) (n : net) (rnd : Z) : answers := mkans t 3 Expired t n rnd false.
Definition hearing (t0 t : Z) (n : net) (f : frame) : answers :=
  mkans t0 3 (Readable (Some (match f with Raw _ _ bs => bs | Kernel _ _ bs => bs end)) false) t n 0 false.












End Turns.
(** ** The exchange *)

Section Network.
Context `{Endian} (ccfg : client_config_t) (scfg : server_config_t).

(** The frame that the client has sent last. *)
Definition last_sent (c : dhcpc) : option frame := match last (events c) with Some (Sent f) => Some f | _ => None end.









End Network.
(** ** A client and a server *)

#[local] Existing Instance be_server.

Definition some_client : client_config_t :=
  mkccfg false false false false (option_string (DHCP_CLIENT_ID, [1; 2; 0; 0; 0; 0; 5])) (Some (option_string (DHCP_HOST_NAME, cs "pc"))) 2 [2; 0; 0; 0; 0; 5] 2 3 20.

Lemma some_client_ok : DhcpRequests.client_ok some_client.
Proof.
  split; [split; [reflexivity|unfold is_byte; apply (bool_decide_unpack _); vm_compute; exact I]|reflexivity|by intros h [= <-]| |vm_compute; lia].
  unfold opt_ok, is_byte. apply (bool_decide_unpack _). vm_compute. exact I.
Qed.

Definition some_net : net := mknet 3 0 576.
Definition new_client : dhcpc := started 1000 0 zero_msg false.

(** The clients and frames of their exchange. *)
Definition going (c : dhcpc) (a : answers) : dhcpc := if turn some_client a c is Some (Going c') then c' else c.
Definition frame_of (c : dhcpc) : list Z := if last_sent c is Some f then datagram f else [].
Definition reply_to (st : dhcpd) (t : Z) (bs : list Z) : frame := if receive some_cfg st (some_env t) (Some bs) is Some (_, _, [f]) then f else Kernel 0 0 [].
Definition served (st : dhcpd) (t : Z) (bs : list Z) : dhcpd := if receive some_cfg st (some_env t) (Some bs) is Some (_, st', _) then st' else st.

Definition client1 : dhcpc := Eval vm_compute in going new_client (waking 1000 some_net 0x1234).
Definition offer_to_client : frame := Eval vm_compute in reply_to some_state 100 (frame_of client1).
Definition state1 : dhcpd := Eval vm_compute in served some_state 100 (frame_of client1).
Definition client2 : dhcpc := Eval vm_compute in going client1 (hearing 1000 1001 some_net offer_to_client).
Definition client3 : dhcpc := Eval vm_compute in going client2 (waking 1001 some_net 0).
Definition ack_to_client : frame := Eval vm_compute in reply_to state1 101 (frame_of client3).
Definition client4 : dhcpc := Eval vm_compute in going client3 (hearing 1001 1002 some_net ack_to_client).

Example client4_bound : (state client4, requested_ip client4, c_start client4, c_lease client4, t1 client4, t2 client4) = (BOUND, 0xC0A80016, 1002, 864000, 432000, 756000).
Proof. reflexivity. Qed.




(** The run of the client up to there. *)
Lemma waking_modest t n rnd c : DhcpClientLease.modest (waking t n rnd) c.
Proof. by intros r e p k x [=]. Qed.

Ltac told := intros r e p k x [= <- <-] Hp Hx; destruct Hp as [Hp|Hp]; vm_compute in Hp; injection Hp as <- <-; vm_compute in Hx; injection Hx as <-; by vm_compute.

Lemma client_never_overstays_witness : exists l, DhcpClientLease.runs some_client 1000 new_client l 1002 client4 /\ 1002 <= c_start client4 + c_lease client4.
Proof.
  assert (exists l, DhcpClientLease.runs some_client 1000 new_client l 1002 client4) as [l Hl].
  { exists [waking 1000 some_net 0x1234; hearing 1000 1001 some_net offer_to_client; waking 1001 some_net 0; hearing 1001 1002 some_net ack_to_client].
    eapply (DhcpClientLease.runs_cons _ _ _ _ client1); [reflexivity|by vm_compute|apply waking_modest|vm_compute; reflexivity|].
    eapply (DhcpClientLease.runs_cons _ _ _ _ client2); [reflexivity|by vm_compute|told|vm_compute; reflexivity|].
    eapply (DhcpClientLease.runs_cons _ _ _ _ client3); [reflexivity|by vm_compute|apply waking_modest|vm_compute; reflexivity|].
    eapply (DhcpClientLease.runs_cons _ _ _ _ client4); [reflexivity|by vm_compute|told|vm_compute; reflexivity|]. apply DhcpClientLease.runs_nil. }
  exists l. split; [exact Hl|]. exact (DhcpClientLease.client_never_overstays some_client 1000 0 zero_msg false l 1002 client4 Hl (or_introl eq_refl)).
Defined.

(** Without an answer it gives its address up. *)
Lemma lease_runs_out_witness : exists k t c, DhcpClientLease.wait some_client k 1002 some_net client4 = Some (t, c) /\ t <= 865002 /\ state c = INIT_SELECTING.
Proof.
  destruct (DhcpClientLease.lease_runs_out some_client some_net 1002 client4 some_client_ok) as (k & t & c & E & Ht & Hs & _).
  - by vm_compute.
  - by left.
  - by split; vm_compute.
  - exists k, t, c. split_and!; [exact E|exact Ht|exact Hs].
Defined.

(** ** What goes wrong in the client *)

(** A frame whose header tells a length of 20 bytes: a negative number of bytes is copied. *)
Definition short_frame : list Z :=
  [0x45; 0; 0; 20; 0; 0; 0; 0; 64; IPPROTO_UDP; 0x7A; 0xDA; 0; 0; 0; 0; 255; 255; 255; 255; 0; 67; 0; 68; 0; 0; 0; 0].

Example short_length_copied : checksum (take 20 short_frame) = Some 0 /\ get_raw_packet zero_msg (Some short_frame) = None.
Proof. by vm_compute. Qed.

(** A frame with a wrong checksum makes the client open its socket again, as if reading had failed. *)
Example bad_checksum_reopens :
  (fun s => if s is Going c then Some (c_open client3, c_open c) else None) <$>
    on_readable some_client (waking 1002 some_net 0) (Some (<[10%nat := 0]> short_frame)) false client3 = Some (Some (true, false)).
Proof. by vm_compute. Qed.

(** With a long name and a long identification the options that are asked for are written behind the packet. *)
Definition long_client : client_config_t :=
  mkccfg false false false false (option_string (DHCP_CLIENT_ID, replicate 255 65)) (Some (option_string (DHCP_HOST_NAME, replicate 32 65))) 2 [2; 0; 0; 0; 0; 5] 2 3 20.

Example requests_behind_packet : (exists p, init_request long_client DHCPDISCOVER = Some p) /\ discover_packet long_client 0x1234 0 = None.
Proof. split; [|by vm_compute]. destruct (init_request long_client DHCPDISCOVER) eqn:E; [by eexists|by vm_compute in E]. Qed.

(** A client that renews its lease at the user's command does not give it up when it is told to: neither the server nor
    the script hears of it. *)
Example release_unheard :
  (fun c => (state c, drop (length (events client4)) (events c))) <$> perform_release some_client some_net 7 (perform_renew client4) = Some (RELEASED, []).
Proof. by vm_compute. Qed.

(** Seven eighths of the lease of a reserved address, which has no end, come before its half. *)
Definition endless_ack : dhcpMessage := message (hardware some_client) [(DHCP_MESSAGE_TYPE, [DHCPACK]); (DHCP_LEASE_TIME, [255; 255; 255; 255])].

Example endless_lease_timers :
  (fun s => if s is Going c then (t1 c, t2 c) else (0, 0)) <$> on_ack some_client (waking 1002 some_net 0) endless_ack client3 = Some (0x7FFFFFFF, 0x1FFFFFFF).
Proof. by vm_compute. Qed.

End DhcpNetwork.
