(* ===== verification/DhcpConfig.v ===== *)
(** * progs.gpl/udhcpcd/files.c and dhcpd.c: the configuration of the DHCP server.

    The file of the configuration: its lines, the keywords and what their values mean, the options for the clients, the
    reserved addresses; and the server that starts with it.  Lines are C strings without their terminator.  What the
    resolver answers and what earlier lines have left in the buffer are inputs; [None] is undefined behaviour. *)
From Stdlib Require Import ZArith Lia Bool String.
From stdpp Require Import base tactics list option numbers functions.
From S2P Require Import Prelude Xmldb DhcpOptions DhcpPacket DhcpLeases DhcpServer.

Module DhcpConfig.
Import DhcpOptions DhcpPacket DhcpLeases DhcpServer.

(** ** Strings *)

Definition isspace : Z -> bool := Xmldb.isspace.

(** The text up to the first character that stops, and the text from there on. *)
Fixpoint split_at (stop : Z -> bool) (s : list Z) : list Z * list Z :=
  match s with
  | [] => ([], [])
  | c :: tl => if stop c then ([], s) else let '(a, b) := split_at stop tl in (c :: a, b)
  end.

Definition one_of (set : list Z) (c : Z) : bool := existsb (Z.eqb c) set.

(** [strtok]: the token, and the text from which the next call goes on. *)
Definition strtok (delims s : list Z) : option (list Z * list Z) :=
  match split_at (one_of delims) (eat (one_of delims) s) with
  | ([], _) => None
  | (w, r) => Some (w, tail r)
  end.

(** The sets of separators. *)
Definition BLANK : list Z := Eval cbv in [32; 9].
Definition BLANK_EQ : list Z := Eval cbv in [32; 9; 61].
Definition COMMA : list Z := Eval cbv in [44; 32; 9].
Definition COMMA_DASH : list Z := Eval cbv in [44; 32; 9; 47; 45].

(** The digits of [strtoul] with the base 0. *)
Definition digit_value (c : Z) : Z :=
  if isdigit c then c - 48 else if (97 <=? tolower c) && (tolower c <=? 122) then tolower c - 87 else 99.

Fixpoint number (base acc : Z) (s : list Z) : Z * list Z :=
  match s with
  | c :: tl => if digit_value c <? base then number base (acc * base + digit_value c) tl else (acc, s)
  | [] => (acc, [])
  end.

(** The sign, the digits and the rest, if there is a number. *)
Definition strto (s : list Z) : option (bool * Z * list Z) :=
  let t := eat isspace s in
  let '(neg, t) := match t with 45 :: r => (true, r) | 43 :: r => (false, r) | _ => (false, t) end in
  let '(base, t) :=
    match t with
    | 48 :: x :: d :: r => if (tolower x =? 120) && (digit_value d <? 16) then (16, d :: r) else (8, t)
    | 48 :: _ => (8, t)
    | _ => (10, t)
    end in
  match t with
  | c :: _ => if digit_value c <? base then let '(v, r) := number base 0 t in Some (neg, v, r) else None
  | [] => None
  end.

Definition ULONG_MAX : Z := 2 ^ 32 - 1.

(** [strtoul] and [strtol] of a machine with 32 bits: the value, and where the number ends. *)
Definition strtoul (s : list Z) : Z * list Z :=
  match strto s with
  | None => (0, s)
  | Some (neg, v, r) => (if ULONG_MAX <? v then ULONG_MAX else u32 (if neg then - v else v), r)
  end.
Definition strtol (s : list Z) : Z * list Z :=
  match strto s with
  | None => (0, s)
  | Some (neg, v, r) => (if neg then Z.max (- 2 ^ 31) (- v) else Z.min INT_MAX v, r)
  end.

(** [inet_aton]: up to four numbers with dots between them, of which the last takes the bytes that are left. *)
Fixpoint quad (dots : nat) (acc : Z) (s : list Z) : option Z :=
  match s with
  | [] => None
  | c :: _ =>
      if isdigit c then
        let '(v, r) := strtoul s in
        let last :=
          match r with
          | [] => true
          | x :: _ => isspace x
          end in
        match r, dots with
        | 46 :: r', S dots' => if 255 <? v then None else quad dots' (acc * 256 + v) r'
        | _, _ =>
            let size := 2 ^ (8 * (Z.of_nat dots + 1)) in
            if last && (v <? size) then Some (acc * size + v) else None
        end
      else None
  end.

Definition inet_aton `{Endian} (s : list Z) : option Z := htonl <$> quad 3 0 s.

(** ** Values *)

Section Config.
Context `{Endian}.

(** [gethostbyname]: the first address of a host. *)
Variable dns : list Z -> option Z.

Definition read_ip (line : list Z) : option Z := match inet_aton line with Some a => Some a | None => dns line end.

(** The value, and whether there was nothing behind it. *)
Definition read_u32 (line : list Z) : Z * bool := let '(v, r) := strtoul line in (v, match r with [] => true | _ => false end).

Definition str_yes : list Z := Eval cbv in cs "yes".
Definition str_no : list Z := Eval cbv in cs "no".

Definition read_yn (line : list Z) : option Z :=
  if strcasecmp str_yes line =? 0 then Some 1 else if strcasecmp str_no line =? 0 then Some 0 else None.

(** The entry of the table with a name: the last one, or [old] when there is none. *)
Definition named (old : option dhcp_option) (name : list Z) : option dhcp_option :=
  foldl (fun r o => if strcmp (o_name o) name =? 0 then Some o else r) old option_table.

Definition option_length (o : dhcp_option) : Z := nth (Z.to_nat (Z.land (o_flags o) TYPE_MASK)) option_lengths 0.

(** A value of an option as it is put into the buffer: [Unset] for the types the switch does not have; and the text from
    which [strtok] goes on. *)
Inductive value := Value (d : list Z) | Bad | Unset.

Definition checked (r : list Z) (d : list Z) : value := match r with [] => Value d | _ => Bad end.

Definition read_value (o : dhcp_option) (val rest : list Z) : value * list Z :=
  let t := Z.land (o_flags o) TYPE_MASK in
  if t =? OPTION_IP then (match read_ip val with Some a => Value (store 4 a) | None => Bad end, rest)
  else if t =? OPTION_IP_PAIR then
    match strtok COMMA_DASH rest with
    | None => (Bad, rest)
    | Some (val', rest) =>
        (match read_ip val with
         | None => Bad
         | Some a => match read_ip val' with Some b => Value (store 4 a ++ store 4 b) | None => Bad end
         end, rest)
    end
  else if t =? OPTION_STRING then (match val with [] => Bad | _ => Value (take 254 val) end, rest)
  else if t =? OPTION_BOOLEAN then (match read_yn val with Some b => Value [b] | None => Bad end, rest)
  else if t =? OPTION_U8 then (let '(v, r) := strtoul val in checked r [u8 v], rest)
  else if t =? OPTION_U16 then (let '(v, r) := strtoul val in checked r (store 2 (htons (u16 v))), rest)
  else if t =? OPTION_S16 then (let '(v, r) := strtol val in checked r (store 2 (htons (u16 v))), rest)
  else if t =? OPTION_U32 then (let '(v, r) := strtoul val in checked r (store 4 (htonl v)), rest)
  else if t =? OPTION_S32 then (let '(v, r) := strtol val in checked r (store 4 (htonl (u32 v))), rest)
  else (Unset, rest).

(** The loop of [read_opt].  The value of an option of at most one byte is the text behind its name, [behind_name]; of the others,
    the next word.  [retval] is what the last value has left. *)
Fixpoint opt_loop (fuel : nat) (o : dhcp_option) (behind_name rest : list Z) (retval : bool) (l : list (list Z)) : option (bool * list (list Z)) :=
  match fuel with
  | O => None
  | S fuel =>
      match (if 1 <? option_length o then strtok COMMA rest else Some (behind_name, rest)) with
      | None => Some (retval, l)
      | Some (val, rest) =>
          match read_value o val rest with
          | (Value d, rest) =>
              let l := attach_option l o d in
              if negb (Z.land (o_flags o) OPTION_LIST =? 0) then opt_loop fuel o behind_name rest true l else Some (true, l)
          | _ => Some (false, l)
          end
      end
  end.

(** The C string at the beginning of some bytes. *)
Definition string_at (bs : list Z) : option (list Z) := match split_at (Z.eqb 0) bs with (s, _ :: _) => Some s | _ => None end.

(** [read_opt]: [behind] are the bytes of the buffer behind the terminator of the line. *)
Definition read_opt (line behind : list Z) (l : list (list Z)) : option (bool * list (list Z)) :=
  match strtok BLANK_EQ line with
  | None => Some (false, l)
  | Some (opt, rest) =>
      match named None opt with
      | None => Some (false, l)
      | Some o =>
          val ← (if 1 <? option_length o then Some []
                 else if (length opt <? length line)%nat then Some (drop (S (length opt)) line) else string_at behind);
          opt_loop (S (length line)) o val rest false l
      end
  end.

(** ** Reserved addresses *)

(** A digit of a hardware address. *)
Definition hex_digit (c : Z) : option Z :=
  if isdigit c then Some (c - 48)
  else if (97 <=? c) && (c <=? 102) then Some (c - 87)
  else if (65 <=? c) && (c <=? 70) then Some (c - 55)
  else None.

Definition is_mark (c : Z) : bool := (c =? 58) || (c =? 45).

(** The loop of [read_haddr]: at most [n] bytes; the bytes that were stored. *)
Fixpoint haddr_loop (n : nat) (s : list Z) : list Z * bool :=
  match n, s with
  | O, [] => ([], true)
  | O, _ :: _ => ([], false)
  | S _, [] => ([], false)
  | S n, c :: s =>
      match hex_digit c with
      | None => ([], false)
      | Some hi =>
          let store_byte v s :=
            let '(bs, ok) := haddr_loop n (match s with x :: s' => if is_mark x then s' else s | [] => s end) in (v :: bs, ok) in
          match s with
          | [] => store_byte hi []
          | d :: s' =>
              match hex_digit d with
              | Some lo => store_byte (Z.lor (Z.shiftl hi 4) lo) s'
              | None => if is_mark d then store_byte hi s' else ([], false)
              end
          end
      end
  end.

(** [read_haddr]: what is stored in a field of zeros. *)
Definition read_haddr (line : list Z) : option (list Z * bool) :=
  '(w, _) ← strtok COMMA line;
  let '(bs, ok) := haddr_loop 6 w in
  Some (bs ++ replicate (16 - length bs) 0, ok).

(** [add_opt]: without a type of the switch the result is not initialised. *)
Definition add_opt (o : dhcp_option) (val rest : list Z) (l : list (list Z)) : option (list (list Z) * list Z) :=
  match read_value o val rest with
  | (Value d, rest) => Some (attach_option l o d, rest)
  | (Bad, rest) => Some (l, rest)
  | (Unset, _) => None
  end.

(** The words behind a reserved address: the name of an option and its value.  An unknown name stands for the option before. *)
Fixpoint static_opts (fuel : nat) (old : option dhcp_option) (rest : list Z) (l : list (list Z)) : option (list (list Z)) :=
  match fuel with
  | O => None
  | S fuel =>
      match strtok BLANK rest with
      | None => Some l
      | Some (name, rest) =>
          o ← named old name;
          '(val, rest) ← strtok COMMA rest;
          r ← add_opt o val rest l;
          static_opts fuel (Some o) (snd r) (fst r)
      end
  end.

(** [cpyact] for the option [code] of the server, unless there is one. *)
Definition copy_option (server own : list (list Z)) (code : Z) : list (list Z) :=
  match find_option own code with
  | Some _ => own
  | None =>
      match find_option server code with
      | Some k => if server !! k is Some d then insert_option own d else own
      | None => own
      end
  end.

(** The codes of [options[0]], [[2]], [[5]], [[11]] and [[19]]: mask, routers, name servers, domain, WINS servers. *)
Definition copied_codes : list Z := Eval cbv in omap (fun i => o_code <$> option_table !! i) [0; 2; 5; 11; 19]%nat.

Definition cpyopttostatic_leases (server own : list (list Z)) : list (list Z) := foldl (copy_option server) own copied_codes.

(** The buffer for a name, and the field it is copied to with [strcpy]. *)
Definition static_name (w : list Z) : option (list Z) :=
  if 64 <? zlen w then Some (take 63 w ++ [0])
  else if zlen w =? 64 then None
  else Some (w ++ replicate (64 - length w) 0).

(** [read_static]: [index] addresses have been read before. *)
Definition read_static (line : list Z) (opts : list (list Z)) (statics : list dhcpOfferedAddr) : option (bool * list dhcpOfferedAddr) :=
  if (MAX_STATIC_LEASES <=? length statics)%nat then Some (false, statics)
  else
    '(w, rest) ← strtok COMMA line;
    host ← static_name w;
    '(ip, rest) ← strtok COMMA_DASH rest;
    '(mac, rest) ← strtok COMMA_DASH rest;
    a ← read_ip ip;
    if 64 <=? zlen mac then None
    else
      own ← static_opts (S (length line)) None rest [];
      h ← read_haddr mac;
      Some (true, statics ++ [mklease (fst h) a 0xFFFFFFFF 0 host (cpyopttostatic_leases opts own)]).

(** ** Keywords *)

Inductive ip_var := V_start | V_end | V_siaddr.
Inductive str_var := V_interface | V_lease_file | V_pidfile | V_notify_file | V_sname | V_boot_file | V_dhcp_helper.
Inductive num_var := V_max_leases | V_auto_time | V_decline_time | V_conflict_time | V_offer_time | V_min_lease.
Inductive yn_var := V_remaining | V_force_bcast.

#[export] Instance ip_var_dec : EqDecision ip_var.
Proof. solve_decision. Defined.
#[export] Instance str_var_dec : EqDecision str_var.
Proof. solve_decision. Defined.
#[export] Instance num_var_dec : EqDecision num_var.
Proof. solve_decision. Defined.
#[export] Instance yn_var_dec : EqDecision yn_var.
Proof. solve_decision. Defined.

(** The members of [server_config] that the file sets, and the reserved addresses. *)
Record conf := mkconf {
  ips : ip_var -> Z; strs : str_var -> option (list Z); nums : num_var -> Z; yns : yn_var -> Z;
  opts : list (list Z); statics : list dhcpOfferedAddr
}.

Inductive handler := Read_ip (v : ip_var) | Read_str (v : str_var) | Read_u32 (v : num_var) | Read_yn (v : yn_var) | Read_opt | Read_static.

(** A call of the handler.  A number is stored even if there is something behind it. *)
Definition handle_value (h : handler) (line behind : list Z) (c : conf) : option (bool * conf) :=
  match h with
  | Read_ip v =>
      Some (match read_ip line with
            | Some a => (true, mkconf (<[v := a]> (ips c)) (strs c) (nums c) (yns c) (opts c) (statics c))
            | None => (false, c)
            end)
  | Read_str v => Some (true, mkconf (ips c) (<[v := Some line]> (strs c)) (nums c) (yns c) (opts c) (statics c))
  | Read_u32 v => let '(n, ok) := read_u32 line in Some (ok, mkconf (ips c) (strs c) (<[v := n]> (nums c)) (yns c) (opts c) (statics c))
  | Read_yn v =>
      Some (match read_yn line with
            | Some b => (true, mkconf (ips c) (strs c) (nums c) (<[v := b]> (yns c)) (opts c) (statics c))
            | None => (false, c)
            end)
  | Read_opt => r ← read_opt line behind (opts c); Some (fst r, mkconf (ips c) (strs c) (nums c) (yns c) (snd r) (statics c))
  | Read_static => r ← read_static line (opts c) (statics c); Some (fst r, mkconf (ips c) (strs c) (nums c) (yns c) (opts c) (snd r))
  end.

Record config_keyword := mkkw { keyword : list Z; kw_handler : handler; def : list Z }.

Definition keywords : list config_keyword := Eval cbv in
  map (fun x => mkkw (cs (fst (fst x))) (snd (fst x)) (cs (snd x)))
    [("start", Read_ip V_start, "192.168.0.20");
     ("end", Read_ip V_end, "192.168.0.254");
     ("interface", Read_str V_interface, "eth0");
     ("option", Read_opt, "");
     ("opt", Read_opt, "");
     ("max_leases", Read_u32 V_max_leases, "254");
     ("remaining", Read_yn V_remaining, "yes");
     ("auto_time", Read_u32 V_auto_time, "7200");
     ("decline_time", Read_u32 V_decline_time, "3600");
     ("conflict_time", Read_u32 V_conflict_time, "3600");
     ("offer_time", Read_u32 V_offer_time, "60");
     ("min_lease", Read_u32 V_min_lease, "60");
     ("lease_file", Read_str V_lease_file, "/var/lib/misc/udhcpd.leases");
     ("pidfile", Read_str V_pidfile, "/var/run/udhcpd.pid");
     ("notify_file", Read_str V_notify_file, "");
     ("siaddr", Read_ip V_siaddr, "0.0.0.0");
     ("sname", Read_str V_sname, "");
     ("boot_file", Read_str V_boot_file, "");
     ("dhcp_helper", Read_str V_dhcp_helper, "");
     ("static", Read_static, "");
     ("force_bcast", Read_yn V_force_bcast, "no")]%string.

(** ** The file *)

(** [server_config] is zero at first. *)
Definition zero_conf : conf := mkconf (fun _ => 0) (fun _ => None) (fun _ => 0) (fun _ => 0) [] [].

(** The call with the default; there is nothing behind a literal. *)
Definition set_default (k : config_keyword) (c : conf) : option conf := snd <$> handle_value (kw_handler k) (def k) [] c.

Fixpoint set_defaults (ks : list config_keyword) (c : conf) : option conf :=
  match ks with
  | [] => Some c
  | k :: ks => c ← (match def k with [] => Some c | _ => set_default k c end); set_defaults ks c
  end.

(** The keywords that are those of the line: the handler, and the default if it fails. *)
Fixpoint try_keywords (ks : list config_keyword) (token line behind : list Z) (c : conf) : option conf :=
  match ks with
  | [] => Some c
  | k :: ks =>
      c ← (if strcasecmp token (keyword k) =? 0 then
             '(ok, c) ← handle_value (kw_handler k) line behind c;
             if ok : bool then Some c else set_default k c
           else Some c);
      try_keywords ks token line behind c
  end.

(** The line without the white space at its end, and that white space. *)
Definition trim_end (s : list Z) : list Z * list Z := let r := rev s in let t := eat isspace r in (rev t, drop (length t) s).

(** The keyword of a line, its value, and the white space at the end; [None] for a line with nothing but one word. *)
Definition split_line (s : list Z) : option (list Z * list Z * list Z) :=
  match eat (one_of BLANK) s with
  | [] => None
  | t =>
      match split_at (one_of BLANK_EQ) t with
      | (_, []) => None
      | (token, _ :: r) => let '(line, white) := trim_end (eat (one_of BLANK_EQ) r) in Some (token, line, white)
      end
  end.

(** A line of the buffer, with the bytes behind its terminator. *)
Definition read_line (s behind : list Z) (c : conf) : option conf :=
  match split_line s with
  | None => Some c
  | Some (token, line, white) =>
      try_keywords keywords token line (match white with [] => behind | _ :: white => white ++ 0 :: behind end) c
  end.

Definition BUFFER : nat := 153.

(** [fgets]: what is read, and the rest of the file. *)
Definition fgets (file : list Z) : option (list Z * list Z) :=
  match file with
  | [] => None
  | _ =>
      let chunk := match split_at (Z.eqb 10) (take (BUFFER - 1) file) with (a, _ :: _) => a ++ [10] | (a, []) => a end in
      Some (chunk, drop (length chunk) file)
  end.

(** The line in the buffer, up to a newline or a zero. *)
Definition line_of (chunk : list Z) : list Z := fst (split_at (fun c => (c =? 10) || (c =? 0)) chunk).

Variable stale : nat -> list Z.

Fixpoint read_lines (fuel : nat) (k : nat) (file : list Z) (c : conf) : option conf :=
  match fuel with
  | O => None
  | S fuel =>
      match fgets file with
      | None => Some c
      | Some (chunk, file) =>
          let s := line_of chunk in
          c ← read_line s (drop (S (length s)) (chunk ++ 0 :: stale k)) c;
          read_lines fuel (S k) file c
      end
  end.

(** [read_config]: [None] for a file that cannot be opened. *)
Definition read_config (file : option (list Z)) : option conf :=
  c ← set_defaults keywords zero_conf;
  match file with
  | None => Some c
  | Some bs => read_lines (S (length bs)) 0 bs c
  end.

(** ** The start of the server *)

Definition LEASE_TIME : Z := 60 * 60 * 24 * 10.

(** The first four bytes of an option of the configuration. *)
Definition option_value (l : list (list Z)) (code : Z) : option (option Z) :=
  match find_option l code with
  | None => Some None
  | Some k => d ← l !! k; x ← word4 (drop 2 d); Some (Some x)
  end.

(** The configuration, before the interface is asked; [fopen] gets the name of the file of leases. *)
Definition configure (c : conf) : option server_config_t :=
  t ← option_value (opts c) DHCP_LEASE_TIME;
  m ← option_value (opts c) DHCP_SUBNET;
  name ← strs c V_lease_file;
  Some (mkcfg 0 (ips c V_start) (ips c V_end) (opts c) 0
          (match t with Some x => ntohl x | None => LEASE_TIME end)
          (Z.to_nat (nums c V_max_leases)) (negb (yns c V_remaining =? 0)) (nums c V_decline_time) (nums c V_offer_time) (nums c V_min_lease)
          (ips c V_siaddr) (strs c V_sname) (strs c V_boot_file)
          (match m with Some x => not32 (ntohl x) | None => 0xff end) (negb (yns c V_force_bcast =? 0))
          name (strs c V_notify_file) (strs c V_dhcp_helper)).

Definition set_interface (server ifindex : Z) (cfg : server_config_t) : server_config_t :=
  let '(mkcfg _ a b o _ l n r d f m s sn bf k fb ln nf h) := cfg in mkcfg server a b o ifindex l n r d f m s sn bf k fb ln nf h.

(** [sizeof(ifr.ifr_name)] *)
Definition IFNAMSIZ : Z := 16.

(** The address and the index of an interface, if the socket can be opened and the requests succeed: what they answer is an input. *)
Definition read_interface (name : list Z) (socket_ok : bool) (answer : option (Z * Z)) : option (option (Z * Z)) :=
  if socket_ok then if zlen name <? IFNAMSIZ then Some answer else None else Some None.

(** [malloc] of a table and [memset]; the size is computed with 32 bits, and a table that is larger than its block is left at the first walk over
    it. *)
Definition alloc_table (memory : Z -> bool) (n : nat) : option (list dhcpOfferedAddr) :=
  let size := Z.of_nat LEASE_SIZE * Z.of_nat n in
  if memory (u32 size) then if size <? 2 ^ 32 then Some (replicate n zero_lease) else None else None.

Inductive begun := Exited (code : Z) | Begun (cfg : server_config_t) (st : dhcpd).

(** The configuration and the tables with which the loop of [main] begins, or the exit.  What [malloc] and the interface answer are
    inputs; [static_leases] are the addresses that have been read, in a table of [MAX_STATIC_LEASES]. *)
Definition start_server (file : option (list Z)) (lease_file : list Z) (memory : Z -> bool) (socket_ok : bool) (answer : option (Z * Z)) (e : env) : option begun :=
  _ ← alloc_table memory MAX_STATIC_LEASES;
  c ← read_config file;
  cfg ← configure c;
  ls ← alloc_table memory (max_leases cfg);
  let st := read_leases cfg (now e) lease_file (mkd ls (statics c) lease_file []) in
  st ← write_leases cfg e st;
  name ← strs c V_interface;
  r ← read_interface name socket_ok answer;
  match r with
  | None => Some (Exited 1)
  | Some (server, ifindex) => Some (Begun (set_interface server ifindex cfg) st)
  end.

End Config.
End DhcpConfig.
