(* ===== verification/DhcpConfigSafety.v ===== *)
(** * Every file configures the DHCP server.

    Whatever the lines of the configuration are, they are read without undefined behaviour, as long as they fit into the
    buffer and the reserved addresses are complete; what is read is a configuration with which the server serves every
    message. *)
From Stdlib Require Import ZArith Lia Bool String.
From stdpp Require Import base tactics list option numbers functions.
From S2P Require Import Prelude DhcpOptions DhcpPacket DhcpLeases DhcpServer DhcpReplies DhcpConfig.

Module DhcpConfigSafety.
Import DhcpOptions DhcpPacket DhcpLeases DhcpServer DhcpReplies.
Import DhcpConfig.

(** ** Strings *)

Lemma split_at_app stop s : fst (split_at stop s) ++ snd (split_at stop s) = s.
Proof. induction s as [|c s IH]; [done|]. cbn [split_at]. destruct (stop c); [done|]. destruct (split_at stop s) as [a b]. cbn in *. by rewrite IH. Qed.

Lemma eat_rest p s : exists w, s = w ++ eat p s.
Proof. induction s as [|c s [w IH]]; [by exists []|]. cbn [eat]. destruct (p c); [|by exists []]. exists (c :: w). cbn. by rewrite <- IH. Qed.

Section Parts.
Context (P : Z -> Prop).

Lemma eat_Forall p s : Forall P s -> Forall P (eat p s).
Proof. destruct (eat_rest p s) as [w E]. rewrite E at 1. rewrite Forall_app. tauto. Qed.

Lemma split_at_Forall stop s : Forall P s -> Forall P (fst (split_at stop s)) /\ Forall P (snd (split_at stop s)).
Proof. intros Hs. rewrite <- (split_at_app stop s) in Hs. by apply Forall_app in Hs. Qed.

Lemma strtok_Forall d s w r : Forall P s -> strtok d s = Some (w, r) -> Forall P w /\ Forall P r /\ w <> [].
Proof.
  intros Hs E. unfold strtok in E. pose proof (split_at_Forall (one_of d) _ (eat_Forall (one_of d) s Hs)) as [Ha Hb].
  destruct (split_at _ _) as [[|x a] b]; [done|]. injection E as <- <-. cbn [fst snd] in *. split_and!; [done| |done]. by destruct Hb.
Qed.

End Parts.

Lemma split_at_length stop s : (length (fst (split_at stop s)) + length (snd (split_at stop s)) = length s)%nat.
Proof. rewrite <- length_app. by rewrite split_at_app. Qed.

Lemma split_at_stops s : 0 ∈ s -> snd (split_at (Z.eqb 0) s) <> [].
Proof.
  induction s as [|c s IH]; [by intros []%elem_of_nil|]. cbn [split_at]. destruct (Z.eqb_spec 0 c) as [|Hc]; [done|]. intros [Hx|Hs]%elem_of_cons; [congruence|].
  specialize (IH Hs). by destruct (split_at (Z.eqb 0) s).
Qed.

(** Each word shortens the text. *)
Lemma strtok_shorter d s w r : strtok d s = Some (w, r) -> (length r < length s)%nat.
Proof.
  unfold strtok. pose proof (split_at_length (one_of d) (eat (one_of d) s)) as H. pose proof (length_eat (one_of d) s).
  destruct (split_at _ _) as [[|x a] b]; [done|]. intros [= <- <-]. cbn [fst snd length] in H. destruct b; cbn [tail length] in *; lia.
Qed.

(** ** Numbers *)

Lemma digit_value_pos c : 0 <= digit_value c.
Proof. unfold digit_value, isdigit. destruct (_ && _) eqn:E; [bprop; lia|]. destruct ((97 <=? _) && _) eqn:E2; [bprop; lia|lia]. Qed.

Lemma number_pos base s : forall acc, 0 <= base -> 0 <= acc -> 0 <= fst (number base acc s).
Proof.
  induction s as [|c s IH]; intros acc Hb Ha; [done|]. cbn [number]. destruct (_ <? _); [|done]. apply IH; [done|]. pose proof (digit_value_pos c). nia.
Qed.

Lemma strto_pos s neg v r : strto s = Some (neg, v, r) -> 0 <= v.
Proof.
  unfold strto. destruct (match eat isspace s with 45 :: r => _ | _ => _ end) as [neg' t]. 
  set (x := match t with 48 :: x :: d :: r => _ | _ => _ end). assert (0 <= fst x) as Hx.
  { unfold x. repeat (case_match; cbn; try lia). }
  destruct x as [base t']. destruct t' as [|c t']; [done|]. destruct (_ <? _); [|done]. pose proof (number_pos base (c :: t') 0 Hx ltac:(lia)) as Hn.
  destruct (number base 0 (c :: t')) as [v' r']. intros [= _ <- _]. exact Hn.
Qed.

Lemma strtoul_word s : is_word 4 (fst (strtoul s)).
Proof.
  unfold strtoul, is_word, ULONG_MAX. destruct (strto s) as [[[neg v] r]|] eqn:E; [|done]. cbn [fst]. apply strto_pos in E. 
  destruct (Z.ltb_spec (2 ^ 32 - 1) v); [done|]. apply Z.mod_pos_bound. lia.
Qed.

Lemma quad_range dots : forall acc s x, 0 <= acc -> quad dots acc s = Some x -> 0 <= x < (acc + 1) * 2 ^ (8 * (Z.of_nat dots + 1)).
Proof.
  induction dots as [|dots IH]; intros acc s x Ha E; (destruct s as [|c s]; [done|]); cbn [quad] in E; (destruct (isdigit c); [|done]);
    pose proof (strtoul_word (c :: s)) as Hv; destruct (strtoul (c :: s)) as [v r]; cbn [fst] in Hv; unfold is_word in Hv.
  - assert (0 <= acc * 2 ^ (8 * (Z.of_nat 0 + 1)) + v /\ x = acc * 2 ^ (8 * (Z.of_nat 0 + 1)) + v /\ v < 2 ^ (8 * (Z.of_nat 0 + 1))) as (Hx & -> & Hlt).
    { destruct r as [|y r']; [|destruct (decide (y = 46)) as [->|]]; repeat (case_match; try done); injection E as <-; bprop; lia. }
    lia.
  - set (size := 2 ^ (8 * (Z.of_nat (S dots) + 1))) in *. assert (size = 256 * 2 ^ (8 * (Z.of_nat dots + 1))) as Hsize.
    { unfold size. replace (8 * (Z.of_nat (S dots) + 1)) with (8 + 8 * (Z.of_nat dots + 1)) by lia. by rewrite Z.pow_add_r by lia. }
    assert ((exists r', 0 <= v <= 255 /\ quad dots (acc * 256 + v) r' = Some x) \/ (x = acc * size + v /\ v < size)) as [(r' & Hv' & Hq)|[-> Hlt]].
    { destruct r as [|y r']; [right|].
      - cbn [andb] in E. destruct (Z.ltb_spec v size); [|done]. by injection E as <-.
      - destruct (decide (y = 46)) as [->|].
        + left. exists r'. destruct (Z.ltb_spec 255 v); [done|]. split; [lia|done].
        + right. assert ((if isspace y && (v <? size) then Some (acc * size + v) else None) = Some x) as E' by (revert E; repeat (case_match; try done)).
          destruct (isspace y); [|done]. cbn [andb] in E'. destruct (Z.ltb_spec v size); [|done]. by injection E' as <-. }
    + apply IH in Hq; [|lia]. assert (0 < 2 ^ (8 * (Z.of_nat dots + 1))) by lia. nia.
    + nia.
Qed.

Section Safety.
Context `{Endian} (dns : list Z -> option Z).

(** The resolver answers with addresses of four bytes. *)
Hypothesis dns_word : forall s a, dns s = Some a -> is_word 4 a.

Lemma read_ip_word s a : read_ip dns s = Some a -> is_word 4 a.
Proof using dns_word.
  unfold read_ip, inet_aton. destruct (quad 3 0 s) as [x|] eqn:E; cbn; [|apply dns_word]. intros [= <-]. apply htonl_bound.
Qed.

(** ** Options *)

(** The entries of the table: codes that are in use, and the two options that the server reads itself have four bytes. *)
Definition entry_ok (o : dhcp_option) : Prop :=
  o ∈ option_table /\ (is_byte (o_code o) /\ o_code o <> DHCP_PADDING /\ o_code o <> DHCP_END /\ o_code o <> DHCP_OPTION_OVER) /\
  (o_code o = DHCP_LEASE_TIME -> Z.land (o_flags o) TYPE_MASK = OPTION_U32) /\ (o_code o = DHCP_SUBNET -> Z.land (o_flags o) TYPE_MASK = OPTION_IP) /\
  (Z.land (o_flags o) OPTION_LIST <> 0 -> 1 < option_length o \/ Z.land (o_flags o) TYPE_MASK = OPTION_121 \/ Z.land (o_flags o) TYPE_MASK = OPTION_249).

Lemma table_entries : Forall entry_ok option_table.
Proof using Type.
  apply List.Forall_forall. intros o Ho. split; [by apply list_elem_of_In|]. revert o Ho. apply List.Forall_forall. unfold option_table. repeat (constructor; [split_and!; try done; vm_compute; auto|]). constructor.
Qed.

Lemma named_entry old name o : from_option entry_ok True old -> named old name = Some o -> entry_ok o.
Proof using Type.
  unfold named. intros Ho. assert (forall l old, from_option entry_ok True old -> Forall entry_ok l ->
    forall o, foldl (fun r o => if strcmp (o_name o) name =? 0 then Some o else r) old l = Some o -> entry_ok o) as Hl.
  { clear old o Ho. induction l as [|x l IH]; intros old Ho Hl o E; cbn [foldl] in E; [by subst old|]. apply Forall_cons_iff in Hl as [Hx Hl].
    destruct (_ =? 0); eapply IH; [|done|exact E| |done|exact E]; done. }
  intros E. eapply Hl; [exact Ho|apply table_entries|exact E].
Qed.

(** A value that is read: bytes that fit into an option. *)
Definition value_ok (o : dhcp_option) (d : list Z) : Prop :=
  bytes d /\ zlen d <= 254 /\ (Z.land (o_flags o) TYPE_MASK = OPTION_U32 \/ Z.land (o_flags o) TYPE_MASK = OPTION_IP -> length d = 4%nat) /\ type_length o (zlen d).

Lemma checked_value r d d' : checked r d = Value d' -> d' = d.
Proof using Type. by destruct r; intros [= <-]. Qed.

Lemma one_value o (d : list Z) : rd option_lengths (Z.land (o_flags o) TYPE_MASK) = Some (zlen d) -> d <> [] -> type_length o (zlen d).
Proof using Type. intros E Hd. right. exists (zlen d), 1. destruct d; [done|]. split_and!; [done|cbn [length]; lia|lia|lia]. Qed.

Lemma store_ok o n x : (0 < n <= 4)%nat -> (Z.land (o_flags o) TYPE_MASK = OPTION_U32 \/ Z.land (o_flags o) TYPE_MASK = OPTION_IP -> n = 4%nat) ->
  rd option_lengths (Z.land (o_flags o) TYPE_MASK) = Some (Z.of_nat n) -> value_ok o (store n x).
Proof using Type.
  intros Hn Ht El. split_and!; [apply store_bytes|rewrite length_store; lia|by rewrite length_store|]. apply one_value; rewrite ?length_store; [done|].
  intros E. pose proof (length_store n x) as Hl. rewrite E in Hl. cbn in Hl. lia.
Qed.

(** Another type than the two. *)
Ltac other_type E := apply Z.eqb_eq in E; intros [Ht|Ht]; rewrite Ht in E; done.

Lemma read_value_ok o val rest d r : bytes val -> read_value dns o val rest = (Value d, r) -> value_ok o d.
Proof using Type.
  intros Hv. unfold read_value.
  destruct (Z.eqb_spec (Z.land (o_flags o) TYPE_MASK) OPTION_IP) as [E1|N1]; [destruct (read_ip dns val); [|done]; intros [= <- _]; apply store_ok; [lia|done|by rewrite E1]|].
  destruct (_ =? OPTION_IP_PAIR) eqn:E2.
  { destruct (strtok COMMA_DASH rest) as [[v' r']|]; [|done]. destruct (read_ip dns val); [|done]. destruct (read_ip dns v'); [|done]. intros [= <- _].
    split_and!; [apply Forall_app; split; apply store_bytes|rewrite length_app, !length_store; lia|other_type E2|]. apply Z.eqb_eq in E2. rewrite length_app, !length_store. right. exists 8, 1. by rewrite E2. }
  destruct (_ =? OPTION_STRING) eqn:E3.
  { destruct val as [|c val]; [done|]. intros [= <- _]. split_and!; [by apply (Forall_take is_byte 254 (c :: val))|change (zlen (take 254 (c :: val)) <= 254); rewrite length_take; lia|other_type E3|].
    left. by apply Z.eqb_eq. }
  destruct (_ =? OPTION_BOOLEAN) eqn:E4.
  { unfold read_yn. intros E. assert (d = [1] \/ d = [0]) as Hd by (destruct (strcasecmp str_yes val =? 0); [injection E; auto|]; destruct (strcasecmp str_no val =? 0); [injection E; auto|done]).
    split_and!; [destruct Hd as [-> | ->]; by repeat constructor|destruct Hd as [-> | ->]; cbn; lia|other_type E4|]. apply Z.eqb_eq in E4. destruct Hd as [-> | ->]; (apply one_value; [by rewrite E4|done]). }
  destruct (_ =? OPTION_U8) eqn:E5.
  { destruct (strtoul val) as [v x]. intros [= E _]. apply checked_value in E as ->. split_and!; [constructor; [apply u8_byte|constructor]|cbn; lia|other_type E5|].
    apply Z.eqb_eq in E5. apply one_value; [by rewrite E5|done]. }
  destruct (Z.eqb_spec (Z.land (o_flags o) TYPE_MASK) OPTION_U16) as [E6|N6]; [destruct (strtoul val) as [v x]; intros [= E _]; apply checked_value in E as ->; apply store_ok; [lia|by rewrite E6; intros [|]|by rewrite E6]|].
  destruct (Z.eqb_spec (Z.land (o_flags o) TYPE_MASK) OPTION_S16) as [E7|N7]; [destruct (strtol val) as [v x]; intros [= E _]; apply checked_value in E as ->; apply store_ok; [lia|by rewrite E7; intros [|]|by rewrite E7]|].
  destruct (Z.eqb_spec (Z.land (o_flags o) TYPE_MASK) OPTION_U32) as [E8|N8]; [destruct (strtoul val) as [v x]; intros [= E _]; apply checked_value in E as ->; apply store_ok; [lia|done|by rewrite E8]|].
  destruct (Z.eqb_spec (Z.land (o_flags o) TYPE_MASK) OPTION_S32) as [E9|N9]; [destruct (strtol val) as [v x]; intros [= E _]; apply checked_value in E as ->; apply store_ok; [lia|done|by rewrite E9]|done].
Qed.

(** Where [strtok] goes on. *)
Lemma read_value_rest o val rest v r : bytes rest -> read_value dns o val rest = (v, r) -> bytes r /\ (length r <= length rest)%nat.
Proof using Type.
  intros Hr. unfold read_value. destruct (_ =? OPTION_IP); [by intros [= _ <-]|]. destruct (_ =? OPTION_IP_PAIR).
  { destruct (strtok COMMA_DASH rest) as [[w r']|] eqn:E; [|by intros [= _ <-]]. intros [= _ <-]. pose proof (strtok_shorter _ _ _ _ E).
    apply (strtok_Forall is_byte) in E as (_ & ? & _); [|done]. split; [done|lia]. }
  repeat (destruct (_ =? _); [by intros [= _ <-]|]). by intros [= _ <-].
Qed.

(** A list of values has values of more than one byte. *)
Lemma short_not_list o val rest d r : entry_ok o -> (1 <? option_length o) = false -> negb (Z.land (o_flags o) OPTION_LIST =? 0) = true ->
  read_value dns o val rest = (Value d, r) -> False.
Proof using Type.
  intros (_ & _ & _ & _ & Hl) Hn HL. bprop. destruct (Hl ltac:(done)) as [|[E|E]]; [lia|..]; unfold read_value; by rewrite E.
Qed.

(** The lists of options: they can be put into packets, and the two that the server reads itself have four bytes. *)
Definition own_ok (d : list Z) : Prop := good_option d /\ (data_code d = DHCP_LEASE_TIME \/ data_code d = DHCP_SUBNET -> (6 <= length d)%nat).
Definition list_ok (l : list (list Z)) : Prop := Forall own_ok l.

Lemma insert_ok l d : list_ok l -> own_ok d -> list_ok (insert_option l d).
Proof using Type. intros Hl Hd. induction Hl as [|x l Hx Hl IH]; cbn [insert_option]; [constructor; [exact Hd|constructor]|]. destruct (_ <? _).
  - by constructor.
  - constructor; [exact Hd|by constructor].
Qed.

(** The option that is found has the code. *)
Lemma find_loop_at l code : forall k i, find_loop l code i = Some k -> exists d, l !! (k - i)%nat = Some d /\ data_code d = code /\ (i <= k)%nat.
Proof using Type.
  induction l as [|d l IH]; intros k i; cbn [find_loop]; [done|]. destruct (_ <? _).
  - intros E. destruct (IH _ _ E) as (x & Hx & Hc & Hk). exists x. split_and!; [|done|lia]. replace (k - i)%nat with (S (k - S i)) by lia. done.
  - destruct (Z.eqb_spec (data_code d) code); [|done]. intros [= <-]. exists d. rewrite Nat.sub_diag. by split_and!.
Qed.

(** More values of the type. *)
Lemma type_length_add o n m : type_length o n -> type_length o m -> type_length o (n + m).
Proof using Type.
  intros [Hs|(a & k & E & Ha & Hk & ->)]; [by left|]. intros [Hs|(a' & k' & E' & _ & Hk' & ->)]; [by left|]. right. exists a, (k + k'). rewrite E in E'. injection E' as <-.
  split_and!; [done|done|lia|lia].
Qed.

Lemma attach_good l o d : list_ok l -> entry_ok o -> value_ok o d -> list_ok (attach_option l o d).
Proof using Type.
  intros Hl (Hin & Hc & H1 & H2 & _) (Hb & Hn & Hw & Htl). unfold attach_option. destruct (find_option l (o_code o)) as [k|] eqn:Ef.
  - destruct (negb _); [|done]. apply Forall_alter; [done|]. intros x Hk [([c bs] & -> & (O1 & O2 & O3) & Hsh) Hx]. cbn [fst snd option_string data_len data_code nth drop].
    destruct (Z.leb_spec (zlen bs + zlen d) 255); [|split; [by exists (c, bs)|done]]. rewrite drop_0. split.
    + exists (c, bs ++ d). split; [unfold option_string; cbn [fst snd]; by rewrite length_app, Nat2Z.inj_add|]. split.
      { split; [exact O1|]. cbn [fst snd] in *. rewrite length_app. split; [lia|by apply Forall_app]. }
      apply find_loop_at in Ef as (y & Hy & Hcy & _). rewrite Nat.sub_0_r in Hy. rewrite Hy in Hk. injection Hk as ->. cbn in Hcy.
      assert (c = o_code o) as ->. { destruct O1 as [Hcb _], Hc as [Hob _]. cbn in Hcb. unfold is_byte, schar in *. destruct (Z.ltb_spec (o_code o) 128); lia. }
      apply shaped_by; [done|]. rewrite length_app, Nat2Z.inj_add. apply type_length_add; [by apply (Hsh o)|done].
    + intros Hcode. specialize (Hx Hcode). cbn [length] in *. rewrite length_app. cbn in Hx. lia.
  - apply insert_ok; [done|]. assert (u8 (zlen d) = zlen d) as -> by (apply Z.mod_small; lia). split.
    + exists (o_code o, d). split; [done|]. split; [split_and!; try done; try tauto; cbn [snd]; lia|by apply shaped_by].
    + cbn [data_code nth]. intros Hcode. cbn [length]. rewrite Hw; [lia|]. destruct Hcode; auto.
Qed.

Lemma opt_loop_ok o val : entry_ok o -> bytes val -> forall fuel rest rv l, bytes rest -> list_ok l -> (length rest < fuel)%nat ->
  exists ok l', opt_loop dns fuel o val rest rv l = Some (ok, l') /\ list_ok l'.
Proof using Type.
  intros Ho Hv. induction fuel as [|fuel IH]; intros rest rv l Hr Hl Hf; [lia|]. cbn [opt_loop].
  destruct (1 <? option_length o) eqn:Elen.
  - destruct (strtok COMMA rest) as [[w r]|] eqn:E; [|by eexists _, _]. pose proof (strtok_shorter _ _ _ _ E) as Hs. apply (strtok_Forall is_byte) in E as (Hw & Hr' & _); [|done].
    destruct (read_value dns o w r) as [[d| |] r'] eqn:Ev; [|by eexists _, _|by eexists _, _]. pose proof (read_value_ok _ _ _ _ _ Hw Ev) as Hd.
    destruct (negb _); [|by eexists _, _; split; [|by apply attach_good]]. destruct (read_value_rest _ _ _ _ _ Hr' Ev) as [Hb' Hl'].
    apply IH; [done|by apply attach_good|lia].
  - destruct (read_value dns o val rest) as [[d| |] r'] eqn:Ev; [|by eexists _, _|by eexists _, _]. pose proof (read_value_ok _ _ _ _ _ Hv Ev) as Hd.
    destruct (negb _) eqn:El; [|by eexists _, _; split; [|by apply attach_good]]. exfalso. by eapply short_not_list.
Qed.

Lemma read_opt_ok line behind l : bytes line -> 0 ∈ behind -> bytes behind -> list_ok l -> exists ok l', read_opt dns line behind l = Some (ok, l') /\ list_ok l'.
Proof using Type.
  intros Hl H0 Hb Hok. unfold read_opt. destruct (strtok BLANK_EQ line) as [[opt rest]|] eqn:E; [|by eexists _, _]. pose proof (strtok_shorter _ _ _ _ E) as Hs.
  apply (strtok_Forall is_byte) in E as (_ & Hr & _); [|done]. destruct (named None opt) as [o|] eqn:En; [|by eexists _, _]. apply named_entry in En; [|done].
  assert (exists val, (if 1 <? option_length o then Some [] else if (length opt <? length line)%nat then Some (drop (S (length opt)) line) else string_at behind) = Some val /\ bytes val)
    as (val & -> & Hv).
  { destruct (_ <? _); [by exists []; split; [|constructor]|]. destruct (_ <? _)%nat; [eexists; split; [done|by apply Forall_drop]|]. unfold string_at.
    pose proof (split_at_Forall is_byte (Z.eqb 0) behind Hb) as [Hf _]. pose proof (split_at_stops behind H0) as Hst. destruct (split_at (Z.eqb 0) behind) as [a [|x b]]; [done|]. by exists a. }
  cbn [mbind option_bind]. apply opt_loop_ok; try done. lia.
Qed.

(** ** Reserved addresses *)

(** A word without separators. *)
Definition plain (set w : list Z) : Prop := w <> [] /\ Forall (fun c => one_of set c = false) w.

Lemma eat_plain set w r : plain set w -> eat (one_of set) (w ++ r) = w ++ r.
Proof using Type. intros [Hn Hw]. destruct Hw as [|c w Hc _]; [done|]. cbn [app eat]. by rewrite Hc. Qed.

Lemma split_plain set w x r : Forall (fun c => one_of set c = false) w -> one_of set x = true -> split_at (one_of set) (w ++ x :: r) = (w, x :: r).
Proof using Type. induction 1 as [|c w Hc _ IH]; intros Hx; cbn [app split_at]; [by rewrite Hx|]. by rewrite Hc, IH. Qed.

Lemma split_plain_end set w : Forall (fun c => one_of set c = false) w -> split_at (one_of set) w = (w, []).
Proof using Type. induction 1 as [|c w Hc _ IH]; cbn [split_at]; [done|]. by rewrite Hc, IH. Qed.

Lemma strtok_plain set w x r : plain set w -> one_of set x = true -> strtok set (w ++ x :: r) = Some (w, r).
Proof using Type. intros Hw Hx. unfold strtok. rewrite eat_plain by done. rewrite split_plain by (try done; apply Hw). destruct w; [by destruct Hw|done]. Qed.

Lemma strtok_plain_end set w : plain set w -> strtok set w = Some (w, []).
Proof using Type.
  intros Hw. unfold strtok. pose proof (eat_plain set w [] Hw) as E. rewrite app_nil_r in E. rewrite E, split_plain_end by apply Hw. destruct w; [by destruct Hw|done].
Qed.

(** A reserved address that is complete: a name that fits, an address, a hardware address; one blank between them. *)
Definition static_ok (line : list Z) : Prop :=
  exists name ip mac, line = name ++ 32 :: ip ++ 32 :: mac /\ plain COMMA name /\ plain COMMA_DASH ip /\ plain COMMA_DASH mac /\
    zlen name <> 64 /\ zlen mac < 64 /\ is_Some (read_ip dns ip).

Definition lease_ok (l : dhcpOfferedAddr) : Prop := is_word 4 (l_yiaddr l) /\ list_ok (l_options l).

Lemma copy_option_ok server own code : list_ok server -> list_ok own -> list_ok (copy_option server own code).
Proof using Type.
  intros Hs Ho. unfold copy_option. destruct (find_option own code); [done|]. destruct (find_option server code) as [k|]; [|done].
  destruct (server !! k) as [d|] eqn:E; [|done]. apply insert_ok; [done|]. exact (Forall_lookup_1 _ _ _ _ Hs E).
Qed.

Lemma copied_ok server : list_ok server -> forall own, list_ok own -> list_ok (cpyopttostatic_leases server own).
Proof using Type.
  intros Hs. unfold cpyopttostatic_leases. induction copied_codes as [|c l IH]; intros own Ho; [done|]. cbn [foldl]. by apply IH, copy_option_ok.
Qed.

Lemma comma_plain w : plain COMMA_DASH w -> plain COMMA w.
Proof using Type.
  intros [Hn Hw]. split; [done|]. eapply List.Forall_impl; [|exact Hw]. intros c. unfold one_of, COMMA, COMMA_DASH. cbn [existsb]. rewrite !orb_false_iff. tauto.
Qed.

Lemma read_static_words name ip mac l st a : plain COMMA name -> plain COMMA_DASH ip -> plain COMMA_DASH mac -> zlen name <> 64 -> zlen mac < 64 -> read_ip dns ip = Some a ->
  (length st < MAX_STATIC_LEASES)%nat ->
  exists h host, read_static dns (name ++ 32 :: ip ++ 32 :: mac) l st = Some (true, st ++ [mklease h a 0xFFFFFFFF 0 host (cpyopttostatic_leases l [])]) /\
    fst <$> read_haddr mac = Some h /\ static_name name = Some host.
Proof using Type.
  intros Hn Hi Hm H64 Hlen Ha Hst. unfold read_static. rewrite (proj2 (Nat.leb_gt _ _) Hst). rewrite strtok_plain by done. cbn [mbind option_bind].
  assert (exists host, static_name name = Some host) as [host Hh].
  { unfold static_name. destruct (64 <? zlen name); [by eexists|]. rewrite (proj2 (Z.eqb_neq _ _) H64). by eexists. }
  rewrite Hh. cbn [mbind option_bind]. rewrite strtok_plain by done. cbn [mbind option_bind]. rewrite strtok_plain_end by done. cbn [mbind option_bind]. rewrite Ha. cbn [mbind option_bind].
  rewrite (proj2 (Z.leb_gt _ _) Hlen). change (static_opts dns (S (length (name ++ 32 :: ip ++ 32 :: mac))) None [] []) with (Some ([] : list (list Z))). cbn [mbind option_bind].
  unfold read_haddr. rewrite strtok_plain_end by (by apply comma_plain). cbn [mbind option_bind]. destruct (haddr_loop 6 mac) as [bs ok]. by eexists _, _.
Qed.

Lemma read_static_ok line l st : static_ok line -> list_ok l -> Forall lease_ok st -> exists ok st', read_static dns line l st = Some (ok, st') /\ Forall lease_ok st' /\
  (ok = false -> (MAX_STATIC_LEASES <= length st')%nat).
Proof using dns_word.
  intros (name & ip & mac & -> & Hn & Hi & Hm & H64 & Hlen & [a Ha]) Hl Hst. destruct (Nat.le_gt_cases MAX_STATIC_LEASES (length st)) as [Hfull|Hroom].
  - unfold read_static. rewrite (proj2 (Nat.leb_le _ _) Hfull). by eexists _, _.
  - destruct (read_static_words name ip mac l st a) as (h & host & -> & _); try done. eexists _, _. split; [done|]. split; [|done]. apply Forall_app. split; [done|].
    constructor; [|constructor]. split; [by apply read_ip_word in Ha|]. apply copied_ok; [done|constructor].
Qed.

(** ** Lines *)

Record conf_ok (c : conf) : Prop := {
  ok_ips : forall v, is_word 4 (ips c v);
  ok_strs : forall v s, strs c v = Some s -> bytes s;
  ok_nums : forall v, is_word 4 (nums c v);
  ok_opts : list_ok (opts c);
  ok_statics : Forall lease_ok (statics c)
}.

(** What is behind the line matters to options only. *)
Lemma handle_behind h line a b c : h <> Read_opt -> handle_value dns h line a c = handle_value dns h line b c.
Proof using Type. by destruct h. Qed.

Lemma handle_value_ok h line behind c : bytes line -> 0 ∈ behind -> bytes behind -> (h = Read_static -> static_ok line) -> conf_ok c ->
  exists ok c', handle_value dns h line behind c = Some (ok, c') /\ conf_ok c' /\ (h = Read_static -> ok = false -> (MAX_STATIC_LEASES <= length (statics c'))%nat).
Proof using dns_word.
  intros Hl H0 Hb Hst [C1 C2 C3 C4 C5]. destruct h as [v|v|v|v| |]; cbn [handle_value].
  - destruct (read_ip dns line) as [a|] eqn:E; (eexists _, _; split; [reflexivity|]; split; [|done]); [|by constructor]. constructor; try done. cbn [ips]. intros x.
    destruct (decide (v = x)) as [->|]; [rewrite fn_lookup_insert; by apply read_ip_word in E|by rewrite fn_lookup_insert_ne].
  - eexists _, _. split; [reflexivity|]. split; [|done]. constructor; try done. cbn [strs]. intros x s. destruct (decide (v = x)) as [->|]; [rewrite fn_lookup_insert; by intros [= <-]|].
    rewrite fn_lookup_insert_ne by done. apply C2.
  - pose proof (strtoul_word line) as Hw. unfold read_u32. destruct (strtoul line) as [n r]. eexists _, _. split; [reflexivity|]. split; [|done]. constructor; try done. cbn [nums]. intros x.
    destruct (decide (v = x)) as [->|]; [by rewrite fn_lookup_insert|by rewrite fn_lookup_insert_ne].
  - destruct (read_yn line); (eexists _, _; split; [reflexivity|]; split; [|done]); by constructor.
  - destruct (read_opt_ok line behind (opts c)) as (ok & l' & -> & Hok); try done. cbn [mbind option_bind fst snd]. eexists _, _. split; [reflexivity|]. split; [by constructor|done].
  - destruct (read_static_ok line (opts c) (statics c)) as (ok & st' & -> & Hok & Hfull); [auto|done|done|]. cbn [mbind option_bind fst snd]. eexists _, _.
    split; [reflexivity|]. split; [by constructor|]. intros _ ->. by apply Hfull.
Qed.

(** The defaults: options and reserved addresses have none. *)
Definition keyword_ok (k : config_keyword) : Prop := bytes (def k) /\ (kw_handler k = Read_opt \/ kw_handler k = Read_static -> def k = []).

Lemma keywords_ok : Forall keyword_ok keywords.
Proof using Type.
  unfold keywords. repeat (constructor; [split; [unfold is_byte; apply (bool_decide_unpack _); vm_compute; exact I|by intros [|]]|]). constructor.
Qed.

Lemma set_default_ok k c : keyword_ok k -> conf_ok c -> (kw_handler k = Read_static -> (MAX_STATIC_LEASES <= length (statics c))%nat) ->
  exists c', set_default dns k c = Some c' /\ conf_ok c'.
Proof using dns_word.
  intros [Hb He] Hc Hfull. unfold set_default. destruct (kw_handler k) as [v|v|v|v| |] eqn:Ek.
  1-4: destruct (handle_value_ok (kw_handler k) (def k) [0] c) as (ok & c' & E & Hc' & _); rewrite ?Ek in *; try done; [by left|by repeat constructor|];
    rewrite handle_behind with (b := [0]) by done; rewrite E; by exists c'.
  - rewrite He by auto. exists c. split; [by destruct c|done].
  - rewrite He by auto. cbn [handle_value]. unfold read_static. rewrite (proj2 (Nat.leb_le _ _)) by auto. exists c. split; [by destruct c|done].
Qed.

Lemma set_defaults_ok ks : Forall keyword_ok ks -> forall c, conf_ok c -> exists c', set_defaults dns ks c = Some c' /\ conf_ok c'.
Proof using dns_word.
  induction 1 as [|k ks Hk _ IH]; intros c Hc; cbn [set_defaults]; [by exists c|]. destruct (def k) as [|x d] eqn:Ed; [cbn [mbind option_bind]; by apply IH|].
  destruct (set_default_ok k c) as (c' & -> & Hc'); [done|done|intros E; pose proof (proj2 Hk (or_intror E)); congruence|]. cbn [mbind option_bind]. by apply IH.
Qed.

Lemma try_keywords_ok token line behind ks : Forall keyword_ok ks -> bytes line -> 0 ∈ behind -> bytes behind ->
  (forall k, k ∈ ks -> kw_handler k = Read_static -> strcasecmp token (keyword k) = 0 -> static_ok line) ->
  forall c, conf_ok c -> exists c', try_keywords dns ks token line behind c = Some c' /\ conf_ok c'.
Proof using dns_word.
  intros Hks Hl H0 Hb. induction Hks as [|k ks Hk _ IH]; intros Hst c Hc; cbn [try_keywords]; [by exists c|].
  assert (forall c, conf_ok c -> exists c', try_keywords dns ks token line behind c = Some c' /\ conf_ok c') as Hrest by (apply IH; intros k' Hk'; apply Hst; by right).
  destruct (Z.eqb_spec (strcasecmp token (keyword k)) 0) as [E|]; [|cbn [mbind option_bind]; by apply Hrest].
  destruct (handle_value_ok (kw_handler k) line behind c) as (ok & c1 & -> & Hc1 & Hfull); try done; [intros Eh; eapply Hst; [by left|done|done]|]. cbn [mbind option_bind].
  destruct ok; cbn [mbind option_bind]; [by apply Hrest|]. destruct (set_default_ok k c1) as (c2 & -> & Hc2); [done|done|auto|]. cbn [mbind option_bind]. by apply Hrest.
Qed.

Definition str_static : list Z := Eval cbv in cs "static".

(** A line of the file that fits into the buffer; if its keyword is that for reserved addresses it is complete. *)
Record line_ok (l : list Z) : Prop := {
  lo_bytes : bytes l /\ 10 ∉ l;
  lo_length : (length l < BUFFER - 1)%nat;
  lo_static : forall token line white, split_line (line_of l) = Some (token, line, white) -> strcasecmp token str_static = 0 -> static_ok line
}.

Lemma trim_end_spec s : let '(a, b) := trim_end s in s = a ++ b.
Proof using Type.
  unfold trim_end. destruct (eat_rest isspace (rev s)) as [w E]. set (t := eat isspace (rev s)) in *. assert (s = rev t ++ rev w) as Es.
  { rewrite <- (rev_involutive s), E, rev_app_distr. done. }
  rewrite Es at 2. rewrite drop_app_length' by (by rewrite length_rev). done.
Qed.

Lemma split_line_bytes s token line white : bytes s -> split_line s = Some (token, line, white) -> bytes line /\ bytes white.
Proof using Type.
  intros Hs. unfold split_line. pose proof (eat_Forall is_byte (one_of BLANK) s Hs) as Ht. destruct (eat (one_of BLANK) s) as [|c t]; [done|].
  pose proof (split_at_Forall is_byte (one_of BLANK_EQ) _ Ht) as [_ Hr]. destruct (split_at _ _) as [tk [|x r]]; [done|]. cbn [snd] in Hr. apply Forall_cons_iff in Hr as [_ Hr].
  pose proof (eat_Forall is_byte (one_of BLANK_EQ) r Hr) as Hl. pose proof (trim_end_spec (eat (one_of BLANK_EQ) r)) as E. destruct (trim_end _) as [a b]. rewrite E in Hl.
  apply Forall_app in Hl as [Ha Hb]. by intros [= <- <- <-].
Qed.

Lemma read_line_ok s behind c : bytes s -> 0 ∈ behind -> bytes behind ->
  (forall token line white, split_line s = Some (token, line, white) -> strcasecmp token str_static = 0 -> static_ok line) ->
  conf_ok c -> exists c', read_line dns s behind c = Some c' /\ conf_ok c'.
Proof using dns_word.
  intros Hs H0 Hb Hst Hc. unfold read_line. destruct (split_line s) as [[[token line] white]|] eqn:E; [|by exists c]. pose proof (split_line_bytes _ _ _ _ Hs E) as [Hl Hw].
  apply try_keywords_ok; [apply keywords_ok|done| | | |done].
  - destruct white as [|x w]; [done|]. apply elem_of_app. right. by left.
  - destruct Hw as [|x w Hx Hw]; [done|]. apply Forall_app. split; [done|]. by constructor.
  - intros k Hk Eh Es. eapply Hst; [done|]. rewrite <- Es. f_equal. revert Hk Eh. unfold keywords. rewrite !elem_of_cons. intros Hk. repeat (destruct Hk as [->|Hk]; [done|]). by apply elem_of_nil in Hk.
Qed.

(** ** Files *)

Definition file_of (ls : list (list Z)) : list Z := flat_map (fun l => l ++ [10]) ls.

Lemma split_newline l r : 10 ∉ l -> split_at (Z.eqb 10) (l ++ 10 :: r) = (l, 10 :: r).
Proof using Type.
  induction l as [|c l IH]; intros Hn; [done|]. rewrite elem_of_cons in Hn. cbn [app split_at]. destruct (Z.eqb_spec 10 c); [tauto|]. by rewrite IH by tauto.
Qed.

Lemma fgets_line l r : 10 ∉ l -> (length l < BUFFER - 1)%nat -> fgets (l ++ 10 :: r) = Some (l ++ [10], r).
Proof using Type.
  intros Hn Hl. unfold fgets. destruct (l ++ 10 :: r) as [|x y] eqn:E; [by destruct l|]. rewrite <- E. clear x y E.
  rewrite (take_app_ge l) by lia. destruct (BUFFER - 1 - length l)%nat as [|n] eqn:En; [lia|]. cbn [take]. rewrite split_newline by done.
  do 2 f_equal. rewrite (cons_middle 10 l r), (app_assoc l). by rewrite drop_app_length' by done.
Qed.

Lemma line_of_newline l : line_of (l ++ [10]) = line_of l.
Proof using Type.
  unfold line_of. induction l as [|c l IH]; [done|]. cbn [app split_at]. destruct (_ || _); [done|]. destruct (split_at _ (l ++ [10])), (split_at _ l). cbn in *. by rewrite IH.
Qed.

Lemma line_of_short l : (length (line_of l) <= length l)%nat.
Proof using Type. unfold line_of. pose proof (split_at_length (fun c => (c =? 10) || (c =? 0)) l). lia. Qed.

Context (stale : nat -> list Z).

(** What is left in the buffer are bytes. *)
Hypothesis stale_bytes : forall k, bytes (stale k).

Lemma read_lines_ok ls : Forall line_ok ls -> forall fuel k c, conf_ok c -> (length (file_of ls) < fuel)%nat ->
  exists c', read_lines dns stale fuel k (file_of ls) c = Some c' /\ conf_ok c'.
Proof using dns_word stale_bytes.
  induction 1 as [|l ls [[Lb Ln] Ll Ls] _ IH]; intros fuel k c Hc Hf; (destruct fuel as [|fuel]; [lia|]); cbn [read_lines]; [by exists c|].
  assert (file_of (l :: ls) = l ++ 10 :: file_of ls) as E by (unfold file_of; cbn [flat_map]; by rewrite <- app_assoc). rewrite E in *. rewrite fgets_line by done.
  rewrite line_of_newline. pose proof (line_of_short l) as Hs. set (s := line_of l) in *.
  assert (drop (S (length s)) ((l ++ [10]) ++ 0 :: stale k) = drop (S (length s)) (l ++ [10]) ++ 0 :: stale k) as -> by (rewrite drop_app_le; [done|rewrite length_app; cbn; lia]).
  destruct (read_line_ok s (drop (S (length s)) (l ++ [10]) ++ 0 :: stale k) c) as (c' & -> & Hc'); try done.
  - unfold s, line_of. by apply (split_at_Forall is_byte).
  - apply elem_of_app. right. by left.
  - apply Forall_app. split; [apply Forall_drop, Forall_app; split; [done|by repeat constructor]|by constructor].
  - cbn [mbind option_bind]. apply IH; [done|]. rewrite length_app in Hf. cbn [length] in Hf. lia.
Qed.

Lemma zero_conf_ok : conf_ok zero_conf.
Proof using Type. constructor; try done; constructor. Qed.

(** Every file with such lines is read. *)
Lemma read_config_ok ls : Forall line_ok ls -> exists c, read_config dns stale (Some (file_of ls)) = Some c /\ conf_ok c.
Proof using dns_word stale_bytes.
  intros Hls. unfold read_config. destruct (set_defaults_ok keywords keywords_ok zero_conf zero_conf_ok) as (c & -> & Hc). cbn [mbind option_bind].
  apply read_lines_ok; [done|done|lia].
Qed.

(** ** Names *)

(** A name that is set stays set. *)
Definition strs_kept (c c' : conf) : Prop := forall v, is_Some (strs c v) -> is_Some (strs c' v).

Lemma strs_kept_refl c : strs_kept c c.
Proof using Type. by intros v. Qed.

Lemma strs_kept_trans c1 c2 c3 : strs_kept c1 c2 -> strs_kept c2 c3 -> strs_kept c1 c3.
Proof using Type. intros H1 H2 v Hv. by apply H2, H1. Qed.

Lemma handle_value_strs h line behind c ok c' : handle_value dns h line behind c = Some (ok, c') -> strs_kept c c'.
Proof using Type.
  destruct h as [v|v|v|v| |]; cbn [handle_value]; intros E.
  - destruct (read_ip dns line); injection E as <- <-; exact (fun x Hx => Hx).
  - injection E as <- <-. intros x Hx. cbn [strs]. destruct (decide (v = x)) as [->|]; [rewrite fn_lookup_insert; by eexists|by rewrite fn_lookup_insert_ne].
  - destruct (read_u32 line). injection E as <- <-. exact (fun x Hx => Hx).
  - destruct (read_yn line); injection E as <- <-; exact (fun x Hx => Hx).
  - apply bind_Some in E as (r & _ & [= <- <-]). exact (fun x Hx => Hx).
  - apply bind_Some in E as (r & _ & [= <- <-]). exact (fun x Hx => Hx).
Qed.

Lemma set_default_strs k c c' : set_default dns k c = Some c' -> strs_kept c c'.
Proof using Type. unfold set_default. intros ([ok c1] & E & ->)%fmap_Some. cbn [snd]. by eapply handle_value_strs. Qed.

Lemma try_keywords_strs token line behind ks : forall c c', try_keywords dns ks token line behind c = Some c' -> strs_kept c c'.
Proof using Type.
  induction ks as [|k ks IH]; intros c c' E; cbn [try_keywords] in E; [injection E as <-; apply strs_kept_refl|]. apply bind_Some in E as (c1 & E1 & E).
  eapply strs_kept_trans; [|by apply IH]. destruct (_ =? 0); [|injection E1 as <-; apply strs_kept_refl]. apply bind_Some in E1 as ([ok c0] & E0 & E1). eapply strs_kept_trans; [by eapply handle_value_strs|].
  destruct ok; [injection E1 as <-; apply strs_kept_refl|by eapply set_default_strs].
Qed.

Lemma read_lines_strs fuel : forall k file c c', read_lines dns stale fuel k file c = Some c' -> strs_kept c c'.
Proof using Type.
  induction fuel as [|fuel IH]; intros k file c c' E; cbn [read_lines] in E; [done|]. destruct (fgets file) as [[chunk rest]|]; [|injection E as <-; apply strs_kept_refl].
  apply bind_Some in E as (c1 & E1 & E). eapply strs_kept_trans; [|by eapply IH]. unfold read_line in E1. destruct (split_line _) as [[[token line] white]|]; [|injection E1 as <-; apply strs_kept_refl].
  by eapply try_keywords_strs.
Qed.

(** Every configuration names its interface and its file of leases: they have defaults. *)
Lemma read_config_names file c : read_config dns stale file = Some c -> is_Some (strs c V_interface) /\ is_Some (strs c V_lease_file).
Proof using Type.
  unfold read_config. intros (c0 & E0 & E)%bind_Some. assert (is_Some (strs c0 V_interface) /\ is_Some (strs c0 V_lease_file)) as [H1 H2].
  { vm_compute in E0. injection E0 as <-. by split; eexists. }
  destruct file as [bs|]; [|injection E as <-; by split]. apply read_lines_strs in E. split; by apply E.
Qed.

(** ** The start of the server *)

Lemma load4_word bs : bytes bs -> is_word 4 (load (take 4 bs)).
Proof using Type.
  intros Hb. pose proof (load_bound (take 4 bs) ltac:(by apply Forall_take)) as [H0 H1]. split; [done|]. eapply Z.lt_le_trans; [exact H1|]. apply Z.pow_le_mono_r; [lia|]. rewrite length_take. lia.
Qed.

Lemma option_value_ok l code : list_ok l -> code = DHCP_LEASE_TIME \/ code = DHCP_SUBNET ->
  exists r, option_value l code = Some r /\ from_option (is_word 4) True r.
Proof using Type.
  intros Hl Hc. unfold option_value, find_option. assert (schar code = code) as -> by (by destruct Hc as [-> | ->]). destruct (find_loop l code 0) as [k|] eqn:E; [|by exists None].
  destruct (find_loop_at _ _ _ _ E) as (d & Hd & Hcode & _). rewrite Nat.sub_0_r in Hd. rewrite Hd. cbn [mbind option_bind]. destruct (Forall_lookup_1 _ _ _ _ Hl Hd) as [_ Hn].
  unfold word4. rewrite length_drop. rewrite (proj2 (Z.leb_le _ _)) by (assert (6 <= length d)%nat by (apply Hn; destruct Hc as [-> | ->]; auto); lia).
  eexists. split; [reflexivity|]. cbn [from_option]. destruct (Forall_lookup_1 _ _ _ _ Hl Hd) as [([c0 bs] & -> & (_ & _ & Hb) & _) _]. cbn [option_string fst snd drop] in *. rewrite drop_0. by apply load4_word.
Qed.

End Safety.
End DhcpConfigSafety.
