(* ===== verification/DhcpLoop.v ===== *)
(** * progs.gpl/udhcpcd/dhcpd.c: the loop of the server.

    Each turn waits for a packet, a signal or the time at which the leases are saved.  What the system answers in a turn is the
    input; [None] is undefined behaviour.  The build is the one of [DhcpServer]. *)
From Stdlib Require Import ZArith Lia Bool String.
From stdpp Require Import base tactics list option numbers.
From S2P Require Import Prelude XmldbFile DhcpOptions DhcpPacket DhcpLeases DhcpServer DhcpClient DhcpSafety DhcpReplies DhcpExchange.

Module DhcpLoop.
Import DhcpOptions DhcpPacket DhcpLeases DhcpServer DhcpSafety DhcpReplies DhcpExchange.
Import DhcpClient (SIGUSR1, SIGTERM).

(** The tables, whether the socket is open, and when the leases are to be saved, in the seconds of [get_uptime]. *)
Record loop := mkloop { tables : dhcpd; socket_open : bool; timeout_end : Z }.

(** How [select] returns: nothing is there in time, an error, or something is there, and whether it is a signal.  When a signal
    interrupts it, the set is as it was, and so the pipe of the signals is in it. *)
Inductive selected := Timed_out | Select_error | Interrupted | Ready (signal : bool).

(** What the system answers in a turn. *)
Record turn := mkturn {
  socket_opens : bool;                (* [listen_socket] *)
  uptime : Z;                         (* [get_uptime] before [select] *)
  select : selected;
  system : env;                       (* behind it: [get_uptime] and the rest *)
  clock : Z;                          (* [time(0)] *)
  signal : option Z;                  (* what is read from the pipe *)
  packet : option (list Z);           (* what is read from the socket *)
  interrupted : bool                  (* [errno == EINTR] when that fails *)
}.

Inductive outcome := Exit (code : Z) | Go (s : loop) (sent : list frame).

Section Loop.
Context `{Endian} (cfg : server_config_t) (auto_time : Z).

(** [tv.tv_sec], 32 bits with a sign. *)
Definition wait_time (s : loop) (t : turn) : Z := let d := u32 (timeout_end s - uptime t) in if d <? 2 ^ 31 then d else d - 2 ^ 32.

(** What [select] says, if it is asked. *)
Definition selects_as (s : loop) (t : turn) : selected :=
  if (auto_time =? 0) || (0 <? wait_time s t) then select t else Timed_out.

(** [get_packet] and the message. *)
Definition serve (s : loop) (t : turn) : option outcome :=
  x ← get_packet (packet t);
  if x.1 <? 0 then
    Some (Go (if (x.1 =? -1) && negb (interrupted t) then mkloop (tables s) false (timeout_end s) else s) [])
  else
    r ← handle cfg (tables s) (system t) x.2;
    Some (Go (mkloop (r.1.2) (socket_open s) (timeout_end s)) r.2).

Definition read_signal (s : loop) (t : turn) : option outcome :=
  match signal t with
  | None => Some (Go s [])
  | Some sig =>
      if sig =? SIGUSR1 then st ← write_leases cfg (system t) (tables s); Some (Go (mkloop st (socket_open s) (u32 (clock t + auto_time))) [])
      else if sig =? SIGTERM then Some (Exit 0)
      else serve s t
  end.

Definition loop_turn (s : loop) (t : turn) : option outcome :=
  if socket_open s || socket_opens t then
    let s := mkloop (tables s) true (timeout_end s) in
    match selects_as s t with
    | Timed_out => st ← write_leases cfg (system t) (tables s); Some (Go (mkloop st true (u32 (now (system t) + auto_time))) [])
    | Select_error => Some (Go s [])
    | Interrupted | Ready true => read_signal s t
    | Ready false => serve s t
    end
  else Some (Exit 0).

(** Turns one after the other, up to an exit: the state at the end, the exit code if there is one, what is sent. *)
Fixpoint turns (s : loop) (ts : list turn) : option (loop * option Z * list frame) :=
  match ts with
  | [] => Some (s, None, [])
  | t :: ts =>
      o ← loop_turn s t;
      match o with
      | Exit code => Some (s, Some code, [])
      | Go s fs => r ← turns s ts; Some (r.1, fs ++ r.2)
      end
  end.

(** ** The loop goes on *)

(** The message in a packet that is read. *)
Definition message_of (t : turn) : option (env * dhcpMessage) :=
  match get_packet (packet t) with Some (n, p) => if n <? 0 then None else Some (system t, p) | None => None end.

(** What is read has the cookie of a message only if it is a well-formed one. *)
Definition turn_ok (t : turn) : Prop :=
  0 <= now (system t) /\ forall bs, packet t = Some bs -> ntohl (cookie (of_bytes bs)) = DHCP_MAGIC -> exists l, request_ok (of_bytes bs) l.

Lemma flagged_ok p l x : request_ok p l -> is_word 2 x -> request_ok (set_flags p x) l.
Proof using Type.
  intros [[[F1 F2 F3] M2 M3 [M4 M5]] Q2 Q3 Q4] Hx. split; [|done|done|done]. split; [by constructor|done|done|]. split; [done|]. cbn [set_flags secs flags].
  apply Forall_cons_iff in M5 as [M5 _]. by repeat constructor; apply M5 || apply Hx.
Qed.

Lemma vendor_found p l : request_ok p l -> (exists n d, get_option p DHCP_VENDOR = Found n d) \/ get_option p DHCP_VENDOR = Missing.
Proof using Type.
  intros Hl. destruct (q_options _ _ Hl) as [Ho [Hok Hn]]. assert (DHCP_VENDOR <> DHCP_END) as Hne by discriminate. pose proof (get_option_spec p l DHCP_VENDOR Ho Hok Hn Hne) as Hg.
  destruct (lookup_opt l DHCP_VENDOR) as [d|]; [left|right; exact Hg]. destruct Hg as [rest Hg]. eexists _, _. exact Hg.
Qed.

Lemma broadcast_flag_ok p l : request_ok p l -> request_ok (set_flags p (Z.lor (flags p) (htons BROADCAST_FLAG))) l.
Proof using Type.
  intros Hl. apply flagged_ok; [exact Hl|]. pose proof (ok_words _ (q_ok _ _ Hl)) as [_ M]. apply Forall_cons_iff in M as [_ M]. apply Forall_cons_iff in M as [M _].
  generalize (htons BROADCAST_FLAG) (htons_bound BROADCAST_FLAG). intros y Hy. unfold is_word in *. change (256 ^ Z.of_nat 2) with (2 ^ 16) in *. by apply lor_range.
Qed.

(** A packet is read without harm, and what is served is well formed. *)
Lemma packet_read t : turn_ok t -> exists n p, get_packet (packet t) = Some (n, p) /\ (n < 0 \/ well_formed (system t, p)).
Proof using Type.
  intros [Ht Hp]. unfold get_packet. destruct (packet t) as [bs|]; [|eexists _, _; split; [reflexivity|by left]].
  specialize (Hp bs eq_refl). generalize dependent (of_bytes bs). intros p Hp. destruct (Z.eqb_spec (ntohl (cookie p)) DHCP_MAGIC) as [Ec|Ec]; cbn [negb]; [|eexists _, _; split; [reflexivity|by left]].
  destruct (Hp Ec) as [l Hl]. assert (well_formed (system t, p)) as Hw by (split; [exact Ht|by exists l]).
  assert (well_formed (system t, set_flags p (Z.lor (flags p) (htons BROADCAST_FLAG)))) as Hf by (split; [exact Ht|exists l; exact (broadcast_flag_ok p l Hl)]).
  destruct (op p =? BOOTREQUEST); [|eexists _, _; split; [reflexivity|by right]].
  destruct (vendor_found p l Hl) as [(n & d & ->)| ->]; [|eexists _, _; split; [reflexivity|by right]].
  destruct (_ && _); eexists _, _; (split; [reflexivity|right]); [exact Hf|exact Hw].
Qed.

Definition messages (ts : list turn) : list (env * dhcpMessage) := omap message_of ts.

(** The state of a server that is in order. *)
Definition loop_ok (s : loop) : Prop := state_ok (tables s) /\ table_ok (leases (tables s)).

(** What a step keeps: the tables are in order, the slots are the same number, nobody loses a reserved address, and a lease that
    the messages [ms] spare is where it was. *)
Definition keeps (ms : list (env * dhcpMessage)) (s s' : loop) : Prop :=
  loop_ok s' /\ length (leases (tables s')) = length (leases (tables s)) /\
  map holder (static_leases (tables s')) = map holder (static_leases (tables s)) /\
  forall j l, leases (tables s) !! j = Some l -> Forall (harmless l) ms -> leases (tables s') !! j = Some l.

Lemma turn_same ms s s' : loop_ok s -> leases (tables s') = leases (tables s) -> static_leases (tables s') = static_leases (tables s) -> keeps ms s s'.
Proof using Type. intros [(H1 & H2) H3] E1 E2. unfold keeps, loop_ok, state_ok. rewrite E1, E2. split_and!; try done; apply H2. Qed.

Lemma turn_trans ms ms' s s1 s2 : keeps ms s s1 -> keeps ms' s1 s2 -> keeps (ms ++ ms') s s2.
Proof using Type.
  intros (_ & A2 & A3 & A4) (B1 & B2 & B3 & B4). split_and!; [done..|congruence|congruence|]. intros j l Hj Hl. apply Forall_app in Hl as [Hl1 Hl2]. by apply B4, Hl2; apply A4.
Qed.

(** A message is served. *)
Lemma serve_spec s t : cfg_ok cfg -> loop_ok s -> turn_ok t ->
  exists s' fs, serve s t = Some (Go s' fs) /\ keeps (messages [t]) s s' /\ Forall (sent_for cfg (messages [t])) fs /\ (length fs <= length (messages [t]))%nat.
Proof using Type.
  intros Hcfg Hs Ht. destruct (packet_read t Ht) as (n & p & E & Hw). unfold serve, messages, message_of. cbn [omap list_omap]. rewrite E. cbn [mbind option_bind fst snd].
  destruct (Z.ltb_spec n 0) as [Hn|Hn].
  - eexists _, []. split; [reflexivity|]. split; [|split; [constructor|cbn; lia]]. by apply turn_same; [exact Hs|destruct ((n =? -1) && negb (interrupted t))..].
  - destruct Hw as [?|[H0 [l Hl]]]; [lia|]. cbn [fst snd] in H0, Hl. destruct Hs as [Hs1 Hs2].
    destruct (handle_defined cfg (tables s) (system t) p l Hcfg Hs1 Hl) as (r & Er & Hsent & Hone). eexists _, r.2. split; [apply (bind_to _ _ _ _ Er); reflexivity|].
    pose proof (handle_kept cfg _ _ _ _ Hs2 (proj1 (ok_chaddr _ (q_ok _ _ Hl))) H0 Er) as (K1 & K2 & K3). split; [|by split].
    refine (conj (conj (handle_ok cfg _ _ _ _ _ Hcfg Hs1 Hl Er) K1) (conj K2 (conj (handle_statics cfg _ _ _ _ Er) _))).
    intros j x Hj Hx. apply Forall_cons_iff in Hx as [(L1 & L2 & L3) _]. apply K3; [done|by apply Z.leb_gt|done|]. intros (_ & C1 & C2 & C3 & _). apply L3. split_and!; [exact C1|exact C2|symmetry; exact C3].
Qed.

(** A turn ends the program, or it goes on; no more is sent than a message asks for. *)
Lemma turn_spec s t : cfg_ok cfg -> loop_ok s -> turn_ok t ->
  loop_turn s t = Some (Exit 0) \/
  exists s' fs, loop_turn s t = Some (Go s' fs) /\ keeps (messages [t]) s s' /\ Forall (sent_for cfg (messages [t])) fs /\ (length fs <= length (messages [t]))%nat.
Proof using Type.
  intros Hcfg Hs Ht. unfold loop_turn. destruct (socket_open s || socket_opens t); [|by left]. set (s1 := mkloop (tables s) true (timeout_end s)).
  assert (forall s', leases (tables s') = leases (tables s) -> static_leases (tables s') = static_leases (tables s) ->
    exists s'' fs, Some (Go s' []) = Some (Go s'' fs) /\ keeps (messages [t]) s s'' /\ Forall (sent_for cfg (messages [t])) fs /\ (length fs <= length (messages [t]))%nat) as Hsame.
  { intros s' E1 E2. exists s', []. split; [done|]. split; [by apply turn_same|]. split; [constructor|cbn; lia]. }
  destruct (leases_written cfg (system t) (tables s) (cfg_notify cfg Hcfg)) as (st' & Ew). destruct (written_same cfg _ _ _ Ew) as [W1 W2]. pose proof (serve_spec s1 t Hcfg Hs Ht) as Hserve.
  assert (read_signal s1 t = Some (Exit 0) \/ exists s' fs, read_signal s1 t = Some (Go s' fs) /\ keeps (messages [t]) s s' /\ Forall (sent_for cfg (messages [t])) fs /\ (length fs <= length (messages [t]))%nat) as Hsig.
  { unfold read_signal. destruct (signal t) as [sig|]; [|right; by apply Hsame]. destruct (sig =? SIGUSR1); [right; change (tables s1) with (tables s); rewrite Ew; by apply Hsame|]. destruct (sig =? SIGTERM); [by left|right; exact Hserve]. }
  destruct (selects_as s1 t) as [| | |[]]; [right; change (tables s1) with (tables s); rewrite Ew; by apply Hsame|right; by apply Hsame|exact Hsig|exact Hsig|right; exact Hserve].
Qed.

Lemma turn_none s : loop_ok s -> keeps [] s s.
Proof using Type. intros Hs. by apply turn_same. Qed.

(** The loop goes on, through every sequence of turns. *)
Lemma turns_spec ts : forall s, cfg_ok cfg -> loop_ok s -> Forall turn_ok ts ->
  exists s' code fs, turns s ts = Some (s', code, fs) /\ code ∈ [None; Some 0] /\ Forall (sent_for cfg (messages ts)) fs /\ (length fs <= length (messages ts))%nat /\ keeps (messages ts) s s'.
Proof using Type.
  induction ts as [|t ts IH]; intros s Hcfg Hs Hts; cbn [turns]; [exists s, None, []; split_and!; [done|by left|constructor|cbn; lia|by apply turn_none]|].
  apply Forall_cons_iff in Hts as [Ht Hts]. assert (messages (t :: ts) = messages [t] ++ messages ts) as -> by (unfold messages; change (t :: ts) with ([t] ++ ts); apply omap_app).
  destruct (turn_spec s t Hcfg Hs Ht) as [E|(s1 & fs1 & E & K1 & F1 & L1)].
  { exists s, (Some 0), []. split; [apply (bind_to _ _ _ _ E); reflexivity|]. split_and!; [by right; left|constructor|cbn; lia|by apply turn_same]. }
  destruct (IH s1 Hcfg (proj1 K1) Hts) as (s2 & code & fs2 & E2 & Hc & F2 & L2 & K2). exists s2, code, (fs1 ++ fs2). split; [apply (bind_to _ _ _ _ E), (bind_to _ _ _ _ E2); reflexivity|].
  split_and!; [done| |rewrite !length_app; lia|by apply (turn_trans _ _ _ s1)]. apply Forall_app. split; (eapply List.Forall_impl; [|eassumption]); intros f; apply sent_for_more; intros m Hm; apply elem_of_app; by (left + right).
Qed.

(** C10. The server goes on: through any number of turns with signals, timeouts, errors and packets, of which those with the cookie of
    DHCP are well formed ([turn_ok]), and with a configuration in order ([cfg_ok]), no turn of the loop reads or writes out of
    bounds or searches for ever, and the only exit is with 0.  Every frame that is sent is a sound answer to one of the messages, and
    there are no more frames than messages.  The tables stay in order: one slot for an address and for a client, the same slots,
    nobody loses or gets a reserved address, and a lease is in its slot as it was entered until its end, as long as the messages are of other clients that
    do not claim its address by a renewal. *)
Theorem loop_serves ts s : cfg_ok cfg -> loop_ok s -> Forall turn_ok ts ->
  exists s' code fs, turns s ts = Some (s', code, fs) /\ code ∈ [None; Some 0] /\ Forall (sent_for cfg (messages ts)) fs /\ (length fs <= length (messages ts))%nat /\
    keeps (messages ts) s s'.
Proof using Type. intros Hcfg Hs Hts. exact (turns_spec ts s Hcfg Hs Hts). Qed.

(** ** When the leases are saved *)

(** The leases are in the file when the time has come, with the commands run, and the next time is [auto_time] later. *)
Lemma saved_in_time s t : notify_fits cfg -> auto_time <> 0 -> 0 <= uptime t < 2 ^ 32 -> 0 <= timeout_end s <= uptime t -> uptime t - timeout_end s < 2 ^ 31 -> socket_open s = true -> can_open (system t) = true ->
  loop_turn s t = Some (Go (mkloop (mkd (leases (tables s)) (static_leases (tables s)) (leases_text cfg (tables s) (now (system t)))
    (commands (tables s) ++ option_list (dhcp_helper cfg) ++ option_list ((fun name => name ++ 32 :: lease_name cfg) <$> notify_file cfg))) true (u32 (now (system t) + auto_time))) []).
Proof using Type.
  intros Hn Ha Hu Ht Hd Ho Hc. unfold loop_turn. rewrite Ho. cbn [orb]. unfold selects_as. rewrite (proj2 (Z.eqb_neq _ _) Ha). cbn [orb]. set (s1 := mkloop (tables s) true (timeout_end s)).
  assert (wait_time s1 t <= 0) as Hw.
  { unfold wait_time, s1, u32. cbn [timeout_end]. destruct (Z.eq_dec (timeout_end s) (uptime t)) as [->|Hne]; [by rewrite Z.sub_diag|].
    rewrite <- (Z.mod_add _ 1) by done. rewrite Z.mod_small by lia. rewrite (proj2 (Z.ltb_ge _ _)) by lia. lia. }
  rewrite (proj2 (Z.ltb_ge _ _) Hw). change (tables s1) with (tables s). by rewrite written_file.
Qed.

(** Behind [SIGUSR1] the time of the next saving is reckoned from the clock, but compared with the uptime: unless the uptime is that of a machine
    that runs since 1970, the server waits for so long that the leases are not saved any more. *)
Theorem usr1_postpones_saving s t : notify_fits cfg -> socket_open s = true -> select t = Interrupted -> 0 < wait_time s t -> signal t = Some SIGUSR1 -> 0 <= clock t + auto_time < 2 ^ 31 ->
  exists s', loop_turn s t = Some (Go s' []) /\ forall t', 0 <= uptime t' < clock t + auto_time -> wait_time s' t' = clock t + auto_time - uptime t' /\ selects_as s' t' = select t'.
Proof using Type.
  intros Hn Ho Hs Hw Hsig Hc. destruct (leases_written cfg (system t) (tables s) Hn) as (st' & Ew). exists (mkloop st' true (u32 (clock t + auto_time))). split.
  - unfold loop_turn. rewrite Ho. cbn [orb]. unfold selects_as. change (wait_time (mkloop (tables s) true (timeout_end s)) t) with (wait_time s t).
    rewrite (proj2 (Z.ltb_lt _ _) Hw), orb_true_r, Hs. unfold read_signal. rewrite Hsig. cbn [tables]. by rewrite Ew.
  - intros t' Ht. assert (wait_time (mkloop st' true (u32 (clock t + auto_time))) t' = clock t + auto_time - uptime t') as E.
    { unfold wait_time, u32. cbn [timeout_end]. rewrite (Z.mod_small (clock t + auto_time)), Z.mod_small by lia. by rewrite (proj2 (Z.ltb_lt _ _)) by lia. }
    split; [exact E|]. unfold selects_as. rewrite E, (proj2 (Z.ltb_lt 0 _)) by lia. by rewrite orb_true_r.
Qed.
End Loop.

(** ** A run *)

#[local] Existing Instance be_server.

Definition some_turn (t c : Z) : turn := mkturn true t (Ready false) (some_env t) 0 None (Some (to_bytes (message (client c) discover_options))) false.
Definition some_timeout (t : Z) : turn := mkturn true t Timed_out (some_env t) 0 None None false.
Definition some_signal (t : Z) : turn := mkturn true t Interrupted (some_env t) 1700000000 (Some SIGUSR1) None false.

Lemma some_turn_ok t c : 0 <= t -> is_byte c -> turn_ok (some_turn t c).
Proof.
  intros Ht Hc. pose proof (discover_ok (client c) (proj1 (client_ok c Hc)) (proj2 (client_ok c Hc))) as Hd. split; [exact Ht|]. intros bs E _. exists discover_options.
  injection E as <-. by rewrite (of_to_bytes _ (q_ok _ _ Hd)).
Qed.

Definition some_turns : list turn := [some_turn 100 3; some_timeout 7250; some_turn 7260 4; some_signal 7300].

Lemma some_turns_ok : Forall turn_ok some_turns.
Proof.
  assert (forall t, 0 <= now (system t) -> packet t = None -> turn_ok t) as Hq by (intros t H0 Hp; split; [exact H0|by rewrite Hp]).
  constructor; [by apply some_turn_ok|]. constructor; [by apply Hq|]. constructor; [by apply some_turn_ok|]. constructor; [by apply Hq|]. constructor.
Qed.

Lemma loop_serves_witness : exists s' code fs, turns some_cfg 7200 (mkloop some_state false 7250) some_turns = Some (s', code, fs) /\ Forall (sent_for some_cfg (messages some_turns)) fs /\ loop_ok s'.
Proof.
  destruct (loop_serves some_cfg 7200 some_turns (mkloop some_state false 7250) some_cfg_ok (conj some_state_ok some_leases_ok) some_turns_ok) as (s' & code & fs & E & _ & Hs & _ & Hk).
  exists s', code, fs. split; [exact E|]. split; [exact Hs|exact (proj1 Hk)].
Defined.

(** Two offers, and when the leases are saved next. *)
Example some_loop : option_map (fun r => (r.1.2, timeout_end r.1.1, length r.2)) (turns some_cfg 7200 (mkloop some_state false 7250) some_turns) = Some (None, 1700007200, 2%nat).
Proof. by vm_compute. Qed.
End DhcpLoop.
