(* ===== verification/DhcpStart.v ===== *)
(** * The DHCP server from its files to its clients.

    A server that starts with a file of configuration and a file of leases, both written by anybody, has tables that are in
    order, and serves every message from then on. *)
From Stdlib Require Import ZArith Lia Bool String.
From stdpp Require Import base tactics list option numbers functions.
From S2P Require Import Prelude XmldbFile DhcpOptions DhcpPacket DhcpLeases DhcpServer DhcpSafety DhcpReplies DhcpExchange DhcpLoop DhcpConfig DhcpConfigSafety.

Module DhcpStart.
Import DhcpOptions DhcpPacket DhcpLeases DhcpServer DhcpSafety DhcpReplies DhcpExchange.
Import DhcpConfig DhcpConfigSafety DhcpLoop.

Section Start.
Context `{Endian}.

(** ** The file of leases *)

Lemma slice_bytes i n bs : bytes bs -> bytes (slice i n bs).
Proof using Type. intros Hb. by apply Forall_take, Forall_drop. Qed.

(** The tables of a server. *)
Definition tables_ok (st : dhcpd) : Prop := state_ok st /\ table_ok (leases st).

Lemma static_acked_ok st j : tables_ok st -> tables_ok (set_statics st (alter (set_acked 1) j (static_leases st))).
Proof using Type. intros [(H1 & H2 & H3) H4]. split; [|done]. split_and!; [done|by apply Forall_alter|by apply Forall_alter]. Qed.

(** Whatever its bytes are, a file of leases leaves the tables in order. *)
Lemma read_loop_ok cfg t : 0 <= t -> forall fuel file i st, bytes file -> tables_ok st -> tables_ok (read_loop cfg fuel t file i st).
Proof using Type.
  intros Ht. induction fuel as [|fuel IH]; intros file i st Hb Hst; [done|]. cbn [read_loop]. destruct (_ && (LEASE_SIZE <=? length file)%nat) eqn:E; [|done].
  apply andb_true_iff in E as [_ Hlen%Nat.leb_le]. unfold LEASE_SIZE in Hlen. pose proof (Forall_drop is_byte LEASE_SIZE file Hb) as Hrest.
  destruct (_ && negb _); [|by apply IH]. destruct (match_static _ _ _ _) as [[j [|]]|]; [apply IH; [done|by apply static_acked_ok]|by apply IH|].
  set (c := slice 0 16 file). set (a := load (slice 16 4 file)). set (x := if (if remaining cfg then _ else _) =? 0xFFFFFFFF then _ else _). set (h := Some (XmldbFile.cstr _)).
  assert (length c = 16%nat) as Hc by (unfold c, slice; rewrite length_take, length_drop; lia).
  assert (is_word 4 a) as Ha by (unfold a, slice; apply load4_word; by apply Forall_drop). destruct Hst as [(H1 & H2) H3].
  pose proof (add_lease_spec (leases st) t c a x h H3 Hc Ht) as Hadd. pose proof (add_words (leases st) t c a x h H1 Ha) as Hw.
  destruct (add_lease (leases st) t c a x h) as [[k|] ls]; destruct Hadd as (Hok & _).
  - apply IH; [done|]. split; [split; [by apply alter_words|done]|]. apply alter_table; [done|apply set_acked_holder].
  - split; [by split|done].
Qed.

Lemma empty_tables n statics : Forall lease_ok statics -> forall bs cmds, tables_ok (mkd (replicate n zero_lease) statics bs cmds).
Proof using Type.
  intros Hs bs cmds. split; [split; [by apply Forall_replicate|split; eapply List.Forall_impl; [|exact Hs| |exact Hs]; intros l [H1 H2]; [done|]]|].
  - cbn beta. eapply List.Forall_impl; [|exact H2]. by intros d [Hd _].
  - cbn [leases]. split.
    + intros i j l l' Hi _ Hl. apply lookup_replicate in Hi as [-> _]. by destruct Hl.
    + intros i j l l' Hi _ Hl. apply lookup_replicate in Hi as [-> _]. by vm_compute in Hl.
    + by apply Forall_replicate.
Qed.

(** ** The configuration *)

Context (dns : list Z -> option Z) (stale : nat -> list Z).
Hypothesis dns_word : forall s a, dns s = Some a -> is_word 4 a.
Hypothesis stale_bytes : forall k, bytes (stale k).

(** The sizes in a configuration that are not looked at: the range of the addresses is one, and does not end with the last address of
    all; the command for the file of leases fits its 255 bytes, the name of the interface the 14 bytes of an address for ARP,
    which are the fewest it is copied to, and the bytes of the table a word. *)
Record fits (c : conf) : Prop := {
  fit_range : ntohl (ips c V_start) <= ntohl (ips c V_end) + 1 /\ ntohl (ips c V_end) < 2 ^ 32 - 1;
  fit_notify : forall n f, strs c V_notify_file = Some n -> strs c V_lease_file = Some f -> zlen n + 1 + zlen f < 255;
  fit_interface : forall n, strs c V_interface = Some n -> zlen n < 14;
  fit_table : Z.of_nat LEASE_SIZE * nums c V_max_leases < 2 ^ 32
}.

Lemma configure_ok c : conf_ok c -> is_Some (strs c V_lease_file) -> exists cfg, configure c = Some cfg /\ max_leases cfg = Z.to_nat (nums c V_max_leases) /\
  (fits c -> notify_fits cfg /\ forall server ifindex, is_word 4 server -> cfg_ok (set_interface server ifindex cfg)).
Proof using Type.
  intros [C1 C2 C3 C4 C5] [name Hname]. unfold configure. destruct (option_value_ok (opts c) DHCP_LEASE_TIME C4 ltac:(auto)) as (t & -> & Ht). cbn [mbind option_bind].
  destruct (option_value_ok (opts c) DHCP_SUBNET C4 ltac:(auto)) as (m & -> & _). cbn [mbind option_bind]. rewrite Hname. cbn [mbind option_bind]. eexists. split; [reflexivity|]. split; [done|].
  intros [F1 F2 _ _]. assert (match strs c V_notify_file with Some n => zlen n + 1 + zlen name < 255 | None => True end) as Hn by (destruct (strs c V_notify_file); auto).
  split; [exact Hn|]. intros server ifindex Hs. split; [| | |exact F1|exact Hn].
  - cbn [set_interface DhcpServer.server conf_siaddr lease]. split_and!; [done|done|]. destruct t as [x|]; [apply ntohl_bound|done].
  - cbn [set_interface conf_options]. eapply List.Forall_impl; [|exact C4]. by intros d [Hd _].
  - cbn [set_interface conf_sname boot_file]. pose proof (C2 V_sname) as H1. pose proof (C2 V_boot_file) as H2. destruct (strs c V_sname), (strs c V_boot_file); cbn; auto.
Qed.

Lemma table_allocated memory n : memory (Z.of_nat LEASE_SIZE * Z.of_nat n) = true -> Z.of_nat LEASE_SIZE * Z.of_nat n < 2 ^ 32 -> alloc_table memory n = Some (replicate n zero_lease).
Proof using Type. intros Hm Hn. unfold alloc_table. rewrite u32_small by lia. by rewrite Hm, (proj2 (Z.ltb_lt _ _) Hn). Qed.

(** The steps of the start, one after the other. *)
Lemma begins file lease_bytes memory server ifindex e r c cfg ls st name :
  alloc_table memory MAX_STATIC_LEASES = Some r -> read_config dns stale file = Some c -> configure c = Some cfg -> alloc_table memory (max_leases cfg) = Some ls ->
  write_leases cfg e (read_leases cfg (now e) lease_bytes (mkd ls (statics c) lease_bytes [])) = Some st -> strs c V_interface = Some name -> zlen name < IFNAMSIZ ->
  start_server dns stale file lease_bytes memory true (Some (server, ifindex)) e = Some (Begun (set_interface server ifindex cfg) st).
Proof using Type.
  intros E1 E2 E3 E4 E5 E6 E7. unfold start_server. apply (bind_to _ _ _ _ E1), (bind_to _ _ _ _ E2), (bind_to _ _ _ _ E3), (bind_to _ _ _ _ E4), (bind_to _ _ _ _ E5), (bind_to _ _ _ _ E6).
  unfold read_interface. rewrite (proj2 (Z.ltb_lt _ _) E7). reflexivity.
Qed.

(** C9. A server starts with every file of configuration whose lines fit into the buffer of 153 bytes and whose reserved addresses are
    complete, and with every file of leases: unknown keywords, options and values do no harm.  The sizes that the code does not look
    at must be in order ([fits]), there is memory for the two tables, and the interface answers.  Then its loop serves any number
    of messages that are well formed, through signals, timeouts and errors: nothing is read or written out of bounds and every frame
    is a sound answer, whenever the leases are to be saved. *)
Theorem configured_server_serves ls lease_bytes memory server ifindex e :
  Forall (line_ok dns) ls -> bytes lease_bytes -> memory (Z.of_nat LEASE_SIZE * Z.of_nat MAX_STATIC_LEASES) = true -> is_word 4 server -> 0 <= now e ->
  exists c, read_config dns stale (Some (file_of ls)) = Some c /\
    (fits c -> memory (Z.of_nat LEASE_SIZE * nums c V_max_leases) = true -> exists cfg st, start_server dns stale (Some (file_of ls)) lease_bytes memory true (Some (server, ifindex)) e = Some (Begun cfg st) /\
     forall auto_time save ts, Forall turn_ok ts ->
     exists s' code fs, turns cfg auto_time (mkloop st false save) ts = Some (s', code, fs) /\ code ∈ [None; Some 0] /\
       Forall (sent_for cfg (messages ts)) fs /\ (length fs <= length (messages ts))%nat /\ keeps (messages ts) (mkloop st false save) s').
Proof using dns_word stale_bytes.
  intros Hls Hb Hm Hs Ht. destruct (read_config_ok dns dns_word stale stale_bytes ls Hls) as (c & Ec & Hc). exists c. split; [exact Ec|]. intros Hfit Hm'.
  destruct (read_config_names dns stale _ _ Ec) as [[name Hname] Hlf]. destruct (configure_ok c Hc Hlf) as (cfg & Ecfg & Hmax & Hcfg). destruct (Hcfg Hfit) as [Hn Hok].
  assert (alloc_table memory MAX_STATIC_LEASES = Some (replicate MAX_STATIC_LEASES zero_lease)) as Ea by (apply table_allocated; [done|unfold LEASE_SIZE, MAX_STATIC_LEASES; lia]).
  assert (alloc_table memory (max_leases cfg) = Some (replicate (max_leases cfg) zero_lease)) as Em.
  { pose proof (fit_table _ Hfit). pose proof (ok_nums _ Hc V_max_leases) as [? _]. apply table_allocated; rewrite Hmax, Z2Nat.id by lia; [exact Hm'|lia]. }
  set (st0 := mkd (replicate (max_leases cfg) zero_lease) (statics c) lease_bytes []).
  assert (tables_ok (read_leases cfg (now e) lease_bytes st0)) as [H1 H2] by (apply read_loop_ok; [done|done|apply empty_tables, (ok_statics _ Hc)]).
  destruct (leases_written cfg e (read_leases cfg (now e) lease_bytes st0) Hn) as (st & Ew). exists (set_interface server ifindex cfg), st. split.
  - assert (zlen name < IFNAMSIZ) as Hi by (pose proof (fit_interface _ Hfit _ Hname); unfold IFNAMSIZ; lia). exact (begins _ _ _ _ _ _ _ _ _ _ _ _ Ea Ec Ecfg Em Ew Hname Hi).
  - intros auto_time save ts Hts. destruct (written_same _ _ _ _ Ew) as [W1 W2]. assert (loop_ok (mkloop st false save)) as Hl.
    { split; cbn [tables]; [|by rewrite W1]. unfold state_ok. by rewrite W1, W2. }
    exact (turns_spec _ auto_time ts (mkloop st false save) (Hok server ifindex Hs) Hl Hts).
Qed.

(** A name that does not fit [ifr_name] is copied all the same, and a number of leases whose table does not fit a word gives a block
    that is too small. *)
Theorem long_interface_overflows name answer : 16 <= zlen name -> read_interface name true answer = None.
Proof using Type. intros Hl. unfold read_interface, IFNAMSIZ. by rewrite (proj2 (Z.ltb_ge _ _) Hl). Qed.

Theorem many_leases_overflow memory n : 2 ^ 32 <= Z.of_nat LEASE_SIZE * Z.of_nat n -> alloc_table memory n = None.
Proof using Type. intros Hn. unfold alloc_table. rewrite (proj2 (Z.ltb_ge _ _) Hn). by destruct (memory _). Qed.

End Start.
(** ** A server with a file *)

#[local] Existing Instance be_server.

Definition some_lines : list (list Z) :=
  map cs ["start 192.168.0.20"; "end 192.168.0.22"; "opt subnet 255.255.255.0"; "opt lease one"; "= what"; "notify_file /etc/notify"; "static pc 192.168.0.50 00:11:22:33:44:55"; ""]%string.

Lemma some_lines_ok : Forall (line_ok (fun _ => None)) some_lines.
Proof.
  assert (forall l, bytes l -> (10 ∉ l) -> (length l < BUFFER - 1)%nat -> (forall token line white, split_line (line_of l) = Some (token, line, white) -> strcasecmp token str_static = 0 ->
    static_ok (fun _ => None) line) -> line_ok (fun _ => None) l) as Hl by (intros; by constructor).
  unfold some_lines. cbn [map]. repeat (constructor; [apply Hl; [unfold is_byte; apply (bool_decide_unpack _); vm_compute; exact I|apply (bool_decide_unpack _); vm_compute; exact I|vm_compute; lia|]|]); [..|constructor].
  1-6,8: by intros token line white E Hs; vm_compute in E; first [discriminate E|injection E as <- <- <-; vm_compute in Hs; discriminate Hs].
  intros token line white E _. vm_compute in E. injection E as <- <- <-. exists (cs "pc"), (cs "192.168.0.50"), (cs "00:11:22:33:44:55").
  split_and!; [reflexivity|split; [done|by repeat constructor]..|done|done|by eexists].
Qed.

Lemma configured_server_serves_witness : exists cfg st s' code fs,
  start_server (fun _ => None) (fun _ => replicate 153 0) (Some (file_of some_lines)) [] (fun _ => true) true (Some (0xC0A80001, 2)) (some_env 50) = Some (Begun cfg st) /\
  commands st = [cs "/etc/notify /var/lib/misc/udhcpd.leases"] /\ turns cfg 7200 (mkloop st false 7250) some_turns = Some (s', code, fs) /\ loop_ok s'.
Proof.
  destruct (configured_server_serves (fun _ => None) (fun _ => replicate 153 0) ltac:(done) ltac:(intros k; by apply Forall_replicate) some_lines [] (fun _ => true) 0xC0A80001 2 (some_env 50) some_lines_ok)
    as (c & Ec & Hrun); [constructor|done|done|done|].
  assert (fits c) as Hf. { vm_compute in Ec. injection Ec as <-. split; [by vm_compute|by intros n f [= <-] [= <-]; vm_compute|by intros n [= <-]; vm_compute|by vm_compute]. }
  destruct (Hrun Hf eq_refl) as (cfg & st & E & Ht). assert (commands st = [cs "/etc/notify /var/lib/misc/udhcpd.leases"]) as Hcmd.
  { pose proof E as E'. vm_compute in E'. apply (f_equal (fun r => match r with Some (Begun _ s) => commands s | _ => [] end)) in E'. symmetry. exact E'. }
  destruct (Ht 7200 7250 some_turns some_turns_ok) as (s' & code & fs & Er & _ & _ & _ & Hok). exists cfg, st, s', code, fs. exact (conj E (conj Hcmd (conj Er (proj1 Hok)))).
Defined.

End DhcpStart.
