(* ===== verification/DhcpConfigText.v ===== *)
(** * What the file of configuration of the DHCP server means.

    The entries of a file as data, their text, and their effect on the configuration: a file that is written from entries is
    read with just their effects, one after the other, on the defaults. *)
From Stdlib Require Import ZArith Lia Bool String.
From stdpp Require Import base tactics list option numbers functions.
From S2P Require Import Prelude Xmldb XmldbFile DhcpOptions DhcpPacket DhcpLeases DhcpServer DhcpConfig DhcpConfigSafety.

Module DhcpConfigText.
Import DhcpOptions DhcpPacket DhcpLeases DhcpServer.
Import DhcpConfig DhcpConfigSafety.

(** ** Numbers *)

(** What can stand behind a number. *)
Definition stops (r : list Z) : Prop := match r with [] => True | c :: _ => c = 46 \/ c = 32 end.

Lemma number_digits w r : Forall (fun c => isdigit c = true) w -> stops r -> forall acc, number 10 acc (w ++ r) = (Xmldb.digits acc w, r).
Proof.
  intros Hw Hr. induction Hw as [|c w Hc Hw IH]; intros acc; cbn [app number Xmldb.digits].
  - destruct r as [|c r]; [done|]. cbn [number]. by destruct Hr as [-> | ->].
  - rewrite Hc. assert (digit_value c = c - 48) as -> by (unfold digit_value; by rewrite Hc). unfold isdigit in Hc. bprop.
    rewrite (proj2 (Z.ltb_lt _ _)) by lia. rewrite IH. f_equal. f_equal. lia.
Qed.

Lemma dec_rev_last fuel : forall n, 0 < n < 10 ^ Z.of_nat fuel -> exists c w, rev (XmldbFile.dec_rev fuel n) = c :: w /\ 49 <= c <= 57.
Proof.
  induction fuel as [|fuel IH]; intros n Hn; cbn [XmldbFile.dec_rev]; [cbn in *; lia|]. rewrite Nat2Z.inj_succ, Z.pow_succ_r in Hn by lia.
  destruct (Z.ltb_spec n 10); [eexists _, []; split; [reflexivity|]; Z.to_euclidean_division_equations; lia|].
  destruct (IH (n / 10)) as (c & w & E & Hc); [Z.to_euclidean_division_equations; lia|]. cbn [rev]. rewrite E. by eexists c, _.
Qed.

Lemma dec_value n : 0 <= n < 10 ^ 10 -> Xmldb.digits 0 (XmldbFile.dec n) = n.
Proof. intros Hn. apply XmldbFile.digits_dec_rev. exact Hn. Qed.

(** A number in decimal is read, whatever the base 0 of [strtoul] makes of it. *)
Lemma strto_dec n r : 0 <= n < 10 ^ 10 -> stops r -> strto (XmldbFile.dec n ++ r) = Some (false, n, r).
Proof.
  intros Hn Hr. destruct (decide (n = 0)) as [->|Hz].
  - change (XmldbFile.dec 0) with [48]. cbn [app]. unfold strto. cbn [eat]. change (isspace 48) with false. cbn iota. destruct r as [|x [|d r]]; [reflexivity|by destruct Hr as [-> | ->]|].
    destruct Hr as [-> | ->]; reflexivity.
  - destruct (dec_rev_last 10 n) as (c & w & E & Hc); [cbn; lia|]. fold (XmldbFile.dec n) in E. pose proof (XmldbFile.dec_digits n ltac:(lia)) as Hd. pose proof (number_digits (XmldbFile.dec n) r Hd Hr 0) as Hnum.
    rewrite (dec_value n Hn) in Hnum. rewrite E in *. cbn [app] in *. unfold strto. cbn [eat].
    assert (isspace c = false) as -> by (unfold isspace, Xmldb.isspace; lia). cbn iota.
    assert ((digit_value c <? 10) = true) as Hdig by (unfold digit_value, isdigit; replace ((48 <=? c) && (c <=? 57)) with true by lia; lia).
    repeat match goal with |- context [match c with _ => _ end] => destruct c as [|p|p]; [lia| |lia] end.
    assert (Z.pos p <> 45 /\ Z.pos p <> 43 /\ Z.pos p <> 48) as (N1 & N2 & N3) by lia. clear -Hnum Hdig N1 N2 N3.
    repeat (case_match; try congruence; try lia); congruence.
Qed.

Lemma strtoul_dec n r : is_word 4 n -> stops r -> strtoul (XmldbFile.dec n ++ r) = (n, r).
Proof.
  intros Hn Hr. unfold strtoul, ULONG_MAX. unfold is_word in Hn. rewrite strto_dec by (try done; lia). rewrite (proj2 (Z.ltb_ge _ _)) by lia. by rewrite u32_small.
Qed.

Lemma strtoul_end n : is_word 4 n -> strtoul (XmldbFile.dec n) = (n, []).
Proof. intros Hn. rewrite <- (app_nil_r (XmldbFile.dec n)). by apply strtoul_dec. Qed.

Lemma dec_head n r : 0 <= n -> exists c w, XmldbFile.dec n ++ r = c :: w /\ isdigit c = true.
Proof.
  intros Hn. destruct (XmldbFile.dec_nonempty n) as (c & tl & E). pose proof (XmldbFile.dec_digits n Hn) as Hd. rewrite E in *. apply Forall_cons_iff in Hd as [Hc _]. by eexists c, _.
Qed.

(** ** Addresses *)

(** Four numbers with dots between them. *)
Definition dotted (n : Z) : list Z :=
  match be_bytes 4 n with
  | [a; b; c; d] => XmldbFile.dec a ++ 46 :: XmldbFile.dec b ++ 46 :: XmldbFile.dec c ++ 46 :: XmldbFile.dec d
  | _ => []
  end.

Lemma quad_dot dots acc n r : is_byte n -> quad (S dots) acc (XmldbFile.dec n ++ 46 :: r) = quad dots (acc * 256 + n) r.
Proof.
  intros Hn. destruct (dec_head n (46 :: r)) as (c & w & E & Hc); [unfold is_byte in Hn; lia|]. pose proof (strtoul_dec n (46 :: r)) as Hs. rewrite E in *. cbn [quad]. rewrite Hc, Hs.
  - unfold is_byte in Hn. by rewrite (proj2 (Z.ltb_ge _ _)) by lia.
  - unfold is_byte, is_word in *. cbn. lia.
  - by left.
Qed.

Lemma quad_last acc n r : is_byte n -> stops r -> hd 32 r = 32 -> quad 0 acc (XmldbFile.dec n ++ r) = Some (acc * 256 + n).
Proof.
  intros Hn Hr Hh. destruct (dec_head n r) as (c & w & E & Hc); [unfold is_byte in Hn; lia|]. pose proof (strtoul_dec n r) as Hs. rewrite E in *. cbn [quad]. rewrite Hc, Hs.
  - unfold is_byte in Hn. change (2 ^ (8 * (Z.of_nat 0 + 1))) with 256. destruct r as [|x r]; [|cbn in Hh; subst x; change (isspace 32) with true]; cbn [andb]; by rewrite (proj2 (Z.ltb_lt _ _)) by lia.
  - unfold is_byte, is_word in *. cbn. lia.
  - done.
Qed.

Lemma be_bytes_4 n : is_word 4 n -> exists a b c d, be_bytes 4 n = [a; b; c; d] /\ Forall is_byte [a; b; c; d] /\ ((a * 256 + b) * 256 + c) * 256 + d = n.
Proof.
  intros Hn. pose proof (length_be_bytes 4 n) as Hl. pose proof (be_bytes_bytes 4 n) as Hb. pose proof (be_word_bytes 4 n Hn) as Hw.
  destruct (be_bytes 4 n) as [|a [|b [|c [|d [|]]]]]; try done. exists a, b, c, d. split_and!; [done|done|]. rewrite <- Hw. unfold be_word. cbn [foldl]. lia.
Qed.

Lemma quad_dotted n : is_word 4 n -> quad 3 0 (dotted n) = Some n.
Proof.
  intros Hn. unfold dotted. destruct (be_bytes_4 n Hn) as (a & b & c & d & -> & Hb & Hv). repeat rewrite Forall_cons_iff in Hb. destruct Hb as (Ha & Hb & Hc & Hd & _).
  rewrite !quad_dot by done. rewrite <- (app_nil_r (XmldbFile.dec d)), quad_last by done. f_equal. lia.
Qed.

(** The characters of a number and of an address. *)
Definition in_number (c : Z) : Prop := isdigit c = true \/ c = 46.

Lemma dec_chars n : 0 <= n -> Forall in_number (XmldbFile.dec n).
Proof. intros Hn. eapply List.Forall_impl; [|by apply XmldbFile.dec_digits]. by left. Qed.

Lemma dotted_chars n : is_word 4 n -> Forall in_number (dotted n) /\ dotted n <> [].
Proof.
  intros Hn. unfold dotted. destruct (be_bytes_4 n Hn) as (a & b & c & d & -> & Hb & _). repeat rewrite Forall_cons_iff in Hb. destruct Hb as (Ha & Hb & Hc & Hd & _).
  unfold is_byte in *. split; [|intros E; by destruct (XmldbFile.dec_nonempty a) as (x & tl & Ea); rewrite Ea in E].
  repeat (apply Forall_app; split; [apply dec_chars; lia|]; try (constructor; [by right|])). apply dec_chars; lia.
Qed.

Lemma number_plain set w : Forall in_number w -> w <> [] -> set ∈ [BLANK; BLANK_EQ; COMMA; COMMA_DASH] -> plain set w.
Proof.
  intros Hw Hn Hs. split; [done|]. eapply List.Forall_impl; [|exact Hw]. intros c [Hc| ->]; rewrite !elem_of_cons in Hs.
  - unfold isdigit in Hc. bprop. destruct Hs as [->|[->|[->|[->|Hs]]]]; [..|by apply elem_of_nil in Hs]; unfold one_of; cbn [existsb BLANK BLANK_EQ COMMA COMMA_DASH]; lia.
  - destruct Hs as [->|[->|[->|[->|Hs]]]]; [..|by apply elem_of_nil in Hs]; reflexivity.
Qed.

Lemma strtok_number n : 0 <= n -> strtok COMMA (XmldbFile.dec n) = Some (XmldbFile.dec n, []).
Proof.
  intros Hn. apply strtok_plain_end, number_plain; [by apply dec_chars|by destruct (XmldbFile.dec_nonempty n) as (c & tl & ->)|rewrite !elem_of_cons; auto].
Qed.

(** ** Hardware addresses *)

Definition hexit (v : Z) : Z := if v <? 10 then 48 + v else 87 + v.
Definition hex_byte (b : Z) : list Z := [hexit (b / 16); hexit (b mod 16)].

Fixpoint mac_text (bs : list Z) : list Z :=
  match bs with
  | [] => []
  | [b] => hex_byte b
  | b :: bs => hex_byte b ++ 58 :: mac_text bs
  end.

Lemma hex_digit_char v : 0 <= v < 16 -> hex_digit (hexit v) = Some v.
Proof.
  intros Hv. unfold hex_digit, hexit, isdigit. destruct (Z.ltb_spec v 10).
  - replace ((48 <=? 48 + v) && (48 + v <=? 57)) with true by lia. f_equal. lia.
  - replace ((48 <=? 87 + v) && (87 + v <=? 57)) with false by lia. replace ((97 <=? 87 + v) && (87 + v <=? 102)) with true by lia. f_equal. lia.
Qed.

Lemma hex_byte_read b n r : is_byte b -> (r = [] \/ exists r', r = 58 :: r') ->
  haddr_loop (S n) (hex_byte b ++ r) = let '(bs, ok) := haddr_loop n (match r with x :: s' => if is_mark x then s' else r | [] => r end) in (b :: bs, ok).
Proof.
  intros Hb Hr. unfold is_byte in Hb. unfold hex_byte. cbn [app haddr_loop]. rewrite !hex_digit_char by (Z.to_euclidean_division_equations; lia).
  assert (Z.lor (Z.shiftl (b / 16) 4) (b mod 16) = b) as ->; [|done].
  rewrite Z.shiftl_mul_pow2 by lia. change (2 ^ 4) with 16. rewrite <- (Z.lor_comm (b mod 16)). rewrite <- Z.add_nocarry_lor; [Z.to_euclidean_division_equations; lia|].
  apply Z.bits_inj'. intros i Hi. rewrite Z.bits_0, Z.land_spec. destruct (Z.lt_ge_cases i 4) as [Hlt|Hge].
  - change 16 with (2 ^ 4). rewrite Z.mul_pow2_bits_low by lia. apply andb_false_r.
  - change 16 with (2 ^ 4). rewrite Z.mod_pow2_bits_high by lia. done.
Qed.

Lemma mac_read bs : bytes bs -> bs <> [] -> haddr_loop (length bs) (mac_text bs) = (bs, true).
Proof.
  induction 1 as [|b bs Hb Hbs IH]; [done|]. intros _. destruct bs as [|b' bs]; cbn [mac_text length].
  - rewrite <- (app_nil_r (hex_byte b)), hex_byte_read by (by auto). done.
  - rewrite hex_byte_read by (try done; right; by eexists). change (is_mark 58) with true. cbv iota. change (match bs with [] => hex_byte b' | _ :: _ => hex_byte b' ++ 58 :: mac_text bs end) with (mac_text (b' :: bs)).
    cbn [length] in IH. by rewrite IH.
Qed.

Lemma mac_length bs : zlen (mac_text bs) = Z.max 0 (3 * zlen bs - 1).
Proof.
  induction bs as [|b bs IH]; [done|]. destruct bs as [|b' bs]; [done|]. change (mac_text (b :: b' :: bs)) with (hex_byte b ++ 58 :: mac_text (b' :: bs)).
  rewrite length_app. cbn [length hex_byte] in *. lia.
Qed.

Lemma mac_plain bs : bytes bs -> bs <> [] -> plain COMMA_DASH (mac_text bs) /\ plain COMMA (mac_text bs).
Proof.
  intros Hb Hn. assert (plain COMMA_DASH (mac_text bs)); [|split; [done|by apply comma_plain]]. split; [by destruct bs as [|? []]|]. clear Hn.
  assert (forall b, is_byte b -> Forall (fun c => one_of COMMA_DASH c = false) (hex_byte b)) as Hh.
  { intros b Hb'. unfold is_byte in Hb'. unfold hex_byte, hexit, one_of, COMMA_DASH. repeat constructor; cbn [existsb]; repeat case_match; Z.to_euclidean_division_equations; lia. }
  induction Hb as [|b bs Hb Hbs IH]; [constructor|]. destruct bs as [|b' bs]; cbn [mac_text]; [by apply Hh|]. apply Forall_app. split; [by apply Hh|]. constructor; [done|exact IH].
Qed.

(** ** Entries *)

Inductive opt_value := O_ips (ns : list Z) | O_text (s : list Z) | O_num (n : Z).

(** Addresses and numbers as numbers, a hardware address as its bytes. *)
Inductive entry :=
  | E_ip (v : ip_var) (n : Z) | E_str (v : str_var) (s : list Z) | E_num (v : num_var) (n : Z) | E_yn (v : yn_var) (b : bool)
  | E_opt (o : dhcp_option) (x : opt_value) | E_static (name : list Z) (n : Z) (mac : list Z).

Definition entry_handler (e : entry) : handler :=
  match e with
  | E_ip v _ => Read_ip v
  | E_str v _ => Read_str v
  | E_num v _ => Read_u32 v
  | E_yn v _ => Read_yn v
  | E_opt _ _ => Read_opt
  | E_static _ _ _ => Read_static
  end.

Definition handler_word (h : handler) : list Z :=
  cs match h with
     | Read_ip V_start => "start" | Read_ip V_end => "end" | Read_ip V_siaddr => "siaddr"
     | Read_str V_interface => "interface" | Read_str V_lease_file => "lease_file" | Read_str V_pidfile => "pidfile"
     | Read_str V_notify_file => "notify_file" | Read_str V_sname => "sname" | Read_str V_boot_file => "boot_file"
     | Read_str V_dhcp_helper => "dhcp_helper"
     | Read_u32 V_max_leases => "max_leases" | Read_u32 V_auto_time => "auto_time" | Read_u32 V_decline_time => "decline_time"
     | Read_u32 V_conflict_time => "conflict_time" | Read_u32 V_offer_time => "offer_time" | Read_u32 V_min_lease => "min_lease"
     | Read_yn V_remaining => "remaining" | Read_yn V_force_bcast => "force_bcast"
     | Read_opt => "opt" | Read_static => "static"
     end.

Fixpoint spaced (ws : list (list Z)) : list Z :=
  match ws with
  | [] => []
  | [w] => w
  | w :: ws => w ++ 32 :: spaced ws
  end.

Definition opt_text (x : opt_value) : list Z :=
  match x with
  | O_ips ns => spaced (map dotted ns)
  | O_text s => s
  | O_num n => XmldbFile.dec n
  end.

Definition value_text (e : entry) : list Z :=
  match e with
  | E_ip _ n => dotted n
  | E_str _ s => s
  | E_num _ n => XmldbFile.dec n
  | E_yn _ b => if b then str_yes else str_no
  | E_opt o x => o_name o ++ 32 :: opt_text x
  | E_static name n mac => name ++ 32 :: dotted n ++ 32 :: mac_text mac
  end.

(** The line of an entry: the keyword, a blank, the value. *)
Definition entry_text (e : entry) : list Z := handler_word (entry_handler e) ++ 32 :: value_text e.

(** Text that is the value of a line as it stands: no zero and no newline, and white space only in the middle. *)
Record text_ok (s : list Z) : Prop := {
  t_chars : Forall (fun c => c <> 0 /\ c <> 10) s;
  t_head : exists c w, s = c :: w /\ one_of BLANK_EQ c = false;
  t_last : exists w c, s = w ++ [c] /\ isspace c = false
}.

Definition type_of (o : dhcp_option) : Z := Z.land (o_flags o) TYPE_MASK.

Definition opt_fits (o : dhcp_option) (x : opt_value) : Prop :=
  o ∈ option_table /\
  match x with
  | O_ips ns => type_of o = OPTION_IP /\ ns <> [] /\ Forall (is_word 4) ns /\ (Z.land (o_flags o) OPTION_LIST = 0 -> length ns = 1%nat)
  | O_text s => type_of o = OPTION_STRING /\ text_ok s /\ zlen s <= 254
  | O_num n => (type_of o = OPTION_U8 /\ is_byte n) \/ (type_of o = OPTION_U16 /\ is_word 2 n) \/ (type_of o = OPTION_U32 /\ is_word 4 n)
  end.

(** An entry whose value can be written, on a line that fits into the buffer. *)
Definition entry_fits (e : entry) : Prop :=
  (length (entry_text e) < BUFFER - 1)%nat /\
  match e with
  | E_ip _ n | E_num _ n => is_word 4 n
  | E_str _ s => text_ok s
  | E_yn _ _ => True
  | E_opt o x => opt_fits o x
  | E_static name n mac => text_ok name /\ plain COMMA name /\ zlen name < 64 /\ is_word 4 n /\ length mac = 6%nat /\ bytes mac
  end.

Lemma text_chars s : Forall in_number s -> s <> [] -> text_ok s.
Proof.
  intros Hs Hn. assert (forall c, in_number c -> c <> 0 /\ c <> 10 /\ one_of BLANK_EQ c = false /\ isspace c = false) as Hc.
  { intros c [Hd| ->]; [|done]. unfold isdigit in Hd. bprop. unfold one_of, BLANK_EQ, isspace, Xmldb.isspace. cbn [existsb]. lia. }
  split.
  - eapply List.Forall_impl; [|exact Hs]. intros c Hin. destruct (Hc c Hin) as (? & ? & _). done.
  - destruct Hs as [|c w Hin _]; [done|]. exists c, w. split; [done|]. apply (Hc c Hin).
  - destruct (exists_last Hn) as (w & c & ->). exists w, c. split; [done|]. apply Forall_app in Hs as [_ Hl]. apply Forall_cons_iff in Hl as [Hin _]. apply (Hc c Hin).
Qed.

Lemma text_spaced a b : text_ok a -> text_ok b -> text_ok (a ++ 32 :: b).
Proof.
  intros [A1 (c & w & -> & Hc) _] [B1 _ (w' & c' & -> & Hc')]. split; [apply Forall_app; split; [done|by constructor]|by exists c, (w ++ 32 :: w' ++ [c'])|].
  exists ((c :: w) ++ 32 :: w'), c'. by rewrite <- app_assoc.
Qed.

Lemma text_words ws : Forall text_ok ws -> ws <> [] -> text_ok (spaced ws).
Proof.
  induction 1 as [|w ws Hw Hws IH]; [done|]. intros _. destruct ws as [|w' ws]; [done|]. change (spaced (w :: w' :: ws)) with (w ++ 32 :: spaced (w' :: ws)). apply text_spaced; auto.
Qed.

Lemma dotted_text n : is_word 4 n -> text_ok (dotted n).
Proof. intros Hn. destruct (dotted_chars n Hn). by apply text_chars. Qed.

Lemma spaced_length ns : Forall (is_word 4) ns -> (length ns <= length (spaced (map dotted ns)))%nat.
Proof.
  induction 1 as [|n ns Hn _ IH]; [done|]. destruct (dotted_chars n Hn) as [_ Hd]. assert (1 <= length (dotted n))%nat as Hl by (destruct (dotted n); [done|cbn; lia]).
  destruct ns as [|n' ns]; [cbn [map spaced length]; lia|]. change (spaced (map dotted (n :: n' :: ns))) with (dotted n ++ 32 :: spaced (map dotted (n' :: ns))).
  rewrite length_app. cbn [length] in *. lia.
Qed.

Lemma dec_text n : 0 <= n -> text_ok (XmldbFile.dec n).
Proof. intros Hn. apply text_chars; [by apply dec_chars|]. by destruct (XmldbFile.dec_nonempty n) as (c & tl & ->). Qed.

Lemma computed_text s : match s with [] => false | c :: _ => negb (one_of BLANK_EQ c) end && match rev s with [] => false | c :: _ => negb (isspace c) end &&
  forallb (fun c => negb (c =? 0) && negb (c =? 10)) s = true -> text_ok s.
Proof.
  intros E. apply andb_true_iff in E as [E1 E3]. apply andb_true_iff in E1 as [E1 E2]. split.
  - rewrite forallb_forall in E3. apply List.Forall_forall. intros c Hc. specialize (E3 c Hc). apply andb_true_iff in E3 as [H1 H2]. bprop. done.
  - destruct s as [|c w]; [done|]. exists c, w. by destruct (one_of BLANK_EQ c).
  - destruct (rev s) as [|c w] eqn:E; [done|]. exists (rev w), c. split; [by rewrite <- (rev_involutive s), E|]. by destruct (isspace c).
Qed.

Lemma mac_text_ok bs : bytes bs -> bs <> [] -> text_ok (mac_text bs).
Proof.
  assert (forall b, is_byte b -> text_ok (hex_byte b)) as Hh.
  { intros b Hb. unfold is_byte in Hb. unfold hex_byte. apply computed_text. unfold hexit, one_of, BLANK_EQ, isspace, Xmldb.isspace. cbn [existsb rev app forallb].
    repeat case_match; Z.to_euclidean_division_equations; lia. }
  induction 1 as [|b bs Hb Hbs IH]; [done|]. intros _. destruct bs as [|b' bs]; [by apply Hh|]. change (mac_text (b :: b' :: bs)) with (hex_byte b ++ 58 :: mac_text (b' :: bs)).
  destruct (Hh b Hb) as [H1 (c & w & Ec & Hc) _]. destruct (IH ltac:(done)) as [I1 _ (w' & c' & Ec' & Hc')]. split.
  - apply Forall_app. split; [done|]. by constructor.
  - rewrite Ec. by exists c, (w ++ 58 :: mac_text (b' :: bs)).
  - exists (hex_byte b ++ 58 :: w'), c'. rewrite Ec', <- app_assoc. done.
Qed.

Lemma table_names : Forall (fun o => text_ok (o_name o) /\ plain BLANK_EQ (o_name o) /\ named None (o_name o) = Some o) option_table.
Proof.
  unfold option_table. repeat (constructor; [split_and!; [apply computed_text; reflexivity|split; [done|repeat (constructor; [reflexivity|]); constructor]|reflexivity]|]). constructor.
Qed.

Lemma name_text o : o ∈ option_table -> text_ok (o_name o) /\ plain BLANK_EQ (o_name o) /\ named None (o_name o) = Some o.
Proof. intros Ho. exact (proj1 (List.Forall_forall _ _) table_names o (proj1 (list_elem_of_In _ _) Ho)). Qed.

Lemma value_text_ok e : entry_fits e -> text_ok (value_text e).
Proof.
  intros [_ He]. destruct e as [v n|v s|v n|v b|o x|name n mac]; cbn [value_text].
  - by apply dotted_text.
  - done.
  - apply dec_text. unfold is_word in He. lia.
  - by destruct b; apply computed_text.
  - destruct He as [Ho Hx]. apply text_spaced; [by apply name_text|]. destruct x as [ns|s|n]; cbn [opt_text].
    + destruct Hx as (_ & Hn & Hns & _). apply text_words; [|by destruct ns]. apply Forall_map. eapply List.Forall_impl; [|exact Hns]. intros n. apply dotted_text.
    + apply Hx.
    + apply dec_text. unfold is_byte, is_word in Hx. destruct Hx as [[_ Hx]|[[_ Hx]|[_ Hx]]]; lia.
  - destruct He as (Ht & _ & _ & Hn & Hm & Hb). apply text_spaced; [done|]. apply text_spaced; [by apply dotted_text|]. apply mac_text_ok; [done|by destruct mac].
Qed.

(** ** Lines *)

Lemma trim_text s : text_ok s -> trim_end s = (s, []).
Proof.
  intros [_ _ (w & c & -> & Hc)]. unfold trim_end. rewrite rev_app_distr. cbn [rev app eat]. rewrite Hc. cbn [rev]. rewrite rev_involutive. f_equal.
  apply drop_ge. rewrite length_app. cbn [length]. rewrite length_rev. lia.
Qed.

Lemma split_line_text kw val : plain BLANK_EQ kw -> text_ok val -> split_line (kw ++ 32 :: val) = Some (kw, val, []).
Proof.
  intros Hk Hv. unfold split_line. assert (plain BLANK kw) as Hb.
  { destruct Hk as [Hn Hk]. split; [done|]. eapply List.Forall_impl; [|exact Hk]. intros c. unfold one_of, BLANK, BLANK_EQ. cbn [existsb]. rewrite !orb_false_iff. tauto. }
  rewrite eat_plain by done. destruct (kw ++ 32 :: val) as [|x y] eqn:E; [by destruct kw|]. rewrite <- E. clear x y E. rewrite split_plain by (try done; apply Hk).
  destruct (t_head _ Hv) as (c & w & Ev & Hc). rewrite Ev. cbn [eat]. rewrite Hc, <- Ev, trim_text by done. done.
Qed.

Lemma line_of_text s : Forall (fun c => c <> 0 /\ c <> 10) s -> line_of s = s.
Proof.
  unfold line_of. induction 1 as [|c s [Hc Hn] _ IH]; [done|]. cbn [split_at]. rewrite (proj2 (Z.eqb_neq _ _) Hc), (proj2 (Z.eqb_neq _ _) Hn). cbn [orb].
  destruct (split_at _ s). cbn in *. by rewrite IH.
Qed.

Lemma word_plain h : plain BLANK_EQ (handler_word h) /\ Forall (fun c => c <> 0 /\ c <> 10) (handler_word h).
Proof. split; [split|]; destruct h as [[]|[]|[]|[]| |]; try done; repeat (constructor; [done|]); constructor. Qed.

(** ** Their effect *)

Section Effects.
Context `{Endian} (dns : list Z -> option Z).

(** The data of the values of an option. *)
Definition opt_data (o : dhcp_option) (x : opt_value) : list (list Z) :=
  match x with
  | O_ips ns => map (fun n => store 4 (htonl n)) ns
  | O_text s => [s]
  | O_num n => [if type_of o =? OPTION_U8 then [n] else if type_of o =? OPTION_U16 then store 2 (htons n) else store 4 (htonl n)]
  end.

Definition apply_entry (c : conf) (e : entry) : conf :=
  match e with
  | E_ip v n => mkconf (<[v := htonl n]> (ips c)) (strs c) (nums c) (yns c) (opts c) (statics c)
  | E_str v s => mkconf (ips c) (<[v := Some s]> (strs c)) (nums c) (yns c) (opts c) (statics c)
  | E_num v n => mkconf (ips c) (strs c) (<[v := n]> (nums c)) (yns c) (opts c) (statics c)
  | E_yn v b => mkconf (ips c) (strs c) (nums c) (<[v := if b then 1 else 0]> (yns c)) (opts c) (statics c)
  | E_opt o x => mkconf (ips c) (strs c) (nums c) (yns c) (foldl (fun l d => attach_option l o d) (opts c) (opt_data o x)) (statics c)
  | E_static name n mac =>
      mkconf (ips c) (strs c) (nums c) (yns c) (opts c)
        (statics c ++ [mklease (mac ++ replicate 10 0) (htonl n) 0xFFFFFFFF 0 (name ++ replicate (64 - length name) 0) (cpyopttostatic_leases (opts c) [])])
  end.

(** ** Values are read *)

Lemma read_ip_dotted n : is_word 4 n -> read_ip dns (dotted n) = Some (htonl n).
Proof using Type. intros Hn. unfold read_ip, inet_aton. by rewrite quad_dotted. Qed.

Lemma read_ips o : type_of o = OPTION_IP -> Z.land (o_flags o) OPTION_LIST <> 0 -> forall ns val fuel rv l, Forall (is_word 4) ns -> (length ns < fuel)%nat ->
  opt_loop dns fuel o val (spaced (map dotted ns)) rv l = Some (match ns with [] => rv | _ => true end, foldl (fun l d => attach_option l o d) l (opt_data o (O_ips ns))).
Proof using Type.
  intros Ht Hlist. unfold type_of in Ht. assert ((1 <? option_length o) = true) as Hlen by (unfold option_length; by rewrite Ht).
  induction ns as [|n ns IH]; intros val fuel rv l Hns Hf; (destruct fuel as [|fuel]; [cbn in Hf; lia|]); cbn [opt_loop]; rewrite Hlen; [done|].
  apply Forall_cons_iff in Hns as [Hn Hns]. destruct (dotted_chars n Hn) as [Hc Hne]. pose proof (number_plain COMMA (dotted n) Hc Hne ltac:(rewrite !elem_of_cons; auto)) as Hp.
  assert (strtok COMMA (spaced (map dotted (n :: ns))) = Some (dotted n, spaced (map dotted ns))) as ->.
  { destruct ns as [|n' ns]; [by apply strtok_plain_end|]. change (spaced (map dotted (n :: n' :: ns))) with (dotted n ++ 32 :: spaced (map dotted (n' :: ns))). by apply strtok_plain. }
  unfold read_value. rewrite Ht. change (OPTION_IP =? OPTION_IP) with true. cbv iota. rewrite read_ip_dotted by done. rewrite (proj2 (Z.eqb_neq _ _) Hlist). cbn [negb].
  rewrite IH by (try done; cbn [length] in Hf; lia). by destruct ns.
Qed.

Lemma read_one o val rest fuel rv l d rest' : (if 1 <? option_length o then strtok COMMA rest else Some (val, rest)) = Some (val, rest') ->
  Z.land (o_flags o) OPTION_LIST = 0 -> read_value dns o val rest' = (Value d, rest') -> opt_loop dns (S fuel) o val rest rv l = Some (true, attach_option l o d).
Proof using Type. intros E Hl Hv. cbn [opt_loop]. by rewrite E, Hv, Hl. Qed.

Lemma opt_loop_value fuel o val val' rest rv l : 1 < option_length o -> opt_loop dns fuel o val rest rv l = opt_loop dns fuel o val' rest rv l.
Proof using Type.
  intros Hlen. revert rest rv l. induction fuel as [|fuel IH]; intros rest rv l; [done|]. cbn [opt_loop]. rewrite (proj2 (Z.ltb_lt _ _) Hlen).
  destruct (strtok COMMA rest) as [[w r]|]; [|done]. destruct (read_value dns o w r) as [[d| |] r']; [|done|done]. destruct (negb _); [|done]. apply IH.
Qed.

Lemma table_lists : Forall (fun o => Z.land (o_flags o) OPTION_LIST <> 0 -> type_of o <> OPTION_STRING /\ type_of o <> OPTION_U8 /\ type_of o <> OPTION_U16 /\ type_of o <> OPTION_U32) option_table.
Proof using Type. unfold option_table. repeat (constructor; [intros Hl; first [by destruct Hl|by split_and!]|]). constructor. Qed.

(** One value, of an option that is not a list. *)
Lemma read_opt_value o x behind l : opt_fits o x -> read_opt dns (o_name o ++ 32 :: opt_text x) behind l = Some (true, foldl (fun l d => attach_option l o d) l (opt_data o x)).
Proof using Type.
  intros [Ho Hx]. destruct (name_text o Ho) as (_ & Hp & Hnamed). unfold read_opt. rewrite strtok_plain by done. rewrite Hnamed.
  assert (exists val, (if 1 <? option_length o then Some [] else if (length (o_name o) <? length (o_name o ++ 32%Z :: opt_text x))%nat
    then Some (drop (S (length (o_name o))) (o_name o ++ 32 :: opt_text x)) else string_at behind) = Some val /\ (option_length o <= 1 -> val = opt_text x)) as (val & -> & Hval).
  { destruct (Z.ltb_spec 1 (option_length o)); [by exists []; split; [|lia]|]. rewrite (proj2 (Nat.ltb_lt _ _)) by (rewrite length_app; cbn [length]; lia). eexists. split; [reflexivity|]. intros _.
    rewrite (cons_middle 32), app_assoc. by rewrite drop_app_length' by (rewrite length_app; cbn; lia). }
  cbn [mbind option_bind]. set (fuel := length (o_name o ++ 32 :: opt_text x)).
  assert (type_of o = OPTION_STRING \/ type_of o = OPTION_U8 \/ type_of o = OPTION_U16 \/ type_of o = OPTION_U32 -> Z.land (o_flags o) OPTION_LIST = 0) as Hnl.
  { intros Ht. destruct (Z.eq_dec (Z.land (o_flags o) OPTION_LIST) 0) as [|Hl]; [done|]. pose proof (proj1 (List.Forall_forall _ _) table_lists o (proj1 (list_elem_of_In _ _) Ho) Hl). cbn beta in *. tauto. }
  unfold type_of in *. destruct x as [ns|s|n]; cbn [opt_text opt_data foldl] in *.
  - destruct Hx as (Ht & Hne & Hns & Hone). destruct (Z.eq_dec (Z.land (o_flags o) OPTION_LIST) 0) as [E|E].
    + destruct ns as [|n [|]]; try (specialize (Hone E); cbn in Hone; lia). apply Forall_cons_iff in Hns as [Hn _]. cbn [map spaced foldl].
      assert (1 < option_length o) as Hlen by (unfold option_length; by rewrite Ht). destruct (dotted_chars n Hn) as [Hc Hd]. rewrite (opt_loop_value _ o val (dotted n)) by done.
      apply (read_one o (dotted n) (dotted n) fuel false l _ []); [rewrite (proj2 (Z.ltb_lt _ _) Hlen); apply strtok_plain_end, number_plain; [done|done|rewrite !elem_of_cons; auto]|done|].
      unfold read_value. rewrite Ht. change (OPTION_IP =? OPTION_IP) with true. cbv iota. by rewrite read_ip_dotted.
    + rewrite (read_ips o Ht E) by (try done; unfold fuel; rewrite length_app; cbn [length opt_text]; pose proof (spaced_length ns Hns); lia). by destruct ns.
  - destruct Hx as (Ht & Hs & Hlen). assert (option_length o = 1) as Hl by (unfold option_length; by rewrite Ht). rewrite (Hval ltac:(lia)).
    apply (read_one o s s fuel false l s s); [by rewrite Hl|auto|]. unfold read_value. rewrite Ht. destruct (t_head _ Hs) as (c & w & -> & _). cbv iota beta. by rewrite take_ge by lia.
  - unfold type_of. destruct Hx as [[Ht Hn]|[[Ht Hn]|[Ht Hn]]].
    + assert (option_length o = 1) as Hl by (unfold option_length; by rewrite Ht). rewrite (Hval ltac:(lia)), Ht. change (OPTION_U8 =? OPTION_U8) with true. cbv iota.
      apply (read_one o (XmldbFile.dec n) (XmldbFile.dec n) fuel false l _ (XmldbFile.dec n)); [by rewrite Hl|auto|]. unfold read_value. rewrite Ht.
      unfold is_byte in Hn. rewrite strtoul_end by (unfold is_word; cbn; lia). cbn. by rewrite u8_small.
    + assert (1 < option_length o) as Hl by (unfold option_length; by rewrite Ht). unfold is_word in Hn. cbn in Hn. rewrite (opt_loop_value _ o val (XmldbFile.dec n)) by done. rewrite Ht.
      apply (read_one o (XmldbFile.dec n) (XmldbFile.dec n) fuel false l _ []); [rewrite (proj2 (Z.ltb_lt _ _) Hl); apply strtok_number; lia|auto|]. unfold read_value. rewrite Ht.
      rewrite strtoul_end by (unfold is_word; cbn; lia). cbn [checked]. unfold u16. by rewrite Z.mod_small by (cbn; lia).
    + assert (1 < option_length o) as Hl by (unfold option_length; by rewrite Ht). pose proof Hn as Hn'. unfold is_word in Hn'. cbn in Hn'. rewrite (opt_loop_value _ o val (XmldbFile.dec n)) by done. rewrite Ht.
      apply (read_one o (XmldbFile.dec n) (XmldbFile.dec n) fuel false l _ []); [rewrite (proj2 (Z.ltb_lt _ _) Hl); apply strtok_number; lia|auto|]. unfold read_value. rewrite Ht.
      by rewrite strtoul_end by done.
Qed.

(** ** Lines are read *)

(** The keyword of a handler calls it, and no other. *)
Lemma try_word h line behind c c' : handle_value dns h line behind c = Some (true, c') -> try_keywords dns keywords (handler_word h) line behind c = Some c'.
Proof using Type.
  intros Hh. unfold keywords. destruct h as [[]|[]|[]|[]| |]; cbn [try_keywords keyword kw_handler];
    repeat match goal with |- context [strcasecmp ?a ?b =? 0] => let v := eval vm_compute in (strcasecmp a b =? 0) in change (strcasecmp a b =? 0) with v end;
    cbv iota; cbn [mbind option_bind]; rewrite Hh; reflexivity.
Qed.

Lemma entry_read e behind c : entry_fits e -> (length (statics c) < MAX_STATIC_LEASES)%nat \/ entry_handler e <> Read_static ->
  handle_value dns (entry_handler e) (value_text e) behind c = Some (true, apply_entry c e).
Proof using Type.
  intros [_ He] Hroom. destruct e as [v n|v s|v n|v b|o x|name n mac]; cbn [entry_handler value_text handle_value apply_entry].
  - by rewrite read_ip_dotted.
  - done.
  - unfold read_u32. by rewrite strtoul_end.
  - by destruct b.
  - by rewrite read_opt_value.
  - destruct He as (_ & Hn & H64 & Hw & Hm & Hb). destruct Hroom as [Hroom|Hroom]; [|done]. assert (mac <> []) as Hne by (by destruct mac). destruct (mac_plain mac Hb Hne) as [Hp1 Hp2].
    destruct (dotted_chars n Hw) as [Hc Hd].
    destruct (read_static_words dns name (dotted n) (mac_text mac) (opts c) (statics c) (htonl n)) as (h & host & -> & Hh & Hhost); try done.
    + apply number_plain; [done|done|rewrite !elem_of_cons; auto].
    + lia.
    + rewrite mac_length, Hm. lia.
    + by apply read_ip_dotted.
    + cbn [mbind option_bind fst snd]. do 3 f_equal. unfold read_haddr in Hh. rewrite strtok_plain_end in Hh by done. cbn [mbind option_bind] in Hh.
      rewrite <- Hm, mac_read in Hh by done. cbn [fmap option_fmap option_map fst] in Hh. rewrite Hm in Hh. injection Hh as <-. unfold static_name in Hhost.
      rewrite (proj2 (Z.ltb_ge _ _)), (proj2 (Z.eqb_neq _ _)) in Hhost by lia. by injection Hhost as <-.
Qed.

(** ** Files are read *)

Context (stale : nat -> list Z).

Definition is_static (e : entry) : bool := match e with E_static _ _ _ => true | _ => false end.

Lemma entry_text_line e : entry_fits e -> (10 ∉ entry_text e) /\ line_of (entry_text e) = entry_text e.
Proof using Type.
  intros He. assert (Forall (fun c => c <> 0 /\ c <> 10) (entry_text e)) as Hc.
  { apply Forall_app. split; [apply word_plain|]. constructor; [done|]. by apply value_text_ok. }
  split; [|by apply line_of_text]. intros Hin. apply list_elem_of_In in Hin. by destruct (proj1 (List.Forall_forall _ _) Hc 10 Hin).
Qed.

Lemma entries_read es : forall fuel k c, Forall entry_fits es -> (length (statics c) + length (List.filter is_static es) <= MAX_STATIC_LEASES)%nat ->
  (length (file_of (map entry_text es)) < fuel)%nat -> read_lines dns stale fuel k (file_of (map entry_text es)) c = Some (foldl apply_entry c es).
Proof using Type.
  induction es as [|e es IH]; intros fuel k c Hes Hroom Hf; (destruct fuel as [|fuel]; [lia|]); [done|]. apply Forall_cons_iff in Hes as [He Hes].
  destruct (entry_text_line e He) as [Hnl Hline]. cbn [map] in *. set (l := entry_text e) in *.
  assert (file_of (l :: map entry_text es) = l ++ 10 :: file_of (map entry_text es)) as E by (unfold file_of; cbn [flat_map]; by rewrite <- app_assoc). rewrite E in *. cbn [read_lines].
  rewrite fgets_line by (try done; apply He). rewrite line_of_newline, Hline. unfold read_line, l at 1, entry_text. rewrite split_line_text by (try apply word_plain; by apply value_text_ok).
  rewrite (try_word _ _ _ _ (apply_entry c e)).
  - cbn [mbind option_bind foldl]. apply IH; [done| |rewrite length_app in Hf; cbn [length] in Hf; lia]. cbn [List.filter] in Hroom. destruct e; cbn [is_static length apply_entry statics] in *; try lia.
    rewrite length_app. cbn [length]. lia.
  - apply entry_read; [done|]. destruct e; try (by right). left. cbn [List.filter is_static length] in Hroom. lia.
Qed.

(** The defaults, as entries. *)
Definition default_entries : list entry :=
  [E_ip V_start 0xC0A80014; E_ip V_end 0xC0A800FE; E_str V_interface (cs "eth0"); E_num V_max_leases 254; E_yn V_remaining true;
   E_num V_auto_time 7200; E_num V_decline_time 3600; E_num V_conflict_time 3600; E_num V_offer_time 60; E_num V_min_lease 60;
   E_str V_lease_file (cs "/var/lib/misc/udhcpd.leases"); E_str V_pidfile (cs "/var/run/udhcpd.pid"); E_ip V_siaddr 0; E_yn V_force_bcast false].

Definition has_default (k : config_keyword) : bool := match def k with [] => false | _ => true end.
Definition default_of (k : config_keyword) (e : entry) : Prop := kw_handler k = entry_handler e /\ def k = value_text e /\ entry_fits e /\ is_static e = false.

Lemma set_defaults_entries ks : forall es c, Forall2 default_of (List.filter has_default ks) es -> set_defaults dns ks c = Some (foldl apply_entry c es).
Proof using Type.
  induction ks as [|k ks IH]; intros es c Hes; cbn [List.filter] in Hes; [by apply Forall2_nil_inv_l in Hes as ->|]. cbn [set_defaults].
  assert (has_default k = match def k with [] => false | _ => true end) as Hd by done. destruct (def k) as [|x d] eqn:Ed; rewrite Hd in Hes; [cbn [mbind option_bind]; by apply IH|].
  apply Forall2_cons_inv_l in Hes as (e & es' & (E1 & E2 & E3 & E4) & Hes & ->). unfold set_default. rewrite E1, Ed, <- Ed, E2, entry_read by (try done; right; by destruct e).
  cbn [fmap option_fmap option_map snd mbind option_bind foldl]. by apply IH.
Qed.

Lemma defaults_entries : Forall2 default_of (List.filter has_default keywords) default_entries.
Proof using Type.
  let l := eval vm_compute in (List.filter has_default keywords) in change (List.filter has_default keywords) with l. unfold default_entries.
  repeat (constructor; [split_and!; [reflexivity|vm_compute; reflexivity|split; [vm_compute; lia|first [exact I|by vm_compute|by apply computed_text]]|reflexivity]|]). constructor.
Qed.

(** C17. A file that is written from entries is read with just their effects: each address, text, number and choice is stored under
    its keyword, the last one counts; the values of options are attached in the order of the lines, and reserved addresses, at
    most 32, get the options that are known by then.  What the file does not mention has its default. *)
Theorem config_read_back es : Forall entry_fits es -> (length (List.filter is_static es) <= MAX_STATIC_LEASES)%nat ->
  read_config dns stale (Some (file_of (map entry_text es))) = Some (foldl apply_entry zero_conf (default_entries ++ es)).
Proof using Type.
  intros Hes Hroom. unfold read_config. rewrite (set_defaults_entries _ _ _ defaults_entries). cbn [mbind option_bind]. rewrite foldl_app.
  apply entries_read; [done|exact Hroom|lia].
Qed.

End Effects.
(** ** A file of the router *)

#[local] Instance be_config : Endian := { big := true }.

Definition no_dns (s : list Z) : option Z := None.
Definition clean (k : nat) : list Z := replicate 153 0.
Definition opt_named (s : string) : dhcp_option := default (mkopt [] 0 0) (named None (cs s)).

Definition router_entries : list entry :=
  [E_num V_auto_time 10; E_ip V_start 0xC0A80064; E_ip V_end 0xC0A800C7; E_str V_interface (cs "br0");
   E_opt (opt_named "subnet") (O_ips [0xFFFFFF00]); E_opt (opt_named "domain") (O_text (cs "my lan"));
   E_opt (opt_named "dns") (O_ips [0x0A000001; 0x0A000002]); E_opt (opt_named "lease") (O_num 604800);
   E_static (cs "pc") 0xC0A80096 [0; 0x11; 0x22; 0x33; 0x44; 0x5f]; E_yn V_force_bcast true].

Lemma router_entries_fit : Forall entry_fits router_entries.
Proof.
  assert (forall s, named None (cs s) = Some (opt_named s) -> opt_named s ∈ option_table) as Hin.
  { intros s E. unfold named in E. assert (forall l old o, foldl (fun r o => if strcmp (o_name o) (cs s) =? 0 then Some o else r) old l = Some o -> o ∈ l \/ old = Some o) as Hl.
    { induction l as [|x l IH]; intros old o E'; cbn [foldl] in E'; [by right|]. apply IH in E' as [?|E']; [left; by right|]. destruct (_ =? 0); [left; injection E' as ->; by left|by right]. }
    by apply Hl in E as [?|?]. }
  unfold router_entries. repeat (apply Forall_cons_2; [split; [vm_compute; lia|]|]); [..|constructor].
  1-3: by vm_compute.
  - by apply computed_text.
  - split; [by apply Hin|]. split_and!; [done|done|by repeat constructor|done].
  - split; [by apply Hin|]. split_and!; [done|by apply computed_text|by vm_compute].
  - split; [by apply Hin|]. split_and!; [done|done|by repeat constructor|by vm_compute].
  - split; [by apply Hin|]. right. right. by split.
  - split_and!; [by apply computed_text|split; [done|by repeat constructor]|by vm_compute|done|done|by repeat constructor].
  - exact I.
Qed.

Lemma config_read_back_witness : (fun c => (ips c V_start, nums c V_max_leases, map l_yiaddr (statics c), opts c)) <$> read_config no_dns clean (Some (file_of (map entry_text router_entries))) =
  Some (0xC0A80064, 254, [0xC0A80096], [[1; 4; 255; 255; 255; 0]; [6; 8; 10; 0; 0; 1; 10; 0; 0; 2]; [15; 6; 109; 121; 32; 108; 97; 110]; [51; 4; 0; 9; 58; 128]]).
Proof. rewrite (config_read_back no_dns clean router_entries router_entries_fit ltac:(vm_compute; lia)). vm_compute. reflexivity. Defined.

(** ** What goes wrong *)

Definition read_text (lines : list string) : option conf := read_config no_dns clean (Some (file_of (map cs lines))).

(** A reserved address that is not one: what is stored for it is whatever was on the stack. *)
Example static_address_unset : read_text ["static pc host 00:11:22:33:44:55"]%string = None.
Proof. by vm_compute. Qed.

(** A hardware address with dashes is cut at the first one; its rest is taken for an option, of which there is none. *)
Example static_dashes : read_text ["static pc 192.168.0.50 00-11-22-33-44-55"]%string = None.
Proof. by vm_compute. Qed.

(** The value of an unknown option of a reserved address goes to the option before it. *)
Example static_unknown_option :
  map l_options ∘ statics <$> read_text ["static pc 192.168.0.50 00:11:22:33:44:55 router 10.0.0.1 timezome 10.0.0.9"]%string = Some [[[3; 8; 10; 0; 0; 1; 10; 0; 0; 9]]].
Proof. by vm_compute. Qed.

(** Without a value the number of leases is zero. *)
Example max_leases_missing : (fun c => nums c V_max_leases) <$> read_text ["max_leases ="]%string = Some 0.
Proof. by vm_compute. Qed.

(** A comment behind a value is part of it. *)
Example comment_in_value : (fun c => (strs c V_interface, yns c V_force_bcast)) <$> read_text ["interface eth0 #default: eth0"; "force_bcast yes #default: no"]%string =
  Some (Some (cs "eth0 #default: eth0"), 0).
Proof. by vm_compute. Qed.

End DhcpConfigText.
