(* ===== verification/DhcpScript.v ===== *)
(** * progs.gpl/udhcpcd/script.c: the script of the DHCP client and its environment.

    For each event the client runs a script, with the packet in the variables of its environment: [fill_envp] gets memory for
    each of them, of a size that is worked out before, and [fill_options] prints the data of an option by its type.  This is
    the build without the options for static routes; those are in [DhcpRoutes].

    [room n] is what [malloc(n)] really gives, nothing when it fails: the code does not look.  [None] is an access out of
    bounds; [long] has 32 bits. *)
From Stdlib Require Import ZArith Lia Bool String.
From stdpp Require Import base tactics option numbers list.
From S2P Require Import Prelude Xmldb XmldbFile DhcpOptions DhcpPacket DhcpLeases DhcpServer DhcpClient DhcpConfig DhcpConfigText.

Module DhcpScript.
Import Xmldb XmldbFile DhcpOptions DhcpPacket DhcpServer DhcpConfigText.

Definition DHCP_STATIC_ROUTE : Z := 0x21.
Definition DHCP_CLSLESS_ROUTE : Z := 0x79.
Definition DHCP_MS_ROUTE : Z := 0xf9.

(** The text of a type with a blank and the end of the string; for strings 1. *)
Definition max_option_length : list Z := [0; 17; 17 * 2; 1; 5; 5; 7; 8; 12; 13; 17 * 3 + 4].

Definition type_of (o : dhcp_option) : Z := Z.land (o_flags o) TYPE_MASK.

Definition upper_length (len : Z) (o : dhcp_option) : option Z :=
  m ← rd max_option_length (type_of o);
  n ← rd option_lengths (type_of o);
  if n =? 0 then None else Some (m * (len / n)).

(** ** Printing into a buffer *)

Definition dots (ip : list Z) : option (list Z) :=
  a ← rd ip 0; b ← rd ip 1; c ← rd ip 2; d ← rd ip 3;
  Some (dec a ++ 46 :: dec b ++ 46 :: dec c ++ 46 :: dec d).

Definition sprintip (cap : Z) (out pre pos ip : list Z) : option (list Z) :=
  t ← dots ip; sprint cap out (pre ++ t ++ pos).

(** [%ld] of a word. *)
Definition signed_text (x : Z) : list Z := if x <? 2 ^ 31 then dec x else 45 :: dec (2 ^ 32 - x).

Definition some_bytes (n : nat) (l : list Z) : option (list Z) := if Nat.leb n (length l) then Some (take n l) else None.

Definition str_host_mask : list Z := Eval cbv in cs "255.255.255.255,32,".
Definition str_yes : list Z := Eval cbv in cs "yes ".
Definition str_no : list Z := Eval cbv in cs "no ".

Section Script.
Context `{Endian}.

(** The octets of a network that are in the option, [n] of them, into an array of four. *)
Fixpoint copy_octets (n : nat) (i : Z) (dst opt : list Z) : option (list Z) :=
  match n with
  | O => Some dst
  | S n => x ← rd opt (i + 1); dst ← wr dst i x; copy_octets n (i + 1) dst opt
  end.

(** The processor shifts by the count modulo 32: only the mask 0 is shifted by 32. *)
Definition route_mask (width : Z) : Z :=
  ntohl (u32 (Z.shiftl (if width =? 0 then 0 else 0xFFFFFFFF) (Z.land (32 - width) 31))).

(** [ceil(width / 8)] *)
Definition octets (width : Z) : Z := (width + 7) / 8.

(** A route with a mask: the network, the mask, its width and the gateway. *)
Definition print_route (cap : Z) (out opt : list Z) : option (list Z) :=
  width ← rd opt 0;
  let nos := octets width in
  dst ← copy_octets (Z.to_nat nos) 0 [0; 0; 0; 0] opt;
  let dst := store 4 (Z.land (load dst) (route_mask width)) in
  out ← sprintip cap out [] [44] dst;
  out ← sprintip cap out [] [44] (store 4 (route_mask width));
  out ← sprint cap out (dec width ++ [44]);
  sprintip cap out [] [32] (drop (Z.to_nat (nos + 1)) opt).

(** A turn of the loop of [fill_options]: it returns, or goes on with the text, the option, the length of the value and what
    is left of the option. *)
Inductive printed := Return (out : list Z) | Next (out opt : list Z) (optlen len : Z).

Definition fill_turn (cap type : Z) (out opt : list Z) (optlen len : Z) : option printed :=
  if (type =? OPTION_121) || (type =? OPTION_249) then
    width ← rd opt 0;
    out ← print_route cap out opt;
    Some (Next out opt (octets width + 4 + 1) len)
  else if type =? OPTION_33 then
    out ← sprintip cap out [] [44] opt;
    out ← sprint cap out str_host_mask;
    out ← sprintip cap out [] [32] (drop 4 opt);
    Some (Next out (drop 4 opt) 4 (len - 4))
  else if type =? OPTION_IP_PAIR then
    out ← sprintip cap out [] [32] opt;
    out ← put cap out [47];
    out ← sprintip cap out [] [32] (drop 4 opt);
    Some (Next out (drop 4 opt) 4 len)
  else if type =? OPTION_IP then
    out ← sprintip cap out [] [32] opt; Some (Next out opt optlen len)
  else if type =? OPTION_BOOLEAN then
    b ← rd opt 0; out ← sprint cap out (if b =? 0 then str_no else str_yes); Some (Next out opt optlen len)
  else if type =? OPTION_U8 then
    b ← rd opt 0; out ← sprint cap out (dec b ++ [32]); Some (Next out opt optlen len)
  else if type =? OPTION_U16 then
    d ← some_bytes 2 opt; out ← sprint cap out (dec (ntohs (load d)) ++ [32]); Some (Next out opt optlen len)
  else if type =? OPTION_S16 then
    d ← some_bytes 2 opt; out ← sprint cap out (dec (ntohs (load d)) ++ [32]); Some (Next out opt optlen len)
  else if type =? OPTION_U32 then
    d ← some_bytes 4 opt; out ← sprint cap out (dec (ntohl (load d)) ++ [32]); Some (Next out opt optlen len)
  else if type =? OPTION_S32 then
    d ← some_bytes 4 opt; out ← sprint cap out (signed_text (ntohl (load d)) ++ [32]); Some (Next out opt optlen len)
  else if type =? OPTION_STRING then
    d ← some_bytes (Z.to_nat len) opt; _ ← put cap out (d ++ [0]); Some (Return (out ++ d))
  else Some (Next out opt optlen len).

Fixpoint fill_loop (fuel : nat) (cap type : Z) (out opt : list Z) (optlen len : Z) : option (list Z) :=
  match fuel with
  | O => None
  | S fuel =>
      t ← fill_turn cap type out opt optlen len;
      match t with
      | Return out => Some out
      | Next out opt optlen len =>
          let len := len - optlen in
          if len <=? 0 then Some out else fill_loop fuel cap type out (drop (Z.to_nat optlen) opt) optlen len
      end
  end.

(** [fill_options]: a value has a byte at least. *)
Definition fill_options (cap : Z) (len : Z) (opt : list Z) (o : dhcp_option) : option (list Z) :=
  out ← sprint cap [] (o_name o ++ [61]);
  optlen ← rd option_lengths (type_of o);
  fill_loop (S (Z.to_nat len)) cap (type_of o) out opt optlen len.

(** [get_opt121_dotted_dec_len] *)
Fixpoint dec_len_loop (fuel : nat) (opt : list Z) (i len : Z) : option Z :=
  match fuel with
  | O => None
  | S fuel =>
      if i <? len then
        width ← rd opt i;
        n ← dec_len_loop fuel opt (i + octets width + 4 + 1) len;
        Some (16 + 16 + 3 + 16 + n)
      else Some 0
  end.

Definition get_opt121_dotted_dec_len (len : Z) (opt : list Z) : option Z := dec_len_loop (S (Z.to_nat len)) opt 0 len.

(** ** The environment *)

Context (room : Z -> Z) (environ : list (list Z)) (interface : list Z).

Definition str_PATH : list Z := Eval cbv in cs "PATH".
Definition str_HOME : list Z := Eval cbv in cs "HOME".
Definition str_path : list Z := Eval cbv in cs "PATH=/bin:/usr/bin:/sbin:/usr/sbin".
Definition str_home : list Z := Eval cbv in cs "HOME=/".
Definition str_interface : list Z := Eval cbv in cs "interface=".
Definition str_ip : list Z := Eval cbv in cs "ip=".
Definition str_siaddr : list Z := Eval cbv in cs "siaddr=".
Definition str_boot_file : list Z := Eval cbv in cs "boot_file=".
Definition str_sname : list Z := Eval cbv in cs "sname=".

Fixpoint find_env (env : list (list Z)) (prefix defaultstr : list Z) : list Z :=
  match env with
  | [] => defaultstr
  | s :: tl => if has_prefix prefix s then s else find_env tl prefix defaultstr
  end.

(** [envp[j++] = ...] in an array of [slots]. *)
Definition push {A} (slots : Z) (env : list A) (x : A) : option (list A) := if zlen env + 1 <=? slots then Some (env ++ [x]) else None.

(** How many of the options of the table the packet has. *)
Fixpoint count_options (p : dhcpMessage) (table : list dhcp_option) : option Z :=
  match table with
  | [] => Some 0
  | o :: tl => r ← found p (o_code o); n ← count_options p tl; Some (match r with Some _ => n + 1 | None => n end)
  end.

(** The size of the buffer for an option. *)
Definition entry_size (o : dhcp_option) (len : Z) (opt : list Z) : option Z :=
  n ← if (o_code o =? DHCP_CLSLESS_ROUTE) || (o_code o =? DHCP_MS_ROUTE) then get_opt121_dotted_dec_len len opt else upper_length len o;
  Some (n + zlen (o_name o) + 2).

Fixpoint fill_entries (p : dhcpMessage) (slots : Z) (env : list (list Z)) (table : list dhcp_option) : option (list (list Z)) :=
  match table with
  | [] => Some env
  | o :: tl =>
      r ← found p (o_code o);
      match r with
      | Some (len, opt) =>
          size ← entry_size o len opt;
          out ← fill_options (room size) len opt o;
          env ← push slots env out;
          fill_entries p slots env tl
      | None => fill_entries p slots env tl
      end
  end.

(** A variable with an address: the memory is for the name, an address of 15 characters and the end of the string. *)
Definition ip_entry (name : list Z) (ip : list Z) : option (list Z) := sprintip (room (zlen name + 16)) [] name [32] ip.

(** A variable with a text. *)
Definition text_entry (name text : list Z) : option (list Z) := sprint (room (zlen name + 1 + zlen text)) [] (name ++ text).

Definition end_string (l : list Z) : option (list Z) := wr l (zlen l - 1) 0.

Definition set_names (p : dhcpMessage) (sn fl : list Z) : dhcpMessage :=
  mkmsg (op p) (htype p) (hlen p) (hops p) (xid p) (secs p) (flags p) (ciaddr p) (yiaddr p) (siaddr p) (giaddr p) (chaddr p) sn fl (cookie p) (options p).

(** The two fields with names, unless there are options in them: the name and the packet, with an end in the field. *)
Definition has_name (over field : Z) (l : list Z) : option bool :=
  c ← rd l 0; Some ((Z.land over field =? 0) && negb (c =? 0)).

(** Which of them have options. *)
Definition overload (p : dhcpMessage) : option Z :=
  r ← found p DHCP_OPTION_OVER; match r with Some (_, d) => rd d 0 | None => Some 0 end.

Definition count (b : bool) : Z := if b then 1 else 0.

Definition push_name (slots : Z) (env : list (list Z)) (name l : list Z) (there : bool) : option (list (list Z) * list Z) :=
  if there then l ← end_string l; t ← text_entry name (cstr l); env ← push slots env t; Some (env, l)
  else Some (env, l).

(** What follows the options: the server to boot from, the names, and NULL. *)
Definition fill_rest (p : dhcpMessage) (slots : Z) (env : list (list Z)) (has_si has_file has_sname : bool) : option (list (list Z) * option dhcpMessage) :=
  env ← if has_si then e ← ip_entry str_siaddr (store 4 (siaddr p)); push slots env e else Some env;
  '(env, fl) ← push_name slots env str_boot_file (file p) has_file;
  '(env, sn) ← push_name slots env str_sname (sname p) has_sname;
  if zlen env + 1 <=? slots then Some (env, Some (set_names p sn fl)) else None.

(** The environment, and the packet, that is changed where its names have no end. *)
Definition fill_envp (p : option dhcpMessage) : option (list (list Z) * option dhcpMessage) :=
  i ← text_entry str_interface interface;
  let base := [i; find_env environ str_PATH str_path; find_env environ str_HOME str_home] in
  match p with
  | None => Some (base, None)
  | Some p =>
      n ← count_options p option_table;
      over ← overload p;
      has_file ← has_name over FILE_FIELD (file p);
      has_sname ← has_name over SNAME_FIELD (sname p);
      let has_si := negb (siaddr p =? 0) in
      let slots := n + count has_si + count has_file + count has_sname + 5 in
      ip ← ip_entry str_ip (store 4 (yiaddr p));
      env ← push slots base ip;
      env ← fill_entries p slots env option_table;
      fill_rest p slots env has_si has_file has_sname
  end.

(** [run_script]: what the child executes, the program, its arguments and its environment; the parent waits for it, and has the
    packet that the child changed: [vfork] shares the memory. *)
Definition script_run (script : option (list Z)) (p : option dhcpMessage) (name : list Z) :
  option (option (list Z * list (list Z) * list (list Z)) * option dhcpMessage) :=
  match script with
  | None => Some (None, p)
  | Some s => '(env, p) ← fill_envp p; Some (Some (s, [s; name], env), p)
  end.
End Script.

(** ** What the variables say *)

(** The values of options, and an option as a list of them or a text. *)
Inductive value :=
  | V_ip (a : Z) | V_u8 (x : Z) | V_u16 (x : Z) | V_u32 (x : Z) | V_s32 (x : Z)
  | V_host (dst gw : Z) | V_net (dst width gw : Z).

Inductive content := Values (vs : list value) | Text (s : list Z).

Definition netmask (width : Z) : Z := 2 ^ 32 - 2 ^ (32 - width).

Definition value_data (v : value) : list Z :=
  match v with
  | V_ip a => be_bytes 4 a
  | V_u8 x => [x]
  | V_u16 x => be_bytes 2 x
  | V_u32 x => be_bytes 4 x
  | V_s32 x => be_bytes 4 (u32 x)
  | V_host dst gw => be_bytes 4 dst ++ be_bytes 4 gw
  | V_net dst width gw => width :: take (Z.to_nat (octets width)) (be_bytes 4 dst) ++ be_bytes 4 gw
  end.

Definition value_text (v : value) : list Z :=
  match v with
  | V_ip a => dotted a ++ [32]
  | V_u8 x | V_u16 x | V_u32 x => dec x ++ [32]
  | V_s32 x => (if x <? 0 then 45 :: dec (- x) else dec x) ++ [32]
  | V_host dst gw => (dotted dst ++ [44]) ++ str_host_mask ++ dotted gw ++ [32]
  | V_net dst width gw => (dotted (Z.land dst (netmask width)) ++ [44]) ++ (dotted (netmask width) ++ [44]) ++ (dec width ++ [44]) ++ dotted gw ++ [32]
  end.

(** The values that an option of a type has. *)
Definition value_ok (type : Z) (v : value) : Prop :=
  match v with
  | V_ip a => type = OPTION_IP /\ is_word 4 a
  | V_u8 x => type = OPTION_U8 /\ is_byte x
  | V_u16 x => type = OPTION_U16 /\ is_word 2 x
  | V_u32 x => type = OPTION_U32 /\ is_word 4 x
  | V_s32 x => type = OPTION_S32 /\ - 2 ^ 31 <= x < 2 ^ 31
  | V_host dst gw => type = OPTION_33 /\ is_word 4 dst /\ is_word 4 gw
  | V_net dst width gw => (type = OPTION_121 \/ type = OPTION_249) /\ is_word 4 dst /\ 0 <= width <= 32 /\ is_word 4 gw
  end.

Definition content_data (c : content) : list Z := match c with Values vs => concat (map value_data vs) | Text s => s end.
Definition content_text (c : content) : list Z := match c with Values vs => concat (map value_text vs) | Text s => s end.

Definition content_ok (type : Z) (c : content) : Prop :=
  match c with
  | Values vs => vs <> [] /\ Forall (value_ok type) vs
  | Text s => type = OPTION_STRING
  end.

(** ** The texts are not too long *)

Lemma length_dec k : forall n, (0 < k)%nat -> 0 <= n < 10 ^ Z.of_nat k -> forall fuel, (length (dec_rev fuel n) <= k)%nat.
Proof.
  induction k as [|k IH]; [lia|]. intros n _ Hn [|fuel]; cbn [dec_rev length]; [lia|]. destruct (Z.ltb_spec n 10); cbn [length]; [lia|].
  rewrite Nat2Z.inj_succ, Z.pow_succ_r in Hn by lia. destruct k as [|k]; [cbn in Hn; lia|].
  assert (length (dec_rev fuel (n / 10)) <= S k)%nat; [|lia]. apply IH; [lia|]. Z.to_euclidean_division_equations; lia.
Qed.

Lemma zlen_dec k n : (0 < k)%nat -> 0 <= n < 10 ^ Z.of_nat k -> 1 <= zlen (dec n) <= Z.of_nat k.
Proof.
  intros Hk Hn. pose proof (length_dec k n Hk Hn 10) as Hl. destruct (dec_nonempty n) as (c & tl & E). unfold dec in *. rewrite <- (length_rev (dec_rev 10 n)) in Hl.
  split; [rewrite E; cbn [length]; lia|lia].
Qed.

Lemma zlen_dec_byte n : is_byte n -> 1 <= zlen (dec n) <= 3.
Proof. intros Hn. unfold is_byte in Hn. apply (zlen_dec 3); [lia|cbn; lia]. Qed.

Lemma be_bytes_be_word n a : be_word (be_bytes n (be_word (be_bytes n a))) = be_word (be_bytes n a).
Proof. rewrite <- (length_be_bytes n a) at 1. by rewrite be_bytes_word by apply be_bytes_bytes. Qed.

(** Four bytes are printed as the address that they are. *)
Lemma dots_bytes bs r : bytes bs -> length bs = 4%nat -> dots (bs ++ r) = Some (dotted (be_word bs)).
Proof.
  intros Hb Hl. unfold dotted. rewrite <- Hl, be_bytes_word by done. destruct bs as [|a [|b [|c [|d [|]]]]]; try done.
Qed.

Lemma dots_word a r : is_word 4 a -> dots (be_bytes 4 a ++ r) = Some (dotted a).
Proof. intros Ha. rewrite dots_bytes by (apply be_bytes_bytes || apply length_be_bytes). by rewrite be_word_bytes. Qed.

Lemma zlen_dotted a : is_word 4 a -> 7 <= zlen (dotted a) <= 15.
Proof.
  intros Ha. unfold dotted. destruct (be_bytes_4 a Ha) as (x & y & z & t & -> & Hb & _). repeat rewrite Forall_cons_iff in Hb. destruct Hb as (Hx & Hy & Hz & Ht & _).
  repeat (rewrite length_app; cbn [length]). pose proof (zlen_dec_byte x Hx). pose proof (zlen_dec_byte y Hy). pose proof (zlen_dec_byte z Hz). pose proof (zlen_dec_byte t Ht). lia.
Qed.

(** ** Masks *)

Lemma land_byte a b : is_byte a -> is_byte b -> is_byte (Z.land a b).
Proof.
  unfold is_byte. intros Ha Hb. split; [apply Z.land_nonneg; lia|]. rewrite <- (Z.mod_small b (2 ^ 8)), <- Z.land_ones, Z.land_assoc, Z.land_ones by lia.
  apply Z.mod_pos_bound. lia.
Qed.

Lemma snoc_bits a b i : is_byte b -> 0 <= i -> Z.testbit (a * 256 + b) i = if i <? 8 then Z.testbit b i else Z.testbit a (i - 8).
Proof.
  unfold is_byte. intros Hb Hi. change 256 with (2 ^ 8) in *. destruct (Z.ltb_spec i 8).
  - rewrite <- (Z.mod_pow2_bits_low _ 8) by lia. by rewrite Z.add_comm, Z.mod_add, Z.mod_small by lia.
  - replace i with ((i - 8) + 8) at 1 by lia. rewrite <- Z.div_pow2_bits by lia. by rewrite Z.div_add_l, Z.div_small, Z.add_0_r by lia.
Qed.

Lemma land_split a b c d : is_byte b -> is_byte d -> Z.land (a * 256 + b) (c * 256 + d) = Z.land a c * 256 + Z.land b d.
Proof.
  intros Hb Hd. apply Z.bits_inj'. intros i Hi. rewrite Z.land_spec, !snoc_bits, !Z.land_spec by (done || by apply land_byte). by destruct (i <? 8).
Qed.

Lemma be_word_land a : forall b, bytes a -> bytes b -> length a = length b -> Z.land (be_word a) (be_word b) = be_word (zip_with Z.land a b).
Proof.
  induction a as [|x a IH] using rev_ind; intros b Ha Hb Hl; [by destruct b|]. destruct b as [|y b _] using rev_ind; [rewrite length_app in Hl; cbn in Hl; lia|].
  rewrite !length_app in Hl. cbn [length] in Hl. apply Forall_app in Ha as [Ha [Hx _]%Forall_cons_iff], Hb as [Hb [Hy _]%Forall_cons_iff].
  rewrite zip_with_app by lia. cbn [zip_with]. rewrite !be_word_snoc, land_split, IH by (done || lia). done.
Qed.

Lemma zip_land_bytes a : forall b, bytes a -> bytes b -> bytes (zip_with Z.land a b).
Proof.
  induction a as [|x a IH]; intros [|y b] Ha Hb; cbn [zip_with]; try by constructor. apply Forall_cons_iff in Ha as [Hx Ha], Hb as [Hy Hb].
  constructor; [by apply land_byte|by apply IH].
Qed.

Lemma zip_land_zeros a : forall n, length a = n -> zip_with Z.land a (replicate n 0) = replicate n 0.
Proof. induction a as [|x a IH]; intros [|n] Hl; try done. cbn [replicate zip_with]. rewrite Z.land_0_r, IH by (cbn in Hl; lia). done. Qed.

(** The octets of a mask behind those of its width are 0. *)
Lemma mask_octets width : 0 <= width <= 32 -> (Z.to_nat (octets width) <= 4)%nat /\
  be_bytes 4 (netmask width) = take (Z.to_nat (octets width)) (be_bytes 4 (netmask width)) ++ replicate (4 - Z.to_nat (octets width)) 0 /\
  u32 (Z.shiftl (if width =? 0 then 0 else 0xFFFFFFFF) (Z.land (32 - width) 31)) = netmask width.
Proof.
  intros Hw. assert (forallb (fun w => Nat.leb (Z.to_nat (octets w)) 4 &&
    eqb_list (be_bytes 4 (netmask w)) (take (Z.to_nat (octets w)) (be_bytes 4 (netmask w)) ++ replicate (4 - Z.to_nat (octets w)) 0) &&
    (u32 (Z.shiftl (if w =? 0 then 0 else 0xFFFFFFFF) (Z.land (32 - w) 31)) =? netmask w)) (map Z.of_nat (seq 0 33)) = true) as Hall by (vm_compute; reflexivity).
  rewrite forallb_forall in Hall. specialize (Hall width). rewrite !andb_true_iff in Hall. destruct Hall as [[H1 H2] H3].
  - apply in_map_iff. exists (Z.to_nat width). split; [lia|]. apply in_seq. lia.
  - split_and!; [by apply Nat.leb_le|by apply eqb_list_spec|by apply Z.eqb_eq].
Qed.

Lemma netmask_word width : 0 <= width <= 32 -> is_word 4 (netmask width).
Proof.
  intros Hw. unfold netmask, is_word. pose proof (Z.pow_le_mono_r 2 (32 - width) 32 ltac:(lia) ltac:(lia)). pose proof (Z.pow_pos_nonneg 2 (32 - width) ltac:(lia) ltac:(lia)).
  change (256 ^ Z.of_nat 4) with (2 ^ 32). lia.
Qed.

Lemma land_word a b : is_word 4 a -> is_word 4 b -> is_word 4 (Z.land a b).
Proof.
  unfold is_word. change (256 ^ Z.of_nat 4) with (2 ^ 32). intros Ha Hb. split; [apply Z.land_nonneg; lia|].
  rewrite <- (Z.mod_small b (2 ^ 32)), <- Z.land_ones, Z.land_assoc, Z.land_ones by lia. apply Z.mod_pos_bound. lia.
Qed.

Lemma be_bytes_land a b : is_word 4 a -> is_word 4 b -> be_bytes 4 (Z.land a b) = zip_with Z.land (be_bytes 4 a) (be_bytes 4 b).
Proof.
  intros Ha Hb. rewrite <- (be_word_bytes 4 a), <- (be_word_bytes 4 b) at 1 by done. rewrite be_word_land by (apply be_bytes_bytes || by rewrite !length_be_bytes).
  transitivity (be_bytes (length (zip_with Z.land (be_bytes 4 a) (be_bytes 4 b))) (be_word (zip_with Z.land (be_bytes 4 a) (be_bytes 4 b)))); [by rewrite length_zip_with, !length_be_bytes|].
  apply be_bytes_word, zip_land_bytes; apply be_bytes_bytes.
Qed.

(** The octets that the option does not have are masked. *)
Lemma masked_octets dst width : is_word 4 dst -> 0 <= width <= 32 ->
  zip_with Z.land (take (Z.to_nat (octets width)) (be_bytes 4 dst) ++ replicate (4 - Z.to_nat (octets width)) 0) (be_bytes 4 (netmask width)) =
  be_bytes 4 (Z.land dst (netmask width)).
Proof.
  intros Hd Hw. destruct (mask_octets width Hw) as (Hk & Hm & _). set (k := Z.to_nat (octets width)) in *. rewrite be_bytes_land by (done || by apply netmask_word).
  rewrite <- (take_drop k (be_bytes 4 dst)) at 2. rewrite Hm. rewrite !zip_with_app by (rewrite !length_take, !length_be_bytes; lia). f_equal.
  rewrite !zip_land_zeros; [done|by rewrite length_drop, length_be_bytes|by rewrite length_replicate].
Qed.

Lemma copy_octets_take k bs w rest : length bs = 4%nat -> (k <= 4)%nat -> copy_octets k 0 [0; 0; 0; 0] (w :: take k bs ++ rest) = Some (take k bs ++ replicate (4 - k) 0).
Proof. intros Hl Hk. destruct bs as [|a [|b [|c [|d [|]]]]]; try done. destruct k as [|[|[|[|[|k]]]]]; [reflexivity..|lia]. Qed.

(** ** A value *)

Section Turns.
Context `{Endian}.

Lemma store_ntohl x : store 4 (ntohl x) = be_bytes 4 x.
Proof using Type.
  unfold ntohl, store at 1. rewrite <- (length_store 4 x) at 1. rewrite be_bytes_word by apply store_bytes. apply native_twice.
Qed.

Lemma ntohl_load bs : bytes bs -> length bs = 4%nat -> ntohl (load bs) = be_word bs.
Proof using Type. intros Hb Hl. unfold ntohl. rewrite <- Hl, store_load by done. done. Qed.

Lemma ntohs_load bs : bytes bs -> length bs = 2%nat -> ntohs (load bs) = be_word bs.
Proof using Type. intros Hb Hl. unfold ntohs. rewrite <- Hl, store_load by done. done. Qed.

Lemma store_land a x : bytes a -> length a = 4%nat -> store 4 (Z.land (load a) (ntohl x)) = zip_with Z.land a (be_bytes 4 x).
Proof using Type.
  intros Ha Hl. unfold load, ntohl, store. pose proof (be_bytes_bytes 4 x) as Hb. pose proof (length_be_bytes 4 x) as Hlb. set (b := be_bytes 4 x) in *.
  rewrite be_word_land by ((by apply native_bytes) || by rewrite !length_native, Hl). set (z := zip_with Z.land (native a) (native b)).
  assert (length z = 4%nat) as Hz by (unfold z; rewrite length_zip_with, !length_native; lia). assert (bytes z) as Hzb by (apply zip_land_bytes; by apply native_bytes). rewrite <- Hz, (be_bytes_word _ Hzb).
  unfold z, native. destruct big; [done|]. destruct a as [|a0 [|a1 [|a2 [|a3 [|]]]]]; done.
Qed.

Lemma sprintip_ok cap out pre pos ip t : dots ip = Some t -> zlen out + zlen (pre ++ t ++ pos) + 1 <= cap -> sprintip cap out pre pos ip = Some (out ++ pre ++ t ++ pos).
Proof using Type. intros Ht Hc. unfold sprintip. rewrite Ht. cbn [mbind option_bind]. by apply sprint_ok. Qed.

Lemma dots_rest bs r : (4 <= length bs)%nat -> dots (bs ++ r) = dots bs.
Proof using Type. destruct bs as [|a [|b [|c [|d bs]]]]; cbn [length]; try lia. done. Qed.

Lemma sprintip_word cap out pos a rest : is_word 4 a -> zlen out + zlen (dotted a ++ pos) + 1 <= cap -> sprintip cap out [] pos (be_bytes 4 a ++ rest) = Some (out ++ dotted a ++ pos).
Proof using Type. intros Ha Hc. by rewrite (sprintip_ok _ _ [] pos _ _ (dots_word _ rest Ha)). Qed.

Lemma sprintip_word_end cap out pos a : is_word 4 a -> zlen out + zlen (dotted a ++ pos) + 1 <= cap -> sprintip cap out [] pos (be_bytes 4 a) = Some (out ++ dotted a ++ pos).
Proof using Type. intros Ha Hc. rewrite <- (app_nil_r (be_bytes 4 a)). by apply sprintip_word. Qed.

Lemma rd_head x (l : list Z) : rd (x :: l) 0 = Some x.
Proof using Type. done. Qed.

Lemma print_route_net cap out dst width gw rest : is_word 4 dst -> 0 <= width <= 32 -> is_word 4 gw ->
  zlen out + zlen (value_text (V_net dst width gw)) + 1 <= cap ->
  print_route cap out (value_data (V_net dst width gw) ++ rest) = Some (out ++ value_text (V_net dst width gw)).
Proof using Type.
  intros Hd Hw Hg Hc. destruct (mask_octets width Hw) as (Hk & _ & Hm). cbn [value_data value_text] in *. rewrite !length_app in Hc. cbn [length] in Hc. unfold print_route. cbn [app]. rewrite rd_head. cbn [mbind option_bind].
  rewrite <- app_assoc, copy_octets_take by (by rewrite length_be_bytes || lia). cbn [mbind option_bind]. unfold route_mask. rewrite Hm, store_ntohl.
  rewrite store_land; [|apply Forall_app; split; [apply Forall_take, be_bytes_bytes|by apply Forall_replicate]|rewrite length_app, length_take, length_replicate, length_be_bytes; lia].
  rewrite masked_octets by done. pose proof (land_word _ _ Hd (netmask_word width Hw)) as Hland.
  rewrite sprintip_word_end by (done || (rewrite !length_app; cbn [length]; lia)). cbn [mbind option_bind].
  rewrite sprintip_word_end by (by apply netmask_word || (rewrite !length_app; cbn [length]; lia)). cbn [mbind option_bind].
  rewrite sprint_ok by (rewrite !length_app; cbn [length]; lia). cbn [mbind option_bind].
  assert (drop (Z.to_nat (octets width + 1)) (width :: take (Z.to_nat (octets width)) (be_bytes 4 dst) ++ be_bytes 4 gw ++ rest) = be_bytes 4 gw ++ rest) as ->.
  { replace (Z.to_nat (octets width + 1)) with (S (Z.to_nat (octets width))) by (unfold octets; Z.to_euclidean_division_equations; lia). cbn [drop].
    rewrite drop_app_ge by (rewrite length_take; lia). rewrite length_take, length_be_bytes, Nat.min_l, Nat.sub_diag by lia. done. }
  rewrite sprintip_word by (done || (rewrite !length_app; cbn [length]; lia)). by rewrite <- !app_assoc.
Qed.
(** The length that a turn starts with: the one of the type, unless the turn sets it. *)
Definition optlen_ok (type optlen : Z) : Prop := type = OPTION_33 \/ type = OPTION_121 \/ type = OPTION_249 \/ rd option_lengths type = Some optlen.

Definition turn_prints (type cap : Z) (v : value) (out rest : list Z) (optlen len : Z) : Prop :=
  exists opt' optlen' len', fill_turn cap type out (value_data v ++ rest) optlen len = Some (Next (out ++ value_text v) opt' optlen' len') /\
    drop (Z.to_nat optlen') opt' = rest /\ len' - optlen' = len - zlen (value_data v) /\ optlen_ok type optlen'.

(** A turn whose value is all that is read: the option goes on behind it. *)
Lemma turn_plain type cap v out rest optlen len n : fill_turn cap type out (value_data v ++ rest) optlen len = Some (Next (out ++ value_text v) (value_data v ++ rest) optlen len) ->
  rd option_lengths type = Some n -> optlen = n -> length (value_data v) = Z.to_nat n -> 0 <= n -> turn_prints type cap v out rest optlen len.
Proof using Type.
  intros E Hn -> Hl Hp. exists (value_data v ++ rest), n, len. split_and!; [done|by rewrite <- Hl, drop_app_length|lia|]. unfold optlen_ok. auto.
Qed.

Lemma some_bytes_app n bs r : length bs = n -> some_bytes n (bs ++ r) = Some bs.
Proof using Type. intros <-. unfold some_bytes. rewrite length_app, (proj2 (Nat.leb_le _ _)) by lia. by rewrite take_app_length. Qed.

Lemma signed_text_value x : - 2 ^ 31 <= x < 2 ^ 31 -> signed_text (u32 x) = if x <? 0 then 45 :: dec (- x) else dec x.
Proof using Type.
  intros Hx. unfold signed_text, u32. destruct (Z.ltb_spec x 0).
  - assert (x mod 2 ^ 32 = x + 2 ^ 32) as -> by (symmetry; apply Z.mod_unique with (-1); lia). rewrite (proj2 (Z.ltb_ge _ _)) by lia. do 2 f_equal. lia.
  - rewrite Z.mod_small by lia. by rewrite (proj2 (Z.ltb_lt _ _)) by lia.
Qed.

Lemma turn_net type cap dst width gw out rest optlen len : value_ok type (V_net dst width gw) ->
  zlen out + zlen (value_text (V_net dst width gw)) + 1 <= cap -> turn_prints type cap (V_net dst width gw) out rest optlen len.
Proof using Type.
  intros (Ht & Hd & Hw & Hg) Hc. exists (value_data (V_net dst width gw) ++ rest), (octets width + 4 + 1), len. destruct (mask_octets width Hw) as (Hk & _).
  assert (0 <= octets width) as Ho by (unfold octets; Z.to_euclidean_division_equations; lia).
  assert (length (value_data (V_net dst width gw)) = Z.to_nat (octets width + 4 + 1)) as Hl.
  { cbn [value_data length]. rewrite length_app, length_take, !length_be_bytes. lia. }
  split_and!; [|by rewrite <- Hl, drop_app_length|lia|unfold optlen_ok; tauto].
  unfold fill_turn. assert ((type =? OPTION_121) || (type =? OPTION_249) = true) as -> by (by destruct Ht as [->| ->]).
  rewrite print_route_net by done. done.
Qed.

(** The turns by the type. *)
Lemma turn_ip cap out opt optlen len : fill_turn cap OPTION_IP out opt optlen len = (out ← sprintip cap out [] [32] opt; Some (Next out opt optlen len)).
Proof using Type. reflexivity. Qed.

Lemma turn_u8 cap out opt optlen len : fill_turn cap OPTION_U8 out opt optlen len = (b ← rd opt 0; out ← sprint cap out (dec b ++ [32]); Some (Next out opt optlen len)).
Proof using Type. reflexivity. Qed.

Lemma turn_u16 cap out opt optlen len :
  fill_turn cap OPTION_U16 out opt optlen len = (d ← some_bytes 2 opt; out ← sprint cap out (dec (ntohs (load d)) ++ [32]); Some (Next out opt optlen len)).
Proof using Type. reflexivity. Qed.

Lemma turn_u32 cap out opt optlen len :
  fill_turn cap OPTION_U32 out opt optlen len = (d ← some_bytes 4 opt; out ← sprint cap out (dec (ntohl (load d)) ++ [32]); Some (Next out opt optlen len)).
Proof using Type. reflexivity. Qed.

Lemma turn_s32 cap out opt optlen len :
  fill_turn cap OPTION_S32 out opt optlen len = (d ← some_bytes 4 opt; out ← sprint cap out (signed_text (ntohl (load d)) ++ [32]); Some (Next out opt optlen len)).
Proof using Type. reflexivity. Qed.

Lemma turn_33 cap out opt optlen len : fill_turn cap OPTION_33 out opt optlen len =
  (out ← sprintip cap out [] [44] opt; out ← sprint cap out str_host_mask; out ← sprintip cap out [] [32] (drop 4 opt); Some (Next out (drop 4 opt) 4 (len - 4))).
Proof using Type. reflexivity. Qed.

(** A word of an option. *)
Lemma word_value n a r : is_word n a -> some_bytes n (be_bytes n a ++ r) = Some (be_bytes n a) /\ be_word (be_bytes n a) = a.
Proof using Type. intros Ha. split; [apply some_bytes_app, length_be_bytes|by apply be_word_bytes]. Qed.

Lemma turn_host cap dst gw out rest optlen len : is_word 4 dst -> is_word 4 gw ->
  zlen out + zlen (value_text (V_host dst gw)) + 1 <= cap -> turn_prints OPTION_33 cap (V_host dst gw) out rest optlen len.
Proof using Type.
  intros Hd Hg Hc. exists (be_bytes 4 gw ++ rest), 4, (len - 4). cbn [value_data value_text] in *. rewrite !length_app in Hc. cbn [length] in Hc.
  split_and!; [|change (Z.to_nat 4) with 4%nat; rewrite <- (length_be_bytes 4 gw) at 1; by rewrite drop_app_length|rewrite length_app, !length_be_bytes; lia|by left].
  rewrite turn_33, <- app_assoc, sprintip_word by (done || (rewrite length_app; cbn [length]; lia)). cbn [mbind option_bind].
  rewrite sprint_ok by (rewrite !length_app; cbn [length]; lia). cbn [mbind option_bind].
  assert (drop 4 (be_bytes 4 dst ++ be_bytes 4 gw ++ rest) = be_bytes 4 gw ++ rest) as -> by (rewrite <- (length_be_bytes 4 dst) at 1; by rewrite drop_app_length).
  rewrite sprintip_word by (done || (rewrite !length_app; cbn [length]; lia)). cbn [mbind option_bind]. by rewrite <- !app_assoc.
Qed.

Lemma turn_value type cap v out rest optlen len : value_ok type v -> optlen_ok type optlen ->
  zlen out + zlen (value_text v) + 1 <= cap -> turn_prints type cap v out rest optlen len.
Proof using Type.
  intros Hv Ho Hc. destruct v as [a|x|x|x|x|dst gw|dst width gw]; [..|by apply turn_net]; cbn [value_ok] in Hv; destruct Hv as [-> Hv]; [..|by apply turn_host; try apply Hv];
    destruct Ho as [Ho|[Ho|[Ho|Ho]]]; [done|done|done| |done|done|done| |done|done|done| |done|done|done| |done|done|done| ];
    vm_compute in Ho; injection Ho as <-; (eapply turn_plain; [|reflexivity|reflexivity|cbn [value_data]; rewrite ?length_be_bytes; reflexivity|done]); cbn [value_data value_text] in *.
  - by rewrite turn_ip, sprintip_word.
  - cbn [app]. rewrite turn_u8, rd_head. cbn [mbind option_bind]. by rewrite sprint_ok.
  - destruct (word_value 2 x rest Hv) as [E Ew]. rewrite turn_u16, E. cbn [mbind option_bind]. by rewrite ntohs_load, Ew, sprint_ok by (done || apply be_bytes_bytes || apply length_be_bytes).
  - destruct (word_value 4 x rest Hv) as [E Ew]. rewrite turn_u32, E. cbn [mbind option_bind]. by rewrite ntohl_load, Ew, sprint_ok by (done || apply be_bytes_bytes || apply length_be_bytes).
  - destruct (word_value 4 (u32 x) rest) as [E Ew]; [unfold is_word, u32; apply Z.mod_pos_bound; lia|]. rewrite turn_s32, E. cbn [mbind option_bind].
    by rewrite ntohl_load, Ew, signed_text_value, sprint_ok by (done || apply be_bytes_bytes || apply length_be_bytes).
Qed.
(** ** Lists of values *)

Definition all_data (vs : list value) : list Z := concat (map value_data vs).
Definition all_text (vs : list value) : list Z := concat (map value_text vs).

Lemma value_data_pos v : 0 < zlen (value_data v).
Proof using Type. destruct v; cbn [value_data length]; rewrite ?length_app, ?length_be_bytes; lia. Qed.

Lemma all_data_length vs : zlen vs <= zlen (all_data vs).
Proof using Type. induction vs as [|v vs IH]; [done|]. unfold all_data in *. cbn [map concat length]. rewrite length_app. pose proof (value_data_pos v). lia. Qed.

Lemma fill_values type cap rest : forall vs v out optlen fuel, Forall (value_ok type) (v :: vs) -> optlen_ok type optlen -> (length vs < fuel)%nat ->
  zlen out + zlen (all_text (v :: vs)) + 1 <= cap ->
  fill_loop fuel cap type out (all_data (v :: vs) ++ rest) optlen (zlen (all_data (v :: vs))) = Some (out ++ all_text (v :: vs)).
Proof using Type.
  induction vs as [|v' vs IH]; intros v out optlen [|fuel] Hvs Ho Hf Hc; try lia; apply Forall_cons_iff in Hvs as [Hv Hvs];
    unfold all_data, all_text in *; cbn [map concat] in *; rewrite ?app_nil_r in *.
  - destruct (turn_value type cap v out rest optlen (zlen (value_data v)) Hv Ho Hc) as (o' & l' & n' & E & _ & Hn & _). cbn [fill_loop]. rewrite E. cbn [mbind option_bind].
    by rewrite (proj2 (Z.leb_le _ _)) by lia.
  - rewrite <- app_assoc. set (data := value_data v' ++ concat (map value_data vs)) in *. set (text := value_text v' ++ concat (map value_text vs)) in *.
    rewrite length_app in Hc. destruct (turn_value type cap v out (data ++ rest) optlen (zlen (value_data v ++ data)) Hv Ho ltac:(lia)) as (o' & l' & n' & E & Hd & Hn & Ho').
    cbn [fill_loop]. rewrite E. cbn [mbind option_bind]. rewrite length_app in Hn. assert (n' - l' = zlen data) as -> by lia.
    assert (0 < zlen data) by (unfold data; rewrite length_app; pose proof (value_data_pos v'); lia).
    rewrite (proj2 (Z.leb_gt _ _)), Hd by lia. unfold data. rewrite (IH v') by (done || (cbn [length] in Hf; lia) || (rewrite length_app; fold text; lia)).
    by rewrite <- app_assoc.
Qed.

(** The values of a type: their length, and the length of their texts at most. *)
Lemma values_size type v : value_ok type v -> type <> OPTION_121 -> type <> OPTION_249 -> exists m n, rd max_option_length type = Some m /\ rd option_lengths type = Some n /\ 0 < n /\
  forall w, value_ok type w -> zlen (value_data w) = n /\ zlen (value_text w) <= m.
Proof using Type.
  intros Hv H1 H2. assert (exists m n, rd max_option_length type = Some m /\ rd option_lengths type = Some n /\ 0 < n /\
    (type, m, n) ∈ [(OPTION_IP, 17, 4); (OPTION_U8, 5, 1); (OPTION_U16, 7, 2); (OPTION_U32, 12, 4); (OPTION_S32, 13, 4); (OPTION_33, 55, 8)]) as (m & n & Em & En & Hn & Ht).
  { destruct v; cbn [value_ok] in Hv; destruct Hv as [Hv _]; [subst type; do 2 eexists; split_and!; [reflexivity|reflexivity|lia|rewrite !elem_of_cons; auto 10]..|tauto]. }
  exists m, n. split_and!; try done. intros w Hw. clear Hv Em En. rewrite !elem_of_cons, elem_of_nil in Ht.
  destruct w as [a|x|x|x|x|dst gw|dst width gw]; cbn [value_ok] in Hw; destruct Hw as [Ew Hw]; [..|by destruct Ew]; subst type;
    destruct Ht as [Ht|[Ht|[Ht|[Ht|[Ht|[Ht|Ht]]]]]]; try done; injection Ht as -> ->; cbn [value_data value_text]; rewrite ?length_app, ?length_be_bytes; cbn [length str_host_mask].
  - pose proof (zlen_dotted a Hw). lia.
  - pose proof (zlen_dec_byte x Hw). lia.
  - pose proof (zlen_dec 5 x ltac:(lia) ltac:(unfold is_word in Hw; cbn in *; lia)). lia.
  - pose proof (zlen_dec 10 x ltac:(lia) ltac:(unfold is_word in Hw; cbn in *; lia)). lia.
  - destruct (Z.ltb_spec x 0); cbn [length]; [pose proof (zlen_dec 10 (- x) ltac:(lia) ltac:(cbn; lia))|pose proof (zlen_dec 10 x ltac:(lia) ltac:(cbn; lia))]; lia.
  - destruct Hw as [Hd Hg]. pose proof (zlen_dotted dst Hd). pose proof (zlen_dotted gw Hg). lia.
Qed.

Lemma net_size type dst width gw : value_ok type (V_net dst width gw) ->
  zlen (value_data (V_net dst width gw)) = octets width + 4 + 1 /\ zlen (value_text (V_net dst width gw)) <= 51.
Proof using Type.
  intros (_ & Hd & Hw & Hg). destruct (mask_octets width Hw) as (Hk & _). assert (0 <= octets width) by (unfold octets; Z.to_euclidean_division_equations; lia).
  cbn [value_data value_text length]. rewrite !length_app, length_take, !length_be_bytes. cbn [length].
  pose proof (zlen_dotted _ (land_word _ _ Hd (netmask_word width Hw))). pose proof (zlen_dotted _ (netmask_word width Hw)). pose proof (zlen_dotted gw Hg).
  pose proof (zlen_dec 2 width ltac:(lia) ltac:(cbn; lia)). lia.
Qed.

Lemma concat_size {A} (f : A -> list Z) (P : A -> Prop) n l : (forall x, P x -> zlen (f x) <= n) -> Forall P l -> zlen (concat (map f l)) <= n * zlen l.
Proof using Type. intros Hf. induction 1 as [|x l Hx _ IH]; cbn [map concat length]; [lia|]. rewrite length_app. specialize (Hf x Hx). lia. Qed.

Lemma concat_exact {A} (f : A -> list Z) (P : A -> Prop) n l : (forall x, P x -> zlen (f x) = n) -> Forall P l -> zlen (concat (map f l)) = n * zlen l.
Proof using Type. intros Hf. induction 1 as [|x l Hx _ IH]; cbn [map concat length]; [lia|]. rewrite length_app. specialize (Hf x Hx). lia. Qed.

Lemma dec_len_nets type rest : type = OPTION_121 \/ type = OPTION_249 -> forall vs pre fuel, Forall (value_ok type) vs -> (length vs < fuel)%nat ->
  dec_len_loop fuel (pre ++ all_data vs ++ rest) (zlen pre) (zlen pre + zlen (all_data vs)) = Some (51 * zlen vs).
Proof using Type.
  intros Ht. induction vs as [|v vs IH]; intros pre [|fuel] Hvs Hf; try lia; cbn [dec_len_loop].
  - by rewrite (proj2 (Z.ltb_ge _ _)) by (cbn; lia).
  - apply Forall_cons_iff in Hvs as [Hv Hvs]. cbn [length] in Hf. unfold all_data in *. cbn [map concat]. rewrite !length_app. pose proof (value_data_pos v).
    rewrite (proj2 (Z.ltb_lt _ _)) by lia. assert (exists dst width gw, v = V_net dst width gw) as (dst & width & gw & ->).
    { destruct v; cbn [value_ok] in Hv; destruct Hv as [Hv _]; first [by do 3 eexists|subst type; by destruct Ht]. }
    destruct (net_size _ _ _ _ Hv) as [Hl _]. assert (rd (pre ++ (value_data (V_net dst width gw) ++ concat (map value_data vs)) ++ rest) (zlen pre) = Some width) as -> by (by apply rd_app).
    cbn [mbind option_bind]. specialize (IH (pre ++ value_data (V_net dst width gw)) fuel Hvs ltac:(lia)). rewrite length_app, <- !app_assoc in IH. rewrite <- app_assoc.
    replace (zlen pre + octets width + 4 + 1) with (Z.of_nat (length pre + length (value_data (V_net dst width gw)))) by lia.
    replace (zlen pre + Z.of_nat (length (value_data (V_net dst width gw)) + length (concat (map value_data vs)))) with
      (Z.of_nat (length pre + length (value_data (V_net dst width gw))) + zlen (concat (map value_data vs))) by lia.
    rewrite IH. cbn [mbind option_bind length]. f_equal. lia.
Qed.
(** ** A variable *)

Lemma table_routes o : o ∈ option_table ->
  (o_code o =? DHCP_CLSLESS_ROUTE) || (o_code o =? DHCP_MS_ROUTE) = (type_of o =? OPTION_121) || (type_of o =? OPTION_249).
Proof using Type.
  intros Ho. apply list_elem_of_In in Ho. assert (forallb (fun o => Bool.eqb ((o_code o =? DHCP_CLSLESS_ROUTE) || (o_code o =? DHCP_MS_ROUTE))
    ((type_of o =? OPTION_121) || (type_of o =? OPTION_249))) option_table = true) as Hall by (vm_compute; reflexivity).
  rewrite forallb_forall in Hall. by apply Bool.eqb_prop, Hall.
Qed.

Lemma values_entry o v vs rest : o ∈ option_table -> Forall (value_ok (type_of o)) (v :: vs) ->
  exists n, entry_size o (zlen (all_data (v :: vs))) (all_data (v :: vs) ++ rest) = Some (n + zlen (o_name o) + 2) /\ zlen (all_text (v :: vs)) <= n /\
    exists optlen, rd option_lengths (type_of o) = Some optlen.
Proof using Type.
  intros Ho Hvs. unfold entry_size. rewrite table_routes by done. destruct (decide (type_of o = OPTION_121 \/ type_of o = OPTION_249)) as [Ht|Ht].
  - assert ((type_of o =? OPTION_121) || (type_of o =? OPTION_249) = true) as -> by (by destruct Ht as [->| ->]). unfold get_opt121_dotted_dec_len.
    pose proof (all_data_length (v :: vs)) as Hl. pose proof (dec_len_nets (type_of o) rest Ht (v :: vs) [] (S (Z.to_nat (zlen (all_data (v :: vs))))) Hvs ltac:(lia)) as E.
    cbn [app] in E. change (zlen []) with 0 in E. rewrite Z.add_0_l in E. rewrite E. cbn [mbind option_bind]. exists (51 * zlen (v :: vs)). split_and!; [done| |by destruct Ht as [->| ->]; eexists].
    apply (concat_size value_text _ 51 _) with (2 := Hvs). intros [a|x|x|x|x|dst gw|dst width gw] Hw; [cbn [value_ok] in Hw; destruct Hw as [Hw _]; rewrite Hw in Ht; by destruct Ht..|].
    by apply (net_size (type_of o)).
  - assert ((type_of o =? OPTION_121) || (type_of o =? OPTION_249) = false) as -> by (rewrite !(proj2 (Z.eqb_neq (type_of o) _)) by tauto; done).
    pose proof Hvs as [Hv _]%Forall_cons_iff. destruct (values_size _ v Hv ltac:(tauto) ltac:(tauto)) as (m & n & Em & En & Hn & Hw). unfold upper_length. rewrite Em, En. cbn [mbind option_bind].
    rewrite (proj2 (Z.eqb_neq _ _)) by lia. cbn [mbind option_bind]. unfold all_data. rewrite (concat_exact value_data _ n _ (fun x Hx => proj1 (Hw x Hx)) Hvs).
    rewrite (Z.mul_comm n), Z.div_mul by lia. exists (m * zlen (v :: vs)). split_and!; [done| |by eexists]. by apply (concat_size value_text _ m _ (fun x Hx => proj2 (Hw x Hx))).
Qed.

Lemma fill_loop_string cap out s rest n fuel : zlen out + zlen s + 1 <= cap -> fill_loop (S fuel) cap OPTION_STRING out (s ++ rest) n (zlen s) = Some (out ++ s).
Proof using Type.
  intros Hc. cbn [fill_loop]. change (fill_turn cap OPTION_STRING out (s ++ rest) n (zlen s)) with
    (d ← some_bytes (Z.to_nat (zlen s)) (s ++ rest); _ ← put cap out (d ++ [0]); Some (Return (out ++ d))).
  rewrite some_bytes_app by lia. cbn [mbind option_bind]. unfold put. rewrite length_app. cbn [length]. by rewrite (proj2 (Z.leb_le _ _)) by lia.
Qed.

(** The variable of an option: its buffer is large enough, and it says what the option says. *)
Definition variable (o : dhcp_option) (c : content) : list Z := o_name o ++ 61 :: content_text c.

Lemma entry_filled room o c rest : (forall n, 0 <= n -> n <= room n) -> o ∈ option_table -> content_ok (type_of o) c ->
  exists size, entry_size o (zlen (content_data c)) (content_data c ++ rest) = Some size /\
    fill_options (room size) (zlen (content_data c)) (content_data c ++ rest) o = Some (variable o c).
Proof using Type.
  intros Hroom Ho Hc. unfold fill_options, variable. destruct c as [[|v vs]|s]; cbn [content_ok content_data content_text] in *; [by destruct Hc| |].
  - destruct Hc as [_ Hvs]. destruct (values_entry o v vs rest Ho Hvs) as (n & E & Hn & optlen & El). fold (all_data (v :: vs)) (all_text (v :: vs)). eexists. split; [exact E|].
    specialize (Hroom (n + zlen (o_name o) + 2) ltac:(lia)). rewrite sprint_ok by (rewrite length_app; cbn [length]; lia). rewrite El. cbn [mbind option_bind app].
    pose proof (all_data_length (v :: vs)) as Hl. cbn [length] in Hl. rewrite fill_values; [by rewrite <- app_assoc|done|unfold optlen_ok; tauto|lia|rewrite length_app; cbn [length]; lia].
  - unfold entry_size. rewrite table_routes by done. unfold upper_length. rewrite Hc. change (rd max_option_length OPTION_STRING) with (Some 1). change (rd option_lengths OPTION_STRING) with (Some 1).
    cbn [orb Z.eqb mbind option_bind]. change ((OPTION_STRING =? OPTION_121) || (OPTION_STRING =? OPTION_249)) with false. change (1 =? 0) with false. cbv iota. cbn [mbind option_bind]. rewrite Z.div_1_r. eexists. split; [reflexivity|].
    specialize (Hroom (1 * zlen s + zlen (o_name o) + 2) ltac:(lia)). 
    rewrite sprint_ok by (rewrite length_app; cbn [length]; lia). cbn [mbind option_bind app]. rewrite fill_loop_string by (rewrite length_app; cbn [length]; lia). by rewrite <- app_assoc.
Qed.
End Turns.

(** ** The environment of a packet *)

Section Environment.
Context `{Endian} (room : Z -> Z) (environ : list (list Z)) (interface : list Z).
Context (room_enough : forall n, 0 <= n -> n <= room n).

(** What the packet has of an option. *)
Definition carries (p : dhcpMessage) (o : dhcp_option) (c : option content) : Prop :=
  match c with
  | None => found p (o_code o) = Some None
  | Some c => content_ok (type_of o) c /\ exists rest, found p (o_code o) = Some (Some (zlen (content_data c), content_data c ++ rest))
  end.

Fixpoint option_vars (table : list dhcp_option) (cs : list (option content)) : list (list Z) :=
  match table, cs with
  | o :: table, Some c :: cs => variable o c :: option_vars table cs
  | _ :: table, None :: cs => option_vars table cs
  | _, _ => []
  end.

Lemma count_vars p table cs : Forall2 (carries p) table cs -> count_options p table = Some (zlen (option_vars table cs)).
Proof using Type.
  induction 1 as [|o c table cs Hc _ IH]; [done|]. cbn [count_options option_vars]. rewrite IH. destruct c as [c|]; cbn [carries] in Hc; [destruct Hc as (_ & rest & ->)|rewrite Hc];
    cbn [mbind option_bind length]; f_equal; lia.
Qed.

Lemma push_ok {A} slots (env : list A) x : zlen env + 1 <= slots -> push slots env x = Some (env ++ [x]).
Proof using Type. intros Hs. unfold push. by rewrite (proj2 (Z.leb_le _ _)) by lia. Qed.

Lemma fill_entries_vars p slots table cs : Forall2 (carries p) table cs -> Forall (fun o => o ∈ option_table) table ->
  forall env, zlen env + zlen (option_vars table cs) <= slots -> fill_entries room p slots env table = Some (env ++ option_vars table cs).
Proof using room_enough.
  induction 1 as [|o c table cs Hc _ IH]; intros Ht env Hs; cbn [fill_entries option_vars] in *; [by rewrite app_nil_r|]. apply Forall_cons_iff in Ht as [Ho Ht].
  destruct c as [c|]; cbn [carries] in Hc; [|rewrite Hc; by apply IH]. destruct Hc as (Hc & rest & ->). cbn [mbind option_bind].
  destruct (entry_filled room o c rest room_enough Ho Hc) as (size & -> & E). cbn [mbind option_bind]. rewrite E. cbn [mbind option_bind length] in *.
  rewrite push_ok by lia. cbn [mbind option_bind]. rewrite IH by (done || (rewrite length_app; cbn [length]; lia)). by rewrite <- app_assoc.
Qed.

(** There is memory for a variable with an address. *)
Definition ip_fits (name : list Z) (a : Z) : bool := zlen name + zlen (dotted a) + 2 <=? room (zlen name + 16).

Lemma ip_entry_spec name x : ip_entry room name (store 4 x) = if ip_fits name (ntohl x) then Some (name ++ dotted (ntohl x) ++ [32]) else None.
Proof using Type.
  unfold ip_entry, sprintip, ip_fits. rewrite <- (app_nil_r (store 4 x)), dots_bytes by (apply store_bytes || apply length_store). fold (ntohl x). cbn [mbind option_bind].
  destruct (Z.leb_spec (zlen name + zlen (dotted (ntohl x)) + 2) (room (zlen name + 16))).
  - by rewrite sprint_ok by (rewrite !length_app; cbn [length]; lia).
  - by rewrite sprint_over by (rewrite !length_app; cbn [length]; lia).
Qed.

Lemma text_entry_ok name t : text_entry room name t = Some (name ++ t).
Proof using room_enough.
  unfold text_entry. pose proof (room_enough (zlen name + 1 + zlen t) ltac:(lia)). by rewrite sprint_ok by (rewrite length_app; cbn [length]; lia).
Qed.

(** A name in a field of the packet; the field when it has an end. *)
Definition ended (there : bool) (l : list Z) : list Z := if there then take (length l - 1) l ++ [0] else l.

Definition name_vars (there : bool) (name l : list Z) : list (list Z) := if there then [name ++ cstr (ended there l)] else [].

Lemma end_string_ended l : (0 < length l)%nat -> end_string l = Some (ended true l).
Proof using Type.
  intros Hl. unfold end_string, wr, ended. rewrite (proj2 (Z.leb_le _ _)), (proj2 (Z.ltb_lt _ _)) by lia. cbn [andb]. f_equal.
  replace (Z.to_nat (zlen l - 1)) with (length l - 1)%nat by lia. rewrite insert_take_drop by lia. by rewrite drop_ge by lia.
Qed.

Lemma push_name_spec slots env name l there : (0 < length l)%nat -> zlen env + count there <= slots ->
  push_name room slots env name l there = Some (env ++ name_vars there name l, ended there l).
Proof using room_enough.
  intros Hl Hs. unfold push_name, name_vars. destruct there; [|by rewrite app_nil_r]. cbn [count] in Hs. rewrite end_string_ended by done. cbn [mbind option_bind].
  rewrite text_entry_ok. cbn [mbind option_bind]. by rewrite push_ok.
Qed.

Definition named (over field : Z) (l : list Z) : bool := (Z.land over field =? 0) && negb (hd 0 l =? 0).

Definition basic_vars : list (list Z) := [str_interface ++ interface; find_env environ str_PATH str_path; find_env environ str_HOME str_home].

Lemma has_name_named over field l : (0 < length l)%nat -> has_name over field l = Some (named over field l).
Proof using Type. by destruct l; cbn [length]; [lia|]. Qed.

(** The variables behind the options. *)
Definition rest_vars (p : dhcpMessage) (f n : bool) : list (list Z) :=
  (if siaddr p =? 0 then [] else [str_siaddr ++ dotted (ntohl (siaddr p)) ++ [32]]) ++ name_vars f str_boot_file (file p) ++ name_vars n str_sname (sname p).

Lemma length_rest_vars p f n : zlen (rest_vars p f n) = count (negb (siaddr p =? 0)) + count f + count n.
Proof using Type. unfold rest_vars. by destruct (siaddr p =? 0), f, n. Qed.

Lemma fill_rest_vars p slots env f n : fields_ok p -> zlen env + zlen (rest_vars p f n) + 1 <= slots ->
  fill_rest room p slots env (negb (siaddr p =? 0)) f n =
    if (siaddr p =? 0) || ip_fits str_siaddr (ntohl (siaddr p))
    then Some (env ++ rest_vars p f n, Some (set_names p (ended n (sname p)) (ended f (file p)))) else None.
Proof using room_enough.
  intros [Hsn Hfl _] Hs. rewrite length_rest_vars in Hs. unfold fill_rest, rest_vars. rewrite ip_entry_spec. assert (0 <= count f /\ 0 <= count n) as [Hf Hn] by (by destruct f, n).
  assert (zlen (name_vars f str_boot_file (file p)) = count f) as Hlf by (by destruct f). assert (zlen (name_vars n str_sname (sname p)) = count n) as Hln by (by destruct n).
  assert (forall e : list (list Z), zlen e + count f + count n + 1 <= slots ->
    ('(env, fl) ← push_name room slots e str_boot_file (file p) f; '(env, sn) ← push_name room slots env str_sname (sname p) n; if zlen env + 1 <=? slots then Some (env, Some (set_names p sn fl)) else None) =
    Some (e ++ name_vars f str_boot_file (file p) ++ name_vars n str_sname (sname p), Some (set_names p (ended n (sname p)) (ended f (file p))))) as Hnames.
  { intros e He. rewrite push_name_spec by lia. cbn [mbind option_bind]. rewrite push_name_spec by (rewrite ?length_app; lia). cbn [mbind option_bind].
    by rewrite <- app_assoc, (proj2 (Z.leb_le _ _)) by (rewrite !length_app; lia). }
  destruct (siaddr p =? 0); cbn [negb orb count] in *; [by apply Hnames; lia|]. destruct (ip_fits str_siaddr _); [|done]. cbn [mbind option_bind].
  rewrite push_ok by lia. cbn [mbind option_bind]. rewrite Hnames by (rewrite length_app; cbn [length]; lia). by rewrite <- !app_assoc.
Qed.

(** The variables for a packet, in order. *)
Definition environment (p : dhcpMessage) (over : Z) (cs : list (option content)) : list (list Z) :=
  (basic_vars ++ [str_ip ++ dotted (ntohl (yiaddr p)) ++ [32]]) ++ option_vars option_table cs ++
  rest_vars p (named over FILE_FIELD (file p)) (named over SNAME_FIELD (sname p)).

#[local] Opaque option_table fill_entries count_options option_vars overload fill_rest.

Lemma fill_envp_runs p over cs : fields_ok p -> Forall2 (carries p) option_table cs -> overload p = Some over ->
  fill_envp room environ interface (Some p) =
    if ip_fits str_ip (ntohl (yiaddr p)) && ((siaddr p =? 0) || ip_fits str_siaddr (ntohl (siaddr p)))
    then Some (environment p over cs, Some (set_names p (ended (named over SNAME_FIELD (sname p)) (sname p)) (ended (named over FILE_FIELD (file p)) (file p))))
    else None.
Proof using room_enough.
  intros Hp Hcs Hov. pose proof Hp as [Hsn Hfl _]. unfold fill_envp, environment. set (f := named over FILE_FIELD (file p)). set (n := named over SNAME_FIELD (sname p)).
  apply (bind_to _ _ _ _ (text_entry_ok _ _)), (bind_to _ _ _ _ (count_vars _ _ _ Hcs)), (bind_to _ _ _ _ Hov).
  apply (bind_to _ f _ _ (has_name_named over FILE_FIELD (file p) ltac:(lia))), (bind_to _ n _ _ (has_name_named over SNAME_FIELD (sname p) ltac:(lia))).
  rewrite ip_entry_spec. pose proof (length_rest_vars p f n) as Hlen. fold basic_vars. assert (zlen basic_vars = 3) as Hb by done. destruct (ip_fits str_ip _); [|reflexivity].
  cbv zeta. eapply bind_to; [reflexivity|]. eapply bind_to; [apply push_ok; lia|].
  eapply bind_to; [apply fill_entries_vars; [exact Hcs|by apply Forall_forall|rewrite length_app; cbn [length]; lia]|].
  rewrite fill_rest_vars by (exact Hp || (rewrite !length_app; cbn [length]; lia)). by rewrite <- app_assoc.
Qed.

(** C15. The script runs in just the environment that the packet describes: the interface, the paths, the address, a variable for
    each option of the table that the packet has, with its values in text, the server to boot from and the two names.  Whatever the
    values are, each variable stays in the buffer that was measured for it, and the array of pointers is long enough; the exception
    are the two addresses outside the options, whose buffers lack a byte: the script is not run in that way if the address has 15
    characters and [malloc] gives no more than what was asked for. *)
Theorem script_environment script name p over cs : fields_ok p -> Forall2 (carries p) option_table cs -> overload p = Some over ->
  script_run room environ interface (Some script) (Some p) name =
    if ip_fits str_ip (ntohl (yiaddr p)) && ((siaddr p =? 0) || ip_fits str_siaddr (ntohl (siaddr p)))
    then Some (Some (script, [script; name], environment p over cs),
               Some (set_names p (ended (named over SNAME_FIELD (sname p)) (sname p)) (ended (named over FILE_FIELD (file p)) (file p))))
    else None.
Proof using room_enough.
  intros Hp Hcs Hov. pose proof (fill_envp_runs p over cs Hp Hcs Hov) as E. unfold script_run. destruct (_ && _); [apply (bind_to _ _ _ _ E)|rewrite E]; reflexivity.
Qed.
End Environment.

(** ** Options that are too short *)

Section Short.
Context `{Endian}.

Lemma sprint_full out t : t <> [] -> sprint (zlen out + 1) out t = None.
Proof using Type. intros Ht. apply sprint_over. destruct t; [done|]. cbn [length]. lia. Qed.

Lemma sprintip_full out pre pos ip : sprintip (zlen out + 1) out pre pos ip = None.
Proof using Type.
  unfold sprintip. destruct (dots ip) as [t|] eqn:E; [|done]. cbn [mbind option_bind]. apply sprint_full. unfold dots in E. destruct (rd ip 0), (rd ip 1), (rd ip 2), (rd ip 3); try done.
  injection E as <-. intros Hn. apply app_nil in Hn as [_ Hn]. by apply app_nil in Hn as [Hn _]; apply app_nil in Hn as [_ Hn].
Qed.

Lemma print_route_full out opt : print_route (zlen out + 1) out opt = None.
Proof using Type. unfold print_route. destruct (rd opt 0); [|done]. cbn [mbind option_bind]. destruct (copy_octets _ _ _ _); [|done]. cbn [mbind option_bind]. by rewrite sprintip_full. Qed.

Lemma snoc_not_nil (l : list Z) x : l ++ [x] <> [].
Proof using Type. by destruct l. Qed.

(** Nothing but a string is printed into a buffer that is full. *)
Lemma full_turn type out opt optlen len : type ∈ [OPTION_IP; OPTION_U8; OPTION_U16; OPTION_U32; OPTION_S32; OPTION_33; OPTION_121; OPTION_249] ->
  fill_turn (zlen out + 1) type out opt optlen len = None.
Proof using Type.
  intros Ht. rewrite !elem_of_cons, elem_of_nil in Ht. assert (forall w, match print_route (zlen out + 1) out opt with Some o => Some (Next o opt w len) | None => None end = None) as Hroute by (intros w; by rewrite print_route_full).
  destruct Ht as [->|[->|[->|[->|[->|[->|[->|[->|[]]]]]]]]].
  - by rewrite turn_ip, sprintip_full.
  - rewrite turn_u8. destruct (rd opt 0); [|done]. cbn [mbind option_bind]. by rewrite sprint_full by apply snoc_not_nil.
  - rewrite turn_u16. destruct (some_bytes 2 opt); [|done]. cbn [mbind option_bind]. by rewrite sprint_full by apply snoc_not_nil.
  - rewrite turn_u32. destruct (some_bytes 4 opt); [|done]. cbn [mbind option_bind]. by rewrite sprint_full by apply snoc_not_nil.
  - rewrite turn_s32. destruct (some_bytes 4 opt); [|done]. cbn [mbind option_bind]. by rewrite sprint_full by apply snoc_not_nil.
  - by rewrite turn_33, sprintip_full.
  - unfold fill_turn. cbn [OPTION_121 Z.eqb Pos.eqb orb]. destruct (rd opt 0); [|done]. exact (Hroute _).
  - unfold fill_turn. cbn [OPTION_249 OPTION_121 Z.eqb Pos.eqb orb]. destruct (rd opt 0); [|done]. exact (Hroute _).
Qed.

Lemma table_printed o : o ∈ option_table -> type_of o <> OPTION_STRING ->
  type_of o ∈ [OPTION_IP; OPTION_U8; OPTION_U16; OPTION_U32; OPTION_S32; OPTION_33; OPTION_121; OPTION_249].
Proof using Type.
  intros Ho Hs. apply list_elem_of_In in Ho. assert (forallb (fun o => (type_of o =? OPTION_STRING) ||
    existsb (Z.eqb (type_of o)) [OPTION_IP; OPTION_U8; OPTION_U16; OPTION_U32; OPTION_S32; OPTION_33; OPTION_121; OPTION_249]) option_table = true) as Hall by (vm_compute; reflexivity).
  rewrite forallb_forall in Hall. specialize (Hall o Ho). rewrite (proj2 (Z.eqb_neq _ _) Hs) in Hall. cbn [orb] in Hall. apply existsb_exists in Hall as (x & Hx & ->%Z.eqb_eq).
  by apply list_elem_of_In.
Qed.

(** C33. An option that is shorter than a value of its type, an address of three bytes, say, or any option but a string without
    data, is printed beyond its buffer: the length of the buffer is rounded down to no value at all, and one is printed
    nevertheless.  Whoever answers the client can write to its heap. *)
Theorem short_option_overflows o len opt size : o ∈ option_table -> type_of o <> OPTION_STRING ->
  0 <= len -> len = 0 \/ (exists n, rd option_lengths (type_of o) = Some n /\ len < n) ->
  entry_size o len opt = Some size -> fill_options size len opt o = None.
Proof using Type.
  intros Ho Hs H0 Hlen Hsize. assert (size = zlen (o_name o) + 2) as ->.
  { unfold entry_size in Hsize. rewrite table_routes in Hsize by done. destruct (_ || _) eqn:Et.
    - assert (len = 0) as ->. { destruct Hlen as [|(n & En & Hn)]; [done|]. apply orb_true_iff in Et as [Et%Z.eqb_eq|Et%Z.eqb_eq]; rewrite Et in En; vm_compute in En; injection En as <-; lia. }
      cbn in Hsize. by injection Hsize as <-.
    - unfold upper_length in Hsize. destruct (rd max_option_length (type_of o)) as [m|]; [|done]. destruct (rd option_lengths (type_of o)) as [n|]; [|done]. cbn [mbind option_bind] in Hsize.
      destruct (Z.eqb_spec n 0) as [->|Hn]; [done|]. cbn [mbind option_bind] in Hsize. injection Hsize as <-.
      destruct Hlen as [->|(n' & [= <-] & Hl)]; [rewrite Zdiv_0_l|rewrite Z.div_small by lia]; lia. }
  unfold fill_options. rewrite sprint_ok by (rewrite length_app; cbn [length]; lia). cbn [mbind option_bind app]. destruct (rd option_lengths (type_of o)) as [n|]; [|done]. cbn [mbind option_bind fill_loop].
  replace (zlen (o_name o) + 2) with (zlen (o_name o ++ [61]) + 1) by (rewrite length_app; cbn [length]; lia). by rewrite full_turn by (by apply table_printed).
Qed.

(** A mask that is too wide is copied beyond the array for the network: 28 bytes of the packet onto the stack, with a mask of 255. *)
Lemma copy_octets_bound n : forall i dst opt, 0 <= i -> copy_octets (S n) i dst opt <> None -> i + Z.of_nat n < zlen dst.
Proof using Type.
  induction n as [|n IH]; intros i dst opt Hi; cbn [copy_octets].
  - destruct (rd opt (i + 1)) as [x|]; [|done]. cbn [mbind option_bind]. unfold wr. destruct ((0 <=? i) && _) eqn:E; [|done]. bprop. lia.
  - destruct (rd opt (i + 1)) as [x|]; [|done]. cbn [mbind option_bind]. unfold wr. destruct ((0 <=? i) && _) eqn:E; [|done]. cbn [mbind option_bind]. intros Hc. apply IH in Hc; [|lia].
    rewrite length_insert in Hc. lia.
Qed.

Theorem wide_mask_overflows cap out width opt : 32 < width -> print_route cap out (width :: opt) = None.
Proof using Type.
  intros Hw. unfold print_route. rewrite rd_head. cbn [mbind option_bind]. destruct (copy_octets (Z.to_nat (octets width)) 0 [0; 0; 0; 0] (width :: opt)) as [d|] eqn:E; [|done]. exfalso.
  assert (4 < octets width) as Ho by (unfold octets; Z.to_euclidean_division_equations; lia). replace (Z.to_nat (octets width)) with (S (Z.to_nat (octets width - 1))) in E by lia.
  pose proof (copy_octets_bound (Z.to_nat (octets width - 1)) 0 [0; 0; 0; 0] (width :: opt) ltac:(lia) ltac:(by rewrite E)) as Hb. cbn [length] in Hb. lia.
Qed.
End Short.

(** ** Packets and their environments *)

#[local] Instance be_script : Endian := {| big := true |}.

Definition some_packet (yi si : Z) (l : list (Z * list Z)) : dhcpMessage :=
  mkmsg 2 1 6 0 0 0 0 0 yi si 0 (replicate 16 0) (replicate 64 0) (cs "image" ++ replicate 123 0) 0 (area_of l).

Definition env_of (p : dhcpMessage) : list (list Z) :=
  match script_run (fun n => n) [cs "HOMEPAGE=x"; cs "PATH=/bin"]  (cs "eth0") (Some (cs "s")) (Some p) (cs "bound") with Some (Some (_, _, env), _) => env | _ => [] end.

(** All the types, and a variable that is taken for HOME. *)
Example some_environment :
  env_of (some_packet 0x0A000002 0x0A000001 [(1, [255; 0; 0; 0]); (2, [255; 255; 241; 240]); (3, [10; 0; 0; 1; 10; 0; 0; 254]); (0x0f, cs "lan"); (0x17, [64]); (0x1a, [5; 220]); (0x33, [0; 0; 14; 16]);
    (0x21, [10; 1; 2; 3; 10; 0; 0; 1]); (0x79, [25; 192; 168; 2; 129; 192; 168; 1; 102; 0; 192; 168; 1; 252])]) =
  map cs ["interface=eth0"; "PATH=/bin"; "HOMEPAGE=x"; "ip=10.0.0.2 "; "subnet=255.0.0.0 "; "timezone=-3600 "; "router=10.0.0.1 10.0.0.254 "; "domain=lan"; "ipttl=64 "; "mtu=1500 ";
    "sstrout=10.1.2.3,255.255.255.255,32,10.0.0.1 "; "lease=3600 "; "clsstrout=192.168.2.128,255.255.255.128,25,192.168.1.102 0.0.0.0,0.0.0.0,0,192.168.1.252 "; "siaddr=10.0.0.1 "; "boot_file=image"]%string.
Proof. vm_compute. reflexivity. Qed.

Definition no_content : list (option content) := replicate 31 None.

Lemma nothing_carried yi : Forall2 (carries (some_packet yi 0 [])) option_table no_content.
Proof. repeat constructor. Qed.

(** An address of 14 characters fits; one of 15 does not. *)
Lemma script_environment_witness :
  script_run (fun n => n) [] (cs "eth0") (Some (cs "s")) (Some (some_packet 0xC0A80164 0 [])) (cs "bound") =
    Some (Some (cs "s", [cs "s"; cs "bound"], map cs ["interface=eth0"; "PATH=/bin:/usr/bin:/sbin:/usr/sbin"; "HOME=/"; "ip=192.168.1.100 "; "boot_file=image"]%string), Some (some_packet 0xC0A80164 0 [])) /\
  script_run (fun n => n) [] (cs "eth0") (Some (cs "s")) (Some (some_packet 0xC0A86464 0 [])) (cs "bound") = None.
Proof.
  assert (forall yi, fields_ok (some_packet yi 0 [])) as Hf. { intros yi. split; (split; [reflexivity|]); unfold is_byte; apply (bool_decide_unpack _); vm_compute; exact I. }
  split; (rewrite (script_environment (fun n => n) [] (cs "eth0") (fun n _ => Z.le_refl n) (cs "s") (cs "bound") _ 0 no_content); [vm_compute; reflexivity|apply Hf|apply nothing_carried|reflexivity]).
Defined.

(** A mask of three bytes. *)
Lemma short_option_overflows_witness : fill_options 8 3 [255; 255; 255; 255] (mkopt (cs "subnet") 0x11 1) = None.
Proof.
  apply short_option_overflows; [apply list_elem_of_In; vm_compute; tauto|done|lia|right; by exists 4|reflexivity].
Defined.
End DhcpScript.
