(* ===== verification/DhcpRoutes.v ===== *)
(** * progs.gpl/udhcpcd/script.c and dhcpc.c: static routes, one run of the script for each.

    In the builds with the options for static routes the client does not put options 121, 249 and 33 into the environment of
    the script; it runs the script again for each of their routes, counting them by [index], for as long as [remain] is set.
    [room n] is what [malloc(n)] really gives. *)
From Stdlib Require Import ZArith Lia Bool String.
From stdpp Require Import base tactics option numbers list.
From S2P Require Import Prelude Xmldb XmldbFile DhcpOptions DhcpPacket DhcpLeases DhcpServer DhcpConfig DhcpConfigText DhcpScript.

Module DhcpRoutes.
Import XmldbFile DhcpOptions DhcpPacket DhcpServer DhcpConfigText DhcpScript.

Definition str_sdest : list Z := Eval cbv in cs "sdest=".
Definition str_ssubnet : list Z := Eval cbv in cs "ssubnet=".
Definition str_srouter : list Z := Eval cbv in cs "srouter=".
Definition str_sindex : list Z := Eval cbv in cs "sindex=".
Definition str_snum : list Z := Eval cbv in cs "snum=".
Definition str_classless : list Z := Eval cbv in cs "classlessstaticroute".
Definition str_static : list Z := Eval cbv in cs "staticroute".

Section Routes.
Context `{Endian} (room : Z -> Z) (environ : list (list Z)) (interface : list Z).

(** The variables that the routes are told by. *)
Fixpoint number_loop (n : nat) (cap i : Z) (out : list Z) : option (list Z) :=
  match n with
  | O => Some out
  | S n => out ← sprint cap out (dec (i + 1) ++ [32]); number_loop n cap (i + 1) out
  end.

Definition route_env (dst mask gw : list Z) (index : Z) : option (list (list Z)) :=
  i ← text_entry room str_interface interface;
  d ← ip_entry room str_sdest dst;
  m ← ip_entry room str_ssubnet mask;
  g ← ip_entry room str_srouter gw;
  x ← sprint (room 11) [] (str_sindex ++ dec (index + 1));
  let cap := room (6 + 4 * (index + 1)) in
  n ← sprint cap [] str_snum;
  n ← number_loop (Z.to_nat (index + 1)) cap 0 n;
  Some [i; find_env environ str_PATH str_path; find_env environ str_HOME str_home; d; m; g; x; n].

(** Where the route with a number begins. *)
Fixpoint route_offset (n : nat) (opt : list Z) (offset : Z) : option Z :=
  match n with
  | O => Some offset
  | S n => w ← rd opt offset; route_offset n opt (offset + (octets w + 4 + 1))
  end.

(** The mask of a width: whole bytes, and what is left. *)
Definition mask_bytes (width : Z) : list Z :=
  let l := replicate (Z.to_nat (width / 8)) 255 ++ (if width mod 8 =? 0 then [] else [u8 (Z.shiftr (-128) (width mod 8 - 1))]) in
  l ++ replicate (4 - length l) 0.

(** [fill_envp_opt121] and [fill_envp_opt249], which differ in the code: the environment or NULL, and [remain].  The difference of
    the lengths is unsigned. *)
Definition fill_envp_classless (code : Z) (p : dhcpMessage) (index remain : Z) : option (option (list (list Z)) * Z) :=
  r ← found p code;
  match r with
  | None => Some (None, remain)
  | Some (len, opt) =>
      offset ← route_offset (Z.to_nat index) opt 0;
      width ← rd opt offset;
      let remain := if u32 (len - (offset + (octets width + 4 + 1))) <=? 0 then 0 else 1 in
      let opt := drop (Z.to_nat offset) opt in
      if 32 <? width then Some (None, 0)
      else
        dst ← copy_octets (Z.to_nat (octets width)) 0 [0; 0; 0; 0] opt;
        let dst := zip_with Z.land dst (mask_bytes width) in
        gw ← some_bytes 4 (drop (Z.to_nat (1 + octets width)) opt);
        env ← route_env dst (mask_bytes width) gw index;
        Some (Some env, remain)
  end.

Definition fill_envp_opt121 : dhcpMessage -> Z -> Z -> option (option (list (list Z)) * Z) := fill_envp_classless DHCP_CLSLESS_ROUTE.
Definition fill_envp_opt249 : dhcpMessage -> Z -> Z -> option (option (list (list Z)) * Z) := fill_envp_classless DHCP_MS_ROUTE.

Definition fill_envp_opt33 (p : dhcpMessage) (index remain : Z) : option (option (list (list Z)) * Z) :=
  r ← found p DHCP_STATIC_ROUTE;
  match r with
  | None => Some (None, remain)
  | Some (len, opt) =>
      let offset := index * (4 + 4) in
      let remain := if u32 (len - (offset + 4 + 4)) <=? 0 then 0 else 1 in
      let opt := drop (Z.to_nat offset) opt in
      dst ← some_bytes 4 opt;
      gw ← some_bytes 4 (drop 4 opt);
      env ← route_env dst [255; 255; 255; 255] gw index;
      Some (Some env, remain)
  end.

(** [run_script_opt121] and the like: what is executed, if anything, and [remain]. *)
Definition run_route (fill : dhcpMessage -> Z -> Z -> option (option (list (list Z)) * Z)) (script : option (list Z)) (name : list Z)
  (p : dhcpMessage) (index remain : Z) : option (list (list Z * list (list Z) * list (list Z)) * Z) :=
  match script with
  | None => Some ([], remain)
  | Some s =>
      '(env, remain) ← fill p index remain;
      Some (match env with Some env => [(s, [s; name], env)] | None => [] end, remain)
  end.

Definition run_script_opt121 (script : option (list Z)) := run_route fill_envp_opt121 script str_classless.
Definition run_script_opt249 (script : option (list Z)) := run_route fill_envp_opt249 script str_classless.
Definition run_script_opt33 (script : option (list Z)) := run_route fill_envp_opt33 script str_static.

(** [do { ...; index++; } while (remain);] *)
Fixpoint routes_loop (fuel : nat) (run : dhcpMessage -> Z -> Z -> option (list (list Z * list (list Z) * list (list Z)) * Z)) (p : dhcpMessage) (index remain : Z) :
  option (list (list Z * list (list Z) * list (list Z))) :=
  match fuel with
  | O => None
  | S fuel =>
      '(done, remain) ← run p index remain;
      if remain =? 0 then Some done else more ← routes_loop fuel run p (index + 1) remain; Some (done ++ more)
  end.

(** The routes of an acknowledgement, in a build with all three options: at most 308 bytes are options. *)
Definition run_routes (script : option (list Z)) (p : dhcpMessage) : option (list (list Z * list (list Z) * list (list Z))) :=
  a ← routes_loop 308 (run_script_opt121 script) p 0 0;
  b ← routes_loop 308 (run_script_opt249 script) p 0 0;
  c ← routes_loop 308 (run_script_opt33 script) p 0 0;
  Some (a ++ b ++ c).
End Routes.

(** ** The routes are told *)


Section Told.
Context `{Endian} (room : Z -> Z) (environ : list (list Z)) (interface script : list Z).
Context (room_enough : forall n, 0 <= n -> n <= room n).

Lemma ip_entry_word name a : is_word 4 a -> ip_entry room name (be_bytes 4 a) = if ip_fits room name a then Some (name ++ dotted a ++ [32]) else None.
Proof using Type.
  intros Ha. unfold ip_entry, sprintip, ip_fits. rewrite <- (app_nil_r (be_bytes 4 a)), dots_word by done. cbn [mbind option_bind].
  destruct (Z.leb_spec (zlen name + zlen (dotted a) + 2) (room (zlen name + 16))).
  - by rewrite sprint_ok by (rewrite !length_app; cbn [length]; lia).
  - by rewrite sprint_over by (rewrite !length_app; cbn [length]; lia).
Qed.

(** The numbers up to a route. *)
Definition numbers (n : nat) : list Z := concat (map (fun i => dec (Z.of_nat i + 1) ++ [32]) (seq 0 n)).

Lemma length_numbers n : (n <= 98)%nat -> zlen (numbers n) <= 3 * Z.of_nat n.
Proof using Type.
  intros Hn. unfold numbers. pose proof (concat_size (fun i => dec (Z.of_nat i + 1) ++ [32]) (fun i => (i < n)%nat) 3 (seq 0 n)) as E. rewrite length_seq in E. apply E.
  - intros i Hi. rewrite length_app. pose proof (zlen_dec 2 (Z.of_nat i + 1) ltac:(lia) ltac:(cbn; lia)). cbn [length]. lia.
  - apply List.Forall_forall. intros i Hi%in_seq. lia.
Qed.

Lemma numbers_snoc n : numbers (S n) = numbers n ++ dec (Z.of_nat n + 1) ++ [32].
Proof using Type. unfold numbers. rewrite seq_S, map_app, concat_app. cbn. by rewrite app_nil_r. Qed.




(** ** The routes of an option *)











End Told.

(** The mask of a host has 15 characters, and its variable lacks a byte: every route of option 33 overflows a buffer. *)
Theorem static_route_overflows `{Endian} room environ interface p index remain len opt : room 24 = 24 -> found p DHCP_STATIC_ROUTE = Some (Some (len, opt)) ->
  fill_envp_opt33 room environ interface p index remain = None.
Proof.
  intros Hroom Hf. unfold fill_envp_opt33. apply (bind_to _ _ _ _ Hf). cbv beta iota zeta.
  destruct (some_bytes 4 (drop 4 _)) as [gw|]; destruct (some_bytes 4 _) as [dst|]; try reflexivity. cbn [mbind option_bind].
  assert (route_env room environ interface dst [255; 255; 255; 255] gw index = None) as ->; [|done]. unfold route_env. destruct (text_entry _ _ _); [|done]. cbn [mbind option_bind].
  destruct (ip_entry room str_sdest dst); [|done]. cbn [mbind option_bind]. change [255; 255; 255; 255] with (be_bytes 4 0xFFFFFFFF). rewrite ip_entry_word by done. unfold ip_fits.
  change (zlen str_ssubnet + 16) with 24. by rewrite Hroom.
Qed.

(** ** Packets with routes *)

#[local] Instance be_routes : Endian := {| big := true |}.




(** A byte behind the routes: the difference of the lengths never is 0, and the next options, the end mark and the zeros behind it
    are taken for routes, out to the end of the packet and further; with any amount of memory. *)
Example routes_do_not_end :
  routes_loop 308 (run_script_opt121 (fun n => n + 1000) [] (cs "eth0") (Some (cs "s")))
    (some_packet 0 0 [(DHCP_CLSLESS_ROUTE, value_data (V_net 0 0 0xC0A801FC) ++ [8]); (0x0c, [1; 2; 3; 4; 5; 6])]) 0 0 = None.
Proof. vm_compute. reflexivity. Qed.
End DhcpRoutes.
