(* ===== verification/DhcpBound.v ===== *)
(** * The script of a client that a server has given an address.

    The options of the answers of the server have the lengths of their types; so the environment of the script of a client
    stays in its buffers, and says what the server said. *)
From Stdlib Require Import ZArith Lia Bool String.
From stdpp Require Import base tactics option numbers list.
From S2P Require Import Prelude Xmldb XmldbFile DhcpOptions DhcpPacket DhcpLeases DhcpServer DhcpClient DhcpSafety DhcpReplies DhcpRequests DhcpExchange DhcpClientLease DhcpNetwork DhcpConfig DhcpConfigText DhcpScript.

Module DhcpBound.
Import XmldbFile DhcpOptions DhcpPacket DhcpLeases DhcpServer DhcpReplies DhcpExchange DhcpClient DhcpRequests DhcpNetwork DhcpConfigText DhcpScript.

(** ** Bytes are values *)






(** ** The options of a packet *)

Section Packets.
Context `{Endian}.








(** ** The script for an answer *)


End Packets.

Section Network.
Context `{Endian} (ccfg : client_config_t) (scfg : server_config_t) (room : Z -> Z) (environ : list (list Z)) (interface script : list Z).
Context (room_enough : forall n, 0 <= n -> n <= room n).

#[local] Opaque option_table option_vars overload.


End Network.

(** ** A client and its script *)

#[local] Existing Instance be_server.

Definition exact_room (n : Z) : Z := n.
Definition some_script : list Z := Eval cbv in cs "/etc/scripts/wan.sh".

(** The packet of the last script, its address to boot from, and the environment. *)
Definition last_packet (ev : list event) : option dhcpMessage := if List.last ev (Sent (Kernel 0 0 [])) is Script p _ then p else None.



Example bound_environment :
  (fun r => match r with Some (Some (_, _, env), _) => env | _ => [] end) (script_run exact_room [] (cs "eth1") (Some some_script) (last_packet (events client4)) str_bound) =
  map cs ["interface=eth1"; "PATH=/bin:/usr/bin:/sbin:/usr/sbin"; "HOME=/"; "ip=192.168.0.22 "; "router=192.168.0.1 "; "lease=864000 "; "dhcptype=5 "; "serverid=192.168.0.1 "; "boot_file=boot"]%string.
Proof. vm_compute. reflexivity. Qed.

End DhcpBound.
