(* ===== verification/Dumpleases.v ===== *)
(** * progs.gpl/udhcpcd/dumpleases.c: the printer of the file of leases.

    The options are what [getopt_long] finds, in their order; the files, [ctime] and the text of an error are inputs.  [long] has
    32 bits.  [None] is undefined behaviour. *)
From Stdlib Require Import ZArith Lia Bool String.
From stdpp Require Import base tactics list option numbers.
From S2P Require Import Prelude Xmldb XmldbFile Lrgbin Rgdb DhcpOptions DhcpPacket DhcpLeases DhcpServer DhcpConfigText.

Module Dumpleases.
Import DhcpOptions DhcpPacket DhcpLeases DhcpServer.
Import Rgdb (num).
Import DhcpConfigText (dotted, hex_byte).

Inductive print_mode := REMAINING | ABSOLUTE.

(** [struct lease_t], as it is in the file. *)
Record lease_t := mklease_t { lt_chaddr : list Z; lt_yiaddr : Z; lt_expires : Z; lt_ACKed : Z; lt_hostname : list Z }.

(** [sizeof(struct lease_t)] *)
Definition LEASE_T_SIZE : nat := 92.

(** [%-ns] *)
Definition left (n : nat) (s : list Z) : list Z := s ++ replicate (n - length s) 32.

Definition default_file : list Z := Eval cbv in cs "/var/lib/misc/udhcpd.leases".

Definition usage : list Z := Eval cbv in
  cs "Usage: dumpleases -f <file> -[r|a]" ++ [10; 10] ++ cs "  -f, --file=FILENAME             Leases file to load" ++ [10] ++
  cs "  -r, --remaining                 Interepret lease times as time remaing" ++ [10] ++
  cs "  -a, --absolute                  Interepret lease times as expire time" ++ [10].

(** The loop over the options: the mode, the file and what is printed. *)
Fixpoint parse_options (seen : list (Z * list Z)) (mode : print_mode) (file out : list Z) : print_mode * list Z * list Z :=
  match seen with
  | [] => (mode, file, out)
  | (c, optarg) :: seen =>
      if c =? 97 then parse_options seen ABSOLUTE file out
      else if c =? 114 then parse_options seen REMAINING file out
      else if c =? 102 then parse_options seen mode (take 254 optarg) out
      else if c =? 104 then parse_options seen mode file (out ++ usage)
      else parse_options seen mode file out
  end.

(** The time that is left, in the greatest units that it is more than one of. *)
Definition unit_text (n size : Z) (name : list Z) : list Z * Z := if size <? n then (num (Z.quot n size) ++ name, Z.rem n size) else ([], n).

Definition remaining_text (expires : Z) : list Z :=
  if expires =? 0 then cs "expired" ++ [10]
  else
    let '(d, expires) := unit_text expires (60 * 60 * 24) (cs " days, ") in
    let '(h, expires) := unit_text expires (60 * 60) (cs " hours, ") in
    let '(m, expires) := unit_text expires 60 (cs " minutes, ") in
    d ++ h ++ m ++ num expires ++ cs " seconds" ++ [10].

(** [(long)v] *)
Definition to_long (v : Z) : Z := if v <? 2 ^ 31 then v else v - 2 ^ 32.

Definition mac_text (chaddr : list Z) : list Z :=
  match chaddr with
  | a :: b :: c :: d :: e :: f :: _ => hex_byte a ++ 58 :: hex_byte b ++ 58 :: hex_byte c ++ 58 :: hex_byte d ++ 58 :: hex_byte e ++ 58 :: hex_byte f
  | _ => []
  end.

Section Program.
Context `{Endian}.
Variable ctime : Z -> list Z.

(** [fread] of a record. *)
Definition read_lease (bs : list Z) : lease_t :=
  mklease_t (slice 0 16 bs) (load (slice 16 4 bs)) (load (slice 20 4 bs)) (load (slice 24 4 bs)) (slice 28 64 bs).

(** The line of a lease; a name without an end is read beyond its 64 bytes. *)
Definition lease_line (mode : print_mode) (l : lease_t) : option (list Z) :=
  if existsb (Z.eqb 0) (lt_hostname l) then
    let expires := to_long (ntohl (lt_expires l)) in
    Some (left 16 (XmldbFile.cstr (lt_hostname l)) ++ [32] ++ mac_text (lt_chaddr l) ++ [32] ++ left 15 (dotted (ntohl (lt_yiaddr l))) ++ [32] ++
          match mode with REMAINING => remaining_text expires | ABSOLUTE => ctime expires end)
  else None.

Fixpoint lines (fuel : nat) (mode : print_mode) (bs : list Z) : option (list Z) :=
  match fuel with
  | O => None
  | S fuel =>
      if (length bs <? LEASE_T_SIZE)%nat then Some []
      else
        t ← lease_line mode (read_lease (take LEASE_T_SIZE bs));
        ts ← lines fuel mode (drop LEASE_T_SIZE bs);
        Some (t ++ ts)
  end.

Definition heading (mode : print_mode) : list Z :=
  cs "Hostname         Mac Address       IP-Address      Expires " ++ match mode with REMAINING => cs "in" | ABSOLUTE => cs "at" end ++ [10].

(** What is printed, and what is said as an error; the exit code is always 0. *)
Definition main (open : list Z -> option (list Z)) (strerror : list Z) (seen : list (Z * list Z)) : option (list Z * list Z) :=
  let '(mode, file, out) := parse_options seen REMAINING default_file [] in
  match open file with
  | None => Some (out, cs "could not open input file: " ++ strerror ++ [10])
  | Some bs => ts ← lines (S (length bs)) mode bs; Some (out ++ heading mode ++ ts, [])
  end.
End Program.

(** ** The time *)

Lemma unit_exact n size name t r : 0 < size -> 0 <= n -> unit_text n size name = (t, r) ->
  0 <= r /\ (t = [] /\ r = n /\ n <= size \/ exists q, 0 < q /\ t = num q ++ name /\ n = q * size + r /\ r < size).
Proof.
  intros Hs Hn. unfold unit_text. destruct (Z.ltb_spec size n); intros [= <- <-]; [|split; [done|left; done]].
  split; [Z.to_euclidean_division_equations; nia|]. right. exists (Z.quot n size). split_and!; [|done| |]; Z.to_euclidean_division_equations; nia.
Qed.

(** The numbers of the text add up to the time: a unit that is not shown counts for nothing. *)
Theorem remaining_exact n : 0 < n -> exists d h m s, remaining_text n = d.2 ++ h.2 ++ m.2 ++ num s ++ cs " seconds" ++ [10] /\
  n = d.1 * 86400 + h.1 * 3600 + m.1 * 60 + s /\ 0 <= s <= 60 /\
  (d = (0, []) \/ 0 < d.1 /\ d.2 = num d.1 ++ cs " days, ") /\ (h = (0, []) \/ 0 < h.1 <= 24 /\ h.2 = num h.1 ++ cs " hours, ") /\
  (m = (0, []) \/ 0 < m.1 <= 60 /\ m.2 = num m.1 ++ cs " minutes, ").
Proof.
  intros Hn. unfold remaining_text. rewrite (proj2 (Z.eqb_neq _ _)) by lia.
  destruct (unit_text n (60 * 60 * 24) _) as [td r1] eqn:E1. apply unit_exact in E1 as [P1 D1]; [|lia|lia].
  destruct (unit_text r1 (60 * 60) _) as [th r2] eqn:E2. apply unit_exact in E2 as [P2 D2]; [|lia|lia].
  destruct (unit_text r2 60 _) as [tm r3] eqn:E3. apply unit_exact in E3 as [P3 D3]; [|lia|lia].
  destruct D1 as [(-> & ? & ?)|(q1 & ? & -> & ? & ?)]; [exists (0, [])|exists (q1, num q1 ++ cs " days, ")];
    (destruct D2 as [(-> & ? & ?)|(q2 & ? & -> & ? & ?)]; [exists (0, [])|exists (q2, num q2 ++ cs " hours, ")]);
    (destruct D3 as [(-> & ? & ?)|(q3 & ? & -> & ? & ?)]; [exists (0, [])|exists (q3, num q3 ++ cs " minutes, ")]);
    exists r3; cbn [fst snd]; (split_and!; [done|lia|lia|lia|first [by left|right; split; [lia|done]]..]).
Qed.

(** ** The file of the server *)

Section Listing.
Context `{Endian} (ctime : Z -> list Z).

(** What the server keeps of a client: the name has an end. *)
Record recordable (l : dhcpOfferedAddr) : Prop := {
  rc_chaddr : length (l_chaddr l) = 16%nat;
  rc_yiaddr : is_word 4 (l_yiaddr l);
  rc_expires : is_word 4 (l_expires l);
  rc_hostname : length (l_hostname l) = 64%nat;
  rc_end : existsb (Z.eqb 0) (l_hostname l) = true
}.

(** The line of a lease that ends in [t] seconds. *)
Definition shown (x : dhcpOfferedAddr * Z) : list Z :=
  let '(l, t) := x in
  left 16 (XmldbFile.cstr (l_hostname l)) ++ [32] ++ mac_text (l_chaddr l) ++ [32] ++ left 15 (dotted (ntohl (l_yiaddr l))) ++ [32] ++ remaining_text (to_long t).

(** The leases in the file: those that were acknowledged, of the table and of the reserved addresses. *)
Definition written (cfg : server_config_t) (st : dhcpd) (t : Z) : list (dhcpOfferedAddr * Z) :=
  map (fun l => (l, lease_time_of cfg l t)) (List.filter (fun l => negb (l_yiaddr l =? 0) && negb (l_ACKed l =? 0)) (leases st)) ++
  map (fun l => (l, l_expires l)) (List.filter (fun l => negb (l_ACKed l =? 0)) (reserved (take MAX_STATIC_LEASES (static_leases st)))).

Definition record_of (x : dhcpOfferedAddr * Z) : list Z := lease_record x.1 x.2.

Lemma flat_map_filter {A B} (f : A -> bool) (g : A -> list B) l : flat_map (fun x => if f x then g x else []) l = concat (map g (List.filter f l)).
Proof using Type. induction l as [|x l IH]; [done|]. cbn [flat_map List.filter]. destruct (f x); cbn [map concat app]; by rewrite IH. Qed.

Lemma leases_text_records cfg st t : leases_text cfg st t = concat (map record_of (written cfg st t)).
Proof using Type. unfold leases_text, written. rewrite map_app, concat_app, !map_map. f_equal; apply flat_map_filter. Qed.

Lemma length_lease_record l t : recordable l -> length (lease_record l t) = LEASE_T_SIZE.
Proof using Type. intros [H1 _ _ H4 _]. unfold lease_record. by rewrite !length_app, !length_store, H1, H4. Qed.

Lemma record_line l t : recordable l -> is_word 4 t -> lease_line ctime REMAINING (read_lease (lease_record l t)) = Some (shown (l, t)).
Proof using Type.
  intros [H1 H2 H3 H4 H5] Ht. set (fs := [l_chaddr l; store 4 (l_yiaddr l); store 4 (htonl t); store 4 (l_ACKed l); l_hostname l]).
  assert (lease_record l t = concat fs) as E by (cbn; by rewrite app_nil_r).
  assert (forall k x a n, fs !! k = Some x -> length (concat (take k fs)) = a -> length x = n -> slice a n (lease_record l t) = x) as Hs by (intros k x a n Hk <- <-; rewrite E; by apply slice_concat).
  unfold read_lease, lease_line.
  rewrite (Hs 0%nat _ 0%nat 16%nat eq_refl), (Hs 1%nat _ 16%nat 4%nat eq_refl), (Hs 2%nat _ 20%nat 4%nat eq_refl), (Hs 4%nat _ 28%nat 64%nat eq_refl)
    by (cbn [fs take concat]; rewrite ?length_app, ?length_store, ?H1; done).
  cbn [lt_hostname lt_expires lt_yiaddr lt_chaddr]. rewrite H5, !load_store by (done || apply htonl_bound). by rewrite ntohl_htonl.
Qed.

(** Any number of turns that is enough for the records. *)
Lemma lines_records xs : Forall (fun x => recordable x.1 /\ is_word 4 x.2) xs ->
  forall fuel, (length xs < fuel)%nat -> lines ctime fuel REMAINING (concat (map record_of xs)) = Some (concat (map shown xs)).
Proof using Type.
  induction 1 as [|[l t] xs [Hl Ht] _ IH]; intros [|fuel] Hf; cbn [length] in Hf; try lia; [done|]. cbn [map concat lines]. unfold record_of at 1 2 3. cbn [fst snd] in *.
  pose proof (length_lease_record l t Hl) as Hr. rewrite (proj2 (Nat.ltb_ge _ _)) by (rewrite length_app; lia).
  rewrite (take_app_length' _ _ _ (eq_sym Hr)), (drop_app_length' _ _ _ (eq_sym Hr)), record_line by done. cbn [mbind option_bind]. by rewrite IH by lia.
Qed.

Lemma records_many xs : Forall (fun x => recordable x.1 /\ is_word 4 x.2) xs -> (length xs <= length (concat (map record_of xs)))%nat.
Proof using Type.
  induction 1 as [|[l t] xs [Hl _] _ IH]; [done|]. cbn [map concat length]. rewrite length_app. unfold record_of at 1. cbn [fst snd] in *. rewrite length_lease_record by done. unfold LEASE_T_SIZE. lia.
Qed.

Lemma reserved_sub l ls : In l (reserved ls) -> In l ls.
Proof using Type. induction ls as [|x ls IH]; [done|]. cbn [reserved]. destruct (l_yiaddr x =? 0); [done|]. cbn. intros [->|Hin]; [by left|right; by apply IH]. Qed.

Lemma written_ok cfg st t : Forall recordable (leases st) -> Forall recordable (static_leases st) -> Forall (fun x => recordable x.1 /\ is_word 4 x.2) (written cfg st t).
Proof using Type.
  intros Hl Hs. rewrite !List.Forall_forall in *. intros [l n] Hin. cbn [fst snd]. unfold written in Hin. apply in_app_iff in Hin as [Hin|Hin]; apply in_map_iff in Hin as (l' & [= <- <-] & Hin); apply filter_In in Hin as [Hin _].
  - specialize (Hl _ Hin). split; [done|]. unfold lease_time_of. destruct (remaining cfg); [|by apply rc_expires]. destruct (lease_expired l' t); [done|]. unfold is_word, u32. apply Z.mod_pos_bound. lia.
  - apply reserved_sub in Hin. rewrite <- (take_drop MAX_STATIC_LEASES (static_leases st)) in Hs. specialize (Hs l'). rewrite in_app_iff in Hs. specialize (Hs (or_introl Hin)). split; [done|by apply rc_expires].
Qed.

Lemma written_text cfg e st st' : can_open e = true -> write_leases cfg e st = Some st' -> lease_file st' = leases_text cfg st (now e).
Proof using Type.
  unfold write_leases. intros ->. destruct (notify_file cfg); [intros (c & _ & [= <-])%bind_Some|intros [= <-]]; by destruct (dhcp_helper cfg).
Qed.

(** The file that the server writes is shown with a line for each lease that was acknowledged: the name, the hardware address, the
    address and the time. *)
Theorem leases_listed cfg st st' e open err : Forall recordable (leases st) -> Forall recordable (static_leases st) -> can_open e = true -> write_leases cfg e st = Some st' ->
  open default_file = Some (lease_file st') ->
  main ctime open err [] = Some (heading REMAINING ++ concat (map shown (written cfg st (now e))), []).
Proof using Type.
  intros Hl Hs Hc Ew Ho. rewrite (written_text _ _ _ _ Hc Ew) in Ho. unfold main. cbn [parse_options]. rewrite Ho, leases_text_records.
  pose proof (written_ok cfg st (now e) Hl Hs) as Hw. rewrite lines_records; [done|done|]. pose proof (records_many _ Hw). lia.
Qed.

(** The server keeps its table so: names are cut to 63 bytes. *)
Lemma hostname_recordable s : length (hostname_bytes s) = 64%nat /\ existsb (Z.eqb 0) (hostname_bytes s) = true.
Proof using Type.
  unfold hostname_bytes. split; [rewrite length_app, length_take, length_app, length_replicate; cbn [length]; lia|]. rewrite existsb_app. cbn. by rewrite orb_true_r.
Qed.

Theorem add_lease_recordable ls t chaddr yiaddr lease name : Forall recordable ls -> length chaddr = 16%nat -> is_word 4 yiaddr -> Forall recordable (add_lease ls t chaddr yiaddr lease name).2.
Proof using Type.
  intros Hl Hc Hy. assert (Forall recordable (clear_lease ls chaddr yiaddr)) as Hl'.
  { unfold clear_lease. apply List.Forall_map. revert Hl. apply List.Forall_impl. intros l Hr. cbn. destruct (matches chaddr yiaddr l); [by constructor|done]. }
  unfold add_lease. destruct (oldest_expired_lease _ _) as [i|]; cbn [snd]; [|done]. apply Forall_alter; [done|]. intros l _ [H1 H2 H3 H4 H5].
  constructor; cbn; [done|done|unfold is_word, u32; apply Z.mod_pos_bound; lia| |]; destruct name; try done; apply hostname_recordable.
Qed.
End Listing.

(** A month, a day, a lease without an end, and one that is over. *)
Example some_times : remaining_text 2592000 = cs "30 days, 0 seconds" ++ [10] /\ remaining_text 86400 = cs "24 hours, 0 seconds" ++ [10] /\
  remaining_text (to_long 0xFFFFFFFF) = cs "-1 seconds" ++ [10] /\ remaining_text 0 = cs "expired" ++ [10].
Proof. by vm_compute. Qed.
End Dumpleases.
