(* ===== verification/Arpping.v ===== *)
(** * progs.gpl/udhcpcd/arpping.c: is an address in use?

    A request for the address is sent, and sent again after a time without a frame; who has the address answers.  The answers of
    the system are an input: whether the socket works, and what [select] and [recv] give, one for each turn of the loop.  [None]
    is undefined behaviour, or a loop that still waits when the answers are used up. *)
From Stdlib Require Import ZArith Lia Bool String.
From stdpp Require Import base tactics list option numbers.
From S2P Require Import Prelude DhcpOptions DhcpPacket DhcpLeases DhcpServer.

Module Arpping.
Import DhcpOptions DhcpPacket.
Import DhcpServer (MAC_BCAST_ADDR).

(** ** Frames *)

(** [struct arpMsg]: the Ethernet header, the fields of ARP and 18 bytes to fill the frame. *)
Record arpMsg := mkarp {
  h_dest : list Z; h_source : list Z; h_proto : Z; arp_htype : Z; ptype : Z; arp_hlen : Z; plen : Z; operation : Z;
  sHaddr : list Z; sInaddr : list Z; tHaddr : list Z; tInaddr : list Z
}.

Definition ARP_SIZE : nat := 60.
Definition ETH_P_ARP : Z := 0x0806.
Definition ARPHRD_ETHER : Z := 1.
Definition ETH_P_IP : Z := 0x0800.
Definition ARPOP_REQUEST : Z := 1.
Definition ARPOP_REPLY : Z := 2.

(** The frame in memory; the words are in the order of the network. *)
Definition frame (m : arpMsg) : list Z :=
  h_dest m ++ h_source m ++ be_bytes 2 (h_proto m) ++ be_bytes 2 (arp_htype m) ++ be_bytes 2 (ptype m) ++ [arp_hlen m; plen m] ++ be_bytes 2 (operation m) ++
  sHaddr m ++ sInaddr m ++ tHaddr m ++ tInaddr m ++ replicate 18 0.

(** What a turn of the loop gets: [select] fails, [recv] fails, a frame, or nothing in 100 ms. *)
Inductive answer := Select_error (eintr : bool) | Recv_error | Frame (bs : list Z) | Silence.

(** Bytes of the buffer of the reply, in which nothing is set at first. *)
Definition peek (at_ n : nat) (reply : list (option Z)) : option (list Z) := mapM id (take n (drop at_ reply)).

Definition take_frame (bs : list Z) (reply : list (option Z)) : list (option Z) :=
  let bs := take ARP_SIZE bs in map Some bs ++ drop (length bs) reply.

Section Ping.
Context `{Endian} (yiaddr ip : Z) (mac : list Z).

Definition arp_request : arpMsg :=
  mkarp MAC_BCAST_ADDR mac ETH_P_ARP ARPHRD_ETHER ETH_P_IP 6 4 ARPOP_REQUEST mac (store 4 ip) (replicate 6 0) (store 4 yiaddr).

Definition is_answer (reply : list (option Z)) : option bool :=
  o ← peek 20 2 reply;
  if load o =? htons ARPOP_REPLY then
    t ← peek 32 6 reply;
    if eqb_list t mac then
      s ← peek 28 4 reply;
      Some (load s =? yiaddr)
    else Some false
  else Some false.

(** The loop: the answer, and how often the request was sent. *)
Fixpoint arp_loop (answers : list answer) (timeout : nat) (rv : Z) (reply : list (option Z)) (sent : nat) : option (Z * nat) :=
  match timeout with
  | O => Some (rv, sent)
  | S timeout' =>
      match answers with
      | [] => None
      | Select_error eintr :: _ => Some (if eintr then rv else 0, sent)
      | Recv_error :: answers =>
          match is_answer reply with
          | Some true => Some (0, sent)
          | Some false => arp_loop answers timeout 0 reply sent
          | None => None
          end
      | Frame bs :: answers =>
          let reply := take_frame bs reply in
          match is_answer reply with
          | Some true => Some (0, sent)
          | Some false => arp_loop answers timeout rv reply sent
          | None => None
          end
      | Silence :: answers => arp_loop answers timeout' rv reply (if (0 <? timeout')%nat then S sent else sent)
      end
  end.

(** 1: the address is free, 0: it is in use, -1: an error.  The name of the interface goes to the 14 bytes of [sa_data]. *)
Definition arpping (interface : list Z) (socket_ok option_ok sent_ok : bool) (answers : list answer) : option (Z * nat) :=
  if socket_ok then
    if option_ok then
      if zlen interface <? 14 then
        if sent_ok then arp_loop answers 2 1 (replicate ARP_SIZE None) 1
        else Some (-1, 0%nat)
      else None
    else Some (-1, 0%nat)
  else Some (-1, 0%nat).

(** ** Who answers *)

(** A host with an address answers a request for it, and no other (RFC 826). *)
Definition host_answers (own : list Z) (addr : list Z) (m : arpMsg) : option arpMsg :=
  if (operation m =? ARPOP_REQUEST) && eqb_list (tInaddr m) addr
  then Some (mkarp (sHaddr m) own (h_proto m) (arp_htype m) (ptype m) (arp_hlen m) (plen m) ARPOP_REPLY own addr (sHaddr m) (sInaddr m))
  else None.

Record arp_ok (m : arpMsg) : Prop := {
  ao_dest : length (h_dest m) = 6%nat;
  ao_source : length (h_source m) = 6%nat;
  ao_sHaddr : length (sHaddr m) = 6%nat;
  ao_sInaddr : length (sInaddr m) = 4%nat;
  ao_tHaddr : length (tHaddr m) = 6%nat;
  ao_tInaddr : length (tInaddr m) = 4%nat
}.

Definition fields (m : arpMsg) : list (list Z) :=
  [h_dest m; h_source m; be_bytes 2 (h_proto m); be_bytes 2 (arp_htype m); be_bytes 2 (ptype m); [arp_hlen m; plen m]; be_bytes 2 (operation m);
   sHaddr m; sInaddr m; tHaddr m; tInaddr m; replicate 18 0].

Lemma frame_fields m : frame m = concat (fields m).
Proof using Type. cbn [fields concat]. unfold frame. by rewrite app_nil_r. Qed.

Lemma length_frame m : arp_ok m -> length (frame m) = ARP_SIZE.
Proof using Type. intros [H1 H2 H3 H4 H5 H6]. unfold frame. by rewrite !length_app, !length_be_bytes, H1, H2, H3, H4, H5, H6. Qed.

Lemma mapM_Some (l : list Z) : mapM id (map Some l) = Some l.
Proof using Type. induction l as [|x l IH]; [done|]. cbn. by rewrite IH. Qed.

(** A whole frame is in the buffer, whatever was there. *)
Lemma take_frame_whole m reply : arp_ok m -> length reply = ARP_SIZE -> take_frame (frame m) reply = map Some (frame m).
Proof using Type.
  intros Hm Hr. pose proof (length_frame m Hm) as Hl. unfold take_frame. rewrite <- Hl, firstn_all. cbn zeta. by rewrite drop_ge, app_nil_r by lia.
Qed.

Lemma peek_frame m reply k x a n : arp_ok m -> length reply = ARP_SIZE -> fields m !! k = Some x -> length (concat (take k (fields m))) = a -> length x = n ->
  peek a n (take_frame (frame m) reply) = Some x.
Proof using Type.
  intros Hm Hr Hk <- <-. unfold peek. rewrite take_frame_whole by done. rewrite skipn_map, firstn_map, mapM_Some. f_equal. rewrite frame_fields. by apply slice_concat.
Qed.

Ltac at_field k a n := erewrite (peek_frame _ _ k _ a n); [|eassumption|eassumption|reflexivity|
  cbn [take concat fields]; rewrite ?length_app, ?length_be_bytes; repeat match goal with H : length _ = _ |- _ => rewrite H end; reflexivity|
  rewrite ?length_be_bytes; repeat match goal with H : length _ = _ |- _ => rewrite H end; reflexivity].

(** The frames that the loop takes for an answer. *)
Lemma is_answer_frame m reply : arp_ok m -> length reply = ARP_SIZE -> 0 <= operation m < 65536 ->
  is_answer (take_frame (frame m) reply) = Some ((operation m =? ARPOP_REPLY) && eqb_list (tHaddr m) mac && (load (sInaddr m) =? yiaddr)).
Proof using Type.
  intros Hm Hr Ho. pose proof Hm as [H1 H2 H3 H4 H5 H6]. unfold is_answer. at_field 6%nat 20%nat 2%nat. cbn [mbind option_bind].
  assert ((load (be_bytes 2 (operation m)) =? htons ARPOP_REPLY) = (operation m =? ARPOP_REPLY)) as ->.
  { unfold htons. destruct (Z.eqb_spec (operation m) ARPOP_REPLY) as [->|Hne]; [apply Z.eqb_refl|]. apply Z.eqb_neq. intros E. apply Hne.
    apply (f_equal (store 2)) in E. rewrite !(store_load (be_bytes 2 _)) in E by apply be_bytes_bytes.
    apply (f_equal be_word) in E. rewrite !be_word_bytes in E by (done || cbn; lia). done. }
  destruct (operation m =? ARPOP_REPLY); [|done]. at_field 9%nat 32%nat 6%nat. cbn [mbind option_bind andb]. destruct (eqb_list (tHaddr m) mac); [|done]. at_field 8%nat 28%nat 4%nat. done.
Qed.

(** Frames that are no answer, and times without a frame. *)
Definition harmless (a : answer) : Prop :=
  match a with
  | Silence => True
  | Frame bs => exists m, bs = frame m /\ arp_ok m /\ 0 <= operation m < 65536 /\ (operation m =? ARPOP_REPLY) && eqb_list (tHaddr m) mac && (load (sInaddr m) =? yiaddr) = false
  | _ => False
  end.

Definition silences (l : list answer) : nat := length (List.filter (fun a => if a is Silence then true else false) l).

Lemma loop_skips pre : Forall harmless pre -> forall post timeout rv reply sent, (silences pre < timeout)%nat -> length reply = ARP_SIZE ->
  exists reply', length reply' = ARP_SIZE /\ arp_loop (pre ++ post) timeout rv reply sent = arp_loop post (timeout - silences pre) rv reply' (sent + silences pre).
Proof using Type.
  induction 1 as [|a pre Ha _ IH]; intros post [|timeout] rv reply sent Hs Hr; try lia; [exists reply; by rewrite Nat.sub_0_r, Nat.add_0_r|].
  destruct a as [| |bs|]; try done.
  - destruct Ha as (m & -> & Hm & Ho & Hn). cbn [app arp_loop]. rewrite is_answer_frame, Hn by done. apply IH; [exact Hs|]. rewrite take_frame_whole by done. by rewrite length_map, length_frame.
  - change (silences (Silence :: pre)) with (S (silences pre)) in *. cbn [app arp_loop]. rewrite (proj2 (Nat.ltb_lt 0 timeout)) by lia.
    destruct (IH post timeout rv reply (S sent)) as (r & Hr' & ->); [lia|done|]. exists r. split; [done|]. f_equal. lia.
Qed.

Context (Hmac : length mac = 6%nat) (interface : list Z) (Hif : zlen interface < 14).

Lemma arpping_runs answers : arpping interface true true true answers = arp_loop answers 2 1 (replicate ARP_SIZE None) 1.
Proof using Hif. unfold arpping. by rewrite (proj2 (Z.ltb_lt _ _) Hif). Qed.

(** Who has the address and answers the request before the second time without a frame is found, whatever other frames there are. *)
Theorem holder_found own m pre post : is_word 4 yiaddr -> length own = 6%nat -> host_answers own (store 4 yiaddr) arp_request = Some m ->
  Forall harmless pre -> (silences pre < 2)%nat ->
  arpping interface true true true (pre ++ Frame (frame m) :: post) = Some (0, S (silences pre)).
Proof using Hif Hmac.
  intros Hy Ho E Hp Hs. rewrite arpping_runs. destruct (loop_skips pre Hp (Frame (frame m) :: post) 2 1 (replicate ARP_SIZE None) 1 Hs (length_replicate _ _)) as (r & Hr & ->).
  unfold host_answers, arp_request in E. cbn [operation tInaddr sHaddr sInaddr h_proto arp_htype ptype arp_hlen plen] in E. case_match; [|done]. injection E as <-.
  destruct (2 - silences pre)%nat as [|k] eqn:Ek; [lia|]. cbn [arp_loop]. rewrite is_answer_frame; [|constructor; cbn; try done; apply length_store|done|cbn; unfold ARPOP_REPLY; lia].
  cbn [operation tHaddr sInaddr]. rewrite load_store by done. rewrite !Z.eqb_refl. by rewrite (proj2 (DhcpLeases.eqb_list_true mac mac) eq_refl).
Qed.

(** If nobody answers, the request is sent twice and the address is free. *)
Theorem nobody_found pre post : Forall harmless pre -> silences pre = 1%nat -> arpping interface true true true (pre ++ Silence :: post) = Some (1, 2%nat).
Proof using Hif.
  intros Hp Hs. rewrite arpping_runs. destruct (loop_skips pre Hp (Silence :: post) 2 1 (replicate ARP_SIZE None) 1 ltac:(rewrite Hs; constructor) (length_replicate _ _)) as (r & Hr & ->).
  rewrite Hs. by destruct post.
Qed.

(** A host without the address does not answer. *)
Theorem others_silent own addr : addr <> store 4 yiaddr -> host_answers own addr arp_request = None.
Proof using Type.
  intros Hne. unfold host_answers. cbn [arp_request tInaddr operation]. destruct (eqb_list (store 4 yiaddr) addr) eqn:E; [|by rewrite andb_false_r]. exfalso. apply Hne. symmetry. by apply DhcpLeases.eqb_list_true.
Qed.

(** If the first [recv] fails, the reply that is looked at was never written. *)
Theorem recv_error_unset answers : arpping interface true true true (Recv_error :: answers) = None.
Proof using Hif. by rewrite arpping_runs. Qed.
End Ping.

(** Frames of others do not count against the time: the loop lasts as long as they come. *)
Theorem frames_prolong `{Endian} yiaddr mac pre timeout rv reply sent : Forall (harmless yiaddr mac) pre -> silences pre = 0%nat -> length reply = ARP_SIZE -> (0 < timeout)%nat ->
  arp_loop yiaddr mac pre timeout rv reply sent = None.
Proof.
  intros Hp Hs Hr Ht. destruct (loop_skips yiaddr mac pre Hp [] timeout rv reply sent ltac:(lia) Hr) as (r & _ & E). rewrite app_nil_r in E. rewrite E, Hs. destruct timeout; [lia|done].
Qed.
End Arpping.
